(* ===== verification/_CoqProject ===== *)
-Q . S2P
Prelude.v
Trace.v
Wire.v
Binary754.v
Clock.v
Fields.v
Bootstrap.v
Download.v
Nominal.v
VendorImage.v
DownloadLinux.v
Runner.v
Session.v
Nav.v
HostQueue.v
HostText.v
AgpsHost.v
HostWorker.v
AgpsReceiver.v
NativeHost.v
HostConfig.v
SlotService.v
NativeArguments.v
GpuIo.v
GpuSram.v
GpuLease.v
GpuReset.v
Segments.v
LayoutModel.v
Semantic.v
BootEvidence.v
SmemOwner.v
SmemLife.v
SmemReservation.v
CcdCq.v
CcdSession.v
Regulator.v
Camsv.v
Recipe.v
CcdOwner.v
Capture.v
Pipeline.v
Pss.v
Cert.v
FwMeta.v
EmiRows.v
ModemBoot.v
ModemLoad.v
