(* ===== verification/Prelude.v ===== *)
(** * Verification of the native components of the MT6878 port

    The repository ports Linux to one MT6878 phone. Beside packaging, kernel
    patches and device trees it holds its own C programs under [src/patches]:
    small owners that take over a piece of hardware the vendor's software
    controlled before. Each of them admits its inputs, drives one protocol and
    fails closed. This library models these owners and proves what they promise.

    ** The program and its model

    GNSS ([patches/gnss], [patches/gnss-navigation-audit]). A standalone program
    loads the positioning DSP. [Wire] is the frame format ([wire.c]), [Clock]
    and [Binary754] the clock words and their floating point ([clock.c]),
    [Fields] and [Bootstrap] the bootstrap payload ([bootstrap_fields.c],
    [bootstrap.c]), [Download] the download owner ([download.c]). [Nominal] is
    the native policy and [VendorImage] the readers of the vendor library's
    mapping ([live-inputs/selectors.c], [b41_capability_branch.c]).
    [DownloadLinux] performs the owner's actions by system calls
    ([download_linux.c]) and [Runner] is [main]. [Session] starts and stops the
    loaded DSP ([native-session/session.c]), [Nav] decodes what it reports
    ([native-navigation/navigation.c]).

    The receiver host runs the vendor's engine in a child process.
    [HostQueue] is the queue that the engine's callbacks fill and one worker
    drains, [HostText] the sentences and the setters of the configuration
    ([b41_startup_adapter.c]). [AgpsHost] is the assistance socket, its packets
    and the output sinks ([b41_agps_host.c], [b41_agps_endpoint.c],
    [b41_navigation_output.c]), [HostWorker] the thread that takes events and
    hands them to the dispatch behind its pointer ([b41_frame_worker.c]; the
    class [Dispatcher] is what it relies on in that function, with the
    dispatch of [AgpsHost] and that of [SlotService] as instances), [AgpsReceiver] the thread that brings
    requests of the assistance service to the engine ([native-agps-receiver]),
    and [NativeHost] the session: notices, the watch, the ordered stop, the
    proof that threads were joined and the wait for the child
    ([b41_native_receiver_host.c]). [HostConfig] builds the two configuration
    blocks with the origin of every byte, and the bundle ([b41_first_config.c]
    to [b41_startup_bundle.c], [b41_engine_arguments.c]); [SlotService] is the
    callback by which the engine asks for assistance, and the dispatch that
    production gives to the worker ([b41_slot6_service.c]); [NativeArguments] identifies the devices and puts
    all of these together for one execution ([b41_gpsdl_identity.c],
    [b41_native_arguments.c]).

    GPU ([patches/gpu]). [Segments] inspects the firmware image
    ([uboot-segments]), [GpuIo] and [GpuSram] are the register and SRAM cores
    ([mmio-scope], [sram-owner]), [GpuLease] the SRAM driver and [GpuReset] the
    mailbox with its interrupt thread ([reset-owner-draft]), which uses
    [GpuLease].

    Modem ([patches/modem]). [Pss], [Cert] and [FwMeta] authenticate the
    firmware ([mt6878_md_pss32.c], [mt6878_md_mtk_cert.c],
    [signed-input/mt6878_md_fw_metadata.c]), each over the one before.
    [LayoutModel], [Semantic] and [BootEvidence] are the memory layout, the tag
    import and the boot loader's evidence. [SmemOwner], [SmemLife] and
    [SmemReservation] own the shared memory. [Regulator] is the supply.
    [EmiRows], [ModemBoot] and [ModemLoad] are the boot loader's side:
    protected rows ([emi-rows]), the start of the modem and, around it, the
    loading of its images ([bootstrap-integration]).

    Camera ([patches/camera-*]). A capture runs through six owners. [Camsv] is the
    capture engine and its buffers ([camera-camsv]), [CcdCq] the command queue and
    [Recipe] the 59 register writes of a frame ([camera-ccd-cq]). [CcdSession] is
    the one-shot gate of the composer, [CcdOwner] the transport owner over it and
    [Capture] the way from an acknowledged frame to the engine
    ([camera-composer]). [Pipeline] owns the shared buffers and the endpoint and
    publishes them ([camera-pipeline-owner]).

    Each file has its component's state as a record with the source's fields,
    its enumerations as inductive types and one definition per function, in the
    order of the source. [PROJECT.json] maps every definition to its lines.

    ** How code is modelled

    Machine words are [Z] with their width written out ([u8], [u16], [u32],
    [u64] of this file); a pointer that the source compares keeps its address
    ([ptr] of [Fields]); buffers are lists of bytes. Errors are the negative
    values of the source. System calls, registers, kernel services and
    allocations are requests to an arbitrary environment ([Trace]): a theorem
    [performs m R] holds for every answer at every point, and says that [m]
    ends. [via] of [Trace] puts the requests of one owner into those of the next,
    so that [Capture] and [Pipeline] run [CcdOwner] and [Camsv] as they are, and
    [moves] is the ledger of what a trace holds. Where the source runs under a
    lock a history is a sequence of calls; where it releases the lock
    ([GpuReset]) or has callbacks outside it ([CcdOwner], [Pipeline]) the
    histories interleave there. [HostQueue] interleaves every shared access of
    its producers and its consumer, [NativeHost] those of the notice word; the
    atomic flags that two threads of the host share are requests of the trace.
    Code outside the sources is a parameter: [Asn1] of [Cert] (the kernel's
    decoder), [Planner] of [FwMeta], [Emi] of [EmiRows], [Vendor] of [SmemOwner], [Ioremap] of
    [SmemLife], [Kernel] of [Session] and [Mmio] of [GpuIo], with their
    documented behaviour as laws where a theorem needs it, and an instance.

    ** What is shown

    - Formats: [decode_ack_exact], [packet_decode_exact], [boot_decode_exact],
      [camera_ack_exact] and [cert_parse_exact] say that a decoder accepts
      exactly the encodings and returns what was encoded; [pss_verify_exact]
      compares with the encoding of RFC 8017; [cq_executes_requests] and
      [recipe_executes] read a finished queue with the hardware's rules;
      [frame_message_exact] is the message the composer gets. [agps_request_exact]
      and [slot6_roundtrip] are the two directions of the assistance service.
    - Protocols: [download_refines_protocol] and [epoch_accept_refines] are
      refinements of an abstract state machine; [download_dialogue] and
      [runner_dialogue] carry the first to the device, [download_completes] and
      [runner_terminates] are progress and termination; [session_stop_order],
      [mailbox_exchanges], [mailbox_transfers] and [ccd_owner_protocol] are the
      orders a device sees; [loaded_boot_order] is the modem's, from the check
      that it is off to its boot ROM and back down after a failure, over
      [modem_power_order], and [modem_monitor_calls] bounds what the secure
      monitor is asked; [ccd_zero_acknowledged], [pipeline_session] and
      [capture_chain] tie a success, and every request to the capture engine, to
      an acknowledgement that arrived.
    - The host: [host_queue_linearizable] refines a bounded queue under every
      schedule, [host_first_error] keeps the first error and
      [host_calls_wait_free] bounds every call; [worker_delivers] (with the
      production dispatch) and [receiver_deliveries] say what leaves for the
      service and what reaches the engine, and which refusals have a reason; [agps_owner_protocol] and [receiver_descriptors] own sockets and
      descriptors; [session_order], [join_ack_exact] and [child_wait_protocol]
      order start, stop and reaping, [child_wait_returns] ends it;
      [bundle_provenance] and [startup_config_typed] are the types of the
      configuration, and [arguments_never_run] composes the files: while a
      contract is missing the engine is never reached, and an execution that is
      refused performs the stop of a receiver that is still open.
    - Ownership: [runner_descriptors], [mailbox_resources], [sram_ranges_disjoint],
      [smem_lifecycle], [rail_discipline], [camsv_buffers_once],
      [pipeline_resources] and [pipeline_callbacks] hold over every history;
      [import_all_or_nothing], [fw_prepare_authentic] and [chain_of_trust] publish
      all or nothing.
    - Values: [nominal_policy_exact], [from_arguments_sound] and
      [camsv_submission] are functional; [inspect_segments_sound] and
      [vendor_image_reads] are memory bounds and say where each reported byte was
      read; [registration_safe] and
      [camsv_stopping] are errors and bounded waits.
    - Further theorems of the files, such as [clock_round_nearest],
      [time_seed_exact], [host_position_sound], [plan_smem_exact],
      [pt_roundtrip], [mailbox_gate], [gpueb_tx_order], [ccd_one_shot],
      [startup_path_exact], [notices_not_lost], [slot6_dispatch_exact] and
      [gpsdl_identity_exact], are about single functions.

    ** Fuel

    Loops over data recurse on the data. Loops with a bound of the source use it
    as fuel: 0x296 steps of the feature scan, 17 partition records, 100000 polls
    of a camera reset, 10000 of a modem register and 100 of its boot ROM, 8
    mailbox slots, 128 shared-memory rows, 11 channels, 50
    profile rows. [Segments] counts program headers by the header's own field.
    The other loops run until the world changes: those of [Runner.main], of the
    two threads, of the watch, of the waits for a completion and for the child.
    Their fuel is a parameter and spent fuel is an outcome of its own, about
    which the theorems say what has happened so far; [runner_terminates] and
    [child_wait_returns] show that it does not occur once the clock passes the
    deadline.

    ** Not modelled

    The isolation probes and the readers on libxml2 and OpenSSL call
    libraries that are not part of the sources; the vendor's engine itself is
    requests with arbitrary answers. Kernel driver registration, power domains,
    media graph and video queue glue around the modelled cores are frameworks
    of the kernel. The build of the GNSS program that retains its session, the
    planner of the protected rows, the tags that the boot loader publishes and
    modem power management are not modelled yet. Device
    trees, patches, tests and Python and shell tooling have no logic that a
    model would add to. *)

(** * Shared vocabulary of the development *)

From Stdlib Require Export ZArith Lia Bool ZifyBool.
From stdpp Require Export prelude.
Open Scope Z_scope.

(** ** Linux errno values, as the sources spell them *)

Abbreviation EPERM := 1 (only parsing).
Abbreviation ENOENT := 2 (only parsing).
Abbreviation ESRCH := 3 (only parsing).
Abbreviation EINTR := 4 (only parsing).
Abbreviation EIO := 5 (only parsing).
Abbreviation ENXIO := 6 (only parsing).
Abbreviation E2BIG := 7 (only parsing).
Abbreviation EBADF := 9 (only parsing).
Abbreviation ECHILD := 10 (only parsing).
Abbreviation EAGAIN := 11 (only parsing).
Abbreviation ENOMEM := 12 (only parsing).
Abbreviation EACCES := 13 (only parsing).
Abbreviation EFAULT := 14 (only parsing).
Abbreviation EBUSY := 16 (only parsing).
Abbreviation EEXIST := 17 (only parsing).
Abbreviation EXDEV := 18 (only parsing).
Abbreviation ENODEV := 19 (only parsing).
Abbreviation EINVAL := 22 (only parsing).
Abbreviation ENOSPC := 28 (only parsing).
Abbreviation EPIPE := 32 (only parsing).
Abbreviation ENAMETOOLONG := 36 (only parsing).
Abbreviation ERANGE := 34 (only parsing).
Abbreviation ENOSYS := 38 (only parsing).
Abbreviation ENODATA := 61 (only parsing).
Abbreviation EPROTO := 71 (only parsing).
Abbreviation EBADMSG := 74 (only parsing).
Abbreviation EOVERFLOW := 75 (only parsing).
Abbreviation EMSGSIZE := 90 (only parsing).
Abbreviation EPROTONOSUPPORT := 93 (only parsing).
Abbreviation EOPNOTSUPP := 95 (only parsing).
Abbreviation EADDRINUSE := 98 (only parsing).
Abbreviation EADDRNOTAVAIL := 99 (only parsing).
Abbreviation ECONNRESET := 104 (only parsing).
Abbreviation ENOBUFS := 105 (only parsing).
Abbreviation ENOTCONN := 107 (only parsing).
Abbreviation ESHUTDOWN := 108 (only parsing).
Abbreviation ETIMEDOUT := 110 (only parsing).
Abbreviation EHOSTDOWN := 112 (only parsing).
Abbreviation EALREADY := 114 (only parsing).
Abbreviation EINPROGRESS := 115 (only parsing).
Abbreviation ESTALE := 116 (only parsing).
Abbreviation EUCLEAN := 117 (only parsing).
Abbreviation EREMOTEIO := 121 (only parsing).
Abbreviation ECANCELED := 125 (only parsing).
Abbreviation ENOKEY := 126 (only parsing).
Abbreviation EKEYREJECTED := 129 (only parsing).
Abbreviation EPROBE_DEFER := 517 (only parsing).

(** ** Machine integers

    A value of a [w]-bit unsigned type is a [Z] in [0 .. 2^w); a conversion
    or an arithmetic operation of that type reduces modulo [2^w]. *)

Definition u8 (z : Z) : Z := z mod 256.
Definition u16 (z : Z) : Z := z mod 65536.
Definition u32 (z : Z) : Z := z mod 4294967296.
Definition u64 (z : Z) : Z := z mod 18446744073709551616.

(** Conversion of a 32-bit pattern to [int]. *)
Definition s32 (z : Z) : Z :=
  let v := u32 z in if v <? 2147483648 then v else v - 4294967296.

Abbreviation UINT16_MAX := 65535 (only parsing).
Abbreviation UINT32_MAX := 4294967295 (only parsing).
Abbreviation UINT64_MAX := 18446744073709551615 (only parsing).

Definition is_u8 (z : Z) : Prop := 0 <= z < 256.
Definition is_u16 (z : Z) : Prop := 0 <= z < 65536.
Definition is_u32 (z : Z) : Prop := 0 <= z < 4294967296.
Definition is_u64 (z : Z) : Prop := 0 <= z < 18446744073709551616.

#[export] Instance is_u8_dec z : Decision (is_u8 z).
Proof. unfold is_u8; apply _. Defined.
#[export] Instance is_u32_dec z : Decision (is_u32 z).
Proof. unfold is_u32; apply _. Defined.

Ltac unfold_widths := unfold is_u8, is_u16, is_u32, is_u64, u8, u16, u32, u64 in *.

Lemma u8_id z : is_u8 z -> u8 z = z.
Proof. unfold_widths. intros. apply Z.mod_small; lia. Qed.
Lemma u16_id z : is_u16 z -> u16 z = z.
Proof. unfold_widths. intros. apply Z.mod_small; lia. Qed.
Lemma u32_id z : is_u32 z -> u32 z = z.
Proof. unfold_widths. intros. apply Z.mod_small; lia. Qed.
Lemma u64_id z : is_u64 z -> u64 z = z.
Proof. unfold_widths. intros. apply Z.mod_small; lia. Qed.
Lemma u8_range z : is_u8 (u8 z).
Proof. unfold_widths. apply Z.mod_pos_bound; lia. Qed.
Lemma u16_range z : is_u16 (u16 z).
Proof. unfold_widths. apply Z.mod_pos_bound; lia. Qed.
Lemma u32_range z : is_u32 (u32 z).
Proof. unfold_widths. apply Z.mod_pos_bound; lia. Qed.
Lemma u64_range z : is_u64 (u64 z).
Proof. unfold_widths. apply Z.mod_pos_bound; lia. Qed.

(** Disjoint-bit [lor] is addition. *)
Lemma land_shiftl_disjoint a b n :
  0 <= n -> 0 <= a < 2 ^ n -> Z.land a (Z.shiftl b n) = 0.
Proof.
  intros Hn Ha. apply Z.bits_inj'; intros k Hk.
  rewrite Z.land_spec, Z.bits_0, Z.shiftl_spec by lia.
  destruct (Z.lt_ge_cases k n).
  - rewrite (Z.testbit_neg_r b) by lia. apply andb_false_r.
  - replace (Z.testbit a k) with false; [reflexivity|].
    destruct (Z.eq_dec a 0) as [->|]; [now rewrite Z.bits_0|].
    symmetry. apply Z.bits_above_log2; [lia|].
    apply Z.lt_le_trans with n; [|lia]. apply Z.log2_lt_pow2; lia.
Qed.

Lemma lor_shiftl_add a b n :
  0 <= n -> 0 <= a < 2 ^ n -> Z.lor a (Z.shiftl b n) = a + b * 2 ^ n.
Proof.
  intros Hn Ha. pose proof (land_shiftl_disjoint a b n Hn Ha) as Hd.
  rewrite <- Z.lxor_lor, <- Z.add_nocarry_lxor by assumption.
  now rewrite Z.shiftl_mul_pow2 by lia.
Qed.

Lemma lor_0_inv a b : Z.lor a b = 0 <-> a = 0 /\ b = 0.
Proof. apply Z.lor_eq_0_iff. Qed.

(** ** Byte buffers

    A buffer is a list of byte values. [byte_at] is C's [p[i]]; reads are
    only meaningful inside the buffer. [write_at] stores a run of bytes. *)

Definition len {A} (l : list A) : Z := Z.of_nat (length l).
Definition byte_at (l : list Z) (i : Z) : Z := nth (Z.to_nat i) l 0.
Definition bytes_ok (l : list Z) : Prop := Forall is_u8 l.
Definition slice (l : list Z) (i n : Z) : list Z :=
  firstn (Z.to_nat n) (skipn (Z.to_nat i) l).
Definition write_at (l : list Z) (i : Z) (bs : list Z) : list Z :=
  firstn (Z.to_nat i) l ++ bs ++ skipn (Z.to_nat i + length bs) l.
Definition zeros (n : Z) : list Z := repeat 0 (Z.to_nat n).

Lemma len_nonneg {A} (l : list A) : 0 <= len l.
Proof. unfold len; lia. Qed.
Lemma len_nil {A} : len (@nil A) = 0.
Proof. reflexivity. Qed.
Lemma len_cons {A} (x : A) l : len (x :: l) = 1 + len l.
Proof. unfold len; simpl length; lia. Qed.
Lemma len_app {A} (a b : list A) : len (a ++ b) = len a + len b.
Proof. unfold len. rewrite length_app. lia. Qed.
Lemma len_zeros n : 0 <= n -> len (zeros n) = n.
Proof. intros. unfold len, zeros. rewrite repeat_length. lia. Qed.

Lemma len_take (l : list Z) n : 0 <= n <= len l -> len (firstn (Z.to_nat n) l) = n.
Proof. unfold len. intros. rewrite length_firstn. lia. Qed.
Lemma len_slice l i n : 0 <= i -> 0 <= n -> i + n <= len l -> len (slice l i n) = n.
Proof.
  unfold len, slice. intros. rewrite length_firstn, length_skipn. lia.
Qed.

Lemma byte_at_app_l a b i : 0 <= i < len a -> byte_at (a ++ b) i = byte_at a i.
Proof. unfold byte_at, len. intros. apply app_nth1. lia. Qed.
Lemma byte_at_app_r a b i : len a <= i -> byte_at (a ++ b) i = byte_at b (i - len a).
Proof.
  unfold byte_at, len. intros. rewrite app_nth2 by lia. f_equal. lia.
Qed.
Lemma byte_at_cons_0 x l : byte_at (x :: l) 0 = x.
Proof. reflexivity. Qed.
Lemma byte_at_cons x l i : 0 < i -> byte_at (x :: l) i = byte_at l (i - 1).
Proof.
  unfold byte_at. intros. replace (Z.to_nat i) with (S (Z.to_nat (i - 1))) by lia.
  reflexivity.
Qed.
Lemma byte_at_over l i : len l <= i -> byte_at l i = 0.
Proof. unfold byte_at, len. intros. apply nth_overflow. lia. Qed.
Lemma byte_at_u8 l i : bytes_ok l -> is_u8 (byte_at l i).
Proof.
  intros H. unfold byte_at. destruct (nth_in_or_default (Z.to_nat i) l 0) as [Hin| ->].
  - unfold bytes_ok in H. rewrite Forall_forall in H. apply H. now apply list_elem_of_In.
  - unfold is_u8; lia.
Qed.
Lemma byte_at_zeros n i : byte_at (zeros n) i = 0.
Proof. apply nth_repeat. Qed.
Lemma byte_at_skip l i j : 0 <= i -> 0 <= j ->
  byte_at (skipn (Z.to_nat i) l) j = byte_at l (i + j).
Proof.
  unfold byte_at. intros. rewrite nth_skipn. f_equal. lia.
Qed.
Lemma byte_at_take l n i : 0 <= i < n -> byte_at (firstn (Z.to_nat n) l) i = byte_at l i.
Proof.
  unfold byte_at. intros. rewrite nth_firstn.
  destruct (Nat.ltb_spec (Z.to_nat i) (Z.to_nat n)); [reflexivity|lia].
Qed.
Lemma byte_at_slice l i n j : 0 <= i -> 0 <= j < n -> byte_at (slice l i n) j = byte_at l (i + j).
Proof. intros. unfold slice. rewrite byte_at_take by lia. now apply byte_at_skip. Qed.

(** Buffers are equal when they have the same length and the same bytes. *)
Lemma bytes_ext a b :
  len a = len b -> (forall i, 0 <= i < len a -> byte_at a i = byte_at b i) -> a = b.
Proof.
  unfold len, byte_at. intros Hl H. apply nth_ext with 0 0; [lia|].
  intros n Hn. specialize (H (Z.of_nat n)). rewrite Nat2Z.id in H. apply H. lia.
Qed.

Lemma len_write_at l i bs : 0 <= i -> i + len bs <= len l -> len (write_at l i bs) = len l.
Proof.
  unfold write_at, len. intros. rewrite !length_app, length_firstn, length_skipn. lia.
Qed.
Lemma byte_at_write_in l i bs j :
  0 <= i -> i + len bs <= len l -> i <= j < i + len bs ->
  byte_at (write_at l i bs) j = byte_at bs (j - i).
Proof.
  intros. unfold write_at. pose proof (len_nonneg bs).
  rewrite byte_at_app_r; rewrite len_take by lia; [|lia].
  rewrite byte_at_app_l by lia. reflexivity.
Qed.
Lemma byte_at_write_out l i bs j :
  0 <= i -> i + len bs <= len l -> 0 <= j -> j < i \/ i + len bs <= j ->
  byte_at (write_at l i bs) j = byte_at l j.
Proof.
  intros Hi Hl Hj [Hlt|Hge]; unfold write_at; pose proof (len_nonneg bs).
  - rewrite byte_at_app_l; [|rewrite len_take; lia]. apply byte_at_take. lia.
  - rewrite byte_at_app_r; rewrite len_take by lia; [|lia].
    rewrite byte_at_app_r by lia.
    replace (Z.to_nat i + length bs)%nat with (Z.to_nat (i + len bs)) by (unfold len; lia).
    rewrite byte_at_skip by lia. f_equal. lia.
Qed.
(** Sequential stores extend the written prefix. *)
Lemma write_at_app pre rest i bs : i = len pre ->
  write_at (pre ++ rest) i bs = (pre ++ bs) ++ skipn (length bs) rest.
Proof.
  intros ->. unfold write_at, len. rewrite Nat2Z.id, take_app_length, drop_app_add.
  now rewrite app_assoc.
Qed.
Lemma bytes_ok_app a b : bytes_ok (a ++ b) <-> bytes_ok a /\ bytes_ok b.
Proof. apply Forall_app. Qed.
Lemma bytes_ok_take l n : bytes_ok l -> bytes_ok (firstn n l).
Proof. unfold bytes_ok. intros. now apply Forall_take. Qed.
Lemma bytes_ok_skip l n : bytes_ok l -> bytes_ok (skipn n l).
Proof. unfold bytes_ok. intros. now apply Forall_drop. Qed.
Lemma bytes_ok_zeros n : bytes_ok (zeros n).
Proof.
  apply Forall_forall. intros x Hx%list_elem_of_In%repeat_spec.
  subst. unfold is_u8; lia.
Qed.
Lemma bytes_ok_slice l i n : bytes_ok l -> bytes_ok (slice l i n).
Proof. intros. now apply bytes_ok_take, bytes_ok_skip. Qed.
Lemma bytes_ok_write l i bs : bytes_ok l -> bytes_ok bs -> bytes_ok (write_at l i bs).
Proof. intros. unfold write_at. rewrite !bytes_ok_app. auto using bytes_ok_take, bytes_ok_skip. Qed.

(** [concrete_bytes] decides [bytes_ok] of a closed buffer. *)
Ltac concrete_bytes :=
  lazymatch goal with
  | |- bytes_ok ?l => apply (bool_decide_unpack (Forall is_u8 l)); vm_compute; exact I
  end.

(** ** Little-endian words *)

Fixpoint le_of (l : list Z) : Z :=
  match l with [] => 0 | b :: t => b + 256 * le_of t end.
Fixpoint le_to (n : nat) (z : Z) : list Z :=
  match n with O => [] | S n => u8 z :: le_to n (z / 256) end.

Lemma length_le_to n z : length (le_to n z) = n.
Proof. revert z; induction n; simpl; auto. Qed.
Lemma len_le_to n z : len (le_to n z) = Z.of_nat n.
Proof. unfold len. now rewrite length_le_to. Qed.
Lemma bytes_ok_le_to n z : bytes_ok (le_to n z).
Proof. revert z; induction n; simpl; constructor; auto using u8_range. apply IHn. Qed.
Lemma le_of_range l : bytes_ok l -> 0 <= le_of l < 256 ^ len l.
Proof.
  induction 1 as [|b t Hb Ht IH]; simpl le_of; [cbv; split; congruence|].
  rewrite len_cons, Z.pow_add_r by (pose proof (len_nonneg t); lia).
  change (256 ^ 1) with 256. unfold is_u8 in Hb. lia.
Qed.
Lemma le_of_le_to n z : le_of (le_to n z) = z mod 256 ^ Z.of_nat n.
Proof.
  revert z; induction n as [|n IH]; intros z; simpl le_to; simpl le_of.
  - now rewrite Z.mod_1_r.
  - rewrite IH, Nat2Z.inj_succ, Z.pow_succ_r by lia. unfold u8.
    rewrite Z.rem_mul_r; lia.
Qed.
Lemma le_to_le_of l : bytes_ok l -> le_to (length l) (le_of l) = l.
Proof.
  induction 1 as [|b t Hb Ht IH]; simpl; [reflexivity|].
  unfold u8, is_u8 in *. f_equal.
  - rewrite (Z.mul_comm 256), Z.mod_add by lia. apply Z.mod_small; lia.
  - rewrite (Z.mul_comm 256), Z.div_add, (Z.div_small b) by lia. exact IH.
Qed.

(** The readers and writers the sources use, with their shifts. *)
Definition le16 (l : list Z) (i : Z) : Z :=
  Z.lor (byte_at l i) (Z.shiftl (byte_at l (i + 1)) 8).
Definition le32 (l : list Z) (i : Z) : Z :=
  Z.lor (Z.lor (Z.lor (byte_at l i) (Z.shiftl (byte_at l (i + 1)) 8))
               (Z.shiftl (byte_at l (i + 2)) 16))
        (Z.shiftl (byte_at l (i + 3)) 24).
Definition le64 (l : list Z) (i : Z) : Z :=
  Z.lor (le32 l i) (Z.shiftl (le32 l (i + 4)) 32).
Definition put16 (v : Z) : list Z := [u8 v; u8 (Z.shiftr v 8)].
Definition put32 (v : Z) : list Z :=
  [u8 v; u8 (Z.shiftr v 8); u8 (Z.shiftr v 16); u8 (Z.shiftr v 24)].
Definition put64 (v : Z) : list Z := put32 (u32 v) ++ put32 (u32 (Z.shiftr v 32)).

Lemma le16_le_of l i : bytes_ok l ->
  le16 l i = le_of [byte_at l i; byte_at l (i + 1)].
Proof.
  intros H. unfold le16. pose proof (byte_at_u8 l i H).
  unfold is_u8 in *. rewrite lor_shiftl_add by lia. simpl. lia.
Qed.
Lemma le32_le_of l i : bytes_ok l ->
  le32 l i = le_of [byte_at l i; byte_at l (i + 1); byte_at l (i + 2); byte_at l (i + 3)].
Proof.
  intros H. unfold le32.
  pose proof (byte_at_u8 l i H). pose proof (byte_at_u8 l (i + 1) H).
  pose proof (byte_at_u8 l (i + 2) H).
  unfold is_u8 in *. rewrite (lor_shiftl_add _ _ 8) by lia.
  rewrite (lor_shiftl_add _ _ 16) by lia. rewrite (lor_shiftl_add _ _ 24) by lia.
  simpl. lia.
Qed.
Lemma le16_range l i : bytes_ok l -> is_u16 (le16 l i).
Proof.
  intros H. rewrite le16_le_of by done.
  pose proof (byte_at_u8 l i H). pose proof (byte_at_u8 l (i + 1) H).
  unfold is_u8, is_u16 in *. simpl. lia.
Qed.
Lemma le32_range l i : bytes_ok l -> is_u32 (le32 l i).
Proof.
  intros H. rewrite le32_le_of by done.
  pose proof (byte_at_u8 l i H). pose proof (byte_at_u8 l (i + 1) H).
  pose proof (byte_at_u8 l (i + 2) H). pose proof (byte_at_u8 l (i + 3) H).
  unfold is_u8, is_u32 in *. simpl. lia.
Qed.
Lemma le64_range l i : bytes_ok l -> is_u64 (le64 l i).
Proof.
  intros H. unfold le64. pose proof (le32_range l i H). pose proof (le32_range l (i + 4) H).
  unfold is_u32, is_u64 in *. rewrite lor_shiftl_add by lia. lia.
Qed.

Lemma put16_le_to v : put16 v = le_to 2 v.
Proof. unfold put16. simpl. rewrite Z.shiftr_div_pow2 by lia. reflexivity. Qed.
Lemma put32_le_to v : put32 v = le_to 4 v.
Proof.
  unfold put32. simpl. rewrite !Z.shiftr_div_pow2 by lia.
  rewrite !Z.div_div by lia. reflexivity.
Qed.
Lemma len_put16 v : len (put16 v) = 2.
Proof. reflexivity. Qed.
Lemma len_put32 v : len (put32 v) = 4.
Proof. reflexivity. Qed.
Lemma len_put64 v : len (put64 v) = 8.
Proof. reflexivity. Qed.
Lemma bytes_ok_put16 v : bytes_ok (put16 v).
Proof. rewrite put16_le_to. apply bytes_ok_le_to. Qed.
Lemma bytes_ok_put32 v : bytes_ok (put32 v).
Proof. rewrite put32_le_to. apply bytes_ok_le_to. Qed.
Lemma bytes_ok_put64 v : bytes_ok (put64 v).
Proof. unfold put64. rewrite bytes_ok_app. auto using bytes_ok_put32. Qed.

(** [zc] evaluates sums and products of numerals in the goal. *)
Ltac is_num z := lazymatch z with Z0 => idtac | Zpos _ => idtac | Zneg _ => idtac end.
Ltac zc := repeat match goal with
  | |- context [Z.add ?a ?b] => is_num a; is_num b; let c := eval cbv in (a + b) in change (a + b) with c
  | |- context [Z.sub ?a ?b] => is_num a; is_num b; let c := eval cbv in (a - b) in change (a - b) with c
  | |- context [Z.mul ?a ?b] => is_num a; is_num b; let c := eval cbv in (a * b) in change (a * b) with c
  end.

(** [dlia] is [lia] with quotients and remainders by numerals spelled out. *)
Ltac dlia := Z.to_euclidean_division_equations; lia.

Create Rewrite HintDb len.
#[export] Hint Rewrite @len_app @len_cons @len_nil len_put16 len_put32 len_put64 len_le_to : len.
(** [lens] normalises the lengths of literal and concatenated buffers. *)
Ltac lens := autorewrite with len in *; try lia.

(** Reading back what was stored, and storing what was read. *)
Lemma put16_le16 l i : bytes_ok l -> put16 (le16 l i) = [byte_at l i; byte_at l (i + 1)].
Proof.
  intros H. rewrite put16_le_to, le16_le_of by done.
  apply (le_to_le_of [_; _]). repeat constructor; now apply byte_at_u8.
Qed.
Lemma put32_le32 l i : bytes_ok l ->
  put32 (le32 l i) = [byte_at l i; byte_at l (i + 1); byte_at l (i + 2); byte_at l (i + 3)].
Proof.
  intros H. rewrite put32_le_to, le32_le_of by done.
  apply (le_to_le_of [_; _; _; _]). repeat constructor; now apply byte_at_u8.
Qed.

Lemma le16_app_r a b i j : 0 <= j -> i = len a + j -> le16 (a ++ b) i = le16 b j.
Proof.
  intros Hj ->. unfold le16. rewrite !byte_at_app_r by lia.
  f_equal; [f_equal; lia|]. f_equal. f_equal. lia.
Qed.
Lemma le16_app_l a b i : 0 <= i -> i + 2 <= len a -> le16 (a ++ b) i = le16 a i.
Proof. intros. unfold le16. now rewrite !byte_at_app_l by lia. Qed.
Lemma le16_put16 v c : le16 (put16 v ++ c) 0 = u16 v.
Proof.
  unfold le16. change (byte_at (put16 v ++ c) 0) with (u8 v).
  change (byte_at (put16 v ++ c) (0 + 1)) with (u8 (Z.shiftr v 8)).
  pose proof (u8_range v). unfold is_u8 in *. rewrite lor_shiftl_add by lia.
  rewrite Z.shiftr_div_pow2 by lia. unfold u8, u16.
  change (2 ^ 8) with 256. change 65536 with (256 * 256).
  rewrite Z.rem_mul_r by lia. lia.
Qed.
Lemma put16_u16 v : put16 (u16 v) = put16 v.
Proof.
  rewrite !put16_le_to. cbn [le_to]. unfold u8, u16. f_equal.
  - apply Z.mod_mod_divide. now exists 256.
  - f_equal. change 65536 with (256 * 256). rewrite Z.rem_mul_r by lia.
    rewrite (Z.mul_comm 256), Z.div_add by lia.
    rewrite (Z.div_small (v mod 256)) by (apply Z.mod_pos_bound; lia).
    now rewrite Z.add_0_l, Z.mod_mod by lia.
Qed.
Lemma land_ones_mod x n : 0 <= n -> Z.land x (Z.ones n) = x mod 2 ^ n.
Proof. apply Z.land_ones. Qed.

(** ** Slices *)

Lemma slice_all l : slice l 0 (len l) = l.
Proof. unfold slice, len. rewrite Nat2Z.id. simpl. apply firstn_all. Qed.
Lemma slice_0 l i : slice l i 0 = [].
Proof. reflexivity. Qed.
Lemma slice_split l i n m : 0 <= i -> 0 <= n -> 0 <= m -> i + n + m <= len l ->
  slice l i (n + m) = slice l i n ++ slice l (i + n) m.
Proof.
  intros. apply bytes_ext.
  - rewrite len_app, !len_slice by lia. lia.
  - intros j Hj. rewrite len_slice in Hj by lia. rewrite byte_at_slice by lia.
    destruct (Z.lt_ge_cases j n).
    + rewrite byte_at_app_l by (rewrite len_slice; lia). now rewrite byte_at_slice by lia.
    + rewrite byte_at_app_r by (rewrite len_slice; lia).
      rewrite len_slice, byte_at_slice by lia. f_equal. lia.
Qed.
Lemma slice_1 l i : 0 <= i < len l -> slice l i 1 = [byte_at l i].
Proof.
  intros. apply bytes_ext; [rewrite len_slice by lia; reflexivity|].
  intros j Hj. rewrite len_slice in Hj by lia. replace j with 0 by lia.
  rewrite byte_at_slice by lia. rewrite byte_at_cons_0. f_equal; lia.
Qed.
Lemma slice_2 l i : 0 <= i -> i + 2 <= len l -> slice l i 2 = [byte_at l i; byte_at l (i + 1)].
Proof.
  intros. change 2 with (1 + 1). rewrite slice_split, !slice_1 by lia. reflexivity.
Qed.
Lemma slice_app_mid a b c n : n = len b -> slice (a ++ b ++ c) (len a) n = b.
Proof.
  intros ->. unfold slice, len. rewrite !Nat2Z.id.
  rewrite drop_app_length. apply take_app_length.
Qed.
Lemma slice_slice l i n j m : 0 <= i -> 0 <= j -> 0 <= m -> j + m <= n ->
  slice (slice l i n) j m = slice l (i + j) m.
Proof.
  intros. unfold slice. rewrite skipn_firstn_comm, firstn_firstn, skipn_skipn.
  f_equal; [lia|f_equal; lia].
Qed.
Definition bytesum (l : list Z) : Z := foldr Z.add 0 l.

(** ** Lists whose elements are pairwise related *)

Lemma ordpairs_snoc {A} (R : A -> A -> Prop) l x :
  ForallOrdPairs R l -> Forall (fun a => R a x) l -> ForallOrdPairs R (l ++ [x]).
Proof.
  induction 1 as [|a l Ha Hl IH]; intros Hx; [repeat constructor|]. inversion Hx; subst. cbn. constructor; [|now apply IH].
  apply Forall_app. split; [assumption|repeat constructor; assumption].
Qed.

(** ** C pointers

    A pointer argument is its address together with the object it points at;
    address 0 is [NULL]. Sources that reject overlapping arguments compare
    the addresses, so the model keeps them. *)

Record ptr (A : Type) : Type := Ptr { addr : Z; pointee : A }.
Arguments Ptr {A} _ _.
Arguments addr {A} _.
Arguments pointee {A} _.
Definition null {A} (p : ptr A) : bool := addr p =? 0.

(** ** Case analysis on the guards of a translated function

    [guards H] splits every conditional of [H] and keeps the tests as
    hypotheses; impossible branches are closed. *)
Ltac guards H :=
  repeat match type of H with
  | context [if ?b then _ else _] =>
      let E := fresh "G" in destruct b eqn:E; simpl in H; try discriminate H
  end.
Ltac guards_goal :=
  repeat match goal with
  | |- context [if ?b then _ else _] => let E := fresh "G" in destruct b eqn:E
  end.

(** ** Machines with a retained first error

    Several owners of the sources process a sequence of calls and keep the
    first failure for good. A [Machine] is such an owner: one transition per
    event (with the observations made at that event), the failure it retains,
    and the law that later events never replace it. *)

Class Machine (S E : Type) := {
  mstep : S -> E -> S;
  failure : S -> option Z;
  failure_sticky : forall s e x, failure s = Some x -> failure (mstep s e) = Some x
}.

Section Runs.
Context `{Machine St Ev}.

Definition mrun (s : St) (es : list Ev) : St := fold_left mstep es s.

Lemma mrun_app s es es' : mrun s (es ++ es') = mrun (mrun s es) es'.
Proof. apply fold_left_app. Qed.
Lemma mrun_cons s e es : mrun s (e :: es) = mrun (mstep s e) es.
Proof. reflexivity. Qed.
Lemma mrun_invariant (I : St -> Prop) (ok : Ev -> Prop) s es :
  (forall s e, ok e -> I s -> I (mstep s e)) -> Forall ok es -> I s -> I (mrun s es).
Proof.
  intros Hstep Hok. revert s. induction Hok as [|e es He Hes IH]; intros s Hs; [exact Hs|].
  apply IH. now apply Hstep.
Qed.
(** The first failure of a run is the failure of every longer run. *)
Lemma mrun_failure_sticky s es x : failure s = Some x -> failure (mrun s es) = Some x.
Proof.
  revert s; induction es as [|e es IH]; intros s Hs; [exact Hs|].
  apply IH. now apply failure_sticky.
Qed.
End Runs.
