(* ===== verification/Trace.v ===== *)
(** * Traced input and output

    Drivers of the sources ask a device or a kernel service for one thing after
    another and react to each answer. A program here is a function on the
    trace of the requests made so far with their answers; the environment is
    any function that answers the next request from that trace, so it may
    change its answers over time and may fail at every point. *)

From S2P Require Import Prelude.

Section Trace.
Context {Q P : Type}.
Definition trace : Type := list (Q * P).
Definition environment : Type := trace -> Q -> P.
Definition io (A : Type) : Type := environment -> trace -> A * trace.

Definition ret {A} (a : A) : io A := fun _ t => (a, t).
Definition bind {A B} (m : io A) (k : A -> io B) : io B := fun env t => let '(a, t) := m env t in k a env t.
Definition ask (q : Q) : io P := fun env t => let p := env t q in (p, t ++ [(q, p)]).

(** [performs m R]: in every environment [m] ends, and its result and the part
    of the trace it adds are related by [R]. *)
Definition performs {A} (m : io A) (R : A -> trace -> Prop) : Prop :=
  forall env t, exists a s, m env t = (a, t ++ s) /\ R a s.

Lemma performs_ret {A} (a : A) (R : A -> trace -> Prop) : R a [] -> performs (ret a) R.
Proof. intros H env t. exists a, []. now rewrite app_nil_r. Qed.
Lemma performs_ask (q : Q) (R : P -> trace -> Prop) : (forall p, R p [(q, p)]) -> performs (ask q) R.
Proof. intros H env t. eexists _, _. split; [reflexivity|]. apply H. Qed.
Lemma performs_bind {A B} (m : io A) (k : A -> io B) R1 (R : B -> trace -> Prop) :
  performs m R1 -> (forall a s, R1 a s -> performs (k a) (fun b s' => R b (s ++ s'))) -> performs (bind m k) R.
Proof.
  intros H1 H2 env t. destruct (H1 env t) as (a & s & E & Ha). destruct (H2 a s Ha env (t ++ s)) as (b & s' & E' & Hb).
  exists b, (s ++ s'). unfold bind. now rewrite E, E', app_assoc.
Qed.
Lemma performs_ask_bind {B} (q : Q) (k : P -> io B) (R : B -> trace -> Prop) :
  (forall p, performs (k p) (fun b s => R b ((q, p) :: s))) -> performs (bind (ask q) k) R.
Proof. intros H. eapply performs_bind; [apply (performs_ask q (fun p s => s = [(q, p)])); reflexivity|]. now intros p s ->. Qed.
Lemma performs_impl {A} (m : io A) (R R' : A -> trace -> Prop) : performs m R -> (forall a s, R a s -> R' a s) -> performs m R'.
Proof. intros H HR env t. destruct (H env t) as (a & s & E & Ha). exists a, s. auto. Qed.
Lemma performs_and {A} (m : io A) (R R' : A -> trace -> Prop) : performs m R -> performs m R' -> performs m (fun a s => R a s /\ R' a s).
Proof.
  intros H H' env t. destruct (H env t) as (a & s & E & Ha), (H' env t) as (a' & s' & E' & Ha'). rewrite E in E'.
  injection E' as <- Et. apply app_inv_head in Et as <-. exists a, s. auto.
Qed.
Lemma performs_run {A} (m : io A) (R : A -> trace -> Prop) env a s : performs m R -> m env [] = (a, s) -> R a s.
Proof. intros H E. destruct (H env []) as (a' & s' & E' & X). rewrite E in E'. now injection E' as -> ->. Qed.
Lemma performs_if {A} (b : bool) (m m' : io A) R : (b = true -> performs m R) -> (b = false -> performs m' R) -> performs (if b then m else m') R.
Proof. destruct b; auto. Qed.
End Trace.
Arguments trace : clear implicits.
Arguments environment : clear implicits.
Arguments io : clear implicits.

Declare Scope io_scope.
Delimit Scope io_scope with io.
Notation "'let!' x ':=' m 'in' k" := (bind m (fun x => k)) (at level 10, x pattern, m at level 100, k at level 200) : io_scope.

(** [trace_step] runs a traced program symbolically: one request, one test or one result at a time. *)
Ltac trace_step :=
  lazymatch goal with
  | |- performs (bind (ask _) _) _ => apply performs_ask_bind; let p := fresh "p" in intros p
  | |- performs (ask _) _ => apply performs_ask; let p := fresh "p" in intros p
  | |- performs (ret _) _ => apply performs_ret
  | |- performs (if ?b then _ else _) _ => let G := fresh "G" in apply performs_if; intros G
  | |- performs (let '(_, _) := ?p in _) _ => destruct p
  end.

(** ** A program inside a larger one

    [via] runs a program whose requests and answers are one kind of those of a
    larger interface. An answer of another kind is read as [h] says. *)
Section Via.
Context {Q P Q' P' : Type} (f : Q -> Q') (g : P -> P') (h : P' -> P).
Definition lift_trace (s : trace Q P) : trace Q' P' := (fun e => (f e.1, g e.2)) <$> s.
Definition via {A} (m : io Q P A) : io Q' P' A :=
  fun env t => let '(a, s) := m (fun s q => h (env (t ++ lift_trace s) (f q))) [] in (a, t ++ lift_trace s).
Lemma performs_via {A} (m : io Q P A) (R : A -> trace Q P -> Prop) :
  performs m R -> performs (via m) (fun a s => exists s0, s = lift_trace s0 /\ R a s0).
Proof.
  intros H env t. destruct (H (fun s q => h (env (t ++ lift_trace s) (f q))) []) as (a & s & E & Ha).
  exists a, (lift_trace s). unfold via. rewrite E. split; [reflexivity|eauto].
Qed.
Lemma lift_trace_app s1 s2 : lift_trace (s1 ++ s2) = lift_trace s1 ++ lift_trace s2.
Proof. apply fmap_app. Qed.
End Via.

(** ** What a trace holds

    [moves h s h']: from the resources [h], the requests of [s] release only what
    is held at that point and leave [h']. Order does not matter. *)
Section Ledger.
Context {Q P R : Type} (acquired released : Q * P -> list R).
Inductive moves : list R -> trace Q P -> list R -> Prop :=
| moves_nil h h' : h ≡ₚ h' -> moves h [] h'
| moves_cons h h1 h2 e s : h ≡ₚ released e ++ h1 -> moves (acquired e ++ h1) s h2 -> moves h (e :: s) h2.
Lemma moves_perm h1 h2 s h : h1 ≡ₚ h2 -> moves h2 s h -> moves h1 s h.
Proof. intros Hp H. destruct H as [h h' E|h h' h2 e s E H]; [apply moves_nil; now rewrite Hp|eapply moves_cons; [rewrite Hp; exact E|exact H]]. Qed.
Lemma moves_perm_r h s h1 h2 : moves h s h1 -> h1 ≡ₚ h2 -> moves h s h2.
Proof. intros H. revert h2. induction H as [h h' E|h h' h1 e s E H IH]; intros k Hk; [apply moves_nil; now rewrite E|eapply moves_cons; [exact E|now apply IH]]. Qed.
Lemma moves_app h h1 h2 s1 s2 : moves h s1 h1 -> moves h1 s2 h2 -> moves h (s1 ++ s2) h2.
Proof. intros H. revert h2. induction H as [h h' E|h h' h1 e s E H IH]; intros k Hk; [now apply (moves_perm _ h')|cbn; eapply moves_cons; [exact E|now apply IH]]. Qed.
(** Resources that a program does not touch stay. *)
Lemma moves_frame k h s h' : moves h s h' -> moves (h ++ k) s (h' ++ k).
Proof.
  induction 1 as [h h' E|h h' h1 e s E H IH]; [apply moves_nil; now rewrite E|]. eapply (moves_cons _ (h' ++ k)); [now rewrite E, app_assoc|]. now rewrite app_assoc.
Qed.
Lemma moves_one e : moves (released e) [e] (acquired e).
Proof. eapply (moves_cons _ []); [now rewrite app_nil_r|]. rewrite app_nil_r. now apply moves_nil. Qed.
Lemma moves_quiet e h : acquired e = [] -> released e = [] -> moves h [e] h.
Proof. intros A B. eapply (moves_cons _ h); [now rewrite B|]. rewrite A. now apply moves_nil. Qed.
Lemma moves_quiet_all s h : Forall (fun e => acquired e = [] /\ released e = []) s -> moves h s h.
Proof. induction 1 as [|e s [A B] _ IH]; [now apply moves_nil|]. eapply (moves_cons _ h); [now rewrite B|]. now rewrite A. Qed.
#[export] Instance moves_proper : Proper ((≡ₚ) ==> eq ==> (≡ₚ) ==> iff) moves.
Proof.
  intros h1 h2 E1 s ? <- k1 k2 E2. split; intros H.
  - apply (moves_perm _ h1); [now rewrite E1|]. eapply moves_perm_r; [exact H|exact E2].
  - apply (moves_perm _ h2); [exact E1|]. eapply moves_perm_r; [exact H|now rewrite E2].
Qed.
End Ledger.
