(* ===== verification/Wire.v ===== *)
(** * MVCD wire frames: [dsp-download/wire.c]

    The encoder of the single bootstrap frame and the decoder of the two
    acknowledgement kinds, with a reference description of a frame that both
    are proved against. *)

From S2P Require Import Prelude.

Abbreviation B41_MVCD_BOOTSTRAP_SIZE := 106 (only parsing).
Abbreviation B41_MVCD_BOOTSTRAP_FRAME_SIZE := 116 (only parsing).
Abbreviation B41_MVCD_ACK_PAYLOAD_MAX := 1014 (only parsing).

(** [enum b41_mvcd_result] *)
Abbreviation B41_MVCD_OK := 0 (only parsing).
Abbreviation B41_MVCD_ARGUMENT := (-1) (only parsing).
Abbreviation B41_MVCD_CAPACITY := (-2) (only parsing).
Abbreviation B41_MVCD_FORMAT := (-3) (only parsing).
Abbreviation B41_MVCD_CHECKSUM := (-4) (only parsing).
Abbreviation B41_MVCD_UNEXPECTED_ACK := (-5) (only parsing).

(** [enum b41_mvcd_ack_kind] *)
Abbreviation B41_MVCD_BOOTSTRAP_ACK := 0x31 (only parsing).
Abbreviation B41_MVCD_FRAGMENT_ACK := 0x32 (only parsing).

Record mvcd_ack : Type := MvcdAck {
  sequence : Z;
  bootstrap_auxiliary : Z;
  payload_size : Z;
  length_high_nibble : Z;
  has_bootstrap_auxiliary : Z
}.

(** [sizeof(struct b41_mvcd_ack)] and [sizeof(size_t)] on LP64. *)
Definition sizeof_mvcd_ack : Z := 8.
Definition sizeof_size_t : Z := 8.

Definition read16 (bytes : list Z) (i : Z) : Z := le16 bytes i.
Definition write16 (bytes : list Z) (i value : Z) : list Z :=
  write_at bytes i [u8 value; u8 (Z.shiftr value 8)].

Definition sum_bytes (bytes : list Z) (i count : Z) : Z :=
  u16 (fold_left (fun sum b => u32 (sum + b)) (slice bytes i count) 0).

Definition overlaps (first first_size second second_size : Z) : bool :=
  if first <=? second then second - first <? first_size
  else first - second <? second_size.

(** Returns the status, the bytes at [frame] and [*written] afterwards. *)
Definition b41_mvcd_encode_bootstrap (payload : ptr (list Z)) (payload_size : Z)
    (frame : ptr (list Z)) (capacity : Z) (written : ptr Z) : Z * list Z * Z :=
  let f := pointee frame in
  let keep status := (status, f, pointee written) in
  if null payload || null frame || null written then keep B41_MVCD_ARGUMENT
  else if negb (payload_size =? B41_MVCD_BOOTSTRAP_SIZE) then keep B41_MVCD_FORMAT
  else if capacity <? B41_MVCD_BOOTSTRAP_FRAME_SIZE then keep B41_MVCD_CAPACITY
  else if overlaps (addr payload) payload_size (addr frame) B41_MVCD_BOOTSTRAP_FRAME_SIZE
       || overlaps (addr written) sizeof_size_t (addr payload) payload_size
       || overlaps (addr written) sizeof_size_t (addr frame) B41_MVCD_BOOTSTRAP_FRAME_SIZE
  then keep B41_MVCD_ARGUMENT
  else if negb (read16 (pointee payload) 0 =? 0x1a) || negb (read16 (pointee payload) 2 =? 0)
  then keep B41_MVCD_FORMAT
  else
    let f := write_at f 0 [0xaa] in
    let f := write_at f 1 [0xf0] in
    let f := write16 f 2 (B41_MVCD_BOOTSTRAP_SIZE + 4) in
    let f := write_at f 4 [8] in
    let f := write_at f 5 [0xfe] in
    let f := write_at f 6 (slice (pointee payload) 0 payload_size) in
    let f := write16 f (6 + payload_size) (sum_bytes f 2 (payload_size + 4)) in
    let f := write_at f (8 + payload_size) [0xaa] in
    let f := write_at f (9 + payload_size) [0x0f] in
    (B41_MVCD_OK, f, B41_MVCD_BOOTSTRAP_FRAME_SIZE).

(** Returns the status and [*ack] afterwards. *)
Definition b41_mvcd_decode_ack (frame : ptr (list Z)) (frame_size expected_kind
    expected_sequence : Z) (ack : ptr mvcd_ack) : Z * mvcd_ack :=
  let f := pointee frame in
  let keep status := (status, pointee ack) in
  if null frame || null ack ||
     (negb (expected_kind =? B41_MVCD_BOOTSTRAP_ACK) &&
      negb (expected_kind =? B41_MVCD_FRAGMENT_ACK)) then keep B41_MVCD_ARGUMENT
  else if (frame_size <? 10) || (B41_MVCD_ACK_PAYLOAD_MAX + 10 <? frame_size)
  then keep B41_MVCD_FORMAT
  else if overlaps (addr frame) frame_size (addr ack) sizeof_mvcd_ack
  then keep B41_MVCD_ARGUMENT
  else if negb (byte_at f 0 =? 0xaa) || negb (byte_at f 1 =? 0xf0) || negb (byte_at f 5 =? 0xfe)
  then keep B41_MVCD_FORMAT
  else
  let encoded_length := read16 f 2 in
  if Z.land encoded_length 0xfff <? 4 then keep B41_MVCD_FORMAT
  else
  let psize := Z.land encoded_length 0xfff - 4 in
  if (B41_MVCD_ACK_PAYLOAD_MAX <? psize) || negb (frame_size =? psize + 10)
  then keep B41_MVCD_FORMAT
  else
  let minimum := if expected_kind =? B41_MVCD_BOOTSTRAP_ACK then 4 else 2 in
  if (psize <? minimum) || negb (byte_at f (frame_size - 2) =? 0xaa) ||
     negb (byte_at f (frame_size - 1) =? 0x0f)
  then keep B41_MVCD_FORMAT
  else if negb (read16 f (6 + psize) =? sum_bytes f 2 (psize + 4))
  then keep B41_MVCD_CHECKSUM
  else if negb (byte_at f 4 =? u8 expected_kind) || negb (read16 f 6 =? expected_sequence)
  then keep B41_MVCD_UNEXPECTED_ACK
  else
    (B41_MVCD_OK,
     {| sequence := read16 f 6;
        bootstrap_auxiliary :=
          if expected_kind =? B41_MVCD_BOOTSTRAP_ACK then read16 f 8 else 0;
        payload_size := u16 psize;
        length_high_nibble := u8 (Z.shiftr encoded_length 12);
        has_bootstrap_auxiliary :=
          if expected_kind =? B41_MVCD_BOOTSTRAP_ACK then 1 else 0 |}).

(** ** Reference frames *)

(** The checksummed part: length word, command, [0xfe], payload. *)
Definition mvcd_body (command high : Z) (payload : list Z) : list Z :=
  put16 (len payload + 4 + 4096 * high) ++ [command; 254] ++ payload.

Definition mvcd_frame (command high : Z) (payload : list Z) : list Z :=
  [170; 240] ++ mvcd_body command high payload ++
  put16 (bytesum (mvcd_body command high payload)) ++ [170; 15].

(** ** The checksum *)

Lemma fold_sum_mod l : forall s,
  fold_left (fun sum b => u32 (sum + b)) l s mod 65536 = (s + bytesum l) mod 65536.
Proof.
  induction l as [|b l IH]; intros s; simpl; [now rewrite Z.add_0_r|].
  rewrite IH. unfold u32.
  rewrite <- (Z.add_mod_idemp_l (_ mod _)) by lia.
  rewrite Z.mod_mod_divide by now exists 65536.
  rewrite Z.add_mod_idemp_l by lia. f_equal. lia.
Qed.

Lemma sum_bytes_spec l i n : sum_bytes l i n = u16 (bytesum (slice l i n)).
Proof. apply fold_sum_mod. Qed.

(** ** Shape of reference frames *)

Lemma len_mvcd_body c h p : len (mvcd_body c h p) = len p + 4.
Proof. unfold mvcd_body. lens. Qed.
Lemma len_mvcd_frame c h p : len (mvcd_frame c h p) = len p + 10.
Proof. unfold mvcd_frame. lens. rewrite len_mvcd_body. lia. Qed.
#[local] Hint Rewrite len_mvcd_body len_mvcd_frame : len.

Lemma mvcd_frame_length_word c h p : 0 <= h < 16 -> len p + 4 < 4096 ->
  le16 (mvcd_frame c h p) 2 = len p + 4 + 4096 * h.
Proof.
  intros. unfold mvcd_frame, mvcd_body. rewrite (le16_app_r [170; 240] _ 2 0) by done || lia.
  rewrite <- !app_assoc, le16_put16. apply u16_id. pose proof (len_nonneg p). unfold is_u16. lia.
Qed.
Lemma mvcd_frame_body c h p : slice (mvcd_frame c h p) 2 (len p + 4) = mvcd_body c h p.
Proof. unfold mvcd_frame. apply (slice_app_mid [170; 240]). now rewrite len_mvcd_body. Qed.
Lemma mvcd_frame_payload c h p : slice (mvcd_frame c h p) 6 (len p) = p.
Proof.
  unfold mvcd_frame, mvcd_body.
  apply (slice_app_mid ([170; 240] ++ put16 _ ++ [c; 254])). reflexivity.
Qed.
Lemma mvcd_frame_suffix c h p : exists a, len a = len p + 6 /\
  mvcd_frame c h p = a ++ put16 (bytesum (mvcd_body c h p)) ++ [170; 15].
Proof.
  exists ([170; 240] ++ mvcd_body c h p). split.
  - lens.
  - unfold mvcd_frame. now rewrite app_assoc.
Qed.
Lemma mvcd_frame_checksum c h p :
  le16 (mvcd_frame c h p) (6 + len p) = u16 (bytesum (mvcd_body c h p)).
Proof.
  destruct (mvcd_frame_suffix c h p) as (a & Ha & ->).
  rewrite (le16_app_r a _ _ 0) by lia. apply le16_put16.
Qed.
Lemma mvcd_frame_trailer c h p : let f := mvcd_frame c h p in
  byte_at f (len f - 2) = 170 /\ byte_at f (len f - 1) = 15.
Proof.
  intros f. subst f. rewrite len_mvcd_frame.
  destruct (mvcd_frame_suffix c h p) as (a & Ha & ->).
  rewrite !(byte_at_app_r a), !(byte_at_app_r (put16 _)) by lens. lens. rewrite Ha.
  split; [now replace (len p + 10 - 2 - (len p + 6) - 2) with 0 by lia|].
  now replace (len p + 10 - 1 - (len p + 6) - 2) with 1 by lia.
Qed.

(** A frame with the right markers, length word and checksum is the
    reference frame of its own payload. *)
Lemma frame_is_mvcd_frame f n h :
  bytes_ok f -> 0 <= n -> len f = n + 10 ->
  byte_at f 0 = 170 -> byte_at f 1 = 240 -> byte_at f 5 = 254 ->
  le16 f 2 = n + 4 + 4096 * h ->
  le16 f (6 + n) = sum_bytes f 2 (n + 4) ->
  byte_at f (len f - 2) = 170 -> byte_at f (len f - 1) = 15 ->
  f = mvcd_frame (byte_at f 4) h (slice f 6 n).
Proof.
  intros Hok Hn Hl H0 H1 H5 Hlen Hsum Ht1 Ht2.
  assert (Hbody : slice f 2 (n + 4) = mvcd_body (byte_at f 4) h (slice f 6 n)).
  { unfold mvcd_body. rewrite len_slice by lia. rewrite <- Hlen, put16_le16 by done.
    replace (n + 4) with (2 + (2 + n)) by lia.
    rewrite (slice_split f 2 2) by lia. rewrite (slice_split f _ 2 n) by lia.
    rewrite !slice_2 by lia. zc. now rewrite H5. }
  rewrite <- (slice_all f) at 1. rewrite Hl.
  replace (n + 10) with (2 + ((n + 4) + (2 + 2))) by lia.
  rewrite (slice_split f 0 2), (slice_split f _ (n + 4)), (slice_split f _ 2 2), !slice_2 by lia.
  unfold mvcd_frame. rewrite <- Hbody. zc. rewrite H0, H1.
  apply (f_equal (app [170; 240])), (f_equal (app (slice f 2 (n + 4)))).
  rewrite <- put16_u16, <- sum_bytes_spec, <- Hsum, put16_le16 by done. simpl.
  replace (2 + (n + 4)) with (6 + n) by lia.
  replace (6 + n + 2) with (len f - 2) by lia.
  replace (len f - 2 + 1) with (len f - 1) by lia. now rewrite Ht1, Ht2.
Qed.

(** ** Decoding is exact *)

(** What a successful decode reports for payload [p] and length nibble [h]. *)
Definition ack_of (kind h : Z) (p : list Z) : mvcd_ack :=
  {| sequence := le16 p 0;
     bootstrap_auxiliary := if kind =? B41_MVCD_BOOTSTRAP_ACK then le16 p 2 else 0;
     payload_size := len p;
     length_high_nibble := h;
     has_bootstrap_auxiliary := if kind =? B41_MVCD_BOOTSTRAP_ACK then 1 else 0 |}.

Definition ack_minimum (kind : Z) : Z :=
  if kind =? B41_MVCD_BOOTSTRAP_ACK then 4 else 2.

Definition ack_kind (kind : Z) : Prop :=
  kind = B41_MVCD_BOOTSTRAP_ACK \/ kind = B41_MVCD_FRAGMENT_ACK.

Lemma length_word_split v : 0 <= v < 65536 ->
  Z.land v 4095 = v mod 4096 /\ Z.shiftr v 12 = v / 4096.
Proof.
  intros. split; [apply (land_ones_mod v 12); lia|]. now apply Z.shiftr_div_pow2.
Qed.

Lemma le16_slice l i n j : 0 <= i -> 0 <= j -> j + 2 <= n -> le16 (slice l i n) j = le16 l (i + j).
Proof.
  intros. unfold le16. rewrite !byte_at_slice by lia. do 3 f_equal. lia.
Qed.

(** Decoding depends only on the bytes of the announced frame. *)
Lemma decode_ack_prefix a l n kind seq ack : 0 <= n <= len l ->
  b41_mvcd_decode_ack (Ptr a l) n kind seq ack = b41_mvcd_decode_ack (Ptr a (slice l 0 n)) n kind seq ack.
Proof.
  intros Hn. assert (Hb : forall i, 0 <= i < n -> byte_at (slice l 0 n) i = byte_at l i)
    by (intros i Hi; apply byte_at_slice; lia).
  assert (H16 : forall i, 0 <= i -> i + 2 <= n -> le16 (slice l 0 n) i = le16 l i)
    by (intros i Hi Hi2; rewrite le16_slice by lia; f_equal; lia).
  unfold b41_mvcd_decode_ack, read16. cbn [pointee addr]. cbv zeta.
  change (null (Ptr a (slice l 0 n))) with (null (Ptr a l)).
  destruct (null (Ptr a l) || _ || _); [reflexivity|].
  destruct ((n <? 10) || _) eqn:G; [reflexivity|].
  rewrite !Hb, !H16 by lia. destruct (overlaps _ _ _ _); [reflexivity|].
  destruct (_ || _ || _); [reflexivity|]. destruct (_ <? 4) eqn:G1; [reflexivity|].
  set (w := Z.land (le16 l 2) 0xfff) in *. clearbody w.
  destruct (_ || negb (n =? _)) eqn:G2; [reflexivity|]. replace (w - 4) with (n - 10) by lia.
  rewrite !H16 by lia. unfold sum_bytes. now rewrite slice_slice by lia.
Qed.

Section DecodeAck.
Context (frame : ptr (list Z)) (kind seq : Z) (ack : ptr mvcd_ack).
Let f := pointee frame.
Context (Hok : bytes_ok f) (Hkind : ack_kind kind).

(** The guards a successful decode passed. *)
Lemma decode_ack_guards a :
  b41_mvcd_decode_ack frame (len f) kind seq ack = (B41_MVCD_OK, a) ->
  let n := le16 f 2 mod 4096 - 4 in
  len f = n + 10 /\ ack_minimum kind <= n <= B41_MVCD_ACK_PAYLOAD_MAX /\
  byte_at f 0 = 170 /\ byte_at f 1 = 240 /\ byte_at f 4 = kind /\ byte_at f 5 = 254 /\
  byte_at f (len f - 2) = 170 /\ byte_at f (len f - 1) = 15 /\
  le16 f (6 + n) = sum_bytes f 2 (n + 4) /\ le16 f 6 = seq /\
  a = {| sequence := seq;
         bootstrap_auxiliary := if kind =? B41_MVCD_BOOTSTRAP_ACK then le16 f 8 else 0;
         payload_size := n; length_high_nibble := le16 f 2 / 4096;
         has_bootstrap_auxiliary := if kind =? B41_MVCD_BOOTSTRAP_ACK then 1 else 0 |}.
Proof.
  unfold b41_mvcd_decode_ack, ack_minimum. fold f. intros H.
  set (n := le16 f 2 mod 4096 - 4).
  pose proof (le16_range f 2 Hok) as Hw. unfold is_u16 in Hw.
  destruct (length_word_split _ Hw) as [Hland Hshift].
  unfold read16 in H. rewrite Hland, Hshift in H. fold n in H.
  assert (Hu : u8 kind = kind) by (destruct Hkind; subst; reflexivity). rewrite Hu in H.
  assert (Hh : is_u8 (le16 f 2 / 4096))
    by (split; [apply Z.div_pos|apply Z.div_lt_upper_bound]; lia).
  rewrite (u8_id _ Hh) in H.
  destruct (kind =? 49); cbv iota in H; guards H; injection H as H; subst a;
    (rewrite u16_id by (unfold is_u16; lia));
    repeat split; try lia; f_equal; lia.
Qed.

Lemma decode_ack_sound a :
  b41_mvcd_decode_ack frame (len f) kind seq ack = (B41_MVCD_OK, a) ->
  exists h p, 0 <= h < 16 /\ bytes_ok p /\
    ack_minimum kind <= len p <= B41_MVCD_ACK_PAYLOAD_MAX /\
    f = mvcd_frame kind h p /\ le16 p 0 = seq /\ a = ack_of kind h p.
Proof.
  intros H%decode_ack_guards. cbv zeta in H.
  set (n := le16 f 2 mod 4096 - 4) in *. set (h := le16 f 2 / 4096) in *.
  destruct H as (Hl & Hn & H0 & H1 & H4 & H5 & Ht1 & Ht2 & Hsum & Hseq & ->).
  pose proof (le16_range f 2 Hok) as Hw. unfold is_u16 in Hw.
  assert (Hm : 2 <= ack_minimum kind /\ (kind = 49 -> 4 <= ack_minimum kind))
    by (unfold ack_minimum; destruct (Z.eqb_spec kind 49); lia).
  assert (Hlen : len (slice f 6 n) = n) by (apply len_slice; lia).
  assert (Hfr : f = mvcd_frame kind h (slice f 6 n)).
  { rewrite <- H4. apply frame_is_mvcd_frame; try lia; try done.
    pose proof (Z.div_mod (le16 f 2) 4096). subst n h. lia. }
  assert (Hh : 0 <= h < 16)
    by (subst h; split; [apply Z.div_pos|apply Z.div_lt_upper_bound]; lia).
  exists h, (slice f 6 n). unfold ack_of. rewrite Hlen, le16_slice by lia. zc.
  rewrite Hseq. repeat split; auto using bytes_ok_slice; try lia.
  f_equal. destruct (Z.eqb_spec kind 49); [|reflexivity].
  now rewrite le16_slice by lia.
Qed.

Lemma decode_ack_complete h p :
  null frame = false -> null ack = false ->
  overlaps (addr frame) (len f) (addr ack) sizeof_mvcd_ack = false ->
  0 <= h < 16 -> ack_minimum kind <= len p <= B41_MVCD_ACK_PAYLOAD_MAX ->
  f = mvcd_frame kind h p -> le16 p 0 = seq ->
  b41_mvcd_decode_ack frame (len f) kind seq ack = (B41_MVCD_OK, ack_of kind h p).
Proof.
  intros Hf Ha Hov Hh Hp Hfr Hseq. unfold b41_mvcd_decode_ack. fold f.
  rewrite Hf, Ha, Hov. unfold ack_minimum, read16 in *. cbn [orb].
  assert (Hmin : 2 <= len p) by (destruct (kind =? 49); lia).
  assert (Hl : len f = len p + 10) by (rewrite Hfr; apply len_mvcd_frame).
  assert (Hw : le16 f 2 = len p + 4 + 4096 * h) by (rewrite Hfr; apply mvcd_frame_length_word; lia).
  destruct (length_word_split (le16 f 2)) as [-> ->]; [lia|]. rewrite Hw.
  replace ((len p + 4 + 4096 * h) mod 4096) with (len p + 4) by dlia.
  replace ((len p + 4 + 4096 * h) / 4096) with h by dlia.
  replace (len p + 4 - 4) with (len p) by lia.
  assert (Hpay : slice f 6 (len p) = p) by (rewrite Hfr; apply mvcd_frame_payload).
  assert (Hseq6 : le16 f 6 = seq) by (rewrite <- Hseq, <- Hpay, le16_slice by lia; f_equal; lia).
  pose proof (mvcd_frame_trailer kind h p) as [Ht1 Ht2]. rewrite <- Hfr in Ht1, Ht2.
  assert (Hsum : le16 f (6 + len p) = sum_bytes f 2 (len p + 4)).
  { rewrite sum_bytes_spec, Hfr, mvcd_frame_body. apply mvcd_frame_checksum. }
  rewrite Ht1, Ht2, Hsum, Hseq6.
  assert (Hb : byte_at f 0 = 170 /\ byte_at f 1 = 240 /\ byte_at f 4 = kind /\ byte_at f 5 = 254)
    by (rewrite Hfr; repeat split; reflexivity).
  destruct Hb as (-> & -> & -> & ->).
  replace (u8 kind) with kind by (destruct Hkind; subst; reflexivity).
  rewrite u16_id, (u8_id h) by (unfold is_u16, is_u8; lia).
  assert (Haux : kind = 49 -> le16 f 8 = le16 p 2)
    by (intros ->; cbn in Hp; rewrite <- Hpay, le16_slice by lia; f_equal; lia).
  guards_goal; try (destruct Hkind; lia).
  - unfold ack_of. rewrite Haux by lia. rewrite (proj2 (Z.eqb_eq kind 49)) by lia. now subst seq.
  - unfold ack_of. rewrite (proj2 (Z.eqb_neq kind 49)) by lia. now subst seq.
Qed.
End DecodeAck.

(** ** Encoding *)

Lemma head_sum c h p rest n : n = len p + 4 ->
  bytesum (slice (([170; 240] ++ mvcd_body c h p) ++ rest) 2 n) = bytesum (mvcd_body c h p).
Proof.
  intros ->. rewrite <- app_assoc. f_equal.
  apply (slice_app_mid [170; 240]). now rewrite len_mvcd_body.
Qed.

(** The stores before and after the checksum, on any buffer. *)
Lemma encode_head_stores buf p : len p = B41_MVCD_BOOTSTRAP_SIZE ->
  write_at (write_at (write_at (write16 (write_at (write_at buf 0 [170]) 1 [240])
    2 (B41_MVCD_BOOTSTRAP_SIZE + 4)) 4 [8]) 5 [254]) 6 p
  = ([170; 240] ++ mvcd_body 8 0 p) ++ skipn 112 buf.
Proof.
  intros Hp. unfold write16.
  rewrite (write_at_app [] buf), !write_at_app by (lens; reflexivity).
  unfold mvcd_body. rewrite Hp, !drop_drop. simpl app. unfold len in Hp.
  replace (length p) with 106%nat by lia. reflexivity.
Qed.
Lemma encode_tail_stores pre rest sum i : len pre = i ->
  write_at (write_at (write16 (pre ++ rest) i sum) (2 + i) [170]) (3 + i) [15]
  = (pre ++ put16 sum ++ [170; 15]) ++ skipn 4 rest.
Proof.
  intros Hi. unfold write16. rewrite !write_at_app by lens.
  rewrite !drop_drop, <- !app_assoc. reflexivity.
Qed.

Lemma encode_bootstrap_ok payload frame capacity written :
  let p := pointee payload in
  null payload = false -> null frame = false -> null written = false ->
  len p = B41_MVCD_BOOTSTRAP_SIZE -> B41_MVCD_BOOTSTRAP_FRAME_SIZE <= capacity ->
  overlaps (addr payload) 106 (addr frame) 116 = false ->
  overlaps (addr written) sizeof_size_t (addr payload) 106 = false ->
  overlaps (addr written) sizeof_size_t (addr frame) 116 = false ->
  le16 p 0 = 26 -> le16 p 2 = 0 ->
  b41_mvcd_encode_bootstrap payload 106 frame capacity written
  = (B41_MVCD_OK, mvcd_frame 8 0 p ++ skipn 116 (pointee frame), 116).
Proof.
  cbv zeta. intros Hn1 Hn2 Hn3 Hl Hcap Ho1 Ho2 Ho3 Hid Hseq.
  unfold b41_mvcd_encode_bootstrap, read16.
  rewrite Hn1, Hn2, Hn3, Ho1, Ho2, Ho3, Hid, Hseq.
  destruct (Z.ltb_spec capacity 116); [lia|]. cbn [orb negb Z.eqb Pos.eqb].
  replace (slice (pointee payload) 0 106) with (pointee payload)
    by (rewrite <- Hl; symmetry; apply slice_all).
  rewrite encode_head_stores, sum_bytes_spec, head_sum by (done || lia).
  f_equal. f_equal.
  rewrite (encode_tail_stores _ _ _ 112) by (lens; lia).
  unfold mvcd_frame. rewrite put16_u16, drop_drop, <- !app_assoc. reflexivity.
Qed.

(** ** Claims *)

(** C17. Decoding an acknowledgement is exact: for a readable frame buffer and a
    separate result object, [b41_mvcd_decode_ack] succeeds precisely on the
    reference frames of the requested kind whose payload starts with the
    requested sequence number and is long enough for the kind, and it then
    reports exactly that payload's fields. *)
Theorem decode_ack_exact frame kind seq ack a :
  bytes_ok (pointee frame) -> ack_kind kind ->
  null frame = false -> null ack = false ->
  overlaps (addr frame) (len (pointee frame)) (addr ack) sizeof_mvcd_ack = false ->
  b41_mvcd_decode_ack frame (len (pointee frame)) kind seq ack = (B41_MVCD_OK, a) <->
  exists h p, 0 <= h < 16 /\ bytes_ok p /\
    ack_minimum kind <= len p <= B41_MVCD_ACK_PAYLOAD_MAX /\
    pointee frame = mvcd_frame kind h p /\ le16 p 0 = seq /\ a = ack_of kind h p.
Proof.
  intros Hok Hk Hn1 Hn2 Hov. split; [now apply decode_ack_sound|].
  intros (h & p & Hh & Hp & Hl & Hf & Hs & ->). now apply decode_ack_complete.
Qed.

Definition ack_frame_1 : list Z := mvcd_frame 50 0 [1; 0].
Lemma decode_ack_exact_witness :
  b41_mvcd_decode_ack (Ptr 4096 ack_frame_1) (len ack_frame_1) 50 1
    (Ptr 8192 (MvcdAck 0 0 0 0 0)) = (B41_MVCD_OK, MvcdAck 1 0 2 0 0).
Proof.
  apply (decode_ack_exact (Ptr 4096 ack_frame_1) 50 1 (Ptr 8192 (MvcdAck 0 0 0 0 0))).
  - apply (bool_decide_unpack (Forall is_u8 ack_frame_1)). vm_compute. exact I.
  - right. reflexivity.
  - reflexivity.
  - reflexivity.
  - reflexivity.
  - exists 0, [1; 0]. split; [lia|]. split; [repeat constructor; unfold is_u8; lia|].
    split; [split; vm_compute; discriminate|]. repeat split; reflexivity.
Defined.

(** Encoding the bootstrap frame either produces exactly the reference
    frame of the 106-byte payload (command 8, checksum and trailer included)
    in front of the untouched rest of the buffer, or it reports a negative
    status and leaves both the frame buffer and [*written] as they were. *)
Theorem encode_bootstrap_correct payload size frame capacity written status f w :
  len (pointee payload) = size ->
  b41_mvcd_encode_bootstrap payload size frame capacity written = (status, f, w) ->
  (status = B41_MVCD_OK /\ size = B41_MVCD_BOOTSTRAP_SIZE /\
   le16 (pointee payload) 0 = 26 /\ le16 (pointee payload) 2 = 0 /\
   f = mvcd_frame 8 0 (pointee payload) ++ skipn 116 (pointee frame) /\ w = 116) \/
  (status < 0 /\ f = pointee frame /\ w = pointee written).
Proof.
  intros Hl H. pose proof H as H'. unfold b41_mvcd_encode_bootstrap, read16 in H.
  guards H; try (injection H; intros; subst; right; easy). left.
  assert (Hs : size = 106) by lia. rewrite Hs in *.
  rewrite encode_bootstrap_ok in H' by lia.
  injection H'; intros; subst. repeat split; lia || reflexivity.
Qed.

Definition bootstrap_payload_1 : list Z := put16 26 ++ zeros 104.
Lemma encode_bootstrap_correct_witness :
  exists f, b41_mvcd_encode_bootstrap (Ptr 4096 bootstrap_payload_1) 106
    (Ptr 8192 (zeros 120)) 120 (Ptr 12288 0) = (B41_MVCD_OK, f, 116) /\
    f = mvcd_frame 8 0 bootstrap_payload_1 ++ zeros 4.
Proof.
  eexists. split; [vm_compute; reflexivity|].
  destruct (encode_bootstrap_correct (Ptr 4096 bootstrap_payload_1) 106
    (Ptr 8192 (zeros 120)) 120 (Ptr 12288 0) _ _ _ eq_refl eq_refl)
    as [(_ & _ & _ & _ & H & _)|(H & _)].
  - exact H.
  - vm_compute in H. discriminate H.
Defined.
