(* ===== verification/Binary754.v ===== *)
(** * binary32 and binary64 arithmetic

    The GNSS sources compute with [float] and [double] under
    round-to-nearest-even (they refuse any other rounding mode) and assert
    IEEE-754 formats without excess precision. The model uses the executable
    IEEE specification of the standard library, [SpecFloat], at the two
    precisions, together with the conversions the sources use. *)

From Stdlib Require Export SpecFloat.
From S2P Require Import Prelude.

Definition b32_of_Z (z : Z) : spec_float := binary_normalize 24 128 z 0 false.
Definition b64_of_Z (z : Z) : spec_float := binary_normalize 53 1024 z 0 false.
Definition b32_mul := SFmul 24 128.
Definition b32_add := SFadd 24 128.
Definition b64_mul := SFmul 53 1024.
Definition b64_add := SFadd 53 1024.
Definition b64_div := SFdiv 53 1024.

(** [(double)x] for a [float]: the same value in the wider format. *)
Definition b64_of_b32 (x : spec_float) : spec_float :=
  match x with
  | S754_finite s m e => binary_normalize 53 1024 (cond_Zopp s (Zpos m)) e s
  | _ => x
  end.

(** Reinterpretation of a bit pattern with [mw] mantissa and [ew] exponent bits. *)
Definition of_bits (mw ew bits : Z) : spec_float :=
  let sign := Z.testbit bits (mw + ew) in
  let expo := Z.land (Z.shiftr bits mw) (2 ^ ew - 1) in
  let mant := Z.land bits (2 ^ mw - 1) in
  let emin := 3 - 2 ^ (ew - 1) - (mw + 1) in
  if expo =? 2 ^ ew - 1 then
    if mant =? 0 then S754_infinity sign else S754_nan
  else if expo =? 0 then
    match mant with Zpos m => S754_finite sign m emin | _ => S754_zero sign end
  else
    match mant + 2 ^ mw with
    | Zpos m => S754_finite sign m (expo - 1 + emin)
    | _ => S754_nan
    end.
Definition binary32 (bits : Z) : spec_float := of_bits 23 8 bits.
Definition binary64 (bits : Z) : spec_float := of_bits 52 11 bits.

Definition isfinite (x : spec_float) : bool :=
  match x with S754_zero _ | S754_finite _ _ _ => true | _ => false end.

(** [(int64_t)floor(x)] and [(int64_t)ceil(x)] on finite values in range. *)
Definition floorZ (x : spec_float) : Z :=
  match x with
  | S754_finite s m e =>
      let v := cond_Zopp s (Zpos m) in if 0 <=? e then v * 2 ^ e else v / 2 ^ (- e)
  | _ => 0
  end.
Definition ceilZ (x : spec_float) : Z := - floorZ (SFopp x).

(** Truncation toward zero, for the conversion of a non-negative value. *)
Definition truncZ (x : spec_float) : Z :=
  match x with S754_finite true _ _ => ceilZ x | _ => floorZ x end.

(** ** Exact values

    A canonical binary64 value is an integer multiple of [2^-1074]; [sval]
    is that integer, so comparisons and exactness are facts about [Z]. *)

Definition sval (x : spec_float) : Z :=
  match x with
  | S754_finite s m e => cond_Zopp s (Zpos m) * 2 ^ (e + 1074)
  | _ => 0
  end.
Abbreviation b64_valid x := (valid_binary 53 1024 x = true) (only parsing).

Lemma digits2_pos_log2 m : Zpos (digits2_pos m) = Z.log2 (Zpos m) + 1.
Proof.
  induction m as [p IH|p IH|]; cbn [digits2_pos]; [| |reflexivity].
  - rewrite Pos2Z.inj_succ, IH, (Pos2Z.inj_xI p), Z.add_1_r, Z.log2_succ_double by lia. lia.
  - rewrite Pos2Z.inj_succ, IH, (Pos2Z.inj_xO p), Z.log2_double by lia. lia.
Qed.
Lemma digits2_pos_bounds m d : Zpos (digits2_pos m) = d -> 2 ^ (d - 1) <= Zpos m < 2 ^ d.
Proof.
  intros <-. rewrite digits2_pos_log2. pose proof (Z.log2_spec (Zpos m)).
  replace (Z.log2 (Zpos m) + 1 - 1) with (Z.log2 (Zpos m)) by lia.
  rewrite Z.add_1_r. lia.
Qed.

(** Canonical: either the minimal exponent, or exactly 53 digits. *)
Lemma b64_canonical m e : bounded 53 1024 m e = true ->
  -1074 <= e <= 971 /\ Zpos m < 2 ^ 53 /\ (-1074 < e -> 2 ^ 52 <= Zpos m).
Proof.
  unfold bounded, canonical_mantissa, fexp, emin. intros [Hc He]%andb_prop.
  apply Z.eqb_eq in Hc. apply Z.leb_le in He.
  set (d := Zpos (digits2_pos m)) in *. change (3 - 1024 - 53) with (-1074) in Hc.
  destruct (digits2_pos_bounds m d eq_refl) as [Hlo Hhi].
  split; [lia|]. split.
  - eapply Z.lt_le_trans; [exact Hhi|]. apply Z.pow_le_mono_r; lia.
  - intros. replace 52 with (d - 1) by lia. exact Hlo.
Qed.

Lemma canonical_lt m1 e1 m2 e2 :
  bounded 53 1024 m1 e1 = true -> bounded 53 1024 m2 e2 = true -> e1 < e2 ->
  Zpos m1 * 2 ^ (e1 + 1074) < Zpos m2 * 2 ^ (e2 + 1074).
Proof.
  intros (? & H1 & _)%b64_canonical (? & _ & H2)%b64_canonical Hlt.
  specialize (H2 ltac:(lia)).
  apply Z.lt_le_trans with (2 ^ 53 * 2 ^ (e1 + 1074)).
  - apply Z.mul_lt_mono_pos_r; [apply Z.pow_pos_nonneg|]; lia.
  - transitivity (2 ^ 52 * 2 ^ (e2 + 1074)).
    + rewrite <- !Z.pow_add_r by lia. apply Z.pow_le_mono_r; lia.
    + apply Z.mul_le_mono_nonneg_r; [apply Z.pow_nonneg|]; lia.
Qed.

Lemma pos_compare_scaled m1 e1 m2 e2 :
  bounded 53 1024 m1 e1 = true -> bounded 53 1024 m2 e2 = true ->
  match e1 ?= e2 with Lt => Lt | Gt => Gt | Eq => Pos.compare_cont Eq m1 m2 end
  = (Zpos m1 * 2 ^ (e1 + 1074) ?= Zpos m2 * 2 ^ (e2 + 1074)).
Proof.
  intros H1 H2. symmetry. destruct (Z.compare_spec e1 e2) as [<-|Hlt|Hgt].
  - apply b64_canonical in H1. change (Pos.compare_cont Eq m1 m2) with (Zpos m1 ?= Zpos m2).
    assert (0 < 2 ^ (e1 + 1074)) by (apply Z.pow_pos_nonneg; lia).
    destruct (Z.compare_spec (Zpos m1) (Zpos m2)) as [->|?|?].
    + apply Z.compare_refl.
    + apply Z.compare_lt_iff. nia.
    + apply Z.compare_gt_iff. nia.
  - apply Z.compare_lt_iff. now apply canonical_lt.
  - apply Z.compare_gt_iff. now apply canonical_lt.
Qed.

(** Comparison of finite canonical values is comparison of their [sval]. *)
Lemma SFcompare_sval x y :
  b64_valid x -> b64_valid y -> isfinite x = true -> isfinite y = true ->
  SFcompare x y = Some (sval x ?= sval y).
Proof.
  assert (Hp : forall m e, bounded 53 1024 m e = true -> 0 < Zpos m * 2 ^ (e + 1074)).
  { intros m e H%b64_canonical. apply Z.mul_pos_pos; [lia|]. apply Z.pow_pos_nonneg; lia. }
  destruct x as [| | |s1 m1 e1], y as [| | |s2 m2 e2];
    cbn [SFcompare sval valid_binary isfinite cond_Zopp]; try discriminate; intros Hx Hy _ _.
  - reflexivity.
  - specialize (Hp _ _ Hy). destruct s2; cbn [cond_Zopp]; f_equal; symmetry;
      [apply Z.compare_gt_iff|apply Z.compare_lt_iff]; rewrite ?Z.mul_opp_l; lia.
  - specialize (Hp _ _ Hx). destruct s1; cbn [cond_Zopp]; f_equal; symmetry;
      [apply Z.compare_lt_iff|apply Z.compare_gt_iff]; rewrite ?Z.mul_opp_l; lia.
  - pose proof (Hp _ _ Hx). pose proof (Hp _ _ Hy).
    destruct s1, s2; cbn [cond_Zopp]; f_equal; try (symmetry; first [apply Z.compare_lt_iff|apply Z.compare_gt_iff]; rewrite ?Z.mul_opp_l; lia).
    + rewrite !Z.mul_opp_l, Z.compare_opp, <- pos_compare_scaled by assumption.
      rewrite (Z.compare_antisym e2 e1). destruct (e2 ?= e1); try reflexivity.
      symmetry. apply Pos.compare_antisym.
    + now apply pos_compare_scaled.
Qed.

Lemma SFltb_sval x y :
  b64_valid x -> b64_valid y -> isfinite x = true -> isfinite y = true ->
  SFltb x y = (sval x <? sval y).
Proof.
  intros. unfold SFltb, Z.ltb. rewrite SFcompare_sval by assumption. reflexivity.
Qed.
Lemma SFleb_sval x y :
  b64_valid x -> b64_valid y -> isfinite x = true -> isfinite y = true ->
  SFleb x y = (sval x <=? sval y).
Proof.
  intros. unfold SFleb, Z.leb. rewrite SFcompare_sval by assumption. reflexivity.
Qed.

(** ** Exact operations *)

Lemma round_aux_canonical s m e : bounded 53 1024 m e = true ->
  binary_round_aux 53 1024 s (Zpos m) e loc_Exact = S754_finite s m e.
Proof.
  intros H. pose proof H as H'. unfold bounded, canonical_mantissa in H.
  apply andb_prop in H as [Hc He]. apply Z.eqb_eq in Hc.
  unfold binary_round_aux, shr_fexp. cbn [Zdigits2]. rewrite Hc, Z.sub_diag.
  cbn [shr shr_record_of_loc shr_m loc_of_shr_record round_nearest_even Zdigits2].
  rewrite Hc, Z.sub_diag. cbn [shr shr_m]. now rewrite He.
Qed.

Lemma iter_xO p q : Zpos (Pos.iter xO p q) = Zpos p * 2 ^ Zpos q.
Proof.
  rewrite <- (Pos.mul_1_l q) at 2. revert p.
  induction q as [|q IH] using Pos.peano_ind; intros p; [cbn; lia|].
  rewrite Pos.iter_succ, Pos2Z.inj_xO, IH, !Pos.mul_1_l, Pos2Z.inj_succ, Z.pow_succ_r by lia. lia.
Qed.

Lemma digits2_pos_unique m d : 2 ^ (d - 1) <= Zpos m < 2 ^ d -> Zpos (digits2_pos m) = d.
Proof.
  intros H. rewrite digits2_pos_log2.
  assert (0 <= d - 1).
  { destruct (Z.lt_ge_cases (d - 1) 0); [|lia]. exfalso.
    destruct (Z.eq_dec d 0) as [->|]; [cbn in H; lia|].
    rewrite (Z.pow_neg_r 2 d) in H by lia. lia. }
  rewrite (Z.log2_unique (Zpos m) (d - 1)); [lia|lia|].
  replace (Z.succ (d - 1)) with d by lia. exact H.
Qed.
Lemma bounded_53 m e : 2 ^ 52 <= Zpos m < 2 ^ 53 -> -1074 <= e <= 971 ->
  bounded 53 1024 m e = true.
Proof.
  intros Hm He. unfold bounded, canonical_mantissa, fexp, emin.
  rewrite (digits2_pos_unique m 53) by exact Hm.
  apply andb_true_intro. split; [apply Z.eqb_eq|apply Z.leb_le]; lia.
Qed.

Lemma binary_round_small s p : Zpos p < 2 ^ 53 -> exists m e,
  binary_round 53 1024 s p 0 = S754_finite s m e /\
  2 ^ 52 <= Zpos m < 2 ^ 53 /\ -52 <= e <= 0 /\ Zpos m = Zpos p * 2 ^ (- e).
Proof.
  intros Hp. set (d := Zpos (digits2_pos p)).
  destruct (digits2_pos_bounds p d eq_refl) as [Hlo Hhi].
  assert (Hd : 1 <= d <= 53).
  { split; [lia|]. destruct (Z.lt_ge_cases 53 d); [|lia]. exfalso.
    assert (2 ^ 53 <= 2 ^ (d - 1)) by (apply Z.pow_le_mono_r; lia). lia. }
  exists (Z.to_pos (Zpos p * 2 ^ (53 - d))), (d - 53).
  assert (Hpos : 0 < Zpos p * 2 ^ (53 - d)) by (apply Z.mul_pos_pos; [lia|apply Z.pow_pos_nonneg; lia]).
  assert (Hm : 2 ^ 52 <= Zpos p * 2 ^ (53 - d) < 2 ^ 53).
  { replace (2 ^ 52) with (2 ^ (d - 1) * 2 ^ (53 - d)) by (rewrite <- Z.pow_add_r by lia; f_equal; lia).
    replace (2 ^ 53) with (2 ^ d * 2 ^ (53 - d)) by (rewrite <- Z.pow_add_r by lia; f_equal; lia).
    assert (0 < 2 ^ (53 - d)) by (apply Z.pow_pos_nonneg; lia). nia. }
  rewrite Z2Pos.id by lia. replace (- (d - 53)) with (53 - d) by lia.
  repeat split; try lia.
  rewrite <- (round_aux_canonical s (Z.to_pos (Zpos p * 2 ^ (53 - d))) (d - 53))
    by (apply bounded_53; rewrite ?Z2Pos.id by lia; lia).
  unfold binary_round. fold d. rewrite Z.add_0_r.
  assert (Hf : fexp 53 1024 d = d - 53) by (unfold fexp, emin; lia). rewrite Hf.
  unfold shl_align. rewrite Z.sub_0_r. rewrite Z2Pos.id by lia.
  destruct (d - 53) as [|q|q] eqn:E; [|lia|].
  - replace (53 - d) with 0 by lia. now rewrite Z.mul_1_r.
  - rewrite iter_xO. do 2 f_equal. f_equal. lia.
Qed.

Definition half : spec_float := binary64 0x3fe0000000000000.

(** Halving a 53-digit value only lowers the exponent. *)
Lemma mul_half s m e : 2 ^ 52 <= Zpos m < 2 ^ 53 -> -52 <= e <= 0 ->
  b64_mul (S754_finite s m e) half = S754_finite s m (e - 1).
Proof.
  intros Hm He. change half with (S754_finite false 4503599627370496 (-53)).
  unfold b64_mul, SFmul. rewrite xorb_false_r, Pos.mul_comm.
  rewrite <- (round_aux_canonical s m (e - 1)) by (apply bounded_53; lia).
  assert (Hd : Zpos (digits2_pos (4503599627370496 * m)) = 105).
  { apply digits2_pos_unique. rewrite Pos2Z.inj_mul. lia. }
  assert (Hd' : Zpos (digits2_pos m) = 53) by (apply digits2_pos_unique; lia).
  unfold binary_round_aux at 1. unfold shr_fexp at 1. cbn [Zdigits2]. rewrite Hd.
  assert (Hf : fexp 53 1024 (105 + (e + -53)) - (e + -53) = 52) by (unfold fexp, emin; lia).
  rewrite Hf. unfold shr at 1.
  replace (@SpecFloat.iter_pos _ shr_1 52%positive (shr_record_of_loc (Zpos (4503599627370496 * m)) loc_Exact))
    with (Build_shr_record (Zpos m) false false) by reflexivity.
  replace (e + -53 + 52) with (e - 1) by lia.
  unfold binary_round_aux, shr_fexp at 2. cbn [Zdigits2]. rewrite Hd'.
  replace (fexp 53 1024 (53 + (e - 1)) - (e - 1)) with 0 by (unfold fexp, emin; lia).
  reflexivity.
Qed.

Lemma cond_Zopp_mul s a b : cond_Zopp s a * b = cond_Zopp s (a * b).
Proof. destruct s; cbn [cond_Zopp]; lia. Qed.

(** Half of an integer below [2^53] in magnitude is computed exactly. *)
Lemma b64_half_exact z : Z.abs z < 2 ^ 53 ->
  let x := b64_mul (b64_of_Z z) half in
  b64_valid x /\ isfinite x = true /\ 2 * sval x = z * 2 ^ 1074.
Proof.
  intros Hz. destruct z as [|p|p]; [cbn; auto| |];
    unfold b64_of_Z, binary_normalize;
    [destruct (binary_round_small false p) as (m & e & -> & Hm & He & Hv)
    |destruct (binary_round_small true p) as (m & e & -> & Hm & He & Hv)];
    try (cbn in Hz; lia); cbv zeta; rewrite mul_half by assumption;
    (split; [apply bounded_53; lia|]); (split; [reflexivity|]);
    cbn [sval cond_Zopp];
    (assert (Hx : 2 * (Zpos m * 2 ^ (e - 1 + 1074)) = Zpos p * 2 ^ 1074) by
      (rewrite Hv, <- Z.mul_assoc, <- Z.pow_add_r by lia;
       replace (- e + (e - 1 + 1074)) with 1073 by lia;
       replace 1074 with (1 + 1073) by lia; rewrite Z.pow_add_r by lia; lia));
    [exact Hx|change (Zneg p) with (- Zpos p); lia].
Qed.
