(* ===== verification/Clock.v ===== *)
(** * Clock synthesis fields: [dsp-download/clock.c] *)

From S2P Require Import Prelude Binary754.

(** [enum b41_mvcd_clock_result] *)
Abbreviation B41_MVCD_CLOCK_OK := 0 (only parsing).
Abbreviation B41_MVCD_CLOCK_ARGUMENT := (-1) (only parsing).
Abbreviation B41_MVCD_CLOCK_ENVIRONMENT := (-2) (only parsing).
Abbreviation B41_MVCD_CLOCK_RANGE := (-3) (only parsing).

Record clock_fields : Type := ClockFields {
  parameter_a : Z;
  parameter_b : Z;
  synthesis : list Z
}.

(** [to_nearest] is [fegetround() == FE_TONEAREST]; [out] is [None] for a
    [NULL] pointer. Returns the status and [*out] afterwards. *)
Definition b41_mvcd_clock_round (to_nearest : bool) (value : spec_float)
    (out : option Z) : Z * option Z :=
  match out with
  | None => (B41_MVCD_CLOCK_ARGUMENT, out)
  | Some _ =>
    if negb to_nearest then (B41_MVCD_CLOCK_ENVIRONMENT, out)
    else if negb (isfinite value) || SFleb (b64_of_Z (2 ^ 62)) (SFabs value)
    then (B41_MVCD_CLOCK_RANGE, out)
    else
      let lower := floorZ value in
      let upper := ceilZ value in
      let midpoint := b64_of_Z (lower + upper) in
      let midpoint := b64_mul midpoint (binary64 0x3fe0000000000000) in
      (B41_MVCD_CLOCK_OK, Some (if SFltb value midpoint then lower else upper))
  end.

Definition store16 (value : Z) : list Z := [u8 value; u8 (Z.shiftr value 8)].

(** Words 5 and 6 of the synthesis block when the frequency has no table row. *)
Definition generated_word (to_nearest : bool) (factor frequency32 : spec_float) : Z * Z :=
  let scaled32 := b32_mul factor frequency32 in
  let scaled32 := b32_add scaled32 scaled32 in
  let timer := b64_div (b64_of_b32 scaled32) (b64_of_Z 100000000000) in
  match b41_mvcd_clock_round to_nearest timer (Some 0) with
  | (0, Some generated) => (0, u16 (u32 (u32 generated + 15)))
  | (error, _) => (error, 0)
  end.

Definition primary : list Z := [138; 220; 307; 97; 151].
Definition companion : list Z := [121; 193; 265; 84; 131].

Definition clock_table (effective_hz : Z) (frequency32 : spec_float) : Z :=
  if effective_hz =? 16368000 then 1
  else if SFeqb frequency32 (binary32 0x4bc65d40) then 2
  else if SFeqb frequency32 (binary32 0x4c189680) then 3
  else if effective_hz =? 12000000 then 4
  else if SFeqb frequency32 (binary32 0x4b927c00) then 5
  else 0.

Definition clock_coefficient (effective_hz : Z) : Z :=
  if effective_hz =? 16368000 then 84
  else if effective_hz =? 26000000 then 157
  else if u32 (effective_hz - 12000000) <? 7000000 then 100
  else if u32 (effective_hz - 19000000) <? 7000000 then 150
  else if u32 (effective_hz - 26000001) <? 6999999 then 200
  else if u32 (effective_hz - 33000000) <=? 7000000 then 250
  else 0.

Definition clock_parameter_a (effective_hz : Z) : Z :=
  if effective_hz =? 16368000 then 288
  else u16 (Z.shiftr (u64 (effective_hz * 0x91a2b3c5)) 47).
Definition clock_parameter_b (effective_hz : Z) : Z :=
  if effective_hz =? 16368000 then 426
  else u16 (Z.shiftr (u64 (effective_hz * 0x1b4e81b5)) 44).
Definition clock_word13 (effective_hz : Z) : Z :=
  u16 (u32 (u32 (Z.shiftr (u64 (effective_hz * 0x10624dd3)) 38) - 1)).

Definition b41_mvcd_clock_synthesize (to_nearest : bool) (effective_hz mode : Z)
    (out : option clock_fields) : Z * option clock_fields :=
  match out with
  | None => (B41_MVCD_CLOCK_ARGUMENT, out)
  | Some _ =>
    if (effective_hz =? 0) || (7 <? mode) then (B41_MVCD_CLOCK_ARGUMENT, out)
    else if negb to_nearest then (B41_MVCD_CLOCK_ENVIRONMENT, out)
    else
    let frequency32 := b32_of_Z effective_hz in
    let table := clock_table effective_hz frequency32 in
    let divider := 1571328000 / effective_hz in
    let remainder := u32 (1571328000 - u32 (divider * effective_hz)) in
    let fraction := b64_mul (b64_of_Z remainder) (b64_of_Z 16777216) in
    let fraction := b64_div fraction (b64_of_Z effective_hz) in
    match b41_mvcd_clock_round to_nearest fraction (Some 0) with
    | (0, Some fractional) =>
      let packed_divider :=
        Z.lor (u32 (Z.shiftl divider 8)) (Z.land (Z.shiftr (u32 fractional) 16) 255) in
      let words56 :=
        if negb (table =? 0) then
          (0, nth (Z.to_nat (table - 1)) primary 0, nth (Z.to_nat (table - 1)) companion 0)
        else
          match generated_word to_nearest (binary32 0x48b6e000) frequency32 with
          | (0, w5) =>
            match generated_word to_nearest (binary32 0x489d8000) frequency32 with
            | (0, w6) => (0, w5, w6)
            | (error, _) => (error, 0, 0)
            end
          | (error, _) => (error, 0, 0)
          end in
      match words56 with
      | (0, w5, w6) =>
        let rate := b64_div (b64_of_Z effective_hz) (b64_of_Z 1000000) in
        match b41_mvcd_clock_round to_nearest
                (b64_div (binary64 0x41905e353f7ced91) rate) (Some 0) with
        | (0, Some primary_timer) =>
          match b41_mvcd_clock_round to_nearest
                  (b64_div (binary64 0x41888d4fdf3b645a) rate) (Some 0) with
          | (0, Some companion_timer) =>
            let w7 := u16 (Z.shiftr (u64 primary_timer) 16) in
            let w8 := u16 primary_timer in
            let words :=
              [u16 (clock_coefficient effective_hz); u16 packed_divider; u16 fractional; 0;
               mode; w5; w6; w7; w8;
               u16 (Z.shiftr (u64 companion_timer) 16); u16 companion_timer; w7; w8;
               clock_word13 effective_hz] in
            (B41_MVCD_CLOCK_OK,
             Some {| parameter_a := clock_parameter_a effective_hz;
                     parameter_b := clock_parameter_b effective_hz;
                     synthesis := words ≫= store16 |})
          | (error, _) => (error, out)
          end
        | (error, _) => (error, out)
        end
      | (error, _, _) => (error, out)
      end
    | (error, _) => (error, out)
    end
  end.

(** ** Reference vectors of [test_clock.c] *)

Definition clock_words (l : list Z) : list Z :=
  (fun i => le16 l (2 * Z.of_nat i)) <$> seq 0 14.
Definition clock_vector (hz mode : Z) : Z * option (Z * Z * list Z) :=
  match b41_mvcd_clock_synthesize true hz mode (Some (ClockFields 0 0 [])) with
  | (st, Some r) => (st, Some (parameter_a r, parameter_b r, clock_words (synthesis r)))
  | (st, None) => (st, None)
  end.
Definition clock_vectors : list (Z * (Z * Z * list Z)) := [
  (1, (0, 0, [0; 0; 0; 0; 0; 15; 15; 24576; 0; 18432; 0; 24576; 0; 65535]));
  (12000000, (208, 312, [100; 33521; 43516; 0; 0; 97; 84; 87; 19399; 65; 30933; 87; 19399; 11999]));
  (16368000, (288, 426, [84; 24576; 0; 0; 0; 138; 121; 64; 0; 48; 0; 64; 0; 16367]));
  (19200000, (333, 500, [150; 20951; 2621; 0; 0; 151; 131; 54; 36700; 40; 60293; 54; 36700; 19199]));
  (20000000, (347, 520, [150; 20112; 65431; 0; 0; 165; 144; 52; 24746; 39; 18560; 52; 24746; 19999]));
  (26000000, (451, 677, [157; 15471; 35208; 0; 0; 220; 193; 40; 19036; 30; 14277; 40; 19036; 25999]));
  (26000001, (451, 677, [200; 15471; 35169; 0; 0; 220; 193; 40; 19036; 30; 14277; 40; 19036; 25999]));
  (33000000, (572, 859, [250; 12189; 45613; 0; 0; 262; 228; 31; 48759; 23; 52953; 31; 48759; 32999]));
  (35999999, (624, 937, [250; 11173; 58216; 0; 0; 285; 247; 29; 6466; 21; 54002; 29; 6466; 35998]));
  (40000000, (694, 1041, [250; 10056; 32716; 0; 0; 307; 265; 26; 12373; 19; 42048; 26; 12373; 39999]));
  (40000001, (694, 1041, [0; 10056; 32699; 0; 0; 307; 265; 26; 12373; 19; 42048; 26; 12373; 39999]));
  (52000000, (902, 1354, [0; 7735; 50372; 0; 0; 405; 350; 20; 9518; 15; 7138; 20; 9518; 51999]));
  (4294967295, (9029, 46312, [0; 93; 43152; 0; 0; 32187; 27723; 0; 15984; 0; 11988; 0; 15984; 35126]))
].
Example clock_test_vectors :
  Forall (fun '(hz, r) => clock_vector hz 0 = (B41_MVCD_CLOCK_OK, Some r)) clock_vectors.
Proof. repeat constructor. Qed.

(** ** Rounding *)

(** The nearest integer of a finite value, exact halves upwards. *)
Definition round_half_up (x : spec_float) : Z :=
  match x with
  | S754_finite s m e =>
      let v := cond_Zopp s (Zpos m) in
      if 0 <=? e then v * 2 ^ e else (2 * v + 2 ^ (- e)) / (2 * 2 ^ (- e))
  | _ => 0
  end.

Lemma floor_ceil_int v q : 0 < q ->
  - (- v / q) = if v mod q =? 0 then v / q else v / q + 1.
Proof.
  intros Hq. destruct (Z.eqb_spec (v mod q) 0) as [E|E].
  - rewrite Z.div_opp_l_z by lia. lia.
  - rewrite Z.div_opp_l_nz by lia. lia.
Qed.
Lemma half_up_div v q : 0 < q ->
  (2 * v + q) / (2 * q) = if 2 * (v mod q) <? q then v / q else v / q + 1.
Proof.
  intros Hq. pose proof (Z.div_mod v q ltac:(lia)) as Hv. pose proof (Z.mod_pos_bound v q Hq).
  destruct (Z.ltb_spec (2 * (v mod q)) q); symmetry; apply Z.div_unique_pos with
    (2 * v + q - 2 * q * (if 2 * (v mod q) <? q then v / q else v / q + 1));
    destruct (Z.ltb_spec (2 * (v mod q)) q); try lia; nia.
Qed.

Lemma SFopp_finite s m e : SFopp (S754_finite s m e) = S754_finite (negb s) m e.
Proof. reflexivity. Qed.
Lemma cond_Zopp_negb s a : cond_Zopp (negb s) a = - cond_Zopp s a.
Proof. destruct s; cbn [cond_Zopp negb]; lia. Qed.

(** With a fractional part, the midpoint test compares exactly. *)
Lemma midpoint_test s m k : let v := cond_Zopp s (Zpos m) in let q := 2 ^ k in
  bounded 53 1024 m (- k) = true -> 0 < k ->
  SFltb (S754_finite s m (- k)) (b64_mul (b64_of_Z (v / q + (v / q + 1))) half)
  = (2 * v <? (2 * (v / q) + 1) * q).
Proof.
  intros v q Hb Hk. destruct (b64_canonical _ _ Hb) as (He & Hm & _).
  assert (Hq : 2 <= q) by (subst q; replace k with (1 + (k - 1)) by lia;
    rewrite Z.pow_add_r by lia; assert (0 < 2 ^ (k - 1)) by (apply Z.pow_pos_nonneg; lia); lia).
  assert (Hv : - 2 ^ 53 < v < 2 ^ 53) by (subst v; destruct s; cbn [cond_Zopp]; lia).
  assert (Hd : - 2 ^ 52 <= v / q < 2 ^ 52).
  { split; [apply Z.div_le_lower_bound|apply Z.div_lt_upper_bound]; nia. }
  destruct (b64_half_exact (v / q + (v / q + 1))) as (Hval & Hfin & Hs); [lia|].
  rewrite SFltb_sval by (assumption || reflexivity || exact Hb).
  set (mid := sval _) in *. cbn [sval]. fold v.
  replace (2 ^ 1074) with (q * 2 ^ (- k + 1074)) in Hs
    by (subst q; rewrite <- Z.pow_add_r by lia; f_equal; lia).
  assert (0 < 2 ^ (- k + 1074)) by (apply Z.pow_pos_nonneg; lia).
  apply eq_iff_eq_true. rewrite !Z.ltb_lt. nia.
Qed.

Lemma clock_round_in_range value o :
  b64_valid value -> isfinite value = true ->
  SFleb (b64_of_Z (2 ^ 62)) (SFabs value) = false ->
  b41_mvcd_clock_round true value (Some o) = (B41_MVCD_CLOCK_OK, Some (round_half_up value)).
Proof.
  intros Hval Hfin Hr. unfold b41_mvcd_clock_round. rewrite Hfin, Hr. cbn [negb orb].
  do 2 f_equal. destruct value as [| | |s m e]; try discriminate; [reflexivity|].
  unfold ceilZ. rewrite SFopp_finite. cbn [floorZ round_half_up]. rewrite cond_Zopp_negb.
  set (v := cond_Zopp s (Zpos m)) in *.
  destruct (Z.leb_spec 0 e); [destruct (SFltb _ _); lia|].
  assert (Hq : 0 < 2 ^ (- e)) by (apply Z.pow_pos_nonneg; lia).
  rewrite floor_ceil_int, half_up_div by exact Hq.
  pose proof (Z.mod_pos_bound v (2 ^ (- e)) Hq).
  destruct (Z.eqb_spec (v mod 2 ^ (- e)) 0) as [E|E].
  - rewrite E. destruct (Z.ltb_spec (2 * 0) (2 ^ (- e))); [|lia]. now destruct (SFltb _ _).
  - change (binary64 0x3fe0000000000000) with half.
    replace e with (- (- e)) at 1 by lia. subst v. rewrite midpoint_test;
      [|rewrite Z.opp_involutive; exact Hval|lia].
    set (v := cond_Zopp s (Zpos m)) in *. pose proof (Z.div_mod v (2 ^ (- e))).
    destruct (Z.ltb_spec (2 * v) ((2 * (v / 2 ^ (- e)) + 1) * 2 ^ (- e)));
      destruct (Z.ltb_spec (2 * (v mod 2 ^ (- e))) (2 ^ (- e))); try reflexivity; nia.
Qed.

(** ** Multiplicative inverses *)

Lemma magic_div hz mul shift d :
  0 <= hz < 2 ^ 32 -> 0 < d -> 0 <= shift ->
  2 ^ shift <= mul * d -> (2 ^ 32 / d + 1) * (mul * d - 2 ^ shift) < mul ->
  hz * mul / 2 ^ shift = hz / d.
Proof.
  intros Hz Hd Hs Hlo Hhi. symmetry.
  pose proof (Z.div_mod hz d ltac:(lia)). pose proof (Z.mod_pos_bound hz d Hd).
  assert (0 < 2 ^ shift) by (apply Z.pow_pos_nonneg; lia).
  assert (0 <= hz / d <= 2 ^ 32 / d) by (split; [apply Z.div_pos; lia|apply Z.div_le_mono; lia]).
  apply Z.div_unique_pos with (hz * mul - 2 ^ shift * (hz / d)); [|lia].
  set (q := hz / d) in *. set (r := hz mod d) in *. set (c := mul * d - 2 ^ shift) in *.
  assert (0 < mul) by nia.
  assert (hz * mul - 2 ^ shift * q = q * c + r * mul) as -> by (subst c; nia).
  assert (r * mul <= (d - 1) * mul) by nia.
  assert (q * c <= 2 ^ 32 / d * c) by nia. nia.
Qed.

(** ** Shape of the synthesised block *)

Lemma clock_round_stores rm v o : exists st o', b41_mvcd_clock_round rm v (Some o) = (st, Some o').
Proof. unfold b41_mvcd_clock_round. guards_goal; eauto. Qed.

(** Splits the results of the rounding calls and the table rows of [H]. *)
Ltac clock_cases H :=
  repeat match type of H with
  | context [b41_mvcd_clock_round ?rm ?v (Some ?o)] =>
      let st := fresh "st" in let o' := fresh "o" in let E := fresh "E" in
      destruct (clock_round_stores rm v o) as (st & o' & E); rewrite E in H; clear E
  | context [match ?x with _ => _ end] => destruct x
  end; try discriminate H.

Lemma clock_synthesize_shape rm hz mode out r :
  b41_mvcd_clock_synthesize rm hz mode (Some out) = (B41_MVCD_CLOCK_OK, Some r) ->
  len (synthesis r) = 28 /\ bytes_ok (synthesis r).
Proof.
  unfold b41_mvcd_clock_synthesize. intros H. cbv zeta in H.
  clock_cases H; injection H as <-;
    (split; [reflexivity|]; repeat (apply Forall_cons; split; [apply u8_range|]); now apply Forall_nil).
Qed.
Lemma clock_synthesize_stores rm hz mode out st o :
  b41_mvcd_clock_synthesize rm hz mode (Some out) = (st, o) -> exists r, o = Some r.
Proof.
  unfold b41_mvcd_clock_synthesize. intros H. cbv zeta in H.
  clock_cases H; injection H as _ <-; eauto.
Qed.

(** The two baud parameters and the millisecond word are computed with
    32-bit multiplicative inverses; for every 32-bit frequency they are the
    truncating divisions by 57600, 38400 and 1000 (reduced to 16 bits), apart
    from the 16.368 MHz row, which is tabulated. *)
Theorem clock_inverse_divisions hz : 0 <= hz < 2 ^ 32 ->
  (hz <> 16368000 -> clock_parameter_a hz = u16 (hz / 57600) /\
                     clock_parameter_b hz = u16 (hz / 38400)) /\
  clock_word13 hz = u16 (hz / 1000 - 1).
Proof.
  intros Hz. unfold clock_parameter_a, clock_parameter_b, clock_word13.
  rewrite !u64_id by (unfold is_u64; lia). rewrite !Z.shiftr_div_pow2 by lia.
  rewrite !(magic_div hz _ _ 57600), (magic_div hz _ _ 38400), (magic_div hz _ _ 1000)
    by (lia || vm_compute; congruence).
  split.
  - intros Hne. destruct (Z.eqb_spec hz 16368000); [lia|]. auto.
  - assert (0 <= hz / 1000 < 2 ^ 32)
      by (split; [apply Z.div_pos|apply Z.div_lt_upper_bound]; lia).
    rewrite (u32_id (hz / 1000)) by (unfold is_u32; lia).
    unfold u16, u32. now apply Z.mod_mod_divide; exists 65536.
Qed.
Lemma clock_inverse_divisions_witness :
  clock_parameter_a 26000000 = u16 (26000000 / 57600) /\
  clock_parameter_b 26000000 = u16 (26000000 / 38400).
Proof. apply (clock_inverse_divisions 26000000); lia. Defined.

(** [b41_mvcd_clock_round] returns the nearest integer of every binary64
    value below [2^62] in magnitude, with exact halves rounded upwards, and
    reports [B41_MVCD_CLOCK_RANGE] without storing for every other value; no
    intermediate rounding of the computed midpoint affects the result. *)
Theorem clock_round_nearest value o : b64_valid value ->
  b41_mvcd_clock_round true value (Some o) =
  if isfinite value && (Z.abs (sval value) <? 2 ^ 62 * 2 ^ 1074)
  then (B41_MVCD_CLOCK_OK, Some (round_half_up value))
  else (B41_MVCD_CLOCK_RANGE, Some o).
Proof.
  intros Hval. destruct (isfinite value) eqn:Hfin.
  - assert (Habs : b64_valid (SFabs value) /\ isfinite (SFabs value) = true /\
      sval (SFabs value) = Z.abs (sval value)).
    { destruct value as [| | |s m e]; try discriminate; repeat split; try assumption.
      cbn [sval SFabs cond_Zopp]. rewrite Z.abs_mul, (Z.abs_eq (2 ^ _)) by (apply Z.pow_nonneg; lia).
      destruct s; reflexivity. }
    destruct Habs as (Hv & Hf & Hs).
    assert (Hle : SFleb (b64_of_Z (2 ^ 62)) (SFabs value) = (2 ^ 62 * 2 ^ 1074 <=? Z.abs (sval value))).
    { rewrite SFleb_sval, Hs by (assumption || reflexivity). reflexivity. }
    cbn [andb]. destruct (Z.ltb_spec (Z.abs (sval value)) (2 ^ 62 * 2 ^ 1074)).
    + apply clock_round_in_range; try assumption. rewrite Hle. apply Z.leb_gt. assumption.
    + unfold b41_mvcd_clock_round. rewrite Hfin, Hle.
      apply Z.leb_le in H. rewrite H. reflexivity.
  - unfold b41_mvcd_clock_round. now rewrite Hfin.
Qed.
Lemma clock_round_nearest_witness :
  b41_mvcd_clock_round true (binary64 0xc004000000000000) (Some 99)
  = (B41_MVCD_CLOCK_OK, Some (-2)).
Proof. exact (clock_round_nearest (binary64 0xc004000000000000) 99 eq_refl). Defined.
