(* ===== verification/Fields.v ===== *)
(** * Bootstrap field construction: [dsp-download/bootstrap_fields.c] *)

From S2P Require Import Prelude Binary754 Clock.

(** [enum b41_mvcd_fields_result] *)
Abbreviation B41_MVCD_FIELDS_OK := 0 (only parsing).
Abbreviation B41_MVCD_FIELDS_ARGUMENT := (-10) (only parsing).
Abbreviation B41_MVCD_FIELDS_MISSING := (-11) (only parsing).
Abbreviation B41_MVCD_FIELDS_FORMAT := (-12) (only parsing).

Record private_clock_t : Type := PrivateClock {
  frequency_1670 : list Z;
  adjustment_1668 : list Z
}.

Record bootstrap_inputs : Type := BootstrapInputs {
  context_mode_13 : Z;
  context_hz_18 : Z;
  context_baud_1c : Z;
  context_profile_24 : Z;
  context_chip_30 : Z;
  context_lna_54 : Z;
  clock_selector_717cb3 : Z;
  profile_selector_717cb6 : Z;
  setting_717cb7 : Z;
  feature_flags_717cb8 : Z;
  word_7178b0 : Z;
  feature_name : ptr (list Z);
  feature_name_size : Z;
  secondary_fd_6edeec : Z;
  private_clock : ptr private_clock_t
}.

Record bootstrap_fields : Type := BootstrapFields {
  baud_and_parameters : list Z;
  synthesis_and_profile : list Z;
  board_tail : list Z;
  effective_hz : Z;
  clock_mode : Z;
  effective_setting_717cb7 : Z
}.

Definition read32 (p : list Z) (i : Z) : Z := le32 p i.
Definition write16 (word : Z) : list Z := [u8 word; u8 (Z.shiftr word 8)].

(** [Some word] for return value 1, [None] for 0. *)
Definition private_word (record : list Z) : option Z :=
  let a := Z.lxor (byte_at record 4) 0xd9 in
  let state := u32 (a * 0xce6d + 0xaf55dbdc) in
  let b := Z.lxor (byte_at record 5) (Z.land (Z.shiftr state 8) 0xff) in
  let state := u32 (Z.land (u32 (state + b)) 0xffff * 0xce6d + 0x58bf) in
  let c := Z.lxor (byte_at record 6) (Z.land (Z.shiftr state 8) 0xff) in
  let state := u32 (u32 (state + c) * 0xce6d + 0x58bf) in
  let d := Z.lxor (byte_at record 7) (Z.land (Z.shiftr state 8) 0xff) in
  if negb (read32 record 0 =? u32 (a + b + c + d)) then None
  else Some (read32 record 4).

(** The saturating adjustment by [+/-909.9999999999999] in binary64. *)
Definition adjust_frequency (hz adjustment : Z) : Z :=
  let delta := if adjustment =? 1 then binary64 0x408c6fffffffffff
               else binary64 0xc08c6fffffffffff in
  let adjusted := b64_add (b64_of_Z hz) delta in
  if SFleb adjusted (S754_zero false) then 0
  else if SFleb (b64_of_Z UINT32_MAX) adjusted then UINT32_MAX
  else truncZ adjusted.

Definition effective_frequency (inp : bootstrap_inputs) : Z :=
  if negb (context_mode_13 inp =? 0xfe) then context_hz_18 inp
  else
    let pc := pointee (private_clock inp) in
    let hz :=
      match private_word (frequency_1670 pc) with
      | Some hz => hz
      | None =>
        let hz := if negb (context_hz_18 inp =? 0) then context_hz_18 inp else 26000000 in
        match private_word (adjustment_1668 pc) with
        | Some adjustment =>
          let adjustment := adjustment mod 3 in
          if (adjustment =? 1) || (adjustment =? 2) then adjust_frequency hz adjustment else hz
        | None => hz
        end
      end in
    if hz =? UINT32_MAX then context_hz_18 inp else hz.

Definition baud_code (baud : Z) : Z :=
  if baud =? 4800 then 9
  else if baud =? 9600 then 8
  else if baud =? 14400 then 7
  else if baud =? 19200 then 6
  else if baud =? 38400 then 5
  else if baud =? 57600 then 4
  else if baud =? 230400 then 3
  else if baud =? 460800 then 2
  else if baud =? 921600 then 1
  else 0.

(** The [while] loop of [feature_predicate]: status and final [length]. *)
Fixpoint feature_scan (fuel : nat) (name : list Z) (size length : Z) : Z * Z :=
  match fuel with
  | O => (0, length)
  | S fuel =>
    if length =? size then (B41_MVCD_FIELDS_MISSING, length)
    else if byte_at name length =? 0 then (0, length)
    else feature_scan fuel name size (length + 1)
  end.

(** Status and [*predicate]. *)
Definition feature_predicate (inp : bootstrap_inputs) : Z * Z :=
  if null (feature_name inp) then (B41_MVCD_FIELDS_MISSING, 0)
  else
    match feature_scan 0x296 (pointee (feature_name inp)) (feature_name_size inp) 0 with
    | (0, length) =>
      if length =? 0x296 then (B41_MVCD_FIELDS_FORMAT, 0)
      else (0, if (4 <? length) && negb (secondary_fd_6edeec inp =? -1) then 1 else 0)
    | (status, _) => (status, 0)
    end.

Definition field_clock_mode (inp : bootstrap_inputs) : Z :=
  let mode := if clock_selector_717cb3 inp <=? 2 then clock_selector_717cb3 inp else 0 in
  let profile := profile_selector_717cb6 inp in
  if (profile =? 1) || ((2 <=? profile) && (context_profile_24 inp =? 1))
  then u8 (Z.lor mode 4) else mode.

(** The chips whose profile byte 28 is forced to 5. *)
Definition chip_forces_5 (chip : Z) : bool :=
  let shifted := u32 (chip + 0x9a90) in
  ((shifted <=? 0x22) && negb (Z.land (Z.shiftr 0x400050007 shifted) 1 =? 0))
  || (chip =? 0xfffe6735).

Definition profile_byte_28 (inp : bootstrap_inputs) (predicate : Z) : Z :=
  let profile := profile_selector_717cb6 inp in
  let b := if 5 <=? profile then 7 else Z.land (setting_717cb7 inp) 0x0f in
  let b := if (b =? 5) && negb (predicate =? 0) then 7 else b in
  if chip_forces_5 (context_chip_30 inp) then 5 else b.

Definition build_board_tail (inp : bootstrap_inputs) (predicate : Z) : list Z :=
  let chip := context_chip_30 inp in
  let profile := profile_selector_717cb6 inp in
  let '(b4, b5) :=
    if chip =? 0xffff6771 then
      (u8 (context_lna_54 inp), if profile <? 4 then 8 else 10)
    else if (chip =? 0xffff6632) || (profile <? 4) then (0x48, 0x49)
    else (u8 (context_lna_54 inp), 10) in
  let b6 := if (profile =? 4) && ((chip =? 0xffff6725) || (chip =? 0xffff6761)) then 1 else 0 in
  let b8 := if negb (predicate =? 0) then 3 else 1 in
  let b8 := if negb (Z.land (feature_flags_717cb8 inp) 0x40 =? 0) && (chip =? 0xffff6789)
            then u8 (Z.lor b8 4) else b8 in
  write16 (word_7178b0 inp) ++ write16 chip ++ [b4; b5; b6; 0; b8; 0; 0x4e; 0x4f].

Definition b41_mvcd_bootstrap_fields_build (to_nearest : bool) (inp : ptr bootstrap_inputs)
    (out : ptr bootstrap_fields) : Z * bootstrap_fields :=
  if null inp || null out then (B41_MVCD_FIELDS_ARGUMENT, pointee out)
  else
  let i := pointee inp in
  if (context_mode_13 i =? 0xfe) && null (private_clock i)
  then (B41_MVCD_FIELDS_MISSING, pointee out)
  else
  match feature_predicate i with
  | (0, predicate) =>
    let mode := field_clock_mode i in
    let hz := effective_frequency i in
    match b41_mvcd_clock_synthesize to_nearest hz mode (Some (ClockFields 0 0 [])) with
    | (0, Some clock) =>
      (B41_MVCD_FIELDS_OK,
       {| baud_and_parameters :=
            [0; baud_code (context_baud_1c i)] ++ write16 (parameter_a clock)
              ++ write16 (parameter_b clock);
          synthesis_and_profile :=
            synthesis clock ++
            [profile_byte_28 i predicate; 0; if context_mode_13 i =? 0xfe then 1 else 0; 0];
          board_tail := build_board_tail i predicate;
          effective_hz := hz;
          clock_mode := mode;
          effective_setting_717cb7 :=
            if 5 <=? profile_selector_717cb6 i then 0x27 else setting_717cb7 i |})
    | (status, _) => (status, pointee out)
    end
  | (status, _) => (status, pointee out)
  end.

(** Returns the status and the payload afterwards. *)
Definition b41_mvcd_bootstrap_fields_apply (to_nearest : bool) (inp : ptr bootstrap_inputs)
    (payload : ptr (list Z)) (payload_size : Z) : Z * list Z :=
  let p := pointee payload in
  if null payload || negb (payload_size =? 106) then (B41_MVCD_FIELDS_ARGUMENT, p)
  else
  match b41_mvcd_bootstrap_fields_build to_nearest inp
          (Ptr 1 (BootstrapFields [] [] [] 0 0 0)) with
  | (0, fields) =>
    let p := write_at p 4 (baud_and_parameters fields) in
    let p := write_at p 30 (synthesis_and_profile fields) in
    let p := write_at p 94 (board_tail fields) in
    (0, p)
  | (status, _) => (status, p)
  end.

(** ** The vectors of [test_bootstrap_fields.c] *)

(** A stored record whose checksum word matches its payload word: the first
    word is the decoded byte sum of the second. *)
Definition private_record (word : Z) : list Z :=
  let raw := put32 word in
  let a := Z.lxor (byte_at raw 0) 0xd9 in
  let s1 := u32 (a * 0xce6d + 0xaf55dbdc) in
  let b := Z.lxor (byte_at raw 1) (Z.land (Z.shiftr s1 8) 0xff) in
  let s2 := u32 (Z.land (u32 (s1 + b)) 0xffff * 0xce6d + 0x58bf) in
  let c := Z.lxor (byte_at raw 2) (Z.land (Z.shiftr s2 8) 0xff) in
  let s3 := u32 (u32 (s2 + c) * 0xce6d + 0x58bf) in
  let d := Z.lxor (byte_at raw 3) (Z.land (Z.shiftr s3 8) 0xff) in
  put32 (u32 (a + b + c + d)) ++ raw.

Definition inputs_fe (hz adjustment : Z) : bootstrap_inputs :=
  BootstrapInputs 0xfe hz 115200 0 0xffff6632 0 0 0 0 0 0 (Ptr 4096 [0]) 1 (-1)
    (Ptr 8192 (PrivateClock (zeros 8) (private_record adjustment))).

Example frequency_vectors :
  effective_frequency <$> [inputs_fe 26000000 0; inputs_fe 26000000 1; inputs_fe 26000000 2;
    inputs_fe 26000000 3; inputs_fe 26000000 4; inputs_fe 26000000 UINT32_MAX; inputs_fe 1 1;
    inputs_fe 1 2; inputs_fe 0 0; inputs_fe (UINT32_MAX - 1) 1]
  = [26000000; 26000910; 25999090; 26000000; 26000910; 26000000; 910; 0; 26000000; 4294967294].
Proof. vm_compute. reflexivity. Qed.

(** ** Properties *)

(** The chips of the bit mask, spelled out. *)
Definition forced_chips : list Z :=
  [0xffff6570; 0xffff6571; 0xffff6572; 0xffff6580; 0xffff6582; 0xffff6592; 0xfffe6735].

Lemma mask_bits : forall s, 0 <= s <= 34 ->
  Z.land (Z.shiftr 0x400050007 s) 1 <> 0 <-> In s [0; 1; 2; 16; 18; 34].
Proof.
  intros s Hs.
  assert (Hall : forallb (fun n => let s := Z.of_nat n in
    Bool.eqb (negb (Z.land (Z.shiftr 0x400050007 s) 1 =? 0)) (existsb (Z.eqb s) [0; 1; 2; 16; 18; 34]))
    (seq 0 35) = true) by (vm_compute; reflexivity).
  rewrite forallb_forall in Hall. specialize (Hall (Z.to_nat s)). cbv zeta in Hall.
  rewrite Z2Nat.id in Hall by lia. specialize (Hall ltac:(apply in_seq; lia)).
  apply eqb_prop in Hall. rewrite <- (Z.eqb_neq _ 0), <- negb_true_iff, Hall.
  rewrite existsb_exists. split.
  - intros (x & Hx & E%Z.eqb_eq). now subst.
  - intros H. exists s. split; [exact H|apply Z.eqb_refl].
Qed.

Lemma chip_forces_5_spec chip : is_u32 chip -> chip_forces_5 chip = true <-> In chip forced_chips.
Proof.
  intros Hc. unfold chip_forces_5, is_u32 in *.
  assert (Hs : u32 (chip + 0x9a90) = if chip <? 4294927728 then chip + 0x9a90 else chip - 4294927728).
  { unfold u32. destruct (Z.ltb_spec chip 4294927728); dlia. }
  set (s := u32 _) in *. rewrite orb_true_iff, andb_true_iff, Z.leb_le, negb_true_iff, !Z.eqb_neq, Z.eqb_eq.
  pose proof (mask_bits s) as Hm.
  unfold forced_chips. cbn [In] in *. clearbody s. destruct (Z.ltb_spec chip 4294927728); lia.
Qed.

Lemma fields_build_shape rm inp out st f :
  b41_mvcd_bootstrap_fields_build rm inp out = (st, f) ->
  (st = B41_MVCD_FIELDS_OK -> len (baud_and_parameters f) = 6 /\ len (synthesis_and_profile f) = 32 /\
     len (board_tail f) = 12) /\
  (st <> B41_MVCD_FIELDS_OK -> f = pointee out).
Proof.
  unfold b41_mvcd_bootstrap_fields_build. intros H.
  destruct (null inp || null out); [injection H as <- <-; easy|]. cbv zeta in H.
  destruct (_ && null _); [injection H as <- <-; easy|].
  destruct (feature_predicate (pointee inp)) as [[|p|p] pr]; [|injection H as <- <-; easy..].
  destruct (b41_mvcd_clock_synthesize _ _ _ _) as [s [c|]] eqn:Ec;
    [|apply clock_synthesize_stores in Ec as [? ?]; discriminate].
  destruct s; injection H as <- <-; [|easy..].
  apply clock_synthesize_shape in Ec as [Hs _]. split; [|easy]. intros _.
  cbn [baud_and_parameters synthesis_and_profile board_tail]. rewrite len_app, Hs.
  unfold build_board_tail. guards_goal; repeat split.
Qed.

(** Three stores at fixed, disjoint places of a 106-byte buffer. *)
Lemma store_fields p a b c : len p = 106 -> len a = 6 -> len b = 32 -> len c = 12 ->
  write_at (write_at (write_at p 4 a) 30 b) 94 c
  = slice p 0 4 ++ a ++ slice p 10 20 ++ b ++ slice p 62 32 ++ c.
Proof.
  intros Hp Ha Hb Hc.
  assert (Hs : p = slice p 0 4 ++ slice p 4 6 ++ slice p 10 20 ++ slice p 30 32 ++ slice p 62 32 ++ slice p 94 12).
  { rewrite <- (slice_all p) at 1. rewrite Hp.
    change 106 with (4 + (6 + (20 + (32 + (32 + 12))))).
    rewrite !slice_split by lia. reflexivity. }
  assert (L : forall i n, 0 <= i -> 0 <= n -> i + n <= 106 -> length (slice p i n) = Z.to_nat n).
  { intros i n ? ? ?. pose proof (len_slice p i n). unfold len in *. lia. }
  assert (La : length a = 6%nat) by (unfold len in Ha; lia).
  assert (Lb : length b = 32%nat) by (unfold len in Hb; lia).
  assert (Lc : length c = 12%nat) by (unfold len in Hc; lia).
  rewrite Hs at 1. rewrite write_at_app by (rewrite len_slice; lia).
  rewrite La, drop_app_length' by (rewrite L by lia; reflexivity).
  rewrite <- (app_assoc (slice p 0 4) a), (app_assoc a), (app_assoc (slice p 0 4)).
  rewrite write_at_app by (rewrite !len_app, !len_slice; lia).
  rewrite Lb, drop_app_length' by (rewrite L by lia; reflexivity).
  rewrite <- app_assoc, (app_assoc b), (app_assoc (slice p 0 4 ++ _)).
  rewrite write_at_app by (rewrite !len_app, !len_slice; lia).
  rewrite Lc, skipn_all2 by (rewrite L by lia; reflexivity).
  rewrite app_nil_r, <- !app_assoc. reflexivity.
Qed.

Lemma fields_apply_cases rm inp payload size st p' :
  len (pointee payload) = 106 ->
  b41_mvcd_bootstrap_fields_apply rm inp payload size = (st, p') ->
  (st = B41_MVCD_FIELDS_OK /\ exists f,
     b41_mvcd_bootstrap_fields_build rm inp (Ptr 1 (BootstrapFields [] [] [] 0 0 0))
       = (B41_MVCD_FIELDS_OK, f) /\
     len (baud_and_parameters f) = 6 /\ len (synthesis_and_profile f) = 32 /\ len (board_tail f) = 12 /\
     let p := pointee payload in
     p' = slice p 0 4 ++ baud_and_parameters f ++ slice p 10 20 ++
          synthesis_and_profile f ++ slice p 62 32 ++ board_tail f) \/
  (st <> B41_MVCD_FIELDS_OK /\ p' = pointee payload).
Proof.
  intros Hp H. unfold b41_mvcd_bootstrap_fields_apply in H.
  destruct (null payload || _); [injection H as <- <-; right; easy|].
  destruct (b41_mvcd_bootstrap_fields_build _ _ _) as [s f] eqn:Eb.
  destruct (fields_build_shape _ _ _ _ _ Eb) as [Hok _].
  destruct s; injection H as <- <-; [left|right; easy..].
  destruct (Hok eq_refl) as (Ha & Hb & Hc). split; [reflexivity|].
  exists f. repeat split; try assumption. cbv zeta. now apply store_fields.
Qed.

(** [b41_mvcd_bootstrap_fields_apply] stores exactly the fifty produced
    bytes: on success the payload is its old bytes 0..3, 10..29 and 62..93
    around the three field groups that [b41_mvcd_bootstrap_fields_build]
    produces for the same inputs; on every error it is untouched. *)
Theorem fields_apply_footprint rm inp payload size st p' :
  len (pointee payload) = 106 ->
  b41_mvcd_bootstrap_fields_apply rm inp payload size = (st, p') ->
  (st = B41_MVCD_FIELDS_OK /\ exists f,
     b41_mvcd_bootstrap_fields_build rm inp (Ptr 1 (BootstrapFields [] [] [] 0 0 0))
       = (B41_MVCD_FIELDS_OK, f) /\
     len (baud_and_parameters f) = 6 /\ len (synthesis_and_profile f) = 32 /\ len (board_tail f) = 12 /\
     let p := pointee payload in
     p' = slice p 0 4 ++ baud_and_parameters f ++ slice p 10 20 ++
          synthesis_and_profile f ++ slice p 62 32 ++ board_tail f) \/
  (st <> B41_MVCD_FIELDS_OK /\ p' = pointee payload).
Proof. exact (fields_apply_cases rm inp payload size st p'). Qed.
Lemma fields_apply_footprint_witness :
  exists f, b41_mvcd_bootstrap_fields_apply true (Ptr 64 (inputs_fe 26000000 1)) (Ptr 4096 (repeat 7 106)) 106
  = (B41_MVCD_FIELDS_OK, repeat 7 4 ++ baud_and_parameters f ++ repeat 7 20 ++
       synthesis_and_profile f ++ repeat 7 32 ++ board_tail f) /\ clock_mode f = 0 /\
    effective_hz f = 26000910.
Proof.
  destruct (b41_mvcd_bootstrap_fields_apply true (Ptr 64 (inputs_fe 26000000 1))
    (Ptr 4096 (repeat 7 106)) 106) as [st p'] eqn:E.
  destruct (fields_apply_footprint true (Ptr 64 (inputs_fe 26000000 1)) (Ptr 4096 (repeat 7 106)) 106 st p'
    eq_refl E) as [(-> & f & Hb & _ & _ & _ & ->)|(Hne & _)].
  - exists f. split; [reflexivity|]. vm_compute in Hb. injection Hb as <-. split; reflexivity.
  - exfalso. apply Hne. vm_compute in E. injection E. congruence.
Defined.

(** The bit mask [0x400050007] indexed by [chip + 0x9a90] (modulo [2^32])
    together with the extra comparison selects exactly seven chip numbers: for
    every 32-bit chip the profile byte of a produced field block is 5 when the
    chip is one of them, and otherwise comes from the selector and setting. *)
Theorem profile_byte_28_chips inp predicate : is_u32 (context_chip_30 inp) ->
  (In (context_chip_30 inp) forced_chips -> profile_byte_28 inp predicate = 5) /\
  (~ In (context_chip_30 inp) forced_chips ->
   profile_byte_28 inp predicate =
     if (5 <=? profile_selector_717cb6 inp) ||
        ((setting_717cb7 inp mod 16 =? 5) && negb (predicate =? 0))
     then 7 else setting_717cb7 inp mod 16).
Proof.
  intros Hc. unfold profile_byte_28. pose proof (chip_forces_5_spec _ Hc) as Hs.
  change (Z.land (setting_717cb7 inp) 0x0f) with (Z.land (setting_717cb7 inp) (Z.ones 4)).
  rewrite (land_ones_mod _ 4) by lia. change (2 ^ 4) with 16.
  destruct (chip_forces_5 _); (split; intros Hin; [try tauto|try tauto]).
  - apply Hs in Hin. discriminate.
  - destruct (5 <=? _); [reflexivity|]. now destruct ((_ =? 5) && _) eqn:?.
Qed.
Lemma profile_byte_28_chips_witness : profile_byte_28 (inputs_fe 26000000 0) 0 = 0.
Proof.
  apply (profile_byte_28_chips (inputs_fe 26000000 0) 0); [split; vm_compute; congruence|].
  cbn. unfold inputs_fe. cbn. lia.
Defined.
