(* ===== verification/Bootstrap.v ===== *)
(** * Bootstrap payload construction: [dsp-download/bootstrap.c]

    Route selection, validation of one ioctl query snapshot, and assembly of
    the 106-byte payload and its 116-byte frame. Pointers keep their
    addresses, because the source compares them (the query names the session
    it was taken from, and overlapping arguments are refused). *)

From S2P Require Import Prelude Binary754 Clock Fields Wire.

(** [enum b41_bootstrap_result] *)
Abbreviation B41_BOOTSTRAP_OK := 0 (only parsing).
Abbreviation B41_BOOTSTRAP_ARGUMENT := (-10020) (only parsing).
Abbreviation B41_BOOTSTRAP_MISSING := (-10021) (only parsing).
Abbreviation B41_BOOTSTRAP_EMBEDDED_IMAGE := (-10022) (only parsing).
Abbreviation B41_BOOTSTRAP_SESSION := (-10023) (only parsing).
Abbreviation B41_BOOTSTRAP_QUERY := (-10024) (only parsing).
Abbreviation B41_BOOTSTRAP_METADATA := (-10025) (only parsing).
Abbreviation B41_BOOTSTRAP_CAPACITY := (-10026) (only parsing).
Abbreviation B41_BOOTSTRAP_OVERLAP := (-10027) (only parsing).

Record bootstrap_selectors : Type := Selectors {
  secure_download_7178b8_33e : Z;
  dsp_selector_717cb0 : Z
}.
Record bootstrap_route : Type := Route { metadata_ioctl : Z; fragment_ioctl : Z }.
Record bootstrap_session : Type := Session {
  gps0_fd : Z;
  selectors : bootstrap_selectors;
  fields : ptr bootstrap_inputs
}.
Record boot_info : Type := BootInfo {
  code_size : Z;
  start_addr : Z;
  exec_addr : Z;
  cipher_key : Z;
  frag_num : Z
}.
(** [query_session] is the address of the session the snapshot was taken on. *)
Record bootstrap_query : Type := Query {
  query_session : Z;
  query_gps0_fd : Z;
  query_selectors : bootstrap_selectors;
  command : Z;
  status : Z;
  info : ptr boot_info;
  bytes_returned : Z
}.

(** Object sizes on LP64. *)
Definition sizeof_selectors : Z := 2.
Definition sizeof_route : Z := 2.
Definition sizeof_session : Z := 16.
Definition sizeof_query : Z := 40.
Definition sizeof_boot_info : Z := 20.
Definition sizeof_inputs : Z := 64.
Definition sizeof_private_clock : Z := 16.

(** [length] bytes from [bytes] become zero, one after the other. *)
Fixpoint forget_loop (bytes : list Z) (at_ : Z) (length : nat) : list Z :=
  match length with
  | O => bytes
  | S length => forget_loop (write_at bytes at_ [0]) (at_ + 1) length
  end.
Definition forget (bytes : list Z) (length : Z) : list Z :=
  forget_loop bytes 0 (Z.to_nat length).

Definition write16 (bytes : list Z) (i word : Z) : list Z :=
  write_at bytes i [u8 word; u8 (Z.shiftr word 8)].

Definition overlaps (first first_size second second_size : Z) : bool :=
  if (first =? 0) || (second =? 0) || (first_size =? 0) || (second_size =? 0) then false
  else if first <=? second then second - first <? first_size
  else first - second <? second_size.

(** The part of [b41_bootstrap_route_select] after its pointer checks. *)
Definition route_of (s : bootstrap_selectors) : Z * bootstrap_route :=
  if secure_download_7178b8_33e s =? 0 then (B41_BOOTSTRAP_EMBEDDED_IMAGE, Route 0 0)
  else
    let m := u8 (if u8 (dsp_selector_717cb0 s - 1) <? 0x3f then 24 else 23) in
    (B41_BOOTSTRAP_OK, Route m (u8 (m + 2))).

(** Status and [*out] afterwards. *)
Definition b41_bootstrap_route_select (sel : ptr bootstrap_selectors) (out : ptr bootstrap_route)
    : Z * bootstrap_route :=
  if null sel || null out then (B41_BOOTSTRAP_ARGUMENT, pointee out)
  else if overlaps (addr sel) sizeof_selectors (addr out) sizeof_route
  then (B41_BOOTSTRAP_OVERLAP, pointee out)
  else
    match route_of (pointee sel) with
    | (0, route) => (B41_BOOTSTRAP_OK, route)
    | (e, _) => (e, pointee out)
    end.

(** [validate] calls [b41_bootstrap_route_select] with a local [route], which
    is not null and overlaps no other object. *)
Definition validate (session : ptr bootstrap_session) (query : ptr bootstrap_query) : Z :=
  let s := pointee session in
  let q := pointee query in
  if null session || null query || null (fields s) then B41_BOOTSTRAP_MISSING
  else
  match route_of (selectors s) with
  | (0, route) =>
    if (gps0_fd s <? 0) || negb (query_session q =? addr session)
       || negb (query_gps0_fd q =? gps0_fd s)
       || negb (secure_download_7178b8_33e (query_selectors q)
                =? secure_download_7178b8_33e (selectors s))
       || negb (dsp_selector_717cb0 (query_selectors q) =? dsp_selector_717cb0 (selectors s))
    then B41_BOOTSTRAP_SESSION
    else if negb (command q =? metadata_ioctl route) then B41_BOOTSTRAP_QUERY
    else if status q <? 0 then status q
    else if negb (status q =? 0) then B41_BOOTSTRAP_QUERY
    else if null (info q) || negb (bytes_returned q =? sizeof_boot_info)
    then B41_BOOTSTRAP_MISSING
    else
      let i := pointee (info q) in
      if (code_size i =? 0) || (UINT16_MAX <? code_size i) || (UINT16_MAX <? start_addr i)
         || (UINT16_MAX <? exec_addr i) || (UINT16_MAX <? cipher_key i) || (frag_num i =? 0)
         || (256 <? u32 (frag_num i - 1))
      then B41_BOOTSTRAP_METADATA
      else B41_BOOTSTRAP_OK
  | (e, _) => e
  end.

Definition overlaps_inputs (output length : Z) (session : ptr bootstrap_session)
    (query : ptr bootstrap_query) : bool :=
  let f := fields (pointee session) in
  let name_size := if feature_name_size (pointee f) <? 0x296
                   then feature_name_size (pointee f) else 0x296 in
  overlaps output length (addr session) sizeof_session
  || overlaps output length (addr query) sizeof_query
  || overlaps output length (addr (info (pointee query))) sizeof_boot_info
  || overlaps output length (addr f) sizeof_inputs
  || overlaps output length (addr (feature_name (pointee f))) name_size
  || overlaps output length (addr (private_clock (pointee f))) sizeof_private_clock.

Definition windows : list (Z * Z) :=
  [(11999976, 49); (15999968, 65); (19199962, 77); (19999960, 81); (23999952, 97);
   (25999948, 105); (31999936, 129); (38399924, 153); (39999920, 161); (51999896, 209)].
Definition common : list Z :=
  [40; 255; 128; 71; 100; 80; 216; 80; 187; 3; 60; 111; 137; 136; 2; 251].

(** The 32 bytes stored at [bytes]. *)
Definition profile_block (context_hz : Z) : list Z :=
  if existsb (fun '(low, count) => u32 (context_hz - low) <? count) windows
  then common ≫= (fun w => [u8 w; u8 (Z.shiftr w 8)])
  else zeros 32.

(** Status and the private payload afterwards. *)
Definition assemble (to_nearest : bool) (session : ptr bootstrap_session)
    (query : ptr bootstrap_query) : Z * list Z :=
  let p := zeros B41_MVCD_BOOTSTRAP_SIZE in
  match b41_mvcd_bootstrap_fields_apply to_nearest (fields (pointee session)) (Ptr 1 p)
          B41_MVCD_BOOTSTRAP_SIZE with
  | (0, p) =>
    let i := pointee (info (pointee query)) in
    let p := write16 p 0 0x1a in
    let p := write16 p 14 (code_size i) in
    let p := write16 p 16 (start_addr i) in
    let p := write16 p 18 (exec_addr i) in
    let p := write16 p 20 (cipher_key i) in
    let p := write16 p 22 (frag_num i) in
    let p := write_at p 28 [5] in
    (B41_BOOTSTRAP_OK, write_at p 62 (profile_block (context_hz_18 (pointee (fields (pointee session))))))
  | (e, p) => (e, p)
  end.

(** Status, the caller's payload afterwards, and what the function leaves in
    its own stack buffer, which held [stack] when it was entered. *)
Definition b41_bootstrap_payload_build (to_nearest : bool) (stack : list Z)
    (session : ptr bootstrap_session) (query : ptr bootstrap_query)
    (payload : ptr (list Z)) (capacity : Z) : Z * list Z * list Z :=
  let keep e := (e, pointee payload, stack) in
  if null payload then keep B41_BOOTSTRAP_ARGUMENT
  else if capacity <? B41_MVCD_BOOTSTRAP_SIZE then keep B41_BOOTSTRAP_CAPACITY
  else
  match validate session query with
  | 0 =>
    if overlaps_inputs (addr payload) B41_MVCD_BOOTSTRAP_SIZE session query
    then keep B41_BOOTSTRAP_OVERLAP
    else
      let '(e, private) := assemble to_nearest session query in
      (e, if e =? 0 then write_at (pointee payload) 0 private else pointee payload,
       forget private B41_MVCD_BOOTSTRAP_SIZE)
  | e => keep e
  end.

(** Status, frame, [*written] and the stack buffer afterwards; [local] is the
    address of the stack buffer. *)
Definition b41_bootstrap_frame_build (to_nearest : bool) (local : Z) (stack : list Z)
    (session : ptr bootstrap_session) (query : ptr bootstrap_query)
    (frame : ptr (list Z)) (capacity : Z) (written : ptr Z) : Z * list Z * Z * list Z :=
  let keep e := (e, pointee frame, pointee written, stack) in
  if null frame || null written then keep B41_BOOTSTRAP_ARGUMENT
  else if capacity <? B41_MVCD_BOOTSTRAP_FRAME_SIZE then keep B41_BOOTSTRAP_CAPACITY
  else
  match validate session query with
  | 0 =>
    if overlaps (addr frame) B41_MVCD_BOOTSTRAP_FRAME_SIZE (addr written) sizeof_size_t
       || overlaps_inputs (addr frame) B41_MVCD_BOOTSTRAP_FRAME_SIZE session query
       || overlaps_inputs (addr written) sizeof_size_t session query
    then keep B41_BOOTSTRAP_OVERLAP
    else
      let '(e, private) := assemble to_nearest session query in
      let '(e, f, w) :=
        if e =? 0 then
          b41_mvcd_encode_bootstrap (Ptr local private) B41_MVCD_BOOTSTRAP_SIZE
            frame capacity written
        else (e, pointee frame, pointee written) in
      (e, f, w, forget private B41_MVCD_BOOTSTRAP_SIZE)
  | e => keep e
  end.

(** ** Reference descriptions *)

(** What a session and a query snapshot must satisfy to be used. *)
Record snapshot_ok (session : ptr bootstrap_session) (query : ptr bootstrap_query) : Prop := {
  so_present : null session = false /\ null query = false /\ null (fields (pointee session)) = false
    /\ null (info (pointee query)) = false;
  so_secure : secure_download_7178b8_33e (selectors (pointee session)) <> 0;
  so_fd : 0 <= gps0_fd (pointee session);
  so_bound : query_session (pointee query) = addr session /\
    query_gps0_fd (pointee query) = gps0_fd (pointee session) /\
    query_selectors (pointee query) = selectors (pointee session);
  so_command : command (pointee query) =
    if decide (1 <= dsp_selector_717cb0 (selectors (pointee session)) <= 63) then 24 else 23;
  so_result : status (pointee query) = 0 /\ bytes_returned (pointee query) = 20;
  so_info : let i := pointee (info (pointee query)) in
    0 < code_size i <= 65535 /\ start_addr i <= 65535 /\ exec_addr i <= 65535 /\
    cipher_key i <= 65535 /\ 1 <= frag_num i <= 257
}.

(** The nominal frequencies of the profile windows. *)
Definition nominal_frequencies : list Z :=
  [12000000; 16000000; 19200000; 20000000; 24000000; 26000000; 32000000; 38400000; 40000000; 52000000].

(** The complete payload, group by group. *)
Definition reference_payload (i : boot_info) (f : bootstrap_fields) (hz : Z) : list Z :=
  put16 26 ++ [0; 0] ++ baud_and_parameters f ++ [0; 0; 0; 0] ++
  put16 (code_size i) ++ put16 (start_addr i) ++ put16 (exec_addr i) ++
  put16 (cipher_key i) ++ put16 (frag_num i) ++ [0; 0; 0; 0; 5; 0] ++
  synthesis_and_profile f ++ profile_block hz ++ board_tail f.

(** ** Route and validation *)

Lemma route_of_ok s : is_u8 (dsp_selector_717cb0 s) ->
  route_of s = if secure_download_7178b8_33e s =? 0 then (B41_BOOTSTRAP_EMBEDDED_IMAGE, Route 0 0)
    else (B41_BOOTSTRAP_OK, if decide (1 <= dsp_selector_717cb0 s <= 63) then Route 24 26 else Route 23 25).
Proof.
  intros Hd. unfold route_of, is_u8 in *. destruct (_ =? 0); [reflexivity|].
  assert ((u8 (dsp_selector_717cb0 s - 1) <? 63) = bool_decide (1 <= dsp_selector_717cb0 s <= 63)) as ->.
  { apply eq_iff_eq_true. rewrite bool_decide_eq_true. unfold u8. dlia. }
  destruct (decide _) as [H|H]; [rewrite bool_decide_true|rewrite bool_decide_false]; done.
Qed.

Lemma validate_ok session query :
  is_u8 (dsp_selector_717cb0 (selectors (pointee session))) ->
  is_u32 (frag_num (pointee (info (pointee query)))) ->
  is_u32 (code_size (pointee (info (pointee query)))) ->
  validate session query = B41_BOOTSTRAP_OK <-> snapshot_ok session query.
Proof.
  intros Hd Hf Hcs. unfold validate. rewrite route_of_ok by exact Hd.
  set (s := pointee session) in *. set (q := pointee query) in *. set (i := pointee (info q)) in *.
  assert (Hu : u32 (frag_num i - 1) = if frag_num i =? 0 then UINT32_MAX else frag_num i - 1)
    by (unfold u32, is_u32 in *; destruct (Z.eqb_spec (frag_num i) 0); dlia).
  rewrite Hu. unfold is_u32, sizeof_boot_info in *. clear Hu. split.
  - intros H. guards H; try lia; constructor; fold s q i; try (repeat split; lia).
    + repeat split; try lia. destruct (query_selectors q), (selectors s). cbn in *. f_equal; lia.
    + destruct (decide _); cbn in *; lia.
    + cbv zeta. destruct (Z.eqb_spec (frag_num i) 0); lia.
  - intros [(H1 & H2 & H3 & H4) Hsec Hfd (Hqs & Hqf & Hsel) Hcmd (Hst & Hbr) Hi].
    cbv zeta in Hi. fold s in H3, Hsec, Hfd, Hqf, Hsel, Hcmd.
    fold q in H4, Hqs, Hqf, Hsel, Hcmd, Hst, Hbr, Hi. fold i in Hi.
    rewrite H1, H2, H3, H4, Hqs, Hqf, Hst, Hbr, Hsel, Hcmd, !Z.eqb_refl. cbn [orb negb].
    destruct (Z.eqb_spec (secure_download_7178b8_33e (selectors s)) 0); [easy|].
    destruct (Z.ltb_spec (gps0_fd s) 0); [lia|]. cbn [orb negb].
    replace (metadata_ioctl (if decide _ then _ else _)) with (if decide (1 <= dsp_selector_717cb0 (selectors s) <= 63) then 24 else 23)
      by now destruct (decide _).
    rewrite Z.eqb_refl. change (0 <? 0) with false. cbn [orb negb].
    destruct (Z.eqb_spec (frag_num i) 0); [lia|]. guards_goal; try reflexivity; exfalso; lia.
Qed.

Lemma validate_fragments session query :
  is_u32 (frag_num (pointee (info (pointee query)))) ->
  validate session query = B41_BOOTSTRAP_OK -> 1 <= frag_num (pointee (info (pointee query))) <= 257.
Proof.
  intros Hf H. unfold validate in H. destruct (route_of _) as [[|e|e] r]; guards H; try lia.
  set (i := pointee _) in *. unfold is_u32, u32 in *. dlia.
Qed.

(** ** Pieces of the assembly *)

Lemma forget_loop_spec n : forall pre rest, (n <= length rest)%nat ->
  forget_loop (pre ++ rest) (len pre) n = pre ++ repeat 0 n ++ skipn n rest.
Proof.
  induction n as [|n IH]; intros pre rest Hn; [reflexivity|].
  destruct rest as [|r rest]; [simpl in Hn; lia|]. cbn [forget_loop].
  rewrite write_at_app by reflexivity. change (skipn (length [0]) (r :: rest)) with rest.
  replace (len pre + 1) with (len (pre ++ [0])) by lens.
  rewrite IH by (simpl in Hn; lia). rewrite <- app_assoc. reflexivity.
Qed.
Lemma forget_all l n : len l = n -> forget l n = zeros n.
Proof.
  intros <-. unfold forget, zeros, len. rewrite Nat2Z.id.
  rewrite (forget_loop_spec _ [] l) by lia. cbn [app]. now rewrite skipn_all, app_nil_r.
Qed.

Lemma len_profile_block hz : len (profile_block hz) = 32.
Proof. unfold profile_block. now destruct (existsb _ _). Qed.

Ltac spell l := repeat (destruct l as [|? l]; [try discriminate|try discriminate]).

Section Assemble.
Context (rm : bool) (session : ptr bootstrap_session) (query : ptr bootstrap_query).
Let built := b41_mvcd_bootstrap_fields_build rm (fields (pointee session))
               (Ptr 1 (BootstrapFields [] [] [] 0 0 0)).
Let image f := reference_payload (pointee (info (pointee query))) f
                 (context_hz_18 (pointee (fields (pointee session)))).

(** Assembly yields the reference payload of the produced fields, or the
    producer's error and a buffer that is still all zero. *)
Lemma assemble_cases :
  (exists f, built = (0, f) /\ assemble rm session query = (B41_BOOTSTRAP_OK, image f)
             /\ len (image f) = 106) \/
  (exists e, e <> 0 /\ fst built = e /\ assemble rm session query = (e, zeros 106)).
Proof.
  unfold assemble.
  destruct (b41_mvcd_bootstrap_fields_apply _ _ _ _) as [st p] eqn:E. pose proof E as E'.
  apply fields_apply_cases in E as [(-> & f & Hb & H1 & H2 & H3 & ->)|(Hst & ->)]; [..|reflexivity].
  - left. exists f. split; [exact Hb|].
    subst image. cbv zeta. generalize (len_profile_block (context_hz_18 (pointee (fields (pointee session))))).
    unfold reference_payload. generalize (profile_block (context_hz_18 (pointee (fields (pointee session))))).
    intros w Hw. destruct f as [a b c ? ? ?]. cbn [baud_and_parameters synthesis_and_profile board_tail] in *.
    unfold len in H1, H2, H3, Hw. apply (Nat2Z.inj _ 6) in H1. apply (Nat2Z.inj _ 32) in H2, Hw.
    apply (Nat2Z.inj _ 12) in H3. clear E' Hb.
    spell a. spell b. spell c. spell w. split; reflexivity.
  - right. exists st. split; [exact Hst|].
    unfold b41_mvcd_bootstrap_fields_apply in E'. cbn [null addr] in E'.
    change (null (Ptr 1 (zeros 106)) || negb (106 =? 106)) with false in E'. cbv iota in E'.
    fold built in E'. destruct built as [[|e|e] f]; apply (f_equal fst) in E'; cbn [fst] in E'; subst st; easy.
Qed.
End Assemble.

Lemma overlaps_sym a n b m : 0 <= n -> 0 <= m -> overlaps a n b m = overlaps b m a n.
Proof. intros. unfold overlaps. guards_goal; lia. Qed.
(** With both objects present this is the test of the frame encoder. *)
Lemma overlaps_wire a n b m : a <> 0 -> b <> 0 -> 0 < n -> 0 < m ->
  Wire.overlaps a n b m = overlaps a n b m.
Proof. intros. unfold overlaps, Wire.overlaps. guards_goal; lia. Qed.

Lemma reference_payload_head i f hz :
  le16 (reference_payload i f hz) 0 = 26 /\ le16 (reference_payload i f hz) 2 = 0.
Proof. split; reflexivity. Qed.

(** ** Claims *)

(** A session and query snapshot pass [validate] exactly when every
    pointer is present, the download is the secure one, the query was taken
    on this very session object with the same descriptor and selectors, its
    command is ioctl 24 for selectors 1..63 and ioctl 23 otherwise, it
    succeeded with a complete 20-byte record, and the record's five words fit
    the 16-bit wire fields with 1 to 257 fragments. *)
Theorem validate_exact session query :
  is_u8 (dsp_selector_717cb0 (selectors (pointee session))) ->
  is_u32 (frag_num (pointee (info (pointee query)))) ->
  is_u32 (code_size (pointee (info (pointee query)))) ->
  validate session query = B41_BOOTSTRAP_OK <-> snapshot_ok session query.
Proof. exact (validate_ok session query). Qed.

Definition session_1 : ptr bootstrap_session :=
  Ptr 0x1000 (Session 5 (Selectors 1 63) (Ptr 0x2000 (inputs_fe 26000000 1))).
Definition query_1 : ptr bootstrap_query :=
  Ptr 0x3000 (Query 0x1000 5 (Selectors 1 63) 24 0 (Ptr 0x4000 (BootInfo 4096 0x100 0x200 0xbeef 3)) 20).
Lemma validate_exact_witness : validate session_1 query_1 = B41_BOOTSTRAP_OK.
Proof.
  apply (validate_exact session_1 query_1); [split; vm_compute; congruence..|].
  constructor; vm_compute; repeat split; congruence.
Defined.

(** The profile block of the payload carries the common table exactly
    when the context frequency lies within two parts per million of one of
    the ten nominal crystal frequencies (the unsigned subtraction in the
    source has no wrap-around false positives), and is zero otherwise. *)
Theorem profile_block_two_ppm hz : is_u32 hz ->
  profile_block hz =
  if existsb (fun nominal => 1000000 * Z.abs (hz - nominal) <=? 2 * nominal) nominal_frequencies
  then common ≫= put16 else zeros 32.
Proof.
  intros Hz. unfold profile_block.
  replace (existsb _ windows) with
    (existsb (fun nominal => 1000000 * Z.abs (hz - nominal) <=? 2 * nominal) nominal_frequencies);
    [reflexivity|].
  assert (Hw : forall low count, 0 <= low -> low + count < 4294967296 ->
    (u32 (hz - low) <? count) = (low <=? hz) && (hz <? low + count)).
  { intros low count ? ?. unfold u32, is_u32 in *. apply eq_iff_eq_true. dlia. }
  unfold windows, nominal_frequencies. cbn [existsb]. rewrite !Hw by lia.
  unfold is_u32 in Hz. clear Hw. repeat (f_equal; [lia|]). f_equal; lia.
Qed.
Lemma profile_block_two_ppm_witness : profile_block 26000052 = common ≫= put16.
Proof. exact (profile_block_two_ppm 26000052 ltac:(unfold is_u32; lia)). Defined.

(** The fields the producer makes for a session. *)
Definition built_fields (rm : bool) (session : ptr bootstrap_session) : Z * bootstrap_fields :=
  b41_mvcd_bootstrap_fields_build rm (fields (pointee session)) (Ptr 1 (BootstrapFields [] [] [] 0 0 0)).

(** The reference payload of a session, its query and its produced fields. *)
Definition session_image (rm : bool) (session : ptr bootstrap_session) (query : ptr bootstrap_query)
    : list Z :=
  reference_payload (pointee (info (pointee query))) (snd (built_fields rm session))
    (context_hz_18 (pointee (fields (pointee session)))).

(** [b41_bootstrap_payload_build] succeeds exactly when the destination is
    present, large enough and disjoint from every input, the snapshot is
    valid and the fields can be produced; the destination then starts with
    the reference payload, little-endian metadata words at 14..23 included.
    In every other case it is untouched, and in both cases the function's own
    buffer is left either as it was found or all zero: the session key
    survives only in the caller's payload. *)
Theorem payload_build_exact rm stack session query payload capacity st p' stack' :
  106 <= len (pointee payload) ->
  b41_bootstrap_payload_build rm stack session query payload capacity = (st, p', stack') ->
  (st = B41_BOOTSTRAP_OK <->
     null payload = false /\ 106 <= capacity /\ validate session query = B41_BOOTSTRAP_OK /\
     overlaps_inputs (addr payload) 106 session query = false /\ fst (built_fields rm session) = 0) /\
  (st = B41_BOOTSTRAP_OK ->
     p' = session_image rm session query ++ skipn 106 (pointee payload) /\
     len (session_image rm session query) = 106) /\
  (st <> B41_BOOTSTRAP_OK -> p' = pointee payload) /\
  (stack' = stack \/ stack' = zeros 106).
Proof.
  intros Hl H. unfold b41_bootstrap_payload_build in H.
  destruct (null payload); [injection H as <- <- <-; repeat split; try easy; auto|].
  destruct (Z.ltb_spec capacity 106); [injection H as <- <- <-; repeat split; try easy; try lia; auto|].
  destruct (validate session query) eqn:Ev;
    [|injection H as <- <- <-; repeat split; try easy; auto..].
  destruct (overlaps_inputs _ _ _ _); [injection H as <- <- <-; repeat split; try easy; auto|].
  unfold session_image.
  destruct (assemble_cases rm session query) as [(f & Hb & Ea & Hi)|(e & He & Hb & Ea)];
    fold (built_fields rm session) in Hb; rewrite Ea in H.
  - rewrite forget_all in H by exact Hi. injection H as <- <- <-. rewrite Hb. cbn [fst snd].
    repeat split; try easy; auto. rewrite (write_at_app [] (pointee payload)) by reflexivity.
    unfold len in Hi. apply (Nat2Z.inj _ 106) in Hi. now rewrite Hi.
  - rewrite forget_all in H by reflexivity. destruct (Z.eqb_spec e 0); [easy|].
    injection H as <- <- <-. repeat split; try easy; auto. intros (? & ? & ? & ? & ?). lia.
Qed.
Lemma payload_build_exact_witness :
  exists p', b41_bootstrap_payload_build true (repeat 9 106) session_1 query_1 (Ptr 0x5000 (zeros 110)) 110
    = (B41_BOOTSTRAP_OK, p', zeros 106) /\ slice p' 14 10 = [0; 16; 0; 1; 0; 2; 0xef; 0xbe; 3; 0].
Proof.
  destruct (b41_bootstrap_payload_build true (repeat 9 106) session_1 query_1 (Ptr 0x5000 (zeros 110)) 110)
    as [[st p'] stack'] eqn:E.
  pose proof (payload_build_exact true (repeat 9 106) session_1 query_1 (Ptr 0x5000 (zeros 110)) 110 st p' stack'
    ltac:(vm_compute; congruence) E) as (Hst & Hok & _ & _).
  assert (Hs : st = 0) by (apply Hst; repeat split; vm_compute; congruence).
  exists p'. rewrite Hs. split; [|destruct (Hok Hs) as [-> _]; vm_compute; reflexivity].
  clear Hst Hok. vm_compute in E. injection E as _ <- <-. reflexivity.
Defined.

Lemma frame_build_cases rm local stack session query frame capacity written st f' w' stack' :
  local <> 0 ->
  overlaps local 106 (addr frame) 116 = false -> overlaps (addr written) 8 local 106 = false ->
  b41_bootstrap_frame_build rm local stack session query frame capacity written = (st, f', w', stack') ->
  (st = B41_BOOTSTRAP_OK <->
     null frame = false /\ null written = false /\ 116 <= capacity /\
     validate session query = B41_BOOTSTRAP_OK /\
     overlaps (addr frame) 116 (addr written) 8 = false /\
     overlaps_inputs (addr frame) 116 session query = false /\
     overlaps_inputs (addr written) 8 session query = false /\ fst (built_fields rm session) = 0) /\
  (st = B41_BOOTSTRAP_OK ->
     f' = mvcd_frame 8 0 (session_image rm session query) ++ skipn 116 (pointee frame) /\ w' = 116) /\
  (st <> B41_BOOTSTRAP_OK -> f' = pointee frame /\ w' = pointee written) /\
  (stack' = stack \/ stack' = zeros 106).
Proof.
  intros Hloc Ho1 Ho2 H. unfold b41_bootstrap_frame_build, sizeof_size_t in H.
  destruct (null frame) eqn:Hf; [injection H as <- <- <- <-; repeat split; try easy; auto|].
  destruct (null written) eqn:Hw; [injection H as <- <- <- <-; repeat split; try easy; auto|]. cbn [orb] in H.
  destruct (Z.ltb_spec capacity 116); [injection H as <- <- <- <-; repeat split; try easy; try lia; auto|].
  destruct (validate session query) eqn:Ev;
    [|injection H as <- <- <- <-; repeat split; try easy; auto..].
  destruct (overlaps (addr frame) _ _ _) eqn:Ho3; [injection H as <- <- <- <-; repeat split; try easy; auto|].
  destruct (overlaps_inputs _ 116 _ _); [injection H as <- <- <- <-; repeat split; try easy; auto|].
  destruct (overlaps_inputs _ _ _ _); [injection H as <- <- <- <-; repeat split; try easy; auto|].
  cbn [orb] in H. unfold session_image, null in *.
  destruct (assemble_cases rm session query) as [(f & Hb & Ea & Hi)|(e & He & Hb & Ea)];
    fold (built_fields rm session) in Hb; rewrite Ea in H.
  - change (0 =? 0) with true in H. cbv iota in H.
    destruct (reference_payload_head (pointee (info (pointee query))) f
      (context_hz_18 (pointee (fields (pointee session))))) as [Hh1 Hh2].
    rewrite overlaps_sym in Ho3 by lia.
    rewrite forget_all, encode_bootstrap_ok in H; unfold sizeof_size_t, null; cbn [addr pointee]; try assumption; try lia;
      [|rewrite overlaps_wire by lia; assumption..].
    injection H as <- <- <- <-. rewrite Hb. cbn [fst snd]. repeat split; try easy; auto.
  - rewrite forget_all in H by reflexivity. destruct (Z.eqb_spec e 0); [easy|].
    injection H as <- <- <- <-. repeat split; try easy; auto. intros (? & ? & ? & ? & ? & ? & ? & ?). lia.
Qed.

(** End to end, [b41_bootstrap_frame_build] either leaves the frame buffer
    and [*written] untouched and reports a nonzero status, or stores exactly
    the reference MVCD frame (command 8, length, checksum, trailer) of the
    session's reference payload and sets [*written] to 116. It succeeds
    whenever the arguments are disjoint, the snapshot is valid and the fields
    can be produced. The stack buffer never keeps the assembled payload. *)
Theorem frame_build_exact rm local stack session query frame capacity written st f' w' stack' :
  local <> 0 ->
  overlaps local 106 (addr frame) 116 = false -> overlaps (addr written) 8 local 106 = false ->
  b41_bootstrap_frame_build rm local stack session query frame capacity written = (st, f', w', stack') ->
  (st = B41_BOOTSTRAP_OK <->
     null frame = false /\ null written = false /\ 116 <= capacity /\
     validate session query = B41_BOOTSTRAP_OK /\
     overlaps (addr frame) 116 (addr written) 8 = false /\
     overlaps_inputs (addr frame) 116 session query = false /\
     overlaps_inputs (addr written) 8 session query = false /\ fst (built_fields rm session) = 0) /\
  (st = B41_BOOTSTRAP_OK ->
     f' = mvcd_frame 8 0 (session_image rm session query) ++ skipn 116 (pointee frame) /\ w' = 116) /\
  (st <> B41_BOOTSTRAP_OK -> f' = pointee frame /\ w' = pointee written) /\
  (stack' = stack \/ stack' = zeros 106).
Proof. exact (frame_build_cases rm local stack session query frame capacity written st f' w' stack'). Qed.
Lemma frame_build_exact_witness :
  exists f', b41_bootstrap_frame_build true 0x7000 (repeat 9 106) session_1 query_1
      (Ptr 0x5000 (zeros 116)) 116 (Ptr 0x6000 0) = (B41_BOOTSTRAP_OK, f', 116, zeros 106) /\
    f' = mvcd_frame 8 0 (session_image true session_1 query_1).
Proof.
  destruct (b41_bootstrap_frame_build true 0x7000 (repeat 9 106) session_1 query_1
      (Ptr 0x5000 (zeros 116)) 116 (Ptr 0x6000 0)) as [[[st f'] w'] stack'] eqn:E.
  pose proof (frame_build_exact true 0x7000 (repeat 9 106) session_1 query_1
      (Ptr 0x5000 (zeros 116)) 116 (Ptr 0x6000 0) st f' w' stack' ltac:(lia) eq_refl eq_refl E)
    as (Hst & Hok & _ & _).
  assert (Hs : st = 0) by (apply Hst; repeat split; vm_compute; congruence).
  exists f'. destruct (Hok Hs) as [Hf ->]. rewrite Hs, Hf. split; [|apply app_nil_r].
  rewrite <- Hf. clear Hst Hok Hf. vm_compute in E. injection E as _ <- <-. reflexivity.
Defined.
