(* ===== verification/Download.v ===== *)
(** * The DSP download owner: [dsp-download/download.c]

    One owner drives one download over one descriptor: it sends the
    bootstrap frame, waits for its acknowledgement, then alternates one
    fragment ioctl with one fragment acknowledgement. Every entry point of
    the source is a function of the owner's address and contents; [heap]
    gives the current contents of the caller's session object, which the
    owner only keeps by address. *)

From S2P Require Import Prelude Binary754 Clock Fields Wire Bootstrap.

Inductive download_stage : Type :=
| B41_DOWNLOAD_NEW
| B41_DOWNLOAD_BOOTSTRAP_TX
| B41_DOWNLOAD_BOOTSTRAP_RX
| B41_DOWNLOAD_FRAGMENT_IOCTL
| B41_DOWNLOAD_FRAGMENT_RX
| B41_DOWNLOAD_ACKS_COMPLETE
| B41_DOWNLOAD_FAILED.

Inductive download_action_kind : Type :=
| B41_DOWNLOAD_WRITE
| B41_DOWNLOAD_READ
| B41_DOWNLOAD_SUBMIT_FRAGMENT
| B41_DOWNLOAD_DONE.

#[export] Instance download_stage_eq_dec : EqDecision download_stage.
Proof. solve_decision. Defined.

(** [bytes] is what the pointer into the transmit buffer designates. *)
Record download_action : Type := Action {
  kind : download_action_kind;
  act_gps0_fd : Z;
  bytes : list Z;
  size : Z;
  act_command : Z;
  argument : Z;
  act_deadline_ns : Z
}.

(** [session] is an address, 0 for [NULL]. *)
Record download : Type := Download {
  stage : download_stage;
  failure_stage : download_stage;
  first_error : Z;
  session : Z;
  dl_gps0_fd : Z;
  dl_selectors : bootstrap_selectors;
  fragment_count : Z;
  fragment_sequence : Z;
  matched_fragments : Z;
  deadline_ns : Z;
  last_now_ns : Z;
  tx : list Z;
  tx_size : Z;
  tx_offset : Z;
  rx : list Z;
  rx_size : Z
}.

Definition sizeof_download : Z := 1232.
Definition sizeof_action : Z := 40.
Definition sizeof_rx : Z := 1024.
Definition offsetof_rx : Z := 200.

(** What the compiler and the floating-point environment supply: the rounding
    mode and the addresses of the automatic objects. *)
Record environment : Type := Environment {
  to_nearest : bool;
  frame_at : Z;
  size_at : Z;
  private_at : Z;
  ack_at : Z
}.

Definition erase (storage : list Z) (size : Z) : list Z := forget storage size.

Definition overlaps (a a_size b b_size : Z) : bool :=
  if a <=? b then b - a <? a_size else a - b <? b_size.

Definition is_stage (s s' : download_stage) : bool := bool_decide (s = s').

(** Field updates, named after the assignments they stand for. *)
Definition set_stage (o : download) (s : download_stage) : download :=
  Download s (failure_stage o) (first_error o) (session o) (dl_gps0_fd o) (dl_selectors o)
    (fragment_count o) (fragment_sequence o) (matched_fragments o) (deadline_ns o) (last_now_ns o)
    (tx o) (tx_size o) (tx_offset o) (rx o) (rx_size o).
Definition set_session (o : download) (s : Z) : download :=
  Download (stage o) (failure_stage o) (first_error o) s (dl_gps0_fd o) (dl_selectors o)
    (fragment_count o) (fragment_sequence o) (matched_fragments o) (deadline_ns o) (last_now_ns o)
    (tx o) (tx_size o) (tx_offset o) (rx o) (rx_size o).
Definition set_last_now (o : download) (now : Z) : download :=
  Download (stage o) (failure_stage o) (first_error o) (session o) (dl_gps0_fd o) (dl_selectors o)
    (fragment_count o) (fragment_sequence o) (matched_fragments o) (deadline_ns o) now
    (tx o) (tx_size o) (tx_offset o) (rx o) (rx_size o).
Definition set_tx (o : download) (b : list Z) (size offset : Z) : download :=
  Download (stage o) (failure_stage o) (first_error o) (session o) (dl_gps0_fd o) (dl_selectors o)
    (fragment_count o) (fragment_sequence o) (matched_fragments o) (deadline_ns o) (last_now_ns o)
    b size offset (rx o) (rx_size o).
Definition set_rx (o : download) (b : list Z) (size : Z) : download :=
  Download (stage o) (failure_stage o) (first_error o) (session o) (dl_gps0_fd o) (dl_selectors o)
    (fragment_count o) (fragment_sequence o) (matched_fragments o) (deadline_ns o) (last_now_ns o)
    (tx o) (tx_size o) (tx_offset o) b size.
Definition set_progress (o : download) (sequence matched : Z) : download :=
  Download (stage o) (failure_stage o) (first_error o) (session o) (dl_gps0_fd o) (dl_selectors o)
    (fragment_count o) sequence matched (deadline_ns o) (last_now_ns o)
    (tx o) (tx_size o) (tx_offset o) (rx o) (rx_size o).
Definition set_failure (o : download) (error : Z) (at_ : download_stage) : download :=
  Download (stage o) at_ error (session o) (dl_gps0_fd o) (dl_selectors o)
    (fragment_count o) (fragment_sequence o) (matched_fragments o) (deadline_ns o) (last_now_ns o)
    (tx o) (tx_size o) (tx_offset o) (rx o) (rx_size o).

(** Status and the owner afterwards. *)
Definition b41_download_abort (owner : ptr download) (error : Z) : Z * download :=
  let o := pointee owner in
  if null owner then (- EINVAL, o)
  else if is_stage (stage o) B41_DOWNLOAD_FAILED then (first_error o, o)
  else if is_stage (stage o) B41_DOWNLOAD_ACKS_COMPLETE then (- EALREADY, o)
  else
    let o' := set_failure o (if error <? 0 then error else - EPROTO) (stage o) in
    let o' := set_stage o' B41_DOWNLOAD_FAILED in
    let o' := set_tx o' (erase (tx o') B41_MVCD_BOOTSTRAP_FRAME_SIZE) 0 0 in
    let o' := set_rx o' (erase (rx o') sizeof_rx) 0 in
    (first_error o', o').

Definition check (heap : Z -> bootstrap_session) (owner : ptr download) (now_ns : Z) : Z * download :=
  let o := pointee owner in
  if null owner then (- EINVAL, o)
  else match stage o with
  | B41_DOWNLOAD_FAILED => (first_error o, o)
  | B41_DOWNLOAD_ACKS_COMPLETE => (0, o)
  | B41_DOWNLOAD_NEW => (- EINVAL, o)
  | _ =>
    let s := heap (session o) in
    if (session o =? 0) || negb (gps0_fd s =? dl_gps0_fd o)
       || negb (secure_download_7178b8_33e (selectors s) =? secure_download_7178b8_33e (dl_selectors o))
       || negb (dsp_selector_717cb0 (selectors s) =? dsp_selector_717cb0 (dl_selectors o))
    then b41_download_abort owner (- ESTALE)
    else if now_ns <? last_now_ns o then b41_download_abort owner (- EINVAL)
    else
      let o := set_last_now o now_ns in
      if deadline_ns o <=? now_ns then b41_download_abort (Ptr (addr owner) o) (- ETIMEDOUT)
      else (0, o)
  end.

(** The aliases of the retained owner that [b41_download_begin] refuses. *)
Definition begin_aliases (owner : Z) (ses : ptr bootstrap_session) (query : ptr bootstrap_query) : bool :=
  let f := fields (pointee ses) in
  overlaps owner sizeof_download (addr ses) sizeof_session
  || overlaps owner sizeof_download (addr query) sizeof_query
  || overlaps owner sizeof_download (addr (info (pointee query))) sizeof_boot_info
  || overlaps owner sizeof_download (addr f) sizeof_inputs
  || (negb (null (feature_name (pointee f)))
      && overlaps owner sizeof_download (addr (feature_name (pointee f)))
           (if feature_name_size (pointee f) <? 0x296 then feature_name_size (pointee f) else 0x296))
  || (negb (null (private_clock (pointee f)))
      && overlaps owner sizeof_download (addr (private_clock (pointee f))) sizeof_private_clock).

Definition b41_download_begin (env : environment) (owner : ptr download) (ses : ptr bootstrap_session)
    (query : ptr bootstrap_query) (now_ns deadline : Z) : Z * download :=
  let o := pointee owner in
  if null owner then (- EINVAL, o)
  else if negb (is_stage (stage o) B41_DOWNLOAD_NEW) then
    (if is_stage (stage o) B41_DOWNLOAD_FAILED then first_error o else - EALREADY, o)
  else if null ses || null query || null (fields (pointee ses)) || null (info (pointee query))
  then b41_download_abort owner (- EINVAL)
  else if begin_aliases (addr owner) ses query then (- EINVAL, o)
  else if deadline <=? now_ns then b41_download_abort owner (- ETIMEDOUT)
  else
  match b41_bootstrap_frame_build (to_nearest env) (private_at env) (zeros 106) ses query
          (Ptr (frame_at env) (zeros 116)) 116 (Ptr (size_at env) 0) with
  | (0, frame, size, _) =>
    (0, Download B41_DOWNLOAD_BOOTSTRAP_TX (failure_stage o) (first_error o) (addr ses)
          (gps0_fd (pointee ses)) (selectors (pointee ses)) (frag_num (pointee (info (pointee query))))
          1 (matched_fragments o) deadline now_ns
          (write_at (tx o) 0 (slice frame 0 size)) size (tx_offset o) (rx o) (rx_size o))
  | (e, _, _, _) => b41_download_abort owner e
  end.

(** Status, the owner and [*action] afterwards. *)
Definition b41_download_next (heap : Z -> bootstrap_session) (owner : ptr download) (now_ns : Z)
    (action : ptr download_action) : Z * download * download_action :=
  match check heap owner now_ns with
  | (0, o) =>
    let fail e := let '(s, o) := b41_download_abort (Ptr (addr owner) o) e in (s, o, pointee action) in
    if null action || overlaps (addr owner) sizeof_download (addr action) sizeof_action
    then fail (- EINVAL)
    else
    let next k b n c a := (0, o, Action k (dl_gps0_fd o) b n c a (deadline_ns o)) in
    match stage o with
    | B41_DOWNLOAD_BOOTSTRAP_TX =>
        let n := u64 (tx_size o - tx_offset o) in
        next B41_DOWNLOAD_WRITE (slice (tx o) (tx_offset o) n) n 0 0
    | B41_DOWNLOAD_BOOTSTRAP_RX | B41_DOWNLOAD_FRAGMENT_RX => next B41_DOWNLOAD_READ [] 0 0 0
    | B41_DOWNLOAD_FRAGMENT_IOCTL =>
        match route_of (dl_selectors o) with
        | (0, route) =>
            next B41_DOWNLOAD_SUBMIT_FRAGMENT [] 0 (fragment_ioctl route) (u32 (fragment_sequence o - 1))
        | (e, _) => fail e
        end
    | B41_DOWNLOAD_ACKS_COMPLETE => next B41_DOWNLOAD_DONE [] 0 0 0
    | _ => fail (- EPROTO)
    end
  | (e, o) => (e, o, pointee action)
  end.

Definition b41_download_written (heap : Z -> bootstrap_session) (owner : ptr download)
    (now_ns result : Z) : Z * download :=
  match check heap owner now_ns with
  | (0, o) =>
    let fail e := b41_download_abort (Ptr (addr owner) o) e in
    if negb (is_stage (stage o) B41_DOWNLOAD_BOOTSTRAP_TX) then fail (- EPROTO)
    else if result =? - EAGAIN then (0, o)
    else if result <? 0 then fail result
    else if (result =? 0) || (u64 (tx_size o - tx_offset o) <? result) then fail (- EIO)
    else
      let o := set_tx o (tx o) (tx_size o) (tx_offset o + result) in
      if tx_offset o =? tx_size o then
        let o := set_tx o (erase (tx o) B41_MVCD_BOOTSTRAP_FRAME_SIZE) 0 0 in
        (0, set_stage o B41_DOWNLOAD_BOOTSTRAP_RX)
      else (0, o)
  | r => r
  end.

Definition b41_download_submitted (heap : Z -> bootstrap_session) (owner : ptr download)
    (now_ns result : Z) : Z * download :=
  match check heap owner now_ns with
  | (0, o) =>
    let fail e := b41_download_abort (Ptr (addr owner) o) e in
    if negb (is_stage (stage o) B41_DOWNLOAD_FRAGMENT_IOCTL) then fail (- EPROTO)
    else if negb (result =? 0) then fail result
    else (0, set_stage o B41_DOWNLOAD_FRAGMENT_RX)
  | r => r
  end.

Definition b41_download_received (env : environment) (heap : Z -> bootstrap_session)
    (owner : ptr download) (now_ns : Z) (data : ptr (list Z)) (n : Z) : Z * download :=
  match check heap owner now_ns with
  | (0, o) =>
    let fail o e := b41_download_abort (Ptr (addr owner) o) e in
    let boot := is_stage (stage o) B41_DOWNLOAD_BOOTSTRAP_RX in
    if negb boot && negb (is_stage (stage o) B41_DOWNLOAD_FRAGMENT_RX) then fail o (- EPROTO)
    else if null data || (n =? 0) || (u64 (sizeof_rx - rx_size o) <? n)
            || overlaps (addr owner) sizeof_download (addr data) n
    then fail o (- EMSGSIZE)
    else
    let o := set_rx o (write_at (rx o) (rx_size o) (slice (pointee data) 0 n)) (rx_size o + n) in
    if rx_size o <? 6 then (0, o)
    else if negb (byte_at (rx o) 0 =? 0xaa) || negb (byte_at (rx o) 1 =? 0xf0)
            || negb (byte_at (rx o) 5 =? 0xfe)
    then fail o (- EPROTO)
    else
    let frame_size := Z.lor (byte_at (rx o) 2) (Z.shiftl (Z.land (byte_at (rx o) 3) 15) 8) + 6 in
    if (frame_size <? 10) || (sizeof_rx <? frame_size) || (frame_size <? rx_size o)
    then fail o (- EPROTO)
    else if rx_size o <? frame_size then (0, o)
    else
    let ack_kind := if boot then B41_MVCD_BOOTSTRAP_ACK else B41_MVCD_FRAGMENT_ACK in
    let sequence := if boot then 0 else u16 (fragment_sequence o) in
    let '(status, _) := b41_mvcd_decode_ack (Ptr (addr owner + offsetof_rx) (rx o)) frame_size
                          ack_kind sequence (Ptr (ack_at env) (MvcdAck 0 0 0 0 0)) in
    let o := set_rx o (erase (rx o) sizeof_rx) 0 in
    if negb (status =? 0) then fail o status
    else if is_stage (stage o) B41_DOWNLOAD_FRAGMENT_RX then
      let o := set_progress o (u32 (fragment_sequence o + 1)) (u32 (matched_fragments o + 1)) in
      if matched_fragments o =? fragment_count o then
        (0, set_session (set_stage o B41_DOWNLOAD_ACKS_COMPLETE) 0)
      else (0, set_stage o B41_DOWNLOAD_FRAGMENT_IOCTL)
    else (0, set_stage o B41_DOWNLOAD_FRAGMENT_IOCTL)
  | r => r
  end.

(** ** Calls as events *)

Inductive download_event : Type :=
| EvBegin (ses : ptr bootstrap_session) (query : ptr bootstrap_query) (now deadline : Z)
| EvNext (now : Z) (action : ptr download_action)
| EvWritten (now result : Z)
| EvSubmitted (now result : Z)
| EvReceived (now : Z) (data : ptr (list Z)) (n : Z)
| EvAbort (error : Z).

(** One call, with the contents of memory at the time of the call. *)
Definition call (env : environment) (at_ : Z) (o : download)
    (e : (Z -> bootstrap_session) * download_event) : Z * download :=
  let '(heap, ev) := e in
  let owner := Ptr at_ o in
  match ev with
  | EvBegin ses query now deadline => b41_download_begin env owner ses query now deadline
  | EvNext now action => let '(s, o, _) := b41_download_next heap owner now action in (s, o)
  | EvWritten now result => b41_download_written heap owner now result
  | EvSubmitted now result => b41_download_submitted heap owner now result
  | EvReceived now data n => b41_download_received env heap owner now data n
  | EvAbort error => b41_download_abort owner error
  end.

(** What callers supply: buffers as long as announced, 32-bit metadata. *)
Definition event_ok (e : (Z -> bootstrap_session) * download_event) : Prop :=
  match e.2 with
  | EvBegin _ query _ _ => is_u32 (frag_num (pointee (info (pointee query))))
  | EvReceived _ data n => 0 <= n <= len (pointee data) /\ bytes_ok (pointee data)
  | _ => True
  end.

(** The zero-initialised owner. *)
Definition fresh : download :=
  Download B41_DOWNLOAD_NEW B41_DOWNLOAD_NEW 0 0 0 (Selectors 0 0) 0 0 0 0 0
    (zeros 116) 0 0 (zeros 1024) 0.

(** ** The owner's invariant *)

Definition tx_ok (o : download) : Prop :=
  match stage o with
  | B41_DOWNLOAD_BOOTSTRAP_TX => tx_size o = 116 /\ 0 <= tx_offset o < 116 /\ len (tx o) = 116
  | _ => tx o = zeros 116 /\ tx_size o = 0 /\ tx_offset o = 0
  end.
Definition rx_ok (o : download) : Prop :=
  match stage o with
  | B41_DOWNLOAD_BOOTSTRAP_RX | B41_DOWNLOAD_FRAGMENT_RX =>
      0 <= rx_size o <= 1024 /\ len (rx o) = 1024 /\ bytes_ok (rx o)
  | _ => rx o = zeros 1024 /\ rx_size o = 0
  end.
Definition progress_ok (o : download) : Prop :=
  match stage o with
  | B41_DOWNLOAD_NEW => matched_fragments o = 0
  | B41_DOWNLOAD_BOOTSTRAP_TX | B41_DOWNLOAD_BOOTSTRAP_RX =>
      fragment_sequence o = 1 /\ matched_fragments o = 0 /\ 1 <= fragment_count o <= 257
  | B41_DOWNLOAD_FRAGMENT_IOCTL | B41_DOWNLOAD_FRAGMENT_RX =>
      fragment_sequence o = matched_fragments o + 1 /\
      0 <= matched_fragments o < fragment_count o /\ fragment_count o <= 257
  | B41_DOWNLOAD_ACKS_COMPLETE =>
      matched_fragments o = fragment_count o /\ 1 <= fragment_count o <= 257 /\ session o = 0
  | B41_DOWNLOAD_FAILED =>
      first_error o < 0 /\ failure_stage o <> B41_DOWNLOAD_FAILED /\
      failure_stage o <> B41_DOWNLOAD_ACKS_COMPLETE
  end.
Definition download_wf (o : download) : Prop := tx_ok o /\ rx_ok o /\ progress_ok o.

Lemma len_tx o : download_wf o -> len (tx o) = 116.
Proof. intros (H & _). unfold tx_ok in H. destruct (stage o); destruct H as (H & ? & ?); try rewrite H; done. Qed.
Lemma rx_shape o : download_wf o -> len (rx o) = 1024 /\ bytes_ok (rx o) /\ 0 <= rx_size o <= 1024.
Proof.
  intros (_ & H & _). unfold rx_ok in H. destruct (stage o); destruct H as (H & H'); try tauto;
    rewrite H, H'; (split; [reflexivity|]; split; [apply bytes_ok_zeros|lia]).
Qed.

Lemma erase_all l n : len l = n -> erase l n = zeros n.
Proof. apply forget_all. Qed.

(** The owner's stages from which calls make progress. *)
Definition terminal (s : download_stage) : Prop :=
  s = B41_DOWNLOAD_FAILED \/ s = B41_DOWNLOAD_ACKS_COMPLETE.

(** ** The protocol the owner promises

    The phases of a download, and the steps a call may make: [pending] are
    the reply bytes buffered so far and [n] the number of fragments. *)

Inductive phase : Type :=
| PNew
| PSending (sent : Z)
| PAwaitBoot
| PSubmit (i : Z)
| PAwaitAck (i : Z)
| PDone (fragments : Z)
| PFailed (e : Z).

Definition phase_of (o : download) : phase :=
  match stage o with
  | B41_DOWNLOAD_NEW => PNew
  | B41_DOWNLOAD_BOOTSTRAP_TX => PSending (tx_offset o)
  | B41_DOWNLOAD_BOOTSTRAP_RX => PAwaitBoot
  | B41_DOWNLOAD_FRAGMENT_IOCTL => PSubmit (matched_fragments o)
  | B41_DOWNLOAD_FRAGMENT_RX => PAwaitAck (matched_fragments o)
  | B41_DOWNLOAD_ACKS_COMPLETE => PDone (matched_fragments o)
  | B41_DOWNLOAD_FAILED => PFailed (first_error o)
  end.

Definition live (p : phase) : Prop :=
  match p with PDone _ | PFailed _ => False | _ => True end.

(** The bytes complete one reference acknowledgement of the given kind whose
    payload starts with the sequence number. *)
Definition acknowledges (l : list Z) (ack_kind seq : Z) : Prop :=
  exists h p, 0 <= h < 16 /\ bytes_ok p /\ ack_minimum ack_kind <= len p <= 1014 /\
    l = mvcd_frame ack_kind h p /\ le16 p 0 = seq.

Inductive pstep (n : Z) (pending : list Z) (ev : download_event) : phase -> phase -> Prop :=
| ps_stutter p : pstep n pending ev p p
| ps_begin ses query now deadline :
    ev = EvBegin ses query now deadline -> pstep n pending ev PNew (PSending 0)
| ps_send now r i : ev = EvWritten now r -> 0 < r -> i + r < 116 ->
    pstep n pending ev (PSending i) (PSending (i + r))
| ps_sent now i : ev = EvWritten now (116 - i) -> pstep n pending ev (PSending i) PAwaitBoot
| ps_boot now data k : ev = EvReceived now data k ->
    acknowledges (pending ++ slice (pointee data) 0 k) B41_MVCD_BOOTSTRAP_ACK 0 ->
    pstep n pending ev PAwaitBoot (PSubmit 0)
| ps_submit now i : ev = EvSubmitted now 0 -> pstep n pending ev (PSubmit i) (PAwaitAck i)
| ps_ack now data k i : ev = EvReceived now data k ->
    acknowledges (pending ++ slice (pointee data) 0 k) B41_MVCD_FRAGMENT_ACK (i + 1) ->
    i + 1 < n -> pstep n pending ev (PAwaitAck i) (PSubmit (i + 1))
| ps_done now data k i : ev = EvReceived now data k ->
    acknowledges (pending ++ slice (pointee data) 0 k) B41_MVCD_FRAGMENT_ACK (i + 1) ->
    i + 1 = n -> pstep n pending ev (PAwaitAck i) (PDone n)
| ps_fail p e : live p -> e < 0 -> pstep n pending ev p (PFailed e).

(** The reply bytes buffered so far. *)
Definition pending (o : download) : list Z := slice (rx o) 0 (rx_size o).

(** [o'] is a legal successor of [o] for the event. *)
Definition legal (o : download) (ev : download_event) (o' : download) : Prop :=
  download_wf o' /\ pstep (fragment_count o) (pending o) ev (phase_of o) (phase_of o').

Section Owner.
Context (env : environment) (at_ : Z) (Hat : at_ <> 0).

Lemma at_null (o : download) : null (Ptr at_ o) = false.
Proof. unfold null. cbn. lia. Qed.

Lemma abort_terminal o e : terminal (stage o) -> (b41_download_abort (Ptr at_ o) e).2 = o.
Proof.
  intros [H|H]; unfold b41_download_abort; rewrite at_null; cbn [pointee]; rewrite H; reflexivity.
Qed.
Lemma abort_active o e : download_wf o -> ~ terminal (stage o) ->
  exists o', b41_download_abort (Ptr at_ o) e = (first_error o', o') /\ download_wf o' /\
    stage o' = B41_DOWNLOAD_FAILED /\ failure_stage o' = stage o /\
    first_error o' = (if e <? 0 then e else - EPROTO).
Proof.
  intros Hwf Hs. unfold b41_download_abort. rewrite at_null. cbn [pointee].
  unfold is_stage. rewrite !bool_decide_eq_false_2 by (intros E; apply Hs; rewrite E; unfold terminal; auto).
  eexists. split; [reflexivity|]. cbn. rewrite (erase_all (tx o)), (erase_all (rx o)) by (now apply len_tx || now apply rx_shape).
  split; [|auto]. split; [|split]; unfold tx_ok, rx_ok, progress_ok; cbn; auto.
  split; [destruct (Z.ltb_spec e 0); lia|]. split; intros E; apply Hs; rewrite E; unfold terminal; auto.
Qed.

Lemma abort_fails o e : download_wf o -> ~ terminal (stage o) ->
  exists o', b41_download_abort (Ptr at_ o) e = (first_error o', o') /\ download_wf o' /\
    stage o' = B41_DOWNLOAD_FAILED.
Proof. intros Hwf Hs. destruct (abort_active o e Hwf Hs) as (o' & ? & ? & ? & _). eauto. Qed.

Lemma abort_wf o e : download_wf o -> download_wf (b41_download_abort (Ptr at_ o) e).2.
Proof.
  intros Hwf. destruct (decide (stage o = B41_DOWNLOAD_FAILED)); [rewrite abort_terminal; unfold terminal; auto|].
  destruct (decide (stage o = B41_DOWNLOAD_ACKS_COMPLETE)); [rewrite abort_terminal; unfold terminal; auto|].
  destruct (abort_active o e Hwf) as (o' & -> & H & _); [unfold terminal; tauto|exact H].
Qed.

Lemma set_last_now_wf o now : download_wf o -> download_wf (set_last_now o now).
Proof. exact id. Qed.

(** The outcomes of [check]. *)
Lemma check_cases heap o now : download_wf o ->
  (stage o = B41_DOWNLOAD_FAILED /\ check heap (Ptr at_ o) now = (first_error o, o)) \/
  (stage o = B41_DOWNLOAD_ACKS_COMPLETE /\ check heap (Ptr at_ o) now = (0, o)) \/
  (stage o = B41_DOWNLOAD_NEW /\ check heap (Ptr at_ o) now = (- EINVAL, o)) \/
  (~ terminal (stage o) /\ stage o <> B41_DOWNLOAD_NEW /\
   (check heap (Ptr at_ o) now = (0, set_last_now o now) \/
    exists o', check heap (Ptr at_ o) now = (first_error o', o') /\ download_wf o' /\
      stage o' = B41_DOWNLOAD_FAILED)).
Proof.
  intros Hwf. unfold check. rewrite at_null. cbn [pointee addr].
  unfold terminal. destruct (stage o) eqn:E; auto; right; right; right; (repeat split; [intros [|]; congruence|congruence|]);
   guards_goal; auto; right; (apply abort_fails; [first [exact Hwf|exact (set_last_now_wf _ now Hwf)]|]);
   unfold terminal; cbn; rewrite E; intros [|]; congruence.
Qed.

Lemma failed_error o : download_wf o -> stage o = B41_DOWNLOAD_FAILED -> first_error o < 0.
Proof. intros (_ & _ & H) Hs. unfold progress_ok in H. rewrite Hs in H. tauto. Qed.

Lemma legal_same o ev : download_wf o -> legal o ev o.
Proof. split; [assumption|constructor]. Qed.
Lemma legal_failed o ev o' : ~ terminal (stage o) -> download_wf o' ->
  stage o' = B41_DOWNLOAD_FAILED -> legal o ev o'.
Proof.
  intros Hs Hwf Hf. split; [assumption|]. unfold phase_of at 2. rewrite Hf. apply ps_fail.
  - unfold terminal in Hs. unfold phase_of. destruct (stage o); cbn; tauto.
  - destruct Hwf as (_ & _ & H). unfold progress_ok in H. rewrite Hf in H. tauto.
Qed.
(** Refusing a call is legal in every stage, also after buffering. *)
Lemma legal_abort_via o o2 ev e : download_wf o2 -> phase_of o2 = phase_of o ->
  legal o ev (b41_download_abort (Ptr at_ o2) e).2.
Proof.
  intros Hwf Hp. destruct (decide (stage o2 = B41_DOWNLOAD_FAILED)) as [H|H];
    [rewrite abort_terminal by (unfold terminal; auto); split; [assumption|rewrite Hp; constructor]|].
  destruct (decide (stage o2 = B41_DOWNLOAD_ACKS_COMPLETE)) as [H'|H'];
    [rewrite abort_terminal by (unfold terminal; auto); split; [assumption|rewrite Hp; constructor]|].
  destruct (abort_fails o2 e Hwf) as (o' & -> & H1 & H2); [unfold terminal; tauto|].
  destruct (legal_failed o2 ev o') as [_ Hs]; [unfold terminal; tauto|assumption..|].
  split; [assumption|]. rewrite <- Hp. unfold phase_of at 2. cbn [snd]. rewrite H2. apply ps_fail.
  - unfold phase_of. destruct (stage o2); cbn; tauto.
  - now apply failed_error.
Qed.
Lemma legal_abort o ev e : download_wf o -> legal o ev (b41_download_abort (Ptr at_ o) e).2.
Proof. intros Hwf. now apply legal_abort_via. Qed.

(** A call that passes [check] continues on the owner with the new time. *)
Lemma check_legal heap o now ev (k : download -> Z * download) : download_wf o ->
  (forall o1, download_wf o1 -> ~ terminal (stage o1) -> legal o1 ev (k o1).2) ->
  (forall o1, stage o1 = B41_DOWNLOAD_ACKS_COMPLETE -> (k o1).2 = o1) ->
  legal o ev (match check heap (Ptr at_ o) now with (0, o1) => k o1 | r => r end).2.
Proof.
  intros Hwf Hk Ha.
  destruct (check_cases heap o now Hwf) as [[Ht ->]|[[Ht ->]|[[_ ->]|(Ht & Hn & [->|(o' & -> & H1 & H2)])]]].
  - pose proof (failed_error o Hwf Ht). destruct (first_error o); try lia. now apply legal_same.
  - rewrite Ha by exact Ht. now apply legal_same.
  - now apply legal_same.
  - exact (Hk (set_last_now o now) Hwf Ht).
  - pose proof (failed_error o' H1 H2). destruct (first_error o'); try lia. now apply legal_failed.
Qed.

(** The stages in which the source's switch and comparisons are decided. *)
Lemma is_stage_true s s' : is_stage s s' = true <-> s = s'.
Proof. apply bool_decide_eq_true. Qed.
Lemma is_stage_false s s' : is_stage s s' = false <-> s <> s'.
Proof. apply bool_decide_eq_false. Qed.

Lemma next_legal heap o now action ev : download_wf o ->
  legal o ev (b41_download_next heap (Ptr at_ o) now action).1.2.
Proof.
  intros Hwf. unfold b41_download_next. cbn [addr].
  destruct (check_cases heap o now Hwf) as [[Ht ->]|[[Ht ->]|[[_ ->]|(Ht & Hn & [->|(o' & -> & H1 & H2)])]]].
  - pose proof (failed_error o Hwf Ht). destruct (first_error o); try lia. now apply legal_same.
  - rewrite Ht. destruct (null action || _); [|now apply legal_same].
    pose proof (legal_abort o ev (- EINVAL) Hwf) as H. now destruct (b41_download_abort _ _).
  - now apply legal_same.
  - set (o1 := set_last_now o now). assert (Hw1 : download_wf o1) by exact Hwf.
    assert (Habort : forall e, legal o ev (b41_download_abort (Ptr at_ o1) e).2)
      by exact (fun e => legal_abort o1 ev e Hw1).
    assert (Hfail : forall e, legal o ev
      (let '(s, o2) := b41_download_abort (Ptr at_ o1) e in (s, o2, pointee action)).1.2)
      by (intros e; specialize (Habort e); now destruct (b41_download_abort _ _)).
    destruct (null action || _); [apply Hfail|].
    destruct (stage o1); try apply Hfail; try (now apply (legal_same o1)).
    destruct (route_of _) as [[|e|e] route]; try apply Hfail; now apply (legal_same o1).
  - pose proof (failed_error o' H1 H2). destruct (first_error o'); try lia. now apply legal_failed.
Qed.

Lemma written_legal heap o now r : download_wf o ->
  legal o (EvWritten now r) (b41_download_written heap (Ptr at_ o) now r).2.
Proof.
  intros Hwf. unfold b41_download_written. cbn [addr].
  apply (check_legal heap o now _ (fun o1 => _)); [exact Hwf| |].
  - intros o1 Hw1 Ht. cbv zeta.
    destruct (is_stage (stage o1) B41_DOWNLOAD_BOOTSTRAP_TX) eqn:Es; [|now apply legal_abort].
    apply is_stage_true in Es. pose proof Hw1 as (Htx & Hrx & Hp).
    unfold tx_ok in Htx. rewrite Es in Htx. destruct Htx as (Hsz & Hoff & Hlen).
    cbn [negb]. destruct (_ =? _); [now apply legal_same|].
    destruct (Z.ltb_spec r 0); [now apply legal_abort|].
    rewrite u64_id by (unfold is_u64; lia).
    destruct ((r =? 0) || _) eqn:G; [now apply legal_abort|].
    cbn [set_tx tx_offset tx_size tx]. unfold legal, download_wf, tx_ok, rx_ok, progress_ok, phase_of in *.
    rewrite Es in *.
    destruct (Z.eqb_spec (tx_offset o1 + r) (tx_size o1)); cbn.
    + rewrite (erase_all (tx o1)) by assumption. repeat split; try tauto; try lia.
      * destruct Hrx as [-> _]. reflexivity.
      * destruct Hrx as [-> _]. apply bytes_ok_zeros.
      * apply ps_sent with now. f_equal. lia.
    + rewrite ?Es. repeat split; try tauto; try lia. apply ps_send with now; lia || reflexivity.
  - intros o1 E. rewrite E. apply abort_terminal. unfold terminal. auto.
Qed.

Lemma submitted_legal heap o now r : download_wf o ->
  legal o (EvSubmitted now r) (b41_download_submitted heap (Ptr at_ o) now r).2.
Proof.
  intros Hwf. unfold b41_download_submitted. cbn [addr].
  apply (check_legal heap o now _ (fun o1 => _)); [exact Hwf| |].
  - intros o1 Hw1 Ht. cbv zeta.
    destruct (is_stage (stage o1) B41_DOWNLOAD_FRAGMENT_IOCTL) eqn:Es; [|now apply legal_abort].
    apply is_stage_true in Es. cbn [negb].
    destruct (Z.eqb_spec r 0) as [->|]; cbn [negb]; [|now apply legal_abort].
    unfold legal, download_wf, tx_ok, rx_ok, progress_ok, phase_of in *. cbn. rewrite Es in *.
    destruct Hw1 as (Htx & [Hrx Hrs] & Hp). repeat split; try tauto; try lia.
    + now rewrite Hrx.
    + rewrite Hrx. apply bytes_ok_zeros.
    + now apply ps_submit with now.
  - intros o1 E. rewrite E. apply abort_terminal. unfold terminal. auto.
Qed.

(** The automatic objects are distinct, as the language guarantees. *)
Definition env_ok : Prop :=
  private_at env <> 0 /\ Bootstrap.overlaps (private_at env) 106 (frame_at env) 116 = false /\
  Bootstrap.overlaps (size_at env) 8 (private_at env) 106 = false.

Lemma begin_frame ses query st frame size stack : env_ok ->
  b41_bootstrap_frame_build (to_nearest env) (private_at env) (zeros 106) ses query
    (Ptr (frame_at env) (zeros 116)) 116 (Ptr (size_at env) 0) = (st, frame, size, stack) ->
  st = 0 -> frame = mvcd_frame 8 0 (session_image (to_nearest env) ses query) /\ size = 116 /\
    len frame = 116 /\ validate ses query = 0.
Proof.
  intros (H1 & H2 & H3) E ->. pose proof E as (Hst & Hok & _ & _)%frame_build_cases; try assumption.
  destruct (Hok eq_refl) as [Hf ->]. change (skipn 116 (pointee _)) with (@nil Z) in Hf.
  rewrite app_nil_r in Hf. destruct (proj1 Hst eq_refl) as (_ & _ & _ & Hv & _ & _ & _ & Hb).
  repeat split; try assumption. subst frame. rewrite len_mvcd_frame.
  destruct (assemble_cases (to_nearest env) ses query) as [(f & Hb' & _ & Hi)|(e & He & Hb' & _)].
  - unfold session_image. unfold built_fields in *. rewrite Hb'. cbn [snd]. lia.
  - exfalso. unfold built_fields in Hb. congruence.
Qed.

Lemma begin_legal o ses query now deadline : env_ok -> download_wf o ->
  is_u32 (frag_num (pointee (info (pointee query)))) ->
  legal o (EvBegin ses query now deadline) (b41_download_begin env (Ptr at_ o) ses query now deadline).2.
Proof.
  intros He Hwf Hf. unfold b41_download_begin. rewrite at_null. cbn [pointee addr].
  destruct (is_stage (stage o) B41_DOWNLOAD_NEW) eqn:Es; cbn [negb]; [|now apply legal_same].
  apply is_stage_true in Es.
  destruct (null ses || _ || _ || _); [now apply legal_abort|].
  destruct (begin_aliases _ _ _); [now apply legal_same|].
  destruct (deadline <=? now); [now apply legal_abort|].
  destruct (b41_bootstrap_frame_build _ _ _ _ _ _ _ _) as [[[st frame] size] stack] eqn:E.
  destruct st; [|now apply legal_abort..].
  destruct (begin_frame _ _ _ _ _ _ He E eq_refl) as (_ & -> & Hlen & Hv).
  pose proof (validate_fragments ses query Hf Hv).
  unfold legal, download_wf, tx_ok, rx_ok, progress_ok, phase_of in *. cbn. rewrite Es in *.
  destruct Hwf as ((Htx & Hts & Hto) & (Hrx & Hrs) & Hp). rewrite Hto, Htx.
  repeat split; try tauto; try lia.
  - rewrite len_write_at; rewrite ?len_slice by lia; try reflexivity; lia.
  - now apply ps_begin with ses query now deadline.
Qed.

(** Storing a chunk extends the buffered bytes. *)
Lemma pending_store o data n : download_wf o -> 0 <= n <= len data -> rx_size o + n <= 1024 ->
  slice (write_at (rx o) (rx_size o) (slice data 0 n)) 0 (rx_size o + n) = pending o ++ slice data 0 n.
Proof.
  intros Hwf Hn Hs. destruct (rx_shape o Hwf) as (Hl & _ & Hr). unfold pending.
  pose proof (len_slice data 0 n ltac:(lia) ltac:(lia) ltac:(lia)) as Hd.
  apply bytes_ext; rewrite len_slice by (rewrite ?len_write_at; lia).
  - rewrite len_app, len_slice by lia. lia.
  - intros i Hi. rewrite byte_at_slice by lia.
    destruct (Z.lt_ge_cases i (rx_size o)).
    + rewrite byte_at_write_out by lia. rewrite byte_at_app_l by (rewrite len_slice; lia).
      rewrite byte_at_slice by lia. reflexivity.
    + rewrite byte_at_write_in by lia. rewrite byte_at_app_r by (rewrite len_slice; lia).
      rewrite len_slice by lia. f_equal; lia.
Qed.

(** A decoded prefix of the receive buffer is a reference acknowledgement. *)
Lemma decoded_acknowledges a l n k seq ack ack' : bytes_ok l -> 0 <= n <= len l -> ack_kind k ->
  b41_mvcd_decode_ack (Ptr a l) n k seq ack = (B41_MVCD_OK, ack') -> acknowledges (slice l 0 n) k seq.
Proof.
  intros Hok Hn Hk H. rewrite decode_ack_prefix in H by lia.
  replace n with (len (slice l 0 n)) in H at 2 by (rewrite len_slice; lia).
  apply (decode_ack_sound (Ptr a (slice l 0 n))) in H as (h & p & Hh & Hp & Hl & Hf & Hs & _);
    try assumption; [|now apply bytes_ok_slice].
  exists h, p. repeat split; try assumption; lia.
Qed.

Lemma set_rx_wf o b n : download_wf o ->
  stage o = B41_DOWNLOAD_BOOTSTRAP_RX \/ stage o = B41_DOWNLOAD_FRAGMENT_RX ->
  0 <= n <= 1024 -> len b = 1024 -> bytes_ok b -> download_wf (set_rx o b n).
Proof.
  intros (H1 & H2 & H3) Hs Hn Hl Hb. split; [exact H1|]. split; [|exact H3].
  unfold rx_ok. cbn. destruct Hs as [-> | ->]; auto.
Qed.

(** A complete acknowledgement advances the owner by one phase. *)
Lemma ack_legal o now data n o3 : download_wf o ->
  o3 = set_rx o (zeros 1024) 0 ->
  stage o = B41_DOWNLOAD_BOOTSTRAP_RX \/ stage o = B41_DOWNLOAD_FRAGMENT_RX ->
  acknowledges (pending o ++ slice (pointee data) 0 n)
    (if is_stage (stage o) B41_DOWNLOAD_BOOTSTRAP_RX then B41_MVCD_BOOTSTRAP_ACK else B41_MVCD_FRAGMENT_ACK)
    (if is_stage (stage o) B41_DOWNLOAD_BOOTSTRAP_RX then 0 else u16 (fragment_sequence o)) ->
  legal o (EvReceived now data n)
   (if is_stage (stage o3) B41_DOWNLOAD_FRAGMENT_RX then
      let o4 := set_progress o3 (u32 (fragment_sequence o3 + 1)) (u32 (matched_fragments o3 + 1)) in
      if matched_fragments o4 =? fragment_count o4
      then (0, set_session (set_stage o4 B41_DOWNLOAD_ACKS_COMPLETE) 0)
      else (0, set_stage o4 B41_DOWNLOAD_FRAGMENT_IOCTL)
    else (0, set_stage o3 B41_DOWNLOAD_FRAGMENT_IOCTL)).2.
Proof.
  intros (Htx & Hrx & Hp) -> Hs Hack. unfold legal, download_wf, tx_ok, rx_ok, progress_ok, phase_of in *. cbn in *.
  destruct Hs as [Es|Es]; rewrite Es in *;
    change (is_stage B41_DOWNLOAD_BOOTSTRAP_RX B41_DOWNLOAD_BOOTSTRAP_RX) with true in *;
    change (is_stage B41_DOWNLOAD_BOOTSTRAP_RX B41_DOWNLOAD_FRAGMENT_RX) with false in *;
    change (is_stage B41_DOWNLOAD_FRAGMENT_RX B41_DOWNLOAD_BOOTSTRAP_RX) with false in *;
    change (is_stage B41_DOWNLOAD_FRAGMENT_RX B41_DOWNLOAD_FRAGMENT_RX) with true in *; cbn in *.
  - repeat split; try tauto; try lia. replace (matched_fragments o) with 0 by lia. eapply ps_boot; eauto.
  - rewrite (u32_id (matched_fragments o + 1)) by (unfold is_u32; lia).
    rewrite (u32_id (fragment_sequence o + 1)) by (unfold is_u32; lia).
    rewrite u16_id in Hack by (unfold is_u16; lia). replace (fragment_sequence o) with (matched_fragments o + 1) in Hack by lia.
    destruct (Z.eqb_spec (matched_fragments o + 1) (fragment_count o)); cbn; (repeat split; try tauto; try lia).
    + rewrite e. eapply ps_done; eauto.
    + eapply ps_ack; eauto. lia.
Qed.

Lemma received_legal heap o now data n : download_wf o ->
  0 <= n <= len (pointee data) -> bytes_ok (pointee data) ->
  legal o (EvReceived now data n) (b41_download_received env heap (Ptr at_ o) now data n).2.
Proof.
  intros Hwf Hn Hd. unfold b41_download_received. cbn [addr].
  apply (check_legal heap o now _ (fun o1 => _)); [exact Hwf| |].
  - intros o1 Hw1 Ht. cbv zeta. destruct (rx_shape o1 Hw1) as (Hl & Hok & Hr).
    destruct (negb _ && negb _) eqn:Es; [now apply legal_abort|].
    assert (Hst : stage o1 = B41_DOWNLOAD_BOOTSTRAP_RX \/ stage o1 = B41_DOWNLOAD_FRAGMENT_RX).
    { apply andb_false_iff in Es as [Es|Es]; apply negb_false_iff, is_stage_true in Es; auto. }
    rewrite u64_id by (unfold is_u64, sizeof_rx; lia). unfold sizeof_rx.
    destruct (null data || _ || _ || _) eqn:G; [now apply legal_abort|].
    set (chunk := slice (pointee data) 0 n).
    set (buf := write_at (rx o1) (rx_size o1) chunk). set (o2 := set_rx o1 buf (rx_size o1 + n)).
    assert (Hlc : len chunk = n) by (apply len_slice; lia).
    assert (Hbl : len buf = 1024) by (unfold buf; rewrite len_write_at; lia).
    assert (Hbok : bytes_ok buf) by (apply bytes_ok_write; [|apply bytes_ok_slice]; assumption).
    assert (Hw2 : download_wf o2)
      by (apply set_rx_wf; [assumption|destruct Hst; auto|lia|assumption..]).
    assert (Hphase : phase_of o2 = phase_of o1) by reflexivity.
    destruct (_ <? 6); [split; [exact Hw2|exact (ps_stutter _ _ _ (phase_of o1))]|].
    destruct (negb (_ =? 0xaa) || _ || _); [now apply legal_abort_via|]. set (fs := Z.lor _ _ + 6).
    destruct ((fs <? 10) || _ || _) eqn:G1; [now apply legal_abort_via|].
    destruct (Z.ltb_spec (rx_size o2) fs); [split; [exact Hw2|exact (ps_stutter _ _ _ (phase_of o1))]|].
    destruct (b41_mvcd_decode_ack _ _ _ _ _) as [status ack] eqn:Ed.
    change (rx_size o2) with (rx_size o1 + n) in *. change (rx o2) with buf in *.
    rewrite (erase_all buf) by assumption.
    assert (Hw3 : download_wf (set_rx o2 (zeros 1024) 0))
      by (apply set_rx_wf; [assumption|destruct Hst; auto|lia|reflexivity|apply bytes_ok_zeros]).
    destruct (Z.eqb_spec status 0) as [->|]; cbn [negb]; [|now apply legal_abort_via].
    apply decoded_acknowledges in Ed; [|assumption|lia|unfold ack_kind; destruct (is_stage _ _); auto].
    replace fs with (rx_size o1 + n) in Ed by lia. unfold buf, chunk in Ed.
    rewrite pending_store in Ed by (assumption || lia).
    eapply ack_legal; eassumption || reflexivity.
  - intros o1 E. rewrite E. apply abort_terminal. unfold terminal. auto.
Qed.

Lemma call_legal o e : env_ok -> download_wf o -> event_ok e ->
  legal o e.2 (call env at_ o e).2.
Proof.
  intros He Hwf Hok. destruct e as [heap [ses query now dl|now action|now r|now r|now data n|err]];
    cbn [call snd] in *.
  - now apply begin_legal.
  - pose proof (next_legal heap o now action (EvNext now action) Hwf) as H.
    now destruct (b41_download_next _ _ _ _) as [[? ?] ?].
  - now apply written_legal.
  - now apply submitted_legal.
  - destruct Hok. now apply received_legal.
  - now apply legal_abort.
Qed.
End Owner.

(** ** The owner as a machine *)

(** Nothing changes a failed or completed owner. *)
Lemma terminal_call env at_ o e : terminal (stage o) ->
  (stage o = B41_DOWNLOAD_FAILED -> first_error o <> 0) -> (call env at_ o e).2 = o.
Proof.
  intros Ht Herr. destruct (Z.eq_dec at_ 0) as [->|Hat].
  - destruct e as [heap []]; cbn [call snd]; try reflexivity.
  - assert (Hab : forall err, (b41_download_abort (Ptr at_ o) err).2 = o) by (intros; now apply abort_terminal).
    assert (Hn := at_null at_ Hat o).
    destruct Ht as [Es|Es]; destruct e as [heap [ses query now dl|now action|now r|now r|now data n|err]];
      cbn [call snd]; try apply Hab;
      unfold b41_download_begin, b41_download_next, b41_download_written, b41_download_submitted,
        b41_download_received, check; rewrite Hn; cbn [pointee addr]; rewrite ?Es; try reflexivity;
      try (destruct (first_error o); [now destruct Herr|reflexivity..]); try apply Hab.
    destruct (null action || _); [|reflexivity]. specialize (Hab (- EINVAL)). now destruct (b41_download_abort _ _).
Qed.

Section AsMachine.
Context (env : environment) (at_ : Z).

#[export, refine] Instance download_machine : Machine download ((Z -> bootstrap_session) * download_event) := {
  mstep o e := (call env at_ o e).2;
  failure o := if is_stage (stage o) B41_DOWNLOAD_FAILED && (first_error o <? 0) then Some (first_error o) else None
}.
Proof.
  intros o e x H. rewrite terminal_call; [exact H|..];
    destruct (is_stage (stage o) _) eqn:Es; try discriminate; apply is_stage_true in Es.
  - now left.
  - intros _. cbn in H. destruct (Z.ltb_spec (first_error o) 0); [lia|discriminate].
Defined.
End AsMachine.

Lemma run_terminal env at_ o es : terminal (stage o) ->
  (stage o = B41_DOWNLOAD_FAILED -> first_error o <> 0) ->
  @mrun _ _ (download_machine env at_) o es = o.
Proof.
  intros Ht He. induction es as [|e es IH]; [reflexivity|].
  rewrite mrun_cons. change (mstep o e) with (call env at_ o e).2. now rewrite terminal_call.
Qed.

Lemma fresh_wf : download_wf fresh.
Proof. repeat split; reflexivity. Qed.

Lemma run_wf env at_ o es : at_ <> 0 -> env_ok env -> Forall event_ok es -> download_wf o ->
  download_wf (@mrun _ _ (download_machine env at_) o es).
Proof.
  intros Hat He Hes Ho. apply (mrun_invariant _ event_ok); try assumption.
  intros s e Hev Hs. now apply (call_legal env at_ Hat).
Qed.


(** ** Fragment submissions of a run *)

(** The arguments of the fragment ioctls a run reports as performed. *)
Fixpoint submissions (env : environment) (at_ : Z) (o : download)
    (es : list ((Z -> bootstrap_session) * download_event)) : list Z :=
  match es with
  | [] => []
  | e :: es =>
    let o' := (call env at_ o e).2 in
    (if is_stage (stage o) B41_DOWNLOAD_FRAGMENT_IOCTL && is_stage (stage o') B41_DOWNLOAD_FRAGMENT_RX
     then [u32 (fragment_sequence o - 1)] else []) ++ submissions env at_ o' es
  end.

(** How many fragments an owner that has not failed has submitted. *)
Definition submitted_count (p : phase) : Z :=
  match p with PSubmit i => i | PAwaitAck i => i + 1 | PDone n => n | _ => 0 end.

Lemma phase_failed o : stage o = B41_DOWNLOAD_FAILED <-> exists e, phase_of o = PFailed e.
Proof. unfold phase_of. destruct (stage o); split; intros H; try discriminate H; try (destruct H; discriminate); eauto. Qed.
Lemma phase_ioctl o : download_wf o -> stage o = B41_DOWNLOAD_FRAGMENT_IOCTL ->
  phase_of o = PSubmit (u32 (fragment_sequence o - 1)).
Proof.
  intros (_ & _ & H) Hs. unfold progress_ok, phase_of in *. rewrite Hs in *. f_equal.
  rewrite u32_id by (unfold is_u32; lia). lia.
Qed.
Lemma phase_rx o i : phase_of o = PAwaitAck i <-> stage o = B41_DOWNLOAD_FRAGMENT_RX /\ matched_fragments o = i.
Proof. unfold phase_of. destruct (stage o); intuition congruence. Qed.
Lemma phase_submit o i : phase_of o = PSubmit i <-> stage o = B41_DOWNLOAD_FRAGMENT_IOCTL /\ matched_fragments o = i.
Proof. unfold phase_of. destruct (stage o); intuition congruence. Qed.

(** One call adds at most the next fragment number. *)
Lemma step_submissions env at_ o e : at_ <> 0 -> env_ok env -> download_wf o -> event_ok e ->
  let o' := (call env at_ o e).2 in
  let k := submitted_count (phase_of o) in
  let log := if is_stage (stage o) B41_DOWNLOAD_FRAGMENT_IOCTL && is_stage (stage o') B41_DOWNLOAD_FRAGMENT_RX
             then [u32 (fragment_sequence o - 1)] else [] in
  stage o' = B41_DOWNLOAD_FAILED /\ log = [] \/
  (exists j, 0 <= j /\ log = seqZ k j /\ submitted_count (phase_of o') = k + j).
Proof.
  intros Hat He Hwf Hok o' k log. destruct (call_legal env at_ Hat o e He Hwf Hok) as [_ Hs]. fold o' in Hs.
  destruct (is_stage (stage o) B41_DOWNLOAD_FRAGMENT_IOCTL && is_stage (stage o') B41_DOWNLOAD_FRAGMENT_RX) eqn:El; subst log.
  - apply andb_true_iff in El as [E1%is_stage_true E2%is_stage_true].
    rewrite (phase_ioctl o Hwf E1) in Hs. subst k. rewrite (phase_ioctl o Hwf E1). right. exists 1.
    assert (E3 : phase_of o' = PAwaitAck (matched_fragments o')) by now apply phase_rx.
    rewrite E3 in *. inversion Hs; subst. split; [lia|]. split; [reflexivity|]. cbn. lia.
  - assert (Hns : forall i, phase_of o = PSubmit i -> phase_of o' <> PAwaitAck i).
    { intros i [E1 _]%phase_submit [E2 _]%phase_rx. rewrite E1, E2 in El. discriminate El. }
    subst k. remember (phase_of o) as p eqn:Ep. remember (phase_of o') as p' eqn:Ep'.
    destruct Hs as [p| | | | |now i Hev| | |p err Hl Hn];
      try (right; exists 0; split; [lia|]; split; [reflexivity|]; cbn; lia).
    + now destruct (Hns i).
    + left. split; [|reflexivity]. apply phase_failed. eauto.
Qed.

Lemma failed_submissions env at_ o es : download_wf o -> stage o = B41_DOWNLOAD_FAILED ->
  submissions env at_ o es = [].
Proof.
  intros Hwf Hs. induction es as [|e es IH]; [reflexivity|]. cbn [submissions].
  pose proof (failed_error o Hwf Hs).
  rewrite terminal_call by (unfold terminal; auto; lia). rewrite Hs. exact IH.
Qed.

Lemma run_submissions env at_ es : at_ <> 0 -> env_ok env -> Forall event_ok es ->
  forall o, download_wf o ->
  let o' := @mrun _ _ (download_machine env at_) o es in
  exists k, 0 <= k /\ submissions env at_ o es = seqZ (submitted_count (phase_of o)) k /\
    (stage o' = B41_DOWNLOAD_FAILED \/ submitted_count (phase_of o') = submitted_count (phase_of o) + k).
Proof.
  intros Hat He Hes. induction Hes as [|e es Hev Hes IH]; intros o Hwf; cbv zeta.
  - exists 0. split; [lia|]. split; [reflexivity|]. right. cbn. lia.
  - pose proof (step_submissions env at_ o e Hat He Hwf Hev) as Hs. cbv zeta in Hs.
    destruct (call_legal env at_ Hat o e He Hwf Hev) as [Hwf' _].
    rewrite mrun_cons. cbn [submissions]. change (mstep o e) with (call env at_ o e).2.
    set (o1 := (call env at_ o e).2) in *. destruct Hs as [[Hf ->]|(j & Hj & -> & Hc)].
    + exists 0. split; [lia|]. rewrite failed_submissions by assumption. split; [reflexivity|]. left.
      pose proof (failed_error o1 Hwf' Hf). rewrite run_terminal; [exact Hf|now left|lia].
    + destruct (IH o1 Hwf') as (k & Hk & -> & Hend). exists (j + k). split; [lia|]. split.
      * rewrite Hc. symmetry. apply seqZ_app; lia.
      * destruct Hend as [?|Hend]; [now left|right]. rewrite Hend, Hc. lia.
Qed.

(** ** The exchange of a cooperating peer *)

Lemma mvcd_frame_bytes k h p : bytes_ok p -> is_u8 k -> bytes_ok (mvcd_frame k h p).
Proof.
  intros Hp Hk. unfold mvcd_frame, mvcd_body. rewrite !bytes_ok_app.
  repeat split; auto using bytes_ok_put16; repeat constructor; unfold is_u8 in *; lia.
Qed.

(** The announced length of a reference frame, as the receive path reads it. *)
Lemma frame_size_word k h p : bytes_ok p -> is_u8 k -> 0 <= h < 16 -> len p <= 1014 ->
  let f := mvcd_frame k h p in
  Z.lor (byte_at f 2) (Z.shiftl (Z.land (byte_at f 3) 15) 8) + 6 = len f.
Proof.
  intros Hp Hk Hh Hl f. pose proof (len_nonneg p).
  pose proof (mvcd_frame_length_word k h p Hh ltac:(lia)) as Hw. fold f in Hw. unfold le16 in Hw.
  assert (Hf : bytes_ok f) by now apply mvcd_frame_bytes.
  pose proof (byte_at_u8 f 2 Hf). pose proof (byte_at_u8 f 3 Hf). zc. change (2 + 1) with 3 in Hw.
  unfold is_u8 in *. rewrite lor_shiftl_add in * by lia. rewrite (land_ones_mod _ 4) by lia.
  unfold f at 3. rewrite len_mvcd_frame. change (2 ^ 4) with 16. change (2 ^ 8) with 256 in *. dlia.
Qed.

Section Peer.
Context (env : environment) (at_ : Z) (heap : Z -> bootstrap_session) (now : Z).
Context (Hat : at_ <> 0).
Context (Hack : ack_at env <> 0 /\ forall n, 0 <= n <= 1024 ->
  Wire.overlaps (at_ + offsetof_rx) n (ack_at env) sizeof_mvcd_ack = false) (Hrx : at_ + offsetof_rx <> 0).

(** The owner is bound to a session whose object is unchanged, in time. *)
Definition timely (o : download) : Prop :=
  session o <> 0 /\ gps0_fd (heap (session o)) = dl_gps0_fd o /\
  selectors (heap (session o)) = dl_selectors o /\ last_now_ns o <= now < deadline_ns o.

Definition active (o : download) : Prop := ~ terminal (stage o) /\ stage o <> B41_DOWNLOAD_NEW.

Lemma check_timely o : active o -> timely o -> check heap (Ptr at_ o) now = (0, set_last_now o now).
Proof.
  intros [Ha Hn] (Hs & Hfd & Hsel & Ht). unfold check. rewrite (at_null at_ Hat). cbn [pointee addr].
  unfold terminal in Ha. rewrite Hfd, Hsel, !Z.eqb_refl.
  destruct (stage o) eqn:E; try tauto;
    (destruct (Z.eqb_spec (session o) 0); [tauto|]; cbn [orb negb];
     destruct (Z.ltb_spec now (last_now_ns o)); [lia|];
     destruct (Z.leb_spec (deadline_ns (set_last_now o now)) now); [cbn in *; lia|reflexivity]).
Qed.

(** The state after a complete acknowledgement. *)
Definition acked (o : download) : download :=
  let o := set_rx (set_last_now o now) (zeros 1024) 0 in
  if is_stage (stage o) B41_DOWNLOAD_FRAGMENT_RX then
    let o := set_progress o (u32 (fragment_sequence o + 1)) (u32 (matched_fragments o + 1)) in
    if matched_fragments o =? fragment_count o
    then set_session (set_stage o B41_DOWNLOAD_ACKS_COMPLETE) 0
    else set_stage o B41_DOWNLOAD_FRAGMENT_IOCTL
  else set_stage o B41_DOWNLOAD_FRAGMENT_IOCTL.

Lemma received_whole o k h p data : download_wf o -> timely o -> rx_size o = 0 ->
  (stage o = B41_DOWNLOAD_BOOTSTRAP_RX /\ k = B41_MVCD_BOOTSTRAP_ACK /\ le16 p 0 = 0 \/
   stage o = B41_DOWNLOAD_FRAGMENT_RX /\ k = B41_MVCD_FRAGMENT_ACK /\ le16 p 0 = u16 (fragment_sequence o)) ->
  bytes_ok p -> 0 <= h < 16 -> ack_minimum k <= len p <= 1014 -> pointee data = mvcd_frame k h p ->
  null data = false -> overlaps at_ sizeof_download (addr data) (len (pointee data)) = false ->
  b41_download_received env heap (Ptr at_ o) now data (len (pointee data)) = (0, acked o).
Proof.
  intros Hwf Ht Hr Hst Hp Hh Hl Hd Hnull Hov.
  assert (Hact : active o) by (split; [intros [E|E]|intros E]; rewrite E in Hst; destruct Hst as [[? _]|[? _]]; congruence).
  assert (Hk : ack_kind k) by (unfold ack_kind; tauto).
  assert (Hk8 : is_u8 k) by (destruct Hk as [-> | ->]; unfold is_u8; lia).
  assert (Hmin : 2 <= len p) by (unfold ack_minimum in Hl; destruct (k =? 49); lia).
  destruct (rx_shape o Hwf) as (Hbl & _ & _).
  unfold b41_download_received. rewrite check_timely by assumption. cbn [addr].
  set (o1 := set_last_now o now). cbv zeta.
  assert (Hs1 : negb (is_stage (stage o1) B41_DOWNLOAD_BOOTSTRAP_RX) && negb (is_stage (stage o1) B41_DOWNLOAD_FRAGMENT_RX) = false)
    by (change (stage o1) with (stage o); destruct Hst as [[-> _]|[-> _]]; reflexivity).
  rewrite Hs1. change (rx_size o1) with (rx_size o). change (rx o1) with (rx o). rewrite Hr.
  change (u64 (sizeof_rx - 0)) with 1024. change (0 + len (pointee data)) with (len (pointee data)).
  rewrite Hnull, Hov, slice_all. set (f := pointee data) in *.
  assert (Hlf : len f = len p + 10) by (rewrite Hd; apply len_mvcd_frame).
  set (buf := write_at (rx o) 0 f). assert (Hbuf : slice buf 0 (len f) = f).
  { unfold buf. rewrite (write_at_app [] (rx o)) by reflexivity. apply (slice_app_mid []). reflexivity. }
  assert (Hbl2 : len buf = 1024) by (unfold buf; rewrite len_write_at; lia).
  assert (Hb : forall i, 0 <= i < len f -> byte_at buf i = byte_at f i)
    by (intros i Hi; pose proof (byte_at_slice buf 0 (len f) i ltac:(lia) Hi) as E; rewrite Hbuf in E; now rewrite E).
  cbn [set_rx rx rx_size orb negb]. rewrite !Hb by lia.
  assert (Hfs : Z.lor (byte_at f 2) (Z.shiftl (Z.land (byte_at f 3) 15) 8) + 6 = len f)
    by (rewrite Hd; apply frame_size_word; (assumption || lia)).
  rewrite Hfs.
  assert (Hbytes : byte_at f 0 = 170 /\ byte_at f 1 = 240 /\ byte_at f 5 = 254) by (rewrite Hd; repeat split).
  destruct Hbytes as (-> & -> & ->). cbn [Z.eqb Pos.eqb negb orb]. unfold sizeof_rx.
  replace (len f =? 0) with false by lia. replace (1024 <? len f) with false by lia.
  replace (len f <? 6) with false by lia. replace (len f <? 10) with false by lia.
  replace (len f <? len f) with false by lia. cbn [orb].
  assert (Hdec : forall seq, le16 p 0 = seq ->
    b41_mvcd_decode_ack (Ptr (at_ + offsetof_rx) buf) (len f) k seq (Ptr (ack_at env) (MvcdAck 0 0 0 0 0))
    = (0, ack_of k h p)).
  { intros seq Hseq. rewrite decode_ack_prefix, Hbuf by lia.
    apply (decode_ack_complete (Ptr (at_ + offsetof_rx) f) k seq); try assumption; try (unfold null; cbn; lia).
    apply Hack. cbn [pointee]. lia. }
  change (fragment_sequence (set_rx o1 buf (len f))) with (fragment_sequence o).
  assert (Hcall : b41_mvcd_decode_ack (Ptr (at_ + offsetof_rx) buf) (len f)
    (if is_stage (stage o1) B41_DOWNLOAD_BOOTSTRAP_RX then 49 else 50)
    (if is_stage (stage o1) B41_DOWNLOAD_BOOTSTRAP_RX then 0 else u16 (fragment_sequence o))
    (Ptr (ack_at env) (MvcdAck 0 0 0 0 0)) = (0, ack_of k h p)).
  { change (stage o1) with (stage o). destruct Hst as [(-> & -> & Hq)|(-> & -> & Hq)]; now apply Hdec. }
  rewrite Hcall. cbn [negb Z.eqb]. rewrite (erase_all buf) by exact Hbl2.
  unfold acked. fold o1. destruct (is_stage _ B41_DOWNLOAD_FRAGMENT_RX); [|reflexivity]. now destruct (_ =? _).
Qed.

Lemma submitted_ok o : timely o -> stage o = B41_DOWNLOAD_FRAGMENT_IOCTL ->
  b41_download_submitted heap (Ptr at_ o) now 0
  = (0, set_stage (set_last_now o now) B41_DOWNLOAD_FRAGMENT_RX).
Proof.
  intros Ht Hs. unfold b41_download_submitted.
  rewrite check_timely by (assumption || (unfold active, terminal; rewrite Hs; intuition congruence)).
  cbn. now rewrite Hs.
Qed.
Lemma written_all o : timely o -> stage o = B41_DOWNLOAD_BOOTSTRAP_TX -> download_wf o ->
  tx_offset o = 0 ->
  b41_download_written heap (Ptr at_ o) now 116
  = (0, set_stage (set_tx (set_last_now o now) (zeros 116) 0 0) B41_DOWNLOAD_BOOTSTRAP_RX).
Proof.
  intros Ht Hs Hwf Ho. unfold b41_download_written.
  rewrite check_timely by (assumption || (unfold active, terminal; rewrite Hs; intuition congruence)).
  pose proof (len_tx o Hwf) as Hl. destruct Hwf as (Htx & _). unfold tx_ok in Htx. rewrite Hs in Htx.
  destruct Htx as (Hsz & _). cbn. rewrite Hs, Hsz, Ho. cbn. now rewrite erase_all.
Qed.

(** The peer acknowledges each request with a minimal frame in a buffer of
    its own at [data_at]. *)
Context (data_at : Z) (Hdata : data_at <> 0) (Hapart : forall n, 0 <= n <= 1024 ->
  overlaps at_ sizeof_download data_at n = false).

Definition reply (k : Z) (p : list Z) : (Z -> bootstrap_session) * download_event :=
  (heap, EvReceived now (Ptr data_at (mvcd_frame k 0 p)) (len (mvcd_frame k 0 p))).
Definition peer_fragment (i : Z) : list ((Z -> bootstrap_session) * download_event) :=
  [(heap, EvSubmitted now 0); reply B41_MVCD_FRAGMENT_ACK (put16 (i + 1))].
Definition peer_bootstrap (ses : ptr bootstrap_session) (query : ptr bootstrap_query) (deadline : Z)
    : list ((Z -> bootstrap_session) * download_event) :=
  [(heap, EvBegin ses query now deadline); (heap, EvWritten now 116);
   reply B41_MVCD_BOOTSTRAP_ACK [0; 0; 0; 0]].

Lemma reply_ok o k p : download_wf o -> timely o -> rx_size o = 0 ->
  (stage o = B41_DOWNLOAD_BOOTSTRAP_RX /\ k = B41_MVCD_BOOTSTRAP_ACK /\ le16 p 0 = 0 \/
   stage o = B41_DOWNLOAD_FRAGMENT_RX /\ k = B41_MVCD_FRAGMENT_ACK /\ le16 p 0 = u16 (fragment_sequence o)) ->
  bytes_ok p -> ack_minimum k <= len p <= 1014 ->
  (call env at_ o (reply k p)).2 = acked o.
Proof.
  intros. unfold reply. cbn [call snd].
  pose proof (len_mvcd_frame k 0 p). pose proof (len_nonneg p).
  change (len (mvcd_frame k 0 p)) with (len (pointee (Ptr data_at (mvcd_frame k 0 p)))).
  erewrite (received_whole o k 0 p); try eassumption; try reflexivity; try lia;
    [unfold null; cbn; lia|apply Hapart; cbn [pointee]; lia].
Qed.

Lemma fragment_round o : download_wf o -> timely o -> stage o = B41_DOWNLOAD_FRAGMENT_IOCTL ->
  let o' := @mrun _ _ (download_machine env at_) o (peer_fragment (matched_fragments o)) in
  download_wf o' /\ matched_fragments o' = matched_fragments o + 1 /\
  fragment_count o' = fragment_count o /\
  (matched_fragments o + 1 < fragment_count o -> stage o' = B41_DOWNLOAD_FRAGMENT_IOCTL /\ timely o') /\
  (matched_fragments o + 1 = fragment_count o -> stage o' = B41_DOWNLOAD_ACKS_COMPLETE).
Proof.
  intros Hwf Ht Hs. cbv zeta. unfold peer_fragment. rewrite !mrun_cons.
  change (mrun ?x []) with x. cbn [mstep download_machine].
  change (call env at_ o (heap, EvSubmitted now 0)) with (b41_download_submitted heap (Ptr at_ o) now 0).
  assert (Hwf1 : download_wf (b41_download_submitted heap (Ptr at_ o) now 0).2)
    by now apply (submitted_legal at_ Hat heap o now 0).
  rewrite submitted_ok in * by assumption. cbn [snd] in *. set (o1 := set_stage _ _) in *.
  pose proof Hwf as (_ & Hr & Hp). unfold rx_ok, progress_ok in Hr, Hp. rewrite Hs in Hr, Hp.
  assert (Ht1 : timely o1) by (destruct Ht as (? & ? & ? & ?); repeat split; cbn; assumption || lia).
  assert (Hwf2 : download_wf (call env at_ o1 (reply 50 (put16 (matched_fragments o + 1)))).2).
  { apply (received_legal env at_ Hat heap o1 now); [assumption|cbn [pointee]; pose proof (len_nonneg (mvcd_frame 50 0 (put16 (matched_fragments o + 1)))); lia|].
    apply mvcd_frame_bytes; [apply bytes_ok_put16|unfold is_u8; lia]. }
  rewrite reply_ok in Hwf2 |- *; try assumption; try (cbn; lia); try apply bytes_ok_put16;
    try (rewrite len_put16; cbn; lia);
    try (right; split; [reflexivity|]; split; [reflexivity|];
         rewrite <- (app_nil_r (put16 _)), le16_put16; cbn; f_equal; lia).
  split; [exact Hwf2|]. clear Hwf1 Hwf2. unfold acked. cbn.
  rewrite (u32_id (matched_fragments o + 1)) by (unfold is_u32; lia).
  destruct (Z.eqb_spec (matched_fragments o + 1) (fragment_count o)); cbn; repeat split; try lia;
    apply Ht1.
Qed.

Lemma fragment_rounds m : forall o, download_wf o -> timely o -> stage o = B41_DOWNLOAD_FRAGMENT_IOCTL ->
  fragment_count o = matched_fragments o + Z.of_nat m ->
  let o' := @mrun _ _ (download_machine env at_) o (seqZ (matched_fragments o) (Z.of_nat m) ≫= peer_fragment) in
  stage o' = B41_DOWNLOAD_ACKS_COMPLETE /\ matched_fragments o' = fragment_count o.
Proof.
  induction m as [|m IH]; intros o Hwf Ht Hs Hc; cbv zeta.
  - exfalso. destruct Hwf as (_ & _ & Hp). unfold progress_ok in Hp. rewrite Hs in Hp. lia.
  - rewrite seqZ_cons by lia. cbn [mbind list_bind]. rewrite mrun_app.
    destruct (fragment_round o Hwf Ht Hs) as (Hwf' & Hm & Hfc & Hlt & Heq). cbv zeta in *.
    set (o1 := @mrun _ _ (download_machine env at_) o (peer_fragment (matched_fragments o))) in *.
    destruct (Z.eq_dec (matched_fragments o + 1) (fragment_count o)) as [E|E].
    + assert (m = 0%nat) as -> by lia. change (mrun o1 _) with o1. split; [apply Heq; exact E|lia].
    + destruct Hlt as [Hs' Ht']; [destruct Hwf as (_ & _ & Hp); unfold progress_ok in Hp; rewrite Hs in Hp; lia|].
      specialize (IH o1 Hwf' Ht' Hs' ltac:(lia)). cbv zeta in IH.
      replace (Z.succ (matched_fragments o)) with (matched_fragments o1) by lia.
      replace (Z.pred (Z.of_nat (S m))) with (Z.of_nat m) by lia. rewrite <- Hfc. exact IH.
Qed.

(** A begin call whose frame can be built stores it for transmission. *)
Lemma begin_ok ses query deadline : env_ok env ->
  null ses = false -> null query = false -> null (fields (pointee ses)) = false ->
  null (info (pointee query)) = false -> begin_aliases at_ ses query = false -> now < deadline ->
  (b41_bootstrap_frame_build (to_nearest env) (private_at env) (zeros 106) ses query
    (Ptr (frame_at env) (zeros 116)) 116 (Ptr (size_at env) 0)).1.1.1 = 0 ->
  exists o, b41_download_begin env (Ptr at_ fresh) ses query now deadline = (0, o) /\
    stage o = B41_DOWNLOAD_BOOTSTRAP_TX /\ session o = addr ses /\ dl_gps0_fd o = gps0_fd (pointee ses) /\
    dl_selectors o = selectors (pointee ses) /\ deadline_ns o = deadline /\ last_now_ns o = now /\
    tx_offset o = 0 /\ rx_size o = 0 /\ fragment_count o = frag_num (pointee (info (pointee query))) /\
    tx o = mvcd_frame 8 0 (session_image (to_nearest env) ses query).
Proof.
  intros He H1 H2 H3 H4 Ha Hd Hb. unfold b41_download_begin. rewrite (at_null at_ Hat). cbn [pointee addr].
  rewrite H1, H2, H3, H4, Ha. replace (deadline <=? now) with false by lia. cbn [orb fresh stage].
  change (is_stage B41_DOWNLOAD_NEW B41_DOWNLOAD_NEW) with true. cbn [negb].
  destruct (b41_bootstrap_frame_build _ _ _ _ _ _ _ _) as [[[st frame] size] stack] eqn:E.
  cbn in Hb. subst st. destruct (begin_frame _ _ _ _ _ _ _ He E eq_refl) as (Hf & -> & Hlen & _).
  eexists. split; [reflexivity|]. cbn. repeat split.
  replace (slice frame 0 116) with frame by (rewrite <- Hlen; symmetry; apply slice_all).
  rewrite (write_at_app [] (zeros 116)) by reflexivity. unfold len in Hlen.
  replace (length frame) with 116%nat by lia. change (drop 116 (zeros 116)) with (@nil Z).
  now rewrite app_nil_r.
Qed.
End Peer.

(** ** Claims *)

Definition env_1 : environment := Environment true 0x7000 0x7800 0x7900 0x7a00.
Definition heap_1 (_ : Z) : bootstrap_session := pointee session_1.
Lemma env_1_ok : env_ok env_1.
Proof. repeat split; vm_compute; congruence. Qed.
Definition boot_1 : list ((Z -> bootstrap_session) * download_event) :=
  peer_bootstrap heap_1 100 0xa000 session_1 query_1 200.

(** C1. Every call on a well-formed owner, in whatever stage and with whatever
    arguments, keeps it well-formed and makes one step of the download
    protocol: a phase advances only on the event the protocol names (a write
    of the remaining bytes, a successful ioctl, or reply bytes that complete
    the reference acknowledgement of the expected kind and sequence number),
    fragments advance one at a time up to the count of the metadata, and every
    other call either changes nothing or fails the owner for good. *)
Theorem download_refines_protocol env at_ o e :
  at_ <> 0 -> env_ok env -> download_wf o -> event_ok e ->
  download_wf (call env at_ o e).2 /\
  pstep (fragment_count o) (pending o) e.2 (phase_of o) (phase_of (call env at_ o e).2).
Proof. intros Hat He Hwf Hok. exact (call_legal env at_ Hat o e He Hwf Hok). Qed.
Lemma download_refines_protocol_witness :
  pstep 0 [] (EvWritten 100 5) PNew PNew /\ phase_of (call env_1 0x9000 fresh (heap_1, EvWritten 100 5)).2 = PNew.
Proof.
  split; [|reflexivity].
  apply (download_refines_protocol env_1 0x9000 fresh (heap_1, EvWritten 100 5));
    [lia|apply env_1_ok|apply fresh_wf|exact I].
Defined.

(** The private bootstrap frame, which carries the session key, exists in
    the owner only while it is being transmitted: after any sequence of calls
    on a fresh owner, in every stage but [BOOTSTRAP_TX] the transmit buffer is
    all zero with no bytes pending, and outside the two receive stages the
    receive buffer is all zero too. *)
Theorem download_erases_key env at_ es :
  at_ <> 0 -> env_ok env -> Forall event_ok es ->
  let o := @mrun _ _ (download_machine env at_) fresh es in
  (stage o <> B41_DOWNLOAD_BOOTSTRAP_TX -> tx o = zeros 116 /\ tx_size o = 0 /\ tx_offset o = 0) /\
  (stage o <> B41_DOWNLOAD_BOOTSTRAP_RX -> stage o <> B41_DOWNLOAD_FRAGMENT_RX ->
   rx o = zeros 1024 /\ rx_size o = 0).
Proof.
  intros Hat He Hes o. destruct (run_wf env at_ fresh es Hat He Hes fresh_wf) as (Htx & Hrx & _). fold o in Htx, Hrx.
  unfold tx_ok, rx_ok in *. destruct (stage o); intuition congruence.
Qed.
Lemma download_erases_key_witness :
  tx (@mrun _ _ (download_machine env_1 0x9000) fresh (take 2 boot_1)) = zeros 116.
Proof.
  destruct (download_erases_key env_1 0x9000 (take 2 boot_1)) as [H _].
  - lia.
  - apply env_1_ok.
  - repeat constructor; vm_compute; congruence.
  - apply H. vm_compute. discriminate.
Defined.

(** A finished owner stays as it is: once a run has failed or completed,
    no further call changes any part of the owner, so the first error and the
    stage it happened in are retained. *)
Theorem download_terminal_absorbing env at_ es es' :
  at_ <> 0 -> env_ok env -> Forall event_ok es ->
  let o := @mrun _ _ (download_machine env at_) fresh es in
  terminal (stage o) -> @mrun _ _ (download_machine env at_) fresh (es ++ es') = o.
Proof.
  intros Hat He Hes o Ht. rewrite mrun_app. fold o. apply run_terminal; [assumption|].
  intros Hf. pose proof (failed_error o (run_wf env at_ fresh es Hat He Hes fresh_wf) Hf). lia.
Qed.
Lemma download_terminal_absorbing_witness :
  first_error (@mrun _ _ (download_machine env_1 0x9000) fresh
    ([(heap_1, EvAbort (- EIO))] ++ [(heap_1, EvAbort (- EINVAL)); (heap_1, EvWritten 1 1)])) = - EIO.
Proof.
  rewrite (download_terminal_absorbing env_1 0x9000 [(heap_1, EvAbort (- EIO))]
    [(heap_1, EvAbort (- EINVAL)); (heap_1, EvWritten 1 1)]).
  - reflexivity.
  - lia.
  - apply env_1_ok.
  - repeat constructor.
  - left. reflexivity.
Defined.

(** In every run of a fresh owner the fragment ioctls that were performed
    are exactly fragments 0, 1, 2, ... in order without gap or repetition;
    when the run completes, all fragments of the metadata were submitted. *)
Theorem fragments_in_order env at_ es :
  at_ <> 0 -> env_ok env -> Forall event_ok es ->
  let o := @mrun _ _ (download_machine env at_) fresh es in
  exists k, 0 <= k /\ submissions env at_ fresh es = seqZ 0 k /\
    (stage o = B41_DOWNLOAD_ACKS_COMPLETE -> k = fragment_count o).
Proof.
  intros Hat He Hes o. destruct (run_submissions env at_ es Hat He Hes fresh fresh_wf) as (k & Hk & Hsub & Hend).
  fold o in Hend. exists k. split; [exact Hk|]. split; [exact Hsub|]. intros Hs.
  destruct Hend as [?|Hend]; [congruence|].
  destruct (run_wf env at_ fresh es Hat He Hes fresh_wf) as (_ & _ & Hp). fold o in Hp.
  unfold progress_ok in Hp. rewrite Hs in Hp. unfold phase_of at 1 in Hend. rewrite Hs in Hend.
  cbn in Hend. lia.
Qed.
Lemma fragments_in_order_witness :
  exists k, 0 <= k /\ submissions env_1 0x9000 fresh (boot_1 ++ peer_fragment heap_1 100 0xa000 0) = seqZ 0 k.
Proof.
  destruct (fragments_in_order env_1 0x9000 (boot_1 ++ peer_fragment heap_1 100 0xa000 0)) as (k & H1 & H2 & _).
  - lia.
  - apply env_1_ok.
  - repeat constructor; try (vm_compute; congruence);
      concrete_bytes.
  - exists k. split; assumption.
Defined.

(** C2. The download completes: if the inputs are disjoint and the frame can
    be built, the session object stays as it was and the deadline lies ahead,
    then a peer that takes the frame and acknowledges the bootstrap and each
    fragment in turn drives a fresh owner to [ACKS_COMPLETE] with every
    fragment of the metadata matched. *)
Theorem download_completes env at_ heap now data_at ses query deadline :
  at_ <> 0 -> at_ + offsetof_rx <> 0 -> env_ok env ->
  ack_at env <> 0 -> (forall n, 0 <= n <= 1024 ->
    Wire.overlaps (at_ + offsetof_rx) n (ack_at env) sizeof_mvcd_ack = false) ->
  data_at <> 0 -> (forall n, 0 <= n <= 1024 -> overlaps at_ sizeof_download data_at n = false) ->
  null query = false -> null ses = false -> heap (addr ses) = pointee ses ->
  null (fields (pointee ses)) = false -> null (info (pointee query)) = false ->
  begin_aliases at_ ses query = false -> now < deadline ->
  is_u32 (frag_num (pointee (info (pointee query)))) ->
  (b41_bootstrap_frame_build (to_nearest env) (private_at env) (zeros 106) ses query
    (Ptr (frame_at env) (zeros 116)) 116 (Ptr (size_at env) 0)).1.1.1 = 0 ->
  let n := frag_num (pointee (info (pointee query))) in
  let o := @mrun _ _ (download_machine env at_) fresh
    (peer_bootstrap heap now data_at ses query deadline ++ (seqZ 0 n ≫= peer_fragment heap now data_at)) in
  stage o = B41_DOWNLOAD_ACKS_COMPLETE /\ matched_fragments o = n.
Proof.
  intros Hat Hrx He Hack Hov Hdata Hapart Hq Hses Hheap Hf Hi Ha Hd Hn Hb n o.
  destruct (begin_ok env at_ now Hat ses query deadline) as
    (o1 & E1 & Hs1 & Hse & Hfd & Hsel & Hdl & Hln & Hto & Hrs & Hfc & _); try assumption.
  assert (Hwf1 : download_wf o1).
  { pose proof (begin_legal env at_ Hat fresh ses query now deadline He fresh_wf Hn) as [H _].
    now rewrite E1 in H. }
  assert (Ht1 : timely heap now o1)
    by (unfold null in Hses; repeat split; rewrite ?Hse, ?Hheap; lia || congruence).
  pose proof Hwf1 as (_ & _ & Hp1). unfold progress_ok in Hp1. rewrite Hs1 in Hp1.
  subst o. rewrite mrun_app. unfold peer_bootstrap. rewrite !mrun_cons. change (mrun ?x []) with x.
  cbn [mstep download_machine].
  change (call env at_ fresh (heap, EvBegin ses query now deadline)) with
    (b41_download_begin env (Ptr at_ fresh) ses query now deadline). rewrite E1. cbn [snd].
  change (call env at_ o1 (heap, EvWritten now 116)) with (b41_download_written heap (Ptr at_ o1) now 116).
  assert (Hwf2 : download_wf (b41_download_written heap (Ptr at_ o1) now 116).2) by now apply (written_legal at_ Hat).
  rewrite (written_all env) in Hwf2 |- * by (assumption || exact (conj Hack Hov)). cbn [snd] in *. set (o2 := set_stage _ _) in *.
  assert (Ht2 : timely heap now o2) by (destruct Ht1 as (? & ? & ? & ?); repeat split; cbn; assumption || lia).
  assert (Hwf3 : download_wf (call env at_ o2 (reply heap now data_at 49 [0; 0; 0; 0])).2).
  { apply (received_legal env at_ Hat heap o2 now); [assumption|vm_compute; split; congruence|].
    concrete_bytes. }
  assert (Ea : (call env at_ o2 (reply heap now data_at 49 [0; 0; 0; 0])).2 = acked now o2).
  { apply (reply_ok env at_ heap now Hat (conj Hack Hov) Hrx data_at Hdata Hapart);
      [assumption|assumption|exact Hrs|left; repeat split; reflexivity|
       concrete_bytes|vm_compute; split; congruence]. }
  rewrite Ea in Hwf3 |- *.
  change (acked now o2) with (set_stage (set_rx (set_last_now o2 now) (zeros 1024) 0) B41_DOWNLOAD_FRAGMENT_IOCTL) in *.
  set (o3 := set_stage _ B41_DOWNLOAD_FRAGMENT_IOCTL) in *.
  assert (Hm : matched_fragments o3 = 0) by (cbn; lia). assert (Hc : fragment_count o3 = n) by exact Hfc.
  assert (Hn0 : 0 <= n) by (unfold is_u32 in Hn; subst n; lia).
  destruct (fragment_rounds env at_ heap now Hat (conj Hack Hov) Hrx data_at Hdata Hapart (Z.to_nat n) o3)
    as [Hd1 Hd2]; [assumption|exact Ht2|reflexivity|rewrite Hm; lia|].
  rewrite Hm, Z2Nat.id in Hd1, Hd2 by lia. split; [exact Hd1|]. rewrite Hd2. exact Hc.
Qed.
Lemma download_completes_witness :
  stage (@mrun _ _ (download_machine env_1 0x9000) fresh
    (boot_1 ++ (seqZ 0 3 ≫= peer_fragment heap_1 100 0xa000))) = B41_DOWNLOAD_ACKS_COMPLETE.
Proof.
  apply (download_completes env_1 0x9000 heap_1 100 0xa000 session_1 query_1 200);
    try reflexivity; try (vm_compute; congruence); try apply env_1_ok;
    try (split; vm_compute; congruence);
    intros n Hn; unfold Wire.overlaps, overlaps, offsetof_rx, sizeof_download, env_1; cbn;
    unfold sizeof_mvcd_ack; lia.
Defined.
