(* ===== verification/Nominal.v ===== *)
(** * The native L1 policy: [dsp-download/live-inputs/selectors.c]

    The producers of the standalone GNSS owner: chip identity and navigation
    mode, the nominal bootstrap fields of the one supported clock route, the
    payload, the frame and the start of the download owner. The readers of an
    associated vendor image are in [VendorImage], [main] is in [Runner]. *)

From S2P Require Import Prelude Trace Binary754 Clock Fields Wire Bootstrap Download.
Open Scope Z_scope.
Open Scope io_scope.

(** ** Navigation mode *)

Record bootstrap_mode : Type := Mode { mode_75c990 : Z; setting_717cb7 : Z; flags_717cb8 : Z; clock_717cb3 : Z }.

(** The position of the first zero byte among the first [n]. *)
Fixpoint memchr0 (l : list Z) (n : nat) : option Z :=
  match n, l with
  | O, _ | _, [] => None
  | S n, b :: l => if b =? 0 then Some 0 else Z.succ <$> memchr0 l n
  end.
(** [inl] is an error status. *)
Definition secondary_feature (name : option (list Z)) (size fd : Z) : Z + Z :=
  match name with
  | None => inl (- ENODATA)
  | Some name =>
    if size =? 0 then inl (- ENODATA)
    else
    match memchr0 name (Z.to_nat (if size <? 662 then size else 662)) with
    | None => inl (if size <? 662 then - ENODATA else - EBADMSG)
    | Some n => inr (if (4 <? n) && negb (fd =? -1) then 1 else 0)
    end
  end.
Definition mode_unsupported (mode profile : Z) : bool :=
  (11 <? mode)
  || ((profile <=? 1) && negb (mode =? 2) && negb (mode =? 3) && negb (mode =? 6) && negb (mode =? 10) && negb (mode =? 11))
  || ((profile <=? 2) && (mode =? 2)) || ((profile <=? 3) && (mode =? 6)) || ((profile <? 5) && (mode =? 10)) || ((profile <=? 4) && (mode =? 11)).
(** Mode, setting and flags; [inl] is an error status. *)
Definition mode_switch (mode chip : Z) (name : option (list Z)) (size fd : Z) : Z + Z * Z * Z :=
  let fixed setting flags := inr (mode, setting, flags) in
  match mode with
  | 0 => fixed 3 3
  | 1 => fixed 6 0x31
  | 2 => fixed 7 0x33
  | 3 => fixed 5 1
  | 4 => fixed 0x17 0x30
  | 5 => fixed 3 2
  | 6 => fixed 0x17 0x3f
  | 7 => fixed 3 0x0d
  | 8 => fixed 3 0x0f
  | 9 => fixed 3 0x0c
  | 10 | 11 =>
    match secondary_feature name size fd with
    | inl e => inl e
    | inr feature =>
      if (mode =? 10) && (feature =? 0) && negb (chip =? 0xffff6789) then inr (6, 0x17, 0x3f)
      else if (mode =? 11) && (feature =? 0) && (chip =? 0xffff6789) then inr (mode, 0x17, 0x3e)
      else inr (mode, 0x27, if mode =? 10 then 0x7f else 0x7e)
    end
  | _ => inl (- EOPNOTSUPP)
  end.
Definition b41_bootstrap_mode_build (input chip profile : Z) (name : option (list Z)) (size fd : Z) (out : option bootstrap_mode) : Z * option bootstrap_mode :=
  match out with
  | None => (- EINVAL, out)
  | Some _ =>
    let mode := u8 input in
    let chosen := if mode_unsupported mode profile
      then inr (if profile =? 1 then 3 else 6, if profile =? 1 then 5 else 0x17, if profile =? 1 then 1 else 0x3f)
      else mode_switch mode chip name size fd in
    match chosen with
    | inl e => (e, out)
    | inr (mode, setting, flags) => (0, Some (Mode mode setting flags (u8 (Z.land (Z.shiftr flags 1) 2))))
    end
  end.

(** ** Identity and nominal policy *)

Record native_l1_identity : Type := Identity {
  hardware_chip : Z; gps_adie : Z; id_chip_30 : Z; capabilities : Z; navigation_mode_base : Z; id_profile_717cb6 : Z; secure_download_default : Z
}.
Definition secure_default (capabilities : Z) : Z := if 0x30f <? Z.land capabilities 0x0ffffff0 then 1 else 0.
Definition b41_native_l1_identity_select (chip adie : Z) (out : option native_l1_identity) : Z * option native_l1_identity :=
  match out with
  | None => (- EINVAL, out)
  | Some _ =>
    if negb (chip =? 0x6878) then (- EOPNOTSUPP, out)
    else
    let selected base := (0, Some (Identity chip adie 0xffff6878 0x370 base 5 (secure_default 0x370))) in
    if adie =? 0x6631 then selected 6
    else if (adie =? 0x6637) || (adie =? 0x6686) then selected 10
    else (- ENODEV, out)
  end.

Abbreviation B41_FIRST_SIZE := 0x70 (only parsing).
Abbreviation B41_FIRST_UNKNOWN := 0 (only parsing).
Record first_config : Type := First { bytes : list Z; provenance : list Z; missing_inputs : Z; unresolved_bytes : Z; xml_policy_missing : Z }.
Definition known (first : first_config) (start : Z) (count : nat) : bool :=
  forallb (fun i => negb (byte_at (provenance first) (start + Z.of_nat i) =? B41_FIRST_UNKNOWN)) (seq 0 count).

Record native_l1_nominal : Type := Nominal {
  inputs : bootstrap_inputs; n_fields : bootstrap_fields; n_selectors : bootstrap_selectors; navigation : bootstrap_mode
}.
(** The identity is the one the table selects. *)
Definition identity_matches (chip expected : native_l1_identity) : bool :=
  (id_chip_30 chip =? id_chip_30 expected) && (capabilities chip =? capabilities expected) && (navigation_mode_base chip =? navigation_mode_base expected)
  && (id_profile_717cb6 chip =? id_profile_717cb6 expected) && (secure_download_default chip =? secure_download_default expected).
(** [no_secondary] is the address of the static empty name. *)
Definition nominal_inputs (no_secondary : Z) (chip : native_l1_identity) (first : first_config) (nav : bootstrap_mode) : bootstrap_inputs :=
  BootstrapInputs (byte_at (bytes first) 0x13) (le32 (bytes first) 0x18) (le32 (bytes first) 0x1c) (byte_at (bytes first) 0x24) (id_chip_30 chip)
    (le32 (bytes first) 0x54) (clock_717cb3 nav) (id_profile_717cb6 chip) 0x27 (flags_717cb8 nav) 0 (Ptr no_secondary [0]) 1 (-1)
    (Ptr 0 (PrivateClock [] [])).
Definition nominal_mode (i : bootstrap_inputs) : Z := if context_profile_24 i =? 1 then u8 (Z.lor (clock_selector_717cb3 i) 4) else clock_selector_717cb3 i.
(** The stores into the zeroed fields. *)
Definition nominal_fields (i : bootstrap_inputs) (clock : clock_fields) : bootstrap_fields :=
  let baud := Bootstrap.write16 (Bootstrap.write16 (zeros 6) 2 (parameter_a clock)) 4 (parameter_b clock) in
  let synth := write_at (write_at (write_at (zeros 32) 0 (synthesis clock)) 28 [7]) 30 [1] in
  let tail := Bootstrap.write16 (zeros 12) 2 (context_chip_30 i) in
  let tail := write_at (write_at tail 4 [u8 (context_lna_54 i)]) 5 [10] in
  let tail := write_at (write_at (write_at tail 8 [1]) 10 [0x4e]) 11 [0x4f] in
  BootstrapFields baud synth tail (context_hz_18 i) (nominal_mode i) 0x27.
Definition b41_native_l1_nominal_build (rm : bool) (no_secondary : Z) (chip : option native_l1_identity) (first : option first_config) (clock11 clock30 : Z)
    (out : option native_l1_nominal) : Z * option native_l1_nominal :=
  match chip, first, out with
  | Some chip, Some first, Some _ =>
    if clock11 <? 0 then (clock11, out)
    else if clock30 <? 0 then (clock30, out)
    else if negb (clock11 =? 0x21) || negb (clock30 =? 0) then (- EOPNOTSUPP, out)
    else if negb (id_chip_30 chip =? 0xffff6878) || negb (id_profile_717cb6 chip =? 5) || (secure_download_default chip =? 0) then (- EOPNOTSUPP, out)
    else
    match b41_native_l1_identity_select (hardware_chip chip) (gps_adie chip) (Some chip) with
    | (0, Some expected) =>
      if negb (identity_matches chip expected) then (- ESTALE, out)
      else if negb (known first 0x13 1) || negb (known first 0x18 4) || negb (known first 0x1c 4) || negb (known first 0x24 1) || negb (known first 0x54 4)
      then (- ENODATA, out)
      else if negb (byte_at (bytes first) 0x13 =? 0xfe) || negb (le32 (bytes first) 0x18 =? 26000000) || negb (le32 (bytes first) 0x1c =? 115200)
      then (- EOPNOTSUPP, out)
      else
      match b41_bootstrap_mode_build 3 (id_chip_30 chip) (id_profile_717cb6 chip) None 0 (-1) (Some (Mode 0 0 0 0)) with
      | (0, Some nav) =>
        let i := nominal_inputs no_secondary chip first nav in
        match b41_mvcd_clock_synthesize rm (context_hz_18 i) (nominal_mode i) (Some (ClockFields 0 0 [])) with
        | (0, Some clock) => (0, Some (Nominal i (nominal_fields i clock) (Selectors (secure_download_default chip) 0) nav))
        | (e, _) => (e, out)
        end
      | (e, _) => (e, out)
      end
    | (e, _) => (e, out)
    end
  | _, _, _ => (- EINVAL, out)
  end.

(** ** Payload, frame, download *)

Definition sizeof_nominal : Z := 136.
Definition same_selectors (a b : bootstrap_selectors) : bool :=
  (secure_download_7178b8_33e a =? secure_download_7178b8_33e b) && (dsp_selector_717cb0 a =? dsp_selector_717cb0 b).
(** [&policy->inputs] is the address of the policy. *)
Definition validate (policy : ptr native_l1_nominal) (session : ptr bootstrap_session) (query : ptr bootstrap_query) : Z :=
  let s := pointee session in
  let q := pointee query in
  if null policy || null session || null query then B41_BOOTSTRAP_MISSING
  else if negb (addr (fields s) =? addr policy) || (gps0_fd s <? 0) || negb (query_session q =? addr session) || negb (query_gps0_fd q =? gps0_fd s)
    || negb (secure_download_7178b8_33e (selectors s) =? 1) || negb (dsp_selector_717cb0 (selectors s) =? 0)
    || negb (same_selectors (selectors s) (n_selectors (pointee policy))) || negb (same_selectors (query_selectors q) (n_selectors (pointee policy)))
  then B41_BOOTSTRAP_SESSION
  else if negb (command q =? 23) then B41_BOOTSTRAP_QUERY
  else if status q <? 0 then status q
  else if negb (status q =? 0) then B41_BOOTSTRAP_QUERY
  else if null (info q) || negb (bytes_returned q =? sizeof_boot_info) then B41_BOOTSTRAP_MISSING
  else
  let i := pointee (info q) in
  if (code_size i =? 0) || (UINT16_MAX <? code_size i) || (UINT16_MAX <? start_addr i) || (UINT16_MAX <? exec_addr i) || (UINT16_MAX <? cipher_key i)
     || (frag_num i =? 0) || (256 <? u32 (frag_num i - 1))
  then B41_BOOTSTRAP_METADATA
  else B41_BOOTSTRAP_OK.
Definition input_overlap (out size : Z) (policy : ptr native_l1_nominal) (session : ptr bootstrap_session) (query : ptr bootstrap_query) : bool :=
  Bootstrap.overlaps out size (addr policy) sizeof_nominal || Bootstrap.overlaps out size (addr session) sizeof_session
  || Bootstrap.overlaps out size (addr query) sizeof_query || Bootstrap.overlaps out size (addr (info (pointee query))) sizeof_boot_info.
(** The words of the 26 MHz row. *)
Definition profile_row : list Z := [40; 255; 128; 71; 100; 80; 216; 80; 187; 3; 60; 111; 137; 136; 2; 251].
Fixpoint row_stores (p : list Z) (at_ : Z) (words : list Z) : list Z :=
  match words with [] => p | w :: words => row_stores (Bootstrap.write16 p at_ w) (at_ + 2) words end.
Definition assemble (policy : native_l1_nominal) (i : boot_info) : list Z :=
  let p := Bootstrap.write16 (zeros B41_MVCD_BOOTSTRAP_SIZE) 0 0x1a in
  let p := write_at p 4 (baud_and_parameters (n_fields policy)) in
  let p := Bootstrap.write16 p 14 (code_size i) in
  let p := Bootstrap.write16 p 16 (start_addr i) in
  let p := Bootstrap.write16 p 18 (exec_addr i) in
  let p := Bootstrap.write16 p 20 (cipher_key i) in
  let p := Bootstrap.write16 p 22 (frag_num i) in
  let p := write_at p 28 [5] in
  let p := write_at p 30 (synthesis_and_profile (n_fields policy)) in
  write_at (row_stores p 62 profile_row) 94 (board_tail (n_fields policy)).
(** Status, the caller's payload and the private buffer afterwards. *)
Definition b41_native_l1_nominal_payload_build (stack : list Z) (policy : ptr native_l1_nominal) (session : ptr bootstrap_session) (query : ptr bootstrap_query)
    (payload : ptr (list Z)) (capacity : Z) : Z * list Z * list Z :=
  let keep e := (e, pointee payload, stack) in
  if null payload then keep B41_BOOTSTRAP_ARGUMENT
  else if capacity <? B41_MVCD_BOOTSTRAP_SIZE then keep B41_BOOTSTRAP_CAPACITY
  else
  match validate policy session query with
  | 0 =>
    if input_overlap (addr payload) B41_MVCD_BOOTSTRAP_SIZE policy session query then keep B41_BOOTSTRAP_OVERLAP
    else
    let private := assemble (pointee policy) (pointee (info (pointee query))) in
    (0, write_at (pointee payload) 0 private, forget private B41_MVCD_BOOTSTRAP_SIZE)
  | e => keep e
  end.
Definition b41_native_l1_nominal_frame_build (local : Z) (stack : list Z) (policy : ptr native_l1_nominal) (session : ptr bootstrap_session)
    (query : ptr bootstrap_query) (frame : ptr (list Z)) (capacity : Z) (written : ptr Z) : Z * list Z * Z * list Z :=
  let keep e := (e, pointee frame, pointee written, stack) in
  if null frame || null written then keep B41_BOOTSTRAP_ARGUMENT
  else if capacity <? B41_MVCD_BOOTSTRAP_FRAME_SIZE then keep B41_BOOTSTRAP_CAPACITY
  else
  match validate policy session query with
  | 0 =>
    if input_overlap (addr frame) B41_MVCD_BOOTSTRAP_FRAME_SIZE policy session query || input_overlap (addr written) sizeof_size_t policy session query
       || Bootstrap.overlaps (addr frame) B41_MVCD_BOOTSTRAP_FRAME_SIZE (addr written) sizeof_size_t
    then keep B41_BOOTSTRAP_OVERLAP
    else
    let private := assemble (pointee policy) (pointee (info (pointee query))) in
    let '(e, f, w) := b41_mvcd_encode_bootstrap (Ptr local private) B41_MVCD_BOOTSTRAP_SIZE frame capacity written in
    (e, f, w, forget private B41_MVCD_BOOTSTRAP_SIZE)
  | e => keep e
  end.
Definition b41_native_l1_download_begin (env : Download.environment) (owner : ptr download) (policy : ptr native_l1_nominal) (ses : ptr bootstrap_session)
    (query : ptr bootstrap_query) (now_ns deadline : Z) : Z * download :=
  let o := pointee owner in
  if null owner || null policy || null ses || null query || null (info (pointee query)) then (- EINVAL, o)
  else if negb (is_stage (stage o) B41_DOWNLOAD_NEW) then (if is_stage (stage o) B41_DOWNLOAD_FAILED then first_error o else - EALREADY, o)
  else if input_overlap (addr owner) sizeof_download policy ses query then (- EINVAL, o)
  else if deadline <=? now_ns then b41_download_abort owner (- ETIMEDOUT)
  else
  match b41_native_l1_nominal_frame_build (private_at env) (zeros 106) policy ses query (Ptr (frame_at env) (zeros 116)) 116 (Ptr (size_at env) 0) with
  | (0, frame, size, _) =>
    (0, Download B41_DOWNLOAD_BOOTSTRAP_TX (failure_stage o) (first_error o) (addr ses) (gps0_fd (pointee ses)) (selectors (pointee ses))
          (frag_num (pointee (info (pointee query)))) 1 (matched_fragments o) deadline now_ns
          (write_at (tx o) 0 (slice frame 0 size)) size (tx_offset o) (rx o) (rx_size o))
  | (e, _, _, _) => b41_download_abort owner e
  end.

(** ** Reference descriptions *)

(** The inputs the native owner supports: a table identity, the physical
    26 MHz COTMS clock route, known context bytes, and round-to-nearest. *)
Record nominal_supported (rm : bool) (chip : native_l1_identity) (first : first_config) (clock11 clock30 : Z) : Prop := Supported {
  ns_rounding : rm = true;
  ns_clock : clock11 = 33 /\ clock30 = 0;
  ns_identity : exists base, (gps_adie chip, base) ∈ [(0x6631, 6); (0x6637, 10); (0x6686, 10)] /\
    chip = Identity 0x6878 (gps_adie chip) 0xffff6878 0x370 base 5 1;
  ns_known i : i ∈ [0x13; 0x18; 0x19; 0x1a; 0x1b; 0x1c; 0x1d; 0x1e; 0x1f; 0x24; 0x54; 0x55; 0x56; 0x57] -> byte_at (provenance first) i <> 0;
  ns_values : byte_at (bytes first) 0x13 = 0xfe /\ le32 (bytes first) 0x18 = 26000000 /\ le32 (bytes first) 0x1c = 115200
}.
(** The same inputs with the private clock records of a device. *)
Definition with_private (i : bootstrap_inputs) (pc : ptr private_clock_t) : bootstrap_inputs :=
  BootstrapInputs (context_mode_13 i) (context_hz_18 i) (context_baud_1c i) (context_profile_24 i) (context_chip_30 i) (context_lna_54 i)
    (clock_selector_717cb3 i) (profile_selector_717cb6 i) (Fields.setting_717cb7 i) (feature_flags_717cb8 i) (word_7178b0 i) (feature_name i)
    (feature_name_size i) (secondary_fd_6edeec i) pc.

Lemma known_spec first start count : known first start count = true <->
  forall i, start <= i < start + Z.of_nat count -> byte_at (provenance first) i <> 0.
Proof.
  unfold known. rewrite forallb_forall. split.
  - intros H i Hi. specialize (H (Z.to_nat (i - start))). rewrite in_seq, negb_true_iff, Z.eqb_neq in H.
    replace (start + Z.of_nat (Z.to_nat (i - start))) with i in H by lia. apply H. lia.
  - intros H n Hn. rewrite in_seq in Hn. rewrite negb_true_iff, Z.eqb_neq. apply H. lia.
Qed.
Lemma identity_select_cases chip adie x r : b41_native_l1_identity_select chip adie (Some x) = r ->
  (exists base, chip = 0x6878 /\ (adie, base) ∈ [(0x6631, 6); (0x6637, 10); (0x6686, 10)] /\ r = (0, Some (Identity chip adie 0xffff6878 0x370 base 5 1))) \/
  (r.1 < 0 /\ r.2 = Some x /\ (chip = 0x6878 -> adie <> 0x6631 /\ adie <> 0x6637 /\ adie <> 0x6686)).
Proof.
  intros <-. unfold b41_native_l1_identity_select. destruct (Z.eqb_spec chip 0x6878) as [->|]; cbn [negb]; [|right; cbn; auto with lia].
  change (secure_default 880) with 1. destruct (Z.eqb_spec adie 0x6631) as [->|]; [left; exists 6; repeat split; set_solver|].
  destruct (Z.eqb_spec adie 0x6637) as [->|]; [left; exists 10; repeat split; set_solver|].
  destruct (Z.eqb_spec adie 0x6686) as [->|]; [left; exists 10; repeat split; set_solver|]. right. cbn. auto with lia.
Qed.
(** The two clock modes of the 26 MHz route. *)
Lemma clock_26mhz mode : mode = 0 \/ mode = 4 -> exists c, b41_mvcd_clock_synthesize true 26000000 mode (Some (ClockFields 0 0 [])) = (0, Some c) /\
  len (synthesis c) = 28.
Proof. intros [-> | ->]; eexists; split; vm_compute; reflexivity. Qed.
Lemma nominal_mode_cases ns chip first nav : clock_717cb3 nav = 0 ->
  nominal_mode (nominal_inputs ns chip first nav) = if byte_at (bytes first) 0x24 =? 1 then 4 else 0.
Proof. intros H. unfold nominal_mode, nominal_inputs. cbn [context_profile_24 clock_selector_717cb3]. rewrite H. now destruct (_ =? 1). Qed.

(** The policy of supported inputs. *)
Definition reference_policy (ns : Z) (chip : native_l1_identity) (first : first_config) : native_l1_nominal :=
  let nav := Mode 3 5 1 0 in
  let i := nominal_inputs ns chip first nav in
  Nominal i (nominal_fields i (default (ClockFields 0 0 []) (b41_mvcd_clock_synthesize true 26000000 (nominal_mode i) (Some (ClockFields 0 0 []))).2))
    (Selectors 1 0) nav.
Lemma nominal_known first : known first 0x13 1 && known first 0x18 4 && known first 0x1c 4 && known first 0x24 1 && known first 0x54 4 = true <->
  forall i, i ∈ [0x13; 0x18; 0x19; 0x1a; 0x1b; 0x1c; 0x1d; 0x1e; 0x1f; 0x24; 0x54; 0x55; 0x56; 0x57] -> byte_at (provenance first) i <> 0.
Proof.
  rewrite !andb_true_iff, !known_spec. split.
  - intros ((((A & B) & C) & D) & E) i Hi. rewrite !elem_of_cons, elem_of_nil in Hi.
    destruct (decide (i = 0x13)); [apply A; lia|]. destruct (decide (i = 0x24)); [apply D; lia|].
    destruct (decide (i < 0x1c)); [apply B; lia|]. destruct (decide (i < 0x24)); [apply C; lia|]. apply E. lia.
  - intros H. repeat split; intros i Hi; apply H; rewrite !elem_of_cons; lia.
Qed.
Lemma nominal_build_cases rm ns chip first c11 c30 out r :
  b41_native_l1_nominal_build rm ns (Some chip) (Some first) c11 c30 (Some out) = r ->
  (nominal_supported rm chip first c11 c30 /\ r = (0, Some (reference_policy ns chip first))) \/
  (~ nominal_supported rm chip first c11 c30 /\ r.1 < 0 /\ r.2 = Some out).
Proof.
  intros <-. unfold b41_native_l1_nominal_build.
  assert (Hno : forall e, e < 0 -> ~ nominal_supported rm chip first c11 c30 -> 
    (nominal_supported rm chip first c11 c30 /\ (e, Some out) = (0, Some (reference_policy ns chip first))) \/
    (~ nominal_supported rm chip first c11 c30 /\ (e, Some out).1 < 0 /\ (e, Some out).2 = Some out)) by (intros; right; auto).
  destruct (Z.ltb_spec c11 0); [apply Hno; [lia|intros [_ [? _] _ _ _]; lia]|].
  destruct (Z.ltb_spec c30 0); [apply Hno; [lia|intros [_ [_ ?] _ _ _]; lia]|].
  destruct (negb (c11 =? 33) || negb (c30 =? 0)) eqn:G1; [apply Hno; [lia|intros [_ [? ?] _ _ _]; lia]|].
  destruct (negb (id_chip_30 chip =? 0xffff6878) || negb (id_profile_717cb6 chip =? 5) || (secure_download_default chip =? 0)) eqn:G2;
    [apply Hno; [lia|intros [_ _ (b & _ & Hi) _ _]; rewrite Hi in G2; discriminate G2]|].
  destruct (b41_native_l1_identity_select (hardware_chip chip) (gps_adie chip) (Some chip)) as [e x] eqn:Es.
  destruct (identity_select_cases _ _ _ _ Es) as [(base & Hc & Ha & [= -> ->])|(He & _ & Hx)]; cbn [fst snd] in *.
  2:{ destruct e as [|e|e]; [lia|lia|]. apply (Hno (Z.neg e)); [lia|]. intros [_ _ (b & Hb & Hi) _ _].
      assert (hardware_chip chip = 0x6878) as Hh by (rewrite Hi; reflexivity). specialize (Hx Hh).
      rewrite !elem_of_cons, elem_of_nil in Hb. destruct Hb as [[= ? ?]|[[= ? ?]|[[= ? ?]|[]]]]; lia. }
  destruct (identity_matches chip _) eqn:Em; cbn [negb].
  2:{ apply (Hno (- ESTALE)); [lia|]. intros [_ _ (b & Hb & Hi) _ _]. assert (b = base) as ->.
      { rewrite !elem_of_cons, elem_of_nil in *. destruct Hb as [[= ? ->]|[[= ? ->]|[[= ? ->]|[]]]], Ha as [[= ? ->]|[[= ? ->]|[[= ? ->]|[]]]]; congruence || reflexivity. }
      rewrite Hi in Em. unfold identity_matches in Em. cbn in Em. rewrite Z.eqb_refl in Em. discriminate Em. }
  assert (Hid : chip = Identity 0x6878 (gps_adie chip) 0xffff6878 0x370 base 5 1).
  { unfold identity_matches in Em. destruct chip as [h a c k b p d]. cbn in *. subst h. f_equal; lia. }
  destruct (negb (known first 0x13 1) || _ || _ || _ || _) eqn:G3.
  { apply (Hno (- ENODATA)); [lia|]. intros [_ _ _ Hk _]. apply nominal_known in Hk. rewrite !andb_true_iff in Hk. destruct Hk as ((((A & B) & C) & D) & E).
    rewrite A, B, C, D, E in G3. discriminate G3. }
  assert (Hk : forall i, i ∈ [0x13; 0x18; 0x19; 0x1a; 0x1b; 0x1c; 0x1d; 0x1e; 0x1f; 0x24; 0x54; 0x55; 0x56; 0x57] -> byte_at (provenance first) i <> 0).
  { apply nominal_known. rewrite !orb_false_iff, !negb_false_iff in G3. destruct G3 as ((((A & B) & C) & D) & E). now rewrite A, B, C, D, E. }
  destruct (negb (byte_at (bytes first) 0x13 =? 0xfe) || _ || _) eqn:G4; [apply (Hno (- EOPNOTSUPP)); [lia|intros [_ _ _ _ (? & ? & ?)]; lia]|].
  assert (Hv : byte_at (bytes first) 0x13 = 0xfe /\ le32 (bytes first) 0x18 = 26000000 /\ le32 (bytes first) 0x1c = 115200) by lia.
  replace (b41_bootstrap_mode_build 3 (id_chip_30 chip) (id_profile_717cb6 chip) None 0 (-1) (Some (Mode 0 0 0 0)))
    with (0, Some (Mode 3 5 1 0)) by (rewrite Hid; reflexivity).
  cbv iota zeta. set (i := nominal_inputs ns chip first (Mode 3 5 1 0)).
  assert (Ehz : context_hz_18 i = 26000000) by (unfold i, nominal_inputs; cbn [context_hz_18]; apply Hv). rewrite Ehz.
  assert (Hm : nominal_mode i = 0 \/ nominal_mode i = 4) by (unfold i; rewrite nominal_mode_cases by reflexivity; destruct (_ =? 1); auto).
  destruct rm.
  - left. destruct (clock_26mhz _ Hm) as (c & Ec & _). rewrite Ec. split; [split; auto; try lia; exists base; auto|].
    unfold reference_policy. fold i. rewrite Ec. cbn [snd default]. rewrite Hid at 1. reflexivity.
  - right. split; [intros [? _ _ _ _]; discriminate|]. destruct Hm as [-> | ->]; vm_compute; auto.
Qed.

(** The nominal fields are those of the generic producer. *)
Lemma nominal_fields_generic ns chip first pc out : ns <> 0 -> nominal_supported true chip first 33 0 -> null pc = false -> null out = false ->
  private_word (frequency_1670 (pointee pc)) = None -> private_word (adjustment_1668 (pointee pc)) = None ->
  let p := reference_policy ns chip first in
  b41_mvcd_bootstrap_fields_build true (Ptr ns (with_private (inputs p) pc)) out = (0, n_fields p).
Proof.
  intros Hns [_ _ (base & _ & Hid) _ (V1 & V2 & V3)] Hpc Hout Hf Ha p. unfold b41_mvcd_bootstrap_fields_build.
  set (i := nominal_inputs ns chip first (Mode 3 5 1 0)). change (inputs p) with i.
  assert (Ei : i = BootstrapInputs 254 26000000 115200 (byte_at (bytes first) 0x24) 0xffff6878 (le32 (bytes first) 0x54) 0 5 0x27 1 0 (Ptr ns [0]) 1 (-1)
    (Ptr 0 (PrivateClock [] []))) by (unfold i, nominal_inputs; rewrite V1, V2, V3, Hid; reflexivity).
  change (null (Ptr ns (with_private i pc))) with (ns =? 0). replace (ns =? 0) with false by lia. rewrite Hout. cbn [orb pointee].
  change (private_clock (with_private i pc)) with pc. rewrite Hpc, andb_false_r.
  assert (Ep : feature_predicate (with_private i pc) = (0, 0)).
  { unfold feature_predicate. rewrite Ei. unfold null. cbn [with_private feature_name addr]. replace (ns =? 0) with false by lia. reflexivity. }
  rewrite Ep. cbv iota.
  assert (Em : field_clock_mode (with_private i pc) = nominal_mode i).
  { unfold field_clock_mode, nominal_mode. rewrite Ei. cbn. now destruct (_ =? 1). }
  assert (Ehz : effective_frequency (with_private i pc) = 26000000).
  { unfold effective_frequency. rewrite Ei. cbn [with_private context_mode_13 private_clock context_hz_18]. now rewrite Hf, Ha. }
  rewrite Em, Ehz. unfold p, reference_policy. fold i. cbn [n_fields].
  assert (Hm : nominal_mode i = 0 \/ nominal_mode i = 4) by (unfold i; rewrite nominal_mode_cases by reflexivity; destruct (_ =? 1); auto).
  destruct (clock_26mhz _ Hm) as (c & Ec & Hl). rewrite Ec. cbn [snd default]. cbv iota. unfold nominal_fields.
  destruct c as [pa pb syn]. cbn [synthesis parameter_a parameter_b] in *. unfold len in Hl. apply (Nat2Z.inj _ 28) in Hl. clear Ec.
  rewrite Ei. cbn [with_private]. f_equal. f_equal; try reflexivity.
  do 28 (destruct syn as [|? syn]; [discriminate Hl|]). destruct syn; [reflexivity|discriminate Hl].
Qed.

(** ** Payload and frame *)

(** A policy whose field groups have their sizes, as [b41_native_l1_nominal_build] leaves it. *)
Definition policy_shape (p : native_l1_nominal) : Prop :=
  len (baud_and_parameters (n_fields p)) = 6 /\ len (synthesis_and_profile (n_fields p)) = 32 /\ len (board_tail (n_fields p)) = 12.
Lemma reference_policy_shape ns chip first : policy_shape (reference_policy ns chip first).
Proof.
  unfold reference_policy. set (i := nominal_inputs ns chip first (Mode 3 5 1 0)).
  assert (Hm : nominal_mode i = 0 \/ nominal_mode i = 4) by (unfold i; rewrite nominal_mode_cases by reflexivity; destruct (_ =? 1); auto).
  destruct (clock_26mhz _ Hm) as (c & -> & Hl). cbn [snd default]. unfold policy_shape, nominal_fields, Bootstrap.write16.
  cbn [n_fields baud_and_parameters synthesis_and_profile board_tail].
  destruct c as [pa pb syn]. cbn [synthesis parameter_a parameter_b] in *. unfold len in Hl. apply (Nat2Z.inj _ 28) in Hl.
  do 28 (destruct syn as [|? syn]; [discriminate Hl|]). destruct syn; [repeat split|discriminate Hl].
Qed.
Lemma assemble_reference policy i : policy_shape policy -> assemble policy i = reference_payload i (n_fields policy) 26000000 /\ len (assemble policy i) = 106.
Proof.
  intros (H1 & H2 & H3). destruct policy as [inp [a b c hz md set] sel nav]. unfold assemble, reference_payload in *.
  cbn [n_fields baud_and_parameters synthesis_and_profile board_tail] in *. unfold len in H1, H2, H3.
  apply (Nat2Z.inj _ 6) in H1. apply (Nat2Z.inj _ 32) in H2. apply (Nat2Z.inj _ 12) in H3. spell a. spell b. spell c. split; reflexivity.
Qed.

(** What a session and a query snapshot must satisfy to be used with the policy. *)
Record nominal_snapshot_ok (policy : ptr native_l1_nominal) (session : ptr bootstrap_session) (query : ptr bootstrap_query) : Prop := {
  no_present : null policy = false /\ null session = false /\ null query = false /\ null (info (pointee query)) = false;
  no_bound : addr (fields (pointee session)) = addr policy /\ query_session (pointee query) = addr session /\
    query_gps0_fd (pointee query) = gps0_fd (pointee session) /\ 0 <= gps0_fd (pointee session);
  no_route : selectors (pointee session) = Selectors 1 0 /\ n_selectors (pointee policy) = Selectors 1 0 /\ query_selectors (pointee query) = Selectors 1 0;
  no_result : command (pointee query) = 23 /\ status (pointee query) = 0 /\ bytes_returned (pointee query) = 20;
  no_info : let i := pointee (info (pointee query)) in
    0 < code_size i <= 65535 /\ start_addr i <= 65535 /\ exec_addr i <= 65535 /\ cipher_key i <= 65535 /\ 1 <= frag_num i <= 257
}.
Lemma same_selectors_spec a b : same_selectors a b = true <-> a = b.
Proof. destruct a as [s d], b as [s' d']. unfold same_selectors. cbn. rewrite andb_true_iff, !Z.eqb_eq. split; [intros [-> ->]; reflexivity|intros [= -> ->]; auto]. Qed.
Lemma nominal_validate_ok policy session query : is_u32 (frag_num (pointee (info (pointee query)))) -> is_u32 (code_size (pointee (info (pointee query)))) ->
  validate policy session query = 0 <-> nominal_snapshot_ok policy session query.
Proof.
  intros Hf Hc. unfold validate, is_u32 in *. split.
  - destruct (null policy || null session || null query) eqn:G1; [discriminate|].
    destruct (negb (addr _ =? _) || _ || _ || _ || _ || _ || _ || _) eqn:G2; [discriminate|].
    destruct (negb (command _ =? 23)) eqn:G3; [discriminate|]. destruct (status _ <? 0) eqn:G4; [intros E; lia|].
    destruct (negb (status _ =? 0)) eqn:G5; [discriminate|]. destruct (null (info _) || _) eqn:G6; [discriminate|]. cbv zeta.
    destruct (_ || (256 <? _)) eqn:G7; [discriminate|]. intros _.
    assert (A : same_selectors (selectors (pointee session)) (n_selectors (pointee policy)) = true) by lia.
    assert (B : same_selectors (query_selectors (pointee query)) (n_selectors (pointee policy)) = true) by lia.
    assert (C : secure_download_7178b8_33e (selectors (pointee session)) = 1 /\ dsp_selector_717cb0 (selectors (pointee session)) = 0) by lia.
    apply same_selectors_spec in A, B. destruct (selectors (pointee session)) as [s d] eqn:Es. cbn in C. destruct C as [-> ->]. rewrite <- A in B.
    unfold u32, sizeof_boot_info in *. split; auto; repeat split; try lia; try congruence; dlia.
  - intros [(A1 & A2 & A3 & A4) (B1 & B2 & B3 & B4) (C1 & C2 & C3) (D1 & D2 & D3) E]. cbv zeta in E. rewrite A1, A2, A3, A4, B1, B2, B3, C1, C2, C3, D1, D2, D3, !Z.eqb_refl.
    cbn [orb negb secure_download_7178b8_33e dsp_selector_717cb0]. replace (gps0_fd (pointee session) <? 0) with false by lia. cbn.
    destruct (_ || (256 <? _)) eqn:G7; [|reflexivity]. rewrite u32_id in G7 by (unfold is_u32; lia). lia.
Qed.
Lemma nominal_fragments policy session query : is_u32 (frag_num (pointee (info (pointee query)))) -> validate policy session query = 0 ->
  1 <= frag_num (pointee (info (pointee query))) <= 257.
Proof.
  unfold validate. destruct (null policy || _ || _); [discriminate|]. destruct (negb (addr _ =? _) || _ || _ || _ || _ || _ || _ || _); [discriminate|].
  destruct (negb (command _ =? 23)); [discriminate|]. destruct (status _ <? 0) eqn:G; [intros _ E; lia|]. destruct (negb (status _ =? 0)); [discriminate|].
  destruct (null (info _) || _); [discriminate|]. cbv zeta. set (i := pointee (info (pointee query))). clearbody i. clear G. intros Hf.
  destruct (_ || (frag_num i =? 0)) eqn:G1; [discriminate|]. destruct (Z.eqb_spec (frag_num i) 0); [lia|]. clear G1. unfold is_u32 in Hf.
  rewrite u32_id by (unfold is_u32; lia). destruct (Z.ltb_spec 256 (frag_num i - 1)); [discriminate|]. lia.
Qed.

(** The frame: exactly when the snapshot is valid and the outputs are disjoint from everything, it is the reference frame. *)
Lemma nominal_frame_cases local stack policy session query frame capacity written st f' w' stack' :
  local <> 0 -> Bootstrap.overlaps local 106 (addr frame) 116 = false -> Bootstrap.overlaps (addr written) 8 local 106 = false -> policy_shape (pointee policy) ->
  b41_native_l1_nominal_frame_build local stack policy session query frame capacity written = (st, f', w', stack') ->
  (st = 0 <-> null frame = false /\ null written = false /\ 116 <= capacity /\ validate policy session query = 0 /\
     input_overlap (addr frame) 116 policy session query = false /\ input_overlap (addr written) 8 policy session query = false /\
     Bootstrap.overlaps (addr frame) 116 (addr written) 8 = false) /\
  (st = 0 -> f' = mvcd_frame 8 0 (reference_payload (pointee (info (pointee query))) (n_fields (pointee policy)) 26000000) ++ skipn 116 (pointee frame) /\ w' = 116) /\
  (st <> 0 -> f' = pointee frame /\ w' = pointee written) /\ (stack' = stack \/ stack' = zeros 106).
Proof.
  intros Hloc Ho1 Ho2 Hp H. unfold b41_native_l1_nominal_frame_build, sizeof_size_t in H.
  destruct (null frame) eqn:Hf; [injection H as <- <- <- <-; repeat split; try easy; auto|].
  destruct (null written) eqn:Hw; [injection H as <- <- <- <-; repeat split; try easy; auto|]. cbn [orb] in H.
  destruct (Z.ltb_spec capacity 116); [injection H as <- <- <- <-; repeat split; try easy; try lia; auto|].
  destruct (validate policy session query) eqn:Ev; [|injection H as <- <- <- <-; repeat split; try easy; auto..].
  destruct (input_overlap (addr frame) _ _ _ _); [injection H as <- <- <- <-; repeat split; try easy; auto|].
  destruct (input_overlap (addr written) _ _ _ _); [injection H as <- <- <- <-; repeat split; try easy; auto|].
  destruct (Bootstrap.overlaps (addr frame) _ _ _) eqn:Ho3; [injection H as <- <- <- <-; repeat split; try easy; auto|].
  cbn [orb] in H. destruct (assemble_reference (pointee policy) (pointee (info (pointee query))) Hp) as [Ea Hl].
  destruct (reference_payload_head (pointee (info (pointee query))) (n_fields (pointee policy)) 26000000) as [Hh1 Hh2]. rewrite <- Ea in Hh1, Hh2 |- *.
  clear Ea. revert H Hl Hh1 Hh2. generalize (assemble (pointee policy) (pointee (info (pointee query)))). intros img H Hl Hh1 Hh2.
  unfold null in *. rewrite Bootstrap.overlaps_sym in Ho3 by lia.
  rewrite encode_bootstrap_ok in H; cbn [addr pointee]; unfold null, sizeof_size_t; cbn [addr]; rewrite ?Bootstrap.overlaps_wire; try assumption; try lia.
  cbn [pointee] in H. rewrite (forget_all img 106 Hl) in H. injection H as <- <- <- <-.
  split; [split; auto 8|]. split; [auto|]. split; [intros X; now contradiction X|auto].
Qed.
(** Beginning a download is a step of the owner's protocol, and stores the reference frame. *)
Definition nominal_frame (policy : native_l1_nominal) (i : boot_info) : list Z := mvcd_frame 8 0 (reference_payload i (n_fields policy) 26000000).
Lemma nominal_begin_cases env at_ o policy ses query now deadline st o' : at_ <> 0 -> env_ok env -> download_wf o -> policy_shape (pointee policy) ->
  is_u32 (frag_num (pointee (info (pointee query)))) ->
  b41_native_l1_download_begin env (Ptr at_ o) policy ses query now deadline = (st, o') ->
  legal o (EvBegin ses query now deadline) o' /\
  (stage o = B41_DOWNLOAD_NEW -> (st <> 0 /\ (o' = o \/ stage o' = B41_DOWNLOAD_FAILED)) \/
    (st = 0 /\ stage o' = B41_DOWNLOAD_BOOTSTRAP_TX /\ now < deadline /\ validate policy ses query = 0 /\
     tx o' = nominal_frame (pointee policy) (pointee (info (pointee query))) /\ tx_offset o' = 0 /\ rx_size o' = 0 /\
     session o' = addr ses /\ dl_gps0_fd o' = gps0_fd (pointee ses) /\ dl_selectors o' = selectors (pointee ses) /\
     deadline_ns o' = deadline /\ last_now_ns o' = now /\ fragment_count o' = frag_num (pointee (info (pointee query))))).
Proof.
  intros Hat He Hwf Hp Hf H. unfold b41_native_l1_download_begin in H. change (null (Ptr at_ o)) with (at_ =? 0) in H.
  replace (at_ =? 0) with false in H by lia. cbn [orb pointee addr] in H.
  assert (Hab : forall e, stage o = B41_DOWNLOAD_NEW -> b41_download_abort (Ptr at_ o) e = (st, o') -> st <> 0 /\ (o' = o \/ stage o' = B41_DOWNLOAD_FAILED)).
  { intros e Hs E. destruct (abort_active at_ Hat o e Hwf) as (o2 & E2 & Hw2 & Hs2 & _); [unfold terminal; rewrite Hs; intros [|]; discriminate|].
    rewrite E in E2. injection E2 as -> ->. pose proof (failed_error o2 Hw2 Hs2). split; [lia|auto]. }
  assert (Hal : forall e, b41_download_abort (Ptr at_ o) e = (st, o') -> legal o (EvBegin ses query now deadline) o').
  { intros e E. pose proof (legal_abort at_ Hat o (EvBegin ses query now deadline) e Hwf) as X. now rewrite E in X. }
  destruct (null policy || _ || _ || _); [injection H as <- <-; split; [now apply legal_same|intros E; left; split; [lia|auto]]|].
  destruct (is_stage (stage o) B41_DOWNLOAD_NEW) eqn:Es; cbn [negb] in H.
  2:{ injection H as <- <-. split; [now apply legal_same|]. intros E. rewrite E in Es. discriminate Es. }
  apply is_stage_true in Es.
  destruct (input_overlap _ _ _ _ _); [injection H as <- <-; split; [now apply legal_same|intros E; left; split; [lia|auto]]|].
  destruct (Z.leb_spec deadline now); [split; [eapply Hal, H|intros E; left; eapply Hab; eassumption]|].
  destruct (b41_native_l1_nominal_frame_build _ _ _ _ _ _ _ _) as [[[e frame] size] stack] eqn:Ef.
  pose proof He as (H1 & H2 & H3). pose proof Ef as Ef'. apply nominal_frame_cases in Ef' as (Hst & Hok & _ & _); [|assumption..].
  destruct e; [|split; [eapply Hal, H|intros E; left; eapply Hab; eassumption]..].
  destruct (proj1 Hst eq_refl) as (_ & _ & _ & Hv & _). destruct (Hok eq_refl) as [Hfr ->]. change (skipn 116 (pointee _)) with (@nil Z) in Hfr. rewrite app_nil_r in Hfr.
  assert (Hlen : len frame = 116).
  { rewrite Hfr, len_mvcd_frame. destruct (assemble_reference (pointee policy) (pointee (info (pointee query))) Hp) as [<- ->]. reflexivity. }
  assert (Hfrag : 1 <= frag_num (pointee (info (pointee query))) <= 257).
  { exact (nominal_fragments policy ses query Hf Hv). }
  assert (Htx : write_at (tx o) 0 (slice frame 0 116) = frame).
  { destruct Hwf as (Htx & _). unfold tx_ok in Htx. rewrite Es in Htx. destruct Htx as [-> _].
    replace (slice frame 0 116) with frame by (rewrite <- Hlen; symmetry; apply slice_all).
    rewrite (write_at_app [] (zeros 116)) by reflexivity. unfold len in Hlen. replace (length frame) with 116%nat by lia.
    change (drop 116 (zeros 116)) with (@nil Z). now rewrite app_nil_r. }
  injection H as <- <-. rewrite Htx. unfold legal, download_wf, tx_ok, rx_ok, progress_ok, phase_of in *. cbn. rewrite Es in *.
  destruct Hwf as ((_ & Hts & Hto) & (Hrx & Hrs) & Hpr). rewrite Hto. split.
  - repeat split; try tauto; try lia; try exact Hlen. now apply ps_begin with ses query now deadline.
  - intros _. right. unfold nominal_frame. repeat split; try assumption; tauto.
Qed.

(** ** Navigation mode *)

(** The produced mode is a fixed point: building it again with the same chip,
    profile and secondary state changes nothing. *)
Lemma secondary_feature_error name size fd e : secondary_feature name size fd = inl e -> e <> 0.
Proof. unfold secondary_feature. destruct name; [|intros [= <-]; lia]. destruct (_ =? 0); [intros [= <-]; lia|]. destruct (memchr0 _ _); [discriminate|]. intros [= <-]. destruct (_ <? _); lia. Qed.
Lemma supported_six chip name size fd profile : 4 <= profile -> mode_unsupported 6 profile = false /\ mode_switch 6 chip name size fd = inr (6, 0x17, 0x3f).
Proof. intros H. split; [|reflexivity]. unfold mode_unsupported. replace (profile <=? 1) with false by lia. replace (profile <=? 3) with false by lia. now rewrite !andb_false_r. Qed.
Lemma mode_build_stable input chip profile name size fd out m : b41_bootstrap_mode_build input chip profile name size fd (Some out) = (0, Some m) ->
  0 <= mode_75c990 m <= 11 /\ b41_bootstrap_mode_build (mode_75c990 m) chip profile name size fd (Some out) = (0, Some m).
Proof.
  unfold b41_bootstrap_mode_build. pose proof (u8_range input) as Hr. unfold is_u8 in Hr. set (mode := u8 input) in *. clearbody mode.
  destruct (mode_unsupported mode profile) eqn:Eu.
  - intros [= <-]. cbn [mode_75c990]. split; [destruct (profile =? 1); lia|]. destruct (Z.eqb_spec profile 1) as [->|]; [reflexivity|]. change (u8 6) with 6.
    destruct (Z.leb_spec profile 3).
    + unfold mode_unsupported. replace (profile <=? 3) with true by lia. now rewrite !orb_true_r.
    + destruct (supported_six chip name size fd profile) as [-> ->]; [lia|reflexivity].
  - assert (Hm : mode <= 11) by (unfold mode_unsupported in Eu; lia). destruct (Z.ltb_spec mode 10).
    + assert (Ho : mode = 0 \/ mode = 1 \/ mode = 2 \/ mode = 3 \/ mode = 4 \/ mode = 5 \/ mode = 6 \/ mode = 7 \/ mode = 8 \/ mode = 9) by lia.
      destruct Ho as [->|[->|[->|[->|[->|[->|[->|[->|[->| ->]]]]]]]]]; cbn [mode_switch]; intros [= <-]; cbn [mode_75c990]; (split; [lia|]);
        (rewrite u8_id by (unfold is_u8; lia)); rewrite Eu; reflexivity.
    + assert (H5 : 5 <= profile) by (unfold mode_unsupported in Eu; lia). unfold mode_switch.
      assert (Ho : mode = 10 \/ mode = 11) by lia. destruct (secondary_feature name size fd) as [e|ft] eqn:Ef.
      * pose proof (secondary_feature_error _ _ _ _ Ef). destruct Ho as [-> | ->]; intros [= -> _]; lia.
      * destruct Ho as [-> | ->]; destruct (ft =? 0) eqn:G1, (chip =? 0xffff6789) eqn:G2; intros X; cbn in X; injection X as <-; cbn [mode_75c990]; (split; [lia|]).
        all: try (change (u8 6) with 6; destruct (supported_six chip name size fd profile) as [-> _]; [lia|reflexivity]).
        all: change (u8 10) with 10; change (u8 11) with 11; rewrite Eu; reflexivity.
Qed.

(** ** Claims *)

Definition first_1 : first_config :=
  First (zeros 19 ++ [0xfe] ++ zeros 4 ++ put32 26000000 ++ put32 115200 ++ zeros 4 ++ [1] ++ zeros 47 ++ put32 7 ++ zeros 24) (repeat 1 112) 0 0 1.
Definition identity_1 : native_l1_identity := Identity 0x6878 0x6637 0xffff6878 0x370 10 5 1.
Definition private_1 : ptr private_clock_t := Ptr 0x2000 (PrivateClock (zeros 8) (zeros 8)).

(** The native policy. The builder succeeds exactly on the inputs the
    native owner supports and leaves its output alone otherwise; the field
    groups it stores are those the generic producer computes for the same
    inputs on a device whose private clock records do not check. *)
Theorem nominal_policy_exact rm ns chip first clock11 clock30 out st out' : ns <> 0 ->
  b41_native_l1_nominal_build rm ns (Some chip) (Some first) clock11 clock30 (Some out) = (st, out') ->
  (st = 0 <-> nominal_supported rm chip first clock11 clock30) /\ (st <> 0 -> st < 0 /\ out' = Some out) /\
  (st = 0 -> exists p, out' = Some p /\ n_selectors p = Selectors 1 0 /\ forall pc dst, null pc = false -> null dst = false ->
     private_word (frequency_1670 (pointee pc)) = None -> private_word (adjustment_1668 (pointee pc)) = None ->
     b41_mvcd_bootstrap_fields_build rm (Ptr ns (with_private (inputs p) pc)) dst = (0, n_fields p)).
Proof.
  intros Hns H. destruct (nominal_build_cases _ _ _ _ _ _ _ _ H) as [[Hs [= -> ->]]|(Hs & He & Ho)]; cbn [fst snd] in *.
  - split; [split; auto|]. split; [intros X; now contradiction X|]. intros _. exists (reference_policy ns chip first).
    split; [reflexivity|]. split; [reflexivity|]. intros pc dst Hpc Hd Hf Ha. destruct Hs as [-> [-> ->] Hi Hk Hv].
    apply nominal_fields_generic; auto. split; auto.
  - split; [split; [lia|intros X; contradiction]|]. split; [auto|intros X; lia].
Qed.
Lemma nominal_policy_exact_witness : exists p, b41_native_l1_nominal_build true 0x1000 (Some identity_1) (Some first_1) 33 0
    (Some (reference_policy 0 identity_1 first_1)) = (0, Some p) /\
  b41_mvcd_bootstrap_fields_build true (Ptr 0x1000 (with_private (inputs p) private_1)) (Ptr 1 (n_fields p)) = (0, n_fields p).
Proof.
  destruct (b41_native_l1_nominal_build true 0x1000 (Some identity_1) (Some first_1) 33 0 (Some (reference_policy 0 identity_1 first_1))) as [st out'] eqn:E.
  assert (Hs : st = 0) by (vm_compute in E; congruence). subst st.
  destruct (nominal_policy_exact true 0x1000 identity_1 first_1 33 0 (reference_policy 0 identity_1 first_1) 0 out' ltac:(lia) E) as (_ & _ & H).
  destruct (H eq_refl) as (p & -> & _ & Hf). exists p. split; [reflexivity|]. apply Hf; vm_compute; reflexivity.
Defined.
