(* ===== verification/VendorImage.v ===== *)
(** * Readers of an associated vendor image

    [b41_capability_branch.c] and the two readers of
    [dsp-download/live-inputs/selectors.c] that look into the mapping of the
    pinned vendor library: the capability record of a chip, and a comparison of
    the live globals. Bytes of the mapping are requests ([Trace]): their values
    are arbitrary and may change between two reads. *)

From S2P Require Import Prelude Trace Bootstrap Nominal.
Open Scope Z_scope.
Open Scope io_scope.

Abbreviation B41_LIBRARY_IMAGE_END := 0x90ffc0 (only parsing).
Abbreviation UINTPTR_MAX := 18446744073709551615 (only parsing).
Record library_association : Type := Association { base : Z; xml_global : Z; chip_global : Z; extent : Z }.

(** A read of [count] bytes from an address. *)
Definition peek_request : Type := Z * Z.
Abbreviation reads := (io peek_request (list Z)).
Definition peek (a count : Z) : reads (list Z) :=
  let! b := ask (a, count) in ret (u8 <$> take (Z.to_nat count) (b ++ zeros count)).
Definition peek_pointer (a : Z) : reads Z := let! b := peek a 8 in ret (le_of b).
Definition peek32 (a : Z) : reads Z := let! b := peek a 4 in ret (le_of b).

(** ** [b41_capability_branch_read] *)

(** [out] is the address of the result, which is stored only on success. *)

Record capability_branch : Type := Branch { capability : list Z; index : Z; source : Z }.
(** The strings 0x6878, 0x6631, 0x6637 and 0x6686, without their terminator. *)
Definition name_6878 : list Z := [48; 120; 54; 56; 55; 56].
Definition profiles : list (list Z * (Z * Z)) :=
  [([48; 120; 54; 54; 51; 49], (0x6ed710, 0x6ed7d0)); ([48; 120; 54; 54; 51; 55], (0x6ed8a0, 0x6ed960)); ([48; 120; 54; 54; 56; 54], (0x6eda30, 0x6edaf0))].
Fixpoint select_profile (adie : list Z) (selected : Z) (l : list (list Z * (Z * Z))) : option (Z * (Z * Z)) :=
  match l with
  | [] => None
  | (n, kv) :: l => if bool_decide (adie = n) then Some (selected, kv) else select_profile adie (selected + 1) l
  end.
(** The record, once its key and value are known to be those of the profile. *)
Definition branch_record (chip adie : list Z) (hw sw selected key value : Z) : reads (Z + capability_branch) :=
  let! c := peek key 7 in
  if negb (bool_decide (c = chip ++ [0])) then ret (inl (- EPROTO))
  else
  let! d := peek (key + 0x5c) 7 in
  if negb (bool_decide (d = adie ++ [0])) then ret (inl (- EPROTO))
  else
  let! key_hw := peek32 (key + 0xb8) in
  let! key_sw := peek32 (key + 0xbc) in
  if (negb (hw =? 0) || negb (sw =? 0)) && (negb (hw =? key_hw) || negb (sw =? key_sw)) then ret (inl (- ENODEV))
  else
  let! cap := peek value 0xd0 in
  if negb (byte_at cap 0xcc =? 1) then ret (inl (- EPROTO)) else ret (inr (Branch cap (21 + selected) value)).
Definition b41_capability_branch_read (image : option library_association) (chip adie : option (list Z)) (hw sw out : Z) : reads (Z + capability_branch) :=
  match image, chip, adie with
  | Some im, Some chip, Some adie =>
    if out =? 0 then ret (inl (- EINVAL))
    else if (base im =? 0) || negb (extent im =? B41_LIBRARY_IMAGE_END) || (UINTPTR_MAX - extent im <? base im) then ret (inl (- ERANGE))
    else if negb (bool_decide (chip = name_6878)) then ret (inl (- EOPNOTSUPP))
    else
    match select_profile adie 0 profiles with
    | None => ret (inl (- ENODATA))
    | Some (selected, (k, v)) =>
      let! table := peek_pointer (base im + 0x6e6ff8) in
      if negb (table =? base im + 0x6edd50) then ret (inl (- ESTALE))
      else
      let! key := peek_pointer (table + 16 * (21 + selected)) in
      let! value := peek_pointer (table + 16 * (21 + selected) + 8) in
      if negb (key =? base im + k) || negb (value =? base im + v) then ret (inl (- ESTALE))
      else branch_record chip adie hw sw selected key value
    end
  | _, _, _ => ret (inl (- EINVAL))
  end.

(** ** [b41_bootstrap_chip_read] *)

Definition association_valid (im : library_association) : bool :=
  negb (base im =? 0) && (extent im =? B41_LIBRARY_IMAGE_END) && (base im <=? UINTPTR_MAX - extent im)
  && (xml_global im =? base im + 0x7178b8) && (chip_global im =? base im + 0x6f2dac).
Record bootstrap_chip : Type := Chip {
  branch : capability_branch; chip_30 : Z; chip_capabilities : Z; chip_mode_base : Z; chip_profile : Z; chip_secure_default : Z
}.
(** The result of the inner reader is an automatic object. *)
Definition capability_at : Z := 1.
(** The first row whose second word is the chip, among the [n] rows from [a]. *)
Fixpoint profile_rows (n : nat) (a chip : Z) : reads Z :=
  match n with
  | O => ret 1
  | S n => let! row := peek a 8 in if le32 row 4 =? chip then ret (u8 (le32 row 0)) else profile_rows n (a + 8) chip
  end.
Definition b41_bootstrap_chip_read (image : option library_association) (chip adie : option (list Z)) (hw sw out : Z) : reads (Z + bootstrap_chip) :=
  match image, chip, adie with
  | Some im, Some _, Some _ =>
    if out =? 0 then ret (inl (- EINVAL))
    else if negb (association_valid im) then ret (inl (- ERANGE))
    else
    let! r := b41_capability_branch_read image chip adie hw sw capability_at in
    match r with
    | inl e => ret (inl e)
    | inr b =>
      let chip := le32 (capability b) 0x14 in
      let caps := le32 (capability b) 0x18 in
      let! table := peek_pointer (base im + 0x6e7b00) in
      if negb (table =? base im + 0x6ee1a8) then ret (inl (- ESTALE))
      else
      let! profile := profile_rows 50 table chip in
      ret (inr (Chip b chip caps (le32 (capability b) 8) profile (secure_default caps)))
    end
  | _, _, _ => ret (inl (- EINVAL))
  end.

(** ** [b41_bootstrap_observe] *)

Record bootstrap_observation : Type := Observation {
  route : bootstrap_selectors; clock_selector : Z; profile_selector : Z; setting : Z; feature_flags : Z; word : Z
}.
#[export] Instance observation_eq : EqDecision bootstrap_observation.
Proof. assert (EqDecision bootstrap_selectors) by solve_decision. solve_decision. Defined.
Definition bindings : list (Z * Z) :=
  [(0x6e6660, 0x7178b8); (0x6e6618, 0x717cb0); (0x6e6668, 0x717cb3); (0x6e6670, 0x717cb6); (0x6e6650, 0x717cb7); (0x6e6658, 0x717cb8); (0x6e6688, 0x7178b0)].
Fixpoint check_bindings (b : Z) (l : list (Z * Z)) : reads bool :=
  match l with
  | [] => ret true
  | (got, target) :: l => let! t := peek_pointer (b + got) in if negb (t =? b + target) then ret false else check_bindings b l
  end.
Definition peek8 (a : Z) : reads Z := let! b := peek a 1 in ret (byte_at b 0).
Definition observe_once (im : library_association) : reads (Z + bootstrap_observation) :=
  let! ok := check_bindings (base im) bindings in
  if negb ok then ret (inl (- ESTALE))
  else
  let! secure := peek8 (base im + (0x7178b8 + 0x33e)) in
  let! dsp := peek8 (base im + 0x717cb0) in
  let! clock := peek8 (base im + 0x717cb3) in
  let! profile := peek8 (base im + 0x717cb6) in
  let! set := peek8 (base im + 0x717cb7) in
  let! flags := peek8 (base im + 0x717cb8) in
  let! w0 := peek8 (base im + 0x7178b0) in
  let! w1 := peek8 (base im + (0x7178b0 + 1)) in
  let! w2 := peek8 (base im + (0x7178b0 + 2)) in
  let! w3 := peek8 (base im + (0x7178b0 + 3)) in
  ret (inr (Observation (Selectors secure dsp) clock profile set flags (le32 [w0; w1; w2; w3] 0))).
Definition b41_bootstrap_observe (image : option library_association) (out : Z) : reads (Z + bootstrap_observation) :=
  match image with
  | None => ret (inl (- EINVAL))
  | Some im =>
    if out =? 0 then ret (inl (- EINVAL))
    else if negb (association_valid im) then ret (inl (- ERANGE))
    else
    let! first := observe_once im in
    match first with
    | inl e => ret (inl e)
    | inr first =>
      let! second := observe_once im in
      match second with
      | inl e => ret (inl e)
      | inr second => if bool_decide (first = second) then ret (inr first) else ret (inl (- EAGAIN))
      end
    end
  end.

(** ** Reads stay in the image *)

Definition inside (im : library_association) (e : peek_request * list Z) : Prop := base im <= e.1.1 /\ 0 <= e.1.2 /\ e.1.1 + e.1.2 <= base im + extent im.
(** Every read is inside, and the result satisfies [R]. *)
Definition reads_in {A} (im : library_association) (m : reads A) (R : A -> Prop) : Prop := performs m (fun r s => Forall (inside im) s /\ R r).
Lemma reads_in_ret {A} im (a : A) (R : A -> Prop) : R a -> reads_in im (ret a) R.
Proof. intros H. unfold reads_in. trace_step. auto. Qed.
Lemma reads_in_bind {A B} im (m : reads A) (k : A -> reads B) R1 R : reads_in im m R1 -> (forall a, R1 a -> reads_in im (k a) R) -> reads_in im (bind m k) R.
Proof.
  intros H1 H2. unfold reads_in in *. eapply performs_bind; [exact H1|]. intros a s [Hs Ha]. eapply performs_impl; [apply H2, Ha|].
  intros b s' [Hs' Hb]. split; [now apply Forall_app|exact Hb].
Qed.
Lemma reads_in_peek im a count : base im <= a -> 0 <= count -> a + count <= base im + extent im -> reads_in im (peek a count) (fun b => len b = count /\ bytes_ok b).
Proof.
  intros H1 H2 H3. unfold reads_in, peek. trace_step. trace_step. split; [|split].
  - repeat constructor; assumption.
  - unfold len. rewrite length_fmap, length_take, length_app. unfold zeros. rewrite repeat_length. lia.
  - unfold bytes_ok. apply Forall_fmap, Forall_true. intros x. apply u8_range.
Qed.
Lemma reads_in_pointer im a : base im <= a -> a + 8 <= base im + extent im -> reads_in im (peek_pointer a) (fun _ => True).
Proof. intros H1 H2. eapply reads_in_bind; [apply reads_in_peek; lia|]. intros b _. now apply reads_in_ret. Qed.
Lemma reads_in_32 im a : base im <= a -> a + 4 <= base im + extent im -> reads_in im (peek32 a) (fun _ => True).
Proof. intros H1 H2. eapply reads_in_bind; [apply reads_in_peek; lia|]. intros b _. now apply reads_in_ret. Qed.
Lemma reads_in_8 im a : base im <= a -> a + 1 <= base im + extent im -> reads_in im (peek8 a) is_u8.
Proof. intros H1 H2. eapply reads_in_bind; [apply reads_in_peek; lia|]. intros b [_ Hb]. apply reads_in_ret. now apply byte_at_u8. Qed.
Lemma reads_in_if {A} im (b : bool) (m m' : reads A) R : (b = true -> reads_in im m R) -> (b = false -> reads_in im m' R) -> reads_in im (if b then m else m') R.
Proof. destruct b; auto. Qed.

(** *** What a report stands for *)

(** The value a read delivered. *)
Definition seen (e : peek_request * list Z) : list Z := u8 <$> take (Z.to_nat e.1.2) (e.2 ++ zeros e.1.2).
Lemma performs_peek {A} a n (k : list Z -> reads A) R : (forall b, performs (k (seen ((a, n), b))) (fun r s => R r (((a, n), b) :: s))) -> performs (bind (peek a n) k) R.
Proof.
  intros H. unfold peek. intros env t. destruct (H (env t (a, n)) env (t ++ [((a, n), env t (a, n))])) as (r & s & E & Hr).
  exists r, (((a, n), env t (a, n)) :: s). split; [|exact Hr]. rewrite <- app_assoc in E. exact E.
Qed.
Lemma bind_assoc {A B C} (m : reads A) (k1 : A -> reads B) (k2 : B -> reads C) R :
  performs (bind m (fun x => bind (k1 x) k2)) R -> performs (bind (bind m k1) k2) R.
Proof. intros H env t. destruct (H env t) as (r & s & E & Hr). exists r, s. split; [|exact Hr]. rewrite <- E. unfold bind. destruct (m env t). reflexivity. Qed.
Lemma performs_peek_pointer {A} a (k : Z -> reads A) R : (forall b, performs (k (le_of (seen ((a, 8), b)))) (fun r s => R r (((a, 8), b) :: s))) -> performs (bind (peek_pointer a) k) R.
Proof. intros H. apply bind_assoc, performs_peek. intros b. exact (H b). Qed.
Lemma performs_peek32 {A} a (k : Z -> reads A) R : (forall b, performs (k (le_of (seen ((a, 4), b)))) (fun r s => R r (((a, 4), b) :: s))) -> performs (bind (peek32 a) k) R.
Proof. intros H. apply bind_assoc, performs_peek. intros b. exact (H b). Qed.
(** The reads of a capability record of profile [i], in order. *)
Definition record_plan (im : library_association) (i k v : Z) : list peek_request :=
  [(base im + 0x6e6ff8, 8); (base im + 0x6edd50 + 16 * (21 + i), 8); (base im + 0x6edd50 + 16 * (21 + i) + 8, 8);
   (base im + k, 7); (base im + k + 0x5c, 7); (base im + k + 0xb8, 4); (base im + k + 0xbc, 4); (base im + v, 0xd0)].
Definition no_peek : peek_request * list Z := ((0, 0), []).
Definition read_at (s : trace peek_request (list Z)) (n : nat) : list Z := seen (nth n s no_peek).
(** The record: the table and its row point where they must, the key names the
    chip and the radio and has their revisions, and the record is what was read
    at the row's value. *)
Definition record_shown (im : library_association) (chip adie : list Z) (hw sw : Z) (b : capability_branch) (s : trace peek_request (list Z)) : Prop :=
  chip = name_6878 /\ exists i k v, profiles !! i = Some (adie, (k, v)) /\ s.*1 = record_plan im (Z.of_nat i) k v /\
    le_of (read_at s 0) = base im + 0x6edd50 /\ le_of (read_at s 1) = base im + k /\ le_of (read_at s 2) = base im + v /\
    read_at s 3 = chip ++ [0] /\ read_at s 4 = adie ++ [0] /\ (hw = 0 /\ sw = 0 \/ le_of (read_at s 5) = hw /\ le_of (read_at s 6) = sw) /\
    b = Branch (read_at s 7) (21 + Z.of_nat i) (base im + v) /\ byte_at (capability b) 0xcc = 1.
(** A read of the record that delivered something else. *)
Definition wrong (im : library_association) (chip adie : list Z) (hw sw i k v : Z) (e : peek_request * list Z) : Prop :=
  let at_ o n := e.1 = (base im + o, n) in
  at_ 0x6e6ff8 8 /\ le_of (seen e) <> base im + 0x6edd50 \/
  e.1 = (base im + 0x6edd50 + 16 * (21 + i), 8) /\ le_of (seen e) <> base im + k \/ e.1 = (base im + 0x6edd50 + 16 * (21 + i) + 8, 8) /\ le_of (seen e) <> base im + v \/
  at_ k 7 /\ seen e <> chip ++ [0] \/ e.1 = (base im + k + 0x5c, 7) /\ seen e <> adie ++ [0] \/
  (hw <> 0 \/ sw <> 0) /\ (e.1 = (base im + k + 0xb8, 4) /\ le_of (seen e) <> hw \/ e.1 = (base im + k + 0xbc, 4) /\ le_of (seen e) <> sw) \/
  at_ v 0xd0 /\ byte_at (seen e) 0xcc <> 1 \/ at_ 0x6e7b00 8 /\ le_of (seen e) <> base im + 0x6ee1a8.
Definition image_valid (im : library_association) : bool := negb (base im =? 0) && (extent im =? B41_LIBRARY_IMAGE_END) && (base im <=? UINTPTR_MAX - extent im).
(** Why a record was refused: the arguments, or a read that did not match. *)
Definition refused (valid : bool) (im : library_association) (chip adie : list Z) (hw sw out : Z) (s : trace peek_request (list Z)) : Prop :=
  out = 0 \/ valid = false \/ chip <> name_6878 \/ (forall i kv, profiles !! i <> Some (adie, kv)) \/
  exists i k v e, profiles !! i = Some (adie, (k, v)) /\ In e s /\ wrong im chip adie hw sw (Z.of_nat i) k v e.
Lemma select_profile_spec adie l : forall n s kv, select_profile adie n l = Some (s, kv) -> exists i, l !! i = Some (adie, kv) /\ s = n + Z.of_nat i.
Proof.
  induction l as [|[nm kv'] l IH]; intros n s kv; [discriminate|]. cbn [select_profile]. case_bool_decide as E.
  - intros [= <- <-]. exists 0%nat. subst. split; [reflexivity|lia].
  - intros H. destruct (IH _ _ _ H) as (i & Hi & ->). exists (S i). split; [exact Hi|lia].
Qed.
Lemma select_profile_none adie l : forall n, select_profile adie n l = None -> forall i kv, l !! i <> Some (adie, kv).
Proof.
  induction l as [|[nm kv'] l IH]; intros n H i kv; [discriminate|]. cbn [select_profile] in H. case_bool_decide as E; [discriminate|]. destruct i as [|i]; [cbn; congruence|]. now apply (IH (n + 1)).
Qed.
Lemma profiles_range i a k v : profiles !! i = Some (a, (k, v)) -> (i < 3)%nat /\ 0x6ed000 <= k < 0x6ee000 /\ 0x6ed000 <= v < 0x6ee000.
Proof. destruct i as [|[|[|i]]]; cbn; [intros [= _ <- <-]..|discriminate]; lia. Qed.
Ltac reading := first [apply reads_in_pointer|apply reads_in_32|apply reads_in_8|apply reads_in_peek].
Lemma branch_record_in im chip adie hw sw i k v : extent im = B41_LIBRARY_IMAGE_END -> profiles !! i = Some (adie, (k, v)) ->
  reads_in im (branch_record chip adie hw sw (Z.of_nat i) (base im + k) (base im + v)) (fun _ => True).
Proof.
  intros He Hp. destruct (profiles_range _ _ _ _ Hp) as (Hi & Hk & Hv). unfold branch_record.
  eapply reads_in_bind; [reading; lia|]. intros c _. apply reads_in_if; intros _; [now apply reads_in_ret|].
  eapply reads_in_bind; [reading; lia|]. intros d _. apply reads_in_if; intros _; [now apply reads_in_ret|].
  eapply reads_in_bind; [reading; lia|]. intros w1 _. eapply reads_in_bind; [reading; lia|]. intros w2 _.
  apply reads_in_if; intros _; [now apply reads_in_ret|]. eapply reads_in_bind; [reading; lia|]. intros cap _.
  apply reads_in_if; intros G; now apply reads_in_ret.
Qed.
Lemma branch_read_in im chip adie hw sw out :
  reads_in im (b41_capability_branch_read (Some im) (Some chip) (Some adie) hw sw out) (fun _ => True).
Proof.
  unfold b41_capability_branch_read. apply reads_in_if; intros _; [now apply reads_in_ret|]. apply reads_in_if; intros G1; [now apply reads_in_ret|].
  apply reads_in_if; intros _; [now apply reads_in_ret|]. assert (He : extent im = B41_LIBRARY_IMAGE_END) by lia.
  destruct (select_profile adie 0 profiles) as [[s [k v]]|] eqn:Es; [|now apply reads_in_ret].
  apply select_profile_spec in Es as (i & Hp & ->). destruct (profiles_range _ _ _ _ Hp) as (Hi & _ & _).
  eapply reads_in_bind; [reading; lia|]. intros table _. apply reads_in_if; intros G2; [now apply reads_in_ret|]. assert (table = base im + 0x6edd50) as -> by lia.
  eapply reads_in_bind; [reading; lia|]. intros key _. eapply reads_in_bind; [reading; lia|]. intros value _.
  apply reads_in_if; intros G3; [now apply reads_in_ret|]. assert (key = base im + k) as -> by lia. assert (value = base im + v) as -> by lia.
  now apply branch_record_in.
Qed.
Lemma branch_record_shown im adie hw sw i k v b0 b1 b2 : let p := record_plan im (Z.of_nat i) k v in let e n b := (nth n p (0, 0), b) in
  profiles !! i = Some (adie, (k, v)) -> le_of (seen (e 0%nat b0)) = base im + 0x6edd50 -> le_of (seen (e 1%nat b1)) = base im + k -> le_of (seen (e 2%nat b2)) = base im + v ->
  performs (branch_record name_6878 adie hw sw (Z.of_nat i) (base im + k) (base im + v)) (fun r s => let s := e 0%nat b0 :: e 1%nat b1 :: e 2%nat b2 :: s in
    match r with inl x => x < 0 /\ exists y, In y s /\ wrong im name_6878 adie hw sw (Z.of_nat i) k v y | inr b => record_shown im name_6878 adie hw sw b s end).
Proof.
  intros p e Hp E0 E1 E2. unfold branch_record. apply performs_peek. intros b3.
  case_bool_decide as E3; cbn [negb]; [|trace_step; split; [lia|]; exists (e 3%nat b3); split; [cbn; auto 12|]; do 3 right; left; now split].
  apply performs_peek. intros b4. case_bool_decide as E4; cbn [negb]; [|trace_step; split; [lia|]; exists (e 4%nat b4); split; [cbn; auto 12|]; do 4 right; left; now split].
  apply performs_peek32. intros b5. apply performs_peek32. intros b6. change (base im + k + 0xb8, 4, b5) with (e 5%nat b5). change (base im + k + 0xbc, 4, b6) with (e 6%nat b6).
  destruct ((negb (hw =? 0) || negb (sw =? 0)) && _) eqn:G.
  { trace_step. split; [lia|]. assert (N : (hw <> 0 \/ sw <> 0) /\ (hw <> le_of (seen (e 5%nat b5)) \/ sw <> le_of (seen (e 6%nat b6)))) by lia. destruct N as [N1 [N2|N2]].
    - exists (e 5%nat b5). split; [cbn; auto 12|]. do 5 right. left. split; [exact N1|]. left. split; [reflexivity|]. congruence.
    - exists (e 6%nat b6). split; [cbn; auto 12|]. do 5 right. left. split; [exact N1|]. right. split; [reflexivity|]. congruence. }
  apply performs_peek. intros b7. change (base im + v, 0xd0, b7) with (e 7%nat b7). destruct (Z.eqb_spec (byte_at (seen (e 7%nat b7)) 0xcc) 1) as [E7|E7]; cbn [negb].
  - trace_step. split; [reflexivity|]. exists i, k, v. split; [exact Hp|]. split; [reflexivity|]. unfold read_at. cbn [nth]. do 5 (split; [assumption|]). split; [lia|]. now split.
  - trace_step. split; [lia|]. exists (e 7%nat b7). split; [cbn; auto 12|]. do 6 right. left. now split.
Qed.
Lemma branch_read_shown im chip adie hw sw out :
  performs (b41_capability_branch_read (Some im) (Some chip) (Some adie) hw sw out) (fun r s => match r with inl e => e < 0 /\ refused (image_valid im) im chip adie hw sw out s | inr b => record_shown im chip adie hw sw b s end).
Proof.
  unfold b41_capability_branch_read. trace_step; [trace_step; split; [lia|left; lia]|]. trace_step; [trace_step; split; [lia|right; left; unfold image_valid; lia]|].
  case_bool_decide as Hc; cbn [negb]; [|trace_step; split; [lia|right; right; now left]].
  destruct (select_profile adie 0 profiles) as [[sel [k v]]|] eqn:Es; [|trace_step; split; [lia|right; right; right; left; now apply (select_profile_none _ _ 0)]].
  apply select_profile_spec in Es as (i & Hp & ->). rewrite Z.add_0_l. set (p := record_plan im (Z.of_nat i) k v). pose (e n b := (nth n p (0, 0), b) : peek_request * list Z).
  assert (W : forall x y s, x < 0 -> In y s -> wrong im chip adie hw sw (Z.of_nat i) k v y -> x < 0 /\ refused (image_valid im) im chip adie hw sw out s) by (intros x y s Hx H1 H2; split; [exact Hx|]; do 4 right; now exists i, k, v, y).
  apply performs_peek_pointer. intros b0. change (base im + 0x6e6ff8, 8, b0) with (e 0%nat b0).
  destruct (Z.eqb_spec (le_of (seen (e 0%nat b0))) (base im + 0x6edd50)) as [E0|E0]; cbn [negb]; [|trace_step; apply (W _ (e 0%nat b0)); [lia|now left|left; now split]].
  rewrite E0. apply performs_peek_pointer. intros b1. apply performs_peek_pointer. intros b2. change (_, 8, b1) with (e 1%nat b1). change (_, 8, b2) with (e 2%nat b2).
  destruct (Z.eqb_spec (le_of (seen (e 1%nat b1))) (base im + k)) as [E1|E1]; cbn [negb orb]; [|trace_step; apply (W _ (e 1%nat b1)); [lia|cbn; auto|right; left; now split]].
  destruct (Z.eqb_spec (le_of (seen (e 2%nat b2))) (base im + v)) as [E2|E2]; cbn [negb orb]; [|trace_step; apply (W _ (e 2%nat b2)); [lia|cbn; auto|right; right; left; now split]].
  rewrite E1, E2. subst chip. eapply performs_impl; [apply (branch_record_shown im adie hw sw i k v b0 b1 b2); assumption|]. intros [x|b] s H; [|exact H]. destruct H as (Hx & y & H1 & H2). now apply (W x y).
Qed.
Lemma profile_rows_in im n chip : forall a, base im <= a -> a + 8 * Z.of_nat n <= base im + extent im -> reads_in im (profile_rows n a chip) is_u8.
Proof.
  induction n as [|n IH]; intros a H1 H2; cbn [profile_rows]; [apply reads_in_ret; unfold is_u8; lia|].
  eapply reads_in_bind; [reading; lia|]. intros row _. apply reads_in_if; intros _; [apply reads_in_ret, u8_range|apply IH; lia].
Qed.
(** The first of the rows from [a] on whose second word is the chip gives the profile; without one it is 1. *)
Inductive rows_shown (chip : Z) : nat -> Z -> trace peek_request (list Z) -> Z -> Prop :=
| rows_none a : rows_shown chip 0 a [] 1
| rows_hit n a b : le32 (seen ((a, 8), b)) 4 = chip -> rows_shown chip (S n) a [((a, 8), b)] (u8 (le32 (seen ((a, 8), b)) 0))
| rows_next n a b s p : le32 (seen ((a, 8), b)) 4 <> chip -> rows_shown chip n (a + 8) s p -> rows_shown chip (S n) a (((a, 8), b) :: s) p.
Lemma profile_rows_shown n chip : forall a, performs (profile_rows n a chip) (fun p s => rows_shown chip n a s p).
Proof.
  induction n as [|n IH]; intros a; cbn [profile_rows]; [trace_step; constructor|]. apply performs_peek. intros b. destruct (Z.eqb_spec (le32 (seen (a, 8, b)) 4) chip) as [E|E]; [trace_step; now apply rows_hit|].
  eapply performs_impl; [apply IH|]. intros p s H. now apply rows_next.
Qed.
(** A chip: the record, then the table of profiles where it must be, then its rows. *)
Definition chip_shown (im : library_association) (chip adie : list Z) (hw sw : Z) (c : bootstrap_chip) (s : trace peek_request (list Z)) : Prop :=
  association_valid im = true /\ exists s1 t s2, s = s1 ++ t :: s2 /\ record_shown im chip adie hw sw (branch c) s1 /\
    t.1 = (base im + 0x6e7b00, 8) /\ le_of (seen t) = base im + 0x6ee1a8 /\ rows_shown (chip_30 c) 50 (base im + 0x6ee1a8) s2 (chip_profile c) /\
    chip_30 c = le32 (capability (branch c)) 0x14 /\ chip_capabilities c = le32 (capability (branch c)) 0x18 /\ chip_mode_base c = le32 (capability (branch c)) 8 /\
    chip_secure_default c = secure_default (chip_capabilities c).
Lemma refused_app valid valid' im chip adie hw sw out out' s s' : (out = 0 -> out' = 0) -> (valid = false -> valid' = false) ->
  refused valid im chip adie hw sw out s -> refused valid' im chip adie hw sw out' (s ++ s').
Proof.
  intros Ho Hv [H|[H|[H|[H|(i & k & v & e & H1 & H2 & H3)]]]]; [left; auto|right; left; auto|right; right; now left|do 3 right; now left|do 4 right]. exists i, k, v, e. split; [exact H1|]. split; [apply in_or_app; now left|exact H3].
Qed.
Lemma chip_read_in im chip adie hw sw out : reads_in im (b41_bootstrap_chip_read (Some im) (Some chip) (Some adie) hw sw out) (fun _ => True).
Proof.
  unfold b41_bootstrap_chip_read. apply reads_in_if; intros _; [now apply reads_in_ret|]. apply reads_in_if; intros Ga; [now apply reads_in_ret|]. apply negb_false_iff in Ga.
  assert (He : extent im = B41_LIBRARY_IMAGE_END) by (unfold association_valid in Ga; lia).
  eapply reads_in_bind; [apply branch_read_in|]. intros [e|b] _; [now apply reads_in_ret|].
  eapply reads_in_bind; [reading; lia|]. intros table _. apply reads_in_if; intros G2; [now apply reads_in_ret|]. assert (table = base im + 0x6ee1a8) as -> by lia.
  eapply reads_in_bind; [apply profile_rows_in; lia|]. intros p Hp. now apply reads_in_ret.
Qed.
Lemma chip_read_shown im chip adie hw sw out : performs (b41_bootstrap_chip_read (Some im) (Some chip) (Some adie) hw sw out) (fun r s =>
  match r with inl e => e < 0 /\ refused (association_valid im) im chip adie hw sw out s | inr c => chip_shown im chip adie hw sw c s end).
Proof.
  unfold b41_bootstrap_chip_read. trace_step; [trace_step; split; [lia|left; lia]|]. destruct (association_valid im) eqn:Ga; cbn [negb]; [|trace_step; split; [lia|right; now left]].
  eapply performs_bind; [apply branch_read_shown|]. intros [e|b] s Hb; cbv beta in Hb.
  - trace_step. destruct Hb as [He Hb]. split; [exact He|]. eapply refused_app; [| |exact Hb]; [discriminate|]. intros Hv. unfold association_valid in Ga. unfold image_valid in Hv. rewrite !andb_true_iff in Ga. destruct Ga as [[[[A B] C] _] _]. rewrite A, B, C in Hv. discriminate.
  - apply performs_peek_pointer. intros b0. destruct (Z.eqb_spec (le_of (seen (base im + 0x6e7b00, 8, b0))) (base im + 0x6ee1a8)) as [E|E]; cbn [negb].
    + rewrite E. eapply performs_bind; [apply profile_rows_shown|]. intros p s' Hp. cbv beta in Hp. trace_step. rewrite app_nil_r. split; [exact Ga|]. exists s, ((base im + 0x6e7b00, 8), b0), s'. cbn [branch chip_30 chip_profile chip_capabilities chip_mode_base chip_secure_default fst].
      split; [reflexivity|]. split; [exact Hb|]. repeat (split; [assumption || reflexivity|]). reflexivity.
    + trace_step. split; [lia|]. destruct Hb as (Hc & i & k & v & Hp & _). do 4 right. eexists i, k, v, _. split; [exact Hp|]. split; [apply in_or_app; right; now left|]. do 7 right. now split.
Qed.

(** *** Observation *)

Definition seen_at (s : trace peek_request (list Z)) (n : nat) : Z := byte_at (seen (nth n s ((0, 0), []))) 0.
(** One scan reads the seven bindings and then the ten bytes, in order. *)
Definition scan_plan (im : library_association) : list peek_request :=
  ((fun b => (base im + b.1, 8)) <$> bindings) ++ ((fun o => (base im + o, 1)) <$> [0x717bf6; 0x717cb0; 0x717cb3; 0x717cb6; 0x717cb7; 0x717cb8; 0x7178b0; 0x7178b1; 0x7178b2; 0x7178b3]).
Definition scanned (im : library_association) (o : bootstrap_observation) (s : trace peek_request (list Z)) : Prop :=
  s.*1 = scan_plan im /\ (forall i b, bindings !! i = Some b -> exists e, s !! i = Some e /\ le_of (seen e) = base im + b.2) /\
  o = Observation (Selectors (seen_at s 7) (seen_at s 8)) (seen_at s 9) (seen_at s 10) (seen_at s 11) (seen_at s 12)
    (le32 [seen_at s 13; seen_at s 14; seen_at s 15; seen_at s 16] 0).
(** A binding that was read with another target. *)
Definition unbound (b : Z) (l : list (Z * Z)) (s : trace peek_request (list Z)) : Prop := exists p e, In p l /\ In e s /\ e.1 = (b + p.1, 8) /\ le_of (seen e) <> b + p.2.
Lemma check_bindings_scan b l : performs (check_bindings b l) (fun ok s =>
  if ok : bool then s.*1 = ((fun p => (b + p.1, 8)) <$> l) /\ forall i p, l !! i = Some p -> exists e, s !! i = Some e /\ le_of (seen e) = b + p.2 else unbound b l s).
Proof.
  induction l as [|[g t] l IH]; cbn [check_bindings]; [trace_step; split; [reflexivity|intros i p H; discriminate H]|].
  apply performs_peek_pointer. intros v. destruct (Z.eqb_spec (le_of (seen (b + g, 8, v))) (b + t)) as [E|E]; cbn [negb].
  - eapply performs_impl; [exact IH|]. cbn beta. intros [] s Hs.
    + destruct Hs as [E1 E2]. split; [cbn; now rewrite E1|]. intros [|i] p Hp; cbn in Hp; [injection Hp as <-|now apply E2]. eexists. split; [reflexivity|exact E].
    + destruct Hs as (p & e & H1 & H2 & H3). exists p, e. split; [now right|]. split; [now right|exact H3].
  - trace_step. exists (g, t), ((b + g, 8), v). split; [now left|]. split; [now left|]. now split.
Qed.
Lemma observe_once_scan im : performs (observe_once im) (fun r s => match r with inl e => e < 0 /\ unbound (base im) bindings s | inr o => scanned im o s end).
Proof.
  unfold observe_once. eapply performs_bind; [apply check_bindings_scan|]. intros ok s H. destruct ok; cbn [negb]; [|trace_step; rewrite app_nil_r; split; [lia|exact H]].
  destruct H as [E1 E2]. unfold peek8.
  do 10 (apply bind_assoc; apply performs_peek; intros ?; change (bind (ret ?x) ?k) with (k x); cbv beta). trace_step.
  assert (Hl : length s = 7%nat) by (rewrite <- (length_fmap fst), E1; reflexivity).
  unfold scanned. split; [|split].
  - rewrite fmap_app, E1. reflexivity.
  - intros i p Hp. destruct (E2 i p Hp) as (e & He & Hv). exists e. split; [|exact Hv]. now apply lookup_app_l_Some.
  - unfold seen_at. do 7 (destruct s as [|? s]; [discriminate Hl|]). destruct s; [|discriminate Hl]. reflexivity.
Qed.
(** Why an observation was refused: the arguments, a binding with another target, or two scans that differ. *)
Definition unobserved (im : library_association) (out : Z) (s : trace peek_request (list Z)) : Prop :=
  out = 0 \/ association_valid im = false \/ unbound (base im) bindings s \/ exists o1 o2 s1 s2, s = s1 ++ s2 /\ scanned im o1 s1 /\ scanned im o2 s2 /\ o1 <> o2.
Lemma scanned_inside im o s : extent im = B41_LIBRARY_IMAGE_END -> scanned im o s -> Forall (inside im) s.
Proof.
  intros He [H _]. rewrite Forall_forall. intros e Hin. assert (Hf : e.1 ∈ scan_plan im) by (rewrite <- H; now apply list_elem_of_fmap_2).
  unfold inside. rewrite He. clear -Hf. destruct e as [[a n] v]. cbn [fst] in *. unfold scan_plan, bindings in Hf. cbn in Hf. rewrite !elem_of_cons, elem_of_nil in Hf.
  cbn [fst snd]. repeat destruct Hf as [Hf|Hf]; [injection Hf as -> ->; lia..|destruct Hf].
Qed.
Lemma check_bindings_in im l : extent im = B41_LIBRARY_IMAGE_END -> Forall (fun b => 0 <= b.1 <= 0x717cb8) l -> reads_in im (check_bindings (base im) l) (fun _ => True).
Proof.
  intros He. induction 1 as [|[g t] l Hg Hl IH]; cbn [check_bindings]; [now apply reads_in_ret|]. cbn [fst] in Hg.
  eapply reads_in_bind; [reading; lia|]. intros x _. apply reads_in_if; intros _; [now apply reads_in_ret|exact IH].
Qed.
Lemma observe_once_in im : extent im = B41_LIBRARY_IMAGE_END -> reads_in im (observe_once im) (fun _ => True).
Proof.
  intros He. unfold observe_once. eapply reads_in_bind; [apply check_bindings_in; [exact He|repeat constructor; cbn; lia]|]. intros ok _.
  apply reads_in_if; intros _; [now apply reads_in_ret|]. do 10 (eapply reads_in_bind; [reading; lia|]; intros ? _). now apply reads_in_ret.
Qed.
Lemma observe_twice im out : performs (b41_bootstrap_observe (Some im) out) (fun r s => Forall (inside im) s /\
  match r with inl e => e < 0 /\ unobserved im out s | inr o => exists s1 s2, s = s1 ++ s2 /\ scanned im o s1 /\ scanned im o s2 end).
Proof.
  unfold b41_bootstrap_observe. trace_step; [trace_step; split; [constructor|split; [lia|left; lia]]|]. clear G. destruct (association_valid im) eqn:Ga; cbn [negb]; [|trace_step; split; [constructor|split; [lia|right; now left]]].
  assert (He : extent im = B41_LIBRARY_IMAGE_END) by (unfold association_valid in Ga; lia).
  assert (Ho := performs_and _ _ _ (observe_once_in im He) (observe_once_scan im)). assert (U : forall t1 s t2, unbound (base im) bindings s -> unobserved im out (t1 ++ s ++ t2)).
  { intros t1 s t2 (p & e & H1 & H2 & H3). right. right. left. exists p, e. split; [exact H1|]. split; [rewrite !in_app_iff; auto|exact H3]. }
  eapply performs_bind; [exact Ho|]. intros [e|o1] s1 [[I1 _] S1]; [trace_step; destruct S1 as [Hx S1]; split; [now rewrite app_nil_r|]; split; [exact Hx|exact (U [] s1 [] S1)]|].
  eapply performs_bind; [exact Ho|]. intros [e|o2] s2 [[I2 _] S2]; [trace_step; destruct S2 as [Hx S2]; split; [rewrite app_nil_r; now apply Forall_app|]; split; [exact Hx|exact (U s1 s2 [] S2)]|].
  case_bool_decide as E; trace_step; rewrite app_nil_r; (split; [now apply Forall_app|]); [subst o2; now exists s1, s2|]. split; [lia|]. do 3 right. now exists o1, o2, s1, s2.
Qed.

(** C40. Vendor image readers. Whatever the mapping contains and however it
    changes, the capability reader and the observer read only bytes of the
    associated image, and end. A chip is reported exactly as the reads show
    it: the pinned table and its row point to the key and the record of one
    of the three radios, the key names chip and radio and has the revisions
    asked for, the record is what was read at the row's value, and the profile
    comes from the first row of the pinned table with the record's chip word;
    an observation is reported only when two complete scans delivered it. A
    refusal has its reason in the arguments or in a read that did not match. *)
Theorem vendor_image_reads im chip adie hw sw out out' :
  performs (b41_bootstrap_chip_read (Some im) (Some chip) (Some adie) hw sw out) (fun r s => Forall (inside im) s /\
    match r with inl e => e < 0 /\ refused (association_valid im) im chip adie hw sw out s | inr c => chip_shown im chip adie hw sw c s end) /\
  performs (b41_bootstrap_observe (Some im) out') (fun r s => Forall (inside im) s /\
    match r with inl e => e < 0 /\ unobserved im out' s | inr o => exists s1 s2, s = s1 ++ s2 /\ scanned im o s1 /\ scanned im o s2 end).
Proof. split; [eapply performs_impl; [exact (performs_and _ _ _ (chip_read_in im chip adie hw sw out) (chip_read_shown im chip adie hw sw out))|]; intros r s [[H1 _] H2]; now split|apply observe_twice]. Qed.

(** An image that holds the record of the radio 0x6637. *)
Definition sample_image : library_association := Association 0x10000 (0x10000 + 0x7178b8) (0x10000 + 0x6f2dac) B41_LIBRARY_IMAGE_END.
Definition sample_record : list Z := zeros 8 ++ put32 2 ++ zeros 8 ++ put32 0x6878 ++ put32 0x10 ++ zeros 0xb0 ++ [1; 0; 0; 0].
Definition sample_memory : environment peek_request (list Z) := fun _ q =>
  let a := q.1 - 0x10000 in
  let target o := put64 (0x10000 + o) in
  if a =? 0x6e6ff8 then target 0x6edd50 else if a =? 0x6edd50 + 16 * 22 then target 0x6ed8a0 else if a =? 0x6edd50 + 16 * 22 + 8 then target 0x6ed960
  else if a =? 0x6ed8a0 then name_6878 ++ [0] else if a =? 0x6ed8a0 + 0x5c then [48; 120; 54; 54; 51; 55; 0] else if a =? 0x6ed960 then sample_record
  else if a =? 0x6e7b00 then target 0x6ee1a8 else if a =? 0x6ee1a8 + 8 then put32 9 ++ put32 0x6878
  else match List.find (fun b => b.1 =? a) bindings with Some b => target b.2 | None => [7] end.
(** Both readers succeed on it, and the record of another radio is refused. *)
Lemma vendor_image_reads_witness : exists c s o t,
  b41_bootstrap_chip_read (Some sample_image) (Some name_6878) (Some [48; 120; 54; 54; 51; 55]) 0 0 1 sample_memory [] = (inr c, s) /\ chip_shown sample_image name_6878 [48; 120; 54; 54; 51; 55] 0 0 c s /\
  capability (branch c) = sample_record /\ chip_30 c = 0x6878 /\ chip_profile c = 9 /\ b41_bootstrap_observe (Some sample_image) 1 sample_memory [] = (inr o, t) /\ word o = 7 + 256 * (7 + 256 * (7 + 256 * 7)) /\
  (b41_bootstrap_chip_read (Some sample_image) (Some name_6878) (Some [48; 120; 54; 54; 51; 49]) 0 0 1 sample_memory []).1 = inl (- ESTALE).
Proof.
  destruct (vendor_image_reads sample_image name_6878 [48; 120; 54; 54; 51; 55] 0 0 1 1) as [H1 H2].
  destruct (H1 sample_memory []) as (r & s & E & _ & R). destruct (H2 sample_memory []) as (r' & t & E' & _ & R'). cbn [Datatypes.app] in E, E'.
  assert (V : match (r, s).1 with inr c => capability (branch c) = sample_record /\ chip_30 c = 0x6878 /\ chip_profile c = 9 | inl _ => False end) by (rewrite <- E; vm_compute; split; [reflexivity|split; reflexivity]).
  assert (V' : match (r', t).1 with inr o => word o = 7 + 256 * (7 + 256 * (7 + 256 * 7)) | inl _ => False end) by (rewrite <- E'; vm_compute; reflexivity).
  destruct r as [|c]; [destruct V|]. destruct r' as [|o]; [destruct V'|]. cbn [fst] in V, V'. destruct V as (V1 & V2 & V3). exists c, s, o, t. do 7 (split; [assumption|]). vm_compute. reflexivity.
Defined.
