(* ===== verification/DownloadLinux.v ===== *)
(** * The download over system calls: [dsp-download/download_linux.c]

    The Linux side of the download owner: descriptor and clock checks, the
    metadata query, and one step that performs the owner's next action. System
    calls are requests to an arbitrary environment ([Trace]); the decisions are
    those of [Download]. *)

From S2P Require Import Prelude Trace Binary754 Clock Fields Wire Bootstrap Download.
Open Scope Z_scope.
Open Scope io_scope.

(** ** System calls *)

(** [Ioctl] passes an integer, [Ioctl_info] and [Ioctl_word] the address of a
    zeroed result. [Interrupted] reads the flag that the signal handler sets;
    descriptors, devices and the profile are named by what they are. *)
Inductive device_path : Type := Profile_file | Conninfra | Gpsdl0.
#[export] Instance device_path_eq : EqDecision device_path.
Proof. solve_decision. Defined.
Inductive syscall : Type :=
| Clock_gettime
| Getfl (fd : Z)
| Fstat (fd : Z)
| Ioctl (fd command argument : Z)
| Ioctl_info (fd command : Z)
| Ioctl_word (fd command : Z)
| Write (fd : Z) (bytes : list Z)
| Read (fd count : Z)
| Open (path : device_path)
| Pread (fd count offset : Z)
| Close (fd : Z)
| Nanosleep
| Sigaction (signal : Z)
| Alarm (seconds : Z)
| Interrupted
| Output.
(** [rc] is the returned value; a failing call sets [errno], which is
    positive. [first] and [second] are the seconds and nanoseconds of a clock,
    or the mode and the size of a file; [out] are stored bytes or words. *)
Record reply : Type := Reply { rc : Z; errno : positive; first : Z; second : Z; out : list Z }.
Abbreviation sys := (io syscall reply).
Definition failure_of (a : reply) : Z := Z.neg (errno a).

(** The nanoseconds of a clock reading; [inl] is an error. *)
Definition reading (t : reply) : Z + Z :=
  if negb (rc t =? 0) then inl (failure_of t)
  else if (first t <? 0) || (second t <? 0) || (1000000000 <=? second t) || ((UINT64_MAX - second t) / 1000000000 <? first t) then inl (- EOVERFLOW)
  else inr (first t * 1000000000 + second t).
Definition monotonic : sys (Z + Z) := let! t := ask Clock_gettime in ret (reading t).
Abbreviation O_ACCMODE := 3 (only parsing).
Abbreviation O_RDWR := 2 (only parsing).
Abbreviation O_NONBLOCK := 2048 (only parsing).
Definition s_ischr (mode : Z) : bool := Z.land mode 0xf000 =? 0x2000.
Definition read_write (flags : Z) : bool := (Z.land flags O_ACCMODE =? O_RDWR) && negb (Z.land flags O_NONBLOCK =? 0).
Definition descriptor (fd : Z) : sys Z :=
  let! a := ask (Getfl fd) in
  if rc a <? 0 then ret (failure_of a)
  else if negb (read_write (rc a)) then ret (- EINVAL)
  else
  let! b := ask (Fstat fd) in
  ret (if negb (rc b =? 0) then failure_of b else if negb (s_ischr (first b)) then - ENODEV else 0).

(** ** Begin and step *)

(** The addresses of the automatic objects of the two functions. *)
Record locals : Type := Locals { query_at : Z; info_at : Z; action_at : Z; received_at : Z }.
Definition word_of (a : reply) (i : nat) : Z := u32 (nth i (out a) 0).
Definition stored_info (a : reply) : boot_info := BootInfo (word_of a 0) (word_of a 1) (word_of a 2) (word_of a 3) (word_of a 4).
(** The status and what the device stored. *)
Definition metadata (fd command : Z) : sys (Z * boot_info) :=
  let! a := ask (Ioctl_info fd command) in ret (if rc a <? 0 then failure_of a else rc a, stored_info a).
Definition new_query (l : locals) (ses : ptr bootstrap_session) (command : Z) (i : boot_info) : bootstrap_query :=
  Query (addr ses) (gps0_fd (pointee ses)) (selectors (pointee ses)) command 0 (Ptr (info_at l) i) sizeof_boot_info.
(** A nonzero status fails the owner. *)
Definition settled (owner : Z) (r : Z * download) : Z * download := if r.1 =? 0 then (0, r.2) else b41_download_abort (Ptr owner r.2) r.1.
Definition b41_download_linux_begin (env : Download.environment) (l : locals) (owner : ptr download) (ses : ptr bootstrap_session) (deadline : Z) : sys (Z * download) :=
  let o := pointee owner in
  if null owner || null ses then ret (- EINVAL, o)
  else if negb (is_stage (stage o) B41_DOWNLOAD_NEW) then ret (if is_stage (stage o) B41_DOWNLOAD_FAILED then first_error o else - EALREADY, o)
  else
  let '(status, route) := route_of (selectors (pointee ses)) in
  let status := if status =? 0 then (b41_mvcd_bootstrap_fields_build (to_nearest env) (fields (pointee ses)) (Ptr 1 (BootstrapFields [] [] [] 0 0 0))).1 else status in
  if negb (status =? 0) then ret (b41_download_abort owner status)
  else
  let! d := descriptor (gps0_fd (pointee ses)) in
  if negb (d =? 0) then ret (b41_download_abort owner d)
  else
  let! t := monotonic in
  match t with
  | inl e => ret (b41_download_abort owner e)
  | inr now =>
    if deadline <=? now then ret (b41_download_abort owner (- ETIMEDOUT))
    else
    let! m := metadata (gps0_fd (pointee ses)) (metadata_ioctl route) in
    if negb (m.1 =? 0) then ret (b41_download_abort owner m.1)
    else
    let! t := monotonic in
    match t with
    | inl e => ret (b41_download_abort owner e)
    | inr now =>
      ret (settled (addr owner)
            (b41_download_begin env owner ses (Ptr (query_at l) (new_query l ses (metadata_ioctl route) m.2)) now deadline))
    end
  end.

Abbreviation INT_MAX := 2147483647 (only parsing).
(** The result of an operation, then the clock. *)
Definition timed (owner : ptr download) (k : Z -> Z * download) : sys (Z * download) :=
  let! t := monotonic in
  match t with inl e => ret (b41_download_abort owner e) | inr now => ret (k now) end.
Definition step_write (heap : Z -> bootstrap_session) (owner : ptr download) (act : download_action) : sys (Z * download) :=
  let! a := ask (Write (act_gps0_fd act) (bytes act)) in
  let result := if rc a <? 0 then failure_of a else if INT_MAX <? rc a then - EOVERFLOW else rc a in
  if (result <? 0) && negb (result =? - EAGAIN) then ret (b41_download_abort owner result)
  else if result =? 0 then ret (b41_download_abort owner (- EIO))
  else timed owner (fun now => b41_download_written heap owner now result).
Definition step_submit (heap : Z -> bootstrap_session) (owner : ptr download) (act : download_action) : sys (Z * download) :=
  let! a := ask (Ioctl (act_gps0_fd act) (act_command act) (argument act)) in
  let result := if rc a <? 0 then failure_of a else rc a in
  if negb (result =? 0) then ret (b41_download_abort owner result)
  else timed owner (fun now => b41_download_submitted heap owner now result).
(** The device delivers no more bytes than are asked for. *)
Definition delivered (a : reply) : list Z := u8 <$> take 2048 (out a).
Definition step_read (env : Download.environment) (l : locals) (heap : Z -> bootstrap_session) (owner : ptr download) (act : download_action) : sys (Z * download) :=
  let! a := ask (Read (act_gps0_fd act) 2048) in
  let data := delivered a in
  if rc a <? 0 then
    if negb (failure_of a =? - EAGAIN) then ret (b41_download_abort owner (failure_of a))
    else timed owner (fun now => let '(s, o, _) := b41_download_next heap owner now (Ptr (action_at l) act) in settled (addr owner) (s, o))
  else if len data =? 0 then ret (b41_download_abort owner (- EPIPE))
  else timed owner (fun now => settled (addr owner) (b41_download_received env heap owner now (Ptr (received_at l) data) (len data))).
Definition no_action : download_action := Action B41_DOWNLOAD_DONE 0 [] 0 0 0 0.
Definition b41_download_linux_step (env : Download.environment) (l : locals) (heap : Z -> bootstrap_session) (owner : ptr download) : sys (Z * download) :=
  let o := pointee owner in
  if null owner then ret (- EINVAL, o)
  else if is_stage (stage o) B41_DOWNLOAD_FAILED then ret (first_error o, o)
  else if is_stage (stage o) B41_DOWNLOAD_ACKS_COMPLETE then ret (0, o)
  else
  let! t := monotonic in
  match t with
  | inl e => ret (b41_download_abort owner e)
  | inr now =>
    let '(status, o, act) := b41_download_next heap owner now (Ptr (action_at l) no_action) in
    let owner := Ptr (addr owner) o in
    match status, kind act with
    | 0, B41_DOWNLOAD_DONE => ret (0, o)
    | 0, k =>
      let! d := descriptor (act_gps0_fd act) in
      if negb (d =? 0) then ret (b41_download_abort owner d)
      else match k with
      | B41_DOWNLOAD_WRITE => step_write heap owner act
      | B41_DOWNLOAD_SUBMIT_FRAGMENT => step_submit heap owner act
      | B41_DOWNLOAD_READ => step_read env l heap owner act
      | B41_DOWNLOAD_DONE => ret (b41_download_abort owner (- EPROTO))
      end
    | e, _ => ret (e, o)
    end
  end.

(** ** What the owner's calls leave alone *)

Definition binding (o : download) := (dl_gps0_fd o, dl_selectors o, fragment_count o, deadline_ns o).
Record keeps (o o' : download) : Prop := Keeps {
  k_binding : binding o' = binding o;
  k_frame : stage o' = B41_DOWNLOAD_BOOTSTRAP_TX -> stage o = B41_DOWNLOAD_BOOTSTRAP_TX /\ tx o' = tx o
}.
Lemma owner_keeps_refl o : keeps o o.
Proof. split; auto. Qed.
Lemma owner_keeps_trans o o1 o2 : keeps o o1 -> keeps o1 o2 -> keeps o o2.
Proof. intros [A B] [C D]. split; [congruence|]. intros H. destruct (D H) as [H1 E1]. destruct (B H1) as [H2 E2]. split; [exact H2|congruence]. Qed.
Lemma keeps_last_now o now : keeps o (set_last_now o now).
Proof. split; auto. Qed.
#[export] Hint Resolve owner_keeps_refl keeps_last_now : core.

Section Calls.
Context (at_ : Z) (Hat : at_ <> 0).
Lemma abort_keeps o e : keeps o (b41_download_abort (Ptr at_ o) e).2.
Proof.
  unfold b41_download_abort. destruct (null _); [apply owner_keeps_refl|]. cbn [pointee]. destruct (is_stage (stage o) _); [apply owner_keeps_refl|].
  destruct (is_stage (stage o) _); [apply owner_keeps_refl|]. split; [reflexivity|discriminate].
Qed.
Lemma check_keeps heap o now : keeps o (check heap (Ptr at_ o) now).2.
Proof.
  unfold check. destruct (null _); [apply owner_keeps_refl|]. cbn [pointee addr].
  destruct (stage o); try apply owner_keeps_refl; (destruct ((session o =? 0) || _ || _ || _); [apply abort_keeps|]; destruct (now <? last_now_ns o); [apply abort_keeps|];
   destruct (deadline_ns _ <=? now); [eapply owner_keeps_trans; [apply keeps_last_now|apply abort_keeps]|apply keeps_last_now]).
Qed.
(** A call that passed the check works on an owner that is bound as before. *)
Lemma checked_keeps heap o now (k : download -> Z * download) : (forall o1, keeps o1 (k o1).2) ->
  keeps o (match check heap (Ptr at_ o) now with (0, o1) => k o1 | r => r end).2.
Proof.
  intros Hk. pose proof (check_keeps heap o now) as H. destruct (check heap (Ptr at_ o) now) as [[|p|p] o1]; cbn [snd] in H; [|exact H..].
  eapply owner_keeps_trans; [exact H|apply Hk].
Qed.
Lemma next_keeps heap o now action : keeps o (b41_download_next heap (Ptr at_ o) now action).1.2.
Proof.
  unfold b41_download_next. pose proof (check_keeps heap o now) as H. destruct (check heap (Ptr at_ o) now) as [[|p|p] o1]; cbn [snd fst] in *; [|exact H..].
  eapply owner_keeps_trans; [exact H|]. clear H. assert (Ha : forall e, keeps o1 (let '(s, o2) := b41_download_abort (Ptr at_ o1) e in (s, o2, pointee action)).1.2).
  { intros e. pose proof (abort_keeps o1 e) as H. now destruct (b41_download_abort _ _). }
  destruct (null action || _); [apply Ha|]. destruct (stage o1); try apply Ha; try apply owner_keeps_refl. destruct (route_of _) as [[|e|e] r]; try apply Ha. apply owner_keeps_refl.
Qed.
Lemma written_keeps heap o now r : keeps o (b41_download_written heap (Ptr at_ o) now r).2.
Proof.
  unfold b41_download_written. apply (checked_keeps heap o now (fun o1 => _)). intros o1. cbv zeta. cbn [addr].
  destruct (is_stage (stage o1) B41_DOWNLOAD_BOOTSTRAP_TX) eqn:Es; cbn [negb]; [|apply abort_keeps]. apply is_stage_true in Es.
  destruct (_ =? _); [apply owner_keeps_refl|]. destruct (r <? 0); [apply abort_keeps|]. destruct ((r =? 0) || _); [apply abort_keeps|].
  destruct (_ =? _); split; auto; discriminate.
Qed.
Lemma submitted_keeps heap o now r : keeps o (b41_download_submitted heap (Ptr at_ o) now r).2.
Proof.
  unfold b41_download_submitted. apply (checked_keeps heap o now (fun o1 => _)). intros o1. cbv zeta. cbn [addr].
  destruct (negb (is_stage _ _)); [apply abort_keeps|]. destruct (negb _); [apply abort_keeps|]. split; [reflexivity|discriminate].
Qed.
Lemma received_keeps env heap o now data n : keeps o (b41_download_received env heap (Ptr at_ o) now data n).2.
Proof.
  unfold b41_download_received. apply (checked_keeps heap o now (fun o1 => _)). intros o1. cbv zeta. cbn [addr].
  assert (Ha : forall b m e, keeps o1 (b41_download_abort (Ptr at_ (set_rx o1 b m)) e).2) by (intros b m e; eapply owner_keeps_trans; [|apply abort_keeps]; split; auto).
  destruct (negb _ && negb _); [apply abort_keeps|]. destruct (null data || _ || _ || _); [apply abort_keeps|]. destruct (_ <? 6); [split; auto|].
  destruct (negb (_ =? 0xaa) || _ || _); [apply Ha|]. destruct ((_ <? 10) || _ || _); [apply Ha|]. destruct (_ <? _); [split; auto|].
  destruct (b41_mvcd_decode_ack _ _ _ _ _) as [st a]. destruct (negb (st =? 0)); [apply (Ha _ 0)|]. destruct (is_stage _ B41_DOWNLOAD_FRAGMENT_RX); [|split; [reflexivity|discriminate]].
  destruct (_ =? _); split; try reflexivity; discriminate.
Qed.
End Calls.

(** ** The owner's calls on every branch *)

(** The owner failed, which the status tells. *)
Definition failed (p : Z * download) : Prop := p.1 < 0 /\ stage p.2 = B41_DOWNLOAD_FAILED /\ download_wf p.2.
Section Branches.
Context (at_ : Z) (Hat : at_ <> 0).
Lemma abort_failed o e : download_wf o -> ~ terminal (stage o) -> failed (b41_download_abort (Ptr at_ o) e).
Proof. intros Hwf Ht. destruct (abort_fails at_ Hat o e Hwf Ht) as (o' & E & Hw & Hs). rewrite E. split; [apply (failed_error o' Hw Hs)|auto]. Qed.
Lemma check_branches heap o now : download_wf o -> active o ->
  failed (check heap (Ptr at_ o) now) \/ (now < deadline_ns o /\ check heap (Ptr at_ o) now = (0, set_last_now o now)).
Proof.
  intros Hwf [Ht Hn]. destruct (check_cases at_ Hat heap o now Hwf) as [[H _]|[[H _]|[[H _]|(_ & _ & [E|(o' & E & H1 & H2)])]]].
  - destruct Ht. now left.
  - destruct Ht. now right.
  - contradiction.
  - right. split; [|exact E]. unfold check in E. rewrite (at_null at_ Hat) in E. cbn [pointee addr] in E.
    assert (Hd : (if (session o =? 0) || negb (gps0_fd (heap (session o)) =? dl_gps0_fd o)
       || negb (secure_download_7178b8_33e (selectors (heap (session o))) =? secure_download_7178b8_33e (dl_selectors o))
       || negb (dsp_selector_717cb0 (selectors (heap (session o))) =? dsp_selector_717cb0 (dl_selectors o))
      then b41_download_abort (Ptr at_ o) (- ESTALE) else if now <? last_now_ns o then b41_download_abort (Ptr at_ o) (- EINVAL)
      else if deadline_ns o <=? now then b41_download_abort (Ptr at_ (set_last_now o now)) (- ETIMEDOUT) else (0, set_last_now o now)) = (0, set_last_now o now)).
    { unfold terminal in Ht. destruct (stage o) eqn:Es; try tauto; exact E. }
    clear E. assert (Hf : forall o2 e, download_wf o2 -> ~ terminal (stage o2) -> b41_download_abort (Ptr at_ o2) e <> (0, set_last_now o now)).
    { intros o2 e H1 H2 X. destruct (abort_failed o2 e H1 H2) as [Y _]. rewrite X in Y. cbn in Y. lia. }
    destruct (_ || _ || _ || _); [now apply Hf in Hd|]. destruct (now <? last_now_ns o); [now apply Hf in Hd|]. destruct (Z.leb_spec (deadline_ns o) now); [|assumption].
    apply Hf in Hd; [destruct Hd|exact Hwf|exact Ht].
  - left. rewrite E. split; [apply (failed_error o' H1 H2)|auto].
Qed.
(** A call continues on the owner with the new time, or the owner failed. *)
Lemma check_elim heap o now (P : Z * download -> Prop) : download_wf o -> active o ->
  (forall r, failed r -> P r) -> (now < deadline_ns o -> P (0, set_last_now o now)) -> P (check heap (Ptr at_ o) now).
Proof. intros Hwf Ha H1 H2. destruct (check_branches heap o now Hwf Ha) as [H|[H ->]]; auto. Qed.
Lemma active_of o s : stage o = s -> s <> B41_DOWNLOAD_NEW -> s <> B41_DOWNLOAD_FAILED -> s <> B41_DOWNLOAD_ACKS_COMPLETE -> active o.
Proof. intros <- H1 H2 H3. unfold active, terminal. tauto. Qed.
Lemma written_cases heap o now r : download_wf o -> stage o = B41_DOWNLOAD_BOOTSTRAP_TX ->
  let p := b41_download_written heap (Ptr at_ o) now r in
  failed p \/ (p.1 = 0 /\
    ((r = - EAGAIN /\ phase_of p.2 = PSending (tx_offset o)) \/ (0 < r < 116 - tx_offset o /\ phase_of p.2 = PSending (tx_offset o + r)) \/
     (r = 116 - tx_offset o /\ phase_of p.2 = PAwaitBoot))).
Proof.
  intros Hwf Hs. cbv zeta. assert (Ha : active o) by (eapply active_of; [exact Hs|discriminate..]). unfold b41_download_written. cbn [addr].
  pattern (check heap (Ptr at_ o) now). apply check_elim; [exact Hwf|exact Ha|intros [[|e|e] o'] (H1 & H2); [cbn in H1; lia|left; split; auto..]|].
  intros _. set (o1 := set_last_now o now).
  assert (Hf : forall e, failed (b41_download_abort (Ptr at_ o1) e)) by (intros e; apply abort_failed; [exact Hwf|apply Ha]).
  destruct Hwf as (Htx & _). unfold tx_ok in Htx. rewrite Hs in Htx. destruct Htx as (Hsz & Hoff & _).
  change (stage o1) with (stage o). rewrite Hs. change (is_stage B41_DOWNLOAD_BOOTSTRAP_TX B41_DOWNLOAD_BOOTSTRAP_TX) with true. cbn [negb].
  destruct (Z.eqb_spec r (- EAGAIN)); [right; split; [reflexivity|left; split; [assumption|]]; unfold phase_of; cbn; now rewrite Hs|].
  destruct (Z.ltb_spec r 0); [left; apply Hf|]. change (tx_size o1) with (tx_size o). change (tx_offset o1) with (tx_offset o). rewrite Hsz.
  rewrite u64_id by (unfold is_u64; lia). destruct ((r =? 0) || _) eqn:G; [left; apply Hf|]. cbn [set_tx tx_offset tx_size].
  right. destruct (Z.eqb_spec (tx_offset o + r) 116); (split; [reflexivity|]); right; [right|left]; (split; [lia|]); unfold phase_of; cbn; [reflexivity|now rewrite Hs].
Qed.
Lemma submitted_cases heap o now : download_wf o -> stage o = B41_DOWNLOAD_FRAGMENT_IOCTL ->
  let p := b41_download_submitted heap (Ptr at_ o) now 0 in failed p \/ (p.1 = 0 /\ phase_of p.2 = PAwaitAck (matched_fragments o)).
Proof.
  intros Hwf Hs. cbv zeta. assert (Ha : active o) by (eapply active_of; [exact Hs|discriminate..]). unfold b41_download_submitted. cbn [addr].
  pattern (check heap (Ptr at_ o) now). apply check_elim; [exact Hwf|exact Ha|intros [[|e|e] o'] (H1 & H2); [cbn in H1; lia|left; split; auto..]|].
  intros _. cbn [stage set_last_now]. rewrite Hs. change (is_stage B41_DOWNLOAD_FRAGMENT_IOCTL B41_DOWNLOAD_FRAGMENT_IOCTL) with true. right. split; reflexivity.
Qed.
(** A call that receives either fails or does not. *)
Lemma received_status env heap o now data n : download_wf o -> active o ->
  0 <= n <= len (pointee data) -> bytes_ok (pointee data) ->
  let p := b41_download_received env heap (Ptr at_ o) now data n in failed p \/ (p.1 = 0 /\ stage p.2 <> B41_DOWNLOAD_FAILED).
Proof.
  intros Hwf Ha Hn Hd. cbv zeta. unfold b41_download_received. cbn [addr].
  pattern (check heap (Ptr at_ o) now). apply check_elim; [exact Hwf|exact Ha|intros [[|e|e] o'] (H1 & H2); [cbn in H1; lia|left; split; auto..]|].
  intros _. set (o1 := set_last_now o now). cbv zeta. pose proof (rx_shape o Hwf) as (Hl & Hok & Hr).
  assert (Ht : ~ terminal (stage o)) by apply Ha. unfold terminal in Ht.
  destruct (negb _ && negb _) eqn:Es; [left; apply abort_failed; [exact Hwf|exact Ht]|].
  assert (Hst : stage o1 = B41_DOWNLOAD_BOOTSTRAP_RX \/ stage o1 = B41_DOWNLOAD_FRAGMENT_RX).
  { apply andb_false_iff in Es as [Es|Es]; apply negb_false_iff, is_stage_true in Es; auto. }
  change (rx_size o1) with (rx_size o). rewrite u64_id by (unfold is_u64, sizeof_rx; lia). unfold sizeof_rx.
  destruct (null data || _ || _ || _) eqn:G; [left; apply abort_failed; [exact Hwf|exact Ht]|].
  assert (Hsum : 0 <= rx_size o + n <= 1024) by lia. clear G. set (buf := write_at (rx o1) (rx_size o) (slice (pointee data) 0 n)).
  assert (Hlc : len (slice (pointee data) 0 n) = n) by (apply len_slice; lia).
  assert (Hbl : len buf = 1024) by (unfold buf; change (rx o1) with (rx o); rewrite len_write_at; lia).
  assert (Hbok : bytes_ok buf) by (apply bytes_ok_write; [|apply bytes_ok_slice]; assumption).
  assert (Hw2 : forall b m, 0 <= m <= 1024 -> len b = 1024 -> bytes_ok b -> download_wf (set_rx o1 b m)) by (intros b m ? ? ?; apply set_rx_wf; auto; exact Hwf).
  assert (Hf : forall b m e, 0 <= m <= 1024 -> len b = 1024 -> bytes_ok b -> failed (b41_download_abort (Ptr at_ (set_rx o1 b m)) e))
    by (intros b m e ? ? ?; apply abort_failed; [now apply Hw2|exact Ht]).
  destruct (_ <? 6); [right; split; [reflexivity|]; cbn; tauto|]. destruct (negb (_ =? 0xaa) || _ || _); [left; apply Hf; auto; lia|].
  destruct ((_ <? 10) || _ || _); [left; apply Hf; auto; lia|]. destruct (_ <? _); [right; split; [reflexivity|]; cbn; tauto|].
  destruct (b41_mvcd_decode_ack _ _ _ _ _) as [status ack]. cbn [rx set_rx]. rewrite (erase_all buf) by assumption.
  destruct (negb (status =? 0)); [left; apply (Hf _ 0); [lia|reflexivity|apply bytes_ok_zeros]|].
  clear Es. right. destruct (is_stage _ _); [|split; [reflexivity|discriminate]]. destruct (_ =? _); (split; [reflexivity|discriminate]).
Qed.
Lemma settled_same p : failed p \/ (p.1 = 0 /\ stage p.2 <> B41_DOWNLOAD_FAILED) ->
  (settled at_ p).2 = p.2 /\ (failed (settled at_ p) \/ ((settled at_ p).1 = 0 /\ stage (settled at_ p).2 <> B41_DOWNLOAD_FAILED)).
Proof.
  intros H. unfold settled. destruct p as [st o']. cbn [fst snd] in *. destruct (Z.eqb_spec st 0); [destruct H as [(H & _)|[_ H]]; [cbn in H; lia|auto]|].
  destruct H as [(H1 & H2 & H3)|[? _]]; [|lia]. cbn [fst snd] in *. unfold b41_download_abort. rewrite (at_null at_ Hat). cbn [pointee]. rewrite H2.
  change (is_stage B41_DOWNLOAD_FAILED B41_DOWNLOAD_FAILED) with true. cbv iota. split; [reflexivity|]. left. split; [apply (failed_error o' H3 H2)|auto].
Qed.
End Branches.

(** ** What the device saw *)

(** The bytes the device took, and the fragments it was given. *)
Definition accepted (fd : Z) (e : syscall * reply) : list Z :=
  match e.1 with Write f b => if f =? fd then take (Z.to_nat (rc e.2)) b else [] | _ => [] end.
Definition performed (fd command : Z) (e : syscall * reply) : list Z :=
  match e.1 with Ioctl f c a => if (f =? fd) && (c =? command) && (rc e.2 =? 0) then [a] else [] | _ => [] end.
Definition sent (fd : Z) (s : trace syscall reply) : list Z := flat_map (accepted fd) s.
Definition submitted (fd command : Z) (s : trace syscall reply) : list Z := flat_map (performed fd command) s.
Lemma sent_app fd s1 s2 : sent fd (s1 ++ s2) = sent fd s1 ++ sent fd s2.
Proof. apply flat_map_app. Qed.
Lemma submitted_app fd c s1 s2 : submitted fd c (s1 ++ s2) = submitted fd c s1 ++ submitted fd c s2.
Proof. apply flat_map_app. Qed.

(** What the device saw of a frame [F] and of [n] fragments in each phase. *)
Definition dialogue (F : list Z) (n : Z) (p : phase) (got subs : list Z) : Prop :=
  match p with
  | PNew => got = [] /\ subs = []
  | PSending i => 0 <= i <= 116 /\ got = take (Z.to_nat i) F /\ subs = []
  | PAwaitBoot => got = F /\ subs = []
  | PSubmit i => 0 <= i <= n /\ got = F /\ subs = seqZ 0 i
  | PAwaitAck i => 0 <= i < n /\ got = F /\ subs = seqZ 0 (i + 1)
  | PDone m => m = n /\ got = F /\ subs = seqZ 0 n
  | PFailed _ => got `prefix_of` F /\ exists k, 0 <= k <= n /\ subs = seqZ 0 k /\ (0 < k -> got = F)
  end.
Lemma dialogue_failed F n p e got subs : 0 <= n -> dialogue F n p got subs -> dialogue F n (PFailed e) got subs.
Proof.
  intros Hn. destruct p as [|i| |i|i|m|e']; cbn; try (intros (-> & ->) || intros (Hi & -> & ->) || auto).
  - split; [apply prefix_nil|]. exists 0. split; [lia|]. split; [reflexivity|lia].
  - split; [apply prefix_take|]. exists 0. split; [lia|]. split; [reflexivity|lia].
  - split; [reflexivity|]. exists 0. split; [lia|]. split; [reflexivity|lia].
  - split; [reflexivity|]. exists i. auto.
  - split; [reflexivity|]. exists (i + 1). split; [lia|auto].
  - split; [reflexivity|]. exists n. split; [lia|auto].
Qed.

(** The gate in front of the device: a transfer on the descriptor or a
    fragment request is made only when a clock reading before the deadline, the
    flags of the descriptor and its kind were checked just before. *)
Definition gate_step (fd command deadline : Z) (g : nat) (e : syscall * reply) : option nat :=
  match e.1 with
  | Clock_gettime => Some (match reading e.2 with inr now => if now <? deadline then 1%nat else 0%nat | inl _ => 0%nat end)
  | Getfl f => Some (match g with 1%nat => if (f =? fd) && (0 <=? rc e.2) && read_write (rc e.2) then 2%nat else 0%nat | _ => 0%nat end)
  | Fstat f => Some (match g with 2%nat => if (f =? fd) && (rc e.2 =? 0) && s_ischr (first e.2) then 3%nat else 0%nat | _ => 0%nat end)
  | Write f _ | Read f _ => match g with 3%nat => if f =? fd then Some 0%nat else None | _ => None end
  | Ioctl f c _ => if (f =? fd) && (c =? command) then match g with 3%nat => Some 0%nat | _ => None end else Some 0%nat
  | _ => Some 0%nat
  end.
Fixpoint gate (fd command deadline : Z) (g : nat) (s : trace syscall reply) : option nat :=
  match s with [] => Some g | e :: s => match gate_step fd command deadline g e with Some g => gate fd command deadline g s | None => None end end.
Lemma gate_app fd c d s1 : forall g s2, gate fd c d g (s1 ++ s2) = match gate fd c d g s1 with Some g => gate fd c d g s2 | None => None end.
Proof. induction s1 as [|e s1 IH]; intros g s2; [reflexivity|]. cbn [gate app]. destruct (gate_step fd c d g e); [apply IH|reflexivity]. Qed.
(** The gate holds from every state. *)
Definition gated (fd command deadline : Z) (s : trace syscall reply) : Prop := forall g, is_Some (gate fd command deadline g s).
Lemma gated_app fd c d s1 s2 : gated fd c d s1 -> gated fd c d s2 -> gated fd c d (s1 ++ s2).
Proof. intros H1 H2 g. rewrite gate_app. destruct (H1 g) as [g1 ->]. apply H2. Qed.
Lemma gated_nil fd c d : gated fd c d [].
Proof. intros g. cbn. eauto. Qed.

(** *** Looking *)

Definition looking (e : syscall * reply) : Prop := match e.1 with Clock_gettime | Getfl _ | Fstat _ => True | _ => False end.
Lemma looking_quiet fd c d s : Forall looking s -> sent fd s = [] /\ submitted fd c s = [] /\ gated fd c d s.
Proof.
  induction 1 as [|e s He Hs (A & B & C)]; [split; [reflexivity|split; [reflexivity|apply gated_nil]]|]. unfold sent, submitted in *. cbn [flat_map].
  rewrite A, B, !app_nil_r. unfold accepted, performed, looking in *. split; [destruct e.1; easy|]. split; [destruct e.1; easy|].
  intros g. cbn [gate]. unfold gate_step. destruct e.1; try easy; apply C.
Qed.
Lemma monotonic_reads : performs monotonic (fun r s => exists a, s = [(Clock_gettime, a)] /\ r = reading a).
Proof. unfold monotonic. trace_step. trace_step. eauto. Qed.
Lemma descriptor_looks fd : performs (descriptor fd) (fun r s => Forall looking s /\ r <= 0 /\
  (r = 0 -> exists a b, s = [(Getfl fd, a); (Fstat fd, b)] /\ 0 <= rc a /\ read_write (rc a) = true /\ rc b = 0 /\ s_ischr (first b) = true)).
Proof.
  unfold descriptor, failure_of. trace_step. trace_step; [trace_step; split; [repeat constructor|lia]|]. trace_step; [trace_step; split; [repeat constructor|lia]|].
  trace_step. trace_step. split; [repeat constructor|]. destruct (rc p0 =? 0) eqn:E1; cbn [negb]; [|lia].
  destruct (s_ischr (first p0)) eqn:E2; cbn [negb]; [|lia]. split; [lia|]. intros _. exists p, p0. apply negb_false_iff in G0. repeat split; auto; lia.
Qed.

(** ** One step *)

Section Step.
Context (env : Download.environment) (l : locals) (heap : Z -> bootstrap_session) (at_ : Z).
Context (fd : Z) (sel : bootstrap_selectors) (m command n deadline : Z) (F : list Z).
Context (Hat : at_ <> 0) (Hact : action_at l <> 0) (Hapart : overlaps at_ sizeof_download (action_at l) sizeof_action = false).
Context (Hroute : route_of sel = (0, Route m command)) (HF : len F = 116) (Hn : 0 <= n).

Record bound (o : download) : Prop := Bound {
  b_wf : download_wf o;
  b_binding : stage o <> B41_DOWNLOAD_NEW -> binding o = (fd, sel, n, deadline);
  b_frame : stage o = B41_DOWNLOAD_BOOTSTRAP_TX -> tx o = F
}.
Lemma bound_keeps o o' : bound o -> stage o <> B41_DOWNLOAD_NEW -> download_wf o' -> keeps o o' -> bound o'.
Proof. intros [A B C] H Hw [D E]. split; [exact Hw|intros _; rewrite D; auto|]. intros Hs. destruct (E Hs) as [E1 E2]. rewrite E2. auto. Qed.

(** What a step does: the owner stays bound, its status tells whether it
    failed, and the device saw what its phase tells. *)
Record moved (o : download) (p : Z * download) (s : trace syscall reply) : Prop := Moved {
  mv_bound : bound p.2;
  mv_started : stage p.2 <> B41_DOWNLOAD_NEW;
  mv_status : (p.1 = 0 /\ stage p.2 <> B41_DOWNLOAD_FAILED) \/ (p.1 < 0 /\ stage p.2 = B41_DOWNLOAD_FAILED);
  mv_dialogue got subs : dialogue F n (phase_of o) got subs -> dialogue F n (phase_of p.2) (got ++ sent fd s) (subs ++ submitted fd command s)
}.
Lemma phase_of_failed o : stage o = B41_DOWNLOAD_FAILED -> phase_of o = PFailed (first_error o).
Proof. intros H. unfold phase_of. now rewrite H. Qed.
Lemma phase_sending_stage o : phase_of o = PAwaitBoot \/ (exists i, phase_of o = PSending i) -> stage o <> B41_DOWNLOAD_NEW /\ stage o <> B41_DOWNLOAD_FAILED.
Proof. unfold phase_of. destruct (stage o); intros [?|[i ?]]; try discriminate; split; discriminate. Qed.
(** A failure after requests [s] that moved the device to a legal state. *)
Lemma moved_failed o p s : bound o -> stage o <> B41_DOWNLOAD_NEW -> failed p -> keeps o p.2 ->
  (forall got subs, dialogue F n (phase_of o) got subs -> exists ph, dialogue F n ph (got ++ sent fd s) (subs ++ submitted fd command s)) -> moved o p s.
Proof.
  intros Hb Hs (H1 & H2 & H3) Hk Hd. split; [now apply (bound_keeps o)|rewrite H2; discriminate|auto|]. intros got subs H. destruct (Hd got subs H) as [ph Hp].
  rewrite (phase_of_failed _ H2). now apply (dialogue_failed F n ph).
Qed.
Lemma abort_moved o e s : bound o -> active o ->
  (forall got subs, dialogue F n (phase_of o) got subs -> exists ph, dialogue F n ph (got ++ sent fd s) (subs ++ submitted fd command s)) ->
  moved o (b41_download_abort (Ptr at_ o) e) s.
Proof. intros Hb [Ht Hs] Hd. apply moved_failed; auto; [apply abort_failed; auto; apply Hb|apply abort_keeps]. Qed.
Lemma abort_quiet o e s : bound o -> active o -> sent fd s = [] -> submitted fd command s = [] -> moved o (b41_download_abort (Ptr at_ o) e) s.
Proof. intros Hb Ha H1 H2. apply abort_moved; auto. intros got subs H. exists (phase_of o). rewrite H1, H2, !app_nil_r. exact H. Qed.
Lemma reading_error a e : reading a = inl e -> e < 0.
Proof. unfold reading, failure_of. destruct (negb _); [intros [= <-]; lia|]. destruct (_ || _ || _ || _); intros [= <-]; lia. Qed.
(** The clock after an operation. *)
Lemma timed_moved o k s0 : (forall e, moved o (b41_download_abort (Ptr at_ o) e) s0) -> (forall now, moved o (k now) s0) ->
  performs (timed (Ptr at_ o) k) (fun p s => moved o p (s0 ++ s) /\ gated fd command deadline s).
Proof.
  intros H1 H2. assert (Hq : forall a p, moved o p s0 -> moved o p (s0 ++ [(Clock_gettime, a)]) /\ gated fd command deadline [(Clock_gettime, a)]).
  { intros a p [A B C D]. split; [split; auto|intros g; cbn; eauto]. intros got subs H. rewrite sent_app, submitted_app. cbn. rewrite !app_nil_r. auto. }
  unfold timed. eapply performs_bind; [apply monotonic_reads|]. intros r s (a & -> & ->). destruct (reading a); trace_step; rewrite app_nil_r; apply Hq; auto.
Qed.
(** The deadline was checked and the descriptor is one to use: the gate is open. *)
Definition open_gate (s : trace syscall reply) : Prop := gate fd command deadline 3 s <> None.
Lemma open_app e s : gate_step fd command deadline 3 e = Some 0%nat -> gated fd command deadline s -> open_gate (e :: s).
Proof. intros H1 H2. unfold open_gate. cbn [gate]. rewrite H1. destruct (H2 0%nat) as [g ->]. discriminate. Qed.
Lemma bound_fd o : bound o -> active o -> dl_gps0_fd o = fd /\ dl_selectors o = sel /\ fragment_count o = n /\ deadline_ns o = deadline.
Proof. intros Hb [_ Hs]. pose proof (b_binding o Hb Hs) as H. unfold binding in H. injection H as -> -> -> ->. auto. Qed.

Lemma step_write_moved o act : bound o -> stage o = B41_DOWNLOAD_BOOTSTRAP_TX -> act_gps0_fd act = fd -> bytes act = slice (tx o) (tx_offset o) (116 - tx_offset o) ->
  performs (step_write heap (Ptr at_ o) act) (fun p s => moved o p s /\ open_gate s).
Proof.
  intros Hb Hs Hfd Hby. assert (Ha : active o) by (eapply active_of; [exact Hs|discriminate..]). pose proof (b_wf o Hb) as Hwf.
  assert (Hoff : 0 <= tx_offset o < 116) by (destruct Hwf as (H & _); unfold tx_ok in H; rewrite Hs in H; apply H).
  assert (Hp : phase_of o = PSending (tx_offset o)) by (unfold phase_of; now rewrite Hs).
  rewrite (b_frame o Hb Hs) in Hby. unfold step_write. rewrite Hfd, Hby. trace_step. rename p into a.
  assert (Hopen : gate_step fd command deadline 3 (Write fd (slice F (tx_offset o) (116 - tx_offset o)), a) = Some 0%nat) by (cbn; now rewrite Z.eqb_refl).
  set (e := (Write fd (slice F (tx_offset o) (116 - tx_offset o)), a)) in *.
  assert (Hsent : forall got subs, dialogue F n (phase_of o) got subs ->
    got ++ sent fd [e] = take (Z.to_nat (tx_offset o + Z.min (Z.max 0 (rc a)) (116 - tx_offset o))) F /\ subs ++ submitted fd command [e] = []).
  { intros got subs H. rewrite Hp in H. cbn in H. destruct H as (_ & -> & ->). split; [|reflexivity]. cbn. rewrite Z.eqb_refl, app_nil_r.
    unfold slice. rewrite take_take. replace (Z.to_nat (tx_offset o + Z.min (Z.max 0 (rc a)) (116 - tx_offset o)))
      with (Z.to_nat (tx_offset o) + Z.to_nat (rc a) `min` Z.to_nat (116 - tx_offset o))%nat by lia. now rewrite take_take_drop. }
  assert (Hfail : forall err, moved o (b41_download_abort (Ptr at_ o) err) [e]).
  { intros err. apply abort_moved; auto. intros got subs H. destruct (Hsent got subs H) as [-> ->].
    exists (PSending (tx_offset o + Z.min (Z.max 0 (rc a)) (116 - tx_offset o))). cbn. repeat split; lia || reflexivity. }
  cbv zeta. set (r := if rc a <? 0 then failure_of a else if 2147483647 <? rc a then - EOVERFLOW else rc a).
  trace_step; [trace_step; split; [apply Hfail|apply (open_app e []); [exact Hopen|apply gated_nil]]|].
  trace_step; [trace_step; split; [apply Hfail|apply (open_app e []); [exact Hopen|apply gated_nil]]|].
  eapply performs_impl; [apply (timed_moved o _ [e])|].
  - exact Hfail.
  - intros now. destruct (written_cases at_ Hat heap o now r Hwf Hs) as [X|(X1 & X2)].
    + apply moved_failed; [exact Hb|apply Ha|exact X|apply written_keeps|]. intros got subs H. destruct (Hsent got subs H) as [-> ->].
      exists (PSending (tx_offset o + Z.min (Z.max 0 (rc a)) (116 - tx_offset o))). cbn. repeat split; lia || reflexivity.
    + assert (Hr : r = - EAGAIN \/ r = rc a) by (unfold r, failure_of in *; destruct (rc a <? 0); [lia|]; destruct (_ <? rc a); lia).
      assert (Hw : download_wf (b41_download_written heap (Ptr at_ o) now r).2) by apply (written_legal at_ Hat heap o now r Hwf).
      destruct (phase_sending_stage (b41_download_written heap (Ptr at_ o) now r).2) as [Y1 Y2]; [destruct X2 as [[_ ->]|[[_ ->]|[_ ->]]]; eauto|].
      split; [apply (bound_keeps o); [exact Hb|apply Ha|exact Hw|apply written_keeps]|exact Y1|auto|].
      intros got subs H. destruct (Hsent got subs H) as [-> ->]. destruct X2 as [[E ->]|[[E ->]|[E ->]]]; cbn.
      * assert (rc a <= 0) by (unfold r, failure_of in E; destruct (Z.ltb_spec (rc a) 0); [lia|]; destruct (_ <? rc a); lia).
        replace (tx_offset o + Z.min (Z.max 0 (rc a)) (116 - tx_offset o)) with (tx_offset o) by lia. repeat split; lia || reflexivity.
      * assert (rc a = r) by (destruct Hr; lia). replace (tx_offset o + Z.min (Z.max 0 (rc a)) (116 - tx_offset o)) with (tx_offset o + r) by lia. repeat split; lia || reflexivity.
      * assert (rc a = r) by (destruct Hr; lia). replace (tx_offset o + Z.min (Z.max 0 (rc a)) (116 - tx_offset o)) with 116 by lia. split; [|reflexivity].
        apply firstn_all2. unfold len in HF. lia.
  - cbn beta. intros p s [M G1]. split; [exact M|]. now apply open_app.
Qed.

Lemma step_submit_moved o act : bound o -> stage o = B41_DOWNLOAD_FRAGMENT_IOCTL -> act_gps0_fd act = fd -> act_command act = command -> argument act = matched_fragments o ->
  performs (step_submit heap (Ptr at_ o) act) (fun p s => moved o p s /\ open_gate s).
Proof.
  intros Hb Hs Hfd Hc Harg. assert (Ha : active o) by (eapply active_of; [exact Hs|discriminate..]). pose proof (b_wf o Hb) as Hwf.
  destruct (bound_fd o Hb Ha) as (_ & _ & Hfc & _).
  assert (Hm : 0 <= matched_fragments o < n) by (destruct Hwf as (_ & _ & H); unfold progress_ok in H; rewrite Hs in H; lia).
  assert (Hp : phase_of o = PSubmit (matched_fragments o)) by (unfold phase_of; now rewrite Hs).
  unfold step_submit. rewrite Hfd, Hc, Harg. trace_step. rename p into a.
  set (e := (Ioctl fd command (matched_fragments o), a)).
  assert (Hopen : gate_step fd command deadline 3 e = Some 0%nat) by (cbn; now rewrite !Z.eqb_refl).
  assert (Hsub : forall got subs, dialogue F n (phase_of o) got subs -> got ++ sent fd [e] = F /\
    subs ++ submitted fd command [e] = seqZ 0 (if rc a =? 0 then matched_fragments o + 1 else matched_fragments o)).
  { intros got subs H. rewrite Hp in H. destruct H as (_ & -> & ->). cbn. rewrite !Z.eqb_refl, !app_nil_r. cbn [andb]. split; [reflexivity|].
    destruct (rc a =? 0); cbn; [|now rewrite app_nil_r]. rewrite (seqZ_app 0 (matched_fragments o) 1) by lia. reflexivity. }
  assert (Hfail : forall err, moved o (b41_download_abort (Ptr at_ o) err) [e]).
  { intros err. apply abort_moved; auto. intros got subs H. destruct (Hsub got subs H) as [-> ->].
    exists (PSubmit (if rc a =? 0 then matched_fragments o + 1 else matched_fragments o)). cbn. repeat split; destruct (rc a =? 0); lia. }
  cbv zeta. trace_step; [trace_step; split; [apply Hfail|apply (open_app e []); [exact Hopen|apply gated_nil]]|].
  assert (Hrc : rc a = 0) by (unfold failure_of in G; destruct (Z.ltb_spec (rc a) 0); lia).
  replace (if rc a <? 0 then failure_of a else rc a) with 0 by (rewrite Hrc; reflexivity).
  eapply performs_impl; [apply (timed_moved o _ [e]); [exact Hfail|]|].
  - intros now. destruct (submitted_cases at_ Hat heap o now Hwf Hs) as [X|(X1 & X2)].
    + apply moved_failed; [exact Hb|apply Ha|exact X|apply submitted_keeps|]. intros got subs H. destruct (Hsub got subs H) as [-> ->]. rewrite Hrc.
      exists (PSubmit (matched_fragments o + 1)). cbn. repeat split; lia.
    + set (w := b41_download_submitted heap (Ptr at_ o) now 0) in *. pose proof X2 as [X3 _]%phase_rx.
      split; [apply (bound_keeps o); [exact Hb|apply Ha|apply (submitted_legal at_ Hat heap o now 0 Hwf)|apply submitted_keeps]|rewrite X3; discriminate|left; rewrite X3; split; [exact X1|discriminate]|].
      intros got subs H. destruct (Hsub got subs H) as [-> ->]. rewrite X2, Hrc. cbn. repeat split; lia.
  - cbn beta. intros p s [M G1]. split; [exact M|]. now apply open_app.
Qed.

Definition receiving (o : download) : Prop := stage o = B41_DOWNLOAD_BOOTSTRAP_RX \/ stage o = B41_DOWNLOAD_FRAGMENT_RX.
(** Receiving changes what the phase tells, not what the device saw. *)
Lemma received_dialogue o now data k o' got subs : bound o -> receiving o -> pstep (fragment_count o) (pending o) (EvReceived now data k) (phase_of o) (phase_of o') ->
  dialogue F n (phase_of o) got subs -> dialogue F n (phase_of o') got subs.
Proof.
  intros Hb Hr Hst Hd. assert (Ha : active o) by (destruct Hr as [Hr|Hr]; eapply active_of; try exact Hr; discriminate).
  destruct (bound_fd o Hb Ha) as (_ & _ & Hfc & _). rewrite Hfc in Hst.
  destruct Hst as [p| | | | |? i| |? ? ? i|p e]; try discriminate; cbn in *; try exact Hd.
  - destruct Hd as [-> ->]. repeat split; lia || reflexivity.
  - destruct Hd as (? & -> & ->). repeat split; lia.
  - destruct Hd as (? & -> & ->). repeat split; f_equal; lia.
  - now apply (dialogue_failed F n p e).
Qed.
(** The next action of an active owner. *)
Definition next_action (o : download) (act : download_action) : Prop :=
  act_gps0_fd act = fd /\
  match stage o with
  | B41_DOWNLOAD_BOOTSTRAP_TX => kind act = B41_DOWNLOAD_WRITE /\ bytes act = slice (tx o) (tx_offset o) (116 - tx_offset o)
  | B41_DOWNLOAD_BOOTSTRAP_RX | B41_DOWNLOAD_FRAGMENT_RX => kind act = B41_DOWNLOAD_READ
  | B41_DOWNLOAD_FRAGMENT_IOCTL => kind act = B41_DOWNLOAD_SUBMIT_FRAGMENT /\ act_command act = command /\ argument act = matched_fragments o
  | _ => False
  end.
Lemma next_cases o now x : bound o -> active o ->
  let '(st, o', act) := b41_download_next heap (Ptr at_ o) now (Ptr (action_at l) x) in
  failed (st, o') \/ (st = 0 /\ o' = set_last_now o now /\ now < deadline /\ next_action o act).
Proof.
  intros Hb Ha. pose proof (b_wf o Hb) as Hwf. destruct (bound_fd o Hb Ha) as (E1 & E2 & E3 & E4). unfold b41_download_next. cbn [addr].
  pattern (check heap (Ptr at_ o) now). apply (check_elim at_ Hat); [exact Hwf|exact Ha|intros [[|e|e] o'] (H1 & H2); [cbn in H1; lia|left; split; auto..]|].
  rewrite E4. intros Hd. change (null (Ptr (action_at l) x)) with (action_at l =? 0). replace (action_at l =? 0) with false by lia. cbn [addr]. rewrite Hapart. cbn [orb].
  destruct Ha as [Ht Hs0]. unfold terminal in Ht. cbn [stage set_last_now]. destruct (stage o) eqn:Es; try tauto; cbn [dl_selectors set_last_now]; rewrite ?E2, ?Hroute; right;
    (split; [reflexivity|]); (split; [reflexivity|]); (split; [exact Hd|]); unfold next_action; rewrite Es; cbn; (split; [exact E1|]); auto.
  - destruct Hwf as (H & _). unfold tx_ok in H. rewrite Es in H. destruct H as (-> & ? & _). rewrite u64_id by (unfold is_u64; lia). auto.
  - destruct Hwf as (_ & _ & H). unfold progress_ok in H. rewrite Es in H. rewrite u32_id by (unfold is_u32; lia). repeat split; lia.
Qed.
Lemma step_read_moved o act : bound o -> receiving o -> act_gps0_fd act = fd ->
  performs (step_read env l heap (Ptr at_ o) act) (fun p s => moved o p s /\ open_gate s).
Proof.
  intros Hb Hr Hfd. assert (Ha : active o) by (destruct Hr as [Hr|Hr]; eapply active_of; try exact Hr; discriminate). pose proof (b_wf o Hb) as Hwf.
  unfold step_read. rewrite Hfd. trace_step. rename p into a. set (e := (Read fd 2048, a)).
  assert (Hopen : gate_step fd command deadline 3 e = Some 0%nat) by (cbn; now rewrite Z.eqb_refl).
  assert (Hfail : forall err, moved o (b41_download_abort (Ptr at_ o) err) [e]) by (intros err; now apply abort_quiet).
  assert (Hmoved : forall p, failed p \/ (p.1 = 0 /\ stage p.2 <> B41_DOWNLOAD_FAILED) -> keeps o p.2 -> download_wf p.2 -> stage p.2 <> B41_DOWNLOAD_NEW ->
    (forall got subs, dialogue F n (phase_of o) got subs -> dialogue F n (phase_of p.2) got subs) -> moved o (settled at_ p) [e]).
  { intros p H1 H2 H3 H4 H5. destruct (settled_same at_ Hat p H1) as [E1 E2]. split; rewrite ?E1.
    - apply (bound_keeps o); auto. apply Ha.
    - exact H4.
    - rewrite <- E1. destruct E2 as [(? & ? & _)|[? ?]]; auto.
    - intros got subs H. cbn. rewrite !app_nil_r. auto. }
  assert (Hend : forall m', performs m' (fun p s => moved o p ([e] ++ s) /\ gated fd command deadline s) -> performs m' (fun p s => moved o p (e :: s) /\ open_gate (e :: s))).
  { intros m' H. eapply performs_impl; [exact H|]. cbn beta. intros p s [M G1]. split; [exact M|]. now apply open_app. }
  trace_step; [trace_step|trace_step].
  - trace_step. split; [apply Hfail|apply (open_app e []); [exact Hopen|apply gated_nil]].
  - apply Hend, timed_moved; [exact Hfail|]. intros now. pose proof (next_cases o now act Hb Ha) as Hc. pose proof (next_keeps at_ heap o now (Ptr (action_at l) act)) as Hk.
    pose proof (next_legal at_ Hat heap o now (Ptr (action_at l) act) (EvNext now (Ptr (action_at l) act)) Hwf) as [Hw _].
    destruct (b41_download_next heap (Ptr at_ o) now (Ptr (action_at l) act)) as [[st o'] act']. cbn [fst snd] in *. apply Hmoved; cbn [fst snd]; auto.
    + destruct Hc as [Hc|(-> & -> & _)]; [now left|right]. split; [reflexivity|]. change (stage o <> B41_DOWNLOAD_FAILED). destruct Hr as [-> | ->]; discriminate.
    + destruct Hc as [(_ & Hc & _)|(_ & -> & _)]; [cbn in Hc; rewrite Hc; discriminate|apply Ha].
    + intros got subs H. destruct Hc as [(_ & Hc & _)|(_ & -> & _)]; [|exact H]. cbn in Hc. rewrite (phase_of_failed _ Hc). now apply (dialogue_failed F n (phase_of o)).
  - trace_step. split; [apply Hfail|apply (open_app e []); [exact Hopen|apply gated_nil]].
  - apply Hend, timed_moved; [exact Hfail|]. intros now. assert (Hlen : 0 <= len (delivered a) <= len (delivered a)) by (pose proof (len_nonneg (delivered a)); lia).
    assert (Hok : bytes_ok (delivered a)) by (unfold delivered, bytes_ok; apply Forall_fmap, Forall_true; intros; apply u8_range).
    pose proof (received_legal env at_ Hat heap o now (Ptr (received_at l) (delivered a)) (len (delivered a)) Hwf Hlen Hok) as [Hw Hst].
    apply Hmoved; auto.
    + now apply (received_status at_ Hat).
    + apply received_keeps.
    + intros E. set (o' := (b41_download_received _ _ _ _ _ _).2) in *. assert (Hp : phase_of o' = PNew) by (unfold phase_of; now rewrite E). rewrite Hp in Hst.
      unfold phase_of in Hst. destruct Hr as [Hr|Hr]; rewrite Hr in Hst; inversion Hst.
    + intros got subs H. eapply received_dialogue; eassumption.
Qed.

Lemma moved_quiet o p s0 s : sent fd s0 = [] -> submitted fd command s0 = [] -> moved o p s -> moved o p (s0 ++ s).
Proof. intros H1 H2 [A B C D]. split; auto. intros got subs H. rewrite sent_app, submitted_app, H1, H2. cbn. auto. Qed.
Lemma moved_phase o o1 p s : phase_of o1 = phase_of o -> moved o1 p s -> moved o p s.
Proof. intros H [A B C D]. split; auto. rewrite <- H. exact D. Qed.
Lemma moved_still o st s : bound o -> stage o <> B41_DOWNLOAD_NEW -> sent fd s = [] -> submitted fd command s = [] ->
  (st = 0 /\ stage o <> B41_DOWNLOAD_FAILED) \/ (st < 0 /\ stage o = B41_DOWNLOAD_FAILED) -> moved o (st, o) s.
Proof. intros H1 H2 H3 H4 H5. split; auto. intros got subs H. now rewrite H3, H4, !app_nil_r. Qed.
Lemma linux_step_moved o : bound o -> stage o <> B41_DOWNLOAD_NEW ->
  performs (b41_download_linux_step env l heap (Ptr at_ o)) (fun p s => moved o p s /\ gated fd command deadline s).
Proof.
  intros Hb Hs. pose proof (b_wf o Hb) as Hwf. unfold b41_download_linux_step. rewrite (at_null at_ Hat). cbn [pointee addr].
  trace_step; [trace_step; split; [|apply gated_nil]; apply is_stage_true in G; apply moved_still; auto; right; split; [apply (failed_error o Hwf G)|exact G]|].
  trace_step; [trace_step; split; [|apply gated_nil]; apply moved_still; auto; left; split; [reflexivity|now apply is_stage_false]|].
  apply is_stage_false in G, G0. assert (Ha : active o) by (split; [intros [|]; congruence|exact Hs]).
  eapply performs_bind; [apply monotonic_reads|]. intros r s (a & -> & ->). destruct (reading a) as [e|now] eqn:Er.
  { trace_step. split; [now apply abort_quiet|]. intros g. cbn. rewrite Er. eauto. }
  pose proof (next_cases o now no_action Hb Ha) as Hc. pose proof (next_keeps at_ heap o now (Ptr (action_at l) no_action)) as Hk.
  destruct (b41_download_next heap (Ptr at_ o) now (Ptr (action_at l) no_action)) as [[st o1] act]. cbn [fst snd] in Hk.
  assert (Hgc : gated fd command deadline [(Clock_gettime, a)]) by (intros g; cbn; eauto).
  destruct Hc as [Hf|(-> & -> & Hd & Hfd & Hact')].
  { assert (Hm : moved o (st, o1) [(Clock_gettime, a)]).
    { apply moved_failed; auto. intros got subs H. exists (phase_of o). cbn. now rewrite !app_nil_r. }
    destruct Hf as (Hf & _). cbn in Hf. destruct st; [lia|lia|]. trace_step. rewrite app_nil_r. split; [exact Hm|exact Hgc]. }
  set (o1 := set_last_now o now) in *. assert (Hb1 : bound o1) by (apply (bound_keeps o); auto).
  assert (Ha1 : active o1) by exact Ha.
  assert (Hrun : forall m', performs m' (fun p s => moved o1 p s /\ open_gate s) ->
    performs (let! d := descriptor (act_gps0_fd act) in if negb (d =? 0) then ret (b41_download_abort (Ptr at_ o1) d) else m')
      (fun p s => moved o p ([(Clock_gettime, a)] ++ s) /\ gated fd command deadline ([(Clock_gettime, a)] ++ s))).
  { intros m' Hm'. rewrite Hfd. eapply performs_bind; [apply descriptor_looks|]. intros d s (Hl & Hd0 & Hok). destruct (looking_quiet fd command deadline s Hl) as (Q1 & Q2 & Q3).
    trace_step.
    - trace_step. rewrite app_nil_r. split; [|now apply gated_app]. apply (moved_quiet o); [reflexivity..|]. apply (moved_phase o o1); [reflexivity|now apply abort_quiet].
    - destruct Hok as (f1 & f2 & -> & V1 & V2 & V3 & V4); [lia|]. eapply performs_impl; [exact Hm'|]. cbn beta. intros p s [M O]. split.
      + apply (moved_quiet o); [reflexivity..|]. apply (moved_quiet o); [reflexivity..|]. now apply (moved_phase o o1).
      + intros g. unfold open_gate in O. cbn [app gate]. cbn [gate_step fst snd]. rewrite Er. replace (now <? deadline) with true by lia. cbn [gate]. cbn [gate_step fst snd].
        rewrite Z.eqb_refl, V2, V3, V4. replace (0 <=? rc f1) with true by lia. cbn [andb Z.eqb]. destruct (gate fd command deadline 3 s); [eauto|contradiction]. }
  unfold terminal in Ha. destruct Ha as [Ht _]. unfold terminal in Ht. unfold next_action in Hact'. destruct (stage o) eqn:Es; try tauto.
  - destruct Hact' as [Hkind Hby]. rewrite Hkind. apply Hrun. apply step_write_moved; auto.
  - rewrite Hact'. apply Hrun. apply step_read_moved; auto. left. exact Es.
  - destruct Hact' as (Hkind & Hc & Harg). rewrite Hkind. apply Hrun. apply step_submit_moved; auto.
  - rewrite Hact'. apply Hrun. apply step_read_moved; auto. right. exact Es.
Qed.
End Step.

(** ** Begin *)

(** The owner is ready to send [F] and [n] fragments. *)
Record ready (fd : Z) (sel : bootstrap_selectors) (n deadline : Z) (F : list Z) (o : download) : Prop := Ready {
  rd_wf : download_wf o;
  rd_stage : stage o = B41_DOWNLOAD_BOOTSTRAP_TX;
  rd_offset : tx_offset o = 0;
  rd_frame : tx o = F;
  rd_binding : binding o = (fd, sel, n, deadline)
}.
Lemma ready_bound fd sel n deadline F o : ready fd sel n deadline F o -> bound fd sel n deadline F o.
Proof. intros [A B C D E]. split; auto. Qed.
Lemma ready_dialogue fd sel n deadline F o : ready fd sel n deadline F o -> dialogue F n (phase_of o) [] [].
Proof. intros [A B C D E]. unfold phase_of. rewrite B, C. cbn. repeat split; lia. Qed.
Lemma begin_cases env at_ ses query now deadline : at_ <> 0 -> env_ok env -> is_u32 (frag_num (pointee (info (pointee query)))) ->
  let p := settled at_ (b41_download_begin env (Ptr at_ fresh) ses query now deadline) in
  failed p \/ (p.1 = 0 /\ ready (gps0_fd (pointee ses)) (selectors (pointee ses)) (frag_num (pointee (info (pointee query)))) deadline
    (mvcd_frame 8 0 (session_image (to_nearest env) ses query)) p.2).
Proof.
  intros Hat He Hu. cbv zeta. assert (Hab : forall e, failed (b41_download_abort (Ptr at_ fresh) e)) by (intros e; apply abort_failed; [exact Hat|apply fresh_wf|intros [|]; discriminate]).
  assert (Hset : forall e, failed (settled at_ (b41_download_abort (Ptr at_ fresh) e))).
  { intros e. destruct (settled_same at_ Hat (b41_download_abort (Ptr at_ fresh) e)) as [E [X|[_ X]]]; [left; apply Hab|exact X|]. rewrite E in X. destruct (Hab e) as (_ & Y & _). contradiction. }
  unfold b41_download_begin. rewrite (at_null at_ Hat). cbn [pointee addr fresh stage]. change (is_stage B41_DOWNLOAD_NEW B41_DOWNLOAD_NEW) with true. cbn [negb].
  destruct (null ses || _ || _ || _); [left; apply Hset|]. destruct (begin_aliases at_ ses query); [left; apply (Hab (- EINVAL))|].
  destruct (Z.leb_spec deadline now); [left; apply Hset|].
  destruct (b41_bootstrap_frame_build _ _ _ _ _ _ _ _) as [[[st frame] size] stack] eqn:E. destruct st; [|left; apply Hset..].
  destruct (begin_frame _ _ _ _ _ _ _ He E eq_refl) as (Hf & -> & Hlen & Hv). right. split; [reflexivity|]. cbn [settled fst snd Z.eqb].
  assert (Htx : write_at (zeros 116) 0 (slice frame 0 116) = frame).
  { replace (slice frame 0 116) with frame by (rewrite <- Hlen; symmetry; apply slice_all). rewrite (write_at_app [] (zeros 116)) by reflexivity.
    unfold len in Hlen. replace (length frame) with 116%nat by lia. change (drop 116 (zeros 116)) with (@nil Z). now rewrite app_nil_r. }
  change (tx fresh) with (zeros 116). rewrite Htx. pose proof (validate_fragments ses query Hu Hv). split; try reflexivity; [|exact Hf].
  unfold download_wf, tx_ok, rx_ok, progress_ok. cbn. repeat split; lia || reflexivity.
Qed.
(** No device transfer and no fragment. *)
Definition calm (fd command deadline : Z) (s : trace syscall reply) : Prop := sent fd s = [] /\ submitted fd command s = [] /\ gated fd command deadline s.
Lemma calm_looking fd c d s : Forall looking s -> calm fd c d s.
Proof. apply looking_quiet. Qed.
Lemma calm_app fd c d s1 s2 : calm fd c d s1 -> calm fd c d s2 -> calm fd c d (s1 ++ s2).
Proof. intros (A & B & C) (A' & B' & C'). unfold calm. rewrite sent_app, submitted_app, A, B, A', B'. split; [reflexivity|]. split; [reflexivity|now apply gated_app]. Qed.
Lemma calm_info fd c d f k a : calm fd c d [(Ioctl_info f k, a)].
Proof. split; [reflexivity|]. split; [reflexivity|]. intros g. cbn. eauto. Qed.
Lemma looking_clock a : Forall looking [(Clock_gettime, a)].
Proof. repeat constructor. Qed.
#[export] Hint Resolve calm_looking calm_app calm_info looking_clock : core.

(** An owner that has not begun, or has failed, stays so and leaves the device alone. *)
Definition idle (o : download) : Prop := o = fresh \/ stage o = B41_DOWNLOAD_FAILED.
Lemma linux_begin_cases env l at_ ses deadline : at_ <> 0 -> env_ok env ->
  let fd := gps0_fd (pointee ses) in
  let '(_, route) := route_of (selectors (pointee ses)) in
  performs (b41_download_linux_begin env l (Ptr at_ fresh) ses deadline) (fun p s => calm fd (fragment_ioctl route) deadline s /\
    ((p.1 < 0 /\ idle p.2 /\ download_wf p.2) \/
     (p.1 = 0 /\ route_of (selectors (pointee ses)) = (0, route) /\ exists a, (Ioctl_info fd (metadata_ioctl route), a) ∈ s /\ rc a = 0 /\
       ready fd (selectors (pointee ses)) (frag_num (stored_info a)) deadline
         (mvcd_frame 8 0 (session_image (to_nearest env) ses (Ptr (query_at l) (new_query l ses (metadata_ioctl route) (stored_info a))))) p.2))).
Proof.
  intros Hat He. cbv zeta. destruct (route_of (selectors (pointee ses))) as [st route] eqn:Er. set (fd := gps0_fd (pointee ses)).
  assert (Hab : forall e, failed (b41_download_abort (Ptr at_ fresh) e)) by (intros e; apply abort_failed; [exact Hat|apply fresh_wf|intros [|]; discriminate]).
  assert (Hfail : forall e s, calm fd (fragment_ioctl route) deadline s -> calm fd (fragment_ioctl route) deadline s /\
    (((b41_download_abort (Ptr at_ fresh) e).1 < 0 /\ idle (b41_download_abort (Ptr at_ fresh) e).2 /\ download_wf (b41_download_abort (Ptr at_ fresh) e).2) \/
     ((b41_download_abort (Ptr at_ fresh) e).1 = 0 /\ (st, route) = (0, route) /\ exists a, (Ioctl_info fd (metadata_ioctl route), a) ∈ s /\ rc a = 0 /\
       ready fd (selectors (pointee ses)) (frag_num (stored_info a)) deadline
         (mvcd_frame 8 0 (session_image (to_nearest env) ses (Ptr (query_at l) (new_query l ses (metadata_ioctl route) (stored_info a))))) (b41_download_abort (Ptr at_ fresh) e).2))).
  { intros e s Hs. split; [exact Hs|]. left. destruct (Hab e) as (X1 & X2 & X3). unfold idle. auto. }
  unfold b41_download_linux_begin. rewrite (at_null at_ Hat), Er. cbn [pointee addr orb].
  trace_step; [trace_step; split; [auto|left; split; [cbn; lia|split; [now left|apply fresh_wf]]]|]. cbn [fresh stage]. change (is_stage B41_DOWNLOAD_NEW B41_DOWNLOAD_NEW) with true. cbn [negb].
  cbv zeta. trace_step; [trace_step; apply Hfail; auto|]. assert (Hst : st = 0) by (destruct (Z.eqb_spec st 0); [assumption|lia]). subst st.
  eapply performs_bind; [apply descriptor_looks|]. intros d s1 (Hl & _). assert (C1 : calm fd (fragment_ioctl route) deadline s1) by auto.
  trace_step; [trace_step; rewrite app_nil_r; apply Hfail; exact C1|].
  eapply performs_bind; [apply monotonic_reads|]. intros r s2 (a & -> & ->). destruct (reading a); [trace_step; rewrite app_nil_r; apply Hfail; auto|].
  trace_step; [trace_step; rewrite app_nil_r; apply Hfail; auto|]. unfold metadata. eapply performs_bind.
  { instantiate (1 := fun p s => exists b, s = [(Ioctl_info fd (metadata_ioctl route), b)] /\ p = (if rc b <? 0 then failure_of b else rc b, stored_info b)).
    trace_step. trace_step. eauto. }
  intros p s (b & -> & ->). cbn [fst snd]. trace_step; [trace_step; rewrite app_nil_r; apply Hfail; auto 6|].
  assert (Hb : rc b = 0) by (unfold failure_of in *; destruct (Z.ltb_spec (rc b) 0); lia).
  eapply performs_bind; [apply monotonic_reads|]. intros r s3 (a' & -> & ->). destruct (reading a'); [trace_step; rewrite app_nil_r; apply Hfail; auto 7|].
  trace_step. rewrite app_nil_r. split; [auto 7|].
  destruct (begin_cases env at_ ses (Ptr (query_at l) (new_query l ses (metadata_ioctl route) (stored_info b))) z0 deadline Hat He) as [(X1 & X2 & X3)|[X1 X2]].
  - cbn. apply u32_range.
  - left. unfold idle. auto.
  - right. split; [exact X1|]. split; [reflexivity|]. exists b. split; [clear; set_solver|]. split; [exact Hb|exact X2].
Qed.

(** ** Attempts *)

(** [k] steps after the last status. *)
Fixpoint linux_steps (env : Download.environment) (l : locals) (heap : Z -> bootstrap_session) (at_ : Z) (k : nat) (p : Z * download) : sys (Z * download) :=
  match k with O => ret p | S k => let! p := b41_download_linux_step env l heap (Ptr at_ p.2) in linux_steps env l heap at_ k p end.
Lemma linux_step_idle env l heap at_ fd c d o : at_ <> 0 -> idle o -> download_wf o ->
  performs (b41_download_linux_step env l heap (Ptr at_ o)) (fun p s => p.1 < 0 /\ idle p.2 /\ download_wf p.2 /\ calm fd c d s).
Proof.
  intros Hat Ho Hwf. unfold b41_download_linux_step. rewrite (at_null at_ Hat). cbn [pointee addr].
  destruct Ho as [->|Ho].
  - cbn [fresh stage]. change (is_stage B41_DOWNLOAD_NEW B41_DOWNLOAD_FAILED) with false. change (is_stage B41_DOWNLOAD_NEW B41_DOWNLOAD_ACKS_COMPLETE) with false. cbv iota.
    eapply performs_bind; [apply monotonic_reads|]. intros r s (a & -> & ->). destruct (reading a).
    + trace_step. destruct (abort_failed at_ Hat fresh z fresh_wf) as (X1 & X2 & X3); [intros [|]; discriminate|]. split; [exact X1|]. split; [now right|]. split; [exact X3|auto].
    + unfold b41_download_next, check. rewrite (at_null at_ Hat). cbn [pointee fresh stage]. change (- (22)) with (Z.neg 22). cbv iota. trace_step. cbn [fst snd]. split; [lia|]. split; [now left|]. split; [exact Hwf|auto].
  - rewrite Ho. change (is_stage B41_DOWNLOAD_FAILED B41_DOWNLOAD_FAILED) with true. cbv iota. trace_step. cbn [fst snd]. split; [apply (failed_error o Hwf Ho)|]. split; [now right|]. auto.
Qed.
Lemma linux_steps_idle env l heap at_ fd c d k : at_ <> 0 -> forall p, idle p.2 -> download_wf p.2 -> p.1 < 0 ->
  performs (linux_steps env l heap at_ k p) (fun p s => p.1 < 0 /\ idle p.2 /\ calm fd c d s).
Proof.
  intros Hat. induction k as [|k IH]; intros p Hi Hw Hp; cbn [linux_steps]; [trace_step; auto|].
  eapply performs_bind; [now apply (linux_step_idle env l heap at_ fd c d)|]. intros p1 s (A & B & C & D). eapply performs_impl; [now apply IH|]. cbn beta.
  intros p2 s2 (E & F & G). auto.
Qed.
Section Steps.
Context (env : Download.environment) (l : locals) (heap : Z -> bootstrap_session) (at_ : Z).
Context (fd : Z) (sel : bootstrap_selectors) (m command n deadline : Z) (F : list Z).
Context (Hat : at_ <> 0) (Hact : action_at l <> 0) (Hapart : overlaps at_ sizeof_download (action_at l) sizeof_action = false).
Context (Hroute : route_of sel = (0, Route m command)) (HF : len F = 116) (Hn : 0 <= n).
Lemma linux_steps_moved k : forall p s0, bound fd sel n deadline F p.2 -> stage p.2 <> B41_DOWNLOAD_NEW ->
  (p.1 = 0 /\ stage p.2 <> B41_DOWNLOAD_FAILED) \/ (p.1 < 0 /\ stage p.2 = B41_DOWNLOAD_FAILED) ->
  dialogue F n (phase_of p.2) (sent fd s0) (submitted fd command s0) -> gated fd command deadline s0 ->
  performs (linux_steps env l heap at_ k p) (fun p s => ((p.1 = 0 /\ stage p.2 <> B41_DOWNLOAD_FAILED) \/ (p.1 < 0 /\ stage p.2 = B41_DOWNLOAD_FAILED)) /\
    dialogue F n (phase_of p.2) (sent fd (s0 ++ s)) (submitted fd command (s0 ++ s)) /\ gated fd command deadline (s0 ++ s)).
Proof.
  induction k as [|k IH]; intros p s0 Hb Hs Hst Hd Hg; cbn [linux_steps]; [trace_step; rewrite app_nil_r; auto|].
  eapply performs_bind; [apply (linux_step_moved env l heap at_ fd sel m command n deadline F); assumption|]. intros p1 s1 [[A B C D] G].
  eapply performs_impl; [apply (IH p1 (s0 ++ s1)); auto|].
  - rewrite sent_app, submitted_app. now apply D.
  - now apply gated_app.
  - cbn beta. intros p2 s2 H. rewrite app_assoc. exact H.
Qed.
End Steps.
Lemma settled_wf at_ p : at_ <> 0 -> download_wf p.2 -> download_wf (settled at_ p).2.
Proof. intros Hat H. unfold settled. destruct (_ =? 0); [exact H|]. now apply abort_wf. Qed.
Definition download_attempt (env : Download.environment) (l : locals) (heap : Z -> bootstrap_session) (at_ : Z) (ses : ptr bootstrap_session) (deadline : Z) (k : nat) :
    sys (Z * download) :=
  let! p := b41_download_linux_begin env l (Ptr at_ fresh) ses deadline in linux_steps env l heap at_ k p.

(** A device that takes every byte and acknowledges everything. *)
Module Device.
Definition acknowledgement (s : trace syscall reply) : list Z :=
  match filter (fun e => match e.1 with Ioctl _ _ _ => true | _ => false end = true) s with
  | [] => mvcd_frame 49 0 [0; 0; 0; 0]
  | es => mvcd_frame 50 0 (put16 (len es))
  end.
Definition answer (s : trace syscall reply) (q : syscall) : reply :=
  match q with
  | Clock_gettime => Reply 0 1 0 100 []
  | Getfl _ => Reply 2050 1 0 0 []
  | Fstat _ => Reply 0 1 0x21b0 0 []
  | Ioctl_info _ _ => Reply 0 1 0 0 [1024; 2048; 4096; 77; 3]
  | Write _ b => Reply (Z.min 50 (len b)) 1 0 0 []
  | Read _ _ => Reply 1 1 0 0 (acknowledgement s)
  | _ => Reply 0 1 0 0 []
  end.
Definition locals_1 : locals := Locals 0xb000 0xb100 0xb200 0xc000.
End Device.
(** The attempt sends the frame in three parts and submits the three fragments. *)
Example demo_download :
  let '(p, s) := download_attempt env_1 Device.locals_1 heap_1 0x9000 session_1 200 10 Device.answer [] in
  p.1 = 0 /\ stage p.2 = B41_DOWNLOAD_ACKS_COMPLETE /\ len (sent (gps0_fd (pointee session_1)) s) = 116 /\ submitted (gps0_fd (pointee session_1)) 26 s = [0; 1; 2].
Proof. vm_compute. auto. Qed.

(** The download over system calls. In every environment, for any number of
    steps after a begin, the device is used only through an open gate: each
    transfer and each fragment request directly follows a clock reading before
    the deadline and the checks of the descriptor. What the device took is what
    the owner's phase tells: a prefix of the frame of this session and of the
    metadata the device itself reported, then fragments 0, 1, 2, ... in order,
    none before the whole frame was taken, and all of them when the owner has
    completed. An attempt that could not begin sends nothing. *)
Theorem download_dialogue env l heap at_ ses deadline k :
  at_ <> 0 -> env_ok env -> action_at l <> 0 -> overlaps at_ sizeof_download (action_at l) sizeof_action = false ->
  let fd := gps0_fd (pointee ses) in
  let route := (route_of (selectors (pointee ses))).2 in
  performs (download_attempt env l heap at_ ses deadline k) (fun p s =>
    gated fd (fragment_ioctl route) deadline s /\ (p.1 = 0 -> stage p.2 <> B41_DOWNLOAD_FAILED) /\
    ((idle p.2 /\ sent fd s = [] /\ submitted fd (fragment_ioctl route) s = []) \/
     exists a, (Ioctl_info fd (metadata_ioctl route), a) ∈ s /\ rc a = 0 /\
       dialogue (mvcd_frame 8 0 (session_image (to_nearest env) ses (Ptr (query_at l) (new_query l ses (metadata_ioctl route) (stored_info a)))))
         (frag_num (stored_info a)) (phase_of p.2) (sent fd s) (submitted fd (fragment_ioctl route) s))).
Proof.
  intros Hat He Hact Hap fd route. unfold download_attempt. pose proof (linux_begin_cases env l at_ ses deadline Hat He) as Hb. cbv zeta in Hb.
  subst route. destruct (route_of (selectors (pointee ses))) as [st route] eqn:Er. cbn [snd] in *.
  eapply performs_bind; [exact Hb|]. intros p s [Hc [(H1 & H2 & H3)|(H1 & Hr & a & Ha & Hrc & Hready)]].
  - eapply performs_impl; [apply (linux_steps_idle env l heap at_ fd (fragment_ioctl route) deadline); assumption|]. cbn beta. intros p' s' (A & B & C).
    pose proof (calm_app _ _ _ _ _ Hc C) as (D & E & F). split; [exact F|]. split; [lia|]. left. auto.
  - set (F := mvcd_frame 8 0 _) in *. injection Hr as ->. destruct route as [m command]. cbn [metadata_ioctl fragment_ioctl] in *.
    assert (HF : len F = 116) by (destruct (rd_wf _ _ _ _ _ _ Hready) as (X & _); unfold tx_ok in X; rewrite (rd_stage _ _ _ _ _ _ Hready), (rd_frame _ _ _ _ _ _ Hready) in X; apply X).
    assert (Hn : 0 <= frag_num (stored_info a)) by (cbn; pose proof (u32_range (nth 4 (out a) 0)) as X; unfold is_u32 in X; unfold word_of; lia).
    destruct Hc as (C1 & C2 & C3).
    eapply performs_impl; [apply (linux_steps_moved env l heap at_ fd (selectors (pointee ses)) m command (frag_num (stored_info a)) deadline F Hat Hact Hap Er HF Hn k p s)|].
    + now apply ready_bound.
    + rewrite (rd_stage _ _ _ _ _ _ Hready). discriminate.
    + left. rewrite (rd_stage _ _ _ _ _ _ Hready). split; [exact H1|discriminate].
    + change (sent fd s = []) in C1. change (submitted fd command s = []) in C2. rewrite C1, C2. eapply ready_dialogue, Hready.
    + exact C3.
    + cbn beta. intros p' s' (A & B & C). split; [exact C|]. split; [intros E; destruct A as [[_ A]|[A _]]; [exact A|lia]|]. right. exists a.
      split; [apply elem_of_app; now left|]. split; [exact Hrc|exact B].
Qed.
Lemma download_dialogue_witness : performs (download_attempt env_1 Device.locals_1 heap_1 0x9000 session_1 200 10) (fun p s =>
    gated (gps0_fd (pointee session_1)) 26 200 s /\ (p.1 = 0 -> stage p.2 <> B41_DOWNLOAD_FAILED)).
Proof.
  eapply performs_impl; [apply (download_dialogue env_1 Device.locals_1 heap_1 0x9000 session_1 200 10); [lia|apply env_1_ok|cbn; lia|reflexivity]|].
  intros p s (A & B & _). split; [exact A|exact B].
Defined.
