(* ===== verification/Runner.v ===== *)
(** * The GNSS download program: [main] of [dsp-download/live-inputs/selectors.c]

    The standalone program that acquires the profile, the chip and the clock,
    builds the native policy ([Nominal]), begins the download and drives it to
    its end over system calls ([DownloadLinux]), and closes what it opened. This
    is the build without [B41_NATIVE_L1_RETAINED_SESSION]. *)

From Stdlib Require Import Sorting.Sorted.
From S2P Require Import Prelude Trace Binary754 Clock Fields Wire Bootstrap Download Nominal DownloadLinux.
Open Scope Z_scope.
Open Scope io_scope.

Abbreviation B41_FIRST_CONSTANT := 1 (only parsing).
Abbreviation B41_FIRST_CLOCK_RESULT := 3 (only parsing).
Abbreviation B41_FIRST_LNA_RESULT := 4 (only parsing).
Abbreviation B41_FIRST_NVRAM_PROFILE := 8 (only parsing).
Abbreviation B41_FIRST_CLOCK_QUERY := 2 (only parsing).
Abbreviation B41_FIRST_LNA_QUERY := 4 (only parsing).

(** ** The first configuration *)

(** [count] bytes of [value] from [offset], and their provenance. *)
Fixpoint first_bytes (b p : list Z) (offset value prov : Z) (count : nat) : list Z * list Z :=
  match count with
  | O => (b, p)
  | S count => first_bytes (write_at b offset [u8 value]) (write_at p offset [prov]) (offset + 1) (Z.shiftr value 8) prov count
  end.
Definition unresolved (p : list Z) : Z := len (filter (fun x => x = B41_FIRST_UNKNOWN) p).
Definition first_word (first : first_config) (offset value : Z) (count : nat) (prov : Z) : first_config :=
  let '(b, p) := first_bytes (Nominal.bytes first) (provenance first) offset value prov count in
  First b p (missing_inputs first) (unresolved p) (xml_policy_missing first).
Definition acquired (first : first_config) (mask : Z) : first_config :=
  First (Nominal.bytes first) (provenance first) (Z.ldiff (missing_inputs first) mask) (unresolved_bytes first) (xml_policy_missing first).

(** A failing call's status, or the stored bytes of an exact transfer. *)
Definition pread_exact (fd count offset : Z) : sys (Z + list Z) :=
  let! a := ask (Pread fd count offset) in
  ret (if rc a <? 0 then inl (failure_of a) else if negb (rc a =? count) then inl (- EMSGSIZE) else inr (u8 <$> take (Z.to_nat count) (out a ++ zeros count))).
Definition s_isreg (mode : Z) : bool := Z.land mode 0xf000 =? 0x8000.
(** What is read of an open profile. *)
Definition profile_bytes (fd : Z) : sys (Z + list Z) :=
  let! st := ask (Fstat fd) in
  if negb (rc st =? 0) then ret (inl (failure_of st))
  else if negb (s_isreg (DownloadLinux.first st)) || negb (second st =? 54) then ret (inl (- EMSGSIZE))
  else
  let! name := pread_exact fd 1 0 in
  match name with
  | inl e => ret (inl e)
  | inr name =>
    let! numeric := pread_exact fd 10 24 in
    match numeric with
    | inl e => ret (inl e)
    | inr numeric => ret (if byte_at name 0 =? 0 then inl (- ENODATA) else inr numeric)
    end
  end.
Definition first_of (numeric : list Z) : first_config * Z * Z :=
  let interval := le16 numeric 4 in
  let interval := if interval =? 0 then 2000 else interval in
  let first := First (zeros B41_FIRST_SIZE) (zeros B41_FIRST_SIZE) (B41_FIRST_CLOCK_QUERY + B41_FIRST_LNA_QUERY + 8 + 16 + 32 + 64) 0 1 in
  let first := first_word first 0x14 interval 2 B41_FIRST_NVRAM_PROFILE in
  let first := first_word first 0x18 (le32 numeric 0) 4 B41_FIRST_NVRAM_PROFILE in
  let first := first_word first 0x24 (byte_at numeric 9) 1 B41_FIRST_NVRAM_PROFILE in
  (first_word first 0x1c 115200 4 B41_FIRST_CONSTANT, interval, byte_at numeric 8).
(** The configuration, the interval and the mode. *)
Definition profile_read : sys (Z + first_config * Z * Z) :=
  let! f := ask (Open Profile_file) in
  if rc f <? 0 then ret (inl (failure_of f))
  else
  let! r := profile_bytes (rc f) in
  let! c := ask (Close (rc f)) in
  ret (match r with
       | inl e => inl e
       | inr numeric => if negb (rc c =? 0) then inl (failure_of c) else inr (first_of numeric)
       end).

(** ** Begin *)

Definition native_begin_refused (owner : ptr download) (policy : ptr native_l1_nominal) (ses : ptr bootstrap_session) : bool :=
  negb (addr (fields (pointee ses)) =? addr policy) || negb (secure_download_7178b8_33e (selectors (pointee ses)) =? 1)
  || negb (dsp_selector_717cb0 (selectors (pointee ses)) =? 0).
Definition b41_native_l1_download_linux_begin (env : Download.environment) (l : locals) (owner : ptr download) (policy : ptr native_l1_nominal)
    (ses : ptr bootstrap_session) (deadline : Z) : sys (Z * download) :=
  let o := pointee owner in
  if null owner || null policy || null ses then ret (- EINVAL, o)
  else if negb (is_stage (stage o) B41_DOWNLOAD_NEW) then ret (if is_stage (stage o) B41_DOWNLOAD_FAILED then first_error o else - EALREADY, o)
  else if Bootstrap.overlaps (addr owner) sizeof_download (addr policy) sizeof_nominal || Bootstrap.overlaps (addr owner) sizeof_download (addr ses) sizeof_session
  then ret (- EINVAL, o)
  else if native_begin_refused owner policy ses then ret (b41_download_abort owner (- EINVAL))
  else
  let! d := descriptor (gps0_fd (pointee ses)) in
  if negb (d =? 0) then ret (b41_download_abort owner d)
  else
  let! t := monotonic in
  match t with
  | inl e => ret (b41_download_abort owner e)
  | inr now =>
    if deadline <=? now then ret (b41_download_abort owner (- ETIMEDOUT))
    else
    let! m := metadata (gps0_fd (pointee ses)) 23 in
    if negb (m.1 =? 0) then ret (b41_download_abort owner m.1)
    else
    let! t := monotonic in
    match t with
    | inl e => ret (b41_download_abort owner e)
    | inr now =>
      ret (settled (addr owner) (b41_native_l1_download_begin env owner policy ses (Ptr (query_at l) (new_query l ses 23 m.2)) now deadline))
    end
  end.

(** ** The program *)

Definition scalar_query (fd command argument : Z) : sys Z :=
  let! a := ask (Ioctl fd command argument) in ret (if rc a <? 0 then failure_of a else rc a).
(** An ioctl with a word result: its status and the word. *)
Definition word_query (fd command : Z) : sys (Z * Z) :=
  let! a := ask (Ioctl_word fd command) in ret (if rc a <? 0 then failure_of a else rc a, word_of a 0).

(** The addresses of the automatic objects of [main] and of a static one. *)
Record frame_layout : Type := Layout { no_secondary_at : Z; policy_at : Z; session_at : Z; owner_at : Z; main_locals : locals; main_env : Download.environment }.

(** The loop; [None] when the fuel is spent. *)
Fixpoint download_loop (fl : frame_layout) (ses : bootstrap_session) (fuel : nat) (p : Z * download) : sys (option (Z * download)) :=
  if negb (p.1 =? 0) || is_stage (stage p.2) B41_DOWNLOAD_ACKS_COMPLETE then ret (Some p)
  else
  match fuel with
  | O => ret None
  | S fuel =>
    let! i := ask Interrupted in
    if negb (rc i =? 0) then ret (Some (b41_download_abort (Ptr (owner_at fl) p.2) (- EINTR)))
    else
    let! p := b41_download_linux_step (main_env fl) (main_locals fl) (fun _ => ses) (Ptr (owner_at fl) p.2) in
    if (p.1 =? 0) && negb (is_stage (stage p.2) B41_DOWNLOAD_ACKS_COMPLETE) then
      let! z := ask Nanosleep in
      download_loop fl ses fuel (if rc z =? 0 then p else b41_download_abort (Ptr (owner_at fl) p.2) (failure_of z))
    else download_loop fl ses fuel p
  end.
(** What [main] has where the policy is built. *)
Definition no_policy : native_l1_nominal :=
  Nominal (BootstrapInputs 0 0 0 0 0 0 0 0 0 0 0 (Ptr 0 []) 0 0 (Ptr 0 (PrivateClock [] []))) (BootstrapFields [] [] [] 0 0 0) (Selectors 0 0) (Mode 0 0 0 0).
(** With an open device: clock and LNA queries, policy, download. The status
    and the owner. *)
Definition device_session (fl : frame_layout) (fuel : nat) (gps deadline : Z) (chip : native_l1_identity) (first : first_config) : sys (option (Z * download)) :=
  let stop status := ret (Some (status, fresh)) in
  let! clock11 := scalar_query gps 11 0 in
  if clock11 <? 0 then stop clock11
  else
  let! clock30 := scalar_query gps 30 0 in
  if clock30 <? 0 then stop clock30
  else if negb (clock11 =? 33) || negb (clock30 =? 0) then stop (- EOPNOTSUPP)
  else
  let first := acquired (first_word first 0x13 0xfe 1 B41_FIRST_CLOCK_RESULT) B41_FIRST_CLOCK_QUERY in
  let! lna := word_query gps 16 in
  if negb (lna.1 =? 0) && (negb (lna.1 =? - EFAULT) || negb (lna.2 =? 0)) then stop (if lna.1 <? 0 then lna.1 else - EPROTO)
  else
  let first := first_word first 0x54 lna.2 4 (if lna.1 =? 0 then B41_FIRST_LNA_RESULT else B41_FIRST_CONSTANT) in
  let first := if lna.1 =? 0 then acquired first B41_FIRST_LNA_QUERY else first in
  let! aux := word_query gps 29 in
  if negb (aux.1 =? - EFAULT) || negb (aux.2 =? 0) then stop (if aux.1 <? 0 then aux.1 else - EOPNOTSUPP)
  else
  match b41_native_l1_nominal_build (to_nearest (main_env fl)) (no_secondary_at fl) (Some chip) (Some first) clock11 clock30
          (Some no_policy) with
  | (0, Some policy) =>
    let! _ := ask Output in
    let ses := Session gps (n_selectors policy) (Ptr (policy_at fl) (inputs policy)) in
    let! p := b41_native_l1_download_linux_begin (main_env fl) (main_locals fl) (Ptr (owner_at fl) fresh) (Ptr (policy_at fl) policy) (Ptr (session_at fl) ses) deadline in
    let! r := download_loop fl ses fuel p in
    match r with
    | None => ret None
    | Some p => if p.1 =? 0 then let! _ := ask Output in ret (Some p) else ret (Some p)
    end
  | (e, _) => stop e
  end.
(** From the label [done]: the exit code and the owner with its buffers
    erased. [conn] and [gps] are descriptors or negative. *)
Definition close_status (fd status : Z) : sys Z :=
  if fd <? 0 then ret status
  else let! c := ask (Close fd) in ret (if negb (rc c =? 0) && (status =? 0) then failure_of c else status).
Definition wipe (o : download) : download :=
  set_rx (set_tx o (forget (tx o) B41_MVCD_BOOTSTRAP_FRAME_SIZE) (tx_size o) (tx_offset o)) (forget (rx o) sizeof_rx) (rx_size o).
Definition done (conn gps status : Z) (o : download) : sys (option (Z * download)) :=
  let! status := close_status gps status in
  let! status := close_status conn status in
  let! _ := ask (Alarm 0) in
  if status =? 0 then ret (Some (0, wipe o)) else let! _ := ask Output in ret (Some (1, wipe o)).
(** From the chip on: the two devices. *)
Definition open_devices (fl : frame_layout) (fuel : nat) (deadline : Z) (first : first_config) : sys (option (Z * download)) :=
  let stop conn status := done conn (-1) status fresh in
  let! f := ask (Open Conninfra) in
  if rc f <? 0 then stop (-1) (failure_of f)
  else
  let conn := rc f in
  let! hw := scalar_query conn 0x8004c200 0 in
  if hw <? 0 then stop conn hw
  else
  let! adie := scalar_query conn 0x8004c203 2 in
  if adie <? 0 then stop conn adie
  else
  match b41_native_l1_identity_select (u32 hw) (u32 adie) (Some (Identity 0 0 0 0 0 0 0)) with
  | (0, Some chip) =>
    let! c := ask (Close conn) in
    if negb (rc c =? 0) then stop (-1) (failure_of c)
    else
    let! t := monotonic in
    match t with
    | inl e => stop (-1) e
    | inr now =>
      let! i := ask Interrupted in
      if negb (rc i =? 0) || (deadline <=? now) then let! i := ask Interrupted in stop (-1) (if negb (rc i =? 0) then - EINTR else - ETIMEDOUT)
      else
      let! g := ask (Open Gpsdl0) in
      if rc g <? 0 then stop (-1) (failure_of g)
      else
      let! r := device_session fl fuel (rc g) deadline chip first in
      match r with
      | None => ret None
      | Some (status, o) => done (-1) (rc g) status o
      end
    end
  | (e, _) => stop conn e
  end.
Definition set_signals : sys Z :=
  let! a := ask (Sigaction 2) in
  if negb (rc a =? 0) then ret (failure_of a)
  else
  let! b := ask (Sigaction 15) in
  if negb (rc b =? 0) then ret (failure_of b)
  else
  let! c := ask (Sigaction 14) in ret (if negb (rc c =? 0) then failure_of c else 0).
(** With valid arguments. *)
Definition attempt (fl : frame_layout) (fuel : nat) (timeout_ms : Z) : sys (option (Z * download)) :=
  let stop status := done (-1) (-1) status fresh in
  let! t := monotonic in
  match t with
  | inl e => stop e
  | inr now =>
    if UINT64_MAX - timeout_ms * 1000000 <? now then stop (- EOVERFLOW)
    else
    let deadline := now + timeout_ms * 1000000 in
    let! s := set_signals in
    if negb (s =? 0) then stop s
    else
    let! _ := ask (Alarm ((timeout_ms + 999) / 1000 + 2)) in
    let! p := profile_read in
    match p with
    | inl e => stop e
    | inr (first, interval, nv_mode) => open_devices fl fuel deadline first
    end
  end.
(** The characters 0 to 9 and their value; --help. *)
Definition digit (c : Z) : bool := (48 <=? c) && (c <=? 57).
Definition decimal (s : list Z) : Z := fold_left (fun v c => v * 10 + (c - 48)) s 0.
Definition help : list Z := [45; 45; 104; 101; 108; 112].
(** The timeout; [inl] is an exit code. [args] are the arguments after the name. *)
Definition parse_arguments (args : list (list Z)) : Z + Z :=
  match args with
  | [a] => if bool_decide (a = help) then inl 0 else if (byte_at a 0 =? 0) || (byte_at a 0 =? 45) then inl 2 else inr 5000
  | [a; t] =>
    if (byte_at a 0 =? 0) || (byte_at a 0 =? 45) then inl 2
    else if bool_decide (t = []) || negb (forallb digit t) then inl 2
    else if (decimal t <? 1) || (30000 <? decimal t) then inl 2
    else inr (decimal t)
  | _ => inl 2
  end.
Definition main (fl : frame_layout) (fuel : nat) (args : list (list Z)) : sys (option (Z * download)) :=
  match parse_arguments args with
  | inl 0 => let! _ := ask Output in ret (Some (0, fresh))
  | inl code => ret (Some (code, fresh))
  | inr timeout_ms => attempt fl fuel timeout_ms
  end.

(** ** Descriptors *)

(** Descriptors handed out and given back. *)
Definition opened (fd : Z) (e : syscall * reply) : Z :=
  match e.1 with Open _ => if rc e.2 <? 0 then 0 else if rc e.2 =? fd then 1 else 0 | Close f => if f =? fd then -1 else 0 | _ => 0 end.
Definition net (fd : Z) (s : trace syscall reply) : Z := fold_right (fun e n => opened fd e + n) 0 s.
Lemma runner_net_app fd s1 s2 : net fd (s1 ++ s2) = net fd s1 + net fd s2.
Proof. induction s1 as [|e s1 IH]; [reflexivity|]. cbn [app net fold_right]. fold (net fd (s1 ++ s2)) (net fd s1). lia. Qed.
(** Requests that neither transfer nor submit; requests that neither open nor close. *)
Definition plain (e : syscall * reply) : Prop := match e.1 with Write _ _ | Read _ _ => False | Ioctl _ c _ => c <> 25 | _ => True end.
Definition keeping (e : syscall * reply) : Prop := match e.1 with Open _ | Close _ => False | _ => True end.
Lemma keeping_net fd s : Forall keeping s -> net fd s = 0.
Proof. induction 1 as [|e s He Hs IH]; [reflexivity|]. cbn [net fold_right]. fold (net fd s). rewrite IH. unfold keeping, opened in *. destruct e.1; easy. Qed.
Lemma plain_calm fd d s : Forall plain s -> calm fd 25 d s.
Proof.
  induction 1 as [|e s He Hs (A & B & C)]; [split; [reflexivity|split; [reflexivity|apply gated_nil]]|]. unfold plain in He. unfold calm, sent, submitted in *. cbn [flat_map].
  rewrite A, B, !app_nil_r. unfold accepted, performed. split; [destruct e.1; easy|]. split.
  - destruct e.1; try easy. replace (command =? 25) with false by lia. now rewrite andb_false_r.
  - intros g. cbn [gate]. unfold gate_step. destruct e.1; try easy; try apply C. replace (command =? 25) with false by lia. rewrite andb_false_r. apply C.
Qed.
Lemma looking_plain s : Forall looking s -> Forall plain s /\ Forall keeping s.
Proof. intros H. split; eapply Forall_impl; try exact H; intros e; unfold looking, plain, keeping; destruct e.1; tauto. Qed.
(** A segment that does neither. *)
Definition neutral (s : trace syscall reply) : Prop := Forall plain s /\ Forall keeping s.
Lemma neutral_app s1 s2 : neutral s1 -> neutral s2 -> neutral (s1 ++ s2).
Proof. intros [A B] [C D]. split; now apply Forall_app. Qed.
Lemma neutral_nil : neutral [].
Proof. split; constructor. Qed.
Lemma neutral_cons e s : plain e -> keeping e -> neutral s -> neutral (e :: s).
Proof. intros H1 H2 [H3 H4]. split; now constructor. Qed.
#[export] Hint Resolve neutral_app neutral_nil : core.
#[export] Hint Extern 1 (neutral (_ :: _)) => apply neutral_cons; [cbn; lia || exact I|exact I|] : core.
Lemma neutral_looking s : Forall looking s -> neutral s.
Proof. apply looking_plain. Qed.
#[export] Hint Resolve neutral_looking : core.

Lemma scalar_query_neutral fd c x : c <> 25 -> performs (scalar_query fd c x) (fun _ s => neutral s).
Proof. intros Hc. unfold scalar_query. trace_step. trace_step. apply neutral_cons; [exact Hc|exact I|auto]. Qed.
Lemma word_query_neutral fd c : performs (word_query fd c) (fun _ s => neutral s).
Proof. unfold word_query. trace_step. trace_step. auto. Qed.
Lemma monotonic_neutral : performs monotonic (fun _ s => neutral s).
Proof. eapply performs_impl; [apply monotonic_reads|]. cbn beta. intros r s (a & -> & _). auto. Qed.
Lemma set_signals_neutral : performs set_signals (fun r s => neutral s /\ r <= 0).
Proof.
  unfold set_signals, failure_of. trace_step. trace_step; [trace_step; split; [auto|lia]|]. trace_step. trace_step; [trace_step; split; [auto|lia]|]. trace_step. trace_step. split; [auto|].
  destruct (rc p1 =? 0); cbn; lia.
Qed.
Lemma pread_exact_neutral fd count offset : performs (pread_exact fd count offset) (fun r s => neutral s /\ match r with inl e => e < 0 | inr _ => True end).
Proof. unfold pread_exact, failure_of. trace_step. trace_step. split; [auto|]. destruct (rc p <? 0); [lia|]. destruct (rc p =? count); [exact I|cbn; lia]. Qed.
Lemma profile_bytes_neutral fd : performs (profile_bytes fd) (fun r s => neutral s /\ match r with inl e => e < 0 | inr _ => True end).
Proof.
  unfold profile_bytes, failure_of. trace_step. trace_step; [trace_step; split; [auto|lia]|]. trace_step; [trace_step; split; [auto|lia]|].
  eapply performs_bind; [apply pread_exact_neutral|]. intros [e|name] s [H1 H2]; [trace_step; rewrite app_nil_r; split; [auto|exact H2]|].
  eapply performs_bind; [apply pread_exact_neutral|]. intros [e|num] s' [H3 H4]; [trace_step; rewrite app_nil_r; split; [auto|exact H4]|].
  trace_step. split; [rewrite app_nil_r; auto|]. destruct (byte_at name 0 =? 0); [lia|exact I].
Qed.
(** The profile is opened and closed. *)
Definition even (s : trace syscall reply) : Prop := Forall plain s /\ forall fd, net fd s = 0.
Lemma even_app s1 s2 : even s1 -> even s2 -> even (s1 ++ s2).
Proof. intros [A B] [C D]. split; [now apply Forall_app|]. intros fd. rewrite runner_net_app, B, D. reflexivity. Qed.
Lemma even_neutral s : neutral s -> even s.
Proof. intros [A B]. split; [exact A|]. intros fd. now apply keeping_net. Qed.
#[export] Hint Resolve even_app even_neutral : core.
Lemma even_opened path f s c : 0 <= rc f -> neutral s -> even ((Open path, f) :: s ++ [(Close (rc f), c)]).
Proof.
  intros Hf [A B]. split; [constructor; [exact I|]; apply Forall_app; split; [exact A|repeat constructor]|]. intros fd. change (_ :: _) with ([(Open path, f)] ++ s ++ [(Close (rc f), c)]).
  rewrite !runner_net_app, (keeping_net fd s B). cbn. replace (rc f <? 0) with false by lia. destruct (rc f =? fd); lia.
Qed.
Lemma profile_read_even : performs profile_read (fun r s => even s /\ match r with inl e => e < 0 | inr _ => True end).
Proof.
  unfold profile_read. trace_step. trace_step; [trace_step; split; [|unfold failure_of; lia]|].
  { split; [repeat constructor|]. intros fd. cbn. now rewrite G. }
  eapply performs_bind; [apply profile_bytes_neutral|]. intros r s [H1 H2]. trace_step. trace_step. split; [apply even_opened; [lia|exact H1]|].
  destruct r; [exact H2|]. destruct (negb _); [unfold failure_of; lia|exact I].
Qed.

(** ** Begin and loop *)

Lemma metadata_asks fd c : performs (metadata fd c) (fun p s => exists b, s = [(Ioctl_info fd c, b)] /\ p = (if rc b <? 0 then failure_of b else rc b, stored_info b)).
Proof. unfold metadata. trace_step. trace_step. eauto. Qed.
Lemma native_begin_cases env l at_ policy ses deadline : at_ <> 0 -> env_ok env -> policy_shape (pointee policy) -> n_selectors (pointee policy) = Selectors 1 0 ->
  selectors (pointee ses) = Selectors 1 0 ->
  performs (b41_native_l1_download_linux_begin env l (Ptr at_ fresh) policy ses deadline) (fun p s => neutral s /\ download_wf p.2 /\
    ((p.1 < 0 /\ idle p.2) \/
     (p.1 = 0 /\ exists a, (Ioctl_info (gps0_fd (pointee ses)) 23, a) ∈ s /\ rc a = 0 /\
       ready (gps0_fd (pointee ses)) (Selectors 1 0) (frag_num (stored_info a)) deadline (nominal_frame (pointee policy) (stored_info a)) p.2))).
Proof.
  intros Hat He Hp Hsel Hses. set (fd := gps0_fd (pointee ses)).
  assert (Hab : forall e, failed (b41_download_abort (Ptr at_ fresh) e)) by (intros e; apply abort_failed; [exact Hat|apply fresh_wf|intros [|]; discriminate]).
  assert (Hfail : forall e s, neutral s -> neutral s /\ download_wf (b41_download_abort (Ptr at_ fresh) e).2 /\
    (((b41_download_abort (Ptr at_ fresh) e).1 < 0 /\ idle (b41_download_abort (Ptr at_ fresh) e).2) \/
     ((b41_download_abort (Ptr at_ fresh) e).1 = 0 /\ exists a, (Ioctl_info fd 23, a) ∈ s /\ rc a = 0 /\
       ready fd (Selectors 1 0) (frag_num (stored_info a)) deadline (nominal_frame (pointee policy) (stored_info a)) (b41_download_abort (Ptr at_ fresh) e).2))).
  { intros e s Hs. destruct (Hab e) as (X1 & X2 & X3). split; [exact Hs|]. split; [exact X3|]. left. unfold idle. auto. }
  assert (Hkeep : forall s, neutral s -> neutral s /\ download_wf fresh /\ ((- EINVAL < 0 /\ idle fresh) \/ (- EINVAL = 0 /\ exists a, (Ioctl_info fd 23, a) ∈ s /\ rc a = 0 /\
       ready fd (Selectors 1 0) (frag_num (stored_info a)) deadline (nominal_frame (pointee policy) (stored_info a)) fresh))).
  { intros s Hs. split; [exact Hs|]. split; [apply fresh_wf|]. left. split; [lia|now left]. }
  unfold b41_native_l1_download_linux_begin. rewrite (at_null at_ Hat). cbn [pointee addr orb].
  trace_step; [trace_step; now apply Hkeep|]. cbn [fresh stage]. change (is_stage B41_DOWNLOAD_NEW B41_DOWNLOAD_NEW) with true. cbn [negb].
  trace_step; [trace_step; now apply Hkeep|]. trace_step; [trace_step; now apply Hfail|].
  eapply performs_bind; [apply descriptor_looks|]. intros d s1 (Hl & _). assert (C1 : neutral s1) by auto. trace_step; [trace_step; rewrite app_nil_r; now apply Hfail|].
  eapply performs_bind; [apply monotonic_reads|]. intros r s2 (a & -> & ->). destruct (reading a); [trace_step; rewrite app_nil_r; apply Hfail; auto|].
  trace_step; [trace_step; rewrite app_nil_r; apply Hfail; auto|].
  eapply performs_bind; [apply metadata_asks|]. intros p s (b & -> & ->). cbn [fst snd]. trace_step; [trace_step; rewrite app_nil_r; apply Hfail; auto 6|].
  assert (Hb : rc b = 0) by (unfold failure_of in *; destruct (Z.ltb_spec (rc b) 0); lia).
  eapply performs_bind; [apply monotonic_reads|]. intros r s3 (a' & -> & ->). destruct (reading a') as [e|now]; [trace_step; rewrite app_nil_r; apply Hfail; auto 7|].
  trace_step. rewrite app_nil_r. set (query := Ptr (query_at l) (new_query l ses 23 (stored_info b))).
  destruct (b41_native_l1_download_begin env (Ptr at_ fresh) policy ses query now deadline) as [st o'] eqn:Eb.
  destruct (nominal_begin_cases env at_ fresh policy ses query now deadline st o' Hat He fresh_wf Hp) as [[Hw _] Hc]; [cbn; apply u32_range|exact Eb|].
  split; [auto 7|]. split; [apply settled_wf; [exact Hat|exact Hw]|]. destruct (Hc eq_refl) as [[X1 X2]|(X1 & X2 & X3 & X4 & X5 & X6 & X7 & X8 & X9 & X10 & X11 & X12 & X13)].
  - left. unfold settled. cbn [fst snd]. destruct (Z.eqb_spec st 0); [contradiction|]. destruct X2 as [->|X2]; [destruct (Hab st) as (Y1 & Y2 & _); unfold idle; auto|].
    unfold b41_download_abort. rewrite (at_null at_ Hat). cbn [pointee]. rewrite X2. change (is_stage B41_DOWNLOAD_FAILED B41_DOWNLOAD_FAILED) with true. cbv iota. cbn [fst snd].
    split; [apply (failed_error o' Hw X2)|now right].
  - right. subst st. cbn [settled fst snd Z.eqb]. split; [reflexivity|]. exists b. split; [clear; set_solver|]. split; [exact Hb|].
    split; auto. unfold binding. rewrite X9, X10, X11, X13, Hses. reflexivity.
Qed.
(** A step neither opens nor closes. *)
Definition holds_open {A} (m : sys A) : Prop := performs m (fun _ s => Forall keeping s).
Lemma holds_ret {A} (a : A) : holds_open (ret a).
Proof. unfold holds_open. trace_step. constructor. Qed.
Lemma holds_bind {A B} (m : sys A) (k : A -> sys B) : holds_open m -> (forall a, holds_open (k a)) -> holds_open (bind m k).
Proof. intros H1 H2. unfold holds_open. eapply performs_bind; [exact H1|]. intros a s Hs. eapply performs_impl; [apply H2|]. intros b s' Hs'. now apply Forall_app. Qed.
Lemma holds_ask q : keeping (q, Reply 0 1 0 0 []) -> holds_open (ask q).
Proof. intros H. unfold holds_open. trace_step. repeat constructor. exact H. Qed.
Lemma holds_if {A} (b : bool) (m m' : sys A) : holds_open m -> holds_open m' -> holds_open (if b then m else m').
Proof. destruct b; auto. Qed.
Ltac holds := repeat first [apply holds_ret | apply holds_if | apply holds_ask; exact I | apply holds_bind; [|intros] | match goal with |- holds_open (match ?x with _ => _ end) => destruct x end].
Lemma holds_monotonic : holds_open monotonic.
Proof. unfold monotonic. holds. Qed.
Lemma holds_descriptor fd : holds_open (descriptor fd).
Proof. unfold descriptor. holds. Qed.
Lemma holds_timed o k : holds_open (timed o k).
Proof. unfold timed. apply holds_bind; [apply holds_monotonic|]. intros. holds. Qed.
#[export] Hint Resolve holds_monotonic holds_descriptor holds_timed : core.
Lemma holds_write heap o act : holds_open (step_write heap o act).
Proof. unfold step_write. apply holds_bind; [holds|]. intros. cbv zeta. holds; auto. Qed.
Lemma holds_submit heap o act : holds_open (step_submit heap o act).
Proof. unfold step_submit. apply holds_bind; [holds|]. intros. cbv zeta. holds; auto. Qed.
Lemma holds_read env l heap o act : holds_open (step_read env l heap o act).
Proof. unfold step_read. apply holds_bind; [holds|]. intros. cbv zeta. holds; auto. Qed.
Lemma holds_checked o d m' : holds_open m' -> holds_open (let! e := descriptor d in if negb (e =? 0) then ret (b41_download_abort o e) else m').
Proof. intros H. apply holds_bind; [auto|]. intros e. apply holds_if; [apply holds_ret|exact H]. Qed.
#[export] Hint Resolve holds_ret holds_write holds_submit holds_read holds_checked : core.
Lemma linux_step_keeping env l heap owner : holds_open (b41_download_linux_step env l heap owner).
Proof.
  unfold b41_download_linux_step. repeat (apply holds_if; [apply holds_ret|]). apply holds_bind; [auto|]. intros [e|now]; [apply holds_ret|].
  destruct (b41_download_next _ _ _ _) as [[st o] act]. destruct st; [|apply holds_ret..]. destruct (kind act); auto.
Qed.

(** Clock readings in order. *)
Definition clock_of (e : syscall * reply) : list Z := match e.1 with Clock_gettime => match reading e.2 with inr now => [now] | inl _ => [] end | _ => [] end.
Definition readings (s : trace syscall reply) : list Z := flat_map clock_of s.
Lemma readings_app s1 s2 : readings (s1 ++ s2) = readings s1 ++ readings s2.
Proof. apply flat_map_app. Qed.

Section Loop.
Context (fl : frame_layout) (ses : bootstrap_session) (gps n deadline : Z) (F : list Z).
Context (Hat : owner_at fl <> 0) (Hact : action_at (main_locals fl) <> 0)
  (Hapart : overlaps (owner_at fl) sizeof_download (action_at (main_locals fl)) sizeof_action = false) (HF : len F = 116) (Hn : 0 <= n).
Let sel := Selectors 1 0.
Lemma sel_route : route_of sel = (0, Route 23 25).
Proof. reflexivity. Qed.
Lemma linux_step_reads o : bound gps sel n deadline F o -> active o ->
  performs (b41_download_linux_step (main_env fl) (main_locals fl) (fun _ => ses) (Ptr (owner_at fl) o)) (fun p s => p.1 = 0 ->
    exists a now s', s = (Clock_gettime, a) :: s' /\ reading a = inr now /\ now < deadline).
Proof.
  intros Hb Ha. unfold b41_download_linux_step. rewrite (at_null _ Hat). cbn [pointee addr]. destruct Ha as [Ht Hs].
  trace_step; [apply is_stage_true in G; exfalso; apply Ht; now left|]. trace_step; [apply is_stage_true in G0; exfalso; apply Ht; now right|].
  assert (Hwf := b_wf _ _ _ _ _ _ Hb). assert (Ha : active o) by (split; auto).
  eapply performs_bind; [apply monotonic_reads|]. intros r s (a & -> & ->). destruct (reading a) as [e|now] eqn:Er.
  { trace_step. destruct (abort_failed _ Hat o e Hwf Ht) as (X & _). lia. }
  pose proof (next_cases (main_locals fl) (fun _ => ses) (owner_at fl) gps sel 23 25 n deadline F Hat Hact Hapart sel_route o now no_action Hb Ha) as Hc.
  destruct (b41_download_next _ _ _ _) as [[st o1] act]. destruct Hc as [(X & _)|(-> & _ & Hd & _)].
  - cbn in X. destruct st; [lia|lia|]. trace_step. cbn. lia.
  - assert (Hany : forall (m' : sys (Z * download)), holds_open m' -> performs m' (fun p s => p.1 = 0 -> exists a0 now0 s', [(Clock_gettime, a)] ++ s = (Clock_gettime, a0) :: s' /\ reading a0 = inr now0 /\ now0 < deadline)).
    { intros m' Hm. eapply performs_impl; [exact Hm|]. intros p s _ _. exists a, now, s. auto. }
    destruct (kind act); apply Hany; auto.
Qed.

(** The status tells whether the owner has failed. *)
Definition told (p : Z * download) : Prop := (p.1 = 0 /\ stage p.2 <> B41_DOWNLOAD_FAILED) \/ (p.1 < 0 /\ stage p.2 = B41_DOWNLOAD_FAILED).
(** The phase a result tells of the device. *)
Definition result_phase (r : option (Z * download)) : phase := match r with Some (_, o) => phase_of o | None => PFailed 0 end.
(** What the loop does: its result is decided, or it read the clock as often
    as it has fuel, each time before the deadline. *)
Record looped (p : Z * download) (fuel : nat) (r : option (Z * download)) (s : trace syscall reply) : Prop := Looped {
  lp_keeping : Forall keeping s;
  lp_gated : gated gps 25 deadline s;
  lp_dialogue got subs : dialogue F n (phase_of p.2) got subs -> dialogue F n (result_phase r) (got ++ sent gps s) (subs ++ submitted gps 25 s);
  lp_result : match r with
    | Some q => download_wf q.2 /\ ((q.1 = 0 /\ stage q.2 = B41_DOWNLOAD_ACKS_COMPLETE) \/ (q.1 < 0 /\ stage q.2 = B41_DOWNLOAD_FAILED))
    | None => exists xs, sublist xs (readings s) /\ length xs = fuel /\ Forall (fun x => x < deadline) xs
    end
}.
Lemma looped_stop p fuel q s : download_wf q.2 -> (q.1 = 0 /\ stage q.2 = B41_DOWNLOAD_ACKS_COMPLETE) \/ (q.1 < 0 /\ stage q.2 = B41_DOWNLOAD_FAILED) ->
  Forall keeping s -> gated gps 25 deadline s ->
  (forall got subs, dialogue F n (phase_of p.2) got subs -> dialogue F n (phase_of q.2) (got ++ sent gps s) (subs ++ submitted gps 25 s)) -> looped p fuel (Some q) s.
Proof. intros H1 H2 H3 H4 H5. split; auto. destruct q as [st o]. exact H5. Qed.
(** Two parts of a run of the loop. *)
Lemma looped_app p p1 fuel r s1 s2 : Forall keeping s1 -> gated gps 25 deadline s1 ->
  (forall got subs, dialogue F n (phase_of p.2) got subs -> dialogue F n (phase_of p1.2) (got ++ sent gps s1) (subs ++ submitted gps 25 s1)) ->
  (r = None -> exists x, sublist [x] (readings s1) /\ x < deadline) ->
  looped p1 fuel r s2 -> looped p (S fuel) r (s1 ++ s2).
Proof.
  intros H1 H2 H3 H4 [A B C D]. split.
  - now apply Forall_app.
  - now apply gated_app.
  - intros got subs H. rewrite sent_app, submitted_app, !app_assoc. apply C, H3, H.
  - destruct r as [q|]; [exact D|]. destruct D as (xs & X1 & X2 & X3), (H4 eq_refl) as (x & Y1 & Y2). exists ([x] ++ xs). rewrite readings_app.
    split; [now apply sublist_app|]. split; [cbn; lia|]. now constructor.
Qed.
(** The loop is left at once. *)
Definition leaves (p : Z * download) : bool := negb (p.1 =? 0) || is_stage (stage p.2) B41_DOWNLOAD_ACKS_COMPLETE.
Lemma loop_leaves fuel p : leaves p = true -> download_loop fl ses fuel p = ret (Some p).
Proof. intros H. unfold leaves in H. destruct fuel; cbn [download_loop]; now rewrite H. Qed.
Lemma leaves_result p : told p -> leaves p = true -> (p.1 = 0 /\ stage p.2 = B41_DOWNLOAD_ACKS_COMPLETE) \/ (p.1 < 0 /\ stage p.2 = B41_DOWNLOAD_FAILED).
Proof.
  intros Ht H. unfold leaves in H. destruct Ht as [[H1 H2]|[H1 H2]]; [|auto]. rewrite H1 in H. cbn in H. apply is_stage_true in H. auto.
Qed.
Lemma stays_active p : stage p.2 <> B41_DOWNLOAD_NEW -> told p -> leaves p = false -> active p.2.
Proof.
  intros Hs Ht H. unfold leaves in H. apply orb_false_iff in H as [H1 H2]. apply is_stage_false in H2. destruct Ht as [[_ H3]|[H3 _]]; [|lia]. split; [intros [|]; contradiction|exact Hs].
Qed.
Lemma abort_told o e : download_wf o -> active o -> told (b41_download_abort (Ptr (owner_at fl) o) e).
Proof. intros Hw [Ht _]. destruct (abort_failed _ Hat o e Hw Ht) as (X1 & X2 & _). right. auto. Qed.
Lemma abort_bound o e : bound gps sel n deadline F o -> active o -> bound gps sel n deadline F (b41_download_abort (Ptr (owner_at fl) o) e).2.
Proof. intros Hb Ha. apply (bound_keeps _ _ _ _ _ o); [exact Hb|apply Ha|apply abort_wf; [exact Hat|apply Hb]|apply abort_keeps]. Qed.
Lemma abort_dialogue o e got subs : download_wf o -> active o -> dialogue F n (phase_of o) got subs -> dialogue F n (phase_of (b41_download_abort (Ptr (owner_at fl) o) e).2) got subs.
Proof. intros Hw [Ht _] H. destruct (abort_failed _ Hat o e Hw Ht) as (_ & X2 & _). rewrite (phase_of_failed _ X2). now apply (dialogue_failed F n (phase_of o)). Qed.
(** A request between two steps. *)
Lemma between q a s : looking (q, a) \/ q = Interrupted \/ q = Nanosleep -> sent gps ((q, a) :: s) = sent gps s /\ submitted gps 25 ((q, a) :: s) = submitted gps 25 s /\ keeping (q, a) /\
  (gated gps 25 deadline s -> gated gps 25 deadline ((q, a) :: s)).
Proof. intros H. destruct q; cbn in H; try (destruct H as [[]|[|]]; discriminate); (split; [reflexivity|]; split; [reflexivity|]; split; [exact I|]; intros X g; apply X). Qed.
Lemma download_loop_looped fuel : forall p, bound gps sel n deadline F p.2 -> stage p.2 <> B41_DOWNLOAD_NEW -> told p ->
  performs (download_loop fl ses fuel p) (looped p fuel).
Proof.
  induction fuel as [|fuel IH]; intros p Hb Hs Ht; (destruct (leaves p) eqn:G; [rewrite loop_leaves by exact G; trace_step; apply looped_stop; auto using gated_nil, leaves_result;
    [apply Hb|intros got subs H; cbn; now rewrite !app_nil_r]|]); cbn [download_loop]; fold (leaves p); rewrite G.
  - trace_step. split; [constructor|apply gated_nil| |exists []; repeat constructor]. intros got subs H. cbn. rewrite !app_nil_r. now apply (dialogue_failed F n (phase_of p.2)).
  - assert (Ha := stays_active p Hs Ht G). assert (Hw := b_wf _ _ _ _ _ _ Hb). trace_step. rename p0 into i.
    destruct (between Interrupted i [] (or_intror (or_introl eq_refl))) as (_ & _ & K1 & G1). specialize (G1 (gated_nil _ _ _)).
    trace_step.
    { trace_step. apply looped_stop; auto; [now apply abort_wf|destruct (abort_told p.2 (- EINTR) Hw Ha) as [[X _]|X]; [destruct (abort_failed _ Hat p.2 (- EINTR) Hw (proj1 Ha)) as [Y _]; lia|auto]|].
      intros got subs H. cbn. rewrite !app_nil_r. now apply abort_dialogue. }
    eapply performs_bind.
    { apply performs_and; [apply (linux_step_moved (main_env fl) (main_locals fl) (fun _ => ses) (owner_at fl) gps sel 23 25 n deadline F Hat Hact Hapart sel_route HF Hn p.2 Hb Hs)|].
      apply performs_and; [apply linux_step_keeping|exact (linux_step_reads p.2 Hb Ha)]. }
    intros p1 s1 [[[M1 M2 M3 M4] Hg] [Hk Hr]].
    assert (S1 : forall s, sent gps ((Interrupted, i) :: s) = sent gps s) by reflexivity. assert (S2 : forall s, submitted gps 25 ((Interrupted, i) :: s) = submitted gps 25 s) by reflexivity.
    assert (Hg1 : gated gps 25 deadline ((Interrupted, i) :: s1)) by (apply (gated_app gps 25 deadline [(Interrupted, i)] s1); assumption).
    assert (Hwf1 := b_wf _ _ _ _ _ _ M1).
    replace ((p1.1 =? 0) && negb (is_stage (stage p1.2) B41_DOWNLOAD_ACKS_COMPLETE)) with (negb (leaves p1)) by (unfold leaves; rewrite negb_orb, negb_involutive; reflexivity).
    destruct (leaves p1) eqn:G2; cbn [negb].
    + rewrite loop_leaves by exact G2. trace_step. rewrite app_nil_r. apply looped_stop; auto using leaves_result.
    + assert (Ha1 := stays_active p1 M2 M3 G2). assert (Hread : exists x, sublist [x] (readings s1) /\ x < deadline).
      { destruct Hr as (a & now & s' & -> & Er & Hnow); [destruct M3 as [[X _]|[X _]]; [exact X|unfold leaves in G2; lia]|]. exists now. split; [|exact Hnow]. unfold readings. cbn [flat_map]. unfold clock_of at 1.
        cbn [fst snd]. rewrite Er. cbn. apply sublist_skip, sublist_nil_l. }
      trace_step. rename p0 into z. set (p2 := if rc z =? 0 then p1 else b41_download_abort (Ptr (owner_at fl) p1.2) (failure_of z)).
      assert (Hp2 : bound gps sel n deadline F p2.2 /\ stage p2.2 <> B41_DOWNLOAD_NEW /\ told p2 /\
        forall got subs, dialogue F n (phase_of p1.2) got subs -> dialogue F n (phase_of p2.2) got subs).
      { subst p2. destruct (rc z =? 0); [auto|]. split; [now apply abort_bound|]. split; [|split; [now apply abort_told|intros; now apply abort_dialogue]].
        destruct (abort_failed _ Hat p1.2 (failure_of z) Hwf1 (proj1 Ha1)) as (_ & X & _). rewrite X. discriminate. }
      destruct Hp2 as (B1 & B2 & B3 & B4). eapply performs_impl; [apply (IH p2 B1 B2 B3)|]. intros r s2 L.
      replace ((Interrupted, i) :: s1 ++ (Nanosleep, z) :: s2) with (((Interrupted, i) :: s1 ++ [(Nanosleep, z)]) ++ s2) by (cbn; now rewrite <- app_assoc).
      apply (looped_app p p2); [constructor; [exact I|]; apply Forall_app; split; [exact Hk|repeat constructor]| | | |exact L].
      * apply (gated_app gps 25 deadline ((Interrupted, i) :: s1) [(Nanosleep, z)]); [exact Hg1|intros g; cbn; eauto].
      * intros got subs H. rewrite S1, S2, sent_app, submitted_app. cbn. rewrite !app_nil_r. apply B4, M4, H.
      * intros _. destruct Hread as (x & X1 & X2). exists x. split; [|exact X2]. change ((Interrupted, i) :: s1 ++ [(Nanosleep, z)]) with ([(Interrupted, i)] ++ s1 ++ [(Nanosleep, z)]).
        rewrite !readings_app. cbn. now rewrite app_nil_r.
Qed.
End Loop.

(** ** The program *)

(** The objects of [main] are where the language puts them. *)
Record layout_ok (fl : frame_layout) : Prop := LayoutOk {
  lo_owner : owner_at fl <> 0;
  lo_action : action_at (main_locals fl) <> 0;
  lo_apart : overlaps (owner_at fl) sizeof_download (action_at (main_locals fl)) sizeof_action = false;
  lo_env : env_ok (main_env fl)
}.
(** The device was used for one download of a supported policy. *)
Definition conversed (fl : frame_layout) (gps deadline : Z) (ph : Z -> phase) (s : trace syscall reply) : Prop :=
  gated gps 25 deadline s /\ exists chip first a, nominal_supported true chip first 33 0 /\ (Ioctl_info gps 23, a) ∈ s /\ rc a = 0 /\
    let i := stored_info a in
    dialogue (nominal_frame (reference_policy (no_secondary_at fl) chip first) i) (frag_num i) (ph (frag_num i)) (sent gps s) (submitted gps 25 s).
(** The clock was read [fuel] times before the deadline. *)
Definition clocked (fuel : nat) (deadline : Z) (s : trace syscall reply) : Prop :=
  exists xs, sublist xs (readings s) /\ length xs = fuel /\ Forall (fun x => x < deadline) xs.
Definition final_phase (ok : bool) (n : Z) : phase := if ok then PDone n else PFailed 0.
Definition session_post (fl : frame_layout) (fuel : nat) (gps deadline : Z) (r : option (Z * download)) (s : trace syscall reply) : Prop :=
  Forall keeping s /\
  match r with
  | Some (st, o) => download_wf o /\ ((st <> 0 /\ Forall plain s) \/ conversed fl gps deadline (final_phase (st =? 0)) s)
  | None => conversed fl gps deadline (final_phase false) s /\ clocked fuel deadline s
  end.
Lemma conversed_plain fl gps d ph s1 s2 : Forall plain s1 -> conversed fl gps d ph s2 -> conversed fl gps d ph (s1 ++ s2).
Proof.
  intros H1 (G & chip & first & a & A & B & C & D). destruct (plain_calm gps d s1 H1) as (E1 & E2 & E3). split; [now apply gated_app|]. exists chip, first, a.
  split; [exact A|]. split; [apply elem_of_app; now right|]. split; [exact C|]. cbv zeta in *. now rewrite sent_app, submitted_app, E1, E2.
Qed.
Lemma conversed_then fl gps d ph s1 s2 : Forall plain s2 -> conversed fl gps d ph s1 -> conversed fl gps d ph (s1 ++ s2).
Proof.
  intros H1 (G & chip & first & a & A & B & C & D). destruct (plain_calm gps d s2 H1) as (E1 & E2 & E3). split; [now apply gated_app|]. exists chip, first, a.
  split; [exact A|]. split; [apply elem_of_app; now left|]. split; [exact C|]. cbv zeta in *. now rewrite sent_app, submitted_app, E1, E2, !app_nil_r.
Qed.
Lemma conversed_weaken fl gps d (ok : bool) s : conversed fl gps d (final_phase ok) s -> conversed fl gps d (final_phase false) s.
Proof.
  intros (G & chip & first & a & A & B & C & D). split; [exact G|]. exists chip, first, a. split; [exact A|]. split; [exact B|]. split; [exact C|]. cbv zeta in *.
  apply (dialogue_failed _ _ (final_phase ok (frag_num (stored_info a)))); [cbn; pose proof (u32_range (nth 4 (out a) 0)) as X; unfold is_u32 in X; unfold word_of; lia|exact D].
Qed.
Lemma clocked_app fuel d s1 s2 : clocked fuel d s2 -> clocked fuel d (s1 ++ s2).
Proof. intros (xs & A & B). exists xs. split; [|exact B]. rewrite readings_app. apply sublist_inserts_l, A. Qed.
Lemma clocked_then fuel d s1 s2 : clocked fuel d s1 -> clocked fuel d (s1 ++ s2).
Proof. intros (xs & A & B). exists xs. split; [|exact B]. rewrite readings_app. apply sublist_inserts_r, A. Qed.
Lemma session_post_plain fl fuel gps d r s1 s2 : neutral s1 -> session_post fl fuel gps d r s2 -> session_post fl fuel gps d r (s1 ++ s2).
Proof.
  intros [H1 H2] [H3 H4]. split; [now apply Forall_app|]. destruct r as [[st o]|].
  - destruct H4 as [A [[B C]|B]]; (split; [exact A|]); [left; split; [exact B|now apply Forall_app]|right; now apply conversed_plain].
  - destruct H4 as [A B]. split; [now apply conversed_plain|now apply clocked_app].
Qed.
Lemma session_post_stop fl fuel gps d st s : neutral s -> st <> 0 -> session_post fl fuel gps d (Some (st, fresh)) s.
Proof. intros [H1 H2] H. split; [exact H2|]. split; [apply fresh_wf|auto]. Qed.
Lemma frag_num_nonneg a : 0 <= frag_num (stored_info a).
Proof. cbn. pose proof (u32_range (nth 4 (out a) 0)) as X. unfold is_u32 in X. unfold word_of. lia. Qed.
Lemma conversed_begun fl gps d ph chip first a s1 s2 : Forall plain s1 -> nominal_supported true chip first 33 0 -> (Ioctl_info gps 23, a) ∈ s1 -> rc a = 0 -> gated gps 25 d s2 ->
  dialogue (nominal_frame (reference_policy (no_secondary_at fl) chip first) (stored_info a)) (frag_num (stored_info a)) (ph (frag_num (stored_info a))) (sent gps s2) (submitted gps 25 s2) ->
  conversed fl gps d ph (s1 ++ s2).
Proof.
  intros H1 Hs Ha Hr Hg Hd. destruct (plain_calm gps d s1 H1) as (E1 & E2 & E3). split; [now apply gated_app|]. exists chip, first, a. split; [exact Hs|].
  split; [apply elem_of_app; now left|]. split; [exact Hr|]. cbv zeta. now rewrite sent_app, submitted_app, E1, E2.
Qed.
(** The loop after a begin. *)
Lemma session_download fl fuel gps deadline chip first : layout_ok fl -> nominal_supported true chip first 33 0 ->
  let policy := reference_policy (no_secondary_at fl) chip first in
  let ses := Session gps (Selectors 1 0) (Ptr (policy_at fl) (inputs policy)) in
  performs (let! p := b41_native_l1_download_linux_begin (main_env fl) (main_locals fl) (Ptr (owner_at fl) fresh) (Ptr (policy_at fl) policy) (Ptr (session_at fl) ses) deadline in
    download_loop fl ses fuel p) (session_post fl fuel gps deadline).
Proof.
  intros [Hat Hact Hap He] Hsup policy ses.
  eapply performs_bind; [apply (native_begin_cases (main_env fl) (main_locals fl) (owner_at fl) (Ptr (policy_at fl) policy) (Ptr (session_at fl) ses) deadline Hat He);
    [apply reference_policy_shape|reflexivity|reflexivity]|].
  cbn [pointee gps0_fd ses]. intros p s (Hs & Hw & [[H1 H2]|(H1 & a & Ha & Hrc & Hready)]).
  - rewrite loop_leaves by (unfold leaves; lia). trace_step. rewrite app_nil_r. destruct p as [st o]. cbn [fst snd] in *. split; [apply Hs|]. split; [exact Hw|]. left. split; [lia|apply Hs].
  - set (F := nominal_frame policy (stored_info a)) in *.
    assert (HF : len F = 116) by (rewrite <- (rd_frame _ _ _ _ _ _ Hready); now apply len_tx).
    pose proof (frag_num_nonneg a) as Hn.
    eapply performs_impl; [apply (download_loop_looped fl ses gps (frag_num (stored_info a)) deadline F Hat Hact Hap HF Hn fuel p)|].
    + now apply ready_bound.
    + rewrite (rd_stage _ _ _ _ _ _ Hready). discriminate.
    + left. rewrite (rd_stage _ _ _ _ _ _ Hready). split; [exact H1|discriminate].
    + cbn beta. intros r s2 [A B C D]. specialize (C [] [] (ready_dialogue _ _ _ _ _ _ Hready)). cbn [app] in C.
      split; [apply Forall_app; split; [apply Hs|exact A]|]. destruct Hs as [Hp _].
      assert (Hgo : forall ok, dialogue F (frag_num (stored_info a)) (final_phase ok (frag_num (stored_info a))) (sent gps s2) (submitted gps 25 s2) ->
        conversed fl gps deadline (final_phase ok) (s ++ s2)) by (intros ok X; now apply (conversed_begun fl gps deadline _ chip first a)).
      destruct r as [[st o]|]; [|split; [apply Hgo, C|now apply clocked_app]]. cbn [fst snd result_phase] in *. destruct D as [D1 [[-> D2]|[D2 D3]]]; (split; [exact D1|]; right; apply Hgo).
      * unfold phase_of in C. rewrite D2 in C. destruct C as (_ & C). split; [reflexivity|exact C].
      * replace (st =? 0) with false by lia. rewrite (phase_of_failed _ D3) in C. exact C.
Qed.
Lemma session_post_then fl fuel gps d r s1 s2 : neutral s2 -> session_post fl fuel gps d r s1 -> session_post fl fuel gps d r (s1 ++ s2).
Proof.
  intros [H1 H2] [H3 H4]. split; [now apply Forall_app|]. destruct r as [[st o]|].
  - destruct H4 as [A [[B C]|B]]; (split; [exact A|]); [left; split; [exact B|now apply Forall_app]|right; now apply conversed_then].
  - destruct H4 as [A B]. split; [now apply conversed_then|now apply clocked_then].
Qed.
Lemma performs_assoc {A B C} (m : sys A) (k1 : A -> sys B) (k2 : B -> sys C) R :
  performs (bind (bind m k1) k2) R -> performs (let! a := m in let! b := k1 a in k2 b) R.
Proof. intros H env t. destruct (H env t) as (c & s & E & X). exists c, s. split; [|exact X]. unfold bind in *. destruct (m env t). exact E. Qed.
Lemma device_session_post fl fuel gps deadline chip first : layout_ok fl -> performs (device_session fl fuel gps deadline chip first) (session_post fl fuel gps deadline).
Proof.
  intros Hl. unfold device_session. cbv zeta.
  eapply performs_bind; [apply scalar_query_neutral; lia|]. intros c11 s1 N1. trace_step; [trace_step; rewrite app_nil_r; apply session_post_stop; [exact N1|lia]|].
  eapply performs_bind; [apply scalar_query_neutral; lia|]. intros c30 s2 N2. trace_step; [trace_step; rewrite app_nil_r; apply session_post_stop; [auto|lia]|].
  trace_step; [trace_step; rewrite app_nil_r; apply session_post_stop; [auto|lia]|]. assert (c11 = 33 /\ c30 = 0) as [-> ->] by lia.
  eapply performs_bind; [apply word_query_neutral|]. intros lna s3 N3. trace_step; [trace_step; rewrite app_nil_r; apply session_post_stop; [auto|destruct (lna.1 <? 0) eqn:X; lia]|].
  eapply performs_bind; [apply word_query_neutral|]. intros aux s4 N4. trace_step; [trace_step; rewrite app_nil_r; apply session_post_stop; [auto|destruct (aux.1 <? 0) eqn:X; lia]|].
  set (fst1 := if lna.1 =? 0 then _ else _). destruct (b41_native_l1_nominal_build _ _ _ _ _ _ _) as [st out'] eqn:E.
  destruct (nominal_build_cases _ _ _ _ _ _ _ _ E) as [[Hs [= -> ->]]|(_ & X & Y)].
  - assert (Hr := ns_rounding _ _ _ _ _ Hs). rewrite Hr in Hs. trace_step. rename p into u.
    assert (Hrun : forall s, neutral s -> performs (let! p := b41_native_l1_download_linux_begin (main_env fl) (main_locals fl) (Ptr (owner_at fl) fresh)
        (Ptr (policy_at fl) (reference_policy (no_secondary_at fl) chip fst1)) (Ptr (session_at fl) (Session gps (Selectors 1 0) (Ptr (policy_at fl) (inputs (reference_policy (no_secondary_at fl) chip fst1))))) deadline in
      let! r := download_loop fl (Session gps (Selectors 1 0) (Ptr (policy_at fl) (inputs (reference_policy (no_secondary_at fl) chip fst1)))) fuel p in
      match r with None => ret None | Some p => if p.1 =? 0 then let! _ := ask Output in ret (Some p) else ret (Some p) end)
      (fun r s' => session_post fl fuel gps deadline r (s ++ s'))).
    { intros s Hn. apply performs_assoc. eapply performs_bind; [now apply session_download|]. intros r s' P. assert (P' := session_post_plain _ _ _ _ _ _ _ Hn P).
      destruct r as [p|]; [|trace_step; now rewrite app_nil_r]. trace_step; [trace_step; trace_step; rewrite app_assoc; apply session_post_then; auto|trace_step; now rewrite app_nil_r]. }
    eapply performs_impl; [apply (Hrun (s1 ++ s2 ++ s3 ++ s4 ++ [(Output, u)])); auto 8|]. cbn beta. intros r s'. rewrite <- !app_assoc. auto.
  - cbn [fst snd] in *. subst out'. destruct st as [|e|e]; [lia|lia|]. trace_step. rewrite app_nil_r. apply session_post_stop; [auto|lia].
Qed.

(** ** From start to exit *)

Definition erased (o : download) : Prop := tx o = zeros 116 /\ rx o = zeros 1024.
Lemma wipe_erased o : download_wf o -> erased (wipe o).
Proof. intros H. split; cbn; apply forget_all; [now apply len_tx|now apply rx_shape]. Qed.
(** Whether [fd] is the descriptor [f] that the program holds. *)
Definition held (f fd : Z) : Z := if f <? 0 then 0 else if f =? fd then 1 else 0.
Lemma close_status_closes f status : performs (close_status f status) (fun st s => Forall plain s /\ (forall fd, net fd s = - held f fd) /\ (st = 0 -> status = 0)).
Proof.
  unfold close_status. trace_step; [trace_step; split; [constructor|]; split; [intros fd; unfold held; now rewrite G|auto]|]. trace_step. trace_step. split; [repeat constructor|].
  split; [intros fd; unfold held; rewrite G; cbn; destruct (f =? fd); reflexivity|]. unfold failure_of. destruct (negb (rc p =? 0) && (status =? 0)) eqn:X; lia.
Qed.
(** The end: what was open is closed, the buffers are erased, and only a zero
    status gives the exit code 0. *)
Definition ended (conn gps status : Z) (o : download) (r : option (Z * download)) (s : trace syscall reply) : Prop :=
  exists code, r = Some (code, wipe o) /\ (code = 0 \/ code = 1) /\ (code = 0 -> status = 0) /\ Forall plain s /\ forall fd, net fd s = - held conn fd - held gps fd.
Lemma done_ends conn gps status o : performs (done conn gps status o) (ended conn gps status o).
Proof.
  unfold done. eapply performs_bind; [apply close_status_closes|]. intros st1 s1 (A1 & B1 & C1). eapply performs_bind; [apply close_status_closes|]. intros st2 s2 (A2 & B2 & C2).
  trace_step. assert (Hn : forall e fd, keeping (e, p) -> net fd [(e, p)] = 0) by (intros e fd H; apply (keeping_net fd [(e, p)]); now constructor).
  trace_step.
  - trace_step. exists 0. split; [reflexivity|]. split; [auto|]. split; [intros _; apply C1, C2; lia|]. split; [repeat (apply Forall_app; split; auto); repeat constructor|].
    intros fd. rewrite !runner_net_app, B1, B2. cbn. lia.
  - trace_step. trace_step. exists 1. split; [reflexivity|]. split; [auto|]. split; [discriminate|]. split; [repeat (apply Forall_app; split; auto); repeat constructor|].
    intros fd. rewrite !runner_net_app, B1, B2. cbn. lia.
Qed.
(** A run: it exits with nothing open and nothing left in the buffers, having
    used the device only for one download whose end the exit code tells; or it
    spent the fuel in the loop. *)
Definition ran (fl : frame_layout) (fuel : nat) (deadline : Z) (r : option (Z * download)) (s : trace syscall reply) : Prop :=
  match r with
  | Some (code, o) => (forall fd, net fd s = 0) /\ erased o /\ (code = 0 \/ code = 1) /\
      ((code = 1 /\ Forall plain s) \/ exists gps, conversed fl gps deadline (final_phase (code =? 0)) s)
  | None => exists gps, (forall fd, net fd s = if gps =? fd then 1 else 0) /\ conversed fl gps deadline (final_phase false) s /\ clocked fuel deadline s
  end.
(** A failure before the device was used. *)
Lemma done_early fl fuel d conn status s : Forall plain s -> (forall fd, net fd s = held conn fd) -> status <> 0 ->
  performs (done conn (-1) status fresh) (fun r s' => ran fl fuel d r (s ++ s')).
Proof.
  intros H1 H2 H3. eapply performs_impl; [apply done_ends|]. intros r s' (code & -> & A & B & C & D). split; [|split; [apply wipe_erased, fresh_wf|]; split; [exact A|]].
  - intros fd. rewrite runner_net_app, H2, D. unfold held at 3. cbn. lia.
  - left. split; [destruct A; [exfalso; auto|assumption]|now apply Forall_app].
Qed.
Lemma ran_even fl fuel d r s1 s2 : even s1 -> ran fl fuel d r s2 -> ran fl fuel d r (s1 ++ s2).
Proof.
  intros [H1 H2]. destruct r as [[code o]|].
  - intros (A & B & C & D). split; [intros fd; now rewrite runner_net_app, H2, A|]. split; [exact B|]. split; [exact C|].
    destruct D as [[D1 D2]|[gps D]]; [left; split; [exact D1|now apply Forall_app]|right; exists gps; now apply conversed_plain].
  - intros (gps & A & B & C). exists gps. split; [intros fd; now rewrite runner_net_app, H2, A|]. split; [now apply conversed_plain|now apply clocked_app].
Qed.
(** The session of an open device, and the end. *)
Lemma session_ends fl fuel d g chip first : layout_ok fl -> 0 <= rc g ->
  performs (let! r := device_session fl fuel (rc g) d chip first in match r with None => ret None | Some (status, o) => done (-1) (rc g) status o end)
    (fun r s => ran fl fuel d r ((Open Gpsdl0, g) :: s)).
Proof.
  intros Hl Hg. assert (Hplain : Forall plain [(Open Gpsdl0, g)]) by repeat constructor.
  assert (Hopen : forall fd, net fd [(Open Gpsdl0, g)] = if rc g =? fd then 1 else 0) by (intros fd; cbn; replace (rc g <? 0) with false by lia; lia).
  eapply performs_bind; [now apply device_session_post|]. intros r s [K P]. destruct r as [[status o]|].
  - destruct P as [Hw P]. eapply performs_impl; [apply done_ends|]. intros r s' (code & -> & A & B & C & D). change (_ :: s ++ s') with ([(Open Gpsdl0, g)] ++ s ++ s').
    split; [intros fd; rewrite !runner_net_app, Hopen, D, (keeping_net fd s K); unfold held; replace (rc g <? 0) with false by lia; cbn; lia|]. split; [now apply wipe_erased|]. split; [exact A|].
    destruct P as [[P1 P2]|P]; [left; split; [destruct A; [exfalso; auto|assumption]|repeat (apply Forall_app; split; auto)]|]. right. exists (rc g).
    apply conversed_plain; [exact Hplain|]. apply conversed_then; [exact C|]. destruct A as [-> | ->]; [rewrite (B eq_refl) in P; exact P|now apply (conversed_weaken _ _ _ (status =? 0))].
  - trace_step. rewrite app_nil_r. change (_ :: s) with ([(Open Gpsdl0, g)] ++ s). destruct P as [P1 P2]. exists (rc g).
    split; [intros fd; rewrite runner_net_app, Hopen, (keeping_net fd s K); lia|]. split; [now apply conversed_plain|now apply clocked_app].
Qed.
Lemma reading_fails a e : reading a = inl e -> e < 0.
Proof. unfold reading, failure_of. destruct (negb _); [intros [= <-]; lia|]. destruct (_ || _ || _ || _); intros [= <-]; lia. Qed.
Lemma open_devices_ran fl fuel d first : layout_ok fl -> performs (open_devices fl fuel d first) (ran fl fuel d).
Proof.
  intros Hl. unfold open_devices. cbv zeta. trace_step. rename p into f.
  assert (Hf : rc f < 0 -> even [(Open Conninfra, f)]) by (intros H; split; [repeat constructor|intros fd; cbn; now replace (rc f <? 0) with true by lia]).
  trace_step; [eapply (done_early fl fuel d (-1) _ [(Open Conninfra, f)]); [apply Hf; lia|intros fd; cbn; now rewrite G|unfold failure_of; lia]|].
  (* the chip is queried through the open descriptor *)
  assert (Hstop : forall s e, neutral s -> e <> 0 -> performs (done (rc f) (-1) e fresh) (fun r s' => ran fl fuel d r ((Open Conninfra, f) :: s ++ s'))).
  { intros s e [N1 N2] He. change (fun r s' => ran fl fuel d r ((Open Conninfra, f) :: s ++ s')) with (fun r s' => ran fl fuel d r (((Open Conninfra, f) :: s) ++ s')).
    apply done_early; [constructor; [exact I|exact N1]| |exact He]. intros fd. cbn [net fold_right]. fold (net fd s). rewrite (keeping_net fd s N2). unfold opened, held. cbn. rewrite G. destruct (rc f =? fd); reflexivity. }
  eapply performs_bind; [apply scalar_query_neutral; lia|]. intros hw s1 N1. trace_step; [apply Hstop; [exact N1|lia]|].
  eapply performs_bind; [apply scalar_query_neutral; lia|]. intros adie s2 N2.
  assert (Hn12 : neutral (s1 ++ s2)) by auto.
  trace_step; [eapply performs_impl; [apply (Hstop (s1 ++ s2) adie); [auto|lia]|]; cbn beta; intros r s; now rewrite <- app_assoc|].
  destruct (b41_native_l1_identity_select _ _ _) as [st chip] eqn:E. destruct (identity_select_cases _ _ _ _ E) as [(base & _ & _ & [= -> ->])|(He & _)].
  2:{ cbn [fst] in He. destruct st as [|e|e]; try lia. eapply performs_impl; [apply (Hstop (s1 ++ s2) (Z.neg e)); [auto|lia]|]; cbn beta; intros r s; now rewrite <- app_assoc. }
  trace_step. rename p into c. assert (Hev : even ((Open Conninfra, f) :: (s1 ++ s2) ++ [(Close (rc f), c)])) by (apply even_opened; [lia|auto]).
  assert (Hend : forall m, performs m (ran fl fuel d) -> performs m (fun r s => ran fl fuel d r ((Open Conninfra, f) :: s1 ++ s2 ++ (Close (rc f), c) :: s))).
  { intros m Hm. eapply performs_impl; [exact Hm|]. intros r s X. pose proof (ran_even fl fuel d r _ s Hev X) as Y. cbn [app] in Y. rewrite <- !app_assoc in Y. exact Y. }
  apply Hend. clear Hend Hev Hstop.
  assert (Hstop : forall s e, even s -> e <> 0 -> performs (done (-1) (-1) e fresh) (fun r s' => ran fl fuel d r (s ++ s'))).
  { intros s e [H1 H2] He. now apply done_early. }
  trace_step; [apply (Hstop []); [auto|unfold failure_of; lia]|].
  eapply performs_bind; [apply monotonic_reads|]. intros t s3 (a & -> & ->). destruct (reading a) as [e|now] eqn:Er; [apply Hstop; [auto|apply reading_fails in Er; lia]|].
  trace_step. trace_step; [trace_step; apply (Hstop [(Clock_gettime, a); (Interrupted, p); (Interrupted, p0)]); [auto|destruct (negb (rc p0 =? 0)); lia]|].
  trace_step. rename p0 into g. trace_step.
  - apply (Hstop [(Clock_gettime, a); (Interrupted, p); (Open Gpsdl0, g)]); [|unfold failure_of; lia].
    split; [repeat constructor|]. intros fd. cbn. now replace (rc g <? 0) with true by lia.
  - eapply performs_impl; [apply session_ends; [exact Hl|lia]|]. cbn beta. intros r s X. apply (ran_even fl fuel d r [(Clock_gettime, a); (Interrupted, p)] _); auto.
Qed.
(** The arguments leave at most half a minute. *)
Lemma parse_timeout args t : parse_arguments args = inr t -> 1 <= t <= 30000.
Proof.
  unfold parse_arguments. destruct args as [|a [|t' [|]]]; try discriminate.
  - destruct (bool_decide _); [discriminate|]. destruct ((byte_at a 0 =? 0) || _); [discriminate|]. intros [= <-]. lia.
  - destruct ((byte_at a 0 =? 0) || _); [discriminate|]. destruct (bool_decide _ || _); [discriminate|].
    destruct ((decimal t' <? 1) || (30000 <? decimal t')) eqn:X; [discriminate|]. intros [= <-]. lia.
Qed.
Lemma parse_code args c : parse_arguments args = inl c -> (c = 0 /\ args = [help]) \/ c = 2.
Proof.
  unfold parse_arguments. destruct args as [|a [|t' [|]]]; try (intros [= <-]; auto).
  - destruct (bool_decide_reflect (a = help)) as [->|]; [intros [= <-]; auto|]. destruct ((byte_at a 0 =? 0) || _); [intros [= <-]; auto|discriminate].
  - destruct ((byte_at a 0 =? 0) || _); [intros [= <-]; auto|]. destruct (bool_decide _ || _); [intros [= <-]; auto|]. destruct ((decimal t' <? 1) || _); [intros [= <-]; auto|discriminate].
Qed.
(** The first request of an attempt reads the clock, and the deadline is
    counted from it. *)
Definition attempted (fl : frame_layout) (fuel : nat) (timeout_ms : Z) (r : option (Z * download)) (s : trace syscall reply) : Prop :=
  exists a s' deadline, s = (Clock_gettime, a) :: s' /\ ran fl fuel deadline r s' /\ (r = None -> exists now, reading a = inr now /\ deadline = now + timeout_ms * 1000000).
Lemma attempt_attempted fl fuel timeout_ms : layout_ok fl -> performs (attempt fl fuel timeout_ms) (attempted fl fuel timeout_ms).
Proof.
  intros Hl. unfold attempt. cbv zeta. eapply performs_bind; [apply monotonic_reads|]. intros t s (a & -> & ->).
  assert (Hstop : forall s e, even s -> e <> 0 -> performs (done (-1) (-1) e fresh) (fun r s' => attempted fl fuel timeout_ms r ([(Clock_gettime, a)] ++ s ++ s'))).
  { intros s e [H1 H2] He. eapply performs_impl; [apply performs_and; [apply (done_early fl fuel 0 (-1) e s); assumption|apply done_ends]|]. cbn beta. intros r s' [X (code & -> & _)].
    exists a, (s ++ s'), 0. split; [reflexivity|]. split; [exact X|discriminate]. }
  destruct (reading a) as [e|now] eqn:Er; [apply (Hstop []); [apply even_neutral, neutral_nil|apply reading_fails in Er; lia]|]. trace_step; [apply (Hstop []); [apply even_neutral, neutral_nil|lia]|].
  eapply performs_bind; [apply set_signals_neutral|]. intros st s1 [N1 H1]. trace_step; [apply Hstop; [auto|lia]|]. trace_step. rename p into al.
  eapply performs_bind; [apply profile_read_even|]. intros [e|[[first interval] nv]] s2 [E2 H2].
  - eapply performs_impl; [apply (Hstop (s1 ++ [(Alarm ((timeout_ms + 999) / 1000 + 2), al)] ++ s2) e); [auto|lia]|]. cbn beta. intros r s. cbn [app]. rewrite <- !app_assoc. auto.
  - eapply performs_impl; [now apply open_devices_ran|]. intros r s X. exists a, (s1 ++ (Alarm ((timeout_ms + 999) / 1000 + 2), al) :: s2 ++ s), (now + timeout_ms * 1000000).
    split; [reflexivity|]. split; [|eauto]. apply ran_even; [auto|]. apply (ran_even fl fuel _ r [(Alarm ((timeout_ms + 999) / 1000 + 2), al)]); [auto|]. now apply ran_even.
Qed.
(** A run of the program: an attempt, or an exit at the arguments. *)
Definition main_post (fl : frame_layout) (fuel : nat) (args : list (list Z)) (r : option (Z * download)) (s : trace syscall reply) : Prop :=
  match parse_arguments args with
  | inl c => r = Some (c, fresh) /\ even s
  | inr t => attempted fl fuel t r s
  end.
Lemma main_performs fl fuel args : layout_ok fl -> performs (main fl fuel args) (main_post fl fuel args).
Proof.
  intros Hl. unfold main, main_post. destruct (parse_arguments args) as [c|t] eqn:E; [|now apply attempt_attempted].
  destruct (parse_code _ _ E) as [[-> _]| ->]; [trace_step; trace_step|trace_step]; split; auto.
Qed.
Lemma ran_then fl fuel d r a s : ran fl fuel d r s -> ran fl fuel d r ((Clock_gettime, a) :: s).
Proof. intros H. apply (ran_even fl fuel d r [(Clock_gettime, a)] s); auto. Qed.

(** Times in strictly growing order between two bounds are not many. *)
Lemma sorted_bounded xs : forall lo hi, StronglySorted Z.lt xs -> Forall (fun x => lo < x < hi) xs -> Z.of_nat (length xs) <= Z.max 0 (hi - lo - 1).
Proof.
  induction xs as [|x xs IH]; intros lo hi Hs Hb; [cbn; lia|]. inversion Hs as [|? ? Hs' Hx]. inversion Hb as [|? ? Hx' Hb']. subst.
  cbn [length]. specialize (IH x hi Hs'). assert (Forall (fun y => x < y < hi) xs).
  { apply Forall_forall. intros y Hy. rewrite Forall_forall in Hx, Hb'. specialize (Hx y Hy). specialize (Hb' y Hy). cbn in Hb'. lia. }
  specialize (IH H). lia.
Qed.
Lemma sublist_sorted (xs ys : list Z) : sublist xs ys -> StronglySorted Z.lt ys -> StronglySorted Z.lt xs.
Proof.
  induction 1 as [|x xs ys H IH|x xs ys H IH]; intros Hs; [constructor| |inversion Hs; auto]. inversion Hs as [|? ? Hs' Hx]. subst. constructor; [auto|].
  apply Forall_forall. intros y Hy. rewrite Forall_forall in Hx. apply Hx. eapply elem_of_submseteq; [exact Hy|now apply sublist_submseteq].
Qed.

(** An environment and a place for the objects of the program. *)
Module Demo.
Definition layout : frame_layout := Layout 0x1000 0x2000 0x3000 0x9000 Device.locals_1 env_1.
Lemma layout_1_ok : layout_ok layout.
Proof. split; [cbn; lia|cbn; lia|reflexivity|apply env_1_ok]. Qed.
(** A profile of 26 MHz; the chip 0x6878 with radio 0x6637; a device that
    takes every byte and acknowledges everything. Clock readings grow. *)
Definition profile : list Z := [128; 186; 140; 1; 0; 0; 0; 0; 0; 0].
Definition answer (s : trace syscall reply) (q : syscall) : reply :=
  match q with
  | Clock_gettime => Reply 0 1 5 (len s) []
  | Open p => Reply (match p with Profile_file => 3 | Conninfra => 4 | Gpsdl0 => 5 end) 1 0 0 []
  | Fstat fd => if fd =? 3 then Reply 0 1 0x81a4 54 [] else Device.answer s q
  | Pread _ n _ => if n =? 1 then Reply 1 1 0 0 [71] else Reply 10 1 0 0 profile
  | Ioctl _ c _ => if c =? 0x8004c200 then Reply 0x6878 1 0 0 [] else if c =? 0x8004c203 then Reply 0x6637 1 0 0 [] else if c =? 11 then Reply 33 1 0 0 [] else Reply 0 1 0 0 []
  | Ioctl_word _ _ => Reply (-1) 14 0 0 []
  | Read _ _ => Reply 1 1 0 0 (Device.acknowledgement (filter (fun e => match e.1 with Ioctl _ 25 _ => true | _ => false end = true) s))
  | _ => Device.answer s q
  end.
Definition run := main layout 20 [[112; 114; 111]] answer [].
End Demo.
(** The run sends the whole frame and three fragments, and exits with 0. *)
Example demo_run :
  let '(r, s) := Demo.run in
  option_map (fun p => (p.1, stage p.2)) r = Some (0, B41_DOWNLOAD_ACKS_COMPLETE) /\ len (sent 5 s) = 116 /\ submitted 5 25 s = [0; 1; 2] /\ map (fun fd => net fd s) [3; 4; 5] = [0; 0; 0].
Proof. vm_compute. auto. Qed.

(** Resources of the download program. On every path of [main], whatever the
    system calls answer, each descriptor that was opened is closed exactly once
    before the program exits, the transmit and receive buffers of the owner are
    erased, and the exit code is 0, 1 or 2. While the loop is still running,
    exactly the descriptor of the positioning device is held. *)
Theorem runner_descriptors fl fuel args : layout_ok fl ->
  performs (main fl fuel args) (fun r s =>
    match r with
    | Some (code, o) => (forall fd, net fd s = 0) /\ erased o /\ (code = 0 \/ code = 1 \/ code = 2)
    | None => exists gps, forall fd, net fd s = if gps =? fd then 1 else 0
    end).
Proof.
  intros Hl. eapply performs_impl; [apply main_performs, Hl|]. intros r s H. unfold main_post in H. destruct (parse_arguments args) as [c|t] eqn:E.
  - destruct H as (-> & _ & Hn). split; [exact Hn|]. split; [split; reflexivity|]. destruct (parse_code _ _ E) as [[-> _]| ->]; auto.
  - destruct H as (a & s' & d & -> & H & _). apply (ran_then _ _ _ _ a) in H. destruct r as [[code o]|]; [destruct H as (A & B & C & _); tauto|]. destruct H as (gps & A & _). eauto.
Qed.
Lemma runner_descriptors_witness : performs (main Demo.layout 20 [[112; 114; 111]]) (fun r s => r <> None -> forall fd, net fd s = 0).
Proof.
  eapply performs_impl; [apply (runner_descriptors Demo.layout 20 [[112; 114; 111]]), Demo.layout_1_ok|]. intros [[code o]|] s H X; [apply H|contradiction].
Defined.

(** Exit code 0. *)
Definition exit_ok (r : option (Z * download)) : bool := match r with Some (code, _) => code =? 0 | None => false end.

(** C39. What the download program does to the device. A run that never wrote to,
    read from or submitted to the device does not exit with 0, unless only the
    help was asked for. Every other run was one download: there are a
    descriptor, a chip and a profile that the native policy supports, and a
    time, such that each transfer and each fragment request on the descriptor
    followed a clock reading before that time and the descriptor checks, and the
    device took a prefix of the frame of that policy and of its own metadata,
    then fragments in order. The program exits with 0 only after the whole frame
    and all fragments. *)
Theorem runner_dialogue fl fuel args : layout_ok fl ->
  performs (main fl fuel args) (fun r s =>
    (Forall plain s /\ (exit_ok r = true -> args = [help])) \/ exists gps deadline, conversed fl gps deadline (final_phase (exit_ok r)) s).
Proof.
  intros Hl. eapply performs_impl; [apply main_performs, Hl|]. intros r s H. unfold main_post in H. destruct (parse_arguments args) as [c|t] eqn:E.
  - destruct H as (-> & Hp & _). left. split; [exact Hp|]. cbn. intros X. destruct (parse_code _ _ E) as [[_ ?]| ->]; [assumption|discriminate].
  - destruct H as (a & s' & d & -> & H & _). apply (ran_then _ _ _ _ a) in H. destruct r as [[code o]|]; cbn [exit_ok].
    + destruct H as (_ & _ & _ & [[-> H]|[gps H]]); [left; split; [exact H|discriminate]|right; eauto].
    + destruct H as (gps & _ & H & _). right. eauto.
Qed.
Lemma runner_dialogue_witness : performs (main Demo.layout 20 [[112; 114; 111]]) (fun r s =>
    exit_ok r = true -> exists gps deadline, conversed Demo.layout gps deadline (final_phase true) s).
Proof.
  eapply performs_impl; [apply (runner_dialogue Demo.layout 20 [[112; 114; 111]]), Demo.layout_1_ok|]. intros r s [[_ H]|H] X; [now specialize (H X)|]. rewrite X in H. exact H.
Defined.

(** The program ends. Its loop has no bound of its own: it ends because each
    pass reads the clock and fails the owner at the deadline. When successive
    readings of the monotonic clock grow, 30000000001 passes are more than any
    run makes, for every timeout the arguments allow. *)
Theorem runner_terminates fl fuel args : layout_ok fl -> 30000 * 1000000 < Z.of_nat fuel ->
  performs (main fl fuel args) (fun r s => StronglySorted Z.lt (readings s) -> r <> None).
Proof.
  intros Hl Hf. eapply performs_impl; [apply main_performs, Hl|]. intros r s H Hs ->. unfold main_post in H. destruct (parse_arguments args) as [c|t] eqn:E; [destruct H; discriminate|].
  apply parse_timeout in E. destruct H as (a & s' & d & -> & (gps & _ & _ & xs & H1 & H2 & H3) & H4). destruct (H4 eq_refl) as (now & Er & ->).
  unfold readings in Hs. cbn [flat_map] in Hs. unfold clock_of at 1 in Hs. cbn [fst snd] in Hs. rewrite Er in Hs. cbn [app] in Hs. inversion Hs as [|? ? Hs' Hlo]. subst.
  pose proof (sublist_sorted xs _ H1 Hs') as Hx. pose proof (sorted_bounded xs now (now + t * 1000000) Hx) as Hb.
  assert (Hbd : Forall (fun x => now < x < now + t * 1000000) xs); [|specialize (Hb Hbd); lia].
  apply Forall_forall. intros x Hin. rewrite Forall_forall in H3, Hlo. split; [apply Hlo; eapply elem_of_submseteq; [exact Hin|now apply sublist_submseteq]|now apply H3].
Qed.
Lemma runner_terminates_witness : performs (main Demo.layout (Z.to_nat 30000000001) [[112; 114; 111]]) (fun r s => StronglySorted Z.lt (readings s) -> r <> None).
Proof.
  apply (runner_terminates Demo.layout (Z.to_nat 30000000001) [[112; 114; 111]]); [apply Demo.layout_1_ok|]. rewrite Z2Nat.id; lia.
Defined.
