(* ===== verification/Session.v ===== *)
(** * The native GNSS session owner: [native-session/session.c]

    The owner borrows one open descriptor, waits until the sampled kernel
    state machine reports the DSP at work, and stops it again: it writes the
    stop frame, waits for the DSP reset, issues the deep-stop ioctl and waits
    for the suspended state. The kernel is an interface ([Kernel]): each
    system call the source makes is one operation of it, and the effects the
    source has on the device (bytes accepted by [write], the deep-stop ioctl)
    are logged in the order in which they happen. *)

From S2P Require Import Prelude Wire.

Inductive session_stage : Type :=
| B41_SESSION_NEW
| B41_SESSION_WAIT_WORK
| B41_SESSION_WORKING
| B41_SESSION_STOP_TX
| B41_SESSION_WAIT_RESET
| B41_SESSION_WAIT_HWSTOP
| B41_SESSION_STOPPED
| B41_SESSION_FAILED.
#[export] Instance session_stage_eq_dec : EqDecision session_stage.
Proof. solve_decision. Defined.

(** [struct gpsdl_v051_session_snapshot] *)
Record session_snapshot : Type := Snapshot {
  abi_version : Z;
  snap_size : Z;
  link_id : Z;
  snap_session_id : Z;
  link_state : Z;
  dsp_state : Z;
  reserved : Z * Z
}.

Record native_session : Type := NativeSession {
  stage : session_stage;
  fd : Z;
  first_error : Z;
  device : Z;
  rdevice : Z;
  inode : Z;
  session_id : Z;
  deadline_ns : Z;
  last_ns : Z;
  latest : session_snapshot;
  stop_offset : Z
}.

Abbreviation LINK_OPENED := 3 (only parsing).
Abbreviation LINK_SUSPENDING := 8 (only parsing).
Abbreviation LINK_SUSPENDED := 9 (only parsing).
Abbreviation DSP_ON := 1 (only parsing).
Abbreviation DSP_RESET_DONE := 2 (only parsing).
Abbreviation DSP_WORKING := 3 (only parsing).
Abbreviation DSP_HW_STOP := 5 (only parsing).
Abbreviation GPSDL_V051_SESSION_ABI := 1 (only parsing).
Definition sizeof_snapshot : Z := 32.

Definition stop_frame : list Z :=
  [0xaa; 0xf0; 0x06; 0x00; 0x05; 0xfe; 0x04; 0x00; 0x0d; 0x01; 0xaa; 0x0f].

(** The parts of [struct stat] the source reads. *)
Record stat : Type := Stat { st_mode : Z; st_dev : Z; st_rdev : Z; st_ino : Z }.
Definition S_ISCHR (mode : Z) : bool := Z.land mode 0xf000 =? 0x2000.
Abbreviation O_ACCMODE := 3 (only parsing).
Abbreviation O_RDWR := 2 (only parsing).
Abbreviation O_NONBLOCK := 0x800 (only parsing).

(** ** The kernel interface

    A system call fails with a positive [errno] or yields its result; byte
    counts and successful ioctl results are not negative. *)

Class Kernel (K : Type) := {
  sys_clock : K -> (positive + Z * Z) * K;
  sys_getfl : Z -> K -> (positive + N) * K;
  sys_fstat : Z -> K -> (positive + stat) * K;
  sys_lstat : K -> (positive + stat) * K;
  sys_snapshot : Z -> K -> (positive + N * session_snapshot) * K;
  sys_write : Z -> list Z -> K -> (positive + N) * K;
  sys_ioctl18 : Z -> K -> (positive + N) * K
}.

Inductive effect : Type :=
| Wrote (accepted : list Z)
| DeepStop.

Section Driver.
Context {K : Type} `{Kernel K}.

(** ** Programs with system calls *)

Definition world : Type := K * list effect.
Definition prog (A : Type) : Type := world -> A * world.
#[export] Instance prog_ret : MRet prog := fun A a w => (a, w).
#[export] Instance prog_bind : MBind prog := fun A B k m w => let '(a, w') := m w in k a w'.

Definition syscall {A} (f : K -> A * K) : prog A := fun w => let '(a, k) := f w.1 in (a, (k, w.2)).
Definition emit (e : effect) : prog unit := fun w => (tt, (w.1, w.2 ++ [e])).

(** Field updates. *)
Definition set_stage (o : native_session) (s : session_stage) : native_session :=
  NativeSession s (fd o) (first_error o) (device o) (rdevice o) (inode o) (session_id o)
    (deadline_ns o) (last_ns o) (latest o) (stop_offset o).
Definition set_error (o : native_session) (e : Z) : native_session :=
  NativeSession (stage o) (fd o) e (device o) (rdevice o) (inode o) (session_id o)
    (deadline_ns o) (last_ns o) (latest o) (stop_offset o).
Definition set_last (o : native_session) (now : Z) : native_session :=
  NativeSession (stage o) (fd o) (first_error o) (device o) (rdevice o) (inode o) (session_id o)
    (deadline_ns o) now (latest o) (stop_offset o).
Definition set_latest (o : native_session) (s : session_snapshot) : native_session :=
  NativeSession (stage o) (fd o) (first_error o) (device o) (rdevice o) (inode o) (session_id o)
    (deadline_ns o) (last_ns o) s (stop_offset o).
Definition set_offset (o : native_session) (n : Z) : native_session :=
  NativeSession (stage o) (fd o) (first_error o) (device o) (rdevice o) (inode o) (session_id o)
    (deadline_ns o) (last_ns o) (latest o) n.

Definition is_stage (o : native_session) (s : session_stage) : bool := bool_decide (stage o = s).

(** Status and time. *)
Definition now_ns : prog (Z * Z) :=
  v ← syscall sys_clock;
  match v with
  | inl errno => mret (- Zpos errno, 0)
  | inr (tv_sec, tv_nsec) =>
    if (tv_sec <? 0) || (tv_nsec <? 0) || (1000000000 <=? tv_nsec)
       || ((UINT64_MAX - tv_nsec) / 1000000000 <? tv_sec)
    then mret (- EOVERFLOW, 0)
    else mret (0, u64 (tv_sec * 1000000000 + tv_nsec))
  end.

(** Status and, on success, the snapshot; [out] is whether the result pointer
    is not null. *)
Definition b41_session_snapshot (f : Z) (out : bool) : prog (Z * option session_snapshot) :=
  if (f <? 0) || negb out then mret (- EINVAL, None)
  else
  a ← syscall (sys_fstat f);
  match a with
  | inl errno => mret (- Zpos errno, None)
  | inr actual =>
    n ← syscall sys_lstat;
    match n with
    | inl errno => mret (- Zpos errno, None)
    | inr node =>
      if negb (S_ISCHR (st_mode actual)) || negb (S_ISCHR (st_mode node))
         || negb (st_dev actual =? st_dev node) || negb (st_rdev actual =? st_rdev node)
         || negb (st_ino actual =? st_ino node)
      then mret (- ENODEV, None)
      else
      r ← syscall (sys_snapshot f);
      match r with
      | inl errno => mret (- Zpos errno, None)
      | inr (status, result) =>
        if negb (Z.of_N status =? 0) || negb (abi_version result =? GPSDL_V051_SESSION_ABI)
           || negb (snap_size result =? sizeof_snapshot) || (1 <? link_id result)
           || (snap_session_id result =? 0) || (0x7ffffffe <? snap_session_id result)
           || (11 <=? link_state result) || (7 <=? dsp_state result)
           || negb ((reserved result).1 =? 0) || negb ((reserved result).2 =? 0)
        then mret (- EPROTO, None)
        else mret (0, Some result)
      end
    end
  end.

(** Status and the owner afterwards. *)
Definition failed (o : native_session) (status : Z) : Z * native_session :=
  let o := if negb (is_stage o B41_SESSION_FAILED)
           then set_stage (set_error o (if status <? 0 then status else - EPROTO)) B41_SESSION_FAILED
           else o in
  (first_error o, o).

Definition time_check (o : native_session) : prog (Z * native_session) :=
  t ← now_ns;
  let '(status, now) := t in
  mret (if negb (status =? 0) then failed o status
        else if now <? last_ns o then failed o (- ESTALE)
        else
          let o := set_last o now in
          if deadline_ns o <=? now then failed o (- ETIMEDOUT) else (0, o)).

(** The access mode and blocking flags of an acceptable descriptor. *)
Definition flags_ok (flags : Z) : bool :=
  (Z.land flags O_ACCMODE =? O_RDWR) && negb (Z.land flags O_NONBLOCK =? 0).

Definition same_fd (o : native_session) : prog (Z * native_session) :=
  fl ← syscall (sys_getfl (fd o));
  match fl with
  | inl errno => mret (failed o (- Zpos errno))
  | inr flags =>
    if negb (flags_ok (Z.of_N flags)) then mret (failed o (- EINVAL))
    else
    s ← syscall (sys_fstat (fd o));
    match s with
    | inl errno => mret (failed o (- Zpos errno))
    | inr st =>
      mret (if negb (S_ISCHR (st_mode st)) || negb (st_dev st =? device o)
               || negb (st_rdev st =? rdevice o) || negb (st_ino st =? inode o)
            then failed o (- ESTALE) else (0, o))
    end
  end.

(** 0 with the new sample stored, 1 for a sample still changing, or an error. *)
Definition sample (o : native_session) : prog (Z * native_session) :=
  t ← time_check o;
  let '(status, o) := t in
  if negb (status =? 0) then mret (status, o)
  else
  t ← same_fd o;
  let '(status, o) := t in
  if negb (status =? 0) then mret (status, o)
  else
  r ← b41_session_snapshot (fd o) true;
  let '(status, result) := r in
  if negb (status =? 0) && negb (status =? - EAGAIN) then mret (failed o status)
  else
  t ← time_check o;
  let '(late, o) := t in
  if negb (late =? 0) then mret (first_error o, o)
  else if negb (status =? 0) then mret (1, o)
  else
  match result with
  | None => mret (failed o (- ESTALE))
  | Some result =>
    mret (if negb (link_id result =? 0) || negb (snap_session_id result =? session_id o)
          then failed o (- ESTALE) else (0, set_latest o result))
  end.

Definition b41_session_attach (owner : option native_session) (f deadline : Z)
    : prog (Z * option native_session) :=
  match owner with
  | None => mret (- EINVAL, None)
  | Some o =>
    let fail status := let '(s, o) := failed o status in (s, Some o) in
    if f <? 0 then mret (- EINVAL, owner)
    else if negb (is_stage o B41_SESSION_NEW) then
      mret (if is_stage o B41_SESSION_FAILED then first_error o else - EALREADY, owner)
    else
    t ← now_ns;
    let '(status, last) := t in
    if negb (status =? 0) then mret (fail status)
    else if deadline <=? last then mret (fail (- ETIMEDOUT))
    else
    fl ← syscall (sys_getfl f);
    match fl with
    | inl errno => mret (fail (- Zpos errno))
    | inr flags =>
      if negb (flags_ok (Z.of_N flags)) then mret (fail (- EINVAL))
      else
      s ← syscall (sys_fstat f);
      match s with
      | inl errno => mret (fail (- Zpos errno))
      | inr st =>
        if negb (S_ISCHR (st_mode st)) then mret (fail (- ENODEV))
        else
        r ← b41_session_snapshot f true;
        match r with
        | (0, Some snap) =>
          if negb (link_id snap =? 0) || negb (link_state snap =? LINK_OPENED)
             || (negb (dsp_state snap =? DSP_ON) && negb (dsp_state snap =? DSP_RESET_DONE)
                 && negb (dsp_state snap =? DSP_WORKING))
          then mret (fail (- EHOSTDOWN))
          else
          t ← time_check (NativeSession B41_SESSION_WAIT_WORK f 0 (st_dev st) (st_rdev st) (st_ino st)
                            (snap_session_id snap) deadline last snap 0);
          let '(status, result) := t in
          mret (if negb (status =? 0) then fail (first_error result) else (0, Some result))
        | (status, _) => mret (fail status)
        end
      end
    end
  end.

(** The bodies for a present owner; see [on_owner] for the entry points. *)
Definition wait_step (o : native_session) : prog (Z * native_session) :=
  match stage o with
  | B41_SESSION_FAILED => mret (first_error o, o)
  | B41_SESSION_WORKING => mret (0, o)
  | B41_SESSION_WAIT_WORK =>
    t ← sample o;
    let '(status, o) := t in
    mret (if negb (status =? 0) then (if status <? 0 then status else 0, o)
          else if negb (link_state (latest o) =? LINK_OPENED) then failed o (- EHOSTDOWN)
          else if dsp_state (latest o) =? DSP_WORKING then (0, set_stage o B41_SESSION_WORKING)
          else if negb (dsp_state (latest o) =? DSP_ON) && negb (dsp_state (latest o) =? DSP_RESET_DONE)
          then failed o (- EHOSTDOWN)
          else (0, o))
  | _ => mret (- EINVAL, o)
  end.

Definition stop_begin (o : native_session) : prog (Z * native_session) :=
  match stage o with
  | B41_SESSION_FAILED => mret (first_error o, o)
  | B41_SESSION_WORKING =>
    t ← sample o;
    let '(status, o) := t in
    mret (if negb (status =? 0) then (if status <? 0 then status else - EAGAIN, o)
          else if negb (link_state (latest o) =? LINK_OPENED) || negb (dsp_state (latest o) =? DSP_WORKING)
          then failed o (- EHOSTDOWN)
          else (0, set_stage (set_offset o 0) B41_SESSION_STOP_TX))
  | _ => mret (- EALREADY, o)
  end.

(** The three arms of [stop_step] after a fresh sample. *)
Definition stop_tx (o : native_session) : prog (Z * native_session) :=
  if negb (link_state (latest o) =? LINK_OPENED) || negb (dsp_state (latest o) =? DSP_WORKING)
  then mret (failed o (- EHOSTDOWN))
  else if len stop_frame <=? stop_offset o then mret (failed o (- EPROTO))
  else
  let remaining := len stop_frame - stop_offset o in
  r ← syscall (sys_write (fd o) (slice stop_frame (stop_offset o) remaining));
  match r with
  | inl errno =>
    if negb (- Zpos errno =? - EAGAIN) then mret (failed o (- Zpos errno))
    else
    t ← time_check o;
    let '(late, o) := t in
    mret (if negb (late =? 0) then (first_error o, o) else (0, o))
  | inr n =>
    let count := Z.of_N n in
    _ ← emit (Wrote (slice stop_frame (stop_offset o) (Z.min count remaining)));
    t ← time_check o;
    let '(late, o) := t in
    mret (if negb (late =? 0) then (first_error o, o)
          else if (count =? 0) || (remaining <? count) then failed o (- EIO)
          else
            let o := set_offset o (stop_offset o + count) in
            (0, if stop_offset o =? len stop_frame then set_stage o B41_SESSION_WAIT_RESET else o))
  end.

Definition stop_reset (o : native_session) : prog (Z * native_session) :=
  if negb (link_state (latest o) =? LINK_OPENED) then mret (failed o (- EHOSTDOWN))
  else if dsp_state (latest o) =? DSP_WORKING then mret (0, o)
  else if negb (dsp_state (latest o) =? DSP_RESET_DONE) then mret (failed o (- EHOSTDOWN))
  else
  let o := set_stage o B41_SESSION_WAIT_HWSTOP in
  _ ← emit DeepStop;
  r ← syscall (sys_ioctl18 (fd o));
  let ioctl_error := match r with inl errno => - Zpos errno | inr 0%N => 0 | inr _ => - EPROTO end in
  if negb (ioctl_error =? 0) then mret (failed o ioctl_error) else time_check o.

Definition stop_hw (o : native_session) : Z * native_session :=
  if (link_state (latest o) =? LINK_SUSPENDED) && (dsp_state (latest o) =? DSP_HW_STOP)
  then (0, set_stage o B41_SESSION_STOPPED)
  else if (negb (link_state (latest o) =? LINK_SUSPENDING) && negb (link_state (latest o) =? LINK_SUSPENDED))
       || (negb (dsp_state (latest o) =? DSP_RESET_DONE) && negb (dsp_state (latest o) =? DSP_HW_STOP))
  then failed o (- EHOSTDOWN)
  else (0, o).

Definition stop_step (o : native_session) : prog (Z * native_session) :=
  match stage o with
  | B41_SESSION_FAILED => mret (first_error o, o)
  | B41_SESSION_STOPPED => mret (0, o)
  | B41_SESSION_STOP_TX | B41_SESSION_WAIT_RESET | B41_SESSION_WAIT_HWSTOP =>
    t ← sample o;
    let '(status, o) := t in
    if negb (status =? 0) then mret (if status <? 0 then status else 0, o)
    else match stage o with
    | B41_SESSION_STOP_TX => stop_tx o
    | B41_SESSION_WAIT_RESET => stop_reset o
    | _ => mret (stop_hw o)
    end
  | _ => mret (- EINVAL, o)
  end.

(** [if (!owner) return -EINVAL;] in front of a body. *)
Definition on_owner (body : native_session -> prog (Z * native_session)) (owner : option native_session)
    : prog (Z * option native_session) :=
  match owner with
  | None => mret (- EINVAL, None)
  | Some o => t ← body o; mret (t.1, Some t.2)
  end.
Definition b41_session_wait_step := on_owner wait_step.
Definition b41_session_stop_begin := on_owner stop_begin.
Definition b41_session_stop_step := on_owner stop_step.

(** ** Calls as events *)

Inductive session_call : Type :=
| CallAttach (f deadline : Z)
| CallWait
| CallStopBegin
| CallStopStep.

Definition session_call_step (o : native_session) (c : session_call) : prog (Z * option native_session) :=
  match c with
  | CallAttach f deadline => b41_session_attach (Some o) f deadline
  | CallWait => b41_session_wait_step (Some o)
  | CallStopBegin => b41_session_stop_begin (Some o)
  | CallStopStep => b41_session_stop_step (Some o)
  end.

(** ** The invariant of the owner and its effects *)

Definition accepted_bytes (l : list effect) : list Z :=
  l ≫= (fun e => match e with Wrote b => b | DeepStop => [] end).
Definition only_writes (l : list effect) : Prop := Forall (fun e => e <> DeepStop) l.

(** The device has seen a prefix of the stop frame, and the deep-stop ioctl
    only once, last, and after the complete frame. *)
Definition orderly (l : list effect) : Prop :=
  exists ws, only_writes ws /\ accepted_bytes ws `prefix_of` stop_frame /\
    (l = ws \/ l = ws ++ [DeepStop] /\ accepted_bytes ws = stop_frame).
Definition stop_issued (l : list effect) : Prop :=
  exists ws, only_writes ws /\ accepted_bytes ws = stop_frame /\ l = ws ++ [DeepStop].

Definition session_inv (o : native_session) (l : list effect) : Prop :=
  orderly l /\
  (stage o <> B41_SESSION_NEW -> stage o <> B41_SESSION_FAILED -> last_ns o < deadline_ns o) /\
  match stage o with
  | B41_SESSION_NEW | B41_SESSION_WAIT_WORK | B41_SESSION_WORKING => l = []
  | B41_SESSION_STOP_TX => only_writes l /\ 0 <= stop_offset o < 12 /\
      accepted_bytes l = slice stop_frame 0 (stop_offset o)
  | B41_SESSION_WAIT_RESET => only_writes l /\ accepted_bytes l = stop_frame
  | B41_SESSION_WAIT_HWSTOP => stop_issued l
  | B41_SESSION_STOPPED => stop_issued l /\
      link_state (latest o) = LINK_SUSPENDED /\ dsp_state (latest o) = DSP_HW_STOP
  | B41_SESSION_FAILED => first_error o < 0
  end.

(** ** Programs that leave the device alone *)

Definition quiet {A} (m : prog A) (Q : A -> Prop) : Prop :=
  forall w, Q (m w).1 /\ (m w).2.2 = w.2.

Lemma quiet_ret {A} (a : A) (Q : A -> Prop) : Q a -> quiet (mret a) Q.
Proof. intros HQ w. split; [exact HQ|reflexivity]. Qed.
Lemma quiet_syscall {A} (f : K -> A * K) (Q : A -> Prop) : (forall a, Q a) -> quiet (syscall f) Q.
Proof. intros HQ w. unfold syscall. destruct (f w.1). split; [apply HQ|reflexivity]. Qed.
Lemma quiet_bind {A B} (m : prog A) (k : A -> prog B) (P : A -> Prop) (Q : B -> Prop) :
  quiet m P -> (forall a, P a -> quiet (k a) Q) -> quiet (m ≫= k) Q.
Proof.
  intros Hm Hk w. unfold mbind, prog_bind. destruct (Hm w) as [HP Hl]. destruct (m w) as [a w'].
  cbn in *. destruct (Hk a HP w') as [HQ Hl']. split; [exact HQ|]. now rewrite Hl'.
Qed.
Lemma quiet_any {A B} (f : K -> A * K) (k : A -> prog B) (Q : B -> Prop) :
  (forall a, quiet (k a) Q) -> quiet (syscall f ≫= k) Q.
Proof. intros Hk. eapply quiet_bind; [apply quiet_syscall with (Q := fun _ => True); done|]. intros a _. apply Hk. Qed.

(** [o'] is [o] with newer observations, or [o] failed. *)
Definition observed (o : native_session) (r : Z * native_session) : Prop :=
  stop_offset r.2 = stop_offset o /\
  (r.1 = 0 /\ stage r.2 = stage o /\ last_ns r.2 < deadline_ns r.2 \/
   r.1 = 1 /\ stage r.2 = stage o /\ last_ns r.2 < deadline_ns r.2 /\ latest r.2 = latest o \/
   r.1 < 0 /\ stage r.2 = B41_SESSION_FAILED /\ first_error r.2 = r.1).

Lemma failed_spec o st : stage o <> B41_SESSION_FAILED ->
  let r := failed o st in
  r.1 < 0 /\ stage r.2 = B41_SESSION_FAILED /\ first_error r.2 = r.1 /\ stop_offset r.2 = stop_offset o.
Proof.
  intros Hs. unfold failed, is_stage. rewrite bool_decide_eq_false_2 by exact Hs. cbn.
  repeat split; try reflexivity. destruct (Z.ltb_spec st 0); lia.
Qed.
Lemma observed_failed o o' st : stage o' <> B41_SESSION_FAILED -> stop_offset o' = stop_offset o ->
  observed o (failed o' st).
Proof.
  intros Hs Ho. destruct (failed_spec o' st Hs) as (H1 & H2 & H3 & H4).
  split; [congruence|]. right. right. auto.
Qed.

Lemma time_check_quiet o : stage o <> B41_SESSION_FAILED ->
  quiet (time_check o) (fun r => observed o r /\ r.1 <> 1 /\ latest r.2 = latest o).
Proof.
  intros Hs. unfold time_check.
  eapply quiet_bind with (P := fun _ => True).
  - unfold now_ns. apply quiet_any. intros [errno|[sec nsec]]; [now apply quiet_ret|].
    destruct (_ || _); now apply quiet_ret.
  - intros [status now] _. apply quiet_ret.
    assert (Hf : forall o' st, stage o' <> B41_SESSION_FAILED -> stop_offset o' = stop_offset o -> latest o' = latest o ->
      observed o (failed o' st) /\ (failed o' st).1 <> 1 /\ latest (failed o' st).2 = latest o).
    { intros o' st Hs' Ho Hl. split; [now apply observed_failed|].
      destruct (failed_spec o' st Hs') as (? & _). split; [lia|].
      unfold failed. now destruct (negb _). }
    destruct (negb (status =? 0)); [now apply Hf|]. destruct (now <? last_ns o); [now apply Hf|].
    destruct (Z.leb_spec (deadline_ns (set_last o now)) now); [now apply Hf|].
    cbn in *. split; [|split; [lia|reflexivity]]. split; [reflexivity|]. left. auto.
Qed.

Lemma time_check_fields o w : stage o <> B41_SESSION_FAILED ->
  deadline_ns (time_check o w).1.2 = deadline_ns o /\ fd (time_check o w).1.2 = fd o /\
  (time_check o w).2.2 = w.2.
Proof.
  intros Hs. assert (Hf : forall o' st, deadline_ns (failed o' st).2 = deadline_ns o' /\ fd (failed o' st).2 = fd o')
    by (intros; unfold failed; destruct (negb _); auto).
  destruct (time_check_quiet o Hs w) as [_ Hlog]. rewrite Hlog. clear Hlog.
  unfold time_check, mbind, prog_bind. destruct (now_ns w) as [[status now] w']. unfold mret, prog_ret. cbn [fst snd].
  destruct (negb _); [destruct (Hf o status); auto|]. destruct (now <? last_ns o); [destruct (Hf o (- ESTALE)); auto|].
  destruct (_ <=? now); [destruct (Hf (set_last o now) (- ETIMEDOUT)); auto|auto].
Qed.

Lemma same_fd_quiet o : stage o <> B41_SESSION_FAILED -> last_ns o < deadline_ns o ->
  quiet (same_fd o) (fun r => observed o r /\ r.1 <> 1 /\ (r.1 = 0 -> r.2 = o)).
Proof.
  intros Hs Hd.
  assert (Hf : forall st, observed o (failed o st) /\ (failed o st).1 <> 1 /\ ((failed o st).1 = 0 -> (failed o st).2 = o)).
  { intros st. split; [now apply observed_failed|]. destruct (failed_spec o st Hs) as (? & _). split; lia. }
  unfold same_fd. apply quiet_any. intros [errno|flags]; [apply quiet_ret, Hf|].
  destruct (negb (flags_ok _)); [apply quiet_ret, Hf|]. apply quiet_any.
  intros [errno|st]; apply quiet_ret; [apply Hf|]. destruct (_ || _); [apply Hf|].
  split; [|split; [cbn; lia|reflexivity]]. split; [reflexivity|]. left. auto.
Qed.

Lemma snapshot_quiet f out : quiet (b41_session_snapshot f out) (fun r => r.1 <= 0).
Proof.
  unfold b41_session_snapshot. destruct (_ || _); [apply quiet_ret; cbn; lia|].
  apply quiet_any. intros [errno|actual]; [apply quiet_ret; cbn; lia|].
  apply quiet_any. intros [errno|node]; [apply quiet_ret; cbn; lia|].
  destruct (_ || _); [apply quiet_ret; cbn; lia|].
  apply quiet_any. intros [errno|[status result]]; [apply quiet_ret; cbn; lia|].
  destruct (_ || _); apply quiet_ret; cbn; lia.
Qed.

(** Chaining observations. *)
Lemma observed_trans o r r' : observed o r -> r.1 = 0 -> observed r.2 r' -> r'.1 <> 1 -> observed o r'.
Proof.
  unfold observed. intros (H1 & H2) E (H3 & H4) Hn. split; [congruence|].
  destruct H2 as [(_ & Hs & Hd)|[(? & _)|(? & _)]]; [|lia..].
  destruct H4 as [(? & ? & ?)|[(? & _)|(? & ? & ?)]]; [left|lia|right; right]; repeat split; congruence || lia.
Qed.

Lemma sample_quiet o : stage o <> B41_SESSION_FAILED -> quiet (sample o) (observed o).
Proof.
  intros Hs. unfold sample. eapply quiet_bind; [now apply time_check_quiet|].
  intros [st1 o1] (Ho1 & Hn1 & Hl1). destruct (Z.eqb_spec st1 0) as [->|]; cbn [negb]; [|now apply quiet_ret].
  assert (Hs1 : stage o1 <> B41_SESSION_FAILED /\ last_ns o1 < deadline_ns o1)
    by (destruct Ho1 as [_ [(_ & E & ?)|[(? & _)|(? & _)]]]; cbn in *; [rewrite E; auto|lia..]).
  eapply quiet_bind; [now apply same_fd_quiet|].
  intros [st2 o2] (Ho2 & Hn2 & Hsame). destruct (Z.eqb_spec st2 0) as [->|]; cbn [negb].
  2: { apply quiet_ret. now apply (observed_trans o (0, o1)). }
  cbn in Hsame. rewrite Hsame in * by reflexivity. clear Hsame Ho2.
  eapply quiet_bind; [apply snapshot_quiet|]. intros [st3 result] Hst3. cbn in Hst3.
  destruct (negb (st3 =? 0) && negb (st3 =? - EAGAIN)) eqn:E3.
  { apply quiet_ret. apply observed_failed; [tauto|]. destruct Ho1 as [E _]. exact E. }
  eapply quiet_bind; [apply time_check_quiet; tauto|]. intros [late o3] (Ho3 & Hn3 & Hl3).
  pose proof (observed_trans o (0, o1) (late, o3) Ho1 eq_refl Ho3 Hn3) as Ho.
  destruct (Z.eqb_spec late 0) as [->|Hl]; cbn [negb].
  2: { apply quiet_ret. destruct Ho as [? [(? & _)|[(? & _)|(H1 & H2 & H3)]]]; cbn in *; try lia.
       split; [assumption|]. right. right. cbn. rewrite H3. auto. }
  assert (Hs3 : stage o3 = stage o /\ stop_offset o3 = stop_offset o /\ last_ns o3 < deadline_ns o3)
    by (destruct Ho as [? [(_ & E & ?)|[(? & _)|(? & _)]]]; cbn in *; [auto|lia..]).
  destruct (Z.eqb_spec st3 0) as [->|]; cbn [negb].
  - destruct result as [result|]; apply quiet_ret.
    + destruct (_ || _); [apply observed_failed; [destruct Hs3 as (-> & _)|]; tauto|].
      split; [tauto|]. left. cbn. tauto.
    + apply observed_failed; [destruct Hs3 as (-> & _)|]; tauto.
  - apply quiet_ret. split; [tauto|]. right. left. cbn in *. repeat split; try tauto. congruence.
Qed.

(** ** Every call preserves the invariant *)

Definition inv_after (x : (Z * native_session) * world) : Prop := session_inv x.1.2 x.2.2.
Definition preserves (o : native_session) (m : prog (Z * native_session)) : Prop :=
  forall w, session_inv o w.2 -> inv_after (m w).

Lemma inv_same_stage o o' l : stage o' = stage o -> stop_offset o' = stop_offset o ->
  (stage o = B41_SESSION_STOPPED -> latest o' = latest o) -> (stage o = B41_SESSION_FAILED -> first_error o' = first_error o) ->
  (stage o' <> B41_SESSION_NEW -> last_ns o' < deadline_ns o') -> session_inv o l -> session_inv o' l.
Proof.
  intros Hs Ho Hl He Hd (H1 & H2 & H3). unfold session_inv. rewrite Hs, Ho in *. split; [exact H1|].
  split; [tauto|]. destruct (stage o); try exact H3.
  - rewrite Hl by reflexivity. exact H3.
  - rewrite He by reflexivity. exact H3.
Qed.
Lemma inv_failed o l : stage o = B41_SESSION_FAILED -> first_error o < 0 -> orderly l -> session_inv o l.
Proof. intros Hs He Ho. unfold session_inv. rewrite Hs. tauto. Qed.

Lemma failed_inv o st l : stage o <> B41_SESSION_FAILED -> orderly l -> session_inv (failed o st).2 l.
Proof. intros Hs Hl. destruct (failed_spec o st Hs) as (H1 & H2 & H3 & _). now apply inv_failed. Qed.

(** After a sample, continue on the observed owner with the same effects. *)
Lemma sample_then o (k : Z * native_session -> prog (Z * native_session)) w :
  stage o <> B41_SESSION_FAILED -> stage o <> B41_SESSION_NEW -> stage o <> B41_SESSION_STOPPED ->
  session_inv o w.2 ->
  (forall st o' w', w'.2 = w.2 -> stage o' <> B41_SESSION_FAILED -> stage o' = stage o -> st = 0 \/ st = 1 ->
     session_inv o' w'.2 -> inv_after (k (st, o') w')) ->
  (forall st o' w', st < 0 -> k (st, o') w' = ((st, o'), w')) ->
  inv_after ((sample o ≫= k) w).
Proof.
  intros Hf Hn Hst Hinv Hk Herr. unfold mbind, prog_bind. destruct (sample_quiet o Hf w) as [Hobs Hlog].
  destruct (sample o w) as [[st o'] w']. cbn in Hobs, Hlog.
  assert (Hok : stage o' = stage o -> last_ns o' < deadline_ns o' -> session_inv o' w'.2).
  { intros Hs Hd. destruct Hobs as [Ho _]. rewrite Hlog. now apply (inv_same_stage o). }
  destruct Hobs as [Ho [(H1 & H2 & H3)|[(H1 & H2 & H3 & _)|(H1 & H2 & H3)]]]; cbn in *.
  - apply Hk; try tauto; congruence.
  - apply Hk; try tauto; congruence.
  - rewrite Herr by exact H1. unfold inv_after. cbn. apply inv_failed; [assumption|lia|]. rewrite Hlog. apply Hinv.
Qed.

(** The status mapping in front of the arms never changes a failed owner. *)
Ltac map_status := intros ? ? ? ?; unfold mret, prog_ret; cbn;
  repeat match goal with |- context [?a =? ?b] => replace (a =? b) with false by lia end; cbn;
  repeat match goal with |- context [?a <? ?b] => replace (a <? b) with true by lia end; reflexivity.

Lemma inv_stage_change o s l : session_inv o l -> stage o <> B41_SESSION_NEW -> stage o <> B41_SESSION_FAILED ->
  s <> B41_SESSION_FAILED -> (session_inv o l -> match s with
  | B41_SESSION_NEW | B41_SESSION_WAIT_WORK | B41_SESSION_WORKING => l = []
  | B41_SESSION_STOP_TX => only_writes l /\ 0 <= stop_offset o < 12 /\
      accepted_bytes l = slice stop_frame 0 (stop_offset o)
  | B41_SESSION_WAIT_RESET => only_writes l /\ accepted_bytes l = stop_frame
  | B41_SESSION_WAIT_HWSTOP => stop_issued l
  | B41_SESSION_STOPPED => stop_issued l /\
      link_state (latest o) = LINK_SUSPENDED /\ dsp_state (latest o) = DSP_HW_STOP
  | B41_SESSION_FAILED => True
  end) -> session_inv (set_stage o s) l.
Proof.
  intros Hi Hn Hf Hs Hm. specialize (Hm Hi). destruct Hi as (H1 & H2 & _). unfold session_inv. cbn.
  split; [exact H1|]. split; [tauto|]. destruct s; tauto.
Qed.

Lemma wait_step_preserves o : preserves o (wait_step o).
Proof.
  intros w Hinv. unfold wait_step. destruct (stage o) eqn:Es; try exact Hinv.
  apply sample_then; try (rewrite Es; congruence); [exact Hinv| |map_status].
  intros st o' w' Hw Hs' Hse Hst Hi. pose proof (proj1 Hi) as Hord. unfold mret, prog_ret, inv_after. cbn [fst snd].
  destruct (negb (st =? 0)); [exact Hi|]. destruct (negb _); [now apply failed_inv|].
  destruct (dsp_state (latest o') =? 3).
  - apply inv_stage_change; [exact Hi|congruence|assumption|congruence|]. intros (_ & _ & H3). rewrite Hse, Es in H3. exact H3.
  - destruct (_ && _); [now apply failed_inv|exact Hi].
Qed.

Lemma stop_begin_preserves o : preserves o (stop_begin o).
Proof.
  intros w Hinv. unfold stop_begin. destruct (stage o) eqn:Es; try exact Hinv.
  apply sample_then; try (rewrite Es; congruence); [exact Hinv| |map_status].
  intros st o' w' Hw Hs' Hse Hst Hi. pose proof (proj1 Hi) as Hord. unfold mret, prog_ret, inv_after. cbn [fst snd].
  destruct (negb (st =? 0)); [exact Hi|]. destruct (_ || _); [now apply failed_inv|].
  destruct Hi as (_ & Hd & H3). rewrite Hse, Es in *. split; [exact Hord|]. cbn.
  split; [intros _ _; apply Hd; congruence|]. rewrite H3. repeat split; try lia. constructor.
Qed.

(** A time check after an effect either keeps the stage or fails. *)
Lemma time_check_inv o w : stage o <> B41_SESSION_FAILED -> stage o <> B41_SESSION_STOPPED ->
  session_inv o w.2 ->
  inv_after (time_check o w) /\
  ((time_check o w).1.1 = 0 -> stage (time_check o w).1.2 = stage o /\
     stop_offset (time_check o w).1.2 = stop_offset o) /\ (time_check o w).2.2 = w.2 /\
  ((time_check o w).1.1 <> 0 -> first_error (time_check o w).1.2 = (time_check o w).1.1 /\
     stage (time_check o w).1.2 = B41_SESSION_FAILED).
Proof.
  intros Hf Hs Hi. destruct (time_check_quiet o Hf w) as [(Ho & Hn & Hl) Hlog].
  destruct (time_check o w) as [[st o'] w']. unfold inv_after. cbn in *. rewrite Hlog.
  destruct Ho as [Hoff [(H1 & H2 & H3)|[(H1 & _)|(H1 & H2 & H3)]]]; cbn in *; [|lia|].
  - split; [|tauto]. now apply (inv_same_stage o).
  - split; [|split; [lia|tauto]]. apply inv_failed; [assumption|lia|apply Hi].
Qed.

Lemma accepted_app a b : accepted_bytes (a ++ b) = accepted_bytes a ++ accepted_bytes b.
Proof. apply bind_app. Qed.
Lemma stop_slice_prefix n m : 0 <= n <= m -> m <= 12 ->
  slice stop_frame 0 n ++ slice stop_frame n (m - n) = slice stop_frame 0 m.
Proof.
  intros. replace m with (n + (m - n)) at 2 by lia. rewrite slice_split; try lia; [reflexivity|].
  change (len stop_frame) with 12. lia.
Qed.
Lemma slice_prefix n : slice stop_frame 0 n `prefix_of` stop_frame.
Proof. unfold slice. cbn. apply prefix_take. Qed.

(** The effects of one accepted write in the transmit stage. *)
Lemma wrote_orderly l offset n : only_writes l -> 0 <= offset < 12 ->
  accepted_bytes l = slice stop_frame 0 offset -> 0 <= n <= 12 - offset ->
  let l' := l ++ [Wrote (slice stop_frame offset n)] in
  only_writes l' /\ accepted_bytes l' = slice stop_frame 0 (offset + n) /\ orderly l'.
Proof.
  intros Hw Ho Ha Hn l'.
  assert (Hw' : only_writes l') by (apply Forall_app; split; [exact Hw|repeat constructor; congruence]).
  assert (Ha' : accepted_bytes l' = slice stop_frame 0 (offset + n)).
  { unfold l'. rewrite accepted_app, Ha. unfold accepted_bytes at 1. cbn. rewrite app_nil_r.
    rewrite <- (stop_slice_prefix offset (offset + n)) by lia. do 2 f_equal. lia. }
  split; [exact Hw'|]. split; [exact Ha'|]. exists l'. split; [exact Hw'|]. split; [|now left].
  rewrite Ha'. apply slice_prefix.
Qed.

Lemma stop_tx_preserves o : stage o = B41_SESSION_STOP_TX -> preserves o (stop_tx o).
Proof.
  intros Es w Hinv. pose proof (proj1 Hinv) as Hord.
  assert (Hnf : stage o <> B41_SESSION_FAILED) by congruence.
  assert (Hfail : forall st l, orderly l -> session_inv (failed o st).2 l) by (intros; now apply failed_inv).
  unfold stop_tx. destruct (_ || _); [exact (Hfail _ _ Hord)|].
  change (len stop_frame) with 12. destruct (12 <=? stop_offset o); [exact (Hfail _ _ Hord)|].
  unfold mbind at 1, prog_bind at 1, syscall at 1.
  destruct (sys_write _ _ _) as [[errno|n] k'].
  - destruct (negb _); [exact (Hfail _ _ Hord)|].
    unfold mbind, prog_bind. destruct (time_check_inv o (k', w.2)) as (H1 & _ & _ & _); try congruence; [exact Hinv|].
    destruct (time_check o (k', w.2)) as [[late o'] w']. unfold mret, prog_ret, inv_after in *.
    cbn [fst snd] in *. destruct (negb (late =? 0)); exact H1.
  - pose proof Hinv as (_ & Hd & Hm). rewrite Es in Hm. destruct Hm as (Hw & Hoff & Ha).
    set (count := Z.of_N n). set (m := Z.min count (12 - stop_offset o)).
    destruct (wrote_orderly w.2 (stop_offset o) m Hw Hoff Ha) as (Hw' & Ha' & Ho'); [unfold m, count; lia|].
    unfold mbind, prog_bind, emit. cbn [fst snd]. set (l' := w.2 ++ _) in *.
    destruct (time_check_quiet o Hnf (k', l')) as [(Hob & Hn & _) Hlog].
    destruct (time_check o (k', l')) as [[late o'] w']. unfold mret, prog_ret, inv_after.
    cbn [fst snd] in *. rewrite Hlog. unfold observed in Hob. cbn [fst snd] in Hob.
    destruct Hob as [Hoff' [(-> & Hs' & Hd')|[(? & _)|(Hneg & Hs' & He')]]]; [change (negb (0 =? 0)) with false|lia|].
    + destruct ((count =? 0) || (12 - stop_offset o <? count)) eqn:Ec; [apply failed_inv; congruence|].
      cbn [stop_offset set_offset fst snd]. rewrite Hoff'. replace m with count in Ha' by lia.
      destruct (Z.eqb_spec (stop_offset o + count) 12) as [E|E]; cbn; unfold session_inv; cbn; rewrite ?Hs', ?Es;
        (split; [exact Ho'|]; split; [auto|]); (split; [exact Hw'|]).
      * rewrite Ha', E. reflexivity.
      * split; [lia|]. now rewrite Ha'.
    + replace (late =? 0) with false by lia. cbn. apply inv_failed; [assumption|lia|exact Ho'].
Qed.

Lemma stop_reset_preserves o : stage o = B41_SESSION_WAIT_RESET -> preserves o (stop_reset o).
Proof.
  intros Es w Hinv. pose proof (proj1 Hinv) as Hord.
  assert (Hfail : forall o' st l, stage o' <> B41_SESSION_FAILED -> orderly l -> session_inv (failed o' st).2 l)
    by (intros; now apply failed_inv).
  unfold stop_reset. destruct (negb (link_state _ =? _)); [refine (Hfail _ _ _ _ Hord); congruence|].
  destruct (_ =? 3); [exact Hinv|]. destruct (negb _); [refine (Hfail _ _ _ _ Hord); congruence|].
  pose proof Hinv as (_ & Hd & Hm). rewrite Es in *. destruct Hm as (Hw & Ha).
  set (o1 := set_stage o B41_SESSION_WAIT_HWSTOP). set (l' := w.2 ++ [DeepStop]).
  assert (Hiss : stop_issued l') by (exists w.2; auto).
  assert (Hord' : orderly l') by (exists w.2; split; [exact Hw|]; split; [rewrite Ha; reflexivity|right; auto]).
  assert (Hinv1 : session_inv o1 l') by (split; [exact Hord'|]; split; [intros _ _; apply Hd; congruence|exact Hiss]).
  unfold mbind, prog_bind, emit, syscall. cbn [fst snd]. fold l'.
  destruct (sys_ioctl18 _ _) as [r k']. destruct (negb _); [refine (Hfail _ _ _ _ Hord'); discriminate|].
  now apply (time_check_inv o1 (k', l')).
Qed.

Lemma stop_hw_inv o l : stage o = B41_SESSION_WAIT_HWSTOP -> session_inv o l -> session_inv (stop_hw o).2 l.
Proof.
  intros Es Hinv. unfold stop_hw. destruct (_ && _) eqn:E.
  - apply inv_stage_change; [exact Hinv|congruence..|]. intros (_ & _ & H3). rewrite Es in H3. split; [exact H3|lia].
  - destruct (_ || _); [apply failed_inv; [congruence|apply Hinv]|exact Hinv].
Qed.

Lemma stop_step_preserves o : preserves o (stop_step o).
Proof.
  intros w Hinv. unfold stop_step.
  assert (Harm : forall st o' w', stage o' <> B41_SESSION_FAILED -> stage o' = stage o -> session_inv o' w'.2 ->
    stage o = B41_SESSION_STOP_TX \/ stage o = B41_SESSION_WAIT_RESET \/ stage o = B41_SESSION_WAIT_HWSTOP ->
    let m := if negb (st =? 0) then mret (if st <? 0 then st else 0, o')
             else match stage o' with
             | B41_SESSION_STOP_TX => stop_tx o'
             | B41_SESSION_WAIT_RESET => stop_reset o'
             | _ => mret (stop_hw o')
             end in inv_after (m w')).
  { intros st o' w' Hs' Hse Hi Hst m. subst m. destruct (negb (st =? 0)); [exact Hi|].
    destruct Hst as [E|[E|E]]; rewrite E in Hse; rewrite Hse.
    - now apply stop_tx_preserves.
    - now apply stop_reset_preserves.
    - now apply stop_hw_inv. }
  destruct (stage o) eqn:Es; try exact Hinv;
    (apply sample_then; try (rewrite Es; congruence); [exact Hinv| |map_status]);
    intros st o' w' Hw Hs' Hse Hst Hi; apply Harm; auto; congruence.
Qed.

Lemma attach_quiet o f deadline : stage o = B41_SESSION_NEW ->
  quiet (b41_session_attach (Some o) f deadline) (fun r => exists o', r.2 = Some o' /\
    (o' = o \/ stage o' = B41_SESSION_FAILED /\ first_error o' < 0 \/
     stage o' = B41_SESSION_WAIT_WORK /\ last_ns o' < deadline_ns o' /\ deadline_ns o' = deadline /\ fd o' = f)).
Proof.
  intros Es. set (Q := fun r : Z * option native_session => _).
  assert (Hfail : forall st, Q (let '(s, o) := failed o st in (s, Some o))).
  { intros st. destruct (failed_spec o st) as (H1 & H2 & H3 & _); [congruence|].
    destruct (failed o st) as [s o']. exists o'. cbn in *. split; [reflexivity|]. right. left. lia || split; [assumption|lia]. }
  unfold b41_session_attach. destruct (f <? 0); [apply quiet_ret; exists o; auto|].
  unfold is_stage. rewrite bool_decide_eq_true_2 by exact Es. cbn [negb].
  eapply quiet_bind with (P := fun _ => True).
  { unfold now_ns. apply quiet_any. intros [errno|[sec nsec]]; [now apply quiet_ret|]. destruct (_ || _); now apply quiet_ret. }
  intros [status last] _. destruct (negb (status =? 0)); [apply quiet_ret, Hfail|].
  destruct (Z.leb_spec deadline last); [apply quiet_ret, Hfail|].
  apply quiet_any. intros [errno|flags]; [apply quiet_ret, Hfail|].
  destruct (negb (flags_ok _)); [apply quiet_ret, Hfail|].
  apply quiet_any. intros [errno|st]; [apply quiet_ret, Hfail|].
  destruct (negb (S_ISCHR _)); [apply quiet_ret, Hfail|].
  eapply quiet_bind; [apply snapshot_quiet|].
  intros [[|e|e] [snap|]] _; try apply quiet_ret, Hfail.
  destruct (_ || _); [apply quiet_ret, Hfail|]. set (o1 := NativeSession _ _ _ _ _ _ _ _ _ _ _).
  intros w. unfold mbind, prog_bind. destruct (time_check_fields o1 w) as (Hd & Hf & Hlog); [discriminate|].
  destruct (time_check_quiet o1 ltac:(discriminate) w) as [(Hob & Hn & _) _].
  destruct (time_check o1 w) as [[late o2] w']. unfold mret, prog_ret, observed in *. cbn [fst snd] in *.
  split; [|exact Hlog]. destruct (Z.eqb_spec late 0) as [->|]; cbn [negb]; [|apply Hfail].
  destruct Hob as [_ [(_ & H2 & H3)|[(? & _)|(? & _)]]]; [|lia..].
  exists o2. split; [reflexivity|]. right. right. auto.
Qed.

(** ** Runs of the owner *)

(** The owner after a call, with the world. *)
Definition after (o : native_session) (c : session_call) (w : world) : native_session * world :=
  let '((_, o'), w') := session_call_step o c w in (match o' with Some o' => o' | None => o end, w').

Lemma after_inv o c w : session_inv o w.2 -> session_inv (after o c w).1 (after o c w).2.2.
Proof.
  intros Hi. unfold after. destruct c as [f deadline| | |]; cbn [session_call_step].
  - destruct (decide (stage o = B41_SESSION_NEW)) as [Es|Es].
    + destruct (attach_quiet o f deadline Es w) as [(o' & E & Ho) Hlog].
      destruct (b41_session_attach _ _ _ w) as [[st r] w']. cbn in *. subst r. rewrite Hlog.
      destruct Ho as [->|[(H1 & H2)|(H1 & H2 & _)]]; [exact Hi|apply inv_failed; try assumption; apply Hi|].
      destruct Hi as (Ho & _ & Hm). rewrite Es in Hm. unfold session_inv. rewrite H1. auto.
    + unfold b41_session_attach. destruct (f <? 0); [exact Hi|]. unfold is_stage.
      rewrite bool_decide_eq_false_2 by exact Es. exact Hi.
  - pose proof (wait_step_preserves o w Hi) as H1. unfold b41_session_wait_step, on_owner, mbind, prog_bind, inv_after in *.
    now destruct (wait_step o w).
  - pose proof (stop_begin_preserves o w Hi) as H1. unfold b41_session_stop_begin, on_owner, mbind, prog_bind, inv_after in *.
    now destruct (stop_begin o w).
  - pose proof (stop_step_preserves o w Hi) as H1. unfold b41_session_stop_step, on_owner, mbind, prog_bind, inv_after in *.
    now destruct (stop_step o w).
Qed.

Lemma after_failed o c w : stage o = B41_SESSION_FAILED -> after o c w = (o, w).
Proof.
  intros Es. unfold after. destruct c as [f deadline| | |]; cbn [session_call_step].
  - unfold b41_session_attach, is_stage. destruct (f <? 0); [reflexivity|].
    rewrite bool_decide_eq_false_2, bool_decide_eq_true_2 by congruence. reflexivity.
  - unfold b41_session_wait_step, on_owner, wait_step. rewrite Es. reflexivity.
  - unfold b41_session_stop_begin, on_owner, stop_begin. rewrite Es. reflexivity.
  - unfold b41_session_stop_step, on_owner, stop_step. rewrite Es. reflexivity.
Qed.

#[export, refine] Instance session_machine : Machine (native_session * world) session_call := {
  mstep s c := after s.1 c s.2;
  failure s := if is_stage s.1 B41_SESSION_FAILED then Some (first_error s.1) else None
}.
Proof.
  intros [o w] c x Hf. cbn [fst snd] in *. destruct (is_stage o _) eqn:E; [|discriminate].
  apply bool_decide_eq_true in E. rewrite after_failed by exact E. cbn [fst]. unfold is_stage in *.
  now rewrite bool_decide_eq_true_2 by exact E.
Defined.
End Driver.

(** ** A scripted kernel *)

(** Time advances by one nanosecond per reading; every ioctl 31 reports the
    next scripted state of link and DSP; writes take at most five bytes. *)
Record script : Type := Script { ticks : Z; states : list (Z * Z) }.
Definition script_stat : stat := Stat 0x2180 5 0x0a00 77.
#[export] Instance script_kernel : Kernel script := {
  sys_clock k := (inr (0, ticks k), Script (ticks k + 1) (states k));
  sys_getfl _ k := (inr 0x802%N, k);
  sys_fstat _ k := (inr script_stat, k);
  sys_lstat k := (inr script_stat, k);
  sys_snapshot _ k :=
    match states k with
    | [] => (inl 5%positive, k)
    | (l, d) :: rest => (inr (0%N, Snapshot 1 32 0 9 l d (0, 0)), Script (ticks k) rest)
    end;
  sys_write _ b k := (inr (N.min 5 (N.of_nat (length b))), k);
  sys_ioctl18 _ k := (inr 0%N, k)
}.

Definition new_session : native_session :=
  NativeSession B41_SESSION_NEW 0 0 0 0 0 0 0 0 (Snapshot 0 0 0 0 0 0 (0, 0)) 0.
Lemma new_session_inv : session_inv new_session [].
Proof.
  split; [|split; [intros Hn; now destruct Hn|reflexivity]].
  exists []. split; [constructor|]. split; [apply prefix_nil|now left].
Qed.

Definition script_1 : script :=
  Script 0 [(3, 1); (3, 2); (3, 3); (3, 3); (3, 3); (3, 3); (3, 3); (3, 3); (3, 2); (8, 2); (9, 5)].
Definition calls_1 : list session_call :=
  [CallAttach 4 1000; CallWait; CallWait; CallStopBegin; CallStopStep; CallStopStep; CallStopStep;
   CallStopStep; CallStopStep; CallStopStep; CallStopStep].

(** Waiting, stopping and the deep stop all happen against this kernel. *)
Example session_script_run :
  let r := mrun (new_session, (script_1, [])) calls_1 in
  stage r.1 = B41_SESSION_STOPPED /\
  r.2.2 = [Wrote [0xaa; 0xf0; 6; 0; 5]; Wrote [0xfe; 4; 0; 0x0d; 1]; Wrote [0xaa; 0x0f]; DeepStop].
Proof. vm_compute. auto. Qed.

(** ** Claims *)

Lemma run_inv {K} `{Kernel K} cs (s : native_session * world) :
  session_inv s.1 s.2.2 -> session_inv (mrun s cs).1 (mrun s cs).2.2.
Proof.
  intros Hs. apply (mrun_invariant (fun s => session_inv s.1 s.2.2) (fun _ => True)).
  - intros [o w] c _ Hi. now apply after_inv.
  - now apply Forall_true.
  - exact Hs.
Qed.

(** C18. For every kernel and every sequence of calls on a new owner, the
    device only ever accepts a prefix of the reference MVCD stop frame
    (command 5, payload 4), the deep-stop ioctl is issued at most once and
    only after the whole frame was accepted, and nothing follows it. If the
    owner reports [STOPPED], the frame and the ioctl were both issued, the
    last sample shows the suspended link and the stopped DSP, and the
    deadline had not passed. *)
Theorem session_stop_order {K} `{Kernel K} (k : K) cs :
  let r := mrun (new_session, (k, [])) cs in
  let o := r.1 in
  let l := r.2.2 in
  (exists ws, only_writes ws /\ accepted_bytes ws `prefix_of` mvcd_frame 5 0 (put16 4) /\
     (l = ws \/ l = ws ++ [DeepStop] /\ accepted_bytes ws = mvcd_frame 5 0 (put16 4))) /\
  (stage o = B41_SESSION_STOPPED ->
     stop_issued l /\ link_state (latest o) = LINK_SUSPENDED /\ dsp_state (latest o) = DSP_HW_STOP /\
     last_ns o < deadline_ns o).
Proof.
  intros r o l. 
  assert (Hi : session_inv o l) by exact (run_inv cs (new_session, (k, [])) new_session_inv).
  destruct Hi as (Hord & Hd & Hm). split; [exact Hord|]. intros Es. rewrite Es in Hm.
  destruct Hm as (H1 & H2 & H3). repeat split; try assumption. apply Hd; congruence.
Qed.

Lemma session_stop_order_witness :
  let o := (mrun (new_session, (script_1, [])) calls_1).1 in
  link_state (latest o) = LINK_SUSPENDED /\ last_ns o < deadline_ns o.
Proof.
  destruct (session_stop_order script_1 calls_1) as [_ H].
  destruct (H ltac:(vm_compute; reflexivity)) as (_ & H1 & _ & H2). split; [exact H1|exact H2].
Defined.

(** A failed session owner is inert: once any run has failed, further
    calls change neither the owner (its first error included) nor the device:
    no byte is written and no ioctl is issued, and the system is not even
    queried. *)
Theorem session_failed_inert {K} `{Kernel K} (s : native_session * world) cs :
  stage s.1 = B41_SESSION_FAILED -> mrun s cs = s.
Proof.
  intros Es. induction cs as [|c cs IH]; [reflexivity|]. rewrite mrun_cons.
  change (mstep s c) with (after s.1 c s.2). rewrite after_failed by exact Es. now destruct s.
Qed.
Lemma session_failed_inert_witness :
  let s := mrun (new_session, (Script 2000 [], [])) [CallAttach 4 1000] in
  stage s.1 = B41_SESSION_FAILED /\ first_error s.1 = - ETIMEDOUT /\
  mrun s [CallAttach 4 9000; CallWait; CallStopStep] = s.
Proof.
  split; [reflexivity|]. split; [reflexivity|]. apply session_failed_inert. reflexivity.
Defined.
