(* ===== verification/Nav.v ===== *)
(** * Native navigation records: [native-navigation/navigation.c]

    The escaped frame decoder, the epoch owner that groups navigation
    records, the reporting frame, the time seed and its host message, and
    the host position record. *)

From S2P Require Import Prelude Wire Binary754.

Abbreviation B41_NAV_PAYLOAD_MAX := 1014 (only parsing).
Abbreviation B41_NAV_WIRE_MAX := 2044 (only parsing).
Abbreviation B41_NAV_RECORD_MAX := 115 (only parsing).
Abbreviation B41_NAV_EPOCH_RECORDS := 20 (only parsing).
Abbreviation B41_NAV_POSITION_SIZE := 0xc60 (only parsing).
Abbreviation B41_NAV_TIME_MESSAGE_SIZE := 236 (only parsing).

(** ** Data *)

Record nav_packet : Type := NavPacket {
  payload_size : Z;
  command : Z;
  length_high_nibble : Z;
  payload : list Z
}.
Record nav_record41 : Type := Record41 {
  r41_byte0 : Z; r41_byte1 : Z; r41_byte2 : Z; r41_byte3 : Z;
  r41_words : list Z
}.
Record nav_record4d : Type := Record4d {
  prefix24 : Z;
  r4d_byte3 : Z; r4d_byte4 : Z; r4d_byte5 : Z; r4d_byte6 : Z;
  r4d_words : list Z
}.
(** The [decoded] union: zero until one of its members is stored. *)
Inductive nav_decoded : Type :=
| DecodedZero
| Fe41 (r : nav_record41)
| Fe4d (r : nav_record4d).
Record nav_record : Type := NavRecord {
  rec_command : Z;
  rec_index : Z;
  rec_size : Z;
  rec_wire : list Z;
  decoded : nav_decoded
}.
Record nav_epoch_end : Type := EpochEnd { byte0 : Z; byte9 : Z; word1 : Z; word5 : Z }.
Record nav_epoch : Type := NavEpoch {
  begin_ns : Z;
  end_ns : Z;
  header : list Z;
  header_word0 : Z;
  header_word4 : Z;
  header_field8_9_44 : Z;
  count : Z;
  records : list nav_record;
  epoch_end : nav_epoch_end
}.
Record nav_epoch_owner : Type := EpochOwner {
  deadline_ns : Z;
  last_ns : Z;
  first_error : Z;
  active : Z;
  epoch_pending : nav_epoch
}.
Record nav_utc_sample : Type := UtcSample {
  unix_ms : Z;
  acquired_ns : Z;
  sample_uncertainty_ms : Z;
  gps_minus_utc_seconds : Z
}.
Record nav_time_seed : Type := TimeSeed {
  gps_week : Z;
  tow_seconds : spec_float;
  uncertainty_ms : spec_float
}.
Inductive nav_position_state : Type :=
| B41_NAV_POSITION_NOT_VALID
| B41_NAV_POSITION_2D
| B41_NAV_POSITION_3D.
Record nav_host_position : Type := HostPosition {
  state : nav_position_state;
  quality_byte : Z;
  dimension_byte : Z;
  utc_correction_seconds : Z;
  pos_gps_week : Z;
  gps_tow_seconds : Z;
  year : Z;
  milliseconds : Z;
  month : Z; day : Z; hour : Z; minute : Z; second : Z;
  latitude_degrees : spec_float;
  longitude_degrees : spec_float;
  altitude : spec_float;
  speed_field50 : spec_float
}.

Definition sizeof_packet : Z := 1018.
Definition sizeof_epoch : Z := 3472.
Definition sizeof_owner : Z := 3496.

(** ** Helpers *)

Definition half_le (p : list Z) (i : Z) : Z := Z.lor (Z.shiftl (le16 p i) 16) (le16 p (i + 2)).
Definition half_be (p : list Z) (i : Z) : Z :=
  Z.lor (Z.lor (Z.lor (Z.shiftl (byte_at p (i + 2)) 24) (Z.shiftl (byte_at p (i + 3)) 16))
               (Z.shiftl (byte_at p i) 8)) (byte_at p (i + 1)).
Definition double_le (p : list Z) (i : Z) : spec_float := binary64 (le64 p i).
Definition float_le (p : list Z) (i : Z) : spec_float := binary32 (le32 p i).
Definition overlap (a n b m : Z) : bool := if a <=? b then b - a <? n else a - b <? m.

(** The bytes of a [float] or [double] object ([memcpy] of its bits). *)
Definition to_bits (mw ew : Z) (x : spec_float) : Z :=
  let sign (s : bool) := if s then 2 ^ (mw + ew) else 0 in
  match x with
  | S754_zero s => sign s
  | S754_infinity s => sign s + (2 ^ ew - 1) * 2 ^ mw
  | S754_nan => (2 ^ ew - 1) * 2 ^ mw + 2 ^ (mw - 1)
  | S754_finite s m e =>
    let emin := 3 - 2 ^ (ew - 1) - (mw + 1) in
    if Zpos m <? 2 ^ mw then sign s + Zpos m
    else sign s + (e - emin + 1) * 2 ^ mw + (Zpos m - 2 ^ mw)
  end.
Definition bits32 (x : spec_float) : Z := to_bits 23 8 x.
Definition bits64 (x : spec_float) : Z := to_bits 52 11 x.

(** ** Frames *)

(** The unescaping loop over the bytes between the markers. *)
Fixpoint unescape (l body : list Z) : Z + list Z :=
  match l with
  | [] => inr body
  | value :: rest =>
    if value =? 0xaa then inl (- EPROTO)
    else if value =? 0xde then
      match rest with
      | [] => inl (- EPROTO)
      | e :: rest =>
        if e =? 0xdf then
          (if len body =? B41_NAV_PAYLOAD_MAX + 6 then inl (- EMSGSIZE)
           else unescape rest (body ++ [0xaa]))
        else if e =? 0xe0 then
          (if len body =? B41_NAV_PAYLOAD_MAX + 6 then inl (- EMSGSIZE)
           else unescape rest (body ++ [0xde]))
        else inl (- EPROTO)
      end
    else
      if len body =? B41_NAV_PAYLOAD_MAX + 6 then inl (- EMSGSIZE)
      else unescape rest (body ++ [value])
  end.

(** Status and [*out] afterwards. *)
Definition b41_nav_packet_decode (wire : ptr (list Z)) (size : Z) (out : ptr nav_packet)
    : Z * nav_packet :=
  let w := pointee wire in
  let keep e := (e, pointee out) in
  if null wire || null out then keep (- EINVAL)
  else if (size <? 10) || (B41_NAV_WIRE_MAX <? size) then keep (- EMSGSIZE)
  else if negb (byte_at w 0 =? 0xaa) || negb (byte_at w 1 =? 0xf0)
          || negb (byte_at w (size - 2) =? 0xaa) || negb (byte_at w (size - 1) =? 0x0f)
  then keep (- EPROTO)
  else
  match unescape (slice w 2 (size - 4)) [] with
  | inl e => keep e
  | inr body =>
    let n := len body in
    if (n <? 6) || negb (byte_at body 3 =? 0xfe) then keep (- EPROTO)
    else
    let length := le16 body 0 in
    if Z.land length 0xfff <? 4 then keep (- EPROTO)
    else
    let psize := u16 (Z.land length 0xfff - 4) in
    if negb (n =? psize + 6) then keep (- EMSGSIZE)
    else
    let sum := fold_left (fun sum b => u32 (sum + b)) (slice body 0 (n - 2)) 0 in
    if negb (le16 body (n - 2) =? u16 sum) then keep (- EBADMSG)
    else
      (0, {| payload_size := psize; command := byte_at body 2;
             length_high_nibble := u8 (Z.shiftr length 12);
             payload := write_at (zeros B41_NAV_PAYLOAD_MAX) 0 (slice body 4 psize) |})
  end.

(** ** Epochs *)

Definition zero_record : nav_record := NavRecord 0 0 0 (zeros B41_NAV_RECORD_MAX) DecodedZero.
Definition zero_epoch : nav_epoch :=
  NavEpoch 0 0 (zeros 66) 0 0 0 0 (replicate 20 zero_record) (EpochEnd 0 0 0 0).

Definition fail (o : nav_epoch_owner) (error : Z) : Z * nav_epoch_owner :=
  let o := if first_error o =? 0
           then EpochOwner (deadline_ns o) (last_ns o) error (active o) (epoch_pending o) else o in
  (first_error o, o).

Definition b41_nav_epoch_init (owner : ptr nav_epoch_owner) (now_ns deadline : Z)
    : Z * nav_epoch_owner :=
  let o := pointee owner in
  if null owner then (- EINVAL, o)
  else if negb (first_error o =? 0) then (first_error o, o)
  else if negb (deadline_ns o =? 0) || negb (active o =? 0) then (- EALREADY, o)
  else if deadline <=? now_ns then (- ETIMEDOUT, o)
  else (0, EpochOwner deadline now_ns 0 0 zero_epoch).

(** The [switch]: payload size and record bound of a command. *)
Definition command_shape (cmd : Z) : option (Z * Z) :=
  if cmd =? 0x2c then Some (66, 0)
  else if cmd =? 0x4c then Some (10, 0)
  else if cmd =? 0x2b then Some (46, 11)
  else if cmd =? 0x3b then Some (14, 12)
  else if cmd =? 0x41 then Some (32, 11)
  else if cmd =? 0x4b then Some (47, 15)
  else if cmd =? 0x4d then Some (47, 20)
  else if cmd =? 0x5c then Some (113, 17)
  else if cmd =? 0x91 then Some (115, 11)
  else None.

Definition decode41 (p : list Z) : nav_record41 :=
  Record41 (byte_at p 0) (byte_at p 1) (byte_at p 2) (byte_at p 3)
    ((fun i => half_be p (4 + 4 * Z.of_nat i)) <$> seq 0 7).
Definition decode4d (p : list Z) : nav_record4d :=
  Record4d (Z.lor (Z.lor (Z.shiftl (byte_at p 0) 16) (byte_at p 1)) (Z.shiftl (byte_at p 2) 8))
    (byte_at p 3) (byte_at p 4) (byte_at p 5) (byte_at p 6)
    ((fun i => half_le p (7 + 4 * Z.of_nat i)) <$> seq 0 10).

(** The record slot after the stores of one record packet. *)
Definition store_record (old : nav_record) (cmd index size : Z) (p : list Z) : nav_record :=
  NavRecord cmd index (u8 size) (write_at (rec_wire old) 0 (slice p 0 size))
    (if cmd =? 0x41 then Fe41 (decode41 p) else if cmd =? 0x4d then Fe4d (decode4d p) else decoded old).

(** Status, the owner and [*complete] afterwards. *)
Definition b41_nav_epoch_accept (owner : ptr nav_epoch_owner) (packet : ptr nav_packet) (now_ns : Z)
    (complete : ptr nav_epoch) : Z * nav_epoch_owner * nav_epoch :=
  let o := pointee owner in
  let k := pointee packet in
  let done r := let '(s, o) := r in (s, o, pointee complete) in
  if null owner || null packet || null complete
     || overlap (addr owner) sizeof_owner (addr packet) sizeof_packet
     || overlap (addr owner) sizeof_owner (addr complete) sizeof_epoch
  then done (- EINVAL, o)
  else if negb (first_error o =? 0) then done (first_error o, o)
  else if now_ns <? last_ns o then done (fail o (- ESTALE))
  else if deadline_ns o <=? now_ns then done (fail o (- ETIMEDOUT))
  else
  match command_shape (command k) with
  | None => done (fail o (- EOPNOTSUPP))
  | Some (size, maximum) =>
    if negb (payload_size k =? size) then done (fail o (- EMSGSIZE))
    else if (if command k =? 0x2c then negb (active o =? 0) else negb (active o =? 1))
    then done (fail o (- EPROTO))
    else
    let p := payload k in
    let pend := epoch_pending o in
    if command k =? 0x2c then
      let pend := NavEpoch now_ns 0 (write_at (zeros 66) 0 (slice p 0 size)) (half_le p 0) (half_le p 4)
        (Z.lor (Z.lor (Z.shiftl (byte_at p 8) 2) (Z.shiftl (byte_at p 9) 10)) (Z.land (byte_at p 44) 3))
        0 (replicate 20 zero_record) (EpochEnd 0 0 0 0) in
      done (0, EpochOwner (deadline_ns o) now_ns (first_error o) 1 pend)
    else if command k =? 0x4c then
      let pend := NavEpoch (begin_ns pend) now_ns (header pend) (header_word0 pend) (header_word4 pend)
        (header_field8_9_44 pend) (count pend) (records pend)
        (EpochEnd (byte_at p 0) (byte_at p 9) (half_le p 1) (half_le p 5)) in
      (1, EpochOwner (deadline_ns o) now_ns (first_error o) 0 pend, pend)
    else
      let o := EpochOwner (deadline_ns o) now_ns (first_error o) (active o) pend in
      if (maximum <=? count pend) || (B41_NAV_EPOCH_RECORDS <=? count pend)
      then done (fail o (- EOVERFLOW))
      else
        let i := Z.to_nat (count pend) in
        let old := nth i (records pend) zero_record in
        let pend := NavEpoch (begin_ns pend) (end_ns pend) (header pend) (header_word0 pend)
          (header_word4 pend) (header_field8_9_44 pend) (u8 (count pend + 1))
          (<[i := store_record old (command k) (count pend) size p]> (records pend)) (epoch_end pend) in
        done (0, EpochOwner (deadline_ns o) now_ns (first_error o) (active o) pend)
  end.

(** ** Reporting frame *)

Definition reporting_frame : list Z :=
  [0xaa; 0xf0; 9; 0; 5; 0xfe; 0x32; 0; 0; 1; 0; 0x3f; 1; 0xaa; 0x0f].

(** Status, the buffer and [*written] afterwards. *)
Definition b41_nav_post_init_reporting_encode (wire : ptr (list Z)) (capacity : Z) (written : ptr Z)
    : Z * list Z * Z :=
  if null wire || null written || overlap (addr wire) 15 (addr written) sizeof_size_t
  then (- EINVAL, pointee wire, pointee written)
  else if capacity <? 15 then (- ENOSPC, pointee wire, pointee written)
  else (0, write_at (pointee wire) 0 reporting_frame, 15).

(** ** Time *)

Definition gps_epoch_ms : Z := 315964800000.
Definition week_ns : Z := 604800000000000.

Definition b41_nav_time_seed_build (sample : ptr nav_utc_sample) (now_ns deadline : Z)
    (out : ptr nav_time_seed) : Z * nav_time_seed :=
  let s := pointee sample in
  let keep e := (e, pointee out) in
  if null sample || null out || (sample_uncertainty_ms s =? 0) then keep (- EINVAL)
  else if now_ns <? acquired_ns s then keep (- ESTALE)
  else if deadline <=? now_ns then keep (- ETIMEDOUT)
  else if unix_ms s <? gps_epoch_ms then keep (- ERANGE)
  else
  let elapsed := u64 (now_ns - acquired_ns s) in
  let utc_delta := u64 (unix_ms s - gps_epoch_ms) in
  let leap_ns := u64 (gps_minus_utc_seconds s * 1000000000) in
  if (u64 (UINT64_MAX - leap_ns) <? elapsed)
     || (u64 (u64 (UINT64_MAX - elapsed) - leap_ns) / 1000000 <? utc_delta)
  then keep (- EOVERFLOW)
  else
  let gps_ns := u64 (u64 (u64 (utc_delta * 1000000) + elapsed) + leap_ns) in
  if 32767 <? gps_ns / week_ns then keep (- ERANGE)
  else
  let uncertainty := u64 (u64 (sample_uncertainty_ms s + elapsed / 1000000)
                          + (if elapsed mod 1000000 =? 0 then 0 else 1)) in
  if 2000000000 <? uncertainty then keep (- ERANGE)
  else
    (0, TimeSeed (u16 (gps_ns / week_ns))
          (b64_div (b64_of_Z (gps_ns mod week_ns)) (b64_of_Z 1000000000))
          (b32_of_Z uncertainty)).

Definition b41_nav_time_message_encode (seed : ptr nav_time_seed) (message : ptr (list Z)) (capacity : Z)
    : Z * list Z :=
  let s := pointee seed in
  if null seed || null message || negb (isfinite (tow_seconds s))
     || SFltb (tow_seconds s) (S754_zero false) || SFleb (b64_of_Z 604800) (tow_seconds s)
     || negb (isfinite (uncertainty_ms s)) || SFleb (uncertainty_ms s) (S754_zero false)
     || SFltb (b32_of_Z 2000000000) (uncertainty_ms s) || (32767 <? gps_week s)
  then (- EINVAL, pointee message)
  else if capacity <? B41_NAV_TIME_MESSAGE_SIZE then (- ENOSPC, pointee message)
  else
    let r := zeros B41_NAV_TIME_MESSAGE_SIZE in
    let r := write_at r 0 (put16 1016) in
    let r := write_at r 2 (put16 232) in
    let r := write_at r 4 (put32 8) in
    let r := write_at r 0x8c (put16 (gps_week s)) in
    let r := write_at r 0x94 (put64 (bits64 (tow_seconds s))) in
    let r := write_at r 0x9c (put32 (bits32 (uncertainty_ms s))) in
    (0, write_at (pointee message) 0 r).

(** ** Civil time

    [gmtime_r] on a non-negative time: the date of day [z] since 1970 in the
    proleptic Gregorian calendar, and the time of day. *)

Definition civil_from_days (z : Z) : Z * Z * Z :=
  let z := z + 719468 in
  let era := z / 146097 in
  let doe := z - era * 146097 in
  let yoe := (doe - doe / 1460 + doe / 36524 - doe / 146096) / 365 in
  let doy := doe - (365 * yoe + yoe / 4 - yoe / 100) in
  let mp := (5 * doy + 2) / 153 in
  let d := doy - (153 * mp + 2) / 5 + 1 in
  let m := if mp <? 10 then mp + 3 else mp - 9 in
  ((yoe + era * 400) + (if m <=? 2 then 1 else 0), m, d).

Record tm : Type := Tm { tm_year : Z; tm_mon : Z; tm_mday : Z; tm_hour : Z; tm_min : Z; tm_sec : Z }.
Definition gmtime (t : Z) : tm :=
  let '(y, m, d) := civil_from_days (t / 86400) in
  let s := t mod 86400 in
  Tm (y - 1900) (m - 1) d (s / 3600) (s mod 3600 / 60) (s mod 60).

Definition days : list Z := [31; 28; 31; 30; 31; 30; 31; 31; 30; 31; 30; 31].
Definition days_in_month (y m : Z) : Z :=
  nth (Z.to_nat (m - 1)) days 0 +
  (if (m =? 2) && (y mod 4 =? 0) && (negb (y mod 100 =? 0) || (y mod 400 =? 0)) then 1 else 0).

(** ** Host position *)

Definition b41_nav_host_position_decode (record : ptr (list Z)) (size : Z) (out : ptr nav_host_position)
    : Z * nav_host_position :=
  let r := pointee record in
  let keep e := (e, pointee out) in
  if null record || null out then keep (- EINVAL)
  else if negb (size =? B41_NAV_POSITION_SIZE) then keep (- EMSGSIZE)
  else if negb (le32 r 0 =? 0x0c600000) then keep (- EPROTO)
  else
  let quality := byte_at r 0x18 in
  let dimension := byte_at r 0x19 in
  if negb (dimension =? 1) && negb (dimension =? 2) && negb (dimension =? 3) && negb (dimension =? 0xff)
  then keep (- EPROTO)
  else
  let correction := if le16 r 0x10 <? 32768 then le16 r 0x10 else le16 r 0x10 - 65536 in
  let week := le16 r 0x12 in
  let tow := le32 r 0x14 in
  let zero := S754_zero false in
  if (dimension <? 2) || (dimension =? 0xff) || (quality =? 0) then
    (0, HostPosition B41_NAV_POSITION_NOT_VALID quality dimension correction week tow
          0 0 0 0 0 0 0 zero zero zero zero)
  else if negb (quality =? 1) && negb (quality =? 2) && negb (quality =? 3) && negb (quality =? 5)
  then keep (- EOPNOTSUPP)
  else if (8099 <? le16 r 4) || (11 <? byte_at r 6) then keep (- ERANGE)
  else
  let y := u16 (1900 + le16 r 4) in
  let mo := u8 (byte_at r 6 + 1) in
  let d := byte_at r 7 in
  let h := byte_at r 8 in
  let mi := byte_at r 9 in
  let s := byte_at r 10 in
  let ms := le16 r 12 in
  let limit := days_in_month y mo in
  if (d =? 0) || (limit <? d) || (23 <? h) || (59 <? mi) || (60 <? s) || (999 <? ms) then keep (- ERANGE)
  else if (32767 <? week) || (604800 <=? tow) then keep (- ERANGE)
  else
  let unix_seconds := week * 604800 + tow + 315964800 - correction in
  let civil := gmtime unix_seconds in
  if negb (tm_year civil + 1900 =? y) || negb (tm_mon civil + 1 =? mo) || negb (tm_mday civil =? d)
     || negb (tm_hour civil =? h) || negb (tm_min civil =? mi) || negb (tm_sec civil =? s)
  then keep (- EPROTO)
  else
  let lat := double_le r 0x30 in
  let lon := double_le r 0x38 in
  if negb (isfinite lat) || SFltb (b64_of_Z 90) (SFabs lat) || negb (isfinite lon)
     || SFltb (b64_of_Z 180) (SFabs lon) then keep (- ERANGE)
  else
  let speed := float_le r 0x50 in
  if negb (isfinite speed) || SFltb speed zero then keep (- ERANGE)
  else if SFltb (b32_of_Z 515) speed && SFltb (b64_of_Z 18270) (double_le r 0x40) then keep (- ERANGE)
  else
  let st := if dimension =? 2 then B41_NAV_POSITION_2D else B41_NAV_POSITION_3D in
  let position alt := HostPosition st quality dimension correction week tow y ms mo d h mi s lat lon alt speed in
  if dimension =? 2 then (0, position zero)
  else if negb (isfinite (double_le r 0x40)) then keep (- ERANGE)
  else (0, position (double_le r 0x40)).

(** ** Reference frames

    The sender's side: every marker byte and escape byte of the body is
    escaped, so the only unescaped [0xaa] are the two markers. *)

Definition escape (b : Z) : list Z :=
  if b =? 0xaa then [0xde; 0xdf] else if b =? 0xde then [0xde; 0xe0] else [b].
Definition nav_body (cmd high : Z) (p : list Z) : list Z :=
  mvcd_body cmd high p ++ put16 (bytesum (mvcd_body cmd high p)).
Definition nav_frame (cmd high : Z) (p : list Z) : list Z :=
  [0xaa; 0xf0] ++ (nav_body cmd high p ≫= escape) ++ [0xaa; 0x0f].

Lemma escape_cases b : b = 0xaa /\ escape b = [0xde; 0xdf] \/ b = 0xde /\ escape b = [0xde; 0xe0] \/
  b <> 0xaa /\ b <> 0xde /\ escape b = [b].
Proof.
  unfold escape. destruct (Z.eqb_spec b 0xaa); [auto|]. destruct (Z.eqb_spec b 0xde); auto.
Qed.
Lemma len_escape b : 1 <= len (escape b) <= 2.
Proof. destruct (escape_cases b) as [[_ ->]|[[_ ->]|(_ & _ & ->)]]; cbv; split; congruence. Qed.
Lemma len_escaped l : len l <= len (l ≫= escape) <= 2 * len l.
Proof.
  induction l as [|b l IH]; [cbv; split; congruence|].
  change ((b :: l) ≫= escape) with (escape b ++ (l ≫= escape)).
  rewrite len_app, len_cons. pose proof (len_escape b). lia.
Qed.

Lemma unescape_escape l : forall acc, len acc + len l <= 1020 ->
  unescape (l ≫= escape) acc = inr (acc ++ l).
Proof.
  induction l as [|b l IH]; intros acc Hl; [cbn; now rewrite app_nil_r|].
  change ((b :: l) ≫= escape) with (escape b ++ (l ≫= escape)). rewrite len_cons in Hl.
  pose proof (len_nonneg l). pose proof (len_nonneg acc).
  assert (Hacc : (len acc =? 1020) = false) by lia.
  assert (Hstep : forall v, unescape (l ≫= escape) (acc ++ [v]) = inr (acc ++ v :: l))
    by (intros v; rewrite IH by (lens; lia); now rewrite <- app_assoc).
  destruct (escape_cases b) as [[-> ->]|[[-> ->]|(Ha & Hd & ->)]]; cbn [app unescape]; zc; rewrite ?Hacc; try apply Hstep.
  destruct (Z.eqb_spec b 0xaa); [easy|]. destruct (Z.eqb_spec b 0xde); [easy|]. rewrite ?Hacc. apply Hstep.
Qed.

Lemma unescape_inv n : forall l acc r, (length l <= n)%nat -> len acc <= 1020 -> unescape l acc = inr r ->
  exists b, r = acc ++ b /\ l = b ≫= escape /\ len r <= 1020.
Proof.
  induction n as [|n IH]; intros l acc r Hn Hacc H.
  - destruct l; [|simpl in Hn; lia]. injection H as <-. exists []. rewrite app_nil_r. auto.
  - destruct l as [|v rest]; [injection H as <-; exists []; rewrite app_nil_r; auto|].
    assert (Hgo : forall w rest', (length rest' <= n)%nat -> (len acc =? 1020) = false ->
      unescape rest' (acc ++ [w]) = inr r -> exists b, r = acc ++ w :: b /\ rest' = b ≫= escape /\ len r <= 1020).
    { intros w rest' Hr Ha Hu. apply IH in Hu as (b & -> & -> & Hl); [|lia|lens].
      exists b. rewrite <- app_assoc in *. auto. }
    cbn [unescape] in H. change (1014 + 6) with 1020 in H. simpl in Hn.
    destruct (Z.eqb_spec v 0xaa) as [|Ha]; [discriminate|]. destruct (Z.eqb_spec v 0xde) as [->|Hd].
    + destruct rest as [|e rest]; [discriminate|]. simpl in Hn.
      destruct (Z.eqb_spec e 0xdf) as [->|]; [|destruct (Z.eqb_spec e 0xe0) as [->|]; [|discriminate]];
        (destruct (len acc =? 1020) eqn:E; [discriminate|]);
        apply Hgo in H as (b & -> & -> & Hl); try lia; [exists (0xaa :: b)|exists (0xde :: b)]; auto.
    + destruct (len acc =? 1020) eqn:E; [discriminate|].
      apply Hgo in H as (b & -> & -> & Hl); [|lia|reflexivity]. exists (v :: b). split; [reflexivity|].
      split; [|exact Hl]. change ((v :: b) ≫= escape) with (escape v ++ (b ≫= escape)).
      destruct (escape_cases v) as [[? _]|[[? _]|(_ & _ & ->)]]; easy.
Qed.

(** The packet a frame carries. *)
Definition packet_of (cmd high : Z) (p : list Z) : nav_packet :=
  NavPacket (len p) cmd high (p ++ zeros (B41_NAV_PAYLOAD_MAX - len p)).

Lemma len_nav_body c h p : len (nav_body c h p) = len p + 6.
Proof. unfold nav_body. rewrite len_app, len_mvcd_body. lens. Qed.

(** A body with the right length word, marker and checksum is a reference body. *)
Lemma body_is_nav_body b h : bytes_ok b -> 6 <= len b -> byte_at b 3 = 0xfe ->
  le16 b 0 = len b - 2 + 4096 * h -> le16 b (len b - 2) = u16 (bytesum (slice b 0 (len b - 2))) ->
  b = nav_body (byte_at b 2) h (slice b 4 (len b - 6)).
Proof.
  intros Hok Hl H3 Hw Hs. set (n := len b - 6) in *.
  assert (Hb : slice b 0 (len b - 2) = mvcd_body (byte_at b 2) h (slice b 4 n)).
  { unfold mvcd_body. rewrite len_slice by lia.
    replace (n + 4 + 4096 * h) with (le16 b 0) by lia. rewrite put16_le16 by done.
    replace (len b - 2) with (2 + (2 + n)) by lia. rewrite (slice_split b 0 2), (slice_split b _ 2) by lia.
    rewrite !slice_2 by lia. zc. now rewrite H3. }
  rewrite <- (slice_all b) at 1. replace (len b) with (len b - 2 + 2) at 1 by lia.
  rewrite slice_split, slice_2 by lia. unfold nav_body. rewrite <- Hb. f_equal.
  rewrite <- put16_u16, <- Hs, put16_le16 by done. f_equal.
Qed.

Lemma store_payload p n : len p <= n -> write_at (zeros n) 0 p = p ++ zeros (n - len p).
Proof.
  intros Hl. pose proof (len_nonneg p). rewrite (write_at_app [] (zeros n)) by reflexivity. f_equal.
  apply bytes_ext; intros; rewrite ?byte_at_zeros.
  - unfold len, zeros in *. rewrite length_skipn, !repeat_length. lia.
  - replace (length p) with (Z.to_nat (len p)) by (unfold len; lia).
    now rewrite byte_at_skip, byte_at_zeros by lia.
Qed.

(** ** Claims about frames *)

Lemma unescape_error n : forall l acc e, (length l <= n)%nat -> unescape l acc = inl e -> e < 0.
Proof.
  induction n as [|n IH]; intros l acc e Hn H.
  - destruct l; [discriminate|simpl in Hn; lia].
  - destruct l as [|v rest]; [discriminate|]. cbn [unescape] in H. simpl in Hn.
    destruct (v =? 0xaa); [injection H as <-; lia|]. destruct (v =? 0xde).
    + destruct rest as [|e' rest]; [injection H as <-; lia|]. simpl in Hn.
      destruct (e' =? 0xdf); [|destruct (e' =? 0xe0); [|injection H as <-; lia]];
        (destruct (_ =? 1014 + 6); [injection H as <-; lia|]); eapply IH; [|exact H|..|exact H]; lia.
    + destruct (_ =? 1014 + 6); [injection H as <-; lia|]. eapply IH; [|exact H]. lia.
Qed.

Lemma bytes_ok_escaped l : bytes_ok (l ≫= escape) -> bytes_ok l.
Proof.
  induction l as [|b l IH]; [constructor|].
  change ((b :: l) ≫= escape) with (escape b ++ (l ≫= escape)). rewrite bytes_ok_app. intros [Hb Hl].
  constructor; [|now apply IH].
  destruct (escape_cases b) as [[-> _]|[[-> _]|(_ & _ & E)]]; [unfold is_u8; lia..|].
  rewrite E in Hb. now inversion Hb.
Qed.

(** A wire buffer with both markers is its middle between them. *)
Lemma wire_split w : 10 <= len w ->
  byte_at w 0 = 0xaa -> byte_at w 1 = 0xf0 -> byte_at w (len w - 2) = 0xaa -> byte_at w (len w - 1) = 0x0f ->
  w = [0xaa; 0xf0] ++ slice w 2 (len w - 4) ++ [0xaa; 0x0f].
Proof.
  intros Hl H0 H1 H2 H3. rewrite <- (slice_all w) at 1.
  replace (len w) with (2 + ((len w - 4) + 2)) at 1 by lia.
  rewrite (slice_split w 0 2), (slice_split w _ (len w - 4)), !slice_2 by lia. zc. rewrite H0, H1.
  replace (2 + (len w - 4)) with (len w - 2) by lia. rewrite H2.
  replace (len w - 2 + 1) with (len w - 1) by lia. now rewrite H3.
Qed.

Lemma fold_sum_u16 l : u16 (fold_left (fun sum b => u32 (sum + b)) l 0) = u16 (bytesum l).
Proof. apply fold_sum_mod. Qed.

Lemma packet_decode_sound wire out pk : bytes_ok (pointee wire) ->
  b41_nav_packet_decode wire (len (pointee wire)) out = (0, pk) ->
  exists c h p, is_u8 c /\ 0 <= h < 16 /\ bytes_ok p /\ len p <= 1014 /\
    pointee wire = nav_frame c h p /\ pk = packet_of c h p.
Proof.
  intros Hok H. unfold b41_nav_packet_decode in H. set (w := pointee wire) in *.
  destruct (null wire || _); [discriminate|]. destruct ((len w <? 10) || _) eqn:G1; [discriminate|].
  destruct (negb (byte_at w 0 =? _) || _ || _ || _) eqn:G2; [discriminate|].
  destruct (unescape _ _) as [e|b] eqn:Eu.
  { apply (unescape_error _ _ _ _ (le_n _)) in Eu. injection H as -> _. lia. }
  apply (unescape_inv _ _ _ _ (le_n _)) in Eu as (b' & -> & Hw & Hlen); [|rewrite len_nil; lia]. cbn [app] in *.
  assert (Hwire : w = [0xaa; 0xf0] ++ (b' ≫= escape) ++ [0xaa; 0x0f])
    by (rewrite <- Hw; apply wire_split; lia).
  assert (Hb : bytes_ok b').
  { apply bytes_ok_escaped. rewrite Hwire in Hok. apply bytes_ok_app in Hok as [_ Hok].
    now apply bytes_ok_app in Hok as [Hok _]. }
  pose proof (le16_range b' 0 Hb) as Hr. unfold is_u16 in Hr. destruct (length_word_split _ Hr) as [Hland Hshift].
  rewrite Hland, Hshift, fold_sum_u16 in H.
  destruct ((len b' <? 6) || _) eqn:G3; [discriminate|]. destruct (_ <? 4) eqn:G4; [discriminate|].
  rewrite u16_id in H by (unfold is_u16; dlia).
  destruct (negb (len b' =? _)) eqn:G5; [discriminate|]. destruct (negb (le16 b' _ =? _)) eqn:G6; [discriminate|].
  injection H as <-. set (h := le16 b' 0 / 4096) in *.
  assert (Hh : 0 <= h < 16) by (subst h; dlia). rewrite u8_id by (unfold is_u8; lia).
  replace (le16 b' 0 mod 4096 - 4) with (len b' - 6) by lia.
  exists (byte_at b' 2), h, (slice b' 4 (len b' - 6)). rewrite store_payload; rewrite len_slice by lia; [|lia].
  split; [now apply byte_at_u8|]. split; [exact Hh|]. split; [now apply bytes_ok_slice|]. split; [lia|].
  split; [|unfold packet_of; now rewrite len_slice by lia]. unfold nav_frame. rewrite <- body_is_nav_body; try assumption; try lia.
  subst h. pose proof (Z.div_mod (le16 b' 0) 4096). lia.
Qed.

Lemma packet_decode_complete wire out c h p : null wire = false -> null out = false ->
  is_u8 c -> 0 <= h < 16 -> len p <= 1014 -> bytes_ok p -> pointee wire = nav_frame c h p ->
  b41_nav_packet_decode wire (len (pointee wire)) out = (0, packet_of c h p).
Proof.
  intros Hn1 Hn2 Hc Hh Hl Hp Hw. unfold b41_nav_packet_decode. rewrite Hn1, Hn2. set (w := pointee wire) in *. cbn [orb].
  pose proof (len_nonneg p). set (b := nav_body c h p) in *. assert (Hlb : len b = len p + 6) by apply len_nav_body.
  pose proof (len_escaped b) as He.
  assert (Hlw : len w = len (b ≫= escape) + 4) by (rewrite Hw; unfold nav_frame; fold b; lens).
  replace ((len w <? 10) || (2044 <? len w)) with false by lia.
  assert (Hmid : slice w 2 (len w - 4) = b ≫= escape)
    by (rewrite Hw at 1; unfold nav_frame; fold b; apply (slice_app_mid [0xaa; 0xf0]); lia).
  assert (Hend : byte_at w (len w - 2) = 0xaa /\ byte_at w (len w - 1) = 0x0f).
  { rewrite Hw at 1 3. unfold nav_frame. fold b. rewrite app_assoc. rewrite !byte_at_app_r by (lens; lia). lens.
    split; [replace (len w - 2 - _) with 0 by lia|replace (len w - 1 - _) with 1 by lia]; reflexivity. }
  assert (Hstart : byte_at w 0 = 0xaa /\ byte_at w 1 = 0xf0) by (rewrite Hw; split; reflexivity).
  destruct Hend as [-> ->], Hstart as [-> ->]. rewrite Hmid, unescape_escape by (rewrite len_nil; lia). cbn [app Z.eqb Pos.eqb negb orb].
  assert (H0 : le16 b 0 = len p + 4 + 4096 * h).
  { unfold b, nav_body, mvcd_body. rewrite <- !app_assoc, le16_put16. apply u16_id. unfold is_u16. lia. }
  destruct (length_word_split (le16 b 0)) as [Hland Hshift]; [lia|]. rewrite Hland, Hshift, H0, fold_sum_u16.
  replace ((len p + 4 + 4096 * h) mod 4096) with (len p + 4) by dlia.
  replace ((len p + 4 + 4096 * h) / 4096) with h by dlia.
  change (byte_at b 3) with 0xfe. change (byte_at b 2) with c. rewrite Hlb.
  replace (len p + 4 - 4) with (len p) by lia. rewrite u16_id, u8_id by (unfold is_u16, is_u8; lia).
  assert (Hsum : slice b 0 (len p + 6 - 2) = mvcd_body c h p)
    by (unfold b, nav_body; apply (slice_app_mid [] (mvcd_body c h p)); rewrite len_mvcd_body; lia).
  assert (Hchk : le16 b (len p + 6 - 2) = u16 (bytesum (mvcd_body c h p))).
  { unfold b, nav_body. rewrite (le16_app_r _ _ _ 0) by (rewrite ?len_mvcd_body; lia).
    rewrite <- (app_nil_r (put16 _)). apply le16_put16. }
  assert (Hpay : slice b 4 (len p) = p).
  { unfold b, nav_body, mvcd_body. rewrite <- !app_assoc, app_assoc.
    apply (slice_app_mid (put16 _ ++ [c; 254])). reflexivity. }
  rewrite Hsum, Hchk, Hpay, !Z.eqb_refl. cbn [negb orb].
  replace (len p + 6 <? 6) with false by lia. replace (len p + 4 <? 4) with false by lia. cbn [orb].
  unfold packet_of. now rewrite store_payload by lia.
Qed.

(** ** What an epoch owner promises

    Between a header packet and an end packet the owner collects record
    packets; [Open t h rs] is the state after header [h] at time [t] and the
    records [rs], in order. *)

Inductive epoch_phase : Type :=
| Idle
| Open (t : Z) (h : nav_packet) (rs : list nav_packet).

Definition shape_size (cmd : Z) : Z := match command_shape cmd with Some (size, _) => size | None => 0 end.
Definition record_of (i : nat) (k : nav_packet) : nav_record :=
  store_record zero_record (command k) (Z.of_nat i) (shape_size (command k)) (payload k).
Definition records_of (rs : list nav_packet) : list nav_record :=
  imap record_of rs ++ replicate (20 - length rs) zero_record.
Definition epoch_of (t : Z) (h : nav_packet) (rs : list nav_packet) : nav_epoch :=
  let p := payload h in
  NavEpoch t 0 (slice p 0 66) (half_le p 0) (half_le p 4)
    (Z.lor (Z.lor (Z.shiftl (byte_at p 8) 2) (Z.shiftl (byte_at p 9) 10)) (Z.land (byte_at p 44) 3))
    (len rs) (records_of rs) (EpochEnd 0 0 0 0).
Definition finish (e : nav_epoch) (now : Z) (k : nav_packet) : nav_epoch :=
  let p := payload k in
  NavEpoch (begin_ns e) now (header e) (header_word0 e) (header_word4 e) (header_field8_9_44 e)
    (count e) (records e) (EpochEnd (byte_at p 0) (byte_at p 9) (half_le p 1) (half_le p 5)).

(** The successor phase and the completed epoch, if the packet is acceptable. *)
Definition epoch_spec (ph : epoch_phase) (k : nav_packet) (now : Z)
    : option (epoch_phase * option nav_epoch) :=
  match command_shape (command k) with
  | None => None
  | Some (size, maximum) =>
    if negb (payload_size k =? size) then None
    else match ph with
    | Idle => if command k =? 0x2c then Some (Open now k [], None) else None
    | Open t h rs =>
      if command k =? 0x2c then None
      else if command k =? 0x4c then Some (Idle, Some (finish (epoch_of t h rs) now k))
      else if (len rs <? maximum) && (len rs <? 20) then Some (Open t h (rs ++ [k]), None)
      else None
    end
  end.

Definition packet_ok (k : nav_packet) : Prop := len (payload k) = B41_NAV_PAYLOAD_MAX.

(** The owner is live and holds the phase. *)
Definition holds (o : nav_epoch_owner) (ph : epoch_phase) : Prop :=
  first_error o = 0 /\
  match ph with
  | Idle => active o = 0
  | Open t h rs => active o = 1 /\ epoch_pending o = epoch_of t h rs /\ len rs <= 20
  end.

Lemma records_push rs k : (length rs < 20)%nat ->
  <[length rs := record_of (length rs) k]> (records_of rs) = records_of (rs ++ [k]).
Proof.
  intros Hl. unfold records_of. rewrite imap_app. cbn [imap].
  replace (20 - length rs)%nat with (S (20 - length (rs ++ [k])))%nat by (rewrite length_app; cbn; lia).
  rewrite insert_app_r_alt by (rewrite length_imap; lia). rewrite length_imap, Nat.sub_diag.
  cbn [replicate]. rewrite <- app_assoc. cbn. now rewrite Nat.add_0_r.
Qed.
Lemma records_next rs : (length rs < 20)%nat -> nth (length rs) (records_of rs) zero_record = zero_record.
Proof.
  intros Hl. unfold records_of. rewrite app_nth2 by (rewrite length_imap; lia). rewrite length_imap, Nat.sub_diag.
  destruct (20 - length rs)%nat; reflexivity.
Qed.

Lemma fail_live o e : first_error o = 0 -> fail o e = (e, EpochOwner (deadline_ns o) (last_ns o) e (active o) (epoch_pending o)).
Proof. intros H. unfold fail. now rewrite H. Qed.

Section Accept.
Context (at_ : Z) (packet : ptr nav_packet) (complete : ptr nav_epoch).
Context (Hclear : (at_ =? 0) || null packet || null complete
  || overlap at_ sizeof_owner (addr packet) sizeof_packet
  || overlap at_ sizeof_owner (addr complete) sizeof_epoch = false).

(** The outcome of a call on an owner that holds [ph]. *)
Definition accept_outcome (o : nav_epoch_owner) (now : Z) (ph : epoch_phase)
    (r : Z * nav_epoch_owner * nav_epoch) : Prop :=
  let '(st, o', c) := r in
  match (if (last_ns o <=? now) && (now <? deadline_ns o) then epoch_spec ph (pointee packet) now else None) with
  | Some (ph', None) => st = 0 /\ holds o' ph' /\ last_ns o' = now /\ deadline_ns o' = deadline_ns o /\ c = pointee complete
  | Some (ph', Some e) => st = 1 /\ holds o' ph' /\ last_ns o' = now /\ deadline_ns o' = deadline_ns o /\ c = e
  | None => st < 0 /\ first_error o' = st /\ deadline_ns o' = deadline_ns o /\ c = pointee complete
  end.

Ltac refuse := rewrite ?fail_live by (assumption || reflexivity); cbn; repeat split; lia.

Lemma accept_refines o now ph : packet_ok (pointee packet) -> holds o ph ->
  accept_outcome o now ph (b41_nav_epoch_accept (Ptr at_ o) packet now complete).
Proof.
  intros Hk [He Hph]. unfold b41_nav_epoch_accept, null at 1. cbn [addr pointee]. rewrite Hclear. cbv zeta.
  rewrite He. cbn [Z.eqb negb]. unfold accept_outcome, epoch_spec.
  destruct (Z.ltb_spec now (last_ns o)).
  { replace ((last_ns o <=? now) && (now <? deadline_ns o)) with false by lia. refuse. }
  destruct (Z.leb_spec (deadline_ns o) now).
  { replace ((last_ns o <=? now) && (now <? deadline_ns o)) with false by lia. refuse. }
  replace ((last_ns o <=? now) && (now <? deadline_ns o)) with true by lia.
  set (k := pointee packet) in *.
  destruct (command_shape (command k)) as [[size maximum]|] eqn:Es; [|refuse].
  destruct (negb (payload_size k =? size)); [refuse|].
  assert (Hsize : 0 <= size <= 115 /\ (command k = 0x2c -> size = 66)).
  { unfold command_shape in Es. guards Es; injection Es as <- <-; lia. }
  destruct ph as [|t h rs].
  - rewrite Hph. destruct (Z.eqb_spec (command k) 0x2c) as [E|E]; [|refuse].
    destruct Hsize as [_ Hz]. specialize (Hz E). subst size. cbn. repeat split; [|rewrite len_nil; lia].
    unfold epoch_of. cbn. do 2 f_equal. rewrite store_payload; rewrite len_slice; try lia; try (rewrite Hk; lia).
    cbn. apply app_nil_r.
  - destruct Hph as (Ha & Hp & Hl). rewrite Ha. cbn [Z.eqb Pos.eqb negb].
    destruct (Z.eqb_spec (command k) 0x2c) as [E|E]; [refuse|].
    destruct (Z.eqb_spec (command k) 0x4c) as [E'|E']; [rewrite Hp; cbn; repeat split; lia|].
    rewrite Hp. change (count (epoch_of t h rs)) with (len rs).
    destruct ((maximum <=? len rs) || (20 <=? len rs)) eqn:G.
    + replace ((len rs <? maximum) && (len rs <? 20)) with false by lia.
      refuse.
    + replace ((len rs <? maximum) && (len rs <? 20)) with true by lia. pose proof (len_nonneg rs).
      unfold len in G, Hl |- *. rewrite !Nat2Z.id. cbn [records epoch_of]. rewrite records_next by lia.
      assert (Hr : store_record zero_record (command k) (Z.of_nat (length rs)) size (payload k) = record_of (length rs) k)
        by (unfold record_of, shape_size; now rewrite Es).
      rewrite Hr, records_push by lia. cbn. repeat split; try lia.
      * unfold epoch_of. cbn. rewrite u8_id by (unfold is_u8; lia). unfold len. rewrite length_app. cbn.
        f_equal; lia.
      * unfold len. rewrite length_app. cbn. lia.
Qed.
End Accept.

(** ** The calendar *)

(** Days since 1970 of a civil date. *)
Definition days_from_civil (y m d : Z) : Z :=
  let y := if m <=? 2 then y - 1 else y in
  let era := y / 400 in
  let yoe := y - era * 400 in
  let doy := (153 * (if 2 <? m then m - 3 else m + 9) + 2) / 5 + d - 1 in
  let doe := yoe * 365 + yoe / 4 - yoe / 100 + doy in
  era * 146097 + doe - 719468.

(** Checks a predicate on [start .. start + n). *)
Fixpoint upto (p : Z -> bool) (start : Z) (n : nat) : bool :=
  match n with O => true | S n => p start && upto p (start + 1) n end.
Lemma upto_spec p n : forall start, upto p start n = true ->
  forall z, start <= z < start + Z.of_nat n -> p z = true.
Proof.
  induction n as [|n IH]; intros start H z Hz; [lia|]. cbn in H. apply andb_true_iff in H as [H0 H].
  destruct (Z.eq_dec z start) as [->|]; [exact H0|]. apply (IH _ H). lia.
Qed.

(** The year of a day of the 400-year era is found by one division of an
    adjusted day number; it is exact because the adjustment is monotone and
    right at both ends of each year. *)
Definition adjusted (doe : Z) : Z := doe - doe / 1460 + doe / 36524 - doe / 146096.
Definition year_start (y : Z) : Z := 365 * y + y / 4 - y / 100.
Definition year_end (y : Z) : Z := if y =? 399 then 146096 else year_start (y + 1) - 1.

Lemma adjusted_mono a b : a <= b -> adjusted a <= adjusted b.
Proof. intros H. unfold adjusted. dlia. Qed.
Lemma year_ends y : 0 <= y < 400 ->
  adjusted (year_start y) / 365 = y /\ adjusted (year_end y) / 365 = y /\
  365 <= year_end y - year_start y + 1 <= 366 /\
  (year_end y - year_start y + 1 = 366 <-> (y + 1) mod 4 = 0 /\ ((y + 1) mod 100 <> 0 \/ (y + 1) mod 400 = 0)).
Proof.
  intros Hy. pose proof (upto_spec (fun y => (adjusted (year_start y) / 365 =? y) && (adjusted (year_end y) / 365 =? y) &&
    (365 <=? year_end y - year_start y + 1) && (year_end y - year_start y + 1 <=? 366) &&
    Bool.eqb (year_end y - year_start y + 1 =? 366)
      (((y + 1) mod 4 =? 0) && (negb ((y + 1) mod 100 =? 0) || ((y + 1) mod 400 =? 0)))) 400 0) as H.
  specialize (H ltac:(vm_compute; reflexivity) y ltac:(lia)). cbv beta in H.
  rewrite !andb_true_iff in H. destruct H as [[[[H1 H2] H3] H4] H5]. apply eqb_prop in H5.
  repeat split; try lia.
Qed.
Lemma year_found doe : 0 <= doe < 146097 -> let y := adjusted doe / 365 in
  0 <= y < 400 /\ year_start y <= doe <= year_end y.
Proof.
  intros Hd y.
  assert (Hm : forall a b, a <= b -> adjusted a / 365 <= adjusted b / 365)
    by (intros; apply Z.div_le_mono; [lia|now apply adjusted_mono]).
  assert (Hy : 0 <= y < 400).
  { pose proof (Hm 0 doe ltac:(lia)). pose proof (Hm doe 146096 ltac:(lia)).
    change (adjusted 0 / 365) with 0 in *. change (adjusted 146096 / 365) with 399 in *. fold y in H, H0. lia. }
  split; [exact Hy|]. split; apply Z.nlt_ge; intros Hlt.
  - destruct (Z.eq_dec y 0) as [E|E]; [rewrite E in Hlt; change (year_start 0) with 0 in Hlt; lia|].
    destruct (year_ends (y - 1)) as (_ & He & _); [lia|]. unfold year_end in He.
    replace (y - 1 =? 399) with false in He by lia. replace (y - 1 + 1) with y in He by lia.
    pose proof (Hm doe (year_start y - 1) ltac:(lia)). fold y in H. lia.
  - unfold year_end in Hlt. destruct (Z.eqb_spec y 399); [lia|].
    destruct (year_ends (y + 1)) as (Hs & _); [lia|]. pose proof (Hm (year_start (y + 1)) doe ltac:(lia)). fold y in H. lia.
Qed.

(** Month and day within a year that starts on 1 March. *)
Definition month_of (doy : Z) : Z := let mp := (5 * doy + 2) / 153 in if mp <? 10 then mp + 3 else mp - 9.
Definition day_of (doy : Z) : Z := doy - (153 * ((5 * doy + 2) / 153) + 2) / 5 + 1.
Lemma month_day doy : 0 <= doy < 366 ->
  1 <= month_of doy <= 12 /\ 1 <= day_of doy /\
  day_of doy <= nth (Z.to_nat (month_of doy - 1)) days 0 + (if (month_of doy =? 2) && (doy =? 365) then 1 else 0) /\
  (153 * (if 2 <? month_of doy then month_of doy - 3 else month_of doy + 9) + 2) / 5 + day_of doy - 1 = doy.
Proof.
  intros Hd. pose proof (upto_spec (fun doy => (1 <=? month_of doy) && (month_of doy <=? 12) && (1 <=? day_of doy) &&
    (day_of doy <=? nth (Z.to_nat (month_of doy - 1)) days 0 + (if (month_of doy =? 2) && (doy =? 365) then 1 else 0)) &&
    ((153 * (if 2 <? month_of doy then month_of doy - 3 else month_of doy + 9) + 2) / 5 + day_of doy - 1 =? doy)) 366 0) as H.
  specialize (H ltac:(vm_compute; reflexivity) doy ltac:(lia)). cbv beta in H. lia.
Qed.

(** The converted dates are calendar dates, and invert. *)
Lemma civil_range z : let '(y, m, d) := civil_from_days z in
  1 <= m <= 12 /\ 1 <= d <= days_in_month y m /\ days_from_civil y m d = z.
Proof.
  unfold civil_from_days. set (z' := z + 719468). set (era := z' / 146097). set (doe := z' - era * 146097).
  assert (Hdoe : 0 <= doe < 146097) by (subst doe era; dlia).
  change (doe - doe / 1460 + doe / 36524 - doe / 146096) with (adjusted doe).
  destruct (year_found doe Hdoe) as [Hy Hin]. set (yoe := adjusted doe / 365) in *.
  change (365 * yoe + yoe / 4 - yoe / 100) with (year_start yoe). set (doy := doe - year_start yoe).
  destruct (year_ends yoe Hy) as (_ & _ & Hlen & Hleap).
  change (if (5 * doy + 2) / 153 <? 10 then _ else _) with (month_of doy).
  change (doy - (153 * ((5 * doy + 2) / 153) + 2) / 5 + 1) with (day_of doy).
  destruct (month_day doy) as (Hm & Hd1 & Hd2 & Hdoy); [lia|].
  split; [exact Hm|]. split.
  - split; [exact Hd1|]. unfold days_in_month. destruct (Z.eqb_spec (month_of doy) 2) as [E|E]; cbn [andb] in *; [|lia].
    rewrite E in *. destruct (Z.eqb_spec doy 365) as [Ed|Ed]; [|destruct (_ && _); lia]. cbn [Z.leb Z.compare] in *.
    destruct Hleap as [Hleap _]. specialize (Hleap ltac:(lia)). change (2 <=? 2) with true. cbv iota.
    replace ((yoe + era * 400 + 1) mod 4) with ((yoe + 1) mod 4) by dlia.
    replace ((yoe + era * 400 + 1) mod 100) with ((yoe + 1) mod 100) by dlia.
    replace ((yoe + era * 400 + 1) mod 400) with ((yoe + 1) mod 400) by dlia.
    destruct (_ && _) eqn:El; lia.
  - unfold days_from_civil. set (y := yoe + era * 400 + _).
    replace (if month_of doy <=? 2 then y - 1 else y) with (yoe + era * 400) by (subst y; destruct (month_of doy <=? 2); lia).
    replace ((yoe + era * 400) / 400) with era by dlia. replace (yoe + era * 400 - era * 400) with yoe by lia.
    rewrite Hdoy. subst doy. unfold year_start. subst doe z'. lia.
Qed.

Lemma gmtime_spec t : let c := gmtime t in
  1 <= tm_mon c + 1 <= 12 /\ 1 <= tm_mday c <= days_in_month (tm_year c + 1900) (tm_mon c + 1) /\
  0 <= tm_hour c < 24 /\ 0 <= tm_min c < 60 /\ 0 <= tm_sec c < 60 /\
  t = days_from_civil (tm_year c + 1900) (tm_mon c + 1) (tm_mday c) * 86400
      + tm_hour c * 3600 + tm_min c * 60 + tm_sec c.
Proof.
  cbv zeta. unfold gmtime. pose proof (civil_range (t / 86400)) as Hc.
  destruct (civil_from_days (t / 86400)) as [[y m] d]. cbn [tm_year tm_mon tm_mday tm_hour tm_min tm_sec].
  replace (y - 1900 + 1900) with y by lia. replace (m - 1 + 1) with m by lia.
  set (dm := days_in_month y m) in *. set (dc := days_from_civil y m d) in *. clearbody dm dc.
  destruct Hc as (Hm & Hd & Hc). repeat split; try lia; dlia.
Qed.

(** ** Claims *)

(** C19. Decoding a navigation frame is exact: on a readable buffer with a
    present result object, [b41_nav_packet_decode] succeeds precisely on the
    escaped reference frames (any command, length nibble and payload of at
    most 1014 bytes), and reports exactly that command, nibble and payload,
    zero-padded; every other byte sequence is refused. *)
Theorem packet_decode_exact wire out pk :
  bytes_ok (pointee wire) -> null wire = false -> null out = false ->
  b41_nav_packet_decode wire (len (pointee wire)) out = (0, pk) <->
  exists c h p, is_u8 c /\ 0 <= h < 16 /\ bytes_ok p /\ len p <= B41_NAV_PAYLOAD_MAX /\
    pointee wire = nav_frame c h p /\ pk = packet_of c h p.
Proof.
  intros Hok Hn1 Hn2. split; [now apply packet_decode_sound|].
  intros (c & h & p & Hc & Hh & Hp & Hl & Hw & ->). now apply packet_decode_complete.
Qed.
Lemma packet_decode_exact_witness :
  b41_nav_packet_decode (Ptr 64 (nav_frame 0x41 9 [0xaa; 0xde; 1])) (len (nav_frame 0x41 9 [0xaa; 0xde; 1]))
    (Ptr 4096 (NavPacket 0 0 0 [])) = (0, packet_of 0x41 9 [0xaa; 0xde; 1]).
Proof.
  apply (packet_decode_exact (Ptr 64 (nav_frame 0x41 9 [0xaa; 0xde; 1])) (Ptr 4096 (NavPacket 0 0 0 [])));
    [cbn [pointee]; concrete_bytes|reflexivity|reflexivity|].
  exists 0x41, 9, [0xaa; 0xde; 1]. split; [unfold is_u8; lia|]. split; [lia|].
  split; [concrete_bytes|]. split; [vm_compute; congruence|]. split; reflexivity.
Defined.

(** C20. The epoch owner refines its specification: holding a phase (idle, or
    open with a header and the records so far in order), it accepts a packet
    exactly when the clock is monotone and before the deadline, the command is
    known with its exact payload size, a header comes only when idle and
    anything else only when open, and the shared record index is below both
    the command's own bound and 20. Accepting appends the record (with its
    index, raw bytes and decoded words) or completes the epoch with all
    records in arrival order; refusing latches the error and leaves the
    caller's epoch untouched. *)
Theorem epoch_accept_refines at_ packet complete o now ph :
  (at_ =? 0) || null packet || null complete || overlap at_ sizeof_owner (addr packet) sizeof_packet
    || overlap at_ sizeof_owner (addr complete) sizeof_epoch = false ->
  packet_ok (pointee packet) -> holds o ph ->
  accept_outcome packet complete o now ph (b41_nav_epoch_accept (Ptr at_ o) packet now complete).
Proof. intros Hc Hk Ho. exact (accept_refines at_ packet complete Hc o now ph Hk Ho). Qed.

Definition header_1 : nav_packet := NavPacket 66 0x2c 0 (repeat 7 1014).
Lemma epoch_accept_refines_witness :
  let o := EpochOwner 1000 10 0 0 zero_epoch in
  exists o', b41_nav_epoch_accept (Ptr 0x10000 o) (Ptr 0x1000 header_1) 11 (Ptr 0x2000 zero_epoch)
    = (0, o', zero_epoch) /\ holds o' (Open 11 header_1 []).
Proof.
  intros o. pose proof (epoch_accept_refines 0x10000 (Ptr 0x1000 header_1) (Ptr 0x2000 zero_epoch) o 11 Idle
    eq_refl eq_refl (conj eq_refl eq_refl)) as H.
  destruct (b41_nav_epoch_accept _ _ _ _) as [[st o'] c]. cbn in H.
  destruct H as (-> & H1 & _ & _ & ->). exists o'. split; [reflexivity|exact H1].
Defined.

(** What the time seed computes, over unbounded integers. *)
Definition gps_total (s : nav_utc_sample) (now : Z) : Z :=
  (unix_ms s - gps_epoch_ms) * 1000000 + (now - acquired_ns s) + gps_minus_utc_seconds s * 1000000000.
Definition seed_uncertainty (s : nav_utc_sample) (now : Z) : Z :=
  sample_uncertainty_ms s + (now - acquired_ns s + 999999) / 1000000.
Definition seed_admissible (s : nav_utc_sample) (now deadline : Z) : bool :=
  (1 <=? sample_uncertainty_ms s) && (acquired_ns s <=? now) && (now <? deadline)
  && (gps_epoch_ms <=? unix_ms s) && (gps_total s now <=? UINT64_MAX)
  && (gps_total s now / week_ns <=? 32767) && (seed_uncertainty s now <=? 2000000000).

(** One guard of the source and the matching conjunct of the specification. *)
Ltac refuse_unless b := let E := fresh "E" in destruct b eqn:E; cbn [negb andb]; [|cbn; split; [lia|reflexivity]].

(** The time seed is computed without wrap-around: for 64-bit inputs,
    [b41_nav_time_seed_build] succeeds exactly when the sample is admissible
    (the GPS time in unbounded arithmetic fits 64 bits and week 32767, the
    uncertainty plus the rounded-up age is at most 2e9 ms, the clock is
    monotone and before the deadline), and then splits that unbounded GPS time
    into week and time of week; otherwise it reports an error and leaves the
    result untouched. *)
Theorem time_seed_exact sample now deadline out :
  null sample = false -> null out = false ->
  is_u64 (unix_ms (pointee sample)) -> is_u64 (acquired_ns (pointee sample)) ->
  is_u32 (sample_uncertainty_ms (pointee sample)) -> is_u8 (gps_minus_utc_seconds (pointee sample)) ->
  is_u64 now ->
  let s := pointee sample in
  let r := b41_nav_time_seed_build sample now deadline out in
  if seed_admissible s now deadline
  then r = (0, TimeSeed (gps_total s now / week_ns)
                 (b64_div (b64_of_Z (gps_total s now mod week_ns)) (b64_of_Z 1000000000))
                 (b32_of_Z (seed_uncertainty s now)))
  else r.1 < 0 /\ r.2 = pointee out.
Proof.
  intros Hn1 Hn2 Hu Ha Hun Hg Hnow s r. subst r. unfold b41_nav_time_seed_build. fold s in Hu, Ha, Hun, Hg |- *.
  rewrite Hn1, Hn2. cbn [orb]. unfold seed_admissible, gps_epoch_ms in *. unfold_widths.
  set (unc := sample_uncertainty_ms s) in *. set (um := unix_ms s) in *. set (acq := acquired_ns s) in *.
  replace (unc =? 0) with (negb (1 <=? unc)) by lia. refuse_unless (1 <=? unc).
  replace (now <? acq) with (negb (acq <=? now)) by lia. refuse_unless (acq <=? now).
  replace (deadline <=? now) with (negb (now <? deadline)) by lia. refuse_unless (now <? deadline).
  replace (um <? 315964800000) with (negb (315964800000 <=? um)) by lia. refuse_unless (315964800000 <=? um).
  set (leap := gps_minus_utc_seconds s * 1000000000). set (el := now - acq). set (dl := um - 315964800000).
  assert (Htot : gps_total s now = dl * 1000000 + el + leap) by reflexivity.
  rewrite (Z.mod_small leap), (Z.mod_small el), (Z.mod_small dl) by lia.
  rewrite (Z.mod_small (18446744073709551615 - leap)), (Z.mod_small (18446744073709551615 - el)) by lia.
  assert (Hover : (18446744073709551615 - leap <? el)
      || ((18446744073709551615 - el - leap) mod 18446744073709551616 / 1000000 <? dl)
    = negb (gps_total s now <=? 18446744073709551615)).
  { destruct (Z.ltb_spec (18446744073709551615 - leap) el); [lia|]. rewrite Z.mod_small by lia. cbn [orb]. dlia. }
  rewrite Hover. refuse_unless (gps_total s now <=? 18446744073709551615).
  rewrite (Z.mod_small (dl * 1000000)), (Z.mod_small (dl * 1000000 + el)), (Z.mod_small (_ + leap)) by lia.
  rewrite <- Htot. unfold week_ns in *. rewrite (Z.ltb_antisym (_ / _) 32767).
  refuse_unless (gps_total s now / 604800000000000 <=? 32767).
  assert (Hunc : ((unc + el / 1000000) mod 18446744073709551616 + (if el mod 1000000 =? 0 then 0 else 1)) mod 18446744073709551616
    = seed_uncertainty s now).
  { unfold seed_uncertainty. fold unc acq el. rewrite (Z.mod_small (unc + _)) by dlia.
    destruct (Z.eqb_spec (el mod 1000000) 0); rewrite Z.mod_small by dlia; dlia. }
  rewrite Hunc, Z.ltb_antisym. refuse_unless (seed_uncertainty s now <=? 2000000000).
  rewrite (Z.mod_small (_ / _) 65536); [reflexivity|]. split; [apply Z.div_pos; lia|lia].
Qed.
Definition sample_1 : nav_utc_sample := UtcSample 315964800000 100 20 18.
Lemma time_seed_exact_witness :
  b41_nav_time_seed_build (Ptr 64 sample_1) 250000100 1000000000 (Ptr 128 (TimeSeed 0 S754_nan S754_nan))
  = (0, TimeSeed 0 (b64_div (b64_of_Z 18250000000) (b64_of_Z 1000000000)) (b32_of_Z 270)).
Proof.
  exact (time_seed_exact (Ptr 64 sample_1) 250000100 1000000000 (Ptr 128 (TimeSeed 0 S754_nan S754_nan))
    eq_refl eq_refl ltac:(split; vm_compute; congruence) ltac:(split; vm_compute; congruence)
    ltac:(split; vm_compute; congruence) ltac:(split; vm_compute; congruence) ltac:(split; vm_compute; congruence)).
Defined.

(** A host position that is reported as a 2D or 3D fix carries a real
    civil date and time of day, and that date is exactly the record's GPS week
    and time of week, shifted by the GPS epoch and the UTC correction; its
    coordinates are finite and within 90 and 180 degrees, and a 2D fix never
    carries an altitude. Any refused record leaves the result untouched. *)
Theorem host_position_sound record size out st pos :
  b41_nav_host_position_decode record size out = (st, pos) ->
  (st = 0 -> state pos <> B41_NAV_POSITION_NOT_VALID ->
     1 <= month pos <= 12 /\ 1 <= day pos <= days_in_month (year pos) (month pos) /\
     0 <= hour pos < 24 /\ 0 <= minute pos < 60 /\ 0 <= second pos < 60 /\ milliseconds pos <= 999 /\
     days_from_civil (year pos) (month pos) (day pos) * 86400 + hour pos * 3600 + minute pos * 60 + second pos
       = pos_gps_week pos * 604800 + gps_tow_seconds pos + 315964800 - utc_correction_seconds pos /\
     isfinite (latitude_degrees pos) = true /\ SFltb (b64_of_Z 90) (SFabs (latitude_degrees pos)) = false /\
     isfinite (longitude_degrees pos) = true /\ SFltb (b64_of_Z 180) (SFabs (longitude_degrees pos)) = false /\
     (state pos = B41_NAV_POSITION_2D -> altitude pos = S754_zero false)) /\
  (st <> 0 -> pos = pointee out).
Proof.
  intros H. unfold b41_nav_host_position_decode in H. set (r := pointee record) in *. cbv zeta in H.
  set (lat := double_le r 0x30) in *. set (lon := double_le r 0x38) in *. set (speed := float_le r 0x50) in *.
  set (y := u16 (1900 + le16 r 4)) in *. set (mo := u8 (byte_at r 6 + 1)) in *. set (lim := days_in_month y mo) in *.
  set (corr := if le16 r 0x10 <? 32768 then _ else _) in *.
  set (t := le16 r 0x12 * 604800 + le32 r 0x14 + 315964800 - corr) in *.
  repeat match type of H with
  | (if ?b then (?e, pointee out) else _) = _ =>
      let G := fresh "G" in destruct b eqn:G; [injection H as <- <-; split; [discriminate|reflexivity]|]
  | (if ?b then (0, HostPosition B41_NAV_POSITION_NOT_VALID _ _ _ _ _ _ _ _ _ _ _ _ _ _ _ _) else _) = _ =>
      let G := fresh "G" in destruct b eqn:G;
      [injection H as <- <-; split; [intros _ Hn; now contradiction Hn|easy]|]
  end.
  pose proof (gmtime_spec t) as (_ & _ & Hh & Hmi & Hs & Ht).
  assert (Hciv : tm_year (gmtime t) + 1900 = y /\ tm_mon (gmtime t) + 1 = mo /\ tm_mday (gmtime t) = byte_at r 7 /\
    tm_hour (gmtime t) = byte_at r 8 /\ tm_min (gmtime t) = byte_at r 9 /\ tm_sec (gmtime t) = byte_at r 10)
    by (clear - G8; repeat split; lia).
  pose proof (gmtime_spec t) as (Hm & Hd & _). destruct Hciv as (E1 & E2 & E3 & E4 & E5 & E6).
  rewrite E1, E2, E3, E4, E5, E6 in *. apply orb_false_iff in G9 as [G9 Hlon]. apply orb_false_iff in G9 as [G9 Hflon].
  apply orb_false_iff in G9 as [Hflat Hlat]. apply negb_false_iff in Hflon, Hflat.
  assert (Hms : le16 r 12 <= 999) by (clear - G6; lia). symmetry in Ht.
  clear G G0 G1 G2 G3 G4 G5 G6 G7 G8 G10 G11.
  destruct (byte_at r 0x19 =? 2);
    [|destruct (negb (isfinite (double_le r 0x40))); [injection H as <- <-; split; [discriminate|reflexivity]|]];
    injection H as <- <-; (split; [intros _ _|easy]);
    refine (conj Hm (conj Hd (conj Hh (conj Hmi (conj Hs (conj Hms (conj Ht (conj Hflat (conj Hlat
      (conj Hflon (conj Hlon _))))))))))); [intros _; reflexivity|discriminate].
Qed.
Definition position_record_1 : list Z :=
  let r := zeros 0xc60 in
  let r := write_at r 0 (put32 0x0c600000) in
  let r := write_at r 4 (put16 122 ++ [2; 7; 3; 46; 22; 0] ++ put16 5) in
  let r := write_at r 0x10 (put16 18 ++ put16 2200 ++ put32 100000 ++ [1; 3]) in
  let r := write_at r 0x30 (put64 0x4044000000000000 ++ put64 0x4034000000000000) in
  write_at r 0x40 (put64 0x4059000000000000).
Definition position_0 : nav_host_position :=
  HostPosition B41_NAV_POSITION_NOT_VALID 0 0 0 0 0 0 0 0 0 0 0 0 S754_nan S754_nan S754_nan S754_nan.
Lemma host_position_sound_witness :
  exists pos, b41_nav_host_position_decode (Ptr 64 position_record_1) 0xc60 (Ptr 8192 position_0) = (0, pos) /\
    state pos = B41_NAV_POSITION_3D /\ (year pos, month pos, day pos) = (2022, 3, 7) /\
    days_from_civil 2022 3 7 * 86400 + 3 * 3600 + 46 * 60 + 22 = 1646624782.
Proof.
  destruct (b41_nav_host_position_decode (Ptr 64 position_record_1) 0xc60 (Ptr 8192 position_0)) as [st pos] eqn:E.
  pose proof (host_position_sound _ _ _ _ _ E) as [H _]. vm_compute in E. injection E as <- <-.
  eexists. split; [reflexivity|]. split; [reflexivity|]. split; [reflexivity|].
  specialize (H eq_refl ltac:(discriminate)). apply H.
Defined.
