(* ===== verification/HostQueue.v ===== *)
(** * The host adapter of the GNSS engine

    The callbacks the vendor engine calls on its own threads copy what they are
    given into a ring of sixteen events ([b41_startup_adapter.c]); one host
    worker drains the ring. A producer and the worker share a try-lock: no side
    ever waits. The operations are stated twice, as the sequential functions of
    the source and as machines that take one shared access at a time, and the
    machines are run under every schedule. *)

From S2P Require Import Prelude.

(** ** The ring and its sequential operations *)

Definition B41_HOST_QUEUE_SIZE : Z := 16.
Definition B41_HOST_OUTPUT_MAX : Z := 1024.
Definition B41_HOST_APP_OUTPUT : Z := 1.
Definition B41_HOST_OUTPUT : Z := 2.
Definition B41_HOST_FRAME_SLEEP : Z := 3.
Definition B41_HOST_FRAME_NETWORK : Z := 4.
Definition B41_HOST_FRAME_MEASUREMENT : Z := 5.
Definition B41_HOST_AGPS_DATA : Z := 6.

Record b41_host_event := Event { ev_kind : Z; ev_length : Z; ev_bytes : list Z }.
Record b41_host_adapter := Adapter { lock : bool; first_error : Z; head : Z; count : Z; events : list b41_host_event }.
#[export] Instance b41_host_event_eq_dec : EqDecision b41_host_event.
Proof. solve_decision. Defined.

(** The static [bound_adapter] is null or the adapter: [bind] sets it once. *)
Record world := World { bound : bool; adapter : b41_host_adapter }.

Definition set_lock (b : bool) (a : b41_host_adapter) := Adapter b (first_error a) (head a) (count a) (events a).
Definition set_error (e : Z) (a : b41_host_adapter) := Adapter (lock a) e (head a) (count a) (events a).
Definition set_head (h : Z) (a : b41_host_adapter) := Adapter (lock a) (first_error a) h (count a) (events a).
Definition set_count (c : Z) (a : b41_host_adapter) := Adapter (lock a) (first_error a) (head a) c (events a).
Definition set_events (l : list b41_host_event) (a : b41_host_adapter) := Adapter (lock a) (first_error a) (head a) (count a) l.
Definition with_adapter (f : b41_host_adapter -> b41_host_adapter) (w : world) := World (bound w) (f (adapter w)).

Definition zero_event : b41_host_event := Event 0 0 (zeros B41_HOST_OUTPUT_MAX).

Definition b41_host_adapter_init (given : bool) (w : world) : Z * world :=
  if negb given then (- EINVAL, w) else
  if bound w then (- EALREADY, w) else
  (0, with_adapter (fun a => Adapter false 0 0 0 (events a)) w).

Definition fail (w : world) (error : Z) : Z * world :=
  if bound w then
    if first_error (adapter w) =? 0 then (error, with_adapter (set_error error) w) else (first_error (adapter w), w)
  else (error, w).

(** [&adapter->events[(head + count) % 16]], and one store to that slot. *)
Definition tail_slot (a : b41_host_adapter) : nat := Z.to_nat (u32 (head a + count a) mod B41_HOST_QUEUE_SIZE).
Definition edit_slot (n : nat) (f : b41_host_event -> b41_host_event) (a : b41_host_adapter) : b41_host_adapter :=
  set_events (alter f n (events a)) a.
Definition store_kind (k : Z) (e : b41_host_event) := Event k (ev_length e) (ev_bytes e).
Definition store_length (n : Z) (e : b41_host_event) := Event (ev_kind e) n (ev_bytes e).
Definition store_bytes (bs : list Z) (e : b41_host_event) := Event (ev_kind e) (ev_length e) (write_at (ev_bytes e) 0 bs).
Definition slot (a : b41_host_adapter) (n : Z) : b41_host_event := nth (Z.to_nat n) (events a) zero_event.

Definition bad_args (bytes : option (list Z)) (length : Z) : bool :=
  match bytes with None => true | Some _ => (length =? 0) || (B41_HOST_OUTPUT_MAX <? length) end.
Definition copied (bytes : option (list Z)) (length : Z) : list Z := firstn (Z.to_nat length) (default [] bytes).

Definition enqueue (kind : Z) (bytes : option (list Z)) (length : Z) (w : world) : Z * world :=
  let a := adapter w in
  if negb (bound w) then (- ENODEV, w) else
  if negb (first_error a =? 0) then (first_error a, w) else
  if bad_args bytes length then fail w (- EMSGSIZE) else
  if lock a then fail w (- EBUSY) else
  if count a =? B41_HOST_QUEUE_SIZE then fail w (- ENOBUFS) else
  let n := tail_slot a in
  (0, with_adapter (fun a =>
        let a := edit_slot n (store_kind kind) a in
        let a := edit_slot n (store_length length) a in
        let a := edit_slot n (store_bytes (copied bytes length)) a in
        set_count (u32 (count a + 1)) a) w).

Definition output (bytes : option (list Z)) (length : Z) (w : world) := enqueue B41_HOST_OUTPUT bytes length w.
Definition app_output (bytes : option (list Z)) (length : Z) (w : world) := enqueue B41_HOST_APP_OUTPUT bytes length w.
Definition active_notice (event : Z) : bool := (event =? 0) || (event =? 3) || (event =? 7) || (event =? 13).
Definition notify (event : Z) (w : world) : Z * world := if active_notice event then fail w (- EOPNOTSUPP) else (0, w).
Definition agps (selector parameter : Z) (bytes : option (list Z)) (w : world) : Z * world :=
  if negb (selector =? 0) then fail w (- EOPNOTSUPP) else enqueue B41_HOST_AGPS_DATA bytes parameter w.
Definition passthrough (value : Z) : Z := value.

Definition b41_host_adapter_bind (given callbacks : bool) (w : world) : Z * world :=
  if negb given || negb callbacks then (- EINVAL, w) else
  if bound w then (- EALREADY, w) else (0, World true (adapter w)).

(** The event the caller passes; the copy out of the head slot. *)
Definition take_copy (e : b41_host_event) : b41_host_event :=
  Event (ev_kind e) (ev_length e) (write_at (ev_bytes zero_event) 0 (firstn (Z.to_nat (ev_length e)) (ev_bytes e))).
Definition b41_host_adapter_take (given event : bool) (a : b41_host_adapter) : Z * option b41_host_event * b41_host_adapter :=
  if negb given || negb event then (- EINVAL, None, a) else
  if lock a then (- EBUSY, None, a) else
  if count a =? 0 then (- EAGAIN, None, a) else
  (0, Some (take_copy (slot a (head a))), set_count (count a - 1) (set_head (u32 (head a + 1) mod B41_HOST_QUEUE_SIZE) a)).

Definition b41_host_adapter_error (a : option b41_host_adapter) : Z :=
  match a with Some a => first_error a | None => - EINVAL end.

(** ** One shared access at a time

    A call is where it stands in its function and the event it fills. *)

Inductive request :=
| Enqueue (kind : Z) (bytes : option (list Z)) (length : Z)
| Refuse (error : Z)
| Take.

Inductive point :=
| AtBound | AtError | AtArgs | AtLock | AtFull | AtFullUnlock | AtFullFail | AtKind | AtLength (event : nat) | AtCopy (event : nat) | AtCount | AtUnlock
| AtRefuse | AtFail (error : Z)
| TakeLock | TakeEmpty | TakeEmptyUnlock | TakeClear | TakeKind | TakeLength | TakeCopy | TakeHead | TakeCount | TakeUnlock
| Done (status : Z).

Record call := Call { what : request; point_of : point; out : b41_host_event }.

Definition entry (r : request) : point := match r with Enqueue _ _ _ => AtBound | Refuse _ => AtRefuse | Take => TakeLock end.
Definition start (r : request) : call := Call r (entry r) zero_event.

(** What a call does to the queue at the access where it takes effect. *)
Definition message : Type := Z * list Z.
Inductive label := Put (m : message) | Full | Got (m : message) | Empty.

Definition message_of (r : request) : message :=
  match r with Enqueue kind bytes length => (kind, copied bytes length) | _ => (0, []) end.
Definition view (e : b41_host_event) : message := (ev_kind e, firstn (Z.to_nat (ev_length e)) (ev_bytes e)).

Definition cas_error (error : Z) (w : world) : Z * world :=
  if first_error (adapter w) =? 0 then (error, with_adapter (set_error error) w) else (first_error (adapter w), w).

Definition step (c : call) (w : world) : call * world * option label :=
  let a := adapter w in
  let go p := (Call (what c) p (out c), w, None) in
  let goes p f := (Call (what c) p (out c), with_adapter f w, None) in
  let fills p e := (Call (what c) p e, w, None) in
  match point_of c, what c with
  | AtBound, _ => go (if bound w then AtError else Done (- ENODEV))
  | AtError, _ => go (if first_error a =? 0 then AtArgs else Done (first_error a))
  | AtArgs, Enqueue _ bytes length => go (if bad_args bytes length then AtFail (- EMSGSIZE) else AtLock)
  | AtLock, _ => if lock a then go (AtFail (- EBUSY)) else goes AtFull (set_lock true)
  | AtFull, _ => if count a =? B41_HOST_QUEUE_SIZE then (Call (what c) AtFullUnlock (out c), w, Some Full) else go AtKind
  | AtFullUnlock, _ => goes AtFullFail (set_lock false)
  | AtFullFail, _ => let '(status, w) := cas_error (- ENOBUFS) w in (Call (what c) (Done status) (out c), w, None)
  | AtKind, Enqueue kind _ _ => goes (AtLength (tail_slot a)) (edit_slot (tail_slot a) (store_kind kind))
  | AtLength n, Enqueue _ _ length => goes (AtCopy n) (edit_slot n (store_length length))
  | AtCopy n, Enqueue _ bytes length => goes AtCount (edit_slot n (store_bytes (copied bytes length)))
  | AtCount, r => (Call r AtUnlock (out c), with_adapter (set_count (u32 (count a + 1))) w, Some (Put (message_of r)))
  | AtUnlock, _ => goes (Done 0) (set_lock false)
  | AtRefuse, Refuse error => go (if bound w then AtFail error else Done error)
  | AtFail error, _ => let '(status, w) := cas_error error w in (Call (what c) (Done status) (out c), w, None)
  | TakeLock, Take => if lock a then go (Done (- EBUSY)) else goes TakeEmpty (set_lock true)
  | TakeEmpty, Take => if count a =? 0 then (Call (what c) TakeEmptyUnlock (out c), w, Some Empty) else go TakeClear
  | TakeEmptyUnlock, Take => goes (Done (- EAGAIN)) (set_lock false)
  | TakeClear, Take => fills TakeKind zero_event
  | TakeKind, Take => fills TakeLength (store_kind (ev_kind (slot a (head a))) (out c))
  | TakeLength, Take => fills TakeCopy (store_length (ev_length (slot a (head a))) (out c))
  | TakeCopy, Take => fills TakeHead (store_bytes (firstn (Z.to_nat (ev_length (out c))) (ev_bytes (slot a (head a)))) (out c))
  | TakeHead, Take => (Call (what c) TakeCount (out c), with_adapter (set_head (u32 (head a + 1) mod B41_HOST_QUEUE_SIZE)) w,
                    Some (Got (view (out c))))
  | TakeCount, Take => goes TakeUnlock (set_count (u32 (count a - 1)))
  | TakeUnlock, Take => goes (Done 0) (set_lock false)
  | _, _ => go (point_of c)
  end.

(** Any number of calls, their accesses in any order. *)
Record system := System { calls : list call; state : world; history : list (nat * label) }.
Definition turn (s : system) (i : nat) : system :=
  match calls s !! i with
  | None => s
  | Some c => let '(c', w, l) := step c (state s) in System (<[i := c']> (calls s)) w (history s ++ option_list (pair i <$> l))
  end.
Definition boot (rs : list request) (w : world) : system := System (start <$> rs) w [].
Definition run (schedule : list nat) (s : system) : system := foldl turn s schedule.

(** ** The abstract queue *)
Definition fifo (q : list message) (l : label) : option (list message) :=
  match l with
  | Put m => if Z.of_nat (length q) <? B41_HOST_QUEUE_SIZE then Some (q ++ [m]) else None
  | Full => if Z.of_nat (length q) =? B41_HOST_QUEUE_SIZE then Some q else None
  | Got m => match q with x :: r => if decide (x = m) then Some r else None | [] => None end
  | Empty => match q with [] => Some q | _ => None end
  end.
Fixpoint fifo_all (q : list message) (ls : list label) : option (list message) :=
  match ls with [] => Some q | l :: ls => fifo q l ≫= fun q => fifo_all q ls end.

(** ** The invariant of every schedule

    [ring a q]: the slots from [head] on hold the queue [q]. *)

Definition event_ok (e : b41_host_event) : Prop := 0 <= ev_length e <= B41_HOST_OUTPUT_MAX /\ len (ev_bytes e) = B41_HOST_OUTPUT_MAX.
Definition adapter_ok (a : b41_host_adapter) : Prop :=
  0 <= head a < B41_HOST_QUEUE_SIZE /\ 0 <= count a <= B41_HOST_QUEUE_SIZE /\ len (events a) = B41_HOST_QUEUE_SIZE /\ Forall event_ok (events a).
Definition at_slot (a : b41_host_adapter) (k : Z) : b41_host_event := slot a ((head a + k) mod B41_HOST_QUEUE_SIZE).
Definition holds_queue (a : b41_host_adapter) (q : list message) : Prop :=
  forall k m, q !! k = Some m -> view (at_slot a (Z.of_nat k)) = m.
Definition ring (a : b41_host_adapter) (q : list message) : Prop := adapter_ok a /\ len q = count a /\ holds_queue a q.

Definition holding (p : point) : bool :=
  match p with
  | AtFull | AtFullUnlock | AtKind | AtLength _ | AtCopy _ | AtCount | AtUnlock
  | TakeEmpty | TakeEmptyUnlock | TakeClear | TakeKind | TakeLength | TakeCopy | TakeHead | TakeCount | TakeUnlock => true
  | _ => false
  end.

(** What the call that holds the lock knows. *)
Definition held (c : call) (a : b41_host_adapter) (q : list message) : Prop :=
  let room := ring a q /\ count a < B41_HOST_QUEUE_SIZE in
  let full := ring a q /\ 0 < count a in
  match point_of c, what c with
  | AtKind, Enqueue _ _ _ => room
  | AtLength n, Enqueue kind _ _ => room /\ n = tail_slot a /\ ev_kind (at_slot a (count a)) = kind
  | AtCopy n, Enqueue kind _ length => room /\ n = tail_slot a /\ ev_kind (at_slot a (count a)) = kind /\ ev_length (at_slot a (count a)) = length
  | AtCount, Enqueue _ _ _ => room /\ view (at_slot a (count a)) = message_of (what c)
  | TakeClear, Take => full
  | TakeKind, Take => full /\ out c = zero_event
  | TakeLength, Take => full /\ out c = store_kind (ev_kind (slot a (head a))) zero_event
  | TakeCopy, Take => full /\ out c = store_length (ev_length (slot a (head a))) (store_kind (ev_kind (slot a (head a))) zero_event)
  | TakeHead, Take => full /\ out c = take_copy (slot a (head a))
  | TakeCount, Take => ring (set_count (count a - 1) a) q /\ 0 < count a
  | _, _ => ring a q
  end.

(** What a call knows of itself: its arguments were accepted, and the effects it has had. *)
Definition accepted (r : request) : Prop :=
  match r with Enqueue _ bytes length => bad_args bytes length = false | _ => True end.
(** The caller's buffer has the length it says. *)
Definition request_ok (r : request) : Prop :=
  match r with Enqueue _ bytes length => is_u32 length /\ (forall b, bytes = Some b -> length <= len b) | _ => True end.
Definition delivered (m : message) : b41_host_event := Event m.1 (len m.2) (m.2 ++ zeros (B41_HOST_OUTPUT_MAX - len m.2)).
(** How a finished call ended, and what it did to the queue. *)
Definition outcome (r : request) (status : Z) (e : b41_host_event) (ls : list label) : Prop :=
  match r with
  | Enqueue _ _ _ => if status =? 0 then ls = [Put (message_of r)] else ls = [] \/ ls = [Full]
  | Refuse _ => ls = []
  | Take => (status = 0 /\ exists m, ls = [Got m] /\ e = delivered m) \/ (status = - EAGAIN /\ ls = [Empty]) \/ (status = - EBUSY /\ ls = [])
  end.
Definition effects (c : call) (ls : list label) : Prop :=
  match what c, point_of c with
  | Enqueue _ _ _, (AtBound | AtError | AtArgs) => ls = []
  | Enqueue _ _ _, AtFail error => error <> 0 /\ ls = []
  | Enqueue _ _ _, (AtLock | AtFull | AtKind | AtLength _ | AtCopy _ | AtCount) => accepted (what c) /\ ls = []
  | Enqueue _ _ _, (AtFullUnlock | AtFullFail) => ls = [Full]
  | Enqueue _ _ _, AtUnlock => ls = [Put (message_of (what c))]
  | Refuse _, (AtRefuse | AtFail _) => ls = []
  | Take, (TakeLock | TakeEmpty | TakeClear | TakeKind | TakeLength | TakeCopy | TakeHead) => ls = []
  | Take, TakeEmptyUnlock => ls = [Empty]
  | Take, (TakeCount | TakeUnlock) => exists m, ls = [Got m] /\ out c = delivered m
  | r, Done status => outcome r status (out c) ls
  | _, _ => False
  end.

Definition effects_of (i : nat) (h : list (nat * label)) : list label := (filter (fun e => e.1 = i) h).*2.

Record invariant (s : system) (q : list message) (holder : option nat) : Prop := {
  inv_legal : fifo_all [] (history s).*2 = Some q;
  inv_lock : lock (adapter (state s)) = bool_decide (is_Some holder);
  inv_excl : forall i c, calls s !! i = Some c -> holding (point_of c) = bool_decide (holder = Some i);
  inv_state : match holder with
              | None => ring (adapter (state s)) q
              | Some i => exists c, calls s !! i = Some c /\ held c (adapter (state s)) q
              end;
  inv_effects : forall i c, calls s !! i = Some c -> effects c (effects_of i (history s)) }.

(** ** The ring *)

Ltac queue_consts := unfold B41_HOST_QUEUE_SIZE, B41_HOST_OUTPUT_MAX in *.
Lemma tail_slot_at a : adapter_ok a -> tail_slot a = Z.to_nat ((head a + count a) mod B41_HOST_QUEUE_SIZE).
Proof. unfold adapter_ok, tail_slot. queue_consts. intros (H & C & _). rewrite u32_id; [reflexivity|]. unfold is_u32. lia. Qed.
Lemma ring_index_inj h j k : 0 <= j < 16 -> 0 <= k < 16 -> (h + j) mod 16 = (h + k) mod 16 -> j = k.
Proof. Z.to_euclidean_division_equations. lia. Qed.
Lemma slot_edit a n f k : (n < length (events a))%nat -> 0 <= k ->
  slot (edit_slot n f a) k = if (Z.to_nat k =? n)%nat then f (slot a k) else slot a k.
Proof.
  intros Hn Hk. unfold slot, edit_slot. cbn. destruct (Nat.eqb_spec (Z.to_nat k) n) as [<- |H].
  - destruct (lookup_lt_is_Some_2 (events a) (Z.to_nat k)) as [e He]; [lia|].
    rewrite !nth_lookup, list_lookup_alter_eq, He. reflexivity.
  - rewrite !nth_lookup. now rewrite list_lookup_alter_ne by congruence.
Qed.
Lemma at_slot_edit a f k : adapter_ok a -> 0 <= k < B41_HOST_QUEUE_SIZE -> count a < B41_HOST_QUEUE_SIZE ->
  at_slot (edit_slot (tail_slot a) f a) k = if k =? count a then f (at_slot a k) else at_slot a k.
Proof.
  intros Ha Hk Hc. rewrite (tail_slot_at a Ha). unfold at_slot. cbn [head edit_slot set_events].
  pose proof Ha as (Hh & Hc0 & Hl & _). unfold len in Hl. queue_consts.
  pose proof (Z.mod_pos_bound (head a + count a) 16). pose proof (Z.mod_pos_bound (head a + k) 16).
  rewrite slot_edit by lia. destruct (Z.eqb_spec k (count a)) as [-> |N]; [now rewrite Nat.eqb_refl|].
  destruct (Nat.eqb_spec (Z.to_nat ((head a + k) mod 16)) (Z.to_nat ((head a + count a) mod 16))) as [E|]; [|reflexivity].
  exfalso. apply N, (ring_index_inj (head a)); lia.
Qed.
Lemma slot_ok a n : adapter_ok a -> 0 <= n < B41_HOST_QUEUE_SIZE -> event_ok (slot a n).
Proof.
  intros (_ & _ & Hl & Hf) Hn. unfold slot, len in *. rewrite Forall_nth in Hf. apply Hf. lia.
Qed.
Lemma at_slot_ok a k : adapter_ok a -> event_ok (at_slot a k).
Proof. intros H. apply slot_ok; [exact H|]. queue_consts. apply Z.mod_pos_bound. lia. Qed.
Lemma head_at_slot a : adapter_ok a -> at_slot a 0 = slot a (head a).
Proof. intros (H & _). unfold at_slot. rewrite Z.add_0_r. now rewrite Z.mod_small by exact H. Qed.

(** A store to the slot behind the queue leaves the queue. *)
Lemma ring_edit a q f : ring a q -> count a < B41_HOST_QUEUE_SIZE -> (forall e, event_ok e -> event_ok (f e)) -> ring (edit_slot (tail_slot a) f a) q.
Proof.
  intros (Ha & Hl & Hq) Hc Hf. pose proof Ha as (Hh & Hc0 & Hn & He). split; [|split; [exact Hl|]].
  - split; [exact Hh|]. split; [exact Hc0|]. unfold len in *. cbn [events edit_slot set_events]. rewrite length_alter. split; [exact Hn|].
    apply Forall_alter; [exact He|]. intros x _ Hx. now apply Hf.
  - intros k m Hk. pose proof (lookup_lt_Some _ _ _ Hk). unfold len in Hl. rewrite at_slot_edit by (exact Ha || lia).
    rewrite (proj2 (Z.eqb_neq _ _)) by lia. now apply Hq.
Qed.
Lemma len_copied kind bytes length : request_ok (Enqueue kind bytes length) -> accepted (Enqueue kind bytes length) ->
  1 <= length <= B41_HOST_OUTPUT_MAX /\ len (copied bytes length) = length.
Proof.
  unfold accepted, bad_args, copied. destruct bytes as [b|]; [|discriminate]. intros [Hu Hb] Ha. specialize (Hb b eq_refl). cbv beta iota delta [default from_option id] in *.
  unfold is_u32 in Hu. queue_consts. rewrite len_take by lia. lia.
Qed.
Lemma view_copied e kind bytes length : request_ok (Enqueue kind bytes length) -> accepted (Enqueue kind bytes length) ->
  ev_kind e = kind -> ev_length e = length -> view (store_bytes (copied bytes length) e) = message_of (Enqueue kind bytes length).
Proof.
  intros Hr Ha <- <-. destruct (len_copied _ _ _ Hr Ha) as [_ Hl]. unfold view, store_bytes. cbn [ev_kind ev_length ev_bytes message_of]. f_equal.
  unfold write_at. change (firstn (Z.to_nat 0) (ev_bytes e)) with (@nil Z). rewrite app_nil_l. apply take_app_length'. unfold len in Hl. lia.
Qed.
Lemma store_bytes_ok e kind bytes length : request_ok (Enqueue kind bytes length) -> accepted (Enqueue kind bytes length) ->
  event_ok e -> event_ok (store_bytes (copied bytes length) e).
Proof.
  intros Hr Ha [He Hb]. destruct (len_copied _ _ _ Hr Ha) as [H1 Hl]. split; [exact He|]. cbn [ev_bytes store_bytes]. rewrite len_write_at; lia.
Qed.
(** Counting the filled slot extends the queue; moving [head] drops its first message. *)
Lemma ring_put a q : ring a q -> count a < B41_HOST_QUEUE_SIZE -> ring (set_count (u32 (count a + 1)) a) (q ++ [view (at_slot a (count a))]).
Proof.
  intros (Ha & Hl & Hq) Hc. pose proof Ha as (Hh & Hc0 & Hn & He). queue_consts. rewrite u32_id by (unfold is_u32; lia).
  split; [split; [exact Hh|]; split; [cbn [count set_count]; queue_consts; lia|]; split; [exact Hn|exact He]|].
  split; [rewrite len_app; change (len [_]) with 1; cbn [count set_count]; lia|].
  intros k m Hk. change (at_slot (set_count _ a) (Z.of_nat k)) with (at_slot a (Z.of_nat k)).
  destruct (decide (k < length q)%nat) as [L|L]; [rewrite lookup_app_l in Hk by exact L; now apply Hq|].
  rewrite lookup_app_r in Hk by lia. pose proof (lookup_lt_Some _ _ _ Hk) as L'. cbn in L'. replace (k - length q)%nat with 0%nat in Hk by lia.
  cbn in Hk. injection Hk as <-. unfold len in Hl. replace (Z.of_nat k) with (count a) by lia. reflexivity.
Qed.
Lemma ring_got a q : ring a q -> 0 < count a -> exists q', q = view (slot a (head a)) :: q' /\
  ring (set_count (count a - 1) (set_head (u32 (head a + 1) mod B41_HOST_QUEUE_SIZE) a)) q'.
Proof.
  intros (Ha & Hl & Hq) Hc. pose proof Ha as (Hh & Hc0 & Hn & He). destruct q as [|m q]; [rewrite len_nil in Hl; lia|]. exists q.
  split; [f_equal; rewrite <- (head_at_slot a Ha); symmetry; now apply (Hq 0%nat)|]. queue_consts. rewrite u32_id by (unfold is_u32; lia).
  split; [|split; [rewrite len_cons in Hl; cbn [count set_count]; lia|]].
  - split; [apply Z.mod_pos_bound; reflexivity|]. split; [cbn [count set_count]; queue_consts; lia|]. split; [exact Hn|exact He].
  - intros k x Hk. rewrite <- (Hq (S k) x Hk). unfold at_slot. cbn [head set_count set_head]. f_equal. queue_consts.
    rewrite Zplus_mod_idemp_l. change (slot (set_count _ _)) with (slot a). f_equal. f_equal. lia.
Qed.


(** ** One access *)

(** The lock and the error are not part of the queue. *)
Lemma held_error c a q e : held c a q -> held c (set_error e a) q.
Proof. destruct c as [r p o]. exact id. Qed.
Lemma held_lock c a q b : held c a q -> held c (set_lock b a) q.
Proof. destruct c as [r p o]. exact id. Qed.

(** The call that holds the lock: its access keeps what it knows, or hands the ring back. *)
Definition keeps (c : call) (w : world) (q : list message) (ls : list label) : Prop :=
  let '(c', w', l) := step c w in
  what c' = what c /\ (exists q', fifo_all q (option_list l) = Some q' /\
     (if holding (point_of c') then lock (adapter w') = true /\ held c' (adapter w') q'
      else lock (adapter w') = false /\ ring (adapter w') q')) /\
  effects c' (ls ++ option_list l).

Lemma fifo_full q : len q = B41_HOST_QUEUE_SIZE -> fifo_all q [Full] = Some q.
Proof. unfold len, fifo_all, fifo. intros ->. reflexivity. Qed.
Lemma fifo_put q m : len q < B41_HOST_QUEUE_SIZE -> fifo_all q [Put m] = Some (q ++ [m]).
Proof. unfold len, fifo_all, fifo. intros H%Z.ltb_lt. now rewrite H. Qed.
Lemma fifo_got q m : fifo_all (m :: q) [Got m] = Some q.
Proof. unfold fifo_all, fifo. now rewrite decide_True. Qed.
Lemma fifo_all_app q ls1 ls2 : fifo_all q (ls1 ++ ls2) = fifo_all q ls1 ≫= fun q => fifo_all q ls2.
Proof. revert q. induction ls1 as [|l ls1 IH]; intros q; [reflexivity|]. cbn. destruct (fifo q l) as [q'|]; [apply IH|reflexivity]. Qed.

Ltac holder_step := unfold keeps; cbn -[ring fifo_all Z.sub copied edit_slot tail_slot take_copy] in *.
Ltac finish_step := split; [reflexivity|]; rewrite ?app_nil_r; split; [eexists; split; [reflexivity|]|].

Lemma step_producer kind bytes length p o w q ls : let c := Call (Enqueue kind bytes length) p o in
  held c (adapter w) q -> holding p = true -> request_ok (what c) -> effects c ls -> lock (adapter w) = true -> keeps c w q ls.
Proof.
  destruct w as [b a]. intros c. subst c. destruct p; try discriminate; intros Hh _ Hr He Hk; try contradiction.
  - holder_step. destruct He as [Ha ->]. destruct (Z.eqb_spec (count a) B41_HOST_QUEUE_SIZE) as [E|N].
    + split; [reflexivity|]. split; [|reflexivity]. exists q. destruct Hh as (Hok & Hl & Hq).
      split; [apply fifo_full; lia|]. split; [exact Hk|]. split; [exact Hok|]. now split.
    + finish_step; [|now split]. split; [exact Hk|]. split; [exact Hh|]. destruct Hh as ((_ & Hc & _) & _). cbn. queue_consts. lia.
  - holder_step. finish_step; [now split|exact He].
  - holder_step. destruct Hh as [Hg Hc]. finish_step; [|exact He]. split; [exact Hk|]. split.
    { split; [|exact Hc]. apply ring_edit; [exact Hg|exact Hc|]. now intros e [H1 H2]. }
    destruct Hg as (Hok & _). split; [reflexivity|]. change (count (edit_slot _ _ a)) with (count a).
    rewrite at_slot_edit by (exact Hok || destruct Hok as (_ & ? & _); lia). now rewrite Z.eqb_refl.
  - holder_step. destruct Hh as ((Hg & Hc) & -> & Hkind). pose proof (len_copied kind bytes length Hr (proj1 He)) as [Hlen _]. finish_step; [|exact He]. split; [exact Hk|]. split.
    { split; [|exact Hc]. apply ring_edit; [exact Hg|exact Hc|]. intros e [H1 H2]. split; [cbn; lia|exact H2]. }
    destruct Hg as (Hok & _). split; [reflexivity|]. change (count (edit_slot _ _ a)) with (count a).
    rewrite at_slot_edit by (exact Hok || destruct Hok as (_ & ? & _); lia). rewrite Z.eqb_refl. now split.
  - holder_step. destruct Hh as ((Hg & Hc) & -> & Hkind & Hlen). finish_step; [|exact He]. split; [exact Hk|]. split.
    { split; [|exact Hc]. apply ring_edit; [exact Hg|exact Hc|]. intros e. now apply (store_bytes_ok _ kind bytes length Hr (proj1 He)). }
    destruct Hg as (Hok & _). change (count (edit_slot _ _ a)) with (count a).
    rewrite at_slot_edit by (exact Hok || destruct Hok as (_ & ? & _); lia). rewrite Z.eqb_refl. exact (view_copied _ kind bytes length Hr (proj1 He) Hkind Hlen).
  - holder_step. destruct Hh as ((Hg & Hc) & Hv), He as [_ ->]. split; [reflexivity|]. split; [|reflexivity].
    exists (q ++ [view (at_slot a (count a))]). split; [|split; [exact Hk|now apply ring_put]]. rewrite Hv. apply fifo_put. now rewrite (proj1 (proj2 Hg)).
  - holder_step. finish_step; [now split|exact He].
Qed.

Lemma skipn_zeros n (k : nat) : skipn k (zeros n) = zeros (n - Z.of_nat k).
Proof.
  unfold zeros. replace (Z.to_nat (n - Z.of_nat k)) with (Z.to_nat n - k)%nat by lia. generalize (Z.to_nat n) as m.
  induction k as [|k IH]; intros m; [now rewrite Nat.sub_0_r|]. destruct m as [|m]; [reflexivity|]. apply IH.
Qed.
Lemma take_copy_delivered e : event_ok e -> take_copy e = delivered (view e).
Proof.
  intros [Hl Hb]. unfold take_copy, delivered, view, write_at. cbn [ev_kind ev_length ev_bytes fst snd zero_event].
  change (firstn (Z.to_nat 0) (zeros B41_HOST_OUTPUT_MAX)) with (@nil Z). rewrite app_nil_l. unfold len in Hb.
  assert (E : length (firstn (Z.to_nat (ev_length e)) (ev_bytes e)) = Z.to_nat (ev_length e)) by (rewrite length_firstn; lia).
  unfold len. rewrite E, Z2Nat.id by lia. rewrite skipn_zeros. do 3 f_equal. lia.
Qed.
Lemma view_take_copy e : event_ok e -> view (take_copy e) = view e.
Proof.
  intros [Hl Hb]. unfold view, take_copy. cbn [ev_kind ev_length ev_bytes]. f_equal. unfold write_at. change (firstn (Z.to_nat 0) (ev_bytes zero_event)) with (@nil Z).
  rewrite app_nil_l. apply take_app_length'. unfold len in Hb. rewrite length_firstn. lia.
Qed.
Lemma step_consumer p o w q ls : let c := Call Take p o in
  held c (adapter w) q -> holding p = true -> effects c ls -> lock (adapter w) = true -> keeps c w q ls.
Proof.
  destruct w as [b a]. intros c. subst c. destruct p; try discriminate; intros Hh _ He Hk; try contradiction.
  - holder_step. subst ls. destruct (Z.eqb_spec (count a) 0) as [E|N].
    + split; [reflexivity|]. split; [|reflexivity]. exists q. split; [|now split]. destruct Hh as (_ & Hl & _). destruct q; [reflexivity|].
      rewrite len_cons in Hl. pose proof (len_nonneg q). lia.
    + finish_step; [|reflexivity]. split; [exact Hk|]. split; [exact Hh|]. destruct Hh as ((_ & Hc & _) & _). cbn. lia.
  - holder_step. finish_step; [now split|]. right. left. now split.
  - holder_step. finish_step; [now split|exact He].
  - holder_step. destruct Hh as [Hf ->]. finish_step; [now split|exact He].
  - holder_step. destruct Hh as [Hf ->]. finish_step; [now split|exact He].
  - holder_step. destruct Hh as [Hf ->]. finish_step; [now split|exact He].
  - holder_step. destruct Hh as [[Hg Hc] ->]. subst ls. pose proof Hg as (Hok & _). assert (He : event_ok (slot a (head a))) by (apply slot_ok; apply Hok).
    destruct (ring_got a q Hg Hc) as (q' & -> & Hg'). rewrite (view_take_copy _ He).
    split; [reflexivity|]. split; [exists q'; split; [apply fifo_got|split; [exact Hk|split; [exact Hg'|exact Hc]]]|].
    exists (view (slot a (head a))). split; [reflexivity|]. now apply take_copy_delivered.
  - holder_step. destruct Hh as [Hg Hc]. finish_step; [|exact He]. split; [exact Hk|]. rewrite u32_id; [exact Hg|].
    destruct Hg as ((_ & Hn & _) & _). cbn in Hn. queue_consts. unfold is_u32. lia.
  - holder_step. finish_step; [now split|]. left. now split.
Qed.
Lemma step_holder c w q ls : held c (adapter w) q -> holding (point_of c) = true -> request_ok (what c) -> effects c ls ->
  lock (adapter w) = true -> keeps c w q ls.
Proof.
  destruct c as [[kind bytes length|error|] p o]; intros Hh Hp Hr He Hk; [now apply step_producer| |now apply step_consumer].
  destruct p; cbn in *; contradiction || discriminate.
Qed.

(** A call without the lock touches only the error, or takes the free lock. *)
Definition error_only (a a' : b41_host_adapter) : Prop := a' = a \/ exists e, a' = set_error e a.
Lemma cas_error_only e w : let '(status, w') := cas_error e w in error_only (adapter w) (adapter w') /\ bound w' = bound w /\ (e <> 0 -> status <> 0).
Proof.
  unfold cas_error, error_only. destruct (Z.eqb_spec (first_error (adapter w)) 0); cbn; [|now auto]. split; [right; now exists e|]. now split.
Qed.
Lemma step_free c w ls : holding (point_of c) = false -> effects c ls ->
  let '(c', w', l) := step c w in
  what c' = what c /\ l = None /\ effects c' ls /\
  ((holding (point_of c') = false /\ error_only (adapter w) (adapter w')) \/
   (lock (adapter w) = false /\ adapter w' = set_lock true (adapter w) /\ holding (point_of c') = true /\
    forall q, ring (adapter w) q -> held c' (adapter w') q)).
Proof.
  intros Hp He. destruct c as [r p o]. cbn in Hp.
  destruct r as [kind bytes length|error|], p; try discriminate; cbn in He; try contradiction.
  all: unfold step; cbn [point_of what out].
  all: try match goal with |- context [cas_error ?e ?v] => pose proof (cas_error_only e v) as X; destruct (cas_error e v) as [st w'] end.
  all: repeat match goal with |- context [if ?b then _ else _] => let G := fresh "G" in destruct b eqn:G end.
  all: cbn; split; [reflexivity|]; split; [reflexivity|]; split; [|solve [right; auto|left; split; [reflexivity|now left]|left; split; [reflexivity|apply X]]].
  all: try solve [assumption|tauto|split; [discriminate|tauto]].
  all: match goal with |- context [if ?s =? 0 then _ else _] => destruct (Z.eqb_spec s 0) as [Z0|_]; [exfalso|tauto] end.
  - discriminate.
  - discriminate.
  - destruct X as (_ & _ & X). now apply X.
  - destruct He as [He _], X as (_ & _ & X). now apply X.
Qed.

(** ** Every schedule *)

Lemma effects_of_app i h h' : effects_of i (h ++ h') = effects_of i h ++ effects_of i h'.
Proof. unfold effects_of. now rewrite filter_app, fmap_app. Qed.
Lemma effects_of_own i (l : option label) : effects_of i (option_list (pair i <$> l)) = option_list l.
Proof. destruct l; [|reflexivity]. unfold effects_of. cbn. now rewrite decide_True. Qed.
Lemma effects_of_other i j (l : option label) : i <> j -> effects_of i (option_list (pair j <$> l)) = [].
Proof. intros N. destruct l; [|reflexivity]. unfold effects_of. cbn. now rewrite decide_False by congruence. Qed.
Lemma labels_own (i : nat) (l : option label) : (option_list (pair i <$> l)).*2 = option_list l.
Proof. now destruct l. Qed.

Definition requests_ok (s : system) : Prop := forall i c, calls s !! i = Some c -> request_ok (what c).

(** The turn of call [i], from what its access did. *)
Lemma turn_invariant s i c c' w l q q' h h' :
  invariant s q h -> calls s !! i = Some c -> step c (state s) = (c', w, l) ->
  fifo_all q (option_list l) = Some q' -> lock (adapter w) = bool_decide (is_Some h') ->
  holding (point_of c') = bool_decide (h' = Some i) -> (forall j, j <> i -> h' = Some j <-> h = Some j) ->
  (forall j c0, j <> i -> h = Some j -> held c0 (adapter (state s)) q -> held c0 (adapter w) q') ->
  (h' = Some i -> held c' (adapter w) q') -> (h' = None -> ring (adapter w) q') ->
  effects c' (effects_of i (history s) ++ option_list l) -> invariant (turn s i) q' h'.
Proof.
  intros [Hl Hk Hx Hs He] Hc Hst Hq Hk' Hi Hj Hframe Hme Hnone Heff. unfold turn. rewrite Hc, Hst.
  assert (Hlt : (i < length (calls s))%nat) by (eapply lookup_lt_Some; exact Hc).
  split; cbn [calls state history].
  - rewrite fmap_app, fifo_all_app, Hl, labels_own. exact Hq.
  - exact Hk'.
  - intros j cj. destruct (decide (j = i)) as [-> |N].
    + rewrite list_lookup_insert_eq by exact Hlt. now intros [= <-].
    + rewrite list_lookup_insert_ne by congruence. intros Hcj. rewrite (Hx j cj Hcj). apply bool_decide_ext. now rewrite Hj.
  - destruct h' as [j|]; [|now apply Hnone]. destruct (decide (j = i)) as [-> |N].
    + exists c'. split; [now apply list_lookup_insert_eq|now apply Hme].
    + assert (Hh : h = Some j) by now apply Hj. rewrite Hh in Hs. destruct Hs as (cj & Hcj & Hheld). exists cj.
      split; [rewrite list_lookup_insert_ne by congruence; exact Hcj|]. now apply (Hframe j).
  - intros j cj. rewrite effects_of_app. destruct (decide (j = i)) as [-> |N].
    + rewrite list_lookup_insert_eq by exact Hlt. intros [= <-]. now rewrite effects_of_own.
    + rewrite list_lookup_insert_ne by congruence. intros Hcj. rewrite effects_of_other, app_nil_r by exact N. now apply He.
Qed.

Lemma turn_step s q h i : requests_ok s -> invariant s q h -> requests_ok (turn s i) /\ exists q' h', invariant (turn s i) q' h'.
Proof.
  intros Hr Hinv. destruct (calls s !! i) as [c|] eqn:Hc; [|unfold turn; rewrite Hc; eauto].
  pose proof (inv_excl _ _ _ Hinv i c Hc) as Hx. pose proof (inv_effects _ _ _ Hinv i c Hc) as He. pose proof (inv_lock _ _ _ Hinv) as Hk.
  pose proof (inv_state _ _ _ Hinv) as Hst. destruct (step c (state s)) as [[c' w] l] eqn:Es.
  assert (Hwhat : what c' = what c -> requests_ok (turn s i)).
  { intros E j cj. unfold turn. rewrite Hc, Es. cbn [calls]. destruct (decide (j = i)) as [-> |N].
    - rewrite list_lookup_insert_eq by (eapply lookup_lt_Some; exact Hc). intros [= <-]. rewrite E. now apply (Hr i).
    - rewrite list_lookup_insert_ne by congruence. apply Hr. }
  destruct (holding (point_of c)) eqn:Hp.
  - symmetry in Hx. apply bool_decide_eq_true in Hx. subst h. destruct Hst as (c0 & Hc0 & Hheld). rewrite Hc in Hc0. injection Hc0 as <-.
    pose proof (step_holder c (state s) q _ Hheld Hp (Hr i c Hc) He Hk) as X. unfold keeps in X. rewrite Es in X.
    destruct X as (Hw & (q' & Hq & Hcase) & Heff). split; [now apply Hwhat|]. exists q'.
    destruct (holding (point_of c')) eqn:Hp'; destruct Hcase as [Hlk Hown]; [exists (Some i)|exists None];
      eapply turn_invariant; try eassumption; try (intros; congruence); auto.
    + now rewrite bool_decide_eq_true_2.
    + split; congruence.
  - symmetry in Hx. apply bool_decide_eq_false in Hx.
    pose proof (step_free c (state s) _ Hp He) as X. rewrite Es in X. destruct X as (Hw & -> & Heff & Hcase). split; [now apply Hwhat|]. exists q.
    destruct Hcase as [[Hp' Herr]|(Hlk & Ha & Hp' & Hheld)].
    + exists h. assert (Hsame : lock (adapter w) = lock (adapter (state s))) by now destruct Herr as [-> | [e ->]].
      eapply turn_invariant; try eassumption; try reflexivity.
      * now rewrite Hsame.
      * rewrite Hp'. symmetry. now apply bool_decide_eq_false.
      * intros j c0 _ _ H. destruct Herr as [-> | [e ->]]; [exact H|now apply held_error].
      * congruence.
      * intros ->. now destruct Herr as [-> | [e ->]].
      * now rewrite app_nil_r.
    + rewrite Hk in Hlk. apply bool_decide_eq_false in Hlk. destruct h as [j|]; [destruct Hlk; now eexists|].
      exists (Some i). eapply turn_invariant; try eassumption; try reflexivity; try (intros; congruence).
      * now rewrite Ha.
      * rewrite Hp'. symmetry. now apply bool_decide_eq_true.
      * split; congruence.
      * intros _. now apply Hheld.
      * now rewrite app_nil_r.
Qed.

Lemma boot_invariant rs w : Forall request_ok rs -> lock (adapter w) = false -> ring (adapter w) [] ->
  requests_ok (boot rs w) /\ invariant (boot rs w) [] None.
Proof.
  intros Hr Hl Hg. assert (Hlook : forall i c, calls (boot rs w) !! i = Some c -> exists r, rs !! i = Some r /\ c = start r).
  { intros i c. cbn. rewrite list_lookup_fmap. destruct (rs !! i); intros [= <-]; eauto. }
  split.
  - intros i c (r & Hi & ->)%Hlook. rewrite Forall_lookup in Hr. now apply (Hr i).
  - split; [reflexivity|exact Hl| |exact Hg|]; intros i c (r & _ & ->)%Hlook; destruct r; reflexivity.
Qed.
Lemma run_invariant schedule s q h : requests_ok s -> invariant s q h -> exists q' h', invariant (run schedule s) q' h'.
Proof.
  revert s q h. induction schedule as [|i schedule IH]; intros s q h Hr Hi; [eauto|].
  destruct (turn_step s q h i Hr Hi) as (Hr' & q' & h' & Hi'). now apply (IH (turn s i) q' h').
Qed.

(** *** Claims about the queue *)

(** C5. Whatever callbacks the engine threads run, whatever takes the worker runs, and
    however their accesses interleave: the accesses at which calls take effect form
    a history of a first-in first-out queue of at most sixteen messages; a call
    that reports success put exactly its bytes in, or got exactly the oldest
    message, zero padded; one that found the queue full or empty was right; and
    every other outcome has no effect on the queue. *)
Theorem host_queue_linearizable rs w schedule :
  Forall request_ok rs -> lock (adapter w) = false -> ring (adapter w) [] ->
  let s := run schedule (boot rs w) in
  (exists q, fifo_all [] (history s).*2 = Some q) /\
  (forall i c status, calls s !! i = Some c -> point_of c = Done status -> outcome (what c) status (out c) (effects_of i (history s))) /\
  (forall i j c d, calls s !! i = Some c -> calls s !! j = Some d -> holding (point_of c) = true -> holding (point_of d) = true -> i = j).
Proof.
  intros Hr Hl Hg s. destruct (boot_invariant rs w Hr Hl Hg) as [Hok Hinv]. destruct (run_invariant schedule _ _ _ Hok Hinv) as (q & h & [Ha _ Hx _ He]).
  split; [now exists q|]. split.
  - intros i c status Hc Hp. specialize (He i c Hc). destruct c as [r p o]. cbn in Hp. subst p. destruct r; exact He.
  - intros i j c d Hc Hd Hi Hj. rewrite (Hx i c Hc) in Hi. rewrite (Hx j d Hd) in Hj. apply bool_decide_eq_true in Hi, Hj. congruence.
Qed.

(** Sixteen messages at most are pending: what the history admits. *)
Lemma fifo_bounded q ls q' : fifo_all q ls = Some q' -> len q <= B41_HOST_QUEUE_SIZE -> len q' <= B41_HOST_QUEUE_SIZE.
Proof.
  revert q. induction ls as [|l ls IH]; intros q; [now intros [= <-]|]. cbn [fifo_all]. destruct (fifo q l) as [q1|] eqn:E; [|discriminate].
  intros H Hq. apply (IH q1 H). destruct l; cbn in E; repeat case_match; simplify_eq; rewrite ?len_app, ?len_cons, ?len_nil in *; unfold len in *; lia.
Qed.

Definition rank (p : point) : nat :=
  match p with
  | AtBound => 10 | AtError => 9 | AtArgs => 8 | AtLock => 7 | AtFull => 6 | AtKind => 5 | AtLength _ => 4 | AtCopy _ => 3 | AtCount => 2 | AtUnlock => 1
  | AtFullUnlock => 2 | AtFullFail => 1 | AtRefuse => 2 | AtFail _ => 1
  | TakeLock => 9 | TakeEmpty => 8 | TakeClear => 7 | TakeKind => 6 | TakeLength => 5 | TakeCopy => 4 | TakeHead => 3 | TakeCount => 2 | TakeUnlock => 1
  | TakeEmptyUnlock => 1 | Done _ => 0
  end.
Lemma step_rank c w ls : effects c ls -> (rank (point_of (step c w).1.1) <= rank (point_of c) - 1)%nat.
Proof.
  intros He. destruct c as [r p o], r as [kind bytes length|error|], p; cbn in He; try contradiction; unfold step, cas_error; cbn [point_of what out];
    repeat match goal with |- context [if ?b then _ else _] => destruct b end; cbn; lia.
Qed.
Lemma turn_rank s q h i c : requests_ok s -> invariant s q h -> calls s !! i = Some c -> forall j, exists c',
  calls (turn s j) !! i = Some c' /\ (rank (point_of c') <= rank (point_of c) - (if decide (j = i) then 1 else 0))%nat.
Proof.
  intros Hr Hi Hc j. unfold turn. destruct (calls s !! j) as [d|] eqn:Hd.
  2:{ exists c. split; [exact Hc|]. rewrite decide_False by congruence. lia. }
  destruct (step d (state s)) as [[d' w] l] eqn:E. cbn [calls]. destruct (decide (j = i)) as [-> |N].
  - rewrite Hc in Hd. injection Hd as <-. exists d'. split; [apply list_lookup_insert_eq; eapply lookup_lt_Some; exact Hc|].
    pose proof (step_rank c (state s) _ (inv_effects _ _ _ Hi i c Hc)) as X. now rewrite E in X.
  - exists c. split; [now rewrite list_lookup_insert_ne by congruence|lia].
Qed.
Lemma run_rank schedule s q h i c : requests_ok s -> invariant s q h -> calls s !! i = Some c -> exists c',
  calls (run schedule s) !! i = Some c' /\ (rank (point_of c') <= rank (point_of c) - length (filter (fun j => j = i) schedule))%nat.
Proof.
  revert s q h c. induction schedule as [|j schedule IH]; intros s q h c Hr Hi Hc; [exists c; split; [exact Hc|cbn; lia]|].
  destruct (turn_rank s q h i c Hr Hi Hc j) as (c1 & Hc1 & Hle). destruct (turn_step s q h j Hr Hi) as (Hr' & q' & h' & Hi').
  destruct (IH (turn s j) q' h' c1 Hr' Hi' Hc1) as (c2 & Hc2 & Hle2). exists c2. split; [exact Hc2|].
  rewrite filter_cons. destruct (decide (j = i)); cbn [length]; lia.
Qed.

(** No call waits for another: after ten of its own turns, whatever the other
    calls do in between, a callback or a take has returned. *)
Theorem host_calls_wait_free rs w schedule i :
  Forall request_ok rs -> lock (adapter w) = false -> ring (adapter w) [] -> (i < length rs)%nat ->
  (10 <= length (filter (fun j => j = i) schedule))%nat ->
  exists c status, calls (run schedule (boot rs w)) !! i = Some c /\ point_of c = Done status.
Proof.
  intros Hr Hl Hg Hi Hn. destruct (boot_invariant rs w Hr Hl Hg) as [Hok Hinv].
  destruct (lookup_lt_is_Some_2 rs i Hi) as [r Hri]. assert (Hc : calls (boot rs w) !! i = Some (start r)) by (cbn; now rewrite list_lookup_fmap, Hri).
  destruct (run_rank schedule _ _ _ i _ Hok Hinv Hc) as (c & Hc' & Hle). exists c.
  assert (Hz : rank (point_of c) = 0%nat) by (destruct r; cbn in Hle; lia). destruct c as [r' [] o]; cbn in Hz; try discriminate. now eexists.
Qed.

(** The first error stays, and it is what every refused callback returns. *)
Definition reports_first (s : system) : Prop :=
  bound (state s) = true -> forall i c status, calls s !! i = Some c -> what c <> Take -> point_of c = Done status -> status <> 0 ->
  status = first_error (adapter (state s)).
Lemma step_error c w : let '(c', w', _) := step c w in
  what c' = what c /\ bound w' = bound w /\ (first_error (adapter w) <> 0 -> first_error (adapter w') = first_error (adapter w)) /\
  (forall status, bound w = true -> what c <> Take -> point_of c' = Done status -> status <> 0 -> status = first_error (adapter w') \/ point_of c = Done status).
Proof.
  destruct c as [r p o], w as [b a]. destruct r as [kind bytes length|error|], p; unfold step, cas_error, with_adapter; cbn [point_of what out bound adapter];
    repeat match goal with |- context [if ?b then _ else _] => let G := fresh "G" in destruct b eqn:G end;
    cbn; (split; [reflexivity|]); (split; [reflexivity|]); (split; [try (intros; reflexivity || lia)|]);
    intros st Hb Ht E Hz; try discriminate; try (injection E as <-); try lia; try tauto; auto.
Qed.
Lemma run_error schedule s : reports_first s -> reports_first (run schedule s) /\ bound (state (run schedule s)) = bound (state s) /\
  (first_error (adapter (state s)) <> 0 -> first_error (adapter (state (run schedule s))) = first_error (adapter (state s))).
Proof.
  revert s. induction schedule as [|i schedule IH]; intros s Hs; [now split|].
  enough (X : reports_first (turn s i) /\ bound (state (turn s i)) = bound (state s) /\
    (first_error (adapter (state s)) <> 0 -> first_error (adapter (state (turn s i))) = first_error (adapter (state s)))).
  { destruct X as (H1 & H2 & H3). destruct (IH _ H1) as (H4 & H5 & H6). split; [exact H4|]. split; [now rewrite <- H2|].
    intros Hne. rewrite <- (H3 Hne). apply H6. now rewrite (H3 Hne). }
  unfold turn. destruct (calls s !! i) as [c|] eqn:Hc; [|now split]. pose proof (step_error c (state s)) as X.
  destruct (step c (state s)) as [[c' w] l]. destruct X as (Hw & Hb & Hk & Hd). cbn [state]. split; [|now split].
  intros Hbound j d status. cbn [calls state] in *. rewrite Hb in Hbound. destruct (decide (j = i)) as [-> |N].
  - rewrite list_lookup_insert_eq by (eapply lookup_lt_Some; exact Hc). intros [= <-] Ht Hp Hz. rewrite Hw in Ht.
    destruct (Hd status Hbound Ht Hp Hz) as [E|E]; [exact E|]. pose proof (Hs Hbound i c status Hc Ht E Hz) as E'. rewrite Hk; congruence.
  - rewrite list_lookup_insert_ne by congruence. intros Hj Ht Hp Hz. pose proof (Hs Hbound j d status Hj Ht Hp Hz) as E. rewrite Hk; congruence.
Qed.

(** C14. Once the adapter is bound, every callback that is refused, under every
    schedule, returns one and the same error: the first one recorded, which
    no later refusal replaces. *)
Theorem host_first_error rs w schedule later :
  bound w = true ->
  let s := run schedule (boot rs w) in let s' := run later s in
  (forall i c status, calls s' !! i = Some c -> what c <> Take -> point_of c = Done status -> status <> 0 ->
     status = b41_host_adapter_error (Some (adapter (state s')))) /\
  (b41_host_adapter_error (Some (adapter (state s))) <> 0 ->
     b41_host_adapter_error (Some (adapter (state s'))) = b41_host_adapter_error (Some (adapter (state s)))).
Proof.
  intros Hb s s'. assert (H0 : reports_first (boot rs w)).
  { intros _ i c status Hc _. cbn in Hc. rewrite list_lookup_fmap in Hc. destruct (rs !! i) as [[]|]; simplify_eq/=; discriminate. }
  destruct (run_error schedule _ H0) as (H1 & B1 & _). destruct (run_error later s H1) as (H2 & B2 & M). split; [|exact M].
  apply H2. unfold s'. rewrite B2. unfold s. now rewrite B1.
Qed.

(** ** A call that runs alone *)
Definition alone (r : request) (w : world) : system := run (repeat 0%nat 10) (boot [r] w).
Definition result_of (s : system) : option (Z * b41_host_event) :=
  match calls s with [c] => match point_of c with Done status => Some (status, out c) | _ => None end | _ => None end.

Fixpoint solo (n : nat) (c : call) (w : world) : call * world :=
  match n with O => (c, w) | S n => solo n (step c w).1.1 (step c w).1.2 end.
Lemma run_solo n c w h : exists h', run (repeat 0%nat n) (System [c] w h) = System [(solo n c w).1] (solo n c w).2 h'.
Proof.
  revert c w h. induction n as [|n IH]; intros c w h; [now exists h|]. cbn [run repeat foldl solo]. unfold turn at 2. cbn.
  destruct (step c w) as [[c' w'] l]. apply IH.
Qed.
Lemma solo_step n c w c' w' l : step c w = (c', w', l) -> solo (S n) c w = solo n c' w'.
Proof. intros H. cbn [solo]. now rewrite H. Qed.
Lemma solo_done n c w status : point_of c = Done status -> solo n c w = (c, w).
Proof. intros H. induction n as [|n IH]; [reflexivity|]. rewrite <- IH. destruct c as [[] p o]; cbn in H; subst p; cbn; now rewrite IH. Qed.
Lemma alone_solo r w : state (alone r w) = (solo 10 (start r) w).2 /\
  result_of (alone r w) = match point_of (solo 10 (start r) w).1 with Done status => Some (status, out (solo 10 (start r) w).1) | _ => None end.
Proof. unfold alone. change (boot [r] w) with (System [start r] w []). destruct (run_solo 10 (start r) w []) as [h ->]. now split. Qed.

Ltac solo_next := erewrite solo_step by (unfold step; cbn [point_of what out bound adapter first_error lock count head with_adapter set_lock set_count set_head]; unfold cas_error; cbn [adapter first_error with_adapter set_lock];
  repeat match goal with H : _ = _ :> bool |- _ => rewrite H end; reflexivity).
Ltac solo_all := cbn [start entry]; repeat (first [rewrite (solo_done _ (Call _ (Done _) _) _ _ eq_refl) | solo_next]).
Lemma enqueue_solo kind bytes length w :
  exists e, solo 10 (start (Enqueue kind bytes length)) w = (Call (Enqueue kind bytes length) (Done (enqueue kind bytes length w).1) e, (enqueue kind bytes length w).2).
Proof.
  destruct w as [b [k e h n l]]. exists zero_event. unfold enqueue, fail, start. cbn [bound adapter first_error lock count].
  destruct b; cbn [negb]; [|now solo_all]. destruct (e =? 0) eqn:E; cbn [negb]; [|now solo_all].
  destruct (bad_args bytes length) eqn:B; [now solo_all|]. destruct k; [now solo_all|].
  destruct (n =? B41_HOST_QUEUE_SIZE) eqn:N; now solo_all.
Qed.
Lemma refuse_solo error w : exists e, solo 10 (start (Refuse error)) w = (Call (Refuse error) (Done (fail w error).1) e, (fail w error).2).
Proof.
  destruct w as [b [k e h n l]]. exists zero_event. unfold fail, start. cbn [bound adapter first_error]. destruct b; [|now solo_all].
  destruct (e =? 0) eqn:E; now solo_all.
Qed.
Lemma take_solo w : adapter_ok (adapter w) -> let '(status, e, a) := b41_host_adapter_take true true (adapter w) in
  exists e', solo 10 (start Take) w = (Call Take (Done status) e', World (bound w) a) /\ (status = 0 -> e = Some e').
Proof.
  destruct w as [b [k e h n l]]. intros (_ & Hn & _). cbn in Hn. unfold b41_host_adapter_take, start. cbn [bound adapter lock count negb orb].
  destruct k; [eexists; split; [now solo_all|discriminate]|]. destruct (n =? 0) eqn:N; [eexists; split; [now solo_all|discriminate]|].
  eexists. split; [solo_all; cbn [adapter with_adapter count set_count set_head set_lock]; rewrite (u32_id (n - 1)) by (unfold is_u32; queue_consts; lia); reflexivity|]. reflexivity.
Qed.

(** The machines are the source's functions: a callback or a take that no other
    call interrupts ends in the state, with the status and with the event that
    [enqueue], [fail] and [b41_host_adapter_take] give. *)
Theorem host_calls_sequential w : adapter_ok (adapter w) ->
  (forall kind bytes length, let s := alone (Enqueue kind bytes length) w in
     state s = (enqueue kind bytes length w).2 /\ exists e, result_of s = Some ((enqueue kind bytes length w).1, e)) /\
  (forall error, let s := alone (Refuse error) w in
     state s = (fail w error).2 /\ exists e, result_of s = Some ((fail w error).1, e)) /\
  (let s := alone Take w in let '(status, e, a) := b41_host_adapter_take true true (adapter w) in
     state s = World (bound w) a /\ exists e', result_of s = Some (status, e') /\ (status = 0 -> e = Some e')).
Proof.
  intros Hok. split; [|split].
  - intros kind bytes length s. unfold s. destruct (alone_solo (Enqueue kind bytes length) w) as [-> ->].
    destruct (enqueue_solo kind bytes length w) as [e ->]. cbn. eauto.
  - intros error s. unfold s. destruct (alone_solo (Refuse error) w) as [-> ->]. destruct (refuse_solo error w) as [e ->]. cbn. eauto.
  - cbn zeta. destruct (alone_solo Take w) as [-> ->]. pose proof (take_solo w Hok) as X.
    destruct (b41_host_adapter_take true true (adapter w)) as [[status e] a]. destruct X as (e' & -> & He). cbn. eauto.
Qed.

(** ** Witnesses *)

(** The adapter after [b41_host_adapter_init] and [b41_host_adapter_bind]. *)
Definition bound_world : world :=
  (b41_host_adapter_bind true true (b41_host_adapter_init true (World false (Adapter true 7 3 9 (repeat zero_event 16)))).2).2.
Lemma bound_world_ring : ring (adapter bound_world) [].
Proof.
  split; [|split; [reflexivity|intros k m; now rewrite lookup_nil]]. split; [split; vm_compute; congruence|]. split; [split; vm_compute; congruence|].
  split; [reflexivity|]. apply Forall_forall. intros e He%list_elem_of_In%repeat_spec. subst e. split; [split; vm_compute; congruence|reflexivity].
Qed.
Definition two_producers : list request := [Enqueue B41_HOST_OUTPUT (Some [36; 71; 80]) 3; Take; Enqueue B41_HOST_APP_OUTPUT (Some [1]) 1; Take].
(** The second producer meets the lock the first one holds and is refused. *)
Definition contention : list nat := [0; 0; 0; 0; 0; 0; 2; 2; 2; 2; 2; 0; 0; 0; 0; 1; 1; 1; 1; 1; 1; 1; 1; 1; 3; 3; 3]%nat.
Lemma two_producers_ok : Forall request_ok two_producers.
Proof. repeat (apply List.Forall_cons; [first [exact I|split; [split; vm_compute; congruence|intros b [= <-]; vm_compute; congruence]]|]). apply List.Forall_nil. Qed.

Lemma host_queue_linearizable_witness :
  (history (run contention (boot two_producers bound_world))).*2 = [Put (2, [36; 71; 80]); Got (2, [36; 71; 80]); Empty] /\
  exists q, fifo_all [] (history (run contention (boot two_producers bound_world))).*2 = Some q.
Proof.
  split; [vm_compute; reflexivity|].
  exact (proj1 (host_queue_linearizable two_producers bound_world contention two_producers_ok eq_refl bound_world_ring)).
Defined.
Lemma host_calls_wait_free_witness :
  exists c status, calls (run (repeat 2%nat 10) (boot two_producers bound_world)) !! 2%nat = Some c /\ point_of c = Done status.
Proof.
  apply (host_calls_wait_free two_producers bound_world (repeat 2%nat 10) 2 two_producers_ok eq_refl bound_world_ring); vm_compute; lia.
Defined.
Lemma host_first_error_witness :
  b41_host_adapter_error (Some (adapter (state (run contention (boot two_producers bound_world))))) = - EBUSY /\
  forall i c status, calls (run [0%nat] (run contention (boot two_producers bound_world))) !! i = Some c -> what c <> Take ->
    point_of c = Done status -> status <> 0 ->
    status = b41_host_adapter_error (Some (adapter (state (run [0%nat] (run contention (boot two_producers bound_world)))))).
Proof.
  split; [vm_compute; reflexivity|]. exact (proj1 (host_first_error two_producers bound_world contention [0%nat] eq_refl)).
Defined.
Lemma host_calls_sequential_witness : state (alone (Enqueue 2 (Some [5]) 1) bound_world) = (enqueue 2 (Some [5]) 1 bound_world).2.
Proof. exact (proj1 (proj1 (host_calls_sequential bound_world (proj1 bound_world_ring)) 2 (Some [5]) 1)). Defined.
