(* ===== verification/HostText.v ===== *)
(** * What the host adapter writes

    The reversible byte codec of the engine's log ([b41_byte_codec.h]), the
    sentences that ask for frame synchronisation ([b41_frame_sync.h]), the
    callbacks of [b41_startup_adapter.c] that use them, and the setters of the
    second configuration block. *)

From stdpp Require Import strings.
From S2P Require Import Prelude HostQueue.

(** ** The byte codec

    Source and destination are two runs of one memory: they may be the same
    buffer or overlap, and the loop goes forward. *)

Definition codec_byte (decode : bool) (value : Z) : Z :=
  if decode then u8 (Z.lor (Z.shiftl (Z.lxor value 0x63) 2) (Z.shiftr (Z.lxor value 0x63) 6))
  else u8 (Z.lxor (Z.lor (Z.shiftr value 2) (Z.shiftl value 6)) 0x63).
Fixpoint codec_loop (n : nat) (i src dst : Z) (decode : bool) (mem : list Z) : list Z :=
  match n with
  | O => mem
  | S n => codec_loop n (i + 1) src dst decode (write_at mem (dst + i) [codec_byte decode (byte_at mem (src + i))])
  end.
Definition b41_byte_codec (mem : list Z) (src : option Z) (src_capacity : Z) (dst : option Z) (dst_capacity count decode : Z) : Z * list Z :=
  if (src_capacity <? count) || (dst_capacity <? count)
     || (negb (count =? 0) && (negb (bool_decide (is_Some src)) || negb (bool_decide (is_Some dst))))
     || (negb (decode =? 0) && negb (decode =? 1)) then (-1, mem)
  else (0, codec_loop (Z.to_nat count) 0 (default 0 src) (default 0 dst) (decode =? 1) mem).

Definition codec (mem : list Z) (src dst : option Z) (count decode : Z) (w : world) : Z * list Z * world :=
  if B41_HOST_OUTPUT_MAX <? count then (UINT32_MAX, mem, (fail w (- EMSGSIZE)).2) else
  let '(status, mem) := b41_byte_codec mem src count dst count count decode in
  if negb (status =? 0) then (UINT32_MAX, mem, (fail w (- EMSGSIZE)).2) else (count, mem, w).
Definition encode (mem : list Z) (src dst : option Z) (count : Z) (w : world) := codec mem src dst count 0 w.
Definition decode (mem : list Z) (dst src : option Z) (count : Z) (w : world) := codec mem src dst count 1 w.

(** ** Frame sentences *)

Definition chars (s : string) : list Z := (fun c => Z.of_nat (Ascii.nat_of_ascii c)) <$> String.list_ascii_of_string s.

(** [%u], [%lld] and [%02X]. *)
Fixpoint digits (fuel : nat) (n : Z) (acc : list Z) : list Z :=
  match fuel with
  | O => acc
  | S fuel => let acc := (48 + n mod 10) :: acc in if n <? 10 then acc else digits fuel (n / 10) acc
  end.
Definition dec (n : Z) : list Z := digits 20 n [].
Definition dec_signed (z : Z) : list Z := if z <? 0 then 45 :: dec (- z) else dec z.
Definition nibble (n : Z) : Z := if n <? 10 then 48 + n else 55 + n.
Definition hex2 (n : Z) : list Z := [nibble (n / 16); nibble (n mod 16)].

Definition xor_bytes (l : list Z) : Z := foldl Z.lxor 0 l.
Definition frame_body (slot value : Z) : list Z :=
  if slot =? 3 then chars "PMTK738," ++ dec (Z.land value 255)
  else if slot =? 4 then chars "PMTK736,0,0"
  else chars "PMTK736,1," ++ dec_signed (if value <=? 2147483647 then value else value - 4294967296).
Definition frame_message (slot : Z) (body : list Z) : list Z :=
  [36] ++ body ++ [42] ++ hex2 (xor_bytes body) ++ [13] ++ (if slot =? 5 then [10] else []).

(** The bytes stored at [dst]; [*used] is their number. *)
Definition b41_frame_sync_encode (slot value : Z) (dst : bool) (cap : Z) (used : bool) : Z * list Z :=
  if negb used then (-1, []) else
  if negb dst || (negb (slot =? 3) && negb (slot =? 4) && negb (slot =? 5)) then (-1, []) else
  let body := frame_body slot value in
  if 24 <=? len body then (-1, []) else
  let message := frame_message slot body in
  if (32 <=? len message) || (cap <? len message) then (-1, []) else (0, message).

Definition frame (slot value : Z) (w : world) : Z * world :=
  let '(status, bytes) := b41_frame_sync_encode slot value true 32 true in
  if negb (status =? 0) then fail w (- EINVAL) else
  enqueue (if slot =? 3 then B41_HOST_FRAME_SLEEP else if slot =? 4 then B41_HOST_FRAME_NETWORK else B41_HOST_FRAME_MEASUREMENT)
    (Some bytes) (u32 (len bytes)) w.
Definition frame_sleep (value : Z) (w : world) := frame 3 value w.
Definition frame_network (w : world) := frame 4 0 w.
Definition frame_measurement (value : Z) (w : world) := frame 5 value w.

(** ** The startup configuration *)

Definition B41_FIRST_CONFIG_SIZE : Z := 0x70.
Definition B41_SECOND_CONFIG_SIZE : Z := 0x444.
Record b41_startup_config := Config { first : list Z; second : list Z; resolved_second : list Z }.

Definition b41_startup_config_init : b41_startup_config :=
  Config (zeros B41_FIRST_CONFIG_SIZE) (zeros B41_SECOND_CONFIG_SIZE) (zeros B41_SECOND_CONFIG_SIZE).

Definition path_capacity (offset : Z) : Z :=
  if bool_decide (offset ∈ [0xd4; 0xf2; 0x190; 0x1ae; 0x1ea; 0x208; 0x406; 0x424]) then 30
  else if offset =? 0x110 then 128
  else if bool_decide (offset ∈ [0x226; 0x256; 0x286; 0x2b6; 0x2e6; 0x316; 0x346; 0x376; 0x3a6; 0x3d6]) then 48
  else 0.

(** A field of the second block: cleared, filled and marked as resolved. *)
Definition put_field (c : b41_startup_config) (offset capacity : Z) (text : list Z) : b41_startup_config :=
  Config (first c) (write_at (write_at (second c) offset (zeros capacity)) offset text)
    (write_at (resolved_second c) offset (repeat 1 (Z.to_nat capacity))).

(** [path] is the text before the terminator. *)
Definition b41_startup_set_path (config : option b41_startup_config) (offset : Z) (path : option (list Z)) : Z * option b41_startup_config :=
  let capacity := path_capacity offset in
  match config, path with
  | Some c, Some p =>
      if (capacity =? 0) || negb (byte_at p 0 =? 47) then (- EINVAL, config) else
      if capacity <=? len p then (- ENAMETOOLONG, config) else (0, Some (put_field c offset capacity p))
  | _, _ => (- EINVAL, config)
  end.

Definition b41_startup_set_callback_output (config : option b41_startup_config) : Z * option b41_startup_config :=
  match config with Some c => (0, Some (put_field c 0x1cc 30 (chars "UseCallback"))) | None => (- EINVAL, None) end.

Definition b41_magic : list Z := [0xce; 6; 0xaa55; 0x102].
Fixpoint put_magic (offset : Z) (magic : list Z) (second : list Z) : list Z :=
  match magic with [] => second | m :: magic => put_magic (offset + 2) magic (write_at second offset [u8 m; u8 (Z.shiftr m 8)]) end.
Definition b41_startup_set_b41_identity (config : option b41_startup_config) : Z * option b41_startup_config :=
  match config with
  | Some c =>
      let c := put_field c 0x46 30 (chars "MTK_MNLD_14_1.00") in
      (0, Some (Config (first c) (put_magic 0xcc b41_magic (second c)) (write_at (resolved_second c) 0xcc (repeat 1 8))))
  | None => (- EINVAL, None)
  end.

Definition build_value (build_type debuggable : list Z) : option Z :=
  if bool_decide (build_type = chars "user") then Some 0
  else if bool_decide (build_type = chars "eng") && bool_decide (debuggable = chars "1") then Some 1
  else if bool_decide (build_type = chars "userdebug") && bool_decide (debuggable = chars "1") then Some 2
  else None.
Definition b41_startup_set_build_policy (config : option b41_startup_config) (build_type debuggable : option (list Z)) : Z * option b41_startup_config :=
  match config, build_type, debuggable with
  | Some c, Some b, Some d =>
      match build_value b d with
      | None => (- EINVAL, config)
      | Some value => (0, Some (Config (first c) (write_at (second c) 0xc8 ((fun i => u8 (Z.shiftr value (i * 8))) <$> [0; 1; 2; 3]))
                                  (write_at (resolved_second c) 0xc8 (repeat 1 4))))
      end
  | _, _, _ => (- EINVAL, config)
  end.

(** The contracts the startup leaves open. *)
Definition b41_startup_missing_contracts : Z := Z.lor (Z.lor (Z.lor (Z.lor (Z.lor 1 2) 8) 64) 16) 32.

(** ** The codec *)

(** Two bytes rotations and a mask: 256 cases. *)
Definition all_bytes (p : Z -> bool) : bool := forallb (fun n => p (Z.of_nat n)) (seq 0 256).
Lemma all_bytes_spec p : all_bytes p = true -> forall v, is_u8 v -> p v = true.
Proof.
  unfold all_bytes. rewrite forallb_forall. intros H v [H0 H1]. specialize (H (Z.to_nat v)). rewrite Z2Nat.id in H by lia. apply H. apply in_seq. lia.
Qed.
Lemma codec_byte_inverse d v : is_u8 v -> codec_byte (negb d) (codec_byte d v) = v.
Proof.
  intros Hv. apply Z.eqb_eq. revert v Hv. destruct d; apply (all_bytes_spec (fun v => codec_byte _ (codec_byte _ v) =? v)); vm_compute; reflexivity.
Qed.
Lemma codec_byte_u8 d v : is_u8 (codec_byte d v).
Proof. destruct d; apply u8_range. Qed.

(** A forward loop whose writes stay behind its reads, or clear of them. *)
Lemma codec_loop_spec n : forall i src dst d mem, let e := i + Z.of_nat n in
  0 <= i -> 0 <= src -> 0 <= dst -> src + e <= len mem -> dst + e <= len mem -> dst <= src \/ src + e <= dst ->
  len (codec_loop n i src dst d mem) = len mem /\
  (forall k, i <= k < e -> byte_at (codec_loop n i src dst d mem) (dst + k) = codec_byte d (byte_at mem (src + k))) /\
  (forall j, 0 <= j -> j < dst + i \/ dst + e <= j -> byte_at (codec_loop n i src dst d mem) j = byte_at mem j).
Proof.
  induction n as [|n IH]; intros i src dst d mem e Hi Hs Hd Hse Hde Ho; [split; [reflexivity|split; [intros; subst e; lia|reflexivity]]|].
  cbn [codec_loop]. set (mem' := write_at mem (dst + i) [_]). assert (Hone : forall v : Z, len [v] = 1) by reflexivity.
  assert (Hl : len mem' = len mem) by (apply len_write_at; rewrite ?Hone; lia).
  destruct (IH (i + 1) src dst d mem') as (H1 & H2 & H3); try lia. split; [now rewrite H1|]. split.
  - intros k Hk. destruct (Z.eq_dec k i) as [-> |N].
    + rewrite H3 by lia. unfold mem'. rewrite byte_at_write_in by (rewrite ?Hone; lia). now rewrite Z.sub_diag.
    + rewrite H2 by lia. f_equal. unfold mem'. apply byte_at_write_out; rewrite ?Hone; lia.
  - intros j Hj Hout. rewrite H3 by lia. unfold mem'. apply byte_at_write_out; rewrite ?Hone; lia.
Qed.

(** Encoding a buffer of the engine and decoding the result gives the buffer back,
    also when the destination is the source or overlaps it from below; neither
    direction touches a byte outside the destination. *)
Theorem codec_roundtrip mem src dst count w :
  bytes_ok mem -> 0 <= count <= B41_HOST_OUTPUT_MAX -> 0 <= src -> 0 <= dst -> src + count <= len mem -> dst + count <= len mem ->
  dst <= src \/ src + count <= dst ->
  exists coded plain, encode mem (Some src) (Some dst) count w = (count, coded, w) /\ decode coded (Some dst) (Some dst) count w = (count, plain, w) /\
    slice plain dst count = slice mem src count /\
    forall j, 0 <= j -> j < dst \/ dst + count <= j -> byte_at plain j = byte_at mem j.
Proof.
  intros Hm Hc Hs Hd Hse Hde Ho. unfold encode, decode, codec, b41_byte_codec. replace (B41_HOST_OUTPUT_MAX <? count) with false by lia.
  replace (count <? count) with false by lia. rewrite !bool_decide_eq_true_2 by (now eexists). cbn [negb orb andb default Z.eqb]. rewrite andb_false_r. cbn [orb].
  destruct (codec_loop_spec (Z.to_nat count) 0 src dst false mem) as (L1 & V1 & O1); try lia. set (coded := codec_loop _ 0 src dst false mem) in *.
  destruct (codec_loop_spec (Z.to_nat count) 0 dst dst true coded) as (L2 & V2 & O2); try lia. set (plain := codec_loop _ 0 dst dst true coded) in *.
  exists coded, plain. split; [reflexivity|]. split; [reflexivity|]. split.
  - apply bytes_ext; rewrite ?len_slice by lia; [reflexivity|]. intros i Hi. rewrite !byte_at_slice by lia. rewrite V2, V1 by lia.
    exact (codec_byte_inverse false _ (byte_at_u8 _ _ Hm)).
  - intros j Hj Hout. rewrite O2, O1 by lia. reflexivity.
Qed.
Lemma codec_roundtrip_witness : exists coded plain, encode [1; 2; 3; 4; 5] (Some 1) (Some 0) 3 bound_world = (3, coded, bound_world) /\
  decode coded (Some 0) (Some 0) 3 bound_world = (3, plain, bound_world) /\ slice plain 0 3 = [2; 3; 4].
Proof.
  destruct (codec_roundtrip [1; 2; 3; 4; 5] 1 0 3 bound_world) as (c & p & H1 & H2 & H3 & _); try (vm_compute; intuition congruence); [concrete_bytes|].
  exists c, p. auto.
Defined.

(** ** Reading a sentence back

    A reader of such sentences: the checksum over what stands between the
    dollar sign and the star, then the command and its number. *)

Fixpoint until (c : Z) (l : list Z) : option (list Z * list Z) :=
  match l with [] => None | x :: l => if x =? c then Some ([], l) else p ← until c l; Some (x :: p.1, p.2) end.
Definition unhex (c : Z) : Z := if c <? 58 then c - 48 else c - 55.
Definition undec (l : list Z) : Z := foldl (fun a c => 10 * a + (c - 48)) 0 l.
Definition undec_signed (l : list Z) : Z := match l with c :: r => if c =? 45 then - undec r else undec l | [] => undec l end.
Fixpoint after (prefix l : list Z) : option (list Z) :=
  match prefix, l with [], _ => Some l | p :: ps, x :: l => if p =? x then after ps l else None | _ :: _, [] => None end.
Definition read_body (body : list Z) : option (Z * Z) :=
  match after (chars "PMTK738,") body with
  | Some n => Some (3, undec n)
  | None => match after (chars "PMTK736,1,") body with
            | Some n => Some (5, undec_signed n)
            | None => if bool_decide (body = chars "PMTK736,0,0") then Some (4, 0) else None
            end
  end.
Definition read_sentence (m : list Z) : option (Z * Z) :=
  match m with
  | 36 :: m => match until 42 m with
               | Some (body, h :: l :: _) => if 16 * unhex h + unhex l =? xor_bytes body then read_body body else None
               | _ => None
               end
  | _ => None
  end.

Lemma undec_app l l' : undec (l ++ l') = foldl (fun a c => 10 * a + (c - 48)) (undec l) l'.
Proof. apply foldl_app. Qed.
Lemma digits_acc fuel n acc : digits fuel n acc = digits fuel n [] ++ acc.
Proof.
  revert n acc. induction fuel as [|fuel IH]; intros n acc; [reflexivity|]. cbn [digits]. destruct (n <? 10); [reflexivity|].
  rewrite IH. rewrite (IH _ [_]). now rewrite <- app_assoc.
Qed.
Lemma digits_read fuel n : 0 <= n < 10 ^ Z.of_nat fuel -> undec (digits fuel n []) = n.
Proof.
  revert n. induction fuel as [|fuel IH]; intros n Hn; [cbn in *; lia|]. cbn [digits]. destruct (Z.ltb_spec n 10) as [L|L].
  - unfold undec. cbn [foldl]. rewrite Z.mod_small by lia. lia.
  - rewrite digits_acc, undec_app, IH; [cbn [foldl]; pose proof (Z_div_mod_eq_full n 10); lia|].
    rewrite Nat2Z.inj_succ, Z.pow_succ_r in Hn by lia. split; [apply Z.div_pos; lia|]. apply Z.div_lt_upper_bound; lia.
Qed.
Lemma digits_chars fuel n : Forall (fun c => 48 <= c < 58) (digits fuel n []).
Proof.
  revert n. induction fuel as [|fuel IH]; intros n; cbn [digits]; [constructor|].
  assert (H : 48 <= 48 + n mod 10 < 58) by (pose proof (Z.mod_pos_bound n 10); lia).
  destruct (n <? 10); [now repeat constructor|]. rewrite digits_acc. apply Forall_app. split; [apply IH|now repeat constructor].
Qed.
Lemma digits_length fuel n (k : nat) : 0 <= n < 10 ^ Z.of_nat k -> (1 <= k)%nat -> (length (digits fuel n []) <= k)%nat.
Proof.
  revert n k. induction fuel as [|fuel IH]; intros n k Hn Hk; cbn [digits]; [cbn; lia|]. destruct (Z.ltb_spec n 10) as [L|L]; [cbn; lia|].
  rewrite digits_acc, length_app. cbn [length]. destruct k as [|[|k]]; [lia|cbn in Hn; lia|]. specialize (IH (n / 10) (S k)).
  rewrite (Nat2Z.inj_succ (S k)), Z.pow_succ_r in Hn by lia. enough (length (digits fuel (n / 10) []) <= S k)%nat by lia.
  apply IH; [|lia]. split; [apply Z.div_pos; lia|apply Z.div_lt_upper_bound; lia].
Qed.
Lemma undec_signed_digits fuel n : undec_signed (digits fuel n []) = undec (digits fuel n []).
Proof.
  pose proof (digits_chars fuel n) as H. destruct (digits fuel n []) as [|c l]; [reflexivity|]. inversion H as [|? ? Hc _ E]. subst.
  unfold undec_signed. now replace (c =? 45) with false by lia.
Qed.
Lemma until_app c body rest : Forall (fun x => x <> c) body -> until c (body ++ c :: rest) = Some (body, rest).
Proof.
  induction 1 as [|x body Hx _ IH]; cbn; [now rewrite Z.eqb_refl|]. apply Z.eqb_neq in Hx. rewrite Hx, IH. reflexivity.
Qed.
Lemma after_app prefix l : after prefix (prefix ++ l) = Some l.
Proof. induction prefix as [|p ps IH]; cbn; [reflexivity|]. now rewrite Z.eqb_refl. Qed.
Lemma hex2_read n : is_u8 n -> 16 * unhex (nibble (n / 16)) + unhex (nibble (n mod 16)) = n.
Proof. intros H. apply Z.eqb_eq. revert n H. apply (all_bytes_spec (fun n => 16 * unhex (nibble (n / 16)) + unhex (nibble (n mod 16)) =? n)). vm_compute. reflexivity. Qed.
Lemma hex2_ok n : is_u8 n -> bytes_ok (hex2 n).
Proof.
  intros [H0 H1]. assert (Hnib : forall n, 0 <= n < 16 -> is_u8 (nibble n)) by (intros k ?; unfold nibble, is_u8; destruct (k <? 10); lia).
  unfold hex2. constructor; [|constructor; [|constructor]]; apply Hnib; [split; [apply Z.div_pos; lia|apply Z.div_lt_upper_bound; lia]|apply Z.mod_pos_bound; lia].
Qed.
Lemma log2_u8 a : is_u8 a -> Z.log2 a < 8.
Proof. intros [H0 H1]. destruct (Z.eq_dec a 0) as [-> |N]; [reflexivity|]. apply Z.log2_lt_pow2; lia. Qed.
Lemma lxor_u8 a b : is_u8 a -> is_u8 b -> is_u8 (Z.lxor a b).
Proof.
  intros Ha Hb. assert (Hp : 0 <= Z.lxor a b) by (apply Z.lxor_nonneg; unfold is_u8 in *; lia). split; [exact Hp|].
  destruct (Z.eq_dec (Z.lxor a b) 0) as [-> |N]; [lia|]. change 256 with (2 ^ 8). apply Z.log2_lt_pow2; [lia|].
  eapply Z.le_lt_trans; [apply Z.log2_lxor; [apply Ha|apply Hb]|]. apply Z.max_lub_lt; now apply log2_u8.
Qed.
Lemma xor_bytes_u8 l : bytes_ok l -> is_u8 (xor_bytes l).
Proof.
  unfold xor_bytes. assert (H0 : is_u8 0) by (split; lia). revert H0. generalize 0 as a. induction l as [|b l IH]; intros a Ha Hl; [exact Ha|].
  inversion Hl; subst. cbn [foldl]. apply IH; [now apply lxor_u8|assumption].
Qed.

(** The number a sentence carries. *)
Definition frame_number (slot value : Z) : Z :=
  if slot =? 3 then Z.land value 255 else if slot =? 4 then 0 else s32 value.

Lemma chars_ok s : bytes_ok (chars s).
Proof.
  unfold chars. apply Forall_fmap, Forall_forall. intros c _. cbn. unfold is_u8. pose proof (Ascii.nat_ascii_bounded c). lia.
Qed.
Lemma dec_ok n : bytes_ok (dec n).
Proof. eapply Forall_impl; [apply (digits_chars 20 n)|]. cbn. unfold is_u8. lia. Qed.
Lemma dec_read n : 0 <= n < 4294967296 -> undec (dec n) = n.
Proof. intros. apply digits_read. change (Z.of_nat 20) with 20. lia. Qed.

(** A body: bytes, no star, short, and readable. *)
Definition body_fits (slot value : Z) (body : list Z) : Prop :=
  bytes_ok body /\ Forall (fun c => c <> 42) body /\ len body <= 21 /\ read_body body = Some (slot, frame_number slot value).
Lemma frame_body_fits slot value : is_u32 value -> slot = 3 \/ slot = 4 \/ slot = 5 -> body_fits slot value (frame_body slot value).
Proof.
  intros Hv Hs. assert (Hno : forall n, Forall (fun c => c <> 42) (dec n)).
  { intros n. eapply Forall_impl; [apply (digits_chars 20 n)|]. cbn. lia. }
  assert (Hlen : forall n (k : nat), 0 <= n < 10 ^ Z.of_nat k -> (1 <= k)%nat -> len (dec n) <= Z.of_nat k).
  { intros n k Hn Hk. pose proof (digits_length 20 n k Hn Hk). unfold len, dec. lia. }
  destruct Hs as [-> | [-> | ->]]; unfold body_fits, frame_body, frame_number; cbn [Z.eqb Pos.eqb].
  - assert (Hb : 0 <= Z.land value 255 < 256) by (change 255 with (Z.ones 8); rewrite Z.land_ones by lia; apply Z.mod_pos_bound; lia).
    split; [apply bytes_ok_app; split; [apply chars_ok|apply dec_ok]|]. split; [apply Forall_app; split; [repeat constructor; discriminate|apply Hno]|].
    split; [rewrite len_app; pose proof (Hlen (Z.land value 255) 3%nat); change (len (chars "PMTK738,")) with 8; cbn in *; lia|].
    unfold read_body. rewrite after_app, dec_read by lia. reflexivity.
  - split; [apply chars_ok|]. split; [repeat constructor; discriminate|]. split; [vm_compute; congruence|reflexivity].
  - set (z := if value <=? 2147483647 then value else value - 4294967296).
    assert (Hz : z = s32 value) by (unfold z, s32; rewrite (u32_id value Hv); destruct (Z.leb_spec value 2147483647), (Z.ltb_spec value 2147483648); lia).
    rewrite <- Hz. unfold is_u32 in Hv. assert (Hr : -2147483648 <= z <= 2147483647) by (unfold z; destruct (Z.leb_spec value 2147483647); lia).
    assert (H : bytes_ok (dec_signed z) /\ Forall (fun c => c <> 42) (dec_signed z) /\ len (dec_signed z) <= 11 /\ undec_signed (dec_signed z) = z).
    { unfold dec_signed. destruct (Z.ltb_spec z 0).
      - split; [constructor; [unfold is_u8; lia|apply dec_ok]|]. split; [constructor; [discriminate|apply Hno]|].
        split; [rewrite len_cons; pose proof (Hlen (- z) 10%nat); cbn in *; lia|]. cbn [undec_signed Z.eqb Pos.eqb]. rewrite dec_read by lia. lia.
      - split; [apply dec_ok|]. split; [apply Hno|]. split; [pose proof (Hlen z 10%nat); cbn in *; lia|].
        unfold dec. rewrite undec_signed_digits. apply dec_read. lia. }
    destruct H as (H1 & H2 & H3 & H4). split; [apply bytes_ok_app; split; [apply chars_ok|exact H1]|].
    split; [apply Forall_app; split; [repeat constructor; discriminate|exact H2]|].
    split; [rewrite len_app; change (len (chars "PMTK736,1,")) with 10; lia|].
    unfold read_body. change (after (chars "PMTK738,") (chars "PMTK736,1," ++ dec_signed z)) with (@None (list Z)). now rewrite after_app, H4.
Qed.

Lemma frame_encodes slot value cap : is_u32 value -> slot = 3 \/ slot = 4 \/ slot = 5 -> 27 <= cap ->
  let m := frame_message slot (frame_body slot value) in
  b41_frame_sync_encode slot value true cap true = (0, m) /\ len m <= 27 /\ bytes_ok m /\ read_sentence m = Some (slot, frame_number slot value).
Proof.
  intros Hv Hs Hc. destruct (frame_body_fits slot value Hv Hs) as (Hb & Hn & Hl & Hr). set (body := frame_body slot value) in *.
  intros m. subst m. assert (Hm : len (frame_message slot body) <= 27 /\ 0 <= len (frame_message slot body)).
  { unfold frame_message. rewrite !len_app. change (len [36]) with 1. change (len [42]) with 1. change (len (hex2 _)) with 2. change (len [13]) with 1.
    pose proof (len_nonneg body). destruct (slot =? 5); [change (len [10]) with 1|rewrite len_nil]; lia. }
  split; [|split; [apply Hm|split]].
  - unfold b41_frame_sync_encode. cbn [negb orb]. replace (negb (slot =? 3) && negb (slot =? 4) && negb (slot =? 5)) with false by lia.
    fold body. replace (24 <=? len body) with false by lia. now replace ((32 <=? len (frame_message slot body)) || (cap <? len (frame_message slot body))) with false by lia.
  - unfold frame_message. rewrite !bytes_ok_app. split; [concrete_bytes|]. split; [exact Hb|]. split; [concrete_bytes|].
    split; [apply hex2_ok, xor_bytes_u8, Hb|]. split; [concrete_bytes|]. destruct (slot =? 5); concrete_bytes.
  - unfold frame_message, read_sentence. cbn [app]. rewrite until_app by exact Hn. cbn [app hex2]. rewrite (hex2_read _ (xor_bytes_u8 _ Hb)), Z.eqb_refl. exact Hr.
Qed.
(** Every frame callback encodes: the sentence fits the buffers of the source (at most
    27 bytes of the 32), and a reader that checks the checksum gets back the
    callback and the number it was given. *)
Theorem frame_sentence_exact slot value cap :
  is_u32 value -> slot = 3 \/ slot = 4 \/ slot = 5 -> 27 <= cap ->
  exists m, b41_frame_sync_encode slot value true cap true = (0, m) /\ len m <= 27 /\ bytes_ok m /\
    read_sentence m = Some (slot, frame_number slot value).
Proof. intros Hv Hs Hc. eexists. now apply frame_encodes. Qed.
Lemma frame_sentence_exact_witness : exists m, b41_frame_sync_encode 5 4294967295 true 32 true = (0, m) /\ read_sentence m = Some (5, -1).
Proof.
  destruct (frame_sentence_exact 5 4294967295 32) as (m & H1 & _ & _ & H2); [split; vm_compute; congruence|auto|lia|]. exists m. split; [exact H1|exact H2].
Defined.

(** A frame callback queues exactly its sentence, under the kind of its slot. *)
Lemma frame_enqueues slot value w : is_u32 value -> slot = 3 \/ slot = 4 \/ slot = 5 ->
  exists m, read_sentence m = Some (slot, frame_number slot value) /\ len m <= 27 /\ frame slot value w = enqueue slot (Some m) (len m) w.
Proof.
  intros Hv Hs.
  assert (E : b41_frame_sync_encode slot value true 32 true = (0, frame_message slot (frame_body slot value)) /\
    len (frame_message slot (frame_body slot value)) <= 27 /\ read_sentence (frame_message slot (frame_body slot value)) = Some (slot, frame_number slot value)).
  { destruct (frame_encodes slot value 32 Hv Hs) as (A & B & _ & D); [lia|]. auto. }
  destruct E as (E & Hm & Hread). exists (frame_message slot (frame_body slot value)). split; [exact Hread|]. split; [exact Hm|].
  unfold frame. rewrite E. cbn [Z.eqb negb]. rewrite u32_id by (pose proof (len_nonneg (frame_message slot (frame_body slot value))); unfold is_u32; lia).
  destruct Hs as [-> | [-> | ->]]; reflexivity.
Qed.

(** ** Paths of the second block *)

Definition path_offsets : list Z :=
  [0xd4; 0xf2; 0x110; 0x190; 0x1ae; 0x1ea; 0x208; 0x226; 0x256; 0x286; 0x2b6; 0x2e6; 0x316; 0x346; 0x376; 0x3a6; 0x3d6; 0x406; 0x424].
Lemma path_capacity_offsets offset : path_capacity offset <> 0 -> offset ∈ path_offsets.
Proof.
  unfold path_capacity, path_offsets. repeat case_bool_decide; try case_match; intros N; try contradiction; rewrite !elem_of_cons in *; try lia; tauto.
Qed.
(** The windows of two paths do not meet, and lie in the block. *)
Definition windows_apart (a b : Z) : bool := (a =? b) || (a + path_capacity a <=? b) || (b + path_capacity b <=? a).
Lemma path_windows a : a ∈ path_offsets -> 0 <= a /\ 0 < path_capacity a <= 128 /\ a + path_capacity a <= B41_SECOND_CONFIG_SIZE /\
  forall b, b ∈ path_offsets -> windows_apart a b = true.
Proof.
  assert (H : forallb (fun a => (0 <=? a) && (0 <? path_capacity a) && (path_capacity a <=? 128) && (a + path_capacity a <=? B41_SECOND_CONFIG_SIZE) &&
    forallb (windows_apart a) path_offsets) path_offsets = true) by (vm_compute; reflexivity).
  rewrite forallb_forall in H. intros Ha%list_elem_of_In. specialize (H a Ha). repeat (apply andb_prop in H as [H ?]).
  split; [lia|]. split; [lia|]. split; [lia|]. intros b Hb%list_elem_of_In. now apply (proj1 (forallb_forall _ _) H0).
Qed.

Definition config_ok (c : b41_startup_config) : Prop :=
  len (first c) = B41_FIRST_CONFIG_SIZE /\ len (second c) = B41_SECOND_CONFIG_SIZE /\ len (resolved_second c) = B41_SECOND_CONFIG_SIZE.

(** A path is stored whole or refused, never truncated: success means the window of
    that offset reads back as the path with its terminator, is marked resolved,
    and no byte elsewhere in the block changed, in particular no other path. *)
Theorem startup_path_exact c offset p status c' :
  config_ok c -> Forall (fun b => b <> 0) p -> b41_startup_set_path (Some c) offset (Some p) = (status, Some c') ->
  config_ok c' /\
  (status <> 0 -> c' = c) /\
  (status = 0 <-> path_capacity offset <> 0 /\ byte_at p 0 = 47 /\ len p < path_capacity offset) /\
  (status = 0 -> until 0 (slice (second c') offset (path_capacity offset)) = Some (p, zeros (path_capacity offset - len p - 1)) /\
     (forall i, offset <= i < offset + path_capacity offset -> byte_at (resolved_second c') i = 1) /\
     (forall i, 0 <= i -> i < offset \/ offset + path_capacity offset <= i ->
        byte_at (second c') i = byte_at (second c) i /\ byte_at (resolved_second c') i = byte_at (resolved_second c) i)).
Proof.
  intros (H1 & H2 & H3) Hp. unfold b41_startup_set_path. destruct ((path_capacity offset =? 0) || negb (byte_at p 0 =? 47)) eqn:G.
  { intros [= <- <-]. split; [now split|]. split; [reflexivity|]. split; [split; [lia|]|lia]. intros (A & B & C). lia. }
  destruct (Z.leb_spec (path_capacity offset) (len p)) as [L|L].
  { intros [= <- <-]. split; [now split|]. split; [reflexivity|]. split; [split; [lia|]|lia]. intros (A & B & C). lia. }
  intros [= <- <-]. destruct (path_windows offset) as (W0 & W1 & W2 & _); [apply path_capacity_offsets; lia|].
  set (n := path_capacity offset) in *. pose proof (len_nonneg p) as Hl0. assert (Hz : len (zeros n) = n) by (apply len_zeros; lia).
  assert (Hr : len (repeat 1 (Z.to_nat n)) = n) by (unfold len; rewrite repeat_length; lia).
  assert (L1 : len (write_at (second c) offset (zeros n)) = len (second c)) by (apply len_write_at; lia).
  split; [unfold config_ok; cbn [first second resolved_second put_field]; rewrite !len_write_at; lia|]. split; [lia|]. split; [split; [lia|reflexivity]|]. intros _.
  cbn [second resolved_second put_field]. split; [|split].
  - replace (slice _ offset n) with (p ++ 0 :: zeros (n - len p - 1)); [now apply until_app|].
    apply bytes_ext; [rewrite len_slice by (rewrite ?len_write_at; lia); rewrite len_app, len_cons, len_zeros; lia|].
    rewrite len_app, len_cons, len_zeros by lia. intros i Hi. rewrite byte_at_slice by lia. destruct (Z.lt_ge_cases i (len p)) as [Q|Q].
    + rewrite byte_at_app_l by lia. rewrite byte_at_write_in by lia. f_equal. lia.
    + rewrite byte_at_app_r by lia. rewrite byte_at_write_out by lia. rewrite byte_at_write_in by lia. rewrite byte_at_zeros.
      destruct (Z.eq_dec (i - len p) 0) as [-> |N]; [reflexivity|]. rewrite byte_at_cons by lia. apply byte_at_zeros.
  - intros i Hi. rewrite byte_at_write_in by lia. unfold byte_at. apply nth_repeat_lt. lia.
  - intros i Hi Ho. rewrite !byte_at_write_out by lia. now split.
Qed.
Lemma startup_path_exact_witness : exists c', b41_startup_set_path (Some b41_startup_config_init) 0xd4 (Some (chars "/a/nv")) = (0, Some c') /\
  until 0 (slice (second c') 0xd4 30) = Some (chars "/a/nv", zeros 24).
Proof.
  destruct (b41_startup_set_path (Some b41_startup_config_init) 0xd4 (Some (chars "/a/nv"))) as [st [c'|]] eqn:E; [|vm_compute in E; discriminate].
  assert (E0 : st = 0) by (vm_compute in E; congruence). subst st. exists c'. split; [reflexivity|].
  apply (startup_path_exact b41_startup_config_init 0xd4 (chars "/a/nv") 0 c'); [split; [|split]; reflexivity|repeat constructor; discriminate|exact E|reflexivity].
Defined.

(** ** The type of the configuration *)

Definition mark (b : Z) : Prop := b = 0 \/ b = 1.
(** Arrays of their sizes, of bytes and of marks; a byte outside the window
    [lo, hi) that is not marked as resolved is still zero. *)
Definition typed_but (lo hi : Z) (c : b41_startup_config) : Prop :=
  config_ok c /\ bytes_ok (first c) /\ bytes_ok (second c) /\ Forall mark (resolved_second c) /\
  (forall i, 0 <= i -> i < lo \/ hi <= i -> byte_at (resolved_second c) i = 0 -> byte_at (second c) i = 0).
Abbreviation config_typed c := (typed_but 0 0 c).
Lemma typed_write lo hi c offset text : typed_but lo hi c -> bytes_ok text -> 0 <= lo <= offset -> offset + len text <= hi <= B41_SECOND_CONFIG_SIZE ->
  typed_but lo hi (Config (first c) (write_at (second c) offset text) (resolved_second c)).
Proof.
  intros ((H1 & H2 & H3) & F & S & R & Z) Ht Ho Hl. pose proof (len_nonneg text). split; [unfold config_ok; cbn; rewrite len_write_at; lia|].
  cbn [first second resolved_second]. repeat split; auto; [now apply bytes_ok_write|]. intros i Hi Hw. rewrite byte_at_write_out by lia. now apply Z.
Qed.
Lemma typed_window lo hi c : config_typed c -> typed_but lo hi c.
Proof. intros (H1 & H2 & H3 & H4 & H5). do 4 (split; [assumption|]). intros i Hi _. apply H5; lia. Qed.
Lemma marks_write l i n : Forall mark l -> Forall mark (write_at l i (repeat 1 n)).
Proof.
  intros H. unfold write_at. rewrite !Forall_app. repeat split; [now apply Forall_take|apply Forall_forall; intros x Hx%list_elem_of_In%repeat_spec; now right|now apply Forall_drop].
Qed.
Lemma typed_mark lo hi c : typed_but lo hi c -> 0 <= lo <= hi -> hi <= B41_SECOND_CONFIG_SIZE ->
  config_typed (Config (first c) (second c) (write_at (resolved_second c) lo (repeat 1 (Z.to_nat (hi - lo))))).
Proof.
  intros ((H1 & H2 & H3) & F & S & R & Z) Hl Hh. assert (Hr : len (repeat 1 (Z.to_nat (hi - lo))) = hi - lo) by (unfold len; rewrite repeat_length; lia).
  split; [unfold config_ok; cbn; rewrite len_write_at; lia|]. cbn [first second resolved_second]. repeat split; auto; [now apply marks_write|]. intros i Hi _ Hm.
  destruct (Z.lt_ge_cases i lo) as [L|L]; [rewrite byte_at_write_out in Hm by lia; apply Z; auto|]. destruct (Z.lt_ge_cases i hi) as [G|G]; [|rewrite byte_at_write_out in Hm by lia; apply Z; auto].
  rewrite byte_at_write_in in Hm by lia. unfold byte_at in Hm. rewrite nth_repeat_lt in Hm by lia. discriminate.
Qed.
Lemma typed_field c offset n text : config_typed c -> bytes_ok text -> 0 <= offset -> len text <= n -> offset + n <= B41_SECOND_CONFIG_SIZE -> config_typed (put_field c offset n text).
Proof.
  intros H Ht Ho Hn Hs. pose proof (len_nonneg text). unfold put_field. replace n with (offset + n - offset) at 2 by lia.
  apply (typed_mark offset (offset + n) (Config (first c) (write_at (write_at (second c) offset (zeros n)) offset text) (resolved_second c))); [|lia|lia].
  apply (typed_write offset (offset + n) (Config (first c) (write_at (second c) offset (zeros n)) (resolved_second c))); [|exact Ht|lia|lia].
  apply typed_write; [now apply typed_window|apply bytes_ok_zeros|lia|rewrite len_zeros; lia].
Qed.

Inductive setter := Set_path (offset : Z) (path : option (list Z)) | Set_output | Set_identity | Set_policy (build debuggable : option (list Z)).
Definition setter_ok (s : setter) : Prop := match s with Set_path _ (Some p) => bytes_ok p | _ => True end.
Definition apply_setter (c : option b41_startup_config) (s : setter) : Z * option b41_startup_config :=
  match s with
  | Set_path offset p => b41_startup_set_path c offset p
  | Set_output => b41_startup_set_callback_output c
  | Set_identity => b41_startup_set_b41_identity c
  | Set_policy b d => b41_startup_set_build_policy c b d
  end.
Definition configure (l : list setter) : option b41_startup_config := foldl (fun c s => (apply_setter c s).2) (Some b41_startup_config_init) l.
Lemma bytes_ok_chars s : bytes_ok (chars s).
Proof. apply Forall_fmap, Forall_forall. intros a _. pose proof (Ascii.nat_ascii_bounded a). unfold compose, is_u8. lia. Qed.
Lemma typed_setter s c : setter_ok s -> config_typed c -> exists c', (apply_setter (Some c) s).2 = Some c' /\ config_typed c'.
Proof.
  intros Hs Hc. destruct s as [offset [p|]| | |b d]; cbn [apply_setter].
  - unfold b41_startup_set_path. destruct ((path_capacity offset =? 0) || _) eqn:G; [now exists c|]. destruct (Z.leb_spec (path_capacity offset) (len p)) as [L|L]; [now exists c|].
    destruct (path_windows offset) as (W0 & W1 & W2 & _); [apply path_capacity_offsets; lia|]. eexists. split; [reflexivity|]. apply typed_field; auto; lia.
  - now exists c.
  - eexists. split; [reflexivity|]. apply typed_field; [exact Hc|apply bytes_ok_chars|lia|now vm_compute|unfold B41_SECOND_CONFIG_SIZE; lia].
  - eexists. split; [reflexivity|].
    assert (Hf : config_typed (put_field c 0x46 30 (chars "MTK_MNLD_14_1.00"))) by (apply typed_field; [exact Hc|apply bytes_ok_chars|lia|now vm_compute|unfold B41_SECOND_CONFIG_SIZE; lia]).
    set (d := put_field c 0x46 30 (chars "MTK_MNLD_14_1.00")) in *. change 8%nat with (Z.to_nat (0xcc + 8 - 0xcc)). change 0xd4 with (0xcc + 8).
    apply (typed_mark 0xcc (0xcc + 8) (Config (first d) (put_magic 0xcc b41_magic (second d)) (resolved_second d))); [|lia|unfold B41_SECOND_CONFIG_SIZE; lia]. apply (typed_window 0xcc (0xcc + 8)) in Hf. cbn [put_magic b41_magic].
    do 4 (match goal with |- typed_but ?lo ?hi (Config ?f (write_at ?s ?o ?t) ?r) => apply (typed_write lo hi (Config f s r) o t); [|do 2 (apply List.Forall_cons; [apply u8_range|]); apply List.Forall_nil|lia|rewrite !len_cons, len_nil; unfold B41_SECOND_CONFIG_SIZE; lia] end).
    exact Hf.
  - unfold b41_startup_set_build_policy. destruct b as [b|]; [|now exists c]. destruct d as [d|]; [|now exists c]. destruct (build_value b d) as [v|] eqn:V; [|now exists c].
    eexists. split; [reflexivity|]. apply (typed_mark 0xc8 0xcc (Config (first c) (write_at (second c) 0xc8 _) (resolved_second c))); [|lia|unfold B41_SECOND_CONFIG_SIZE; lia].
    apply typed_write; [now apply typed_window| |lia|split; now vm_compute]. apply Forall_fmap, Forall_forall. intros i _. apply u8_range.
Qed.
Lemma startup_typed l : Forall setter_ok l -> exists c, configure l = Some c /\ config_typed c.
Proof.
  intros H. unfold configure. assert (H0 : config_typed b41_startup_config_init).
  { split; [split; [|split]; reflexivity|]. split; [apply bytes_ok_zeros|]. split; [apply bytes_ok_zeros|].
    split; [apply Forall_forall; intros x Hx%list_elem_of_In%repeat_spec; now left|]. intros i _ _ _. apply byte_at_zeros. }
  revert H0. generalize b41_startup_config_init. induction H as [|s l Hs _ IH]; intros c Hc; cbn [foldl]; [now exists c|].
  destruct (typed_setter s c Hs Hc) as (c' & -> & Hc'). now apply IH.
Qed.
(** The startup configuration keeps its type, over every history of its setters, those
    that are refused included: two blocks of their fixed sizes and a map of marks,
    every element a byte, and a byte of the second block that no setter has
    resolved is still the zero of the initial value. *)
Theorem startup_config_typed l : Forall setter_ok l -> exists c, configure l = Some c /\ config_typed c.
Proof. apply startup_typed. Qed.
Lemma startup_config_typed_witness : exists c, configure [Set_path 0xd4 (Some (chars "/a")); Set_identity; Set_output; Set_policy (Some (chars "eng")) (Some (chars "1")); Set_path 7 None] = Some c /\
  config_typed c /\ slice (second c) 0xc8 16 = [1; 0; 0; 0; 0xce; 0; 6; 0; 0x55; 0xaa; 2; 1; 47; 97; 0; 0].
Proof.
  destruct (startup_config_typed [Set_path 0xd4 (Some (chars "/a")); Set_identity; Set_output; Set_policy (Some (chars "eng")) (Some (chars "1")); Set_path 7 None]) as (c & E & T);
    [repeat (constructor; [first [exact I | apply bytes_ok_chars]|]); constructor|]. exists c. split; [exact E|]. split; [exact T|]. vm_compute in E. injection E as <-. reflexivity.
Defined.
