(* ===== verification/AgpsHost.v ===== *)
(** * The assistance transport of the GNSS host

    Packets for the assistance service and the owner of the connected socket
    ([b41_agps_host.c]), the endpoint that connects it ([b41_agps_endpoint.c]), the
    decoder of the service's requests ([b41_agps_decode.c]), and the sinks of
    the engine's output with the dispatch of queued events
    ([b41_navigation_output.c]). System calls are requests of [Trace]. An object
    argument is the object itself: the null tests that open the functions have
    no counterpart, those on the data they are given do. *)

From stdpp Require Import strings.
From S2P Require Import Prelude Trace HostQueue HostText.
Open Scope Z_scope.
Open Scope io_scope.

(** ** System calls

    One answer serves every call: [value] is the result, or minus the errno of
    a failure; the other fields are what the call stores. *)

Record file_stat := FileStat { st_dev : Z; st_ino : Z; st_mode : Z; st_rdev : Z }.
(** A control message that came with a datagram. *)
Inductive control := Malformed | Rights (fds : list Z) | Credentials (pid uid : Z) | Other_control.
Record answer := Answer { value : Z; info : file_stat; stored : list Z; number : Z; messages : list control }.
#[export] Instance file_stat_eq_dec : EqDecision file_stat.
Proof. solve_decision. Defined.

(** Objects with an atomic error and an atomic stop flag that two threads share.
    [Latch] is the compare-and-exchange that keeps the first error; it answers
    what the variable held. *)
Inductive object := The_worker | The_receiver | The_control.
Inductive call :=
| Mutex_init | Mutex_lock | Mutex_unlock
| Fstat (fd : Z) | Lstat (path : list Z) | Getsockopt_type (fd : Z) | Getpeername (fd : Z)
| Socket | Connect (fd : Z) (peer : list Z) | Send (fd : Z) (bytes : list Z) | Close (fd : Z)
| Get_pty (fd : Z) | Get_flags (fd : Z) | Write (fd : Z) (bytes : list Z)
| Block_sigpipe | Pending_sigpipe | Drain_sigpipe | Restore_mask
| Eventfd | Attr_init | Attr_detach | Attr_destroy | Create_thread | Poll (fd : Z) (timeout : Z) | Read (fd : Z) | Clock
| Load_error (x : object) | Load_stop (x : object) | Store_stop (x : object) | Latch (x : object) (error : Z)
| Adapter_error | Adapter_take
| Same_thread | Set_passcred (fd : Z) | Bind (fd : Z) (address : list Z) | Receive (fd : Z) | Associate | Admit | Deliver (type parameter : Z) (bytes : list Z)
| Count_delivered | Poll_many (fds : list Z) (timeout : Z) | Load_bound | Bind_control | Or_pending (notice : Z) | Take_pending
| Read_image (address size : Z) | Register | Run_engine | Native_stop | Waitpid (child : Z) | Kill (child : Z) | Sleep (ms : Z)
| Open_file (path : list Z) | Fstatfs (fd : Z).
Abbreviation os := (io call answer).
Abbreviation os_trace := (trace call answer).

Definition failed_call (a : answer) : bool := value a <? 0.
Definition S_ISSOCK (mode : Z) : bool := Z.land mode 0xf000 =? 0xc000.
Definition S_ISDIR (mode : Z) : bool := Z.land mode 0xf000 =? 0x4000.
Definition S_ISFIFO (mode : Z) : bool := Z.land mode 0xf000 =? 0x1000.
Definition S_ISCHR (mode : Z) : bool := Z.land mode 0xf000 =? 0x2000.

(** ** Packets *)

Definition B41_AGPS_PACKET_MAX : Z := 65536.
Definition B41_AGPS_CONFIGURATION_SIZE : Z := 0x29c.
Definition UINTPTR_MAX : Z := UINT64_MAX.
Definition word (v : Z) : list Z := put32 v.

(** Two buffers that wrap around or meet. *)
Definition aliased (source length destination size : Z) : bool :=
  (UINTPTR_MAX - length <? source) || (UINTPTR_MAX - size <? destination)
  || ((source <? destination + size) && (destination <? source + length)).

(** A buffer is its address and its bytes. On success the bytes are what is
    stored at [output], and [*written] is their number. *)
Definition b41_agps_data_packet (string : option (Z * list Z)) (length : Z) (output : option Z) (capacity : Z) (written : bool) : Z * list Z :=
  match output with
  | None => (- EINVAL, [])
  | Some out =>
    if negb written || (negb (bool_decide (is_Some string)) && negb (length =? 0)) then (- EINVAL, []) else
    if B41_AGPS_PACKET_MAX - 14 <? length then (- EMSGSIZE, []) else
    match string with
    | None => if capacity <? 9 then (- ENOSPC, []) else (0, word 1 ++ word 150 ++ [0])
    | Some (source, text) =>
      let text := firstn (Z.to_nat length) text in
      if bool_decide (0 ∈ text) then (- EPROTO, []) else
      let size := length + 14 in
      if capacity <? size then (- ENOSPC, []) else
      if aliased source length out size then (- EINVAL, []) else
      (0, word 1 ++ word 150 ++ [1] ++ word (u32 (length + 1)) ++ text ++ [0])
    end
  end.
Definition b41_agps_selector1_packet (output : option Z) (capacity : Z) (written : bool) : Z * list Z :=
  match output with
  | None => (- EINVAL, [])
  | Some _ => if negb written then (- EINVAL, []) else if capacity <? 8 then (- ENOSPC, []) else (0, word 1 ++ word 152)
  end.
Definition b41_agps_configuration_packet (config : option (Z * list Z)) (output : option Z) (capacity : Z) (written : bool) : Z * list Z :=
  let size := 12 + B41_AGPS_CONFIGURATION_SIZE in
  match config, output with
  | Some (source, bytes), Some out =>
    if negb written then (- EINVAL, []) else
    if capacity <? size then (- ENOSPC, []) else
    if aliased source B41_AGPS_CONFIGURATION_SIZE out size then (- EINVAL, []) else
    (0, word 1 ++ word 160 ++ word B41_AGPS_CONFIGURATION_SIZE ++ firstn (Z.to_nat B41_AGPS_CONFIGURATION_SIZE) bytes)
  | _, _ => (- EINVAL, [])
  end.

(** ** The socket owner *)

Inductive b41_agps_owner_state := B41_AGPS_EMPTY | B41_AGPS_OWNED | B41_AGPS_FAILED | B41_AGPS_CLOSED.
#[export] Instance b41_agps_owner_state_eq_dec : EqDecision b41_agps_owner_state.
Proof. solve_decision. Defined.
(** [packet_at] is where the packet buffer of the object lies. *)
Record b41_agps_owner := Owner {
  initialized : bool; owner_state : b41_agps_owner_state; owner_fd : Z; owner_error : Z; device : Z; inode : Z; packet_at : Z }.
Definition zeroed_owner (packet : Z) : b41_agps_owner := Owner false B41_AGPS_EMPTY 0 0 0 0 packet.

Definition b41_agps_owner_init (o : b41_agps_owner) : os (Z * b41_agps_owner) :=
  if initialized o then ret (- EALREADY, o) else
  let! m := ask Mutex_init in
  let o := Owner false B41_AGPS_EMPTY (-1) 0 0 0 (packet_at o) in
  if value m =? 0 then ret (0, Owner true B41_AGPS_EMPTY (-1) 0 0 0 (packet_at o)) else ret (- value m, o).

Definition identity (o : b41_agps_owner) : os Z :=
  let! s := ask (Fstat (owner_fd o)) in
  if failed_call s then ret (value s) else
  if negb (S_ISSOCK (st_mode (info s))) || negb (st_dev (info s) =? device o) || negb (st_ino (info s) =? inode o) then ret (- ESTALE) else ret 0.

(** A socket address is its bytes: family 1 in two bytes, then the path. *)
Definition AF_UNIX : list Z := [1; 0].
Definition SOCK_DGRAM : Z := 2.
Definition sizeof_sockaddr_un : Z := 110.
Definition unix_family (peer : list Z) : bool := bool_decide (firstn 2 peer = AF_UNIX).

(** The checks on a descriptor that is offered; what [fstat] said of it. *)
Definition adopt_checks (fd : Z) (peer : list Z) : os (Z + file_stat) :=
  let! t := ask (Getsockopt_type fd) in
  if failed_call t then ret (inl (value t)) else
  let! p := ask (Getpeername fd) in
  if failed_call p then ret (inl (value p)) else
  let! s := ask (Fstat fd) in
  if failed_call s then ret (inl (value s)) else
  if negb (len (stored t) =? 4) || negb (le_of (stored t) =? SOCK_DGRAM) || negb (S_ISSOCK (st_mode (info s))) || negb (unix_family (stored p)) || negb (bool_decide (stored p = peer))
  then ret (inl (- EPROTO)) else ret (inr (info s)).

(** The status, the owner and the caller's descriptor variable. *)
Definition b41_agps_owner_take (o : b41_agps_owner) (fd : Z) (peer : list Z) : os (Z * b41_agps_owner * Z) :=
  if negb (initialized o) || (fd <? 0) || negb (unix_family peer) || (len peer <? 2) || (sizeof_sockaddr_un <? len peer) then ret (- EINVAL, o, fd) else
  let! l := ask Mutex_lock in
  if negb (value l =? 0) then ret (- value l, o, fd) else
  if negb (bool_decide (owner_state o = B41_AGPS_EMPTY)) then let! _ := ask Mutex_unlock in ret (- EALREADY, o, fd) else
  let! c := adopt_checks fd peer in
  let! _ := ask Mutex_unlock in
  match c with
  | inl e => ret (e, o, fd)
  | inr s => ret (0, Owner true B41_AGPS_OWNED fd (owner_error o) (st_dev s) (st_ino s) (packet_at o), -1)
  end.

Inductive payload := Data (string : option (Z * list Z)) (length : Z) | Selector1 | Configuration (config : option (Z * list Z)).
Definition build_packet (o : b41_agps_owner) (p : payload) : Z * list Z :=
  match p with
  | Selector1 => b41_agps_selector1_packet (Some (packet_at o)) B41_AGPS_PACKET_MAX true
  | Configuration config => b41_agps_configuration_packet config (Some (packet_at o)) B41_AGPS_PACKET_MAX true
  | Data string length => b41_agps_data_packet string length (Some (packet_at o)) B41_AGPS_PACKET_MAX true
  end.
Definition owner_failed (o : b41_agps_owner) (status : Z) : b41_agps_owner :=
  Owner (initialized o) B41_AGPS_FAILED (owner_fd o) status (device o) (inode o) (packet_at o).
(** Between lock and unlock: the status, and the packet that was accepted. *)
Definition transmit (o : b41_agps_owner) (p : payload) : os Z :=
  let! i := identity o in
  if negb (i =? 0) then ret i else
  let '(status, bytes) := build_packet o p in
  if negb (status =? 0) then ret status else
  let! s := ask (Send (owner_fd o) bytes) in
  if failed_call s then ret (value s) else if negb (value s =? len bytes) then ret (- EIO) else ret 0.
Definition send_packet (o : b41_agps_owner) (p : payload) : os (Z * b41_agps_owner) :=
  if negb (initialized o) then ret (- EINVAL, o) else
  let! l := ask Mutex_lock in
  if negb (value l =? 0) then ret (- value l, o) else
  if negb (owner_error o =? 0) then let! _ := ask Mutex_unlock in ret (owner_error o, o) else
  if negb (bool_decide (owner_state o = B41_AGPS_OWNED)) then let! _ := ask Mutex_unlock in ret (- ESHUTDOWN, o) else
  let! status := transmit o p in
  let! _ := ask Mutex_unlock in
  ret (status, if status =? 0 then o else owner_failed o status).
Definition b41_agps_owner_send_data (o : b41_agps_owner) (string : option (Z * list Z)) (length : Z) := send_packet o (Data string length).
Definition b41_agps_owner_send_selector1 (o : b41_agps_owner) := send_packet o Selector1.
Definition b41_agps_owner_send_configuration (o : b41_agps_owner) (config : option (Z * list Z)) := send_packet o (Configuration config).

(** An event at its address. *)
Definition b41_agps_owner_send_event (o : b41_agps_owner) (event : option (Z * b41_host_event)) : os (Z * b41_agps_owner) :=
  match event with
  | None => ret (- EINVAL, o)
  | Some (at_, e) =>
    if B41_HOST_OUTPUT_MAX <? ev_length e then ret (- EINVAL, o) else
    if (ev_kind e =? B41_HOST_FRAME_SLEEP) || (ev_kind e =? B41_HOST_FRAME_NETWORK) || (ev_kind e =? B41_HOST_FRAME_MEASUREMENT)
    then b41_agps_owner_send_data o (Some (at_, ev_bytes e)) (ev_length e)
    else ret (- EOPNOTSUPP, o)
  end.

Definition b41_agps_owner_stop (o : b41_agps_owner) : os (Z * b41_agps_owner) :=
  if negb (initialized o) then ret (- EINVAL, o) else
  let! l := ask Mutex_lock in
  if negb (value l =? 0) then ret (- value l, o) else
  let! close_status :=
    if 0 <=? owner_fd o then
      let! i := identity o in
      if i =? 0 then let! c := ask (Close (owner_fd o)) in ret (if failed_call c then value c else 0) else ret i
    else ret 0 in
  let status := if owner_error o =? 0 then close_status else owner_error o in
  let! _ := ask Mutex_unlock in
  ret (status, Owner true B41_AGPS_CLOSED (if 0 <=? owner_fd o then -1 else owner_fd o) status (device o) (inode o) (packet_at o)).

(** ** The endpoint *)

Inductive b41_agps_endpoint_route := B41_AGPS_ENDPOINT_UNSELECTED | B41_AGPS_ENDPOINT_FILESYSTEM | B41_AGPS_ENDPOINT_ABSTRACT.
#[export] Instance b41_agps_endpoint_route_eq_dec : EqDecision b41_agps_endpoint_route.
Proof. solve_decision. Defined.
Record b41_agps_endpoint := Endpoint { entered : bool; endpoint_error : Z; route : b41_agps_endpoint_route; ipc : b41_agps_owner }.

Definition agps_path : list Z := chars "/data/agps_supl/mnl_to_agps".
Definition agps_name : list Z := chars "mtk_mnl2agps".
Definition peer_of (r : b41_agps_endpoint_route) : list Z :=
  if bool_decide (r = B41_AGPS_ENDPOINT_FILESYSTEM) then AF_UNIX ++ agps_path ++ [0] else AF_UNIX ++ [0] ++ agps_name.

(** The route, from what stands at the path; and the identity seen there. *)
Definition select_route : os (Z + b41_agps_endpoint_route * file_stat) :=
  let! before := ask (Lstat agps_path) in
  ret (if failed_call before then (if value before =? - ENOENT then inr (B41_AGPS_ENDPOINT_ABSTRACT, info before) else inl (value before))
       else if S_ISDIR (st_mode (info before)) then inr (B41_AGPS_ENDPOINT_ABSTRACT, info before)
       else if S_ISSOCK (st_mode (info before)) then inr (B41_AGPS_ENDPOINT_FILESYSTEM, info before)
       else inl (- EPROTO)).
Definition same_socket (before after : file_stat) : bool :=
  S_ISSOCK (st_mode after) && (st_dev before =? st_dev after) && (st_ino before =? st_ino after) && (st_mode before =? st_mode after).
(** With an open socket: connect, and see the same inode again. *)
Definition connect_checked (fd : Z) (r : b41_agps_endpoint_route) (before : file_stat) : os Z :=
  let! c := ask (Connect fd (peer_of r)) in
  if failed_call c then ret (value c) else
  if bool_decide (r = B41_AGPS_ENDPOINT_FILESYSTEM) then
    let! after := ask (Lstat agps_path) in
    if failed_call after then ret (value after) else if same_socket before (info after) then ret 0 else ret (- ESTALE)
  else ret 0.
(** From the route to the transfer of the socket: the status, the owner, the descriptor still held and the route. *)
Definition endpoint_attach (o : b41_agps_owner) : os (Z * b41_agps_owner * Z * b41_agps_endpoint_route) :=
  let! sel := select_route in
  match sel with
  | inl e => ret (e, o, -1, B41_AGPS_ENDPOINT_UNSELECTED)
  | inr (r, before) =>
    let! s := ask Socket in
    if failed_call s then ret (value s, o, -1, r) else
    let! c := connect_checked (value s) r before in
    if negb (c =? 0) then ret (c, o, value s, r) else
    let! t := b41_agps_owner_take o (value s) (peer_of r) in
    ret (t, r)
  end.
Definition b41_agps_endpoint_open (e : b41_agps_endpoint) : os (Z * b41_agps_endpoint) :=
  if entered e then ret (if endpoint_error e =? 0 then - EALREADY else endpoint_error e, e) else
  let! i := b41_agps_owner_init (ipc e) in
  if negb (i.1 =? 0) then ret (i.1, Endpoint true i.1 (route e) i.2) else
  let! a := endpoint_attach i.2 in
  let '(status, o, fd, r) := a in
  let r := if bool_decide (r = B41_AGPS_ENDPOINT_UNSELECTED) then route e else r in
  if status =? 0 then ret (0, Endpoint true (endpoint_error e) r o) else
  let! _ := if 0 <=? fd then ask (Close fd) else ret (Answer 0 (FileStat 0 0 0 0) [] 0 []) in
  let! x := b41_agps_owner_stop o in
  ret (status, Endpoint true status r x.2).

(** ** Requests of the service *)

Definition B41_AGPS_RX_MAX : Z := 65536.
Definition B41_AGPS_PMTK_MAX : Z := 256.
Record b41_agps_request := Request { rq_type : Z; rq_parameter : Z; rq_payload : list Z }.
Definition rest_after (p : list Z) (prefix : Z) : list Z := skipn (Z.to_nat prefix) p.
Definition decode_text (p : list Z) : Z + b41_agps_request :=
  if (len p <? 9) || (1 <? byte_at p 8) then inl (- EBADMSG) else
  if byte_at p 8 =? 0 then inl (if len p =? 9 then - ENODATA else - EBADMSG) else
  if len p <? 14 then inl (- EBADMSG) else
  let length := le32 p 9 in
  if (length =? 0) || negb (length =? len p - 13) then inl (- EBADMSG) else
  if B41_AGPS_PMTK_MAX <? length then inl (- EMSGSIZE) else
  if negb (byte_at p (len p - 1) =? 0) || bool_decide (0 ∈ firstn (Z.to_nat (length - 1)) (rest_after p 13)) then inl (- EBADMSG) else
  inr (Request 250 35 (rest_after p 13)).
Definition decode_binary (t : Z) (p : list Z) : Z + b41_agps_request :=
  if len p <? 12 then inl (- EBADMSG) else
  let parameter := if t =? 264 then 118 else t - 256 + 62 in
  let length := le32 p 8 in
  if (length =? 0) || negb (length =? len p - 12) then inl (- EBADMSG) else
  if (t =? 262) && (8192 <? length) then inl (- EMSGSIZE) else inr (Request t parameter (rest_after p 12)).
Definition binary_type (t : Z) : bool := ((256 <=? t) && (t <=? 262)) || (t =? 264).
Definition b41_agps_receiver_decode (packet : option (list Z)) : Z + b41_agps_request :=
  match packet with
  | None => inl (- EINVAL)
  | Some p =>
    if B41_AGPS_RX_MAX <? len p then inl (- EMSGSIZE) else
    if (len p <? 8) || negb (le32 p 0 =? 1) then inl (- EBADMSG) else
    let t := le32 p 4 in
    if t =? 250 then decode_text p else if binary_type t then decode_binary t p else inl (- EOPNOTSUPP)
  end.

(** ** Output sinks and dispatch *)

Inductive b41_navigation_output_state := B41_NAV_OUTPUT_EMPTY | B41_NAV_OUTPUT_OWNED | B41_NAV_OUTPUT_FAILED.
#[export] Instance b41_navigation_output_state_eq_dec : EqDecision b41_navigation_output_state.
Proof. solve_decision. Defined.
Record sink := Sink { sink_fd : Z; pty : Z; sink_identity : file_stat; delivered_bytes : Z }.
Record b41_navigation_output := Output { nav_state : b41_navigation_output_state; nav_error : Z; app : sink; raw : sink }.
Definition INT_MAX : Z := 2147483647.
Definition O_NONBLOCK (flags : Z) : bool := Z.testbit flags 11.
Definition O_RDONLY (flags : Z) : bool := Z.land flags 3 =? 0.

Definition sink_checked (fd : Z) : os (Z + sink) :=
  let! s := ask (Fstat fd) in
  if failed_call s then ret (inl (value s)) else
  let! p := (if S_ISCHR (st_mode (info s)) then
      let! n := ask (Get_pty fd) in
      ret (if failed_call n then inl (- EOPNOTSUPP) else if INT_MAX <? number n then inl (- ERANGE) else inr (number n))
    else ret (if S_ISFIFO (st_mode (info s)) then inr (-1) else inl (- EOPNOTSUPP))) in
  match p with
  | inl e => ret (inl e)
  | inr p =>
    let! f := ask (Get_flags fd) in
    ret (if failed_call f then inl (value f) else if O_RDONLY (value f) || negb (O_NONBLOCK (value f)) then inl (- EACCES) else inr (Sink fd p (info s) 0))
  end.
(** The status, the owner, and the caller's two descriptor variables; [is_bound]: the static pointer is this owner. *)
Definition b41_navigation_output_take (is_bound : bool) (o : b41_navigation_output) (app_fd raw_fd : Z) : os (Z * b41_navigation_output * (Z * Z)) :=
  let keep status := ret (status, o, (app_fd, raw_fd)) in
  if (app_fd <? 0) || (raw_fd <? 0) || (app_fd =? raw_fd) then keep (- EINVAL) else
  if negb (bool_decide (nav_state o = B41_NAV_OUTPUT_EMPTY)) || is_bound then keep (- EALREADY) else
  let! a := sink_checked app_fd in
  match a with
  | inl e => keep e
  | inr a =>
    let! r := sink_checked raw_fd in
    match r with
    | inl e => keep e
    | inr r =>
      if bool_decide (sink_identity a = sink_identity r) && (pty a =? pty r) then keep (- EINVAL)
      else ret (0, Output B41_NAV_OUTPUT_OWNED 0 a r, (-1, -1))
    end
  end.
Definition nav_fail (o : b41_navigation_output) (error : Z) : Z * b41_navigation_output :=
  let e := if nav_error o =? 0 then error else nav_error o in (e, Output B41_NAV_OUTPUT_FAILED e (app o) (raw o)).

(** The count written and the status of the stream write under a blocked SIGPIPE. *)
Definition write_stream (fd : Z) (bytes : list Z) : os (Z * Z) :=
  let! m := ask Block_sigpipe in
  if negb (value m =? 0) then ret (-1, - value m) else
  let! p := ask Pending_sigpipe in
  if failed_call p then let! _ := ask Restore_mask in ret (-1, value p) else
  let! w := ask (Write fd bytes) in
  let n := if failed_call w then -1 else value w in
  let error := if failed_call w then value w else if value w =? len bytes then 0 else - EIO in
  let restore (error : Z) : os (Z * Z) := let! r := ask Restore_mask in ret (n, if negb (value r =? 0) && (error =? 0) then - value r else error) in
  if (error =? - EPIPE) && (number p =? 0) then
    let! d := ask Drain_sigpipe in
    if failed_call d && negb (value d =? - EAGAIN) then ret (n, error) else restore error
  else restore error.

Definition sink_of (o : b41_navigation_output) (kind : Z) : sink := if kind =? B41_HOST_APP_OUTPUT then app o else raw o.
Definition count_sink (o : b41_navigation_output) (kind n : Z) : b41_navigation_output :=
  let add (k : sink) := Sink (sink_fd k) (pty k) (sink_identity k) (u64 (delivered_bytes k + n)) in
  if n <=? 0 then o else
  if kind =? B41_HOST_APP_OUTPUT then Output (nav_state o) (nav_error o) (add (app o)) (raw o) else Output (nav_state o) (nav_error o) (app o) (add (raw o)).
(** The sink is still the one that was taken. *)
Definition sink_unchanged (k : sink) : os Z :=
  let! s := ask (Fstat (sink_fd k)) in
  if failed_call s then ret (value s) else
  if negb (bool_decide (info s = sink_identity k)) then ret (- ESTALE) else
  let! p := (if 0 <=? pty k then
      let! n := ask (Get_pty (sink_fd k)) in ret (if failed_call n then value n else if number n =? pty k then 0 else - ESTALE)
    else ret 0) in
  if negb (p =? 0) then ret p else
  let! f := ask (Get_flags (sink_fd k)) in
  ret (if failed_call f then value f else if negb (O_NONBLOCK (value f)) || O_RDONLY (value f) then - EACCES else 0).

(** What the worker keeps: the socket owner and the bound sinks, if any. *)
Record services := Services { agps_owner : b41_agps_owner; outputs : option b41_navigation_output }.
(** The static pointer takes the first owner of sinks. *)
Definition b41_navigation_output_bind (s : services) (o : b41_navigation_output) : Z * services :=
  if negb (bool_decide (nav_state o = B41_NAV_OUTPUT_OWNED)) then (- EINVAL, s) else
  match outputs s with Some _ => (- EALREADY, s) | None => (0, Services (agps_owner s) (Some o)) end.
Definition deliver (o : b41_navigation_output) (kind : Z) (bytes : list Z) : os (Z * b41_navigation_output) :=
  if negb (nav_error o =? 0) then ret (nav_error o, o) else
  if negb (bool_decide (nav_state o = B41_NAV_OUTPUT_OWNED)) then ret (nav_fail o (- EPERM)) else
  let k := sink_of o kind in
  let! u := sink_unchanged k in
  if negb (u =? 0) then ret (nav_fail o u) else
  let! w := write_stream (sink_fd k) bytes in
  let o := count_sink o kind w.1 in
  ret (if w.2 =? 0 then (0, o) else nav_fail o w.2).
Definition b41_navigation_dispatch_event (s : services) (at_ : Z) (event : option b41_host_event) : os (Z * services) :=
  match event with
  | None => ret (- EMSGSIZE, s)
  | Some e =>
    if (ev_length e =? 0) || (B41_HOST_OUTPUT_MAX <? ev_length e) then ret (- EMSGSIZE, s) else
    if (ev_kind e =? B41_HOST_FRAME_SLEEP) || (ev_kind e =? B41_HOST_FRAME_NETWORK) || (ev_kind e =? B41_HOST_FRAME_MEASUREMENT)
    then let! r := b41_agps_owner_send_event (agps_owner s) (Some (at_, e)) in ret (r.1, Services r.2 (outputs s)) else
    if (ev_kind e =? B41_HOST_APP_OUTPUT) || (ev_kind e =? B41_HOST_OUTPUT) then
      match outputs s with
      | None => ret (- EOPNOTSUPP, s)
      | Some o => let! r := deliver o (ev_kind e) (firstn (Z.to_nat (ev_length e)) (ev_bytes e)) in ret (r.1, Services (agps_owner s) (Some r.2))
      end
    else ret (- EOPNOTSUPP, s)
  end.

(** ** Requests: what the decoder accepts *)

Lemma le32_word a v r i : i = len a -> le32 (a ++ word v ++ r) i = u32 v.
Proof.
  intros ->. assert (B : forall k, 0 <= k -> byte_at (a ++ word v ++ r) (len a + k) = byte_at (word v ++ r) k)
    by (intros; rewrite byte_at_app_r by lia; f_equal; lia).
  unfold le32. rewrite (B 1), (B 2), (B 3) by lia. rewrite <- (Z.add_0_r (len a)), (B 0) by lia.
  change (byte_at (word v ++ r) 0) with (u8 v). change (byte_at (word v ++ r) 1) with (u8 (Z.shiftr v 8)).
  change (byte_at (word v ++ r) 2) with (u8 (Z.shiftr v 16)). change (byte_at (word v ++ r) 3) with (u8 (Z.shiftr v 24)).
  pose proof (u8_range v). pose proof (u8_range (Z.shiftr v 8)). pose proof (u8_range (Z.shiftr v 16)). unfold is_u8 in *.
  rewrite (lor_shiftl_add _ _ 8), (lor_shiftl_add _ _ 16), (lor_shiftl_add _ _ 24) by lia. rewrite !Z.shiftr_div_pow2 by lia. unfold u8, u32. dlia.
Qed.
Lemma word_of_slice p i : bytes_ok p -> 0 <= i -> i + 4 <= len p -> slice p i 4 = word (le32 p i).
Proof.
  intros Hp Hi Hl. unfold word. rewrite put32_le32 by exact Hp. change 4 with (2 + 2). rewrite slice_split, !slice_2 by lia. cbn [app].
  now replace (i + 2 + 1) with (i + 3) by lia.
Qed.
Lemma slice_rest p i : 0 <= i -> i <= len p -> skipn (Z.to_nat i) p = slice p i (len p - i).
Proof. intros. unfold slice. rewrite firstn_all2; [reflexivity|]. rewrite length_skipn. unfold len in *. lia. Qed.
(** The header, the length word and the rest of a packet. *)
Lemma packet_parts p n : bytes_ok p -> 8 <= n -> n + 4 <= len p ->
  p = word (le32 p 0) ++ word (le32 p 4) ++ slice p 8 (n - 8) ++ word (le32 p n) ++ skipn (Z.to_nat (n + 4)) p.
Proof.
  intros Hp Hn Hl. rewrite slice_rest by lia. rewrite <- !(word_of_slice p) by (exact Hp || lia). rewrite <- (slice_all p) at 1.
  replace (len p) with (4 + (4 + ((n - 8) + (4 + (len p - (n + 4)))))) at 1 by lia. rewrite !slice_split by lia. zc.
  replace (8 + (n - 8)) with n by lia. reflexivity.
Qed.

Definition encode_request (r : b41_agps_request) : list Z :=
  word 1 ++ word (rq_type r) ++ (if rq_type r =? 250 then [1] else []) ++ word (len (rq_payload r)) ++ rq_payload r.
Definition admissible (r : b41_agps_request) : Prop :=
  bytes_ok (rq_payload r) /\ 1 <= len (rq_payload r) /\ len (encode_request r) <= B41_AGPS_RX_MAX /\
  ((rq_type r = 250 /\ rq_parameter r = 35 /\ len (rq_payload r) <= B41_AGPS_PMTK_MAX /\
      exists text, rq_payload r = text ++ [0] /\ Forall (fun b => b <> 0) text) \/
   (binary_type (rq_type r) = true /\ rq_parameter r = (if rq_type r =? 264 then 118 else rq_type r - 256 + 62) /\
      (rq_type r = 262 -> len (rq_payload r) <= 8192))).

Lemma binary_not_text t : binary_type t = true -> (t =? 250) = false /\ is_u32 t.
Proof. unfold binary_type, is_u32. lia. Qed.
Lemma last_zero (l : list Z) : 1 <= len l -> byte_at l (len l - 1) = 0 -> exists text, l = text ++ [0] /\ len text = len l - 1.
Proof.
  intros Hl Hz. destruct (exists_last (l := l)) as (t & x & ->); [intros ->; rewrite len_nil in Hl; lia|]. exists t. rewrite len_app in *. change (len [x]) with 1 in *.
  rewrite byte_at_app_r in Hz by lia. replace (len t + 1 - 1 - len t) with 0 in Hz by lia. rewrite byte_at_cons_0 in Hz. subst x. split; [reflexivity|lia].
Qed.
Lemma no_zero_iff (l : list Z) : bool_decide (0 ∈ l) = false <-> Forall (fun b => b <> 0) l.
Proof. rewrite bool_decide_eq_false, Forall_forall. split; [intros H x Hx ->; contradiction|intros H Hin; now apply (H 0)]. Qed.

Lemma decode_sound p r : bytes_ok p -> b41_agps_receiver_decode (Some p) = inr r -> admissible r /\ p = encode_request r.
Proof.
  intros Hp. unfold b41_agps_receiver_decode. destruct (B41_AGPS_RX_MAX <? len p) eqn:G1; [discriminate|].
  destruct ((len p <? 8) || negb (le32 p 0 =? 1)) eqn:G2; [discriminate|]. assert (H1 : le32 p 0 = 1) by lia.
  destruct (Z.eqb_spec (le32 p 4) 250) as [T|T]; [|destruct (binary_type (le32 p 4)) eqn:B; [|discriminate]].
  - unfold decode_text. intros D. guards D. injection D as <-. cbn zeta in *. assert (H8 : byte_at p 8 = 1) by (pose proof (byte_at_u8 p 8 Hp); unfold is_u8 in *; lia).
    pose proof (packet_parts p 9 Hp ltac:(lia) ltac:(lia)) as E. change (9 - 8) with 1 in E. rewrite slice_1 in E by lia. rewrite H1, T, H8 in E.
    set (body := rest_after p 13) in *. change (skipn (Z.to_nat (9 + 4)) p) with body in E.
    assert (Hb : len body = len p - 13) by (unfold body, rest_after; rewrite slice_rest by lia; apply len_slice; lia).
    assert (El : le32 p 9 = len body) by lia. rewrite El in *.
    assert (Hbody : bytes_ok body) by now apply bytes_ok_skip.
    assert (Hz : byte_at body (len body - 1) = 0).
    { replace (len body - 1) with (len p - 14) by lia. unfold body, rest_after. rewrite byte_at_skip by lia.
      replace (13 + (len p - 14)) with (len p - 1) by lia. lia. }
    destruct (last_zero body) as (text & Et & Hlt); [lia|exact Hz|].
    assert (Hn : Forall (fun b => b <> 0) text).
    { apply no_zero_iff. replace text with (firstn (Z.to_nat (len body - 1)) body); [now apply orb_false_elim in G6|].
      rewrite <- Hlt, Et. unfold len. rewrite Nat2Z.id. apply take_app_length. }
    assert (Ee : p = encode_request (Request 250 35 body)) by exact E.
    split; [|exact Ee]. split; [exact Hbody|]. cbn [rq_payload rq_type rq_parameter]. split; [lia|]. split; [rewrite <- Ee; lia|]. left.
    split; [reflexivity|]. split; [reflexivity|]. split; [lia|]. eauto.
  - unfold decode_binary. destruct (len p <? 12) eqn:G3; [discriminate|]. destruct ((le32 p 8 =? 0) || negb (le32 p 8 =? len p - 12)) eqn:G4; [discriminate|].
    destruct ((le32 p 4 =? 262) && (8192 <? le32 p 8)) eqn:G5; [discriminate|]. intros [= <-]. destruct (binary_not_text _ B) as [T' _].
    pose proof (packet_parts p 8 Hp ltac:(lia) ltac:(lia)) as E. change (8 - 8) with 0 in E. rewrite slice_0 in E. cbn [app] in E. rewrite H1 in E.
    set (body := rest_after p 12) in *. change (skipn (Z.to_nat (8 + 4)) p) with body in E.
    assert (Hb : len body = len p - 12) by (unfold body, rest_after; rewrite slice_rest by lia; apply len_slice; lia).
    assert (El : le32 p 8 = len body) by lia. rewrite El in *. set (t := le32 p 4) in *.
    assert (Ee : p = encode_request (Request t (if t =? 264 then 118 else t - 256 + 62) body)) by (unfold encode_request; cbn [rq_type rq_payload]; rewrite T'; exact E).
    split; [|exact Ee]. split; [now apply bytes_ok_skip|]. cbn [rq_payload rq_type rq_parameter]. split; [lia|]. split; [rewrite <- Ee; lia|]. right.
    split; [exact B|]. split; [reflexivity|]. intros T2. rewrite T2 in *. lia.
Qed.

Lemma encode_accepted r : admissible r -> b41_agps_receiver_decode (Some (encode_request r)) = inr r.
Proof.
  destruct r as [t par body]. unfold admissible. cbn [rq_type rq_parameter rq_payload]. intros (Hb & H1 & Hm & Hcase). set (p := encode_request _) in *.
  assert (Hp : p = word 1 ++ word t ++ (if t =? 250 then [1] else []) ++ word (len body) ++ body) by reflexivity.
  assert (Hl : len p = 12 + (if t =? 250 then 1 else 0) + len body).
  { rewrite Hp, !len_app. change (len (word 1)) with 4. change (len (word t)) with 4. change (len (word (len body))) with 4.
    destruct (t =? 250); [change (len [1]) with 1|rewrite len_nil]; lia. }
  assert (Hu : is_u32 (len body)) by (unfold is_u32, B41_AGPS_RX_MAX in *; destruct (t =? 250); lia).
  assert (H0 : le32 p 0 = 1) by (rewrite Hp; exact (le32_word [] 1 _ 0 eq_refl)).
  assert (H4 : is_u32 t -> le32 p 4 = t) by (intros Ht; rewrite Hp; rewrite (le32_word (word 1) t _ 4 eq_refl); now apply u32_id).
  unfold b41_agps_receiver_decode. replace (B41_AGPS_RX_MAX <? len p) with false by lia.
  replace ((len p <? 8) || negb (le32 p 0 =? 1)) with false by (destruct (t =? 250); lia).
  destruct Hcase as [(-> & -> & Hpm & text & Et & Hn)|(B & -> & H262)].
  - rewrite H4 by (unfold is_u32; lia). cbn [Z.eqb Pos.eqb] in *. unfold decode_text.
    assert (H8 : byte_at p 8 = 1) by (rewrite Hp; reflexivity).
    assert (H9 : le32 p 9 = len body) by (rewrite Hp, !app_assoc, <- app_assoc; rewrite (le32_word ((word 1 ++ word 250) ++ [1]) (len body) body 9 eq_refl); now apply u32_id).
    assert (Hr : rest_after p 13 = body) by (unfold rest_after; rewrite Hp; reflexivity).
    rewrite H8, H9, Hr. replace ((len p <? 9) || (1 <? 1)) with false by lia. cbn [Z.eqb]. replace (len p <? 14) with false by lia.
    replace ((len body =? 0) || negb (len body =? len p - 13)) with false by lia. replace (B41_AGPS_PMTK_MAX <? len body) with false by lia.
    assert (Hlast : byte_at p (len p - 1) = 0).
    { replace (len p - 1) with (13 + (len body - 1)) by lia. rewrite <- byte_at_skip by lia. fold (rest_after p 13). rewrite Hr, Et, len_app. change (len [0]) with 1.
      rewrite byte_at_app_r by lia. now replace (len text + 1 - 1 - len text) with 0 by lia. }
    rewrite Hlast. cbn [Z.eqb negb orb]. replace (firstn (Z.to_nat (len body - 1)) body) with text; [now rewrite (proj2 (no_zero_iff text) Hn)|].
    rewrite Et, len_app. change (len [0]) with 1. replace (len text + 1 - 1) with (len text) by lia. unfold len. rewrite Nat2Z.id. symmetry. apply take_app_length.
  - destruct (binary_not_text t B) as [T Ht]. rewrite T in *. rewrite (H4 Ht), T, B. unfold decode_binary.
    assert (H8 : le32 p 8 = len body) by (rewrite Hp, app_nil_l, app_assoc; rewrite (le32_word (word 1 ++ word t) (len body) body 8 eq_refl); now apply u32_id).
    assert (Hr : rest_after p 12 = body) by (unfold rest_after; rewrite Hp; reflexivity).
    rewrite H8, Hr. replace (len p <? 12) with false by lia. replace ((len body =? 0) || negb (len body =? len p - 12)) with false by lia.
    now replace ((t =? 262) && (8192 <? len body)) with false by lia.
Qed.

(** C12. The decoder of assistance requests accepts exactly the reference encodings of
    admissible requests, and reports what they encode: strict extents, one
    terminator, no truncation and no padding. *)
Theorem agps_request_exact p r : bytes_ok p ->
  b41_agps_receiver_decode (Some p) = inr r <-> admissible r /\ p = encode_request r.
Proof. intros Hp. split; [now apply decode_sound|]. intros [Ha ->]. now apply encode_accepted. Qed.
Lemma agps_request_exact_witness : admissible (Request 258 64 [7; 8; 9]) /\ b41_agps_receiver_decode (Some (encode_request (Request 258 64 [7; 8; 9]))) = inr (Request 258 64 [7; 8; 9]).
Proof.
  assert (A : admissible (Request 258 64 [7; 8; 9])).
  { split; [concrete_bytes|]. split; [vm_compute; congruence|]. split; [vm_compute; congruence|]. right. split; [reflexivity|]. split; [reflexivity|discriminate]. }
  split; [exact A|]. apply agps_request_exact; [concrete_bytes|]. now split.
Defined.

(** ** The life of the socket owner

    What the service may see. The owner has no socket, holds a descriptor of a
    known inode, holds it after a failure, or has ended. *)

Inductive phase := Idle | Holding (fd dev ino : Z) | Broken (fd dev ino : Z) | Ended.
Definition visible (e : call * answer) : bool := match e.1 with Socket | Send _ _ | Close _ => true | _ => false end.
(** A datagram that was not accepted whole. *)
Definition bad_send (bytes : list Z) (a : answer) : bool := failed_call a || negb (value a =? len bytes).
(** [fstat] found the socket that was taken. *)
Definition is_socket (fd dev ino : Z) (e : call * answer) : Prop :=
  e.1 = Fstat fd /\ failed_call e.2 = false /\ S_ISSOCK (st_mode (info e.2)) = true /\ st_dev (info e.2) = dev /\ st_ino (info e.2) = ino.

Inductive packet : list Z -> Prop :=
| packet_absent : packet (word 1 ++ word 150 ++ [0])
| packet_text t : Forall (fun b => b <> 0) t -> len t <= B41_AGPS_PACKET_MAX - 14 -> packet (word 1 ++ word 150 ++ [1] ++ word (len t + 1) ++ t ++ [0])
| packet_selector : packet (word 1 ++ word 152)
| packet_configuration c : len c = B41_AGPS_CONFIGURATION_SIZE -> packet (word 1 ++ word 160 ++ word (len c) ++ c).

(** Every datagram and the one close directly follow a check of the descriptor; a
    datagram that is not accepted is the last one; nothing follows the close. *)
Inductive life : phase -> os_trace -> phase -> Prop :=
| life_nil ph : life ph [] ph
| life_quiet ph e s ph' : visible e = false -> life ph s ph' -> life ph (e :: s) ph'
| life_adopt fd dev ino e s ph' : 0 <= fd -> is_socket fd dev ino e -> life (Holding fd dev ino) s ph' -> life Idle (e :: s) ph'
| life_send fd dev ino e bytes a s ph' : is_socket fd dev ino e -> packet bytes ->
    life (if bad_send bytes a then Broken fd dev ino else Holding fd dev ino) s ph' -> life (Holding fd dev ino) (e :: (Send fd bytes, a) :: s) ph'
| life_break fd dev ino s ph' : life (Broken fd dev ino) s ph' -> life (Holding fd dev ino) s ph'
| life_close fd dev ino e a s ph' : is_socket fd dev ino e -> life Ended s ph' -> life (Broken fd dev ino) (e :: (Close fd, a) :: s) ph'
| life_end ph s ph' : life Ended s ph' -> life ph s ph'.

Lemma life_app ph s1 ph1 s2 ph2 : life ph s1 ph1 -> life ph1 s2 ph2 -> life ph (s1 ++ s2) ph2.
Proof. induction 1; intros H2; cbn; eauto using life. Qed.

Definition phase_of (o : b41_agps_owner) : phase :=
  if initialized o then
    match owner_state o with
    | B41_AGPS_EMPTY => Idle
    | B41_AGPS_OWNED => Holding (owner_fd o) (device o) (inode o)
    | B41_AGPS_FAILED => Broken (owner_fd o) (device o) (inode o)
    | B41_AGPS_CLOSED => Ended
    end
  else Idle.
Definition owner_ok (o : b41_agps_owner) : Prop :=
  initialized o = true ->
  match owner_state o with
  | B41_AGPS_EMPTY => owner_fd o = -1 /\ owner_error o = 0
  | B41_AGPS_CLOSED => owner_fd o = -1
  | B41_AGPS_OWNED => 0 <= owner_fd o /\ owner_error o = 0
  | B41_AGPS_FAILED => 0 <= owner_fd o
  end.

Inductive owner_op := O_init | O_take (fd : Z) (peer : list Z) | O_send (p : payload) | O_stop.
(** Buffers have the lengths they are passed with. *)
Definition payload_ok (p : payload) : Prop :=
  match p with
  | Data (Some (_, t)) n => 0 <= n <= len t
  | Configuration (Some (_, c)) => B41_AGPS_CONFIGURATION_SIZE <= len c
  | _ => True
  end.
Definition op_ok (op : owner_op) : Prop := match op with O_send p => payload_ok p | _ => True end.
Definition owner_do (op : owner_op) (o : b41_agps_owner) : os (Z * b41_agps_owner) :=
  match op with
  | O_init => b41_agps_owner_init o
  | O_take fd peer => let! r := b41_agps_owner_take o fd peer in ret r.1
  | O_send p => send_packet o p
  | O_stop => b41_agps_owner_stop o
  end.
Fixpoint owner_run (ops : list owner_op) (o : b41_agps_owner) : os b41_agps_owner :=
  match ops with [] => ret o | op :: ops => let! r := owner_do op o in owner_run ops r.2 end.

Lemma build_packet_shape o p bytes : payload_ok p -> build_packet o p = (0, bytes) -> packet bytes.
Proof.
  intros Hp. destruct p as [[[at_ t]|] n| |[[at_ c]|]]; unfold build_packet, b41_agps_data_packet, b41_agps_selector1_packet, b41_agps_configuration_packet; intros H.
  - guards H. injection H as <-. cbn in Hp. set (text := firstn (Z.to_nat n) t) in *. assert (Hl : len text = n) by (apply len_take; lia).
    assert (Hn : Forall (fun b => b <> 0) text) by (now apply no_zero_iff). unfold B41_AGPS_PACKET_MAX in *.
    rewrite u32_id by (unfold is_u32; lia). rewrite <- Hl. apply (packet_text text); [exact Hn|unfold B41_AGPS_PACKET_MAX; lia].
  - guards H. injection H as <-. apply packet_absent.
  - guards H. injection H as <-. apply packet_selector.
  - guards H. injection H as <-. cbn in Hp. set (c' := firstn _ c). assert (Hl : len c' = B41_AGPS_CONFIGURATION_SIZE).
    { unfold c'. apply (len_take c 668). unfold B41_AGPS_CONFIGURATION_SIZE in Hp. lia. }
    rewrite <- Hl. now apply packet_configuration.
  - discriminate.
Qed.

Definition lives (o : b41_agps_owner) (o' : b41_agps_owner) (s : os_trace) : Prop := owner_ok o' /\ life (phase_of o) s (phase_of o').
Lemma lives_refl o : owner_ok o -> lives o o [].
Proof. intros H. split; [exact H|apply life_nil]. Qed.

Lemma lives_quiet o s : owner_ok o -> Forall (fun e => visible e = false) s -> lives o o s.
Proof. intros Ho Hs. split; [exact Ho|]. induction Hs; [apply life_nil|now apply life_quiet]. Qed.
(** The check of the descriptor: success names the socket. *)
Lemma performs_identity o : performs (identity o) (fun status s => exists e, s = [e] /\ visible e = false /\
  (status = 0 -> is_socket (owner_fd o) (device o) (inode o) e)).
Proof.
  unfold identity. trace_step. destruct (failed_call p) eqn:F.
  - trace_step. eexists. split; [reflexivity|]. split; [reflexivity|]. unfold failed_call in F. lia.
  - trace_step; trace_step; (eexists; split; [reflexivity|]; split; [reflexivity|]).
    + discriminate.
    + intros _. unfold is_socket. cbn. split_and!; try exact F; try reflexivity; lia.
Qed.
Lemma performs_transmit o q : payload_ok q -> performs (transmit o q) (fun status s =>
  life (Holding (owner_fd o) (device o) (inode o)) s (if status =? 0 then Holding (owner_fd o) (device o) (inode o) else Broken (owner_fd o) (device o) (inode o))).
Proof.
  intros Hq. unfold transmit. eapply performs_bind; [apply performs_identity|]. intros i s (e & -> & Hv & Hi).
  assert (Hdead : life (Holding (owner_fd o) (device o) (inode o)) [e] (Broken (owner_fd o) (device o) (inode o))) by (apply life_quiet; [exact Hv|]; apply life_break, life_nil).
  destruct (Z.eqb_spec i 0) as [-> |N]; cbn [negb]; [|trace_step; rewrite (proj2 (Z.eqb_neq i 0) N); exact Hdead].
  destruct (build_packet o q) as [st bytes] eqn:B. destruct (Z.eqb_spec st 0) as [-> |N]; cbn [negb]; [|trace_step; rewrite (proj2 (Z.eqb_neq st 0) N); exact Hdead].
  pose proof (build_packet_shape o q bytes Hq B) as Hp. specialize (Hi eq_refl). trace_step. cbn [app].
  assert (Hgo : life (Holding (owner_fd o) (device o) (inode o)) (e :: [(Send (owner_fd o) bytes, p)])
    (if bad_send bytes p then Broken (owner_fd o) (device o) (inode o) else Holding (owner_fd o) (device o) (inode o))) by (apply life_send; [exact Hi|exact Hp|apply life_nil]).
  unfold bad_send in Hgo. destruct (failed_call p) eqn:F; [|destruct (value p =? len bytes) eqn:E]; cbn [negb orb] in Hgo |- *; trace_step; cbn [app].
  - unfold failed_call in F. replace (value p =? 0) with false by lia. exact Hgo.
  - exact Hgo.
  - exact Hgo.
Qed.
Lemma life_unlock ph s a ph' : life ph s ph' -> life ph (s ++ [(Mutex_unlock, a)]) ph'.
Proof. intros H. eapply life_app; [exact H|]. apply life_quiet; [reflexivity|apply life_nil]. Qed.

Lemma performs_send o q : owner_ok o -> payload_ok q -> performs (send_packet o q) (fun r s => lives o r.2 s).
Proof.
  intros Ho Hq. unfold send_packet. destruct (initialized o) eqn:I; cbn [negb]; [|trace_step; now apply lives_refl].
  trace_step. trace_step; [trace_step; apply lives_quiet; [exact Ho|repeat constructor]|]. trace_step; [trace_step; trace_step; apply lives_quiet; [exact Ho|repeat constructor]|].
  trace_step; [trace_step; trace_step; apply lives_quiet; [exact Ho|repeat constructor]|]. apply negb_false_iff, bool_decide_eq_true in G1.
  eapply performs_bind; [apply (performs_transmit o q Hq)|]. intros status s Hs. trace_step. trace_step. cbn [snd].
  assert (Hph : phase_of o = Holding (owner_fd o) (device o) (inode o)) by (unfold phase_of; now rewrite I, G1).
  split.
  - destruct (status =? 0); [exact Ho|]. intros _. cbn. specialize (Ho I). rewrite G1 in Ho. apply Ho.
  - rewrite Hph. apply life_quiet; [reflexivity|]. apply life_unlock. cbv beta in Hs. revert Hs. destruct (status =? 0); intros Hs; [now rewrite Hph|]. unfold phase_of. cbn. now rewrite I.
Qed.
Lemma performs_init o : owner_ok o -> performs (b41_agps_owner_init o) (fun r s => lives o r.2 s).
Proof.
  intros Ho. unfold b41_agps_owner_init. destruct (initialized o) eqn:I; [trace_step; now apply lives_refl|]. trace_step. cbn zeta.
  trace_step; trace_step; (split; [intros H; first [now split|discriminate H]|]); unfold phase_of; cbn; rewrite I; (apply life_quiet; [reflexivity|apply life_nil]).
Qed.
Lemma performs_adopt_checks fd peer : performs (adopt_checks fd peer) (fun c s =>
  match c with
  | inl e => e <> 0 /\ Forall (fun e => visible e = false) s
  | inr st => exists s0 e, s = s0 ++ [e] /\ Forall (fun e => visible e = false) s0 /\ is_socket fd (st_dev st) (st_ino st) e
  end).
Proof.
  unfold adopt_checks. trace_step. trace_step; [trace_step; split; [unfold failed_call in G; lia|repeat constructor]|].
  trace_step. trace_step; [trace_step; split; [unfold failed_call in G0; lia|repeat constructor]|].
  trace_step. trace_step; [trace_step; split; [unfold failed_call in G1; lia|repeat constructor]|].
  trace_step; [trace_step; split; [discriminate|repeat constructor]|]. trace_step.
  exists [(Getsockopt_type fd, p); (Getpeername fd, p0)]. eexists. split; [reflexivity|]. split; [repeat constructor|].
  unfold is_socket. cbn [fst snd]. split_and!; try exact G1; try reflexivity. destruct (S_ISSOCK (st_mode (info p1))); [reflexivity|]. rewrite ?orb_true_r in G2. discriminate.
Qed.
Lemma performs_take o fd peer : owner_ok o -> performs (b41_agps_owner_take o fd peer) (fun r s =>
  lives o r.1.2 s /\ Forall (fun e => visible e = false) s /\
  (if r.1.1 =? 0 then r.2 = -1 /\ 0 <= fd /\ owner_state r.1.2 = B41_AGPS_OWNED /\ owner_fd r.1.2 = fd else r.1.2 = o /\ r.2 = fd)).
Proof.
  intros Ho. unfold b41_agps_owner_take.
  assert (Hq : forall s e, Forall (fun e => visible e = false) s -> e <> 0 -> let r := (e, o, fd) in lives o r.1.2 s /\ Forall (fun e => visible e = false) s /\
    (if r.1.1 =? 0 then r.2 = -1 /\ 0 <= fd /\ owner_state r.1.2 = B41_AGPS_OWNED /\ owner_fd r.1.2 = fd else r.1.2 = o /\ r.2 = fd)).
  { intros s e Hs He. cbn. rewrite (proj2 (Z.eqb_neq e 0) He). split; [now apply lives_quiet|]. now split. }
  trace_step; [trace_step; now apply Hq|]. trace_step. trace_step; [trace_step; apply Hq; [repeat constructor|lia]|].
  trace_step; [trace_step; trace_step; apply Hq; [repeat constructor|discriminate]|].
  apply negb_false_iff, bool_decide_eq_true in G1. assert (I : initialized o = true) by (destruct (initialized o); [reflexivity|discriminate]).
  assert (Hph : phase_of o = Idle) by (unfold phase_of; now rewrite I, G1). assert (Hfd : 0 <= fd) by lia.
  eapply performs_bind; [apply performs_adopt_checks|]. intros [e|st] s Hs; trace_step; cbv beta iota; trace_step.
  - destruct Hs as [Hne Hs]. apply Hq; [|exact Hne]. constructor; [reflexivity|]. apply Forall_app. split; [exact Hs|repeat constructor].
  - destruct Hs as (s0 & e & -> & Hs0 & He). cbn [fst snd Z.eqb]. split; [|split; [|repeat split; reflexivity || exact Hfd]].
    + split; [intros _; cbn; specialize (Ho I); rewrite G1 in Ho; now split|].
      rewrite Hph. apply life_quiet; [reflexivity|]. rewrite <- app_assoc. eapply life_app; [|eapply life_adopt; [exact Hfd|exact He|]].
      * clear -Hs0. induction Hs0; [apply life_nil|now apply life_quiet].
      * apply life_quiet; [reflexivity|apply life_nil].
    + constructor; [reflexivity|]. rewrite !Forall_app. split; [split; [exact Hs0|]|]; repeat constructor. destruct He as [He _]. destruct e as [q x]. cbn in He. now subst q.
Qed.
Lemma performs_stop o : owner_ok o -> performs (b41_agps_owner_stop o) (fun r s =>
  lives o r.2 s /\ (owner_fd o < 0 -> Forall (fun e => visible e = false) s) /\ (r.2 = o \/ owner_state r.2 = B41_AGPS_CLOSED)).
Proof.
  intros Ho. unfold b41_agps_owner_stop. destruct (initialized o) eqn:I; cbn [negb]; [|trace_step; split; [now apply lives_refl|split; [constructor|now left]]].
  trace_step. trace_step; [trace_step; split; [split; [exact Ho|]; apply life_quiet; [reflexivity|apply life_nil]|split; [repeat constructor|now left]]|].
  set (R := fun (_ : Z) s => life (phase_of o) s Ended /\ (owner_fd o < 0 -> s = [])).
  eapply (performs_bind _ _ R).
  - trace_step; [|trace_step; split; [apply life_end, life_nil|reflexivity]]. eapply performs_bind; [apply performs_identity|].
    intros i s (e & -> & Hv & Hi). trace_step.
    + apply Z.eqb_eq in G1. specialize (Hi G1). trace_step. trace_step. split; [|lia]. cbn [app].
      assert (Hb : life (Broken (owner_fd o) (device o) (inode o)) [e; (Close (owner_fd o), p0)] Ended) by (apply life_close; [exact Hi|apply life_nil]).
      unfold phase_of. rewrite I. specialize (Ho I). destruct (owner_state o); [lia|now apply life_break|exact Hb|lia].
    + trace_step. split; [|lia]. cbn. apply life_quiet; [exact Hv|apply life_end, life_nil].
  - intros st s [Hs Hq]. trace_step. trace_step. cbn [snd]. split; [split|split; [|now right]].
    + intros _. cbn. specialize (Ho I). destruct (Z.leb_spec 0 (owner_fd o)); [reflexivity|]. destruct (owner_state o); lia.
    + change (phase_of (Owner _ _ _ _ _ _ _)) with Ended. apply life_quiet; [reflexivity|]. now apply life_unlock.
    + intros Hneg. rewrite (Hq Hneg). repeat constructor.
Qed.
Lemma performs_owner op o : owner_ok o -> op_ok op -> performs (owner_do op o) (fun r s => lives o r.2 s).
Proof.
  intros Ho Hop. destruct op as [|fd peer|q|]; cbn [owner_do].
  - now apply performs_init.
  - eapply performs_bind; [now apply performs_take|]. intros r s [H _]. trace_step. now rewrite app_nil_r.
  - now apply performs_send.
  - eapply performs_impl; [now apply performs_stop|]. now intros r s (H & _).
Qed.

(** C11. The socket owner, whatever its history of calls and whatever the system answers:
    every datagram is one of the four packet forms and directly follows a check
    that the descriptor is still the socket that was taken; after a datagram
    that is not accepted whole, or any other failure, no further one is sent;
    the descriptor is closed at most once, after the same check; and nothing
    is sent or closed afterwards. *)
Theorem agps_owner_protocol ops packet_at : Forall op_ok ops ->
  performs (owner_run ops (zeroed_owner packet_at)) (fun o s => life Idle s (phase_of o)).
Proof.
  intros Hops. change Idle with (phase_of (zeroed_owner packet_at)). assert (H0 : owner_ok (zeroed_owner packet_at)) by discriminate.
  revert H0. generalize (zeroed_owner packet_at) as o. induction Hops as [|op ops Hop _ IH]; intros o Ho; cbn [owner_run]; [trace_step; apply life_nil|].
  eapply performs_bind; [now apply performs_owner|]. intros r s [Hr Hl]. eapply performs_impl; [apply (IH r.2 Hr)|]. intros o' s' Hl'. eapply life_app; eassumption.
Qed.

(** What the protocol excludes: after the close nothing is sent or closed; after
    a datagram that was not accepted none is sent. *)
Lemma life_ended s ph : life Ended s ph -> Forall (fun e => visible e = false) s /\ ph = Ended.
Proof. remember Ended as p eqn:E. induction 1; try discriminate; subst; [now split| |now apply IHlife]. destruct (IHlife eq_refl). split; [now constructor|assumption]. Qed.
Lemma life_after_close ph t1 fd a t2 ph' : life ph (t1 ++ (Close fd, a) :: t2) ph' -> Forall (fun e => visible e = false) t2.
Proof.
  intros H. remember (t1 ++ (Close fd, a) :: t2) as s eqn:E. revert t1 E. induction H; intros t1 E; eauto.
  - now destruct t1.
  - destruct t1 as [|x t1]; injection E as -> ->; [discriminate|eauto].
  - destruct t1 as [|x t1]; injection E as -> ->; [destruct H0; discriminate|eauto].
  - destruct t1 as [|x [|y t1]]; injection E as; subst; try discriminate; [destruct H; discriminate|eauto].
  - destruct t1 as [|x [|y t1]]; injection E as; subst; [destruct H; discriminate|now apply life_ended in H0 as [? _]|].
    apply life_ended in H0 as [H0 _]. apply Forall_app in H0 as [_ H0]. now inversion H0.
Qed.

(** ** The endpoint *)

Definition opened (e : call * answer) : list Z := match e with (Socket, a) => if failed_call a then [] else [value a] | _ => [] end.
Definition closed (e : call * answer) : list Z := match e.1 with Close fd => [fd] | _ => [] end.
Lemma quiet_moves h s : Forall (fun e => visible e = false) s -> moves opened closed h s h.
Proof. intros H. apply moves_quiet_all. eapply Forall_impl; [exact H|]. intros [[] a]; cbn; now try discriminate. Qed.
Definition fresh_endpoint (e : b41_agps_endpoint) : Prop := entered e = false /\ initialized (ipc e) = false.

Lemma performs_connect fd r before : performs (connect_checked fd r before) (fun c s => Forall (fun e => visible e = false) s /\
  (c = 0 -> exists a, In (Connect fd (peer_of r), a) s /\ failed_call a = false /\
     (r = B41_AGPS_ENDPOINT_FILESYSTEM -> exists b, last s = Some (Lstat agps_path, b) /\ failed_call b = false /\ same_socket before (info b) = true))).
Proof.
  unfold connect_checked. trace_step. trace_step; [trace_step; split; [repeat constructor|unfold failed_call in G; lia]|].
  destruct (bool_decide (r = B41_AGPS_ENDPOINT_FILESYSTEM)) eqn:R.
  - trace_step. trace_step; [trace_step; split; [repeat constructor|unfold failed_call in G0; lia]|].
    destruct (same_socket before (info p0)) eqn:S; trace_step; (split; [repeat constructor|]); [|discriminate].
    intros _. exists p. split; [now left|]. split; [exact G|]. intros _. exists p0. auto.
  - trace_step. split; [repeat constructor|]. intros _. exists p. split; [now left|]. split; [exact G|]. apply bool_decide_eq_false in R. contradiction.
Qed.

Lemma performs_route : performs select_route (fun sel s => Forall (fun e => visible e = false) s /\
  match sel with inl e => e <> 0 | inr (r, _) => r <> B41_AGPS_ENDPOINT_UNSELECTED end).
Proof.
  unfold select_route. trace_step. trace_step. split; [repeat constructor|]. destruct (failed_call p) eqn:F; repeat case_match; simplify_eq; try discriminate.
  unfold failed_call in F. lia.
Qed.
Definition attached (x : Z * b41_agps_owner * Z * b41_agps_endpoint_route) (s : os_trace) : Prop :=
  let '(status, o, fd, r) := x in
  if status =? 0 then owner_state o = B41_AGPS_OWNED /\ moves opened closed [] s [owner_fd o] /\ r <> B41_AGPS_ENDPOINT_UNSELECTED /\
    exists a, In (Connect (owner_fd o) (peer_of r), a) s /\ failed_call a = false
  else (owner_fd o = -1 /\ owner_ok o /\ owner_state o <> B41_AGPS_OWNED) /\ (fd < 0 /\ moves opened closed [] s [] \/ 0 <= fd /\ moves opened closed [] s [fd]).
Lemma moves_socket a s0 s : failed_call a = false -> Forall (fun e => visible e = false) s0 -> Forall (fun e => visible e = false) s ->
  moves opened closed [] (s0 ++ (Socket, a) :: s) [value a].
Proof.
  intros Ha H0 H. eapply moves_app; [now apply quiet_moves|]. eapply (moves_cons _ _ _ []); [reflexivity|]. cbn. rewrite Ha. now apply quiet_moves.
Qed.
Lemma performs_attach o : owner_ok o -> owner_fd o = -1 -> owner_state o <> B41_AGPS_OWNED -> performs (endpoint_attach o) attached.
Proof.
  intros Ho Hfd Hst. assert (Hown : owner_fd o = -1 /\ owner_ok o /\ owner_state o <> B41_AGPS_OWNED) by auto. unfold endpoint_attach.
  eapply performs_bind; [apply performs_route|]. intros [e|[r before]] s0 [Q0 H0]; cbv beta iota in *.
  { trace_step. rewrite app_nil_r. unfold attached. rewrite (proj2 (Z.eqb_neq e 0) H0). split; [exact Hown|]. left. split; [lia|now apply quiet_moves]. }
  trace_step. destruct (failed_call p) eqn:F.
  { trace_step. unfold attached. unfold failed_call in F. replace (value p =? 0) with false by lia. split; [exact Hown|]. left. split; [lia|].
    eapply moves_app; [now apply quiet_moves|]. apply moves_quiet; cbn; unfold failed_call; [now rewrite F|reflexivity]. }
  assert (Hfd0 : 0 <= value p) by (unfold failed_call in F; lia).
  eapply performs_bind; [apply performs_connect|]. intros c s1 [Q1 H1]. destruct (Z.eqb_spec c 0) as [-> |N]; cbn [negb].
  - specialize (H1 eq_refl) as (a & Hin & Ha & _). eapply performs_bind; [now apply performs_take|]. intros [[st o'] fd'] s2 (Hl & Q2 & Hc). cbn [fst snd] in Hc, Hl. trace_step.
    rewrite app_nil_r. unfold attached. assert (Hm : moves opened closed [] (s0 ++ (Socket, p) :: s1 ++ s2) [value p]) by (apply moves_socket; [exact F|exact Q0|now apply Forall_app]).
    destruct (st =? 0).
    + destruct Hc as (_ & _ & Hs & Hf). rewrite Hf. split; [exact Hs|]. split; [exact Hm|]. split; [exact H0|]. exists a. split; [|exact Ha]. rewrite in_app_iff. right. right. apply in_app_iff. now left.
    + destruct Hc as [-> ->]. split; [exact Hown|]. right. now split.
  - trace_step. rewrite app_nil_r. unfold attached. rewrite (proj2 (Z.eqb_neq c 0) N). split; [exact Hown|]. right. split; [exact Hfd0|]. now apply moves_socket.
Qed.
Lemma performs_init_fresh o : initialized o = false -> performs (b41_agps_owner_init o) (fun r s => Forall (fun e => visible e = false) s /\
  owner_ok r.2 /\ owner_fd r.2 = -1 /\ owner_state r.2 = B41_AGPS_EMPTY).
Proof.
  intros I. unfold b41_agps_owner_init. rewrite I. trace_step. cbn zeta. trace_step; trace_step; (split; [repeat constructor|]); cbn.
  - split; [now intros _|]. now split.
  - split; [discriminate|]. now split.
Qed.

(** Connecting the endpoint, whatever the system answers: success leaves exactly one
    descriptor open, the one the owner holds, connected to the address of the
    selected route; every other end closes what was opened exactly once and
    keeps its error, and opening again opens nothing. *)
Theorem agps_endpoint_descriptor e :
  (fresh_endpoint e -> performs (b41_agps_endpoint_open e) (fun r s =>
     entered r.2 = true /\
     if r.1 =? 0 then
       owner_state (ipc r.2) = B41_AGPS_OWNED /\ moves opened closed [] s [owner_fd (ipc r.2)] /\
       exists a, In (Connect (owner_fd (ipc r.2)) (peer_of (route r.2)), a) s /\ failed_call a = false
     else owner_state (ipc r.2) <> B41_AGPS_OWNED /\ moves opened closed [] s [] /\ endpoint_error r.2 = r.1)) /\
  (entered e = true -> performs (b41_agps_endpoint_open e) (fun r s => s = [] /\ r.1 <> 0 /\ r.2 = e)).
Proof.
  split.
  - intros [He Hi]. unfold b41_agps_endpoint_open. rewrite He. eapply performs_bind; [now apply performs_init_fresh|]. intros [i o] s0 (Q0 & Ho & Hfd & Hst). cbn [fst snd] in *.
    destruct (Z.eqb_spec i 0) as [-> |N]; cbn [negb].
    2:{ trace_step. rewrite app_nil_r. split; [reflexivity|]. cbn. rewrite (proj2 (Z.eqb_neq i 0) N). split; [rewrite Hst; discriminate|]. split; [now apply quiet_moves|reflexivity]. }
    eapply performs_bind; [apply performs_attach; [exact Ho|exact Hfd|now rewrite Hst]|]. intros [[[st o'] fd] r] s1 H1. unfold attached in H1.
    destruct (st =? 0) eqn:E.
    + destruct H1 as (Hs & Hm & Hr & a & Hin & Ha). rewrite bool_decide_eq_false_2 by exact Hr. trace_step. rewrite app_nil_r. cbn [fst snd Z.eqb entered ipc route].
      split; [reflexivity|]. split; [exact Hs|]. split; [eapply moves_app; [now apply quiet_moves|exact Hm]|]. exists a. split; [apply in_app_iff; now right|exact Ha].
    + destruct H1 as ((Hf & Hok & Hns) & Hfdc). set (R := fun (_ : answer) s => moves opened closed [] (s1 ++ s) []).
      eapply (performs_bind _ _ R).
      { unfold R. trace_step.
        - destruct Hfdc as [[? _]|[_ Hm]]; [lia|]. trace_step. eapply moves_app; [exact Hm|]. eapply (moves_cons _ _ _ []); [reflexivity|]. now apply moves_nil.
        - destruct Hfdc as [[_ Hm]|[? _]]; [|lia]. trace_step. now rewrite app_nil_r. }
      intros x s2 H2. unfold R in H2. eapply performs_bind; [now apply performs_stop|]. intros [st' o''] s3 (_ & Q3 & Ho3). trace_step. cbn [fst snd] in *.
      rewrite E, app_nil_r. split; [reflexivity|]. cbn [ipc endpoint_error]. split; [|split; [|reflexivity]].
      * destruct Ho3 as [-> | ->]; [exact Hns|discriminate].
      * eapply moves_app; [now apply quiet_moves|]. rewrite app_assoc. eapply moves_app; [exact H2|]. apply quiet_moves, Q3. lia.
  - intros He. unfold b41_agps_endpoint_open. rewrite He. trace_step. split; [reflexivity|]. split; [|reflexivity]. cbn. destruct (Z.eqb_spec (endpoint_error e) 0); [discriminate|assumption].
Qed.

(** A short life: take, one datagram, stop. *)
Lemma agps_owner_protocol_witness :
  performs (owner_run [O_init; O_take 5 (peer_of B41_AGPS_ENDPOINT_ABSTRACT); O_send (Data (Some (0x1000, [36; 42])) 2); O_send Selector1; O_stop] (zeroed_owner 0x9000))
    (fun o s => life Idle s (phase_of o)).
Proof. apply (agps_owner_protocol _ 0x9000). repeat (apply List.Forall_cons; [first [exact I|split; vm_compute; congruence]|]). apply List.Forall_nil. Defined.
Lemma agps_endpoint_descriptor_witness : performs (b41_agps_endpoint_open (Endpoint true (- EPROTO) B41_AGPS_ENDPOINT_UNSELECTED (zeroed_owner 0x9000)))
  (fun r s => s = [] /\ r.1 <> 0 /\ r.2 = Endpoint true (- EPROTO) B41_AGPS_ENDPOINT_UNSELECTED (zeroed_owner 0x9000)).
Proof. now apply agps_endpoint_descriptor. Defined.
