(* ===== verification/HostWorker.v ===== *)
(** * The worker of the GNSS host

    [b41_frame_worker.c]: the detached thread that drains the callback queue and
    dispatches each event, and its controller, which starts it, marks it as
    exposed to the engine, stops it within a deadline and releases what was
    never exposed. The queue is the one of [HostQueue]; the dispatch is the
    function behind the worker's pointer, of which the class [Dispatcher] says
    what the thread relies on. [AgpsHost]'s dispatch is an instance here, the
    one that production sets is an instance in [SlotService]. *)

From S2P Require Import Prelude Trace HostQueue HostText AgpsHost.
Open Scope Z_scope.
Open Scope io_scope.

(** ** The thread *)

Definition POLLIN : Z := 1.
Definition poll_error (revents : Z) : bool := negb (Z.land revents (8 + 16 + 32) =? 0).
Definition poll_in (revents : Z) : bool := negb (Z.land revents POLLIN =? 0).
Definition latch (x : object) (error : Z) : os unit := let! _ := ask (Latch x error) in ret tt.
(** The event [b41_host_adapter_take] filled: bytes, at most as many as its buffer has. *)
Definition event_of (a : answer) : b41_host_event := delivered (number a, u8 <$> firstn (Z.to_nat B41_HOST_OUTPUT_MAX) (stored a)).
(** A function that the worker's pointer can hold: the services, where the
    bytes of the event lie, and the event. *)
Definition dispatcher : Type := services -> Z -> option b41_host_event -> os (Z * services).

(** The idle wait: [None] to go on, the error otherwise. *)
Definition idle (wake : Z) : os (option Z) :=
  let! r := ask (Poll wake 25) in
  if failed_call r then ret (if value r =? - EINTR then None else Some (value r)) else
  if 0 <? value r then
    if poll_error (number r) then ret (Some (- EIO)) else
    let! d := ask (Read wake) in
    ret (if failed_call d && negb (value d =? - EAGAIN) && negb (value d =? - EINTR) then Some (value d) else None)
  else ret None.

(** The loop of [run]; [event_at] is where its event lies. [None]: fuel spent. *)
Fixpoint drain (fuel : nat) (dispatch : dispatcher) (wake event_at : Z) (s : services) : os (option services) :=
  match fuel with
  | O => ret None
  | S fuel =>
    let! stop := ask (Load_stop The_worker) in
    if negb (value stop =? 0) then ret (Some s) else
    let! e := ask Adapter_error in
    if negb (value e =? 0) then let! _ := latch The_worker (value e) in ret (Some s) else
    let! t := ask Adapter_take in
    if value t =? 0 then
      let! r := dispatch s event_at (Some (event_of t)) in
      if negb (r.1 =? 0) then let! _ := latch The_worker r.1 in ret (Some r.2) else drain fuel dispatch wake event_at r.2
    else if negb (value t =? - EAGAIN) && negb (value t =? - EBUSY) then let! _ := latch The_worker (value t) in ret (Some s)
    else
      let! i := idle wake in
      match i with
      | Some e => let! _ := latch The_worker e in ret (Some s)
      | None => drain fuel dispatch wake event_at s
      end
  end.
Definition event_one : list Z := [1; 0; 0; 0; 0; 0; 0; 0].
(** A word written to an eventfd: 0 or the error. *)
Definition signal (fd : Z) : os Z :=
  let! w := ask (Write fd event_one) in ret (if failed_call w then value w else if value w =? 8 then 0 else - EIO).

(** ** The controller *)

Inductive b41_worker_state := B41_WORKER_FRESH | B41_WORKER_RUNNING | B41_WORKER_QUIESCED | B41_WORKER_QUARANTINED | B41_WORKER_RELEASED.
#[export] Instance b41_worker_state_eq_dec : EqDecision b41_worker_state.
Proof. solve_decision. Defined.
(** [worker_dispatch] is the pointer that may be set before the start; [None] is null. *)
Record b41_frame_worker := Worker {
  worker_state : b41_worker_state; exposed : bool; wake_fd : Z; done_fd : Z; receivers : list (Z * file_stat); worker_dispatch : option dispatcher }.
Definition with_state (w : b41_frame_worker) (st : b41_worker_state) : b41_frame_worker :=
  Worker st (exposed w) (wake_fd w) (done_fd w) (receivers w) (worker_dispatch w).
(** [run]: the thread of a started worker, whose pointer is not null. *)
Definition dispatch_of (w : b41_frame_worker) : dispatcher := default b41_navigation_dispatch_event (worker_dispatch w).
Definition worker_thread (fuel : nat) (w : b41_frame_worker) (event_at : Z) (s : services) : os (option services) :=
  let! r := drain fuel (dispatch_of w) (wake_fd w) event_at s in
  match r with
  | None => ret None
  | Some s =>
    let! e := signal (done_fd w) in
    if e =? 0 then ret (Some s) else let! _ := latch The_worker e in ret (Some s)
  end.

(** The guard of each descriptor is tested before its [fstat]. *)
Fixpoint start_checks (ipc_fd : Z) (previous fds : list Z) : os (Z + list (Z * file_stat)) :=
  match fds with
  | [] => ret (inr [])
  | fd :: fds =>
    if (fd <? 0) || (fd =? ipc_fd) || bool_decide (fd ∈ previous) then ret (inl (- EINVAL)) else
    let! s := ask (Fstat fd) in
    if failed_call s then ret (inl (value s)) else
    let! r := start_checks ipc_fd (fd :: previous) fds in
    ret (match r with inl e => inl e | inr l => inr ((fd, info s) :: l) end)
  end.
Definition close_both (wake done : Z) : os unit := let! _ := ask (Close wake) in let! _ := ask (Close done) in ret tt.
(** The thread is created detached. *)
Definition create_detached : os Z :=
  let! d := ask Attr_detach in
  let! status := if value d =? 0 then let! c := ask Create_thread in ret (value c) else ret (value d) in
  let! _ := ask Attr_destroy in ret status.
(** The status, the worker and the caller's descriptor variables. *)
Definition b41_frame_worker_start (w : b41_frame_worker) (ipc : b41_agps_owner) (fds : list Z) : os (Z * b41_frame_worker * list Z) :=
  if negb (initialized ipc) || (2 <? len fds) then ret (- EINVAL, w, fds) else
  if negb (bool_decide (worker_state w = B41_WORKER_FRESH)) then ret (- EALREADY, w, fds) else
  if negb (bool_decide (owner_state ipc = B41_AGPS_OWNED)) then ret (- ENODATA, w, fds) else
  let! ids := start_checks (owner_fd ipc) [] fds in
  match ids with
  | inl e => ret (e, w, fds)
  | inr ids =>
    let! wake := ask Eventfd in
    if failed_call wake then ret (value wake, w, fds) else
    let! done := ask Eventfd in
    if failed_call done then let! _ := ask (Close (value wake)) in ret (value done, w, fds) else
    let! i := ask Attr_init in
    if negb (value i =? 0) then let! _ := close_both (value wake) (value done) in ret (- value i, w, fds) else
    let started := Worker (worker_state w) false (value wake) (value done) ids (Some (dispatch_of w)) in
    let! l := create_detached in
    if negb (l =? 0) then let! _ := close_both (value wake) (value done) in ret (- l, started, fds) else
    ret (0, with_state started B41_WORKER_RUNNING, (fun _ => -1) <$> fds)
  end.
Definition b41_frame_worker_expose (w : b41_frame_worker) : Z * b41_frame_worker :=
  if negb (bool_decide (worker_state w = B41_WORKER_RUNNING)) then (- EINVAL, w) else
  (0, Worker (worker_state w) true (wake_fd w) (done_fd w) (receivers w) (worker_dispatch w)).

(** Times are pairs of seconds and nanoseconds. *)
Record timespec := Time { tv_sec : Z; tv_nsec : Z }.
Definition valid_time (t : timespec) : bool := (0 <=? tv_sec t) && (0 <=? tv_nsec t) && (tv_nsec t <? 1000000000).
Definition clock_of (a : answer) : timespec := Time (number a) (le_of (stored a)).
Definition remaining (deadline : timespec) : os Z :=
  let! c := ask Clock in
  if failed_call c then ret (value c) else
  let now := clock_of c in
  if (tv_sec deadline <? tv_sec now) || ((tv_sec deadline =? tv_sec now) && (tv_nsec deadline <=? tv_nsec now)) then ret 0 else
  if 2147483647 / 1000 <=? tv_sec deadline - tv_sec now then ret (- ERANGE) else
  let ns := (tv_sec deadline - tv_sec now) * 1000000000 + tv_nsec deadline - tv_nsec now in
  ret ((ns + 999999) / 1000000).
(** The wait for the thread's last write; [None]: fuel spent. *)
Fixpoint await_done (fuel : nat) (done : Z) (deadline : timespec) : os (option Z) :=
  match fuel with
  | O => ret None
  | S fuel =>
    let! ms := remaining deadline in
    if ms <? 0 then ret (Some ms) else
    let! r := ask (Poll done ms) in
    if failed_call r then (if value r =? - EINTR then await_done fuel done deadline else ret (Some (value r))) else
    if negb (value r =? 0) && poll_error (number r) then ret (Some (- EIO)) else
    if negb (value r =? 0) && poll_in (number r) then ret (Some 0) else
    if negb (value r =? 0) then ret (Some (- EIO)) else
    let! again := remaining deadline in
    if again =? 0 then ret (Some (- ETIMEDOUT)) else await_done fuel done deadline
  end.
Definition b41_frame_worker_quiesce (fuel : nat) (w : b41_frame_worker) (deadline : timespec) : os (option (Z * b41_frame_worker)) :=
  if negb (valid_time deadline) then ret (Some (- EINVAL, w)) else
  if bool_decide (worker_state w = B41_WORKER_QUARANTINED) then
    let! f := ask (Load_error The_worker) in ret (Some (if value f =? 0 then - EBUSY else value f, w)) else
  if negb (bool_decide (worker_state w = B41_WORKER_RUNNING)) then ret (Some (- EALREADY, w)) else
  let! _ := ask (Store_stop The_worker) in
  let! k := ask (Write (wake_fd w) event_one) in
  let! status := if failed_call k && negb (value k =? - EAGAIN) then ret (Some (value k)) else await_done fuel (done_fd w) deadline in
  match status with
  | None => ret None
  | Some status =>
    let! f := ask (Load_error The_worker) in
    let status := if value f =? 0 then status else value f in
    if negb (status =? 0) || exposed w then
      let! _ := if negb (status =? 0) then latch The_worker status else ret tt in
      ret (Some (if status =? 0 then - EBUSY else status, with_state w B41_WORKER_QUARANTINED))
    else ret (Some (0, with_state w B41_WORKER_QUIESCED))
  end.

(** All identities before any close. *)
Fixpoint same_identities (l : list (Z * file_stat)) : os Z :=
  match l with
  | [] => ret 0
  | (fd, id) :: l =>
    let! s := ask (Fstat fd) in
    if failed_call s then ret (value s) else if negb (bool_decide (info s = id)) then ret (- ESTALE) else same_identities l
  end.
(** Each closed descriptor becomes -1; the first failure ends it. *)
Fixpoint close_receivers (l : list (Z * file_stat)) : os (Z * list (Z * file_stat)) :=
  match l with
  | [] => ret (0, [])
  | (fd, id) :: l =>
    let! c := ask (Close fd) in
    if failed_call c then ret (value c, (-1, id) :: l) else
    let! r := close_receivers l in ret (r.1, (-1, id) :: r.2)
  end.
Definition quarantine (w : b41_frame_worker) (status : Z) : os (Z * b41_frame_worker) :=
  let! _ := latch The_worker status in ret (status, with_state w B41_WORKER_QUARANTINED).
(** [ipc] is the socket owner as the thread left it. *)
Definition b41_frame_worker_release_unused (w : b41_frame_worker) (ipc : b41_agps_owner) : os (Z * b41_frame_worker * b41_agps_owner) :=
  let refuse (w : b41_frame_worker) (ipc : b41_agps_owner) (status : Z) : os (Z * b41_frame_worker * b41_agps_owner) :=
    let! q := quarantine w status in ret (q, ipc) in
  if negb (bool_decide (worker_state w = B41_WORKER_QUIESCED)) || exposed w then ret (- EPERM, w, ipc) else
  let! i := same_identities (receivers w) in
  if negb (i =? 0) then refuse w ipc i else
  let! c := close_receivers (receivers w) in
  let w := Worker (worker_state w) (exposed w) (wake_fd w) (done_fd w) c.2 (worker_dispatch w) in
  if negb (c.1 =? 0) then refuse w ipc c.1 else
  let! o := b41_agps_owner_stop ipc in
  if negb (o.1 =? 0) then refuse w o.2 o.1 else
  let! k := ask (Close (wake_fd w)) in
  let w := Worker (worker_state w) (exposed w) (-1) (done_fd w) (receivers w) (worker_dispatch w) in
  if failed_call k then refuse w o.2 (value k) else
  let! d := ask (Close (done_fd w)) in
  let w := Worker (worker_state w) (exposed w) (wake_fd w) (-1) (receivers w) (worker_dispatch w) in
  if failed_call d then refuse w o.2 (value d) else ret (0, with_state w B41_WORKER_RELEASED, o.2).

(** ** What leaves the host *)

Definition outgoing_of (e : call * answer) : option call :=
  match e.1 with Send fd bytes => Some (Send fd bytes) | Write fd bytes => Some (Write fd bytes) | _ => None end.
Definition outgoing (s : os_trace) : list call := omap outgoing_of s.
Definition taken_of (e : call * answer) : option b41_host_event :=
  match e.1 with Adapter_take => if value e.2 =? 0 then Some (event_of e.2) else None | _ => None end.
Definition taken (s : os_trace) : list b41_host_event := omap taken_of s.
Definition rounds (s : os_trace) : nat := length (omap (fun e => match e.1 with Load_stop The_worker => Some e.2 | _ => None end) s).
(** The last thing done was to keep a failure. *)
Definition latched (s : os_trace) : Prop := exists s0 e a, s = s0 ++ [(Latch The_worker e, a)] /\ e <> 0.
Lemma outgoing_app s1 s2 : outgoing (s1 ++ s2) = outgoing s1 ++ outgoing s2.
Proof. apply omap_app. Qed.
Lemma taken_app s1 s2 : taken (s1 ++ s2) = taken s1 ++ taken s2.
Proof. apply omap_app. Qed.
Lemma rounds_app s1 s2 : rounds (s1 ++ s2) = (rounds s1 + rounds s2)%nat.
Proof. unfold rounds. now rewrite omap_app, length_app. Qed.
Lemma latched_app_r s1 s2 : latched s2 -> latched (s1 ++ s2).
Proof. intros (s0 & e & a & -> & N). exists (s1 ++ s0), e, a. split; [now rewrite app_assoc|exact N]. Qed.

(** An answer that excuses a refusal: a lock, a descriptor that is not the one
    that was taken, a signal mask, a transfer that is not whole. *)
Definition sinks (s : services) : list sink := match outputs s with Some o => [app o; raw o] | None => [] end.
Definition owner_changed (o : b41_agps_owner) (i : file_stat) : bool := negb (S_ISSOCK (st_mode i)) || negb (st_dev i =? device o) || negb (st_ino i =? inode o).
Definition faulty (s : services) (e : call * answer) : Prop :=
  let a := e.2 in
  match e.1 with
  | Mutex_lock | Block_sigpipe | Restore_mask => value a <> 0
  | Fstat fd => value a < 0 \/ fd = owner_fd (agps_owner s) /\ owner_changed (agps_owner s) (info a) = true \/ exists k, In k (sinks s) /\ fd = sink_fd k /\ info a <> sink_identity k
  | Get_pty fd => value a < 0 \/ exists k, In k (sinks s) /\ fd = sink_fd k /\ number a <> pty k
  | Get_flags _ => value a < 0 \/ O_NONBLOCK (value a) = false \/ O_RDONLY (value a) = true
  | Pending_sigpipe => value a < 0
  | Send _ b | Write _ b => value a <> len b
  | _ => False
  end.
(** A transfer that took every byte. *)
Definition whole (e : call * answer) : Prop := match e.1 with Send _ b | Write _ b => value e.2 = len b | _ => True end.
(** The outcome of one dispatch that ought to become [q]: that very transfer,
    whole, or a refusal that [ok] or an answer excuses. The queue is left alone. *)
Definition carried (s : services) (q : call) (ok : Prop) (status : Z) (t : os_trace) : Prop :=
  taken t = [] /\ rounds t = 0%nat /\
  (status = 0 /\ outgoing t = [q] /\ Forall whole t \/ status <> 0 /\ (outgoing t = [] \/ outgoing t = [q]) /\ (~ ok \/ Exists (faulty s) t)).
Definition untouched (t : os_trace) : Prop := taken t = [] /\ rounds t = 0%nat /\ outgoing t = [].
Lemma untouched_app s1 s2 : untouched s1 -> untouched s2 -> untouched (s1 ++ s2).
Proof. intros (A1 & B1 & C1) (A2 & B2 & C2). unfold untouched. now rewrite taken_app, rounds_app, outgoing_app, A1, A2, B1, B2, C1, C2. Qed.
Lemma untouched_whole t : untouched t -> Forall whole t.
Proof.
  intros (_ & _ & H). induction t as [|[q a] t IH]; [constructor|]. destruct (outgoing_of (q, a)) eqn:Q; [unfold outgoing in H; cbn [omap list_omap] in H; rewrite Q in H; discriminate|].
  constructor; [destruct q; try discriminate Q; exact I|apply IH]. unfold outgoing in H. cbn [omap list_omap] in H. now rewrite Q in H.
Qed.
Lemma carried_refused s q (ok : Prop) status t : status <> 0 -> untouched t -> ~ ok \/ Exists (faulty s) t -> carried s q ok status t.
Proof. intros N (A & B & C) H. split; [exact A|]. split; [exact B|]. right. split; [exact N|]. split; [now left|exact H]. Qed.
Lemma carried_around s q ok status t1 t2 t3 : untouched t1 -> carried s q ok status t2 -> untouched t3 -> carried s q ok status (t1 ++ t2 ++ t3).
Proof.
  intros U1 (A2 & B2 & H) U3. pose proof (untouched_whole _ U1) as W1. pose proof (untouched_whole _ U3) as W3. destruct U1 as (A1 & B1 & C1), U3 as (A3 & B3 & C3).
  unfold carried. rewrite !taken_app, !rounds_app, !outgoing_app, A1, A2, A3, B1, B2, B3, C1, C3. split; [reflexivity|]. split; [reflexivity|]. cbn [Datatypes.app]. rewrite !app_nil_r.
  destruct H as [(S & O & W)|(S & O & X)]; [left|right]; (split; [exact S|]); (split; [exact O|]); [now repeat apply Forall_app_2|]. destruct X as [X|X]; [now left|right]. rewrite !Exists_app. auto.
Qed.
Lemma carried_weaken s q (ok ok' : Prop) status t : (ok' -> ok) -> carried s q ok status t -> carried s q ok' status t.
Proof. intros H (A & B & C). split; [exact A|]. split; [exact B|]. destruct C as [C|(S & O & [X|X])]; [now left|right..]; (split; [exact S|]); (split; [exact O|]); [left; auto|now right]. Qed.

(** *** A datagram *)

Definition owner_ready (o : b41_agps_owner) : Prop := initialized o = true /\ owner_error o = 0 /\ owner_state o = B41_AGPS_OWNED.
Definition packable (o : b41_agps_owner) (p : payload) : Prop := (build_packet o p).1 = 0.
Section Datagram.
Variables (s : services) (p : payload) (bytes : list Z).
Let o := agps_owner s.
Hypothesis packed : packable o p -> (build_packet o p).2 = bytes.
Lemma performs_identity_quiet : performs (identity o) (fun i t => untouched t /\ (i <> 0 -> Exists (faulty s) t)).
Proof.
  unfold identity. trace_step. unfold failed_call. trace_step; [trace_step; split; [now split|]; intros _; apply Exists_cons; left; left; cbn; lia|].
  trace_step; trace_step; (split; [now split|]); [|contradiction]. intros _. apply Exists_cons. left. right. left. split; [reflexivity|exact G0].
Qed.
Lemma performs_transmit_out : performs (transmit o p) (carried s (Send (owner_fd o) bytes) (packable o p)).
Proof.
  unfold transmit. eapply performs_bind; [apply performs_identity_quiet|]. intros i t [U F]. destruct (Z.eqb_spec i 0) as [-> |N]; cbn [negb]; [|trace_step; rewrite app_nil_r; apply carried_refused; auto].
  unfold packable in *. destruct (build_packet o p) as [st b]. cbn [fst snd] in *. destruct (Z.eqb_spec st 0) as [-> |N]; cbn [negb]; [|trace_step; rewrite app_nil_r; apply carried_refused; auto].
  rewrite (packed eq_refl). trace_step. pose proof (untouched_whole _ U) as W. destruct U as (A & B & C).
  assert (Hw : forall status x, (status = 0 <-> value x = len bytes) -> carried s (Send (owner_fd o) bytes) (0 = 0) status (t ++ [(Send (owner_fd o) bytes, x)])).
  { intros status x Hx. split; [now rewrite taken_app, A|]. split; [now rewrite rounds_app, B|]. rewrite outgoing_app, C. destruct (Z.eq_dec status 0) as [Z|Z]; [left|right]; (split; [exact Z|]).
    - split; [reflexivity|]. apply Forall_app. split; [exact W|]. repeat constructor. now apply Hx.
    - split; [now right|]. right. rewrite Exists_app. right. apply Exists_cons. left. cbn. now rewrite <- Hx. }
  pose proof (len_nonneg bytes). unfold failed_call. trace_step; [trace_step; apply Hw; lia|]. trace_step; trace_step; apply Hw; [|lia]. split; [discriminate|lia].
Qed.
Lemma performs_send_out : performs (send_packet o p) (fun r t => (r.1 = 0 -> r.2 = o) /\ owner_fd r.2 = owner_fd o /\ carried s (Send (owner_fd o) bytes) (owner_ready o /\ packable o p) r.1 t).
Proof.
  unfold send_packet, owner_ready. destruct (initialized o); cbn [negb]; [|trace_step; split; [discriminate|]; split; [reflexivity|]; apply carried_refused; [discriminate|now split|left; intros [[X _] _]; discriminate X]].
  trace_step. trace_step; [trace_step; split; [cbn; lia|]; split; [reflexivity|]; apply carried_refused; [cbn; lia|now split|]; right; apply Exists_cons; left; cbn; lia|].
  destruct (Z.eqb_spec (owner_error o) 0) as [E|E]; cbn [negb]; [|trace_step; trace_step; split; [contradiction|]; split; [reflexivity|]; apply carried_refused; [exact E|now split|left; tauto]].
  case_bool_decide as O; cbn [negb]; [|trace_step; trace_step; split; [discriminate|]; split; [reflexivity|]; apply carried_refused; [discriminate|now split|left; tauto]].
  eapply performs_bind; [apply performs_transmit_out|]. intros st t Ht. cbv beta in Ht. trace_step. trace_step. cbn [fst snd]. split; [intros ->; reflexivity|]. split; [now destruct (st =? 0)|].
  apply (carried_around _ _ _ st [(Mutex_lock, p0)] t [(Mutex_unlock, p1)]); [now split| |now split]. eapply carried_weaken; [|exact Ht]. tauto.
Qed.
End Datagram.

(** *** A sink *)

Lemma performs_write_stream s k bytes : performs (write_stream (sink_fd k) bytes) (fun r t => carried s (Write (sink_fd k) bytes) True r.2 t).
Proof.
  unfold write_stream. pose proof (len_nonneg bytes) as L. trace_step. trace_step; [trace_step; apply carried_refused; [cbn; lia|now split|right; apply Exists_cons; left; cbn; lia]|].
  trace_step. unfold failed_call. trace_step; [trace_step; trace_step; apply carried_refused; [cbn; lia|now split|right; apply Exists_cons; right; apply Exists_cons; left; cbn; lia]|]. trace_step. cbn zeta.
  set (error := if value p1 <? 0 then value p1 else if value p1 =? len bytes then 0 else - EIO). assert (He : error = 0 <-> value p1 = len bytes).
  { unfold error. destruct (Z.ltb_spec (value p1) 0); [lia|]. destruct (Z.eqb_spec (value p1) (len bytes)); [tauto|]. split; [discriminate|contradiction]. }
  assert (Hbad : forall st t, error <> 0 -> st <> 0 -> untouched t -> carried s (Write (sink_fd k) bytes) True st ((Block_sigpipe, p) :: (Pending_sigpipe, p0) :: (Write (sink_fd k) bytes, p1) :: t)).
  { intros st t N Nst (U1 & U2 & U3). split; [exact U1|]. split; [exact U2|]. right. split; [exact Nst|]. split; [right; change (Write (sink_fd k) bytes :: outgoing t = [Write (sink_fd k) bytes]); now rewrite U3|].
    right. do 2 (apply Exists_cons; right). apply Exists_cons. left. cbn. tauto. }
  assert (Hrest : performs (let! r := ask Restore_mask in ret (if value p1 <? 0 then -1 else value p1, if negb (value r =? 0) && (error =? 0) then - value r else error)) (fun r t =>
    carried s (Write (sink_fd k) bytes) True r.2 ((Block_sigpipe, p) :: (Pending_sigpipe, p0) :: (Write (sink_fd k) bytes, p1) :: t))).
  { trace_step. trace_step. cbn [snd]. destruct (Z.eqb_spec error 0) as [E|E]; [|rewrite andb_false_r; apply Hbad; [exact E|exact E|now split]]. rewrite andb_true_r. split; [reflexivity|]. split; [reflexivity|].
    destruct (Z.eqb_spec (value p2) 0) as [R|R]; cbn [negb]; [left|right]; (split; [try lia; exact E|]).
    - split; [reflexivity|]. repeat (apply Forall_cons_2; [exact I || (cbn; tauto)|]). constructor.
    - split; [now right|]. right. do 3 (apply Exists_cons; right). apply Exists_cons. now left. }
  fold error. trace_step; [|exact Hrest]. assert (N : error <> 0) by (apply andb_true_iff in G1 as [G1 _]; intros E; rewrite E in G1; discriminate). trace_step. trace_step; [trace_step; cbn [snd]; apply Hbad; [exact N|exact N|now split]|].
  trace_step. trace_step. cbn [snd]. rewrite (proj2 (Z.eqb_neq _ _) N), andb_false_r. apply Hbad; [exact N|exact N|now split].
Qed.
Section Output.
Variables (s : services) (o : b41_navigation_output) (k : sink).
Hypothesis bound : outputs s = Some o.
Hypothesis member : k = app o \/ k = raw o.
Lemma sink_member : In k (sinks s).
Proof. unfold sinks. rewrite bound. destruct member as [-> | ->]; cbn; auto. Qed.
Lemma performs_sink_unchanged : performs (sink_unchanged k) (fun u t => untouched t /\ (u <> 0 -> Exists (faulty s) t)).
Proof.
  pose proof sink_member as M. unfold sink_unchanged, failed_call. trace_step. trace_step; [trace_step; split; [now split|]; intros _; apply Exists_cons; left; left; cbn; lia|].
  case_bool_decide as Hi; cbn [negb]; [|trace_step; split; [now split|]; intros _; apply Exists_cons; left; right; right; now exists k].
  eapply (performs_bind _ _ (fun u t => untouched t /\ (u <> 0 -> Exists (faulty s) t))).
  { trace_step; [|trace_step; split; [now split|contradiction]]. trace_step. trace_step. split; [now split|]. intros N. apply Exists_cons. left. cbn. destruct (Z.ltb_spec (value p0) 0); [now left|]. right. exists k. split; [exact M|]. split; [reflexivity|].
    destruct (Z.eqb_spec (number p0) (pty k)); [contradiction|assumption]. }
  intros u t [U F]. destruct (Z.eqb_spec u 0) as [-> |N]; cbn [negb].
  - trace_step. trace_step. split; [apply (untouched_app [_]); [now split|]; apply untouched_app; [exact U|now split]|]. intros N. apply Exists_cons. right. apply Exists_app. right. apply Exists_cons. left. cbn [faulty fst snd].
    destruct (Z.ltb_spec (value p0) 0); [now left|right]. destruct (O_NONBLOCK (value p0)); cbn [negb orb] in N; [right|now left]. destruct (O_RDONLY (value p0)); [reflexivity|contradiction].
  - trace_step. rewrite app_nil_r. split; [apply (untouched_app [_]); [now split|exact U]|]. intros _. apply Exists_cons. right. auto.
Qed.
End Output.

(** *** One event through the navigation dispatch *)

Definition event_text (e : b41_host_event) : list Z := firstn (Z.to_nat (ev_length e)) (ev_bytes e).
Definition is_frame (e : b41_host_event) : bool := (ev_kind e =? B41_HOST_FRAME_SLEEP) || (ev_kind e =? B41_HOST_FRAME_NETWORK) || (ev_kind e =? B41_HOST_FRAME_MEASUREMENT).
Definition is_output (e : b41_host_event) : bool := (ev_kind e =? B41_HOST_APP_OUTPUT) || (ev_kind e =? B41_HOST_OUTPUT).
(** Frames go to the assistance service as one packet, outputs to the sink of their kind. *)
Definition expected (s : services) (e : b41_host_event) : call :=
  if is_frame e then Send (owner_fd (agps_owner s)) (word 1 ++ word 150 ++ [1] ++ word (u32 (ev_length e + 1)) ++ event_text e ++ [0])
  else Write (match outputs s with Some o => sink_fd (sink_of o (ev_kind e)) | None => -1 end) (event_text e).
(** The buffer of the event, at [at_], and that of the packet do not meet. *)
Definition apart (o : b41_agps_owner) (at_ : Z) : Prop :=
  at_ + B41_HOST_OUTPUT_MAX <= UINTPTR_MAX /\ packet_at o + B41_AGPS_PACKET_MAX <= UINTPTR_MAX /\ (at_ + B41_HOST_OUTPUT_MAX <= packet_at o \/ packet_at o + B41_AGPS_PACKET_MAX <= at_).
(** What the dispatch may not refuse: a frame without a zero byte when the
    socket is owned, an output when the sinks are. *)
Definition output_ready (o : b41_navigation_output) : Prop := nav_error o = 0 /\ nav_state o = B41_NAV_OUTPUT_OWNED.
Definition admitted (s : services) (at_ : Z) (e : b41_host_event) : Prop :=
  0 < ev_length e /\
  (is_frame e = true /\ owner_ready (agps_owner s) /\ apart (agps_owner s) at_ /\ Forall (fun b => b <> 0) (event_text e) \/
   is_frame e = false /\ is_output e = true /\ exists o, outputs s = Some o /\ output_ready o).

(** The descriptors of the services do not change. *)
Definition same_sinks (s s' : services) : Prop :=
  owner_fd (agps_owner s') = owner_fd (agps_owner s) /\
  match outputs s, outputs s' with
  | Some o, Some o' => sink_fd (app o') = sink_fd (app o) /\ sink_fd (raw o') = sink_fd (raw o)
  | None, None => True
  | _, _ => False
  end.
Lemma same_sinks_refl s : same_sinks s s.
Proof. split; [reflexivity|]. now destruct (outputs s). Qed.
(** Services that differ in the count of delivered bytes only. *)
Definition uncounted (k : sink) : sink := Sink (sink_fd k) (pty k) (sink_identity k) 0.
Definition uncounted_outputs (o : b41_navigation_output) : b41_navigation_output := Output (nav_state o) (nav_error o) (uncounted (app o)) (uncounted (raw o)).
Definition alike (s s' : services) : Prop := agps_owner s' = agps_owner s /\ uncounted_outputs <$> outputs s' = uncounted_outputs <$> outputs s.
Lemma alike_refl s : alike s s.
Proof. now split. Qed.
Lemma alike_outputs s s' o : alike s s' -> outputs s = Some o -> exists o', outputs s' = Some o' /\ uncounted_outputs o' = uncounted_outputs o.
Proof. intros [_ H] E. rewrite E in H. destruct (outputs s') as [o'|]; [|discriminate]. exists o'. split; [reflexivity|]. exact (inj Some _ _ H). Qed.
Lemma alike_sinks s s' : alike s s' -> uncounted <$> sinks s' = uncounted <$> sinks s.
Proof. intros [_ H]. unfold sinks. destruct (outputs s), (outputs s'); try discriminate; [|reflexivity]. injection H as _ _ H1 H2 H3 H4 H5 H6. cbn. unfold uncounted. congruence. Qed.
Lemma expected_alike s s' e : alike s s' -> expected s' e = expected s e.
Proof.
  intros [H1 H2]. unfold expected. rewrite H1. destruct (is_frame e); [reflexivity|]. destruct (outputs s), (outputs s'); try discriminate; [|reflexivity].
  injection H2 as _ _ Ha _ _ Hr _ _. unfold sink_of. destruct (ev_kind e =? B41_HOST_APP_OUTPUT); congruence.
Qed.
Lemma admitted_alike s s' at_ e : alike s s' -> admitted s at_ e -> admitted s' at_ e.
Proof.
  intros A [L [(F & R & P & Z)|(F & O & o & Ho & Hr)]]; (split; [exact L|]); [left|right].
  - destruct A as [-> _]. do 3 (split; [assumption|]). assumption.
  - split; [exact F|]. split; [exact O|]. destruct (alike_outputs _ _ _ A Ho) as (o' & -> & E). exists o'. split; [reflexivity|]. injection E as E1 E2 _ _ _ _ _ _. destruct Hr. split; congruence.
Qed.
Lemma faulty_alike s s' e : alike s s' -> faulty s' e -> faulty s e.
Proof.
  intros A. pose proof (alike_sinks _ _ A) as K. destruct A as [O _]. destruct e as [q a].
  assert (Hk : forall k', In k' (sinks s') -> exists k, In k (sinks s) /\ sink_fd k = sink_fd k' /\ sink_identity k = sink_identity k' /\ pty k = pty k').
  { intros k' Hk. apply (in_map uncounted) in Hk. change (map uncounted (sinks s')) with (uncounted <$> sinks s') in Hk. rewrite K in Hk. apply in_map_iff in Hk as (k & E & Hk). exists k. split; [exact Hk|]. injection E as -> -> ->. now split. }
  destruct q; cbn [faulty fst snd]; rewrite ?O; try tauto.
  - intros [H|[H|(k' & M & E & N)]]; [tauto|tauto|]. right. right. destruct (Hk k' M) as (k & Mk & F1 & F2 & _). exists k. rewrite F1, F2. now split.
  - intros [H|(k' & M & E & N)]; [tauto|]. right. destruct (Hk k' M) as (k & Mk & F1 & _ & F3). exists k. rewrite F1, F3. now split.
Qed.

Lemma packable_data o p : match p with
  | Data (Some (at_, source)) n => 0 <= n <= B41_AGPS_PACKET_MAX - 14 -> aliased at_ n (packet_at o) (n + 14) = false -> Forall (fun b => b <> 0) (firstn (Z.to_nat n) source) -> packable o p
  | Data None n => n = 0 -> packable o p
  | Configuration (Some (at_, _)) => aliased at_ B41_AGPS_CONFIGURATION_SIZE (packet_at o) (12 + B41_AGPS_CONFIGURATION_SIZE) = false -> packable o p
  | Configuration None => True
  | Selector1 => packable o p
  end.
Proof.
  unfold packable. destruct p as [[[at_ source]|] n| |[[at_ source]|]]; cbn [build_packet]; [| |reflexivity| |exact I].
  - intros L A Z. unfold b41_agps_data_packet. rewrite bool_decide_true by now eexists. cbn [negb andb orb]. rewrite (proj2 (Z.ltb_ge _ _)) by lia.
    apply no_zero_iff in Z. rewrite Z, (proj2 (Z.ltb_ge _ _)) by lia. now rewrite A.
  - intros ->. reflexivity.
  - intros A. unfold b41_agps_configuration_packet. now rewrite A.
Qed.
Lemma apart_inside o at_ i n m : apart o at_ -> 0 <= i -> 0 <= n -> i + n <= B41_HOST_OUTPUT_MAX -> 0 <= m <= B41_AGPS_PACKET_MAX -> aliased (at_ + i) n (packet_at o) m = false.
Proof. intros (H1 & H2 & H3) ? ? ? ?. unfold aliased. destruct H3; lia. Qed.
Lemma performs_event_packet s at_ e : is_frame e = true -> 0 < ev_length e <= B41_HOST_OUTPUT_MAX -> len (ev_bytes e) = B41_HOST_OUTPUT_MAX ->
  performs (b41_agps_owner_send_event (agps_owner s) (Some (at_, e))) (fun r t => (r.1 = 0 -> r.2 = agps_owner s) /\ carried s (expected s e) (admitted s at_ e) r.1 t).
Proof.
  intros K L Lb. unfold b41_agps_owner_send_event, expected. rewrite (proj2 (Z.ltb_ge _ _)) by lia. fold (is_frame e). rewrite K. unfold b41_agps_owner_send_data.
  eapply performs_impl; [apply (performs_send_out s (Data (Some (at_, ev_bytes e)) (ev_length e)) (word 1 ++ word 150 ++ [1] ++ word (u32 (ev_length e + 1)) ++ event_text e ++ [0]))|].
  - unfold packable, build_packet, b41_agps_data_packet. intros B. destruct (_ || _); [discriminate|]. destruct (_ <? _); [discriminate|]. destruct (bool_decide _); [discriminate|]. destruct (_ <? _); [discriminate|]. now destruct (aliased _ _ _ _).
  - intros r t (H1 & _ & H2). split; [exact H1|]. eapply carried_weaken; [|exact H2]. intros [_ [(_ & R & A & Z)|(F & _)]]; [|congruence]. split; [exact R|].
    apply (packable_data (agps_owner s) (Data (Some (at_, ev_bytes e)) (ev_length e))); [unfold B41_HOST_OUTPUT_MAX, B41_AGPS_PACKET_MAX in *; lia| |exact Z].
    pose proof (apart_inside _ _ 0 (ev_length e) (ev_length e + 14) A) as X. rewrite Z.add_0_r in X. apply X; unfold B41_HOST_OUTPUT_MAX, B41_AGPS_PACKET_MAX in *; lia.
Qed.
Lemma uncounted_count o kind n : uncounted_outputs (count_sink o kind n) = uncounted_outputs o.
Proof. unfold count_sink. destruct (n <=? 0); [reflexivity|]. now destruct (kind =? B41_HOST_APP_OUTPUT). Qed.
Lemma nav_fail_error o e : e <> 0 -> (nav_fail o e).1 <> 0.
Proof. intros H. unfold nav_fail. cbn [fst]. now destruct (Z.eqb_spec (nav_error o) 0). Qed.
Lemma performs_deliver s o kind bytes : outputs s = Some o ->
  performs (deliver o kind bytes) (fun r t => (r.1 = 0 -> uncounted_outputs r.2 = uncounted_outputs o) /\ carried s (Write (sink_fd (sink_of o kind)) bytes) (output_ready o) r.1 t).
Proof.
  intros Ho. set (k := sink_of o kind). assert (M : k = app o \/ k = raw o) by (unfold k, sink_of; destruct (kind =? B41_HOST_APP_OUTPUT); auto). unfold deliver, output_ready.
  destruct (Z.eqb_spec (nav_error o) 0) as [E|E]; cbn [negb]; [|trace_step; split; [contradiction|]; apply carried_refused; [exact E|now split|left; tauto]].
  case_bool_decide as O; cbn [negb]; [|trace_step; pose proof (nav_fail_error o (- EPERM) ltac:(discriminate)); split; [contradiction|]; apply carried_refused; [assumption|now split|left; tauto]].
  fold k. eapply performs_bind; [apply (performs_sink_unchanged s o k Ho M)|]. intros u t [U F]. cbn zeta.
  destruct (Z.eqb_spec u 0) as [-> |N]; cbn [negb]; [|trace_step; pose proof (nav_fail_error o u N); rewrite app_nil_r; split; [contradiction|]; apply carried_refused; auto].
  eapply performs_bind; [apply performs_write_stream|]. intros [n st] t' C. cbn [fst snd] in *. trace_step. rewrite app_nil_r.
  assert (C' : carried s (Write (sink_fd k) bytes) (nav_error o = 0 /\ nav_state o = B41_NAV_OUTPUT_OWNED) st (t ++ t')).
  { eapply carried_weaken; [|rewrite <- (app_nil_r t'); apply carried_around; [exact U|exact C|now split]]. now intros. }
  destruct (Z.eqb_spec st 0) as [-> |N]; [split; [intros _; apply uncounted_count|exact C']|]. pose proof (nav_fail_error (count_sink o kind n) st N) as NF. split; [contradiction|].
  destruct C' as (A & B & [(Z & _)|(_ & X)]); [contradiction|]. split; [exact A|]. split; [exact B|]. right. now split.
Qed.

(** ** The interface of a dispatch *)

(** What the worker relies on in the function behind its pointer: what an event
    ought to become, which events may not be refused, and that a dispatch does
    that or refuses for a reason. *)
Class Dispatcher (d : dispatcher) := {
  carries : services -> b41_host_event -> call;
  accepts : services -> Z -> b41_host_event -> Prop;
  carries_alike s s' e : alike s s' -> carries s' e = carries s e;
  accepts_alike s s' at_ e : alike s s' -> accepts s at_ e -> accepts s' at_ e;
  dispatch_performs s at_ e : event_ok e -> bytes_ok (ev_bytes e) ->
    performs (d s at_ (Some e)) (fun r t => (r.1 = 0 -> alike s r.2) /\ carried s (carries s e) (accepts s at_ e) r.1 t) }.
Arguments carries d {_} s e.
Arguments accepts d {_} s at_ e.

Lemma navigation_performs s at_ e : event_ok e -> performs (b41_navigation_dispatch_event s at_ (Some e)) (fun r t =>
  (r.1 = 0 -> alike s r.2) /\ carried s (expected s e) (admitted s at_ e) r.1 t).
Proof.
  intros [L Lb]. unfold b41_navigation_dispatch_event. rewrite (proj2 (Z.ltb_ge B41_HOST_OUTPUT_MAX _)) by lia. rewrite orb_false_r.
  assert (Hno : forall st, st <> 0 -> ~ admitted s at_ e -> performs (ret (st, s)) (fun r t => (r.1 = 0 -> alike s r.2) /\ carried s (expected s e) (admitted s at_ e) r.1 t)).
  { intros st N A. trace_step. split; [intros _; apply alike_refl|]. apply carried_refused; [exact N|now split|now left]. }
  destruct (Z.eqb_spec (ev_length e) 0) as [Z|Z]; [apply Hno; [discriminate|]; intros [X _]; lia|]. fold (is_frame e). destruct (is_frame e) eqn:K.
  - eapply performs_bind; [apply performs_event_packet; [exact K|lia|exact Lb]|]. intros r t [H1 H2]. trace_step. rewrite app_nil_r. split; [|exact H2]. intros R. split; [exact (H1 R)|reflexivity].
  - fold (is_output e). destruct (is_output e) eqn:O; [|apply Hno; [discriminate|]; intros [_ [(X & _)|(_ & X & _)]]; congruence].
    destruct (outputs s) as [o|] eqn:Ho; [|apply Hno; [discriminate|]; intros [_ [(X & _)|(_ & _ & o & X & _)]]; congruence].
    eapply performs_bind; [apply (performs_deliver s o (ev_kind e) _ Ho)|]. intros r t [H1 H2]. trace_step. rewrite app_nil_r. split; [intros R; split; [reflexivity|]; cbn; now rewrite Ho, (H1 R)|].
    unfold expected. rewrite K, Ho. eapply carried_weaken; [|exact H2]. intros [_ [(X & _)|(_ & _ & o' & X & R)]]; congruence.
Qed.
#[export] Program Instance navigation_dispatcher : Dispatcher b41_navigation_dispatch_event := {| carries := expected; accepts := admitted |}.
Next Obligation. intros s s' e. apply expected_alike. Qed.
Next Obligation. intros s s' at_ e. apply admitted_alike. Qed.
Next Obligation. intros s at_ e He _. now apply navigation_performs. Qed.

(** ** The thread drains the queue in order *)

Lemma event_of_ok a : event_ok (event_of a) /\ bytes_ok (ev_bytes (event_of a)).
Proof.
  unfold event_of, delivered. cbn [fst snd]. set (l := u8 <$> firstn (Z.to_nat B41_HOST_OUTPUT_MAX) (stored a)). assert (L : 0 <= len l <= B41_HOST_OUTPUT_MAX).
  { split; [apply len_nonneg|]. unfold len, l. rewrite length_fmap, length_firstn. unfold B41_HOST_OUTPUT_MAX. lia. }
  split; [split; cbn [ev_length ev_bytes]; [exact L|rewrite len_app, len_zeros; lia]|]. cbn [ev_bytes]. apply bytes_ok_app. split; [|apply bytes_ok_zeros]. apply Forall_fmap, List.Forall_forall. intros x _. apply u8_range.
Qed.
(** An answer for which the thread gives up. *)
Definition trouble (e : call * answer) : Prop :=
  let a := e.2 in
  match e.1 with
  | Adapter_error => value a <> 0
  | Adapter_take => value a <> 0 /\ value a <> - EAGAIN /\ value a <> - EBUSY
  | Poll _ _ => value a < 0 /\ value a <> - EINTR \/ 0 < value a /\ poll_error (number a) = true
  | Read _ => value a < 0 /\ value a <> - EAGAIN /\ value a <> - EINTR
  | _ => False
  end.
Lemma performs_idle wake : performs (idle wake) (fun r t => untouched t /\ match r with None => True | Some e => e <> 0 /\ Exists trouble t end).
Proof.
  unfold idle, failed_call. trace_step. trace_step; [trace_step; split; [now split|]; destruct (Z.eqb_spec (value p) (- EINTR)); [exact I|]; split; [lia|]; apply Exists_cons; left; cbn; lia|].
  trace_step; [|trace_step; split; [now split|exact I]]. trace_step; [trace_step; split; [now split|]; split; [discriminate|]; apply Exists_cons; left; right; split; [cbn; lia|exact G1]|].
  trace_step. trace_step. split; [now split|]. destruct (_ && _) eqn:B; [|exact I]. rewrite !andb_true_iff, !negb_true_iff in B. split; [lia|]. apply Exists_cons. right. apply Exists_cons. left. cbn [trouble fst snd]. lia.
Qed.
Lemma performs_latch x e : performs (latch x e) (fun _ t => exists a, t = [(Latch x e, a)]).
Proof. unfold latch. trace_step. trace_step. now eexists. Qed.

Section Thread.
Context (d : dispatcher) `{!Dispatcher d}.

(** Everything taken went out, whole and in order. *)
Definition all_sent (s : services) (t : os_trace) : Prop := outgoing t = carries d s <$> taken t /\ Forall whole t.
(** All but the last event taken went out; the last one was refused, for a
    reason, after which there is only the kept failure. *)
Definition refused (s : services) (at_ : Z) (t : os_trace) : Prop :=
  exists t0 last t1, t = t0 ++ t1 /\ all_sent s t0 /\ taken t1 = [last] /\ (outgoing t1 = [] \/ outgoing t1 = [carries d s last]) /\
    latched t1 /\ (~ accepts d s at_ last \/ Exists (faulty s) t1).
(** The stop flag was seen last. *)
Definition asked (t : os_trace) : Prop := exists t0 a, t = t0 ++ [(Load_stop The_worker, a)] /\ value a <> 0.
Definition finished (s : services) (at_ : Z) (t : os_trace) : Prop := all_sent s t /\ (asked t \/ latched t /\ Exists trouble t) \/ refused s at_ t.
(** The loop ended for a reason, or is still going after [n] rounds. *)
Definition in_order (n : nat) (s : services) (at_ : Z) (r : option services) (t : os_trace) : Prop :=
  match r with None => all_sent s t /\ rounds t = n | Some _ => finished s at_ t end.

Lemma all_sent_app s s' t1 t2 : alike s s' -> all_sent s t1 -> all_sent s' t2 -> all_sent s (t1 ++ t2).
Proof.
  intros A [O1 W1] [O2 W2]. split; [|now apply Forall_app]. rewrite outgoing_app, taken_app, fmap_app, O1, O2. f_equal. apply list_fmap_ext. intros i e _. now apply carries_alike.
Qed.
Lemma all_sent_quiet s t : untouched t -> all_sent s t.
Proof. intros U. split; [destruct U as (-> & _ & ->); reflexivity|now apply untouched_whole]. Qed.
Lemma finished_app s s' at_ t1 t2 : alike s s' -> all_sent s t1 -> finished s' at_ t2 -> finished s at_ (t1 ++ t2).
Proof.
  intros A S1 [[S2 E]|(t0 & e & t3 & -> & S0 & T & O & L & X)]; [left; split; [eapply all_sent_app; eassumption|]|right].
  - destruct E as [(t0 & a & -> & N)|[L X]]; [left; exists (t1 ++ t0), a; now rewrite app_assoc|]. right. split; [now apply latched_app_r|]. apply Exists_app. now right.
  - exists (t1 ++ t0), e, t3. split; [now rewrite app_assoc|]. split; [eapply all_sent_app; eassumption|]. split; [exact T|]. rewrite (carries_alike _ _ e A) in O. split; [exact O|]. split; [exact L|].
    destruct X as [X|X]; [left; intros Y; now apply X, (accepts_alike s)|right]. eapply Exists_impl; [exact X|]. intros x. now apply faulty_alike.
Qed.
Lemma in_order_app n s s' at_ r t1 t2 : alike s s' -> all_sent s t1 -> rounds t1 = 1%nat -> in_order n s' at_ r t2 -> in_order (S n) s at_ r (t1 ++ t2).
Proof.
  intros A S1 R1 H. destruct r as [x|]; cbn [in_order] in *; [now apply (finished_app s s')|]. destruct H as [S2 R2]. split; [now apply (all_sent_app s s')|]. now rewrite rounds_app, R1, R2.
Qed.
Lemma performs_give_up s at_ e t0 : e <> 0 -> all_sent s t0 -> Exists trouble t0 ->
  performs (let! _ := latch The_worker e in ret (Some s)) (fun r t => exists s', r = Some s' /\ finished s at_ (t0 ++ t)).
Proof.
  intros N S0 X. eapply performs_bind; [apply performs_latch|]. intros [] t [a ->]. trace_step. exists s. split; [reflexivity|]. left. rewrite app_nil_r. split; [apply (all_sent_app s s); [apply alike_refl|exact S0|]; apply all_sent_quiet; now split|].
  right. split; [exists t0, e, a; now split|]. apply Exists_app. now left.
Qed.
(** After the take: one event dispatched, the failure kept. *)
Lemma performs_take_one n (k : services -> os (option services)) s at_ a t0 : all_sent s t0 -> taken t0 = [] -> outgoing t0 = [] -> rounds t0 = 1%nat -> value a = 0 ->
  (forall s', alike s s' -> performs (k s') (in_order n s' at_)) ->
  performs (let! r := d s at_ (Some (event_of a)) in
            if negb (r.1 =? 0) then let! _ := latch The_worker r.1 in ret (Some r.2) else k r.2) (fun r t => in_order (S n) s at_ r (t0 ++ (Adapter_take, a) :: t)).
Proof.
  intros S0 T0 O0 R0 Ha Hk. destruct (event_of_ok a) as [He Hb]. eapply performs_bind; [now apply dispatch_performs|]. intros [st s'] t (Hs & Ht & Hr & Ho). cbn [fst snd] in *.
  assert (Tt : taken ((Adapter_take, a) :: t) = [event_of a]) by (unfold taken; cbn [omap list_omap taken_of fst snd]; rewrite Ha; cbn [Z.eqb]; change (event_of a :: taken t = [event_of a]); now rewrite Ht).
  change (outgoing t) with (outgoing ((Adapter_take, a) :: t)) in Ho. change (rounds t) with (rounds ((Adapter_take, a) :: t)) in Hr.
  destruct Ho as [(-> & Ho & W)|(N & Ho & X)]; cbn [negb Z.eqb].
  - specialize (Hs eq_refl). eapply performs_impl; [apply (Hk s' Hs)|]. intros r t' H. replace (t0 ++ (Adapter_take, a) :: t ++ t') with ((t0 ++ (Adapter_take, a) :: t) ++ t') by now rewrite <- app_assoc.
    apply (in_order_app n s s'); [exact Hs| |now rewrite rounds_app, R0, Hr|exact H]. apply (all_sent_app s s); [apply alike_refl|exact S0|]. split; [now rewrite Tt, Ho|]. apply Forall_cons_2; [exact I|exact W].
  - rewrite (proj2 (Z.eqb_neq _ _) N). cbn [negb]. eapply performs_bind; [apply performs_latch|]. intros [] t1 [b ->]. trace_step. rewrite app_nil_r. right.
    exists t0, (event_of a), (((Adapter_take, a) :: t) ++ [(Latch The_worker st, b)]). split; [reflexivity|]. split; [exact S0|]. rewrite taken_app, outgoing_app, Tt. change (outgoing [(Latch The_worker st, b)]) with (@nil call). rewrite !app_nil_r.
    split; [reflexivity|]. split; [exact Ho|]. split; [exists ((Adapter_take, a) :: t), st, b; now split|]. destruct X as [X|X]; [now left|right]. apply Exists_app. left. apply Exists_cons. now right.
Qed.
Lemma performs_drain fuel wake at_ : forall s, performs (drain fuel d wake at_ s) (in_order fuel s at_).
Proof.
  induction fuel as [|fuel IH]; intros s; cbn [drain]; [trace_step; split; [now apply all_sent_quiet|reflexivity]|].
  trace_step. trace_step; [trace_step; left; split; [split; [reflexivity|now repeat constructor]|left; exists [], p; split; [reflexivity|lia]]|].
  assert (Hup : forall e t0, e <> 0 -> all_sent s t0 -> Exists trouble t0 -> performs (let! _ := latch The_worker e in ret (Some s)) (fun r t => in_order (S fuel) s at_ r (t0 ++ t))).
  { intros e t0 N S0 X. eapply performs_impl; [now apply (performs_give_up s at_ e t0)|]. intros r t (s' & -> & H). exact H. }
  trace_step. trace_step; [apply (Hup (value p0) [_; _]); [lia|split; [reflexivity|now repeat constructor]|apply Exists_cons; right; apply Exists_cons; left; cbn; lia]|].
  trace_step. destruct (Z.eqb_spec (value p1) 0) as [Z0|NZ].
  - apply (performs_take_one fuel (drain fuel d wake at_) s at_ p1 [_; _]); [split; [reflexivity|now repeat constructor]|reflexivity|reflexivity|reflexivity|exact Z0|]. intros s' _. apply IH.
  - set (t0 := [(Load_stop The_worker, p); (Adapter_error, p0); (Adapter_take, p1)]). assert (S0 : all_sent s t0).
    { split; [|now repeat constructor]. unfold taken. cbn. now rewrite (proj2 (Z.eqb_neq _ _) NZ). }
    trace_step; [apply (Hup (value p1) t0); [exact NZ|exact S0|]; do 2 (apply Exists_cons; right); apply Exists_cons; left; cbn [trouble fst snd]; rewrite andb_true_iff, !negb_true_iff in G1; lia|].
    eapply performs_bind; [apply performs_idle|]. intros r t [U X]. assert (S1 : all_sent s (t0 ++ t)) by (apply (all_sent_app s s); [apply alike_refl|exact S0|now apply all_sent_quiet]). destruct r as [e|].
    + destruct X as [N X]. eapply performs_impl; [apply (Hup e (t0 ++ t) N S1); apply Exists_app; now right|]. intros x t' H. cbv beta in H. rewrite <- app_assoc in H. exact H.
    + eapply performs_impl; [apply (IH s)|]. intros x t' H. change (in_order (S fuel) s at_ x (t0 ++ t ++ t')). rewrite app_assoc.
      apply (in_order_app fuel s s); [apply alike_refl|exact S1| |exact H]. rewrite rounds_app. destruct U as (_ & -> & _). reflexivity.
Qed.
(** The write to the completion eventfd comes after all of it: only keeping a
    failure of that very write follows. *)
Definition completed (done : Z) (before : os_trace -> Prop) (t : os_trace) : Prop :=
  exists t0 a rest, t = t0 ++ (Write done event_one, a) :: rest /\ before t0 /\ (value a = 8 /\ rest = [] \/ value a <> 8 /\ exists e b, rest = [(Latch The_worker e, b)] /\ e <> 0).
Lemma performs_thread fuel w at_ s : dispatch_of w = d ->
  performs (worker_thread fuel w at_ s) (fun r t => match r with None => all_sent s t /\ rounds t = fuel | Some _ => completed (done_fd w) (finished s at_) t end).
Proof.
  intros Hd. unfold worker_thread. rewrite Hd. eapply performs_bind; [apply performs_drain|]. intros [s'|] t Ht; [|trace_step; now rewrite app_nil_r]. cbn [in_order] in Ht.
  unfold signal. eapply (performs_bind _ _ (fun w' t => exists a, t = [(Write (done_fd w) event_one, a)] /\ (w' = 0 <-> value a = 8))).
  - trace_step. trace_step. eexists. split; [reflexivity|]. destruct (failed_call p) eqn:F; unfold failed_call in F; [lia|]. destruct (Z.eqb_spec (value p) 8); [tauto|]. split; [discriminate|tauto].
  - intros x t1 (a & -> & Hx). trace_step.
    + apply Z.eqb_eq in G. trace_step. exists t, a, []. split; [reflexivity|]. split; [exact Ht|]. left. tauto.
    + apply Z.eqb_neq in G. eapply performs_bind; [apply performs_latch|]. intros [] t2 [b ->]. trace_step. exists t, a, [(Latch The_worker x, b)].
      split; [reflexivity|]. split; [exact Ht|]. right. split; [tauto|]. exists x, b. now split.
Qed.
End Thread.

(** ** Descriptors of the worker *)

Definition made (e : call * answer) : list Z := match e with (Eventfd, a) => if failed_call a then [] else [value a] | _ => [] end.
Definition not_close (e : call * answer) : Prop := match e.1 with Close _ => False | _ => True end.
Definition plain (e : call * answer) : Prop := match e.1 with Close _ | Eventfd => False | _ => True end.
Lemma plain_moves h s : Forall plain s -> moves made closed h s h.
Proof. intros H. apply moves_quiet_all. eapply Forall_impl; [exact H|]. intros [[] a]; cbn; now intros. Qed.
Lemma plain_not_close s : Forall plain s -> Forall not_close s.
Proof. intros H. eapply Forall_impl; [exact H|]. intros [[] a]; cbn; tauto. Qed.
Lemma moves_eventfd a h s h' : failed_call a = false -> moves made closed (value a :: h) s h' -> moves made closed h ((Eventfd, a) :: s) h'.
Proof. intros Ha H. eapply (moves_cons _ _ _ h); [reflexivity|]. cbn. now rewrite Ha. Qed.
Lemma moves_close fd a h0 h s h' : h0 ≡ₚ fd :: h -> moves made closed h s h' -> moves made closed h0 ((Close fd, a) :: s) h'.
Proof. intros E H. eapply (moves_cons _ _ _ h); [exact E|exact H]. Qed.

Lemma performs_start_checks ipc fds : forall previous, performs (start_checks ipc previous fds) (fun r s => Forall plain s /\
  match r with inl e => e <> 0 | inr l => l.*1 = fds /\ Forall (fun fd => 0 <= fd) fds end).
Proof.
  induction fds as [|fd fds IH]; intros previous; cbn [start_checks]; [trace_step; split; [constructor|now split]|].
  trace_step; [trace_step; split; [constructor|discriminate]|]. trace_step.
  trace_step; [trace_step; split; [repeat constructor|unfold failed_call in G0; lia]|].
  eapply performs_bind; [apply IH|]. intros r s [Hs Hr]. trace_step. rewrite app_nil_r. split; [constructor; [exact I|exact Hs]|]. destruct r as [e|l]; [exact Hr|].
  destruct Hr as [<- Hr]. split; [reflexivity|]. constructor; [lia|exact Hr].
Qed.
Lemma performs_close_both a b : performs (close_both a b) (fun _ s => moves made closed [a; b] s []).
Proof. unfold close_both. trace_step. trace_step. trace_step. eapply moves_close; [reflexivity|]. eapply moves_close; [reflexivity|]. now apply moves_nil. Qed.
Lemma performs_create : performs create_detached (fun _ s => Forall plain s).
Proof.
  unfold create_detached. trace_step. eapply (performs_bind _ _ (fun _ s => Forall plain s)).
  - trace_step; [trace_step; trace_step; repeat constructor|trace_step; constructor].
  - intros st s Hs. trace_step. trace_step. constructor; [exact I|]. apply Forall_app. split; [exact Hs|repeat constructor].
Qed.
Lemma performs_start w ipc fds : performs (b41_frame_worker_start w ipc fds) (fun r s =>
  let '(st, w', vars) := r in
  if st =? 0 then worker_state w' = B41_WORKER_RUNNING /\ exposed w' = false /\ (receivers w').*1 = fds /\ vars = ((fun _ => -1) <$> fds) /\
    Forall (fun fd => 0 <= fd) fds /\ 0 <= wake_fd w' /\ 0 <= done_fd w' /\ moves made closed [] s [wake_fd w'; done_fd w']
  else worker_state w' = worker_state w /\ vars = fds /\ moves made closed [] s []).
Proof.
  unfold b41_frame_worker_start.
  trace_step; [trace_step; cbn; split; [reflexivity|split; [reflexivity|now apply moves_nil]]|]. trace_step; [trace_step; cbn; split; [reflexivity|split; [reflexivity|now apply moves_nil]]|].
  trace_step; [trace_step; cbn; split; [reflexivity|split; [reflexivity|now apply moves_nil]]|]. eapply performs_bind; [apply performs_start_checks|].
  intros [e|ids] s0 [P0 H0].
  { trace_step. rewrite app_nil_r, (proj2 (Z.eqb_neq e 0) H0). split; [reflexivity|]. split; [reflexivity|now apply plain_moves]. }
  destruct H0 as [H0 Hn]. trace_step. trace_step.
  { trace_step. unfold failed_call in G2. replace (value p =? 0) with false by lia. split; [reflexivity|]. split; [reflexivity|]. eapply moves_app; [now apply plain_moves|].
    apply moves_quiet; cbn; unfold failed_call; [now rewrite G2|reflexivity]. }
  trace_step. trace_step.
  { trace_step. trace_step. unfold failed_call in G3. replace (value p0 =? 0) with false by lia. split; [reflexivity|]. split; [reflexivity|]. eapply moves_app; [now apply plain_moves|].
    apply moves_eventfd; [exact G2|]. eapply (moves_cons _ _ _ [value p]); [reflexivity|]. cbn. unfold failed_call. rewrite G3. eapply (moves_close _ _ _ []); [reflexivity|]. now apply moves_nil. }
  assert (Hopen : moves made closed [] (s0 ++ [(Eventfd, p); (Eventfd, p0)]) [value p; value p0]).
  { eapply moves_app; [now apply plain_moves|]. apply moves_eventfd; [exact G2|]. apply moves_eventfd; [exact G3|]. apply moves_nil. apply perm_swap. }
  assert (Hp : 0 <= value p /\ 0 <= value p0) by (unfold failed_call in *; lia).
  assert (Hgo : forall s h, moves made closed [value p; value p0] s h -> moves made closed [] (s0 ++ (Eventfd, p) :: (Eventfd, p0) :: s) h).
  { intros s h Hs. change (s0 ++ (Eventfd, p) :: (Eventfd, p0) :: s) with (s0 ++ [(Eventfd, p); (Eventfd, p0)] ++ s). rewrite app_assoc. eapply moves_app; eassumption. }
  trace_step. trace_step.
  { eapply performs_bind; [apply performs_close_both|]. intros [] s Hs. trace_step. replace (- value p1 =? 0) with false by lia. split; [reflexivity|]. split; [reflexivity|].
    rewrite app_nil_r. apply Hgo. eapply (moves_app _ _ _ _ _ [_]); [apply plain_moves; repeat constructor|exact Hs]. }
  eapply performs_bind; [apply performs_create|]. intros l s1 H1. cbv beta in H1.
  assert (Hpl : moves made closed [value p; value p0] ((Attr_init, p1) :: s1) [value p; value p0]) by (apply plain_moves; constructor; [exact I|exact H1]).
  trace_step.
  - eapply performs_bind; [apply performs_close_both|]. intros [] s Hs. trace_step. replace (- l =? 0) with false by lia. split; [reflexivity|]. split; [reflexivity|].
    rewrite app_nil_r. apply Hgo. change ((Attr_init, p1) :: s1 ++ s) with (((Attr_init, p1) :: s1) ++ s). eapply moves_app; eassumption.
  - trace_step. cbn [Z.eqb worker_state with_state exposed receivers wake_fd done_fd]. rewrite app_nil_r. repeat (split; [first [reflexivity|assumption|apply Hp]|]). now apply Hgo.
Qed.

(** What the worker and its socket owner hold. *)
Definition open_fds (l : list Z) : list Z := filter (fun fd => 0 <= fd) l.
Definition held (w : b41_frame_worker) (ipc : b41_agps_owner) : list Z := open_fds ((receivers w).*1 ++ [wake_fd w; done_fd w]) ++ open_fds [owner_fd ipc].
Definition spent (w : b41_frame_worker) : Prop := worker_state w = B41_WORKER_QUARANTINED \/ worker_state w = B41_WORKER_RELEASED.
Definition worker_ok (w : b41_frame_worker) (ipc : b41_agps_owner) : Prop :=
  owner_ok ipc /\ initialized ipc = true /\ worker_state w <> B41_WORKER_FRESH /\ (exposed w = true -> worker_state w <> B41_WORKER_QUIESCED) /\
  (~ spent w -> Forall (fun fd => 0 <= fd) ((receivers w).*1 ++ [wake_fd w; done_fd w])).

(** One step of the life of a started worker. *)
Definition keeps_fds (w : b41_frame_worker) (ipc : b41_agps_owner) (s : os_trace) (w' : b41_frame_worker) (ipc' : b41_agps_owner) : Prop :=
  worker_ok w' ipc' /\
  (exists lost, moves made closed (held w ipc) s (held w' ipc' ++ lost) /\ (lost = [] \/ worker_state w' = B41_WORKER_QUARANTINED)) /\
  (Forall not_close s \/ (spent w' /\ exposed w' = false)) /\
  (spent w -> w' = w /\ Forall not_close s) /\
  (worker_state w' = B41_WORKER_RELEASED -> worker_state w <> B41_WORKER_RELEASED -> held w' ipc' = []) /\
  (worker_state w = B41_WORKER_RELEASED -> held w' ipc' = held w ipc).

Lemma open_fds_app a b : open_fds (a ++ b) = open_fds a ++ open_fds b.
Proof. apply filter_app. Qed.
Lemma open_fds_all l : Forall (fun fd => 0 <= fd) l -> open_fds l = l.
Proof. induction 1 as [|x l Hx _ IH]; [reflexivity|]. unfold open_fds in *. rewrite filter_cons_True by exact Hx. now rewrite IH. Qed.
Lemma open_fds_none l : Forall (fun fd => fd < 0) l -> open_fds l = [].
Proof. induction 1 as [|x l Hx _ IH]; [reflexivity|]. unfold open_fds. rewrite filter_cons_False by lia. exact IH. Qed.

Lemma keeps_fds_plain w ipc s w' ipc' : worker_ok w' ipc' -> Forall plain s -> held w' ipc' = held w ipc -> (spent w -> w' = w) ->
  (worker_state w' = B41_WORKER_RELEASED -> worker_state w = B41_WORKER_RELEASED) -> keeps_fds w ipc s w' ipc'.
Proof.
  intros Hok Hs Hh Hsp Hr. split; [exact Hok|]. split; [exists []; rewrite app_nil_r, Hh; split; [now apply plain_moves|now left]|].
  pose proof (plain_not_close s Hs). split; [now left|]. split; [now split; [apply Hsp|]|]. split; [intros H1 H2; now apply Hr in H1|now intros _].
Qed.
Lemma keeps_fds_trans w1 i1 s1 w2 i2 s2 w3 i3 : keeps_fds w1 i1 s1 w2 i2 -> keeps_fds w2 i2 s2 w3 i3 -> keeps_fds w1 i1 (s1 ++ s2) w3 i3.
Proof.
  intros (O2 & (l1 & M1 & L1) & C1 & S1 & R1 & K1) (O3 & (l2 & M2 & L2) & C2 & S2 & R2 & K2).
  split; [exact O3|]. split; [|split; [|split; [|split]]].
  - exists (l2 ++ l1). rewrite app_assoc. split; [eapply moves_app; [exact M1|]; now apply moves_frame|].
    destruct L1 as [-> |Q]; [rewrite app_nil_r; exact L2|]. right. destruct (S2 (or_introl Q)) as [-> _]. exact Q.
  - destruct C1 as [C1|[Sp Ex]]; [destruct C2 as [C2|C2]; [left; now apply Forall_app|now right]|]. right. destruct (S2 Sp) as [-> _]. now split.
  - intros Sp. destruct (S1 Sp) as [-> N1]. destruct (S2 Sp) as [-> N2]. split; [reflexivity|now apply Forall_app].
  - intros Hr Hn. destruct (decide (worker_state w2 = B41_WORKER_RELEASED)) as [E|N]; [rewrite (K2 E); now apply R1|now apply R2].
  - intros E. assert (E2 : worker_state w2 = B41_WORKER_RELEASED) by (destruct (S1 (or_intror E)) as [-> _]; exact E). rewrite (K2 E2). now apply K1.
Qed.

Lemma performs_same_identities l : performs (same_identities l) (fun _ s => Forall plain s).
Proof.
  induction l as [|[fd id] l IH]; cbn [same_identities]; [trace_step; constructor|]. trace_step. trace_step; [trace_step; repeat constructor|].
  trace_step; [trace_step; repeat constructor|]. eapply performs_impl; [exact IH|]. intros x s Hs. now constructor.
Qed.
Lemma performs_close_receivers l : Forall (fun fd => 0 <= fd) l.*1 -> performs (close_receivers l) (fun r s =>
  moves made closed l.*1 s (open_fds r.2.*1) /\ (r.1 = 0 -> open_fds r.2.*1 = [])).
Proof.
  induction l as [|[fd id] l IH]; intros Hl; cbn [close_receivers]; [trace_step; split; [now apply moves_nil|reflexivity]|].
  inversion Hl as [|? ? Hfd Hl' E]; subst. trace_step. trace_step.
  - trace_step. cbn [fst snd fmap list_fmap]. change (open_fds ((-1) :: l.*1)) with (open_fds l.*1). rewrite (open_fds_all l.*1 Hl').
    split; [eapply moves_close; [reflexivity|]; now apply moves_nil|]. unfold failed_call in G. lia.
  - eapply performs_bind; [now apply IH|]. intros r s [Hm Hz]. trace_step. rewrite app_nil_r. cbn [fst snd fmap list_fmap].
    change (open_fds ((-1) :: r.2.*1)) with (open_fds r.2.*1). split; [eapply moves_close; [reflexivity|exact Hm]|exact Hz].
Qed.
Lemma identity_call o : performs (identity o) (fun i s => exists a, s = [(Fstat (owner_fd o), a)]).
Proof. unfold identity. trace_step. trace_step; [trace_step; eauto|]. trace_step; trace_step; eauto. Qed.
Lemma performs_stop_fds o : initialized o = true -> performs (b41_agps_owner_stop o) (fun r s =>
  (exists lost, moves made closed (open_fds [owner_fd o]) s (open_fds [owner_fd r.2] ++ lost) /\ (r.1 = 0 -> lost = [] /\ open_fds [owner_fd r.2] = [])) /\ initialized r.2 = true).
Proof.
  intros I. unfold b41_agps_owner_stop. rewrite I. cbn [negb]. trace_step.
  trace_step; [trace_step; split; [exists []; rewrite app_nil_r; split; [apply plain_moves; repeat constructor|cbn; lia]|exact I]|].
  eapply (performs_bind _ _ (fun c s => exists lost, moves made closed (open_fds [owner_fd o]) s lost /\ (c = 0 -> lost = []))).
  - trace_step.
    + eapply performs_bind; [apply identity_call|]. intros i s [a ->]. assert (Ho : open_fds [owner_fd o] = [owner_fd o]) by (apply open_fds_all; repeat constructor; lia). rewrite Ho. trace_step.
      * trace_step. trace_step. exists []. split; [|reflexivity]. eapply (moves_app _ _ _ _ _ [_]); [apply plain_moves; repeat constructor|]. eapply moves_close; [reflexivity|]. now apply moves_nil.
      * trace_step. exists [owner_fd o]. split; [apply plain_moves; repeat constructor|lia].
    + trace_step. rewrite (open_fds_none [owner_fd o]) by (repeat constructor; lia). exists []. split; [now apply moves_nil|reflexivity].
  - intros c s (lost & Hm & Hc). trace_step. trace_step. cbn [fst snd owner_fd initialized]. split; [|reflexivity]. exists lost.
    rewrite (open_fds_none [if 0 <=? owner_fd o then -1 else owner_fd o]) by (repeat constructor; destruct (Z.leb_spec 0 (owner_fd o)); lia). cbn [Datatypes.app].
    split; [|intros Hz; split; [apply Hc; destruct (owner_error o =? 0) eqn:E; lia|reflexivity]].
    change ((Mutex_lock, p) :: s ++ [(Mutex_unlock, p0)]) with ([(Mutex_lock, p)] ++ s ++ [(Mutex_unlock, p0)]).
    eapply moves_app; [apply plain_moves; repeat constructor|]. eapply moves_app; [exact Hm|apply plain_moves; repeat constructor].
Qed.

Lemma performs_remaining d : performs (remaining d) (fun _ s => Forall plain s).
Proof. unfold remaining. trace_step. trace_step; [trace_step; repeat constructor|]. cbn zeta. trace_step; [trace_step; repeat constructor|]. trace_step; trace_step; repeat constructor. Qed.
Lemma performs_await fuel done d : performs (await_done fuel done d) (fun _ s => Forall plain s).
Proof.
  induction fuel as [|fuel IH]; cbn [await_done]; [trace_step; constructor|]. eapply performs_bind; [apply performs_remaining|]. intros ms s Hs. cbv beta in Hs.
  trace_step; [trace_step; now rewrite app_nil_r|]. trace_step.
  assert (Hp : forall s', Forall plain s' -> Forall plain (s ++ (Poll done ms, p) :: s')) by (intros s' H'; apply Forall_app; split; [exact Hs|now constructor]).
  trace_step; [trace_step; [eapply performs_impl; [exact IH|]; intros x s' H'; now apply Hp|trace_step; apply Hp; constructor]|].
  trace_step; [trace_step; apply Hp; constructor|]. trace_step; [trace_step; apply Hp; constructor|]. trace_step; [trace_step; apply Hp; constructor|].
  eapply performs_bind; [apply performs_remaining|]. intros again s' Hs'. cbv beta in Hs'. trace_step; [trace_step; rewrite app_nil_r; now apply Hp|].
  eapply performs_impl; [exact IH|]. intros x s2 H2. apply Hp. now apply Forall_app.
Qed.
Lemma performs_latch_plain x e : performs (latch x e) (fun _ s => Forall plain s).
Proof. eapply performs_impl; [apply performs_latch|]. intros y s [a ->]. repeat constructor. Qed.

Lemma performs_quiesce fuel w ipc d : worker_ok w ipc -> performs (b41_frame_worker_quiesce fuel w d) (fun r s =>
  match r with None => Forall plain s | Some (_, w') => keeps_fds w ipc s w' ipc end).
Proof.
  intros Hok. unfold b41_frame_worker_quiesce.
  assert (Hsame : forall s, Forall plain s -> keeps_fds w ipc s w ipc) by (intros s Hs; apply keeps_fds_plain; auto).
  trace_step; [trace_step; apply Hsame; constructor|]. trace_step; [trace_step; trace_step; apply Hsame; repeat constructor|].
  trace_step; [trace_step; apply Hsame; constructor|]. apply negb_false_iff, bool_decide_eq_true in G1. trace_step. trace_step.
  assert (Hns : ~ spent w) by (intros [E|E]; rewrite G1 in E; discriminate).
  assert (Hnew : forall st s, st = B41_WORKER_QUARANTINED \/ (st = B41_WORKER_QUIESCED /\ exposed w = false) -> Forall plain s -> keeps_fds w ipc s (with_state w st) ipc).
  { intros st s Hst Hs. destruct Hok as (H1 & H2 & H3 & H4 & H5). apply keeps_fds_plain; [|exact Hs|reflexivity|contradiction|].
    - split; [exact H1|]. split; [exact H2|]. split; [destruct Hst as [-> |[-> _]]; discriminate|]. split; [|intros _; now apply H5].
      cbn. intros Hx. destruct Hst as [-> |[-> Hf]]; [discriminate|congruence].
    - cbn. destruct Hst as [-> |[-> _]]; discriminate. }
  eapply (performs_bind _ _ (fun _ s => Forall plain s)); [trace_step; [trace_step; constructor|apply performs_await]|].
  intros [status|] s Hs; [|trace_step; rewrite app_nil_r; now repeat constructor]. trace_step. cbn zeta. trace_step.
  - eapply (performs_bind _ _ (fun _ s => Forall plain s)); [trace_step; [apply performs_latch_plain|trace_step; constructor]|]. intros x s' Hs'. trace_step.
    rewrite app_nil_r. apply Hnew; [now left|]. constructor; [exact I|]. constructor; [exact I|]. apply Forall_app. split; [exact Hs|]. now constructor.
  - trace_step. apply orb_false_elim in G2 as [_ Hx]. apply Hnew; [right; now split|]. constructor; [exact I|]. constructor; [exact I|]. apply Forall_app. split; [exact Hs|now repeat constructor].
Qed.

(** From a quarantine on, whatever is left stays open. *)
Lemma moves_frame_l k h s h' : moves made closed h s h' -> moves made closed (k ++ h) s (k ++ h').
Proof. intros H. rewrite (Permutation_app_comm k h), (Permutation_app_comm k h'). now apply moves_frame. Qed.
Lemma performs_refuse w ipc s0 w1 ipc1 lost st : worker_ok w ipc -> ~ spent w -> exposed w = false -> exposed w1 = false -> owner_ok ipc1 -> initialized ipc1 = true ->
  moves made closed (held w ipc) s0 (held w1 ipc1 ++ lost) ->
  performs (let! q := quarantine w1 st in ret (q, ipc1)) (fun r s => keeps_fds w ipc (s0 ++ s) r.1.2 r.2).
Proof.
  intros Hok Hns Hx Hx1 Ho Hi Hm. unfold quarantine. eapply (performs_bind _ _ (fun q s => Forall plain s /\ q = (st, with_state w1 B41_WORKER_QUARANTINED))).
  - eapply performs_bind; [apply performs_latch_plain|]. intros x s Hs. trace_step. rewrite app_nil_r. now split.
  - intros q s [Hs ->]. trace_step. rewrite app_nil_r. cbn [fst snd]. split; [|split; [|split; [|split; [|split]]]].
    + split; [exact Ho|]. split; [exact Hi|]. split; [discriminate|]. split; [cbn; congruence|]. intros []. now left.
    + exists lost. change (held (with_state w1 B41_WORKER_QUARANTINED) ipc1) with (held w1 ipc1). split; [eapply moves_app; [exact Hm|now apply plain_moves]|now right].
    + right. split; [now left|exact Hx1].
    + contradiction.
    + discriminate.
    + intros E. destruct Hns. now right.
Qed.
Lemma performs_release w ipc : worker_ok w ipc -> performs (b41_frame_worker_release_unused w ipc) (fun r s => keeps_fds w ipc s r.1.2 r.2).
Proof.
  intros Hok. unfold b41_frame_worker_release_unused. cbn zeta. trace_step; [trace_step; apply keeps_fds_plain; auto|].
  apply orb_false_elim in G as [Gq Gx]. apply negb_false_iff, bool_decide_eq_true in Gq. pose proof Hok as (H1 & H2 & H3 & H4 & H5).
  assert (Hns : ~ spent w) by (intros [E|E]; rewrite Gq in E; discriminate). specialize (H5 Hns).
  assert (Hr : Forall (fun fd => 0 <= fd) (receivers w).*1) by now apply Forall_app in H5 as [? _].
  assert (Hk : 0 <= wake_fd w /\ 0 <= done_fd w) by (apply Forall_app in H5 as [_ H5]; inversion H5 as [|? ? A B]; inversion B; now split).
  assert (Hh : held w ipc = (receivers w).*1 ++ wake_fd w :: done_fd w :: open_fds [owner_fd ipc]) by (unfold held; rewrite open_fds_all by exact H5; now rewrite <- app_assoc).
  eapply performs_bind; [apply performs_same_identities|]. intros i s0 P0. cbv beta in P0. trace_step.
  { apply (performs_refuse w ipc s0 w ipc []); try assumption. rewrite app_nil_r. now apply plain_moves. }
  eapply performs_bind; [now apply performs_close_receivers|]. intros [st l] s1 [M1 Z1]. cbn [fst snd] in *. set (rest := wake_fd w :: done_fd w :: open_fds [owner_fd ipc]) in *.
  assert (M01 : moves made closed (held w ipc) (s0 ++ s1) (open_fds l.*1 ++ rest)) by (eapply moves_app; [now apply plain_moves|rewrite Hh; now apply moves_frame]).
  assert (Hw1 : held (Worker (worker_state w) (exposed w) (wake_fd w) (done_fd w) l (worker_dispatch w)) ipc = open_fds l.*1 ++ rest).
  { unfold held. cbn [receivers wake_fd done_fd]. rewrite open_fds_app, (open_fds_all [_; _]) by (repeat constructor; apply Hk). now rewrite <- app_assoc. }
  trace_step.
  { rewrite <- Hw1 in M01. eapply performs_impl; [apply (performs_refuse w ipc (s0 ++ s1) _ ipc [] st); try assumption; rewrite app_nil_r; exact M01|]. intros r s H. cbv beta in H. rewrite <- !app_assoc in H. exact H. }
  assert (Hst : st = 0) by lia. rewrite (Z1 Hst) in M01. cbn [Datatypes.app] in M01.
  eapply performs_bind; [apply (performs_and _ _ _ (performs_stop ipc H1) (performs_stop_fds ipc H2))|]. intros [so o] s2 (([Ho _] & _ & _) & (lost & M2 & Z2) & Hi). cbn [fst snd] in *.
  set (w1 := Worker (worker_state w) (exposed w) (wake_fd w) (done_fd w) l (worker_dispatch w)) in *.
  assert (M02 : moves made closed (held w ipc) (s0 ++ s1 ++ s2) ([wake_fd w; done_fd w] ++ open_fds [owner_fd o] ++ lost)).
  { rewrite app_assoc. eapply moves_app; [exact M01|]. now apply (moves_frame_l [wake_fd w; done_fd w]). }
  assert (Hgone : open_fds l.*1 = []) by now apply Z1.
  assert (Hheld : forall wk dn, held (Worker (worker_state w) (exposed w) wk dn l (worker_dispatch w)) o = open_fds [wk; dn] ++ open_fds [owner_fd o]).
  { intros wk dn. unfold held. cbn [receivers wake_fd done_fd]. now rewrite open_fds_app, Hgone. }
  trace_step.
  { eapply performs_impl; [apply (performs_refuse w ipc (s0 ++ s1 ++ s2) w1 o lost so); try assumption|].
    - unfold w1. rewrite Hheld, (open_fds_all [_; _]) by (repeat constructor; apply Hk). now rewrite <- app_assoc.
    - intros r s H. cbv beta in H. rewrite <- !app_assoc in H. exact H. }
  destruct Z2 as [-> Ho0]; [lia|]. rewrite Ho0 in M02. cbn [Datatypes.app] in M02. trace_step.
  assert (M03 : moves made closed (held w ipc) ((s0 ++ s1 ++ s2) ++ [(Close (wake_fd w), p)]) [done_fd w]).
  { eapply moves_app; [exact M02|]. eapply moves_close; [reflexivity|]. now apply moves_nil. }
  cbn [wake_fd done_fd worker_state exposed receivers w1]. trace_step.
  { eapply performs_impl; [apply (performs_refuse w ipc ((s0 ++ s1 ++ s2) ++ [(Close (wake_fd w), p)]) (Worker (worker_state w) (exposed w) (-1) (done_fd w) l (worker_dispatch w)) o [] (value p)); try assumption|].
    - rewrite Hheld, Ho0, !app_nil_r. change (open_fds [-1; done_fd w]) with (open_fds [done_fd w]). rewrite (open_fds_all [_]) by (repeat constructor; apply Hk). exact M03.
    - intros r s H. cbv beta in H. rewrite <- !app_assoc in H. exact H. }
  trace_step.
  assert (M04 : moves made closed (held w ipc) (((s0 ++ s1 ++ s2) ++ [(Close (wake_fd w), p)]) ++ [(Close (done_fd w), p0)]) []).
  { eapply moves_app; [exact M03|]. eapply moves_close; [reflexivity|]. now apply moves_nil. }
  assert (Hfin : held (Worker (worker_state w) (exposed w) (-1) (-1) l (worker_dispatch w)) o = []) by (rewrite Hheld, Ho0; reflexivity).
  trace_step.
  { eapply performs_impl; [apply (performs_refuse w ipc (((s0 ++ s1 ++ s2) ++ [(Close (wake_fd w), p)]) ++ [(Close (done_fd w), p0)]) (Worker (worker_state w) (exposed w) (-1) (-1) l (worker_dispatch w)) o [] (value p0)); try assumption|].
    - rewrite Hfin. exact M04.
    - intros r s H. cbv beta in H. rewrite <- !app_assoc in H. exact H. }
  trace_step. cbn [fst snd]. split; [|split; [|split; [|split; [|split]]]].
  - split; [exact Ho|]. split; [exact Hi|]. split; [discriminate|]. split; [discriminate|]. intros []. now right.
  - exists []. change (held (with_state _ _) o) with (held (Worker (worker_state w) (exposed w) (-1) (-1) l (worker_dispatch w)) o). rewrite Hfin. split; [|now left].
    rewrite <- !app_assoc in M04. exact M04.
  - right. split; [now right|exact Gx].
  - contradiction.
  - intros _ _. exact Hfin.
  - intros E. destruct Hns. now right.
Qed.

(** ** Histories of the controller, with the datagrams of the thread *)

Inductive worker_op := W_expose | W_quiesce (fuel : nat) (deadline : timespec) | W_release | W_send (p : payload).
Definition worker_op_ok (op : worker_op) : Prop := match op with W_send p => payload_ok p | _ => True end.
Definition worker_do (op : worker_op) (w : b41_frame_worker) (ipc : b41_agps_owner) : os (option (b41_frame_worker * b41_agps_owner)) :=
  match op with
  | W_expose => ret (Some ((b41_frame_worker_expose w).2, ipc))
  | W_quiesce fuel deadline => let! r := b41_frame_worker_quiesce fuel w deadline in ret (match r with Some (_, w) => Some (w, ipc) | None => None end)
  | W_release => let! r := b41_frame_worker_release_unused w ipc in ret (Some (r.1.2, r.2))
  | W_send p => let! r := send_packet ipc p in ret (Some (w, r.2))
  end.
(** [None]: a wait has not ended yet. *)
Fixpoint worker_life (ops : list worker_op) (w : b41_frame_worker) (ipc : b41_agps_owner) : os (option (b41_frame_worker * b41_agps_owner)) :=
  match ops with
  | [] => ret (Some (w, ipc))
  | op :: ops =>
    let! r := worker_do op w ipc in
    match r with None => ret None | Some (w, ipc) => worker_life ops w ipc end
  end.

Lemma send_plain o q : performs (send_packet o q) (fun r s => Forall plain s /\ owner_fd r.2 = owner_fd o /\ initialized r.2 = initialized o).
Proof.
  unfold send_packet. trace_step; [trace_step; repeat constructor|]. trace_step. trace_step; [trace_step; repeat constructor|].
  trace_step; [trace_step; trace_step; repeat constructor|]. trace_step; [trace_step; trace_step; repeat constructor|].
  eapply (performs_bind _ _ (fun _ s => Forall plain s)).
  - unfold transmit. eapply performs_bind; [apply identity_call|]. intros i s [a ->]. trace_step; [trace_step; repeat constructor|]. destruct (build_packet o q) as [st b].
    trace_step; [trace_step; repeat constructor|]. trace_step. trace_step; [trace_step; repeat constructor|]. trace_step; trace_step; repeat constructor.
  - intros st s Hs. trace_step. trace_step. cbn [snd]. split; [constructor; [exact I|apply Forall_app; split; [exact Hs|repeat constructor]]|]. now destruct (st =? 0).
Qed.
Lemma performs_worker_do op w ipc : worker_ok w ipc -> worker_op_ok op -> performs (worker_do op w ipc) (fun r s =>
  match r with Some (w', ipc') => keeps_fds w ipc s w' ipc' | None => Forall plain s end).
Proof.
  intros Hok Hop. destruct op as [|fuel d| |q]; cbn [worker_do].
  - trace_step. unfold b41_frame_worker_expose. destruct (bool_decide (worker_state w = B41_WORKER_RUNNING)) eqn:R; cbn [negb snd]; [|apply keeps_fds_plain; auto; constructor].
    apply bool_decide_eq_true in R. destruct Hok as (H1 & H2 & H3 & H4 & H5). apply keeps_fds_plain; [|constructor|reflexivity| |tauto].
    + split; [exact H1|]. split; [exact H2|]. split; [exact H3|]. split; [cbn; rewrite R; discriminate|exact H5].
    + intros [E|E]; rewrite R in E; discriminate.
  - eapply performs_bind; [now apply (performs_quiesce fuel w ipc d)|]. intros [[st w']|] s Hs; trace_step; rewrite app_nil_r; exact Hs.
  - eapply performs_bind; [now apply performs_release|]. intros r s Hs. trace_step. rewrite app_nil_r. exact Hs.
  - destruct Hok as (H1 & H2 & H3 & H4 & H5). eapply performs_bind; [apply (performs_and _ _ _ (performs_send ipc q H1 Hop) (send_plain ipc q))|].
    intros r s ([Ho _] & Hp & Hf & Hi). trace_step. rewrite app_nil_r. apply keeps_fds_plain; [|exact Hp| |reflexivity|tauto].
    + split; [exact Ho|]. split; [congruence|]. now split.
    + unfold held. now rewrite Hf.
Qed.
Lemma performs_worker_life ops : forall w ipc, Forall worker_op_ok ops -> worker_ok w ipc -> performs (worker_life ops w ipc) (fun r s =>
  match r with Some (w', ipc') => keeps_fds w ipc s w' ipc' | None => exists w' ipc' s1 s2, s = s1 ++ s2 /\ keeps_fds w ipc s1 w' ipc' /\ Forall plain s2 end).
Proof.
  induction ops as [|op ops IH]; intros w ipc Hops Hok; cbn [worker_life]; [trace_step; apply keeps_fds_plain; auto; constructor|].
  inversion Hops; subst. eapply performs_bind; [now apply performs_worker_do|]. intros [[w1 i1]|] s Hs.
  - pose proof (proj1 Hs) as Hok1. eapply performs_impl; [now apply (IH w1 i1)|]. intros [[w2 i2]|] s' Hs'; [eapply keeps_fds_trans; eassumption|].
    destruct Hs' as (w2 & i2 & s1 & s2 & -> & Hk & Hp). exists w2, i2, (s ++ s1), s2. split; [apply app_assoc|]. split; [eapply keeps_fds_trans; eassumption|exact Hp].
  - trace_step. rewrite app_nil_r. exists w, ipc, [], s. split; [reflexivity|]. split; [|exact Hs]. apply keeps_fds_plain; auto; constructor.
Qed.

(** The descriptors of the host worker. A start that fails closes what it opened and
    leaves the caller its descriptors; one that succeeds takes them over and
    holds two new eventfds. From then on, over every history of exposures,
    stops, releases and datagrams: a descriptor is closed only while it is held,
    so never twice; once the worker was exposed to the engine nothing is ever
    closed; a release that succeeds leaves nothing open; and after a failure,
    whatever is still open stays open for good. *)
Theorem worker_descriptors w ipc fds ops :
  performs (b41_frame_worker_start w ipc fds) (fun r s =>
    let '(st, w', vars) := r in
    if st =? 0 then worker_state w' = B41_WORKER_RUNNING /\ vars = ((fun _ => -1) <$> fds) /\ moves made closed [] s [wake_fd w'; done_fd w'] /\
      (Forall worker_op_ok ops -> owner_ok ipc -> initialized ipc = true -> performs (worker_life ops w' ipc) (fun r2 t =>
         match r2 with
         | None => True
         | Some (w2, ipc2) =>
           (exists lost, moves made closed (fds ++ [wake_fd w'; done_fd w'] ++ open_fds [owner_fd ipc]) t (held w2 ipc2 ++ lost) /\
              (lost = [] \/ worker_state w2 = B41_WORKER_QUARANTINED)) /\
           (exposed w2 = true -> Forall not_close t) /\
           (worker_state w2 = B41_WORKER_RELEASED -> held w2 ipc2 = [])
         end))
    else worker_state w' = worker_state w /\ vars = fds /\ moves made closed [] s []).
Proof.
  eapply performs_impl; [apply performs_start|]. intros [[st w'] vars] s H. destruct (st =? 0); [|exact H].
  destruct H as (Hst & Hx & Hr & Hv & Hn & Hw & Hd & Hm). split; [exact Hst|]. split; [exact Hv|]. split; [exact Hm|]. intros Hops Ho Hi.
  assert (Hall : Forall (fun fd => 0 <= fd) ((receivers w').*1 ++ [wake_fd w'; done_fd w'])) by (rewrite Hr; apply Forall_app; split; [exact Hn|now repeat constructor]).
  assert (Hok : worker_ok w' ipc) by (split; [exact Ho|]; split; [exact Hi|]; split; [rewrite Hst; discriminate|]; split; [congruence|]; intros _; exact Hall).
  assert (Hheld : held w' ipc = fds ++ [wake_fd w'; done_fd w'] ++ open_fds [owner_fd ipc]) by (unfold held; rewrite open_fds_all by exact Hall; now rewrite Hr, <- app_assoc).
  eapply performs_impl; [now apply performs_worker_life|]. intros [[w2 ipc2]|] t Hk; [|exact I]. destruct Hk as (_ & Hlost & Hc & _ & Hrel & _). rewrite Hheld in Hlost.
  split; [exact Hlost|]. split; [intros Hx2; destruct Hc as [Hc|[_ Hc]]; [exact Hc|congruence]|]. intros E. apply Hrel; [exact E|rewrite Hst; discriminate].
Qed.
