(* ===== verification/AgpsReceiver.v ===== *)
(** * The receiver of assistance requests

    [b41_agps_receiver.c] and [b41_agps_native.c]: a private datagram socket on an
    abstract name, a parked thread that starts to read only when the controller
    activates it, the credentials of every datagram, the delivery into the
    mapped engine, and the owner of the four descriptors. *)

From stdpp Require Import strings.
From S2P Require Import Prelude Trace HostQueue HostText AgpsHost HostWorker.
Open Scope Z_scope.
Open Scope io_scope.

(** ** The mapped engine image *)

Definition B41_LIBRARY_IMAGE_END : Z := 0x90ffc0.
Record b41_library_association := Association { base : Z; xml_global : Z; chip_global : Z; extent : Z }.
#[export] Instance b41_library_association_eq_dec : EqDecision b41_library_association.
Proof. solve_decision. Defined.
Record b41_native_thread_record := Thread_record { marker : Z; index : Z; handle : Z; stop_at : Z; wake_at : Z }.
#[export] Instance b41_native_thread_record_eq_dec : EqDecision b41_native_thread_record.
Proof. solve_decision. Defined.
(** Thirty-two bytes of the table. *)
Definition record_of (b : list Z) : b41_native_thread_record :=
  Thread_record (s32 (le32 b 0)) (le32 b 4) (le_of (slice b 8 8)) (le_of (slice b 16 8)) (le_of (slice b 24 8)).
Definition read_image (address size : Z) : os (list Z) := let! a := ask (Read_image address size) in ret (stored a).
Definition image_refused (image : b41_library_association) : bool :=
  (base image =? 0) || negb (extent image =? B41_LIBRARY_IMAGE_END) || (UINTPTR_MAX - B41_LIBRARY_IMAGE_END <? base image).

Definition live_primary (image : b41_library_association) : os Z :=
  if image_refused image then ret (- EINVAL) else
  let! flag := read_image (base image + 0x6e6d00) 8 in
  if negb (le_of flag =? base image + 0x6fa3d8) then ret (- ESTALE) else
  let! offload := read_image (base image + 0x6fa3d8) 4 in
  if negb (le_of offload =? 0) then ret (- EOPNOTSUPP) else
  let! r := read_image (base image + 0x6edef0) 32 in
  let r := record_of r in
  if negb (index r =? 0) || negb (stop_at r =? base image + 0x529f18) || negb (wake_at r =? base image + 0x529418) then ret (- ESTALE) else
  if (marker r <? 0) || (handle r =? UINT64_MAX) then ret (- ENODATA) else ret 0.

(** The check of a request at the boundary to the engine. *)
Definition deliverable (r : b41_agps_request) : Z :=
  let length := len (rq_payload r) in
  if length =? 0 then - EINVAL else
  if rq_type r =? 250 then
    if negb (rq_parameter r =? 35) || (B41_AGPS_PMTK_MAX <? length) || negb (byte_at (rq_payload r) (length - 1) =? 0)
       || bool_decide (0 ∈ firstn (Z.to_nat (length - 1)) (rq_payload r)) then - EBADMSG else 0
  else if binary_type (rq_type r) then
    if negb (rq_parameter r =? (if rq_type r =? 264 then 118 else rq_type r - 256 + 62)) || (B41_AGPS_RX_MAX - 12 <? length)
       || ((rq_type r =? 262) && (8192 <? length)) then - EBADMSG else 0
  else - EOPNOTSUPP.
Definition b41_agps_native_deliver (image : b41_library_association) (r : b41_agps_request) : os Z :=
  if negb (deliverable r =? 0) then ret (deliverable r) else
  let! l := live_primary image in
  if negb (l =? 0) then ret l else
  let! d := ask (Deliver (rq_type r) (if rq_type r =? 250 then 35 else rq_parameter r) (rq_payload r)) in
  ret (if value d =? 0 then 0 else - EIO).

(** ** The owner *)

Inductive b41_agps_rx_state := B41_AGPS_RX_FRESH | B41_AGPS_RX_BOUND | B41_AGPS_RX_PREPARED | B41_AGPS_RX_RUNNING | B41_AGPS_RX_QUIESCED | B41_AGPS_RX_QUARANTINED | B41_AGPS_RX_CLOSED.
#[export] Instance b41_agps_rx_state_eq_dec : EqDecision b41_agps_rx_state.
Proof. solve_decision. Defined.
(** The four descriptors with their identities: socket, stop, completion, activation. *)
Record b41_agps_receiver := Receiver {
  rx_entered : bool; rx_state : b41_agps_rx_state; rx_fds : list (Z * file_stat); peer_pid : Z; peer_uid : Z; rx_image : b41_library_association }.
Definition rx_with (o : b41_agps_receiver) (st : b41_agps_rx_state) : b41_agps_receiver :=
  Receiver (rx_entered o) st (rx_fds o) (peer_pid o) (peer_uid o) (rx_image o).
Definition rx_fd (o : b41_agps_receiver) (i : nat) : Z := (nth i (rx_fds o) (-1, FileStat 0 0 0 0)).1.

Definition rx_fail (error : Z) : os Z := let! a := ask (Latch The_receiver error) in ret (if value a =? 0 then error else value a).
Definition rx_error : os Z := let! a := ask (Load_error The_receiver) in ret (value a).
Definition controller (o : b41_agps_receiver) : os bool :=
  if negb (rx_entered o) then ret false else let! a := ask Same_thread in ret (negb (value a =? 0)).
Definition same_fd (f : Z * file_stat) : os Z :=
  let! s := ask (Fstat f.1) in ret (if failed_call s then value s else if bool_decide (info s = f.2) then 0 else - ESTALE).
(** The first descriptor that changed. *)
Fixpoint same_fds (l : list (Z * file_stat)) : os Z :=
  match l with [] => ret 0 | f :: l => let! s := same_fd f in if negb (s =? 0) then ret s else same_fds l end.

Definition b41_agps_receiver_observe (o : b41_agps_receiver) : os Z :=
  let! c := controller o in
  if negb c then ret (- EPERM) else
  let! e := rx_error in
  if negb (e =? 0) then ret e else
  if negb (bool_decide (rx_state o = B41_AGPS_RX_PREPARED)) && negb (bool_decide (rx_state o = B41_AGPS_RX_RUNNING)) then ret (- ESHUTDOWN) else
  let! st := ask (Load_stop The_receiver) in
  if negb (value st =? 0) then ret (- ESHUTDOWN) else
  let! s := same_fds (rx_fds o) in
  if negb (s =? 0) then rx_fail s else
  let! p := ask (Poll (rx_fd o 2) 0) in
  if failed_call p then rx_fail (value p) else
  if poll_error (number p) then rx_fail (- EIO) else
  if poll_in (number p) then let! e := rx_error in ret (if e =? 0 then - ESHUTDOWN else e) else rx_error.

Definition rx_address : list Z := AF_UNIX ++ [0] ++ chars "mtk_agps2mnl".
Fixpoint close_all (fds : list Z) : os unit := match fds with [] => ret tt | fd :: fds => let! _ := ask (Close fd) in close_all fds end.
(** Eventfds until one fails: what was opened, and the error. *)
Fixpoint open_eventfds (n : nat) : os (list Z * Z) :=
  match n with
  | O => ret ([], 0)
  | S n => let! e := ask Eventfd in if failed_call e then ret ([], value e) else let! r := open_eventfds n in ret (value e :: r.1, r.2)
  end.
Fixpoint stat_all (fds : list Z) : os (Z + list (Z * file_stat)) :=
  match fds with
  | [] => ret (inr [])
  | fd :: fds =>
    let! s := ask (Fstat fd) in
    if failed_call s then ret (inl (value s)) else
    let! r := stat_all fds in ret (match r with inl e => inl e | inr l => inr ((fd, info s) :: l) end)
  end.
(** With the socket: what is open, and the identities or the error. *)
Definition rx_setup (fd : Z) : os (list Z * (Z + list (Z * file_stat))) :=
  let! o := ask (Set_passcred fd) in
  if failed_call o then ret ([fd], inl (value o)) else
  let! b := ask (Bind fd rx_address) in
  if failed_call b then ret ([fd], inl (value b)) else
  let! e := open_eventfds 3 in
  if negb (e.2 =? 0) then ret (fd :: e.1, inl e.2) else
  let! s := stat_all (fd :: e.1) in ret (fd :: e.1, s).
Definition no_fds : list (Z * file_stat) := repeat (-1, FileStat 0 0 0 0) 4.
Definition b41_agps_receiver_open (o : b41_agps_receiver) (peer uid : Z) : os (Z * b41_agps_receiver) :=
  if peer <=? 0 then ret (- EINVAL, o) else
  if rx_entered o then ret (- EALREADY, o) else
  let closed_rx := Receiver true B41_AGPS_RX_CLOSED no_fds peer uid (rx_image o) in
  let! s := ask Socket in
  if failed_call s then let! e := rx_fail (value s) in ret (e, closed_rx) else
  let! r := rx_setup (value s) in
  match r.2 with
  | inr l => ret (0, Receiver true B41_AGPS_RX_BOUND l peer uid (rx_image o))
  | inl e => let! _ := close_all r.1 in let! e := rx_fail e in ret (e, closed_rx)
  end.

(** ** One datagram *)

(** Received rights are closed; the credentials that came, and whether something was wrong. *)
Fixpoint scan_control (l : list control) : os (list (Z * Z) * bool) :=
  match l with
  | [] => ret ([], false)
  | Malformed :: _ => ret ([], true)
  | Rights fds :: l => let! _ := close_all fds in let! r := scan_control l in ret (r.1, true)
  | Credentials pid uid :: l => let! r := scan_control l in ret ((pid, uid) :: r.1, r.2)
  | Other_control :: l => let! r := scan_control l in ret (r.1, true)
  end.
Definition MSG_TRUNC_CTRUNC (flags : Z) : bool := negb (Z.land flags (0x20 + 0x8) =? 0).
Definition receive_one (o : b41_agps_receiver) : os Z :=
  let! s := same_fd (nth 0 (rx_fds o) (-1, FileStat 0 0 0 0)) in
  if negb (s =? 0) then ret s else
  let! m := ask (Receive (rx_fd o 0)) in
  if failed_call m then ret (value m) else
  let! c := scan_control (messages m) in
  if c.2 || MSG_TRUNC_CTRUNC (number m) then ret (- EBADMSG) else
  if negb (bool_decide (c.1 = [(peer_pid o, peer_uid o)])) then ret (- EACCES) else
  match b41_agps_receiver_decode (Some (stored m)) with
  | inl e => ret e
  | inr r =>
    let! st := ask (Load_stop The_receiver) in
    if negb (value st =? 0) then ret 0 else
    let! d := b41_agps_native_deliver (rx_image o) r in
    if d =? 0 then let! _ := ask Count_delivered in ret 0 else ret d
  end.

(** ** The thread *)

Definition rx_latch (error : Z) : os unit := latch The_receiver error.
(** [active]: it reads the socket, before that only the activation eventfd. *)
Fixpoint rx_loop (fuel : nat) (o : b41_agps_receiver) (active : bool) : os (option unit) :=
  match fuel with
  | O => ret None
  | S fuel =>
    let! st := ask (Load_stop The_receiver) in
    if negb (value st =? 0) then ret (Some tt) else
    let fd := rx_fd o (if active then 0 else 3)%nat in
    let! p := ask (Poll_many [fd; rx_fd o 1] (-1)) in
    if failed_call p then
      if value p =? - EINTR then rx_loop fuel o active else let! _ := rx_latch (value p) in ret (Some tt)
    else
    let revents i := byte_at (stored p) i in
    if poll_error (Z.lor (revents 0) (revents 1)) then let! _ := rx_latch (- EIO) in ret (Some tt) else
    if poll_in (revents 1) then ret (Some tt) else
    if poll_in (revents 0) then
      if active then
        let! s := receive_one o in
        if negb (s =? 0) && negb (s =? - EAGAIN) then let! _ := rx_latch s in ret (Some tt) else rx_loop fuel o active
      else
        let! a := ask (Read fd) in
        if negb (value a =? 8) || negb (number a =? 1) then let! _ := rx_latch (- EIO) in ret (Some tt) else rx_loop fuel o true
    else rx_loop fuel o active
  end.
Definition rx_thread (fuel : nat) (o : b41_agps_receiver) : os (option unit) :=
  let! r := rx_loop fuel o false in
  match r with
  | None => ret None
  | Some _ => let! w := signal (rx_fd o 2) in if w =? 0 then ret (Some tt) else let! _ := rx_latch w in ret (Some tt)
  end.

(** ** The controller *)

Definition b41_agps_receiver_prepare (o : b41_agps_receiver) : os (Z * b41_agps_receiver) :=
  if negb (rx_entered o) || negb (bool_decide (rx_state o = B41_AGPS_RX_BOUND)) then ret (- EINVAL, o) else
  let! c := controller o in
  if negb c then ret (- EPERM, o) else
  let! e := rx_error in
  if negb (e =? 0) then ret (e, o) else
  let! a := ask Associate in
  if failed_call a then let! e := rx_fail (value a) in ret (e, o) else
  let image := Association (le_of (slice (stored a) 0 8)) (le_of (slice (stored a) 8 8)) (le_of (slice (stored a) 16 8)) (le_of (slice (stored a) 24 8)) in
  let! s := same_fds (rx_fds o) in
  if negb (s =? 0) then let! e := rx_fail s in ret (e, o) else
  let o := Receiver (rx_entered o) (rx_state o) (rx_fds o) (peer_pid o) (peer_uid o) image in
  let! i := ask Attr_init in
  if negb (value i =? 0) then let! e := rx_fail (- value i) in ret (e, o) else
  let! t := create_detached in
  if negb (t =? 0) then let! e := rx_fail (- t) in ret (e, o) else ret (1, rx_with o B41_AGPS_RX_PREPARED).
Definition b41_agps_receiver_activate (o : b41_agps_receiver) : os (Z * b41_agps_receiver) :=
  if negb (bool_decide (rx_state o = B41_AGPS_RX_PREPARED)) then ret (- EINVAL, o) else
  let! c := controller o in
  if negb c then ret (- EPERM, o) else
  let! s := b41_agps_receiver_observe o in
  let! s := if s =? 0 then live_primary (rx_image o) else ret s in
  let! s := if s =? 0 then same_fd (nth 3 (rx_fds o) (-1, FileStat 0 0 0 0)) else ret s in
  if negb (s =? 0) then let! e := rx_fail s in ret (e, o) else
  let! w := signal (rx_fd o 3) in
  if negb (w =? 0) then let! e := rx_fail w in ret (e, o) else ret (0, rx_with o B41_AGPS_RX_RUNNING).
Definition b41_agps_receiver_start (o : b41_agps_receiver) : os (Z * b41_agps_receiver) :=
  let! p := b41_agps_receiver_prepare o in
  if p.1 <? 0 then ret p else b41_agps_receiver_activate p.2.

(** The wait for the thread's last write: [Some 0] when it was seen. *)
Fixpoint rx_await (fuel : nat) (done : Z) (deadline : timespec) : os (option Z) :=
  match fuel with
  | O => ret None
  | S fuel =>
    let! ms := remaining deadline in
    if ms <? 0 then ret (Some ms) else
    let! r := ask (Poll done ms) in
    if failed_call r then (if value r =? - EINTR then rx_await fuel done deadline else ret (Some (value r))) else
    if negb (value r =? 0) && poll_error (number r) then ret (Some (- EIO)) else
    if negb (value r =? 0) && poll_in (number r) then ret (Some 0) else
    ret (Some (if value r =? 0 then - ETIMEDOUT else - EIO))
  end.
Definition b41_agps_receiver_quiesce (fuel : nat) (o : b41_agps_receiver) (deadline : timespec) : os (option (Z * b41_agps_receiver)) :=
  if negb (valid_time deadline) then ret (Some (- EINVAL, o)) else
  let! c := controller o in
  if negb c then ret (Some (- EPERM, o)) else
  if bool_decide (rx_state o = B41_AGPS_RX_QUARANTINED) then ret (Some (- EBUSY, o)) else
  if negb (bool_decide (rx_state o = B41_AGPS_RX_RUNNING)) && negb (bool_decide (rx_state o = B41_AGPS_RX_PREPARED)) then ret (Some (- EINVAL, o)) else
  let! _ := ask (Store_stop The_receiver) in
  let! s := same_fd (nth 1 (rx_fds o) (-1, FileStat 0 0 0 0)) in
  let! s := (if s =? 0 then let! k := ask (Write (rx_fd o 1) event_one) in ret (if failed_call k && negb (value k =? - EAGAIN) then value k else 0) else ret s) in
  let! s := if s =? 0 then same_fd (nth 2 (rx_fds o) (-1, FileStat 0 0 0 0)) else ret s in
  let! w := if s =? 0 then rx_await fuel (rx_fd o 2) deadline else ret (Some s) in
  match w with
  | None => ret None
  | Some w =>
    if w =? 0 then let! e := rx_error in ret (Some (e, rx_with o B41_AGPS_RX_QUIESCED))
    else let! e := rx_fail w in ret (Some (e, rx_with o B41_AGPS_RX_QUARANTINED))
  end.
Fixpoint rx_close_fds (l : list (Z * file_stat)) : os (list (Z * file_stat)) :=
  match l with
  | [] => ret []
  | (fd, id) :: l =>
    let! c := ask (Close fd) in
    let! _ := (if failed_call c then rx_latch (value c) else ret tt) in
    let! r := rx_close_fds l in ret ((-1, id) :: r)
  end.
Definition b41_agps_receiver_close (o : b41_agps_receiver) : os (Z * b41_agps_receiver) :=
  if negb (rx_entered o) then ret (- EINVAL, o) else
  let! c := controller o in
  if negb c then ret (- EPERM, o) else
  if negb (bool_decide (rx_state o = B41_AGPS_RX_BOUND)) && negb (bool_decide (rx_state o = B41_AGPS_RX_QUIESCED)) then ret (- EPERM, o) else
  let! s := same_fds (rx_fds o) in
  if negb (s =? 0) then let! e := rx_fail s in ret (e, rx_with o B41_AGPS_RX_QUARANTINED) else
  let! l := rx_close_fds (rx_fds o) in
  let! e := rx_error in
  ret (e, Receiver (rx_entered o) B41_AGPS_RX_CLOSED l (peer_pid o) (peer_uid o) (rx_image o)).

(** ** What the thread does with datagrams *)

Definition delivery : Type := Z * Z * list Z.
Definition delivery_of (e : call * answer) : option delivery := match e.1 with Deliver t p b => Some (t, p, b) | _ => None end.
Definition deliveries (s : os_trace) : list delivery := omap delivery_of s.
(** A whole datagram with one control message, the credentials of the peer, and a request the decoder admits. *)
Definition accepted_of (o : b41_agps_receiver) (e : call * answer) : option delivery :=
  match e with
  | (Receive _, a) =>
    if failed_call a || MSG_TRUNC_CTRUNC (number a) then None else
    match messages a with
    | [Credentials pid uid] =>
      if (pid =? peer_pid o) && (uid =? peer_uid o) then
        match b41_agps_receiver_decode (Some (stored a)) with inr r => Some (rq_type r, rq_parameter r, rq_payload r) | inl _ => None end
      else None
    | _ => None
    end
  | _ => None
  end.
Definition accepted (o : b41_agps_receiver) (s : os_trace) : list delivery := omap (accepted_of o) s.
(** The descriptors that came with a datagram, up to a header that has no length. *)
Fixpoint rights_of (l : list control) : list Z :=
  match l with [] | Malformed :: _ => [] | Rights fds :: l => fds ++ rights_of l | _ :: l => rights_of l end.
Definition received_of (e : call * answer) : list Z := match e with (Receive _, a) => if failed_call a then [] else rights_of (messages a) | _ => [] end.
Definition received_rights (s : os_trace) : list Z := mjoin (received_of <$> s).
Definition closes (s : os_trace) : list Z := mjoin (closed <$> s).
(** No stop was seen and no error was latched. *)
Definition undisturbed_event (e : call * answer) : Prop :=
  match e with (Load_stop _, a) => value a = 0 | (Latch _ _, _) => False | _ => True end.
Definition undisturbed (s : os_trace) : Prop := Forall undisturbed_event s.

(** [P]: what the completeness half needs of the status. *)
Definition datagrams_ok (o : b41_agps_receiver) (P : Prop) (s : os_trace) : Prop :=
  deliveries s `sublist_of` accepted o s /\ closes s = received_rights s /\ (undisturbed s -> P -> deliveries s = accepted o s).

Lemma deliveries_app s1 s2 : deliveries (s1 ++ s2) = deliveries s1 ++ deliveries s2.
Proof. apply omap_app. Qed.
Lemma accepted_requests_app o s1 s2 : accepted o (s1 ++ s2) = accepted o s1 ++ accepted o s2.
Proof. apply omap_app. Qed.
Lemma closes_app s1 s2 : closes (s1 ++ s2) = closes s1 ++ closes s2.
Proof. unfold closes. now rewrite fmap_app, join_app. Qed.
Lemma received_rights_app s1 s2 : received_rights (s1 ++ s2) = received_rights s1 ++ received_rights s2.
Proof. unfold received_rights. now rewrite fmap_app, join_app. Qed.
Lemma datagrams_ok_app o P Q s1 s2 : (Q -> P) -> datagrams_ok o P s1 -> datagrams_ok o Q s2 -> datagrams_ok o Q (s1 ++ s2).
Proof.
  intros PQ (A1 & A2 & A3) (B1 & B2 & B3). unfold datagrams_ok. rewrite deliveries_app, accepted_requests_app, closes_app, received_rights_app.
  split; [now apply sublist_app|]. split; [congruence|]. intros U HQ. apply Forall_app in U as [U1 U2]. rewrite A3, B3; auto.
Qed.
(** Events that are none of the four. *)
Definition inert (e : call * answer) : bool := match e.1 with Receive _ | Deliver _ _ _ | Close _ => false | _ => true end.
Lemma inert_empty o s : Forall (fun e => inert e = true) s -> deliveries s = [] /\ accepted o s = [] /\ closes s = [] /\ received_rights s = [].
Proof. induction 1 as [|[[] a] s He _ (I1 & I2 & I3 & I4)]; [now repeat split|..]; try discriminate; now repeat split. Qed.
Lemma inert_ok o P s : Forall (fun e => inert e = true) s -> datagrams_ok o P s.
Proof. intros H. destruct (inert_empty o s H) as (E1 & E2 & E3 & E4). unfold datagrams_ok. rewrite E1, E2, E3, E4. now repeat split. Qed.
Lemma datagrams_ok_impl o (P Q : Prop) s : (Q -> P) -> datagrams_ok o P s -> datagrams_ok o Q s.
Proof. intros H (A1 & A2 & A3). split; [exact A1|]. split; [exact A2|]. auto. Qed.

Lemma performs_close_all fds : performs (close_all fds) (fun _ s => closes s = fds /\ deliveries s = [] /\ (forall o, accepted o s = []) /\ received_rights s = [] /\ undisturbed s).
Proof.
  induction fds as [|fd fds IH]; cbn [close_all]; [trace_step; repeat split; constructor|]. trace_step. eapply performs_impl; [apply IH|].
  intros _ s (C & D & A & R & U). repeat split; try (intros o'; apply A); [cbn; now rewrite <- C|exact D|exact R|now constructor].
Qed.
(** The scan closes what came and finds nothing wrong only in a list of credentials. *)
Lemma performs_scan l : performs (scan_control l) (fun c s =>
  closes s = rights_of l /\ deliveries s = [] /\ (forall o, accepted o s = []) /\ received_rights s = [] /\ undisturbed s /\
  (c.2 = false -> l = (fun c => Credentials c.1 c.2) <$> c.1)).
Proof.
  induction l as [|x l IH]; cbn [scan_control rights_of]; [trace_step; repeat split; constructor|].
  destruct x as [|fds|pid uid|]; [trace_step; repeat split; try constructor; discriminate| | |].
  - eapply performs_bind; [apply performs_close_all|]. intros _ s (C & D & A & R & U). eapply performs_bind; [apply IH|]. intros c s' (C' & D' & A' & R' & U' & _). trace_step. cbn [fst snd].
    rewrite app_nil_r, closes_app, deliveries_app, received_rights_app, C, C', D, D', R, R'. repeat split; [|apply Forall_app; now split|discriminate]. intros o. now rewrite accepted_requests_app, A, A'.
  - eapply performs_bind; [apply IH|]. intros c s' (C' & D' & A' & R' & U' & E). trace_step. cbn [fst snd]. rewrite app_nil_r. repeat split; try assumption. intros H. cbn. now rewrite <- E.
  - eapply performs_bind; [apply IH|]. intros c s' (C' & D' & A' & R' & U' & _). trace_step. cbn [fst snd]. rewrite app_nil_r. repeat split; try assumption. discriminate.
Qed.
Lemma performs_same_fd f : performs (same_fd f) (fun _ s => exists a, s = [(Fstat f.1, a)]).
Proof. unfold same_fd. trace_step. trace_step. eauto. Qed.
Definition image_read (e : call * answer) : bool := match e.1 with Read_image _ _ => true | _ => false end.
Lemma performs_read_image address size : performs (read_image address size) (fun _ s => exists a, s = [(Read_image address size, a)]).
Proof. unfold read_image. trace_step. trace_step. eauto. Qed.
Ltac read_step := eapply performs_bind; [apply performs_read_image|]; let a := fresh "a" in intros ? ? [a ->].
Lemma performs_live_primary image : performs (live_primary image) (fun st s => Forall (fun e => image_read e = true) s /\ st <> - EAGAIN).
Proof.
  unfold live_primary. trace_step; [trace_step; split; [constructor|discriminate]|]. read_step. trace_step; [trace_step; split; [now repeat constructor|discriminate]|].
  read_step. trace_step; [trace_step; split; [now repeat constructor|discriminate]|]. read_step. cbn zeta. trace_step; [trace_step; split; [now repeat constructor|discriminate]|].
  trace_step; trace_step; (split; [now repeat constructor|discriminate]).
Qed.
Lemma image_read_inert s : Forall (fun e => image_read e = true) s -> Forall (fun e => inert e = true) s.
Proof. intros H. eapply Forall_impl; [exact H|]. intros [[] a]; cbn; congruence. Qed.
(** The boundary check admits exactly what the decoder lets through. *)
Lemma deliverable_admissible r : admissible r -> deliverable r = 0.
Proof.
  intros (Hb & Hl & He & H). unfold deliverable. cbn zeta. replace (len (rq_payload r) =? 0) with false by lia. destruct H as [(T & P & L & text & E & N)|(B & P & L)].
  - rewrite T, P. cbn [Z.eqb Pos.eqb negb orb]. replace (B41_AGPS_PMTK_MAX <? len (rq_payload r)) with false by lia. cbn [orb].
    rewrite E, len_app. change (len [0]) with 1. replace (len text + 1 - 1) with (len text) by lia. rewrite byte_at_app_r by lia. rewrite Z.sub_diag, byte_at_cons_0. cbn [Z.eqb negb orb].
    replace (Z.to_nat (len text)) with (length text) by (unfold len; lia). rewrite take_app_length. now rewrite (proj2 (no_zero_iff text) N).
  - destruct (binary_not_text _ B) as [T _]. rewrite T, B, P, Z.eqb_refl. cbn [negb orb]. unfold encode_request in He. rewrite T in He. rewrite !len_app in He.
    change (len (word 1)) with 4 in He. change (len (word (rq_type r))) with 4 in He. change (len (word (len (rq_payload r)))) with 4 in He. rewrite len_nil in He.
    replace (B41_AGPS_RX_MAX - 12 <? len (rq_payload r)) with false by lia. cbn [orb]. destruct (Z.eqb_spec (rq_type r) 262) as [E|E]; [|reflexivity]. cbn [andb]. specialize (L E). now replace (8192 <? len (rq_payload r)) with false by lia.
Qed.

Definition goes_on (status : Z) : Prop := status = 0 \/ status = - EAGAIN.
Lemma deliverable_status r : deliverable r <> - EAGAIN /\ (deliverable r = 0 -> rq_parameter r = if rq_type r =? 250 then 35 else rq_parameter r).
Proof.
  unfold deliverable. cbn zeta. destruct (len (rq_payload r) =? 0); [split; discriminate|]. destruct (Z.eqb_spec (rq_type r) 250) as [T|T].
  - destruct (negb (rq_parameter r =? 35)) eqn:P; [split; discriminate|]. split; [now destruct (_ || _)|]. intros _. lia.
  - destruct (binary_type (rq_type r)); [|split; discriminate]. split; [now destruct (_ || _)|reflexivity].
Qed.
(** A call of the engine, of one request, or an error. *)
Lemma performs_native_deliver image r : performs (b41_agps_native_deliver image r) (fun st s =>
  (Forall (fun e => inert e = true) s /\ ~ goes_on st) \/
  (exists s0 a, s = s0 ++ [(Deliver (rq_type r) (rq_parameter r) (rq_payload r), a)] /\ Forall (fun e => inert e = true) s0)).
Proof.
  unfold b41_agps_native_deliver. destruct (deliverable_status r) as [D1 D2]. destruct (Z.eqb_spec (deliverable r) 0) as [D|D]; cbn [negb].
  2:{ trace_step. left. split; [constructor|]. unfold goes_on. tauto. }
  eapply performs_bind; [apply performs_live_primary|]. intros l s [Hs Hl]. apply image_read_inert in Hs. destruct (Z.eqb_spec l 0) as [L|L]; cbn [negb].
  2:{ trace_step. rewrite app_nil_r. left. split; [exact Hs|]. unfold goes_on. tauto. }
  trace_step. trace_step. right. rewrite <- (D2 D). exists s, p. now split.
Qed.
Lemma accepted_receive o fd a c : failed_call a = false -> MSG_TRUNC_CTRUNC (number a) = false -> messages a = ((fun c => Credentials c.1 c.2) <$> c) ->
  accepted_of o (Receive fd, a) = if bool_decide (c = [(peer_pid o, peer_uid o)]) then
    match b41_agps_receiver_decode (Some (stored a)) with inr r => Some (rq_type r, rq_parameter r, rq_payload r) | inl _ => None end else None.
Proof.
  intros F T M. unfold accepted_of. rewrite F, T, M. cbn [orb]. destruct c as [|[pid uid] [|]]; cbn [fmap list_fmap fst snd]; [now rewrite bool_decide_false| |now rewrite bool_decide_false].
  destruct (Z.eqb_spec pid (peer_pid o)) as [-> |N], (Z.eqb_spec uid (peer_uid o)) as [-> |N']; cbn [andb]; [now rewrite bool_decide_true| | |]; rewrite bool_decide_false by congruence; reflexivity.
Qed.
Lemma rights_of_credentials c : rights_of ((fun c => Credentials c.1 c.2) <$> c) = [].
Proof. induction c; [reflexivity|assumption]. Qed.
Lemma accepted_refused o fd a : failed_call a = false -> MSG_TRUNC_CTRUNC (number a) = true -> accepted_of o (Receive fd, a) = None.
Proof. intros F T. unfold accepted_of. now rewrite F, T. Qed.

Lemma performs_receive_one o : performs (receive_one o) (fun st s => datagrams_ok o (goes_on st) s).
Proof.
  unfold receive_one. eapply performs_bind; [apply performs_same_fd|]. intros st s [a ->].
  trace_step; [trace_step; rewrite app_nil_r; apply inert_ok; now repeat constructor|]. clear G. trace_step. cbn [Datatypes.app].
  assert (Hrej : forall (P : Prop) (m : answer), accepted_of o (Receive (rx_fd o 0), m) = None -> received_of (Receive (rx_fd o 0), m) = [] ->
    datagrams_ok o P [(Fstat (nth 0 (rx_fds o) (-1, FileStat 0 0 0 0)).1, a); (Receive (rx_fd o 0), m)]).
  { intros P m A R. unfold datagrams_ok, deliveries, accepted, closes, received_rights, mjoin in *. cbn -[accepted_of received_of]. change (accepted_of o (Fstat _, _)) with (@None delivery). now rewrite A, R. }
  trace_step; [trace_step; apply Hrej; cbn; now rewrite G|]. cbn [Datatypes.app].
  eapply performs_bind; [apply performs_scan|]. intros c s (C & D & A & R & U & E).
  set (pre := (Fstat (nth 0 (rx_fds o) (-1, FileStat 0 0 0 0)).1, a) :: (Receive (rx_fd o 0), p) :: s).
  assert (Ed : deliveries pre = []) by exact D.
  assert (Ec : closes pre = rights_of (messages p)) by exact C.
  assert (Er : received_rights pre = rights_of (messages p)) by (unfold pre; change (_ :: _ :: s) with ([(Fstat (nth 0 (rx_fds o) (-1, FileStat 0 0 0 0)).1, a); (Receive (rx_fd o 0), p)] ++ s); rewrite received_rights_app, R; unfold received_rights; cbn; rewrite G, !app_nil_r; reflexivity).
  assert (Ea : accepted o pre = match accepted_of o (Receive (rx_fd o 0), p) with Some d => [d] | None => [] end).
  { unfold accepted, pre. cbn -[accepted_of]. change (accepted_of o (Fstat _, _)) with (@None delivery). fold (accepted o s). rewrite A. now destruct (accepted_of o (Receive _, p)). }
  assert (Hnone : forall P, accepted_of o (Receive (rx_fd o 0), p) = None -> datagrams_ok o P pre).
  { intros P N. rewrite N in Ea. unfold datagrams_ok. rewrite Ed, Ec, Er, Ea. now repeat split. }
  assert (Hlate : forall (P : Prop), ~ P -> datagrams_ok o P pre).
  { intros P N. unfold datagrams_ok. rewrite Ed, Ec, Er. split; [apply sublist_nil_l|]. now split. }
  trace_step; [trace_step; rewrite app_nil_r; apply Hlate; intros [H|H]; discriminate|]. apply orb_false_elim in G0 as [Gc Gt]. specialize (E Gc).
  pose proof (accepted_receive o (rx_fd o 0) p c.1 G Gt E) as Ha.
  trace_step; [trace_step; rewrite app_nil_r; apply Hlate; intros [H|H]; discriminate|]. rewrite bool_decide_true in Ha by (apply negb_false_iff, bool_decide_eq_true in G0; exact G0).
  destruct (b41_agps_receiver_decode (Some (stored p))) as [e|r] eqn:Dec; [trace_step; rewrite app_nil_r; now apply Hnone|]. rewrite Ha in Ea.
  trace_step. trace_step.
  { trace_step. change (datagrams_ok o (goes_on 0) (pre ++ [(Load_stop The_receiver, p0)])). unfold datagrams_ok. rewrite deliveries_app, accepted_requests_app, closes_app, received_rights_app, Ed, Ec, Er, Ea, !app_nil_r.
    split; [apply sublist_nil_l|]. split; [reflexivity|]. intros Hu. apply Forall_app in Hu as [_ Hu]. inversion Hu as [|? ? X _]. cbn in X. lia. }
  eapply performs_bind; [apply performs_native_deliver|]. intros d s' H. cbv beta in H.
  assert (Hend : forall (P : Prop) s2, (P -> goes_on d) -> Forall (fun e => inert e = true) s2 -> datagrams_ok o P (pre ++ [(Load_stop The_receiver, p0)] ++ s' ++ s2)).
  { intros P s2 HP H2. destruct H as [[Hi Hst]|(s0 & b & -> & Hi)].
    - eapply (datagrams_ok_app o P P); [tauto|apply Hlate; tauto|]. apply inert_ok. constructor; [reflexivity|]. apply Forall_app. now split.
    - rewrite <- app_assoc. rewrite !app_assoc, <- (app_assoc _ [_] s2), <- (app_assoc pre). set (quiet := [(Load_stop The_receiver, p0)] ++ s0).
      assert (Hq : Forall (fun e => inert e = true) quiet) by (constructor; [reflexivity|exact Hi]). unfold datagrams_ok.
      destruct (inert_empty o quiet Hq) as (Q1 & Q2 & Q3 & Q4), (inert_empty o s2 H2) as (S1 & S2 & S3 & S4).
      rewrite !deliveries_app, !accepted_requests_app, !closes_app, !received_rights_app, Ed, Ec, Er, Ea, Q1, Q2, Q3, Q4, S1, S2, S3, S4. cbn. now repeat split. }
  trace_step.
  - trace_step. trace_step. apply (Hend (goes_on 0) [(Count_delivered, p1)]); [intros _; left; lia|now repeat constructor].
  - trace_step. specialize (Hend (goes_on d) [] ltac:(tauto) ltac:(constructor)). exact Hend.
Qed.

(** Before the activation word only the flag, the poll and the word itself are touched. *)
Definition parked_first (o : b41_agps_receiver) (s : os_trace) : Prop :=
  exists s1 s2, s = s1 ++ s2 /\ Forall (fun e => inert e = true) s1 /\
    (s2 = [] \/ exists s0 a, s1 = s0 ++ [(Read (rx_fd o 3), a)] /\ value a = 8 /\ number a = 1).
Lemma parked_inert o s : Forall (fun e => inert e = true) s -> parked_first o s.
Proof. intros H. exists s, []. rewrite app_nil_r. repeat split; [exact H|now left]. Qed.
Lemma parked_app o s1 s2 : Forall (fun e => inert e = true) s1 -> parked_first o s2 -> parked_first o (s1 ++ s2).
Proof.
  intros H (t1 & t2 & -> & Ht & E). exists (s1 ++ t1), t2. rewrite app_assoc. split; [reflexivity|]. split; [apply Forall_app; now split|].
  destruct E as [-> |(s0 & a & -> & V)]; [now left|]. right. exists (s1 ++ s0), a. now rewrite app_assoc.
Qed.
Lemma performs_rx_latch e : performs (rx_latch e) (fun _ s => exists a, s = [(Latch The_receiver e, a)]).
Proof. unfold rx_latch, latch. trace_step. trace_step. eauto. Qed.
Lemma undisturbed_latch s e a s' : ~ undisturbed (s ++ (Latch The_receiver e, a) :: s').
Proof. intros H. apply Forall_app in H as [_ H]. inversion H as [|? ? X _]. exact X. Qed.
Lemma datagrams_end o (P : Prop) s e a : datagrams_ok o P s -> datagrams_ok o True (s ++ [(Latch The_receiver e, a)]).
Proof.
  intros (A1 & A2 & _). destruct (inert_empty o [(Latch The_receiver e, a)]) as (E1 & E2 & E3 & E4); [now repeat constructor|]. unfold datagrams_ok.
  rewrite deliveries_app, accepted_requests_app, closes_app, received_rights_app, E1, E2, E3, E4, !app_nil_r. split; [exact A1|]. split; [exact A2|]. intros U. now apply undisturbed_latch in U.
Qed.

(** What one pass of the loop has asked before it acts. *)
Lemma performs_rx_loop o fuel : forall active, performs (rx_loop fuel o active) (fun _ s => datagrams_ok o True s /\ (active = false -> parked_first o s)).
Proof.
  induction fuel as [|fuel IH]; intros active; cbn [rx_loop]; [trace_step; split; [now apply inert_ok|intros _; now apply parked_inert]|].
  assert (Hin : forall s, Forall (fun e => inert e = true) s -> datagrams_ok o True s /\ (active = false -> parked_first o s)) by (intros s H; split; [now apply inert_ok|intros _; now apply parked_inert]).
  assert (Hpre : forall s s', Forall (fun e => inert e = true) s -> datagrams_ok o True s' /\ (active = false -> parked_first o s') -> datagrams_ok o True (s ++ s') /\ (active = false -> parked_first o (s ++ s'))).
  { intros s s' H [H1 H2]. split; [eapply (datagrams_ok_app o True True); auto; now apply inert_ok|intros Ha; apply parked_app; auto]. }
  trace_step. trace_step; [trace_step; apply Hin; now repeat constructor|]. cbn zeta. trace_step. set (q := Poll_many _ _).
  trace_step; [trace_step; [|eapply performs_bind; [apply performs_rx_latch|]; intros _ s [a ->]; trace_step; apply Hin; now repeat constructor]|].
  { eapply performs_impl; [apply IH|]. intros u s H. apply (Hpre [(_, _); (q, _)]); [now repeat constructor|exact H]. }
  trace_step; [eapply performs_bind; [apply performs_rx_latch|]; intros _ s [a ->]; trace_step; apply Hin; now repeat constructor|].
  trace_step; [trace_step; apply Hin; now repeat constructor|].
  trace_step.
  2:{ eapply performs_impl; [apply IH|]. intros u s H. apply (Hpre [(_, _); (q, _)]); [now repeat constructor|exact H]. }
  destruct active.
  - eapply performs_bind; [apply performs_receive_one|]. intros st s Hs. cbv beta in Hs.
    assert (Hs' : datagrams_ok o (goes_on st) ([(Load_stop The_receiver, p); (q, p0)] ++ s)) by (eapply (datagrams_ok_app o (goes_on st)); [tauto|apply inert_ok; now repeat constructor|exact Hs]).
    trace_step.
    + eapply performs_bind; [apply performs_rx_latch|]. intros _ s2 [a ->]. trace_step. split; [|discriminate]. apply (datagrams_end o _ _ st a) in Hs'. rewrite <- app_assoc in Hs'. exact Hs'.
    + assert (Hg : goes_on st) by (unfold goes_on; lia). eapply performs_impl; [apply (IH true)|]. intros u s2 [H2 _]. split; [|discriminate].
      change (datagrams_ok o True ([(Load_stop The_receiver, p); (q, p0)] ++ s ++ s2)). rewrite app_assoc. eapply datagrams_ok_app; [|exact Hs'|exact H2]. tauto.
  - trace_step. trace_step; [eapply performs_bind; [apply performs_rx_latch|]; intros _ s [a ->]; trace_step; apply Hin; now repeat constructor|].
    eapply performs_impl; [apply (IH true)|]. intros u s [H _]. set (pre := [(Load_stop The_receiver, p); (q, p0); (Read (rx_fd o 3), p1)]). change (datagrams_ok o True (pre ++ s) /\ (false = false -> parked_first o (pre ++ s))).
    split; [eapply (datagrams_ok_app o True True); [auto|apply inert_ok; now repeat constructor|exact H]|]. intros _. exists pre, s. split; [reflexivity|]. split; [now repeat constructor|].
    right. exists [(Load_stop The_receiver, p); (q, p0)], p1. apply orb_false_elim in G4 as [V N]. split; [reflexivity|]. lia.
Qed.

(** C6. The receiver thread, whatever the kernel and the engine answer. Until the
    activation word is read nothing is received, delivered or closed. Every
    request that reaches the engine is, in order, that of a whole datagram whose
    only control message carries the credentials of the peer and whose bytes the
    decoder admits; as long as no stop is seen and no error is latched, none of
    those is left out. The descriptors that came with datagrams are closed, each
    once, and nothing else is. The last thing the thread does is the completion
    word, after which only its own failure is latched. *)
Theorem receiver_deliveries fuel o : performs (rx_thread fuel o) (fun r s =>
  deliveries s `sublist_of` accepted o s /\ (undisturbed s -> deliveries s = accepted o s) /\ closes s = received_rights s /\ parked_first o s /\
  (r = Some tt -> exists s0 a, s = s0 ++ [(Write (rx_fd o 2) event_one, a)] \/ exists e b, s = s0 ++ [(Write (rx_fd o 2) event_one, a); (Latch The_receiver e, b)])).
Proof.
  unfold rx_thread. eapply performs_bind; [apply performs_rx_loop|]. intros r s [H Hp]. specialize (Hp eq_refl).
  assert (Hok : forall s', Forall (fun e => inert e = true) s' -> let t := s ++ s' in
    deliveries t `sublist_of` accepted o t /\ (undisturbed t -> deliveries t = accepted o t) /\ closes t = received_rights t /\ parked_first o t).
  { intros s' Hs'. destruct (datagrams_ok_app o True True s s' (fun x => x) H (inert_ok o True s' Hs')) as (A1 & A2 & A3). cbn zeta. repeat split; auto.
    destruct Hp as (s1 & s2 & -> & Hi & E). destruct E as [-> |E]; [rewrite app_nil_r; apply parked_inert, Forall_app; now split|]. exists s1, (s2 ++ s'). rewrite app_assoc. repeat split; auto. }
  destruct r as [u|]; [|trace_step; rewrite app_nil_r; specialize (Hok [] ltac:(constructor)); rewrite app_nil_r in Hok; now destruct Hok as (A & B & C & D)].
  unfold signal. apply (performs_bind _ _ (fun _ t => exists a, t = [(Write (rx_fd o 2) event_one, a)])); [trace_step; trace_step; eauto|]. intros w t [a ->].
  trace_step.
  - trace_step. rewrite app_nil_r. destruct (Hok [(Write (rx_fd o 2) event_one, a)]) as (A & B & C & D); [now repeat constructor|]. repeat split; auto. eauto.
  - eapply performs_bind; [apply performs_rx_latch|]. intros _ t [b ->]. trace_step. rewrite app_nil_r.
    destruct (Hok [(Write (rx_fd o 2) event_one, a); (Latch The_receiver w, b)]) as (A & B & C & D); [now repeat constructor|]. repeat split; auto. intros _. exists s, a. right. eauto.
Qed.

(** ** The four descriptors *)

Definition gained (e : call * answer) : list Z := match e with (Socket, a) | (Eventfd, a) => if failed_call a then [] else [value a] | _ => [] end.
Definition created (e : call * answer) : bool := match e with (Create_thread, a) => value a =? 0 | _ => false end.
(** Every thread that was created has published its completion on [done]. *)
Definition completed (done : Z) (s : os_trace) : Prop :=
  forall u b v, s = u ++ (Create_thread, b) :: v -> value b = 0 -> exists ms a, In (Poll done ms, a) v /\ poll_in (number a) = true.
Definition close_guarded (done : Z) (s : os_trace) : Prop := forall u fd a v, s = u ++ (Close fd, a) :: v -> completed done u.
Definition rx_held (o : b41_agps_receiver) : list Z := open_fds (rx_fds o).*1.
Definition calm (e : call * answer) : bool := match e.1 with Socket | Eventfd | Close _ | Create_thread => false | _ => true end.

Lemma calm_moves h s : Forall (fun e => calm e = true) s -> moves gained closed h s h.
Proof. intros H. apply moves_quiet_all. eapply Forall_impl; [exact H|]. intros [[] a]; cbn; now intros. Qed.
Lemma Forall_at {A} (P : A -> Prop) l u x v : Forall P l -> l = u ++ x :: v -> P x.
Proof. intros H ->. apply Forall_app in H as [_ H]. now inversion H. Qed.
Lemma no_thread_completed done s : Forall (fun e => created e = false) s -> completed done s.
Proof. intros H u b v E Hb. pose proof (Forall_at _ _ _ _ _ H E) as X. cbn in X. lia. Qed.
(** An event of [s2] lies at the same place in [s1 ++ s2]. *)
Lemma split_app {A} (s1 s2 u : list A) x v : s1 ++ s2 = u ++ x :: v -> (exists w, s1 = u ++ x :: w /\ v = w ++ s2) \/ (exists w, s2 = w ++ x :: v /\ u = s1 ++ w).
Proof.
  intros E. apply app_eq_app in E as (l & [[E1 E2]|[E1 E2]]).
  - destruct l as [|y l]; [right; exists []; cbn in E2; now rewrite app_nil_r in *; subst|]. left. cbn in E2. injection E2 as <- ->. eauto.
  - right. exists l. now split.
Qed.
Lemma completed_app done s1 s2 : completed done s1 -> Forall (fun e => created e = false) s2 -> completed done (s1 ++ s2).
Proof.
  intros H1 H2 u b v E Hb. destruct (split_app _ _ _ _ _ E) as [(w & -> & ->)|(w & -> & ->)].
  - destruct (H1 u b w eq_refl Hb) as (ms & a & Hi & Ha). exists ms, a. split; [apply in_or_app; now left|exact Ha].
  - pose proof (Forall_at _ _ _ _ _ H2 eq_refl) as X. cbn in X. lia.
Qed.
Lemma completed_ack done s1 s2 ms a : Forall (fun e => created e = false) s2 -> In (Poll done ms, a) s2 -> poll_in (number a) = true -> completed done (s1 ++ s2).
Proof.
  intros H2 Hi Ha u b v E Hb. destruct (split_app _ _ _ _ _ E) as [(w & -> & ->)|(w & -> & ->)]; [exists ms, a; split; [apply in_or_app; now right|exact Ha]|].
  pose proof (Forall_at _ _ _ _ _ H2 eq_refl) as X. cbn in X. lia.
Qed.
Lemma close_guarded_app done s1 s2 : close_guarded done s1 -> (Forall not_close s2 \/ (completed done s1 /\ Forall (fun e => created e = false) s2)) -> close_guarded done (s1 ++ s2).
Proof.
  intros H1 H2 u fd a v E. destruct (split_app _ _ _ _ _ E) as [(w & -> & ->)|(w & -> & ->)]; [now eapply H1|]. destruct H2 as [H2|[Hc H2]].
  - destruct (Forall_at _ _ _ _ _ H2 eq_refl).
  - apply completed_app; [exact Hc|]. now apply Forall_app in H2 as [H2 _].
Qed.
Lemma calm_uncreated s : Forall (fun e => calm e = true) s -> Forall (fun e => created e = false) s.
Proof. intros H. eapply Forall_impl; [exact H|]. intros [[] a]; cbn; congruence. Qed.
Lemma calm_not_close s : Forall (fun e => calm e = true) s -> Forall not_close s.
Proof. intros H. eapply Forall_impl; [exact H|]. intros [[] a]; cbn; now intros. Qed.

(** What holds of a receiver that was opened, after the trace [s]. *)
Definition rx_life (done : Z) (o : b41_agps_receiver) (s : os_trace) : Prop :=
  moves gained closed [] s (rx_held o) /\ close_guarded done s /\
  (rx_state o = B41_AGPS_RX_CLOSED /\ rx_held o = [] \/
   Forall (fun fd => 0 <= fd) (rx_fds o).*1 /\ rx_fd o 2 = done /\
   match rx_state o with
   | B41_AGPS_RX_BOUND => Forall (fun e => created e = false) s
   | B41_AGPS_RX_QUIESCED => completed done s
   | B41_AGPS_RX_PREPARED | B41_AGPS_RX_RUNNING | B41_AGPS_RX_QUARANTINED => True
   | _ => False
   end).
(** A calm stretch, after which the descriptors are the same. *)
Lemma rx_life_calm done o s s' o' : rx_life done o s -> Forall (fun e => calm e = true) s' -> rx_fds o' = rx_fds o ->
  (rx_state o' = rx_state o \/ (rx_state o <> B41_AGPS_RX_CLOSED /\ (rx_state o' = B41_AGPS_RX_RUNNING \/ rx_state o' = B41_AGPS_RX_QUARANTINED \/ (rx_state o' = B41_AGPS_RX_QUIESCED /\ completed done (s ++ s'))))) ->
  rx_life done o' (s ++ s').
Proof.
  intros (M & C & L) Hc Ef Hst. unfold rx_life, rx_held, rx_fd in *. rewrite Ef. split; [eapply moves_app; [exact M|now apply calm_moves]|].
  split; [apply close_guarded_app; [exact C|left; now apply calm_not_close]|]. destruct Hst as [-> |[Hn Hst]].
  - destruct L as [L|(L1 & L2 & L3)]; [now left|]. right. split; [exact L1|]. split; [exact L2|]. pose proof (calm_uncreated s' Hc). destruct (rx_state o); auto; [apply Forall_app; now split|now apply completed_app].
  - destruct L as [[L _]|(L1 & L2 & L3)]; [contradiction|]. right. split; [exact L1|]. split; [exact L2|]. destruct Hst as [-> |[-> |[-> Hq]]]; auto.
Qed.

(** *** Calm operations *)

(** [only P m]: whatever is answered, [m] makes requests of the kind [P] alone. *)
Abbreviation only P m := (performs m (fun _ s => Forall (fun e => P e = true) s)).
Lemma only_bind {A B} P (m : os A) (k : A -> os B) : only P m -> (forall a, only P (k a)) -> only P (let! a := m in k a).
Proof. intros Hm Hk. eapply performs_bind; [exact Hm|]. intros a s Hs. eapply performs_impl; [apply Hk|]. intros b s' Hs'. apply Forall_app. now split. Qed.
Lemma only_ask (P : call * answer -> bool) q : (forall a, P (q, a) = true) -> only P (ask q).
Proof. intros H. trace_step. constructor; [apply H|constructor]. Qed.
Lemma only_ret {A} P (a : A) : only P (ret a : os A).
Proof. trace_step. constructor. Qed.
Lemma only_weaken {A} (P P' : call * answer -> bool) (m : os A) : (forall e, P e = true -> P' e = true) -> only P m -> only P' m.
Proof. intros H Hm. eapply performs_impl; [exact Hm|]. intros a s Hs. eapply Forall_impl; [exact Hs|exact H]. Qed.
(** Requests that look at something, and the one that keeps a first error. *)
Definition observing (e : call * answer) : bool :=
  match e.1 with
  | Fstat _ | Poll _ _ | Poll_many _ _ | Read _ | Clock | Load_error _ | Load_stop _ | Latch _ _ | Same_thread | Read_image _ _ | Adapter_error | Load_bound | Take_pending => true
  | _ => false
  end.
Lemma observing_calm e : observing e = true -> calm e = true.
Proof. destruct e as [[] a]; cbn; congruence. Qed.
Create HintDb rx_calm.
Ltac only_step :=
  lazymatch goal with
  | |- performs (bind _ _) _ => apply only_bind; [|let a := fresh "a" in intros a]
  | |- performs (ask _) _ => apply only_ask; reflexivity
  | |- performs (ret _) _ => apply only_ret
  | |- performs (if ?b then _ else _) _ => destruct b
  | |- performs (match ?x with _ => _ end) _ => destruct x
  end.
Ltac only_steps := repeat (first [solve [auto with rx_calm] | only_step]; cbn zeta).
Lemma observes_rx_fail e : only observing (rx_fail e).
Proof. unfold rx_fail. only_steps. Qed.
Lemma observes_rx_error : only observing rx_error.
Proof. unfold rx_error. only_steps. Qed.
Lemma observes_controller o : only observing (controller o).
Proof. unfold controller. only_steps. Qed.
Lemma observes_same_fd f : only observing (same_fd f).
Proof. unfold same_fd. only_steps. Qed.
Lemma observes_latch x e : only observing (latch x e).
Proof. unfold latch. only_steps. Qed.
Lemma observes_remaining d : only observing (remaining d).
Proof. unfold remaining. only_steps. Qed.
#[export] Hint Resolve observes_rx_fail observes_rx_error observes_controller observes_same_fd observes_latch observes_remaining : rx_calm.
Lemma observes_same_fds l : only observing (same_fds l).
Proof. induction l; cbn [same_fds]; only_steps. Qed.
Lemma observes_live_primary image : only observing (live_primary image).
Proof. unfold live_primary, read_image. only_steps. Qed.
#[export] Hint Resolve observes_same_fds observes_live_primary : rx_calm.
Lemma observes_observe o : only observing (b41_agps_receiver_observe o).
Proof. unfold b41_agps_receiver_observe. only_steps. Qed.
Lemma calmly {A} (m : os A) : only observing m -> only calm m.
Proof. apply only_weaken, observing_calm. Qed.
#[export] Hint Resolve observes_observe calmly : rx_calm.
Lemma calmly_signal fd : only calm (signal fd).
Proof. unfold signal. only_steps. Qed.
Lemma performs_rx_await fuel done d : performs (rx_await fuel done d) (fun w s => Forall (fun e => calm e = true) s /\
  (w = Some 0 -> exists ms a, In (Poll done ms, a) s /\ poll_in (number a) = true)).
Proof.
  induction fuel as [|fuel IH]; cbn [rx_await]; [trace_step; split; [constructor|discriminate]|].
  eapply (performs_bind _ _ (fun _ s => Forall (fun e => calm e = true) s)); [apply calmly, observes_remaining|]. intros ms s Hs. cbv beta in Hs.
  assert (Hno : forall v s', v <> 0 -> Forall (fun e => calm e = true) s' -> Forall (fun e => calm e = true) (s ++ s') /\ (Some v = Some 0 -> exists ms a, In (Poll done ms, a) (s ++ s') /\ poll_in (number a) = true)).
  { intros v s' Hv H'. split; [apply Forall_app; now split|congruence]. }
  trace_step; [trace_step; apply Hno; [lia|constructor]|]. trace_step.
  trace_step; [trace_step|].
  - eapply performs_impl; [apply IH|]. intros w s' [Hc Hw]. split; [apply Forall_app; split; [exact Hs|now constructor]|]. intros E. destruct (Hw E) as (m & a & Hi & Ha).
    exists m, a. split; [apply in_or_app; right; now right|exact Ha].
  - trace_step. unfold failed_call in *. apply Hno; [lia|now repeat constructor].
  - trace_step; [trace_step; apply Hno; [discriminate|now repeat constructor]|]. trace_step.
    + trace_step. split; [apply Forall_app; split; [exact Hs|now repeat constructor]|]. intros _. exists ms, p. split; [apply in_or_app; right; now left|]. now apply andb_true_iff in G2 as [_ G2].
    + trace_step. apply Hno; [now destruct (value p =? 0)|now repeat constructor].
Qed.

(** *** The operations *)

Lemma gained_one q a h s h' : (q = Socket \/ q = Eventfd) -> failed_call a = false -> moves gained closed (value a :: h) s h' -> moves gained closed h ((q, a) :: s) h'.
Proof. intros Hq Ha H. eapply (moves_cons _ _ _ h); [now destruct Hq as [-> | ->]|]. destruct Hq as [-> | ->]; cbn; now rewrite Ha. Qed.
Lemma close_all_moves fds h : performs (close_all fds) (fun _ s => moves gained closed (fds ++ h) s h /\ Forall (fun e => created e = false) s).
Proof.
  induction fds as [|fd fds IH]; cbn [close_all]; [trace_step; split; [now apply moves_nil|constructor]|]. trace_step. eapply performs_impl; [apply IH|]. intros _ s [M U].
  split; [eapply (moves_cons _ _ _ (fds ++ h)); [reflexivity|exact M]|now constructor].
Qed.
Lemma performs_open_eventfds n : performs (open_eventfds n) (fun r s => moves gained closed [] s r.1 /\ Forall (fun e => created e = false) s /\ Forall not_close s /\
  Forall (fun fd => 0 <= fd) r.1 /\ (r.2 = 0 -> length r.1 = n)).
Proof.
  induction n as [|n IH]; cbn [open_eventfds]; [trace_step; split; [now apply moves_nil|now repeat constructor]|]. trace_step. trace_step.
  - trace_step. cbn [fst snd]. split; [|split; [|split; [|split]]]; try now repeat constructor.
    + eapply (moves_cons _ _ _ []); [reflexivity|]. cbn. rewrite G. now apply moves_nil.
    + unfold failed_call in G. lia.
  - eapply performs_bind; [apply IH|]. intros [l e] s (M & U & N & P & L). trace_step. cbn [fst snd] in *. rewrite app_nil_r. split; [|split; [|split; [|split]]]; try now constructor.
    + eapply gained_one; [now right|exact G|]. apply (moves_frame _ _ [value p]) in M. rewrite (Permutation_app_comm l) in M. exact M.
    + constructor; [unfold failed_call in G; lia|exact P].
    + intros E. cbn [length]. now rewrite (L E).
Qed.
Lemma performs_stat_all fds : performs (stat_all fds) (fun r s => Forall (fun e => calm e = true) s /\ match r with inr l => l.*1 = fds | inl _ => True end).
Proof.
  induction fds as [|fd fds IH]; cbn [stat_all]; [trace_step; now split; [constructor|]|]. trace_step. trace_step; [trace_step; split; [now repeat constructor|exact I]|].
  eapply performs_bind; [apply IH|]. intros r s [C R]. trace_step. rewrite app_nil_r. split; [now constructor|]. destruct r; [exact I|]. cbn. now rewrite <- R.
Qed.
Lemma performs_rx_setup fd : 0 <= fd -> performs (rx_setup fd) (fun r s => moves gained closed [fd] s r.1 /\ Forall (fun e => created e = false) s /\ Forall not_close s /\
  match r.2 with inr l => l.*1 = r.1 /\ Forall (fun fd => 0 <= fd) r.1 | inl _ => True end).
Proof.
  intros Hfd. unfold rx_setup. trace_step. trace_step; [trace_step; cbn [fst snd]; split; [apply calm_moves; now repeat constructor|now repeat constructor]|].
  trace_step. trace_step; [trace_step; cbn [fst snd]; split; [apply calm_moves; now repeat constructor|now repeat constructor]|].
  eapply performs_bind; [apply performs_open_eventfds|]. intros [l e] s (M & U & N & P & L). cbn [fst snd] in *.
  assert (M' : moves gained closed [fd] ([(Set_passcred fd, p); (Bind fd rx_address, p0)] ++ s) (fd :: l)).
  { eapply moves_app; [apply calm_moves; now repeat constructor|]. apply (moves_frame _ _ [fd]) in M. rewrite (Permutation_app_comm l) in M. exact M. }
  trace_step; [trace_step; cbn [fst snd]; rewrite app_nil_r; split; [exact M'|]; split; [now repeat constructor|]; split; [now repeat constructor|exact I]|].
  eapply performs_bind; [apply performs_stat_all|]. intros r s' [C R]. trace_step. cbn [fst snd]. rewrite app_nil_r. split; [|split; [|split]].
  - change (moves gained closed [fd] (([(Set_passcred fd, p); (Bind fd rx_address, p0)] ++ s) ++ s') (fd :: l)). eapply moves_app; [exact M'|now apply calm_moves].
  - constructor; [reflexivity|]. constructor; [reflexivity|]. apply Forall_app. split; [exact U|now apply calm_uncreated].
  - constructor; [exact I|]. constructor; [exact I|]. apply Forall_app. split; [exact N|now apply calm_not_close].
  - destruct r; [exact I|]. split; [exact R|now constructor].
Qed.
Lemma no_threads_guarded done s : Forall (fun e => created e = false) s -> close_guarded done s.
Proof. intros H u fd a v ->. apply no_thread_completed. now apply Forall_app in H as [H _]. Qed.
Lemma performs_rx_open o peer uid : rx_entered o = false -> 0 < peer -> performs (b41_agps_receiver_open o peer uid) (fun r s =>
  rx_life (rx_fd r.2 2) r.2 s /\ Forall (fun e => created e = false) s /\ rx_entered r.2 = true).
Proof.
  intros Ho Hp. unfold b41_agps_receiver_open. replace (peer <=? 0) with false by lia. rewrite Ho. trace_step.
  assert (Hcl : forall done s, moves gained closed [] s [] -> Forall (fun e => created e = false) s -> rx_life done (Receiver true B41_AGPS_RX_CLOSED no_fds peer uid (rx_image o)) s).
  { intros done s M U. split; [exact M|]. split; [now apply no_threads_guarded|]. now left. }
  trace_step.
  { eapply performs_bind; [apply calmly, observes_rx_fail|]. intros e s Hs. trace_step. cbn [snd]. rewrite app_nil_r. cbv beta in Hs. apply calm_uncreated in Hs as Hu.
    split; [|split; [now constructor|reflexivity]]. apply Hcl; [|now constructor]. eapply (moves_cons _ _ _ []); [reflexivity|]. cbn. rewrite G. now apply calm_moves. }
  eapply performs_bind; [apply performs_rx_setup; unfold failed_call in G; lia|]. intros [fds r] s (M & U & N & R). cbn [fst snd] in *.
  assert (M' : moves gained closed [] ((Socket, p) :: s) fds) by (eapply gained_one; [now left|exact G|exact M]).
  destruct r as [e|l].
  - eapply performs_bind; [apply (close_all_moves fds [])|]. intros _ s1 [M1 U1]. rewrite app_nil_r in M1. eapply performs_bind; [apply calmly, observes_rx_fail|]. intros e' s2 Hs2. cbv beta in Hs2. trace_step. cbn [snd].
    rewrite app_nil_r. pose proof (calm_uncreated _ Hs2). assert (Hu : Forall (fun e => created e = false) ((Socket, p) :: s ++ s1 ++ s2)) by (constructor; [reflexivity|]; rewrite !Forall_app; now repeat split).
    split; [|split; [exact Hu|reflexivity]]. apply Hcl; [|exact Hu]. change ((Socket, p) :: s ++ s1 ++ s2) with (((Socket, p) :: s) ++ s1 ++ s2).
    eapply moves_app; [exact M'|]. eapply moves_app; [exact M1|now apply calm_moves].
  - trace_step. cbn [snd]. rewrite app_nil_r. destruct R as [El Hn]. assert (Hu : Forall (fun e => created e = false) ((Socket, p) :: s)) by now constructor.
    split; [|now split]. split; [|split; [now apply no_threads_guarded|right; cbn [rx_fds rx_state]; rewrite El; now split]].
    unfold rx_held. cbn [rx_fds]. rewrite El, open_fds_all by exact Hn. exact M'.
Qed.

Lemma performs_create_detached : performs create_detached (fun t s => (t <> 0 -> Forall (fun e => created e = false) s) /\ Forall not_close s /\ forall h, moves gained closed h s h).
Proof.
  unfold create_detached. trace_step.
  eapply (performs_bind _ _ (fun t s => (t <> 0 -> Forall (fun e => created e = false) s) /\ Forall not_close s /\ forall h, moves gained closed h s h)).
  - trace_step; [trace_step; trace_step|trace_step; split; [constructor|split; [constructor|intros h; now apply moves_nil]]].
    split; [intros H; repeat constructor; cbn; lia|]. split; [now repeat constructor|]. intros h. now apply moves_quiet.
  - intros t s (H1 & H2 & H3). trace_step. trace_step. split; [intros H; constructor; [reflexivity|]; apply Forall_app; split; [now apply H1|now repeat constructor]|].
    split; [constructor; [exact I|]; apply Forall_app; split; [exact H2|now repeat constructor]|]. intros h. eapply (moves_cons _ _ _ h); [reflexivity|]. cbn. eapply moves_app; [apply H3|]. now apply moves_quiet.
Qed.
Ltac calm_trace := repeat first [assumption | apply List.Forall_nil | apply List.Forall_cons; [reflexivity|] | apply Forall_app; split].
(** The operation ends in an error after calm requests. *)
Ltac rx_refused L := trace_step; cbn [snd]; rewrite ?app_nil_r; first [exact L | eapply rx_life_calm; [exact L|calm_trace|reflexivity|now left]].
Lemma performs_rx_prepare done o t : rx_life done o t -> performs (b41_agps_receiver_prepare o) (fun r s => rx_life done r.2 (t ++ s)).
Proof.
  intros L. unfold b41_agps_receiver_prepare. trace_step; [rx_refused L|]. apply orb_false_elim in G as [_ Gb]. apply negb_false_iff, bool_decide_eq_true in Gb.
  eapply performs_bind; [apply calmly, observes_controller|]. intros c s1 H1. cbv beta in H1. trace_step; [rx_refused L|].
  eapply performs_bind; [apply calmly, observes_rx_error|]. intros e s2 H2. cbv beta in H2. trace_step; [rx_refused L|]. trace_step.
  trace_step; [eapply performs_bind; [apply calmly, observes_rx_fail|]; intros e' s3 H3; cbv beta in H3; rx_refused L|]. cbn zeta.
  eapply performs_bind; [apply calmly, observes_same_fds|]. intros st s3 H3. cbv beta in H3.
  trace_step; [eapply performs_bind; [apply calmly, observes_rx_fail|]; intros e' s4 H4; cbv beta in H4; rx_refused L|]. trace_step.
  trace_step; [eapply performs_bind; [apply calmly, observes_rx_fail|]; intros e' s4 H4; cbv beta in H4; rx_refused L|].
  eapply performs_bind; [apply performs_create_detached|]. intros d s4 (D1 & D2 & D3).
  assert (Hfin : forall s5 o', Forall (fun e => calm e = true) s5 -> rx_fds o' = rx_fds o ->
    (rx_state o' = B41_AGPS_RX_PREPARED \/ rx_state o' = B41_AGPS_RX_BOUND /\ d <> 0) -> rx_life done o' (t ++ s1 ++ s2 ++ (Associate, p) :: s3 ++ (Attr_init, p0) :: s4 ++ s5)).
  { intros s5 o' H5 Ef Hst. set (s := s1 ++ s2 ++ (Associate, p) :: s3 ++ [(Attr_init, p0)]).
    assert (Hs : Forall (fun e => calm e = true) s) by (unfold s; calm_trace).
    replace (s1 ++ s2 ++ (Associate, p) :: s3 ++ (Attr_init, p0) :: s4 ++ s5) with (s ++ s4 ++ s5) by (unfold s; now rewrite <- !app_assoc; cbn; rewrite <- !app_assoc). rewrite app_assoc.
    destruct (rx_life_calm done o t s o L Hs eq_refl (or_introl eq_refl)) as (M & C & [[X _]|(Ln & Ld & Lb)]); [congruence|]. rewrite Gb in Lb.
    unfold rx_life, rx_held, rx_fd in *. rewrite Ef. split; [eapply moves_app; [exact M|]; eapply moves_app; [apply D3|now apply calm_moves]|].
    split; [apply close_guarded_app; [exact C|left; apply Forall_app; split; [exact D2|now apply calm_not_close]]|]. right. split; [exact Ln|]. split; [exact Ld|].
    destruct Hst as [-> |[-> Hd]]; [exact I|]. rewrite !Forall_app in *. repeat split; try apply Lb; [now apply D1|now apply calm_uncreated]. }
  trace_step.
  - eapply performs_bind; [apply calmly, observes_rx_fail|]. intros e' s5 H5. cbv beta in H5. trace_step. cbn [snd]. rewrite app_nil_r. apply Hfin; [exact H5|reflexivity|right; split; [exact Gb|lia]].
  - trace_step. cbn [snd]. apply Hfin; [constructor|reflexivity|now left].
Qed.
Lemma performs_rx_activate done o t : rx_life done o t -> performs (b41_agps_receiver_activate o) (fun r s => rx_life done r.2 (t ++ s)).
Proof.
  intros L. unfold b41_agps_receiver_activate. trace_step; [rx_refused L|]. apply negb_false_iff, bool_decide_eq_true in G.
  eapply performs_bind; [apply calmly, observes_controller|]. intros c s1 H1. cbv beta in H1. trace_step; [rx_refused L|].
  eapply performs_bind; [apply calmly, observes_observe|]. intros e s2 H2. cbv beta in H2.
  eapply (performs_bind _ _ (fun _ s => Forall (fun e => calm e = true) s)); [trace_step; [apply calmly, observes_live_primary|apply only_ret]|]. intros e3 s3 H3. cbv beta in H3.
  eapply (performs_bind _ _ (fun _ s => Forall (fun e => calm e = true) s)); [trace_step; [apply calmly, observes_same_fd|apply only_ret]|]. intros e4 s4 H4. cbv beta in H4.
  trace_step; [eapply performs_bind; [apply calmly, observes_rx_fail|]; intros e5 s5 H5; cbv beta in H5; rx_refused L|].
  eapply performs_bind; [apply calmly_signal|]. intros w s5 H5. cbv beta in H5.
  trace_step; [eapply performs_bind; [apply calmly, observes_rx_fail|]; intros e6 s6 H6; cbv beta in H6; rx_refused L|].
  trace_step. cbn [snd]. rewrite app_nil_r. eapply rx_life_calm; [exact L|calm_trace|reflexivity|right; rewrite G; split; [discriminate|now left]].
Qed.
Lemma performs_rx_quiesce done fuel o d t : rx_life done o t -> performs (b41_agps_receiver_quiesce fuel o d) (fun r s =>
  rx_life done (match r with Some (_, o') => o' | None => o end) (t ++ s)).
Proof.
  intros L. unfold b41_agps_receiver_quiesce. trace_step; [rx_refused L|].
  eapply performs_bind; [apply calmly, observes_controller|]. intros c s1 H1. cbv beta in H1. trace_step; [rx_refused L|]. trace_step; [rx_refused L|]. trace_step; [rx_refused L|].
  assert (Hnc : rx_state o <> B41_AGPS_RX_CLOSED) by (intros E; rewrite E in G2; discriminate).
  assert (Hd : rx_fd o 2 = done) by (destruct L as (_ & _ & [[X _]|(_ & X & _)]); [contradiction|exact X]).
  trace_step. eapply performs_bind; [apply calmly, observes_same_fd|]. intros e2 s2 H2. cbv beta in H2.
  eapply (performs_bind _ _ (fun _ s => Forall (fun e => calm e = true) s)); [only_steps|]. intros e3 s3 H3. cbv beta in H3.
  eapply (performs_bind _ _ (fun _ s => Forall (fun e => calm e = true) s)); [trace_step; [apply calmly, observes_same_fd|apply only_ret]|]. intros e4 s4 H4. cbv beta in H4.
  eapply (performs_bind _ _ (fun w s => Forall (fun e => calm e = true) s /\ (w = Some 0 -> exists ms a, In (Poll done ms, a) s /\ poll_in (number a) = true))).
  { trace_step; [rewrite Hd; apply performs_rx_await|]. trace_step. split; [constructor|]. intros [= ->]. discriminate. }
  intros w s5 [H5 Hw].
  assert (Hall : forall s6, Forall (fun e => calm e = true) s6 -> Forall (fun e => calm e = true) (s1 ++ (Store_stop The_receiver, p) :: s2 ++ s3 ++ s4 ++ s5 ++ s6)).
  { intros s6 H6. calm_trace. }
  destruct w as [w|].
  2:{ trace_step. eapply rx_life_calm; [exact L|apply Hall; constructor|reflexivity|now left]. }
  trace_step.
  - eapply performs_bind; [apply calmly, observes_rx_error|]. intros e6 s6 H6. cbv beta in H6. trace_step. rewrite app_nil_r. specialize (Hall s6 H6).
    eapply rx_life_calm; [exact L|exact Hall|reflexivity|]. right. split; [exact Hnc|]. right. right. split; [reflexivity|].
    destruct Hw as (ms & a & Hi & Ha); [f_equal; lia|]. eapply (completed_ack done t _ ms a); [now apply calm_uncreated| |exact Ha].
    apply in_or_app. right. right. do 3 (apply in_or_app; right). apply in_or_app. now left.
  - eapply performs_bind; [apply calmly, observes_rx_fail|]. intros e6 s6 H6. cbv beta in H6. trace_step. rewrite app_nil_r.
    eapply rx_life_calm; [exact L|now apply Hall|reflexivity|]. right. split; [exact Hnc|]. right. now left.
Qed.
Lemma performs_rx_close_fds l h : performs (rx_close_fds l) (fun r s => moves gained closed (l.*1 ++ h) s h /\ Forall (fun e => created e = false) s /\ open_fds r.*1 = []).
Proof.
  induction l as [|[fd id] l IH]; cbn [rx_close_fds]; [trace_step; split; [now apply moves_nil|split; [constructor|reflexivity]]|]. trace_step.
  eapply (performs_bind _ _ (fun _ s => Forall (fun e => calm e = true) s)); [trace_step; [apply calmly, observes_latch|apply only_ret]|]. intros u s0 H0. cbv beta in H0.
  eapply performs_bind; [apply IH|]. intros r s (M & U & E). trace_step. rewrite app_nil_r. split; [|split].
  - eapply (moves_cons _ _ _ (l.*1 ++ h)); [reflexivity|]. cbn. eapply moves_app; [now apply calm_moves|exact M].
  - constructor; [reflexivity|]. apply Forall_app. split; [now apply calm_uncreated|exact U].
  - cbn. exact E.
Qed.
Lemma performs_rx_close done o t : rx_life done o t -> performs (b41_agps_receiver_close o) (fun r s => rx_life done r.2 (t ++ s)).
Proof.
  intros L. unfold b41_agps_receiver_close. trace_step; [rx_refused L|].
  eapply performs_bind; [apply calmly, observes_controller|]. intros c s1 H1. cbv beta in H1. trace_step; [rx_refused L|]. trace_step; [rx_refused L|].
  assert (Hst : rx_state o = B41_AGPS_RX_BOUND \/ rx_state o = B41_AGPS_RX_QUIESCED) by (destruct (rx_state o); try discriminate; auto).
  eapply performs_bind; [apply calmly, observes_same_fds|]. intros e2 s2 H2. cbv beta in H2. trace_step.
  { eapply performs_bind; [apply calmly, observes_rx_fail|]. intros e3 s3 H3. cbv beta in H3. trace_step. cbn [snd]. rewrite app_nil_r.
    eapply rx_life_calm; [exact L|calm_trace|reflexivity|]. right. split; [destruct Hst as [-> | ->]; discriminate|]. right. now left. }
  destruct (rx_life_calm done o t (s1 ++ s2) o L) as (M & C & [[X _]|(Ln & Ld & Lb)]); [calm_trace|reflexivity|now left|destruct Hst; congruence|].
  assert (Hc : completed done (t ++ s1 ++ s2)) by (destruct Hst as [E|E]; rewrite E in Lb; [now apply no_thread_completed|exact Lb]).
  eapply performs_bind; [apply (performs_rx_close_fds _ [])|]. intros r s3 (M3 & U3 & E3). rewrite app_nil_r in M3.
  eapply performs_bind; [apply calmly, observes_rx_error|]. intros e4 s4 H4. cbv beta in H4. trace_step. cbn [snd]. rewrite app_nil_r.
  replace (t ++ s1 ++ s2 ++ s3 ++ s4) with ((t ++ s1 ++ s2) ++ s3 ++ s4) by now rewrite <- !app_assoc. unfold rx_life, rx_held. cbn [rx_fds rx_state]. rewrite E3. split; [|split].
  - eapply moves_app; [exact M|]. unfold rx_held. rewrite open_fds_all by exact Ln. eapply moves_app; [exact M3|now apply calm_moves].
  - apply close_guarded_app; [exact C|]. right. split; [exact Hc|]. apply Forall_app. split; [exact U3|now apply calm_uncreated].
  - now left.
Qed.

Inductive rx_op := R_observe | R_prepare | R_activate | R_quiesce (fuel : nat) (deadline : timespec) | R_close.
Definition rx_do (op : rx_op) (o : b41_agps_receiver) : os b41_agps_receiver :=
  match op with
  | R_observe => let! _ := b41_agps_receiver_observe o in ret o
  | R_prepare => let! r := b41_agps_receiver_prepare o in ret r.2
  | R_activate => let! r := b41_agps_receiver_activate o in ret r.2
  | R_quiesce fuel d => let! r := b41_agps_receiver_quiesce fuel o d in ret (match r with Some (_, o') => o' | None => o end)
  | R_close => let! r := b41_agps_receiver_close o in ret r.2
  end.
Fixpoint rx_run (ops : list rx_op) (o : b41_agps_receiver) : os b41_agps_receiver :=
  match ops with [] => ret o | op :: ops => let! o := rx_do op o in rx_run ops o end.
Lemma performs_rx_do done op o t : rx_life done o t -> performs (rx_do op o) (fun o' s => rx_life done o' (t ++ s)).
Proof.
  intros L. destruct op; cbn [rx_do].
  - eapply performs_bind; [apply calmly, observes_observe|]. intros e s Hs. cbv beta in Hs. rx_refused L.
  - eapply performs_bind; [now apply (performs_rx_prepare done o t)|]. intros r s Hs. trace_step. now rewrite app_nil_r.
  - eapply performs_bind; [now apply (performs_rx_activate done o t)|]. intros r s Hs. trace_step. now rewrite app_nil_r.
  - eapply performs_bind; [now apply (performs_rx_quiesce done fuel o deadline t)|]. intros r s Hs. trace_step. now rewrite app_nil_r.
  - eapply performs_bind; [now apply (performs_rx_close done o t)|]. intros r s Hs. trace_step. now rewrite app_nil_r.
Qed.
Lemma performs_rx_run done ops : forall o t, rx_life done o t -> performs (rx_run ops o) (fun o' s => rx_life done o' (t ++ s)).
Proof.
  induction ops as [|op ops IH]; intros o t L; cbn [rx_run]; [trace_step; now rewrite app_nil_r|].
  eapply performs_bind; [now apply (performs_rx_do done op o t)|]. intros o1 s Hs. eapply performs_impl; [now apply (IH o1 (t ++ s))|]. intros o2 s' H. now rewrite app_assoc.
Qed.

(** C9. The descriptors of the assistance receiver, from its opening over every
    history of checks, preparations, activations, stops and closings, whatever
    fails: what is open is what the receiver still names, a descriptor is closed
    only while it is held, so never twice, and a closed receiver, also one whose
    opening failed, holds none. Nothing is ever closed while a thread that was
    created has not published its completion. *)
Theorem receiver_descriptors o peer uid ops : rx_entered o = false -> 0 < peer ->
  performs (let! r := b41_agps_receiver_open o peer uid in let! o' := rx_run ops r.2 in ret (rx_fd r.2 2, o')) (fun r s =>
    moves gained closed [] s (rx_held r.2) /\ close_guarded r.1 s /\ (rx_state r.2 = B41_AGPS_RX_CLOSED -> rx_held r.2 = [])).
Proof.
  intros Ho Hp. eapply performs_bind; [now apply performs_rx_open|]. intros r s (L & _ & _). eapply performs_bind; [now apply (performs_rx_run (rx_fd r.2 2) ops r.2 s)|]. intros o' s' L'. trace_step.
  cbn [fst snd]. rewrite app_nil_r. destruct L' as (M & C & L'). split; [exact M|]. split; [exact C|]. intros E. destruct L' as [[_ L']|(_ & _ & L')]; [exact L'|]. now rewrite E in L'.
Qed.
(** A kernel that grants descriptors 5, 6, 7, 8 and a completion at the first poll. *)
Definition granting_kernel : environment call answer := fun t q =>
  let a v n := Answer v (FileStat 0 0 0 0) [] n [] in
  match q with Socket => a 5 0 | Eventfd => a (5 + Z.of_nat (length (filter (fun e => gained e <> []) t))) 0 | Same_thread => a 1 0 | Poll _ _ => a 1 1 | _ => a 0 0 end.
Definition fresh_receiver : b41_agps_receiver := Receiver false B41_AGPS_RX_FRESH no_fds 0 0 (Association 0 0 0 0).
Definition full_history : os (Z * b41_agps_receiver) :=
  let! r := b41_agps_receiver_open fresh_receiver 77 1000 in let! o' := rx_run [R_prepare; R_close; R_quiesce 3 (Time 9 0); R_close] r.2 in ret (rx_fd r.2 2, o').
Lemma receiver_descriptors_witness : rx_entered fresh_receiver = false /\ 0 < 77 /\
  (exists r s, full_history granting_kernel [] = (r, s) /\ closes s = [5; 6; 7; 8] /\ rx_state r.2 = B41_AGPS_RX_CLOSED /\
    moves gained closed [] s (rx_held r.2) /\ close_guarded r.1 s /\ rx_held r.2 = []).
Proof.
  split; [reflexivity|]. split; [reflexivity|].
  destruct (receiver_descriptors fresh_receiver 77 1000 [R_prepare; R_close; R_quiesce 3 (Time 9 0); R_close] eq_refl eq_refl granting_kernel []) as (r & s & E & M & C & H).
  exists r, s. split; [exact E|]. assert (V : closes s = [5; 6; 7; 8] /\ rx_state r.2 = B41_AGPS_RX_CLOSED).
  { change ((closes (r, s).2) = [5; 6; 7; 8] /\ rx_state (r, s).1.2 = B41_AGPS_RX_CLOSED). change (r, s) with (r, [] ++ s). rewrite <- E. vm_compute. now split. }
  destruct V as [V1 V2]. repeat split; auto.
Defined.
