(* ===== verification/NativeHost.v ===== *)
(** * The session of the native engine

    [b41_native_receiver_host.c]: the notice channel between the engine's
    callbacks and its controller, the proof that the engine's threads were
    joined, the parent's wait for its engine process, and the controller that
    registers, runs, watches and stops the engine. The functions that call into
    the mapped library are those of the ARM64 Bionic build; other builds
    refuse them. An object argument is the object itself, as in [AgpsHost]. *)

From stdpp Require Import strings.
From S2P Require Import Prelude Trace HostQueue HostText AgpsHost HostWorker AgpsReceiver.
Open Scope Z_scope.
Open Scope io_scope.

(** ** Notices *)

Definition B41_NATIVE_REPORT : Z := 1.
Definition B41_NATIVE_PROHIBITED : Z := 2.
Definition B41_NATIVE_RESTART : Z := 4.
Definition B41_NATIVE_UNSUPPORTED : Z := 8.
(** The pending word and the first error are shared: requests of the trace. *)
Record b41_native_control := Control { control_fd : Z; control_init : Z }.
Definition control_fail (status : Z) : os Z := let! a := ask (Latch The_control status) in ret (if value a =? 0 then status else value a).
Definition control_error : os Z := let! a := ask (Load_error The_control) in ret (value a).

Definition b41_native_control_init (c : b41_native_control) : os (Z * b41_native_control) :=
  if negb (control_init c =? 0) then ret (- EALREADY, c) else
  let! e := ask Eventfd in
  if failed_call e then ret (value e, c) else ret (0, Control (value e) 1).
(** [bound]: 0 when it is null, 1 when it is this control. *)
Definition native_notice (event : Z) : option Z :=
  if event =? 0 then Some B41_NATIVE_REPORT else if event =? 7 then Some B41_NATIVE_PROHIBITED else
  if event =? 13 then Some B41_NATIVE_RESTART else if event =? 3 then Some B41_NATIVE_UNSUPPORTED else None.
(** [c] is the control that is bound. *)
Definition native_notify (c : b41_native_control) (event : Z) : os Z :=
  let! b := ask Load_bound in
  if value b =? 0 then ret (- ENODEV) else
  match native_notice event with
  | None => control_error
  | Some notice =>
    let! status := if event =? 3 then control_fail (- EOPNOTSUPP) else ret 0 in
    let! _ := ask (Or_pending notice) in
    let! w := ask (Write (control_fd c) event_one) in
    if failed_call w then control_fail (value w) else
    if negb (value w =? 8) then control_fail (- EIO) else
    if negb (status =? 0) then ret status else control_error
  end.
(** The function that a slot of the callback table points to. *)
Inductive pointer := Null | Native_notify | Another.
#[export] Instance pointer_eq_dec : EqDecision pointer.
Proof. solve_decision. Defined.
Definition b41_native_control_bind (c : b41_native_control) (notify : pointer) : os (Z * pointer) :=
  if negb (control_init c =? 1) then ret (- EINVAL, notify) else
  let! b := ask Bind_control in
  if value b =? 0 then ret (- EALREADY, notify) else ret (0, Native_notify).
Definition b41_native_control_discard_unbound (c : b41_native_control) : os (Z * b41_native_control) :=
  if negb (control_init c =? 1) then ret (- EINVAL, c) else
  let! b := ask Load_bound in
  if value b =? 1 then ret (- EBUSY, c) else
  let! k := ask (Close (control_fd c)) in
  ret (if failed_call k then value k else 0, Control (-1) 2).
(** The status, and the notices when they were taken. *)
Definition b41_native_control_take (c : b41_native_control) : os (Z * option Z) :=
  if negb (control_init c =? 1) then ret (- EINVAL, None) else
  let! r := ask (Read (control_fd c)) in
  if failed_call r && negb (value r =? - EAGAIN) then let! e := control_fail (value r) in ret (e, None) else
  if negb (failed_call r) && negb (value r =? 8) then let! e := control_fail (- EIO) in ret (e, None) else
  let! t := ask Take_pending in
  let! e := control_error in
  ret (e, Some (value t)).

(** ** Joined threads *)

Definition B41_NATIVE_THREADS : nat := 17.
Record b41_native_stop_snapshot := Snapshot { snap_base : Z; offload : Z; threads : list b41_native_thread_record }.
Definition no_record : b41_native_thread_record := Thread_record 0 0 0 0 0.
Definition thread_at (s : b41_native_stop_snapshot) (i : nat) : b41_native_thread_record := nth i (threads s) no_record.
(** One record of the table before and after the stop: an error, or whether it was joined. *)
Definition joined_record (base i : Z) (a b : b41_native_thread_record) : Z + bool :=
  if marker a <? -1 then inl (- ESTALE) else
  if negb (index a =? i) || negb (index b =? i) || negb (stop_at a =? base + 0x529f18) || negb (stop_at b =? stop_at a)
     || negb (wake_at a =? base + 0x529418) || negb (wake_at b =? wake_at a) || negb (handle b =? handle a) then inl (- ESTALE) else
  if marker a =? -1 then (if negb (handle a =? UINT64_MAX) || negb (marker b =? -1) then inl (- ESTALE) else inr false) else
  if (handle a =? UINT64_MAX) || negb (marker b =? -1) then inl (- EBUSY) else inr true.
Fixpoint join_loop (n : nat) (i : nat) (before after : b41_native_stop_snapshot) (mask : Z) : Z + Z :=
  match n with
  | O => inr mask
  | S n =>
    match joined_record (snap_base before) (Z.of_nat i) (thread_at before i) (thread_at after i) with
    | inl e => inl e
    | inr j => join_loop n (S i) before after (if j then Z.lor mask (Z.shiftl 1 (Z.of_nat i)) else mask)
    end
  end.
Definition b41_native_join_ack (before after : b41_native_stop_snapshot) : Z + Z :=
  if (snap_base before =? 0) || negb (snap_base before =? snap_base after) || (UINTPTR_MAX - B41_LIBRARY_IMAGE_END <? snap_base before) then inl (- EINVAL) else
  if negb (offload before =? 0) || negb (offload after =? 0) then inl (- EOPNOTSUPP) else
  if (marker (thread_at before 0) =? -1) || (handle (thread_at before 0) =? UINT64_MAX) then inl (- ENODATA) else
  join_loop B41_NATIVE_THREADS 0 before after 0.

Definition records_of (bytes : list Z) : list b41_native_thread_record :=
  (fun i => record_of (slice bytes (32 * Z.of_nat i) 32)) <$> seq 0 B41_NATIVE_THREADS.
Definition snapshot (image : b41_library_association) : os (Z + b41_native_stop_snapshot) :=
  if (base image =? 0) || negb (extent image =? B41_LIBRARY_IMAGE_END) || (UINTPTR_MAX - extent image <? base image) then ret (inl (- EINVAL)) else
  let! flag := read_image (base image + 0x6e6d00) 8 in
  if negb (le_of flag =? base image + 0x6fa3d8) then ret (inl (- ESTALE)) else
  let! o := read_image (le_of flag) 4 in
  let! t := read_image (base image + 0x6edef0) (32 * 17) in
  ret (inr (Snapshot (base image) (le_of o) (records_of t))).

Inductive b41_native_stop_state := B41_NATIVE_STOP_EMPTY | B41_NATIVE_STOP_CAPTURED | B41_NATIVE_STOP_ENTERED | B41_NATIVE_STOP_ACKED | B41_NATIVE_STOP_QUARANTINED.
#[export] Instance b41_native_stop_state_eq_dec : EqDecision b41_native_stop_state.
Proof. solve_decision. Defined.
Record b41_native_stop_owner := Stop_owner { stop_state : b41_native_stop_state; stop_before : b41_native_stop_snapshot; stop_image : b41_library_association; stop_error : Z }.

(** The records of a captured table; the first that is wrong. *)
Definition captured_record (base i : Z) (r : b41_native_thread_record) : Z :=
  if marker r <? -1 then - ESTALE else
  if negb (index r =? i) || negb (stop_at r =? base + 0x529f18) || negb (wake_at r =? base + 0x529418) then - ESTALE else
  if negb (eqb (marker r =? -1) (handle r =? UINT64_MAX)) then - ESTALE else 0.
Fixpoint captured_loop (n i : nat) (s : b41_native_stop_snapshot) : Z :=
  match n with
  | O => 0
  | S n => let e := captured_record (snap_base s) (Z.of_nat i) (thread_at s i) in if negb (e =? 0) then e else captured_loop n (S i) s
  end.
Definition b41_native_stop_capture (o : b41_native_stop_owner) (image : b41_library_association) : os (Z * b41_native_stop_owner) :=
  if negb (bool_decide (stop_state o = B41_NATIVE_STOP_EMPTY)) then ret (- EALREADY, o) else
  let! s := snapshot image in
  match s with
  | inl e => ret (e, o)
  | inr s =>
    if negb (offload s =? 0) then ret (- EOPNOTSUPP, o) else
    if (marker (thread_at s 0) =? -1) || (handle (thread_at s 0) =? UINT64_MAX) then ret (- ENODATA, o) else
    let e := captured_loop B41_NATIVE_THREADS 0 s in
    if negb (e =? 0) then ret (e, o) else ret (0, Stop_owner B41_NATIVE_STOP_CAPTURED s image 0)
  end.
(** The status, the owner and the mask of joined threads, which a failure leaves. *)
Definition b41_native_stop_call (o : b41_native_stop_owner) (joined : Z) : os (Z * b41_native_stop_owner * Z) :=
  if negb (bool_decide (stop_state o = B41_NATIVE_STOP_CAPTURED)) then ret (- EALREADY, o, joined) else
  let! c := ask Same_thread in
  if value c =? 0 then ret (- EPERM, o, joined) else
  let! _ := ask Native_stop in
  let! s := snapshot (stop_image o) in
  let ack := match s with inl e => inl e | inr after => b41_native_join_ack (stop_before o) after end in
  ret (match ack with
       | inl e => (e, Stop_owner (if e =? 0 then B41_NATIVE_STOP_ACKED else B41_NATIVE_STOP_QUARANTINED) (stop_before o) (stop_image o) e, joined)
       | inr mask => (0, Stop_owner B41_NATIVE_STOP_ACKED (stop_before o) (stop_image o) 0, mask)
       end).

(** ** The engine process *)

Definition compare_time (a b : timespec) : Z :=
  if negb (tv_sec a =? tv_sec b) then (if tv_sec a <? tv_sec b then -1 else 1) else
  if tv_nsec a <? tv_nsec b then -1 else if tv_nsec a =? tv_nsec b then 0 else 1.
(** At most 25 ms, and not past the limit. *)
Definition wait_ms (now limit : timespec) : Z :=
  if tv_sec limit - tv_sec now <=? 1 then
    let ns := (tv_sec limit - tv_sec now) * 1000000000 + tv_nsec limit - tv_nsec now in
    Z.min 25 ((ns + 999999) / 1000000)
  else 25.
Definition WIFEXITED (status : Z) : bool := Z.land status 0x7f =? 0.
Definition WEXITSTATUS (status : Z) : Z := Z.land (Z.shiftr status 8) 0xff.
Definition WIFSIGNALED (status : Z) : bool := (0 <? Z.land status 0x7f) && (Z.land status 0x7f <? 0x7f).
Record b41_native_child_wait_owner := Child_owner { child_of : Z; escalated : bool; child_error : Z; reaped : bool }.
Definition child_first (o : b41_native_child_wait_owner) (e : Z) : b41_native_child_wait_owner :=
  Child_owner (child_of o) (escalated o) (if child_error o =? 0 then e else child_error o) (reaped o).

(** The status word is [wait_status] of the caller, set only when the child was reaped. *)
Definition reap (o : b41_native_child_wait_owner) (deadline : timespec) (status : Z) : os (Z * b41_native_child_wait_owner) :=
  let o := Child_owner (child_of o) (escalated o) (child_error o) true in
  if negb (child_error o =? 0) then ret (child_error o, o) else
  let! c := ask Clock in
  let e := if failed_call c then value c else if 0 <=? compare_time (clock_of c) deadline then - ETIMEDOUT else
           if negb (WIFEXITED status) || negb (WEXITSTATUS status =? 0) then - ECHILD else 0 in
  ret (e, child_first o e).
Fixpoint wait_loop (fuel : nat) (o : b41_native_child_wait_owner) (deadline cleanup : timespec) : os (option (Z * b41_native_child_wait_owner * option Z)) :=
  match fuel with
  | O => ret None
  | S fuel =>
    let fail_with (e : Z) : os (option (Z * b41_native_child_wait_owner * option Z)) := ret (Some (child_error (child_first o e), child_first o e, None)) in
    let! w := ask (Waitpid (child_of o)) in
    if (value w =? child_of o) && (WIFEXITED (number w) || WIFSIGNALED (number w)) then
      let! r := reap o deadline (number w) in ret (Some (r, Some (number w)))
    else if failed_call w then (if value w =? - EINTR then wait_loop fuel o deadline cleanup else fail_with (value w)) else
    let! c := ask Clock in
    if failed_call c then fail_with (value c) else
    let limit := if escalated o then cleanup else deadline in
    if 0 <=? compare_time (clock_of c) limit then
      if escalated o then ret (Some (- EINPROGRESS, o, None)) else
      let o := child_first o (- ETIMEDOUT) in
      let! k := ask (Kill (child_of o)) in
      if failed_call k && negb (value k =? - ESRCH) then ret (Some (child_error o, o, None)) else
      wait_loop fuel (Child_owner (child_of o) true (child_error o) (reaped o)) deadline cleanup
    else
      let! s := ask (Sleep (wait_ms (clock_of c) limit)) in
      if failed_call s && negb (value s =? - EINTR) then fail_with (value s) else wait_loop fuel o deadline cleanup
  end.
Definition b41_native_child_wait_owned (fuel : nat) (o : b41_native_child_wait_owner) (child : Z) (deadline cleanup : timespec) : os (option (Z * b41_native_child_wait_owner * option Z)) :=
  if reaped o || (negb (child_of o =? 0) && negb (child_of o =? child)) || (child <=? 0) || negb (valid_time deadline) || negb (valid_time cleanup)
     || (compare_time cleanup deadline <? 0) then ret (Some (- EINVAL, o, None)) else
  wait_loop fuel (Child_owner child (escalated o) (child_error o) (reaped o)) deadline cleanup.
Definition b41_native_child_wait (fuel : nat) (child : Z) (deadline cleanup : timespec) : os (option (Z * option Z)) :=
  let! r := b41_native_child_wait_owned fuel (Child_owner 0 false 0 false) child deadline cleanup in
  ret (match r with Some (st, _, w) => Some (st, w) | None => None end).

(** ** The session *)

Definition b41_native_worker_admission (w : b41_frame_worker) : os Z :=
  if negb (bool_decide (worker_state w = B41_WORKER_RUNNING)) then ret (- ESHUTDOWN) else
  let! f := ask (Load_error The_worker) in
  if negb (value f =? 0) then ret (value f) else
  let! s := ask (Load_stop The_worker) in
  if negb (value s =? 0) then ret (- ESHUTDOWN) else
  if done_fd w <? 0 then ret (- EBADF) else
  let! p := ask (Poll (done_fd w) 0) in
  if failed_call p then ret (value p) else
  if poll_error (number p) then ret (- EIO) else
  if poll_in (number p) then let! f := ask (Load_error The_worker) in ret (if value f =? 0 then - ESHUTDOWN else value f) else ret 0.

(** [slots]: the nine callbacks that registration requires beside the notice. *)
Record b41_engine_arguments := Arguments_ { notify_slot : pointer; slots : list pointer; optional_null : list Z; first_config : list Z; second_config : list Z; missing_contracts : Z }.
Record b41_native_session_result := Session_result {
  registration_entered : bool; run_entered : bool; run_status : Z; notices : Z; joined_threads : Z; native_stop_status : Z; worker_stop_status : Z;
  agps_activation_entered : bool; agps_activation_status : Z; agps_quiesce_entered : bool; agps_quiesce_status : Z }.
Definition no_result : b41_native_session_result := Session_result false false 0 0 0 0 0 false 0 false 0.
Record session := Session_of { host_worker : b41_frame_worker; stop_owner : b41_native_stop_owner; receiver : b41_agps_receiver }.

(** The descriptors that the configuration names are those of the worker. *)
Definition receivers_named (w : b41_frame_worker) (second : list Z) : bool :=
  match receivers w with
  | [(a, _)] => (0 <=? a) && (le32 second 0x10 =? u32 a)
  | [(a, _); (b, _)] => (0 <=? a) && (le32 second 0x10 =? u32 a) && (0 <=? b) && (le32 second 0x14 =? u32 b)
  | _ => false
  end.
Definition use_callback : list Z := chars "UseCallback" ++ [0].
Definition idle_record (base : Z) (i : nat) (r : b41_native_thread_record) : bool :=
  (marker r =? -1) && (handle r =? UINT64_MAX) && (index r =? Z.of_nat i) && (stop_at r =? base + 0x529f18) && (wake_at r =? base + 0x529418).
Definition idle_table (base : Z) (s : b41_native_stop_snapshot) : bool := forallb (fun i => idle_record base i (thread_at s i)) (seq 0 B41_NATIVE_THREADS).
Definition adapter_error : os Z := let! e := ask Adapter_error in ret (value e).
Definition worker_error : os Z := let! e := ask (Load_error The_worker) in ret (value e).
(** The next check, when the one before found nothing. *)
Definition and_then (status : Z) (m : os Z) : os Z := if status =? 0 then m else ret status.

(** Everything that is tested before the engine is touched. *)
Definition session_shape (a : b41_engine_arguments) (c : b41_native_control) (w : b41_frame_worker) : Z :=
  if bool_decide (Null ∈ slots a) then - EINVAL else
  if negb (forallb (fun v => v =? 0) (optional_null a)) then - EOPNOTSUPP else
  if (len (receivers w) =? 0) || (2 <? len (receivers w)) then - EINVAL else
  if (control_fd c <? 0) || (done_fd w <? 0) then - EBADF else
  if negb (receivers_named w (second_config a)) then - ESTALE else
  if negb (bool_decide (slice (second_config a) 0x1cc 12 = use_callback)) then - EOPNOTSUPP else
  if negb (le_of (slice (first_config a) 0x68 4) =? 0) then - EOPNOTSUPP else 0.
Definition mapping_idle (image : b41_library_association) : os Z :=
  let! m := snapshot image in
  ret (match m with inl e => e | inr m => if negb (offload m =? 0) then - EOPNOTSUPP else if idle_table (base image) m then 0 else - EALREADY end).
Definition before_deadline (deadline : timespec) : os Z :=
  let! n := ask Clock in ret (if failed_call n then value n else if 0 <=? compare_time (clock_of n) deadline then - ETIMEDOUT else 0).
Definition session_admission (image : b41_library_association) (a : b41_engine_arguments) (c : b41_native_control) (adapter : bool) (x : session) (run_deadline worker_deadline : timespec) : os Z :=
  let w := host_worker x in
  if negb (valid_time run_deadline) || negb (valid_time worker_deadline) || (compare_time worker_deadline run_deadline <? 0) then ret (- EINVAL) else
  if negb (missing_contracts a =? 0) then ret (- EOPNOTSUPP) else
  if negb (bool_decide (rx_state (receiver x) = B41_AGPS_RX_PREPARED)) || negb (bool_decide (rx_image (receiver x) = image)) then ret (- ESTALE) else
  let! s := b41_agps_receiver_observe (receiver x) in
  if negb (s =? 0) then ret s else
  let! b := ask Load_bound in
  if negb (value b =? 1) || negb (control_init c =? 1) || negb (bool_decide (notify_slot a = Native_notify)) || negb (bool_decide (worker_state w = B41_WORKER_RUNNING))
     || negb (exposed w) || negb adapter || negb (bool_decide (stop_state (stop_owner x) = B41_NATIVE_STOP_EMPTY)) then ret (- EPERM) else
  if negb (session_shape a c w =? 0) then ret (session_shape a c w) else
  let! s := mapping_idle image in
  let! s := and_then s adapter_error in
  let! s := and_then s control_error in
  let! s := and_then s (b41_native_worker_admission w) in
  and_then s (before_deadline run_deadline).

(** The watch: the reason it ended and the notices seen. [None]: fuel spent. *)
Fixpoint watch (fuel : nat) (c : b41_native_control) (x : session) (deadline : timespec) (seen : Z) : os (option (Z * Z)) :=
  match fuel with
  | O => ret None
  | S fuel =>
    let! r := adapter_error in
    let! r := and_then r worker_error in
    let! r := and_then r (b41_agps_receiver_observe (receiver x)) in
    let! t := (if r =? 0 then b41_native_control_take c else ret (r, None)) in
    let notices := match t.2 with Some n => n | None => 0 end in
    let seen := Z.lor seen notices in
    if negb (t.1 =? 0) then ret (Some (t.1, seen)) else
    if negb (Z.land notices B41_NATIVE_PROHIBITED =? 0) then ret (Some (- EPERM, seen)) else
    if negb (Z.land notices B41_NATIVE_RESTART =? 0) then ret (Some (- ECONNRESET, seen)) else
    let! n := ask Clock in
    if failed_call n then ret (Some (value n, seen)) else
    if 0 <=? compare_time (clock_of n) deadline then ret (Some (0, seen)) else
    let! p := ask (Poll_many [control_fd c; done_fd (host_worker x); rx_fd (receiver x) 2] (wait_ms (clock_of n) deadline)) in
    if failed_call p then ret (Some (value p, seen)) else
    if poll_error (byte_at (stored p) 0) then ret (Some (- EIO, seen)) else
    if negb (byte_at (stored p) 1 =? 0) then let! e := worker_error in ret (Some (if e =? 0 then - ESHUTDOWN else e, seen)) else
    if negb (byte_at (stored p) 2 =? 0) then let! e := b41_agps_receiver_observe (receiver x) in ret (Some (if e =? 0 then - ESHUTDOWN else e, seen)) else
    watch fuel c x deadline seen
  end.
Definition or_reason (reason status : Z) : Z := if reason =? 0 then status else reason.
(** Registration failed or the engine did not initialise: no stop of the engine. *)
Definition quiesce_only (fuel : nat) (x : session) (deadline : timespec) (reason : Z) (r : b41_native_session_result) : os (option (Z * session * b41_native_session_result)) :=
  let! q := b41_agps_receiver_quiesce fuel (receiver x) deadline in
  ret (match q with
       | None => None
       | Some (st, rx) => Some (or_reason reason st, Session_of (host_worker x) (stop_owner x) rx,
           Session_result true (run_entered r) (run_status r) 0 0 (- ECANCELED) (- EBUSY) false 0 true st)
       end).
Definition stop_session (fuel : nat) (image : b41_library_association) (x : session) (deadline : timespec) (reason seen activation : Z) : os (option (Z * session * b41_native_session_result)) :=
  let result joined native worker quiesce := Session_result true true 18 seen joined native worker true activation true quiesce in
  let! q := b41_agps_receiver_quiesce fuel (receiver x) deadline in
  match q with
  | None => ret None
  | Some (st, rx) =>
    let reason := or_reason reason st in
    if negb (bool_decide (rx_state rx = B41_AGPS_RX_QUIESCED)) then
      ret (Some (or_reason reason (- EBUSY), Session_of (host_worker x) (stop_owner x) rx, result 0 (- ECANCELED) (- EBUSY) st))
    else
    let! k := b41_native_stop_capture (stop_owner x) image in
    let! n := (if k.1 =? 0 then b41_native_stop_call k.2 0 else ret (k, 0)) in
    let! w := b41_frame_worker_quiesce fuel (host_worker x) deadline in
    ret (match w with
         | None => None
         | Some (ws, w) => Some (or_reason reason (or_reason n.1.1 ws), Session_of w n.1.2 rx, result n.2 n.1.1 ws st)
         end)
  end.
Definition session_run (fuel : nat) (image : b41_library_association) (c : b41_native_control) (x : session) (run_deadline worker_deadline : timespec) : os (option (Z * session * b41_native_session_result)) :=
  let failed_before := quiesce_only fuel x worker_deadline in
  let! g := ask Register in
  if negb (value g =? 0) then failed_before (- EPROTO) no_result else
  let! s := b41_native_worker_admission (host_worker x) in
  if negb (s =? 0) then failed_before s no_result else
  let! s := b41_agps_receiver_observe (receiver x) in
  if negb (s =? 0) then failed_before s no_result else
  let! e := ask Run_engine in
  if negb (value e =? 18) then failed_before (- EPROTO) (Session_result true true (value e) 0 0 0 0 false 0 false 0) else
  let! v := b41_agps_receiver_activate (receiver x) in
  let x := Session_of (host_worker x) (stop_owner x) v.2 in
  if negb (v.1 =? 0) then stop_session fuel image x worker_deadline v.1 0 v.1 else
  let! l := watch fuel c x run_deadline 0 in
  match l with None => ret None | Some (reason, seen) => stop_session fuel image x worker_deadline reason seen 0 end.
(** [result] is the caller's record, which a refused admission leaves. *)
Definition b41_native_session_execute (fuel : nat) (image : b41_library_association) (a : b41_engine_arguments) (c : b41_native_control) (adapter : bool) (x : session)
    (run_deadline worker_deadline : timespec) (result : b41_native_session_result) : os (option (Z * session * b41_native_session_result)) :=
  let! s := session_admission image a c adapter x run_deadline worker_deadline in
  if negb (s =? 0) then ret (Some (s, x, result)) else session_run fuel image c x run_deadline worker_deadline.

(** ** The joined threads *)

(** What the two tables must say of one thread. *)
Definition thread_joined (base : Z) (i : nat) (a b : b41_native_thread_record) : Prop :=
  index a = Z.of_nat i /\ index b = Z.of_nat i /\ stop_at a = base + 0x529f18 /\ stop_at b = stop_at a /\ wake_at a = base + 0x529418 /\ wake_at b = wake_at a /\
  handle b = handle a /\ -1 <= marker a /\ (marker a = -1 <-> handle a = UINT64_MAX) /\ marker b = -1.
Definition live (s : b41_native_stop_snapshot) (i : nat) : bool := negb (marker (thread_at s i) =? -1).
Lemma joined_record_iff base i a b j : joined_record base (Z.of_nat i) a b = inr j <-> thread_joined base i a b /\ j = negb (marker a =? -1).
Proof.
  unfold joined_record, thread_joined. destruct (marker a <? -1) eqn:G0; [split; [discriminate|lia]|].
  destruct (_ || _) eqn:G; [split; [discriminate|lia]|]. destruct (marker a =? -1) eqn:M.
  - destruct (negb (handle a =? UINT64_MAX) || negb (marker b =? -1)) eqn:H; [split; [discriminate|lia]|]. split; [intros [= <-]; split; [lia|reflexivity]|now intros [_ ->]].
  - destruct ((handle a =? UINT64_MAX) || negb (marker b =? -1)) eqn:H; [split; [discriminate|lia]|]. split; [intros [= <-]; split; [lia|reflexivity]|now intros [_ ->]].
Qed.
Lemma join_loop_sound n : forall i before after mask m, join_loop n i before after mask = inr m ->
  forall k, (i <= k < i + n)%nat -> thread_joined (snap_base before) k (thread_at before k) (thread_at after k).
Proof.
  induction n as [|n IH]; intros i before after mask m; cbn [join_loop]; [lia|]. destruct (joined_record _ _ _ _) as [e|j] eqn:J; [discriminate|]. intros H k Hk.
  apply joined_record_iff in J as [J _]. destruct (decide (k = i)) as [-> |N]; [exact J|]. eapply IH; [exact H|lia].
Qed.
Lemma join_loop_complete n : forall i before after mask, (forall k, (i <= k < i + n)%nat -> thread_joined (snap_base before) k (thread_at before k) (thread_at after k)) ->
  exists m, join_loop n i before after mask = inr m /\
    forall k, Z.testbit m (Z.of_nat k) = Z.testbit mask (Z.of_nat k) || (bool_decide (i <= k < i + n)%nat && live before k).
Proof.
  induction n as [|n IH]; intros i before after mask H; cbn [join_loop].
  { exists mask. split; [reflexivity|]. intros k. rewrite bool_decide_false by lia. now rewrite orb_false_r. }
  rewrite (proj2 (joined_record_iff _ _ _ _ _) (conj (H i ltac:(lia)) eq_refl)). fold (live before i).
  destruct (IH (S i) before after (if live before i then Z.lor mask (Z.shiftl 1 (Z.of_nat i)) else mask)) as (m & E & B); [intros k Hk; apply H; lia|].
  exists m. split; [exact E|]. intros k. rewrite B. destruct (decide (k = i)) as [-> |N].
  - rewrite (bool_decide_false (S i <= i < S i + n)%nat), (bool_decide_true (i <= i < i + S n)%nat) by lia. cbn [andb]. rewrite orb_false_r.
    destruct (live before i); [|now rewrite orb_false_r]. rewrite Z.lor_spec, Z.shiftl_spec, Z.sub_diag by lia. reflexivity.
  - rewrite (bool_decide_ext (S i <= k < S i + n)%nat (i <= k < i + S n)%nat) by lia. f_equal. destruct (live before i); [|reflexivity].
    rewrite Z.lor_spec, Z.shiftl_spec by lia. replace (Z.testbit 1 (Z.of_nat k - Z.of_nat i)) with false; [apply orb_false_r|].
    symmetry. change 1 with (2 ^ 0). rewrite Z.pow2_bits_eqb by lia. lia.
Qed.
(** The proof of a stop: the same image, no offload, a live first thread, and every
    thread unchanged but for its marker, which says joined. *)
Definition joined_spec (before after : b41_native_stop_snapshot) (mask : Z) : Prop :=
  snap_base before <> 0 /\ snap_base before = snap_base after /\ snap_base before <= UINTPTR_MAX - B41_LIBRARY_IMAGE_END /\ offload before = 0 /\ offload after = 0 /\
  marker (thread_at before 0) <> -1 /\
  (forall i, (i < B41_NATIVE_THREADS)%nat -> thread_joined (snap_base before) i (thread_at before i) (thread_at after i)) /\
  0 <= mask /\ (forall i : nat, Z.testbit mask (Z.of_nat i) = bool_decide (i < B41_NATIVE_THREADS)%nat && live before i).

Lemma testbit_nonneg_all m : (forall k : nat, (B41_NATIVE_THREADS <= k)%nat -> Z.testbit m (Z.of_nat k) = false) -> 0 <= m.
Proof.
  intros H. apply Z.bits_iff_nonneg_ex. exists 17. intros k Hk. specialize (H (Z.to_nat k)). rewrite Z2Nat.id in H by lia. apply H. unfold B41_NATIVE_THREADS. lia.
Qed.
(** C13. The acknowledgement of an engine stop is exact: it is given with a mask if and
    only if the table before and the table after belong to the same image, are
    not in offload mode, the first thread was live, and every one of the
    seventeen records kept its identity and now carries the joined marker; the
    mask holds the threads that were live, and no other bit. *)
Theorem join_ack_exact before after mask : b41_native_join_ack before after = inr mask <-> joined_spec before after mask.
Proof.
  unfold b41_native_join_ack, joined_spec. destruct (_ || _ || _) eqn:G1; [split; [discriminate|lia]|]. destruct (_ || _) eqn:G2 in |- *; [split; [discriminate|lia]|].
  destruct (_ || _) eqn:G3 in |- *.
  { split; [discriminate|]. intros (_ & _ & _ & _ & _ & M & T & _). specialize (T 0%nat ltac:(unfold B41_NATIVE_THREADS; lia)). destruct T as (_ & _ & _ & _ & _ & _ & _ & _ & T & _). lia. }
  split.
  - intros J. pose proof (join_loop_sound _ _ _ _ _ _ J) as T. destruct (join_loop_complete B41_NATIVE_THREADS 0 before after 0 T) as (m & E & B). rewrite J in E. injection E as <-.
    assert (B' : forall i : nat, Z.testbit mask (Z.of_nat i) = bool_decide (i < B41_NATIVE_THREADS)%nat && live before i).
    { intros i. rewrite B, Z.bits_0. cbn [orb]. f_equal. apply bool_decide_ext. lia. }
    repeat split; try lia; try apply T; try lia; [|exact B']. apply testbit_nonneg_all. intros k Hk. rewrite B', bool_decide_false by lia. reflexivity.
  - intros (_ & _ & _ & _ & _ & _ & T & P & B). destruct (join_loop_complete B41_NATIVE_THREADS 0 before after 0) as (m & E & B'); [intros k Hk; apply T; lia|]. rewrite E. f_equal.
    apply Z.bits_inj'. intros k Hk. specialize (B (Z.to_nat k)). specialize (B' (Z.to_nat k)). rewrite Z2Nat.id in * by lia. rewrite B, B', Z.bits_0. cbn [orb]. f_equal. apply bool_decide_ext. lia.
Qed.

(** ** The wait for the engine process *)

(** A signal that was sent, or found the process gone. *)
Definition killed (e : call * answer) : bool := match e with (Kill _, a) => negb (failed_call a && negb (value a =? - ESRCH)) | _ => false end.
Definition kills (s : list (call * answer)) : list (call * answer) := filter (fun e => killed e = true) s.
Definition as_count (b : bool) : nat := if b then 1 else 0.
(** Each signal comes right after a [waitpid] that left the child unreaped and a clock at or past the deadline. *)
Definition kill_guarded (deadline : timespec) (s : os_trace) : Prop :=
  forall u child a v, s = u ++ (Kill child, a) :: v -> exists u' w c,
    u = u' ++ [(Waitpid child, w); (Clock, c)] /\ failed_call w = false /\ failed_call c = false /\ 0 <= compare_time (clock_of c) deadline.
Definition no_kill (e : call * answer) : bool := match e.1 with Kill _ => false | _ => true end.

(** What one call does to its owner. *)
Definition waited (deadline : timespec) (o : b41_native_child_wait_owner) (r : option (Z * b41_native_child_wait_owner * option Z)) (s : os_trace) : Prop :=
  kill_guarded deadline s /\
  match r with
  | None => (length (kills s) + as_count (escalated o) <= 1)%nat
  | Some (st, o', word) =>
    (length (kills s) + as_count (escalated o) = as_count (escalated o'))%nat /\ child_of o' = child_of o /\
    (reaped o' = true <-> is_Some word) /\
    (st = 0 -> escalated o' = false /\ exists w, word = Some w /\ WIFEXITED w = true /\ WEXITSTATUS w = 0 /\ exists a b s0, s = s0 ++ [(Waitpid (child_of o), a); (Clock, b)] /\
       value a = child_of o /\ number a = w /\ failed_call b = false /\ compare_time (clock_of b) deadline < 0)
  end.

Lemma kill_guarded_app deadline s1 s2 : Forall (fun e => no_kill e = true) s1 -> kill_guarded deadline s2 -> kill_guarded deadline (s1 ++ s2).
Proof.
  intros H1 H2 u child a v E. destruct (split_app _ _ _ _ _ E) as [(w & -> & ->)|(w & -> & ->)].
  - pose proof (Forall_at _ _ _ _ _ H1 eq_refl) as X. discriminate.
  - destruct (H2 w child a v eq_refl) as (u' & x & c & -> & Hx). exists (s1 ++ u'), x, c. now rewrite app_assoc.
Qed.
Lemma kill_guarded_none deadline s : Forall (fun e => no_kill e = true) s -> kill_guarded deadline s.
Proof. intros H u child a v E. pose proof (Forall_at _ _ _ _ _ H E) as X. discriminate. Qed.
Lemma kills_none s : Forall (fun e => no_kill e = true) s -> kills s = [].
Proof. induction 1 as [|[[] a] s He _ IH]; try discriminate; exact IH || reflexivity. Qed.
Lemma kills_app s1 s2 : kills (s1 ++ s2) = kills s1 ++ kills s2.
Proof. apply filter_app. Qed.
Lemma kills_cons e s : kills (e :: s) = if killed e then e :: kills s else kills s.
Proof. unfold kills. destruct (killed e) eqn:K; [now rewrite filter_cons_True|rewrite filter_cons_False; [reflexivity|congruence]]. Qed.
(** A pass of the loop that signals nothing. *)
Lemma waited_pass deadline o r s1 s2 : Forall (fun e => no_kill e = true) s1 -> waited deadline o r s2 -> waited deadline o r (s1 ++ s2).
Proof.
  intros H1 [H2 H3]. split; [now apply kill_guarded_app|]. rewrite kills_app, (kills_none s1 H1). destruct r as [[[st o'] word]|]; [|exact H3]. destruct H3 as (A & B & C & D).
  split; [exact A|]. split; [exact B|]. split; [exact C|]. intros Hs. destruct (D Hs) as (E & w & F1 & F2 & F3 & a & b & s0 & -> & F4). split; [exact E|].
  exists w. repeat (split; [assumption|]). exists a, b, (s1 ++ s0). rewrite app_assoc. now split.
Qed.
(** An end of the loop with an error, no signal and no reaping. *)
Lemma waited_error deadline o st o' s : st <> 0 -> Forall (fun e => no_kill e = true) s -> escalated o' = escalated o -> child_of o' = child_of o -> reaped o' = false ->
  waited deadline o (Some (st, o', None)) s.
Proof.
  intros Hst Hs He Hc Hr. split; [now apply kill_guarded_none|]. rewrite (kills_none s Hs), He, Hc, Hr. split; [reflexivity|]. split; [reflexivity|]. split; [|contradiction].
  split; [discriminate|]. intros [x X]. discriminate.
Qed.
Lemma child_error_first o e : e <> 0 -> child_error (child_first o e) <> 0.
Proof. intros H. cbn. destruct (Z.eqb_spec (child_error o) 0); assumption. Qed.

Lemma performs_reap o deadline a : (escalated o = true -> child_error o <> 0) -> value a = child_of o ->
  performs (reap o deadline (number a)) (fun r s => waited deadline o (Some (r, Some (number a))) ((Waitpid (child_of o), a) :: s)).
Proof.
  intros Hesc Ha. unfold reap. cbn [child_error]. destruct (Z.eqb_spec (child_error o) 0) as [E|E]; cbn [negb].
  - trace_step. cbn zeta. trace_step. unfold waited. split; [apply kill_guarded_none; now repeat constructor|]. cbn [child_first escalated child_of reaped].
    split; [reflexivity|]. split; [reflexivity|]. split; [split; [eauto|reflexivity]|]. intros Hz. split; [destruct (escalated o); [now destruct Hesc|reflexivity]|].
    exists (number a). split; [reflexivity|]. unfold failed_call in *. destruct (value p <? 0) eqn:F; [lia|]. destruct (0 <=? compare_time (clock_of p) deadline) eqn:C; [discriminate|].
    destruct (WIFEXITED (number a)) eqn:W; [|discriminate]. cbn [negb orb] in Hz. destruct (Z.eqb_spec (WEXITSTATUS (number a)) 0) as [X|X]; [|discriminate].
    repeat (split; [assumption || reflexivity|]). exists a, p, []. repeat split; try assumption; lia.
  - trace_step. split; [apply kill_guarded_none; now repeat constructor|]. cbn [escalated child_of reaped child_error]. split; [reflexivity|]. split; [reflexivity|].
    split; [split; [eauto|reflexivity]|]. contradiction.
Qed.
Lemma performs_wait_loop fuel deadline cleanup : forall o, (escalated o = true -> child_error o <> 0) -> reaped o = false ->
  performs (wait_loop fuel o deadline cleanup) (waited deadline o).
Proof.
  induction fuel as [|fuel IH]; intros o Hesc Hr; cbn [wait_loop].
  { trace_step. split; [apply kill_guarded_none; constructor|]. cbn. destruct (escalated o); cbn; lia. }
  cbn zeta. trace_step. trace_step.
  { apply andb_true_iff in G as [G _]. eapply performs_bind; [apply (performs_reap o deadline p); [exact Hesc|lia]|]. intros [st o'] s Hs. trace_step. now rewrite app_nil_r. }
  trace_step.
  { trace_step.
    - eapply performs_impl; [now apply IH|]. intros r s H. apply (waited_pass deadline o r [_]); [now repeat constructor|exact H].
    - trace_step. apply waited_error; try reflexivity; [apply child_error_first; unfold failed_call in *; lia|now repeat constructor|exact Hr]. }
  trace_step. trace_step; [trace_step; apply waited_error; try reflexivity; [apply child_error_first; unfold failed_call in *; lia|now repeat constructor|exact Hr]|].
  trace_step.
  2:{ trace_step. trace_step; [trace_step; apply waited_error; try reflexivity; [apply child_error_first; unfold failed_call in *; lia|now repeat constructor|exact Hr]|].
      eapply performs_impl; [now apply IH|]. intros r s H. apply (waited_pass deadline o r [_; _; _]); [now repeat constructor|exact H]. }
  destruct (escalated o) eqn:Esc; [trace_step; apply waited_error; try reflexivity; [discriminate|now repeat constructor|exact Hr]|].
  trace_step. set (o1 := child_first o (- ETIMEDOUT)).
  assert (He1 : child_error o1 <> 0) by now apply child_error_first.
  assert (Hg : forall s, kill_guarded deadline s -> kill_guarded deadline ((Waitpid (child_of o), p) :: (Clock, p0) :: (Kill (child_of o), p1) :: s)).
  { intros s Hs u child a v E. destruct u as [|e1 [|e2 [|e3 u]]]; try discriminate.
    - injection E as <- <- <- <-. exists [], p, p0. repeat split; auto; lia.
    - injection E as <- <- <- E. destruct (Hs u child a v E) as (u' & w & c & -> & X). exists ((Waitpid (child_of o), p) :: (Clock, p0) :: (Kill (child_of o), p1) :: u'), w, c. now split. }
  trace_step.
  - trace_step. split; [apply Hg, kill_guarded_none; constructor|]. rewrite !kills_cons. cbn [killed]. rewrite G3. unfold o1. cbn [child_first escalated child_of reaped]. rewrite Esc, Hr. split; [reflexivity|]. split; [reflexivity|].
    split; [split; [discriminate|intros [x X]; discriminate]|]. contradiction.
  - set (o2 := Child_owner (child_of o1) true (child_error o1) (reaped o1)). eapply performs_impl; [apply (IH o2); [intros _; exact He1|exact Hr]|]. intros r s [H1 H2]. split; [now apply Hg|].
    rewrite !kills_cons. cbn [killed]. rewrite G3. cbn [negb].
    change (escalated o2) with true in H2. cbn [length as_count] in *. rewrite Esc. destruct r as [[[st o'] word]|]; [|cbn; lia]. destruct H2 as (A & B & C & D).
    split; [cbn [as_count]; lia|]. split; [exact B|]. split; [exact C|]. intros Hz. destruct (D Hz) as (E & _). rewrite E in A. cbn [as_count] in A. lia.
Qed.

(** Calls with one owner, one after the other, as long as they end. *)
Fixpoint waits (calls : list (nat * Z * timespec * timespec)) (o : b41_native_child_wait_owner) : os (option b41_native_child_wait_owner) :=
  match calls with
  | [] => ret (Some o)
  | (fuel, child, deadline, cleanup) :: calls =>
    let! r := b41_native_child_wait_owned fuel o child deadline cleanup in
    match r with None => ret None | Some (_, o, _) => waits calls o end
  end.
Definition with_child (o : b41_native_child_wait_owner) (child : Z) : b41_native_child_wait_owner := Child_owner child (escalated o) (child_error o) (reaped o).
Definition owner_consistent (o : b41_native_child_wait_owner) : Prop := escalated o = true -> child_error o <> 0.

Lemma performs_wait_owned fuel o child deadline cleanup : owner_consistent o -> performs (b41_native_child_wait_owned fuel o child deadline cleanup) (fun r s =>
  (r = Some (- EINVAL, o, None) /\ s = []) \/ (reaped o = false /\ waited deadline (with_child o child) r s)).
Proof.
  intros H. unfold b41_native_child_wait_owned. trace_step; [trace_step; now left|].
  assert (Hr : reaped o = false) by (destruct (reaped o); [discriminate|reflexivity]).
  eapply performs_impl; [now apply (performs_wait_loop fuel deadline cleanup (with_child o child))|]. intros r s Hs. right. now split.
Qed.
(** The error of an owner that signalled is set, and stays. *)
Definition keeps_error (o : b41_native_child_wait_owner) (r : option (Z * b41_native_child_wait_owner * option Z)) (s : os_trace) : Prop :=
  match r with Some (_, o', _) => owner_consistent o' | None => True end.
Lemma consistent_first o e : owner_consistent o -> e <> 0 -> owner_consistent (child_first o e).
Proof. intros H He _. now apply child_error_first. Qed.
Lemma performs_wait_loop_error fuel deadline cleanup : forall o, owner_consistent o -> performs (wait_loop fuel o deadline cleanup) (keeps_error o).
Proof.
  induction fuel as [|fuel IH]; intros o Ho; cbn [wait_loop]; [now trace_step|]. cbn zeta. trace_step. trace_step.
  { eapply (performs_bind _ _ (fun r _ => owner_consistent r.2)); [|intros [st o'] s Hr; trace_step; exact Hr]. unfold reap. cbn [child_error].
    trace_step; trace_step; [exact Ho|]. trace_step. intros E. cbn in E. specialize (Ho E). cbn [child_error] in G0. lia. }
  trace_step; [trace_step; [eapply performs_impl; [now apply IH|]; auto|trace_step; apply consistent_first; [exact Ho|unfold failed_call in *; lia]]|].
  trace_step. trace_step; [trace_step; apply consistent_first; [exact Ho|unfold failed_call in *; lia]|]. trace_step.
  - destruct (escalated o) eqn:E; [now trace_step|]. trace_step. trace_step; [trace_step; now apply consistent_first|]. eapply performs_impl; [apply IH|auto].
    intros _. now apply child_error_first.
  - trace_step. trace_step; [trace_step; apply consistent_first; [exact Ho|unfold failed_call in *; lia]|]. eapply performs_impl; [now apply IH|]. auto.
Qed.
Lemma performs_waits calls : forall o, owner_consistent o -> performs (waits calls o) (fun r s => (length (kills s) + as_count (escalated o) <= 1)%nat /\
  match r with None => True | Some o' => (length (kills s) + as_count (escalated o) = as_count (escalated o'))%nat /\ owner_consistent o' end).
Proof.
  assert (Hle : forall b, (as_count b <= 1)%nat) by (intros []; cbn; lia).
  induction calls as [|[[[fuel child] d] c] calls IH]; intros o Ho; cbn [waits]; [trace_step; split; [apply Hle|now split]|].
  eapply (performs_bind _ _ (fun r s => match r with None => (length (kills s) + as_count (escalated o) <= 1)%nat
    | Some (_, o', _) => (length (kills s) + as_count (escalated o) = as_count (escalated o'))%nat /\ owner_consistent o' end)).
  - assert (H : performs (b41_native_child_wait_owned fuel o child d c) (keeps_error o)).
    { unfold b41_native_child_wait_owned. trace_step; [now trace_step|]. now apply (performs_wait_loop_error fuel d c (with_child o child)). }
    eapply performs_impl; [apply (performs_and _ _ _ (performs_wait_owned fuel o child d c Ho) H)|].
    intros [[[st o'] w]|] s [[[E ->]|[_ [_ Hw]]] Hk].
    + injection E as -> -> ->. now split.
    + split; [apply Hw|exact Hk].
    + discriminate.
    + exact Hw.
  - intros [[[st o1] w]|] s Hs; [|trace_step; now rewrite app_nil_r]. destruct Hs as [Hs Ho1]. eapply performs_impl; [now apply IH|]. intros r s' [H1 H2]. cbv beta. rewrite kills_app, length_app.
    split; [lia|]. destruct r as [o2|]; [|exact I]. destruct H2. split; [lia|assumption].
Qed.

(** C7. The parent's wait for its engine process, over every history of calls with one
    owner and whatever the kernel answers: the process is signalled at most once,
    only right after a [waitpid] that left it unreaped and a clock at or past
    the deadline; a call ends with a status word only when it reaped the
    process, after which no call makes a request any more; and it reports
    success only for a process that exited with status 0 before the deadline and
    was never signalled. *)
Theorem child_wait_protocol calls fuel child deadline cleanup :
  performs (waits calls (Child_owner 0 false 0 false)) (fun r s => (length (kills s) <= 1)%nat /\
    match r with
    | None => True
    | Some o => (escalated o = true <-> length (kills s) = 1%nat) /\
        performs (b41_native_child_wait_owned fuel o child deadline cleanup) (fun r2 s2 =>
          (r2 = Some (- EINVAL, o, None) /\ s2 = []) \/ (reaped o = false /\ waited deadline (with_child o child) r2 s2))
    end).
Proof.
  eapply performs_impl; [now apply (performs_waits calls (Child_owner 0 false 0 false))|]. cbn. intros [o|] s [H1 H2]; [|split; [lia|exact I]].
  destruct H2 as [H2 Ho]. split; [lia|]. split; [destruct (escalated o); cbn in H2; split; intros; try reflexivity; try discriminate; lia|]. now apply performs_wait_owned.
Qed.

(** *** It ends *)

Definition clocks (t : os_trace) : nat := length (List.filter (fun e => match e.1 with Clock => true | _ => false end) t).
Lemma clocks_app t1 t2 : clocks (t1 ++ t2) = (clocks t1 + clocks t2)%nat.
Proof. unfold clocks. now rewrite List.filter_app, length_app. Qed.
Lemma compare_time_trans a b c : 0 <= compare_time a b -> 0 <= compare_time b c -> 0 <= compare_time a c.
Proof. unfold compare_time. repeat case_match; lia. Qed.
(** From the [n]-th reading on, the clock is past [limit] or fails. *)
Definition clock_runs (env : environment call answer) (n : nat) (limit : timespec) : Prop :=
  forall t, (n <= clocks t)%nat -> failed_call (env t Clock) = true \/ 0 <= compare_time (clock_of (env t Clock)) limit.
Definition no_interrupts (env : environment call answer) : Prop := forall t child, value (env t (Waitpid child)) <> - EINTR.
Lemma wait_loop_returns env n deadline cleanup : clock_runs env n cleanup -> no_interrupts env -> 0 <= compare_time cleanup deadline ->
  forall fuel o t, (n - clocks t + 1 + as_count (negb (escalated o)) <= fuel)%nat -> exists r t', wait_loop fuel o deadline cleanup env t = (Some r, t').
Proof.
  intros Hc Hi Hd. induction fuel as [|fuel IH]; intros o t Hf; [destruct (escalated o); cbn in Hf; lia|]. cbn [wait_loop]. unfold bind, ask, ret. cbn zeta.
  set (w := env t _). set (t1 := t ++ [(Waitpid (child_of o), w)]). destruct ((value w =? child_of o) && _); [unfold reap, bind, ask, ret; cbn [child_error]; destruct (child_error o =? 0); cbn [negb]; eauto|].
  destruct (failed_call w); [rewrite (proj2 (Z.eqb_neq _ _) (Hi t (child_of o) : value w <> - EINTR)); eauto|].
  assert (Ht1 : clocks t1 = clocks t) by (unfold t1; rewrite clocks_app; cbn; lia). set (c := env t1 Clock). set (t2 := t1 ++ [(Clock, c)]).
  assert (Ht2 : clocks t2 = S (clocks t)) by (unfold t2; rewrite clocks_app; cbn; lia).
  assert (Hlate : (n <= clocks t)%nat -> failed_call c = false -> 0 <= compare_time (clock_of c) cleanup) by (intros X F; destruct (Hc t1) as [Y|Y]; [lia|fold c in Y; congruence|exact Y]).
  destruct (failed_call c) eqn:F; [eauto|]. specialize (fun X => Hlate X eq_refl). destruct (escalated o) eqn:E.
  - destruct (0 <=? compare_time (clock_of c) cleanup) eqn:L; [eauto|]. destruct (failed_call _ && _); [eauto|]. apply IH. rewrite clocks_app, Ht2, E. cbn in *. lia.
  - destruct (0 <=? compare_time (clock_of c) deadline) eqn:L.
    + destruct (failed_call _ && _); [eauto|]. apply IH. rewrite clocks_app, Ht2. cbn in *. lia.
    + destruct (failed_call _ && _); [eauto|]. apply IH. rewrite clocks_app, Ht2, E. cbn in *. assert ((clocks t < n)%nat); [|lia]. destruct (Nat.lt_ge_cases (clocks t) n) as [X|X]; [exact X|].
      pose proof (compare_time_trans _ _ _ (Hlate X) Hd). lia.
Qed.
(** C8. The parent's wait ends: in every environment whose clock is past the cleanup
    deadline from its [n]-th reading on and whose [waitpid] is not interrupted,
    a call with fuel for [n + 2] passes returns, whatever else fails, and however
    long the process lives. *)
Theorem child_wait_returns env n o child deadline cleanup : clock_runs env n cleanup -> no_interrupts env ->
  exists r t, b41_native_child_wait_owned (n + 2) o child deadline cleanup env [] = (Some r, t).
Proof.
  intros Hc Hi. unfold b41_native_child_wait_owned. destruct (_ || (compare_time cleanup deadline <? 0)) eqn:G; [unfold ret; eauto|].
  apply (wait_loop_returns env n); [exact Hc|exact Hi|lia|]. cbn. destruct (escalated o); cbn; lia.
Qed.
(** A kernel whose clock shows the number of its readings in seconds; the process never ends. *)
Definition stubborn_kernel : environment call answer := fun t q =>
  match q with Clock => Answer 0 (FileStat 0 0 0 0) (put64 0) (Z.of_nat (clocks t)) [] | _ => Answer 0 (FileStat 0 0 0 0) [] 0 [] end.
Lemma child_wait_returns_witness : clock_runs stubborn_kernel 9 (Time 9 0) /\ no_interrupts stubborn_kernel /\
  exists r t, b41_native_child_wait_owned (9 + 2) (Child_owner 0 false 0 false) 1234 (Time 4 0) (Time 9 0) stubborn_kernel [] = (Some r, t) /\ r.1.1 = - EINPROGRESS /\ length (kills t) = 1%nat.
Proof.
  assert (H1 : clock_runs stubborn_kernel 9 (Time 9 0)) by (intros t Ht; right; unfold stubborn_kernel, clock_of, compare_time; cbn [tv_sec tv_nsec number stored]; change (le_of (put64 0)) with 0; repeat case_match; lia).
  assert (H2 : no_interrupts stubborn_kernel) by (intros t child; discriminate). split; [exact H1|]. split; [exact H2|].
  destruct (child_wait_returns stubborn_kernel 9 (Child_owner 0 false 0 false) 1234 (Time 4 0) (Time 9 0) H1 H2) as (r & t & E). exists r, t. split; [exact E|].
  change (match (Some r, t).1 with Some r => r.1.1 = - EINPROGRESS | None => False end /\ length (kills (Some r, t).2) = 1%nat). rewrite <- E. vm_compute. now split.
Defined.

(** ** The order of a session *)

Inductive stage := K_register | K_run | K_activate | K_receiver_stop | K_native_stop | K_worker_stop.
(** [act] is the descriptor of the receiver's activation word. *)
Definition stage_of (act : Z) (e : call * answer) : option stage :=
  match e.1 with
  | Register => Some K_register
  | Run_engine => Some K_run
  | Write fd _ => if fd =? act then Some K_activate else None
  | Store_stop The_receiver => Some K_receiver_stop
  | Native_stop => Some K_native_stop
  | Store_stop The_worker => Some K_worker_stop
  | _ => None
  end.
Definition stages (act : Z) (s : os_trace) : list stage := omap (stage_of act) s.
(** The stages of [s] are some of [K], in that order, and nothing is closed. *)
Definition goes (act : Z) (K : list stage) (s : os_trace) : Prop := stages act s `sublist_of` K /\ Forall not_close s.
Lemma stages_app act s1 s2 : stages act (s1 ++ s2) = stages act s1 ++ stages act s2.
Proof. apply omap_app. Qed.
Lemma goes_app act K1 K2 s1 s2 : goes act K1 s1 -> goes act K2 s2 -> goes act (K1 ++ K2) (s1 ++ s2).
Proof. intros [A1 A2] [B1 B2]. split; [rewrite stages_app; now apply sublist_app|apply Forall_app; now split]. Qed.
Lemma goes_weaken act K1 K2 s : K1 `sublist_of` K2 -> goes act K1 s -> goes act K2 s.
Proof. intros H [A B]. split; [now transitivity K1|exact B]. Qed.
Lemma goes_none act K s : goes act [] s -> goes act K s.
Proof. apply goes_weaken, sublist_nil_l. Qed.
Lemma observing_goes act s : Forall (fun e => observing e = true) s -> stages act s = [] /\ Forall not_close s.
Proof. induction 1 as [|[[] a] s He _ [I1 I2]]; [split; constructor|..]; try discriminate; (split; [exact I1|now constructor]). Qed.
Lemma goes_observing act K s : Forall (fun e => observing e = true) s -> goes act K s.
Proof. intros H. destruct (observing_goes act s H) as [E N]. split; [rewrite E; apply sublist_nil_l|exact N]. Qed.

(** Every event of the kind [Q] comes after one of the kind [p]. *)
Definition seen (p : call * answer -> Prop) (s : os_trace) : Prop := exists e, In e s /\ p e.
Definition guarded (Q p : call * answer -> Prop) (s : os_trace) : Prop := forall u e v, s = u ++ e :: v -> Q e -> seen p u.
Lemma seen_l p s1 s2 : seen p s1 -> seen p (s1 ++ s2).
Proof. intros (e & H & P). exists e. split; [apply in_or_app; now left|exact P]. Qed.
Lemma seen_r p s1 s2 : seen p s2 -> seen p (s1 ++ s2).
Proof. intros (e & H & P). exists e. split; [apply in_or_app; now right|exact P]. Qed.
Lemma guarded_none (Q p : call * answer -> Prop) s : Forall (fun e => ~ Q e) s -> guarded Q p s.
Proof. intros H u e v E HQ. destruct (Forall_at _ _ _ _ _ H E HQ). Qed.
Lemma guarded_app Q p s1 s2 : guarded Q p s1 -> guarded Q p s2 \/ seen p s1 -> guarded Q p (s1 ++ s2).
Proof.
  intros H1 H2 u e v E HQ. destruct (split_app _ _ _ _ _ E) as [(w & -> & ->)|(w & -> & ->)]; [now eapply H1|].
  destruct H2 as [H2|H2]; [now apply seen_r, (H2 w e v)|now apply seen_l].
Qed.
(** What a stage is allowed to follow. *)
Definition is_stage (act : Z) (k : stage) (e : call * answer) : Prop := stage_of act e = Some k.
Definition registered (e : call * answer) : Prop := match e with (Register, a) => value a = 0 | _ => False end.
Definition initialised (e : call * answer) : Prop := match e with (Run_engine, a) => value a = 18 | _ => False end.
Definition completion (done : Z) (e : call * answer) : Prop := match e with (Poll fd _, a) => fd = done /\ poll_in (number a) = true | _ => False end.
Lemma no_stage_guarded act k p s : (forall k', In k' (stages act s) -> k' <> k) -> guarded (is_stage act k) p s.
Proof.
  intros H u e v -> HQ. destruct (H k); [|reflexivity]. rewrite stages_app. apply in_or_app. right. cbn. rewrite HQ. now left.
Qed.
Lemma goes_guarded act K k p s : goes act K s -> ~ In k K -> guarded (is_stage act k) p s.
Proof.
  intros [H _] HK. apply no_stage_guarded. intros k' Hk ->. apply HK. apply list_elem_of_In. eapply elem_of_sublist; [apply list_elem_of_In; exact Hk|exact H].
Qed.

(** *** Its parts *)

Lemma observes_worker_admission w : only observing (b41_native_worker_admission w).
Proof. unfold b41_native_worker_admission. only_steps. Qed.
Lemma observes_snapshot image : only observing (snapshot image).
Proof. unfold snapshot, read_image. only_steps. Qed.
Lemma observes_worker_error : only observing worker_error.
Proof. unfold worker_error. only_steps. Qed.
Lemma observes_control_take c : only observing (b41_native_control_take c).
Proof. unfold b41_native_control_take, control_fail, control_error. only_steps. Qed.
#[export] Hint Resolve observes_worker_admission observes_snapshot observes_worker_error observes_control_take : rx_calm.
Lemma observes_and_then st m : only observing m -> only observing (and_then st m).
Proof. intros H. unfold and_then. only_steps. Qed.
#[export] Hint Resolve observes_and_then : rx_calm.
Lemma observes_capture o image : only observing (b41_native_stop_capture o image).
Proof. unfold b41_native_stop_capture. only_steps. Qed.
Lemma observes_watch fuel c x d : forall seen, only observing (watch fuel c x d seen).
Proof. induction fuel as [|fuel IH]; intros n; cbn [watch]; unfold adapter_error; only_steps. Qed.
Definition admitted (image : b41_library_association) (a : b41_engine_arguments) (c : b41_native_control) (x : session) : Prop :=
  missing_contracts a = 0 /\ rx_state (receiver x) = B41_AGPS_RX_PREPARED /\ rx_image (receiver x) = image /\ control_init c = 1 /\ notify_slot a = Native_notify /\
  worker_state (host_worker x) = B41_WORKER_RUNNING /\ exposed (host_worker x) = true /\ stop_state (stop_owner x) = B41_NATIVE_STOP_EMPTY /\ session_shape a c (host_worker x) = 0.
Lemma observes_admission image a c adapter x d1 d2 : only observing (session_admission image a c adapter x d1 d2).
Proof. unfold session_admission, and_then, mapping_idle, before_deadline, adapter_error, control_error. only_steps. Qed.
Lemma performs_session_admission image a c adapter x d1 d2 : performs (session_admission image a c adapter x d1 d2) (fun st s => st = 0 -> admitted image a c x).
Proof.
  unfold session_admission. cbn zeta. trace_step; [now trace_step|]. trace_step; [now trace_step|]. trace_step; [now trace_step|].
  eapply performs_bind; [apply observes_observe|]. intros st s _. trace_step; [trace_step; lia|]. trace_step. trace_step; [now trace_step|]. trace_step; [trace_step; lia|].
  eapply performs_impl; [apply (only_weaken observing observing); [auto|]; unfold and_then, mapping_idle, before_deadline, adapter_error, control_error; only_steps|]. intros u s' _ _.
  unfold admitted. repeat (rewrite ?orb_false_iff, ?negb_false_iff, ?bool_decide_eq_true in *). repeat match goal with H : _ /\ _ |- _ => destruct H end. repeat split; auto; lia.
Qed.

Lemma observes_await fuel done d : only observing (rx_await fuel done d).
Proof. induction fuel as [|fuel IH]; cbn [rx_await]; only_steps. Qed.
Lemma observes_await_done fuel done d : only observing (await_done fuel done d).
Proof. induction fuel as [|fuel IH]; cbn [await_done]; only_steps. Qed.
(** The stop of the receiver, with its completion. *)
Lemma performs_receiver_stop act fuel o d : rx_fd o 1 <> act -> performs (b41_agps_receiver_quiesce fuel o d) (fun r s => goes act [K_receiver_stop] s /\
  match r with Some (_, o') => rx_state o' = B41_AGPS_RX_QUIESCED -> rx_state o <> B41_AGPS_RX_QUIESCED -> seen (completion (rx_fd o 2)) s | None => True end).
Proof.
  intros Hact. unfold b41_agps_receiver_quiesce. trace_step; [trace_step; split; [now apply goes_observing|contradiction]|].
  eapply performs_bind; [apply observes_controller|]. intros c s1 H1. cbv beta in H1. apply (goes_observing act []) in H1.
  assert (Hrefuse : forall P : Prop, (rx_state o = B41_AGPS_RX_QUIESCED -> rx_state o <> B41_AGPS_RX_QUIESCED -> P)) by contradiction.
  trace_step; [trace_step; rewrite app_nil_r; split; [now apply goes_none|apply Hrefuse]|]. trace_step; [trace_step; rewrite app_nil_r; split; [now apply goes_none|apply Hrefuse]|].
  trace_step; [trace_step; rewrite app_nil_r; split; [now apply goes_none|apply Hrefuse]|]. trace_step.
  assert (Hst : goes act [K_receiver_stop] [(Store_stop The_receiver, p)]) by (split; [cbn; apply sublist_skip, sublist_nil|now repeat constructor]).
  eapply performs_bind; [apply observes_same_fd|]. intros e2 s2 H2. cbv beta in H2. apply (goes_observing act []) in H2.
  eapply (performs_bind _ _ (fun _ s => goes act [] s)).
  { trace_step; [|trace_step; now apply goes_observing]. trace_step. trace_step. split; [cbn; replace (rx_fd o 1 =? act) with false by lia; constructor|now repeat constructor]. }
  intros e3 s3 H3. cbv beta in H3. eapply (performs_bind _ _ (fun _ s => goes act [] s)).
  { eapply performs_impl; [instantiate (1 := fun _ s => Forall (fun e => observing e = true) s); only_steps|]. intros u s. apply goes_observing. }
  intros e4 s4 H4. cbv beta in H4.
  eapply (performs_bind _ _ (fun w s => goes act [] s /\ (w = Some 0 -> seen (completion (rx_fd o 2)) s))).
  { trace_step; [|trace_step; split; [now apply goes_observing|]; intros [= ->]; discriminate]. eapply performs_impl; [apply (performs_and _ _ _ (performs_rx_await fuel (rx_fd o 2) d) (observes_await fuel (rx_fd o 2) d))|].
    intros w s [[_ Hw] Ho]. split; [now apply goes_observing|]. intros E. destruct (Hw E) as (ms & a & Hi & Ha). exists (Poll (rx_fd o 2) ms, a). now repeat split. }
  intros w s5 [H5 Hw]. assert (Hall : forall s6, goes act [] s6 -> goes act [K_receiver_stop] (s1 ++ (Store_stop The_receiver, p) :: s2 ++ s3 ++ s4 ++ s5 ++ s6)).
  { intros s6 H6. apply (goes_app act [] [K_receiver_stop]); [exact H1|]. apply (goes_app act [K_receiver_stop] [] [_]); [exact Hst|]. repeat (apply (goes_app act [] []); [assumption|]). exact H6. }
  destruct w as [w|]; [|trace_step; split; [apply Hall; now apply goes_observing|exact I]]. trace_step.
  - eapply performs_bind; [apply observes_rx_error|]. intros e6 s6 H6. cbv beta in H6. apply (goes_observing act []) in H6. trace_step. rewrite app_nil_r. split; [now apply Hall|]. intros _ _.
    apply seen_r. apply (seen_r _ [_]). do 3 apply seen_r. apply seen_l, Hw. f_equal. lia.
  - eapply performs_bind; [apply observes_rx_fail|]. intros e6 s6 H6. cbv beta in H6. apply (goes_observing act []) in H6. trace_step. rewrite app_nil_r. split; [now apply Hall|]. discriminate.
Qed.
Lemma performs_activation act o : rx_fd o 3 = act -> performs (b41_agps_receiver_activate o) (fun r s => goes act [K_activate] s /\ rx_fds r.2 = rx_fds o /\
  (rx_state o = B41_AGPS_RX_PREPARED -> rx_state r.2 <> B41_AGPS_RX_QUIESCED)).
Proof.
  intros Hact. unfold b41_agps_receiver_activate.
  assert (Hq : forall s, Forall (fun e => observing e = true) s -> goes act [K_activate] s /\ rx_fds o = rx_fds o /\ (rx_state o = B41_AGPS_RX_PREPARED -> rx_state o <> B41_AGPS_RX_QUIESCED)).
  { intros s Hs. split; [now apply goes_observing|]. split; [reflexivity|congruence]. }
  trace_step; [trace_step; now apply Hq|]. eapply performs_bind; [apply observes_controller|]. intros c s1 H1. cbv beta in H1. trace_step; [trace_step; rewrite app_nil_r; now apply Hq|].
  eapply performs_bind; [apply observes_observe|]. intros e s2 H2. cbv beta in H2.
  eapply (performs_bind _ _ (fun _ s => Forall (fun e => observing e = true) s)); [only_steps|]. intros e3 s3 H3. cbv beta in H3.
  eapply (performs_bind _ _ (fun _ s => Forall (fun e => observing e = true) s)); [only_steps|]. intros e4 s4 H4. cbv beta in H4.
  trace_step; [eapply performs_bind; [apply observes_rx_fail|]; intros e5 s5 H5; cbv beta in H5; trace_step; rewrite app_nil_r; apply Hq; calm_trace|].
  eapply (performs_bind _ _ (fun _ s => exists a, s = [(Write (rx_fd o 3) event_one, a)])); [unfold signal; trace_step; trace_step; eauto|]. intros w s5 [a ->].
  assert (Hgo : forall s6, Forall (fun e => observing e = true) s6 -> goes act [K_activate] (s1 ++ s2 ++ s3 ++ s4 ++ [(Write (rx_fd o 3) event_one, a)] ++ s6)).
  { intros s6 H6. repeat (apply (goes_app act [] [K_activate]); [now apply goes_observing|]). apply (goes_app act [K_activate] []); [|now apply goes_observing].
    split; [cbn; replace (rx_fd o 3 =? act) with true by lia; reflexivity|now repeat constructor]. }
  trace_step; [eapply performs_bind; [apply observes_rx_fail|]; intros e6 s6 H6; cbv beta in H6; trace_step; rewrite app_nil_r; split; [now apply Hgo|]; split; [reflexivity|cbn [snd]; congruence]|].
  trace_step. cbn [snd]. split; [|split; [reflexivity|discriminate]]. apply (Hgo []). constructor.
Qed.
(** The call into the engine's stop, with the proof that its threads were joined. *)
Lemma snapshot_status image : performs (snapshot image) (fun r s => match r with inl e => e <> 0 | inr _ => True end).
Proof. unfold snapshot. trace_step; [now trace_step|]. read_step. trace_step; [now trace_step|]. read_step. read_step. now trace_step. Qed.
Lemma join_loop_status n : forall i before after mask e, join_loop n i before after mask = inl e -> e <> 0.
Proof.
  induction n as [|n IH]; intros i before after mask e; cbn [join_loop]; [discriminate|]. destruct (joined_record _ _ _ _) as [x|j] eqn:J; [|apply IH]. intros [= <-].
  unfold joined_record in J. repeat (destruct (_ : bool) in J; [now injection J as <-|]); repeat case_match; try discriminate; now injection J as <-.
Qed.
Lemma join_ack_status before after e : b41_native_join_ack before after = inl e -> e <> 0.
Proof. unfold b41_native_join_ack. repeat case_match; try (intros [= <-]; discriminate). apply join_loop_status. Qed.
Definition acknowledged (o : b41_native_stop_owner) (joined : Z) : Prop :=
  stop_state o = B41_NATIVE_STOP_ACKED /\ exists after, b41_native_join_ack (stop_before o) after = inr joined.
Lemma performs_stop_call act o joined : performs (b41_native_stop_call o joined) (fun r s => goes act [K_native_stop] s /\ (r.1.1 = 0 -> acknowledged r.1.2 r.2)).
Proof.
  unfold b41_native_stop_call. trace_step; [trace_step; split; [now apply goes_observing|discriminate]|]. trace_step. trace_step; [trace_step; split; [apply goes_observing; now repeat constructor|discriminate]|].
  trace_step. eapply performs_bind; [apply (performs_and _ _ _ (observes_snapshot (stop_image o)) (snapshot_status (stop_image o)))|]. intros r s [Hs Hr]. trace_step. rewrite app_nil_r.
  split.
  - apply (goes_app act [] [K_native_stop] [_]); [apply goes_observing; now repeat constructor|]. apply (goes_app act [K_native_stop] [] [_]); [split; [reflexivity|now repeat constructor]|now apply goes_observing].
  - destruct r as [e|after]; [cbn; congruence|]. destruct (b41_native_join_ack (stop_before o) after) as [e|m] eqn:J; cbn [fst snd]; [intros ->; now apply join_ack_status in J|].
    intros _. split; [reflexivity|]. eauto.
Qed.
Lemma performs_worker_stop act fuel w d : wake_fd w <> act -> exposed w = true -> performs (b41_frame_worker_quiesce fuel w d) (fun r s => goes act [K_worker_stop] s /\
  match r with Some (st, _) => st <> 0 | None => True end).
Proof.
  intros Hact Hx. unfold b41_frame_worker_quiesce. trace_step; [trace_step; split; [now apply goes_observing|discriminate]|].
  trace_step; [trace_step; trace_step; split; [apply goes_observing; now repeat constructor|destruct (Z.eqb_spec (value p) 0); [discriminate|assumption]]|].
  trace_step; [trace_step; split; [now apply goes_observing|discriminate]|].
  trace_step. trace_step. eapply (performs_bind _ _ (fun _ s => Forall (fun e => observing e = true) s)); [trace_step; [apply only_ret|apply observes_await_done]|]. intros st s Hs. cbv beta in Hs.
  assert (Hgo : forall s', Forall (fun e => observing e = true) s' -> goes act [K_worker_stop] ([(Store_stop The_worker, p)] ++ [(Write (wake_fd w) event_one, p0)] ++ s ++ s')).
  { intros s' H'. apply (goes_app act [K_worker_stop] []); [split; [reflexivity|now repeat constructor]|]. apply (goes_app act [] []); [|apply goes_observing, Forall_app; now split].
    split; [cbn; replace (wake_fd w =? act) with false by lia; constructor|now repeat constructor]. }
  destruct st as [st|]; [|trace_step; split; [apply (Hgo []); constructor|exact I]]. trace_step. cbn zeta. rewrite Hx, orb_true_r.
  eapply (performs_bind _ _ (fun _ s => Forall (fun e => observing e = true) s)); [only_steps|]. intros u s1 H1. cbv beta in H1. trace_step. rewrite app_nil_r.
  split; [apply (Hgo (_ :: s1)); constructor; [reflexivity|exact H1]|]. destruct (Z.eqb_spec (if value p1 =? 0 then st else value p1) 0); [discriminate|assumption].
Qed.

(** *** The whole session *)

Definition ordered (act done : Z) (s : os_trace) : Prop :=
  guarded (is_stage act K_run) registered s /\ guarded (is_stage act K_activate) initialised s /\ guarded (is_stage act K_native_stop) initialised s /\
  guarded (is_stage act K_worker_stop) initialised s /\ guarded (is_stage act K_native_stop) (completion done) s.
Definition the_order : list stage := [K_register; K_run; K_activate; K_receiver_stop; K_native_stop; K_worker_stop].
Ltac not_a_stage := let H := fresh in intros H; repeat (destruct H as [H|H]; [discriminate|]); destruct H.
Lemma ordered_unrun act done s : goes act [K_register; K_receiver_stop] s -> goes act the_order s /\ ordered act done s.
Proof.
  intros H. split; [eapply goes_weaken; [|exact H]; apply sublist_skip, sublist_cons, sublist_cons, sublist_skip, sublist_nil_l|].
  repeat split; (eapply goes_guarded; [exact H|not_a_stage]).
Qed.
Lemma ordered_run act done pre a t : goes act [K_register] pre -> seen registered pre -> goes act [K_activate; K_receiver_stop; K_native_stop; K_worker_stop] t ->
  (value a = 18 \/ goes act [K_receiver_stop] t) -> guarded (is_stage act K_native_stop) (completion done) t -> goes act the_order (pre ++ (Run_engine, a) :: t) /\ ordered act done (pre ++ (Run_engine, a) :: t).
Proof.
  intros Hp Hr Ht Ha Hc. split.
  { apply (goes_app act [K_register]); [exact Hp|]. apply (goes_app act [K_run] _ [_]); [split; [reflexivity|now repeat constructor]|exact Ht]. }
  assert (Hrun : forall k p, k <> K_run -> guarded (is_stage act k) p [(Run_engine, a)]) by (intros k p Hk; apply guarded_none; repeat constructor; intros [= X]; congruence).
  assert (Hlate : forall k, k <> K_register -> k <> K_run -> k <> K_receiver_stop -> guarded (is_stage act k) initialised (pre ++ (Run_engine, a) :: t)).
  { intros k K1 K2 K3. apply guarded_app; [eapply goes_guarded; [exact Hp|]; intros [X|[]]; congruence|]. left. apply (guarded_app _ _ [_]); [now apply Hrun|].
    destruct Ha as [Ha|Ha]; [right; exists (Run_engine, a); split; [now left|exact Ha]|left; eapply goes_guarded; [exact Ha|]; intros [X|[]]; congruence]. }
  split; [|split; [now apply Hlate|split; [now apply Hlate|split; [now apply Hlate|]]]].
  - apply guarded_app; [eapply goes_guarded; [exact Hp|not_a_stage]|]. now right.
  - apply guarded_app; [eapply goes_guarded; [exact Hp|not_a_stage]|]. left. apply (guarded_app _ _ [_]); [now apply Hrun|now left].
Qed.
(** What is known of a session that ended. *)
Definition ended (r : option (Z * session * b41_native_session_result)) : Prop :=
  match r with
  | Some (st, x', result) => st <> 0 /\ (native_stop_status result = 0 -> acknowledged (stop_owner x') (joined_threads result))
  | None => True
  end.
Lemma performs_quiesce_only act fuel x d reason r : rx_fd (receiver x) 1 <> act -> reason <> 0 ->
  performs (quiesce_only fuel x d reason r) (fun r s => goes act [K_receiver_stop] s /\ ended r).
Proof.
  intros Hact Hr. unfold quiesce_only. eapply performs_bind; [now apply (performs_receiver_stop act)|]. intros q s [Hs _]. trace_step. rewrite app_nil_r. split; [exact Hs|].
  destruct q as [[st rx]|]; [|exact I]. split; [unfold or_reason; now rewrite (proj2 (Z.eqb_neq _ _) Hr)|discriminate].
Qed.
Lemma performs_stop_session act fuel image x d reason seen0 activation : rx_fd (receiver x) 1 <> act -> wake_fd (host_worker x) <> act -> exposed (host_worker x) = true ->
  rx_state (receiver x) <> B41_AGPS_RX_QUIESCED -> performs (stop_session fuel image x d reason seen0 activation) (fun r s =>
    goes act [K_receiver_stop; K_native_stop; K_worker_stop] s /\ guarded (is_stage act K_native_stop) (completion (rx_fd (receiver x) 2)) s /\ ended r).
Proof.
  intros H1 H2 H3 H4. unfold stop_session. cbn zeta. eapply performs_bind; [now apply (performs_receiver_stop act)|]. intros q s [Hs Hq].
  assert (Hshort : goes act [K_receiver_stop; K_native_stop; K_worker_stop] s /\ guarded (is_stage act K_native_stop) (completion (rx_fd (receiver x) 2)) s).
  { split; [eapply goes_weaken; [|exact Hs]; apply sublist_skip, sublist_nil_l|]. eapply goes_guarded; [exact Hs|not_a_stage]. }
  destruct q as [[st rx]|]; [|trace_step; rewrite app_nil_r; apply and_assoc; now split]. trace_step.
  { trace_step. rewrite app_nil_r. apply and_assoc. split; [exact Hshort|]. split; [|discriminate]. unfold or_reason. repeat case_match; lia. }
  apply negb_false_iff, bool_decide_eq_true in G. specialize (Hq G H4).
  eapply performs_bind; [apply observes_capture|]. intros k s1 Hs1. cbv beta in Hs1.
  eapply (performs_bind _ _ (fun n s => goes act [K_native_stop] s /\ (n.1.1 = 0 -> acknowledged n.1.2 n.2))).
  { trace_step; [apply performs_stop_call|]. trace_step. split; [now apply goes_observing|]. cbn. lia. }
  intros n s2 [Hs2 Hn]. eapply performs_bind; [now apply (performs_worker_stop act)|]. intros w s3 [Hs3 Hw]. trace_step. rewrite app_nil_r. split; [|split].
  - apply (goes_app act [K_receiver_stop]); [exact Hs|]. apply (goes_app act [] [K_native_stop; K_worker_stop]); [now apply goes_observing|]. now apply (goes_app act [K_native_stop]).
  - apply guarded_app; [apply Hshort|]. now right.
  - destruct w as [[ws w]|]; [|exact I]. split; [|exact Hn]. unfold or_reason. repeat case_match; lia.
Qed.
Lemma performs_session_run fuel image c x d1 d2 : let act := rx_fd (receiver x) 3 in rx_fd (receiver x) 1 <> act -> wake_fd (host_worker x) <> act -> exposed (host_worker x) = true ->
  rx_state (receiver x) = B41_AGPS_RX_PREPARED -> performs (session_run fuel image c x d1 d2) (fun r s => goes act the_order s /\ ordered act (rx_fd (receiver x) 2) s /\ ended r).
Proof.
  cbn zeta. set (act := rx_fd (receiver x) 3). set (done := rx_fd (receiver x) 2). intros H1 H2 H3 H4. unfold session_run. cbn zeta. trace_step.
  assert (Hreg : goes act [K_register] [(Register, p)]) by (split; [reflexivity|now repeat constructor]).
  assert (Hfail : forall obs reason r, Forall (fun e => observing e = true) obs -> reason <> 0 -> performs (quiesce_only fuel x d2 reason r) (fun r s =>
    goes act the_order (((Register, p) :: obs) ++ s) /\ ordered act done (((Register, p) :: obs) ++ s) /\ ended r)).
  { intros obs reason r Ho Hr. eapply performs_impl; [now apply (performs_quiesce_only act)|]. intros r' s [Hs He]. apply and_assoc. split; [|exact He].
    apply ordered_unrun. apply (goes_app act [K_register] [K_receiver_stop]); [|exact Hs]. apply (goes_app act [K_register] [] [_]); [exact Hreg|now apply goes_observing]. }
  trace_step; [now apply (Hfail [])|]. assert (Hseen : seen registered [(Register, p)]) by (exists (Register, p); split; [now left|cbn; lia]).
  eapply performs_bind; [apply observes_worker_admission|]. intros e1 s1 O1. cbv beta in O1. trace_step; [apply Hfail; [exact O1|lia]|].
  eapply performs_bind; [apply observes_observe|]. intros e2 s2 O2. cbv beta in O2.
  trace_step; [eapply performs_impl; [apply (Hfail (s1 ++ s2)); [apply Forall_app; now split|lia]|]; intros r s Hs; cbn [Datatypes.app] in Hs; rewrite <- app_assoc in Hs; exact Hs|].
  trace_step. set (pre := (Register, p) :: s1 ++ s2).
  assert (Hpre : goes act [K_register] pre) by (apply (goes_app act [K_register] [] [_]); [exact Hreg|apply goes_observing, Forall_app; now split]).
  assert (Hps : seen registered pre) by now apply (seen_l _ [_]).
  assert (Hshape : forall t, (Register, p) :: s1 ++ s2 ++ (Run_engine, p0) :: t = pre ++ (Run_engine, p0) :: t) by (intros t; unfold pre; cbn; now rewrite <- app_assoc).
  trace_step.
  { eapply performs_impl; [apply (performs_quiesce_only act); [exact H1|discriminate]|]. intros r s [Hs He]. rewrite Hshape. apply and_assoc. split; [|exact He].
    apply ordered_run; auto; [eapply goes_weaken; [|exact Hs]; apply sublist_cons, sublist_skip, sublist_nil_l|eapply goes_guarded; [exact Hs|not_a_stage]]. }
  eapply performs_bind; [now apply (performs_activation act)|]. intros v s3 (Hv & Hf & Hst). specialize (Hst H4).
  assert (Hfd : forall i, rx_fd v.2 i = rx_fd (receiver x) i) by (intros i; unfold rx_fd; now rewrite Hf).
  assert (Htail : forall obs reason n st, Forall (fun e => observing e = true) obs -> performs (stop_session fuel image (Session_of (host_worker x) (stop_owner x) v.2) d2 reason n st) (fun r s =>
    goes act the_order (pre ++ (Run_engine, p0) :: s3 ++ obs ++ s) /\ ordered act done (pre ++ (Run_engine, p0) :: s3 ++ obs ++ s) /\ ended r)).
  { intros obs reason n st Ho. eapply performs_impl; [apply (performs_stop_session act); cbn [receiver host_worker]; rewrite ?Hfd; auto|]. cbn [receiver]. rewrite Hfd. fold done.
    intros r s (Hs & Hg & He). apply and_assoc. split; [|exact He]. apply ordered_run; auto.
    - apply (goes_app act [K_activate]); [exact Hv|]. apply (goes_app act []); [now apply goes_observing|exact Hs].
    - left. lia.
    - apply guarded_app; [eapply goes_guarded; [exact Hv|not_a_stage]|]. left. apply guarded_app; [|now left]. eapply (goes_guarded act []); [now apply goes_observing|not_a_stage]. }
  trace_step; [eapply performs_impl; [now apply (Htail [])|]; intros r s Hs; rewrite Hshape; exact Hs|].
  eapply performs_bind; [apply observes_watch|]. intros l s4 O4. cbv beta in O4. destruct l as [[reason n]|].
  - eapply performs_impl; [now apply (Htail s4)|]. intros r s Hs. rewrite Hshape. exact Hs.
  - trace_step. rewrite app_nil_r, Hshape. apply and_assoc. split; [|exact I]. apply ordered_run; auto.
    + apply (goes_app act [K_activate]); [exact Hv|now apply goes_observing].
    + left. lia.
    + apply guarded_app; [eapply goes_guarded; [exact Hv|not_a_stage]|]. left. eapply (goes_guarded act []); [now apply goes_observing|not_a_stage].
Qed.

(** C3. A session of the native engine, whatever the kernel and the engine answer and
    wherever it fails: registration, run, activation of the assistance receiver,
    its stop, the stop of the engine and the stop of the output worker happen at
    most once each and in that order, and no descriptor is closed. The engine
    runs only after a registration that succeeded; the receiver is activated and
    the engine or the worker stopped only after a run that answered 18; and the
    engine is stopped only after the receiver's thread has published its
    completion. None of it happens unless the arguments, the receiver, the
    worker and the notice channel were all admitted. A session never reports
    success; a stop that is reported as good is one whose joined threads
    the tables prove. *)
Theorem session_order fuel image a c adapter x d1 d2 result : let act := rx_fd (receiver x) 3 in rx_fd (receiver x) 1 <> act -> wake_fd (host_worker x) <> act ->
  performs (b41_native_session_execute fuel image a c adapter x d1 d2 result) (fun r s =>
    goes act the_order s /\ ordered act (rx_fd (receiver x) 2) s /\ match r with Some (st, _, _) => st <> 0 | None => True end /\
    (stages act s <> [] -> admitted image a c x /\ ended r)).
Proof.
  cbn zeta. intros H1 H2. unfold b41_native_session_execute. set (act := rx_fd (receiver x) 3).
  eapply performs_bind; [apply (performs_and _ _ _ (observes_admission image a c adapter x d1 d2) (performs_session_admission image a c adapter x d1 d2))|]. intros st s [Ho Ha].
  destruct (observing_goes act s Ho) as [E N]. destruct (Z.eqb_spec st 0) as [-> |Hst]; cbn [negb].
  - specialize (Ha eq_refl). pose proof Ha as (_ & A1 & _ & _ & _ & _ & A2 & _). eapply performs_impl; [now apply performs_session_run|]. intros r t (Ht & Hord & He). fold act in Ht, Hord.
    pose proof (goes_observing act [] s Ho) as Hs. split; [now apply (goes_app act [])|]. split; [|split; [|auto]; destruct r as [[[? ?] ?]|]; [apply He|exact I]]. destruct Hord as (G1 & G2 & G3 & G4 & G5).
    repeat split; (apply guarded_app; [eapply (goes_guarded act []); [exact Hs|not_a_stage]|now left]).
  - trace_step. rewrite app_nil_r. destruct (ordered_unrun act (rx_fd (receiver x) 2) s) as [X Y]; [now apply goes_observing|]. split; [exact X|]. split; [exact Y|]. split; [exact Hst|]. rewrite E. contradiction.
Qed.

(** A run to the deadline with one thread of the engine: the image at 4096, descriptors 5 to 8 for the receiver. *)
Definition sample_image : b41_library_association := Association 4096 0 0 B41_LIBRARY_IMAGE_END.
Definition asked (q : call -> bool) (t : os_trace) : bool := existsb (fun e => q e.1) t.
Definition sample_record (m : Z) (h : Z) (i : nat) : list Z := put32 (u32 m) ++ put32 (Z.of_nat i) ++ put64 h ++ put64 (4096 + 0x529f18) ++ put64 (4096 + 0x529418).
Definition sample_table (ran stopped : bool) : list Z :=
  sample_record (if ran && negb stopped then 0 else -1) (if ran then 77 else UINT64_MAX) 0 ++ mjoin (sample_record (-1) UINT64_MAX <$> seq 1 16).
Definition sample_kernel : environment call answer := fun t q =>
  let a v n bytes := Answer v (FileStat 0 0 0 0) bytes n [] in
  match q with
  | Same_thread | Load_bound => a 1 0 []
  | Run_engine => a 18 0 []
  | Write _ _ => a 8 0 []
  | Read _ => a (- EAGAIN) 0 []
  | Clock => a 0 (Z.of_nat (clocks t)) (put64 0)
  | Poll _ _ => if asked (fun q => match q with Store_stop _ => true | _ => false end) t then a 1 1 [] else a 0 0 []
  | Poll_many _ _ => a 0 0 [0; 0; 0]
  | Read_image address size =>
    a 0 0 (if size =? 8 then put64 (4096 + 0x6fa3d8) else if size =? 4 then put32 0 else
           firstn (Z.to_nat size) (sample_table (asked (fun q => match q with Run_engine => true | _ => false end) t) (asked (fun q => match q with Native_stop => true | _ => false end) t)))
  | _ => a 0 0 []
  end.
Definition sample_fd (fd : Z) : Z * file_stat := (fd, FileStat 0 0 0 0).
Definition sample_session : session :=
  Session_of (Worker B41_WORKER_RUNNING true 10 11 [sample_fd 12] None) (Stop_owner B41_NATIVE_STOP_EMPTY (Snapshot 0 0 []) sample_image 0)
    (Receiver true B41_AGPS_RX_PREPARED [sample_fd 5; sample_fd 6; sample_fd 7; sample_fd 8] 1 1 sample_image).
Definition sample_arguments : b41_engine_arguments :=
  Arguments_ Native_notify (repeat Another 9) (repeat 0 14) (repeat 0 128) (repeat 0 16 ++ put32 12 ++ repeat 0 440 ++ use_callback) 0.
Lemma session_order_witness : rx_fd (receiver sample_session) 1 <> 8 /\ wake_fd (host_worker sample_session) <> 8 /\
  exists r s, b41_native_session_execute 9 sample_image sample_arguments (Control 9 1) true sample_session (Time 3 0) (Time 99 0) no_result sample_kernel [] = (Some r, s) /\
    stages 8 s = the_order /\ r.1.1 = - EBUSY /\ joined_threads r.2 = 1 /\ ordered 8 7 s /\ admitted sample_image sample_arguments (Control 9 1) sample_session.
Proof.
  split; [discriminate|]. split; [discriminate|].
  destruct (session_order 9 sample_image sample_arguments (Control 9 1) true sample_session (Time 3 0) (Time 99 0) no_result
    ltac:(discriminate) ltac:(discriminate) sample_kernel []) as (r & s & E & _ & O & _ & A). cbn [Datatypes.app] in E.
  assert (V : stages 8 s = the_order /\ match r with Some r => r.1.1 = - EBUSY /\ joined_threads r.2 = 1 | None => False end).
  { change (stages 8 (r, s).2 = the_order /\ match (r, s).1 with Some r => r.1.1 = - EBUSY /\ joined_threads r.2 = 1 | None => False end). rewrite <- E. vm_compute. now repeat split. }
  destruct V as [V1 V2]. destruct r as [r|]; [|destruct V2]. destruct V2 as [V2 V3]. exists r, s. repeat (split; [assumption|]). apply A. change (stages 8 s <> []). rewrite V1. discriminate.
Defined.

(** ** Notices between threads

    Callbacks run in threads of the engine while the controller takes notices:
    [native_notify] adds its notice to the pending word and then writes the
    eventfd, [b41_native_control_take] reads the eventfd and then takes the
    word. Each of the four is atomic; they interleave freely. *)

Record channel := Channel {
  pending : Z; wakes : Z; at_write : list Z; taking : bool; failed_wake : bool; posted : Z; taken_notices : Z }.
Definition quiet_channel : channel := Channel 0 0 [] false false 0 0.
Inductive channel_step : channel -> channel -> Prop :=
| N_or ch event notice : native_notice event = Some notice ->
    channel_step ch (Channel (Z.lor (pending ch) notice) (wakes ch) (notice :: at_write ch) (taking ch) (failed_wake ch) (Z.lor (posted ch) notice) (taken_notices ch))
| N_write ch l1 notice l2 : at_write ch = l1 ++ notice :: l2 ->
    channel_step ch (Channel (pending ch) (wakes ch + 1) (l1 ++ l2) (taking ch) (failed_wake ch) (posted ch) (taken_notices ch))
| N_write_fails ch l1 notice l2 : at_write ch = l1 ++ notice :: l2 ->
    channel_step ch (Channel (pending ch) (wakes ch) (l1 ++ l2) (taking ch) true (posted ch) (taken_notices ch))
| T_read ch : taking ch = false -> channel_step ch (Channel (pending ch) 0 (at_write ch) true (failed_wake ch) (posted ch) (taken_notices ch))
| T_take ch : taking ch = true ->
    channel_step ch (Channel 0 (wakes ch) (at_write ch) false (failed_wake ch) (posted ch) (Z.lor (taken_notices ch) (pending ch))).
Definition channel_ok (ch : channel) : Prop :=
  0 <= wakes ch /\ Z.lor (pending ch) (taken_notices ch) = posted ch /\
  (pending ch <> 0 -> 0 < wakes ch \/ at_write ch <> [] \/ taking ch = true \/ failed_wake ch = true).
Lemma channel_step_ok ch ch' : channel_step ch ch' -> channel_ok ch -> channel_ok ch'.
Proof.
  intros H (W & P & L). destruct H as [ch event notice E|ch l1 n l2 E|ch l1 n l2 E|ch E|ch E]; unfold channel_ok; cbn [pending wakes at_write taking failed_wake posted taken_notices] in *.
  - split; [exact W|]. split; [rewrite <- P, <- !Z.lor_assoc; f_equal; apply Z.lor_comm|]. intros _. right. now left.
  - split; [lia|]. split; [exact P|]. left. lia.
  - split; [exact W|]. split; [exact P|]. intros _. now right; right; right.
  - split; [lia|]. split; [exact P|]. intros _. now right; right; left.
  - split; [exact W|]. split; [rewrite <- P, Z.lor_0_l; apply Z.lor_comm|]. contradiction.
Qed.
(** No notice of the engine is lost and no wake-up is missed, over every
    interleaving of callbacks and the controller: every notice that was posted is
    either pending or was taken, and while one is pending the controller's
    eventfd is readable, or a callback is about to write it, or the controller is
    about to take the word, or the failure of a write was latched. *)
Theorem notices_not_lost ch : rtc channel_step quiet_channel ch ->
  Z.lor (pending ch) (taken_notices ch) = posted ch /\
  (pending ch <> 0 -> 0 < wakes ch \/ at_write ch <> [] \/ taking ch = true \/ failed_wake ch = true).
Proof.
  intros H. assert (channel_ok ch) as (_ & P & L); [|now split].
  revert H. apply (rtc_ind_r (channel_ok)); [split; [cbn; lia|split; [reflexivity|contradiction]]|]. intros y z _ Hs Hy. now apply (channel_step_ok y z).
Qed.
Lemma notices_not_lost_witness : exists ch, rtc channel_step quiet_channel ch /\ pending ch = B41_NATIVE_RESTART /\ taken_notices ch = B41_NATIVE_REPORT /\ 0 < wakes ch /\
  Z.lor (pending ch) (taken_notices ch) = posted ch.
Proof.
  assert (H : rtc channel_step quiet_channel (Channel 4 2 [] false false 5 1)).
  { eapply rtc_l; [apply (N_or _ 0 1); reflexivity|]. eapply rtc_l; [apply (T_read); reflexivity|]. eapply rtc_l; [apply T_take; reflexivity|].
    eapply rtc_l; [apply (N_or _ 13 4); reflexivity|]. eapply rtc_l; [apply (N_write _ [] 4 [1]); reflexivity|].
    eapply rtc_l; [apply (N_write _ [] 1 []); reflexivity|]. apply rtc_refl. }
  exists (Channel 4 2 [] false false 5 1). split; [exact H|]. repeat (split; [reflexivity|]). apply (notices_not_lost _ H).
Defined.
