(* ===== verification/HostConfig.v ===== *)
(** * The configuration blocks of the GNSS engine

    The producers of the two blocks the engine is started with
    ([b41_first_config.c], [b41_first_queries.c], [b41_second_config.c],
    [b41_receiver_policy.c], [b41_receiver_inputs.c], [b41_runtime_config.c]), the
    bundle that joins them ([b41_startup_bundle.c]) and the arguments built
    from it ([b41_engine_arguments.c]). Each byte of a block carries where its
    value comes from; 0 is unknown. The answer of the XML reader, which runs on
    libxml and OpenSSL, is an argument. *)

From stdpp Require Import strings.
From S2P Require Import Prelude Trace HostQueue HostText AgpsHost HostWorker AgpsReceiver NativeHost.
Open Scope Z_scope.

(** ** Blocks *)

Record block := Block { bytes : list Z; provenance : list Z }.
Definition zero_block (size : Z) : block := Block (zeros size) (zeros size).
Definition mark (b : block) (offset count source : Z) : block :=
  Block (bytes b) (write_at (provenance b) offset (repeat source (Z.to_nat count))).
Definition put (b : block) (offset : Z) (bs : list Z) (source : Z) : block :=
  mark (Block (write_at (bytes b) offset bs) (provenance b)) offset (len bs) source.
(** [width] bytes of a value, the lowest first. *)
Definition word (b : block) (offset value width source : Z) : block := put b offset (le_to (Z.to_nat width) value) source.
Definition unresolved (b : block) : Z := len (List.filter (fun p => p =? 0) (provenance b)).
Definition has (present flag : Z) : bool := negb (Z.land present flag =? 0).

(** ** The first block *)

Definition B41_FIRST_SIZE : Z := 0x70.
Definition B41_FIRST_PLATFORM_PROFILE : Z := 1.
Definition B41_FIRST_CLOCK_QUERY : Z := 2.
Definition B41_FIRST_LNA_QUERY : Z := 4.
Definition B41_FIRST_MODEM_QUERY : Z := 8.
Definition B41_FIRST_CALIBRATION : Z := 16.
Definition B41_FIRST_TRANSPORT : Z := 32.
Definition B41_FIRST_XML_ASSET : Z := 64.
Definition first_all : Z := 127.
Definition B41_FIRST_CONSTANT : Z := 1.
Definition B41_FIRST_DEFAULT_PROFILE : Z := 2.
Definition B41_FIRST_CLOCK_RESULT : Z := 3.
Definition B41_FIRST_LNA_RESULT : Z := 4.
Definition B41_FIRST_MODEM_RESULT : Z := 5.
Definition B41_FIRST_CLOCK_CALIBRATION : Z := 6.
Definition B41_FIRST_TRANSPORT_MODE : Z := 7.

Record b41_first_inputs := First_inputs {
  fi_present : Z; default_platform_profile : Z; clock_ioctl_result : Z; lna_ioctl_result : Z; fi_lna_pin : Z; modem_ioctl_result : Z; fi_modem_status : Z;
  clock_calibration : option (list Z); clock_calibration_size : Z; transport : Z; fi_primary_fd : Z; xml_asset : Z; xml_bytes : bool; xml_size : Z }.
Record b41_first_config := First_config { first_block : block; first_missing : Z; first_unresolved : Z; xml_policy_missing : Z }.

Definition clock_selector (flag : Z) : Z := if bool_decide (Z.land flag 255 ∈ [0; 2; 3; 16; 32; 48; 64]) then 255 else 254.
Definition first_refused (i : b41_first_inputs) : Z :=
  let present := fi_present i in
  if negb (Z.ldiff present first_all =? 0) then - EINVAL else
  if has present B41_FIRST_PLATFORM_PROFILE && negb (default_platform_profile i =? 1) then - EOPNOTSUPP else
  if has present B41_FIRST_CLOCK_QUERY && (clock_ioctl_result i <? 0) then - EIO else
  if has present B41_FIRST_LNA_QUERY && (lna_ioctl_result i <? 0) then - EIO else
  if has present B41_FIRST_LNA_QUERY && negb (lna_ioctl_result i =? 0) then - EPROTO else
  if has present B41_FIRST_MODEM_QUERY && (modem_ioctl_result i <? 0) then - EIO else
  if has present B41_FIRST_MODEM_QUERY && negb (modem_ioctl_result i =? 0) then - EPROTO else
  if has present B41_FIRST_CALIBRATION && (negb (bool_decide (is_Some (clock_calibration i))) || negb (clock_calibration_size i =? 16)) then - EMSGSIZE else
  if has present B41_FIRST_TRANSPORT && ((fi_primary_fd i <? 0) || (negb (transport i =? 0) && negb (transport i =? 1))) then - EINVAL else
  if has present B41_FIRST_XML_ASSET && (negb (xml_bytes i) || (xml_size i =? 0) || (negb (xml_asset i =? 0) && negb (xml_asset i =? 1))) then - EINVAL else 0.
Definition when (c : bool) (f : block -> block) (b : block) : block := if c then f b else b.
(** The constant bytes. *)
Definition first_constants (b : block) : block :=
  let c := B41_FIRST_CONSTANT in
  let b := word b 0 1 4 c in
  let b := mark b 4 12 c in
  let b := word b 0x10 100 2 c in
  let b := mark b 0x12 1 c in
  let b := mark b 0x16 2 c in
  let b := word b 0x1c 115200 4 c in
  let b := mark b 0x25 3 c in
  let b := mark b 0x4c 4 c in
  let b := mark b 0x51 3 c in
  let b := mark b 0x5c 8 c in
  mark b 0x6d 3 c.
(** The groups that were given. *)
Definition first_groups (i : b41_first_inputs) (b : block) : block :=
  let given := has (fi_present i) in
  let b := when (given B41_FIRST_PLATFORM_PROFILE) (fun b =>
    mark (word (word b 0x14 2000 2 B41_FIRST_DEFAULT_PROFILE) 0x18 26000000 4 B41_FIRST_DEFAULT_PROFILE) 0x24 1 B41_FIRST_DEFAULT_PROFILE) b in
  let b := when (given B41_FIRST_CLOCK_QUERY) (fun b =>
    let b := word b 0x13 (clock_selector (clock_ioctl_result i)) 1 B41_FIRST_CLOCK_RESULT in
    when (Z.land (clock_ioctl_result i) 255 =? 81) (fun b => word b 0x18 52000000 4 B41_FIRST_CLOCK_RESULT) b) b in
  let b := when (given B41_FIRST_LNA_QUERY) (fun b => word b 0x54 (fi_lna_pin i) 4 B41_FIRST_LNA_RESULT) b in
  let b := when (given B41_FIRST_MODEM_QUERY) (fun b => word b 0x64 (fi_modem_status i) 4 B41_FIRST_MODEM_RESULT) b in
  let b := when (given B41_FIRST_CALIBRATION && given B41_FIRST_PLATFORM_PROFILE) (fun b =>
    put b 0x3c (firstn 16 (default [] (clock_calibration i))) B41_FIRST_CLOCK_CALIBRATION) b in
  when (given B41_FIRST_TRANSPORT) (fun b => word b 0x68 (transport i) 4 B41_FIRST_TRANSPORT_MODE) b.
Definition b41_first_config_build (i : b41_first_inputs) : Z + b41_first_config :=
  if negb (first_refused i =? 0) then inl (first_refused i) else
  let b := first_groups i (first_constants (zero_block B41_FIRST_SIZE)) in
  inr (First_config b (Z.ldiff first_all (fi_present i)) (unresolved b) 1).

(** Four queries of the driver, in order, until one fails. *)
Record b41_first_queries := Queries {
  q_present : Z; clock_flag : Z; platform_clock_selector : Z; platform_clock_valid : Z; q_lna_pin : Z; q_modem_status : Z; failed_command : Z; q_error : Z }.
Definition query_commands : list Z := [11; 30; 16; 21].
(** [query]: the driver's answer and the word it stores. *)
Fixpoint collect (query : Z -> Z * Z) (commands : list Z) (r : b41_first_queries) : Z * b41_first_queries :=
  match commands with
  | [] => (0, r)
  | command :: commands =>
    let '(status, stored) := query command in
    let scalar := if (command =? 16) || (command =? 21) then u32 stored else 0 in
    let status := if (0 <=? status) && (((command =? 30) && (1 <? status)) || (((command =? 16) || (command =? 21)) && negb (status =? 0))) then - EPROTO else status in
    if status <? 0 then (status, Queries (q_present r) (clock_flag r) (platform_clock_selector r) (platform_clock_valid r) (q_lna_pin r) (q_modem_status r) command status)
    else collect query commands
      (if command =? 11 then Queries (Z.lor (q_present r) B41_FIRST_CLOCK_QUERY) status (platform_clock_selector r) (platform_clock_valid r) (q_lna_pin r) (q_modem_status r) (failed_command r) (q_error r)
       else if command =? 30 then Queries (q_present r) (clock_flag r) status 1 (q_lna_pin r) (q_modem_status r) (failed_command r) (q_error r)
       else if command =? 16 then Queries (Z.lor (q_present r) B41_FIRST_LNA_QUERY) (clock_flag r) (platform_clock_selector r) (platform_clock_valid r) scalar (q_modem_status r) (failed_command r) (q_error r)
       else Queries (Z.lor (q_present r) B41_FIRST_MODEM_QUERY) (clock_flag r) (platform_clock_selector r) (platform_clock_valid r) (q_lna_pin r) scalar (failed_command r) (q_error r))
  end.
Definition no_queries : b41_first_queries := Queries 0 0 0 0 0 0 0 0.
Definition b41_first_queries_collect (fd : Z) (query : Z -> Z * Z) : Z * option b41_first_queries :=
  if fd <? 0 then (- EINVAL, None) else let '(st, r) := collect query query_commands no_queries in (st, Some r).
Definition required_queries : Z := 14.
Definition b41_first_config_from_queries (semantic : b41_first_inputs) (q : b41_first_queries) : Z + b41_first_config :=
  if negb (q_error q =? 0) then inl (if q_error q <? 0 then q_error q else - EPROTO) else
  if negb (failed_command q =? 0) || negb (q_present q =? required_queries) || (platform_clock_valid q =? 0) || (clock_flag q <? 0)
     || (platform_clock_selector q <? 0) || (1 <? platform_clock_selector q) then inl (- EPROTO) else
  if has (fi_present semantic) required_queries then inl (- EINVAL) else
  b41_first_config_build (First_inputs (Z.lor (fi_present semantic) required_queries) (default_platform_profile semantic) (clock_flag q) 0 (q_lna_pin q) 0 (q_modem_status q)
    (clock_calibration semantic) (clock_calibration_size semantic) (transport semantic) (fi_primary_fd semantic) (xml_asset semantic) (xml_bytes semantic) (xml_size semantic)).

(** ** The second block *)

Definition B41_SECOND_BUILD_POLICY : Z := 1.
Definition B41_SECOND_RECEIVER_FDS : Z := 2.
Definition B41_SECOND_MPE_STATE_COPY : Z := 4.
Definition second_all : Z := 7.
Definition B41_SECOND_LITERAL : Z := 1.
Definition B41_SECOND_BUILD_RESULT : Z := 2.
Definition B41_SECOND_PATH_INPUT : Z := 3.
Definition B41_SECOND_RECEIVER_FD : Z := 4.
Definition B41_SECOND_INACTIVE_SECONDARY : Z := 5.
Definition B41_SECOND_MPE_INPUT_COPY : Z := 6.
Definition B41_RUNTIME_PROVENANCE : Z := 0x90.
Record b41_second_inputs := Second_inputs {
  si_present : Z; build_type : option (list Z); debuggable : option (list Z); si_primary_fd : Z; si_secondary_fd : Z; secondary_enabled : Z;
  mpe_state : option (list Z); mpe_state_size : Z; mpe_requested : Z; mpe_backend_result : Z; paths : list (option (list Z)) }.
Record b41_second_config := Second_config {
  second_block : block; second_missing : Z; second_unresolved : Z; receiver_owner_missing : Z; stop_contract_missing : Z; mpe_schema_missing : Z }.

(** The resolved bytes of a fragment, from left to right. *)
Fixpoint adopt_loop (source : Z) (resolved values : list Z) (b p : list Z) : list Z * list Z :=
  match resolved, values, b, p with
  | r :: resolved, v :: values, x :: b, y :: p =>
    let '(b, p) := adopt_loop source resolved values b p in if r =? 0 then (x :: b, y :: p) else (v :: b, source :: p)
  | _, _, _, _ => (b, p)
  end.
Definition adopt (b : block) (fragment : b41_startup_config) (source : Z) : block :=
  let '(x, y) := adopt_loop source (resolved_second fragment) (second fragment) (bytes b) (provenance b) in Block x y.
Definition second_path_offsets : list Z := [0xd4; 0xf2; 0x110; 0x190; 0x1ae; 0x1ea; 0x208; 0x226; 0x256; 0x286; 0x2b6; 0x2e6; 0x316; 0x346; 0x376; 0x3a6; 0x3d6; 0x406; 0x424].
(** A setter on a cleared configuration. *)
Definition fragment_of (s : setter) : Z + b41_startup_config :=
  match apply_setter (Some b41_startup_config_init) s with
  | (0, Some c) => inr c
  | (e, _) => inl e
  end.
Fixpoint adopt_paths (l : list (Z * option (list Z))) (b : block) : Z + block :=
  match l with
  | [] => inr b
  | (_, None) :: l => adopt_paths l b
  | (offset, Some p) :: l =>
    match fragment_of (Set_path offset (Some p)) with
    | inl e => inl e
    | inr c => adopt_paths l (adopt b c B41_SECOND_PATH_INPUT)
    end
  end.
Definition second_refused (i : b41_second_inputs) : Z :=
  if negb (Z.ldiff (si_present i) second_all =? 0) then - EINVAL else
  if has (si_present i) B41_SECOND_RECEIVER_FDS && ((si_primary_fd i <? 0) || (1 <? secondary_enabled i)
     || (negb (secondary_enabled i =? 0) && ((si_secondary_fd i <? 0) || (si_primary_fd i =? si_secondary_fd i)))) then - EINVAL else
  if has (si_present i) B41_SECOND_MPE_STATE_COPY && (negb (bool_decide (is_Some (mpe_state i))) || negb (mpe_state_size i =? 68) || (1 <? mpe_requested i)) then - EINVAL else 0.
(** Identity and callback output on one fragment. *)
Definition literal_fragment : b41_startup_config :=
  match apply_setter (b41_startup_set_b41_identity (Some b41_startup_config_init)).2 Set_output with (_, Some c) => c | _ => b41_startup_config_init end.
Definition second_fds (i : b41_second_inputs) (b : block) : block :=
  let enabled := negb (secondary_enabled i =? 0) in
  let b := word b 0x10 (u32 (si_primary_fd i)) 4 B41_SECOND_RECEIVER_FD in
  word b 0x14 (if enabled then u32 (si_secondary_fd i) else 0) 4 (if enabled then B41_SECOND_RECEIVER_FD else B41_SECOND_INACTIVE_SECONDARY).
Definition second_mpe (i : b41_second_inputs) (b : block) : block :=
  let b := put b 0x6c [u8 (Z.land (mpe_requested i) (mpe_backend_result i))] B41_SECOND_MPE_INPUT_COPY in
  put b 0x70 (firstn 68 (default [] (mpe_state i))) B41_SECOND_MPE_INPUT_COPY.
Definition b41_second_config_build (i : b41_second_inputs) : Z + b41_second_config :=
  if negb (second_refused i =? 0) then inl (second_refused i) else
  let b := adopt (zero_block B41_SECOND_CONFIG_SIZE) literal_fragment B41_SECOND_LITERAL in
  let policy := if has (si_present i) B41_SECOND_BUILD_POLICY then
      match fragment_of (Set_policy (build_type i) (debuggable i)) with inl e => inl e | inr c => inr (adopt b c B41_SECOND_BUILD_RESULT) end
    else inr b in
  match policy with
  | inl e => inl e
  | inr b =>
    let b := when (has (si_present i) B41_SECOND_RECEIVER_FDS) (second_fds i) b in
    let b := when (has (si_present i) B41_SECOND_MPE_STATE_COPY) (second_mpe i) b in
    match adopt_paths (zip second_path_offsets (paths i)) b with
    | inl e => inl e
    | inr b => inr (Second_config b (Z.ldiff second_all (si_present i)) (unresolved b) 1 1 1)
    end
  end.

(** ** Policies on the second block *)

Definition B41_RECEIVER_PROPERTY_MAX : Z := 92.
(** Two buffers, as the property service left them, with the lengths it said. *)
Record b41_receiver_property_owner := Properties { pr_entered : Z; collected : Z; pr_error : Z; pr_build : list Z; pr_debuggable : list Z; lengths : Z * Z }.
Record b41_receiver_log_sources := Log_sources { log_flags_88e40 : Z; secondary_policy_de3c0 : Z; ap_config_init_884c4 : Z }.
Definition valid_property (value : list Z) (length : Z) : bool :=
  negb (length =? 0) && (length <? B41_RECEIVER_PROPERTY_MAX) && (byte_at value length =? 0) && negb (bool_decide (0 ∈ firstn (Z.to_nat length) value)).
(** One answer of the property service: the status and the buffer. *)
Definition property_status (answer : Z * list Z) : Z :=
  let '(status, value) := answer in
  if status <? 0 then status else if status =? 0 then - ENODATA else
  if B41_RECEIVER_PROPERTY_MAX <=? status then - EOVERFLOW else if valid_property value status then status else - EBADMSG.
(** [read]: the answers for the two keys. *)
Definition b41_receiver_properties_collect (o : b41_receiver_property_owner) (read : (Z * list Z) * (Z * list Z)) : Z * b41_receiver_property_owner :=
  if negb (pr_entered o =? 0) then (if pr_error o =? 0 then - EALREADY else pr_error o, o) else
  let s0 := property_status read.1 in
  if s0 <? 0 then (s0, Properties 1 (collected o) s0 read.1.2 (pr_debuggable o) (lengths o)) else
  let s1 := property_status read.2 in
  if s1 <? 0 then (s1, Properties 1 (collected o + 1) s1 read.1.2 read.2.2 (s0, (lengths o).2)) else
  (0, Properties 1 (collected o + 2) (pr_error o) read.1.2 read.2.2 (s0, s1)).
(** The text of a buffer up to its terminator. *)
Definition c_text (value : list Z) : list Z := match until 0 value with Some (t, _) => t | None => value end.
Definition with_second (c : b41_second_config) (b : block) : b41_second_config :=
  Second_config b (Z.ldiff (second_missing c) B41_SECOND_BUILD_POLICY) (unresolved b) (receiver_owner_missing c) (stop_contract_missing c) (mpe_schema_missing c).
(** Byte 4 and the build word of a fragment. *)
Definition put_policy (b : block) (flags : Z) (fragment : b41_startup_config) : block :=
  put (put b 4 [flags] B41_RUNTIME_PROVENANCE) 0xc8 (slice (second fragment) 0xc8 4) B41_SECOND_BUILD_RESULT.
Definition b41_receiver_policy_apply (base : b41_second_config) (p : b41_receiver_property_owner) (s : b41_receiver_log_sources) : Z + b41_second_config :=
  if negb (pr_error p =? 0) then inl (if pr_error p <? 0 then pr_error p else - EPROTO) else
  if negb (pr_entered p =? 1) || negb (collected p =? 2) || negb (valid_property (pr_build p) (lengths p).1) || negb (valid_property (pr_debuggable p) (lengths p).2) then inl (- ENODATA) else
  match fragment_of (Set_policy (Some (c_text (pr_build p))) (Some (c_text (pr_debuggable p)))) with
  | inl e => inl e
  | inr fragment =>
    let b := second_block base in
    let flags := if (secondary_policy_de3c0 s =? 0) && (ap_config_init_884c4 s =? 1) then Z.land (log_flags_88e40 s) 0xfe else log_flags_88e40 s in
    if negb (byte_at (provenance b) 4 =? 0) && negb (byte_at (bytes b) 4 =? flags) then inl (- ESTALE) else
    if existsb (fun i => negb (byte_at (provenance b) i =? 0) && negb (byte_at (bytes b) i =? byte_at (second fragment) i)) [0xc8; 0xc9; 0xca; 0xcb] then inl (- ESTALE) else
    inr (with_second base (put_policy b flags fragment))
  end.
(** The native mode: a quiet NMEA receiver. *)
Definition first_transport_status (f : b41_first_config) : Z :=
  (fix go (l : list Z) : Z :=
     match l with
     | [] => 0
     | i :: l => if negb (byte_at (provenance (first_block f)) i =? B41_FIRST_TRANSPORT_MODE) then - ENODATA else
                 if negb (byte_at (bytes (first_block f)) i =? 0) then - EOPNOTSUPP else go l
     end) [0x68; 0x69; 0x6a; 0x6b].
Definition b41_receiver_inputs_build (mode : Z) (f : b41_first_config) (base : b41_second_config) : Z + (b41_receiver_log_sources * b41_second_config) :=
  let b := second_block base in
  if negb (mode =? 1) then inl (- EOPNOTSUPP) else
  if has (first_missing f) B41_FIRST_TRANSPORT then inl (- ENODATA) else
  if has (second_missing base) B41_SECOND_RECEIVER_FDS then inl (- ENODATA) else
  if negb (first_transport_status f =? 0) then inl (first_transport_status f) else
  if negb (forallb (fun p => p =? B41_SECOND_RECEIVER_FD) (slice (provenance b) 0x10 4)) then inl (- ENODATA) else
  if INT_MAX <? le32 (bytes b) 0x10 then inl (- EBADF) else
  if existsb (fun p => p =? 0) (slice (provenance b) 0x1cc 30) then inl (- ENODATA) else
  if negb (bool_decide (slice (bytes b) 0x1cc 12 = use_callback)) then inl (- EOPNOTSUPP) else
  match fragment_of (Set_policy (Some (chars "user")) (Some (chars "0"))) with
  | inl e => inl e
  | inr fragment => inr (Log_sources 0x10 0 0, with_second base (put_policy b 0x10 fragment))
  end.

(** ** The runtime bytes of the first block *)

Definition B41_RUNTIME_ALL : Z := 63.
Record b41_runtime_sources := Runtime_sources {
  rs_present : Z; host_mode_88794 : Z; chip_id_de304 : Z; capabilities_de308 : Z; receiver_mode_88c1c : Z; secondary_de2fe : Z;
  nav_base_88c20 : Z; nav_override_88e10 : Z; nav_override_88e14 : Z; tracking_de9d8 : Z; mpe_requested_de228 : Z; mpe_probe_4eee0 : Z; mpe_flag_88c4c : Z;
  feature_present_ddd84 : Z; feature_88c80 : Z }.
Record b41_runtime_config := Runtime_config { rt_first : b41_first_config; xml_get_verified : Z; engine_contract_missing : Z }.
Definition mode_flags (mode : Z) : Z := if mode =? 1 then 0x80000000 else if mode =? 2 then 0x40000000 else if mode =? 3 then 0xc0000000 else 0.
Definition nav_word (s : b41_runtime_sources) : Z :=
  let nav := if nav_override_88e10 s =? UINT32_MAX then nav_base_88c20 s else nav_override_88e10 s in
  if nav_override_88e14 s =? UINT32_MAX then nav else nav_override_88e14 s.
Definition mpe_byte (s : b41_runtime_sources) : Z :=
  if (Z.land (mpe_requested_de228 s) 5 =? 0) && (Z.land (mpe_requested_de228 s) 8 =? 0) && negb (host_mode_88794 s =? 0) && negb (Z.land (mpe_probe_4eee0 s) 1 =? 0)
  then mpe_flag_88c4c s else 0.
Definition runtime_bytes (s : b41_runtime_sources) (b : block) : block :=
  let put_ b offset value width := word b offset value width B41_RUNTIME_PROVENANCE in
  let second v := if secondary_de2fe s =? 0 then 0 else v in
  let b := put_ b 0x20 (if host_mode_88794 s =? 0 then 200 else 1000) 4 in
  let b := put_ b 0x28 (Z.lor (capabilities_de308 s) (mode_flags (receiver_mode_88c1c s))) 4 in
  let b := put_ b 0x2c (second (capabilities_de308 s)) 4 in
  let b := put_ b 0x30 (chip_id_de304 s) 4 in
  let b := put_ b 0x34 (second (chip_id_de304 s)) 4 in
  let b := put_ b 0x38 (nav_word s) 4 in
  let b := put_ b 0x50 (if 1 <? tracking_de9d8 s then 0 else tracking_de9d8 s) 1 in
  let b := put_ b 0x5b (mpe_byte s) 1 in
  put_ b 0x6c (if feature_present_ddd84 s =? 0 then 0 else feature_88c80 s) 1.
(** [priority]: what the XML reader answers for the feature BD_PRIORITY. *)
Definition b41_runtime_config_apply (base : b41_first_config) (s : b41_runtime_sources) (priority : Z) : Z + b41_runtime_config :=
  if negb (Z.ldiff (rs_present s) B41_RUNTIME_ALL =? 0) then inl (- EINVAL) else
  if negb (rs_present s =? B41_RUNTIME_ALL) then inl (- ENODATA) else
  if negb (priority =? - ENOENT) then inl (if priority <? 0 then priority else - EPROTO) else
  let b := runtime_bytes s (first_block base) in
  inr (Runtime_config (First_config b (first_missing base) (unresolved b) (xml_policy_missing base)) 1 1).

(** ** The bundle and the arguments *)

Definition B41_MISSING_FIRST_CONFIG : Z := 1.
Definition B41_MISSING_SECOND_POLICY : Z := 2.
Definition B41_MISSING_TRANSPORT_OWNER : Z := 8.
Definition B41_MISSING_AGPS_RECEIVER : Z := 16.
Definition B41_MISSING_STOP_CONTRACT : Z := 32.
Definition B41_MISSING_HOST_SERVICES : Z := 64.
Record b41_second_runtime_sources := Second_runtime {
  sr_present : Z; global_88a5c : Z; bits_88c58 : Z; bits_88c68 : Z; buffer_base_de21c : Z; global_88c18 : Z; table_9a4eb : Z }.
Definition B41_SECOND_RUNTIME_ALL : Z := 7.
Record b41_startup_bundle := Bundle { runtime : b41_runtime_config; bundle_second : b41_second_config; abi : b41_startup_config; bundle_missing : Z }.
Definition second_runtime_bytes (s : b41_second_runtime_sources) (b : block) : block :=
  let put_ b offset value width := word b offset value width B41_RUNTIME_PROVENANCE in
  let b := put_ b 0x24 (global_88a5c s) 4 in
  let b := put_ b 0xb4 (bits_88c58 s) 4 in
  let b := put_ b 0xb8 (bits_88c68 s) 8 in
  let b := put_ b 0x64 (buffer_base_de21c s) 4 in
  let b := put_ b 0x68 (u32 (buffer_base_de21c s + 0x50000)) 4 in
  let b := put_ b 0x0c (global_88c18 s) 1 in
  put_ b 0xc4 (table_9a4eb s) 1.
(** The binary configuration only marks whether a byte is known. *)
Definition resolved_mark (p : Z) : Z := if p =? 0 then 0 else 1.
Definition first_incomplete (f : b41_first_config) : bool := negb (first_unresolved f =? 0) || negb (first_missing f =? 0) || negb (xml_policy_missing f =? 0).
Definition all_gates : Z :=
  Z.lor (Z.lor (Z.lor (Z.lor B41_MISSING_SECOND_POLICY B41_MISSING_TRANSPORT_OWNER) B41_MISSING_AGPS_RECEIVER) B41_MISSING_STOP_CONTRACT) B41_MISSING_HOST_SERVICES.
Definition b41_startup_bundle_build (f : b41_first_config) (rs : b41_runtime_sources) (c : b41_second_config) (s : b41_second_runtime_sources) (priority : Z) : Z + b41_startup_bundle :=
  if negb (Z.ldiff (sr_present s) B41_SECOND_RUNTIME_ALL =? 0) then inl (- EINVAL) else
  if negb (sr_present s =? B41_SECOND_RUNTIME_ALL) then inl (- ENODATA) else
  match b41_runtime_config_apply f rs priority with
  | inl e => inl e
  | inr r =>
    let b := second_runtime_bytes s (second_block c) in
    let c := Second_config b (second_missing c) (unresolved b) (receiver_owner_missing c) (stop_contract_missing c) (mpe_schema_missing c) in
    let abi := Config (bytes (first_block (rt_first r))) (bytes b) (resolved_mark <$> provenance b) in
    inr (Bundle r c abi (if first_incomplete (rt_first r) then Z.lor all_gates B41_MISSING_FIRST_CONFIG else all_gates))
  end.

(** [output] is the one callback that may be absent. *)
Record b41_known_callbacks := Callbacks { cb_notify : pointer; cb_output : pointer; cb_required : list pointer }.
(** Slot order of [cb_required]: app_output, frame_sleep, frame_network, frame_measurement, agps, passthrough, encode, decode. *)
Definition b41_engine_callback_table_build (c : b41_known_callbacks) : Z + (pointer * list pointer) :=
  if bool_decide (cb_notify c = Null) || bool_decide (Null ∈ cb_required c) then inl (- ENODATA) else inr (cb_notify c, cb_output c :: cb_required c).
Definition b41_engine_arguments_build (b : b41_startup_bundle) (c : b41_known_callbacks) : Z + b41_engine_arguments :=
  match b41_engine_callback_table_build c with
  | inl e => inl e
  | inr (notify, table) =>
    let missing := Z.lor (bundle_missing b) all_gates in
    inr (Arguments_ notify table (repeat 0 14) (bytes (first_block (rt_first (runtime b)))) (bytes (second_block (bundle_second b)))
      (if first_incomplete (rt_first (runtime b)) then Z.lor missing B41_MISSING_FIRST_CONFIG else missing))
  end.
(** What the configuration itself leaves open. *)
Definition b41_native_arguments_config_missing (b : b41_startup_bundle) : Z :=
  let f := rt_first (runtime b) in
  let own := Z.lor (Z.lor B41_MISSING_HOST_SERVICES B41_MISSING_TRANSPORT_OWNER) B41_MISSING_STOP_CONTRACT in
  let missing := Z.lor (Z.ldiff (bundle_missing b) own) (Z.lor B41_MISSING_SECOND_POLICY B41_MISSING_AGPS_RECEIVER) in
  if first_incomplete f || existsb (fun p => p =? 0) (provenance (first_block f)) then Z.lor missing B41_MISSING_FIRST_CONFIG else missing.

(** ** What the producers promise *)

(** Sizes and bytes, and a byte of unknown origin is still zero. *)
Definition block_ok (n : Z) (b : block) : Prop :=
  len (bytes b) = n /\ len (provenance b) = n /\ bytes_ok (bytes b) /\ bytes_ok (provenance b) /\ forall i, 0 <= i -> byte_at (provenance b) i = 0 -> byte_at (bytes b) i = 0.
Lemma zero_block_ok n : 0 <= n -> block_ok n (zero_block n).
Proof. intros H. unfold block_ok. cbn. rewrite len_zeros by lia. repeat split; try apply bytes_ok_zeros. intros i _ _. apply byte_at_zeros. Qed.
Lemma bytes_ok_repeat v n : is_u8 v -> bytes_ok (repeat v n).
Proof. intros H. apply Forall_forall. intros x Hx%list_elem_of_In%repeat_spec. now subst. Qed.
Lemma len_repeat {A} (x : A) n : len (repeat x n) = Z.of_nat n.
Proof. unfold len. now rewrite repeat_length. Qed.
Lemma mark_ok n b offset count source : block_ok n b -> 0 < source < 256 -> 0 <= offset -> 0 <= count -> offset + count <= n -> block_ok n (mark b offset count source).
Proof.
  intros (L1 & L2 & B1 & B2 & Z) Hs Ho Hc Hn. unfold block_ok, mark. cbn [bytes provenance]. assert (Hr : len (repeat source (Z.to_nat count)) = count) by (rewrite len_repeat; lia).
  rewrite len_write_at by lia. repeat split; auto; [apply bytes_ok_write; [exact B2|apply bytes_ok_repeat; unfold is_u8; lia]|]. intros i Hi H.
  destruct (Z.lt_ge_cases i offset) as [A|A]; [rewrite byte_at_write_out in H by lia; auto|]. destruct (Z.lt_ge_cases i (offset + count)) as [C|C]; [|rewrite byte_at_write_out in H by lia; auto].
  rewrite byte_at_write_in in H by lia. unfold byte_at in H. rewrite nth_repeat_lt in H by lia. lia.
Qed.
Lemma put_ok n b offset bs source : block_ok n b -> bytes_ok bs -> 0 < source < 256 -> 0 <= offset -> offset + len bs <= n -> block_ok n (put b offset bs source).
Proof.
  intros (L1 & L2 & B1 & B2 & Z) Hb Hs Ho Hn. pose proof (len_nonneg bs). unfold put, mark, block_ok. cbn [bytes provenance].
  assert (Hr : len (repeat source (Z.to_nat (len bs))) = len bs) by (rewrite len_repeat; lia). rewrite !len_write_at by lia.
  repeat split; auto; [now apply bytes_ok_write|apply bytes_ok_write; [exact B2|apply bytes_ok_repeat; unfold is_u8; lia]|]. intros i Hi H0.
  destruct (Z.lt_ge_cases i offset) as [A|A]; [rewrite byte_at_write_out in H0 |- * by lia; auto|]. destruct (Z.lt_ge_cases i (offset + len bs)) as [C|C]; [|rewrite byte_at_write_out in H0 |- * by lia; auto].
  rewrite byte_at_write_in in H0 by lia. unfold byte_at in H0. rewrite nth_repeat_lt in H0 by lia. lia.
Qed.
Lemma word_ok n b offset value width source : block_ok n b -> 0 < source < 256 -> 0 <= offset -> 0 <= width -> offset + width <= n -> block_ok n (word b offset value width source).
Proof. intros H Hs Ho Hw Hn. apply put_ok; auto; [apply bytes_ok_le_to|rewrite len_le_to; lia]. Qed.
Lemma when_ok n c f b : block_ok n b -> (forall b, block_ok n b -> block_ok n (f b)) -> block_ok n (when c f b).
Proof. intros H Hf. unfold when. destruct c; auto. Qed.
Ltac block_step :=
  lazymatch goal with
  | |- block_ok _ (word _ _ _ _ _) => apply word_ok
  | |- block_ok _ (mark _ _ _ _) => apply mark_ok
  | |- block_ok _ (when _ _ _) => apply when_ok; [|intros; cbn zeta]
  | |- block_ok _ (zero_block _) => apply zero_block_ok
  | |- block_ok _ (put _ _ _ _) => fail
  | |- block_ok _ _ => assumption
  | |- _ => cbv -[Z.le Z.lt Z.add]; lia
  end.

Definition first_inputs_ok (i : b41_first_inputs) : Prop := bytes_ok (default [] (clock_calibration i)).
Definition first_ok (f : b41_first_config) : Prop := block_ok B41_FIRST_SIZE (first_block f) /\ first_unresolved f = unresolved (first_block f) /\ xml_policy_missing f = 1.
Lemma len_firstn n (l : list Z) : len (firstn n l) <= Z.of_nat n.
Proof. unfold len. rewrite length_take. lia. Qed.
Lemma first_build_ok i f : first_inputs_ok i -> b41_first_config_build i = inr f -> first_ok f.
Proof.
  intros Hi. unfold b41_first_config_build. destruct (negb _); [discriminate|]. intros [= <-]. split; [|split; reflexivity]. cbn [first_block]. unfold B41_FIRST_SIZE.
  unfold first_groups, first_constants. cbn zeta. repeat block_step.
  apply put_ok; [assumption|now apply bytes_ok_take|unfold B41_FIRST_CLOCK_CALIBRATION; lia|lia|]. pose proof (len_firstn 16 (default [] (clock_calibration i))). lia.
Qed.
Lemma from_queries_ok i q f : first_inputs_ok i -> b41_first_config_from_queries i q = inr f -> first_ok f.
Proof.
  intros Hi. unfold b41_first_config_from_queries. repeat (destruct (_ : bool); [discriminate|]). intros H. eapply first_build_ok; [|exact H]. exact Hi.
Qed.

Lemma adopt_loop_ok source r : 0 < source < 256 -> forall v b p, length v = length r -> length b = length r -> length p = length r -> bytes_ok v -> bytes_ok b -> bytes_ok p ->
  (forall k, nth k p 0 = 0 -> nth k b 0 = 0) -> let '(b', p') := adopt_loop source r v b p in
  length b' = length r /\ length p' = length r /\ bytes_ok b' /\ bytes_ok p' /\ (forall k, nth k p' 0 = 0 -> nth k b' 0 = 0).
Proof.
  intros Hs. induction r as [|x r IH]; intros v b p L1 L2 L3 V B P Z; destruct v as [|y v]; try discriminate; destruct b as [|z b]; try discriminate; destruct p as [|w p]; try discriminate; cbn [adopt_loop].
  - repeat split; auto.
  - apply Forall_cons in V as [Vy V], B as [Bz B], P as [Pw P]. cbn in L1, L2, L3. specialize (IH v b p ltac:(lia) ltac:(lia) ltac:(lia) V B P (fun k => Z (S k))).
    destruct (adopt_loop source r v b p) as [b' p']. destruct IH as (I1 & I2 & I3 & I4 & I5).
    destruct (x =? 0); cbn [length]; (split; [lia|]; split; [lia|]; split; [apply List.Forall_cons; assumption|]; split;
      [apply List.Forall_cons; [first [assumption | unfold is_u8; lia]|assumption]|intros [|k]; cbn [nth]; [first [exact (Z 0%nat) | lia]|apply I5]]).
Qed.
Lemma byte_at_nth l i : byte_at l i = nth (Z.to_nat i) l 0.
Proof. reflexivity. Qed.
Lemma adopt_ok b c source : block_ok B41_SECOND_CONFIG_SIZE b -> config_typed c -> 0 < source < 256 -> block_ok B41_SECOND_CONFIG_SIZE (adopt b c source).
Proof.
  intros (L1 & L2 & B1 & B2 & Z) ((C1 & C2 & C3) & F & S & _ & _) Hs. unfold adopt.
  pose proof (adopt_loop_ok source (resolved_second c) Hs (second c) (bytes b) (provenance b)) as H. unfold len in *.
  destruct (adopt_loop _ _ _ _ _) as [x y]. destruct H as (H1 & H2 & H3 & H4 & H5); try assumption; try lia.
  { intros k. specialize (Z (Z.of_nat k) ltac:(lia)). unfold byte_at in Z. now rewrite Nat2Z.id in Z. }
  unfold block_ok. cbn [bytes provenance]. unfold len. repeat split; try assumption; try lia. intros i Hi. apply H5.
Qed.
Lemma init_typed : config_typed b41_startup_config_init.
Proof. destruct (startup_typed []) as (c & E & T); [constructor|]. now injection E as <-. Qed.
Lemma fragment_typed s c : setter_ok s -> fragment_of s = inr c -> config_typed c.
Proof.
  intros Hs. unfold fragment_of. destruct (typed_setter s b41_startup_config_init Hs init_typed) as (c' & E & T). destruct (apply_setter (Some b41_startup_config_init) s) as [st [d|]]; cbn in E; [|discriminate].
  injection E as ->. destruct st; [now intros [= <-]|discriminate|discriminate].
Qed.
Lemma literal_typed : config_typed literal_fragment.
Proof.
  destruct (typed_setter Set_identity b41_startup_config_init I init_typed) as (c & E & T). destruct (typed_setter Set_output c I T) as (d & E' & T').
  unfold literal_fragment. change (b41_startup_set_b41_identity (Some b41_startup_config_init)) with (apply_setter (Some b41_startup_config_init) Set_identity). rewrite E.
  destruct (apply_setter (Some c) Set_output) as [st [x|]]; cbn in E'; [now injection E' as ->|discriminate].
Qed.
Lemma adopt_paths_ok l : forall b b', Forall (fun p => bytes_ok (default [] p.2)) l -> block_ok B41_SECOND_CONFIG_SIZE b -> adopt_paths l b = inr b' -> block_ok B41_SECOND_CONFIG_SIZE b'.
Proof.
  induction l as [|[offset [p|]] l IH]; intros b b' Hl Hb; cbn [adopt_paths]; [now intros [= <-]| |inversion Hl; subst; now apply IH].
  inversion Hl; subst. destruct (fragment_of _) as [e|c] eqn:F; [discriminate|]. apply IH; [assumption|]. apply adopt_ok; [exact Hb| |unfold B41_SECOND_PATH_INPUT; lia]. eapply fragment_typed; [|exact F]. assumption.
Qed.
Definition second_inputs_ok (i : b41_second_inputs) : Prop := bytes_ok (default [] (mpe_state i)) /\ Forall (fun p => bytes_ok (default [] p)) (paths i).
Definition second_ok (c : b41_second_config) : Prop := block_ok B41_SECOND_CONFIG_SIZE (second_block c) /\ second_unresolved c = unresolved (second_block c).
Lemma zip_paths_ok (offsets : list Z) ps : Forall (fun p => bytes_ok (default [] p)) ps -> Forall (fun p => bytes_ok (default [] p.2)) (zip offsets ps).
Proof. intros H. revert offsets. induction H as [|p ps Hp _ IH]; intros [|o offsets]; cbn; constructor; auto. Qed.
Lemma second_build_ok i c : second_inputs_ok i -> b41_second_config_build i = inr c -> second_ok c.
Proof.
  intros [Hm Hp]. unfold b41_second_config_build. destruct (negb _); [discriminate|]. cbn zeta.
  assert (Hlit : block_ok B41_SECOND_CONFIG_SIZE (adopt (zero_block B41_SECOND_CONFIG_SIZE) literal_fragment B41_SECOND_LITERAL)).
  { apply adopt_ok; [now apply zero_block_ok|apply literal_typed|unfold B41_SECOND_LITERAL; lia]. }
  set (b0 := adopt _ _ _) in *. destruct (if has (si_present i) B41_SECOND_BUILD_POLICY then _ else inr b0) as [e|b1] eqn:P; [discriminate|].
  assert (H1 : block_ok B41_SECOND_CONFIG_SIZE b1).
  { destruct (has _ _); [|now injection P as <-]. destruct (fragment_of _) as [e|c'] eqn:F; [discriminate|]. injection P as <-. apply adopt_ok; [exact Hlit| |unfold B41_SECOND_BUILD_RESULT; lia].
    eapply fragment_typed; [|exact F]. exact I. }
  destruct (adopt_paths _ _) as [e|b2] eqn:A; [discriminate|]. intros [= <-]. split; [|reflexivity]. cbn [second_block].
  eapply adopt_paths_ok; [| |exact A]; [now apply zip_paths_ok|]. unfold B41_SECOND_CONFIG_SIZE in *. apply when_ok; [apply when_ok; [exact H1|]|]; intros b Hb.
  - unfold second_fds. cbn zeta. destruct (secondary_enabled i =? 0); repeat block_step.
  - unfold second_mpe. cbn zeta. apply put_ok; [apply put_ok; [exact Hb| | | |]|now apply bytes_ok_take| | |]; try (unfold B41_SECOND_MPE_INPUT_COPY; lia).
    + apply List.Forall_cons; [apply u8_range|apply List.Forall_nil].
    + rewrite len_cons, len_nil. lia.
    + pose proof (len_firstn 68 (default [] (mpe_state i))). lia.
Qed.

(** ** Policies and runtime bytes on a block *)

Lemma len_slice_le l i n : 0 <= n -> len (slice l i n) <= n.
Proof. intros H. unfold slice. pose proof (len_firstn (Z.to_nat n) (skipn (Z.to_nat i) l)). lia. Qed.
Lemma put_policy_ok b flags c : block_ok B41_SECOND_CONFIG_SIZE b -> is_u8 flags -> config_typed c -> block_ok B41_SECOND_CONFIG_SIZE (put_policy b flags c).
Proof.
  intros H Hf (_ & _ & S & _). unfold put_policy, B41_SECOND_CONFIG_SIZE in *. apply put_ok; [apply put_ok; [exact H| | | |]| | | |]; try (cbv -[Z.le Z.lt Z.add len]; lia).
  - apply List.Forall_cons; [exact Hf|apply List.Forall_nil].
  - rewrite len_cons, len_nil. lia.
  - now apply bytes_ok_slice.
  - pose proof (len_slice_le (second c) 0xc8 4). lia.
Qed.
Lemma runtime_bytes_ok s b : block_ok B41_FIRST_SIZE b -> block_ok B41_FIRST_SIZE (runtime_bytes s b).
Proof. intros H. unfold B41_FIRST_SIZE in *. unfold runtime_bytes. cbn zeta. repeat block_step. Qed.
Lemma second_runtime_bytes_ok s b : block_ok B41_SECOND_CONFIG_SIZE b -> block_ok B41_SECOND_CONFIG_SIZE (second_runtime_bytes s b).
Proof. intros H. unfold B41_SECOND_CONFIG_SIZE in *. unfold second_runtime_bytes. cbn zeta. repeat block_step. Qed.
Lemma land_fe_u8 v : is_u8 v -> is_u8 (Z.land v 0xfe).
Proof.
  unfold is_u8. intros H. split; [apply Z.land_nonneg; lia|]. replace (Z.land v 0xfe) with (Z.land v 0xfe mod 2 ^ 8); [apply Z.mod_pos_bound; lia|].
  rewrite <- Z.land_ones, <- Z.land_assoc by lia. reflexivity.
Qed.
Lemma policy_apply_ok base p s c : second_ok base -> is_u8 (log_flags_88e40 s) -> b41_receiver_policy_apply base p s = inr c -> second_ok c.
Proof.
  intros [Hb _] Hf. unfold b41_receiver_policy_apply. destruct (negb _); [discriminate|]. destruct (_ || _); [discriminate|]. destruct (fragment_of _) as [e|fragment] eqn:F; [discriminate|]. cbn zeta.
  destruct (_ && _); [discriminate|]. destruct (existsb _ _); [discriminate|]. intros [= <-]. split; [|reflexivity]. apply put_policy_ok; [exact Hb| |exact (fragment_typed (Set_policy _ _) _ I F)].
  destruct (_ && _); [now apply land_fe_u8|exact Hf].
Qed.
Lemma receiver_inputs_ok mode f base r : second_ok base -> b41_receiver_inputs_build mode f base = inr r -> second_ok r.2.
Proof.
  intros [Hb _]. unfold b41_receiver_inputs_build. cbn zeta. do 8 (destruct (_ : bool); [discriminate|]). destruct (fragment_of _) as [e|fragment] eqn:F; [discriminate|].
  intros [= <-]. split; [|reflexivity]. apply put_policy_ok; [exact Hb|unfold is_u8; lia|exact (fragment_typed (Set_policy _ _) _ I F)].
Qed.

(** ** The bundle *)

(** Where a first and a second configuration come from. *)
Inductive produced_first : b41_first_config -> Prop :=
| P_first i f : first_inputs_ok i -> b41_first_config_build i = inr f -> produced_first f
| P_queries i q f : first_inputs_ok i -> b41_first_config_from_queries i q = inr f -> produced_first f.
Inductive produced_second : b41_second_config -> Prop :=
| P_second i c : second_inputs_ok i -> b41_second_config_build i = inr c -> produced_second c
| P_policy base p s c : produced_second base -> is_u8 (log_flags_88e40 s) -> b41_receiver_policy_apply base p s = inr c -> produced_second c
| P_inputs mode f base r : produced_second base -> b41_receiver_inputs_build mode f base = inr r -> produced_second r.2.
Lemma produced_first_ok f : produced_first f -> first_ok f.
Proof. intros [i g H E|i q g H E]; [eapply first_build_ok|eapply from_queries_ok]; eauto. Qed.
Lemma produced_second_ok c : produced_second c -> second_ok c.
Proof. induction 1; [eapply second_build_ok|eapply policy_apply_ok|eapply receiver_inputs_ok]; eauto. Qed.

Lemma runtime_apply_ok f s priority r : first_ok f -> b41_runtime_config_apply f s priority = inr r -> first_ok (rt_first r).
Proof.
  intros (H & _ & X). unfold b41_runtime_config_apply. do 3 (destruct (negb _); [discriminate|]). intros [= <-]. split; [now apply runtime_bytes_ok|]. split; [reflexivity|exact X].
Qed.
Lemma resolved_marks l : Forall HostText.mark (resolved_mark <$> l).
Proof. induction l as [|p l IH]; [constructor|]. apply List.Forall_cons; [unfold resolved_mark, HostText.mark; destruct (p =? 0); auto|exact IH]. Qed.
Lemma byte_at_resolved l i : byte_at (resolved_mark <$> l) i = resolved_mark (byte_at l i).
Proof. unfold byte_at. rewrite <- (map_nth resolved_mark). reflexivity. Qed.
Lemma abi_typed f c : block_ok B41_FIRST_SIZE f -> block_ok B41_SECOND_CONFIG_SIZE c -> config_typed (Config (bytes f) (bytes c) (resolved_mark <$> provenance c)).
Proof.
  intros (F1 & _ & F3 & _) (C1 & C2 & C3 & _ & Z). split; [split; [|split]|split; [|split; [|split]]]; cbn [first second resolved_second]; auto.
  - unfold len. rewrite length_fmap. exact C2.
  - apply resolved_marks.
  - intros i Hi _. rewrite byte_at_resolved. unfold resolved_mark. destruct (Z.eqb_spec (byte_at (provenance c) i) 0); [auto|discriminate].
Qed.
Lemma first_incomplete_always f : first_ok f -> first_incomplete f = true.
Proof. intros (_ & _ & X). unfold first_incomplete. rewrite X. cbn. now rewrite orb_true_r. Qed.

(** C16. Both blocks of a bundle have their sizes and hold bytes; the counts of
    unresolved bytes are those of the provenance; the binary configuration is
    made of the same bytes, its marks are the provenance, and a byte it does
    not mark is zero; all the gates of the bundle are closed. *)
Theorem bundle_provenance f rs c s priority b : produced_first f -> produced_second c -> b41_startup_bundle_build f rs c s priority = inr b ->
  block_ok B41_FIRST_SIZE (first_block (rt_first (runtime b))) /\ block_ok B41_SECOND_CONFIG_SIZE (second_block (bundle_second b)) /\
  first_unresolved (rt_first (runtime b)) = unresolved (first_block (rt_first (runtime b))) /\ second_unresolved (bundle_second b) = unresolved (second_block (bundle_second b)) /\
  first (abi b) = bytes (first_block (rt_first (runtime b))) /\ second (abi b) = bytes (second_block (bundle_second b)) /\ config_typed (abi b) /\
  (forall i, byte_at (resolved_second (abi b)) i = 0 <-> byte_at (provenance (second_block (bundle_second b))) i = 0) /\ bundle_missing b = 123.
Proof.
  intros Hf%produced_first_ok Hc%produced_second_ok. unfold b41_startup_bundle_build. do 2 (destruct (negb _); [discriminate|]). destruct (b41_runtime_config_apply f rs priority) as [e|r] eqn:R; [discriminate|].
  apply runtime_apply_ok in R; [|exact Hf]. cbn zeta. rewrite first_incomplete_always by exact R. destruct R as (R1 & R2 & _), Hc as [C1 _]. pose proof (second_runtime_bytes_ok s _ C1) as C2. revert C2.
  generalize (second_runtime_bytes s (second_block c)). intros b2 C2 [= <-]. cbn [runtime bundle_second abi bundle_missing second_block second_unresolved].
  do 3 (split; [assumption|]). do 3 (split; [reflexivity|]). split; [exact (abi_typed _ _ R1 C2)|]. split; [|reflexivity].
  intros i. cbn [resolved_second]. rewrite byte_at_resolved. unfold resolved_mark. destruct (Z.eqb_spec (byte_at (provenance b2) i) 0); split; first [discriminate | contradiction | auto].
Qed.

(** A receiver on a primary descriptor with one path, quiet output and a clock calibration. *)
Definition sample_first_inputs : b41_first_inputs := First_inputs 113 1 0 0 0 0 0 (Some (repeat 7 16)) 16 0 12 0 true 1.
Definition sample_queries : b41_first_queries := Queries 14 81 1 1 3 2 0 0.
Definition sample_first : b41_first_config := match b41_first_config_from_queries sample_first_inputs sample_queries with inr f => f | inl _ => First_config (zero_block 0) 0 0 0 end.
Definition sample_second_inputs : b41_second_inputs := Second_inputs 6 None None 12 0 0 (Some (repeat 5 68)) 68 1 1 [Some (chars "/data/nv")].
Definition sample_second : b41_second_config :=
  match b41_second_config_build sample_second_inputs with
  | inr c => match b41_receiver_inputs_build 1 sample_first c with inr r => r.2 | inl _ => c end
  | inl _ => Second_config (zero_block 0) 0 0 0 0 0
  end.
Definition sample_runtime : b41_runtime_sources := Runtime_sources 63 1 0x6878 7 2 1 5 UINT32_MAX 9 1 0 1 1 1 3.
Definition sample_second_runtime : b41_second_runtime_sources := Second_runtime 7 1 2 3 0x1000 4 5.
Definition sample_bundle : b41_startup_bundle :=
  match b41_startup_bundle_build sample_first sample_runtime sample_second sample_second_runtime (- ENOENT) with
  | inr b => b | inl _ => Bundle (Runtime_config sample_first 0 0) sample_second b41_startup_config_init 0 end.
Lemma sample_first_produced : produced_first sample_first.
Proof. apply (P_queries sample_first_inputs sample_queries); [|vm_compute; reflexivity]. unfold first_inputs_ok. cbn. repeat apply List.Forall_cons; try apply List.Forall_nil; now vm_compute. Qed.
Lemma sample_second_produced : produced_second sample_second.
Proof.
  destruct (b41_second_config_build sample_second_inputs) as [e|c] eqn:C; [vm_compute in C; discriminate|]. destruct (b41_receiver_inputs_build 1 sample_first c) as [e|r] eqn:R.
  - injection C as <-. vm_compute in R. discriminate.
  - replace sample_second with r.2 by (unfold sample_second; now rewrite C, R). eapply P_inputs; [|exact R]. eapply P_second; [|exact C].
    split; [apply bytes_ok_repeat; unfold is_u8; lia|]. apply List.Forall_cons; [|apply List.Forall_nil]. cbn. repeat apply List.Forall_cons; try apply List.Forall_nil; now vm_compute.
Qed.
Lemma bundle_provenance_witness : produced_first sample_first /\ produced_second sample_second /\
  b41_startup_bundle_build sample_first sample_runtime sample_second sample_second_runtime (- ENOENT) = inr sample_bundle /\
  unresolved (first_block (rt_first (runtime sample_bundle))) = 3 /\ config_typed (abi sample_bundle) /\ bundle_missing sample_bundle = 123.
Proof.
  assert (E : b41_startup_bundle_build sample_first sample_runtime sample_second sample_second_runtime (- ENOENT) = inr sample_bundle) by (vm_compute; reflexivity).
  split; [exact sample_first_produced|]. split; [exact sample_second_produced|]. split; [exact E|]. split; [vm_compute; reflexivity|].
  destruct (bundle_provenance sample_first sample_runtime sample_second sample_second_runtime (- ENOENT) sample_bundle sample_first_produced sample_second_produced E) as (_ & _ & _ & _ & _ & _ & T & _ & M).
  split; [exact T|exact M].
Defined.

(** ** No session from a bundle *)

Lemma lor_set a b k : Z.testbit b k = true -> Z.lor a b <> 0.
Proof. intros H E. apply (f_equal (fun v => Z.testbit v k)) in E. rewrite Z.lor_spec, H, orb_true_r, Z.bits_0 in E. discriminate. Qed.
Lemma arguments_missing b c a : b41_engine_arguments_build b c = inr a -> missing_contracts a <> 0.
Proof.
  unfold b41_engine_arguments_build. destruct (b41_engine_callback_table_build c) as [e|[notify table]]; [discriminate|]. cbn zeta. intros [= <-]. cbn [missing_contracts].
  destruct (first_incomplete _); [apply (lor_set _ _ 0)|apply (lor_set _ _ 1)]; reflexivity.
Qed.
Lemma config_missing b : b41_native_arguments_config_missing b <> 0.
Proof. unfold b41_native_arguments_config_missing. cbn zeta. destruct (_ || _); [apply (lor_set _ _ 0)|apply (lor_set _ _ 1)]; reflexivity. Qed.
