(* ===== verification/SlotService.v ===== *)
(** * The assistance callback of the engine

    [b41_slot6_service.c]: the callback that encodes what the engine asks of the
    assistance service and queues it as one event, and the dispatch that decodes
    the event on the worker's thread and sends it. *)

From stdpp Require Import strings.
From S2P Require Import Prelude Trace HostQueue HostText AgpsHost HostWorker.
Open Scope Z_scope.
Open Scope io_scope.

Definition slot6_fail (a : b41_host_adapter) (error : Z) : Z * b41_host_adapter :=
  if first_error a =? 0 then (error, set_error error a) else (first_error a, a).
(** The bytes before the terminator, at most [n]. *)
Fixpoint leading (n : nat) (s : list Z) : Z :=
  match n, s with
  | S n, b :: s => if b =? 0 then 0 else 1 + leading n s
  | _, _ => 0
  end.
Definition TEXT_MAX : Z := B41_HOST_OUTPUT_MAX - 14.
(** [at_] is where the packet lies on the stack. [None]: nothing to send;
    otherwise the status and the packet. *)
Definition slot6_packet (at_ selector parameter : Z) (pointer : option (Z * list Z)) : option (Z * list Z) :=
  let selector := Z.land selector 0xffff in
  let parameter := Z.land parameter 0xffff in
  if selector =? 0 then
    if parameter =? 0 then None else
    let length := match pointer with Some (_, s) => leading (Z.to_nat (TEXT_MAX + 1)) s | None => 0 end in
    if TEXT_MAX <? length then Some (- EMSGSIZE, []) else Some (b41_agps_data_packet pointer length (Some at_) B41_HOST_OUTPUT_MAX true)
  else if selector =? 1 then Some (b41_agps_selector1_packet (Some at_) B41_HOST_OUTPUT_MAX true)
  else if selector =? 7 then
    if parameter =? 0 then None else
    if negb (parameter =? B41_AGPS_CONFIGURATION_SIZE) then Some (- EOPNOTSUPP, []) else
    Some (b41_agps_configuration_packet pointer (Some at_) B41_HOST_OUTPUT_MAX true)
  else Some (- EOPNOTSUPP, []).
(** [bound] is the adapter of the static pointer. *)
Definition slot6_callback (at_ : Z) (bound : option b41_host_adapter) (selector parameter : Z) (pointer : option (Z * list Z)) : Z * option b41_host_adapter :=
  match bound with
  | None => (- ENODEV, None)
  | Some a =>
    let failing error := let '(st, a) := slot6_fail a error in (st, Some a) in
    if negb (first_error a =? 0) then (first_error a, Some a) else
    match slot6_packet at_ selector parameter pointer with
    | None => (0, Some a)
    | Some (status, packet) =>
      if negb (status =? 0) then failing status else
      if lock a then failing (- EBUSY) else
      if count a =? B41_HOST_QUEUE_SIZE then failing (- ENOBUFS) else
      let n := tail_slot a in
      let a := edit_slot n (store_kind B41_HOST_AGPS_DATA) a in
      let a := edit_slot n (store_length (len packet)) a in
      let a := edit_slot n (store_bytes packet) a in
      (0, Some (set_count (u32 (count a + 1)) a))
    end
  end.
(** The status, and whether the static pointer and the slot were set. *)
Definition b41_slot6_service_bind (a : option b41_host_adapter) (slot_given bound : bool) : Z * bool :=
  match a with
  | None => (- EINVAL, bound)
  | Some a => if negb slot_given then (- EINVAL, bound) else if negb (first_error a =? 0) then (first_error a, bound) else if bound then (- EALREADY, bound) else (0, true)
  end.

(** [at_] is where the bytes of the event lie. *)
Definition b41_slot6_service_dispatch (s : services) (at_ : Z) (event : option b41_host_event) : os (Z * services) :=
  let sending (r : os (Z * b41_agps_owner)) : os (Z * services) := let! r := r in ret (r.1, Services r.2 (outputs s)) in
  let refuse : os (Z * services) := ret (- EBADMSG, s) in
  match event with
  | None => ret (- EINVAL, s)
  | Some e =>
    let bytes := ev_bytes e in
    if negb (ev_kind e =? B41_HOST_AGPS_DATA) then b41_navigation_dispatch_event s at_ (Some e) else
    if (ev_length e <? 8) || (B41_HOST_OUTPUT_MAX <? ev_length e) || negb (le32 bytes 0 =? 1) then refuse else
    let type := le32 bytes 4 in
    if type =? 160 then
      if negb (ev_length e =? 12 + B41_AGPS_CONFIGURATION_SIZE) || negb (le32 bytes 8 =? B41_AGPS_CONFIGURATION_SIZE) then refuse else
      sending (b41_agps_owner_send_configuration (agps_owner s) (Some (at_ + 12, rest_after bytes 12)))
    else if type =? 152 then if negb (ev_length e =? 8) then refuse else sending (b41_agps_owner_send_selector1 (agps_owner s))
    else if negb (type =? 150) || (ev_length e <? 9) then refuse else
    if byte_at bytes 8 =? 0 then if negb (ev_length e =? 9) then refuse else sending (b41_agps_owner_send_data (agps_owner s) None 0) else
    if negb (byte_at bytes 8 =? 1) || (ev_length e <? 14) then refuse else
    let size := le32 bytes 9 in
    if (size =? 0) || negb (size =? ev_length e - 13) || negb (byte_at bytes (ev_length e - 1) =? 0) || bool_decide (0 ∈ slice bytes 13 (size - 1)) then refuse else
    sending (b41_agps_owner_send_data (agps_owner s) (Some (at_ + 13, rest_after bytes 13)) (size - 1))
  end.

(** ** The callback is one enqueue *)

Lemma leading_spec n s : let k := leading n s in 0 <= k <= Z.of_nat n /\ (k < Z.of_nat n -> k = len s \/ byte_at s k = 0) /\ Forall (fun b => b <> 0) (firstn (Z.to_nat k) s) /\ k <= len s.
Proof.
  cbn zeta. revert s. induction n as [|n IH]; intros s; pose proof (len_nonneg s) as Hs; [cbn [leading]; split; [lia|]; split; [lia|]; split; [apply List.Forall_nil|lia]|].
  destruct s as [|b s]; [cbn [leading]; split; [lia|]; split; [now left|]; split; [apply List.Forall_nil|lia]|]. cbn [leading]. rewrite len_cons in *. destruct (Z.eqb_spec b 0) as [-> |N].
  - split; [lia|]. split; [now right|]. split; [apply List.Forall_nil|lia].
  - destruct (IH s) as (I1 & I2 & I3 & I4). replace (Z.to_nat (1 + leading n s)) with (S (Z.to_nat (leading n s))) by lia. cbn [firstn].
    split; [lia|]. split; [|split; [now apply List.Forall_cons|lia]]. intros H1. destruct I2 as [E|E]; [lia|left; lia|right].
    unfold byte_at in *. replace (Z.to_nat (1 + leading n s)) with (S (Z.to_nat (leading n s))) by lia. exact E.
Qed.
(** What the engine hands over: a string with its terminator, or the whole configuration. *)
Definition pointer_ok (selector : Z) (pointer : option (Z * list Z)) : Prop :=
  match pointer with
  | None => True
  | Some (_, bytes) => bytes_ok bytes /\ (Z.land selector 0xffff = 7 -> B41_AGPS_CONFIGURATION_SIZE <= len bytes)
  end.
(** The bytes in front of a list. *)
Ltac byte_list := repeat (apply List.Forall_cons; [first [apply u8_range | now vm_compute]|]).
Lemma data_packet_shape pointer length at_ capacity m : (forall a s, pointer = Some (a, s) -> bytes_ok s /\ 0 <= length <= len s) ->
  b41_agps_data_packet pointer length (Some at_) capacity true = (0, m) -> packet m /\ bytes_ok m /\ len m <= capacity.
Proof.
  intros Hp H. destruct pointer as [[a s]|]; unfold b41_agps_data_packet in H; guards H; apply pair_equal_spec in H as [_ <-]; [|split; [apply packet_absent|split; [repeat (apply List.Forall_cons; [now vm_compute|]); apply List.Forall_nil|change (9 <= capacity); lia]]].
  destruct (Hp a s eq_refl) as [Hb Hn]. set (text := firstn (Z.to_nat length) s) in *. assert (Hl : len text = length) by (apply len_take; lia). unfold B41_AGPS_PACKET_MAX in *.
  rewrite u32_id by (unfold is_u32; lia). split; [rewrite <- Hl; apply packet_text; [now apply no_zero_iff|unfold B41_AGPS_PACKET_MAX; lia]|].
  split; [|rewrite !len_cons, len_app, Hl, len_cons, len_nil; lia]. byte_list. apply bytes_ok_app. split; [now apply bytes_ok_take|byte_list; apply List.Forall_nil].
Qed.
Lemma configuration_packet_shape pointer at_ capacity m : (forall a s, pointer = Some (a, s) -> bytes_ok s /\ B41_AGPS_CONFIGURATION_SIZE <= len s) ->
  b41_agps_configuration_packet pointer (Some at_) capacity true = (0, m) -> packet m /\ bytes_ok m /\ len m <= capacity.
Proof.
  intros Hp H. destruct pointer as [[a s]|]; [|discriminate]. unfold b41_agps_configuration_packet in H. guards H. apply pair_equal_spec in H as [_ <-]. destruct (Hp a s eq_refl) as [Hb Hn]. set (c := firstn _ s).
  assert (Hl : len c = B41_AGPS_CONFIGURATION_SIZE) by (apply (len_take s 668); unfold B41_AGPS_CONFIGURATION_SIZE in *; lia).
  split; [rewrite <- Hl; now apply packet_configuration|]. split; [byte_list; now apply bytes_ok_take|rewrite !len_cons, Hl; lia].
Qed.
Lemma packet_len m : packet m -> 8 <= len m.
Proof. intros []; rewrite ?len_app; change (len (word _)) with 4; repeat match goal with |- context [len ?l] => pose proof (len_nonneg l); generalize dependent (len l); intros end; lia. Qed.
Lemma slot6_packet_ok at_ selector parameter pointer m : pointer_ok selector pointer -> slot6_packet at_ selector parameter pointer = Some (0, m) -> packet m /\ bytes_ok m /\ 8 <= len m <= B41_HOST_OUTPUT_MAX.
Proof.
  intros Hp H. enough (packet m /\ bytes_ok m /\ len m <= B41_HOST_OUTPUT_MAX) as (P & B & L) by (split; [exact P|]; split; [exact B|]; split; [now apply packet_len|exact L]).
  unfold slot6_packet in H. cbn zeta in H. destruct (Z.eqb_spec (Z.land selector 0xffff) 0) as [E0|E0].
  - destruct (_ =? 0); [discriminate|]. destruct (_ <? _) eqn:G; [discriminate|]. injection H as H. eapply data_packet_shape; [|exact H]. intros a s ->.
    pose proof (leading_spec (Z.to_nat (TEXT_MAX + 1)) s) as (L & _ & _ & L4). split; [apply Hp|]. split; [apply L|exact L4].
  - destruct (Z.eqb_spec (Z.land selector 0xffff) 1) as [E1|E1]; [injection H as <-; split; [apply packet_selector|split; [byte_list; apply List.Forall_nil|cbv; discriminate]]|].
    destruct (Z.eqb_spec (Z.land selector 0xffff) 7) as [E7|E7]; [|discriminate]. destruct (_ =? 0); [discriminate|]. destruct (negb _); [discriminate|]. injection H as H.
    eapply configuration_packet_shape; [|exact H]. intros a s ->. split; [apply Hp|now apply Hp].
Qed.
(** A packet that was encoded is one request to the queue. *)
Lemma slot6_enqueues at_ a selector parameter pointer m : slot6_packet at_ selector parameter pointer = Some (0, m) -> 8 <= len m <= B41_HOST_OUTPUT_MAX ->
  let '(st, w) := enqueue B41_HOST_AGPS_DATA (Some m) (len m) (World true a) in slot6_callback at_ (Some a) selector parameter pointer = (st, Some (adapter w)).
Proof.
  intros Hp Hl. unfold enqueue, slot6_callback, slot6_fail, fail. cbn [bound adapter negb]. rewrite Hp. destruct (first_error a =? 0) eqn:F; cbn [negb]; [|reflexivity].
  assert (B : bad_args (Some m) (len m) = false) by (unfold bad_args; lia). rewrite B. change (0 =? 0) with true. cbn [negb]. destruct (lock a); [reflexivity|]. destruct (count a =? _); [reflexivity|].
  unfold copied. cbn [default from_option id with_adapter adapter]. rewrite firstn_all2 by (unfold len; lia). reflexivity.
Qed.
Lemma enqueue_ring a q kind m : ring a q -> first_error a = 0 -> lock a = false -> count a < B41_HOST_QUEUE_SIZE -> 1 <= len m <= B41_HOST_OUTPUT_MAX ->
  exists w, enqueue kind (Some m) (len m) (World true a) = (0, w) /\ ring (adapter w) (q ++ [(kind, m)]).
Proof.
  intros Hr He Hl Hc Hm. unfold enqueue. cbn [bound adapter negb]. rewrite He, Hl. assert (B : bad_args (Some m) (len m) = false) by (unfold bad_args; lia). rewrite B.
  change (0 =? 0) with true. cbn [negb]. rewrite (proj2 (Z.eqb_neq _ _)) by lia. eexists. split; [reflexivity|]. unfold with_adapter. cbn [adapter].
  set (f1 := store_kind kind). set (f2 := store_length (len m)). set (f3 := store_bytes (copied (Some m) (len m))). set (n := tail_slot a).
  assert (R1 : ring (edit_slot n f1 a) q) by (apply ring_edit; auto; intros e [H1 H2]; split; assumption).
  assert (R2 : ring (edit_slot n f2 (edit_slot n f1 a)) q) by (apply (ring_edit (edit_slot n f1 a)); auto; intros e [H1 H2]; split; [cbn; lia|assumption]).
  assert (Rq : request_ok (Enqueue kind (Some m) (len m))) by (split; [unfold is_u32, B41_HOST_OUTPUT_MAX in *; lia|intros b [= <-]; lia]).
  assert (R3 : ring (edit_slot n f3 (edit_slot n f2 (edit_slot n f1 a))) q).
  { apply (ring_edit (edit_slot n f2 (edit_slot n f1 a))); auto. intros e. apply (store_bytes_ok e kind (Some m) (len m)); [exact Rq|exact B]. }
  pose proof (ring_put _ q R3 Hc) as R4. replace (view (at_slot (edit_slot n f3 (edit_slot n f2 (edit_slot n f1 a))) (count (edit_slot n f3 (edit_slot n f2 (edit_slot n f1 a)))))) with (kind, m) in R4; [exact R4|].
  change (count (edit_slot n f3 (edit_slot n f2 (edit_slot n f1 a)))) with (count a). destruct Hr as (Ha & _), R1 as (A1 & _), R2 as (A2 & _). pose proof Ha as (_ & Hc0 & _).
  assert (T : forall x, adapter_ok x -> count x = count a -> tail_slot x = n -> forall f, at_slot (edit_slot n f x) (count a) = f (at_slot x (count a))).
  { intros x Hx Ex Tx f. rewrite <- Tx, at_slot_edit by (exact Hx || lia). rewrite Ex, Z.eqb_refl. reflexivity. }
  rewrite (T (edit_slot n f2 (edit_slot n f1 a)) A2 eq_refl eq_refl f3), (T (edit_slot n f1 a) A1 eq_refl eq_refl f2), (T a Ha eq_refl eq_refl f1). symmetry.
  rewrite (view_copied _ kind (Some m) (len m)); [|exact Rq|exact B|reflexivity|reflexivity]. cbn [message_of]. unfold copied. cbn [default from_option id]. rewrite firstn_all2 by (unfold len; lia). reflexivity.
Qed.

(** ** The dispatch sends what was queued *)

(** The payload that stands for a packet. *)
Inductive reads : list Z -> payload -> Prop :=
| R_selector : reads (word 1 ++ word 152) Selector1
| R_absent : reads (word 1 ++ word 150 ++ [0]) (Data None 0)
| R_text t at_ source : Forall (fun b => b <> 0) t -> len t <= B41_AGPS_PACKET_MAX - 14 -> firstn (Z.to_nat (len t)) source = t ->
    reads (word 1 ++ word 150 ++ [1] ++ word (len t + 1) ++ t ++ [0]) (Data (Some (at_, source)) (len t))
| R_configuration c at_ source : len c = B41_AGPS_CONFIGURATION_SIZE -> firstn (Z.to_nat B41_AGPS_CONFIGURATION_SIZE) source = c ->
    reads (word 1 ++ word 160 ++ word (len c) ++ c) (Configuration (Some (at_, source))).
Lemma reads_packet m p : reads m p -> packet m.
Proof. intros []; [apply packet_selector|apply packet_absent|now apply packet_text|now apply packet_configuration]. Qed.
Lemma reads_built o m p : reads m p -> packable o p -> (build_packet o p).2 = m.
Proof.
  unfold packable. intros R B. destruct (build_packet o p) as [st b] eqn:E. cbn [fst snd] in *. subst st. revert E.
  destruct R as [| |t at_ source Hn Hl Hs|c at_ source Hl Hs]; intros B; unfold build_packet, b41_agps_selector1_packet, b41_agps_data_packet, b41_agps_configuration_packet in B;
    rewrite ?Hs in B; guards B; apply pair_equal_spec in B as [_ <-]; try reflexivity; [|now rewrite Hl].
  pose proof (len_nonneg t). unfold B41_AGPS_PACKET_MAX in *. now rewrite u32_id by (unfold is_u32; lia).
Qed.
Definition sending (s : services) (p : payload) : os (Z * services) := let! r := send_packet (agps_owner s) p in ret (r.1, Services r.2 (outputs s)).
(** The services keep their descriptors, and all of their state when the dispatch succeeds. *)
Definition kept (s : services) (status : Z) (s' : services) : Prop := same_sinks s s' /\ (status = 0 -> alike s s').
Lemma performs_sending s m p (ok : Prop) : reads m p -> (ok -> owner_ready (agps_owner s) /\ packable (agps_owner s) p) ->
  performs (sending s p) (fun r t => kept s r.1 r.2 /\ carried s (Send (owner_fd (agps_owner s)) m) ok r.1 t).
Proof.
  intros H Hok. unfold sending. eapply performs_bind; [apply (performs_send_out s p m); now apply reads_built|]. intros r t (H1 & H2 & H3). trace_step. rewrite app_nil_r. cbn [fst snd].
  split; [|exact (carried_weaken _ _ _ _ _ _ Hok H3)]. split; [split; [exact H2|]; cbn; now destruct (outputs s)|]. intros R. split; [exact (H1 R)|reflexivity].
Qed.

(** The bytes of the text are those of the buffer. *)
Section text.
Variable e : b41_host_event.
Hypothesis ok : event_ok e.
Hypothesis bytes_fine : bytes_ok (ev_bytes e).
Lemma len_event_text : len (event_text e) = ev_length e.
Proof. destruct ok as [H1 H2]. unfold event_text. apply len_take. lia. Qed.
Lemma text_byte i : 0 <= i < ev_length e -> byte_at (event_text e) i = byte_at (ev_bytes e) i.
Proof. apply byte_at_take. Qed.
Lemma text_le32 i : 0 <= i -> i + 4 <= ev_length e -> le32 (event_text e) i = le32 (ev_bytes e) i.
Proof. intros. unfold le32. rewrite !text_byte by lia. reflexivity. Qed.
Lemma text_slice i n : 0 <= i -> 0 <= n -> i + n <= ev_length e -> slice (event_text e) i n = slice (ev_bytes e) i n.
Proof. intros. unfold event_text. change (firstn (Z.to_nat (ev_length e)) (ev_bytes e)) with (slice (ev_bytes e) 0 (ev_length e)). now rewrite slice_slice by lia. Qed.
Lemma text_ok : bytes_ok (event_text e).
Proof. now apply bytes_ok_take. Qed.
End text.
Lemma text_header e : event_ok e -> bytes_ok (ev_bytes e) -> 8 <= ev_length e -> event_text e = word (le32 (ev_bytes e) 0) ++ word (le32 (ev_bytes e) 4) ++ slice (ev_bytes e) 8 (ev_length e - 8).
Proof.
  intros He Hb Hl. pose proof (len_event_text e He) as L. pose proof He as [L1 L2]. rewrite <- !(word_of_slice (ev_bytes e)) by (exact Hb || lia). rewrite <- !text_slice by lia. rewrite <- (slice_all (event_text e)) at 1.
  rewrite L. replace (ev_length e) with (4 + (4 + (ev_length e - 8))) at 1 by lia. rewrite !slice_split by lia. reflexivity.
Qed.
(** The payload the dispatch finds in an event of its kind. *)
Definition slot6_payload (at_ : Z) (e : b41_host_event) : option payload :=
  let bytes := ev_bytes e in
  if (ev_length e <? 8) || (B41_HOST_OUTPUT_MAX <? ev_length e) || negb (le32 bytes 0 =? 1) then None else
  let type := le32 bytes 4 in
  if type =? 160 then
    if negb (ev_length e =? 12 + B41_AGPS_CONFIGURATION_SIZE) || negb (le32 bytes 8 =? B41_AGPS_CONFIGURATION_SIZE) then None else Some (Configuration (Some (at_ + 12, rest_after bytes 12)))
  else if type =? 152 then if negb (ev_length e =? 8) then None else Some Selector1
  else if negb (type =? 150) || (ev_length e <? 9) then None else
  if byte_at bytes 8 =? 0 then if negb (ev_length e =? 9) then None else Some (Data None 0) else
  if negb (byte_at bytes 8 =? 1) || (ev_length e <? 14) then None else
  let size := le32 bytes 9 in
  if (size =? 0) || negb (size =? ev_length e - 13) || negb (byte_at bytes (ev_length e - 1) =? 0) || bool_decide (0 ∈ slice bytes 13 (size - 1)) then None else
  Some (Data (Some (at_ + 13, rest_after bytes 13)) (size - 1)).
Lemma dispatch_payload s at_ e : ev_kind e = B41_HOST_AGPS_DATA ->
  b41_slot6_service_dispatch s at_ (Some e) = match slot6_payload at_ e with None => ret (- EBADMSG, s) | Some p => sending s p end.
Proof.
  intros Hk. unfold b41_slot6_service_dispatch, slot6_payload. rewrite Hk. change (B41_HOST_AGPS_DATA =? B41_HOST_AGPS_DATA) with true. cbn [negb]. cbn zeta.
  repeat match goal with |- context [if ?c then _ else _] => destruct c; [try reflexivity|try reflexivity] end.
Qed.
Lemma payload_sound at_ e p : event_ok e -> bytes_ok (ev_bytes e) -> slot6_payload at_ e = Some p -> reads (event_text e) p.
Proof.
  intros He Hb. pose proof He as [Hl1 Hl2]. pose proof (text_header e He Hb) as Ht. unfold slot6_payload. cbn zeta.
  destruct (_ || negb (le32 (ev_bytes e) 0 =? 1)) eqn:G; [discriminate|]. assert (E1 : le32 (ev_bytes e) 0 = 1) by lia. specialize (Ht ltac:(lia)). rewrite E1 in Ht. set (b := ev_bytes e) in *. set (n := ev_length e) in *.
  destruct (Z.eqb_spec (le32 b 4) 160) as [E|E]; [rewrite E in Ht|].
  - destruct (negb (n =? _) || negb (le32 b 8 =? _)) eqn:G1; [discriminate|intros [= <-]]. unfold B41_AGPS_CONFIGURATION_SIZE in *. assert (n = 680 /\ le32 b 8 = 668) as [En E8] by lia.
    rewrite Ht, En. change (680 - 8) with (4 + 668). rewrite slice_split by lia. rewrite (word_of_slice b 8) by (exact Hb || lia). rewrite E8.
    assert (Hc : len (slice b (8 + 4) 668) = 668) by (apply len_slice; lia). rewrite <- Hc at 1. apply R_configuration; [exact Hc|reflexivity].
  - destruct (Z.eqb_spec (le32 b 4) 152) as [E'|E']; [rewrite E' in Ht|].
    + destruct (Z.eqb_spec n 8) as [En|]; cbn [negb]; [intros [= <-]|discriminate]. rewrite Ht, En, slice_0. apply R_selector.
    + destruct (negb (le32 b 4 =? 150) || (n <? 9)) eqn:G2; [discriminate|]. assert (E4 : le32 b 4 = 150) by lia. rewrite E4 in Ht. destruct (Z.eqb_spec (byte_at b 8) 0) as [Z8|Z8].
      * destruct (Z.eqb_spec n 9) as [En|]; cbn [negb]; [intros [= <-]|discriminate]. rewrite Ht, En. change (9 - 8) with 1. rewrite slice_1, Z8 by lia. apply R_absent.
      * destruct (negb (byte_at b 8 =? 1) || (n <? 14)) eqn:G3; [discriminate|]. destruct (_ || bool_decide (0 ∈ slice b 13 _)) eqn:G4; [discriminate|intros [= <-]]. rewrite !orb_false_iff in G4. destruct G4 as [[[Z1 Z2] Z3] Z4].
        assert (Hz : le32 b 9 = n - 13) by lia. rewrite Hz in *. apply no_zero_iff in Z4. assert (Hlen : len (slice b 13 (n - 13 - 1)) = n - 13 - 1) by (apply len_slice; lia).
        rewrite Ht. replace (n - 8) with (1 + (4 + ((n - 13 - 1) + 1))) by lia. rewrite !slice_split by lia. change (8 + 1) with 9. change (9 + 4) with 13.
        rewrite (slice_1 b 8), (word_of_slice b 9) by (exact Hb || lia). rewrite Hz. replace (13 + (n - 13 - 1)) with (n - 1) by lia. rewrite slice_1 by lia.
        replace (byte_at b 8) with 1 by lia. replace (byte_at b (n - 1)) with 0 by lia.
        pose proof (R_text (slice b 13 (n - 13 - 1)) (at_ + 13) (rest_after b 13) Z4) as R. rewrite Hlen in R. replace (n - 13 - 1 + 1) with (n - 13) in R by lia.
        apply R; [unfold B41_AGPS_PACKET_MAX, B41_HOST_OUTPUT_MAX in *; lia|reflexivity].
Qed.
Lemma packet_fields m : packet m -> le32 m 0 = 1 /\
  ((m = word 1 ++ word 152) \/ (m = word 1 ++ word 150 ++ [0]) \/
   (le32 m 4 = 150 /\ byte_at m 8 = 1 /\ 14 <= len m /\ (len m <= B41_AGPS_PACKET_MAX -> le32 m 9 = len m - 13) /\ byte_at m (len m - 1) = 0 /\ Forall (fun b => b <> 0) (slice m 13 (len m - 14))) \/
   (le32 m 4 = 160 /\ len m = 12 + B41_AGPS_CONFIGURATION_SIZE /\ le32 m 8 = B41_AGPS_CONFIGURATION_SIZE)).
Proof.
  intros [|t Ht Hl| |c Hc]; clear m; (split; [reflexivity|]); [right; now left| |now left|].
  - right. right. left. pose proof (len_nonneg t) as Hn. set (m := word 1 ++ word 150 ++ [1] ++ word (len t + 1) ++ t ++ [0]).
    assert (Lm : len m = len t + 14) by (unfold m; rewrite !len_app; change (len (word _)) with 4; rewrite !len_cons, !len_nil; lia).
    split; [apply (le32_word (word 1) 150); reflexivity|]. split; [reflexivity|]. split; [lia|]. split.
    { intros _. rewrite Lm. unfold m. replace (word 1 ++ word 150 ++ [1] ++ word (len t + 1) ++ t ++ [0]) with ((word 1 ++ word 150 ++ [1]) ++ word (len t + 1) ++ t ++ [0]) by reflexivity. rewrite le32_word by reflexivity.
      unfold B41_AGPS_PACKET_MAX in Hl. rewrite u32_id by (unfold is_u32; lia). lia. }
    assert (Em : m = (word 1 ++ word 150 ++ [1] ++ word (len t + 1)) ++ t ++ [0]) by reflexivity. rewrite Lm. split.
    + rewrite Em, byte_at_app_r by (rewrite !len_app; change (len (word _)) with 4; change (len [_]) with 1; lia). change (len (word 1 ++ _)) with 13. rewrite byte_at_app_r by lia.
      replace (len t + 14 - 1 - 13 - len t) with 0 by lia. reflexivity.
    + rewrite Em. replace (len t + 14 - 14) with (len t) by lia. change 13 with (len (word 1 ++ word 150 ++ [1] ++ word (len t + 1))). now rewrite slice_app_mid.
  - right. right. right. rewrite Hc. split; [apply (le32_word (word 1) 160); reflexivity|]. split; [rewrite !len_app, Hc; reflexivity|].
    now apply (le32_word (word 1 ++ word 160) B41_AGPS_CONFIGURATION_SIZE c 8).
Qed.
Lemma payload_complete at_ e : event_ok e -> packet (event_text e) -> exists p, slot6_payload at_ e = Some p.
Proof.
  intros He Hp. pose proof He as [Hl1 Hl2]. pose proof (len_event_text e He) as L. pose proof (packet_len _ Hp) as L8. rewrite L in L8. apply packet_fields in Hp as [H0 Hp]. rewrite text_le32 in H0 by lia.
  assert (F4 : le32 (event_text e) 4 = le32 (ev_bytes e) 4) by (apply text_le32; lia).
  unfold slot6_payload. cbn zeta. rewrite H0.
  rewrite (proj2 (Z.ltb_ge (ev_length e) 8)), (proj2 (Z.ltb_ge B41_HOST_OUTPUT_MAX (ev_length e))) by lia. cbn [orb negb Z.eqb]. change (1 =? 1) with true. cbn [negb].
  destruct Hp as [E|[E|[(E4 & E8 & E14 & E9 & Ez & En)|(E4 & El & E8)]]].
  - rewrite <- F4, <- L, E. now exists Selector1.
  - rewrite <- F4, <- L, <- text_byte by (rewrite <- L, E; cbv; split; congruence). rewrite E. now exists (Data None 0).
  - rewrite L in *. rewrite <- F4, E4, <- (text_byte e 8), E8 by lia. rewrite <- (text_le32 e 9), E9 by (lia || unfold B41_AGPS_PACKET_MAX, B41_HOST_OUTPUT_MAX in *; lia). rewrite <- (text_byte e (ev_length e - 1)), Ez by lia.
    rewrite <- text_slice by lia. replace (ev_length e - 13 - 1) with (ev_length e - 14) by lia. rewrite (proj2 (no_zero_iff _) En).
    cbn [Z.eqb Pos.eqb negb orb]. rewrite (proj2 (Z.ltb_ge (ev_length e) 9)), (proj2 (Z.ltb_ge (ev_length e) 14)), (proj2 (Z.eqb_neq (ev_length e - 13) 0)), Z.eqb_refl by lia. cbn [negb orb]. eexists. reflexivity.
  - rewrite L in *. rewrite <- F4, E4, El. rewrite <- (text_le32 e 8), E8 by (unfold B41_AGPS_CONFIGURATION_SIZE in *; lia). cbn. eexists. reflexivity.
Qed.

(** The next test of a decoder, passed. *)
Ltac passed G := match goal with |- (if ?c then None else _) = Some _ -> _ => destruct c eqn:G; [discriminate|] end.
Lemma payload_packable o at_ e p : event_ok e -> apart o at_ -> slot6_payload at_ e = Some p -> packable o p.
Proof.
  intros [L Lb] A. unfold slot6_payload. cbn zeta. passed G. unfold B41_HOST_OUTPUT_MAX, B41_AGPS_PACKET_MAX, B41_AGPS_CONFIGURATION_SIZE in *. destruct (_ =? 160).
  - passed G1. intros [= <-]. apply (packable_data o (Configuration (Some (at_ + 12, _)))). apply apart_inside; [exact A|..]; unfold B41_HOST_OUTPUT_MAX, B41_AGPS_PACKET_MAX, B41_AGPS_CONFIGURATION_SIZE; lia.
  - destruct (_ =? 152); [passed G1; intros [= <-]; exact (packable_data o Selector1)|]. passed G2.
    destruct (byte_at _ 8 =? 0); [passed G3; intros [= <-]; now apply (packable_data o (Data None 0))|]. passed G3. passed G4. intros [= <-].
    rewrite !orb_false_iff in G4. destruct G4 as [[[Z1 Z2] Z3] Z4]. apply no_zero_iff in Z4. apply (packable_data o (Data (Some (at_ + 13, rest_after (ev_bytes e) 13)) (le32 (ev_bytes e) 9 - 1))); [unfold B41_AGPS_PACKET_MAX; lia| |exact Z4].
    apply apart_inside; [exact A|..]; unfold B41_HOST_OUTPUT_MAX, B41_AGPS_PACKET_MAX; lia.
Qed.

(** An event of the callback's kind is sent byte for byte when its text is a
    packet; any other text is refused, and nothing is asked of the system. *)
Definition slot6_admitted (s : services) (at_ : Z) (e : b41_host_event) : Prop := owner_ready (agps_owner s) /\ apart (agps_owner s) at_ /\ packet (event_text e).
Theorem slot6_dispatch_exact s at_ e : event_ok e -> bytes_ok (ev_bytes e) -> ev_kind e = B41_HOST_AGPS_DATA ->
  performs (b41_slot6_service_dispatch s at_ (Some e)) (fun r t => kept s r.1 r.2 /\ carried s (Send (owner_fd (agps_owner s)) (event_text e)) (slot6_admitted s at_ e) r.1 t /\
    (~ packet (event_text e) -> r = (- EBADMSG, s) /\ t = [])).
Proof.
  intros He Hb Hk. rewrite dispatch_payload by exact Hk. destruct (slot6_payload at_ e) as [p|] eqn:P.
  - pose proof (payload_sound at_ e p He Hb P) as R. eapply performs_impl; [apply (performs_sending s (event_text e) p (slot6_admitted s at_ e) R)|].
    + intros (O & A & _). split; [exact O|now apply (payload_packable _ at_ e)].
    + intros r t [H1 H2]. split; [exact H1|]. split; [exact H2|]. intros N. destruct N. now apply (reads_packet _ p).
  - apply performs_ret. assert (N : ~ packet (event_text e)) by (intros Hp; destruct (payload_complete at_ e He Hp) as [p E]; congruence).
    split; [split; [apply same_sinks_refl|discriminate]|]. split; [|now intros _]. apply carried_refused; [discriminate|now split|]. left. now intros (_ & _ & X).
Qed.

(** C15. What the callback queued for the engine comes out as that packet. The
    queue holds it after all that it held before, and the dispatch of the event
    that is taken sends exactly the packet's bytes, all of them, and reports 0;
    or it reports an error after at most that one transfer, and then the
    socket's owner was not ready, or the two buffers overlap, or a call of the
    system failed, found another socket, or cut the transfer short. *)
Theorem slot6_roundtrip at_ a q selector parameter pointer m : ring a q -> first_error a = 0 -> lock a = false -> count a < B41_HOST_QUEUE_SIZE -> pointer_ok selector pointer ->
  slot6_packet at_ selector parameter pointer = Some (0, m) ->
  exists a', slot6_callback at_ (Some a) selector parameter pointer = (0, Some a') /\ ring a' (q ++ [(B41_HOST_AGPS_DATA, m)]) /\
  forall s event_at, performs (b41_slot6_service_dispatch s event_at (Some (delivered (B41_HOST_AGPS_DATA, m)))) (fun r t =>
    kept s r.1 r.2 /\ carried s (Send (owner_fd (agps_owner s)) m) (owner_ready (agps_owner s) /\ apart (agps_owner s) event_at) r.1 t).
Proof.
  intros Hr He Hl Hc Hp Hm. destruct (slot6_packet_ok _ _ _ _ _ Hp Hm) as (P & B & L). destruct (enqueue_ring a q B41_HOST_AGPS_DATA m) as (w & E & R); try assumption; [lia|].
  pose proof (slot6_enqueues at_ a _ _ _ _ Hm L) as D. rewrite E in D. exists (adapter w). split; [exact D|]. split; [exact R|]. intros s event_at.
  assert (Ev : event_ok (delivered (B41_HOST_AGPS_DATA, m))) by (split; cbn [ev_length ev_bytes delivered snd]; [lia|rewrite len_app, len_zeros; lia]).
  assert (Et : event_text (delivered (B41_HOST_AGPS_DATA, m)) = m) by (unfold event_text, delivered; cbn [ev_length ev_bytes snd]; apply take_app_length'; unfold len; lia).
  assert (Eb : bytes_ok (ev_bytes (delivered (B41_HOST_AGPS_DATA, m)))) by (apply bytes_ok_app; split; [exact B|apply bytes_ok_zeros]).
  rewrite dispatch_payload by reflexivity. destruct (payload_complete event_at _ Ev) as [p Hpay]; [now rewrite Et|]. rewrite Hpay. apply performs_sending; [rewrite <- Et; now apply (payload_sound event_at)|].
  intros [O A]. split; [exact O|now apply (payload_packable _ event_at _ _ Ev A)].
Qed.
(** The engine asks for assistance with the text "$PMTK". *)
Definition sample_text : option (Z * list Z) := Some (0x1000, chars "$PMTK" ++ [0]).
Definition sample_packet : list Z := word 1 ++ word 150 ++ [1] ++ word 6 ++ chars "$PMTK" ++ [0].
Lemma slot6_roundtrip_witness : exists a', slot6_callback 0x8000 (Some (adapter bound_world)) 0 1 sample_text = (0, Some a') /\ ring a' [(B41_HOST_AGPS_DATA, sample_packet)] /\
  forall s event_at, performs (b41_slot6_service_dispatch s event_at (Some (delivered (B41_HOST_AGPS_DATA, sample_packet)))) (fun r t =>
    kept s r.1 r.2 /\ carried s (Send (owner_fd (agps_owner s)) sample_packet) (owner_ready (agps_owner s) /\ apart (agps_owner s) event_at) r.1 t).
Proof.
  refine (slot6_roundtrip 0x8000 (adapter bound_world) [] 0 1 sample_text sample_packet bound_world_ring eq_refl eq_refl _ _ _); [reflexivity| |vm_compute; reflexivity].
  split; [cbn; byte_list; apply List.Forall_nil|discriminate].
Defined.
Definition sample_services : services := Services (zeroed_owner 0x9000) None.
Lemma slot6_dispatch_exact_witness : let s := sample_services in b41_slot6_service_dispatch s 0x9000 (Some (delivered (B41_HOST_AGPS_DATA, sample_packet ++ [1]))) = ret (- EBADMSG, s) /\
  performs (b41_slot6_service_dispatch s 0x9000 (Some (delivered (B41_HOST_AGPS_DATA, sample_packet)))) (fun r t => carried s (Send (owner_fd (agps_owner s)) sample_packet) (slot6_admitted s 0x9000 (delivered (B41_HOST_AGPS_DATA, sample_packet))) r.1 t).
Proof.
  cbn zeta. set (s := sample_services). split; [rewrite dispatch_payload by reflexivity; now vm_compute|]. set (e := delivered (B41_HOST_AGPS_DATA, sample_packet)).
  eapply performs_impl; [apply (slot6_dispatch_exact s 0x9000 e); [split; [cbn; vm_compute; split; discriminate|reflexivity]|apply bytes_ok_app; split; [cbn; byte_list; apply List.Forall_nil|apply bytes_ok_zeros]|reflexivity]|].
  change (event_text e) with sample_packet. intros r t (_ & H & _). exact H.
Defined.

(** ** The worker of the production host *)

(** What the dispatch makes of an event: a packet as it is, anything else as
    the navigation dispatch does. *)
Definition slot6_carries (s : services) (e : b41_host_event) : call := if ev_kind e =? B41_HOST_AGPS_DATA then Send (owner_fd (agps_owner s)) (event_text e) else expected s e.
Definition slot6_accepts (s : services) (at_ : Z) (e : b41_host_event) : Prop := if ev_kind e =? B41_HOST_AGPS_DATA then slot6_admitted s at_ e else admitted s at_ e.
#[export] Program Instance slot6_dispatcher : Dispatcher b41_slot6_service_dispatch := {| carries := slot6_carries; accepts := slot6_accepts |}.
Next Obligation. intros s s' e A. unfold slot6_carries. rewrite (expected_alike s s' e A). now destruct A as [-> _]. Qed.
Next Obligation. intros s s' at_ e A. unfold slot6_accepts, slot6_admitted. destruct (_ =? _); [now destruct A as [-> _]|now apply admitted_alike]. Qed.
Next Obligation.
  intros s at_ e He Hb. unfold slot6_carries, slot6_accepts. destruct (Z.eqb_spec (ev_kind e) B41_HOST_AGPS_DATA) as [K|K].
  - eapply performs_impl; [now apply slot6_dispatch_exact|]. intros r t ([_ H1] & H2 & _). now split.
  - unfold b41_slot6_service_dispatch. rewrite (proj2 (Z.eqb_neq _ _) K). now apply navigation_performs.
Qed.

(** C10. The thread of a worker whose pointer holds the dispatch that production
    sets. Whatever the queue, the stop flag and the system do, what leaves the
    host is what was taken from the queue, in that order, each event once, whole
    and where its kind belongs: an assistance packet unchanged to the socket, a
    frame as a data packet to the socket, an output to its sink. The loop goes
    on for as many rounds as it is given, unless the stop flag was seen, the
    queue or the wake descriptor reported a failure, which is kept, or the last
    event taken was refused. A refusal is kept, nothing follows it, and it has a
    reason: the event is none that the dispatch accepts, or a call of the
    system failed, found another descriptor, or cut a transfer short. The write
    to the completion eventfd comes after all of it: only keeping a failure of
    that very write follows. *)
Theorem worker_delivers fuel w event_at s : worker_dispatch w = Some b41_slot6_service_dispatch -> performs (worker_thread fuel w event_at s) (fun r t =>
  match r with
  | None => all_sent b41_slot6_service_dispatch s t /\ rounds t = fuel
  | Some _ => completed (done_fd w) (finished b41_slot6_service_dispatch s event_at) t
  end).
Proof. intros H. apply performs_thread. unfold dispatch_of. now rewrite H. Qed.
(** A kernel that agrees to everything, and one assistance packet in the queue; the stop comes after it was taken. *)
Definition sample_owner : b41_agps_owner := Owner true B41_AGPS_OWNED 6 0 1 2 0x100000.
Definition sample_worker : b41_frame_worker := Worker B41_WORKER_RUNNING false 3 4 [] (Some b41_slot6_service_dispatch).
Definition willing_kernel : environment call answer := fun t q =>
  let a v := Answer v (FileStat 1 2 0xc000 0) [] 0 [] in
  match q with
  | Send _ b | Write _ b => a (len b)
  | Load_stop _ => a (len (taken t))
  | Adapter_take => Answer 0 (FileStat 0 0 0 0) sample_packet B41_HOST_AGPS_DATA []
  | _ => a 0
  end.
Lemma worker_delivers_witness : let s := Services sample_owner None in worker_dispatch sample_worker = Some b41_slot6_service_dispatch /\
  exists s' t, worker_thread 5 sample_worker 0x9000 s willing_kernel [] = (Some s', t) /\ outgoing t = [Send 6 sample_packet; Write 4 event_one] /\
    completed 4 (finished b41_slot6_service_dispatch s 0x9000) t.
Proof.
  cbn zeta. split; [reflexivity|]. destruct (worker_delivers 5 sample_worker 0x9000 (Services sample_owner None) eq_refl willing_kernel []) as (r & t & E & H).
  assert (V : is_Some r /\ outgoing t = [Send 6 sample_packet; Write 4 event_one]).
  { change (is_Some (r, [] ++ t).1 /\ outgoing (r, [] ++ t).2 = [Send 6 sample_packet; Write 4 event_one]). rewrite <- E. vm_compute. split; [now eexists|reflexivity]. }
  destruct V as [[s' ->] V]. exists s', t. split; [exact E|]. split; [exact V|exact H].
Defined.
