(* ===== verification/NativeArguments.v ===== *)
(** * The arguments of the native engine

    [b41_gpsdl_identity.c]: which device a descriptor is, by the numbers sysfs
    gives. [b41_native_arguments.c]: the owner that puts image, devices,
    callbacks, sinks, receiver and worker together, and the one execution it
    allows. The ARM64 Bionic build, as in [NativeHost]. *)

From stdpp Require Import strings.
From S2P Require Import Prelude Trace HostQueue HostText AgpsHost HostWorker AgpsReceiver NativeHost HostConfig SlotService.
Open Scope Z_scope.
Open Scope io_scope.

(** ** Device identity *)

Record b41_gpsdl_identity := Identity { id_primary : Z; id_secondary : Z; primary_device : Z; secondary_device : Z }.
Definition B41_SYSFS_MAGIC : Z := 0x62656572.
Definition O_RDWR (flags : Z) : bool := Z.land flags 3 =? 2.
(** The numbers of a device in its 64-bit word. *)
Definition makedev (maj min : Z) : Z :=
  Z.lor (Z.lor (Z.lor (Z.shiftl (Z.land maj 0xfffff000) 32) (Z.shiftl (Z.land maj 0xfff) 8)) (Z.shiftl (Z.land min 0xffffff00) 12)) (Z.land min 0xff).
Definition major (dev : Z) : Z := Z.lor (Z.land (Z.shiftr dev 32) 0xfffff000) (Z.land (Z.shiftr dev 8) 0xfff).
Definition minor (dev : Z) : Z := Z.lor (Z.land (Z.shiftr dev 12) 0xffffff00) (Z.land dev 0xff).
Definition is_digit (c : Z) : bool := (48 <=? c) && (c <=? 57).
(** [strtoul] on a text that starts with a digit: the value and the rest. A
    value that does not fit its result is above [UINT_MAX] too. *)
Fixpoint strtoul (acc : Z) (s : list Z) : Z * list Z :=
  match s with
  | c :: r => if is_digit c then strtoul (10 * acc + (c - 48)) r else (acc, s)
  | [] => (acc, [])
  end.
(** The text of [dev]: two numbers. *)
Definition parse_dev (text : list Z) : option (Z * Z) :=
  if negb (is_digit (byte_at text 0)) then None else
  let '(maj, rest) := strtoul 0 text in
  if (UINT32_MAX <? maj) || negb (byte_at rest 0 =? 58) then None else
  let rest := skipn 1 rest in
  if negb (is_digit (byte_at rest 0)) then None else
  let '(min, rest) := strtoul 0 rest in
  if (UINT32_MAX <? min) || negb (byte_at rest 0 =? 10) || negb (byte_at rest 1 =? 0) || negb (len rest =? 1) then None else Some (maj, min).
Definition dev_path (link : Z) : list Z :=
  chars "/sys/class/gpsdl" ++ [48 + link] ++ chars "/gpsdl" ++ [48 + link] ++ chars "/dev".
(** The text of the metadata file, which is closed whatever it holds. *)
Definition read_metadata (link : Z) : os (Z + list Z) :=
  let! m := ask (Open_file (dev_path link)) in
  if failed_call m then ret (inl (value m)) else
  let! f := ask (Fstatfs (value m)) in
  let error := if failed_call f then value f else if negb (number f =? B41_SYSFS_MAGIC) then - EXDEV else 0 in
  let! r :=
    if negb (error =? 0) then ret (inl error) else
    let! r := ask (Read (value m)) in
    ret (if failed_call r then inl (value r) else if (value r =? 0) || (value r =? 63) then inl (- EBADMSG) else inr (firstn (Z.to_nat (value r)) (stored r))) in
  let! c := ask (Close (value m)) in
  ret (match r with inl e => inl e | inr text => if failed_call c then inl (value c) else inr text end).
Definition inspect (fd link : Z) : os (Z + Z) :=
  let! s := ask (Fstat fd) in
  if failed_call s then ret (inl (value s)) else
  if negb (S_ISCHR (st_mode (info s))) then ret (inl (- ENODEV)) else
  let! f := ask (Get_flags fd) in
  if failed_call f then ret (inl (value f)) else
  if negb (O_RDWR (value f)) then ret (inl (- EACCES)) else
  let! t := read_metadata link in
  ret (match t with
       | inl e => inl e
       | inr text =>
         match parse_dev text with
         | None => inl (- EBADMSG)
         | Some (maj, min) =>
           let rdev := makedev maj min in
           if negb (major rdev =? maj) || negb (minor rdev =? min) || negb (rdev =? st_rdev (info s)) then inl (- ESTALE) else inr rdev
         end
       end).
Definition b41_gpsdl_identity_snapshot (primary secondary : Z) : os (Z + b41_gpsdl_identity) :=
  if (primary <? 0) || (secondary <? -1) || (primary =? secondary) then ret (inl (- EINVAL)) else
  let! p := inspect primary 0 in
  match p with
  | inl e => ret (inl e)
  | inr p =>
    if secondary <? 0 then ret (inr (Identity primary secondary p 0)) else
    let! s := inspect secondary 1 in
    ret (match s with inl e => inl e | inr s => if p =? s then inl (- ESTALE) else inr (Identity primary secondary p s) end)
  end.

(** ** The owner *)

(** [host] is the adapter and its static pointer, [slot6] whether that of the
    assistance callback is set, [served] what the worker's thread works on. *)
Record b41_native_arguments_owner := Arguments_owner {
  ao_entered : bool; executed : bool; ao_error : Z; ao_image : b41_library_association; devices : option b41_gpsdl_identity; host : HostQueue.world; slot6 : bool;
  ao_control : b41_native_control; output_sinks : b41_navigation_output; served : services; ao_worker : b41_frame_worker; ao_stop : b41_native_stop_owner;
  ao_receiver : b41_agps_receiver; ao_arguments : option b41_engine_arguments }.
Definition with_error (o : b41_native_arguments_owner) (e : Z) := Arguments_owner (ao_entered o) (executed o) e (ao_image o) (devices o) (host o) (slot6 o) (ao_control o) (output_sinks o) (served o) (ao_worker o) (ao_stop o) (ao_receiver o) (ao_arguments o).
Definition with_receiver (o : b41_native_arguments_owner) (r : b41_agps_receiver) := Arguments_owner (ao_entered o) (executed o) (ao_error o) (ao_image o) (devices o) (host o) (slot6 o) (ao_control o) (output_sinks o) (served o) (ao_worker o) (ao_stop o) r (ao_arguments o).
Definition with_host (o : b41_native_arguments_owner) (h : HostQueue.world) := Arguments_owner (ao_entered o) (executed o) (ao_error o) (ao_image o) (devices o) h (slot6 o) (ao_control o) (output_sinks o) (served o) (ao_worker o) (ao_stop o) (ao_receiver o) (ao_arguments o).
Definition with_slot6 (o : b41_native_arguments_owner) (b : bool) := Arguments_owner (ao_entered o) (executed o) (ao_error o) (ao_image o) (devices o) (host o) b (ao_control o) (output_sinks o) (served o) (ao_worker o) (ao_stop o) (ao_receiver o) (ao_arguments o).
Definition with_control (o : b41_native_arguments_owner) (c : b41_native_control) := Arguments_owner (ao_entered o) (executed o) (ao_error o) (ao_image o) (devices o) (host o) (slot6 o) c (output_sinks o) (served o) (ao_worker o) (ao_stop o) (ao_receiver o) (ao_arguments o).
Definition with_sinks (o : b41_native_arguments_owner) (n : b41_navigation_output) (s : services) := Arguments_owner (ao_entered o) (executed o) (ao_error o) (ao_image o) (devices o) (host o) (slot6 o) (ao_control o) n s (ao_worker o) (ao_stop o) (ao_receiver o) (ao_arguments o).
Definition with_worker (o : b41_native_arguments_owner) (w : b41_frame_worker) := Arguments_owner (ao_entered o) (executed o) (ao_error o) (ao_image o) (devices o) (host o) (slot6 o) (ao_control o) (output_sinks o) (served o) w (ao_stop o) (ao_receiver o) (ao_arguments o).
Definition with_arguments (o : b41_native_arguments_owner) (a : b41_engine_arguments) := Arguments_owner (ao_entered o) (executed o) (ao_error o) (ao_image o) (devices o) (host o) (slot6 o) (ao_control o) (output_sinks o) (served o) (ao_worker o) (ao_stop o) (ao_receiver o) (Some a).
Definition enter (o : b41_native_arguments_owner) (image : b41_library_association) (d : b41_gpsdl_identity) := Arguments_owner true (executed o) (ao_error o) image (Some d) (host o) (slot6 o) (ao_control o) (output_sinks o) (served o) (ao_worker o) (ao_stop o) (ao_receiver o) (ao_arguments o).

(** The table of the engine's threads, one record at a time. *)
Fixpoint idle_records (n i : nat) (base : Z) : os Z :=
  match n with
  | O => ret 0
  | S n =>
    let! r := read_image (base + 0x6edef0 + 32 * Z.of_nat i) 32 in
    if idle_record base i (record_of r) then idle_records n (S i) base else ret (- EALREADY)
  end.
Definition stop_profile (image : b41_library_association) : os Z :=
  let! flag := read_image (base image + 0x6e6d00) 8 in
  if negb (le_of flag =? base image + 0x6fa3d8) then ret (- ESTALE) else
  let! o := read_image (le_of flag) 4 in
  if negb (le_of o =? 0) then ret (- EOPNOTSUPP) else idle_records B41_NATIVE_THREADS 0 (base image).
(** What the bundle says of the descriptors and of the mode. *)
Definition bundle_checks (b : b41_startup_bundle) (fds : list Z) : Z :=
  let c := second_block (bundle_second b) in
  let f := first_block (rt_first (runtime b)) in
  let two := len fds =? 2 in
  if negb (le32 (bytes c) 0x10 =? u32 (nth 0 fds 0)) || negb (le32 (bytes c) 0x14 =? (if two then u32 (nth 1 fds 0) else 0)) then - ESTALE else
  if existsb (fun p => p =? 0) (slice (provenance c) 0x10 8) then - ENODATA else
  if negb (forallb (fun p => p =? B41_SECOND_RECEIVER_FD) (slice (provenance c) 0x10 4)) then - ENODATA else
  if negb (forallb (fun p => p =? (if two then B41_SECOND_RECEIVER_FD else B41_SECOND_INACTIVE_SECONDARY)) (slice (provenance c) 0x14 4)) then - ENODATA else
  if existsb (fun i => (byte_at (provenance f) i =? 0) || negb (byte_at (bytes f) i =? 0)) [0x68; 0x69; 0x6a; 0x6b] then - EOPNOTSUPP else
  if negb (bool_decide (slice (bytes c) 0x1cc 12 = use_callback)) then - EOPNOTSUPP else 0.
Definition associate : os (Z + b41_library_association) :=
  let! a := ask Associate in
  ret (if failed_call a then inl (value a) else
       inr (Association (le_of (slice (stored a) 0 8)) (le_of (slice (stored a) 8 8)) (le_of (slice (stored a) 16 8)) (le_of (slice (stored a) 24 8)))).
(** Everything that is tested before anything is bound or moved. *)
Definition prepare_gate (o : b41_native_arguments_owner) (b : b41_startup_bundle) (fds : list Z) (app_fd raw_fd peer : Z) : os (Z + b41_library_association * b41_gpsdl_identity) :=
  let ipc := agps_owner (served o) in
  let second := if len fds =? 2 then nth 1 fds 0 else -1 in
  if (len fds <? 1) || (2 <? len fds) then ret (inl (- EINVAL)) else
  if ao_entered o then ret (inl (- EALREADY)) else
  if negb (initialized ipc) || negb (bool_decide (owner_state ipc = B41_AGPS_OWNED)) then ret (inl (- ENODATA)) else
  if peer <=? 0 then ret (inl (- EINVAL)) else
  if negb (bundle_checks b fds =? 0) then ret (inl (bundle_checks b fds)) else
  let! a := associate in
  match a with
  | inl e => ret (inl e)
  | inr image =>
    let! p := stop_profile image in
    if negb (p =? 0) then ret (inl p) else
    let! d := b41_gpsdl_identity_snapshot (nth 0 fds 0) second in
    ret (match d with
         | inl e => inl e
         | inr d =>
           if (app_fd =? owner_fd ipc) || (raw_fd =? owner_fd ipc) || (app_fd =? nth 0 fds 0) || (raw_fd =? nth 0 fds 0)
              || ((len fds =? 2) && ((app_fd =? nth 1 fds 0) || (raw_fd =? nth 1 fds 0))) then inl (- EINVAL) else inr (image, d)
         end)
  end.
(** The status, the owner, and the caller's descriptor variables. *)
Definition prepared : Type := Z * b41_native_arguments_owner * list Z * (Z * Z).
Definition bound_callbacks (notify : pointer) : b41_known_callbacks := Callbacks notify Another (repeat Another 8).
Definition with_dispatch (w : b41_frame_worker) (d : dispatcher) : b41_frame_worker := Worker (worker_state w) (exposed w) (wake_fd w) (done_fd w) (receivers w) (Some d).
Definition prepare_worker (o : b41_native_arguments_owner) (b : b41_startup_bundle) (notify : pointer) (fds : list Z) (sinks : Z * Z) : os prepared :=
  let failed o st fds : os prepared := ret (st, with_error o st, fds, sinks) in
  match b41_engine_arguments_build b (bound_callbacks notify) with
  | inl e => failed o e fds
  | inr a =>
    let o := with_worker o (with_dispatch (ao_worker o) b41_slot6_service_dispatch) in
    let! w := b41_frame_worker_start (ao_worker o) (agps_owner (served o)) fds in
    let o := with_worker o w.1.2 in
    if negb (w.1.1 =? 0) then failed o w.1.1 w.2 else
    let '(st, wk) := b41_frame_worker_expose (ao_worker o) in
    let o := with_worker o wk in
    if negb (st =? 0) then failed o st w.2 else
    let a := Arguments_ (notify_slot a) (slots a) (optional_null a) (first_config a) (second_config a) (b41_native_arguments_config_missing b) in
    ret (1, with_arguments o a, w.2, sinks)
  end.
Definition prepare_services (o : b41_native_arguments_owner) (b : b41_startup_bundle) (fds : list Z) (app_fd raw_fd : Z) : os prepared :=
  let failed o st sinks : os prepared := ret (st, with_error o st, fds, sinks) in
  let sinks := (app_fd, raw_fd) in
  let '(st, h) := b41_host_adapter_init true (host o) in
  let o := with_host o h in
  if negb (st =? 0) then failed o st sinks else
  let '(st, h) := b41_host_adapter_bind true true (host o) in
  let o := with_host o h in
  if negb (st =? 0) then failed o st sinks else
  let! c := b41_native_control_init (ao_control o) in
  let o := with_control o c.2 in
  if negb (c.1 =? 0) then failed o c.1 sinks else
  let! n := b41_native_control_bind (ao_control o) Another in
  if negb (n.1 =? 0) then failed o n.1 sinks else
  let '(st, bound) := b41_slot6_service_bind (Some (adapter (host o))) true (slot6 o) in
  let o := with_slot6 o bound in
  if negb (st =? 0) then failed o st sinks else
  let! t := b41_navigation_output_take false (output_sinks o) app_fd raw_fd in
  let o := with_sinks o t.1.2 (served o) in
  let sinks := t.2 in
  if negb (t.1.1 =? 0) then failed o t.1.1 sinks else
  let '(st, s) := b41_navigation_output_bind (served o) (output_sinks o) in
  let o := with_sinks o (output_sinks o) s in
  if negb (st =? 0) then failed o st sinks else
  prepare_worker o b n.2 fds sinks.
Definition b41_native_arguments_prepare (o : b41_native_arguments_owner) (b : b41_startup_bundle) (fds : list Z) (app_fd raw_fd peer uid : Z) : os prepared :=
  let failed o st : os prepared := ret (st, with_error o st, fds, (app_fd, raw_fd)) in
  let! g := prepare_gate o b fds app_fd raw_fd peer in
  match g with
  | inl e => ret (e, o, fds, (app_fd, raw_fd))
  | inr (image, d) =>
    let o := enter o image d in
    let! r := b41_agps_receiver_open (ao_receiver o) peer uid in
    let o := with_receiver o r.2 in
    if negb (r.1 =? 0) then failed o r.1 else
    let! r := b41_agps_receiver_prepare (ao_receiver o) in
    let o := with_receiver o r.2 in
    if r.1 <? 0 then failed o r.1 else
    if negb (bool_decide (rx_image (ao_receiver o) = image)) then failed o (- ESTALE) else
    prepare_services o b fds app_fd raw_fd
  end.

(** One execution; [None] when the fuel is spent. *)
Definition set_executed (o : b41_native_arguments_owner) := Arguments_owner (ao_entered o) true (ao_error o) (ao_image o) (devices o) (host o) (slot6 o) (ao_control o) (output_sinks o) (served o) (ao_worker o) (ao_stop o) (ao_receiver o) (ao_arguments o).
Definition with_session (o : b41_native_arguments_owner) (x : session) := Arguments_owner (ao_entered o) (executed o) (ao_error o) (ao_image o) (devices o) (host o) (slot6 o) (ao_control o) (output_sinks o) (served o) (host_worker x) (stop_owner x) (receiver x) (ao_arguments o).
Definition keep_first (o : b41_native_arguments_owner) (st : Z) := if negb (st =? 0) && (ao_error o =? 0) then with_error o st else o.
(** The storage of an owner that was never prepared holds zeroes. *)
Definition arguments_of (o : b41_native_arguments_owner) : b41_engine_arguments :=
  default (Arguments_ Null (repeat Null 9) (repeat 0 14) (zeros B41_FIRST_SIZE) (zeros B41_SECOND_CONFIG_SIZE) 0) (ao_arguments o).
Definition stopped_late (r : b41_native_session_result) (status : Z) : b41_native_session_result :=
  Session_result (registration_entered r) (run_entered r) (run_status r) (notices r) (joined_threads r) (- ECANCELED) (- EBUSY) (agps_activation_entered r) (agps_activation_status r) true status.
Definition still_open (st : b41_agps_rx_state) : bool := bool_decide (st = B41_AGPS_RX_PREPARED) || bool_decide (st = B41_AGPS_RX_RUNNING).
Definition b41_native_arguments_execute (fuel : nat) (o : b41_native_arguments_owner) (run worker : timespec) (result : b41_native_session_result) : os (option (Z * b41_native_arguments_owner * b41_native_session_result)) :=
  if negb (ao_entered o) then ret (Some (- EINVAL, o, result)) else
  if negb (ao_error o =? 0) then ret (Some (ao_error o, o, result)) else
  let! c := controller (ao_receiver o) in
  if negb c then ret (Some (- EPERM, o, result)) else
  if executed o then ret (Some (- EALREADY, o, result)) else
  let o := set_executed o in
  let! r := b41_native_session_execute fuel (ao_image o) (arguments_of o) (ao_control o) true (Session_of (ao_worker o) (ao_stop o) (ao_receiver o)) run worker no_result in
  match r with
  | None => ret None
  | Some (st, x, result) =>
    let o := with_session o x in
    if negb (agps_quiesce_entered result) && still_open (rx_state (ao_receiver o)) then
      let! q := b41_agps_receiver_quiesce fuel (ao_receiver o) worker in
      match q with
      | None => ret None
      | Some (qs, rx) =>
        let st := if st =? 0 then qs else st in
        ret (Some (st, keep_first (with_receiver o rx) st, stopped_late result qs))
      end
    else ret (Some (st, keep_first o st, result))
  end.

(** ** Nothing is started *)

(** Requests that neither start nor stop nor wake a thread of the engine or of the host. *)
Definition inert (e : call * answer) : bool :=
  match e.1 with Register | Run_engine | Native_stop | Write _ _ | Send _ _ | Store_stop _ | Admit | Deliver _ _ _ | Kill _ => false | _ => true end.
Lemma inert_observing {A} (m : os A) : only observing m -> only inert m.
Proof. apply only_weaken. intros [[] a]; cbn; congruence. Qed.
#[local] Hint Resolve inert_observing : rx_calm.
Lemma inert_metadata link : only inert (read_metadata link).
Proof. unfold read_metadata. only_steps. Qed.
#[local] Hint Resolve inert_metadata : rx_calm.
Lemma inert_inspect fd link : only inert (inspect fd link).
Proof. unfold inspect. only_steps. Qed.
#[local] Hint Resolve inert_inspect : rx_calm.
Lemma inert_identity p s : only inert (b41_gpsdl_identity_snapshot p s).
Proof. unfold b41_gpsdl_identity_snapshot. only_steps. Qed.
Lemma inert_records n base : forall i, only inert (idle_records n i base).
Proof. induction n as [|n IH]; intros i; cbn [idle_records]; unfold read_image; only_steps. Qed.
#[local] Hint Resolve inert_identity inert_records : rx_calm.
Lemma inert_profile image : only inert (stop_profile image).
Proof. unfold stop_profile, read_image. only_steps. Qed.
Lemma inert_associate : only inert associate.
Proof. unfold associate. only_steps. Qed.
#[local] Hint Resolve inert_profile inert_associate : rx_calm.
Lemma inert_gate o b fds a r peer : only inert (prepare_gate o b fds a r peer).
Proof. unfold prepare_gate. only_steps. Qed.
Lemma inert_eventfds n : only inert (open_eventfds n).
Proof. induction n; cbn [open_eventfds]; only_steps. Qed.
Lemma inert_stat_all l : only inert (stat_all l).
Proof. induction l; cbn [stat_all]; only_steps. Qed.
Lemma inert_close_all l : only inert (close_all l).
Proof. induction l; cbn [close_all]; only_steps. Qed.
#[local] Hint Resolve inert_gate inert_eventfds inert_stat_all inert_close_all : rx_calm.
Lemma inert_open o peer uid : only inert (b41_agps_receiver_open o peer uid).
Proof. unfold b41_agps_receiver_open, rx_setup. only_steps. Qed.
Lemma inert_detached : only inert create_detached.
Proof. unfold create_detached. only_steps. Qed.
#[local] Hint Resolve inert_detached : rx_calm.
Lemma inert_prepare o : only inert (b41_agps_receiver_prepare o).
Proof. unfold b41_agps_receiver_prepare. only_steps. Qed.
Lemma inert_start_checks ipc fds : forall previous, only inert (start_checks ipc previous fds).
Proof. induction fds; intros previous; cbn [start_checks]; only_steps. Qed.
#[local] Hint Resolve inert_open inert_prepare inert_start_checks : rx_calm.
Lemma inert_worker_start w ipc fds : only inert (b41_frame_worker_start w ipc fds).
Proof. unfold b41_frame_worker_start, close_both. only_steps. Qed.
Lemma inert_sink fd : only inert (sink_checked fd).
Proof. unfold sink_checked. only_steps. Qed.
#[local] Hint Resolve inert_worker_start inert_sink : rx_calm.
Lemma inert_output_take bound o a r : only inert (b41_navigation_output_take bound o a r).
Proof. unfold b41_navigation_output_take. only_steps. Qed.
Lemma inert_control_init c : only inert (b41_native_control_init c).
Proof. unfold b41_native_control_init. only_steps. Qed.
Lemma inert_control_bind c n : only inert (b41_native_control_bind c n).
Proof. unfold b41_native_control_bind. only_steps. Qed.
#[local] Hint Resolve inert_output_take inert_control_init inert_control_bind : rx_calm.
Lemma inert_prepare_worker o b n fds s : only inert (prepare_worker o b n fds s).
Proof. unfold prepare_worker. only_steps. Qed.
#[local] Hint Resolve inert_prepare_worker : rx_calm.
Lemma inert_prepare_services o b fds a r : only inert (prepare_services o b fds a r).
Proof. unfold prepare_services. only_steps. Qed.
#[local] Hint Resolve inert_prepare_services : rx_calm.
Lemma inert_arguments_prepare o b fds a r peer uid : only inert (b41_native_arguments_prepare o b fds a r peer uid).
Proof. unfold b41_native_arguments_prepare. only_steps. Qed.

(** ** What a prepared owner holds *)

(** The arguments keep gates of the configuration. *)
Definition gated (o : b41_native_arguments_owner) : Prop := missing_contracts (arguments_of o) <> 0.
(** An answer no system gives: an error that was kept with the sign of a
    success, or a negative status of a thread function. *)
Definition misreported (e : call * answer) : Prop :=
  match e.1 with Load_error The_receiver | Latch The_receiver _ => 0 < value e.2 | Attr_init | Attr_detach | Create_thread => value e.2 < 0 | _ => False end.
Definition parked (rx : b41_agps_receiver) : Prop := rx_entered rx = true /\ rx_state rx = B41_AGPS_RX_PREPARED.
(** After [prepare] the owner is as it was; or it is entered and keeps the error
    that is returned; or it is ready, with a parked receiver, the pointer of the
    worker set, and gates in its arguments. *)
Definition ready (o : b41_native_arguments_owner) : Prop := gated o /\ worker_dispatch (ao_worker o) = Some b41_slot6_service_dispatch /\ worker_state (ao_worker o) = B41_WORKER_RUNNING.
Definition settled (o : b41_native_arguments_owner) (p : prepared) (s : os_trace) : Prop :=
  let st := p.1.1.1 in
  let o' := p.1.1.2 in
  o' = o \/ ao_entered o' = true /\ executed o' = executed o /\
    (ao_error o' = st /\ st <> 0 \/ st = 1 /\ ao_error o' = ao_error o /\ ready o' /\ (parked (ao_receiver o') \/ Exists misreported s)).

Lemma performs_detached : performs create_detached (fun st s => st < 0 -> Exists misreported s).
Proof.
  unfold create_detached. trace_step. eapply (performs_bind _ _ (fun st s => st < 0 -> Exists misreported ((Attr_detach, p) :: s))).
  - trace_step; [trace_step; trace_step; intros L; apply Exists_cons; right; apply Exists_cons; now left|trace_step; intros L; apply Exists_cons; now left].
  - intros st s H. trace_step. trace_step. intros L. rewrite app_comm_cons. apply Exists_app. left. now apply H.
Qed.
Lemma performs_rx_fail e : e < 0 -> performs (rx_fail e) (fun r s => 0 <= r -> Exists misreported s).
Proof. intros H. unfold rx_fail. trace_step. trace_step. intros L. apply Exists_cons. left. cbn. destruct (Z.eqb_spec (value p) 0); lia. Qed.
Lemma performs_same_fds l : performs (same_fds l) (fun st _ => st <= 0).
Proof.
  induction l as [|f l IH]; cbn [same_fds]; [trace_step; lia|]. unfold same_fd at 1. eapply (performs_bind _ _ (fun st _ => st <= 0)); [trace_step; trace_step; unfold failed_call; destruct (Z.ltb_spec (value p) 0); [lia|]; now case_bool_decide|].
  intros st s H. cbv beta in H. trace_step; [trace_step; exact H|]. eapply performs_impl; [exact IH|]. auto.
Qed.
Lemma performs_rx_error : performs rx_error (fun e s => 0 < e -> Exists misreported s).
Proof. unfold rx_error. trace_step. trace_step. intros L. apply Exists_cons. now left. Qed.
Ltac excused := right; repeat (rewrite ?Exists_app, ?Exists_cons); auto 10 with lia.
Lemma performs_parks o : performs (b41_agps_receiver_prepare o) (fun r s => 0 <= r.1 -> parked r.2 \/ Exists misreported s).
Proof.
  assert (Hfail : forall e (o' : b41_agps_receiver), e < 0 -> performs (let! x := rx_fail e in ret (x, o')) (fun r s => 0 <= r.1 -> Exists misreported s)).
  { intros e o' L. eapply performs_bind; [now apply performs_rx_fail|]. intros x s H. cbv beta in H. trace_step. now rewrite app_nil_r. }
  assert (Hany : forall e (o' : b41_agps_receiver), performs (let! x := rx_fail e in ret (x, o')) (fun r s => True)).
  { intros e o'. eapply performs_bind; [apply observes_rx_fail|]. intros x s _. now trace_step. }
  unfold b41_agps_receiver_prepare. trace_step; [trace_step; intros L; cbn in L; lia|]. apply orb_false_elim in G as [Ge _]. eapply performs_bind; [apply observes_controller|]. intros c s1 _. trace_step; [trace_step; cbn; lia|].
  eapply performs_bind; [apply performs_rx_error|]. intros e s2 H2. cbv beta in H2. trace_step; [trace_step; cbn [fst]; intros L; assert (0 < e) by lia; excused|].
  trace_step. trace_step; [unfold failed_call in *; eapply performs_impl; [apply Hfail; lia|]; intros r s H L; cbv beta in H; excused|].
  cbn zeta. eapply performs_bind; [apply performs_same_fds|]. intros st s3 H3. cbv beta in H3. trace_step; [eapply performs_impl; [apply Hfail; lia|]; intros r s H L; cbv beta in H; excused|].
  trace_step. trace_step.
  { destruct (Z.lt_ge_cases (value p0) 0) as [N|N]; [|eapply performs_impl; [apply Hfail; lia|]; intros r s H L; cbv beta in H; excused].
    eapply performs_impl; [apply Hany|]. intros r s _ _. assert (misreported (Attr_init, p0)) by exact N. excused. }
  eapply performs_bind; [apply performs_detached|]. intros x s4 H4. cbv beta in H4. trace_step.
  { destruct (Z.lt_ge_cases x 0) as [N|N]; [|eapply performs_impl; [apply Hfail; lia|]; intros r s H L; cbv beta in H; excused].
    eapply performs_impl; [apply Hany|]. intros r s _ _. specialize (H4 N). excused. }
  trace_step. intros _. left. split; [cbn; now destruct (rx_entered o)|reflexivity].
Qed.
Lemma settled_failed o o' st fds sinks s : ao_entered o' = true -> executed o' = executed o -> st <> 0 -> settled o (st, with_error o' st, fds, sinks) s.
Proof. intros En E H. right. split; [exact En|]. split; [exact E|]. now left. Qed.
Ltac settle := trace_step; apply settled_failed; [first [reflexivity | assumption]..|lia].
Lemma settled_app o p s s' : settled o p s -> settled o p (s ++ s').
Proof. intros [H|(H1 & H2 & [H|(H3 & H4 & H5 & [H|H])])]; [now left|right..]; (split; [exact H1|]); (split; [exact H2|]); [now left|right..]; do 3 (split; [assumption|]); [now left|right]. apply Exists_app. now left. Qed.
Lemma started_dispatch w ipc fds : performs (b41_frame_worker_start w ipc fds) (fun r _ => r.1.1 = 0 -> worker_dispatch r.1.2 = Some (dispatch_of w) /\ worker_state r.1.2 = B41_WORKER_RUNNING).
Proof.
  unfold b41_frame_worker_start. do 3 (trace_step; [trace_step; discriminate|]). eapply performs_bind; [apply performs_start_checks|]. intros [e|ids] s [_ H]; [trace_step; contradiction|].
  unfold failed_call. trace_step. trace_step; [trace_step; cbn; lia|]. trace_step. trace_step; [trace_step; trace_step; cbn; lia|]. trace_step. trace_step; [eapply performs_bind; [apply performs_close_both|]; intros u s' _; trace_step; cbn; lia|].
  cbn zeta. eapply performs_bind; [apply inert_detached|]. intros l s' _. trace_step; [eapply performs_bind; [apply performs_close_both|]; intros u s2 _; trace_step; cbn; lia|]. trace_step. now split.
Qed.
(** From here on the receiver is not touched; [s0] is the trace of its opening and parking. *)
Section Prepared.
Variables (o0 : b41_native_arguments_owner) (s0 : os_trace).
Definition entered_from (o : b41_native_arguments_owner) : Prop := ao_entered o = true /\ executed o = executed o0 /\ ao_error o = ao_error o0 /\ (parked (ao_receiver o) \/ Exists misreported s0).
Lemma settled_prepare_worker o b n fds sinks : entered_from o -> performs (prepare_worker o b n fds sinks) (fun r _ => settled o0 r s0).
Proof.
  intros (En & E & Er & P). unfold prepare_worker. destruct (b41_engine_arguments_build b (bound_callbacks n)) as [e|a] eqn:B.
  { trace_step. apply settled_failed; [exact En|exact E|]. unfold b41_engine_arguments_build, b41_engine_callback_table_build in B. guards B; injection B as <-; discriminate. }
  cbn zeta. eapply performs_bind; [apply started_dispatch|]. intros w s Hw. cbv beta in Hw. trace_step; [settle|]. destruct (Hw ltac:(lia)) as [Hd Hs]. unfold b41_frame_worker_expose. cbn [ao_worker with_worker]. rewrite Hs, bool_decide_true by reflexivity. cbn [negb Z.eqb].
  trace_step. right. split; [exact En|]. split; [exact E|]. right. split; [reflexivity|]. split; [exact Er|]. split; [split; [apply config_missing|split; [exact Hd|reflexivity]]|]. exact P.
Qed.
Lemma settled_prepare_services o b fds a r : entered_from o -> performs (prepare_services o b fds a r) (fun r _ => settled o0 r s0).
Proof.
  intros F. pose proof F as (En & E & Er & P). unfold prepare_services. cbn zeta. destruct (b41_host_adapter_init true (host o)) as [st h]. trace_step; [settle|].
  destruct (b41_host_adapter_bind true true _) as [st' h']. trace_step; [settle|].
  eapply performs_bind; [apply inert_control_init|]. intros c s _. trace_step; [settle|]. eapply performs_bind; [apply inert_control_bind|]. intros n s' _. trace_step; [settle|].
  destruct (b41_slot6_service_bind _ _ _) as [st2 b2]. trace_step; [settle|]. eapply performs_bind; [apply inert_output_take|]. intros t s2 _. trace_step; [settle|].
  destruct (b41_navigation_output_bind _ _) as [st3 s3]. trace_step; [settle|]. eapply performs_impl; [apply settled_prepare_worker; exact F|]. auto.
Qed.
End Prepared.
Lemma settled_prepare o b fds a r peer uid : performs (b41_native_arguments_prepare o b fds a r peer uid) (settled o).
Proof.
  unfold b41_native_arguments_prepare. cbn zeta. eapply performs_bind; [apply inert_gate|]. intros g s _. destruct g as [e|[image d]]; [trace_step; now left|].
  eapply performs_bind; [apply inert_open|]. intros x s' _. trace_step; [settle|]. eapply performs_bind; [apply performs_parks|]. intros y s2 H2. cbv beta in H2. trace_step; [settle|].
  trace_step; [settle|]. eapply performs_impl; [apply (settled_prepare_services o (s ++ s' ++ s2))|].
  - do 3 (split; [reflexivity|]). destruct (H2 ltac:(lia)) as [P|P]; [now left|right]. rewrite !Exists_app. auto.
  - intros z s3 H. apply (settled_app _ _ _ s3) in H. now rewrite <- !app_assoc in H.
Qed.

(** ** A session from these arguments *)

(** The engine is not registered, run, reached or stopped, and the worker is not stopped. *)
Definition engine_call (e : call * answer) : bool :=
  match e.1 with Register | Run_engine | Native_stop | Admit | Deliver _ _ _ | Store_stop The_worker => true | _ => false end.
Definition engine_quiet (e : call * answer) : bool := negb (engine_call e).
Lemma quiet_inert {A} (m : os A) : only inert m -> only engine_quiet m.
Proof. apply only_weaken. intros [[] a]; cbn; congruence. Qed.
Lemma quiet_quiesce fuel o d : only engine_quiet (b41_agps_receiver_quiesce fuel o d).
Proof.
  assert (Q : forall A (m : os A), only observing m -> only engine_quiet m) by (intros A m H; now apply quiet_inert, inert_observing).
  unfold b41_agps_receiver_quiesce, signal. pose proof (fun f => Q _ _ (observes_await f (rx_fd o 2) d)). only_steps; auto with rx_calm.
Qed.
Lemma session_gated fuel image a c adapter x d1 d2 result : missing_contracts a <> 0 ->
  performs (b41_native_session_execute fuel image a c adapter x d1 d2 result) (fun r s => s = [] /\ exists st, r = Some (st, x, result) /\ st <> 0).
Proof.
  intros H env t. unfold b41_native_session_execute, session_admission. cbn zeta. destruct (_ || _); [|rewrite (proj2 (Z.eqb_neq _ _) H); cbn [negb]];
    (eexists _, []; split; [rewrite app_nil_r; reflexivity|]; split; [reflexivity|]; eexists; split; [reflexivity|discriminate]).
Qed.

Lemma quiet_calls s : Forall (fun e => engine_quiet e = true) s -> Forall (fun e => engine_call e = false) s.
Proof. intros H. eapply Forall_impl; [exact H|]. intros e. apply negb_true_iff. Qed.

(** *** The stop of a parked receiver *)

(** The flag is set once, and the stop eventfd is written unless it is no longer
    the one that was opened; everything else only looks. *)
Definition looks (s : os_trace) : Prop := Forall (fun e => observing e = true) s.
Definition unchanged (f : Z * file_stat) (a : answer) : Prop := failed_call a = false /\ info a = f.2.
Definition stop_request (rx : b41_agps_receiver) (s : os_trace) : Prop := exists a f rest, s = (Store_stop The_receiver, a) :: (Fstat (rx_fd rx 1), f) :: rest /\
  let stop_fd := nth 1 (rx_fds rx) (-1, FileStat 0 0 0 0) in
  (unchanged stop_fd f /\ (exists k rest', rest = (Write (rx_fd rx 1) event_one, k) :: rest' /\ looks rest') \/ ~ unchanged stop_fd f /\ looks rest).
(** Stopped with a completion, or quarantined with an error that is kept. *)
Definition stop_outcome (rx : b41_agps_receiver) (s : os_trace) (status : Z) (rx' : b41_agps_receiver) : Prop :=
  rx' = rx_with rx B41_AGPS_RX_QUIESCED /\ seen (completion (rx_fd rx 2)) s /\ (exists s0 a, s = s0 ++ [(Load_error The_receiver, a)] /\ status = value a) \/
  rx' = rx_with rx B41_AGPS_RX_QUARANTINED /\ (exists s0 e a, s = s0 ++ [(Latch The_receiver e, a)] /\ e <> 0 /\ status = (if value a =? 0 then e else value a)).
(** The attempt: refused, with the receiver as it was, only for a deadline that
    is no time and for a thread that is not the controller. *)
Definition stopping (rx : b41_agps_receiver) (deadline : timespec) (r : option (Z * b41_agps_receiver)) (s : os_trace) : Prop :=
  r = Some (- EINVAL, rx) /\ valid_time deadline = false /\ s = [] \/
  r = Some (- EPERM, rx) /\ (exists a, s = [(Same_thread, a)] /\ value a = 0) \/
  exists a s', s = (Same_thread, a) :: s' /\ value a <> 0 /\ stop_request rx s' /\ match r with None => True | Some (status, rx') => stop_outcome rx s' status rx' end.
Lemma performs_controller o : rx_entered o = true -> performs (controller o) (fun c s => exists a, s = [(Same_thread, a)] /\ c = negb (value a =? 0)).
Proof. intros E. unfold controller. rewrite E. cbn [negb]. trace_step. trace_step. now eexists. Qed.
Lemma performs_same_stop f : performs (same_fd f) (fun st s => exists a, s = [(Fstat f.1, a)] /\ (st = 0 <-> unchanged f a)).
Proof.
  unfold same_fd. trace_step. trace_step. eexists. split; [reflexivity|]. unfold unchanged, failed_call. destruct (Z.ltb_spec (value p) 0); [split; [lia|now intros []]|].
  case_bool_decide; split; try tauto; discriminate.
Qed.
Lemma looks_app s1 s2 : looks s1 -> looks s2 -> looks (s1 ++ s2).
Proof. intros H1 H2. now apply Forall_app. Qed.
Lemma performs_wake rx st f a : (st = 0 <-> unchanged (nth 1 (rx_fds rx) (-1, FileStat 0 0 0 0)) f) ->
  performs (if st =? 0 then let! k := ask (Write (rx_fd rx 1) event_one) in ret (if failed_call k && negb (value k =? - EAGAIN) then value k else 0) else ret st)
    (fun _ s => forall s', looks s' -> stop_request rx ((Store_stop The_receiver, a) :: (Fstat (rx_fd rx 1), f) :: s ++ s')).
Proof.
  intros Hst. trace_step.
  - trace_step. trace_step. intros s' L. exists a, f, ((Write (rx_fd rx 1) event_one, p) :: s'). split; [reflexivity|]. left. split; [apply Hst; lia|]. now exists p, s'.
  - trace_step. intros s' L. exists a, f, s'. split; [reflexivity|]. right. split; [|exact L]. rewrite <- Hst. lia.
Qed.
Lemma performs_stopping fuel rx d : rx_entered rx = true -> still_open (rx_state rx) = true -> performs (b41_agps_receiver_quiesce fuel rx d) (stopping rx d).
Proof.
  intros En Op. unfold b41_agps_receiver_quiesce. trace_step; [trace_step; left; split; [reflexivity|]; split; [now destruct (valid_time d)|reflexivity]|].
  eapply performs_bind; [now apply performs_controller|]. intros c s (a & -> & ->). destruct (Z.eqb_spec (value a) 0) as [Za|Za]; cbn [negb]; [trace_step; right; left; split; [reflexivity|]; now exists a|].
  assert (Hs : rx_state rx <> B41_AGPS_RX_QUARANTINED) by (intros E; rewrite E in Op; discriminate). rewrite bool_decide_false by exact Hs.
  assert (Ho : negb (bool_decide (rx_state rx = B41_AGPS_RX_RUNNING)) && negb (bool_decide (rx_state rx = B41_AGPS_RX_PREPARED)) = false) by (unfold still_open in Op; destruct (bool_decide _), (bool_decide _); now try discriminate Op). rewrite Ho.
  trace_step. eapply performs_bind; [apply performs_same_stop|]. intros st s (f & -> & Hst). change (nth 1 (rx_fds rx) _).1 with (rx_fd rx 1). eapply performs_bind; [apply (performs_wake rx st f p Hst)|]. intros st2 s2 H2. cbv beta in H2.
  eapply (performs_bind _ _ (fun _ s => looks s)); [unfold looks; only_steps|]. intros st3 s3 H3. cbv beta in H3.
  eapply (performs_bind _ _ (fun w s => looks s /\ (w = Some 0 -> seen (completion (rx_fd rx 2)) s))).
  { trace_step; [|trace_step; split; [constructor|]; intros [= ->]; discriminate]. eapply performs_impl; [apply (performs_and _ _ _ (performs_rx_await fuel (rx_fd rx 2) d) (observes_await fuel (rx_fd rx 2) d))|].
    intros w s [[_ Hw] L]. split; [exact L|]. intros E. destruct (Hw E) as (ms & x & Hi & Hx). exists (Poll (rx_fd rx 2) ms, x). now repeat split. }
  intros w s4 [H4 Hw]. assert (Hreq : forall s5, looks s5 -> stop_request rx ((Store_stop The_receiver, p) :: (Fstat (rx_fd rx 1), f) :: s2 ++ s3 ++ s4 ++ s5)) by (intros s5 H5; apply H2; now repeat apply looks_app).
  destruct w as [w|]; [|trace_step; right; right; exists a; eexists; split; [reflexivity|]; split; [exact Za|]; split; [apply Hreq; constructor|exact I]].
  destruct (Z.eqb_spec w 0) as [-> |Nw].
  - eapply (performs_bind _ _ (fun e s => exists x, s = [(Load_error The_receiver, x)] /\ e = value x)); [unfold rx_error; trace_step; trace_step; now eexists|]. intros e s5 (x & -> & ->). trace_step.
    right. right. exists a. eexists. split; [reflexivity|]. split; [exact Za|]. split; [apply Hreq; now repeat constructor|]. left. split; [reflexivity|]. split; [|eexists ((_ :: _ :: s2 ++ s3 ++ s4)), x; split; [cbn [Datatypes.app]; now rewrite <- !app_assoc|reflexivity]].
    apply (seen_r _ [_; _]). do 2 apply seen_r. apply seen_l. auto.
  - eapply (performs_bind _ _ (fun e s => exists x, s = [(Latch The_receiver w, x)] /\ e = if value x =? 0 then w else value x)); [unfold rx_fail; trace_step; trace_step; now eexists|]. intros e s5 (x & -> & ->). trace_step.
    right. right. exists a. eexists. split; [reflexivity|]. split; [exact Za|]. split; [apply Hreq; now repeat constructor|]. right. split; [reflexivity|].
    eexists ((_ :: _ :: s2 ++ s3 ++ s4)), w, x. split; [cbn [Datatypes.app]; now rewrite <- !app_assoc|]. now split.
Qed.

(** *** What an execution leaves *)

(** It was turned away: the owner and the caller's record are as they were. *)
Definition turned_away (o : b41_native_arguments_owner) (st : Z) (s : os_trace) : Prop :=
  ao_entered o = false /\ st = - EINVAL /\ s = [] \/
  ao_error o <> 0 /\ st = ao_error o /\ s = [] \/
  rx_entered (ao_receiver o) = false /\ st = - EPERM /\ s = [] \/
  (exists a, s = [(Same_thread, a)] /\ (value a = 0 /\ st = - EPERM \/ executed o = true /\ st = - EALREADY)).
(** It was refused, but an open receiver was stopped, and the record says with what status. *)
Definition refused_session (o : b41_native_arguments_owner) (deadline : timespec) (r : option (Z * b41_native_arguments_owner * b41_native_session_result)) (s : os_trace) : Prop :=
  executed o = false /\ exists a s', s = (Same_thread, a) :: s' /\ value a <> 0 /\
  match r with
  | None => still_open (rx_state (ao_receiver o)) = true /\ stopping (ao_receiver o) deadline None s'
  | Some (st, o', res) => executed o' = true /\ ao_error o' = st /\
      if still_open (rx_state (ao_receiver o)) then exists qs, res = stopped_late no_result qs /\ stopping (ao_receiver o) deadline (Some (qs, ao_receiver o')) s'
      else res = no_result /\ ao_receiver o' = ao_receiver o /\ s' = []
  end.
Definition leaves (o : b41_native_arguments_owner) (result : b41_native_session_result) (deadline : timespec) (r : option (Z * b41_native_arguments_owner * b41_native_session_result)) (s : os_trace) : Prop :=
  (exists st, st <> 0 /\ r = Some (st, o, result) /\ turned_away o st s) \/ (forall st o' res, r = Some (st, o', res) -> st <> 0) /\ refused_session o deadline r s.
Lemma keep_first_kept o st : ao_error o = 0 -> st <> 0 -> ao_error (keep_first o st) = st /\ executed (keep_first o st) = executed o /\ ao_receiver (keep_first o st) = ao_receiver o.
Proof. intros E N. unfold keep_first. rewrite E, (proj2 (Z.eqb_neq _ _) N). now repeat split. Qed.
Lemma performs_execute fuel o run worker result : ao_entered o = false \/ ao_error o <> 0 \/ gated o ->
  performs (b41_native_arguments_execute fuel o run worker result) (leaves o result worker).
Proof.
  intros Ho. assert (Haway : forall st s, st <> 0 -> turned_away o st s -> leaves o result worker (Some (st, o, result)) s) by (intros st s N H; left; now exists st).
  unfold b41_native_arguments_execute. destruct (ao_entered o) eqn:En; cbn [negb]; [|trace_step; apply Haway; [discriminate|now left]]. destruct Ho as [Ho|Ho]; [discriminate|].
  destruct (Z.eqb_spec (ao_error o) 0) as [E0|E0]; cbn [negb]; [|trace_step; apply Haway; [exact E0|right; now left]]. destruct Ho as [Ho|Ho]; [contradiction|].
  destruct (rx_entered (ao_receiver o)) eqn:Rx; [|unfold controller; rewrite Rx; apply (performs_bind _ _ (fun c s => c = false /\ s = [])); [cbn [negb]; now trace_step|]; intros c s [-> ->]; cbn [negb]; trace_step; apply Haway; [discriminate|right; right; now left]].
  eapply performs_bind; [now apply performs_controller|]. intros c s (a & -> & ->). destruct (Z.eqb_spec (value a) 0) as [Za|Za]; cbn [negb]; [trace_step; apply Haway; [discriminate|right; right; right; exists a; auto]|].
  destruct (executed o) eqn:Ex; [trace_step; apply Haway; [discriminate|right; right; right; exists a; auto]|].
  cbn zeta. eapply performs_bind; [apply (session_gated fuel); exact Ho|]. intros r s' [-> (st & -> & Hst)]. cbn [agps_quiesce_entered no_result negb andb].
  change (rx_state (ao_receiver (with_session _ _))) with (rx_state (ao_receiver o)). change (ao_receiver (with_session _ _)) with (ao_receiver o). destruct (still_open _) eqn:O.
  - eapply performs_bind; [now apply performs_stopping|]. intros q s2 Hq. cbv beta in Hq. destruct q as [[qs rx]|]; trace_step; cbn [Datatypes.app]; rewrite app_nil_r; right.
    + rewrite (proj2 (Z.eqb_neq _ _) Hst). split; [now intros ? ? ? [= <- _ _]|]. destruct (keep_first_kept (with_receiver (with_session (set_executed o) (Session_of (ao_worker o) (ao_stop o) (ao_receiver o))) rx) st E0 Hst) as (K1 & K2 & K3).
      split; [exact Ex|]. exists a, s2. split; [reflexivity|]. split; [exact Za|]. split; [exact K2|]. split; [exact K1|]. rewrite O. exists qs. split; [reflexivity|]. rewrite <- (eq_trans K3 eq_refl : _ = rx) in Hq. exact Hq.
    + split; [discriminate|]. split; [exact Ex|]. exists a, s2. split; [reflexivity|]. split; [exact Za|]. now split.
  - trace_step. right. split; [now intros ? ? ? [= <- _ _]|]. destruct (keep_first_kept (with_session (set_executed o) (Session_of (ao_worker o) (ao_stop o) (ao_receiver o))) st E0 Hst) as (K1 & K2 & K3).
    split; [exact Ex|]. exists a, []. split; [reflexivity|]. split; [exact Za|]. split; [exact K2|]. split; [exact K1|]. rewrite O. split; [reflexivity|]. split; [exact K3|reflexivity].
Qed.
Lemma execute_quiet fuel o run worker result : ao_entered o = false \/ ao_error o <> 0 \/ gated o ->
  performs (b41_native_arguments_execute fuel o run worker result) (fun _ s => Forall (fun e => engine_quiet e = true) s).
Proof.
  intros Ho. unfold b41_native_arguments_execute. destruct (ao_entered o); cbn [negb]; [|trace_step; constructor]. destruct Ho as [Ho|Ho]; [discriminate|].
  destruct (Z.eqb_spec (ao_error o) 0) as [E0|E0]; cbn [negb]; [|trace_step; constructor]. destruct Ho as [Ho|Ho]; [contradiction|].
  eapply performs_bind; [apply quiet_inert, inert_observing, observes_controller|]. intros c s Hs. cbv beta in Hs. trace_step; [trace_step; now rewrite app_nil_r|]. trace_step; [trace_step; now rewrite app_nil_r|].
  cbn zeta. eapply performs_bind; [apply (session_gated fuel); exact Ho|]. intros r s' [-> (st & -> & Hst)]. cbn [Datatypes.app]. trace_step; [|trace_step; now rewrite app_nil_r].
  eapply performs_bind; [apply quiet_quiesce|]. intros q s2 Hq. cbv beta in Hq. destruct q as [[qs rx]|]; trace_step; rewrite app_nil_r; apply Forall_app; now split.
Qed.

(** [prepare] and then [execute]; what both returned. *)
Definition run_once (fuel : nat) (o : b41_native_arguments_owner) (b : b41_startup_bundle) (fds : list Z) (app_fd raw_fd peer uid : Z) (run worker : timespec) (result : b41_native_session_result) :=
  let! p := b41_native_arguments_prepare o b fds app_fd raw_fd peer uid in
  let! r := b41_native_arguments_execute fuel p.1.1.2 run worker result in
  ret (p, r).
(** C4. Whatever the bundle, the two calls never reach the engine. The first one
    stops, wakes and sends nothing: the owner is as it was, or keeps the error
    that is returned (a receiver that it parked stays parked then, and only the
    end of the process stops it), or it is ready, with a parked receiver, a
    running worker whose pointer holds the assistance dispatch, and gates in
    the arguments. The second one reports an error. Either it was turned away
    and changed nothing, or the session was refused, and then a receiver that is
    still open is stopped: the flag is set once, the stop eventfd is written
    unless it is no longer the one that was opened, the receiver is stopped only
    after a completion was seen and quarantined with a kept error otherwise,
    and the caller's record holds that status. Only a deadline that is no time
    or a thread that is not the controller prevents it. *)
Theorem arguments_never_run fuel o b fds app_fd raw_fd peer uid run worker result : ao_entered o = false ->
  performs (run_once fuel o b fds app_fd raw_fd peer uid run worker result) (fun r s => Forall (fun e => engine_call e = false) s /\
    exists s1 s2, s = s1 ++ s2 /\ Forall (fun e => inert e = true) s1 /\ settled o r.1 s1 /\ leaves r.1.1.1.2 result worker r.2 s2).
Proof.
  intros Hf. unfold run_once. eapply performs_bind; [apply (performs_and _ _ _ (inert_arguments_prepare o b fds app_fd raw_fd peer uid) (settled_prepare o b fds app_fd raw_fd peer uid))|].
  intros p s [Hs Hp]. assert (Ho : ao_entered p.1.1.2 = false \/ ao_error p.1.1.2 <> 0 \/ gated p.1.1.2).
  { destruct Hp as [-> |(_ & _ & [[-> H]|(_ & _ & [H _] & _)])]; auto. }
  eapply performs_bind; [apply (performs_and _ _ _ (execute_quiet fuel _ run worker result Ho) (performs_execute fuel _ run worker result Ho))|]. intros r s' [Hq L]. trace_step. rewrite app_nil_r. cbn [fst snd].
  split; [|exists s, s'; now split]. apply quiet_calls, Forall_app. split; [|exact Hq]. eapply Forall_impl; [exact Hs|]. intros [[] y]; cbn; congruence.
Qed.

(** A fresh owner, the bundle of [HostConfig] and a system that grants everything. *)
Definition no_image : b41_library_association := Association 0 0 0 0.
Definition no_sink : sink := Sink (-1) (-1) (FileStat 0 0 0 0) 0.
Definition fresh_owner : b41_native_arguments_owner :=
  Arguments_owner false false 0 no_image None (World false (Adapter false 0 0 0 (repeat zero_event 16))) false (Control (-1) 0) (Output B41_NAV_OUTPUT_EMPTY 0 no_sink no_sink)
    (Services (Owner true B41_AGPS_OWNED 9 0 1 9 0x9000) None) (Worker B41_WORKER_FRESH false (-1) (-1) [] None) (Stop_owner B41_NATIVE_STOP_EMPTY (Snapshot 0 0 []) no_image 0)
    (Receiver false B41_AGPS_RX_FRESH no_fds 0 0 no_image) None.
Definition granting : environment call answer := fun t q =>
  let a v n bytes := Answer v (FileStat 0 0 0 0) bytes n [] in
  match q with
  | Fstat fd => Answer 0 (if fd =? 12 then FileStat 1 12 0x2000 (makedev 10 5) else FileStat 1 fd 0x1000 0) [] 0 []
  | Get_flags fd => a (if fd =? 12 then 2 else 0x801) 0 []
  | Associate => a 0 0 (put64 4096 ++ put64 1 ++ put64 2 ++ put64 B41_LIBRARY_IMAGE_END)
  | Read_image address size => a 0 0 (if size =? 8 then put64 (4096 + 0x6fa3d8) else if size =? 4 then put32 0 else sample_record (-1) UINT64_MAX (Z.to_nat ((address - 4096 - 0x6edef0) / 32)))
  | Open_file _ => a 30 0 []
  | Fstatfs _ => a 0 B41_SYSFS_MAGIC []
  | Read fd => if fd =? 30 then a 5 0 (chars "10:5" ++ [10]) else a 8 0 []
  | Socket => a 5 0 []
  | Eventfd => a (Z.of_nat (20 + length t)) 0 []
  | Same_thread | Bind_control | Load_bound => a 1 0 []
  | Poll _ _ => a 1 1 []
  | Write _ _ => a 8 0 []
  | Clock => a 0 0 (put64 0)
  | _ => a 0 0 []
  end.
Lemma arguments_never_run_witness : ao_entered fresh_owner = false /\
  exists p st o' res s, run_once 9 fresh_owner sample_bundle [12] 40 41 77 0 (Time 3 0) (Time 99 0) no_result granting [] = (p, Some (st, o', res), s) /\
    Forall (fun e => engine_call e = false) s /\ p.1.1.1 = 1 /\ st = - EOPNOTSUPP /\ executed o' = true /\ res = stopped_late no_result 0 /\ rx_state (ao_receiver o') = B41_AGPS_RX_QUIESCED.
Proof.
  split; [reflexivity|]. destruct (arguments_never_run 9 fresh_owner sample_bundle [12] 40 41 77 0 (Time 3 0) (Time 99 0) no_result eq_refl granting []) as ([p r] & s & E & Q & _). cbn [Datatypes.app] in E.
  assert (V : match (p, r, s).1 with (p, Some (st, o', res)) => p.1.1.1 = 1 /\ st = - EOPNOTSUPP /\ executed o' = true /\ res = stopped_late no_result 0 /\ rx_state (ao_receiver o') = B41_AGPS_RX_QUIESCED | (_, None) => False end)
    by (rewrite <- E; vm_compute; now repeat split).
  destruct r as [[[st o'] res]|]; [|destruct V]. exists p, st, o', res, s. split; [exact E|]. split; [exact Q|exact V].
Defined.

(** ** Device identity *)

Lemma testbit_mask lo hi n : 0 <= lo <= hi -> 0 <= n -> Z.testbit (Z.shiftl (Z.ones (hi - lo)) lo) n = (lo <=? n) && (n <? hi).
Proof. intros H Hn. rewrite Z.shiftl_spec by lia. destruct (Z.leb_spec lo n); cbn [andb]; [rewrite Z.testbit_ones_nonneg by lia; lia|now rewrite Z.testbit_neg_r by lia]. Qed.
Lemma u32_high v n : is_u32 v -> 32 <= n -> Z.testbit v n = false.
Proof. unfold is_u32. intros H Hn. destruct (Z.eq_dec v 0) as [-> |N]; [apply Z.bits_0|]. apply Z.bits_above_log2; [lia|]. assert (Z.log2 v < 32) by (apply Z.log2_lt_pow2; lia). lia. Qed.
(** One bit of the word. *)
Lemma makedev_bit maj min n : is_u32 maj -> is_u32 min -> 0 <= n ->
  Z.testbit (makedev maj min) n = if n <? 8 then Z.testbit min n else if n <? 20 then Z.testbit maj (n - 8) else if n <? 44 then Z.testbit min (n - 12) else Z.testbit maj (n - 32).
Proof.
  intros Hj Hm Hn. unfold makedev. change 0xfffff000 with (Z.shiftl (Z.ones (32 - 12)) 12). change 0xfff with (Z.shiftl (Z.ones (12 - 0)) 0).
  change 0xffffff00 with (Z.shiftl (Z.ones (32 - 8)) 8). change 0xff with (Z.shiftl (Z.ones (8 - 0)) 0). rewrite !Z.lor_spec, !(Z.shiftl_spec (Z.land _ _)), !Z.land_spec by lia.
  assert (M : forall v k lo hi, 0 <= lo <= hi -> Z.testbit v (n - k) && Z.testbit (Z.shiftl (Z.ones (hi - lo)) lo) (n - k) = Z.testbit v (n - k) && ((lo <=? n - k) && (n - k <? hi))).
  { intros v k lo hi H. destruct (Z.le_gt_cases k n); [now rewrite testbit_mask by lia|now rewrite (Z.testbit_neg_r v) by lia]. }
  rewrite (M maj 32 12 32), (M maj 8 0 12), (M min 12 8 32), (testbit_mask 0 8 n) by lia.
  destruct (Z.ltb_spec n 8); [|destruct (Z.ltb_spec n 20); [|destruct (Z.ltb_spec n 44)]].
  all: repeat match goal with |- context [(?a <=? ?b)] => first [rewrite (proj2 (Z.leb_le a b)) by lia | rewrite (proj2 (Z.leb_gt a b)) by lia] end.
  all: repeat match goal with |- context [(?a <? ?b)] => first [rewrite (proj2 (Z.ltb_lt a b)) by lia | rewrite (proj2 (Z.ltb_ge a b)) by lia] end.
  all: cbn [andb]; rewrite ?andb_false_r, ?andb_true_r; cbn [orb]; rewrite ?orb_false_r; try reflexivity.
  destruct (Z.ltb_spec (n - 32) 32); rewrite ?andb_true_r, ?andb_false_r; [reflexivity|]. now rewrite u32_high by (assumption || lia).
Qed.
(** The two numbers come back from the word. *)
Lemma major_makedev maj min : is_u32 maj -> is_u32 min -> major (makedev maj min) = maj.
Proof.
  intros Hj Hm. apply Z.bits_inj'. intros n Hn. unfold major. change 0xfffff000 with (Z.shiftl (Z.ones (32 - 12)) 12). change 0xfff with (Z.shiftl (Z.ones (12 - 0)) 0).
  rewrite Z.lor_spec, !Z.land_spec, !Z.shiftr_spec, !testbit_mask, !makedev_bit by (assumption || lia). destruct (Z.le_gt_cases 32 n) as [H|H]; [rewrite (u32_high maj n) by (assumption || lia)|].
  - rewrite (proj2 (Z.ltb_ge n 32)), (proj2 (Z.ltb_ge n 12)) by lia. now rewrite !andb_false_r.
  - rewrite (proj2 (Z.ltb_ge (n + 8) 8)), (proj2 (Z.ltb_ge (n + 32) 8)), (proj2 (Z.ltb_ge (n + 32) 20)), (proj2 (Z.leb_le 0 n)), (proj2 (Z.ltb_lt n 32)) by lia. cbn [andb].
    rewrite Z.add_simpl_r. destruct (Z.ltb_spec n 12); [rewrite (proj2 (Z.leb_gt 12 n)), (proj2 (Z.ltb_lt (n + 8) 20)) by lia|rewrite (proj2 (Z.leb_le 12 n)), (proj2 (Z.ltb_ge (n + 32) 44)) by lia]; cbn [andb];
      rewrite ?andb_true_r, ?andb_false_r, ?orb_false_r; cbn [orb]; f_equal; lia.
Qed.
Lemma minor_makedev maj min : is_u32 maj -> is_u32 min -> minor (makedev maj min) = min.
Proof.
  intros Hj Hm. apply Z.bits_inj'. intros n Hn. unfold minor. change 0xffffff00 with (Z.shiftl (Z.ones (32 - 8)) 8). change 0xff with (Z.shiftl (Z.ones (8 - 0)) 0).
  rewrite Z.lor_spec, !Z.land_spec, !Z.shiftr_spec, !testbit_mask, !makedev_bit by (assumption || lia). destruct (Z.le_gt_cases 32 n) as [H|H]; [rewrite (u32_high min n) by (assumption || lia)|].
  - rewrite (proj2 (Z.ltb_ge n 32)), (proj2 (Z.ltb_ge n 8)) by lia. now rewrite !andb_false_r.
  - rewrite (proj2 (Z.ltb_ge (n + 12) 8)), (proj2 (Z.ltb_lt (n + 12) 44)), (proj2 (Z.leb_le 0 n)), (proj2 (Z.ltb_lt n 32)) by lia. cbn [andb].
    rewrite Z.add_simpl_r. destruct (Z.ltb_spec n 8); [rewrite (proj2 (Z.leb_gt 8 n)) by lia|rewrite (proj2 (Z.leb_le 8 n)), (proj2 (Z.ltb_ge (n + 12) 20)) by lia]; cbn [andb];
      rewrite ?andb_true_r, ?andb_false_r, ?orb_false_r; reflexivity.
Qed.
(** A run of digits and its value. *)
Definition number_of (digits : list Z) : Z := foldl (fun acc c => 10 * acc + (c - 48)) 0 digits.
Lemma strtoul_split s : forall acc, exists d, strtoul acc s = (foldl (fun acc c => 10 * acc + (c - 48)) acc d, skipn (length d) s) /\ s = d ++ skipn (length d) s /\ Forall (fun c => is_digit c = true) d /\
  match skipn (length d) s with c :: _ => is_digit c = false | [] => True end.
Proof.
  induction s as [|c s IH]; intros acc; cbn [strtoul]; [exists []; repeat split; constructor|]. destruct (is_digit c) eqn:D.
  - destruct (IH (10 * acc + (c - 48))) as (d & E & S & F & N). exists (c :: d). cbn [foldl length skipn Datatypes.app]. split; [exact E|]. split; [now f_equal|]. split; [now apply List.Forall_cons|exact N].
  - exists []. repeat split; [constructor|exact D].
Qed.
(** The text is two numbers of 32 bits in decimal, a colon between them and a newline behind. *)
Lemma parse_dev_sound text maj min : parse_dev text = Some (maj, min) -> exists d1 d2, text = d1 ++ [58] ++ d2 ++ [10] /\ d1 <> [] /\ d2 <> [] /\
  Forall (fun c => is_digit c = true) (d1 ++ d2) /\ number_of d1 = maj /\ number_of d2 = min /\ maj <= UINT32_MAX /\ min <= UINT32_MAX.
Proof.
  unfold parse_dev. destruct (is_digit (byte_at text 0)) eqn:D1; cbn [negb]; [|discriminate]. destruct (strtoul_split text 0) as (d1 & E1 & S1 & F1 & _). rewrite E1.
  set (rest := skipn (length d1) text) in *. destruct ((UINT32_MAX <? _) || _) eqn:G1; [discriminate|]. destruct rest as [|c rest]; [cbn in G1; rewrite orb_true_r in G1; discriminate|].
  change (byte_at (c :: rest) 0) with c in G1. change (skipn 1 (c :: rest)) with rest. destruct (is_digit (byte_at rest 0)) eqn:D2; cbn [negb]; [|discriminate].
  destruct (strtoul_split rest 0) as (d2 & E2 & S2 & F2 & _). rewrite E2. set (last := skipn (length d2) rest) in *. destruct (_ || negb (len last =? 1)) eqn:G2; [discriminate|]. intros [= <- <-].
  rewrite !orb_false_iff in G2. destruct G2 as [[[L2 N2] _] K]. destruct last as [|x [|y l]]; [cbn in K; discriminate| |rewrite !len_cons in K; pose proof (len_nonneg l); lia].
  change (byte_at [x] 0) with x in N2. exists d1, d2. apply orb_false_iff in G1 as [L1 N1]. replace c with 58 in * by lia. replace x with 10 in * by lia.
  split; [rewrite S1 at 1; now rewrite S2 at 1|]. split; [intros ->; rewrite S1 in D1; discriminate|]. split; [intros ->; rewrite S2 in D2; discriminate|].
  split; [apply Forall_app; now split|]. repeat split; unfold number_of; lia.
Qed.
Definition opened_file (e : call * answer) : list Z := match e with (Open_file _, a) => if failed_call a then [] else [value a] | _ => [] end.
(** Every file that was opened is closed, once, in that order, and nothing else is. *)
Definition balanced (s : os_trace) : Prop := mjoin (opened_file <$> s) = closes s.
(** The events that show which device a descriptor is. *)
Definition shown (s : os_trace) (fd link dev : Z) : Prop := exists a m r,
  In (Fstat fd, a) s /\ S_ISCHR (st_mode (info a)) = true /\ st_rdev (info a) = dev /\ In (Open_file (dev_path link), m) s /\ In (Read (value m), r) s /\
  parse_dev (firstn (Z.to_nat (value r)) (stored r)) = Some (major dev, minor dev).
Lemma balanced_files_app s1 s2 : balanced s1 -> balanced s2 -> balanced (s1 ++ s2).
Proof. unfold balanced, closes. intros H1 H2. now rewrite !fmap_app, !join_app, H1, H2. Qed.
Lemma shown_l s1 s2 fd link dev : shown s1 fd link dev -> shown (s1 ++ s2) fd link dev.
Proof. intros (a & m & r & H1 & H2 & H3 & H4 & H5 & H6). exists a, m, r. repeat split; auto; apply in_or_app; now left. Qed.
Lemma shown_r s1 s2 fd link dev : shown s2 fd link dev -> shown (s1 ++ s2) fd link dev.
Proof. intros (a & m & r & H1 & H2 & H3 & H4 & H5 & H6). exists a, m, r. repeat split; auto; apply in_or_app; now right. Qed.
Lemma performs_metadata link : performs (read_metadata link) (fun t s => balanced s /\
  match t with inl _ => True | inr text => exists m r, In (Open_file (dev_path link), m) s /\ In (Read (value m), r) s /\ text = firstn (Z.to_nat (value r)) (stored r) end).
Proof.
  unfold read_metadata. trace_step. trace_step; [trace_step; split; [unfold balanced, closes; cbn; now rewrite G|exact I]|]. trace_step. cbn zeta. set (error := if failed_call p0 then _ else _).
  eapply (performs_bind _ _ (fun r s => match r with inl _ => s = [] \/ exists a, s = [(Read (value p), a)] | inr text => exists a, s = [(Read (value p), a)] /\ text = firstn (Z.to_nat (value a)) (stored a) end)).
  { trace_step; [trace_step; now left|]. trace_step. trace_step. cbn [Datatypes.app]. destruct (failed_call p1); [right; now exists p1|]. destruct (_ || _); [right; now exists p1|]. now exists p1. }
  intros r s Hr. cbv beta in Hr. trace_step. trace_step. cbn [Datatypes.app].
  assert (Hb : s = [] \/ (exists a, s = [(Read (value p), a)]) -> balanced ((Open_file (dev_path link), p) :: (Fstatfs (value p), p0) :: s ++ [(Close (value p), p1)])).
  { intros [-> |[a ->]]; unfold balanced, closes; cbn; rewrite G; reflexivity. }
  destruct r as [e|text]; [split; [now apply Hb|exact I]|]. destruct Hr as (a & -> & ->). split; [apply Hb; right; now exists a|]. destruct (failed_call p1); [exact I|].
  exists p, a. split; [now left|]. split; [right; right; now left|reflexivity].
Qed.
Lemma performs_inspect fd link : performs (inspect fd link) (fun r s => balanced s /\ match r with inl _ => True | inr dev => shown s fd link dev end).
Proof.
  unfold inspect. trace_step. trace_step; [trace_step; now split|]. trace_step; [trace_step; now split|]. trace_step. trace_step; [trace_step; now split|]. trace_step; [trace_step; now split|].
  eapply performs_bind; [apply performs_metadata|]. intros t s [Hb Ht]. trace_step. rewrite app_nil_r. cbn [Datatypes.app]. split; [now apply (balanced_files_app [_; _])|].
  destruct t as [e|text]; [exact I|]. destruct Ht as (m & r & H1 & H2 & ->). destruct (parse_dev _) as [[maj min]|] eqn:P; [|exact I]. cbn zeta. destruct (_ || _) eqn:G3; [exact I|].
  exists p, m, r. split; [now left|]. split; [now destruct (S_ISCHR _)|]. split; [lia|]. split; [right; right; exact H1|]. split; [right; right; exact H2|].
  rewrite P. f_equal. f_equal; lia.
Qed.
(** An identity is given only for character devices whose number is the one
    that sysfs holds for gpsdl0 and gpsdl1, and for two different devices; the
    metadata files that were opened are closed, the descriptors never. *)
Theorem gpsdl_identity_exact p q : performs (b41_gpsdl_identity_snapshot p q) (fun r s => balanced s /\
  match r with
  | inl _ => True
  | inr d => id_primary d = p /\ id_secondary d = q /\ 0 <= p /\ shown s p 0 (primary_device d) /\ (0 <= q -> shown s q 1 (secondary_device d) /\ primary_device d <> secondary_device d)
  end).
Proof.
  unfold b41_gpsdl_identity_snapshot. destruct ((p <? 0) || _ || _) eqn:G; [trace_step; now split|]. eapply performs_bind; [apply performs_inspect|]. intros x s [Hb Hx].
  destruct x as [e|dev]; [trace_step; rewrite app_nil_r; now split|]. destruct (Z.ltb_spec q 0) as [L|L].
  { trace_step. rewrite app_nil_r. split; [exact Hb|]. cbn [id_primary id_secondary primary_device]. repeat split; [lia|exact Hx|lia|lia]. }
  eapply performs_bind; [apply performs_inspect|]. intros y s' [Hb' Hy]. trace_step. rewrite app_nil_r. split; [now apply balanced_files_app|]. destruct y as [e|dev']; [exact I|].
  destruct (Z.eqb_spec dev dev'); [exact I|]. cbn [id_primary id_secondary primary_device secondary_device]. repeat split; [lia|now apply shown_l|now apply shown_r|assumption].
Qed.
