(* ===== verification/GpuIo.v ===== *)
(** * The GPUEB mailbox core: [gpu/mmio-scope/mt6878-gpueb-io-core.c]

    A guarded owner of the GPUEB mailbox registers. The register accessors
    are an interface ([Mmio]); every access the core makes is traced, so the
    theorems speak about the order in which the device sees them. *)

From S2P Require Import Prelude.

Abbreviation GPUEB_IO_WORDS := 8 (only parsing).
Abbreviation GPUEB_IO_TX := 0x10 (only parsing).
Abbreviation GPUEB_IO_RX := 0xe8 (only parsing).
Abbreviation GPUEB_IO_CHANNEL := 2 (only parsing).
Abbreviation GPUEB_IO_GPR_SIZE := 0x64 (only parsing).
Abbreviation GPUEB_IO_DATA_SIZE := 0x280 (only parsing).

Inductive gpueb_io_region : Type :=
| GPUEB_IO_GPR
| GPUEB_IO_DATA
| GPUEB_IO_SEND
| GPUEB_IO_SET
| GPUEB_IO_RECV
| GPUEB_IO_CLEAR
| GPUEB_IO_REGION_COUNT.

Inductive gpueb_io_phase : Type :=
| GPUEB_IO_UNPROVEN
| GPUEB_IO_TRANSACTION
| GPUEB_IO_QUIESCED
| GPUEB_IO_QUARANTINED.
#[export] Instance gpueb_io_phase_eq_dec : EqDecision gpueb_io_phase.
Proof. solve_decision. Defined.

Record gpueb_io_core : Type := IoCore {
  phase : gpueb_io_phase;
  users : Z;
  physical_uncertain : Z;
  first_error : Z
}.

(** [struct gpueb_io_ops]: the status of an access, with the value read. *)
Class Mmio (B : Type) := {
  read32 : gpueb_io_region -> Z -> B -> (Z * Z) * B;
  write32 : gpueb_io_region -> Z -> Z -> B -> Z * B
}.

Inductive access : Type :=
| Read (r : gpueb_io_region) (offset : Z)
| Write (r : gpueb_io_region) (offset value : Z).

Definition gpueb_io_bounds (region : gpueb_io_region) (offset size : Z) : Z :=
  let check capacity :=
    if (size =? 0) || negb (Z.land offset 3 =? 0) || negb (Z.land size 3 =? 0)
       || (capacity <? offset) || (u32 (capacity - offset) <? size)
    then - ERANGE else 0 in
  match region with
  | GPUEB_IO_GPR => check GPUEB_IO_GPR_SIZE
  | GPUEB_IO_DATA => check GPUEB_IO_DATA_SIZE
  | GPUEB_IO_SEND | GPUEB_IO_SET | GPUEB_IO_RECV | GPUEB_IO_CLEAR => check 4
  | GPUEB_IO_REGION_COUNT => - EINVAL
  end.

Definition is_phase (c : gpueb_io_core) (p : gpueb_io_phase) : bool := bool_decide (phase c = p).
Definition set_uncertain (c : gpueb_io_core) : gpueb_io_core := IoCore (phase c) (users c) 1 (first_error c).

(** [core] is [None] for a null pointer, [ops] tells whether the accessor
    table and both its members are present. *)
Definition io_guard (core : option gpueb_io_core) (ops : bool) : Z * option gpueb_io_core :=
  match core with
  | None => (- EINVAL, core)
  | Some c =>
    if negb ops then (- EINVAL, core)
    else if negb (first_error c =? 0) then (first_error c, core)
    else if negb (is_phase c GPUEB_IO_TRANSACTION) then (- EHOSTDOWN, core)
    else if users c =? 0 then (- ENXIO, core)
    else (0, Some (set_uncertain c))
  end.

Definition gpueb_io_get (core : option gpueb_io_core) : Z * option gpueb_io_core :=
  match core with
  | None => (- EINVAL, core)
  | Some c =>
    if is_phase c GPUEB_IO_QUIESCED || is_phase c GPUEB_IO_QUARANTINED then (- ESHUTDOWN, core)
    else if users c =? UINT32_MAX then (- EOVERFLOW, core)
    else (0, Some (IoCore (phase c) (u32 (users c + 1)) (physical_uncertain c) (first_error c)))
  end.

Definition gpueb_io_put (core : option gpueb_io_core) : Z * option gpueb_io_core :=
  match core with
  | None => (- EINVAL, core)
  | Some c =>
    if users c =? 0 then (- EINVAL, core)
    else (0, Some (IoCore (phase c) (u32 (users c - 1)) (physical_uncertain c) (first_error c)))
  end.

Definition gpueb_io_quarantine (core : option gpueb_io_core) (error : Z) : Z * option gpueb_io_core :=
  match core with
  | None => (- EINVAL, core)
  | Some c =>
    if 0 <=? error then (- EINVAL, core)
    else
      let e := if first_error c =? 0 then error else first_error c in
      (e, Some (IoCore GPUEB_IO_QUARANTINED (users c) 1 e))
  end.

Definition io_fault (core : option gpueb_io_core) (error : Z) : Z * option gpueb_io_core :=
  gpueb_io_quarantine core (if error <? 0 then error else - EIO).

Definition gpueb_io_quiesce (core : option gpueb_io_core) : Z * option gpueb_io_core :=
  match core with
  | None => (- EINVAL, core)
  | Some c =>
    let uncertain := if is_phase c GPUEB_IO_TRANSACTION then 1 else physical_uncertain c in
    let p := if negb (is_phase c GPUEB_IO_QUARANTINED) then GPUEB_IO_QUIESCED else phase c in
    (0, Some (IoCore p (users c) uncertain (first_error c)))
  end.

Definition gpueb_io_can_destroy (core : option gpueb_io_core) : Z :=
  match core with
  | None => - EINVAL
  | Some c =>
    if negb (users c =? 0) || negb (physical_uncertain c =? 0) || is_phase c GPUEB_IO_TRANSACTION
       || is_phase c GPUEB_IO_QUARANTINED
    then - EBUSY else 0
  end.

(** ** Transactions *)

Section Transactions.
Context {B : Type} `{Mmio B}.

(** The bus and the accesses made on it so far. *)
#[local] Abbreviation bus := (B * list access)%type.
Definition rd (r : gpueb_io_region) (offset : Z) (b : bus) : (Z * Z) * bus :=
  let '(v, s) := read32 r offset b.1 in (v, (s, b.2 ++ [Read r offset])).
Definition wr (r : gpueb_io_region) (offset value : Z) (b : bus) : Z * bus :=
  let '(v, s) := write32 r offset value b.1 in (v, (s, b.2 ++ [Write r offset value])).

(** The loop of eight ordered word writes. *)
Fixpoint write_words (offset : Z) (words : list Z) (b : bus) : Z * bus :=
  match words with
  | [] => (0, b)
  | w :: words =>
    let '(ret, b) := wr GPUEB_IO_DATA offset w b in
    if negb (ret =? 0) then (ret, b) else write_words (offset + 4) words b
  end.

(** The loop of [n] word reads; the words read so far are accumulated. *)
Fixpoint read_words (n : nat) (offset : Z) (acc : list Z) (b : bus) : Z * list Z * bus :=
  match n with
  | O => (0, acc, b)
  | S n =>
    let '((ret, v), b) := rd GPUEB_IO_DATA offset b in
    if negb (ret =? 0) then (ret, acc, b) else read_words n (offset + 4) (acc ++ [v]) b
  end.

(** Status, core and bus afterwards; [words] is [None] for a null pointer. *)
Definition gpueb_io_tx (core : option gpueb_io_core) (ops : bool) (words : option (list Z)) (count : Z)
    (b : bus) : Z * option gpueb_io_core * bus :=
  match words with
  | None => (- EINVAL, core, b)
  | Some ws =>
    if negb (count =? GPUEB_IO_WORDS) then (- EINVAL, core, b)
    else
    match io_guard core ops with
    | (0, core) =>
      let fault ret b := let '(r, c) := io_fault core ret in (r, c, b) in
      let '((ret, pending), b) := rd GPUEB_IO_SEND 0 b in
      if negb (ret =? 0) then fault ret b
      else if negb (Z.land pending GPUEB_IO_CHANNEL =? 0) then (- EBUSY, core, b)
      else
      let '(ret, b) := write_words GPUEB_IO_TX (firstn 8 ws) b in
      if negb (ret =? 0) then fault ret b
      else
      let '(ret, b) := wr GPUEB_IO_SET 0 GPUEB_IO_CHANNEL b in
      if negb (ret =? 0) then fault ret b else (0, core, b)
    | (ret, core) => (ret, core, b)
    end
  end.

(** Status, core, the caller's words and the bus afterwards. *)
Definition gpueb_io_rx (core : option gpueb_io_core) (ops : bool) (words : option (list Z)) (count : Z)
    (b : bus) : Z * option gpueb_io_core * option (list Z) * bus :=
  match words with
  | None => (- EINVAL, core, words, b)
  | Some ws =>
    if negb (count =? GPUEB_IO_WORDS) then (- EINVAL, core, words, b)
    else
    match io_guard core ops with
    | (0, core) =>
      let fault ret b := let '(r, c) := io_fault core ret in (r, c, words, b) in
      let '((ret, pending), b) := rd GPUEB_IO_RECV 0 b in
      if negb (ret =? 0) then fault ret b
      else if Z.land pending GPUEB_IO_CHANNEL =? 0 then (- EAGAIN, core, words, b)
      else
      let '(ret, received, b) := read_words 8 GPUEB_IO_RX [] b in
      if negb (ret =? 0) then fault ret b
      else
      let '(ret, b) := wr GPUEB_IO_CLEAR 0 GPUEB_IO_CHANNEL b in
      if negb (ret =? 0) then fault ret b else (0, core, Some received, b)
    | (ret, core) => (ret, core, words, b)
    end
  end.

(** Status, core, [*value] and the bus afterwards. *)
Definition gpueb_io_gpr_read (core : option gpueb_io_core) (ops : bool) (offset : Z) (value : option Z)
    (b : bus) : Z * option gpueb_io_core * option Z * bus :=
  match value with
  | None => (- EINVAL, core, value, b)
  | Some _ =>
    match gpueb_io_bounds GPUEB_IO_GPR offset 4 with
    | 0 =>
      match io_guard core ops with
      | (0, core) =>
        let '((ret, result), b) := rd GPUEB_IO_GPR offset b in
        if negb (ret =? 0) then let '(r, c) := io_fault core ret in (r, c, value, b)
        else (0, core, Some result, b)
      | (ret, core) => (ret, core, value, b)
      end
    | ret => (ret, core, value, b)
    end
  end.

(** ** The accesses of one transaction *)

Fixpoint word_writes (offset : Z) (words : list Z) : list access :=
  match words with [] => [] | w :: ws => Write GPUEB_IO_DATA offset w :: word_writes (offset + 4) ws end.
Fixpoint word_reads (offset : Z) (n : nat) : list access :=
  match n with O => [] | S n => Read GPUEB_IO_DATA offset :: word_reads (offset + 4) n end.

(** A complete transmission and a complete reception, as the device sees them. *)
Definition tx_frame (words : list Z) : list access :=
  [Read GPUEB_IO_SEND 0] ++ word_writes GPUEB_IO_TX words ++ [Write GPUEB_IO_SET 0 GPUEB_IO_CHANNEL].
Definition rx_frame : list access :=
  [Read GPUEB_IO_RECV 0] ++ word_reads GPUEB_IO_RX 8 ++ [Write GPUEB_IO_CLEAR 0 GPUEB_IO_CHANNEL].

Lemma rd_trace r o b : (rd r o b).2.2 = b.2 ++ [Read r o].
Proof. unfold rd. now destruct (read32 r o b.1). Qed.
Lemma wr_trace r o v b : (wr r o v b).2.2 = b.2 ++ [Write r o v].
Proof. unfold wr. now destruct (write32 r o v b.1). Qed.

Lemma write_words_trace words : forall offset b,
  exists l, (write_words offset words b).2.2 = b.2 ++ l /\ l `prefix_of` word_writes offset words /\
    ((write_words offset words b).1 = 0 -> l = word_writes offset words).
Proof.
  induction words as [|w words IH]; intros offset b; cbn [write_words word_writes].
  - exists []. rewrite app_nil_r. auto.
  - pose proof (wr_trace GPUEB_IO_DATA offset w b) as Ht. destruct (wr GPUEB_IO_DATA offset w b) as [ret b'].
    cbn in Ht. destruct (Z.eqb_spec ret 0) as [->|Hr]; cbn [negb].
    + destruct (IH (offset + 4) b') as (l & Hl & Hp & Hf). exists (Write GPUEB_IO_DATA offset w :: l).
      split; [rewrite Hl, Ht, <- app_assoc; reflexivity|]. split; [now apply prefix_cons|].
      intros E. now rewrite (Hf E).
    + exists [Write GPUEB_IO_DATA offset w]. split; [exact Ht|]. split; [|cbn; congruence].
      apply prefix_cons, prefix_nil.
Qed.
Lemma read_words_trace n : forall offset acc b,
  exists l, (read_words n offset acc b).2.2 = b.2 ++ l /\ l `prefix_of` word_reads offset n /\
    ((read_words n offset acc b).1.1 = 0 -> l = word_reads offset n).
Proof.
  induction n as [|n IH]; intros offset acc b; cbn [read_words word_reads].
  - exists []. rewrite app_nil_r. auto.
  - pose proof (rd_trace GPUEB_IO_DATA offset b) as Ht. destruct (rd GPUEB_IO_DATA offset b) as [[ret v] b'].
    cbn in Ht. destruct (Z.eqb_spec ret 0) as [->|Hr]; cbn [negb].
    + destruct (IH (offset + 4) (acc ++ [v]) b') as (l & Hl & Hp & Hf). exists (Read GPUEB_IO_DATA offset :: l).
      split; [rewrite Hl, Ht, <- app_assoc; reflexivity|]. split; [now apply prefix_cons|].
      intros E. now rewrite (Hf E).
    + exists [Read GPUEB_IO_DATA offset]. split; [exact Ht|]. split; [|cbn; congruence].
      apply prefix_cons, prefix_nil.
Qed.

(** What a guarded transaction did: [frame] is its complete access list. *)
Definition transacted (core core' : option gpueb_io_core) (b b' : bus) (ret : Z) (frame : list access) : Prop :=
  exists l, b'.2 = b.2 ++ l /\ l `prefix_of` frame /\ (ret = 0 -> l = frame) /\
    (l = [] -> core' = core) /\
    (l <> [] -> exists c c', core = Some c /\ core' = Some c' /\ first_error c = 0 /\
       phase c = GPUEB_IO_TRANSACTION /\ users c <> 0 /\ physical_uncertain c' = 1 /\ users c' = users c /\
       (phase c' = GPUEB_IO_TRANSACTION /\ first_error c' = 0 \/
        phase c' = GPUEB_IO_QUARANTINED /\ first_error c' = ret /\ ret < 0)).

Lemma nothing_done core b ret frame : ret <> 0 -> transacted core core b b ret frame.
Proof.
  intros Hr. exists []. rewrite app_nil_r. split; [reflexivity|]. split; [apply prefix_nil|].
  split; [congruence|]. split; congruence.
Qed.

Lemma io_guard_cases core ops :
  (exists c, core = Some c /\ first_error c = 0 /\ phase c = GPUEB_IO_TRANSACTION /\ users c <> 0 /\
     io_guard core ops = (0, Some (set_uncertain c))) \/
  (exists ret, ret <> 0 /\ io_guard core ops = (ret, core)).
Proof.
  destruct core as [c|]; [|right; eexists; split; [|reflexivity]; lia]. unfold io_guard.
  destruct (negb ops); [right; eexists; split; [|reflexivity]; lia|].
  destruct (Z.eqb_spec (first_error c) 0); cbn [negb]; [|right; eexists; split; [|reflexivity]; lia].
  unfold is_phase. destruct (decide (phase c = GPUEB_IO_TRANSACTION)) as [E|E].
  - rewrite bool_decide_eq_true_2 by exact E. cbn [negb].
    destruct (Z.eqb_spec (users c) 0); [right; eexists; split; [|reflexivity]; lia|].
    left. exists c. auto.
  - rewrite bool_decide_eq_false_2 by exact E. right. eexists. split; [|reflexivity]. lia.
Qed.

(** A live core after its guard: a fault quarantines it with a negative error. *)
Lemma guarded_fault c e : first_error c = 0 ->
  exists r c', io_fault (Some (set_uncertain c)) e = (r, Some c') /\ r < 0 /\ first_error c' = r /\
    phase c' = GPUEB_IO_QUARANTINED /\ physical_uncertain c' = 1 /\ users c' = users c.
Proof.
  intros He. unfold io_fault, gpueb_io_quarantine.
  replace (0 <=? (if e <? 0 then e else - EIO)) with false by (destruct (Z.ltb_spec e 0); lia).
  cbn [set_uncertain first_error users]. rewrite He. eexists _, _. split; [reflexivity|].
  split; [destruct (Z.ltb_spec e 0); cbn; lia|]. cbn. auto.
Qed.

Lemma transacted_fault c b b' l e frame : first_error c = 0 -> phase c = GPUEB_IO_TRANSACTION -> users c <> 0 ->
  b'.2 = b.2 ++ l -> l <> [] -> l `prefix_of` frame ->
  let '(r, c') := io_fault (Some (set_uncertain c)) e in transacted (Some c) c' b b' r frame.
Proof.
  intros He Hp Hu Hb Hl Hf. destruct (guarded_fault c e He) as (r & c' & -> & Hr & H1 & H2 & H3 & H4).
  exists l. split; [exact Hb|]. split; [exact Hf|]. split; [lia|]. split; [congruence|]. intros _.
  exists c, c'. repeat split; try assumption. right. auto.
Qed.
Lemma transacted_kept c b b' l ret frame : first_error c = 0 -> phase c = GPUEB_IO_TRANSACTION -> users c <> 0 ->
  b'.2 = b.2 ++ l -> l <> [] -> l `prefix_of` frame -> (ret = 0 -> l = frame) ->
  transacted (Some c) (Some (set_uncertain c)) b b' ret frame.
Proof.
  intros He Hp Hu Hb Hl Hf Hr. exists l. split; [exact Hb|]. split; [exact Hf|]. split; [exact Hr|]. split; [congruence|].
  intros _. exists c, (set_uncertain c). repeat split; try assumption. left. auto.
Qed.

Lemma tx_transacted core ops words count b :
  transacted core (gpueb_io_tx core ops words count b).1.2 b (gpueb_io_tx core ops words count b).2
    (gpueb_io_tx core ops words count b).1.1 (tx_frame (firstn 8 (default [] words))).
Proof.
  unfold gpueb_io_tx. destruct words as [ws|]; [|apply nothing_done; cbn; lia].
  destruct (negb (count =? 8)); [apply nothing_done; cbn; lia|]. cbn [default]. set (frame := tx_frame _).
  destruct (io_guard_cases core ops) as [(c & -> & He & Hp & Hu & ->)|(ret & Hr & ->)];
    [|destruct ret; [lia|apply nothing_done; cbn; lia..]].
  pose proof (rd_trace GPUEB_IO_SEND 0 b) as Ht. destruct (rd GPUEB_IO_SEND 0 b) as [[ret pending] b1]. cbn in Ht.
  assert (Hp1 : [Read GPUEB_IO_SEND 0] `prefix_of` frame) by (apply prefix_app_r; reflexivity).
  destruct (Z.eqb_spec ret 0) as [->|]; cbn [negb].
  2: { pose proof (transacted_fault c b b1 _ ret frame He Hp Hu Ht ltac:(discriminate) Hp1) as H1. now destruct (io_fault _ _). }
  destruct (negb _); [apply (transacted_kept c b b1 [Read GPUEB_IO_SEND 0]); try assumption; cbn; congruence || lia|].
  destruct (write_words_trace (firstn 8 ws) GPUEB_IO_TX b1) as (l & Hl & Hpre & Hfull).
  destruct (write_words _ _ b1) as [ret2 b2]. cbn in Hl, Hfull. rewrite Ht, <- app_assoc in Hl.
  assert (Hp2 : [Read GPUEB_IO_SEND 0] ++ l `prefix_of` frame) by (apply prefix_app, prefix_app_r, Hpre).
  destruct (Z.eqb_spec ret2 0) as [->|]; cbn [negb].
  2: { pose proof (transacted_fault c b b2 _ ret2 frame He Hp Hu Hl ltac:(discriminate) Hp2) as H1. now destruct (io_fault _ _). }
  rewrite (Hfull eq_refl) in Hl. pose proof (wr_trace GPUEB_IO_SET 0 GPUEB_IO_CHANNEL b2) as Hw.
  destruct (wr GPUEB_IO_SET 0 GPUEB_IO_CHANNEL b2) as [ret3 b3]. cbn in Hw. rewrite Hl, <- !app_assoc in Hw.
  destruct (Z.eqb_spec ret3 0) as [->|]; cbn [negb].
  - apply (transacted_kept c b b3 frame); try assumption; try discriminate; auto.
  - pose proof (transacted_fault c b b3 frame ret3 frame He Hp Hu Hw ltac:(discriminate) ltac:(reflexivity)) as H1.
    now destruct (io_fault _ _).
Qed.

Lemma rx_transacted core ops words count b :
  let r := gpueb_io_rx core ops words count b in
  transacted core r.1.1.2 b r.2 r.1.1.1 rx_frame /\ (r.1.1.1 <> 0 -> r.1.2 = words).
Proof.
  cbv zeta. unfold gpueb_io_rx. destruct words as [ws|]; [|split; [apply nothing_done; cbn; lia|reflexivity]].
  destruct (negb (count =? 8)); [split; [apply nothing_done; cbn; lia|reflexivity]|]. set (frame := rx_frame).
  destruct (io_guard_cases core ops) as [(c & -> & He & Hp & Hu & ->)|(ret & Hr & ->)];
    [|destruct ret; [lia|split; [apply nothing_done; cbn; lia|reflexivity]..]].
  pose proof (rd_trace GPUEB_IO_RECV 0 b) as Ht. destruct (rd GPUEB_IO_RECV 0 b) as [[ret pending] b1]. cbn in Ht.
  assert (Hp1 : [Read GPUEB_IO_RECV 0] `prefix_of` frame) by (apply prefix_app_r; reflexivity).
  destruct (Z.eqb_spec ret 0) as [->|]; cbn [negb].
  2: { pose proof (transacted_fault c b b1 _ ret frame He Hp Hu Ht ltac:(discriminate) Hp1) as H1. now destruct (io_fault _ _). }
  destruct (_ =? 0); [split; [apply (transacted_kept c b b1 [Read GPUEB_IO_RECV 0]); try assumption; cbn; congruence || lia|reflexivity]|].
  destruct (read_words_trace 8 GPUEB_IO_RX [] b1) as (l & Hl & Hpre & Hfull).
  destruct (read_words 8 _ _ b1) as [[ret2 received] b2]. cbn [fst snd] in Hl, Hfull. rewrite Ht, <- app_assoc in Hl.
  assert (Hp2 : [Read GPUEB_IO_RECV 0] ++ l `prefix_of` frame) by (apply prefix_app, prefix_app_r, Hpre).
  destruct (Z.eqb_spec ret2 0) as [->|]; cbn [negb].
  2: { pose proof (transacted_fault c b b2 _ ret2 frame He Hp Hu Hl ltac:(discriminate) Hp2) as H1. now destruct (io_fault _ _). }
  rewrite (Hfull eq_refl) in Hl. pose proof (wr_trace GPUEB_IO_CLEAR 0 GPUEB_IO_CHANNEL b2) as Hw.
  destruct (wr GPUEB_IO_CLEAR 0 GPUEB_IO_CHANNEL b2) as [ret3 b3]. cbn [fst snd] in Hw. rewrite Hl, <- !app_assoc in Hw.
  destruct (Z.eqb_spec ret3 0) as [->|]; cbn [negb].
  - split; [apply (transacted_kept c b b3 frame); try assumption; try discriminate; auto|cbn; congruence].
  - pose proof (transacted_fault c b b3 frame ret3 frame He Hp Hu Hw ltac:(discriminate) ltac:(reflexivity)) as H1.
    now destruct (io_fault _ _).
Qed.

Lemma gpr_transacted core ops offset value b :
  let r := gpueb_io_gpr_read core ops offset value b in
  transacted core r.1.1.2 b r.2 r.1.1.1 [Read GPUEB_IO_GPR offset].
Proof.
  cbv zeta. unfold gpueb_io_gpr_read. destruct value as [v|]; [|apply nothing_done; cbn; lia].
  destruct (gpueb_io_bounds _ _ _); [|apply nothing_done; cbn; lia..].
  destruct (io_guard_cases core ops) as [(c & -> & He & Hp & Hu & ->)|(ret & Hr & ->)];
    [|destruct ret; [lia|apply nothing_done; cbn; lia..]].
  pose proof (rd_trace GPUEB_IO_GPR offset b) as Ht. destruct (rd GPUEB_IO_GPR offset b) as [[ret v'] b1]. cbn in Ht.
  destruct (Z.eqb_spec ret 0) as [->|]; cbn [negb].
  - apply (transacted_kept c b b1 [Read GPUEB_IO_GPR offset]); try assumption; try discriminate; auto.
  - pose proof (transacted_fault c b b1 _ ret _ He Hp Hu Ht ltac:(discriminate) ltac:(reflexivity)) as H1.
    now destruct (io_fault _ _).
Qed.

(** ** The core as a machine *)

Inductive io_call : Type :=
| CallGet
| CallPut
| CallQuarantine (error : Z)
| CallQuiesce
| CallTx (ops : bool) (words : option (list Z)) (count : Z)
| CallRx (ops : bool) (words : option (list Z)) (count : Z)
| CallGprRead (ops : bool) (offset : Z) (value : option Z).

Definition present (c : gpueb_io_core) (o : option gpueb_io_core) : gpueb_io_core := default c o.

Definition io_step (s : gpueb_io_core * bus) (e : io_call) : gpueb_io_core * bus :=
  let '(c, b) := s in
  match e with
  | CallGet => (present c (gpueb_io_get (Some c)).2, b)
  | CallPut => (present c (gpueb_io_put (Some c)).2, b)
  | CallQuarantine error => (present c (gpueb_io_quarantine (Some c) error).2, b)
  | CallQuiesce => (present c (gpueb_io_quiesce (Some c)).2, b)
  | CallTx ops words count =>
      let r := gpueb_io_tx (Some c) ops words count b in (present c r.1.2, r.2)
  | CallRx ops words count =>
      let r := gpueb_io_rx (Some c) ops words count b in (present c r.1.1.2, r.2)
  | CallGprRead ops offset value =>
      let r := gpueb_io_gpr_read (Some c) ops offset value b in (present c r.1.1.2, r.2)
  end.

(** One call, seen from outside: it either touches the device under a live
    transaction (and records that), or leaves it alone. *)
Definition io_effect (c : gpueb_io_core) (b : bus) (c' : gpueb_io_core) (b' : bus) : Prop :=
  (b'.2 = b.2 /\ physical_uncertain c <= physical_uncertain c' <= 1 /\
   (first_error c <> 0 -> first_error c' = first_error c) /\
   (phase c = GPUEB_IO_QUARANTINED -> phase c' = GPUEB_IO_QUARANTINED) /\
   (phase c = GPUEB_IO_QUIESCED -> phase c' = GPUEB_IO_QUIESCED \/ phase c' = GPUEB_IO_QUARANTINED) \/
   phase c = GPUEB_IO_TRANSACTION /\ first_error c = 0 /\ users c <> 0 /\ physical_uncertain c' = 1).

Lemma transacted_effect c core' b b' ret frame : 0 <= physical_uncertain c <= 1 ->
  transacted (Some c) core' b b' ret frame -> io_effect c b (present c core') b'.
Proof.
  intros Hu (l & Hb & _ & _ & H0 & H1). destruct l as [|a l].
  - rewrite (H0 eq_refl). left. rewrite Hb, app_nil_r. cbn. repeat split; auto; lia.
  - destruct H1 as (c0 & c' & [= <-] & -> & He & Hp & Hus & Hpu & _); [discriminate|]. right. auto.
Qed.

Lemma io_step_effect s e : 0 <= physical_uncertain s.1 <= 1 ->
  io_effect s.1 s.2 (io_step s e).1 (io_step s e).2.
Proof.
  destruct s as [c b]. cbn [fst snd]. intros Hu. destruct e; cbn [io_step fst snd].
  - unfold gpueb_io_get. guards_goal; left; cbn; repeat split; auto; lia.
  - unfold gpueb_io_put. guards_goal; left; cbn; repeat split; auto; lia.
  - unfold gpueb_io_quarantine. guards_goal; left; cbn; repeat split; auto; try lia; rewrite ?G0; intros; try lia; auto.
  - unfold gpueb_io_quiesce, is_phase. left. repeat case_bool_decide; cbn; repeat split; auto; try lia; congruence.
  - apply transacted_effect with (ret := (gpueb_io_tx (Some c) ops words count b).1.1)
      (frame := tx_frame (firstn 8 (default [] words))); [exact Hu|apply tx_transacted].
  - eapply transacted_effect; [exact Hu|apply rx_transacted].
  - eapply transacted_effect; [exact Hu|apply gpr_transacted].
Qed.

#[export, refine] Instance gpueb_io_machine : Machine (gpueb_io_core * bus) io_call := {
  mstep := io_step;
  failure s := if (first_error s.1 =? 0) || negb ((0 <=? physical_uncertain s.1) && (physical_uncertain s.1 <=? 1))
               then None else Some (first_error s.1)
}.
Proof.
  intros [c b] e x. cbn [fst]. destruct ((first_error c =? 0) || _) eqn:G; [discriminate|]. intros [= <-].
  destruct (io_step_effect (c, b) e) as [(Hb & Hu & He & _)|(_ & He & _)]; cbn [fst snd] in *; [lia| |lia].
  rewrite He by lia. now replace ((first_error c =? 0) || _) with false by lia.
Defined.
End Transactions.

(** ** Claims *)

Lemma word_writes_bounds words : forall offset, 0 <= offset -> offset mod 4 = 0 -> offset + 4 * len words <= GPUEB_IO_DATA_SIZE ->
  Forall (fun a => match a with Read r o | Write r o _ => gpueb_io_bounds r o 4 = 0 end) (word_writes offset words).
Proof.
  induction words as [|w words IH]; intros offset H0 Hm Hl; constructor.
  - rewrite len_cons in Hl. pose proof (len_nonneg words). unfold gpueb_io_bounds. cbv beta iota zeta.
    change (Z.land offset 3) with (Z.land offset (Z.ones 2)).
    rewrite (land_ones_mod offset 2) by lia. change (2 ^ 2) with 4. rewrite Hm.
    rewrite u32_id by (unfold is_u32; lia). change (Z.land 4 3) with 0.
    replace (_ || _) with false by lia. reflexivity.
  - rewrite len_cons in Hl. apply IH; [lia| |lia]. rewrite Z.add_mod, Hm by lia. reflexivity.
Qed.

Lemma no_doorbell words : forall offset, Write GPUEB_IO_SET 0 GPUEB_IO_CHANNEL ∉ word_writes offset words.
Proof.
  induction words as [|w words IH]; intros offset; cbn [word_writes]; [set_solver|].
  rewrite elem_of_cons. intros [E|E]; [discriminate|]. now apply IH in E.
Qed.

(** A register file for examples: every access succeeds and reads give zero. *)
#[export] Instance unit_mmio : Mmio unit := {
  read32 _ _ b := ((0, 0), b);
  write32 _ _ _ b := (0, b)
}.

(** The mailbox transmission is ordered and bounded: whatever the
    registers answer, the device sees a prefix of one busy check, the eight
    words in order at consecutive offsets and then the doorbell; a successful
    call means the complete sequence, a doorbell means that all eight words
    were written before it, and every data access is inside the data window.
    A call that touched the device was guarded (live transaction with a user
    and no earlier error) and leaves either the same core marked as physically
    uncertain or a quarantined one with a negative error. *)
Theorem gpueb_tx_order {B} `{Mmio B} (core : option gpueb_io_core) ops words count (b : B) :
  len words = 8 ->
  let r := gpueb_io_tx core ops (Some words) count (b, []) in
  transacted core r.1.2 (b, []) r.2 r.1.1 (tx_frame words) /\
  (Write GPUEB_IO_SET 0 GPUEB_IO_CHANNEL ∈ r.2.2 -> r.2.2 = tx_frame words) /\
  Forall (fun a => match a with Read r o | Write r o _ => gpueb_io_bounds r o 4 = 0 end) r.2.2.
Proof.
  intros Hl r. pose proof (tx_transacted core ops (Some words) count (b, [])) as Ht. fold r in Ht.
  change (default [] (Some words)) with words in Ht.
  assert (Hf8 : firstn 8 words = words) by (apply firstn_all2; unfold len in Hl; lia).
  rewrite Hf8 in Ht. split; [exact Ht|].
  destruct Ht as (l & Hb & Hp & _). cbn [app] in Hb. change ((b, []).2 ++ l) with l in Hb. rewrite Hb. split.
  - intros Hin. destruct Hp as [k Hk]. rewrite Hk. destruct k as [|a k _] using rev_ind; [now rewrite app_nil_r|].
    exfalso. unfold tx_frame in Hk. rewrite !app_assoc in Hk. apply app_inj_tail in Hk as [Hk _].
    assert (Hin2 : Write GPUEB_IO_SET 0 2 ∈ [Read GPUEB_IO_SEND 0] ++ word_writes 16 words)
      by (rewrite Hk; apply elem_of_app; now left).
    apply elem_of_app in Hin2 as [Hin3|Hin3]; [set_solver|now apply no_doorbell in Hin3].
  - destruct Hp as [k Hk].
    assert (Hf : Forall (fun a => match a with Read r o | Write r o _ => gpueb_io_bounds r o 4 = 0 end) (tx_frame words)).
    { unfold tx_frame. rewrite !Forall_app. split; [repeat constructor|]. split; [|repeat constructor].
      apply word_writes_bounds; lia || reflexivity. }
    rewrite Hk in Hf. now apply Forall_app in Hf as [Hf _].
Qed.
Lemma gpueb_tx_order_witness :
  let r := gpueb_io_tx (Some (IoCore GPUEB_IO_TRANSACTION 1 0 0)) true (Some [1; 2; 3; 4; 5; 6; 7; 8]) 8 (tt, []) in
  r.1.1 = 0 /\ r.2.2 = tx_frame [1; 2; 3; 4; 5; 6; 7; 8].
Proof.
  split; [reflexivity|]. apply (gpueb_tx_order (Some (IoCore GPUEB_IO_TRANSACTION 1 0 0)) true
    [1; 2; 3; 4; 5; 6; 7; 8] 8 tt eq_refl). set_solver.
Defined.

(** A core may be destroyed only if the device was never touched: for any
    sequence of calls from a clean core, [gpueb_io_can_destroy] reports 0 only
    if no register access was made at all, no user is left and the core is
    not marked as physically uncertain. *)
Theorem gpueb_destroy_untouched {B} `{Mmio B} (b : B) p calls :
  let s := mrun (IoCore p 0 0 0, (b, [])) calls in
  gpueb_io_can_destroy (Some s.1) = 0 -> s.2.2 = [] /\ users s.1 = 0 /\ physical_uncertain s.1 = 0.
Proof.
  intros s Hd.
  assert (Hinv : 0 <= physical_uncertain s.1 <= 1 /\ (s.2.2 <> [] -> physical_uncertain s.1 = 1)).
  { apply (mrun_invariant (fun s => 0 <= physical_uncertain s.1 <= 1 /\ (s.2.2 <> [] -> physical_uncertain s.1 = 1)) (fun _ => True)).
    - intros s0 e _ [Hu Ht]. change (mstep s0 e) with (io_step s0 e).
      destruct (io_step_effect s0 e Hu) as [(Hb & Hle & _)|(_ & _ & _ & E)]; [|split; [lia|auto]].
      split; [lia|]. intros Hne. rewrite Hb in Hne. specialize (Ht Hne). lia.
    - now apply Forall_true.
    - cbn. split; [lia|congruence]. }
  unfold gpueb_io_can_destroy in Hd.
  destruct (negb (users s.1 =? 0) || negb (physical_uncertain s.1 =? 0) || _ || _) eqn:G; [discriminate|].
  apply orb_false_iff in G as [G _]. apply orb_false_iff in G as [G _].
  destruct Hinv as [_ Ht]. split; [|lia]. destruct s.2.2; [reflexivity|]. specialize (Ht ltac:(discriminate)). lia.
Qed.
Lemma gpueb_destroy_untouched_witness :
  (mrun (IoCore GPUEB_IO_UNPROVEN 0 0 0, (tt, [])) [CallGet; CallTx true (Some []) 8; CallPut; CallQuiesce]).2.2 = [].
Proof.
  apply (gpueb_destroy_untouched tt GPUEB_IO_UNPROVEN [CallGet; CallTx true (Some []) 8; CallPut; CallQuiesce]).
  reflexivity.
Defined.

(** Quiescing or quarantining ends all device access for good: from such
    a core no sequence of calls makes another register access, a quarantined
    core stays quarantined with its first error and is never destroyable. *)
Theorem gpueb_quarantine_final {B} `{Mmio B} (c : gpueb_io_core) (b : B * list access) calls :
  0 <= physical_uncertain c <= 1 -> phase c = GPUEB_IO_QUIESCED \/ phase c = GPUEB_IO_QUARANTINED ->
  let s := mrun (c, b) calls in
  s.2.2 = b.2 /\
  (phase c = GPUEB_IO_QUARANTINED -> phase s.1 = GPUEB_IO_QUARANTINED /\ gpueb_io_can_destroy (Some s.1) = - EBUSY) /\
  (first_error c <> 0 -> first_error s.1 = first_error c).
Proof.
  intros Hu Hp s.
  assert (Hinv : 0 <= physical_uncertain s.1 <= 1 /\ s.2.2 = b.2 /\
    (phase s.1 = GPUEB_IO_QUIESCED \/ phase s.1 = GPUEB_IO_QUARANTINED) /\
    (phase c = GPUEB_IO_QUARANTINED -> phase s.1 = GPUEB_IO_QUARANTINED) /\
    (first_error c <> 0 -> first_error s.1 = first_error c)).
  { apply (mrun_invariant (fun s => 0 <= physical_uncertain s.1 <= 1 /\ s.2.2 = b.2 /\
      (phase s.1 = GPUEB_IO_QUIESCED \/ phase s.1 = GPUEB_IO_QUARANTINED) /\
      (phase c = GPUEB_IO_QUARANTINED -> phase s.1 = GPUEB_IO_QUARANTINED) /\
      (first_error c <> 0 -> first_error s.1 = first_error c)) (fun _ => True)).
    - intros s0 e _ (H1 & H2 & H3 & H4 & H5). change (mstep s0 e) with (io_step s0 e).
      destruct (io_step_effect s0 e H1) as [(Hb & Hle & He & Hq & Hs)|(E & _)]; [|destruct H3; congruence].
      repeat split; [lia|lia|congruence| |tauto|].
      + destruct H3 as [H3|H3]; [now apply Hs|right; now apply Hq].
      + intros Hne. rewrite He; rewrite H5; auto.
    - now apply Forall_true.
    - cbn. auto. }
  destruct Hinv as (H1 & H2 & H3 & H4 & H5). split; [exact H2|]. split; [|exact H5].
  intros Hq. specialize (H4 Hq). split; [exact H4|]. unfold gpueb_io_can_destroy, is_phase.
  rewrite (bool_decide_eq_true_2 (phase s.1 = GPUEB_IO_QUARANTINED)) by exact H4. now rewrite orb_true_r.
Qed.
Lemma gpueb_quarantine_final_witness :
  let s := mrun (IoCore GPUEB_IO_QUARANTINED 1 1 (- EIO), (tt, []))
    [CallTx true (Some [1; 2; 3; 4; 5; 6; 7; 8]) 8; CallQuiesce; CallQuarantine (- EPERM); CallPut] in
  first_error s.1 = - EIO /\ s.2.2 = [].
Proof.
  destruct (gpueb_quarantine_final (IoCore GPUEB_IO_QUARANTINED 1 1 (- EIO)) (tt, [])
    [CallTx true (Some [1; 2; 3; 4; 5; 6; 7; 8]) 8; CallQuiesce; CallQuarantine (- EPERM); CallPut])
    as (H1 & _ & H2); [cbn; lia|right; reflexivity|].
  split; [apply H2; cbn; lia|exact H1].
Defined.
