(* ===== verification/GpuSram.v ===== *)
(** * The GPUEB SRAM owner: [gpu/sram-owner/mt6878-gpueb-sram-core.c]

    One exclusive owner of the GPUEB SRAM hands out two client windows. *)

From S2P Require Import Prelude GpuIo.

Abbreviation GPUEB_SRAM_BASE := 0x13c00000 (only parsing).
Abbreviation GPUEB_SRAM_SIZE := 0x40000 (only parsing).
Abbreviation GPUEB_GPR_OFFSET := 0x3fd1c (only parsing).
Abbreviation GPUEB_GPR_SIZE := 0x64 (only parsing).
Abbreviation GPUEB_MBOX_OFFSET := 0x3fd80 (only parsing).
Abbreviation GPUEB_MBOX_SIZE := 0x280 (only parsing).

Inductive gpueb_sram_window : Type :=
| GPUEB_WINDOW_GPR
| GPUEB_WINDOW_MBOX
| GPUEB_WINDOW_COUNT.
#[export] Instance gpueb_sram_window_eq_dec : EqDecision gpueb_sram_window.
Proof. solve_decision. Defined.
Inductive gpueb_sram_phase : Type :=
| GPUEB_SRAM_NEW
| GPUEB_SRAM_OWNED
| GPUEB_SRAM_QUARANTINED
| GPUEB_SRAM_CLOSED.
#[export] Instance gpueb_sram_phase_eq_dec : EqDecision gpueb_sram_phase.
Proof. solve_decision. Defined.

Record gpueb_sram_range : Type := Range { start : Z; size : Z }.
Record gpueb_sram_core : Type := SramCore {
  phase : gpueb_sram_phase;
  clients : Z;
  whole : gpueb_sram_range
}.

Definition is_phase (c : gpueb_sram_core) (p : gpueb_sram_phase) : bool := bool_decide (phase c = p).

Definition words : list Z := [4; 8; 3; 6; 9; 4; 6; 6; 1; 4; 3].

(** Status and [*offset] afterwards; [offset] is [None] for a null pointer. *)
Definition gpueb_sram_tx_slot (channel count : Z) (offset : option Z) : Z * option Z :=
  match offset with
  | None => (- EINVAL, offset)
  | Some _ =>
    if (len words <=? channel) || negb (count =? nth (Z.to_nat channel) words 0) then (- EINVAL, offset)
    else (0, Some (fold_left (fun start w => u64 (start + w * 4)) (firstn (Z.to_nat channel) words) 0))
  end.

(** Offset and size of a window inside the SRAM. *)
Definition window_profile (type : gpueb_sram_window) : option (Z * Z) :=
  match type with
  | GPUEB_WINDOW_GPR => Some (GPUEB_GPR_OFFSET, GPUEB_GPR_SIZE)
  | GPUEB_WINDOW_MBOX => Some (GPUEB_MBOX_OFFSET, GPUEB_MBOX_SIZE)
  | GPUEB_WINDOW_COUNT => None
  end.

Definition window_bit (type : gpueb_sram_window) : Z :=
  match type with
  | GPUEB_WINDOW_GPR => Z.shiftl 1 0
  | GPUEB_WINDOW_MBOX => Z.shiftl 1 1
  | GPUEB_WINDOW_COUNT => Z.shiftl 1 2
  end.

Definition gpueb_sram_validate (start size : Z) : Z :=
  if (size =? 0) || (UINT64_MAX - u64 (size - 1) <? start) then - ERANGE
  else if negb (start =? GPUEB_SRAM_BASE) || negb (size =? GPUEB_SRAM_SIZE) then - EINVAL
  else if (size <? GPUEB_GPR_OFFSET) || (u64 (size - GPUEB_GPR_OFFSET) <? GPUEB_GPR_SIZE)
          || negb (GPUEB_GPR_OFFSET + GPUEB_GPR_SIZE =? GPUEB_MBOX_OFFSET)
          || (size <? GPUEB_MBOX_OFFSET) || negb (GPUEB_MBOX_SIZE =? u64 (size - GPUEB_MBOX_OFFSET))
  then - ERANGE
  else 0.

Definition gpueb_sram_open (core : option gpueb_sram_core) (start size : Z) : Z * option gpueb_sram_core :=
  match core with
  | None => (- EINVAL, core)
  | Some c =>
    if negb (is_phase c GPUEB_SRAM_NEW) then (- EBUSY, core)
    else match gpueb_sram_validate start size with
    | 0 => (0, Some (SramCore GPUEB_SRAM_OWNED 0 (Range start size)))
    | ret => (ret, core)
    end
  end.

Definition gpueb_sram_claim_window (core : option gpueb_sram_core) (type : gpueb_sram_window)
    : Z * option gpueb_sram_core :=
  match core, window_profile type with
  | Some c, Some _ =>
    if negb (is_phase c GPUEB_SRAM_OWNED) then (- ESHUTDOWN, core)
    else if negb (Z.land (clients c) (window_bit type) =? 0) then (- EBUSY, core)
    else (0, Some (SramCore (phase c) (Z.lor (clients c) (window_bit type)) (whole c)))
  | _, _ => (- EINVAL, core)
  end.

Definition gpueb_sram_put_window (core : option gpueb_sram_core) (type : gpueb_sram_window)
    : Z * option gpueb_sram_core :=
  match core, window_profile type with
  | Some c, Some _ =>
    if Z.land (clients c) (window_bit type) =? 0 then (- ENOENT, core)
    else (0, Some (SramCore (phase c) (Z.ldiff (clients c) (window_bit type)) (whole c)))
  | _, _ => (- EINVAL, core)
  end.

(** Status and [*range] afterwards. *)
Definition gpueb_sram_window_range (core : option gpueb_sram_core) (type : gpueb_sram_window) (offset sz : Z)
    (range : option gpueb_sram_range) : Z * option gpueb_sram_range :=
  match core, range, window_profile type with
  | Some c, Some _, Some (base, capacity) =>
    if negb (is_phase c GPUEB_SRAM_OWNED) then (- ESHUTDOWN, range)
    else if Z.land (clients c) (window_bit type) =? 0 then (- ENOENT, range)
    else if (sz =? 0) || negb (Z.land offset 3 =? 0) || negb (Z.land sz 3 =? 0) || (capacity <? offset)
            || (u64 (capacity - offset) <? sz)
    then (- ERANGE, range)
    else (0, Some (Range (u64 (u64 (start (whole c) + base) + offset)) sz))
  | _, _, _ => (- EINVAL, range)
  end.

Definition gpueb_sram_quarantine (core : option gpueb_sram_core) : Z * option gpueb_sram_core :=
  match core with
  | None => (- EINVAL, core)
  | Some c =>
    if is_phase c GPUEB_SRAM_QUARANTINED then (0, core)
    else if negb (is_phase c GPUEB_SRAM_OWNED) then (- EINVAL, core)
    else (0, Some (SramCore GPUEB_SRAM_QUARANTINED (clients c) (whole c)))
  end.

Definition gpueb_sram_close (core : option gpueb_sram_core) : Z * option gpueb_sram_core :=
  match core with
  | None => (- EINVAL, core)
  | Some c =>
    if is_phase c GPUEB_SRAM_QUARANTINED || negb (clients c =? 0) then (- EBUSY, core)
    else if negb (is_phase c GPUEB_SRAM_OWNED) then (- EINVAL, core)
    else (0, Some (SramCore GPUEB_SRAM_CLOSED (clients c) (whole c)))
  end.

(** ** Calls and the invariant *)

Inductive sram_call : Type :=
| CallOpen (start size : Z)
| CallClaim (type : gpueb_sram_window)
| CallPut (type : gpueb_sram_window)
| CallQuarantine
| CallClose.

Definition sram_step (c : gpueb_sram_core) (e : sram_call) : gpueb_sram_core :=
  default c (match e with
  | CallOpen s n => gpueb_sram_open (Some c) s n
  | CallClaim t => gpueb_sram_claim_window (Some c) t
  | CallPut t => gpueb_sram_put_window (Some c) t
  | CallQuarantine => gpueb_sram_quarantine (Some c)
  | CallClose => gpueb_sram_close (Some c)
  end).2.

Definition new_core : gpueb_sram_core := SramCore GPUEB_SRAM_NEW 0 (Range 0 0).
Definition run (es : list sram_call) : gpueb_sram_core := fold_left sram_step es new_core.

(** A window is held when its bit is set. *)
Definition holds (c : gpueb_sram_core) (t : gpueb_sram_window) : Prop := Z.land (clients c) (window_bit t) <> 0.

Definition sram_inv (c : gpueb_sram_core) : Prop :=
  0 <= clients c < 4 /\
  match phase c with
  | GPUEB_SRAM_NEW => clients c = 0
  | GPUEB_SRAM_OWNED | GPUEB_SRAM_QUARANTINED => whole c = Range GPUEB_SRAM_BASE GPUEB_SRAM_SIZE
  | GPUEB_SRAM_CLOSED => clients c = 0 /\ whole c = Range GPUEB_SRAM_BASE GPUEB_SRAM_SIZE
  end.

Lemma four_clients (P : Z -> Prop) : P 0 -> P 1 -> P 2 -> P 3 -> forall k, 0 <= k < 4 -> P k.
Proof. intros ? ? ? ? k Hk. assert (k = 0 \/ k = 1 \/ k = 2 \/ k = 3) as [->|[->|[->| ->]]] by lia; assumption. Qed.

Lemma claim_range k t : 0 <= k < 4 -> window_profile t <> None -> 0 <= Z.lor k (window_bit t) < 4.
Proof. intros Hk Ht. revert k Hk. apply four_clients; destruct t; try easy; vm_compute; split; congruence. Qed.
Lemma put_range k t : 0 <= k < 4 -> window_profile t <> None -> 0 <= Z.ldiff k (window_bit t) < 4.
Proof. intros Hk Ht. revert k Hk. apply four_clients; destruct t; try easy; vm_compute; split; congruence. Qed.

Lemma open_validated s n : gpueb_sram_validate s n = 0 -> s = GPUEB_SRAM_BASE /\ n = GPUEB_SRAM_SIZE.
Proof. intros H. unfold gpueb_sram_validate in H. guards H. lia. Qed.

Lemma step_inv c e : sram_inv c -> sram_inv (sram_step c e).
Proof.
  intros Hi. pose proof Hi as [Hc Hp]. unfold sram_step, sram_inv, is_phase in *. destruct e as [s n|t|t| |].
  - unfold gpueb_sram_open, is_phase. case_bool_decide as E; cbn; [|exact Hi].
    destruct (gpueb_sram_validate s n) eqn:V; cbn; try exact Hi.
    apply open_validated in V as [-> ->]. split; [lia|reflexivity].
  - unfold gpueb_sram_claim_window, is_phase. destruct (window_profile t) eqn:W; [|exact Hi].
    case_bool_decide as E; cbn [negb]; [|exact Hi]. destruct (negb _); [exact Hi|]. cbn. rewrite E in *.
    split; [|exact Hp]. apply claim_range; [assumption|congruence].
  - unfold gpueb_sram_put_window. destruct (window_profile t) eqn:W; [|exact Hi].
    destruct (_ =? 0) eqn:E; [exact Hi|]. cbn.
    split; [apply put_range; [assumption|congruence]|].
    destruct (phase c); try exact Hp; [rewrite Hp in E|destruct Hp as [Hp _]; rewrite Hp in E]; now rewrite Z.land_0_l in E.
  - unfold gpueb_sram_quarantine, is_phase. case_bool_decide; [exact Hi|]. case_bool_decide as E; cbn; [|exact Hi].
    rewrite E in Hp. auto.
  - unfold gpueb_sram_close, is_phase. case_bool_decide; [exact Hi|]. cbn [orb].
    destruct (Z.eqb_spec (clients c) 0) as [E0|]; [|exact Hi]. cbn [negb]. case_bool_decide as E; cbn; [|exact Hi].
    rewrite E in Hp. repeat split; try lia; assumption.
Qed.
Lemma sram_run_inv es : sram_inv (run es).
Proof.
  unfold run. assert (H0 : sram_inv new_core) by (split; [cbn; lia|reflexivity]). revert H0. generalize new_core.
  induction es as [|e es IH]; intros c Hc; [exact Hc|]. cbn. apply IH. now apply step_inv.
Qed.

Lemma window_bounds t base capacity : window_profile t = Some (base, capacity) ->
  0 <= base /\ 0 < capacity /\ base + capacity <= GPUEB_SRAM_SIZE.
Proof. destruct t; intros [= <- <-]; lia. Qed.

Lemma window_range_ok c t offset sz r0 r : sram_inv c -> is_u64 offset -> is_u64 sz ->
  gpueb_sram_window_range (Some c) t offset sz (Some r0) = (0, Some r) ->
  exists base capacity, window_profile t = Some (base, capacity) /\ holds c t /\ phase c = GPUEB_SRAM_OWNED /\
    0 < size r /\ start r = GPUEB_SRAM_BASE + base + offset /\ size r = sz /\ offset + size r <= capacity.
Proof.
  intros [Hc Hp] Ho Hs H. unfold gpueb_sram_window_range, is_phase in H.
  destruct (window_profile t) as [[base capacity]|] eqn:W; [|discriminate].
  pose proof (window_bounds t base capacity W). case_bool_decide as E; cbn [negb] in H; [|discriminate].
  rewrite E in Hp. destruct (Z.eqb_spec (Z.land (clients c) (window_bit t)) 0); [discriminate|].
  destruct (_ || _) eqn:G; [discriminate|]. injection H as <-. exists base, capacity. unfold_widths.
  assert (Hcap : offset <= capacity) by lia. rewrite (Z.mod_small (capacity - offset)) in G by lia.
  rewrite Hp. cbn. rewrite !Z.mod_small by (rewrite ?Z.mod_small; lia). repeat split; try assumption; lia.
Qed.

(** ** Claims *)

(** After any sequence of calls, every range the owner hands out lies
    inside the SRAM and inside the window of its type, is only handed out
    while the SRAM is owned and that window is claimed, and ranges of the two
    window types never overlap: the general-purpose registers and the mailbox
    have separate owners. *)
Theorem sram_ranges_disjoint es t1 t2 o1 n1 o2 n2 r0 r1 r2 :
  is_u64 o1 -> is_u64 n1 -> is_u64 o2 -> is_u64 n2 ->
  gpueb_sram_window_range (Some (run es)) t1 o1 n1 (Some r0) = (0, Some r1) ->
  gpueb_sram_window_range (Some (run es)) t2 o2 n2 (Some r0) = (0, Some r2) ->
  holds (run es) t1 /\ holds (run es) t2 /\ phase (run es) = GPUEB_SRAM_OWNED /\
  GPUEB_SRAM_BASE <= start r1 /\ start r1 + size r1 <= GPUEB_SRAM_BASE + GPUEB_SRAM_SIZE /\
  (t1 <> t2 -> start r1 + size r1 <= start r2 \/ start r2 + size r2 <= start r1).
Proof.
  intros Ho1 Hn1 Ho2 Hn2 H1 H2. pose proof (sram_run_inv es) as Hi.
  apply (window_range_ok _ _ _ _ _ _ Hi Ho1 Hn1) in H1 as (b1 & c1 & W1 & Hh1 & Hp1 & Hs1 & E1 & F1 & L1).
  apply (window_range_ok _ _ _ _ _ _ Hi Ho2 Hn2) in H2 as (b2 & c2 & W2 & Hh2 & _ & Hs2 & E2 & F2 & L2).
  pose proof (window_bounds _ _ _ W1). unfold_widths. repeat split; try assumption; try lia.
  intros Hne. destruct t1, t2; try congruence; try discriminate W1; try discriminate W2; injection W1 as <- <-; injection W2 as <- <-; lia.
Qed.
Definition opened_1 : list sram_call :=
  [CallOpen GPUEB_SRAM_BASE GPUEB_SRAM_SIZE; CallClaim GPUEB_WINDOW_GPR; CallClaim GPUEB_WINDOW_MBOX].
Lemma sram_ranges_disjoint_witness : 0x13c3fd1c + 0x64 <= 0x13c3fd80 \/ 0x13c3fd80 + 4 <= 0x13c3fd1c.
Proof.
  apply (sram_ranges_disjoint opened_1 GPUEB_WINDOW_GPR GPUEB_WINDOW_MBOX 0 0x64 0 4 (Range 0 0)
    (Range 0x13c3fd1c 0x64) (Range 0x13c3fd80 4)); try (unfold is_u64; lia); try reflexivity. discriminate.
Defined.

(** The transmit slots of the mailbox are laid out back to back: slot [i]
    starts where slot [i-1] ends, all slots together fill exactly the 0xd8
    bytes below the receive area, the slot of the mailbox channel is where the
    mailbox core writes its eight words, and it lies inside the data region. *)
Theorem sram_tx_slots channel count o :
  0 <= channel < 11 -> count = nth (Z.to_nat channel) words 0 ->
  exists offset, gpueb_sram_tx_slot channel count (Some o) = (0, Some offset) /\
    0 <= offset /\ offset + 4 * count <= 0xd8 /\
    (channel + 1 < 11 -> gpueb_sram_tx_slot (channel + 1) (nth (Z.to_nat (channel + 1)) words 0) (Some o)
       = (0, Some (offset + 4 * count))) /\
    (channel = 10 -> offset + 4 * count = 0xd8) /\
    (channel = 1 -> offset = GPUEB_IO_TX /\ count = GPUEB_IO_WORDS /\
       gpueb_io_bounds GPUEB_IO_DATA offset (4 * count) = 0).
Proof.
  intros Hc ->.
  assert (channel = 0 \/ channel = 1 \/ channel = 2 \/ channel = 3 \/ channel = 4 \/ channel = 5 \/ channel = 6 \/
          channel = 7 \/ channel = 8 \/ channel = 9 \/ channel = 10) as Hcase by lia.
  repeat destruct Hcase as [->|Hcase]; try (subst channel);
    (eexists; split; [reflexivity|]; repeat split; try (vm_compute; congruence); intros; try lia; reflexivity).
Qed.
Lemma sram_tx_slots_witness : gpueb_sram_tx_slot 1 8 (Some 0) = (0, Some GPUEB_IO_TX).
Proof.
  destruct (sram_tx_slots 1 8 0) as (offset & H1 & _ & _ & _ & _ & H2); [lia|reflexivity|].
  destruct (H2 eq_refl) as (-> & _). exact H1.
Defined.
