(* ===== verification/GpuLease.v ===== *)
(** * The GPUEB SRAM driver: [gpu/sram-owner/mt6878-gpueb-sram.c]

    The kernel side of the SRAM owner: its creation and destruction, the typed
    window leases, and the two transactions that give a controller bounded
    reads and the one write the mailbox protocol has. The decisions are those of
    [GpuSram]; device words and kernel services are requests to an arbitrary
    environment ([Trace]). Every operation runs under the owner's mutex. *)

From S2P Require Import Prelude Trace GpuSram.
Open Scope Z_scope.
Open Scope io_scope.

(** ** Requests *)

Inductive object : Type := Sram_owner | Window_lease (type : gpueb_sram_window) | Reset_scope | Dispatch_lease.
(** A device word is named by its mapping and the offset in it: the SRAM, the
    four one-word mailbox controls, the reset bank. *)
Inductive location : Type := In_sram (offset : Z) | Control (index : Z) | In_reset (offset : Z).
#[export] Instance location_eq : EqDecision location.
Proof. solve_decision. Defined.
(** Services that hand out an object or a reference answer with 0 when they
    fail; [Request_irq] and [Pm_get_if_in_use] answer with their status. A
    driver's module is named by the driver. *)
Inductive request : Type :=
| Readl (a : location)
| Writel (v : Z) (a : location)
| Mb
| Kzalloc (o : object)
| Kfree (o : object)
| Request_mem (first count : Z)
| Release_mem (first count : Z)
| Ioremap (first count : Z)
| Iounmap (m : Z)
| Get_device (d : Z)
| Put_device (d : Z)
| Try_module_get (driver : Z)
| Module_put (driver : Z)
| Pm_get_if_in_use (d : Z)
| Pm_put_noidle (d : Z)
| Driver (d : Z)
| Irq_data
| Disable_irq
| Synchronize_irq
| Request_irq
| Free_irq
| Receive (channel : Z) (payload : list Z).
Record answer : Type := Answer { status : Z; flag : bool }.
Abbreviation gio := (io request answer).

Record resource : Type := Resource { r_start : Z; r_end : Z; r_mem : bool }.
Definition resource_size (r : resource) : Z := r_end r - r_start r + 1.
Record mt6878_gpueb_sram : Type := Sram { s_self : Z; s_parent : Z; core : gpueb_sram_core; mapping : Z }.
Record mt6878_gpueb_window : Type := Window { w_sram : Z; w_type : gpueb_sram_window }.

Definition set_core (s : mt6878_gpueb_sram) (c : gpueb_sram_core) : mt6878_gpueb_sram := Sram (s_self s) (s_parent s) c (mapping s).
Definition new_sram_core : gpueb_sram_core := SramCore GPUEB_SRAM_NEW 0 (Range 0 0).

(** ** Creation, leases, destruction *)

Definition mt6878_gpueb_sram_create (parent : Z) (res : option resource) : gio (Z + mt6878_gpueb_sram) :=
  match res with
  | None => ret (inl (- EINVAL))
  | Some r =>
    if (parent =? 0) || negb (r_mem r) || (r_end r <? r_start r) then ret (inl (- EINVAL))
    else if GPUEB_SRAM_SIZE <=? r_end r - r_start r then ret (inl (- ERANGE))
    else
    let n := resource_size r in
    let e := gpueb_sram_validate (r_start r) n in
    if negb (e =? 0) then ret (inl e)
    else
    let! a := ask (Kzalloc Sram_owner) in
    if status a =? 0 then ret (inl (- ENOMEM))
    else
    let! b := ask (Request_mem (r_start r) n) in
    if status b =? 0 then let! _ := ask (Kfree Sram_owner) in ret (inl (- EBUSY))
    else
    let! m := ask (Ioremap (r_start r) n) in
    if status m =? 0 then
      let! _ := ask (Release_mem (r_start r) n) in
      let! _ := ask (Kfree Sram_owner) in ret (inl (- ENOMEM))
    else
    match gpueb_sram_open (Some new_sram_core) (r_start r) n with
    | (0, Some c) => let! _ := ask (Get_device parent) in ret (inr (Sram (status a) parent c (status m)))
    | (e, _) =>
      let! _ := ask (Iounmap (status m)) in
      let! _ := ask (Release_mem (r_start r) n) in
      let! _ := ask (Kfree Sram_owner) in ret (inl e)
    end
  end.
Definition mt6878_gpueb_sram_check_parent (sram : option mt6878_gpueb_sram) (parent : Z) : Z :=
  match sram with
  | None => - EINVAL
  | Some s =>
    if parent =? 0 then - EINVAL
    else if negb (is_phase (core s) GPUEB_SRAM_OWNED) then - ESHUTDOWN
    else if negb (s_parent s =? parent) then - ENODEV else 0
  end.
Definition mt6878_gpueb_sram_get_window (sram : option mt6878_gpueb_sram) (type : gpueb_sram_window)
    : gio ((Z + mt6878_gpueb_window) * option mt6878_gpueb_sram) :=
  match sram with
  | None => ret (inl (- EINVAL), None)
  | Some s =>
    let! a := ask (Kzalloc (Window_lease type)) in
    if status a =? 0 then ret (inl (- ENOMEM), sram)
    else match gpueb_sram_claim_window (Some (core s)) type with
    | (0, Some c) => ret (inr (Window (s_self s) type), Some (set_core s c))
    | (e, _) => let! _ := ask (Kfree (Window_lease type)) in ret (inl e, sram)
    end
  end.
(** [s] is the owner the window belongs to. *)
Definition mt6878_gpueb_sram_put_window (s : mt6878_gpueb_sram) (window : option mt6878_gpueb_window) : gio mt6878_gpueb_sram :=
  match window with
  | None => ret s
  | Some w =>
    let s := match gpueb_sram_put_window (Some (core s)) (w_type w) with (_, Some c) => set_core s c | _ => s end in
    let! _ := ask (Kfree (Window_lease (w_type w))) in ret s
  end.
Definition mt6878_gpueb_sram_describe (s : mt6878_gpueb_sram) (window : option mt6878_gpueb_window) (offset n : Z) (range : option gpueb_sram_range)
    : Z * option gpueb_sram_range :=
  match window with
  | None => (- EINVAL, range)
  | Some w => gpueb_sram_window_range (Some (core s)) (w_type w) offset n range
  end.
Definition mt6878_gpueb_sram_unknown_start (sram : option mt6878_gpueb_sram) : Z * option mt6878_gpueb_sram :=
  match sram with
  | None => (- EINVAL, None)
  | Some s => match gpueb_sram_quarantine (Some (core s)) with (r, Some c) => (r, Some (set_core s c)) | (r, None) => (r, sram) end
  end.
(** The owner after the call; a destroyed owner is gone. *)
Definition mt6878_gpueb_sram_destroy (sram : option mt6878_gpueb_sram) : gio (Z * option mt6878_gpueb_sram) :=
  match sram with
  | None => ret (- EINVAL, None)
  | Some s =>
    match gpueb_sram_close (Some (core s)) with
    | (0, Some c) =>
      let! _ := ask (Iounmap (mapping s)) in
      let! _ := ask (Release_mem (start (whole c)) (size (whole c))) in
      let! _ := ask (Put_device (s_parent s)) in
      let! _ := ask (Kfree Sram_owner) in ret (0, None)
    | (e, _) => ret (e, sram)
    end
  end.

(** ** Transactions *)

Fixpoint read_words (n : nat) (a : Z) : gio (list Z) :=
  match n with
  | O => ret []
  | S n => let! w := ask (Readl (In_sram a)) in let! ws := read_words n (a + 4) in ret (u32 (status w) :: ws)
  end.
Fixpoint write_words (ws : list Z) (a : Z) : gio unit :=
  match ws with [] => ret tt | w :: ws => let! _ := ask (Writel w (In_sram a)) in write_words ws (a + 4) end.
(** The place of a range in the mapping. *)
Definition at_range (s : mt6878_gpueb_sram) (r : gpueb_sram_range) : Z := u64 (start r - start (whole (core s))).
(** The status and the words; on an error there are none. *)
Definition mt6878_gpueb_sram_reader_words (s : mt6878_gpueb_sram) (type : gpueb_sram_window) (offset count : Z) : gio (Z * list Z) :=
  if (count =? 0) || (GPUEB_MBOX_SIZE / 4 <? count) then ret (- EINVAL, [])
  else match gpueb_sram_window_range (Some (core s)) type offset (count * 4) (Some (Range 0 0)) with
  | (0, Some r) => let! ws := read_words (Z.to_nat count) (at_range s r) in ret (0, ws)
  | (e, _) => ret (e, [])
  end.
(** The two leases are of this owner and of the two types. *)
Definition leases_match (s : mt6878_gpueb_sram) (gpr mbox : option mt6878_gpueb_window) : bool :=
  match gpr, mbox with
  | Some g, Some m => (w_sram g =? w_sram m) && bool_decide (w_type g = GPUEB_WINDOW_GPR) && bool_decide (w_type m = GPUEB_WINDOW_MBOX)
  | _, _ => false
  end.
(** [consume] is the callback; [a] what it leaves when it is not called. *)
Definition mt6878_gpueb_sram_read_transaction {A} (s : mt6878_gpueb_sram) (gpr mbox : option mt6878_gpueb_window) (consume : gio (Z * A)) (a : A)
    : gio (Z * A) :=
  if negb (leases_match s gpr mbox) then ret (- EINVAL, a)
  else
  let e := (gpueb_sram_window_range (Some (core s)) GPUEB_WINDOW_GPR 0 GPUEB_GPR_SIZE (Some (Range 0 0))).1 in
  if negb (e =? 0) then ret (e, a)
  else
  let e := (gpueb_sram_window_range (Some (core s)) GPUEB_WINDOW_MBOX 0 GPUEB_MBOX_SIZE (Some (Range 0 0))).1 in
  if negb (e =? 0) then ret (e, a) else consume.
(** [before] and [commit] are the callbacks; they pass the caller's state. *)
Definition mt6878_gpueb_sram_send_transaction {A} (s : mt6878_gpueb_sram) (gpr mbox : option mt6878_gpueb_window) (channel : Z) (ws : list Z)
    (before commit : A -> gio (Z * A)) (a : A) : gio (Z * A) :=
  if negb (leases_match s gpr mbox) then ret (- EINVAL, a)
  else
  match gpueb_sram_tx_slot channel (len ws) (Some 0) with
  | (0, Some offset) =>
    let e := (gpueb_sram_window_range (Some (core s)) GPUEB_WINDOW_GPR 0 GPUEB_GPR_SIZE (Some (Range 0 0))).1 in
    if negb (e =? 0) then ret (e, a)
    else
    match gpueb_sram_window_range (Some (core s)) GPUEB_WINDOW_MBOX offset (len ws * 4) (Some (Range 0 0)) with
    | (0, Some r) =>
      let! p := before a in
      if negb (p.1 =? 0) then ret p
      else let! _ := write_words ws (at_range s r) in commit p.2
    | (e, _) => ret (e, a)
    end
  | (e, _) => ret (e, a)
  end.

(** ** Resources *)

Inductive token : Type :=
| T_object (o : object) | T_mem (first count : Z) | T_map (m : Z) | T_device (d : Z) | T_module (driver : Z) | T_pm (d : Z) | T_irq.
#[export] Instance object_eq : EqDecision object.
Proof. solve_decision. Defined.
#[export] Instance token_eq : EqDecision token.
Proof. solve_decision. Defined.
Definition one (t u : token) : Z := if decide (t = u) then 1 else 0.
(** What one request adds to the references held to [t]. *)
Definition delta (t : token) (e : request * answer) : Z :=
  match e.1 with
  | Kzalloc o => if status e.2 =? 0 then 0 else one t (T_object o)
  | Kfree o => - one t (T_object o)
  | Request_mem f n => if status e.2 =? 0 then 0 else one t (T_mem f n)
  | Release_mem f n => - one t (T_mem f n)
  | Ioremap _ _ => if status e.2 =? 0 then 0 else one t (T_map (status e.2))
  | Iounmap m => - one t (T_map m)
  | Get_device d => one t (T_device d)
  | Put_device d => - one t (T_device d)
  | Try_module_get d => if status e.2 =? 0 then 0 else one t (T_module d)
  | Module_put d => - one t (T_module d)
  | Pm_get_if_in_use d => if 0 <? status e.2 then one t (T_pm d) else 0
  | Pm_put_noidle d => - one t (T_pm d)
  | Request_irq => if status e.2 =? 0 then one t T_irq else 0
  | Free_irq => - one t T_irq
  | _ => 0
  end.
Definition net (t : token) (s : trace request answer) : Z := fold_right (fun e n => delta t e + n) 0 s.
Definition holding (ts : list token) (t : token) : Z := fold_right (fun u n => one t u + n) 0 ts.
Lemma net_app t s1 s2 : net t (s1 ++ s2) = net t s1 + net t s2.
Proof. induction s1 as [|e s1 IH]; cbn; [reflexivity|]. fold (net t (s1 ++ s2)) (net t s1). lia. Qed.
Lemma net_cons t e s : net t (e :: s) = delta t e + net t s.
Proof. reflexivity. Qed.
Lemma holding_app ts us t : holding (ts ++ us) t = holding ts t + holding us t.
Proof. induction ts as [|u ts IH]; cbn; [reflexivity|]. fold (holding (ts ++ us) t) (holding ts t). lia. Qed.

(** Adds up the references of an explicit trace. *)
Ltac settle_net := unfold net, delta; cbn [fold_right fst snd app];
  repeat match goal with
  | G : (status ?p =? 0) = _ |- context [status ?p =? 0] => rewrite G
  | G : (0 <? status ?p) = _ |- context [0 <? status ?p] => rewrite G
  end; cbn [holding fold_right]; lia.

(** What a created owner holds. *)
Definition sram_tokens (s : mt6878_gpueb_sram) : list token :=
  [T_object Sram_owner; T_mem GPUEB_SRAM_BASE GPUEB_SRAM_SIZE; T_map (mapping s); T_device (s_parent s)].
Lemma validate_profile first n : gpueb_sram_validate first n = 0 -> first = GPUEB_SRAM_BASE /\ n = GPUEB_SRAM_SIZE.
Proof. unfold gpueb_sram_validate. intros E. guards E. lia. Qed.
Lemma lease_create_outcome parent res : performs (mt6878_gpueb_sram_create parent res) (fun r s =>
  match r with
  | inl e => e <> 0 /\ forall t, net t s = 0
  | inr o => s_parent o = parent /\ core o = SramCore GPUEB_SRAM_OWNED 0 (Range GPUEB_SRAM_BASE GPUEB_SRAM_SIZE) /\ forall t, net t s = holding (sram_tokens o) t
  end).
Proof.
  destruct res as [r|]; cbn [mt6878_gpueb_sram_create]; [|trace_step; split; [discriminate|reflexivity]].
  trace_step; [trace_step; split; [discriminate|reflexivity]|]. trace_step; [trace_step; split; [discriminate|reflexivity]|]. cbv zeta.
  trace_step; [trace_step; split; [lia|reflexivity]|].
  destruct (validate_profile (r_start r) (resource_size r)) as [E1 E2]; [lia|]. rewrite E1, E2. clear G G0 G1.
  trace_step. trace_step; [trace_step; split; [discriminate|intros t; settle_net]|].
  trace_step. trace_step; [trace_step; trace_step; split; [discriminate|intros t; settle_net]|].
  trace_step. trace_step; [trace_step; trace_step; trace_step; split; [discriminate|intros t; settle_net]|].
  change (gpueb_sram_open (Some new_sram_core) 331350016 262144) with (0, Some (SramCore GPUEB_SRAM_OWNED 0 (Range GPUEB_SRAM_BASE GPUEB_SRAM_SIZE))). cbv iota.
  trace_step. trace_step. split; [reflexivity|]. split; [reflexivity|]. intros t. unfold sram_tokens. cbn [mapping s_parent]. settle_net.
Qed.
Lemma destroy_outcome o : whole (core o) = Range GPUEB_SRAM_BASE GPUEB_SRAM_SIZE -> performs (mt6878_gpueb_sram_destroy (Some o)) (fun p s =>
  match p.2 with
  | None => p.1 = 0 /\ phase (core o) = GPUEB_SRAM_OWNED /\ clients (core o) = 0 /\ forall t, net t s = - holding (sram_tokens o) t
  | Some o' => o' = o /\ p.1 <> 0 /\ s = []
  end).
Proof.
  intros W. cbn [mt6878_gpueb_sram_destroy]. unfold gpueb_sram_close. destruct (_ || _) eqn:G1; [cbv [Z.opp]; cbv iota; trace_step; now split|].
  destruct (negb (is_phase _ GPUEB_SRAM_OWNED)) eqn:G2; [cbv [Z.opp]; cbv iota; trace_step; now split|]. cbv iota; cbn [whole]. rewrite W. cbn [start size]. repeat trace_step. cbn [fst snd].
  apply negb_false_iff, bool_decide_eq_true in G2. split; [reflexivity|]. split; [exact G2|]. split; [lia|]. intros t. unfold sram_tokens. settle_net.
Qed.

(** ** Windows and transactions *)

Definition claimed (s : mt6878_gpueb_sram) (type : gpueb_sram_window) : mt6878_gpueb_sram :=
  set_core s (SramCore (phase (core s)) (Z.lor (clients (core s)) (window_bit type)) (whole (core s))).
Lemma get_window_outcome s type : performs (mt6878_gpueb_sram_get_window (Some s) type) (fun p tr =>
  match p.1 with
  | inl e => e <> 0 /\ p.2 = Some s /\ forall t, net t tr = 0
  | inr w => w = Window (s_self s) type /\ p.2 = Some (claimed s type) /\ phase (core s) = GPUEB_SRAM_OWNED /\ Z.land (clients (core s)) (window_bit type) = 0 /\
      forall t, net t tr = holding [T_object (Window_lease type)] t
  end).
Proof.
  cbn [mt6878_gpueb_sram_get_window]. trace_step. trace_step; [trace_step; split; [discriminate|]; split; [reflexivity|intros t; settle_net]|].
  unfold gpueb_sram_claim_window. assert (Hno : forall e, e <> 0 -> performs (let! _ := ask (Kfree (Window_lease type)) in ret (inl e, Some s)) (fun (q : (Z + mt6878_gpueb_window) * option mt6878_gpueb_sram) tr =>
    match q.1 with
    | inl e => e <> 0 /\ q.2 = Some s /\ forall t, net t ((Kzalloc (Window_lease type), p) :: tr) = 0
    | inr w => w = Window (s_self s) type /\ q.2 = Some (claimed s type) /\ phase (core s) = GPUEB_SRAM_OWNED /\ Z.land (clients (core s)) (window_bit type) = 0 /\
        forall t, net t ((Kzalloc (Window_lease type), p) :: tr) = holding [T_object (Window_lease type)] t
    end)).
  { intros e He. trace_step. trace_step. cbn [fst snd]. split; [exact He|]. split; [reflexivity|]. intros t. settle_net. }
  destruct (window_profile type); [|apply Hno; discriminate]. destruct (negb (is_phase (core s) GPUEB_SRAM_OWNED)) eqn:G1; [apply Hno; discriminate|].
  destruct (Z.eqb_spec (Z.land (clients (core s)) (window_bit type)) 0) as [E|E]; cbn [negb]; [|apply Hno; discriminate].
  cbv iota. trace_step. apply negb_false_iff, bool_decide_eq_true in G1. split_and!; auto. intros t. settle_net.
Qed.
Lemma put_window_outcome s w : performs (mt6878_gpueb_sram_put_window s (Some w)) (fun s' tr =>
  set_core s' (core s) = s /\ (forall t, net t tr = - holding [T_object (Window_lease (w_type w))] t) /\
  (window_profile (w_type w) <> None -> Z.land (clients (core s)) (window_bit (w_type w)) <> 0 ->
     core s' = SramCore (phase (core s)) (Z.ldiff (clients (core s)) (window_bit (w_type w))) (whole (core s)))).
Proof.
  cbn [mt6878_gpueb_sram_put_window]. trace_step. trace_step. split; [|split; [intros t; settle_net|]].
  - destruct s. unfold gpueb_sram_put_window. destruct (window_profile _); [|reflexivity]. now destruct (_ =? 0).
  - unfold gpueb_sram_put_window. destruct (window_profile _); [|congruence]. intros _ E. now destruct (Z.eqb_spec (Z.land (clients (core s)) (window_bit (w_type w))) 0).
Qed.
(** Reading words: one request per word, in order. *)
Lemma read_words_outcome n : forall a, performs (read_words n a) (fun ws s =>
  length ws = n /\ fst <$> s = (fun j => Readl (In_sram (a + 4 * Z.of_nat j))) <$> seq 0 n /\ ws = (fun e => u32 (status e.2)) <$> s).
Proof.
  induction n as [|n IH]; intros a; cbn [read_words]; [trace_step; auto|]. trace_step. eapply performs_bind; [apply IH|]. intros ws s (A & B & C). trace_step.
  rewrite app_nil_r. cbn [length fmap list_fmap seq]. split; [lia|]. split; [|now rewrite C]. cbn [fst]. f_equal; [do 2 f_equal; lia|]. rewrite B, <- seq_shift, <- list_fmap_compose.
  apply list_fmap_ext. intros i x _. cbn. do 2 f_equal. lia.
Qed.
(** Requests that only read device words. *)
Definition reading (e : request * answer) : Prop := match e.1 with Readl _ => True | _ => False end.
Lemma read_words_reading n a : performs (read_words n a) (fun _ s => Forall reading s).
Proof.
  eapply performs_impl; [apply read_words_outcome|]. intros ws s (_ & E & _). apply Forall_forall. intros e He.
  assert (X : e.1 ∈ fst <$> s) by (apply list_elem_of_fmap; eauto). rewrite E in X. apply list_elem_of_fmap in X as (j & X & _). unfold reading. now rewrite X.
Qed.
Lemma reader_words_reading s type offset count : performs (mt6878_gpueb_sram_reader_words s type offset count) (fun _ tr => Forall reading tr).
Proof.
  unfold mt6878_gpueb_sram_reader_words. trace_step; [trace_step; constructor|]. destruct (gpueb_sram_window_range _ _ _ _ _) as [[|e|e] [r|]]; try (trace_step; constructor).
  eapply performs_bind; [apply read_words_reading|]. intros ws tr X. trace_step. now rewrite app_nil_r.
Qed.
