(* ===== verification/GpuReset.v ===== *)
(** * The GPUEB mailbox and reset scope: [gpu/reset-owner-draft/mt6878-gpueb-reset.c]

    The controller of the GPUEB mailbox: admission of the platform resources,
    the scope with its pinned clients, the threaded interrupt that copies and
    acknowledges messages, the nonblocking submission, the lifetime lease, the
    drain and the irreversible reset. SRAM access is [GpuLease]'s; registers,
    interrupts, references and client callbacks are requests to an arbitrary
    environment. The interrupt thread releases the scope's mutex while the
    clients consume their messages, and a drain waits for it without the
    mutex; histories interleave at these points. *)

From stdpp Require Import strings.
From S2P Require Import Prelude Trace GpuSram GpuLease.
Open Scope Z_scope.
Open Scope io_scope.

Abbreviation GPUEB_MBOX_CHANNELS := 11 (only parsing).
Abbreviation GPUEB_MBOX_SET := 0 (only parsing).
Abbreviation GPUEB_MBOX_CLR := 1 (only parsing).
Abbreviation GPUEB_MBOX_SEND := 2 (only parsing).
Abbreviation GPUEB_MBOX_RECV := 3 (only parsing).

Record channel_profile : Type := Profile { send_words : Z; recv_words : Z; recv_opt : Z; cb_opt : Z; recv_offset : Z }.
Definition gpueb_channels : list channel_profile :=
  [Profile 4 4 0 0 216; Profile 8 8 1 1 232; Profile 3 1 0 1 264; Profile 6 1 0 1 268; Profile 9 1 1 1 272; Profile 4 4 1 1 276;
   Profile 6 1 1 1 292; Profile 6 6 1 1 296; Profile 1 4 0 1 320; Profile 4 1 1 1 336; Profile 3 3 1 1 340].
Definition profile (i : Z) : channel_profile := nth (Z.to_nat i) gpueb_channels (Profile 0 0 0 0 0).
Definition channel_ids : list Z := [0; 1; 2; 3; 4; 5; 6; 7; 8; 9; 10].

(** ** Platform resources *)

(** A device-tree node as the kernel reports it: cells by property name, and
    the power domains with their cells and whether the supplier is the SPM. *)
Record device_node : Type := Node {
  available : bool; compatible : bool; cells : list (string * list Z); domains : list (list Z * bool); parse_error : Z
}.
Record platform_device : Type := Pdev {
  p_dev : Z; p_driver : Z; p_node : option device_node; p_domain : bool; p_resources : list (string * resource); p_irq : Z; p_trigger : Z
}.
Fixpoint assoc {A} (name : string) (l : list (string * A)) : option A :=
  match l with [] => None | (k, v) :: l => if String.eqb k name then Some v else assoc name l end.

Definition scalars : list (string * Z) := [("mbox-count"%string, 1); ("mbox-size"%string, 160); ("slot-size"%string, 4); ("ts-mbox"%string, 0)].
Definition table_of (row : Z -> list Z) : list Z := flat_map row channel_ids.
Definition send_row (i : Z) : list Z := [i; 0; send_words (profile i)].
Definition recv_row (i : Z) : list Z := [i; 0; recv_words (profile i); recv_opt (profile i); cb_opt (profile i)].
(** The cells of [name] are exactly [expected]. *)
Definition cells_are (n : device_node) (name : string) (expected : list Z) : bool :=
  match assoc name (cells n) with
  | Some l => (len l =? len expected) && forallb (fun k => nth (Z.to_nat k) l 0 =? nth (Z.to_nat k) expected 0) (seqZ 0 (len expected))
  | None => false
  end.
Definition validate_mailbox_layout (n : device_node) : Z :=
  if negb (forallb (fun e => cells_are n e.1 [e.2]) scalars) then - EINVAL
  else if negb (cells_are n "send-table"%string (table_of send_row)) || negb (cells_are n "recv-table"%string (table_of recv_row)) then - EINVAL
  else 0.

Definition gpueb_resources : list (string * (Z * Z)) :=
  [("gpueb_base"%string, (GPUEB_SRAM_BASE, GPUEB_SRAM_SIZE)); ("gpueb_gpr_base"%string, (GPUEB_SRAM_BASE + GPUEB_GPR_OFFSET, GPUEB_GPR_SIZE));
   ("gpueb_reg_base"%string, (0x13c60000, 0x2000)); ("mbox0_base"%string, (GPUEB_SRAM_BASE + GPUEB_MBOX_OFFSET, GPUEB_MBOX_SIZE));
   ("mbox0_set"%string, (0x13c62004, 4)); ("mbox0_clr"%string, (0x13c62074, 4)); ("mbox0_send"%string, (0x13c62000, 4)); ("mbox0_recv"%string, (0x13c62078, 4))].
Definition platform_get_resource_byname (p : platform_device) (name : string) : option resource :=
  assoc name (filter (fun e => r_mem e.2 = true) (p_resources p)).
Definition mt6878_gpueb_reset_validate_resources (parent : option platform_device) : Z :=
  match parent with
  | None => - EINVAL
  | Some p =>
    match p_node p with
    | None => - EINVAL
    | Some n =>
      if negb (available n) || negb (compatible n) then - ENODEV
      else if negb (len (filter (fun e => r_mem e.2 = true) (p_resources p)) =? len gpueb_resources) then - EINVAL
      else if negb (forallb (fun e => match platform_get_resource_byname p e.1 with
                     | Some r => (r_start r =? e.2.1) && (r_end r =? e.2.1 + e.2.2 - 1)
                     | None => false
                     end) gpueb_resources) then - ERANGE
      else validate_mailbox_layout n
    end
  end.

(** ** The scope *)

Record channel : Type := Channel { ch_device : Z; ch_driver : Z }.
(** The lease of the dispatch: the parent it pins, and its driver's module. *)
Record mt6878_gpueb_dispatch : Type := Dispatch { d_parent : Z; d_module : Z }.
Record mt6878_gpueb_reset : Type := Scope {
  parent : Z; parent_driver : Z; sram : mt6878_gpueb_sram; gpr : option mt6878_gpueb_window; mbox : option mt6878_gpueb_window;
  registers : Z; mbox_control : list resource; mbox_maps : list Z; mbox_claims : Z;
  channels : list channel; registered : Z; tx_inflight : Z; dispatch_owner : option mt6878_gpueb_dispatch;
  first_error : Z; reset_written : bool; dispatch_quiesced : bool; irq_contained : bool; dispatch_used : bool; dispatch_active : bool
}.
Definition set_sram (c : mt6878_gpueb_reset) (s : mt6878_gpueb_sram) : mt6878_gpueb_reset :=
  Scope (parent c) (parent_driver c) s (gpr c) (mbox c) (registers c) (mbox_control c) (mbox_maps c) (mbox_claims c) (channels c) (registered c) (tx_inflight c)
    (dispatch_owner c) (first_error c) (reset_written c) (dispatch_quiesced c) (irq_contained c) (dispatch_used c) (dispatch_active c).
Definition set_mailbox (c : mt6878_gpueb_reset) (chs : list channel) (reg inflight : Z) : mt6878_gpueb_reset :=
  Scope (parent c) (parent_driver c) (sram c) (gpr c) (mbox c) (registers c) (mbox_control c) (mbox_maps c) (mbox_claims c) chs reg inflight
    (dispatch_owner c) (first_error c) (reset_written c) (dispatch_quiesced c) (irq_contained c) (dispatch_used c) (dispatch_active c).
Definition set_owner (c : mt6878_gpueb_reset) (d : option mt6878_gpueb_dispatch) : mt6878_gpueb_reset :=
  Scope (parent c) (parent_driver c) (sram c) (gpr c) (mbox c) (registers c) (mbox_control c) (mbox_maps c) (mbox_claims c) (channels c) (registered c) (tx_inflight c)
    d (first_error c) (reset_written c) (dispatch_quiesced c) (irq_contained c) (dispatch_used c) (dispatch_active c).
Definition set_flags (c : mt6878_gpueb_reset) (err : Z) (written quiesced contained used active : bool) : mt6878_gpueb_reset :=
  Scope (parent c) (parent_driver c) (sram c) (gpr c) (mbox c) (registers c) (mbox_control c) (mbox_maps c) (mbox_claims c) (channels c) (registered c) (tx_inflight c)
    (dispatch_owner c) err written quiesced contained used active.
Definition BIT (i : Z) : Z := Z.shiftl 1 i.
Definition nth_channel (c : mt6878_gpueb_reset) (i : Z) : channel := nth (Z.to_nat i) (channels c) (Channel 0 0).

(** The device is still driven by [driver], which cannot be unbound. *)
Definition bound (device driver : Z) : gio bool :=
  let! a := ask (Driver device) in ret ((status a =? driver) && flag a).
Fixpoint identity_loop (c : mt6878_gpueb_reset) (ids : list Z) : gio Z :=
  match ids with
  | [] => ret 0
  | i :: ids =>
    if negb (Z.testbit (registered c) i) then identity_loop c ids
    else
    let! ok := bound (ch_device (nth_channel c i)) (ch_driver (nth_channel c i)) in
    if negb ok then ret (- ENODEV) else identity_loop c ids
  end.
Definition dispatch_identity (c : mt6878_gpueb_reset) : gio Z :=
  if parent_driver c =? 0 then ret (- ENODEV)
  else
  let! ok := bound (parent c) (parent_driver c) in
  if negb ok then ret (- ENODEV) else identity_loop c channel_ids.

Definition latch (c : mt6878_gpueb_reset) (error : Z) : mt6878_gpueb_reset :=
  set_flags c (if first_error c =? 0 then error else first_error c) (reset_written c) (dispatch_quiesced c) (irq_contained c) (dispatch_used c) (dispatch_active c).
Definition contained (c : mt6878_gpueb_reset) : mt6878_gpueb_reset :=
  set_flags c (first_error c) (reset_written c) (dispatch_quiesced c) true (dispatch_used c) (dispatch_active c).
Definition mask_irq_once (c : mt6878_gpueb_reset) : gio mt6878_gpueb_reset :=
  if irq_contained c then ret (contained c) else let! _ := ask Disable_irq in ret (contained c).
Definition unknown_start (c : mt6878_gpueb_reset) : mt6878_gpueb_reset :=
  match mt6878_gpueb_sram_unknown_start (Some (sram c)) with (_, Some s) => set_sram c s | _ => c end.
Definition contain_irq (c : mt6878_gpueb_reset) (error : Z) : gio mt6878_gpueb_reset :=
  let! c := mask_irq_once (latch c error) in ret (unknown_start c).

(** ** Receiving *)

Record gpueb_irq_snapshot : Type := Snapshot { payload : list (list Z); pending : Z; replies : Z }.
Definition no_snapshot : gpueb_irq_snapshot := Snapshot (repeat [] 11) 0 0.
Definition boot_check (c : mt6878_gpueb_reset) : gio Z :=
  let! p := mt6878_gpueb_sram_reader_words (sram c) GPUEB_WINDOW_GPR 8 1 in
  ret (if negb (p.1 =? 0) then p.1 else if negb (nth 0 p.2 0 =? 0x55667788) then - EHOSTDOWN else 0).
Fixpoint reply_loop (pend inflight : Z) (ids : list Z) (acc : Z) : Z + Z :=
  match ids with
  | [] => inr acc
  | i :: ids =>
    if Z.testbit pend i && negb (recv_opt (profile i) =? 0) then
      if negb (Z.testbit inflight i) then inl (- EPROTO) else reply_loop pend inflight ids (Z.lor acc (BIT i))
    else reply_loop pend inflight ids acc
  end.
Fixpoint payload_loop (c : mt6878_gpueb_reset) (pend : Z) (ids : list Z) (acc : list (list Z)) : gio (Z * list (list Z)) :=
  match ids with
  | [] => ret (0, acc)
  | i :: ids =>
    if negb (Z.testbit pend i) then payload_loop c pend ids acc
    else
    let! p := mt6878_gpueb_sram_reader_words (sram c) GPUEB_WINDOW_MBOX (recv_offset (profile i)) (recv_words (profile i)) in
    if negb (p.1 =? 0) then ret (p.1, acc) else payload_loop c pend ids (<[Z.to_nat i := p.2]> acc)
  end.
Definition snapshot_mailbox (c : mt6878_gpueb_reset) : gio (Z * gpueb_irq_snapshot) :=
  let! r := boot_check c in
  if negb (r =? 0) then ret (r, no_snapshot)
  else
  let! a := ask (Readl (Control GPUEB_MBOX_RECV)) in
  let pend := u32 (status a) in
  if pend =? 0 then ret (0, no_snapshot)
  else if negb (Z.ldiff pend (registered c) =? 0) then ret (- EPROTO, no_snapshot)
  else
  match reply_loop pend (tx_inflight c) channel_ids 0 with
  | inl e => ret (e, no_snapshot)
  | inr reps =>
    let! p := payload_loop c pend channel_ids (repeat [] 11) in
    if negb (p.1 =? 0) then ret (p.1, no_snapshot)
    else
    let! r := boot_check c in
    if negb (r =? 0) then ret (r, no_snapshot)
    else
    let! _ := ask (Writel pend (Control GPUEB_MBOX_CLR)) in
    let! _ := ask (Readl (Control GPUEB_MBOX_RECV)) in
    ret (0, Snapshot p.2 pend reps)
  end.
(** The thread up to the first release of the mutex: [Some snap] when messages
    are to be delivered. *)
Definition irq_capture (c : mt6878_gpueb_reset) : gio (option gpueb_irq_snapshot * mt6878_gpueb_reset) :=
  let fault (c : mt6878_gpueb_reset) (e : Z) := let! c := contain_irq c e in ret (None, c) in
  if negb (first_error c =? 0) then fault c (first_error c)
  else if dispatch_quiesced c then ret (None, c)
  else if negb (dispatch_active c) || negb (bool_decide (is_Some (dispatch_owner c))) then let! c := mask_irq_once c in ret (None, c)
  else if reset_written c then fault c (- ESHUTDOWN)
  else
  let! r := dispatch_identity c in
  if negb (r =? 0) then fault c r
  else
  let c := set_flags c (first_error c) (reset_written c) (dispatch_quiesced c) (irq_contained c) true (dispatch_active c) in
  let! p := mt6878_gpueb_sram_read_transaction (sram c) (gpr c) (mbox c) (snapshot_mailbox c) no_snapshot in
  if negb (p.1 =? 0) then fault c p.1 else ret (Some p.2, c).
(** The callbacks, outside the mutex. *)
Fixpoint irq_deliver (snap : gpueb_irq_snapshot) (ids : list Z) : gio unit :=
  match ids with
  | [] => ret tt
  | i :: ids =>
    if Z.testbit (pending snap) i then
      let! _ := ask (Receive i (firstn (Z.to_nat (recv_words (profile i))) (nth (Z.to_nat i) (payload snap) []))) in irq_deliver snap ids
    else irq_deliver snap ids
  end.
(** Reply channels are free again. *)
Definition irq_retire (c : mt6878_gpueb_reset) (snap : gpueb_irq_snapshot) : mt6878_gpueb_reset :=
  set_mailbox c (channels c) (registered c) (Z.ldiff (tx_inflight c) (replies snap)).
(** The whole thread, when nothing runs in between; the result tells that the
    interrupt was handled. *)
Definition mailbox_irq_thread (c : mt6878_gpueb_reset) : gio (bool * mt6878_gpueb_reset) :=
  let! p := irq_capture c in
  match p.1 with
  | None => ret (true, p.2)
  | Some snap => let! _ := irq_deliver snap channel_ids in ret (negb (pending snap =? 0), irq_retire p.2 snap)
  end.

(** ** Clients and the dispatch lease *)

(** [receive] tells that a callback is given. The client keeps its driver
    during the call. *)
Definition mt6878_gpueb_reset_bind_channel (c : mt6878_gpueb_reset) (client i : Z) (receive : bool) : gio (Z * mt6878_gpueb_reset) :=
  if (client =? 0) || negb receive || (GPUEB_MBOX_CHANNELS <=? i) then ret (- EINVAL, c)
  else
  let! d := ask (Driver client) in
  if (status d =? 0) || negb (flag d) then ret (- EINVAL, c)
  else if negb (first_error c =? 0) then ret (first_error c, c)
  else if dispatch_quiesced c || reset_written c then ret (- ESHUTDOWN, c)
  else if bool_decide (is_Some (dispatch_owner c)) || Z.testbit (registered c) i then ret (- EBUSY, c)
  else
  let! m := ask (Try_module_get (status d)) in
  if status m =? 0 then ret (- ENODEV, c)
  else
  let! _ := ask (Get_device client) in
  ret (0, set_mailbox c (<[Z.to_nat i := Channel client (status d)]> (channels c)) (Z.lor (registered c) (BIT i)) (tx_inflight c)).

(** The checks of the acquisition that need no kernel service. *)
Definition acquire_refused (c : mt6878_gpueb_reset) (p : Z) : Z :=
  if negb (first_error c =? 0) then first_error c
  else if dispatch_quiesced c || reset_written c then - ESHUTDOWN
  else if bool_decide (is_Some (dispatch_owner c)) || dispatch_active c then - EBUSY
  else if negb (p =? parent c) then - ENODEV
  else if negb (registered c =? BIT GPUEB_MBOX_CHANNELS - 1) then - ENXIO
  else 0.
Definition mt6878_gpueb_reset_dispatch_acquire (c : mt6878_gpueb_reset) (p : Z) : gio (Z * mt6878_gpueb_reset) :=
  if p =? 0 then ret (- EINVAL, c)
  else
  let! a := ask (Kzalloc Dispatch_lease) in
  if status a =? 0 then ret (- ENOMEM, c)
  else
  let fail (e : Z) := let! _ := ask (Kfree Dispatch_lease) in ret (e, c) in
  if negb (acquire_refused c p =? 0) then fail (acquire_refused c p)
  else
  let! r := dispatch_identity c in
  if negb (r =? 0) then fail r
  else
  let r := mt6878_gpueb_sram_check_parent (Some (sram c)) p in
  if negb (r =? 0) then fail r
  else
  let! q := ask Irq_data in
  if (status q =? 0) || negb (flag q) || irq_contained c then fail (- EBUSY)
  else
  let! m := ask (Try_module_get (parent_driver c)) in
  if status m =? 0 then fail (- ENODEV)
  else
  let! u := ask (Pm_get_if_in_use p) in
  if status u <=? 0 then let! _ := ask (Module_put (parent_driver c)) in fail (if status u =? 0 then - EAGAIN else status u)
  else
  let! _ := ask (Get_device p) in ret (0, set_owner c (Some (Dispatch p (parent_driver c)))).

(** ** Sending *)

Definition tx_before (i : Z) (c : mt6878_gpueb_reset) : gio (Z * mt6878_gpueb_reset) :=
  let! r := boot_check c in
  if negb (r =? 0) then ret (r, c)
  else
  let! a := ask (Readl (Control GPUEB_MBOX_SEND)) in
  if Z.testbit (u32 (status a)) i then ret (- EBUSY, c)
  else
  let mark := set_flags c (first_error c) (reset_written c) (dispatch_quiesced c) (irq_contained c) true (dispatch_active c) in
  if recv_opt (profile i) =? 0 then ret (0, mark)
  else
  let! b := ask (Readl (Control GPUEB_MBOX_RECV)) in
  if Z.testbit (u32 (status b)) i then ret (- EPROTO, c) else ret (0, mark).
Definition tx_commit (i : Z) (c : mt6878_gpueb_reset) : gio (Z * mt6878_gpueb_reset) :=
  let! r := boot_check c in
  if negb (r =? 0) then ret (r, c)
  else
  let! _ := ask Mb in
  let c := if recv_opt (profile i) =? 0 then c else set_mailbox c (channels c) (registered c) (Z.lor (tx_inflight c) (BIT i)) in
  let! _ := ask (Writel (BIT i) (Control GPUEB_MBOX_SET)) in
  let! _ := ask (Readl (Control GPUEB_MBOX_SEND)) in ret (0, c).
Definition tx_fault (c : mt6878_gpueb_reset) (e : Z) : gio (Z * mt6878_gpueb_reset) :=
  let! c := contain_irq c e in ret (first_error c, c).
Definition mt6878_gpueb_reset_trysend (c : mt6878_gpueb_reset) (client i : Z) (ws : option (list Z)) : gio (Z * mt6878_gpueb_reset) :=
  match ws with
  | None => ret (- EINVAL, c)
  | Some ws =>
    if (client =? 0) || (GPUEB_MBOX_CHANNELS <=? i) || negb (len ws =? send_words (profile i)) then ret (- EINVAL, c)
    else if negb (first_error c =? 0) then ret (first_error c, c)
    else if dispatch_quiesced c || reset_written c then ret (- ESHUTDOWN, c)
    else if negb (Z.testbit (registered c) i) || negb (ch_device (nth_channel c i) =? client) then ret (- ENODEV, c)
    else if parent_driver c =? 0 then tx_fault c (- ENODEV)
    else
    let! ok := bound (parent c) (parent_driver c) in
    if negb ok then tx_fault c (- ENODEV)
    else
    let! ok := bound client (ch_driver (nth_channel c i)) in
    if negb ok then tx_fault c (- ENODEV)
    else
    let! q := ask Irq_data in
    if negb (bool_decide (is_Some (dispatch_owner c))) || negb (dispatch_active c) || (status q =? 0) || flag q || irq_contained c
    then ret (- EOPNOTSUPP, c)
    else
    let! r := dispatch_identity c in
    if negb (r =? 0) then tx_fault c r
    else if Z.testbit (tx_inflight c) i then ret (- EBUSY, c)
    else
    let! p := mt6878_gpueb_sram_send_transaction (sram c) (gpr c) (mbox c) i ws (tx_before i) (tx_commit i) c in
    if (p.1 =? 0) || (p.1 =? - EBUSY) then ret p else tx_fault p.2 p.1
  end.

(** ** Drain, release, reset *)

Definition drain_begin (c : mt6878_gpueb_reset) : gio mt6878_gpueb_reset :=
  mask_irq_once (set_flags c (first_error c) (reset_written c) true (irq_contained c) (dispatch_used c || dispatch_active c) false).
Definition drain_end (c : mt6878_gpueb_reset) : Z * mt6878_gpueb_reset :=
  if first_error c =? 0 then (0, c) else (first_error c, unknown_start c).
Definition mt6878_gpueb_reset_drain_irq (c : mt6878_gpueb_reset) : gio (Z * mt6878_gpueb_reset) :=
  let! c := drain_begin c in let! _ := ask Synchronize_irq in ret (drain_end c).

(** The rest of a release, after a drain with status [r]. *)
Definition release_locked (d : mt6878_gpueb_dispatch) (r : Z) (c : mt6878_gpueb_reset) : gio (Z * mt6878_gpueb_reset) :=
  let! r := if r =? 0 then dispatch_identity c else ret r in
  let exposed := dispatch_used c || reset_written c in
  let r := if (r =? 0) && negb exposed then mt6878_gpueb_sram_check_parent (Some (sram c)) (d_parent d) else r in
  let c := if r =? 0 then c else latch c r in
  let r := if r =? 0 then 0 else first_error c in
  if negb (r =? 0) || exposed then ret (if r =? 0 then - EBUSY else r, unknown_start c)
  else
  let! _ := ask (Pm_put_noidle (d_parent d)) in
  let! _ := ask (Put_device (d_parent d)) in
  let! _ := ask (Module_put (d_module d)) in
  let! _ := ask (Kfree Dispatch_lease) in ret (0, set_owner c None).
Definition mt6878_gpueb_reset_dispatch_release (c : mt6878_gpueb_reset) (d : mt6878_gpueb_dispatch) : gio (Z * mt6878_gpueb_reset) :=
  let! p := mt6878_gpueb_reset_drain_irq c in release_locked d p.1 p.2.
(** The rest of a reset, after a drain with status [r]. *)
Definition hold_locked (r : Z) (c : mt6878_gpueb_reset) : gio (Z * mt6878_gpueb_reset) :=
  if negb (r =? 0) then ret (r, c)
  else if negb (first_error c =? 0) then ret (first_error c, if first_error c =? - EALREADY then c else unknown_start c)
  else if reset_written c then ret (- EALREADY, c)
  else
  let c := set_flags c (first_error c) true (dispatch_quiesced c) (irq_contained c) (dispatch_used c) (dispatch_active c) in
  let! _ := ask (Writel 0 (In_reset 0x600)) in
  let! a := ask (Readl (In_reset 0x600)) in
  if u32 (status a) =? 0 then ret (0, c)
  else ret (- EIO, unknown_start (set_flags c (- EIO) true (dispatch_quiesced c) (irq_contained c) (dispatch_used c) (dispatch_active c))).
Definition mt6878_gpueb_reset_hold (c : mt6878_gpueb_reset) : gio (Z * mt6878_gpueb_reset) :=
  let! p := mt6878_gpueb_reset_drain_irq c in hold_locked p.1 p.2.

(** ** Preparation and destruction *)

(** The module of the driver itself. *)
Abbreviation THIS_MODULE := 0 (only parsing).
Abbreviation MT6878_POWER_DOMAIN_MFG0_SHUTDOWN := 6 (only parsing).
Abbreviation IRQ_TYPE_LEVEL_HIGH := 4 (only parsing).
Definition control_names : list string := ["mbox0_set"%string; "mbox0_clr"%string; "mbox0_send"%string; "mbox0_recv"%string].
Definition no_resource : resource := Resource 0 0 false.

(** From the claim below [n] down. *)
Fixpoint release_mailbox_resources (n : nat) (controls : list resource) (maps : list Z) : gio unit :=
  match n with
  | O => ret tt
  | S n =>
    let m := nth n maps 0 in
    let r := nth n controls no_resource in
    let! _ := if m =? 0 then ret tt else let! _ := ask (Iounmap m) in ret tt in
    let! _ := ask (Release_mem (r_start r) (resource_size r)) in
    release_mailbox_resources n controls maps
  end.
(** The four controls are claimed in order; [false] when one is not granted. *)
Fixpoint claim_controls (p : platform_device) (ns : list string) (acc : list resource) : gio (bool * list resource) :=
  match ns with
  | [] => ret (true, acc)
  | n :: ns =>
    let r := default no_resource (platform_get_resource_byname p n) in
    let! a := ask (Request_mem (r_start r) (resource_size r)) in
    if status a =? 0 then ret (false, acc) else claim_controls p ns (acc ++ [r])
  end.
Fixpoint map_controls (rs : list resource) (acc : list Z) : gio (bool * list Z) :=
  match rs with
  | [] => ret (true, acc)
  | r :: rs =>
    let! a := ask (Ioremap (r_start r) (resource_size r)) in
    if status a =? 0 then ret (false, acc) else map_controls rs (acc ++ [status a])
  end.

Abbreviation prepared := ((Z + mt6878_gpueb_reset) * mt6878_gpueb_sram)%type.
(** The exits of the preparation, from the last label up. *)
Definition exit_free (e : Z) (s : mt6878_gpueb_sram) : gio prepared := let! _ := ask (Kfree Reset_scope) in ret (inl e, s).
Definition exit_put_module (e : Z) (s : mt6878_gpueb_sram) : gio prepared := let! _ := ask (Module_put THIS_MODULE) in exit_free e s.
Definition exit_put_pm (dev e : Z) (s : mt6878_gpueb_sram) : gio prepared :=
  let! _ := ask (Pm_put_noidle dev) in let! _ := ask (Put_device dev) in exit_put_module e s.
Definition exit_put_gpr (g : mt6878_gpueb_window) (dev e : Z) (s : mt6878_gpueb_sram) : gio prepared :=
  let! s := mt6878_gpueb_sram_put_window s (Some g) in exit_put_pm dev e s.
Definition exit_put_mbox (m g : mt6878_gpueb_window) (dev e : Z) (s : mt6878_gpueb_sram) : gio prepared :=
  let! s := mt6878_gpueb_sram_put_window s (Some m) in exit_put_gpr g dev e s.
Definition exit_release_mbox (r : resource) (controls : list resource) (maps : list Z) (m g : mt6878_gpueb_window) (dev e : Z) (s : mt6878_gpueb_sram) : gio prepared :=
  let! _ := release_mailbox_resources (length controls) controls maps in
  let! _ := ask (Release_mem (r_start r) (resource_size r)) in exit_put_mbox m g dev e s.
Definition exit_unmap (regs : Z) (r : resource) (controls : list resource) (maps : list Z) (m g : mt6878_gpueb_window) (dev e : Z) (s : mt6878_gpueb_sram) : gio prepared :=
  let! _ := ask (Iounmap regs) in exit_release_mbox r controls maps m g dev e s.

(** Claims and mappings, once both windows are leased. *)
Definition prepare_claims (p : platform_device) (r : resource) (g m : mt6878_gpueb_window) (s : mt6878_gpueb_sram) : gio prepared :=
  let dev := p_dev p in
  let! a := ask (Request_mem (r_start r) (resource_size r)) in
  if status a =? 0 then exit_put_mbox m g dev (- EBUSY) s
  else
  let! cl := claim_controls p control_names [] in
  if negb cl.1 then exit_release_mbox r cl.2 [] m g dev (- EBUSY) s
  else
  let! mp := map_controls cl.2 [] in
  if negb mp.1 then exit_release_mbox r cl.2 mp.2 m g dev (- ENOMEM) s
  else
  let! b := ask (Ioremap (r_start r) (resource_size r)) in
  if status b =? 0 then exit_release_mbox r cl.2 mp.2 m g dev (- ENOMEM) s
  else
  let! q := ask Request_irq in
  if negb (status q =? 0) then exit_unmap (status b) r cl.2 mp.2 m g dev (status q) s
  else ret (inr (Scope dev (p_driver p) s (Some g) (Some m) (status b) cl.2 mp.2 (len cl.2) (repeat (Channel 0 0) 11) 0 0 None 0 false false false false false), s).
(** The allocation, the references and the leases. *)
Definition prepare_scope (p : platform_device) (r : resource) (s : mt6878_gpueb_sram) : gio prepared :=
  let dev := p_dev p in
  let! a := ask (Kzalloc Reset_scope) in
  if status a =? 0 then ret (inl (- ENOMEM), s)
  else
  let! b := ask (Try_module_get THIS_MODULE) in
  if status b =? 0 then exit_free (- ENODEV) s
  else
  let! u := ask (Pm_get_if_in_use dev) in
  if status u <=? 0 then exit_put_module (if status u =? 0 then - EAGAIN else status u) s
  else
  let! _ := ask (Get_device dev) in
  let! w := mt6878_gpueb_sram_get_window (Some s) GPUEB_WINDOW_GPR in
  match w with
  | (inl e, s') => exit_put_pm dev e (default s s')
  | (inr g, s') =>
    let s := default s s' in
    let! w := mt6878_gpueb_sram_get_window (Some s) GPUEB_WINDOW_MBOX in
    match w with
    | (inl e, s') => exit_put_gpr g dev e (default s s')
    | (inr m, s') => prepare_claims p r g m (default s s')
    end
  end.
(** The admission of the platform device. *)
Definition prepare_refused (p : platform_device) (s : mt6878_gpueb_sram) : Z :=
  if (p_dev p =? 0) || negb (p_domain p) then - EINVAL
  else
  let r := mt6878_gpueb_sram_check_parent (Some s) (p_dev p) in
  if negb (r =? 0) then r
  else
  let r := mt6878_gpueb_reset_validate_resources (Some p) in
  if negb (r =? 0) then r
  else
  match p_node p with
  | None => - EINVAL
  | Some n =>
    match domains n with
    | [(args, spm)] =>
      if negb (parse_error n =? 0) then parse_error n
      else if negb (bool_decide (args = [MT6878_POWER_DOMAIN_MFG0_SHUTDOWN]) && spm) then - EINVAL
      else if p_irq p <? 0 then p_irq p
      else if negb (p_trigger p =? IRQ_TYPE_LEVEL_HIGH) then - EINVAL else 0
    | _ => - EINVAL
    end
  end.
Definition mt6878_gpueb_reset_prepare (p : platform_device) (s : mt6878_gpueb_sram) : gio prepared :=
  if negb (prepare_refused p s =? 0) then ret (inl (prepare_refused p s), s)
  else prepare_scope p (default no_resource (platform_get_resource_byname p "gpueb_reg_base"%string)) s.

Fixpoint put_channels (c : mt6878_gpueb_reset) (ids : list Z) : gio unit :=
  match ids with
  | [] => ret tt
  | i :: ids =>
    if Z.testbit (registered c) i then
      let! _ := ask (Put_device (ch_device (nth_channel c i))) in
      let! _ := ask (Module_put (ch_driver (nth_channel c i))) in put_channels c ids
    else put_channels c ids
  end.
(** The rest of a destruction, after a drain with status [r]; the scope is gone
    when it succeeds, and the SRAM owner is left. *)
Definition destroy_locked (r : Z) (c : mt6878_gpueb_reset) : gio (Z * (mt6878_gpueb_reset + mt6878_gpueb_sram)) :=
  if negb (r =? 0) then ret (r, inl c)
  else if negb (first_error c =? 0) then ret (first_error c, inl (unknown_start c))
  else if reset_written c then ret (- EBUSY, inl c)
  else
  let! _ := ask Free_irq in
  let! _ := put_channels c channel_ids in
  let! _ := ask (Iounmap (registers c)) in
  let! _ := release_mailbox_resources (Z.to_nat (mbox_claims c)) (mbox_control c) (mbox_maps c) in
  let! _ := ask (Release_mem 0x13c60000 0x2000) in
  let! s := mt6878_gpueb_sram_put_window (sram c) (mbox c) in
  let! s := mt6878_gpueb_sram_put_window s (gpr c) in
  let! _ := ask (Pm_put_noidle (parent c)) in
  let! _ := ask (Put_device (parent c)) in
  let! _ := ask (Kfree Reset_scope) in
  let! _ := ask (Module_put THIS_MODULE) in ret (0, inr s).
Definition mt6878_gpueb_reset_destroy (c : mt6878_gpueb_reset) : gio (Z * (mt6878_gpueb_reset + mt6878_gpueb_sram)) :=
  if bool_decide (is_Some (dispatch_owner c)) then ret (if first_error c =? 0 then - EBUSY else first_error c, inl c)
  else
  let! p := mt6878_gpueb_reset_drain_irq c in destroy_locked p.1 p.2.

(** ** Histories *)

Inductive lifecycle : Type := Drain | Hold | Release | Destroy.
(** The interrupt thread: idle, calling the clients, or about to retire the
    replies. *)
Inductive thread_state : Type := Idle | Delivering (snap : gpueb_irq_snapshot) | Retiring (snap : gpueb_irq_snapshot).
(** A destroyed scope is gone. [call] is the lifecycle call that waits for the
    thread; the parent serializes these calls. *)
Record system : Type := System { scope : option mt6878_gpueb_reset; thread : thread_state; call : option lifecycle }.
(** [Activate] is the future start owner that switches a leased dispatch on;
    [Quarantine] another user of the SRAM owner. *)
Inductive event : Type :=
| Interrupt | Deliver | Retire | Bind (client i : Z) (receive : bool) | Acquire (p : Z) | Send (client i : Z) (ws : option (list Z)) | Begin (k : lifecycle)
| Finish | Activate | Quarantine.
#[export] Instance lifecycle_eq : EqDecision lifecycle.
Proof. solve_decision. Defined.
#[export] Instance event_eq : EqDecision event.
Proof. solve_decision. Defined.
Definition with_scope (y : system) (c : mt6878_gpueb_reset) : system := System (Some c) (thread y) (call y).
Definition activated (c : mt6878_gpueb_reset) : mt6878_gpueb_reset :=
  set_flags c (first_error c) (reset_written c) (dispatch_quiesced c) (irq_contained c) (dispatch_used c) true.
Definition begin_call (y : system) (c : mt6878_gpueb_reset) (k : lifecycle) : gio system :=
  match call y, k, dispatch_owner c with
  | Some _, _, _ | _, Release, None | _, Destroy, Some _ => ret y
  | None, _, _ => let! c := drain_begin c in ret (System (Some c) (thread y) (Some k))
  end.
Definition finish_call (y : system) (c : mt6878_gpueb_reset) : gio system :=
  match call y, thread y with
  | Some k, Idle =>
    let! _ := ask Synchronize_irq in
    let '(r, c) := drain_end c in
    match k with
    | Drain => ret (System (Some c) Idle None)
    | Hold => let! p := hold_locked r c in ret (System (Some p.2) Idle None)
    | Release =>
      match dispatch_owner c with
      | Some d => let! p := release_locked d r c in ret (System (Some p.2) Idle None)
      | None => ret (System (Some c) Idle None)
      end
    | Destroy =>
      let! p := destroy_locked r c in
      ret (match p.2 with inl c => System (Some c) Idle None | inr _ => System None Idle None end)
    end
  | _, _ => ret y
  end.
Definition event_step (y : system) (e : event) : gio system :=
  match scope y with
  | None => ret y
  | Some c =>
    match e with
    | Interrupt =>
      match thread y with
      | Idle => let! p := irq_capture c in ret (System (Some p.2) (match p.1 with Some sn => Delivering sn | None => Idle end) (call y))
      | _ => ret y
      end
    | Deliver => match thread y with Delivering sn => let! _ := irq_deliver sn channel_ids in ret (System (Some c) (Retiring sn) (call y)) | _ => ret y end
    | Retire => match thread y with Retiring sn => ret (System (Some (irq_retire c sn)) Idle (call y)) | _ => ret y end
    | Bind client i receive => let! p := mt6878_gpueb_reset_bind_channel c client (u32 i) receive in ret (with_scope y p.2)
    | Acquire p => let! p := mt6878_gpueb_reset_dispatch_acquire c p in ret (with_scope y p.2)
    | Send client i ws => let! p := mt6878_gpueb_reset_trysend c client (u32 i) ws in ret (with_scope y p.2)
    | Begin k => begin_call y c k
    | Finish => finish_call y c
    | Activate =>
      ret (if (first_error c =? 0) && negb (dispatch_quiesced c) && negb (reset_written c) && bool_decide (is_Some (dispatch_owner c))
           then with_scope y (activated c) else y)
    | Quarantine => ret (with_scope y (unknown_start c))
    end
  end.
Fixpoint system_run (y : system) (es : list event) : gio system :=
  match es with [] => ret y | e :: es => let! y := event_step y e in system_run y es end.

(** ** Counting *)

Definition tally (f : request -> Z) (s : trace request answer) : Z := fold_right (fun e n => f e.1 + n) 0 s.
Definition rung (i : Z) (q : request) : Z := match q with Writel v (Control GPUEB_MBOX_SET) => Z.b2z (Z.testbit v i) | _ => 0 end.
Definition acked (i : Z) (q : request) : Z := match q with Writel v (Control GPUEB_MBOX_CLR) => Z.b2z (Z.testbit v i) | _ => 0 end.
Definition received (i : Z) (q : request) : Z := match q with Receive j _ => if i =? j then 1 else 0 | _ => 0 end.
Definition masked (q : request) : Z := match q with Disable_irq => 1 | _ => 0 end.
(** Device words a request writes: mailbox and SRAM are not touched. *)
Definition silent (e : request * answer) : Prop := match e.1 with Writel _ (In_sram _) | Writel _ (Control _) => False | _ => True end.
Definition inert (e : request * answer) : Prop := match e.1 with Readl _ | Driver _ | Irq_data | Mb | Synchronize_irq => True | _ => False end.
Definition reply (i : Z) : bool := negb (recv_opt (profile i) =? 0).
Definition inflight (c : mt6878_gpueb_reset) (i : Z) : Z := Z.b2z (Z.testbit (tx_inflight c) i).
Definition closed (c : mt6878_gpueb_reset) : Prop := first_error c <> 0 \/ dispatch_quiesced c = true \/ reset_written c = true.
Definition channel_tokens (c : mt6878_gpueb_reset) (i : Z) : list token :=
  if Z.testbit (registered c) i then [T_device (ch_device (nth_channel c i)); T_module (ch_driver (nth_channel c i))] else [].
Definition lease_tokens (d : option mt6878_gpueb_dispatch) : list token :=
  match d with Some d => [T_object Dispatch_lease; T_pm (d_parent d); T_device (d_parent d); T_module (d_module d)] | None => [] end.
Definition window_tokens (w : option mt6878_gpueb_window) : list token := match w with Some w => [T_object (Window_lease (w_type w))] | None => [] end.
(** What a scope holds. *)
Definition scope_tokens (c : mt6878_gpueb_reset) : list token :=
  [T_object Reset_scope; T_module THIS_MODULE; T_pm (parent c); T_device (parent c)] ++ window_tokens (gpr c) ++ window_tokens (mbox c) ++
  [T_mem 0x13c60000 0x2000; T_map (registers c); T_irq] ++ ((fun r => T_mem (r_start r) (resource_size r)) <$> mbox_control c) ++ (T_map <$> mbox_maps c) ++
  flat_map (channel_tokens c) channel_ids ++ lease_tokens (dispatch_owner c).

Lemma tally_app f s1 s2 : tally f (s1 ++ s2) = tally f s1 + tally f s2.
Proof. induction s1 as [|e s1 IH]; cbn; [reflexivity|]. fold (tally f (s1 ++ s2)) (tally f s1). lia. Qed.
Lemma inert_facts s : Forall inert s -> (forall i, tally (rung i) s = 0 /\ tally (acked i) s = 0 /\ tally (received i) s = 0) /\ tally masked s = 0 /\ Forall silent s /\
  forall t, net t s = 0.
Proof.
  induction 1 as [|e s He Hs (A & B & C & D)]; [repeat split; auto|]. unfold inert in He. unfold net. cbn [tally fold_right]. fold (tally masked s).
  split; [|split; [|split]].
  - intros i. fold (tally (rung i) s) (tally (acked i) s) (tally (received i) s). destruct (A i) as (-> & -> & ->). destruct e.1; now try destruct He.
  - rewrite B. destruct e.1; now try destruct He.
  - constructor; [|exact C]. unfold silent. destruct e.1; now try destruct He.
  - intros t. fold (net t s). rewrite D. unfold delta. destruct e.1; now try destruct He.
Qed.
Lemma testbit_BIT i j : 0 <= i -> Z.testbit (BIT i) j = (i =? j).
Proof. intros Hi. unfold BIT. rewrite Z.shiftl_1_l. apply Z.pow2_bits_eqb. exact Hi. Qed.

(** What no call changes, and what a quiesced dispatch keeps. *)
Definition fixed (c : mt6878_gpueb_reset) := (mbox_claims c, mbox_control c, mbox_maps c, (gpr c, mbox c)).
Definition keeps (c c' : mt6878_gpueb_reset) : Prop :=
  length (channels c') = length (channels c) /\ fixed c' = fixed c /\
  (dispatch_quiesced c = true -> dispatch_quiesced c' = true /\ (dispatch_owner c = None -> dispatch_owner c' = None)).
Lemma keeps_refl c : keeps c c.
Proof. repeat split; auto. Qed.
Lemma keeps_trans c c1 c2 : keeps c c1 -> keeps c1 c2 -> keeps c c2.
Proof. intros (A & B & C) (A' & B' & C'). split; [congruence|]. split; [congruence|]. intros X. destruct (C X) as [X1 Y1]. destruct (C' X1) as [X2 Y2]. auto. Qed.
#[export] Hint Resolve keeps_refl : core.
(** What a call of the scope does besides delivering messages. *)
Record effect (c c' : mt6878_gpueb_reset) (s : trace request answer) : Prop := Effect {
  ef_quiet i : tally (acked i) s = 0 /\ tally (received i) s = 0;
  ef_rung i : 0 <= i -> reply i = true -> tally (rung i) s = inflight c' i - inflight c i /\ inflight c i <= inflight c' i;
  ef_masked : tally masked s = Z.b2z (irq_contained c') - Z.b2z (irq_contained c);
  ef_closed : closed c -> closed c' /\ Forall silent s;
  ef_inactive : dispatch_active c = false -> dispatch_active c' = false /\ Forall silent s;
  ef_keeps : keeps c c';
  ef_net t : length (channels c) = 11%nat -> net t s = holding (scope_tokens c') t - holding (scope_tokens c) t
}.
Lemma effect_inert c s : Forall inert s -> effect c c s.
Proof.
  intros Hs. destruct (inert_facts s Hs) as (A & B & C & D). split; auto.
  - intros i. destruct (A i) as (_ & X & Y). auto.
  - intros i _ _. destruct (A i) as (X & _). lia.
  - lia.
  - intros t _. rewrite D. lia.
Qed.
Lemma effect_trans c c1 c2 s1 s2 : effect c c1 s1 -> effect c1 c2 s2 -> effect c c2 (s1 ++ s2).
Proof.
  intros [A1 B1 C1 D1 E1 F1 G1] [A2 B2 C2 D2 E2 F2 G2]. split.
  - intros i. rewrite !tally_app. destruct (A1 i), (A2 i). lia.
  - intros i Hi Hr. rewrite tally_app. destruct (B1 i Hi Hr), (B2 i Hi Hr). lia.
  - rewrite tally_app. lia.
  - intros X. destruct (D1 X) as [X1 Y1]. destruct (D2 X1) as [X2 Y2]. split; [exact X2|]. now apply Forall_app.
  - intros X. destruct (E1 X) as [X1 Y1]. destruct (E2 X1) as [X2 Y2]. split; [exact X2|]. now apply Forall_app.
  - eapply keeps_trans; eassumption.
  - intros t Hl. rewrite net_app. specialize (G1 t Hl). specialize (G2 t ltac:(destruct F1; congruence)). lia.
Qed.
(** A change of the flags without a request. *)
Lemma effect_flags c err written quiesced used active : (first_error c <> 0 -> err <> 0) -> (reset_written c = true -> written = true) ->
  (dispatch_quiesced c = true -> quiesced = true) -> (dispatch_active c = false -> active = false) ->
  effect c (set_flags c err written quiesced (irq_contained c) used active) [].
Proof.
  intros H1 H2 H3 H4. split.
  - intros i. split; reflexivity.
  - intros i _ _. unfold inflight, set_flags. cbn. lia.
  - cbn. lia.
  - intros X. split; [|constructor]. unfold closed, set_flags in *. cbn. intuition.
  - intros X. split; [now apply H4|constructor].
  - repeat split; auto.
  - intros t _. change (net t []) with 0. change (scope_tokens (set_flags c err written quiesced (irq_contained c) used active)) with (scope_tokens c). lia.
Qed.

(** *** Requests that only look *)

Lemma reading_inert s : Forall reading s -> Forall inert s.
Proof. induction 1 as [|e s He]; constructor; auto. unfold reading, inert in *. destruct e.1; auto. Qed.
Lemma boot_check_inert c : performs (boot_check c) (fun _ s => Forall inert s).
Proof.
  unfold boot_check. eapply performs_bind; [apply reader_words_reading|]. intros p s Hs. trace_step. rewrite app_nil_r. now apply reading_inert.
Qed.
Lemma bound_inert d dr : performs (bound d dr) (fun _ s => Forall inert s).
Proof. unfold bound. trace_step. trace_step. repeat constructor. Qed.
Lemma identity_loop_inert c ids : performs (identity_loop c ids) (fun _ s => Forall inert s).
Proof.
  induction ids as [|i ids IH]; cbn [identity_loop]; [trace_step; constructor|]. trace_step; [exact IH|]. eapply performs_bind; [apply bound_inert|]. intros ok s Hs.
  trace_step; [trace_step; now rewrite app_nil_r|]. eapply performs_impl; [exact IH|]. intros r s' Hs'. now apply Forall_app.
Qed.
Lemma identity_inert c : performs (dispatch_identity c) (fun _ s => Forall inert s).
Proof.
  unfold dispatch_identity. trace_step; [trace_step; constructor|]. eapply performs_bind; [apply bound_inert|]. intros ok s Hs.
  trace_step; [trace_step; now rewrite app_nil_r|]. eapply performs_impl; [apply identity_loop_inert|]. intros r s' Hs'. now apply Forall_app.
Qed.

(** *** The fault path *)

Lemma effect_same c c' : tx_inflight c' = tx_inflight c -> irq_contained c' = irq_contained c -> (closed c -> closed c') -> dispatch_active c' = dispatch_active c ->
  keeps c c' -> scope_tokens c' = scope_tokens c -> effect c c' [].
Proof.
  intros H1 H2 H3 H4 H5 H6. split.
  - intros i. split; reflexivity.
  - intros i _ _. unfold inflight. rewrite H1. cbn. lia.
  - rewrite H2. cbn. lia.
  - auto.
  - rewrite H4. auto.
  - exact H5.
  - intros t _. rewrite H6. cbn. lia.
Qed.
Lemma effect_unknown_start c : effect c (unknown_start c) [].
Proof. unfold unknown_start, mt6878_gpueb_sram_unknown_start. destruct (gpueb_sram_quarantine (Some (core (sram c)))) as [r [k|]]; apply effect_same; auto; repeat split; auto. Qed.
Lemma unknown_start_flags c : irq_contained (unknown_start c) = irq_contained c /\ first_error (unknown_start c) = first_error c.
Proof. unfold unknown_start, mt6878_gpueb_sram_unknown_start. destruct (gpueb_sram_quarantine (Some (core (sram c)))) as [r [k|]]; auto. Qed.
Lemma mask_effect c : performs (mask_irq_once c) (fun c' s => effect c c' s /\ irq_contained c' = true /\ first_error c' = first_error c).
Proof.
  assert (Hc : forall s, tally masked s = 1 - Z.b2z (irq_contained c) -> (forall i, tally (acked i) s = 0 /\ tally (received i) s = 0 /\ tally (rung i) s = 0) ->
    Forall silent s -> (forall t, net t s = 0) -> effect c (contained c) s).
  { intros s H1 H2 H3 H4. split.
    - intros i. destruct (H2 i) as (? & ? & ?). auto.
    - intros i _ _. destruct (H2 i) as (_ & _ & ->). unfold inflight, contained, set_flags. cbn. lia.
    - exact H1.
    - intros X. split; [exact X|exact H3].
    - intros X. split; [exact X|exact H3].
    - repeat split; auto.
    - intros t _. rewrite H4. change (scope_tokens (contained c)) with (scope_tokens c). lia. }
  unfold mask_irq_once. trace_step; trace_step; [|trace_step]; (split; [apply Hc|]); auto; try (now rewrite G); try (repeat constructor).
Qed.
Lemma effect_latch c e : e <> 0 -> effect c (latch c e) [].
Proof. intros He. apply effect_flags; auto. intros X. destruct (Z.eqb_spec (first_error c) 0); [contradiction|assumption]. Qed.
Lemma contain_effect c e : e <> 0 -> performs (contain_irq c e) (fun c' s => effect c c' s /\ first_error c' <> 0).
Proof.
  intros He. unfold contain_irq. eapply performs_bind; [apply mask_effect|]. intros c1 s (A & B & C). trace_step. rewrite app_nil_r. split.
  - rewrite <- (app_nil_r s). eapply effect_trans; [|apply effect_unknown_start]. change s with ([] ++ s). eapply effect_trans; [apply effect_latch, He|exact A].
  - destruct (unknown_start_flags c1) as [_ ->]. rewrite C. unfold latch, set_flags. cbn. destruct (Z.eqb_spec (first_error c) 0); assumption.
Qed.

(** *** Clients and the lease *)

Definition bound_to (c : mt6878_gpueb_reset) (i client driver : Z) : mt6878_gpueb_reset :=
  set_mailbox c (<[Z.to_nat i := Channel client driver]> (channels c)) (Z.lor (registered c) (BIT i)) (tx_inflight c).
Lemma bound_tokens_other c i client driver j : 0 <= i -> 0 <= j -> j <> i -> channel_tokens (bound_to c i client driver) j = channel_tokens c j.
Proof.
  intros Hi Hj Hij. unfold channel_tokens, bound_to, set_mailbox, nth_channel. cbn [registered channels]. rewrite Z.lor_spec, testbit_BIT by exact Hi.
  replace (i =? j) with false by lia. rewrite orb_false_r. destruct (Z.testbit (registered c) j); [|reflexivity].
  rewrite !nth_lookup, list_lookup_insert_ne by lia. reflexivity.
Qed.
Lemma bound_tokens_new c i client driver : 0 <= i < Z.of_nat (length (channels c)) ->
  channel_tokens (bound_to c i client driver) i = [T_device client; T_module driver].
Proof.
  intros Hi. unfold channel_tokens, bound_to, set_mailbox, nth_channel. cbn [registered channels]. rewrite Z.lor_spec, testbit_BIT, Z.eqb_refl, orb_true_r by lia.
  rewrite nth_lookup, list_lookup_insert_eq by lia. reflexivity.
Qed.
Lemma bound_tokens c i client driver t : 0 <= i < Z.of_nat (length (channels c)) -> Z.testbit (registered c) i = false -> forall ids, Forall (fun j => 0 <= j) ids -> NoDup ids ->
  holding (flat_map (channel_tokens (bound_to c i client driver)) ids) t =
  holding (flat_map (channel_tokens c) ids) t + (if decide (i ∈ ids) then holding [T_device client; T_module driver] t else 0).
Proof.
  intros Hi Hr. induction ids as [|j ids IH]; intros Hp Hn; [reflexivity|]. apply Forall_cons in Hp as [Hj Hp]. apply NoDup_cons in Hn as [Hj' Hn].
  cbn [flat_map]. rewrite !holding_app, (IH Hp Hn). destruct (Z.eq_dec j i) as [->|Hne].
  - rewrite bound_tokens_new by exact Hi. replace (channel_tokens c i) with (@nil token) by (unfold channel_tokens; now rewrite Hr). rewrite decide_False by exact Hj'. rewrite decide_True by (rewrite elem_of_cons; now left).
    change (holding [] t) with 0. lia.
  - rewrite bound_tokens_other by lia. destruct (decide (i ∈ ids)) as [X|X]; [rewrite decide_True by now right|rewrite decide_False by (rewrite elem_of_cons; intros [Y|Y]; [congruence|contradiction])]; lia.
Qed.
(** Requests that neither touch the device nor the clients. *)
Definition calm (e : request * answer) : Prop := match e.1 with Writel _ _ | Receive _ _ | Disable_irq => False | _ => True end.
Lemma calm_facts s : Forall calm s -> (forall i, tally (rung i) s = 0 /\ tally (acked i) s = 0 /\ tally (received i) s = 0) /\ tally masked s = 0 /\ Forall silent s.
Proof.
  induction 1 as [|e s He Hs (A & B & C)]; [repeat split; auto|]. unfold calm in He. cbn [tally fold_right]. fold (tally masked s).
  split; [|split].
  - intros i. fold (tally (rung i) s) (tally (acked i) s) (tally (received i) s). destruct (A i) as (-> & -> & ->). destruct e.1; now try destruct He.
  - rewrite B. destruct e.1; now try destruct He.
  - constructor; [|exact C]. unfold silent. destruct e.1; now try destruct He.
Qed.
Lemma effect_calm c c' s : Forall calm s -> tx_inflight c' = tx_inflight c -> irq_contained c' = irq_contained c -> (closed c -> closed c') ->
  dispatch_active c' = dispatch_active c -> keeps c c' ->
  (forall t, length (channels c) = 11%nat -> net t s = holding (scope_tokens c') t - holding (scope_tokens c) t) -> effect c c' s.
Proof.
  intros Hs H1 H2 H3 H4 H5 H6. destruct (calm_facts s Hs) as (A & B & C). split; auto.
  - intros i. destruct (A i) as (_ & X & Y). auto.
  - intros i _ _. destruct (A i) as (X & _). unfold inflight. rewrite H1. lia.
  - rewrite H2. lia.
  - rewrite H4. auto.
Qed.
(** A call that changes nothing and gives back what it took. *)
Lemma effect_none c s : Forall calm s -> (forall t, net t s = 0) -> effect c c s.
Proof. intros Hs Hn. apply effect_calm; auto. intros t _. rewrite Hn. lia. Qed.
Ltac calm_trace := repeat (apply Forall_cons; split; [exact I|]); apply Forall_nil; exact I.
Ltac unchanged := apply effect_none; [calm_trace|intros; settle_net].

Lemma bind_effect c client i receive : 0 <= i -> performs (mt6878_gpueb_reset_bind_channel c client i receive) (fun p s => effect c p.2 s).
Proof.
  intros Hi. unfold mt6878_gpueb_reset_bind_channel. trace_step; [trace_step; unchanged|]. trace_step.
  do 4 (trace_step; [trace_step; unchanged|]). trace_step. trace_step; [trace_step; unchanged|]. trace_step. trace_step. cbn [snd].
  fold (bound_to c i client (status p)). apply effect_calm; auto; [calm_trace|split; [cbn; now rewrite length_insert|auto]|].
  intros t Hl. unfold scope_tokens. rewrite !holding_app. change (lease_tokens (dispatch_owner (bound_to c i client (status p)))) with (lease_tokens (dispatch_owner c)).
  rewrite (bound_tokens c i client (status p) t); [|lia|lia|repeat constructor; lia|].
  - rewrite decide_True by (assert (X : i = 0 \/ i = 1 \/ i = 2 \/ i = 3 \/ i = 4 \/ i = 5 \/ i = 6 \/ i = 7 \/ i = 8 \/ i = 9 \/ i = 10) by lia;
      unfold channel_ids; rewrite !elem_of_cons; tauto).
    unfold bound_to, set_mailbox. cbn [parent gpr mbox registers mbox_control mbox_maps]. settle_net.
  - apply (bool_decide_unpack _). vm_compute. exact I.
Qed.

Lemma inert_calm s : Forall inert s -> Forall calm s.
Proof. induction 1 as [|e s He]; constructor; auto. unfold inert, calm in *. destruct e.1; auto. Qed.
Lemma acquire_open c p : negb (acquire_refused c p =? 0) = false -> dispatch_quiesced c = true -> False.
Proof. unfold acquire_refused. intros E X. rewrite X in E. destruct (Z.eqb_spec (first_error c) 0) as [->|]; cbn [negb orb] in E; lia. Qed.
Lemma acquire_effect c p : performs (mt6878_gpueb_reset_dispatch_acquire c p) (fun q s => effect c q.2 s).
Proof.
  unfold mt6878_gpueb_reset_dispatch_acquire. trace_step; [trace_step; unchanged|]. trace_step. trace_step; [trace_step; unchanged|]. cbv zeta.
  trace_step; [trace_step; trace_step; unchanged|]. eapply performs_bind; [apply identity_inert|]. intros r s Hs. destruct (inert_facts s Hs) as (_ & _ & _ & Hn).
  assert (Hu : forall q rest c', Forall calm rest -> effect c c' ((Kzalloc Dispatch_lease, q) :: rest) -> effect c c' ((Kzalloc Dispatch_lease, q) :: s ++ rest)).
  { intros q rest c' Hr [A B C D E F N]. assert (Hc : Forall calm ((Kzalloc Dispatch_lease, q) :: s ++ rest)).
    { constructor; [exact I|]. apply Forall_app. split; [now apply inert_calm|exact Hr]. }
    assert (Hc' : Forall calm ((Kzalloc Dispatch_lease, q) :: rest)) by (constructor; [exact I|exact Hr]).
    destruct (calm_facts _ Hc) as (X & Y & Z). destruct (calm_facts _ Hc') as (X' & Y' & Z'). split.
    - intros i. destruct (X i) as (_ & ? & ?). auto.
    - intros i Hi Hri. destruct (X i) as (-> & _), (X' i) as (E' & _). rewrite <- E'. now apply B.
    - rewrite Y, <- Y'. exact C.
    - intros W. split; [apply D, W|exact Z].
    - intros W. split; [apply E, W|exact Z].
    - exact F.
    - intros t Hl. rewrite <- (N t Hl). unfold net. cbn [fold_right]. fold (net t (s ++ rest)) (net t rest). rewrite net_app, Hn. lia. }
  trace_step; [trace_step; trace_step; apply Hu; [calm_trace|unchanged]|]. trace_step; [trace_step; trace_step; apply Hu; [calm_trace|unchanged]|]. trace_step.
  trace_step; [trace_step; trace_step; apply Hu; [calm_trace|unchanged]|]. trace_step. trace_step; [trace_step; trace_step; apply Hu; [calm_trace|unchanged]|]. trace_step.
  trace_step; [trace_step; trace_step; trace_step; apply Hu; [calm_trace|]; replace (status p3 <=? 0) with (negb (0 <? status p3)) in G6 by lia; apply negb_true_iff in G6; unchanged|].
  trace_step. trace_step. apply Hu; [calm_trace|]. cbn [snd]. apply effect_calm; auto; [calm_trace|split; [reflexivity|]; split; [reflexivity|]; intros X; exfalso; exact (acquire_open c p G1 X)|]. intros t _. unfold scope_tokens. rewrite !holding_app.
  assert (Ho : dispatch_owner c = None).
  { destruct (dispatch_owner c) eqn:E; [exfalso|reflexivity]. apply negb_false_iff, Z.eqb_eq in G1. unfold acquire_refused in G1. rewrite E, bool_decide_true in G1 by eauto.
    destruct (Z.eqb_spec (first_error c) 0); cbn [negb] in G1; [|contradiction]. now destruct (dispatch_quiesced c || reset_written c). }
  rewrite Ho. unfold set_owner. cbn [parent gpr mbox registers mbox_control mbox_maps dispatch_owner lease_tokens d_parent d_module].
  change (flat_map (channel_tokens {| parent := parent c |})) with (flat_map (channel_tokens c)). replace (status p3 <=? 0) with (negb (0 <? status p3)) in G6 by lia. apply negb_false_iff in G6. settle_net.
Qed.

(** *** Sending *)

Definition open (c : mt6878_gpueb_reset) : Prop := first_error c = 0 /\ dispatch_quiesced c = false /\ reset_written c = false /\ dispatch_active c = true.
Lemma open_closed c : open c -> ~ closed c.
Proof. intros (A & B & C & _) [X|[X|X]]; congruence. Qed.
(** Writing a slot: only SRAM words. *)
Lemma write_words_facts ws : forall a, performs (write_words ws a) (fun _ s => (forall i, tally (rung i) s = 0 /\ tally (acked i) s = 0 /\ tally (received i) s = 0) /\ tally masked s = 0 /\
  (forall t, net t s = 0) /\ fst <$> s = zip_with (fun w j => Writel w (In_sram (a + 4 * Z.of_nat j))) ws (seq 0 (length ws))).
Proof.
  induction ws as [|w ws IH]; intros a; cbn [write_words]; [trace_step; repeat split|]. trace_step. eapply performs_impl; [apply IH|]. cbn beta. intros _ s (A & B & C & D).
  cbn [tally fold_right]. split; [intros i; fold (tally (rung i) s) (tally (acked i) s) (tally (received i) s); destruct (A i) as (-> & -> & ->); auto|].
  fold (tally masked s). rewrite B. split; [reflexivity|]. split; [intros t; cbn; fold (net t s); now rewrite C|].
  cbn [fmap list_fmap fst length seq zip_with]. f_equal; [do 2 f_equal; lia|]. rewrite D, <- seq_shift, zip_with_fmap_r. apply zip_with_ext; auto.
  intros x j. cbn. do 2 f_equal. lia.
Qed.
Definition marked (c : mt6878_gpueb_reset) : mt6878_gpueb_reset :=
  set_flags c (first_error c) (reset_written c) (dispatch_quiesced c) (irq_contained c) true (dispatch_active c).
Definition awaiting (c : mt6878_gpueb_reset) (i : Z) : mt6878_gpueb_reset :=
  if recv_opt (profile i) =? 0 then c else set_mailbox c (channels c) (registered c) (Z.lor (tx_inflight c) (BIT i)).
Lemma tx_before_outcome i c : performs (tx_before i c) (fun p s => Forall inert s /\ p.2 = if p.1 =? 0 then marked c else c).
Proof.
  assert (Hi : forall q, inert (Readl (Control 2), q) /\ inert (Readl (Control 3), q)) by (split; exact I).
  unfold tx_before. eapply performs_bind; [apply boot_check_inert|]. intros r s Hs. trace_step; [trace_step; rewrite app_nil_r; split; [exact Hs|]; cbn; destruct (r =? 0); [discriminate|reflexivity]|].
  trace_step. assert (Hs' : forall rest, Forall inert rest -> Forall inert (s ++ (Readl (Control 2), p) :: rest)) by (intros; apply Forall_app; split; [exact Hs|constructor; [exact I|assumption]]).
  trace_step; [trace_step; split; [apply Hs'; constructor|reflexivity]|]. cbv zeta. trace_step; [trace_step; split; [apply Hs'; constructor|reflexivity]|].
  trace_step. trace_step; trace_step; (split; [apply Hs'; repeat constructor|reflexivity]).
Qed.
Lemma tx_commit_outcome i c : performs (tx_commit i c) (fun p s => exists s1, Forall inert s1 /\
  if p.1 =? 0 then p.2 = awaiting c i /\ exists a b, s = s1 ++ [(Writel (BIT i) (Control 0), a); (Readl (Control 2), b)] else p.2 = c /\ s = s1).
Proof.
  unfold tx_commit. eapply performs_bind; [apply boot_check_inert|]. intros r s Hs.
  trace_step; [trace_step; rewrite app_nil_r; exists s; split; [exact Hs|]; cbn; destruct (r =? 0); [discriminate|auto]|].
  trace_step. cbv zeta. trace_step. trace_step. trace_step. exists (s ++ [(Mb, p)]). split; [apply Forall_app; split; [exact Hs|repeat constructor]|]. cbn. split; [reflexivity|].
  exists p0, p1. now rewrite <- app_assoc.
Qed.
Lemma send_effect c i ws : open c -> 0 <= i -> Z.testbit (tx_inflight c) i = false ->
  performs (mt6878_gpueb_sram_send_transaction (sram c) (gpr c) (mbox c) i ws (tx_before i) (tx_commit i) c) (fun p s => effect c p.2 s).
Proof.
  intros Ho Hi Hf. pose proof (open_closed c Ho) as Hnc. unfold mt6878_gpueb_sram_send_transaction. cbv zeta. trace_step; [trace_step; unchanged|].
  destruct (gpueb_sram_tx_slot i (len ws) (Some 0)) as [[|e|e] [off|]]; try (trace_step; unchanged). trace_step; [trace_step; unchanged|].
  destruct (gpueb_sram_window_range (Some (core (sram c))) GPUEB_WINDOW_MBOX off (len ws * 4) (Some (Range 0 0))) as [[|e|e] [r|]]; try (trace_step; unchanged).
  eapply performs_bind; [apply tx_before_outcome|]. intros p s (Hs & Hp). trace_step; [trace_step; rewrite app_nil_r|].
  { rewrite Hp. destruct (p.1 =? 0); [discriminate|]. now apply effect_inert. }
  rewrite Hp. apply negb_false_iff in G1. rewrite G1. clear Hp G1.
  eapply performs_bind; [apply write_words_facts|]. intros _ s2 (A & B & C & _). eapply performs_impl; [apply tx_commit_outcome|]. intros q s3 (s1 & Hs1 & Hq).
  assert (Hm : effect c (marked c) (s ++ s2)).
  { destruct (inert_facts s Hs) as (A' & B' & C' & D'). split.
    - intros j. rewrite !tally_app. destruct (A j) as (_ & ? & ?), (A' j) as (_ & ? & ?). lia.
    - intros j _ _. rewrite tally_app. destruct (A j) as (? & _), (A' j) as (? & _). unfold inflight, marked, set_flags. cbn. lia.
    - rewrite tally_app. cbn. lia.
    - intros X. contradiction.
    - intros X. destruct Ho as (_ & _ & _ & Y). congruence.
    - repeat split; auto.
    - intros t _. rewrite net_app, C, D'. change (scope_tokens (marked c)) with (scope_tokens c). lia. }
  rewrite app_assoc. eapply effect_trans; [exact Hm|]. destruct (q.1 =? 0); destruct Hq as [-> Hq]; [|subst s3; now apply effect_inert]. destruct Hq as (a & b & ->).
  destruct (inert_facts s1 Hs1) as (A1 & B1 & C1 & D1). split.
  - intros j. rewrite !tally_app. destruct (A1 j) as (_ & -> & ->). cbn. lia.
  - intros j Hj Hr. rewrite tally_app. destruct (A1 j) as (-> & _). cbn. rewrite testbit_BIT by exact Hi. unfold inflight, awaiting.
    destruct (Z.eqb_spec (recv_opt (profile i)) 0) as [E|E].
    + destruct (Z.eqb_spec i j) as [->|Hne]; [|cbn; lia]. unfold reply in Hr. rewrite E in Hr. discriminate.
    + cbn [set_mailbox tx_inflight marked set_flags]. rewrite Z.lor_spec, testbit_BIT by exact Hi. destruct (Z.eqb_spec i j) as [->|Hne]; [rewrite Hf|rewrite orb_false_r]; cbn; lia.
  - rewrite tally_app, B1. assert (E : irq_contained (awaiting (marked c) i) = irq_contained c) by (unfold awaiting; now destruct (recv_opt (profile i) =? 0)). rewrite E. cbn. lia.
  - intros X. contradiction.
  - intros X. destruct Ho as (_ & _ & _ & Y). cbn in X. congruence.
  - unfold awaiting. destruct (recv_opt (profile i) =? 0); repeat split; auto.
  - intros t _. rewrite net_app, D1. change (net t [(Writel (BIT i) (Control 0), a); (Readl (Control 2), b)]) with 0. assert (E : scope_tokens (awaiting (marked c) i) = scope_tokens (marked c)) by (unfold awaiting; now destruct (recv_opt (profile i) =? 0)). rewrite E. lia.
Qed.

Lemma fault_effect c e : e <> 0 -> performs (tx_fault c e) (fun p s => effect c p.2 s).
Proof. intros He. unfold tx_fault. eapply performs_bind; [now apply contain_effect|]. intros c' s [A _]. trace_step. now rewrite app_nil_r. Qed.
Lemma effect_after c c' s s' : Forall inert s -> effect c c' s' -> effect c c' (s ++ s').
Proof. intros Hs. apply effect_trans, effect_inert, Hs. Qed.
Lemma trysend_effect c client i ws : 0 <= i -> performs (mt6878_gpueb_reset_trysend c client i ws) (fun p s => effect c p.2 s).
Proof.
  intros Hi. unfold mt6878_gpueb_reset_trysend. destruct ws as [ws|]; [|trace_step; unchanged]. do 4 (trace_step; [trace_step; unchanged|]).
  trace_step; [now apply fault_effect|]. eapply performs_bind; [apply bound_inert|]. intros ok s Hs.
  assert (Hfault : forall s e, Forall inert s -> e <> 0 -> performs (tx_fault c e) (fun p s' => effect c p.2 (s ++ s'))).
  { intros s0 e H0 He. eapply performs_impl; [apply fault_effect, He|]. intros p s' X. now apply effect_after. }
  trace_step; [now apply Hfault|]. eapply performs_bind; [apply bound_inert|]. intros ok2 s2 Hs2. assert (H2 : Forall inert (s ++ s2)) by now apply Forall_app.
  trace_step; [eapply performs_impl; [apply (Hfault (s ++ s2)); [exact H2|discriminate]|]; intros q s3 X; now rewrite app_assoc|].
  trace_step. trace_step; [trace_step; apply effect_inert; apply Forall_app; split; [exact Hs|apply Forall_app; split; [exact Hs2|repeat constructor]]|].
  eapply performs_bind; [apply identity_inert|]. intros r s3 Hs3. set (pre := s ++ s2 ++ (Irq_data, p) :: s3).
  assert (Hpre : Forall inert pre) by (apply Forall_app; split; [exact Hs|apply Forall_app; split; [exact Hs2|constructor; [exact I|exact Hs3]]]).
  assert (Hassoc : forall s', s ++ s2 ++ (Irq_data, p) :: s3 ++ s' = pre ++ s') by (intros; unfold pre; now rewrite <- !app_assoc, <- app_comm_cons).
  trace_step; [eapply performs_impl; [apply (Hfault pre); [exact Hpre|lia]|]; intros q s' X; now rewrite Hassoc|].
  trace_step; [trace_step; rewrite app_nil_r; now apply effect_inert|].
  assert (Ho : open c).
  { unfold open. apply orb_false_iff in G1 as [? ?]. do 3 (apply orb_false_iff in G6 as [G6 ?]). apply orb_false_iff in G6 as [_ G6].
    split_and!; auto; [lia|now apply negb_false_iff]. }
  eapply performs_bind; [apply (send_effect c i ws Ho Hi G8)|]. intros q s4 X. trace_step; [trace_step; rewrite app_nil_r, Hassoc; now apply effect_after|].
  eapply performs_impl; [apply fault_effect; lia|]. intros q' s5 Y. rewrite Hassoc. apply effect_after; [exact Hpre|]. eapply effect_trans; [exact X|exact Y].
Qed.

(** *** Drain, reset, release *)

Lemma drain_begin_effect c : performs (drain_begin c) (fun c' s => effect c c' s /\ dispatch_quiesced c' = true /\ dispatch_owner c' = dispatch_owner c).
Proof.
  unfold drain_begin. set (c1 := set_flags _ _ _ _ _ _ _). assert (E : effect c c1 []) by (apply effect_flags; auto).
  assert (Q : performs (mask_irq_once c1) (fun c' s => dispatch_quiesced c' = true /\ dispatch_owner c' = dispatch_owner c)) by (unfold mask_irq_once; trace_step; repeat trace_step; split; reflexivity).
  eapply performs_impl; [apply performs_and; [apply mask_effect|exact Q]|]. cbn beta. intros c' s [[A _] B]. split; [|exact B]. change s with ([] ++ s). eapply effect_trans; [exact E|exact A].
Qed.
Lemma drain_end_effect c : effect c (drain_end c).2 [].
Proof. unfold drain_end. destruct (_ =? 0); cbn [snd]; [apply effect_inert; constructor|apply effect_unknown_start]. Qed.
Lemma hold_effect r c : dispatch_quiesced c = true -> performs (hold_locked r c) (fun p s => effect c p.2 s).
Proof.
  intros Hq. unfold hold_locked. trace_step; [trace_step; unchanged|]. trace_step; [trace_step; cbn [snd]; destruct (first_error c =? - EALREADY); [unchanged|apply effect_unknown_start]|].
  trace_step; [trace_step; unchanged|]. cbv zeta. set (c1 := set_flags c _ _ _ _ _ _).
  assert (H1 : forall a b, effect c c1 [(Writel 0 (In_reset 1536), a); (Readl (In_reset 1536), b)]).
  { intros a b. split.
    - intros i. split; reflexivity.
    - intros i _ _. unfold inflight, c1, set_flags. cbn. lia.
    - cbn. lia.
    - intros X. split; [right; now left|repeat constructor].
    - intros X. split; [exact X|repeat constructor].
    - repeat split; auto.
    - intros t _. change (scope_tokens c1) with (scope_tokens c). cbn. lia. }
  trace_step. trace_step. trace_step; trace_step; [apply H1|]. cbn [snd]. rewrite <- (app_nil_r [_; _]). eapply effect_trans; [apply H1|]. rewrite <- (app_nil_r []).
  eapply effect_trans; [|apply effect_unknown_start]. now apply effect_flags.
Qed.
Lemma release_effect d r c : dispatch_owner c = Some d -> performs (release_locked d r c) (fun p s => effect c p.2 s).
Proof.
  intros Hd. unfold release_locked. eapply (performs_bind _ _ (fun _ s => Forall inert s)); [apply performs_if; intros _; [apply identity_inert|trace_step; constructor]|].
  intros r1 s Hs. cbv zeta. set (r2 := if _ && _ then _ else _). set (c1 := if r2 =? 0 then c else latch c r2).
  assert (E1 : effect c c1 []) by (unfold c1; destruct (Z.eqb_spec r2 0); [apply effect_inert; constructor|now apply effect_latch]).
  trace_step.
  { trace_step. cbn [snd]. apply effect_after; [exact Hs|]. change [] with (@nil (request * answer) ++ []) at 1. eapply effect_trans; [exact E1|apply effect_unknown_start]. }
  assert (Ec : c1 = c). { unfold c1 in *. destruct (Z.eqb_spec r2 0); [reflexivity|]. exfalso. apply orb_false_iff in G as [G _]. unfold latch, set_flags in G. cbn in G. destruct (Z.eqb_spec (first_error c) 0); lia. }
  rewrite Ec. repeat trace_step. apply effect_after; [exact Hs|]. cbn [snd]. apply effect_calm; auto; [calm_trace|repeat split; auto|]. intros t _. unfold scope_tokens. rewrite !holding_app, Hd.
  unfold set_owner. cbn [parent gpr mbox registers mbox_control mbox_maps dispatch_owner lease_tokens].
  change (flat_map (channel_tokens {| parent := parent c |})) with (flat_map (channel_tokens c)). settle_net.
Qed.

(** *** Receiving *)

(** [ws] are the words read, in [s], from the slot of channel [i]. *)
Definition read_from_slot (i : Z) (ws : list Z) (s : trace request answer) : Prop :=
  len ws = recv_words (profile i) /\
  forall j, (j < length ws)%nat -> exists a, (Readl (In_sram (GPUEB_MBOX_OFFSET + recv_offset (profile i) + 4 * Z.of_nat j)), a) ∈ s /\ nth j ws 0 = u32 (status a).
Lemma range_place (s : mt6878_gpueb_sram) type offset n r base capacity : window_profile type = Some (base, capacity) -> 0 <= base -> 0 <= offset -> base + offset < 2 ^ 64 ->
  gpueb_sram_window_range (Some (core s)) type offset n (Some (Range 0 0)) = (0, Some r) -> at_range s r = base + offset.
Proof.
  intros Hp Hb Ho Hlt. unfold gpueb_sram_window_range. rewrite Hp. repeat (destruct (_ : bool); [discriminate|]). intros [= <-]. unfold at_range. cbn [start].
  unfold u64. change (2 ^ 64) with 18446744073709551616 in *. rewrite Zplus_mod_idemp_l, Zminus_mod_idemp_l. replace (start (whole (core s)) + base + offset - start (whole (core s))) with (base + offset) by lia.
  apply Z.mod_small. lia.
Qed.
Lemma reader_words_slot c i : 0 <= i < 11 -> performs (mt6878_gpueb_sram_reader_words (sram c) GPUEB_WINDOW_MBOX (recv_offset (profile i)) (recv_words (profile i)))
  (fun p s => Forall inert s /\ (p.1 = 0 -> read_from_slot i p.2 s)).
Proof.
  intros Hi. assert (Hb : 1 <= recv_words (profile i) /\ 0 <= recv_offset (profile i) < 1000).
  { assert (X : i = 0 \/ i = 1 \/ i = 2 \/ i = 3 \/ i = 4 \/ i = 5 \/ i = 6 \/ i = 7 \/ i = 8 \/ i = 9 \/ i = 10) by lia.
    destruct X as [->|[->|[->|[->|[->|[->|[->|[->|[->|[->| ->]]]]]]]]]]; vm_compute; intuition discriminate. }
  unfold mt6878_gpueb_sram_reader_words. trace_step; [trace_step; split; [constructor|discriminate]|].
  destruct (gpueb_sram_window_range (Some (core (sram c))) GPUEB_WINDOW_MBOX (recv_offset (profile i)) (recv_words (profile i) * 4) (Some (Range 0 0))) as [[|e|e] [r|]] eqn:Er;
    try (trace_step; split; [constructor|discriminate]); [|exfalso; unfold gpueb_sram_window_range in Er; cbn in Er; guards Er].
  assert (Hr : at_range (sram c) r = GPUEB_MBOX_OFFSET + recv_offset (profile i)) by (refine (range_place (sram c) GPUEB_WINDOW_MBOX _ _ _ GPUEB_MBOX_OFFSET GPUEB_MBOX_SIZE eq_refl _ _ _ Er); lia). rewrite Hr.
  eapply performs_bind; [apply performs_and; [apply read_words_outcome|apply read_words_reading]|]. cbn beta. intros ws s [(A & B & C) D]. trace_step. rewrite app_nil_r.
  split; [now apply reading_inert|]. intros _. cbn [snd]. split; [unfold len; rewrite A; lia|]. intros j Hj. assert (Hs : length s = length ws) by (rewrite C; now rewrite length_fmap).
  destruct (lookup_lt_is_Some_2 s j ltac:(lia)) as [e He]. exists e.2.
  assert (Eq : e.1 = Readl (In_sram (261504 + recv_offset (profile i) + 4 * Z.of_nat j))).
  { assert (X : (fst <$> s) !! j = Some e.1) by (rewrite list_lookup_fmap, He; reflexivity). rewrite B, list_lookup_fmap, lookup_seq_lt in X by lia. cbn in X. now injection X as <-. }
  rewrite <- Eq, <- surjective_pairing. split; [eapply list_elem_of_lookup_2, He|]. rewrite C, nth_lookup, list_lookup_fmap, He. reflexivity.
Qed.
Lemma payload_loop_outcome c pend : forall ids acc, Forall (fun i => 0 <= i < 11) ids -> NoDup ids -> length acc = 11%nat -> performs (payload_loop c pend ids acc) (fun p s =>
  Forall inert s /\ length p.2 = 11%nat /\
  (p.1 = 0 -> forall i, 0 <= i < 11 ->
    if bool_decide (i ∈ ids) && Z.testbit pend i then read_from_slot i (nth (Z.to_nat i) p.2 []) s else nth (Z.to_nat i) p.2 [] = nth (Z.to_nat i) acc [])).
Proof.
  induction ids as [|k ids IH]; intros acc Hids Hn Hl; cbn [payload_loop].
  { trace_step. split; [constructor|]. split; [exact Hl|]. intros _ i _. reflexivity. }
  apply Forall_cons in Hids as [Hk Hids]. apply NoDup_cons in Hn as [Hk' Hn]. trace_step.
  { eapply performs_impl; [apply (IH acc Hids Hn Hl)|]. intros p s (A & A' & B). split; [exact A|]. split; [exact A'|]. intros E i Hi. specialize (B E i Hi). apply negb_true_iff in G.
    destruct (Z.eq_dec i k) as [->|Hne]; [rewrite G, andb_false_r in *; exact B|].
    replace (bool_decide (i ∈ k :: ids)) with (bool_decide (i ∈ ids)) by (apply bool_decide_ext; rewrite elem_of_cons; tauto). exact B. }
  apply negb_false_iff in G. eapply performs_bind; [apply (reader_words_slot c k Hk)|]. intros p s [A B].
  trace_step; [trace_step; rewrite app_nil_r; split; [exact A|]; split; [exact Hl|]; intros E; exfalso; cbn in E; lia|].
  eapply performs_impl; [apply (IH (<[Z.to_nat k := p.2]> acc) Hids Hn ltac:(now rewrite length_insert))|]. intros q s' (A' & L' & B'). split; [now apply Forall_app|]. split; [exact L'|].
  intros E i Hi. specialize (B' E i Hi). destruct (Z.eq_dec i k) as [->|Hne].
  - rewrite (bool_decide_true (k ∈ k :: ids)) by now left. rewrite G. cbn [andb]. rewrite (bool_decide_false (k ∈ ids)) in B' by exact Hk'. cbn [andb] in B'. rewrite B'.
    rewrite nth_lookup, list_lookup_insert_eq by lia. cbn. destruct (B ltac:(lia)) as [X Y]. split; [exact X|]. intros j Hj. destruct (Y j Hj) as (a & Y1 & Y2). exists a. split; [|exact Y2].
    apply elem_of_app. now left.
  - replace (bool_decide (i ∈ k :: ids)) with (bool_decide (i ∈ ids)) by (apply bool_decide_ext; rewrite elem_of_cons; tauto). destruct (_ && _).
    + destruct B' as [X Y]. split; [exact X|]. intros j Hj. destruct (Y j Hj) as (a & Y1 & Y2). exists a. split; [|exact Y2]. apply elem_of_app. now right.
    + rewrite B', !nth_lookup, list_lookup_insert_ne by lia. reflexivity.
Qed.
Lemma reply_loop_ok pend fl : forall ids acc r, Forall (fun i => 0 <= i) ids -> reply_loop pend fl ids acc = inr r ->
  (forall i, 0 <= i -> Z.testbit r i = Z.testbit acc i || (bool_decide (i ∈ ids) && Z.testbit pend i && reply i)) /\
  (forall i, i ∈ ids -> Z.testbit pend i = true -> reply i = true -> Z.testbit fl i = true).
Proof.
  induction ids as [|k ids IH]; intros acc r Hids; cbn [reply_loop].
  { intros [= <-]. split; [intros i _; now rewrite orb_false_r|]. intros i Hi. now apply elem_of_nil in Hi. }
  apply Forall_cons in Hids as [Hk Hids]. fold (reply k). destruct (Z.testbit pend k && reply k) eqn:E.
  - destruct (Z.testbit fl k) eqn:Ef; cbn [negb]; [|discriminate]. intros X. destruct (IH _ _ Hids X) as [A B]. split.
    + intros i Hi. rewrite (A i Hi), Z.lor_spec, testbit_BIT by exact Hk. destruct (Z.eqb_spec k i) as [->|Hne].
      * rewrite (bool_decide_true (i ∈ i :: ids)) by now left. cbn [andb]. rewrite E, !orb_true_r. reflexivity.
      * rewrite orb_false_r. f_equal. do 2 f_equal. apply bool_decide_ext. rewrite elem_of_cons. intuition congruence.
    + intros i [->|Hi]%elem_of_cons Hp Hr; [exact Ef|eauto].
  - intros X. destruct (IH _ _ Hids X) as [A B]. split.
    + intros i Hi. rewrite (A i Hi). f_equal. destruct (Z.eq_dec i k) as [->|Hne].
      * rewrite <- !andb_assoc, E, !andb_false_r. reflexivity.
      * do 2 f_equal. apply bool_decide_ext. rewrite elem_of_cons. intuition congruence.
    + intros i [->|Hi]%elem_of_cons Hp Hr; [rewrite Hp, Hr in E; discriminate|eauto].
Qed.
(** A snapshot taken in the state [c] by the requests [s]. *)
Definition snapshot_ok (c : mt6878_gpueb_reset) (sn : gpueb_irq_snapshot) (s : trace request answer) : Prop :=
  forall i, 0 <= i < 11 ->
    Z.testbit (replies sn) i = Z.testbit (pending sn) i && reply i /\
    (Z.testbit (replies sn) i = true -> Z.testbit (tx_inflight c) i = true) /\
    (Z.testbit (pending sn) i = true -> Z.testbit (registered c) i = true /\ read_from_slot i (nth (Z.to_nat i) (payload sn) []) s).
Lemma channel_ids_ok : Forall (fun i => 0 <= i < 11) channel_ids /\ NoDup channel_ids /\ forall i, 0 <= i < 11 -> i ∈ channel_ids.
Proof.
  split; [repeat constructor; lia|]. split; [apply (bool_decide_unpack _); vm_compute; exact I|]. intros i Hi.
  assert (X : i = 0 \/ i = 1 \/ i = 2 \/ i = 3 \/ i = 4 \/ i = 5 \/ i = 6 \/ i = 7 \/ i = 8 \/ i = 9 \/ i = 10) by lia. unfold channel_ids. rewrite !elem_of_cons. tauto.
Qed.
Lemma snapshot_outcome c : performs (snapshot_mailbox c) (fun p s => exists s1, Forall inert s1 /\
  ((p.1 <> 0 \/ p.2 = no_snapshot) /\ s = s1 \/
   p.1 = 0 /\ snapshot_ok c p.2 s1 /\ exists a b, s = s1 ++ [(Writel (pending p.2) (Control GPUEB_MBOX_CLR), a); (Readl (Control GPUEB_MBOX_RECV), b)])).
Proof.
  unfold snapshot_mailbox. eapply performs_bind; [apply boot_check_inert|]. intros r s Hs. cbn beta in Hs.
  trace_step; [trace_step; rewrite app_nil_r; exists s; split; [exact Hs|]; left; cbn; split; [left; lia|reflexivity]|]. trace_step. cbv zeta.
  assert (Hs1 : forall rest, Forall inert rest -> Forall inert (s ++ (Readl (Control 3), p) :: rest)) by (intros; apply Forall_app; split; [exact Hs|constructor; [exact I|assumption]]).
  set (pend := u32 (status p)). trace_step; [trace_step; eexists; split; [apply Hs1; constructor|left; cbn; auto]|].
  trace_step; [trace_step; eexists; split; [apply Hs1; constructor|left; cbn; split; [left; discriminate|reflexivity]]|].
  destruct (reply_loop pend (tx_inflight c) channel_ids 0) as [e|reps] eqn:Er; [trace_step; eexists; split; [apply Hs1; constructor|left; cbn; auto]|].
  destruct channel_ids_ok as (I1 & I2 & I3). eapply performs_bind; [apply (payload_loop_outcome c pend channel_ids (repeat [] 11) I1 I2 eq_refl)|]. intros q s2 (A & L & B).
  trace_step; [trace_step; rewrite app_nil_r; eexists; split; [apply Hs1, A|left; cbn; split; [left; lia|reflexivity]]|].
  eapply performs_bind; [apply boot_check_inert|]. intros r2 s3 Hs3. cbn beta in Hs3. assert (H23 : Forall inert (s2 ++ s3)) by now apply Forall_app.
  trace_step; [trace_step; rewrite app_nil_r; eexists; split; [apply Hs1, H23|left; cbn; split; [left; lia|reflexivity]]|]. trace_step. trace_step. trace_step. cbn [fst snd pending].
  exists (s ++ (Readl (Control 3), p) :: s2 ++ s3). split; [apply Hs1, H23|]. right. split; [reflexivity|]. split; [|exists p0, p1; now rewrite <- !app_assoc, <- app_comm_cons, <- app_assoc].
  destruct (reply_loop_ok pend (tx_inflight c) channel_ids 0 reps) as [R1 R2]; [eapply Forall_impl; [exact I1|]; intros x [? ?]; assumption|exact Er|].
  intros i Hi. cbn [replies pending payload]. specialize (I3 i Hi). assert (E : Z.testbit reps i = Z.testbit pend i && reply i).
  { rewrite (R1 i (proj1 Hi)), Z.testbit_0_l, bool_decide_true by exact I3. reflexivity. }
  split; [exact E|]. rewrite E. split; [intros X; apply andb_true_iff in X as [X Y]; now apply R2|]. intros X. split.
  - apply negb_false_iff, Z.eqb_eq in G1. assert (Y : Z.testbit (Z.ldiff pend (registered c)) i = false) by (rewrite G1; apply Z.testbit_0_l). rewrite Z.ldiff_spec, X in Y. cbn in Y. now apply negb_false_iff.
  - specialize (B ltac:(lia) i Hi). rewrite bool_decide_true, X in B by exact I3. cbn [andb] in B. destruct B as [B1 B2]. split; [exact B1|]. intros j Hj. destruct (B2 j Hj) as (a & Ba & Bb).
    exists a. split; [|exact Bb]. apply elem_of_app. right. right. apply elem_of_app. now left.
Qed.
(** The requests of a capture that hands out [sn]. *)
Definition captures (c : mt6878_gpueb_reset) (sn : gpueb_irq_snapshot) (s : trace request answer) : Prop := exists s1, Forall inert s1 /\
  (sn = no_snapshot /\ s = s1 \/
   snapshot_ok c sn s1 /\ exists a b, s = s1 ++ [(Writel (pending sn) (Control GPUEB_MBOX_CLR), a); (Readl (Control GPUEB_MBOX_RECV), b)]).
Lemma capture_outcome c : performs (irq_capture c) (fun p s =>
  match p.1 with None => effect c p.2 s | Some sn => open c /\ p.2 = marked c /\ captures c sn s end).
Proof.
  assert (Hfault : forall pre e c1, effect c c1 pre -> e <> 0 -> performs (let! c := contain_irq c1 e in ret (None, c)) (fun p s =>
    match p.1 with None => effect c p.2 (pre ++ s) | Some sn => open c /\ p.2 = marked c /\ captures c sn (pre ++ s) end)).
  { intros pre e c1 Hc He. eapply performs_bind; [now apply contain_effect|]. intros c2 s [A _]. trace_step. cbn. rewrite app_nil_r. eapply effect_trans; [exact Hc|exact A]. }
  assert (H0 : effect c c []) by (apply effect_inert; constructor). unfold irq_capture. cbv zeta. trace_step; [apply (Hfault [] _ c H0); lia|].
  trace_step; [trace_step; exact H0|]. trace_step; [eapply performs_bind; [apply mask_effect|]; intros c1 s (A & _); trace_step; cbn; now rewrite app_nil_r|].
  trace_step; [now apply (Hfault [] _ c H0)|]. eapply performs_bind; [apply identity_inert|]. intros r s Hs. cbn beta in Hs.
  trace_step; [apply (Hfault s _ c); [now apply effect_inert|lia]|]. fold (marked c). change (sram (marked c)) with (sram c). change (gpr (marked c)) with (gpr c). change (mbox (marked c)) with (mbox c).
  assert (Ho : open c). { unfold open. apply orb_false_iff in G1 as [G1 _]. split_and!; auto; [lia|now apply negb_false_iff]. }
  assert (Hm : forall s', Forall inert s' -> effect c (marked c) s').
  { intros s' Hs'. rewrite <- (app_nil_r s'). eapply effect_trans; [apply effect_inert, Hs'|]. now apply effect_flags. }
  eapply (performs_bind _ _ (fun p s2 => exists s1, Forall inert s1 /\ ((p.1 <> 0 \/ p.2 = no_snapshot) /\ s2 = s1 \/
   p.1 = 0 /\ snapshot_ok c p.2 s1 /\ exists a b, s2 = s1 ++ [(Writel (pending p.2) (Control GPUEB_MBOX_CLR), a); (Readl (Control GPUEB_MBOX_RECV), b)]))).
  { unfold mt6878_gpueb_sram_read_transaction. cbv zeta. assert (Hn : forall e, performs (ret (e, no_snapshot)) (fun (p : Z * gpueb_irq_snapshot) (s2 : trace request answer) => exists s1, Forall inert s1 /\ ((p.1 <> 0 \/ p.2 = no_snapshot) /\ s2 = s1 \/
      p.1 = 0 /\ snapshot_ok c p.2 s1 /\ exists a b, s2 = s1 ++ [(Writel (pending p.2) (Control 1), a); (Readl (Control 3), b)]))).
    { intros e. trace_step. exists []. split; [constructor|]. left. auto. }
    trace_step; [apply Hn|]. trace_step; [apply Hn|]. trace_step; [apply Hn|]. exact (snapshot_outcome (marked c)). }
  intros p s2 (s1 & H1 & Hp). trace_step.
  { assert (E : s2 = s1) by (destruct Hp as [[_ E]|(E & _)]; [exact E|exfalso; lia]). subst s2. eapply performs_impl; [apply (Hfault (s ++ s1) p.1 (marked c)); [apply Hm; now apply Forall_app|lia]|].
    intros q s3 X. now rewrite app_assoc. }
  trace_step. cbn. rewrite app_nil_r. split; [exact Ho|]. split; [reflexivity|]. exists (s ++ s1). split; [now apply Forall_app|].
  destruct Hp as [[[E|E] ->]|(_ & A & a & b & ->)]; [exfalso; lia|left; auto|]. right. split; [|exists a, b; now rewrite app_assoc].
  intros i Hi. destruct (A i Hi) as (X & Y & Z). split; [exact X|]. split; [exact Y|]. intros P. destruct (Z P) as [Z1 [Z2 Z3]]. split; [exact Z1|]. split; [exact Z2|].
  intros j Hj. destruct (Z3 j Hj) as (w & W1 & W2). exists w. split; [|exact W2]. apply elem_of_app. now right.
Qed.
Definition message (sn : gpueb_irq_snapshot) (i : Z) : list Z := firstn (Z.to_nat (recv_words (profile i))) (nth (Z.to_nat i) (payload sn) []).
Lemma deliver_outcome sn : forall ids, performs (irq_deliver sn ids) (fun _ s =>
  fst <$> s = (fun i => Receive i (message sn i)) <$> filter (fun i => Z.testbit (pending sn) i = true) ids /\
  (forall i, tally (rung i) s = 0 /\ tally (acked i) s = 0 /\ (NoDup ids -> tally (received i) s = Z.b2z (bool_decide (i ∈ ids) && Z.testbit (pending sn) i))) /\ tally masked s = 0 /\
  Forall silent s /\ forall t, net t s = 0).
Proof.
  induction ids as [|k ids IH]; cbn [irq_deliver]; [trace_step; split; [reflexivity|]; repeat split; auto|]. rewrite filter_cons. trace_step.
  - rewrite decide_True by exact G. trace_step. eapply performs_impl; [exact IH|]. cbn beta. intros _ s (A & B & C & D & E). split; [cbn; now rewrite A|].
    split; [|split; [exact C|split; [constructor; [exact I|exact D]|exact E]]]. intros i. destruct (B i) as (B1 & B2 & B3). split; [exact B1|]. split; [exact B2|]. intros Hn. apply NoDup_cons in Hn as [Hk Hn].
    cbn [tally fold_right]. fold (tally (received i) s). cbn [fst received]. rewrite (B3 Hn). destruct (Z.eqb_spec i k) as [->|Hne].
    + rewrite (bool_decide_false (k ∈ ids)) by exact Hk. rewrite (bool_decide_true (k ∈ k :: ids)) by now left. now rewrite G.
    + replace (bool_decide (i ∈ k :: ids)) with (bool_decide (i ∈ ids)) by (apply bool_decide_ext; rewrite elem_of_cons; tauto). reflexivity.
  - rewrite decide_False by congruence. eapply performs_impl; [exact IH|]. cbn beta. intros _ s (A & B & C & D & E). split; [exact A|]. split; [|auto]. intros i. destruct (B i) as (B1 & B2 & B3).
    split; [exact B1|]. split; [exact B2|]. intros Hn. apply NoDup_cons in Hn as [Hk Hn]. rewrite (B3 Hn). destruct (Z.eq_dec i k) as [->|Hne]; [now rewrite G, !andb_false_r|].
    replace (bool_decide (i ∈ k :: ids)) with (bool_decide (i ∈ ids)) by (apply bool_decide_ext; rewrite elem_of_cons; tauto). reflexivity.
Qed.

(** *** Preparation and destruction *)

Definition mem_token (r : resource) : token := T_mem (r_start r) (resource_size r).
Lemma holding_take_S {A} (f : A -> token) (l : list A) (d : A) n t : (n < length l)%nat -> holding (f <$> take (S n) l) t = holding (f <$> take n l) t + one t (f (nth n l d)).
Proof.
  intros Hn. destruct (lookup_lt_is_Some_2 l n Hn) as [x Hx]. rewrite (take_S_r l n x Hx), fmap_app, holding_app, nth_lookup, Hx. cbn. lia.
Qed.
Lemma release_mailbox_outcome controls maps : (length maps <= length controls)%nat -> Forall (fun m => m <> 0) maps -> forall n, (n <= length controls)%nat ->
  performs (release_mailbox_resources n controls maps) (fun _ s => Forall calm s /\
    forall t, net t s = - (holding (mem_token <$> take n controls) t + holding (T_map <$> take n maps) t)).
Proof.
  intros Hl Hm. induction n as [|n IH]; intros Hn; cbn [release_mailbox_resources].
  { trace_step. split; [constructor|]. intros t. cbn. reflexivity. }
  cbv zeta. eapply (performs_bind _ _ (fun _ s => Forall calm s /\ forall t, net t s = holding (T_map <$> take n maps) t - holding (T_map <$> take (S n) maps) t)).
  { destruct (lt_dec n (length maps)) as [Hlt|Hge].
    - assert (Hz : nth n maps 0 <> 0). { destruct (lookup_lt_is_Some_2 maps n Hlt) as [x Hx]. rewrite nth_lookup, Hx. cbn. eapply Forall_lookup_1 in Hm; eauto. }
      replace (nth n maps 0 =? 0) with false by lia. trace_step. trace_step. split; [calm_trace|]. intros t. rewrite (holding_take_S T_map maps 0) by exact Hlt. settle_net.
    - rewrite (nth_overflow maps) by lia. cbn. trace_step. split; [constructor|]. intros t. rewrite !take_ge by lia. cbn. lia. }
  intros _ s1 (A & B). trace_step. eapply performs_impl; [apply IH; lia|]. cbn beta. intros _ s2 (A' & B'). split.
  - apply Forall_app. split; [exact A|]. constructor; [exact I|exact A'].
  - intros t. rewrite net_app, net_cons, B, B', (holding_take_S mem_token controls no_resource) by lia.
    change (delta t (Release_mem (r_start (nth n controls no_resource)) (resource_size (nth n controls no_resource)), p)) with (- one t (mem_token (nth n controls no_resource))). lia.
Qed.
Lemma put_channels_outcome c ids : performs (put_channels c ids) (fun _ s => Forall calm s /\ forall t, net t s = - holding (flat_map (channel_tokens c) ids) t).
Proof.
  induction ids as [|i ids IH]; cbn [put_channels flat_map]; [trace_step; split; [constructor|reflexivity]|]. unfold channel_tokens at 1. trace_step.
  - rewrite G. trace_step. trace_step. eapply performs_impl; [exact IH|]. cbn beta. intros _ s (A & B). split; [repeat (constructor; [exact I|]); exact A|]. intros t. rewrite holding_app.
    unfold net. cbn [fold_right]. fold (net t s). rewrite B. unfold delta. cbn. lia.
  - rewrite G. exact IH.
Qed.
(** A scope with all its claims and mappings. *)
Definition complete (c : mt6878_gpueb_reset) : Prop :=
  mbox_claims c = len (mbox_control c) /\ length (mbox_maps c) = length (mbox_control c) /\ Forall (fun m => m <> 0) (mbox_maps c) /\ is_Some (gpr c) /\ is_Some (mbox c).
Lemma complete_fixed c c' : fixed c' = fixed c -> complete c -> complete c'.
Proof. unfold fixed, complete. intros [= -> -> -> -> ->]. auto. Qed.
Lemma destroy_effect r c : complete c -> dispatch_owner c = None -> performs (destroy_locked r c) (fun p s =>
  match p.2 with inl c' => effect c c' s | inr _ => Forall calm s /\ forall t, net t s = - holding (scope_tokens c) t end).
Proof.
  intros (H1 & H2 & H3 & (g & Hg) & (m & Hm)) Ho. unfold destroy_locked. trace_step; [trace_step; unchanged|]. trace_step; [trace_step; apply effect_unknown_start|].
  trace_step; [trace_step; unchanged|]. trace_step. eapply performs_bind; [apply put_channels_outcome|]. intros _ s1 (A1 & B1). trace_step.
  eapply performs_bind; [apply (release_mailbox_outcome (mbox_control c) (mbox_maps c)); [lia|exact H3|unfold len in H1; lia]|]. intros _ s2 (A2 & B2). trace_step. rewrite Hm, Hg.
  assert (Hput : forall o w, performs (mt6878_gpueb_sram_put_window o (Some w)) (fun _ s => Forall calm s /\ forall t, net t s = - holding [T_object (Window_lease (w_type w))] t)).
  { intros o w. cbn [mt6878_gpueb_sram_put_window]. trace_step. trace_step. split; [calm_trace|]. intros t. settle_net. }
  eapply performs_bind; [apply Hput|]. intros o1 s3 (A3 & B3). eapply performs_bind; [apply Hput|]. intros o2 s4 (A4 & B4). repeat trace_step. cbn [snd]. split.
  - repeat first [apply Forall_app; split | assumption | constructor; [exact I|] | apply Forall_nil; exact I].
  - intros t. repeat rewrite ?net_cons, ?net_app. rewrite B1, B2, B3, B4. unfold scope_tokens. rewrite !holding_app, Ho, Hm, Hg. fold mem_token. rewrite H1.
    rewrite !take_ge by (unfold len in *; lia). cbn [net fold_right delta fst snd holding window_tokens lease_tokens]. lia.
Qed.
Lemma claim_controls_outcome p : forall ns acc, performs (claim_controls p ns acc) (fun q s => Forall calm s /\
  exists rs, q.2 = acc ++ rs /\ forall t, net t s = holding (mem_token <$> rs) t).
Proof.
  induction ns as [|n ns IH]; intros acc; cbn [claim_controls].
  { trace_step. split; [constructor|]. exists []. split; [now rewrite app_nil_r|reflexivity]. }
  cbv zeta. set (r := default no_resource (platform_get_resource_byname p n)). trace_step. trace_step.
  { trace_step. split; [calm_trace|]. exists []. split; [now rewrite app_nil_r|]. intros t. cbn [fmap list_fmap]. settle_net. }
  eapply performs_impl; [apply IH|]. cbn beta. intros q s (A & rs & B & C). split; [constructor; [exact I|exact A]|]. exists (r :: rs). split; [rewrite B, <- app_assoc; reflexivity|].
  intros t. rewrite net_cons, C. unfold delta. cbn [fst snd fmap list_fmap holding fold_right]. rewrite G. reflexivity.
Qed.
Lemma map_controls_outcome : forall rs acc, performs (map_controls rs acc) (fun q s => Forall calm s /\
  exists ms, q.2 = acc ++ ms /\ (length ms <= length rs)%nat /\ (q.1 = true -> length ms = length rs) /\ Forall (fun m => m <> 0) ms /\ forall t, net t s = holding (T_map <$> ms) t).
Proof.
  induction rs as [|r rs IH]; intros acc; cbn [map_controls].
  { trace_step. split; [constructor|]. exists []. split; [now rewrite app_nil_r|]. repeat split; auto. }
  trace_step. trace_step.
  { trace_step. split; [calm_trace|]. exists []. split; [now rewrite app_nil_r|]. split; [cbn; lia|]. split; [discriminate|]. split; [constructor|]. intros t. cbn [fmap list_fmap]. settle_net. }
  eapply performs_impl; [apply IH|]. cbn beta. intros q s (A & ms & B & L & L' & N & C). split; [constructor; [exact I|exact A]|]. exists (status p :: ms).
  split; [rewrite B, <- app_assoc; reflexivity|]. split; [cbn; lia|]. split; [intros E; cbn; now rewrite (L' E)|]. split; [constructor; [lia|exact N]|].
  intros t. rewrite net_cons, C. unfold delta. cbn [fst snd fmap list_fmap holding fold_right]. rewrite G. reflexivity.
Qed.
(** The owner after a lease is given back. *)
Definition returned (s : mt6878_gpueb_sram) (w : mt6878_gpueb_window) : mt6878_gpueb_sram :=
  match gpueb_sram_put_window (Some (core s)) (w_type w) with (_, Some c) => set_core s c | _ => s end.
Lemma returned_claimed s type x : window_profile type <> None -> Z.land (clients (core s)) (window_bit type) = 0 -> returned (claimed s type) (Window x type) = s.
Proof.
  intros Hp Hc. unfold returned, claimed, gpueb_sram_put_window, set_core. cbn [w_type core]. destruct (window_profile type); [|congruence]. cbn [clients phase whole].
  assert (Hb : exists k, 0 <= k /\ window_bit type = BIT k) by (destruct type; [exists 0|exists 1|exists 2]; split; (lia || reflexivity)). destruct Hb as (k & Hk & Eb). rewrite Eb in *.
  replace (Z.land (Z.lor (clients (core s)) (BIT k)) (BIT k) =? 0) with false.
  - assert (E : Z.ldiff (Z.lor (clients (core s)) (BIT k)) (BIT k) = clients (core s)).
    { apply Z.bits_inj'. intros j Hj. assert (X : Z.testbit (Z.land (clients (core s)) (BIT k)) j = false) by (rewrite Hc; apply Z.testbit_0_l). rewrite Z.land_spec in X.
      rewrite Z.ldiff_spec, Z.lor_spec. destruct (Z.testbit (BIT k) j); destruct (Z.testbit (clients (core s)) j); auto. }
    rewrite E. destruct s as [a b [d e f] g]. reflexivity.
  - symmetry. apply Z.eqb_neq. intros X. assert (Y : Z.testbit (Z.land (Z.lor (clients (core s)) (BIT k)) (BIT k)) k = false) by (rewrite X; apply Z.testbit_0_l).
    rewrite Z.land_spec, Z.lor_spec, testbit_BIT, Z.eqb_refl, orb_true_r in Y by exact Hk. discriminate.
Qed.
Lemma put_window_returned s w : performs (mt6878_gpueb_sram_put_window s (Some w)) (fun s' tr => s' = returned s w /\ Forall calm tr /\
  forall t, net t tr = - holding [T_object (Window_lease (w_type w))] t).
Proof. cbn [mt6878_gpueb_sram_put_window]. trace_step. trace_step. split; [reflexivity|]. split; [calm_trace|]. intros t. settle_net. Qed.

(** An exit with error [e] that gives back [ts] and leaves the owner [s']. *)
Definition exits (ts : list token) (e : Z) (s' : mt6878_gpueb_sram) (q : prepared) (tr : trace request answer) : Prop :=
  q = (inl e, s') /\ Forall calm tr /\ forall t, net t tr = - holding ts t.
Definition base_tokens (dev : Z) : list token := [T_object Reset_scope; T_module THIS_MODULE; T_pm dev; T_device dev].
Lemma exit_put_pm_outcome dev e s : performs (exit_put_pm dev e s) (exits (base_tokens dev) e s).
Proof. unfold exit_put_pm, exit_put_module, exit_free. repeat trace_step. split; [reflexivity|]. split; [calm_trace|]. intros t. unfold base_tokens. settle_net. Qed.
Lemma exits_cons ts us e s' q tr1 tr2 : Forall calm tr1 -> (forall t, net t tr1 = - holding us t) -> exits ts e s' q tr2 -> exits (us ++ ts) e s' q (tr1 ++ tr2).
Proof.
  intros A B (C & D & E). split; [exact C|]. split; [now apply Forall_app|]. intros t. rewrite net_app, B, E, holding_app. lia.
Qed.
Lemma exit_put_gpr_outcome g dev e s : performs (exit_put_gpr g dev e s) (exits (T_object (Window_lease (w_type g)) :: base_tokens dev) e (returned s g)).
Proof.
  unfold exit_put_gpr. eapply performs_bind; [apply put_window_returned|]. intros s1 tr (-> & A & B). eapply performs_impl; [apply exit_put_pm_outcome|]. intros q tr2 X. now apply (exits_cons _ [_]).
Qed.
Definition lease_pair (m g : mt6878_gpueb_window) : list token := [T_object (Window_lease (w_type m)); T_object (Window_lease (w_type g))].
Lemma exit_put_mbox_outcome m g dev e s : performs (exit_put_mbox m g dev e s) (exits (lease_pair m g ++ base_tokens dev) e (returned (returned s m) g)).
Proof.
  unfold exit_put_mbox. eapply performs_bind; [apply put_window_returned|]. intros s1 tr (-> & A & B). eapply performs_impl; [apply exit_put_gpr_outcome|]. intros q tr2 X. now apply (exits_cons _ [_]).
Qed.
Lemma exit_release_outcome r controls maps m g dev e s : (length maps <= length controls)%nat -> Forall (fun m => m <> 0) maps ->
  performs (exit_release_mbox r controls maps m g dev e s)
    (exits ((mem_token <$> controls) ++ (T_map <$> maps) ++ [mem_token r] ++ lease_pair m g ++ base_tokens dev) e (returned (returned s m) g)).
Proof.
  intros Hl Hm. unfold exit_release_mbox. eapply performs_bind; [apply (release_mailbox_outcome controls maps Hl Hm (length controls)); lia|]. intros _ tr (A & B). trace_step.
  eapply performs_impl; [apply exit_put_mbox_outcome|]. intros q tr2 X. rewrite (app_assoc (mem_token <$> controls)). apply exits_cons; [exact A| |].
  - intros t. rewrite B, holding_app, !take_ge by lia. reflexivity.
  - apply (exits_cons _ _ _ _ _ [_]); [calm_trace| |exact X]. intros t. unfold mem_token. settle_net.
Qed.
Definition fresh (c : mt6878_gpueb_reset) : Prop :=
  registered c = 0 /\ tx_inflight c = 0 /\ dispatch_owner c = None /\ first_error c = 0 /\ reset_written c = false /\ dispatch_quiesced c = false /\
  irq_contained c = false /\ dispatch_active c = false /\ length (channels c) = 11%nat.
(** What a preparation leaves when [ts] were held before it and the owner was
    [old]. *)
Definition prepares (ts : list token) (old : mt6878_gpueb_sram) (q : prepared) (tr : trace request answer) : Prop :=
  Forall calm tr /\
  match q.1 with
  | inl e => e <> 0 /\ q.2 = old /\ forall t, net t tr = - holding ts t
  | inr c => fresh c /\ complete c /\ forall t, net t tr = holding (scope_tokens c) t - holding ts t
  end.
Lemma exits_prepares ts e s' q pre tr us : e <> 0 -> Forall calm pre -> (forall t, net t pre = holding us t - holding ts t) -> exits us e s' q tr -> prepares ts s' q (pre ++ tr).
Proof.
  intros He Hp Hn (-> & A & B). split; [now apply Forall_app|]. cbn. split; [exact He|]. split; [reflexivity|]. intros t. rewrite net_app, Hn, B. lia.
Qed.
Lemma prepare_claims_outcome p r g m s old : mem_token r = T_mem 0x13c60000 0x2000 -> w_type g = GPUEB_WINDOW_GPR -> w_type m = GPUEB_WINDOW_MBOX -> returned (returned s m) g = old ->
  performs (prepare_claims p r g m s) (prepares (lease_pair m g ++ base_tokens (p_dev p)) old).
Proof.
  intros Hr Hg Hm Hs. unfold prepare_claims. cbv zeta. assert (Er : T_mem (r_start r) (resource_size r) = mem_token r) by reflexivity. set (ts := lease_pair m g ++ base_tokens (p_dev p)).
  trace_step. trace_step.
  { eapply performs_impl; [apply exit_put_mbox_outcome|]. rewrite Hs. intros q tr X. eapply (exits_prepares _ _ _ _ [_]); [| | |exact X]; [discriminate|calm_trace|]. intros t. fold ts. rewrite Z.sub_diag. settle_net. }
  eapply performs_bind; [apply claim_controls_outcome|]. intros cl tr1 (A1 & rs & B1 & C1). cbn [app] in B1. rewrite B1.
  assert (H1 : forall t, net t ((Request_mem (r_start r) (resource_size r), p0) :: tr1) = one t (mem_token r) + holding (mem_token <$> rs) t).
  { intros t. rewrite net_cons, C1. unfold delta. cbn [fst snd]. rewrite G. reflexivity. }
  trace_step.
  { eapply performs_impl; [apply (exit_release_outcome r rs [] m g); [cbn; lia|constructor]|]. rewrite Hs. intros q tr X. rewrite app_comm_cons.
    eapply exits_prepares; [| | |exact X]; [discriminate|constructor; [exact I|exact A1]|]. intros t. rewrite H1, !holding_app. unfold ts. rewrite holding_app. cbn [fmap list_fmap holding fold_right]. lia. }
  eapply performs_bind; [apply map_controls_outcome|]. intros mp tr2 (A2 & ms & B2 & L & L' & N & C2). cbn [app] in B2. rewrite B2.
  assert (H2 : forall t, net t ((Request_mem (r_start r) (resource_size r), p0) :: tr1 ++ tr2) = one t (mem_token r) + holding (mem_token <$> rs) t + holding (T_map <$> ms) t).
  { intros t. rewrite app_comm_cons, net_app, H1, C2. lia. }
  assert (H2c : Forall calm ((Request_mem (r_start r) (resource_size r), p0) :: tr1 ++ tr2)) by (constructor; [exact I|now apply Forall_app]).
  assert (Hfail : forall pre e, e <> 0 -> Forall calm pre -> (forall t, net t pre = 0) -> performs (exit_release_mbox r rs ms m g (p_dev p) e s) (fun q tr =>
    prepares ts old q ((Request_mem (r_start r) (resource_size r), p0) :: tr1 ++ tr2 ++ pre ++ tr))).
  { intros pre e He Hc Hn. eapply performs_impl; [apply (exit_release_outcome r rs ms m g); [exact L|exact N]|]. rewrite Hs. intros q tr X.
    replace ((Request_mem (r_start r) (resource_size r), p0) :: tr1 ++ tr2 ++ pre ++ tr) with ((((Request_mem (r_start r) (resource_size r), p0) :: tr1 ++ tr2) ++ pre) ++ tr) by (rewrite <- !app_comm_cons, <- !app_assoc; reflexivity).
    eapply exits_prepares; [exact He| | |exact X]; [now apply Forall_app|]. intros t. rewrite net_app, H2, Hn, !holding_app. unfold ts. rewrite holding_app. cbn [holding fold_right]. lia. }
  trace_step; [apply (Hfail [] (- ENOMEM)); [discriminate|constructor|reflexivity]|]. trace_step.
  trace_step; [apply (Hfail [_] (- ENOMEM)); [discriminate|calm_trace|intros t; settle_net]|]. trace_step. trace_step.
  { unfold exit_unmap. trace_step. apply (Hfail [_; _; _] (status p2)); [lia|calm_trace|]. intros t. unfold net, delta. cbn [fold_right fst snd]. apply negb_true_iff in G3. rewrite G2, G3. lia. }
  trace_step. apply negb_false_iff in G1, G3. rewrite app_comm_cons, app_assoc. split; [apply Forall_app; split; [exact H2c|calm_trace]|]. cbn [fst]. split; [repeat split|]. split; [split; [reflexivity|]; split; [exact (L' G1)|]; split; [exact N|]; split; eexists; reflexivity|].
  intros t. rewrite <- app_comm_cons, net_app, H2. unfold scope_tokens, ts, lease_pair. cbn [parent gpr mbox registers mbox_control mbox_maps dispatch_owner window_tokens lease_tokens]. fold mem_token.
  rewrite !holding_app. cbn [flat_map channel_ids app]. unfold channel_tokens. cbn [registered]. unfold base_tokens, net, delta. cbn [fold_right fst snd holding]. rewrite G2, G3, Hr.
  rewrite !Z.testbit_0_l. cbn [app holding fold_right]. lia.
Qed.
Lemma prepare_scope_outcome p r s : mem_token r = T_mem 0x13c60000 0x2000 -> performs (prepare_scope p r s) (prepares [] s).
Proof.
  intros Hr. unfold prepare_scope. cbv zeta. assert (Hno : forall e tr, e <> 0 -> Forall calm tr -> (forall t, net t tr = 0) -> prepares [] s (inl e, s) tr).
  { intros e tr He Hc Hn. split; [exact Hc|]. cbn. auto. }
  trace_step. trace_step; [trace_step; apply Hno; [discriminate|calm_trace|intros t; settle_net]|]. trace_step.
  trace_step; [unfold exit_free; repeat trace_step; apply Hno; [discriminate|calm_trace|intros t; settle_net]|]. trace_step.
  trace_step; [unfold exit_put_module, exit_free; repeat trace_step; replace (status p2 <=? 0) with (negb (0 <? status p2)) in G1 by lia; apply negb_true_iff in G1;
    apply Hno; [destruct (Z.eqb_spec (status p2) 0); [discriminate|assumption]|calm_trace|intros t; settle_net]|].
  replace (status p2 <=? 0) with (negb (0 <? status p2)) in G1 by lia; apply negb_false_iff in G1. trace_step.
  set (pre := [(Kzalloc Reset_scope, p0); (Try_module_get 0, p1); (Pm_get_if_in_use (p_dev p), p2); (Get_device (p_dev p), p3)]).
  assert (Hpre : forall t, net t pre = holding (base_tokens (p_dev p)) t) by (intros t; unfold pre, base_tokens; settle_net).
  assert (Hcalm : Forall calm pre) by calm_trace.
  assert (Hexit : forall us e s' q tr1 tr, e <> 0 -> s' = s -> Forall calm tr1 -> (forall t, holding (base_tokens (p_dev p)) t + net t tr1 = holding us t) -> exits us e s' q tr -> prepares [] s q (pre ++ tr1 ++ tr)).
  { intros us e s' q tr1 tr He -> Hc Hn X. rewrite app_assoc. eapply exits_prepares; [exact He| | |exact X]; [now apply Forall_app|]. intros t. rewrite net_app, Hpre, Hn. cbn. lia. }
  assert (Hwin : forall s type, performs (mt6878_gpueb_sram_get_window (Some s) type) (fun _ tr => Forall calm tr)).
  { intros o type. cbn [mt6878_gpueb_sram_get_window]. trace_step. trace_step; [trace_step; calm_trace|]. destruct (gpueb_sram_claim_window (Some (core o)) type) as [[|e|e] [c|]]; repeat trace_step; calm_trace. }
  eapply performs_bind; [apply performs_and; [apply get_window_outcome|apply Hwin]|]. cbn beta. intros [[e|g] s'] tr1 [X1 C1]; cbn [fst snd] in X1.
  { destruct X1 as (He & -> & Hn). eapply performs_impl; [apply exit_put_pm_outcome|]. intros q tr X. apply (Hexit _ _ _ _ tr1 _ He eq_refl C1) with (2 := X). intros t. rewrite Hn. cbn. lia. }
  destruct X1 as (-> & -> & Hp & Hc & Hn). cbn [default from_option id].
  eapply performs_bind; [apply performs_and; [apply get_window_outcome|apply Hwin]|]. cbn beta. intros [[e|m] s'] tr2 [X2 C2]; cbn [fst snd] in X2.
  { destruct X2 as (He & -> & Hn2). eapply performs_impl; [apply exit_put_gpr_outcome|]. intros q tr X. cbn [default from_option id] in X. rewrite returned_claimed in X by (discriminate || exact Hc).
    change (prepares [] s q (pre ++ tr1 ++ tr2 ++ tr)). rewrite (app_assoc tr1). apply (Hexit _ _ _ _ (tr1 ++ tr2) _ He eq_refl ltac:(now apply Forall_app)) with (2 := X).
    intros t. rewrite net_app, Hn, Hn2. cbn. lia. }
  destruct X2 as (-> & -> & Hp2 & Hc2 & Hn2). cbn [default from_option id].
  eapply performs_impl; [apply (prepare_claims_outcome p r (Window (s_self s) GPUEB_WINDOW_GPR) (Window (s_self (claimed s GPUEB_WINDOW_GPR)) GPUEB_WINDOW_MBOX) _ s Hr eq_refl eq_refl)|].
  - rewrite returned_claimed by (discriminate || exact Hc2). apply returned_claimed; [discriminate|exact Hc].
  - intros q tr [A B]. change (prepares [] s q (pre ++ tr1 ++ tr2 ++ tr)). split; [apply Forall_app; split; [exact Hcalm|]; apply Forall_app; split; [exact C1|]; apply Forall_app; split; [exact C2|exact A]|].
    assert (N : forall t, net t (pre ++ tr1 ++ tr2 ++ tr) = holding (lease_pair (Window (s_self (claimed s GPUEB_WINDOW_GPR)) GPUEB_WINDOW_MBOX) (Window (s_self s) GPUEB_WINDOW_GPR) ++ base_tokens (p_dev p)) t + net t tr).
    { intros t. rewrite !net_app, Hpre, Hn, Hn2, holding_app. unfold lease_pair. cbn [w_type holding fold_right]. lia. }
    destruct q.1 as [e|c].
    + destruct B as (B1 & B2 & B3). split; [exact B1|]. split; [exact B2|]. intros t. rewrite N, B3. cbn. lia.
    + destruct B as (B1 & B2 & B3). split; [exact B1|]. split; [exact B2|]. intros t. rewrite N, B3. cbn [holding fold_right]. lia.
Qed.
Lemma reg_base_token p : mt6878_gpueb_reset_validate_resources (Some p) = 0 ->
  mem_token (default no_resource (platform_get_resource_byname p "gpueb_reg_base"%string)) = T_mem 0x13c60000 0x2000.
Proof.
  unfold mt6878_gpueb_reset_validate_resources. destruct (p_node p) as [n|]; [|discriminate]. destruct (_ || _); [discriminate|]. destruct (negb (_ =? _)); [discriminate|].
  destruct (forallb _ gpueb_resources) eqn:F; cbn [negb]; [|discriminate]. intros _. rewrite forallb_forall in F. specialize (F ("gpueb_reg_base"%string, (0x13c60000, 0x2000)) ltac:(cbn; tauto)).
  cbn [fst snd] in F. destruct (platform_get_resource_byname p _) as [r|]; [|discriminate]. cbn. unfold mem_token, resource_size. f_equal; lia.
Qed.
Lemma scope_prepare_outcome p s : performs (mt6878_gpueb_reset_prepare p s) (prepares [] s).
Proof.
  unfold mt6878_gpueb_reset_prepare. trace_step; [trace_step; split; [constructor|]; cbn; split; [lia|auto]|]. apply prepare_scope_outcome, reg_base_token.
  apply negb_false_iff, Z.eqb_eq in G. unfold prepare_refused in G. destruct (_ || _); [discriminate|]. cbv zeta in G.
  destruct (Z.eqb_spec (mt6878_gpueb_sram_check_parent (Some s) (p_dev p)) 0) as [E|E]; cbn [negb] in G; [|contradiction].
  destruct (Z.eqb_spec (mt6878_gpueb_reset_validate_resources (Some p)) 0) as [E2|E2]; [exact E2|contradiction].
Qed.

(** ** The invariant of histories *)

Definition delivering (th : thread_state) (i : Z) : Z := match th with Delivering sn => Z.b2z (Z.testbit (pending sn) i) | _ => 0 end.
Definition retiring (th : thread_state) (i : Z) : Z := match th with Retiring sn => Z.b2z (Z.testbit (replies sn) i) | _ => 0 end.
Definition thread_ok (c : mt6878_gpueb_reset) (th : thread_state) : Prop :=
  match th with
  | Idle => True
  | Delivering sn | Retiring sn => forall i, 0 <= i < 11 ->
      Z.testbit (replies sn) i = Z.testbit (pending sn) i && reply i /\ (Z.testbit (replies sn) i = true -> Z.testbit (tx_inflight c) i = true)
  end.
(** The live scope [c] after the requests [s]. *)
Record live (c : mt6878_gpueb_reset) (th : thread_state) (k : option lifecycle) (s : trace request answer) : Prop := Live {
  lv_backlog i : 0 <= i < 11 -> tally (acked i) s = tally (received i) s + delivering th i;
  lv_excess i : 0 <= i < 11 -> reply i = true -> tally (rung i) s = tally (received i) s + inflight c i - retiring th i;
  lv_thread : thread_ok c th;
  lv_masked : tally masked s = Z.b2z (irq_contained c);
  lv_net t : net t s = holding (scope_tokens c) t;
  lv_channels : length (channels c) = 11%nat;
  lv_complete : complete c;
  lv_call : k <> None -> dispatch_quiesced c = true /\ (k = Some Destroy -> dispatch_owner c = None)
}.
(** Once the scope is gone nothing is held. *)
Definition gone (s : trace request answer) : Prop :=
  (forall i, 0 <= i < 11 -> tally (acked i) s = tally (received i) s /\ (reply i = true -> tally (received i) s <= tally (rung i) s <= tally (received i) s + 1)) /\
  tally masked s <= 1 /\ forall t, net t s = 0.
Definition system_ok (y : system) (s : trace request answer) : Prop := match scope y with Some c => live c (thread y) (call y) s | None => gone s end.
Lemma b2z_le a b : Z.b2z a <= Z.b2z b -> a = true -> b = true.
Proof. destruct a, b; cbn; auto; lia. Qed.
Lemma thread_ok_effect c c' s th : effect c c' s -> thread_ok c th -> thread_ok c' th.
Proof.
  intros E H. destruct th as [|sn|sn]; [exact I| |]; intros i Hi; destruct (H i Hi) as [A B]; (split; [exact A|]); intros X; specialize (B X);
    rewrite A in X; apply andb_true_iff in X as [_ X]; destruct (ef_rung _ _ _ E i (proj1 Hi) X) as [_ Y]; exact (b2z_le _ _ Y B).
Qed.
(** A call of the scope keeps the invariant. *)
Lemma live_effect c c' th k s s' : live c th k s -> effect c c' s' -> live c' th k (s ++ s').
Proof.
  intros [A B C D E F G H] Ef. pose proof (ef_keeps _ _ _ Ef) as (K1 & K2 & K3). split.
  - intros i Hi. rewrite !tally_app. destruct (ef_quiet _ _ _ Ef i) as [-> ->]. rewrite A by exact Hi. lia.
  - intros i Hi Hr. rewrite !tally_app. destruct (ef_quiet _ _ _ Ef i) as [_ ->]. destruct (ef_rung _ _ _ Ef i (proj1 Hi) Hr) as [-> _]. rewrite B by assumption. lia.
  - exact (thread_ok_effect _ _ _ _ Ef C).
  - rewrite tally_app, D, (ef_masked _ _ _ Ef). lia.
  - intros t. rewrite net_app, E, (ef_net _ _ _ Ef t F). lia.
  - congruence.
  - exact (complete_fixed _ _ K2 G).
  - intros X. destruct (H X) as [X1 X2]. destruct (K3 X1) as [Y1 Y2]. auto.
Qed.
Lemma live_idle c th k k' s : live c th k s -> (k' <> None -> dispatch_quiesced c = true /\ (k' = Some Destroy -> dispatch_owner c = None)) -> live c th k' s.
Proof. intros [A B C D E F G _] H. now split. Qed.
Lemma captures_facts c sn s : captures c sn s -> (forall i, 0 <= i < 11 -> tally (rung i) s = 0 /\ tally (received i) s = 0 /\ tally (acked i) s = Z.b2z (Z.testbit (pending sn) i)) /\
  tally masked s = 0 /\ (forall t, net t s = 0) /\ thread_ok c (Delivering sn).
Proof.
  intros (s1 & Hs & [[-> ->]|(A & a & b & ->)]).
  - destruct (inert_facts s1 Hs) as (B & C & _ & D). split_and!; auto.
    + intros i _. destruct (B i) as (-> & -> & ->). cbn [pending no_snapshot]. now rewrite Z.testbit_0_l.
    + intros i _. cbn [replies pending no_snapshot]. rewrite !Z.testbit_0_l. split; [reflexivity|discriminate].
  - destruct (inert_facts s1 Hs) as (B & C & _ & D). split_and!.
    + intros i _. rewrite !tally_app. destruct (B i) as (-> & -> & ->). cbn. lia.
    + rewrite tally_app, C. reflexivity.
    + intros t. rewrite net_app, D. reflexivity.
    + intros i Hi. destruct (A i Hi) as (X & Y & _). auto.
Qed.
Lemma interrupt_ok c k s : live c Idle k s -> performs (irq_capture c) (fun p s' => live p.2 (match p.1 with Some sn => Delivering sn | None => Idle end) k (s ++ s')).
Proof.
  intros L. eapply performs_impl; [apply capture_outcome|]. intros [[sn|] c'] s'; cbn [fst snd]; [|apply live_effect, L]. intros (Ho & -> & X).
  destruct (captures_facts _ _ _ X) as (A & B & C & D). destruct L as [L1 L2 L3 L4 L5 L6 L7 L8]. split.
  - intros i Hi. rewrite !tally_app. destruct (A i Hi) as (_ & -> & ->). rewrite L1 by exact Hi. cbn [delivering]. lia.
  - intros i Hi Hr. rewrite !tally_app. destruct (A i Hi) as (-> & -> & _). rewrite L2 by assumption. cbn [retiring]. change (inflight (marked c) i) with (inflight c i). lia.
  - exact D.
  - rewrite tally_app, L4, B. cbn. lia.
  - intros t. rewrite net_app, L5, C. change (scope_tokens (marked c)) with (scope_tokens c). lia.
  - exact L6.
  - exact L7.
  - exact L8.
Qed.
Lemma deliver_ok c sn k s : live c (Delivering sn) k s -> performs (irq_deliver sn channel_ids) (fun _ s' => live c (Retiring sn) k (s ++ s')).
Proof.
  intros [L1 L2 L3 L4 L5 L6 L7 L8]. eapply performs_impl; [apply deliver_outcome|]. cbn beta. intros _ s' (_ & B & C & _ & E). destruct channel_ids_ok as (_ & N & M). split; auto.
  - intros i Hi. rewrite !tally_app. destruct (B i) as (_ & -> & B3). rewrite (B3 N), (bool_decide_true _ (M i Hi)), L1 by exact Hi. cbn [delivering andb]. lia.
  - intros i Hi Hr. rewrite !tally_app. destruct (B i) as (-> & _ & B3). rewrite (B3 N), (bool_decide_true _ (M i Hi)), L2 by assumption. cbn [retiring andb].
    destruct (L3 i Hi) as [-> _]. rewrite Hr, andb_true_r. lia.
  - rewrite tally_app, L4, C. lia.
  - intros t. rewrite net_app, L5, E. lia.
Qed.
Lemma retire_ok c sn k s : live c (Retiring sn) k s -> live (irq_retire c sn) Idle k s.
Proof.
  intros [L1 L2 L3 L4 L5 L6 L7 L8]. split; auto; [|exact I].
  - intros i Hi Hr. rewrite (L2 i Hi Hr). unfold inflight, irq_retire, set_mailbox. cbn [tx_inflight retiring]. rewrite Z.ldiff_spec. destruct (L3 i Hi) as [_ B].
    destruct (Z.testbit (replies sn) i) eqn:E; [rewrite (B eq_refl)|]; cbn; [|rewrite andb_true_r]; lia.
Qed.
Lemma live_gone c k s s' : live c Idle k s -> Forall calm s' -> (forall t, net t s' = - holding (scope_tokens c) t) -> gone (s ++ s').
Proof.
  intros [L1 L2 L3 L4 L5 L6 L7 L8] Hc Hn. destruct (calm_facts s' Hc) as (A & B & _). split; [|split].
  - intros i Hi. rewrite !tally_app. destruct (A i) as (-> & -> & ->). rewrite (L1 i Hi). cbn [delivering]. split; [lia|]. intros Hr. rewrite (L2 i Hi Hr). cbn [retiring].
    unfold inflight. destruct (Z.testbit _ i); cbn; lia.
  - rewrite tally_app, B, L4. destruct (irq_contained c); cbn; lia.
  - intros t. rewrite net_app, L5, Hn. lia.
Qed.
Lemma finish_effects y c s : scope y = Some c -> live c (thread y) (call y) s -> performs (finish_call y c) (fun y' s' =>
  match scope y' with
  | Some c' => effect c c' s' /\ thread y' = thread y /\ (call y' = call y \/ call y' = None)
  | None => thread y = Idle /\ Forall calm s' /\ forall t, net t s' = - holding (scope_tokens c) t
  end).
Proof.
  intros Ec L. unfold finish_call.
  assert (Hnil : forall c, effect c c []) by (intros; apply effect_inert; constructor).
  destruct (call y) as [k|] eqn:Ek; [|trace_step; rewrite Ec; auto]. destruct (thread y) eqn:Et; [|trace_step; rewrite Ec; auto..]. trace_step.
  destruct (lv_call _ _ _ _ L ltac:(discriminate)) as [Hq Hd]. pose proof (drain_end_effect c) as De. destruct (drain_end c) as [r c1]. cbn [snd] in De.
  assert (Hkeep : forall c2 s2, effect c1 c2 s2 -> effect c c2 ((Synchronize_irq, p) :: s2)).
  { intros c2 s2 E. change ((Synchronize_irq, p) :: s2) with ([(Synchronize_irq, p)] ++ [] ++ s2). eapply effect_trans; [apply effect_inert; repeat constructor|]. eapply effect_trans; [exact De|exact E]. }
  pose proof (ef_keeps _ _ _ De) as (_ & Kf & K). destruct (K Hq) as [Hq1 Hd1]. destruct k.
  - trace_step. cbn. split; [apply Hkeep, Hnil|auto].
  - eapply performs_bind; [apply (hold_effect r c1 Hq1)|]. intros q s2 E. trace_step. rewrite app_nil_r. cbn. split; [apply Hkeep, E|auto].
  - destruct (dispatch_owner c1) as [d|] eqn:Eo; [|trace_step; cbn; split; [apply Hkeep, Hnil|auto]].
    eapply performs_bind; [apply (release_effect d r c1 Eo)|]. intros q s2 E. trace_step. rewrite app_nil_r. cbn. split; [apply Hkeep, E|auto].
  - eapply performs_bind; [apply (destroy_effect r c1 (complete_fixed _ _ Kf (lv_complete _ _ _ _ L)) (Hd1 (Hd eq_refl)))|]. intros q s2 E. cbn beta in E. trace_step. rewrite app_nil_r.
    destruct q.2 as [c2|o]; cbn [scope thread call]; [split; [apply Hkeep, E|auto]|]. destruct E as [E1 E2]. split; [reflexivity|]. split; [constructor; [exact I|exact E1]|]. intros t. rewrite net_cons, E2.
    pose proof (ef_net _ _ _ De t (lv_channels _ _ _ _ L)) as N. change (net t []) with 0 in N. change (delta t (Synchronize_irq, p)) with 0. lia.
Qed.
Lemma finish_ok y c s : scope y = Some c -> live c (thread y) (call y) s -> performs (finish_call y c) (fun y' s' => system_ok y' (s ++ s')).
Proof.
  intros Ec L. eapply performs_impl; [apply (finish_effects y c s Ec L)|]. intros y' s' X. cbn beta in X. unfold system_ok. destruct (scope y') as [c'|].
  - destruct X as (E & -> & [-> | ->]); [eapply live_effect; eassumption|]. eapply live_idle; [eapply live_effect; eassumption|congruence].
  - destruct X as (Et & A & B). rewrite Et in L. eapply live_gone; eassumption.
Qed.
Lemma event_step_ok y e s : system_ok y s -> performs (event_step y e) (fun y' s' => system_ok y' (s ++ s')).
Proof.
  intros Hy. unfold event_step. assert (Hsame : performs (ret y) (fun y' s' => system_ok y' (s ++ s'))) by (trace_step; now rewrite app_nil_r).
  destruct (scope y) as [c|] eqn:Ec; [|exact Hsame]. pose proof Hy as L. unfold system_ok in L. rewrite Ec in L.
  assert (Hcall : forall (m : gio (Z * mt6878_gpueb_reset)), performs m (fun p s' => effect c p.2 s') -> performs (let! p := m in ret (with_scope y p.2)) (fun y' s' => system_ok y' (s ++ s'))).
  { intros m Hm. eapply performs_bind; [exact Hm|]. intros p s' E. trace_step. rewrite app_nil_r. cbn. eapply live_effect; [exact L|exact E]. }
  pose proof (fun i => proj1 (u32_range i)) as U.
  destruct e as [| | |client i rc|p|client i ws|k| | |].
  - destruct (thread y) eqn:Et; [|exact Hsame..]. eapply performs_bind; [apply (interrupt_ok c (call y) s L)|]. intros p s' E. trace_step. rewrite app_nil_r. exact E.
  - destruct (thread y) as [|sn|sn] eqn:Et; [exact Hsame| |exact Hsame]. eapply performs_bind; [apply (deliver_ok c sn (call y) s L)|]. intros u s' E. trace_step. rewrite app_nil_r. exact E.
  - destruct (thread y) as [|sn|sn] eqn:Et; [exact Hsame..|]. trace_step. rewrite app_nil_r. cbn. apply retire_ok, L.
  - apply Hcall, bind_effect, U.
  - apply Hcall, acquire_effect.
  - apply Hcall, trysend_effect, U.
  - unfold begin_call. destruct (call y) as [k'|] eqn:Ek; [destruct k; exact Hsame|].
    assert (Hb : (k = Destroy -> dispatch_owner c = None) -> performs (let! c := drain_begin c in ret (System (Some c) (thread y) (Some k))) (fun y' s' => system_ok y' (s ++ s'))).
    { intros Hd. eapply performs_bind; [apply drain_begin_effect|]. intros c1 s' (E & Q & O). trace_step. rewrite app_nil_r. cbn.
      eapply live_idle; [eapply live_effect; [exact L|exact E]|]. intros _. split; [exact Q|]. intros [= ->]. rewrite O. auto. }
    destruct k; [apply Hb; discriminate..| |]; destruct (dispatch_owner c) eqn:Eo; first [exact Hsame|apply Hb; (discriminate || auto)].
  - apply finish_ok; assumption.
  - trace_step. rewrite app_nil_r. destruct (_ && _) eqn:G; [|exact Hy]. cbn. apply andb_true_iff in G as [G G4]. apply andb_true_iff in G as [G G3]. apply andb_true_iff in G as [G1 G2].
    destruct L as [L1 L2 L3 L4 L5 L6 L7 L8]. now split.
  - trace_step. cbn. eapply live_effect; [exact L|apply effect_unknown_start].
Qed.
Lemma system_run_ok es : forall y s, system_ok y s -> performs (system_run y es) (fun y' s' => system_ok y' (s ++ s')).
Proof.
  induction es as [|e es IH]; intros y s Hy; cbn [system_run]; [trace_step; now rewrite app_nil_r|]. eapply performs_bind; [apply event_step_ok, Hy|]. intros y' s' Hy'.
  eapply performs_impl; [apply (IH y' _ Hy')|]. intros y2 s2 X. now rewrite app_assoc.
Qed.
(** A prepared scope starts a history. *)
Lemma fresh_live c s : fresh c -> complete c -> Forall calm s -> (forall t, net t s = holding (scope_tokens c) t) -> live c Idle None s.
Proof.
  intros (F1 & F2 & F3 & F4 & F5 & F6 & F7 & F8 & F9) Hc Hs Hn. destruct (calm_facts s Hs) as (A & B & _). split; auto; try exact I.
  - intros i _. destruct (A i) as (_ & -> & ->). reflexivity.
  - intros i _ _. destruct (A i) as (-> & _ & ->). unfold inflight. rewrite F2, Z.testbit_0_l. reflexivity.
  - rewrite B, F7. reflexivity.
Qed.

(** ** A closed or inactive dispatch *)

Definition shut (c : mt6878_gpueb_reset) (active : bool) : Prop := if active then closed c else dispatch_active c = false.
(** [active] tells that the start owner may act. *)
Lemma effect_shut a c c' s : effect c c' s -> shut c a -> shut c' a /\ Forall silent s.
Proof. intros E. destruct a; [apply (ef_closed _ _ _ E)|apply (ef_inactive _ _ _ E)]. Qed.
Definition system_shut (y : system) (a : bool) : Prop := forall c, scope y = Some c -> shut c a.
Lemma event_step_shut a y e : (a = false -> e <> Activate) -> system_shut y a -> forall s0, system_ok y s0 -> performs (event_step y e) (fun y' s => system_shut y' a /\ Forall silent s).
Proof.
  intros Ha Hy s0 Hok. unfold event_step. assert (Hsame : performs (ret y) (fun y' s => system_shut y' a /\ Forall silent s)) by (trace_step; split; [exact Hy|constructor]).
  destruct (scope y) as [c|] eqn:Ec; [|exact Hsame]. pose proof (Hy c Ec) as Hc.
  assert (Hone : forall c' th k, shut c' a -> system_shut (System (Some c') th k) a) by (intros c' th k X c2 [= <-]; exact X).
  assert (Hcall : forall (m : gio (Z * mt6878_gpueb_reset)), performs m (fun p s' => effect c p.2 s') -> performs (let! p := m in ret (with_scope y p.2)) (fun y' s => system_shut y' a /\ Forall silent s)).
  { intros m Hm. eapply performs_bind; [exact Hm|]. intros p s' E. trace_step. rewrite app_nil_r. destruct (effect_shut a _ _ _ E Hc). split; [now apply Hone|assumption]. }
  pose proof (fun i => proj1 (u32_range i)) as U.
  destruct e as [| | |client i rc|p|client i ws|k| | |].
  - destruct (thread y); [|exact Hsame..]. eapply performs_bind; [apply capture_outcome|]. intros [[sn|] c1] s' E; cbn [fst snd] in E.
    + exfalso. destruct E as (Ho & _). destruct a; [exact (open_closed c Ho Hc)|]. destruct Ho as (_ & _ & _ & X). cbn in Hc. congruence.
    + trace_step. rewrite app_nil_r. destruct (effect_shut a _ _ _ E Hc). split; [now apply Hone|assumption].
  - destruct (thread y) as [|sn|sn]; [exact Hsame| |exact Hsame]. eapply performs_bind; [apply deliver_outcome|]. cbn beta. intros u s' (_ & _ & _ & D & _). trace_step. rewrite app_nil_r. split; [now apply Hone|exact D].
  - destruct (thread y) as [|sn|sn]; [exact Hsame..|]. trace_step. split; [apply Hone; exact Hc|constructor].
  - apply Hcall, bind_effect, U.
  - apply Hcall, acquire_effect.
  - apply Hcall, trysend_effect, U.
  - unfold begin_call. assert (Hb : performs (let! c := drain_begin c in ret (System (Some c) (thread y) (Some k))) (fun y' s => system_shut y' a /\ Forall silent s)).
    { eapply performs_bind; [apply drain_begin_effect|]. intros c1 s' (E & _). trace_step. rewrite app_nil_r. destruct (effect_shut a _ _ _ E Hc). split; [now apply Hone|assumption]. }
    destruct (call y), k, (dispatch_owner c); first [exact Hsame|exact Hb].
  - unfold system_ok in Hok. rewrite Ec in Hok. eapply performs_impl; [apply (finish_effects y c s0 Ec Hok)|]. intros y' s' X. cbn beta in X. destruct (scope y') as [c'|] eqn:Ec'.
    + destruct X as (E & _). destruct (effect_shut a _ _ _ E Hc) as [S1 S2]. split; [intros c2 E2; rewrite Ec' in E2; now injection E2 as <-|exact S2].
    + destruct X as (_ & X & _). split; [intros c2 E2; congruence|apply (calm_facts s' X)].
  - trace_step. split; [|constructor]. destruct (_ && _) eqn:G; [|exact Hy]. apply Hone. destruct a; [|exfalso; exact (Ha eq_refl eq_refl)]. exact Hc.
  - trace_step. split; [|constructor]. apply Hone. apply (effect_shut a _ _ _ (effect_unknown_start c) Hc).
Qed.
Lemma system_run_shut a es : forall y s0, (a = false -> Activate ∉ es) -> system_shut y a -> system_ok y s0 -> performs (system_run y es) (fun y' s => system_shut y' a /\ Forall silent s).
Proof.
  induction es as [|e es IH]; intros y s0 Ha Hy Hok; cbn [system_run]; [trace_step; split; [exact Hy|constructor]|].
  eapply performs_bind; [apply performs_and; [eapply event_step_shut; [|exact Hy|exact Hok]|apply event_step_ok, Hok]|].
  - intros X Y. apply (Ha X). subst e. now left.
  - cbn beta. intros y' s' [[A B] C]. eapply performs_impl; [apply (IH y' (s0 ++ s')); [|exact A|exact C]|].
    + intros X Y. apply (Ha X). now right.
    + intros y2 s2 [D E]. split; [exact D|]. now apply Forall_app.
Qed.

(** ** Transfers *)

Definition tx_offset (i : Z) : Z := 4 * fold_right Z.add 0 (firstn (Z.to_nat i) words).
(** The requests that store [ws] in the slot of channel [i], in order. *)
Definition slot_writes (i : Z) (ws : list Z) : list request :=
  zip_with (fun w j => Writel w (In_sram (GPUEB_MBOX_OFFSET + tx_offset i + 4 * Z.of_nat j))) ws (seq 0 (length ws)).
(** The requests of a submitted message: only looks, then the slot, then only
    looks and a barrier, then the doorbell of the channel and its readback. *)
Definition submits (i : Z) (ws : list Z) (s : trace request answer) : Prop := exists s1 s2 s3 a b,
  s = s1 ++ s2 ++ s3 ++ [(Writel (BIT i) (Control GPUEB_MBOX_SET), a); (Readl (Control GPUEB_MBOX_SEND), b)] /\
  Forall inert s1 /\ fst <$> s2 = slot_writes i ws /\ Forall inert s3.
Definition no_doorbell (s : trace request answer) : Prop := forall j, tally (rung j) s = 0.
Lemma no_doorbell_app s1 s2 : no_doorbell s1 -> no_doorbell s2 -> no_doorbell (s1 ++ s2).
Proof. intros A B j. now rewrite tally_app, A, B. Qed.
Lemma inert_no_doorbell s : Forall inert s -> no_doorbell s.
Proof. intros Hs j. apply (inert_facts s Hs). Qed.
Lemma slot_offset i n off : 0 <= i < 11 -> gpueb_sram_tx_slot i n (Some 0) = (0, Some off) -> off = tx_offset i /\ 0 <= off < 1000.
Proof.
  intros Hi. unfold gpueb_sram_tx_slot. destruct (_ || _); [discriminate|]. intros [= <-].
  assert (X : i = 0 \/ i = 1 \/ i = 2 \/ i = 3 \/ i = 4 \/ i = 5 \/ i = 6 \/ i = 7 \/ i = 8 \/ i = 9 \/ i = 10) by lia.
  destruct X as [->|[->|[->|[->|[->|[->|[->|[->|[->|[->| ->]]]]]]]]]]; vm_compute; intuition discriminate.
Qed.
Lemma transaction_order c i ws : 0 <= i < 11 ->
  performs (mt6878_gpueb_sram_send_transaction (sram c) (gpr c) (mbox c) i ws (tx_before i) (tx_commit i) c) (fun p s =>
    if p.1 =? 0 then submits i ws s else no_doorbell s).
Proof.
  intros Hi. assert (Hn : forall e (c : mt6878_gpueb_reset), e <> 0 -> performs (ret (e, c)) (fun p s => if p.1 =? 0 then submits i ws s else no_doorbell s)).
  { intros e c' He. trace_step. cbn. replace (e =? 0) with false by lia. intros j. reflexivity. }
  unfold mt6878_gpueb_sram_send_transaction. cbv zeta. trace_step; [now apply Hn|].
  destruct (gpueb_sram_tx_slot i (len ws) (Some 0)) as [[|e|e] [off|]] eqn:Es; try (now apply Hn);
    [|exfalso; unfold gpueb_sram_tx_slot in Es; now destruct (_ || _)]. destruct (slot_offset i _ _ Hi Es) as [Eo Ho].
  trace_step; [apply Hn; lia|].
  destruct (gpueb_sram_window_range (Some (core (sram c))) GPUEB_WINDOW_MBOX off (len ws * 4) (Some (Range 0 0))) as [[|e|e] [r|]] eqn:Er; try (now apply Hn);
    [|exfalso; unfold gpueb_sram_window_range in Er; cbn in Er; guards Er].
  assert (Hr : at_range (sram c) r = GPUEB_MBOX_OFFSET + tx_offset i) by (rewrite <- Eo; refine (range_place (sram c) GPUEB_WINDOW_MBOX _ _ _ GPUEB_MBOX_OFFSET GPUEB_MBOX_SIZE eq_refl _ _ _ Er); lia).
  rewrite Hr. eapply performs_bind; [apply tx_before_outcome|]. intros p s (Hs & _).
  trace_step; [trace_step; rewrite app_nil_r; replace (p.1 =? 0) with false by lia; now apply inert_no_doorbell|].
  eapply performs_bind; [apply write_words_facts|]. intros _ s2 (A & _ & _ & D). eapply performs_impl; [apply tx_commit_outcome|]. intros q s3 (s1 & Hs1 & Hq).
  destruct (q.1 =? 0).
  - destruct Hq as (_ & a & b & ->). exists s, s2, s1, a, b. auto.
  - destruct Hq as [_ ->]. apply no_doorbell_app; [now apply inert_no_doorbell|]. apply no_doorbell_app; [intros j; apply A|now apply inert_no_doorbell].
Qed.
Lemma contain_no_doorbell c e : performs (contain_irq c e) (fun _ s => no_doorbell s).
Proof. unfold contain_irq, mask_irq_once. eapply (performs_bind _ _ (fun _ s => no_doorbell s)); [trace_step; repeat trace_step; intros j; reflexivity|]. intros c1 s Hs. trace_step. now rewrite app_nil_r. Qed.
Lemma contain_error c e : performs (contain_irq c e) (fun c' _ => first_error c' = if first_error c =? 0 then e else first_error c).
Proof.
  unfold contain_irq, mask_irq_once. eapply (performs_bind _ _ (fun c' _ => first_error c' = if first_error c =? 0 then e else first_error c)); [trace_step; repeat trace_step; reflexivity|].
  intros c1 s Hs. trace_step. now destruct (unknown_start_flags c1) as [_ ->].
Qed.
Lemma fault_order c e i ws pre : e <> 0 -> no_doorbell pre -> performs (tx_fault c e) (fun p s => if p.1 =? 0 then submits i ws (pre ++ s) else no_doorbell (pre ++ s)).
Proof.
  intros He Hp. unfold tx_fault. eapply performs_bind; [apply performs_and; [apply contain_no_doorbell|apply contain_error]|]. cbn beta. intros c' s [A B]. trace_step. cbn [fst]. rewrite B, app_nil_r.
  destruct (Z.eqb_spec (first_error c) 0) as [E|E]; [replace (e =? 0) with false by lia|replace (first_error c =? 0) with false by lia]; now apply no_doorbell_app.
Qed.
Lemma submits_after i ws pre s : Forall inert pre -> submits i ws s -> submits i ws (pre ++ s).
Proof.
  intros Hp (s1 & s2 & s3 & a & b & -> & A & B & C). exists (pre ++ s1), s2, s3, a, b. split; [now rewrite <- app_assoc|]. split; [now apply Forall_app|auto].
Qed.
Lemma trysend_order c client i ws : 0 <= i -> performs (mt6878_gpueb_reset_trysend c client i (Some ws)) (fun p s => if p.1 =? 0 then submits i ws s else no_doorbell s).
Proof.
  intros Hi. cbn [mt6878_gpueb_reset_trysend]. assert (Hn : forall e pre, e <> 0 -> Forall inert pre -> performs (ret (e, c)) (fun (p : Z * mt6878_gpueb_reset) s => if p.1 =? 0 then submits i ws (pre ++ s) else no_doorbell (pre ++ s))).
  { intros e pre He Hp. trace_step. cbn. replace (e =? 0) with false by lia. rewrite app_nil_r. now apply inert_no_doorbell. }
  trace_step; [apply (Hn _ []); [discriminate|constructor]|]. trace_step; [apply (Hn _ []); [lia|constructor]|]. trace_step; [apply (Hn _ []); [discriminate|constructor]|].
  trace_step; [apply (Hn _ []); [discriminate|constructor]|]. trace_step; [apply (fault_order c _ i ws []); [discriminate|intros j; reflexivity]|].
  eapply performs_bind; [apply bound_inert|]. intros ok s Hs. trace_step; [apply fault_order; [discriminate|now apply inert_no_doorbell]|].
  eapply performs_bind; [apply bound_inert|]. intros ok2 s2 Hs2. assert (H2 : Forall inert (s ++ s2)) by now apply Forall_app.
  trace_step; [eapply performs_impl; [apply (fault_order c (- ENODEV) i ws (s ++ s2)); [discriminate|now apply inert_no_doorbell]|]; intros q s3; now rewrite app_assoc|].
  trace_step. assert (H3 : Forall inert (s ++ s2 ++ [(Irq_data, p)])) by (rewrite app_assoc; apply Forall_app; split; [exact H2|repeat constructor]).
  trace_step; [trace_step; cbn; now apply inert_no_doorbell|]. eapply performs_bind; [apply identity_inert|]. intros r s3 Hs3. cbn beta in Hs3.
  set (pre := s ++ s2 ++ (Irq_data, p) :: s3). assert (Hpre : Forall inert pre) by (unfold pre; apply Forall_app; split; [exact Hs|apply Forall_app; split; [exact Hs2|constructor; [exact I|exact Hs3]]]).
  assert (Hassoc : forall s', s ++ s2 ++ (Irq_data, p) :: s3 ++ s' = pre ++ s') by (intros; unfold pre; now rewrite <- !app_assoc, <- app_comm_cons).
  trace_step; [eapply performs_impl; [apply (fault_order c r i ws pre); [lia|now apply inert_no_doorbell]|]; intros q s'; now rewrite Hassoc|].
  trace_step; [eapply performs_impl; [apply (Hn (- EBUSY) pre); [discriminate|exact Hpre]|]; intros q s'; now rewrite Hassoc|].
  eapply performs_bind; [apply (transaction_order c i ws); lia|]. intros q s4 X. cbn beta in X. trace_step.
  - trace_step. rewrite app_nil_r, Hassoc. destruct (q.1 =? 0); [now apply submits_after|]. apply no_doorbell_app; [now apply inert_no_doorbell|exact X].
  - replace (q.1 =? 0) with false in X by lia. eapply performs_impl; [apply (fault_order q.2 q.1 i ws (pre ++ s4)); [lia|apply no_doorbell_app; [now apply inert_no_doorbell|exact X]]|].
    intros q' s'. now rewrite Hassoc, app_assoc.
Qed.
(** The requests of a thread that delivers messages: looks, the acknowledgement
    of exactly the messages read, and one callback per message. *)
Definition delivers (c c' : mt6878_gpueb_reset) (s : trace request answer) : Prop := exists sn s1 a b s3,
  s = s1 ++ (Writel (pending sn) (Control GPUEB_MBOX_CLR), a) :: (Readl (Control GPUEB_MBOX_RECV), b) :: s3 /\ Forall inert s1 /\
  fst <$> s3 = (fun i => Receive i (message sn i)) <$> filter (fun i => Z.testbit (pending sn) i = true) channel_ids /\
  forall i, 0 <= i < 11 ->
    (Z.testbit (pending sn) i = true -> Z.testbit (registered c) i = true /\ read_from_slot i (message sn i) s1 /\ (reply i = true -> Z.testbit (tx_inflight c) i = true)) /\
    Z.testbit (tx_inflight c') i = Z.testbit (tx_inflight c) i && negb (Z.testbit (pending sn) i && reply i).
Lemma thread_order c : performs (mailbox_irq_thread c) (fun p s => delivers c p.2 s \/ forall i, tally (acked i) s = 0 /\ tally (received i) s = 0).
Proof.
  unfold mailbox_irq_thread. eapply performs_bind; [apply capture_outcome|]. intros [[sn|] c1] s X; cbn [fst snd] in *.
  2:{ trace_step. rewrite app_nil_r. right. apply X. }
  destruct X as (_ & -> & s1 & Hs & X). eapply performs_bind; [apply deliver_outcome|]. intros u s3 (A & B & _). trace_step. rewrite app_nil_r. cbn [snd].
  destruct X as [[-> ->]|(X & a & b & ->)].
  - right. intros i. rewrite !tally_app. destruct (inert_facts s1 Hs) as (C & _). destruct (C i) as (_ & -> & ->). destruct (B i) as (_ & -> & B3).
    rewrite (B3 (proj1 (proj2 channel_ids_ok))). cbn [pending no_snapshot]. rewrite Z.testbit_0_l, andb_false_r. auto.
  - left. exists sn, s1, a, b, s3. split; [now rewrite <- app_assoc|]. split; [exact Hs|]. split; [exact A|]. intros i Hi. destruct (X i Hi) as (X1 & X2 & X3). split.
    + intros P. destruct (X3 P) as [Y1 Y2]. split; [exact Y1|]. split; [|intros Hr; apply X2; now rewrite X1, P, Hr]. destruct Y2 as [Y2 Y3].
      assert (E : message sn i = nth (Z.to_nat i) (payload sn) []) by (unfold message; apply take_ge; unfold len in Y2; lia). rewrite E. now split.
    + unfold irq_retire, set_mailbox. cbn [tx_inflight marked set_flags]. now rewrite Z.ldiff_spec, X1.
Qed.

(** ** A sample *)

Module Demo.
Definition node : device_node :=
  Node true true ((prod_map id (fun v => [v]) <$> scalars) ++ [("send-table"%string, table_of send_row); ("recv-table"%string, table_of recv_row)]) [([6], true)] 0.
Definition pdev : platform_device :=
  Pdev 100 1100 (Some node) true ((fun e => (e.1, Resource e.2.1 (e.2.1 + e.2.2 - 1) true)) <$> gpueb_resources) 273 4.
Definition owner : mt6878_gpueb_sram := Sram 1 100 (SramCore GPUEB_SRAM_OWNED 0 (Range GPUEB_SRAM_BASE GPUEB_SRAM_SIZE)) 0x1000.
Definition seen (q : request -> bool) (t : trace request answer) : bool := existsb (fun e => q e.1) t.
Definition doorbell (q : request) : bool := match q with Writel _ (Control 0) => true | _ => false end.
Definition ack (q : request) : bool := match q with Writel _ (Control 1) => true | _ => false end.
Definition receipt (q : request) : bool := match q with Receive _ _ => true | _ => false end.
Definition line (q : request) : bool := match q with Irq_data => true | _ => false end.
(** Firmware that answers a command on channel 1 with eight words. *)
Definition firmware : environment request answer := fun t q =>
  match q with
  | Readl (In_sram a) => Answer (if a =? GPUEB_GPR_OFFSET + 8 then 0x55667788 else a mod 16) true
  | Readl (Control 3) => Answer (if seen doorbell t && negb (seen ack t) then 2 else 0) true
  | Readl _ | Request_irq => Answer 0 true
  | Driver d => Answer (d + 1000) true
  | Irq_data => Answer 1 (negb (seen line t))
  | Ioremap f _ => Answer f true
  | _ => Answer 1 true
  end.
Definition events : list event :=
  ((fun i => Bind 7 i true) <$> channel_ids) ++ [Acquire 100; Activate; Send 7 1 (Some [1; 2; 3; 4; 5; 6; 7; 8]); Interrupt; Send 7 1 (Some [1; 2; 3; 4; 5; 6; 7; 8]);
    Deliver; Retire; Send 7 0 (Some [9; 9; 9; 9]); Begin Hold; Finish].
End Demo.

(** The whole life: a preparation and, when it succeeds, a history. *)
Definition lifetime (p : platform_device) (s : mt6878_gpueb_sram) (es : list event) : gio system :=
  let! q := mt6878_gpueb_reset_prepare p s in
  match q.1 with inl _ => ret (System None Idle None) | inr c => system_run (System (Some c) Idle None) es end.
Lemma lifetime_ok p s es : performs (lifetime p s es) system_ok.
Proof.
  unfold lifetime. eapply performs_bind; [apply scope_prepare_outcome|]. intros [[e|c] s'] tr [Hc X]; cbn [fst snd] in *.
  - trace_step. rewrite app_nil_r. destruct X as (_ & _ & Hn). destruct (calm_facts tr Hc) as (A & B & _). split; [|split; [lia|intros t; rewrite Hn; reflexivity]].
    intros i _. destruct (A i) as (-> & -> & ->). lia.
  - destruct X as (F & C & N). apply system_run_ok. cbn. apply fresh_live; auto. intros t. rewrite N. cbn. lia.
Qed.
Lemma lifetime_silent p s es : Activate ∉ es -> performs (lifetime p s es) (fun _ tr => Forall silent tr).
Proof.
  intros Ha. unfold lifetime. eapply performs_bind; [apply scope_prepare_outcome|]. intros [[e|c] s'] tr [Hc X]; cbn [fst snd] in *.
  - trace_step. rewrite app_nil_r. apply (calm_facts tr Hc).
  - destruct X as (F & C & N). eapply performs_impl; [apply (system_run_shut false es (System (Some c) Idle None) tr)|].
    + intros _. exact Ha.
    + intros c' [= <-]. apply F.
    + cbn. apply fresh_live; auto. intros t. rewrite N. cbn. lia.
    + cbn beta. intros y tr2 [_ S]. apply Forall_app. split; [apply (calm_facts tr Hc)|exact S].
Qed.
(** The sample exchanges one command and its reply, refuses a second command
    before the reply is consumed, sends an event without reply and ends with
    the reset written. *)
Lemma demo_exchange :
  let '(y, tr) := lifetime Demo.pdev Demo.owner Demo.events Demo.firmware [] in
  ((fun i => (tally (rung i) tr, tally (acked i) tr, tally (received i) tr)) <$> [0; 1], tally masked tr) = ([(1, 0, 0); (1, 1, 1)], 1) /\
  (reset_written <$> scope y) = Some true /\ filter (fun q => Demo.receipt q = true) (fst <$> tr) = [Receive 1 [8; 12; 0; 4; 8; 12; 0; 4]].
Proof. vm_compute. auto. Qed.

(** C38. Mailbox exchanges. Over the whole life of a scope, in any environment
    and with the interrupt thread interleaved anywhere, each channel's messages
    are acknowledged once and then delivered, at most one being between the
    two; a reply channel has at most one command without a consumed reply, and
    replies are never delivered without a command; the interrupt line is
    masked at most once. *)
Theorem mailbox_exchanges p s es : performs (lifetime p s es) (fun y tr =>
  (forall i, 0 <= i < 11 ->
    tally (received i) tr <= tally (acked i) tr <= tally (received i) tr + 1 /\
    (reply i = true -> tally (received i) tr <= tally (rung i) tr <= tally (received i) tr + 1)) /\
  tally masked tr <= 1).
Proof.
  eapply performs_impl; [apply lifetime_ok|]. intros y tr X. unfold system_ok in X. destruct (scope y) as [c|].
  - destruct X as [A B C D _ _ _ _]. split; [|rewrite D; destruct (irq_contained c); cbn; lia]. intros i Hi. rewrite (A i Hi). split.
    + destruct (thread y) as [|sn|sn]; cbn [delivering]; lia.
    + intros Hr. rewrite (B i Hi Hr). unfold inflight. destruct (thread y) as [|sn|sn]; cbn [retiring thread_ok] in *; try (destruct (Z.testbit (tx_inflight c) i); cbn; lia).
      destruct (C i Hi) as [_ E]. destruct (Z.testbit (replies sn) i); [rewrite (E eq_refl)|destruct (Z.testbit (tx_inflight c) i)]; cbn; lia.
  - destruct X as (A & B & _). split; [|exact B]. intros i Hi. destruct (A i Hi) as [-> E]. split; [lia|exact E].
Qed.

(** Mailbox resources. At any point of the life of a scope, and whatever the
    kernel answered, the references, regions, mappings, leases and the
    interrupt that are held are exactly those of the scope: of its preparation,
    of its bound clients and of its dispatch lease. A failed preparation and a
    successful destruction leave nothing. *)
Theorem mailbox_resources p s es : performs (lifetime p s es) (fun y tr =>
  forall t, net t tr = match scope y with Some c => holding (scope_tokens c) t | None => 0 end).
Proof.
  eapply performs_impl; [apply lifetime_ok|]. intros y tr X. unfold system_ok in X. destruct (scope y) as [c|]; [apply (lv_net _ _ _ _ X)|apply X].
Qed.

(** The dispatch gate. Without an activation no history writes a mailbox
    control or an SRAM word; and once the scope has an error, is quiesced or
    has written the reset, no later history does. *)
Theorem mailbox_gate p s es : performs (lifetime p s es) (fun y tr =>
  (Activate ∉ es -> Forall silent tr) /\
  (forall c, scope y = Some c -> closed c -> forall es', performs (system_run y es') (fun _ tr' => Forall silent tr'))).
Proof.
  assert (H1 : performs (lifetime p s es) (fun _ tr => Activate ∉ es -> Forall silent tr)).
  { destruct (decide (Activate ∈ es)) as [X|X]; [eapply performs_impl; [apply lifetime_ok|]; intros; contradiction|]. eapply performs_impl; [apply (lifetime_silent p s es X)|auto]. }
  eapply performs_impl; [apply performs_and; [exact H1|apply lifetime_ok]|]. cbn beta. intros y tr [A B]. split; [exact A|]. intros c Ec Hc es'.
  eapply performs_impl; [apply (system_run_shut true es' y tr); [discriminate| |exact B]|intros y' tr' [_ S]; exact S]. intros c' E. rewrite Ec in E. now injection E as <-.
Qed.

(** Mailbox transfers. A submission that succeeds wrote the whole slot of
    its channel in order and then rang exactly its doorbell, one that fails
    rang none. The interrupt thread either delivers nothing, or it first reads,
    then acknowledges exactly the pending messages, and hands each bound
    channel the words of its slot; reply channels must have a command in
    flight, and are free afterwards. *)
Theorem mailbox_transfers c client i ws :
  performs (mt6878_gpueb_reset_trysend c client (u32 i) (Some ws)) (fun p s => if p.1 =? 0 then submits (u32 i) ws s else no_doorbell s) /\
  performs (mailbox_irq_thread c) (fun p s => delivers c p.2 s \/ forall i, tally (acked i) s = 0 /\ tally (received i) s = 0).
Proof. split; [apply trysend_order, u32_range|apply thread_order]. Qed.
