(* ===== verification/Segments.v ===== *)
(** * GPUEB firmware segments: [gpu/uboot-segments/tetris_gpueb_segments.c]

    The inspector of an authenticated GPUEB image: MediaTek partition framing
    or a static RISC-V ELF. The image is attacker-shaped input, so a read
    outside the buffer is an outcome of its own ([OutOfBounds]) and so is a
    loop that does not end ([OutOfFuel]); the theorems rule both out. *)

From S2P Require Import Prelude.

Abbreviation TETRIS_GPUEB_MAX_SEGMENTS := 16 (only parsing).

Inductive segment_format : Type :=
| TETRIS_GPUEB_SEGMENTS_UNKNOWN
| TETRIS_GPUEB_SEGMENTS_RISCV_ELF32
| TETRIS_GPUEB_SEGMENTS_RISCV_ELF64
| TETRIS_GPUEB_SEGMENTS_MTK_PT.

Record gpueb_segment : Type := Segment {
  file_offset : Z;
  file_bytes : Z;
  memory_offset : Z;
  memory_bytes : Z;
  flags : Z;
  pt_id : Z;
  pt_alignment : Z
}.
(** [segments] lists the first [count] slots; the others are zero. *)
Record segment_info : Type := SegmentInfo {
  format : segment_format;
  count : Z;
  memory_span : Z;
  entry_offset : Z;
  trailer_bytes : Z;
  segments : list gpueb_segment
}.
Definition zero_info : segment_info := SegmentInfo TETRIS_GPUEB_SEGMENTS_UNKNOWN 0 0 0 0 [].
(** [sizeof(struct tetris_gpueb_segment_info)] *)
Definition sizeof_info : Z := 468.

(** ** Outcomes *)

Inductive outcome (A : Type) : Type :=
| Value (a : A)
| Error (e : Z)
| OutOfBounds
| OutOfFuel.
Arguments Value {A} _.
Arguments Error {A} _.
Arguments OutOfBounds {A}.
Arguments OutOfFuel {A}.
#[export] Instance outcome_ret : MRet outcome := fun A a => Value a.
#[export] Instance outcome_bind : MBind outcome := fun A B k m =>
  match m with Value a => k a | Error e => Error e | OutOfBounds => OutOfBounds | OutOfFuel => OutOfFuel end.
Definition require (b : bool) : outcome unit := if b then Value tt else Error (- EINVAL).

(** ** Helpers *)

(** The [n]-byte little-endian word at [p + at_]. *)
Definition little (p : list Z) (at_ n : Z) : outcome Z :=
  if (0 <=? at_) && (at_ + n <=? len p)
  then Value (foldl (fun value i => Z.lor value (Z.shiftl (byte_at p (at_ + Z.of_nat i)) (8 * Z.of_nat i)))
                0 (seq 0 (Z.to_nat n)))
  else OutOfBounds.

Definition within (offset length size : Z) : bool := (offset <=? size) && (length <=? u64 (size - offset)).
Definition intersects (a na b nb : Z) : bool :=
  negb (na =? 0) && negb (nb =? 0) && (if a <=? b then b - a <? na else a - b <? nb).

(** ** Partition framing *)

Definition pt_magic : Z := 0x58901690.

(** The record loop: final offset and the segments found. *)
Fixpoint pt_loop (fuel : nat) (p : list Z) (bytes offset : Z) (segs : list gpueb_segment)
    : outcome (Z * list gpueb_segment) :=
  match fuel with
  | O => OutOfFuel
  | S fuel =>
    if u64 (bytes - offset) <? 24 then mret (offset, segs)
    else
    magic ← little p offset 4;
    if negb (magic =? pt_magic) then mret (offset, segs)
    else
    _ ← require (negb (len segs =? TETRIS_GPUEB_MAX_SEGMENTS));
    hdr ← little p (offset + 4) 4;
    _ ← require (hdr =? 24);
    zero ← little p (offset + 20) 4;
    _ ← require (zero =? 0);
    length ← little p (offset + 8) 4;
    alignment ← little p (offset + 12) 4;
    id ← little p (offset + 16) 4;
    _ ← require (negb ((length =? 0) || (alignment =? 0) || (0x10000 <? alignment)
                       || negb (Z.land alignment (u32 (alignment - 1)) =? 0)
                       || (u64 (u64 (bytes - offset) - 24) <? length)));
    let aligned := Z.ldiff (u64 (u64 (length + alignment) - 1)) (u32 (alignment - 1)) in
    _ ← require (negb (u64 (u64 (bytes - offset) - 24) <? aligned));
    pt_loop fuel p bytes (u64 (offset + u64 (24 + aligned)))
      (segs ++ [Segment (u32 (offset + 24)) (u32 length) 0 0 0 id alignment])
  end.

Definition hex_digit (b : Z) : bool := ((48 <=? b) && (b <=? 57)) || ((97 <=? b) && (b <=? 102)).

(** [p[i]] with its bounds. *)
Definition at_byte (p : list Z) (i : Z) : outcome Z :=
  if (0 <=? i) && (i <? len p) then Value (byte_at p i) else OutOfBounds.
(** The loop over the hexadecimal trailer from [i]. *)
Fixpoint hex_loop (n : nat) (p : list Z) (i : Z) : outcome unit :=
  match n with
  | O => mret tt
  | S n => b ← at_byte p i; _ ← require (hex_digit b); hex_loop n p (i + 1)
  end.

Definition inspect_pt (p : list Z) (bytes : Z) : outcome segment_info :=
  r ← pt_loop 17 p bytes 0 [];
  let '(offset, segs) := r in
  _ ← require (negb (len segs =? 0));
  trailer ←
    (if negb (offset =? bytes) then
       _ ← require (u64 (bytes - offset) =? 43);
       e ← at_byte p offset; n ← at_byte p (offset + 1); d ← at_byte p (offset + 2);
       _ ← require ((e =? 69) && (n =? 78) && (d =? 68));
       _ ← hex_loop (Z.to_nat (bytes - (offset + 3))) p (offset + 3);
       mret 43
     else mret 0);
  mret (SegmentInfo TETRIS_GPUEB_SEGMENTS_MTK_PT (len segs) 0 0 trailer segs).

(** ** ELF *)

Record load : Type := Load { file : Z; filesz : Z; addr : Z; memsz : Z; lflags : Z }.
Record elf_state : Type := ElfState { loads : list load; base : Z; limit : Z; entry_found : bool }.

(** The acceptance test of one loadable header. *)
Definition load_ok (cls bytes : Z) (l : load) (align : Z) : bool :=
  negb ((memsz l =? 0) || (memsz l <? filesz l) || (0x40000 <? memsz l) || (UINT64_MAX - memsz l <? addr l)
        || ((cls =? 1) && (0x100000000 <? u64 (addr l + memsz l)))
        || negb (within (file l) (filesz l) bytes) || (Z.land (lflags l) 4 =? 0)
        || negb (Z.ldiff (lflags l) 7 =? 0)
        || ((1 <? align) && (negb (Z.land align (u64 (align - 1)) =? 0) || (0x10000 <? align)
                             || negb (Z.land (addr l) (u64 (align - 1)) =? Z.land (file l) (u64 (align - 1)))))).

Definition clashes (l k : load) : bool :=
  intersects (addr l) (memsz l) (addr k) (memsz k) || intersects (file l) (filesz l) (file k) (filesz k).

(** One program header at [h]. *)
Definition elf_header (p : list Z) (bytes cls entry h : Z) (s : elf_state) : outcome elf_state :=
  let w := if cls =? 1 then 4 else 8 in
  type ← little p h 4;
  if type =? 0 then mret s
  else
  _ ← require (type =? 1);
  off ← little p (h + (if cls =? 1 then 4 else 8)) w;
  paddr ← little p (h + (if cls =? 1 then 12 else 24)) w;
  vaddr ← little p (h + (if cls =? 1 then 8 else 16)) w;
  _ ← require (paddr =? vaddr);
  fsz ← little p (h + (if cls =? 1 then 16 else 32)) w;
  msz ← little p (h + (if cls =? 1 then 20 else 40)) w;
  fl ← little p (h + (if cls =? 1 then 24 else 4)) 4;
  align ← little p (h + (if cls =? 1 then 28 else 48)) w;
  let l := Load off fsz paddr msz fl in
  _ ← require (load_ok cls bytes l align);
  _ ← require (negb (existsb (clashes l) (loads s)));
  mret (ElfState (loads s ++ [l]) (if paddr <? base s then paddr else base s)
          (if limit s <? u64 (paddr + msz) then u64 (paddr + msz) else limit s)
          (entry_found s || (negb (Z.land fl 1 =? 0) && (paddr <=? entry) && (entry - paddr <? fsz)))).

(** The headers [i .. i + n). *)
Fixpoint elf_loop (n : nat) (p : list Z) (bytes cls entry phoff phsize i : Z) (s : elf_state) : outcome elf_state :=
  match n with
  | O => mret s
  | S n =>
    s ← elf_header p bytes cls entry (phoff + i * phsize) s;
    elf_loop n p bytes cls entry phoff phsize (i + 1) s
  end.

Definition elf_segment (base : Z) (l : load) : gpueb_segment :=
  Segment (u32 (file l)) (u32 (filesz l)) (u32 (u64 (addr l - base))) (u32 (memsz l)) (u32 (lflags l)) 0 0.

Definition inspect_elf (p : list Z) (bytes : Z) : outcome segment_info :=
  _ ← require (negb (bytes <? 16));
  cls ← at_byte p 4; data ← at_byte p 5; version ← at_byte p 6;
  _ ← require (((cls =? 1) || (cls =? 2)) && (data =? 1) && (version =? 1));
  let ehsize := if cls =? 1 then 52 else 64 in
  let phsize := if cls =? 1 then 32 else 56 in
  let w := if cls =? 1 then 4 else 8 in
  _ ← require (negb (bytes <? ehsize));
  type ← little p 16 2;
  machine ← little p 18 2;
  ver ← little p 20 4;
  eh ← little p (if cls =? 1 then 40 else 52) 2;
  ph ← little p (if cls =? 1 then 42 else 54) 2;
  _ ← require ((type =? 2) && (machine =? 243) && (ver =? 1) && (eh =? ehsize) && (ph =? phsize));
  entry ← little p 24 w;
  phoff ← little p (if cls =? 1 then 28 else 32) w;
  phnum ← little p (if cls =? 1 then 44 else 56) 2;
  _ ← require (negb ((phnum =? 0) || (TETRIS_GPUEB_MAX_SEGMENTS <? phnum) || (phoff <? ehsize)
                     || negb (within phoff (u64 (phnum * phsize)) bytes)));
  s ← elf_loop (Z.to_nat phnum) p bytes cls entry phoff phsize 0 (ElfState [] UINT64_MAX 0 false);
  _ ← require (negb ((len (loads s) =? 0) || negb (entry_found s) || (0x40000 <? u64 (limit s - base s))));
  mret (SegmentInfo (if cls =? 1 then TETRIS_GPUEB_SEGMENTS_RISCV_ELF32 else TETRIS_GPUEB_SEGMENTS_RISCV_ELF64)
          (len (loads s)) (u32 (u64 (limit s - base s))) (u32 (u64 (entry - base s))) 0
          (elf_segment (base s) <$> loads s)).

(** Status (0 or a negative error) and [*out] afterwards, or a bad outcome. *)
Definition tetris_gpueb_inspect_segments (authenticated : ptr (list Z)) (bytes : Z) (out : ptr segment_info)
    : outcome (Z * segment_info) :=
  let p := pointee authenticated in
  let input := Prelude.addr authenticated in
  let output := Prelude.addr out in
  let finish (m : outcome segment_info) :=
    match m with
    | Value i => Value (0, i)
    | Error e => Value (e, pointee out)
    | OutOfBounds => OutOfBounds
    | OutOfFuel => OutOfFuel
    end in
  if null authenticated || null out || (bytes =? 0) || (0x100000 <? bytes) || (UINT64_MAX - input <? bytes)
     || (UINT64_MAX - output <? sizeof_info)
     || ((input <? output + sizeof_info) && (output <? input + bytes))
  then Value (- EINVAL, pointee out)
  else
  if (4 <=? bytes) && (match little p 0 4 with Value m => m =? pt_magic | _ => false end) then finish (inspect_pt p bytes)
  else if (bytes <? 4) || negb ((byte_at p 0 =? 0x7f) && (byte_at p 1 =? 69) && (byte_at p 2 =? 76) && (byte_at p 3 =? 70))
  then Value (0, zero_info)
  else finish (inspect_elf p bytes).

(** ** Outcomes that are values or errors *)

Definition ok {A} (m : outcome A) (Q : A -> Prop) : Prop :=
  match m with Value a => Q a | Error e => e = - EINVAL | OutOfBounds | OutOfFuel => False end.

Lemma ok_bind {A B} (m : outcome A) (k : A -> outcome B) (P : A -> Prop) (Q : B -> Prop) :
  ok m P -> (forall a, P a -> ok (k a) Q) -> ok (m ≫= k) Q.
Proof. destruct m; cbn; auto. Qed.
Lemma ok_require {B} b (k : unit -> outcome B) (Q : B -> Prop) :
  (b = true -> ok (k tt) Q) -> ok (require b ≫= k) Q.
Proof. intros Hk. destruct b; cbn; [now apply Hk|lia]. Qed.
Lemma ok_ret {A} (a : A) (Q : A -> Prop) : Q a -> ok (mret a) Q.
Proof. auto. Qed.
Lemma ok_if {A} (b : bool) (m m' : outcome A) (Q : A -> Prop) :
  (b = true -> ok m Q) -> (b = false -> ok m' Q) -> ok (if b then m else m') Q.
Proof. destruct b; auto. Qed.

Section Image.
Context (p : list Z) (bytes : Z).
Context (Hlen : len p = bytes) (Hbytes : 0 < bytes <= 0x100000) (Hok : bytes_ok p).

Lemma little_range_nat at_ m : 0 <= foldl (fun value i =>
    Z.lor value (Z.shiftl (byte_at p (at_ + Z.of_nat i)) (8 * Z.of_nat i))) 0 (seq 0 m) < 2 ^ (8 * Z.of_nat m).
Proof.
  induction m as [|m IH]; [change (2 ^ (8 * Z.of_nat 0)) with 1; cbn [seq foldl]; lia|].
  rewrite seq_S, foldl_app. cbn [foldl]. set (v := foldl _ 0 (seq 0 m)) in *. rewrite Nat.add_0_l.
  pose proof (byte_at_u8 p (at_ + Z.of_nat m) Hok) as Hb. unfold is_u8 in Hb.
  rewrite lor_shiftl_add by lia. replace (8 * Z.of_nat (S m)) with (8 * Z.of_nat m + 8) by lia.
  rewrite Z.pow_add_r by lia. change (2 ^ 8) with 256. nia.
Qed.
Lemma little_range at_ n : 0 <= n -> 0 <= foldl (fun value i =>
    Z.lor value (Z.shiftl (byte_at p (at_ + Z.of_nat i)) (8 * Z.of_nat i))) 0 (seq 0 (Z.to_nat n)) < 2 ^ (8 * n).
Proof. intros Hn. pose proof (little_range_nat at_ (Z.to_nat n)) as H. now rewrite Z2Nat.id in H. Qed.
Lemma ok_little {B} at_ n (k : Z -> outcome B) (Q : B -> Prop) : 0 <= n -> 0 <= at_ -> at_ + n <= bytes ->
  (forall v, 0 <= v < 2 ^ (8 * n) -> ok (k v) Q) -> ok (little p at_ n ≫= k) Q.
Proof.
  intros Hn Ha Hb Hk. unfold little. replace ((0 <=? at_) && (at_ + n <=? len p)) with true by lia.
  cbn. apply Hk. now apply little_range.
Qed.
Lemma ok_at_byte {B} i (k : Z -> outcome B) (Q : B -> Prop) : 0 <= i < bytes ->
  (forall v, is_u8 v -> ok (k v) Q) -> ok (at_byte p i ≫= k) Q.
Proof.
  intros Hi Hk. unfold at_byte. replace ((0 <=? i) && (i <? len p)) with true by lia. cbn. apply Hk. now apply byte_at_u8.
Qed.

(** ** Partition framing *)

Lemma power_of_two a : 0 < a -> Z.land a (a - 1) = 0 -> exists k, 0 <= k /\ a = 2 ^ k.
Proof.
  intros Ha Hl. exists (Z.log2 a). split; [apply Z.log2_nonneg|].
  destruct (Z.log2_spec a Ha) as [Hlo Hhi]. rewrite Z.pow_succ_r in Hhi by apply Z.log2_nonneg.
  destruct (Z.eq_dec a (2 ^ Z.log2 a)) as [|Hne]; [assumption|exfalso].
  assert (Hbit : Z.testbit (Z.land a (a - 1)) (Z.log2 a) = true).
  { rewrite Z.land_spec, Z.bit_log2 by lia. replace (Z.log2 a) with (Z.log2 (a - 1)); [apply Z.bit_log2; lia|].
    apply Z.log2_unique; [apply Z.log2_nonneg|]. rewrite Z.pow_succ_r by apply Z.log2_nonneg. lia. }
  rewrite Hl, Z.bits_0 in Hbit. discriminate.
Qed.
(** Rounding up to an alignment never shrinks and is bounded. *)
Lemma round_up n a : 0 < a -> Z.land a (a - 1) = 0 -> 0 <= n ->
  n <= Z.ldiff (n + a - 1) (a - 1) /\ Z.ldiff (n + a - 1) (a - 1) <= n + a - 1.
Proof.
  intros Ha Hl Hn. destruct (power_of_two a Ha Hl) as (k & Hk & ->).
  replace (2 ^ k - 1) with (Z.ones k) by (rewrite Z.ones_equiv; lia).
  rewrite Z.ldiff_ones_r, Z.shiftr_div_pow2, Z.shiftl_mul_pow2 by assumption.
  pose proof (Z.div_mod (n + 2 ^ k - 1) (2 ^ k)). pose proof (Z.mod_pos_bound (n + 2 ^ k - 1) (2 ^ k)). lia.
Qed.

Definition pt_ok (offset : Z) (segs : list gpueb_segment) : Prop :=
  Forall (fun s => 0 < file_bytes s /\ 24 <= file_offset s /\ file_offset s + file_bytes s <= offset) segs /\
  ForallOrdPairs (fun a b => file_offset a + file_bytes a <= file_offset b) segs.

Lemma pt_push offset segs s offset' : pt_ok offset segs -> 0 <= offset ->
  file_offset s = offset + 24 -> 0 < file_bytes s -> file_offset s + file_bytes s <= offset' -> pt_ok offset' (segs ++ [s]).
Proof.
  intros [Hf Hp] Ho Hs Hb He. split.
  - apply Forall_app. split; [|repeat constructor; lia]. eapply Forall_impl; [exact Hf|]. cbn. lia.
  - apply ordpairs_snoc; [assumption|]. eapply Forall_impl; [exact Hf|]. cbn. lia.
Qed.

Lemma pt_loop_ok fuel : forall offset segs, 0 <= offset <= bytes -> pt_ok offset segs ->
  len segs <= 16 -> 17 <= Z.of_nat fuel + len segs ->
  ok (pt_loop fuel p bytes offset segs) (fun r => 0 <= r.1 <= bytes /\ pt_ok r.1 r.2 /\ len r.2 <= 16).
Proof.
  induction fuel as [|fuel IH]; intros offset segs Ho Hpt Hc Hfuel; [lia|]. cbn [pt_loop].
  rewrite (u64_id (bytes - offset)) by (unfold is_u64; lia).
  apply ok_if; intros G; [now apply ok_ret|]. apply ok_little; [lia..|]. intros magic _.
  apply ok_if; intros _; [now apply ok_ret|]. apply ok_require; intros Hcnt.
  apply ok_little; [lia..|]. intros hdr _. apply ok_require; intros _.
  apply ok_little; [lia..|]. intros zero _. apply ok_require; intros _.
  apply ok_little; [lia..|]. intros length Hlength. apply ok_little; [lia..|]. intros alignment Ha.
  apply ok_little; [lia..|]. intros id _. change (2 ^ (8 * 4)) with 4294967296 in *.
  rewrite (u64_id (bytes - offset - 24)) by (unfold is_u64; lia).
  apply ok_require; intros G2. assert (Hal : 1 <= alignment <= 65536 /\ 1 <= length <= bytes - offset - 24) by lia.
  rewrite (u32_id (alignment - 1)) in * by (unfold is_u32; lia).
  rewrite (u64_id (length + alignment)), (u64_id (length + alignment - 1)) by (unfold is_u64; lia).
  destruct (round_up length alignment) as [Hr1 Hr2]; [lia..|].
  set (aligned := Z.ldiff (length + alignment - 1) (alignment - 1)) in *. cbv zeta.
  apply ok_require; intros G3. rewrite (u64_id (24 + aligned)), (u64_id (offset + (24 + aligned))) by (unfold is_u64; lia).
  apply IH; [lia| |lens|lens].
  eapply pt_push; [exact Hpt|lia|cbn [file_offset file_bytes]; rewrite ?u32_id by (unfold is_u32; lia); lia..].
Qed.

Lemma hex_loop_ok n : forall i, 0 <= i -> i + Z.of_nat n <= bytes -> ok (hex_loop n p i) (fun _ => True).
Proof.
  induction n as [|n IH]; intros i Hi Hn; [exact I|]. cbn [hex_loop]. apply ok_at_byte; [lia|]. intros b _.
  apply ok_require; intros _. apply IH; lia.
Qed.

Definition pt_good (i : segment_info) : Prop :=
  format i = TETRIS_GPUEB_SEGMENTS_MTK_PT /\ 1 <= count i <= 16 /\ count i = len (segments i) /\
  Forall (fun s => 0 < file_bytes s /\ 24 <= file_offset s /\ file_offset s + file_bytes s <= bytes) (segments i) /\
  ForallOrdPairs (fun a b => file_offset a + file_bytes a <= file_offset b) (segments i).

Lemma inspect_pt_ok : ok (inspect_pt p bytes) pt_good.
Proof.
  unfold inspect_pt. eapply ok_bind.
  - apply (pt_loop_ok 17 0 []); [lia|split; constructor|rewrite len_nil; lia|rewrite len_nil; lia].
  - intros [offset segs] (Ho & [Hf Hp] & Hc). cbn [fst snd] in *. apply ok_require; intros Hne.
    eapply ok_bind with (P := fun _ => True).
    + apply ok_if; intros E; [|now apply ok_ret]. rewrite u64_id by (unfold is_u64; lia).
      apply ok_require; intros H43. do 3 (apply ok_at_byte; [lia|]; intros ? _). apply ok_require; intros _.
      eapply ok_bind; [apply hex_loop_ok; lia|]. intros _ _. now apply ok_ret.
    + intros trailer _. apply ok_ret. pose proof (len_nonneg segs). repeat split; cbn; try lia; [|assumption].
      eapply Forall_impl; [exact Hf|]. cbn. lia.
Qed.

(** ** ELF *)

Definition load_in (l : load) : Prop :=
  0 <= file l /\ 0 <= filesz l <= memsz l /\ 0 < memsz l <= 0x40000 /\ 0 <= addr l /\ addr l + memsz l <= UINT64_MAX /\
  file l + filesz l <= bytes /\ 0 <= lflags l < 2 ^ 32.
Definition loads_apart (l k : load) : Prop :=
  (addr l + memsz l <= addr k \/ addr k + memsz k <= addr l) /\
  (filesz l = 0 \/ filesz k = 0 \/ file l + filesz l <= file k \/ file k + filesz k <= file l).
(** The scan state after some headers. *)
Definition elf_inv (entry : Z) (s : elf_state) : Prop :=
  Forall load_in (loads s) /\ ForallOrdPairs loads_apart (loads s) /\
  Forall (fun l => base s <= addr l /\ addr l + memsz l <= limit s) (loads s) /\
  0 <= base s <= UINT64_MAX /\ 0 <= limit s <= UINT64_MAX /\
  (entry_found s = true -> Exists (fun l => Z.land (lflags l) 1 <> 0 /\ addr l <= entry < addr l + filesz l) (loads s)).

Lemma load_ok_in cls l align : is_u64 (file l) -> is_u64 (filesz l) -> is_u64 (addr l) -> is_u64 (memsz l) ->
  0 <= lflags l < 2 ^ 32 -> load_ok cls bytes l align = true -> load_in l.
Proof.
  intros H1 H2 H3 H4 H5 H. unfold load_ok in H. apply negb_true_iff in H. unfold within in H.
  rewrite !orb_false_iff, negb_false_iff in H. unfold load_in, is_u64 in *.
  assert (Hw : file l <= bytes) by lia. rewrite (u64_id (bytes - file l)) in H by (unfold is_u64; lia). lia.
Qed.
Lemma intersects_apart a na b nb : 0 <= na -> 0 <= nb ->
  intersects a na b nb = false -> na = 0 \/ nb = 0 \/ a + na <= b \/ b + nb <= a.
Proof. unfold intersects. intros ? ? H. destruct (Z.leb_spec a b); lia. Qed.
Lemma clashes_apart l k : load_in l -> load_in k -> clashes l k = false -> loads_apart k l.
Proof.
  intros Hl Hk H. unfold clashes in H. apply orb_false_iff in H as [H1 H2]. unfold load_in in *.
  apply intersects_apart in H1; [|lia..]. apply intersects_apart in H2; [|lia..]. unfold loads_apart. lia.
Qed.

Lemma elf_push entry s l : elf_inv entry s -> load_in l -> existsb (clashes l) (loads s) = false ->
  elf_inv entry (ElfState (loads s ++ [l]) (if addr l <? base s then addr l else base s)
    (if limit s <? addr l + memsz l then addr l + memsz l else limit s)
    (entry_found s || (negb (Z.land (lflags l) 1 =? 0) && (addr l <=? entry) && (entry - addr l <? filesz l)))).
Proof.
  intros (Hin & Hap & Hbl & Hb & Hlim & He) Hl Hc. unfold load_in in Hl.
  assert (Hnew : base (ElfState (loads s ++ [l]) (if addr l <? base s then addr l else base s) 0 true) <= base s /\
    (if addr l <? base s then addr l else base s) <= addr l) by (cbn; destruct (Z.ltb_spec (addr l) (base s)); lia).
  assert (Hnl : limit s <= (if limit s <? addr l + memsz l then addr l + memsz l else limit s) <= UINT64_MAX /\
    addr l + memsz l <= (if limit s <? addr l + memsz l then addr l + memsz l else limit s))
    by (destruct (Z.ltb_spec (limit s) (addr l + memsz l)); lia).
  unfold elf_inv. cbn [loads base limit entry_found] in *. split; [|split; [|split; [|split; [|split]]]].
  - apply Forall_app. split; [assumption|repeat constructor; assumption || lia].
  - apply ordpairs_snoc; [assumption|]. apply Forall_forall. intros k Hk. apply clashes_apart.
    + exact Hl.
    + now apply (proj1 (Forall_forall _ _) Hin).
    + destruct (clashes l k) eqn:E; [|reflexivity]. rewrite <- Hc. symmetry. apply existsb_exists.
      exists k. split; [now apply list_elem_of_In|exact E].
  - apply Forall_app. split; [|repeat constructor; lia]. eapply Forall_impl; [exact Hbl|]. cbn. lia.
  - destruct (Z.ltb_spec (addr l) (base s)); lia.
  - lia.
  - intros Hf. apply Exists_app. destruct (entry_found s); [left; now apply He|right]. constructor. cbn [orb] in Hf. lia.
Qed.

Lemma elf_header_ok cls entry h s : cls = 1 \/ cls = 2 -> elf_inv entry s -> 0 <= h ->
  h + (if cls =? 1 then 32 else 56) <= bytes -> 0 <= entry <= UINT64_MAX ->
  ok (elf_header p bytes cls entry h s) (fun s' => elf_inv entry s' /\ len (loads s') <= len (loads s) + 1).
Proof.
  intros Hcls Hi Hh Hfit He. unfold elf_header. cbv zeta. set (w := if cls =? 1 then 4 else 8).
  assert (Hw : 0 <= w <= 8 /\ 2 ^ (8 * w) <= 18446744073709551616).
  { unfold w. destruct Hcls as [-> | ->]; vm_compute; repeat split; congruence. }
  assert (Hrd : forall {B} k n (c : Z -> outcome B) Q, 0 <= k -> 0 <= n -> k + n <= (if cls =? 1 then 32 else 56) ->
    (forall v, 0 <= v < 2 ^ (8 * n) -> ok (c v) Q) -> ok (little p (h + k) n ≫= c) Q)
    by (intros; apply ok_little; [lia..|assumption]).
  replace h with (h + 0) at 1 by lia.
  apply Hrd; [lia|lia|destruct (cls =? 1); lia|]. intros type _.
  apply ok_if; intros _; [apply ok_ret; split; [exact Hi|lia]|]. apply ok_require; intros _.
  apply Hrd; [unfold w; destruct (cls =? 1); lia..|]. intros off Hoff.
  apply Hrd; [unfold w; destruct (cls =? 1); lia..|]. intros paddr Hpa.
  apply Hrd; [unfold w; destruct (cls =? 1); lia..|]. intros vaddr _. apply ok_require; intros _.
  apply Hrd; [unfold w; destruct (cls =? 1); lia..|]. intros fsz Hfs.
  apply Hrd; [unfold w; destruct (cls =? 1); lia..|]. intros msz Hms.
  apply Hrd; [destruct (cls =? 1); lia..|]. intros fl Hfl.
  apply Hrd; [unfold w; destruct (cls =? 1); lia..|]. intros align _.
  apply ok_require; intros Hlk. apply ok_require; intros Hcl. apply ok_ret. apply negb_true_iff in Hcl.
  assert (Hin : load_in (Load off fsz paddr msz fl))
    by (apply (load_ok_in cls _ align); try assumption; unfold is_u64; cbn; lia).
  unfold load_in in Hin. cbn in Hin. rewrite u64_id by (unfold is_u64; lia).
  split; [exact (elf_push entry s (Load off fsz paddr msz fl) Hi Hin Hcl)|cbn; lens].
Qed.

Lemma elf_loop_ok cls entry phoff n : forall i s, cls = 1 \/ cls = 2 -> elf_inv entry s -> 0 <= entry <= UINT64_MAX ->
  let phsize := if cls =? 1 then 32 else 56 in
  0 <= phoff -> 0 <= i -> phoff + (i + Z.of_nat n) * phsize <= bytes ->
  ok (elf_loop n p bytes cls entry phoff phsize i s)
    (fun s' => elf_inv entry s' /\ len (loads s') <= len (loads s) + Z.of_nat n).
Proof.
  induction n as [|n IH]; intros i s Hcls Hi He phsize Hp Hi0 Hfit; cbn [elf_loop]; [apply ok_ret; split; [exact Hi|lia]|].
  assert (Hps : 32 <= phsize <= 56) by (unfold phsize; destruct (cls =? 1); lia).
  eapply ok_bind; [apply elf_header_ok; fold phsize; try assumption; nia|]. intros s1 [Hi1 Hc1].
  assert (Hgo : ok (elf_loop n p bytes cls entry phoff phsize (i + 1) s1)
    (fun s' => elf_inv entry s' /\ len (loads s') <= len (loads s1) + Z.of_nat n)) by (apply IH; try assumption; nia).
  destruct (elf_loop n p bytes cls entry phoff phsize (i + 1) s1); cbn in *; try assumption. destruct Hgo. split; [assumption|lia].
Qed.

Definition elf_good (i : segment_info) : Prop :=
  (format i = TETRIS_GPUEB_SEGMENTS_RISCV_ELF32 \/ format i = TETRIS_GPUEB_SEGMENTS_RISCV_ELF64) /\
  1 <= count i <= 16 /\ count i = len (segments i) /\ 0 < memory_span i <= 0x40000 /\
  Forall (fun s => 0 <= file_offset s /\ file_offset s + file_bytes s <= bytes /\ 0 <= memory_offset s /\
    0 <= file_bytes s <= memory_bytes s /\ 0 < memory_bytes s /\ memory_offset s + memory_bytes s <= memory_span i) (segments i) /\
  ForallOrdPairs (fun a b =>
    (memory_offset a + memory_bytes a <= memory_offset b \/ memory_offset b + memory_bytes b <= memory_offset a) /\
    (file_bytes a = 0 \/ file_bytes b = 0 \/ file_offset a + file_bytes a <= file_offset b \/
     file_offset b + file_bytes b <= file_offset a)) (segments i) /\
  Exists (fun s => Z.land (flags s) 1 <> 0 /\ memory_offset s <= entry_offset i < memory_offset s + file_bytes s) (segments i).

(** Translating the loads to offsets from their base keeps everything apart. *)
Lemma ordpairs_map {A B} (f : A -> B) (R : A -> A -> Prop) (R' : B -> B -> Prop) (P : A -> Prop) l :
  Forall P l -> (forall a b, P a -> P b -> R a b -> R' (f a) (f b)) -> ForallOrdPairs R l -> ForallOrdPairs R' (f <$> l).
Proof.
  intros HP HR Hl. induction Hl as [|a l Ha Hl IH]; [constructor|]. inversion HP; subst. cbn. constructor; [|now apply IH].
  apply Forall_fmap. rewrite Forall_forall in Ha |- *. intros b Hb. cbn. apply HR; auto.
  match goal with H : Forall P l |- _ => now apply (proj1 (Forall_forall _ _) H) end.
Qed.

Lemma elf_result_good cls entry s : cls = 1 \/ cls = 2 -> elf_inv entry s -> 0 <= entry <= UINT64_MAX ->
  1 <= len (loads s) <= 16 -> entry_found s = true -> u64 (limit s - base s) <= 0x40000 ->
  elf_good (SegmentInfo (if cls =? 1 then TETRIS_GPUEB_SEGMENTS_RISCV_ELF32 else TETRIS_GPUEB_SEGMENTS_RISCV_ELF64)
    (len (loads s)) (u32 (u64 (limit s - base s))) (u32 (u64 (entry - base s))) 0 (elf_segment (base s) <$> loads s)).
Proof.
  intros Hcls (Hin & Hap & Hbl & Hb & Hlim & He) Hent Hc Hf Hspan.
  assert (Hex : exists l, In l (loads s) /\ load_in l /\ base s <= addr l /\ addr l + memsz l <= limit s).
  { destruct (loads s) as [|l ls]; [rewrite len_nil in Hc; lia|]. exists l. split; [now left|].
    inversion Hin; subst. inversion Hbl; subst. auto. }
  destruct Hex as (l0 & _ & Hl0 & Hl0b). unfold load_in in Hl0.
  assert (Hsp : u64 (limit s - base s) = limit s - base s) by (apply u64_id; unfold is_u64; lia). rewrite Hsp in *.
  assert (HP : Forall (fun l => load_in l /\ base s <= addr l /\ addr l + memsz l <= limit s) (loads s))
    by (apply Forall_and; split; assumption).
  assert (Hseg : forall l, load_in l /\ base s <= addr l /\ addr l + memsz l <= limit s ->
    elf_segment (base s) l = Segment (file l) (filesz l) (addr l - base s) (memsz l) (lflags l) 0 0).
  { intros l (Hl & H1 & H2). unfold load_in in Hl. unfold elf_segment. rewrite (u64_id (addr l - base s)) by (unfold is_u64; lia).
    rewrite !u32_id by (unfold is_u32; lia). reflexivity. }
  rewrite (u32_id (limit s - base s)) by (unfold is_u32; lia).
  split; [destruct Hcls as [-> | ->]; auto|]. cbn [count segments memory_span entry_offset].
  split; [exact Hc|]. split; [unfold len; now rewrite length_fmap|]. split; [lia|]. split; [|split].
  - apply Forall_fmap. eapply Forall_impl; [exact HP|]. intros l Hl. unfold compose. rewrite (Hseg l Hl).
    destruct Hl as (Hl & ? & ?). unfold load_in in Hl. cbn. lia.
  - eapply ordpairs_map; [exact HP| |exact Hap]. intros a b Ha' Hb' Hab. rewrite (Hseg a Ha'), (Hseg b Hb').
    unfold loads_apart in Hab. cbn. lia.
  - specialize (He Hf). apply Exists_exists in He as (l & Hl & Hfl & Hent').
    assert (Hpl : load_in l /\ base s <= addr l /\ addr l + memsz l <= limit s) by now apply (proj1 (Forall_forall _ _) HP).
    apply Exists_exists. exists (elf_segment (base s) l). split; [apply list_elem_of_fmap; eauto|]. rewrite (Hseg l Hpl). cbn.
    destruct Hpl as (Hpl & ? & ?). unfold load_in in Hpl. rewrite (u64_id (entry - base s)), u32_id by (unfold is_u64, is_u32; lia). lia.
Qed.

Lemma inspect_elf_ok : ok (inspect_elf p bytes) elf_good.
Proof.
  unfold inspect_elf. apply ok_require; intros H16. do 3 (apply ok_at_byte; [lia|]; intros ? _).
  apply ok_require; intros Hcls. rename v into cls. assert (Hc : cls = 1 \/ cls = 2) by lia. clear Hcls. cbv zeta.
  set (ehsize := if cls =? 1 then 52 else 64). set (phsize := if cls =? 1 then 32 else 56). set (w := if cls =? 1 then 4 else 8).
  assert (Hdims : (cls =? 1) = true /\ ehsize = 52 /\ phsize = 32 /\ w = 4 \/ (cls =? 1) = false /\ ehsize = 64 /\ phsize = 56 /\ w = 8)
    by (unfold ehsize, phsize, w; destruct Hc as [-> | ->]; auto).
  assert (Hw : 2 ^ (8 * w) <= 18446744073709551616) by (destruct Hdims as [(_ & _ & _ & ->)|(_ & _ & _ & ->)]; vm_compute; congruence).
  apply ok_require; intros Hfit.
  apply ok_little; [lia..|]. intros type _. apply ok_little; [lia..|]. intros machine _. apply ok_little; [lia..|]. intros ver _.
  apply ok_little; [lia|destruct (cls =? 1); lia..|]. intros eh _.
  apply ok_little; [lia|destruct (cls =? 1); lia..|]. intros ph _. apply ok_require; intros _.
  apply ok_little; [lia..|]. intros entry Hent.
  apply ok_little; [lia|destruct (cls =? 1); lia..|]. intros phoff Hpo.
  apply ok_little; [lia|destruct (cls =? 1); lia..|]. intros phnum Hpn. change (2 ^ (8 * 2)) with 65536 in Hpn.
  apply ok_require; intros Htab. apply negb_true_iff in Htab. rewrite !orb_false_iff, negb_false_iff in Htab.
  unfold within in Htab. rewrite (u64_id (phnum * phsize)), (u64_id (bytes - phoff)) in Htab by (unfold is_u64; lia).
  eapply ok_bind.
  - apply (elf_loop_ok cls entry phoff (Z.to_nat phnum) 0); fold phsize; try assumption; try nia.
    repeat split; cbn; try lia; try constructor.
  - intros s [Hs Hcount]. cbn [loads] in Hcount. rewrite len_nil in Hcount. apply ok_require; intros Hend. apply ok_ret.
    apply elf_result_good; try assumption; try lia. pose proof (len_nonneg (loads s)). lia.
Qed.
End Image.

(** ** The inspector never leaves the image and what it accepts is laid out *)

Definition accepted (bytes : Z) (i : segment_info) : Prop := i = zero_info \/ pt_good bytes i \/ elf_good bytes i.

(** C21. On an image whose buffer has the stated size, the inspector reads no
    byte outside it and terminates: it returns a status. On success the result
    is the unknown format with all fields zero, a partition framing, or an ELF,
    whose segments lie inside the image, are pairwise disjoint in the file (and
    for an ELF in memory, within a span of at most 256 KiB that also holds the
    entry point in an executable segment). Any other status is -EINVAL and
    leaves the caller's structure as it was. *)
Theorem inspect_segments_sound img bytes out :
  len (pointee img) = bytes -> bytes_ok (pointee img) ->
  exists status info, tetris_gpueb_inspect_segments img bytes out = Value (status, info) /\
    (status = 0 /\ accepted bytes info \/ status = - EINVAL /\ info = pointee out).
Proof.
  intros Hlen Hok. unfold tetris_gpueb_inspect_segments. cbv zeta. set (p := pointee img) in *.
  destruct (null img || null out || _ || _ || _ || _ || _) eqn:G; [eauto 10|].
  assert (Hb : 0 < bytes <= 0x100000) by (pose proof (len_nonneg p); lia). clear G.
  assert (Hfin : forall m Q, ok m Q -> (forall i, Q i -> accepted bytes i) -> exists status info,
    match m with Value i => Value (0, i) | Error e => Value (e, pointee out) | OutOfBounds => OutOfBounds | OutOfFuel => OutOfFuel end
      = Value (status, info) /\ (status = 0 /\ accepted bytes info \/ status = - EINVAL /\ info = pointee out)).
  { intros [i|e| |] Q Hm HQ; cbn in Hm; try contradiction; [exists 0, i; auto|exists e, (pointee out); auto]. }
  destruct (_ && match little p 0 4 with _ => _ end); [eapply Hfin; [now apply inspect_pt_ok|unfold accepted; auto]|].
  destruct (_ || negb _); [exists 0, zero_info; unfold accepted; auto|].
  eapply Hfin; [now apply inspect_elf_ok|unfold accepted; auto].
Qed.

(** An ELF32 image with one executable segment, after its headers. *)
Definition witness_elf : list Z :=
  [0x7f; 69; 76; 70; 1; 1; 1] ++ zeros 9 ++ put16 2 ++ put16 243 ++ put32 1 ++ put32 0x1004 ++ put32 52 ++ zeros 8
  ++ put16 52 ++ put16 32 ++ put16 1 ++ zeros 6
  ++ put32 1 ++ put32 84 ++ put32 0x1000 ++ put32 0x1000 ++ put32 8 ++ put32 16 ++ put32 5 ++ put32 4 ++ repeat 0x13 8.
Lemma inspect_segments_sound_witness : exists status info,
  tetris_gpueb_inspect_segments (Ptr 0x1000 witness_elf) 92 (Ptr 0x8000 zero_info) = Value (status, info) /\
  (status = 0 /\ accepted 92 info \/ status = - EINVAL /\ info = zero_info).
Proof.
  apply (inspect_segments_sound (Ptr 0x1000 witness_elf) 92 (Ptr 0x8000 zero_info)); [reflexivity|].
  cbn [pointee]. unfold witness_elf. concrete_bytes.
Defined.
(** The image is accepted, not refused. *)
Example inspect_elf_accepts : tetris_gpueb_inspect_segments (Ptr 0x1000 witness_elf) 92 (Ptr 0x8000 zero_info) =
  Value (0, SegmentInfo TETRIS_GPUEB_SEGMENTS_RISCV_ELF32 1 16 4 0 [Segment 84 8 0 16 5 0 0]).
Proof. vm_compute. reflexivity. Qed.

(** ** Partition framing: writing and inspecting *)

Record pt_record : Type := PtRecord { pid : Z; palign : Z; payload : list Z }.
Definition padded (r : pt_record) : Z := Z.ldiff (len (payload r) + palign r - 1) (palign r - 1).
Definition pt_words (r : pt_record) : list Z := [pt_magic; 24; len (payload r); palign r; pid r; 0].
(** The record as a producer writes it. *)
Definition pt_encode (r : pt_record) : list Z :=
  flat_map put32 (pt_words r) ++ payload r ++ zeros (padded r - len (payload r)).
Fixpoint pt_segments (offset : Z) (rs : list pt_record) : list gpueb_segment :=
  match rs with
  | [] => []
  | r :: rs => Segment (offset + 24) (len (payload r)) 0 0 0 (pid r) (palign r) :: pt_segments (offset + 24 + padded r) rs
  end.
Definition pt_record_ok (r : pt_record) : bool :=
  (0 <? len (payload r)) && (1 <=? palign r) && (palign r <=? 0x10000) && (Z.land (palign r) (palign r - 1) =? 0)
  && (0 <=? pid r) && (pid r <=? UINT32_MAX).
Definition pt_image (rs : list pt_record) (trailer : list Z) : list Z := flat_map pt_encode rs ++ trailer.
(** No trailer, or [END] and forty lower-case hexadecimal digits. *)
Definition trailer_ok (t : list Z) : bool :=
  (len t =? 0) || ((len t =? 43) && (byte_at t 0 =? 69) && (byte_at t 1 =? 78) && (byte_at t 2 =? 68)
                   && forallb hex_digit (skipn 3 t)).

Lemma little_word pre v post : little (pre ++ put32 v ++ post) (len pre) 4 = Value (u32 v).
Proof.
  unfold little. pose proof (len_nonneg pre). pose proof (len_nonneg post).
  replace ((0 <=? len pre) && (len pre + 4 <=? len (pre ++ put32 v ++ post))) with true by lens.
  change (seq 0 (Z.to_nat 4)) with [0; 1; 2; 3]%nat. cbn [foldl].
  assert (Hb : forall k, byte_at (pre ++ put32 v ++ post) (len pre + Z.of_nat k) = nth k (put32 v ++ post) 0).
  { intros k. rewrite byte_at_app_r by lia. unfold byte_at. f_equal. lia. }
  rewrite !Hb. f_equal. transitivity (le_of (put32 v)).
  - unfold put32. cbn [app nth]. pose proof (u8_range v). pose proof (u8_range (Z.shiftr v 8)).
    pose proof (u8_range (Z.shiftr v 16)). pose proof (u8_range (Z.shiftr v 24)). unfold is_u8 in *.
    change (8 * Z.of_nat 0) with 0. change (8 * Z.of_nat 1) with 8. change (8 * Z.of_nat 2) with 16.
    change (8 * Z.of_nat 3) with 24. rewrite Z.shiftl_0_r, Z.lor_0_l.
    rewrite (lor_shiftl_add _ _ 8), (lor_shiftl_add _ _ 16), (lor_shiftl_add _ _ 24) by lia. cbn [le_of]. lia.
  - rewrite put32_le_to, le_of_le_to. reflexivity.
Qed.
Lemma len_flat_put32 ws : len (flat_map put32 ws) = 4 * len ws.
Proof. induction ws as [|w ws IH]; [reflexivity|]. cbn [flat_map]. lens. Qed.
(** The [k]-th word of a header at the end of [pre]. *)
Lemma little_words pre ws post k v : nth_error ws k = Some v ->
  little (pre ++ flat_map put32 ws ++ post) (len pre + 4 * Z.of_nat k) 4 = Value (u32 v).
Proof.
  intros Hk. apply nth_error_split in Hk as (w1 & w2 & -> & <-). rewrite flat_map_app. cbn [flat_map].
  rewrite <- !app_assoc, (app_assoc pre). replace (len pre + _) with (len (pre ++ flat_map put32 w1)); [apply little_word|].
  rewrite len_app, len_flat_put32. reflexivity.
Qed.

(** The loop stops in front of the trailer. *)
Lemma pt_loop_stop fuel pre t segs : trailer_ok t = true -> len (pre ++ t) <= 0x100000 -> (fuel <> 0)%nat ->
  pt_loop fuel (pre ++ t) (len (pre ++ t)) (len pre) segs = Value (len pre, segs).
Proof.
  intros Ht Hb Hf. destruct fuel as [|fuel]; [contradiction|]. cbn [pt_loop]. pose proof (len_nonneg pre). pose proof (len_nonneg t).
  rewrite u64_id by (unfold is_u64; lens). destruct (Z.ltb_spec (len (pre ++ t) - len pre) 24); [reflexivity|].
  unfold trailer_ok in Ht. rewrite len_app in *. assert (Hb0 : byte_at t 0 = 69) by lia. unfold little.
  replace ((0 <=? len pre) && (len pre + 4 <=? len (pre ++ t))) with true by lens.
  change (seq 0 (Z.to_nat 4)) with [0; 1; 2; 3]%nat. cbn [foldl mbind outcome_bind]. 
  destruct (Z.eqb_spec (Z.lor (Z.lor (Z.lor (Z.lor 0 (byte_at (pre ++ t) (len pre + Z.of_nat 0) ≪ (8 * Z.of_nat 0))) (byte_at (pre ++ t) (len pre + Z.of_nat 1) ≪ (8 * Z.of_nat 1))) (byte_at (pre ++ t) (len pre + Z.of_nat 2) ≪ (8 * Z.of_nat 2))) (byte_at (pre ++ t) (len pre + Z.of_nat 3) ≪ (8 * Z.of_nat 3))) pt_magic) as [E|E]; [exfalso|reflexivity].
  apply (f_equal (fun z => Z.testbit z 0)) in E. rewrite !Z.lor_spec, Z.bits_0 in E.
  rewrite (Z.shiftl_spec_low _ (8 * Z.of_nat 1)), (Z.shiftl_spec_low _ (8 * Z.of_nat 2)), (Z.shiftl_spec_low _ (8 * Z.of_nat 3)) in E by lia.
  change (8 * Z.of_nat 0) with 0 in E. rewrite Z.shiftl_0_r, byte_at_app_r in E by lia.
  replace (len pre + Z.of_nat 0 - len pre) with 0 in E by lia. rewrite Hb0 in E. discriminate.
Qed.

Lemma require_true {B} b (k : unit -> outcome B) : b = true -> (require b ≫= k) = k tt.
Proof. now intros ->. Qed.

(** One record. *)
Lemma pt_loop_record fuel pre r rest segs :
  pt_record_ok r = true -> len (pre ++ pt_encode r ++ rest) <= 0x100000 -> len segs < 16 ->
  let p := pre ++ pt_encode r ++ rest in
  pt_loop (S fuel) p (len p) (len pre) segs =
  pt_loop fuel p (len p) (len (pre ++ pt_encode r))
    (segs ++ [Segment (len pre + 24) (len (payload r)) 0 0 0 (pid r) (palign r)]).
Proof.
  intros Hr Hb Hs p. cbn [pt_loop]. pose proof (len_nonneg pre). pose proof (len_nonneg rest). unfold pt_record_ok in Hr.
  destruct (round_up (len (payload r)) (palign r)) as [Hp1 Hp2]; [lia..|]. fold (padded r) in *.
  assert (He : len (pt_encode r) = 24 + padded r)
    by (unfold pt_encode; rewrite !len_app, len_flat_put32, len_zeros by lia; unfold pt_words; lens).
  assert (Hlp : len p = len pre + 24 + padded r + len rest) by (unfold p; rewrite !len_app; lia).
  assert (Hsize : len p <= 0x100000) by exact Hb.
  assert (Hw : forall k v, nth_error (pt_words r) k = Some v -> little p (len pre + 4 * Z.of_nat k) 4 = Value (u32 v)).
  { intros k v Hk. unfold p, pt_encode. rewrite <- app_assoc. now apply little_words. }
  pose proof (Hw 0%nat _ eq_refl) as W0. pose proof (Hw 1%nat _ eq_refl) as W1. pose proof (Hw 2%nat _ eq_refl) as W2.
  pose proof (Hw 3%nat _ eq_refl) as W3. pose proof (Hw 4%nat _ eq_refl) as W4. pose proof (Hw 5%nat _ eq_refl) as W5.
  change (4 * Z.of_nat 0) with 0 in W0. change (4 * Z.of_nat 1) with 4 in W1. change (4 * Z.of_nat 2) with 8 in W2.
  change (4 * Z.of_nat 3) with 12 in W3. change (4 * Z.of_nat 4) with 16 in W4. change (4 * Z.of_nat 5) with 20 in W5.
  rewrite Z.add_0_r in W0. rewrite u32_id in W2, W3, W4 by (unfold is_u32; lia).
  rewrite (u64_id (len p - len pre)), (u64_id (len p - len pre - 24)) by (unfold is_u64; lia).
  replace (len p - len pre <? 24) with false by lia. rewrite W0. cbn [mbind outcome_bind]. cbn [Z.eqb negb].
  change (u32 pt_magic =? pt_magic) with true. cbn [negb]. rewrite require_true by lia.
  rewrite W1. cbn [mbind outcome_bind]. change (require (u32 24 =? 24)) with (Value tt). cbn [mbind outcome_bind].
  rewrite W5. cbn [mbind outcome_bind]. change (require (u32 0 =? 0)) with (Value tt). cbn [mbind outcome_bind].
  rewrite W2, W3, W4. cbn [mbind outcome_bind].
  rewrite (u32_id (palign r - 1)), (u64_id (len (payload r) + palign r)), (u64_id (len (payload r) + palign r - 1))
    by (unfold is_u64, is_u32; lia). fold (padded r).
  rewrite !require_true by lia.
  rewrite !u32_id, !u64_id by (unfold is_u64, is_u32; rewrite ?u64_id by (unfold is_u64; lia); lia).
  now rewrite len_app, He.
Qed.

Lemma pt_loop_records rs : forall fuel pre t segs, forallb pt_record_ok rs = true -> trailer_ok t = true ->
  len (pre ++ pt_image rs t) <= 0x100000 -> len segs + len rs <= 16 -> (length rs < fuel)%nat ->
  pt_loop fuel (pre ++ pt_image rs t) (len (pre ++ pt_image rs t)) (len pre) segs =
  Value (len (pre ++ flat_map pt_encode rs), segs ++ pt_segments (len pre) rs).
Proof.
  induction rs as [|r rs IH]; intros fuel pre t segs Hr Ht Hb Hc Hf.
  - unfold pt_image in *. cbn [flat_map app pt_segments] in *. rewrite !app_nil_r. apply pt_loop_stop; [assumption..|]. cbn in Hf. lia.
  - cbn [forallb] in Hr. apply andb_true_iff in Hr as [Hr Hrs]. destruct fuel as [|fuel]; [lia|]. cbn [length] in Hf.
    unfold pt_image in *. cbn [flat_map] in *. rewrite <- (app_assoc (pt_encode r)) in *. pose proof (len_nonneg rs).
    rewrite pt_loop_record by (assumption || lens). rewrite (app_assoc pre) in *.
    rewrite IH; [|assumption..|lens|lia]. rewrite <- !app_assoc. cbn [pt_segments app].
    replace (len (pre ++ pt_encode r)) with (len pre + 24 + padded r); [reflexivity|].
    unfold pt_record_ok in Hr. destruct (round_up (len (payload r)) (palign r)) as [Hp _]; [lia..|]. fold (padded r) in Hp.
    unfold pt_encode. rewrite !len_app, len_flat_put32, len_zeros by lia. unfold pt_words. lens.
Qed.

Lemma hex_loop_digits digits : forall pre, forallb hex_digit digits = true ->
  hex_loop (length digits) (pre ++ digits) (len pre) = Value tt.
Proof.
  induction digits as [|d digits IH]; intros pre H; [reflexivity|]. cbn [forallb] in H. apply andb_true_iff in H as [Hd Hr].
  cbn [hex_loop length]. unfold at_byte. pose proof (len_nonneg pre). pose proof (len_nonneg digits).
  replace ((0 <=? len pre) && (len pre <? len (pre ++ d :: digits))) with true by lens.
  rewrite byte_at_app_r, Z.sub_diag by lia. change (byte_at (d :: digits) 0) with d. cbn [mbind outcome_bind].
  rewrite require_true by exact Hd. specialize (IH (pre ++ [d]) Hr). rewrite <- app_assoc in IH. cbn [app] in IH.
  now rewrite len_app in IH.
Qed.

Lemma len_pt_segments rs : forall o, len (pt_segments o rs) = len rs.
Proof. induction rs as [|r rs IH]; intros o; [reflexivity|]. cbn [pt_segments]. rewrite !len_cons. now rewrite IH. Qed.

Lemma inspect_pt_image rs t : forallb pt_record_ok rs = true -> 1 <= len rs <= 16 -> trailer_ok t = true ->
  len (pt_image rs t) <= 0x100000 ->
  inspect_pt (pt_image rs t) (len (pt_image rs t)) =
  Value (SegmentInfo TETRIS_GPUEB_SEGMENTS_MTK_PT (len rs) 0 0 (len t) (pt_segments 0 rs)).
Proof.
  intros Hr Hc Ht Hb. unfold inspect_pt.
  pose proof (pt_loop_records rs 17 [] t [] Hr Ht) as Hl. cbn [app] in Hl.
  change (len (@nil Z)) with 0 in Hl. change (len (@nil gpueb_segment)) with 0 in Hl.
  rewrite Hl by (unfold len in *; lia). cbn [mbind outcome_bind]. rewrite require_true by (rewrite len_pt_segments; lia).
  rewrite len_pt_segments. unfold pt_image in *. set (q := flat_map pt_encode rs) in *. unfold trailer_ok in Ht.
  pose proof (len_nonneg q). pose proof (len_nonneg t). rewrite !len_app in *.
  destruct (Z.eqb_spec (len q) (len q + len t)) as [E|E]; [cbn; repeat f_equal; lia|]. cbn [negb].
  assert (H43 : len t = 43) by lia. rewrite u64_id by (unfold is_u64; lia). rewrite require_true by lia.
  assert (Hat : forall k, 0 <= k < 43 -> at_byte (q ++ t) (len q + k) = Value (byte_at t k)).
  { intros k Hk. unfold at_byte. rewrite len_app, byte_at_app_r by lia.
    replace ((0 <=? len q + k) && (len q + k <? len q + len t)) with true by lia. repeat f_equal. lia. }
  pose proof (Hat 0 ltac:(lia)) as Hat0. rewrite Z.add_0_r in Hat0. rewrite Hat0, !Hat by lia. cbn [mbind outcome_bind]. rewrite require_true by lia.
  assert (Hsplit : t = firstn 3 t ++ skipn 3 t) by now rewrite firstn_skipn.
  assert (Hd : len (firstn 3 t) = 3) by (apply (len_take t 3); lia).
  assert (Hds : len (skipn 3 t) = 40) by (pose proof (f_equal len Hsplit) as X; rewrite len_app in X; lia).
  rewrite Hsplit at 2. rewrite app_assoc. replace (len q + 3) with (len (q ++ firstn 3 t)) by (rewrite len_app; lia).
  replace (Z.to_nat (len q + len t - len (q ++ firstn 3 t))) with (length (skipn 3 t)) by (rewrite len_app; unfold len in *; lia).
  rewrite hex_loop_digits by (apply orb_true_iff in Ht as [Ht|Ht]; [lia|now apply andb_true_iff in Ht as [_ Ht]]).
  cbn. now rewrite H43.
Qed.

Lemma pt_image_magic rs t : forallb pt_record_ok rs = true -> 1 <= len rs ->
  little (pt_image rs t) 0 4 = Value (u32 pt_magic) /\ 24 <= len (pt_image rs t).
Proof.
  intros Hr Hc. destruct rs as [|r rs]; [rewrite len_nil in Hc; lia|]. unfold pt_image. cbn [flat_map].
  unfold pt_encode at 1 3. rewrite <- !app_assoc. split; [apply (little_words [] (pt_words r) _ 0); reflexivity|].
  rewrite len_app, len_flat_put32. pose proof (len_nonneg (payload r ++ zeros (padded r - len (payload r)) ++ flat_map pt_encode rs ++ t)).
  unfold pt_words. lens.
Qed.

(** Round trip of the partition framing. A producer's image of one to
    sixteen well-formed records (nonempty payload, power-of-two alignment up to
    64 KiB), each payload padded to its alignment, with or without the END
    trailer, is inspected as exactly those records: the segments name each
    payload's offset, size, identifier and alignment, in order. *)
Theorem pt_roundtrip rs t img out :
  forallb pt_record_ok rs = true -> 1 <= len rs <= 16 -> trailer_ok t = true ->
  pointee img = pt_image rs t -> let bytes := len (pt_image rs t) in bytes <= 0x100000 ->
  null img = false -> null out = false -> Prelude.addr img <= UINT64_MAX - bytes -> Prelude.addr out <= UINT64_MAX - sizeof_info ->
  Prelude.addr img + bytes <= Prelude.addr out \/ Prelude.addr out + sizeof_info <= Prelude.addr img ->
  tetris_gpueb_inspect_segments img bytes out =
  Value (0, SegmentInfo TETRIS_GPUEB_SEGMENTS_MTK_PT (len rs) 0 0 (len t) (pt_segments 0 rs)).
Proof.
  intros Hr Hc Ht Hp bytes Hb Hn1 Hn2 Ha Ho Hd. unfold tetris_gpueb_inspect_segments. cbv zeta. rewrite Hp.
  pose proof (pt_image_magic rs t Hr ltac:(lia)) as [Hm Hs]. fold bytes in Hs. rewrite Hn1, Hn2.
  match goal with |- (if ?b then _ else _) = _ => replace b with false by lia end.
  replace (4 <=? bytes) with true by lia. rewrite Hm. cbn [andb].
  change (u32 pt_magic =? pt_magic) with true. cbv iota. unfold bytes. now rewrite inspect_pt_image.
Qed.

Definition witness_records : list pt_record := [PtRecord 7 16 [1; 2; 3]; PtRecord 9 1 [0xff]].
Definition witness_trailer : list Z := [69; 78; 68] ++ repeat 97 40.
Lemma pt_roundtrip_witness :
  tetris_gpueb_inspect_segments (Ptr 0x1000 (pt_image witness_records witness_trailer)) 108 (Ptr 0x8000 zero_info) =
  Value (0, SegmentInfo TETRIS_GPUEB_SEGMENTS_MTK_PT 2 0 0 43
    [Segment 24 3 0 0 0 7 16; Segment 64 1 0 0 0 9 1]).
Proof.
  apply (pt_roundtrip witness_records witness_trailer (Ptr 0x1000 (pt_image witness_records witness_trailer)) (Ptr 0x8000 zero_info));
    try reflexivity; try (vm_compute; split; congruence); try (vm_compute; congruence). left. vm_compute. congruence.
Defined.
