(* ===== verification/LayoutModel.v ===== *)
(** * Modem memory layout: [modem/drafts/runtime-metadata/layout_model.h]

    The pure layout logic shared by the boot loader and the kernel: splitting
    the modem's memory into annotated blocks, choosing the block that is given
    back, and placing the shared-memory regions. A block array with its count
    is the list of the blocks in use. *)

From S2P Require Import Prelude.

Abbreviation TETRIS_MODEM_MAX_BLOCKS := 32 (only parsing).

Record tetris_modem_block : Type := Block {
  offset : Z;
  size : Z;
  info : Z;
  attributes : Z;
  physical : Z
}.
Abbreviation memory_map := (list tetris_modem_block) (only parsing).

Record tetris_modem_smem_entry : Type := SmemEntry { e_id : Z; e_offset : Z; e_size : Z; e_flags : Z }.
Record tetris_modem_smem_inputs : Type := SmemInputs {
  drdi_version : Z;
  udc_en : Z;
  consys_size : Z;
  nv_cache_size : Z;
  ccb_gear : Z
}.
Record tetris_modem_smem_plan : Type := SmemPlan {
  nc : list tetris_modem_smem_entry;
  cache : list tetris_modem_smem_entry;
  nc_capacity : Z;
  cache_capacity : Z;
  nc_rows : Z;
  cache_rows : Z
}.

(** [word(p + i)] *)
Definition word (p : list Z) (i : Z) : Z :=
  Z.lor (Z.lor (Z.lor (byte_at p i) (Z.shiftl (byte_at p (i + 1)) 8)) (Z.shiftl (byte_at p (i + 2)) 16))
        (Z.shiftl (byte_at p (i + 3)) 24).

Definition contained (offset size total : Z) : bool :=
  negb (size =? 0) && (offset <? total) && (size <=? u32 (total - offset)).

(** ** Splitting *)

(** The pieces [old] is replaced by: what precedes the range, the range with
    the new bits, what follows it. *)
Definition split_parts (old : tetris_modem_block) (off sz inf attr : Z) : list tetris_modem_block :=
  (if negb (off =? offset old)
   then [Block (offset old) (u32 (off - offset old)) (info old) (attributes old) (physical old)] else [])
  ++ [Block off sz (Z.lor (info old) inf) (Z.lor (attributes old) attr) (physical old)]
  ++ (if negb (u32 (off + sz) =? u32 (offset old + size old))
      then [Block (u32 (off + sz)) (u32 (u32 (offset old + size old) - u32 (off + sz))) (info old) (attributes old) (physical old)]
      else []).

(** The loop from some block on; [count] is [map->count]. *)
Fixpoint annotate_loop (count : Z) (rest : memory_map) (off sz inf attr : Z) : Z + memory_map :=
  match rest with
  | [] => inl (- ERANGE)
  | old :: rest =>
    if (off <? offset old) || (size old <=? u32 (off - offset old)) then
      match annotate_loop count rest off sz inf attr with
      | inl e => inl e
      | inr l => inr (old :: l)
      end
    else if u32 (size old - u32 (off - offset old)) <? sz then inl (- ERANGE)
    else if (off =? offset old) && (sz =? size old) && (Z.land (info old) inf =? inf)
            && (Z.land (attributes old) attr =? attr) then inl (- EINVAL)
    else
    let parts := split_parts old off sz inf attr in
    if u32 (TETRIS_MODEM_MAX_BLOCKS - count) <? u32 (len parts - 1) then inl (- E2BIG)
    else inr (parts ++ rest)
  end.

Definition annotate (map : memory_map) (off sz inf attr : Z) : Z * memory_map :=
  if sz =? 0 then (- EINVAL, map)
  else match annotate_loop (len map) map off sz inf attr with
       | inl e => (e, map)
       | inr m => (0, m)
       end.

(** ** The modem's memory *)

(** A fallible update of the local map. *)
Abbreviation step := (memory_map -> Z + memory_map) (only parsing).
Definition annotated (off sz inf attr : Z) (m : memory_map) : Z + memory_map :=
  let r := annotate m off sz inf attr in
  if negb (r.1 =? 0) then inl r.1 else inr r.2.
Fixpoint steps (l : list step) (m : memory_map) : Z + memory_map :=
  match l with
  | [] => inr m
  | f :: l => match f m with inl e => inl e | inr m => steps l m end
  end.
(** The values of a loop index below [n]. *)
Definition indices (n : nat) : list Z := Z.of_nat <$> seq 0 n.

Definition region_step (chk : list Z) (i : Z) : step :=
  annotated (word chk (196 + 8 * i)) (word chk (200 + 8 * i)) (u32 (Z.shiftl 1 i)) 0.
Definition window_step (chk : list Z) (rom_size memory_size dsp_offset dsp_capacity i : Z) : step := fun m =>
  let off := word chk (0x11c + 8 * i) in
  let sz := word chk (0x120 + 8 * i) in
  if sz =? 0 then inr m
  else if negb (contained off sz memory_size) || (off <? rom_size)
          || ((off <? u32 (dsp_offset + dsp_capacity)) && (dsp_offset <? u32 (off + sz)))
  then inl (- ERANGE)
  else annotated off sz 0 4 m.
Definition drdi_field (i : Z) : Z := if i =? 2 then 0x164 else 0x16c + 8 * i.
Definition drdi_step (chk : list Z) (memory_size i : Z) : step := fun m =>
  let off := word chk (drdi_field i) in
  let sz := word chk (drdi_field i + 4) in
  if sz =? 0 then inr m
  else if negb (contained off sz memory_size) then inl (- ERANGE)
  else annotated off sz 0 (Z.shiftl 0x20 i) m.

Definition tetris_metadata_memory (chk : list Z) (rom_size base capacity : Z) (map : option memory_map)
    : Z * option memory_map :=
  match map with
  | None => (- EINVAL, None)
  | Some map0 =>
    if (base =? 0) || (capacity =? 0) || (0xffffffff <? capacity) || (UINT64_MAX - capacity <? base)
    then (- EINVAL, Some map0)
    else
    let memory_size := word chk 172 in
    let dsp_offset := word chk 184 in
    let dsp_capacity := word chk 188 in
    let region_count := word chk 192 in
    match steps ([annotated 0 memory_size 0 1]
                 ++ (region_step chk <$> indices (Z.to_nat region_count))
                 ++ [annotated dsp_offset dsp_capacity 0 2]
                 ++ (window_step chk rom_size memory_size dsp_offset dsp_capacity <$> indices 8)
                 ++ (drdi_step chk memory_size <$> indices 3)) [Block 0 capacity 0 0 0] with
    | inl e => (e, Some map0)
    | inr out => (0, Some ((fun b => Block (offset b) (size b) (info b) (attributes b) (u64 (base + offset b))) <$> out))
    end
  end.

(** ** Padding *)

Definition or_attributes (b : tetris_modem_block) (bits : Z) : tetris_modem_block :=
  Block (offset b) (size b) (info b) (Z.lor (attributes b) bits) (physical b).
Definition has (bits : Z) (b : tetris_modem_block) : bool := negb (Z.land (attributes b) bits =? 0).

(** The first pass: the number of candidates and the marked blocks. *)
Fixpoint padding_mark (map : memory_map) : Z * memory_map :=
  match map with
  | [] => (0, [])
  | b :: rest =>
    let '(candidates, rest') := padding_mark rest in
    if has 8 b then (1 + candidates, b :: rest')
    else if has 4 b then
      if match rest with next :: _ => negb (Z.land (Z.land (info b) (info next)) 0xff =? 0) | [] => false end
      then (1 + candidates, or_attributes b 8 :: rest')
      else (candidates, or_attributes b 0x10 :: rest')
    else (candidates, b :: rest')
  end.

(** The search for the biggest unclaimed candidate: [(biggest, index)] after
    the blocks from [i] on. *)
Fixpoint padding_biggest (map : memory_map) (i biggest index : Z) : Z * Z :=
  match map with
  | [] => (biggest, index)
  | b :: rest =>
    if (Z.land (attributes b) 0x18 =? 8) && (biggest <? size b)
    then padding_biggest rest (i + 1) (size b) i
    else padding_biggest rest (i + 1) biggest index
  end.

Definition padding (map : memory_map) : memory_map :=
  let '(candidates, map) := padding_mark map in
  if candidates <=? 1 then (fun b => if has 8 b then or_attributes b 0x10 else b) <$> map
  else
  let '(biggest, index) := padding_biggest map 0 0 0 in
  if negb (biggest =? 0) then alter (fun b => or_attributes b 0x10) (Z.to_nat index) map else map.

(** ** Shared memory *)

(** The loop of [smem_place]: status, entries, rows and the final cursor. *)
Fixpoint place_loop (entries : list tetris_modem_smem_entry) (alignments : list Z) (limit cursor rows : Z)
    : Z * list tetris_modem_smem_entry * Z * Z :=
  match entries, alignments with
  | e :: entries, a :: alignments =>
    let off := if negb (a =? 0) then Z.ldiff (u64 (u64 (cursor + a) - 1)) (u64 (a - 1)) else cursor in
    let rows := if negb (off =? cursor) then u32 (rows + 1) else rows in
    let cursor := u64 (off + e_size e) in
    if limit <? cursor then (- ERANGE, e :: entries, rows, cursor)
    else
    let '(ret, rest, rows, cursor) := place_loop entries alignments limit cursor rows in
    (ret, SmemEntry (e_id e) (u32 off) (e_size e) (e_flags e) :: rest, rows, cursor)
  | _, _ => (0, entries, rows, cursor)
  end.

(** Status, entries, capacity and rows. *)
Definition smem_place (entries : list tetris_modem_smem_entry) (alignments : list Z) (limit capacity : Z)
    : Z * list tetris_modem_smem_entry * Z * Z :=
  let '(ret, entries, rows, cursor) := place_loop entries alignments limit 0 (len entries) in
  if negb (ret =? 0) then (ret, entries, capacity, rows)
  else
  let cursor := Z.ldiff (u64 (cursor + 0xffff)) 0xffff in
  if (cursor =? 0) || (limit <? cursor) then (- ERANGE, entries, capacity, rows)
  else (0, entries, u32 cursor, rows).

Definition nc_ids : list Z := [31; 12; 13; 37; 18; 14; 15; 33; 0; 16; 4; 7; 8; 9; 19; 20; 40; 41].
Definition nc_sizes : list Z :=
  [0x10000; 0x800; 0x6000; 0x8000; 0; 0x1000; 0x400; 0x200; 0x200; 0x8000; 0x1000; 0x2000; 0xb000; 0xd000; 0xb4400; 0x1e400;
   0; 0x10000].
Definition nc_align : list Z := repeat 0 17 ++ [0x1000].
Definition cache_align : list Z := [0x10000; 0x40; 0x100000; 0x10000; 0x80].

(** The [ccb_gear] switch. *)
Definition ccb_sizes (gear : Z) : option Z :=
  if (gear =? 0) || (gear =? 1) then Some 0x1600000
  else if gear =? 2 then Some 0xc00000
  else if gear =? 3 then Some 0
  else if gear =? 4 then Some 0x2000000
  else if gear =? 11 then Some 0x400000
  else if gear =? 12 then Some 0x4000000
  else if gear =? 13 then Some 0x6000000
  else if gear =? 16 then Some 0xc000000
  else None.

Definition nc_entries : list tetris_modem_smem_entry := zip_with (fun id sz => SmemEntry id 0 sz 1) nc_ids nc_sizes.
Definition cache_entries (inputs : tetris_modem_smem_inputs) (ccb_size : Z) : list tetris_modem_smem_entry :=
  [SmemEntry 22 0 (consys_size inputs) 0x4a;
   SmemEntry 32 0 (if negb (nv_cache_size inputs =? 0) then nv_cache_size inputs else 0x300000) 2;
   SmemEntry 1 0 ccb_size 2;
   SmemEntry 28 0 (if negb (udc_en inputs =? 0) then 0x80000 else 0) 2;
   SmemEntry 24 0 0x60000 2].

Definition tetris_modem_plan_smem_b41 (inputs : option tetris_modem_smem_inputs) (plan : option tetris_modem_smem_plan)
    : Z * option tetris_modem_smem_plan :=
  match inputs, plan with
  | Some inputs, Some plan0 =>
    if negb (drdi_version inputs =? 3) || (1 <? udc_en inputs) then (- EINVAL, Some plan0)
    else
    match ccb_sizes (ccb_gear inputs) with
    | None => (- EINVAL, Some plan0)
    | Some ccb_size =>
      let '(ret, nc, nc_capacity, nc_rows) := smem_place nc_entries nc_align 0xa000000 0 in
      if negb (ret =? 0) then (ret, Some plan0)
      else
      let '(ret, cache, cache_capacity, cache_rows) := smem_place (cache_entries inputs ccb_size) cache_align 0x8000000 0 in
      if negb (ret =? 0) then (ret, Some plan0)
      else (0, Some (SmemPlan nc cache nc_capacity cache_capacity nc_rows cache_rows))
    end
  | _, plan => (- EINVAL, plan)
  end.

(** ** Maps that tile a range *)

(** The blocks cover [start, stop) without gaps, overlaps or empty blocks. *)
Fixpoint tiles (start : Z) (m : memory_map) (stop : Z) : Prop :=
  match m with
  | [] => start = stop
  | b :: m => offset b = start /\ 0 < size b /\ tiles (start + size b) m stop
  end.
(** The annotation of address [x]. *)
Fixpoint attr_at (m : memory_map) (x : Z) : Z * Z :=
  match m with
  | [] => (0, 0)
  | b :: m => if (offset b <=? x) && (x <? offset b + size b) then (info b, attributes b) else attr_at m x
  end.
Definition or_pair (a b : Z * Z) : Z * Z := (Z.lor a.1 b.1, Z.lor a.2 b.2).
Definition covers (off sz x : Z) : bool := (off <=? x) && (x <? off + sz).

Lemma tiles_le m : forall start stop, tiles start m stop -> start <= stop.
Proof. induction m as [|b m IH]; cbn; intros start stop; [lia|]. intros (_ & Hs & Ht). apply IH in Ht. lia. Qed.
Lemma tiles_app a b : forall start stop, tiles start (a ++ b) stop <-> exists mid, tiles start a mid /\ tiles mid b stop.
Proof.
  induction a as [|x a IH]; intros start stop; cbn.
  - split; [intros H; eauto|intros (mid & -> & H); exact H].
  - rewrite IH. split; [intros (H1 & H2 & mid & H3 & H4); eauto 10|intros (mid & (H1 & H2 & H3) & H4); eauto 10].
Qed.
Lemma attr_at_before m : forall start stop x, tiles start m stop -> x < start -> attr_at m x = (0, 0).
Proof.
  induction m as [|b m IH]; intros start stop x; [reflexivity|]. cbn. intros (Ho & Hs & Ht) Hx.
  replace (offset b <=? x) with false by lia. cbn. eapply IH; [exact Ht|lia].
Qed.

Definition u32_block (off sz : Z) : Prop := 0 <= off /\ 0 < sz /\ off + sz <= UINT32_MAX.

(** The pieces cover what the old block covered. *)
Lemma split_parts_ok old off sz inf attr :
  u32_block (offset old) (size old) -> 0 < sz -> offset old <= off -> off + sz <= offset old + size old ->
  let parts := split_parts old off sz inf attr in
  tiles (offset old) parts (offset old + size old) /\ 1 <= len parts <= 3 /\
  forall rest x, attr_at (parts ++ rest) x =
    if covers (offset old) (size old) x
    then (if covers off sz x then or_pair (info old, attributes old) (inf, attr) else (info old, attributes old))
    else attr_at rest x.
Proof.
  intros (H0 & H1 & H2) Hsz Hlo Hhi parts. unfold parts, split_parts.
  rewrite (u32_id (off - _)), (u32_id (off + sz)), (u32_id (offset old + size old)) by (unfold is_u32; lia).
  rewrite u32_id by (unfold is_u32; lia).
  destruct (Z.eqb_spec off (offset old)) as [E|E], (Z.eqb_spec (off + sz) (offset old + size old)) as [E'|E'];
    (split; [cbn; lia|split; [unfold len; cbn; lia|]]); intros rest x; unfold covers, or_pair; cbn;
    repeat match goal with |- context [Z.leb ?a ?b] => destruct (Z.leb_spec a b) end;
    repeat match goal with |- context [Z.ltb ?a ?b] => destruct (Z.ltb_spec a b) end; cbn; (reflexivity || lia).
Qed.

Lemma annotate_loop_ok count rest off sz inf attr : forall start stop m,
  tiles start rest stop -> 0 <= start -> stop <= UINT32_MAX -> 0 < sz -> is_u32 off -> is_u32 sz ->
  len rest <= count <= TETRIS_MODEM_MAX_BLOCKS ->
  annotate_loop count rest off sz inf attr = inr m ->
  start <= off /\ off + sz <= stop /\ tiles start m stop /\ len m <= len rest + (TETRIS_MODEM_MAX_BLOCKS - count) /\
  forall x, attr_at m x = if covers off sz x then or_pair (attr_at rest x) (inf, attr) else attr_at rest x.
Proof.
  induction rest as [|old rest IH]; intros start stop m Ht Hs Hst Hsz Hof Hu Hc Ha; [discriminate|]. cbn [annotate_loop] in Ha.
  cbn in Ht. destruct Ht as (Ho & Hp & Ht). pose proof (tiles_le _ _ _ Ht) as Hle. rewrite len_cons in Hc.
  pose proof (len_nonneg rest). unfold is_u32 in Hof, Hu.
  destruct ((off <? offset old) || (size old <=? u32 (off - offset old))) eqn:G.
  - destruct (annotate_loop count rest off sz inf attr) as [|l] eqn:El; [discriminate|]. injection Ha as <-.
    destruct (IH (start + size old) stop l Ht) as (H1 & H2 & H3 & H4 & H5); try (assumption || lia || reflexivity).
    split; [lia|]. split; [lia|]. split; [cbn; auto|]. split; [rewrite !len_cons; lia|]. intros x. cbn. rewrite H5.
    unfold covers. destruct (Z.leb_spec (offset old) x), (Z.ltb_spec x (offset old + size old)); cbn; try reflexivity.
    replace (off <=? x) with false by lia. reflexivity.
  - apply orb_false_iff in G as [G1 G2].
    rewrite (u32_id (off - offset old)) in * by (unfold is_u32; lia). rewrite u32_id in Ha by (unfold is_u32; lia).
    destruct (size old - (off - offset old) <? sz) eqn:G3; [discriminate|]. destruct (_ && _ && _ && _) in Ha; [discriminate|].
    destruct (split_parts_ok old off sz inf attr) as (P1 & P2 & P3); [unfold u32_block; lia|lia..|].
    set (parts := split_parts old off sz inf attr) in *. cbv zeta in Ha.
    rewrite (u32_id (32 - count)), (u32_id (len parts - 1)) in Ha by (unfold is_u32; lia).
    destruct (32 - count <? len parts - 1) eqn:G4; [discriminate|]. injection Ha as <-.
    split; [lia|]. split; [lia|]. split; [apply tiles_app; rewrite Ho in P1; eauto|].
    split; [rewrite len_app, len_cons; lia|]. intros x. rewrite P3. cbn. fold (covers (offset old) (size old) x).
    destruct (covers (offset old) (size old) x) eqn:Ec; [reflexivity|]. unfold covers in *.
    replace ((off <=? x) && (x <? off + sz)) with false by lia. reflexivity.
Qed.

(** A map of [cap] bytes in use by the annotator. *)
Definition map_ok (cap : Z) (m : memory_map) : Prop := tiles 0 m cap /\ len m <= TETRIS_MODEM_MAX_BLOCKS.
(** What one annotation adds at [x]. *)
Definition contribution (off sz inf attr x : Z) : Z * Z := if covers off sz x then (inf, attr) else (0, 0).

Lemma or_pair_0 a : or_pair a (0, 0) = a.
Proof. destruct a. unfold or_pair. cbn. now rewrite !Z.lor_0_r. Qed.
Lemma annotate_sound cap m off sz inf attr m' :
  cap <= UINT32_MAX -> map_ok cap m -> is_u32 off -> is_u32 sz -> annotate m off sz inf attr = (0, m') ->
  0 < sz /\ off + sz <= cap /\ map_ok cap m' /\ forall x, attr_at m' x = or_pair (attr_at m x) (contribution off sz inf attr x).
Proof.
  intros Hc [Ht Hl] Ho Hs Ha. unfold annotate in Ha. destruct (Z.eqb_spec sz 0) as [|Hz]; [discriminate|].
  destruct (annotate_loop (len m) m off sz inf attr) as [e|l] eqn:E; [injection Ha as He Hm|injection Ha as Hm]; subst.
  - exfalso. clear - E. assert (Hneg : forall c r e, annotate_loop c r off sz inf attr = inl e -> e < 0); [|now apply Hneg in E].
    clear. intros c r. induction r as [|b r IH]; intros e; cbn [annotate_loop]; [intros [= <-]; lia|].
    cbv zeta. repeat case_match; intros [= <-]; try lia. eauto.
  - apply (annotate_loop_ok _ _ _ _ _ _ 0 cap) in E as (H1 & H2 & H3 & H4 & H5); try assumption; try (unfold is_u32 in *; lia).
    split; [unfold is_u32 in *; lia|]. split; [assumption|]. split; [split; [assumption|lia]|]. intros x. rewrite H5.
    unfold contribution. destruct (covers off sz x); [reflexivity|now rewrite or_pair_0].
Qed.
(** A range inside one block that lacks some of the bits is annotated as long as there is room for two more blocks. *)
Lemma annotate_complete cap m off sz inf attr b :
  cap <= UINT32_MAX -> tiles 0 m cap -> len m <= 30 -> is_u32 off -> is_u32 sz -> 0 < sz ->
  In b m -> offset b <= off -> off + sz <= offset b + size b ->
  (off = offset b -> sz = size b -> Z.land (info b) inf = inf -> Z.land (attributes b) attr = attr -> False) ->
  exists m', annotate m off sz inf attr = (0, m').
Proof.
  intros Hc Ht Hl Ho Hs Hz Hin Hlo Hhi Hnew. unfold annotate. replace (sz =? 0) with false by lia.
  assert (exists l, annotate_loop (len m) m off sz inf attr = inr l) as [l ->]; [|eauto].
  assert (Hgen : forall start r, tiles start r cap -> 0 <= start -> In b r ->
    exists l, annotate_loop (len m) r off sz inf attr = inr l).
  2: { apply (Hgen 0); [assumption|lia|assumption]. }
  unfold is_u32 in *. pose proof (len_nonneg m).
  intros start r. revert start. induction r as [|old r IH]; intros start Htr Hst Hinr; [destruct Hinr|]. destruct Htr as (Ho' & Hp & Hr).
  cbn [annotate_loop]. pose proof (tiles_le _ _ _ Hr). destruct Hinr as [->|Hinr].
  - rewrite (u32_id (off - offset b)) by (unfold is_u32; lia). replace ((off <? offset b) || (size b <=? off - offset b)) with false by lia.
    rewrite u32_id by (unfold is_u32; lia). replace (size b - (off - offset b) <? sz) with false by lia.
    destruct ((off =? offset b) && (sz =? size b) && (Z.land (info b) inf =? inf) && (Z.land (attributes b) attr =? attr)) eqn:G.
    { exfalso. apply Hnew; lia. }
    destruct (split_parts_ok b off sz inf attr) as (_ & P2 & _); [unfold u32_block; lia|lia..|]. cbv zeta.
    rewrite !u32_id by (unfold is_u32; lia). destruct (Z.ltb_spec (32 - len m) (len (split_parts b off sz inf attr) - 1)); [lia|eauto].
  - destruct (IH _ Hr ltac:(lia) Hinr) as [l El].
    assert (start + size old <= offset b).
    { clear - Hr Hinr Hp. revert Hr Hinr. generalize (start + size old). clear Hp. induction r as [|c r IH]; intros s Hr Hin; [destruct Hin|].
      destruct Hr as (? & ? & Hr). destruct Hin as [->|Hin]; [lia|]. specialize (IH _ Hr Hin). lia. }
    rewrite (u32_id (off - offset old)) by (unfold is_u32; lia). replace ((off <? offset old) || (size old <=? off - offset old)) with true by lia.
    rewrite El. eauto.
Qed.

(** Annotating a range of a block map. On success the range is inside the
    mapped bytes, the new map still tiles exactly the same bytes with at most
    32 nonempty blocks, and every address carries its old information and
    attribute bits, with the new bits added exactly inside the range; on
    failure the map is unchanged. A range inside one block that does not
    already carry the bits is always accepted while two slots are free. *)
Theorem annotate_exact cap m off sz inf attr :
  cap <= UINT32_MAX -> map_ok cap m -> is_u32 off -> is_u32 sz ->
  let '(ret, m') := annotate m off sz inf attr in
  (ret <> 0 -> m' = m) /\
  (ret = 0 -> 0 < sz /\ off + sz <= cap /\ map_ok cap m' /\
     forall x, attr_at m' x = or_pair (attr_at m x) (contribution off sz inf attr x)) /\
  (len m <= 30 -> 0 < sz ->
     (exists b, In b m /\ offset b <= off /\ off + sz <= offset b + size b /\
        (off = offset b -> sz = size b -> Z.land (info b) inf = inf -> Z.land (attributes b) attr = attr -> False)) ->
     ret = 0).
Proof.
  intros Hc Hm Ho Hs. destruct (annotate m off sz inf attr) as [ret m'] eqn:E. split; [|split].
  - intros Hr. unfold annotate in E. repeat case_match; congruence.
  - intros ->. now apply annotate_sound.
  - intros Hl Hz (b & Hb & Hlo & Hhi & Hn). destruct Hm as [Ht _].
    destruct (annotate_complete cap m off sz inf attr b) as [m'' E']; try assumption. congruence.
Qed.
Lemma annotate_exact_witness :
  (let '(ret, m') := annotate [Block 0 0x100 0 0 0] 0x40 0x20 1 2 in ret = 0 /\ attr_at m' 0x50 = (1, 2) /\ attr_at m' 0x60 = (0, 0)).
Proof.
  pose proof (annotate_exact 0x100 [Block 0 0x100 0 0 0] 0x40 0x20 1 2) as H.
  destruct (annotate [Block 0 0x100 0 0 0] 0x40 0x20 1 2) as [ret m'] eqn:E.
  destruct H as (_ & H & Hr).
  - lia.
  - split; [cbn; lia|vm_compute; congruence].
  - unfold is_u32; lia.
  - unfold is_u32; lia.
  - assert (ret = 0) as -> by (apply Hr; [vm_compute; congruence|lia|];
      exists (Block 0 0x100 0 0 0); cbn; repeat split; try lia; now left).
    destruct (H eq_refl) as (_ & _ & _ & Hx). split; [reflexivity|]. split; [rewrite (Hx 0x50)|rewrite (Hx 0x60)]; reflexivity.
Defined.

(** ** The map of the modem's memory *)

Lemma word_u32 p i : bytes_ok p -> is_u32 (word p i).
Proof. apply le32_range. Qed.

(** A step that keeps a map usable and adds [c x] at every address [x]. *)
Definition adds (cap : Z) (f : step) (c : Z -> Z * Z) : Prop :=
  (forall m e, f m = inl e -> e <> 0) /\
  forall m m', map_ok cap m -> f m = inr m' -> map_ok cap m' /\ forall x, attr_at m' x = or_pair (attr_at m x) (c x).

Lemma steps_adds cap fs cs : Forall2 (adds cap) fs cs -> forall m m', map_ok cap m -> steps fs m = inr m' ->
  map_ok cap m' /\ (forall x, attr_at m' x = fold_left or_pair ((fun c => c x) <$> cs) (attr_at m x)) /\
  Forall (fun f => exists k k', map_ok cap k /\ f k = inr k') fs.
Proof.
  induction 1 as [|f c fs cs Hf Hfs IH]; intros m m' Hm Hr; cbn [steps] in Hr.
  - injection Hr as <-. auto.
  - destruct (f m) as [|m1] eqn:E; [discriminate|]. destruct (proj2 Hf m m1 Hm E) as [Hm1 Hx1].
    destruct (IH m1 m' Hm1 Hr) as (Hm' & Hx & Hall). split; [assumption|]. split; [|constructor; [eauto|assumption]].
    intros x. cbn. rewrite Hx, Hx1. reflexivity.
Qed.
Lemma steps_error cap fs cs : Forall2 (adds cap) fs cs -> forall m e, steps fs m = inl e -> e <> 0.
Proof.
  induction 1 as [|f c fs cs [Hf _] Hfs IH]; intros m e Hr; cbn [steps] in Hr; [discriminate|].
  destruct (f m) as [|m1] eqn:E; [injection Hr as ->; eauto|eauto].
Qed.

Section Memory.
Context (chk : list Z) (rom_size cap : Z) (Hchk : bytes_ok chk) (Hcap : cap <= UINT32_MAX).

Lemma annotated_adds off sz inf attr : is_u32 off -> is_u32 sz ->
  adds cap (annotated off sz inf attr) (contribution off sz inf attr).
Proof.
  intros Ho Hs. split; intros m m'; [|intros Hm]; intros Hr; unfold annotated in Hr;
    destruct (annotate m off sz inf attr) as [ret out] eqn:E; cbn in Hr;
    destruct (Z.eqb_spec ret 0) as [->|]; try discriminate; [now injection Hr as <-|]. cbn in Hr. injection Hr as <-.
  now apply (annotate_sound cap) in E as (_ & _ & H1 & H2).
Qed.
Lemma annotated_fits off sz inf attr m m' : is_u32 off -> is_u32 sz -> map_ok cap m ->
  annotated off sz inf attr m = inr m' -> 0 < sz /\ off + sz <= cap.
Proof.
  intros Ho Hs Hm Hr. unfold annotated in Hr. destruct (annotate m off sz inf attr) as [ret out] eqn:E. cbn in Hr.
  destruct (Z.eqb_spec ret 0) as [->|]; [|discriminate]. now apply (annotate_sound cap) in E as (H1 & H2 & _).
Qed.
Lemma contribution_empty off inf attr x : contribution off 0 inf attr x = (0, 0).
Proof. unfold contribution, covers. now replace ((off <=? x) && (x <? off + 0)) with false by lia. Qed.
(** A step that skips an empty range and may refuse one. *)
Lemma guarded_adds off sz inf attr (refuse : bool) : is_u32 off -> is_u32 sz ->
  adds cap (fun m => if sz =? 0 then inr m else if refuse then inl (- ERANGE) else annotated off sz inf attr m)
    (contribution off sz inf attr).
Proof.
  intros Ho Hs. destruct (annotated_adds off sz inf attr Ho Hs) as [He Ha].
  split; [intros m e; destruct (sz =? 0), refuse; intros Hr; try discriminate; [injection Hr as <-; lia|eauto]|].
  intros m m' Hm Hr. destruct (Z.eqb_spec sz 0) as [->|].
  - injection Hr as <-. split; [assumption|]. intros x. now rewrite contribution_empty, or_pair_0.
  - destruct refuse; [discriminate|]. now apply Ha.
Qed.

(** The reference annotation: who says what about which range of the header. *)
Definition memory_requests : list (Z -> Z * Z) :=
  [contribution 0 (word chk 172) 0 1]
  ++ ((fun i => contribution (word chk (196 + 8 * i)) (word chk (200 + 8 * i)) (u32 (Z.shiftl 1 i)) 0)
        <$> indices (Z.to_nat (word chk 192)))
  ++ [contribution (word chk 184) (word chk 188) 0 2]
  ++ ((fun i => contribution (word chk (0x11c + 8 * i)) (word chk (0x120 + 8 * i)) 0 4) <$> indices 8)
  ++ ((fun i => contribution (word chk (drdi_field i)) (word chk (drdi_field i + 4)) 0 (Z.shiftl 0x20 i)) <$> indices 3).
Definition annotation (x : Z) : Z * Z := fold_left or_pair ((fun c => c x) <$> memory_requests) (0, 0).

Lemma forall2_fmap_adds {A} (f : A -> step) (c : A -> Z -> Z * Z) l :
  (forall a, adds cap (f a) (c a)) -> Forall2 (adds cap) (f <$> l) (c <$> l).
Proof. intros H. induction l; constructor; auto. Qed.

Lemma memory_steps_adds : Forall2 (adds cap)
  ([annotated 0 (word chk 172) 0 1] ++ (region_step chk <$> indices (Z.to_nat (word chk 192)))
   ++ [annotated (word chk 184) (word chk 188) 0 2]
   ++ (window_step chk rom_size (word chk 172) (word chk 184) (word chk 188) <$> indices 8)
   ++ (drdi_step chk (word chk 172) <$> indices 3)) memory_requests.
Proof.
  pose proof (word_u32 chk) as Hw. unfold memory_requests.
  assert (H1 : forall off sz inf attr, is_u32 off -> is_u32 sz ->
    Forall2 (adds cap) [annotated off sz inf attr] [contribution off sz inf attr])
    by (intros; constructor; [now apply annotated_adds|constructor]).
  apply Forall2_app; [apply H1; [unfold is_u32; lia|now apply Hw]|].
  apply Forall2_app; [apply forall2_fmap_adds; intros i; apply annotated_adds; now apply Hw|].
  apply Forall2_app; [apply H1; now apply Hw|].
  apply Forall2_app; apply forall2_fmap_adds; intros i; apply guarded_adds; now apply Hw.
Qed.

(** What the successful steps say about the padding windows. *)
Lemma memory_windows :
  Forall (fun f => exists k k', map_ok cap k /\ f k = inr k')
  ([annotated 0 (word chk 172) 0 1] ++ (region_step chk <$> indices (Z.to_nat (word chk 192)))
   ++ [annotated (word chk 184) (word chk 188) 0 2]
   ++ (window_step chk rom_size (word chk 172) (word chk 184) (word chk 188) <$> indices 8)
   ++ (drdi_step chk (word chk 172) <$> indices 3)) ->
  forall i, 0 <= i < 8 -> let off := word chk (0x11c + 8 * i) in let sz := word chk (0x120 + 8 * i) in
    sz <> 0 -> rom_size <= off /\ off + sz <= word chk 172 /\ word chk 172 <= cap /\
      (off + sz <= word chk 184 \/ word chk 184 + word chk 188 <= off).
Proof.
  intros Hall i Hi off sz Hsz. pose proof (fun j => word_u32 chk j Hchk) as Hw.
  rewrite !Forall_app in Hall. destruct Hall as (H1 & _ & H2 & H3 & _).
  apply Forall_inv in H1 as (k1 & k1' & Hk1 & E1). apply annotated_fits in E1; [|unfold is_u32; lia|apply Hw|assumption].
  apply Forall_inv in H2 as (k2 & k2' & Hk2 & E2). apply annotated_fits in E2; [|apply Hw|apply Hw|assumption].
  rewrite Forall_fmap, Forall_forall in H3. destruct (H3 i) as (k3 & k3' & Hk3 & E3).
  { unfold indices. apply list_elem_of_fmap. exists (Z.to_nat i). split; [lia|]. apply elem_of_seq. lia. }
  unfold compose, window_step in E3. cbv zeta in E3. fold off sz in E3. replace (sz =? 0) with false in E3 by lia.
  destruct (negb _ || _ || _) eqn:G in E3; [discriminate|]. unfold contained in G.
  pose proof (Hw (0x11c + 8 * i)) as Hoff. pose proof (Hw (0x120 + 8 * i)) as Hs. fold off in Hoff. fold sz in Hs.
  pose proof (Hw 184). pose proof (Hw 188). pose proof (Hw 172). unfold is_u32 in *.
  assert (Hlt : off < word chk 172) by lia. rewrite (u32_id (word chk 172 - off)) in G by (unfold is_u32; lia).
  rewrite (u32_id (word chk 184 + word chk 188)), (u32_id (off + sz)) in G by (unfold is_u32; lia). lia.
Qed.
End Memory.

Lemma tiles_in m : forall start stop b, tiles start m stop -> In b m -> start <= offset b /\ 0 < size b /\ offset b + size b <= stop.
Proof.
  induction m as [|c m IH]; intros start stop b; [intros _ []|]. cbn [tiles]. intros (Ho & Hp & Ht) [->|Hin].
  - apply tiles_le in Ht. lia.
  - specialize (IH _ _ _ Ht Hin). lia.
Qed.
Section Relabel.
Context (g : tetris_modem_block -> tetris_modem_block).
Lemma tiles_fmap m : (forall b, offset (g b) = offset b /\ size (g b) = size b) ->
  forall start stop, tiles start m stop -> tiles start (g <$> m) stop.
Proof.
  intros Hg. induction m as [|b m IH]; intros start stop; [auto|]. cbn. destruct (Hg b) as [-> ->]. intros (? & ? & ?). auto.
Qed.
Lemma attr_at_fmap m x : (forall b, offset (g b) = offset b /\ size (g b) = size b /\ info (g b) = info b /\ attributes (g b) = attributes b) ->
  attr_at (g <$> m) x = attr_at m x.
Proof. intros Hg. induction m as [|b m IH]; [reflexivity|]. cbn. destruct (Hg b) as (-> & -> & -> & ->). now rewrite IH. Qed.
End Relabel.

Lemma metadata_memory_cases chk rom_size base capacity map0 :
  bytes_ok chk -> 0 <= base -> 0 <= capacity ->
  let '(ret, map) := tetris_metadata_memory chk rom_size base capacity (Some map0) in
  (ret <> 0 -> map = Some map0) /\
  (ret = 0 -> exists m, map = Some m /\ map_ok capacity m /\
     Forall (fun b => physical b = base + offset b) m /\
     (forall x, 0 <= x < capacity -> attr_at m x = annotation chk x) /\
     forall i, 0 <= i < 8 -> let off := word chk (0x11c + 8 * i) in let sz := word chk (0x120 + 8 * i) in
       sz <> 0 -> rom_size <= off /\ off + sz <= word chk 172 /\ word chk 172 <= capacity /\
         (off + sz <= word chk 184 \/ word chk 184 + word chk 188 <= off)).
Proof.
  intros Hchk Hb Hc. unfold tetris_metadata_memory.
  destruct ((base =? 0) || (capacity =? 0) || (0xffffffff <? capacity) || (UINT64_MAX - capacity <? base)) eqn:G.
  { split; [reflexivity|intros [=]]. }
  assert (Hcap : 0 < capacity <= UINT32_MAX /\ base + capacity <= UINT64_MAX) by lia. clear G. cbv zeta.
  pose proof (memory_steps_adds chk rom_size capacity Hchk ltac:(lia)) as Hadds.
  set (fs := _ ++ _ ++ _ ++ _ ++ _) in *. destruct (steps fs [Block 0 capacity 0 0 0]) as [e|m] eqn:E.
  - split; [reflexivity|]. now apply (steps_error _ _ _ Hadds) in E.
  - split; [intros []; reflexivity|]. intros _. eexists; split; [reflexivity|].
    apply (steps_adds _ _ _ Hadds) in E as (Hm & Hx & Hall); [|split; [cbn; lia|vm_compute; congruence]].
    set (g := fun b => Block _ _ _ _ _).
    split; [split; [now apply (tiles_fmap g), Hm|unfold len; rewrite length_fmap; apply Hm]|]. split; [|split].
    + apply Forall_fmap, Forall_forall. intros b Hin. apply list_elem_of_In in Hin. destruct Hm as [Ht _].
      pose proof (tiles_in _ _ _ _ Ht Hin). cbn. apply u64_id. unfold is_u64. lia.
    + intros x Hx0. rewrite (attr_at_fmap g), Hx by auto. cbn [attr_at offset size info attributes].
      now replace ((0 <=? x) && (x <? 0 + capacity)) with true by lia.
    + exact (memory_windows chk rom_size capacity Hchk ltac:(lia) Hall).
Qed.

(** The memory map the header describes. When it is accepted, the blocks
    tile exactly the firmware window with at most 32 nonempty blocks, each
    block's physical address is the window base plus its offset, every byte of
    the window carries exactly the bits the header's requests assign to it
    (image, regions, DSP, padding windows, DRDI windows), and every nonempty
    padding window lies above the ROM, inside the image and outside the DSP
    area. When it is refused the caller's map is unchanged. *)
Theorem metadata_memory_annotation chk rom_size base capacity map0 :
  bytes_ok chk -> 0 <= base -> 0 <= capacity ->
  let '(ret, map) := tetris_metadata_memory chk rom_size base capacity (Some map0) in
  (ret <> 0 -> map = Some map0) /\
  (ret = 0 -> exists m, map = Some m /\ map_ok capacity m /\
     Forall (fun b => physical b = base + offset b) m /\
     (forall x, 0 <= x < capacity -> attr_at m x = annotation chk x) /\
     forall i, 0 <= i < 8 -> let off := word chk (0x11c + 8 * i) in let sz := word chk (0x120 + 8 * i) in
       sz <> 0 -> rom_size <= off /\ off + sz <= word chk 172 /\ word chk 172 <= capacity /\
         (off + sz <= word chk 184 \/ word chk 184 + word chk 188 <= off)).
Proof. exact (metadata_memory_cases chk rom_size base capacity map0). Qed.

(** A header with an image of 0x3000 bytes, one region, a DSP area and one padding window, after 0x100 ROM bytes. *)
Definition witness_chk : list Z :=
  zeros 172 ++ put32 0x3000 ++ zeros 8 ++ put32 0x2000 ++ put32 0x800 ++ put32 1 ++ put32 0 ++ put32 0x2000
  ++ zeros 80 ++ put32 0x1000 ++ put32 0x400 ++ zeros 220.
Lemma metadata_memory_annotation_witness :
  (let '(ret, map) := tetris_metadata_memory witness_chk 0x100 0x40000000 0x10000 (Some []) in
   ret = 0 /\ exists m, map = Some m /\ attr_at m 0x1200 = annotation witness_chk 0x1200).
Proof.
  pose proof (metadata_memory_annotation witness_chk 0x100 0x40000000 0x10000 []) as H.
  assert (E : (tetris_metadata_memory witness_chk 0x100 0x40000000 0x10000 (Some [])).1 = 0) by (vm_compute; reflexivity).
  destruct (tetris_metadata_memory witness_chk 0x100 0x40000000 0x10000 (Some [])) as [ret map].
  destruct H as [_ H]; [unfold witness_chk; concrete_bytes|lia|lia|].
  destruct (H E) as (m & -> & _ & _ & Hx & _). split; [exact E|]. exists m. split; [reflexivity|]. apply Hx. lia.
Defined.

(** ** Padding selects one largest candidate *)

Lemma has_or bits bits' b : Z.land bits bits' = 0 -> has bits (or_attributes b bits') = has bits b.
Proof.
  intros H. unfold has, or_attributes. cbn. rewrite Z.land_lor_distr_l, (Z.land_comm bits'), H, Z.lor_0_r. reflexivity.
Qed.
Lemma has_or_same bits b : 0 < bits -> has bits (or_attributes b bits) = true.
Proof.
  intros H. unfold has, or_attributes. cbn. rewrite Z.land_lor_distr_l, Z.land_diag.
  destruct (Z.eqb_spec (Z.lor (Z.land (attributes b) bits) bits) 0) as [E|]; [|reflexivity]. apply lor_0_inv in E. lia.
Qed.
Lemma candidate_bits b : (Z.land (attributes b) 0x18 =? 8) = has 8 b && negb (has 0x10 b).
Proof.
  unfold has. replace 0x18 with (Z.lor 8 0x10) by reflexivity. rewrite Z.land_lor_distr_r.
  assert (Hbit : forall n, 0 <= n -> Z.land (attributes b) (2 ^ n) = if Z.testbit (attributes b) n then 2 ^ n else 0).
  { intros n Hn. apply Z.bits_inj'. intros k Hk. rewrite Z.land_spec, Z.pow2_bits_eqb by lia.
    destruct (Z.eqb_spec n k) as [->|Hnk]; [rewrite andb_true_r|rewrite andb_false_r].
    - destruct (Z.testbit (attributes b) k); [now rewrite Z.pow2_bits_true|now rewrite Z.bits_0].
    - destruct (Z.testbit (attributes b) n); [now rewrite Z.pow2_bits_false|now rewrite Z.bits_0]. }
  pose proof (Hbit 3 ltac:(lia)) as H3. pose proof (Hbit 4 ltac:(lia)) as H4. change (2 ^ 3) with 8 in H3.
  change (2 ^ 4) with 16 in H4. rewrite H3, H4. destruct (Z.testbit (attributes b) 3), (Z.testbit (attributes b) 4); reflexivity.
Qed.

(** What happens to one block. *)
Definition relabelled (b b' : tetris_modem_block) : Prop :=
  (exists bits, b' = or_attributes b bits /\ (bits = 0 \/ bits = 8 \/ bits = 0x10 \/ bits = 0x18)) /\
  (has 4 b = false -> has 8 b = false -> b' = b).
Lemma relabelled_refl b : relabelled b b.
Proof. split; [|auto]. exists 0. split; [|auto]. destruct b. unfold or_attributes. cbn. now rewrite Z.lor_0_r. Qed.
Lemma or_attributes_twice b x y : or_attributes (or_attributes b x) y = or_attributes b (Z.lor x y).
Proof. unfold or_attributes. cbn. now rewrite Z.lor_assoc. Qed.
(** Claiming a candidate is still a relabelling. *)
Lemma relabelled_claim b b' : relabelled b b' -> has 8 b' = true -> relabelled b (or_attributes b' 0x10).
Proof.
  intros [(bits & -> & Hb) Hs] H8. split.
  - exists (Z.lor bits 0x10). rewrite or_attributes_twice. split; [reflexivity|]. destruct Hb as [-> |[-> |[-> | ->]]]; auto.
  - intros H4 Hb8. rewrite (Hs H4 Hb8) in H8. congruence.
Qed.

Lemma padding_mark_ok m : Forall (fun b => has 0x10 b = false) m ->
  let '(c, m') := padding_mark m in
  Forall2 relabelled m m' /\ Forall (fun b => has 8 b = true -> has 0x10 b = false) m' /\ c = len (List.filter (has 8) m').
Proof.
  induction 1 as [|b m Hb Hm IH]; [repeat constructor|]. cbn [padding_mark]. destruct (padding_mark m) as [c m'].
  destruct IH as (H1 & H2 & ->).
  assert (H8 : has 8 b = false -> relabelled b (or_attributes b 8) \/ has 4 b = false).
  { intros H8. destruct (has 4 b) eqn:H4; [left|auto]. split; [exists 8; auto|congruence]. }
  destruct (has 8 b) eqn:E8.
  { split; [constructor; [apply relabelled_refl|assumption]|]. split; [constructor; auto|]. cbn [List.filter]. rewrite E8, len_cons. lia. }
  destruct (has 4 b) eqn:E4; cycle 1.
  { split; [constructor; [apply relabelled_refl|assumption]|]. split; [constructor; [congruence|auto]|]. cbn [List.filter]. now rewrite E8. }
  destruct (match m with next :: _ => _ | [] => _ end).
  - split; [constructor; [destruct (H8 eq_refl); [assumption|congruence]|assumption]|].
    split; [constructor; [intros _; now rewrite has_or|assumption]|]. cbn [List.filter]. rewrite has_or_same, len_cons by lia. lia.
  - split; [constructor; [split; [exists 0x10; auto|congruence]|assumption]|].
    split; [constructor; [rewrite has_or by reflexivity; congruence|assumption]|]. cbn [List.filter]. rewrite has_or by reflexivity. now rewrite E8.
Qed.

Lemma length_padding m : length (padding m) = length m.
Proof.
  assert (Hk : length (padding_mark m).2 = length m).
  { induction m as [|b m IH]; [reflexivity|]. cbn [padding_mark]. destruct (padding_mark m) as [c m'].
    repeat case_match; cbn in *; congruence. }
  unfold padding. destruct (padding_mark m) as [c m']. cbn in Hk.
  repeat case_match; rewrite ?length_fmap, ?length_alter; assumption.
Qed.
Lemma padding_biggest_ok m : forall i big idx, let '(B, ix) := padding_biggest m i big idx in
  big <= B /\ (forall b, In b m -> has 8 b = true -> has 0x10 b = false -> size b <= B) /\
  (B = big /\ ix = idx \/ exists j b, m !! j = Some b /\ has 8 b = true /\ size b = B /\ ix = i + Z.of_nat j).
Proof.
  induction m as [|b m IH]; intros i big idx; cbn [padding_biggest]; [split; [lia|split; [intros b []|auto]]|].
  rewrite candidate_bits. destruct (has 8 b && negb (has 0x10 b) && (big <? size b)) eqn:E.
  - specialize (IH (i + 1) (size b) i). destruct (padding_biggest m (i + 1) (size b) i) as [B ix]. destruct IH as (H1 & H2 & H3).
    apply andb_true_iff in E as [E1 E2]. apply andb_true_iff in E1 as [E1 _].
    split; [lia|]. split; [intros b' [->|Hin]; [lia|auto]|]. right. destruct H3 as [[-> ->]|(j & b' & Hj & H8 & Hs & ->)].
    + exists 0%nat, b. cbn. repeat split; auto; lia.
    + exists (S j), b'. cbn. repeat split; auto; lia.
  - specialize (IH (i + 1) big idx). destruct (padding_biggest m (i + 1) big idx) as [B ix]. destruct IH as (H1 & H2 & H3).
    split; [lia|]. split.
    + intros b' [->|Hin] H8 H10; [|auto]. rewrite H8, H10 in E. cbn in E. lia.
    + destruct H3 as [H3|(j & b' & Hj & H8 & Hs & ->)]; [auto|right]. exists (S j), b'. cbn. repeat split; auto; lia.
Qed.

Lemma filter_at_most_one {A} (P : A -> bool) l : forall i j a b, len (List.filter P l) <= 1 ->
  l !! i = Some a -> P a = true -> l !! j = Some b -> P b = true -> i = j.
Proof.
  assert (Hpos : forall (l : list A) i a, l !! i = Some a -> P a = true -> 1 <= len (List.filter P l)).
  { intros l0. induction l0 as [|x l0 IH]; intros [|i] a; cbn; try discriminate; intros H HP.
    - injection H as ->. rewrite HP, len_cons. pose proof (len_nonneg (List.filter P l0)). lia.
    - specialize (IH _ _ H HP). destruct (P x); [rewrite len_cons|]; lia. }
  induction l as [|x l IH]; intros [|i] [|j] a b Hl; cbn in *; try discriminate; try reflexivity; intros Ha HPa Hb HPb.
  - injection Ha as ->. rewrite HPa, len_cons in Hl. specialize (Hpos _ _ _ Hb HPb). lia.
  - injection Hb as ->. rewrite HPb, len_cons in Hl. specialize (Hpos _ _ _ Ha HPa). lia.
  - f_equal. apply (IH i j a b); auto. destruct (P x); [rewrite len_cons in Hl; pose proof (Hpos _ _ _ Ha HPa)|]; lia.
Qed.

Lemma has_lookup m i b : m !! i = Some b -> has 8 b = true -> existsb (has 8) m = true.
Proof. intros Hi H8. apply existsb_exists. exists b. split; [now apply list_elem_of_In, list_elem_of_lookup_2 with i|exact H8]. Qed.
Lemma existsb_lookup m : existsb (has 8) m = true -> exists i b, m !! i = Some b /\ has 8 b = true.
Proof.
  intros H. apply existsb_exists in H as (b & Hin & H8). apply list_elem_of_In, list_elem_of_lookup in Hin as [i Hi]. eauto.
Qed.
Lemma relabelled_size b b' : relabelled b b' -> size b' = size b.
Proof. now intros [(bits & -> & _) _]. Qed.

(** The selected candidate: a largest one, and the only one that is both a candidate and claimed. *)
Definition selected (m : memory_map) (i : nat) : Prop :=
  exists b, m !! i = Some b /\ has 8 b = true /\ has 0x10 b = true /\
    forall j b', m !! j = Some b' -> has 8 b' = true -> size b' <= size b /\ (has 0x10 b' = true -> j = i).

Lemma claim_all_selected m i b : len (List.filter (has 8) m) <= 1 -> m !! i = Some b -> has 8 b = true ->
  selected ((fun b => if has 8 b then or_attributes b 0x10 else b) <$> m) i.
Proof.
  intros Hc Hi H8. exists (or_attributes b 0x10). rewrite list_lookup_fmap, Hi. cbn. rewrite H8.
  split; [reflexivity|]. split; [now rewrite has_or|]. split; [now apply has_or_same|]. intros j b' Hj Hj8.
  rewrite list_lookup_fmap in Hj. destruct (m !! j) as [c|] eqn:Ej; [|discriminate]. cbn in Hj. injection Hj as <-.
  destruct (has 8 c) eqn:E8; [|congruence].
  assert (i = j) as <- by (eapply filter_at_most_one; eauto). rewrite Hi in Ej. injection Ej as <-. cbn. split; [lia|reflexivity].
Qed.
Lemma claim_one_selected m i b : Forall (fun b => has 8 b = true -> has 0x10 b = false) m ->
  m !! i = Some b -> has 8 b = true -> (forall c, In c m -> has 8 c = true -> size c <= size b) ->
  selected (alter (fun b => or_attributes b 0x10) i m) i.
Proof.
  intros Hf Hi H8 Hmax. exists (or_attributes b 0x10). rewrite list_lookup_alter_eq, Hi. cbn.
  split; [reflexivity|]. split; [now rewrite has_or|]. split; [now apply has_or_same|]. intros j b' Hj Hj8.
  destruct (decide (i = j)) as [<-|Hne].
  - rewrite list_lookup_alter_eq, Hi in Hj. injection Hj as <-. cbn. split; [lia|reflexivity].
  - rewrite list_lookup_alter_ne in Hj by assumption. assert (Hin : b' ∈ m) by (eapply list_elem_of_lookup_2; eauto).
    split; [apply Hmax; [now apply list_elem_of_In|assumption]|].
    rewrite Forall_forall in Hf. rewrite (Hf b' Hin Hj8). discriminate.
Qed.

(** The padding pass keeps every block's place, size and region bits, adds
    nothing to a block that is neither a padding window nor a candidate, and
    if there is any candidate it claims exactly one of them, a largest one. *)
Theorem padding_selects_largest m :
  Forall (fun b => 0 < size b /\ has 0x10 b = false) m ->
  Forall2 relabelled m (padding m) /\
  (existsb (has 8) (padding m) = true -> exists i, selected (padding m) i).
Proof.
  intros Hm. apply Forall_and in Hm as [Hpos H10]. unfold padding.
  pose proof (padding_mark_ok m H10) as Hk. destruct (padding_mark m) as [c m1]. destruct Hk as (Hrel & Hfree & ->).
  destruct (Z.leb_spec (len (List.filter (has 8) m1)) 1) as [Hc|Hc].
  - split.
    + apply Forall2_fmap_r. eapply Forall2_impl; [exact Hrel|]. intros b b' Hb.
      change (relabelled b (if has 8 b' then or_attributes b' 0x10 else b')). destruct (has 8 b') eqn:E; [now apply relabelled_claim|exact Hb].
    + intros Hex. apply existsb_lookup in Hex as (i & b & Hi & H8). rewrite list_lookup_fmap in Hi.
      destruct (m1 !! i) as [b0|] eqn:Ei; [|discriminate]. cbn in Hi. injection Hi as <-. destruct (has 8 b0) eqn:E8; [|congruence].
      exists i. now apply (claim_all_selected m1 i b0).
  - pose proof (padding_biggest_ok m1 0 0 0) as Hb. destruct (padding_biggest m1 0 0 0) as [B ix]. destruct Hb as (H0 & Hmax & Hsel).
    assert (Hcand : exists b, In b m1 /\ has 8 b = true).
    { destruct (List.filter (has 8) m1) as [|b l] eqn:E; [rewrite len_nil in Hc; lia|].
      exists b. apply filter_In. rewrite E. now left. }
    rewrite Forall_forall in Hfree. destruct Hcand as (b & Hin & H8).
    assert (HB : 0 < B).
    { apply Z.lt_le_trans with (size b); [|apply Hmax; auto; apply Hfree; [now apply list_elem_of_In|assumption]].
      apply list_elem_of_In, list_elem_of_lookup in Hin as [k Hk]. destruct (Forall2_lookup_r _ _ _ _ _ Hrel Hk) as (b0 & Hk0 & Hr).
      rewrite (relabelled_size _ _ Hr). exact (proj1 (Forall_lookup _ _) Hpos k b0 Hk0). }
    replace (B =? 0) with false by lia. cbn [negb]. destruct Hsel as [[? _]|(j & b' & Hj & Hj8 & <- & ->)]; [lia|].
    replace (Z.to_nat (0 + Z.of_nat j)) with j by lia. split.
    + apply Forall2_alter_r; [assumption|]. intros x y _ Hy Hxy. rewrite Hj in Hy. injection Hy as <-. now apply relabelled_claim.
    + intros _. exists j. apply (claim_one_selected m1 j b'); [now apply Forall_forall|assumption..|].
      intros c Hc' Hc8. apply Hmax; auto. apply Hfree; [now apply list_elem_of_In|assumption].
Qed.
Lemma padding_selects_largest_witness :
  exists i, selected (padding [Block 0 0x10 1 4 0; Block 0x10 0x40 1 4 0; Block 0x50 0x20 1 0 0]) i.
Proof.
  apply (padding_selects_largest [Block 0 0x10 1 4 0; Block 0x10 0x40 1 4 0; Block 0x50 0x20 1 0 0]).
  - repeat constructor; cbn; lia || reflexivity.
  - vm_compute. reflexivity.
Defined.

(** ** Placement *)

(** Where the reference placement puts each entry: at the cursor rounded up to
    its alignment, one after another; with the padding rows it needs. *)
Fixpoint placed (cursor : Z) (entries : list tetris_modem_smem_entry) (alignments : list Z) : list tetris_modem_smem_entry :=
  match entries, alignments with
  | e :: entries, a :: alignments =>
    let off := if a =? 0 then cursor else a * ((cursor + a - 1) / a) in
    SmemEntry (e_id e) off (e_size e) (e_flags e) :: placed (off + e_size e) entries alignments
  | _, _ => []
  end.
Fixpoint finish (cursor : Z) (entries : list tetris_modem_smem_entry) : Z :=
  match entries with [] => cursor | e :: entries => finish (e_offset e + e_size e) entries end.
Fixpoint gaps (cursor : Z) (entries : list tetris_modem_smem_entry) : Z :=
  match entries with
  | [] => 0
  | e :: entries => (if e_offset e =? cursor then 0 else 1) + gaps (e_offset e + e_size e) entries
  end.
Definition power_or_zero (a : Z) : Prop := a = 0 \/ exists k, 0 <= k < 32 /\ a = 2 ^ k.

Lemma ldiff_round cursor k : 0 <= k -> 0 <= cursor -> Z.ldiff (cursor + 2 ^ k - 1) (2 ^ k - 1) = 2 ^ k * ((cursor + 2 ^ k - 1) / 2 ^ k).
Proof.
  intros Hk Hc. replace (2 ^ k - 1) with (Z.ones k) by (rewrite Z.ones_equiv; lia).
  rewrite Z.ldiff_ones_r, Z.shiftr_div_pow2, Z.shiftl_mul_pow2 by assumption. lia.
Qed.

Lemma place_loop_ok entries : forall alignments limit cursor rows,
  length alignments = length entries -> Forall power_or_zero alignments -> Forall (fun e => is_u32 (e_size e)) entries ->
  0 <= cursor <= limit -> is_u32 limit -> 0 <= rows -> rows + len entries <= UINT32_MAX ->
  let target := placed cursor entries alignments in
  (Forall (fun e => e_offset e + e_size e <= limit) target ->
   place_loop entries alignments limit cursor rows = (0, target, rows + gaps cursor target, finish cursor target)) /\
  (~ Forall (fun e => e_offset e + e_size e <= limit) target ->
   exists es r c, place_loop entries alignments limit cursor rows = (- ERANGE, es, r, c)).
Proof.
  induction entries as [|e entries IH]; intros [|a alignments] limit cursor rows Hlen Ha He Hc Hl Hr Hrl; try discriminate.
  { cbn. split; [intros _; now rewrite Z.add_0_r|intros H; exfalso; apply H; constructor]. }
  inversion Ha as [|? ? Ha0 Ha1]; subst. inversion He as [|? ? He0 He1]; subst. cbn [placed place_loop]. unfold is_u32 in *.
  rewrite len_cons in Hrl. pose proof (len_nonneg entries).
  set (off := if a =? 0 then cursor else a * ((cursor + a - 1) / a)).
  assert (Hoff : (if negb (a =? 0) then Z.ldiff (u64 (u64 (cursor + a) - 1)) (u64 (a - 1)) else cursor) = off /\
    cursor <= off < cursor + 2 ^ 32).
  { unfold off. destruct Ha0 as [->|(k & Hk & ->)]; [cbn; lia|].
    assert (Hp : 0 < 2 ^ k <= 2 ^ 31) by (split; [apply Z.pow_pos_nonneg; lia|apply Z.pow_le_mono_r; lia]).
    replace (2 ^ k =? 0) with false by lia. cbn [negb]. rewrite !u64_id by (unfold is_u64; rewrite ?u64_id by (unfold is_u64; lia); lia).
    rewrite ldiff_round by lia. split; [reflexivity|].
    pose proof (Z.div_mod (cursor + 2 ^ k - 1) (2 ^ k)). pose proof (Z.mod_pos_bound (cursor + 2 ^ k - 1) (2 ^ k)). lia. }
  destruct Hoff as [-> Hoff]. clearbody off. change (2 ^ 32) with 4294967296 in Hoff.
  rewrite (u64_id (off + e_size e)) by (unfold is_u64; lia). rewrite (u32_id (rows + 1)) by (unfold is_u32; lia).
  destruct (Z.ltb_spec limit (off + e_size e)) as [Hover|Hfit].
  - split; [intros Hf; inversion Hf; subst; cbn in *; lia|intros _; eauto].
  - destruct (IH alignments limit (off + e_size e) (if negb (off =? cursor) then rows + 1 else rows)) as [IH1 IH2];
      try assumption; try (cbn in Hlen; lia); try (destruct (negb (off =? cursor)); lia).
    rewrite u32_id by (unfold is_u32; lia). split.
    + intros Hf. inversion Hf; subst. rewrite IH1 by assumption. cbn [gaps finish e_offset e_size].
      f_equal. f_equal. destruct (off =? cursor); cbn; lia.
    + intros Hf. destruct IH2 as (es & r & c & ->); [|eauto]. intros Hrest. apply Hf. constructor; [exact Hfit|exact Hrest].
Qed.

Definition round64k (z : Z) : Z := 2 ^ 16 * ((z + 2 ^ 16 - 1) / 2 ^ 16).
Lemma round64k_le z : z <= round64k z < z + 65536.
Proof. unfold round64k. change (2 ^ 16) with 65536. dlia. Qed.

(** The reference placement is ordered and aligned. *)
Definition placement_ok (cursor : Z) (target : list tetris_modem_smem_entry) (alignments : list Z) : Prop :=
  Forall (fun e => cursor <= e_offset e /\ e_offset e + e_size e <= finish cursor target) target /\
  ForallOrdPairs (fun a b => e_offset a + e_size a <= e_offset b) target /\
  Forall2 (fun e a => a = 0 \/ (a | e_offset e)) target alignments.
Lemma finish_mono target : forall cursor,
  Forall (fun e => 0 <= e_size e) target -> Forall (fun e => cursor <= e_offset e) target ->
  ForallOrdPairs (fun a b => e_offset a + e_size a <= e_offset b) target -> cursor <= finish cursor target.
Proof.
  induction target as [|e target IH]; intros cursor Hs Hc Ho; cbn; [lia|]. inversion Hs; subst. inversion Hc; subst. inversion Ho; subst.
  assert (e_offset e + e_size e <= finish (e_offset e + e_size e) target) by (apply IH; assumption). lia.
Qed.
Lemma finish_fits target limit : forall cursor,
  cursor <= limit -> Forall (fun e => e_offset e + e_size e <= limit) target -> finish cursor target <= limit.
Proof. induction target as [|e target IH]; intros cursor Hc Hf; cbn; [lia|]. inversion Hf; subst. now apply IH. Qed.
Lemma placed_ok entries : forall alignments cursor,
  length alignments = length entries -> Forall power_or_zero alignments -> Forall (fun e => is_u32 (e_size e)) entries ->
  placement_ok cursor (placed cursor entries alignments) alignments.
Proof.
  induction entries as [|e entries IH]; intros [|a alignments] cursor Hlen Ha He; try discriminate; [repeat constructor|].
  inversion Ha as [|? ? Ha0 Ha1]; subst. inversion He as [|? ? He0 He1]; subst. cbn [placed].
  set (off := if a =? 0 then cursor else a * ((cursor + a - 1) / a)).
  assert (Hoff : cursor <= off /\ (a = 0 \/ (a | off))).
  { unfold off. destruct Ha0 as [->|(k & Hk & ->)]; [cbn; lia|].
    assert (Hp : 0 < 2 ^ k) by (apply Z.pow_pos_nonneg; lia). replace (2 ^ k =? 0) with false by lia.
    split; [|right; apply Z.divide_factor_l].
    pose proof (Z.div_mod (cursor + 2 ^ k - 1) (2 ^ k)). pose proof (Z.mod_pos_bound (cursor + 2 ^ k - 1) (2 ^ k)). lia. }
  destruct Hoff as [Hoff Hal]. clearbody off. unfold is_u32 in He0.
  destruct (IH alignments (off + e_size e) ltac:(cbn in Hlen; lia) Ha1 He1) as (H1 & H2 & H3).
  set (rest := placed (off + e_size e) entries alignments) in *.
  assert (Hs : Forall (fun e => 0 <= e_size e) rest).
  { unfold rest. clear - He1. generalize (off + e_size e). revert alignments. induction entries as [|x l IHl]; intros [|b bs] c; cbn; try constructor.
    - apply Forall_inv in He1. unfold is_u32 in He1. cbn in *. lia.
    - inversion He1; subst. now apply IHl. }
  apply Forall_and in H1 as [H1 H1'].
  assert (Hf : off + e_size e <= finish (off + e_size e) rest) by now apply finish_mono.
  split; [|split].
  - constructor; cbn; [lia|]. rewrite Forall_forall in H1, H1' |- *. intros x Hx. specialize (H1 x Hx). specialize (H1' x Hx). cbn in *. lia.
  - constructor; [|assumption]. eapply Forall_impl; [exact H1|]. cbn. lia.
  - constructor; assumption.
Qed.

Lemma smem_place_ok entries alignments limit cap :
  length alignments = length entries -> Forall power_or_zero alignments -> Forall (fun e => is_u32 (e_size e)) entries ->
  is_u32 limit -> len entries <= 32 ->
  let target := placed 0 entries alignments in
  let total := round64k (finish 0 target) in
  0 < finish 0 target ->
  (total <= limit -> smem_place entries alignments limit cap = (0, target, total, len entries + gaps 0 target)) /\
  (limit < total -> exists es c r, smem_place entries alignments limit cap = (- ERANGE, es, c, r)).
Proof.
  intros Hlen Ha He Hl Hn target total Hpos. unfold is_u32 in Hl. pose proof (len_nonneg entries).
  destruct (place_loop_ok entries alignments limit 0 (len entries)) as [Hok Herr]; try assumption; try (unfold is_u32; lia).
  fold target in Hok, Herr. pose proof (round64k_le (finish 0 target)) as Hrd. fold total in Hrd.
  destruct (placed_ok entries alignments 0 Hlen Ha He) as (Hin & _). fold target in Hin. unfold smem_place.
  assert (Hround : finish 0 target <= limit -> Z.ldiff (u64 (finish 0 target + 65535)) 65535 = total).
  { intros Hf. rewrite u64_id by (unfold is_u64; lia).
    replace (finish 0 target + 65535) with (finish 0 target + 2 ^ 16 - 1) by (change (2 ^ 16) with 65536; lia).
    apply (ldiff_round (finish 0 target) 16); lia. }
  assert (Hfits : finish 0 target <= limit -> Forall (fun e => e_offset e + e_size e <= limit) target)
    by (intros Hf; eapply Forall_impl; [exact Hin|]; cbn; lia).
  split.
  - intros Ht. rewrite Hok by (apply Hfits; lia). cbn [Z.eqb negb]. cbv zeta. rewrite Hround by lia.
    replace ((total =? 0) || (limit <? total)) with false by lia. rewrite u32_id by (unfold is_u32; lia). repeat f_equal; lia.
  - intros Ht. destruct (decide (Forall (fun e => e_offset e + e_size e <= limit) target)) as [Hf|Hf].
    + rewrite Hok by exact Hf. cbn [Z.eqb negb]. cbv zeta. destruct (Z.le_gt_cases (finish 0 target) limit) as [Hfl|Hfl].
      * rewrite Hround by exact Hfl. replace ((total =? 0) || (limit <? total)) with true by lia. eauto.
      * exfalso. assert (finish 0 target <= limit) by (apply finish_fits; [lia|assumption]). lia.
    + destruct (Herr Hf) as (es & r & c & ->). cbn. eauto.
Qed.

(** The two tables of the plan. *)
Lemma ccb_sizes_u32 gear ccb : ccb_sizes gear = Some ccb -> is_u32 ccb.
Proof. unfold ccb_sizes. repeat case_match; intros [= <-]; unfold is_u32; lia. Qed.
Ltac power n := right; exists n; split; [lia|reflexivity].
Lemma cache_align_powers : Forall power_or_zero cache_align.
Proof.
  unfold cache_align. constructor; [power 16|]. constructor; [power 6|]. constructor; [power 20|].
  constructor; [power 16|]. constructor; [power 7|constructor].
Qed.
Lemma nc_align_powers : Forall power_or_zero nc_align.
Proof. unfold nc_align. cbn. repeat (constructor; [now left|]). constructor; [power 12|constructor]. Qed.
Lemma nc_place :
  let target := placed 0 nc_entries nc_align in
  smem_place nc_entries nc_align 0xa000000 0 = (0, target, round64k (finish 0 target), 18 + gaps 0 target) /\ placement_ok 0 target nc_align.
Proof.
  cbv zeta. assert (Hs : Forall (fun e => is_u32 (e_size e)) nc_entries) by (cbn; repeat apply List.Forall_cons; try apply List.Forall_nil; unfold is_u32; cbn; lia).
  split; [|apply placed_ok; [reflexivity|apply nc_align_powers|exact Hs]].
  apply smem_place_ok; [reflexivity|apply nc_align_powers|exact Hs|unfold is_u32; lia|vm_compute; congruence..].
Qed.
Lemma cache_place inputs ccb : is_u32 (consys_size inputs) -> is_u32 (nv_cache_size inputs) -> is_u32 ccb ->
  let entries := cache_entries inputs ccb in
  let target := placed 0 entries cache_align in
  let total := round64k (finish 0 target) in
  (total <= 0x8000000 -> smem_place entries cache_align 0x8000000 0 = (0, target, total, 5 + gaps 0 target)) /\
  (0x8000000 < total -> exists es c r, smem_place entries cache_align 0x8000000 0 = (- ERANGE, es, c, r)) /\
  placement_ok 0 target cache_align.
Proof.
  intros H1 H2 H3 entries target total. unfold is_u32 in *.
  assert (Hs : Forall (fun e => is_u32 (e_size e)) entries)
    by (unfold entries, cache_entries; repeat apply List.Forall_cons; try apply List.Forall_nil; unfold is_u32; cbn; try lia;
        [destruct (nv_cache_size inputs =? 0)|destruct (udc_en inputs =? 0)]; cbn; lia).
  pose proof (placed_ok entries cache_align 0 eq_refl cache_align_powers Hs) as Hp. fold target in Hp.
  assert (Hpos : 0 < finish 0 target).
  { destruct Hp as (Hf & _). apply Forall_inv_tail, Forall_inv_tail, Forall_inv_tail, Forall_inv_tail, Forall_inv in Hf. cbn in Hf |- *. lia. }
  destruct (smem_place_ok entries cache_align 0x8000000 0 eq_refl cache_align_powers Hs ltac:(unfold is_u32; lia) ltac:(vm_compute; congruence) Hpos)
    as [Ha Hb]. auto.
Qed.

Lemma plan_smem_cases inputs plan0 :
  is_u32 (consys_size inputs) -> is_u32 (nv_cache_size inputs) -> 0 <= udc_en inputs ->
  let '(ret, plan) := tetris_modem_plan_smem_b41 (Some inputs) (Some plan0) in
  let target ccb := placed 0 (cache_entries inputs ccb) cache_align in
  (ret <> 0 -> plan = Some plan0 /\ (ret = - EINVAL \/ ret = - ERANGE)) /\
  (ret = 0 <-> drdi_version inputs = 3 /\ udc_en inputs <= 1 /\
     exists ccb, ccb_sizes (ccb_gear inputs) = Some ccb /\ round64k (finish 0 (target ccb)) <= 0x8000000) /\
  (ret = 0 -> exists ccb p, ccb_sizes (ccb_gear inputs) = Some ccb /\ plan = Some p /\
     nc p = placed 0 nc_entries nc_align /\ placement_ok 0 (nc p) nc_align /\
     nc_capacity p = round64k (finish 0 (nc p)) /\ nc_rows p = 18 + gaps 0 (nc p) /\
     cache p = target ccb /\ placement_ok 0 (cache p) cache_align /\
     cache_capacity p = round64k (finish 0 (cache p)) /\ cache_rows p = 5 + gaps 0 (cache p)).
Proof.
  intros Hcs Hnv Hudc. unfold tetris_modem_plan_smem_b41. cbv zeta.
  destruct (negb (drdi_version inputs =? 3) || (1 <? udc_en inputs)) eqn:G.
  { split; [auto|]. split; [split; [intros [=]|lia]|intros [=]]. }
  destruct (ccb_sizes (ccb_gear inputs)) as [ccb|] eqn:Eccb; cycle 1.
  { split; [auto|]. split; [split; [intros [=]|intros (_ & _ & c & [=] & _)]|intros [=]]. }
  destruct nc_place as (Hnc & Hncok). rewrite Hnc. cbn [negb Z.eqb].
  destruct (cache_place inputs ccb Hcs Hnv (ccb_sizes_u32 _ _ Eccb)) as (Hok & Herr & Hcok).
  destruct (Z.le_gt_cases (round64k (finish 0 (placed 0 (cache_entries inputs ccb) cache_align))) 0x8000000) as [Hle|Hgt].
  - rewrite Hok by exact Hle. cbn [negb Z.eqb]. split; [intros []; reflexivity|]. split; [split; [|reflexivity]|].
    + intros _. split; [lia|]. split; [lia|]. eauto.
    + intros _. exists ccb. eexists. split; [reflexivity|]. split; [reflexivity|]. cbn [nc cache nc_capacity cache_capacity nc_rows cache_rows]. auto 10.
  - destruct (Herr Hgt) as (es & c & r & ->). cbn [negb Z.eqb]. split; [auto|]. split; [split; [intros [=]|]|intros [=]].
    intros (_ & _ & c' & [= <-] & Hle). lia.
Qed.

(** The shared-memory plan. It succeeds exactly for the supported profile
    (DRDI version 3, a boolean UDC switch, a known CCB gear) whose cached
    entries fit 128 MiB after rounding to 64 KiB; then both tables are the
    reference placement: entries in order, disjoint and aligned, the capacity
    the rounded end, and one extra row per alignment gap. Otherwise the error is
    -EINVAL or -ERANGE and the caller's plan is unchanged. *)
Theorem plan_smem_exact inputs plan0 :
  is_u32 (consys_size inputs) -> is_u32 (nv_cache_size inputs) -> 0 <= udc_en inputs ->
  let '(ret, plan) := tetris_modem_plan_smem_b41 (Some inputs) (Some plan0) in
  let target ccb := placed 0 (cache_entries inputs ccb) cache_align in
  (ret <> 0 -> plan = Some plan0 /\ (ret = - EINVAL \/ ret = - ERANGE)) /\
  (ret = 0 <-> drdi_version inputs = 3 /\ udc_en inputs <= 1 /\
     exists ccb, ccb_sizes (ccb_gear inputs) = Some ccb /\ round64k (finish 0 (target ccb)) <= 0x8000000) /\
  (ret = 0 -> exists ccb p, ccb_sizes (ccb_gear inputs) = Some ccb /\ plan = Some p /\
     nc p = placed 0 nc_entries nc_align /\ placement_ok 0 (nc p) nc_align /\
     nc_capacity p = round64k (finish 0 (nc p)) /\ nc_rows p = 18 + gaps 0 (nc p) /\
     cache p = target ccb /\ placement_ok 0 (cache p) cache_align /\
     cache_capacity p = round64k (finish 0 (cache p)) /\ cache_rows p = 5 + gaps 0 (cache p)).
Proof. exact (plan_smem_cases inputs plan0). Qed.
Lemma plan_smem_exact_witness :
  (tetris_modem_plan_smem_b41 (Some (SmemInputs 3 0 0x200000 0 1)) (Some (SmemPlan [] [] 0 0 0 0))).1 = 0.
Proof.
  pose proof (plan_smem_exact (SmemInputs 3 0 0x200000 0 1) (SmemPlan [] [] 0 0 0 0)) as H.
  destruct (tetris_modem_plan_smem_b41 (Some (SmemInputs 3 0 0x200000 0 1)) (Some (SmemPlan [] [] 0 0 0 0))) as [ret plan].
  destruct H as (_ & H & _); [unfold is_u32; cbn; lia|unfold is_u32; cbn; lia|cbn; lia|].
  apply H. split; [reflexivity|]. split; [cbn; lia|]. exists 0x1600000. split; [reflexivity|vm_compute; congruence].
Defined.
