(* ===== verification/Semantic.v ===== *)
(** * Owned modem metadata: [modem/drafts/runtime-metadata/semantic.h] and [owned_tags.h]

    The import of the boot loader's tag block: framing of the 21 tags, the
    consistency of every table with the layout the retained header implies,
    and the publication into the argument table. A pointer into the snapshot
    is the snapshot with an offset. *)

From Stdlib Require Import Ascii String.
From S2P Require Import Prelude LayoutModel.

(** ** Reserved windows *)

Record tetris_metadata_window : Type := Window { wbase : Z; wcapacity : Z }.
Record tetris_metadata_banks : Type := Banks {
  firmware : tetris_metadata_window;
  bank_nc : tetris_metadata_window;
  bank_cache : tetris_metadata_window;
  tags : tetris_metadata_window
}.

Definition windows_meet (a b : tetris_metadata_window) : bool :=
  (wbase a <? u64 (wbase b + wcapacity b)) && (wbase b <? u64 (wbase a + wcapacity a)).
(** The loop from window [i] on; [seen] are the windows before it. *)
Fixpoint windows_loop (i : Z) (seen rest : list tetris_metadata_window) : Z :=
  match rest with
  | [] => 0
  | a :: rest =>
    let alignment := if i =? 3 then 4096 else 0x2000000 in
    if (wbase a =? 0) || negb (Z.land (wbase a) (alignment - 1) =? 0) || (UINT64_MAX - wcapacity a <? wbase a)
       || ((i <? 3) && (Z.shiftl 1 35 <? u64 (wbase a + wcapacity a)))
    then - ERANGE
    else if existsb (windows_meet a) seen then - EEXIST
    else windows_loop (i + 1) (seen ++ [a]) rest
  end.
Definition tetris_metadata_windows (banks : option tetris_metadata_banks) : Z :=
  match banks with
  | None => - ENODATA
  | Some banks =>
    if negb (wcapacity (firmware banks) =? 0x20000000) || negb (wcapacity (bank_nc banks) =? 0x8000000)
       || negb (wcapacity (bank_cache banks) =? 0x8000000) || negb (wcapacity (tags banks) =? 65536)
    then - EPROTONOSUPPORT
    else windows_loop 0 [] [firmware banks; bank_nc banks; bank_cache banks; tags banks]
  end.

(** ** Shared-memory tables *)

Definition tetris_metadata_smem_row (snap : list Z) (raw base id off sz flags md_offset : Z) : Z :=
  if negb (le64 snap raw =? u64 (base + off)) || negb (le64 snap (raw + 8) =? 0) || negb (word snap (raw + 16) =? id)
     || negb (word snap (raw + 20) =? off) || negb (word snap (raw + 24) =? sz) || negb (word snap (raw + 28) =? 0)
     || negb (word snap (raw + 32) =? flags) || negb (word snap (raw + 36) =? u32 (md_offset + off))
  then - EBADMSG else 0.

(** The loop from some entry on. *)
Fixpoint smem_loop (snap : list Z) (raw bytes : Z) (entries : list tetris_modem_smem_entry)
    (bank : tetris_metadata_window) (md_offset cursor used : Z) : Z :=
  match entries with
  | [] => if used =? bytes then 0 else - EBADMSG
  | e :: entries =>
    if (e_offset e <? cursor) || (wcapacity bank <? e_offset e) || (u64 (wcapacity bank - e_offset e) <? e_size e)
       || (u32 (0xffffffff - md_offset) <? e_offset e) || (u32 (u32 (0xffffffff - md_offset) - e_offset e) <? e_size e)
    then - ERANGE
    else
    let entry used :=
      if u32 (bytes - used) <? 40 then - EBADMSG
      else
      let ret := tetris_metadata_smem_row snap (raw + used) (wbase bank) (e_id e) (e_offset e) (e_size e) (e_flags e) md_offset in
      if negb (ret =? 0) then ret
      else smem_loop snap raw bytes entries bank md_offset (u32 (e_offset e + e_size e)) (u32 (used + 40)) in
    if cursor <? e_offset e then
      if u32 (bytes - used) <? 40 then - EBADMSG
      else
      let ret := tetris_metadata_smem_row snap (raw + used) (wbase bank) (e_id e) cursor (u32 (e_offset e - cursor)) 4 md_offset in
      if negb (ret =? 0) then ret else entry (u32 (used + 40))
    else entry used
  end.
Definition tetris_metadata_smem (snap : list Z) (raw bytes : Z) (entries : list tetris_modem_smem_entry)
    (bank : tetris_metadata_window) (md_offset : Z) : Z :=
  smem_loop snap raw bytes entries bank md_offset 0 0.

(** ** Semantics of the whole block *)

Definition memchr_inv0 (snap : list Z) (p n : Z) : bool := existsb (fun b => negb (b =? 0)) (slice snap p n).
Definition at_ (l : list Z) (i : nat) : Z := nth i l 0.

(** The overlap test of the regions [0 .. n). *)
Fixpoint regions_ok (chk : list Z) (logical : Z) (done : list (Z * Z)) (todo : list Z) : bool :=
  match todo with
  | [] => true
  | i :: todo =>
    let off := word chk (196 + i * 8) in
    let sz := word chk (200 + i * 8) in
    contained off sz logical
    && negb (existsb (fun p => (off <? u32 (p.1 + p.2)) && (p.1 <? u32 (off + sz))) done)
    && regions_ok chk logical (done ++ [(off, sz)]) todo
  end.
Definition block_row_ok (snap : list Z) (raw : Z) (b : tetris_modem_block) : bool :=
  (word snap raw =? offset b) && (word snap (raw + 4) =? size b) && (word snap (raw + 8) =? info b)
  && (word snap (raw + 12) =? attributes b) && (le64 snap (raw + 16) =? physical b).
(** The rows of a table with one row per element, [stride] bytes each. *)
Fixpoint table_ok {A} (row : Z -> A -> bool) (raw stride : Z) (l : list A) : bool :=
  match l with
  | [] => true
  | x :: l => row raw x && table_ok row (raw + stride) stride l
  end.
Definition cache_row_ok (snap : list Z) (bank : tetris_metadata_window) (raw : Z) (e : tetris_modem_smem_entry) : bool :=
  (le64 snap raw =? u64 (wbase bank + e_offset e)) && (word snap (raw + 8) =? e_offset e) && (word snap (raw + 12) =? e_size e)
  && (word snap (raw + 16) =? e_id e) && (word snap (raw + 20) =? 0).
Definition nc_row_ok (snap : list Z) (raw : Z) (e : tetris_modem_smem_entry) : bool :=
  (word snap raw =? e_offset e) && (word snap (raw + 4) =? e_offset e) && (word snap (raw + 8) =? e_size e)
  && (word snap (raw + 12) =? e_id e).
(** The legacy mirrors and summaries. *)
Definition mirrors_ok (snap : list Z) (offsets : list Z) (banks : tetris_metadata_banks) (smem : tetris_modem_smem_plan) : bool :=
  let raw := at_ offsets 2 in
  let ccb := nth 2 (cache smem) (SmemEntry 0 0 0 0) in
  (le64 snap raw =? wbase (bank_nc banks)) && (word snap (raw + 8) =? 0) && (word snap (raw + 12) =? nc_capacity smem)
  && negb (memchr_inv0 snap (raw + 16) 16) && (word snap (raw + 32) =? nc_capacity smem) && (word snap (raw + 36) =? 0)
  && (let raw := at_ offsets 3 in
      (le64 snap raw =? u64 (wbase (bank_cache banks) + e_offset ccb)) && (word snap (raw + 8) =? e_size ccb)
      && (word snap (raw + 12) =? 0))
  && (let raw := at_ offsets 15 in
      (le64 snap raw =? wbase (bank_cache banks)) && (word snap (raw + 8) =? 0x8000000)
      && (word snap (raw + 12) =? cache_capacity smem) && (word snap (raw + 16) =? 5) && (word snap (raw + 20) =? 0)).

Definition zero_plan : tetris_modem_smem_plan := SmemPlan [] [] 0 0 0 0.

Definition tetris_metadata_semantics (snap : list Z) (offsets lengths : list Z) (obanks : option tetris_metadata_banks) : Z :=
  let chk := skipn (Z.to_nat (at_ offsets 7)) snap in
  let hdr := at_ offsets 1 in
  let logical := word chk 172 in
  let rom_size := word snap (at_ offsets 8) in
  let dsp_offset := word chk 184 in
  let dsp_capacity := word chk 188 in
  let regions := word chk 192 in
  let ret := tetris_metadata_windows obanks in
  if negb (ret =? 0) then ret
  else
  match obanks with
  | None => - ENODATA
  | Some banks =>
  if (logical =? 0) || (wcapacity (firmware banks) <? logical) || (word chk 176 =? 0) || (logical <? word chk 176)
     || (rom_size <? 512) || (64 * 1024 * 1024 <? rom_size) || negb (Z.land rom_size 15 =? 0) || (logical <? rom_size)
     || negb (contained dsp_offset dsp_capacity logical) || (dsp_offset <? rom_size) || (regions =? 0) || (8 <? regions)
  then - ERANGE
  else if negb (le64 snap hdr =? wbase (firmware banks)) || negb (le64 snap (at_ offsets 9) =? wbase (firmware banks))
          || memchr_inv0 snap (hdr + 15) 9
  then - EBADMSG
  else if negb (regions_ok chk logical [] (indices (Z.to_nat regions))) then - ERANGE
  else
  let '(ret, memory) := tetris_metadata_memory chk rom_size (wbase (firmware banks)) (wcapacity (firmware banks)) (Some []) in
  if negb (ret =? 0) then ret
  else
  let memory := padding (default [] memory) in
  if negb (at_ lengths 10 =? u32 (len memory * 24)) then - EBADMSG
  else if negb (table_ok (block_row_ok snap) (at_ offsets 10) 24 memory) then - EBADMSG
  else
  let inputs := SmemInputs (word chk 0x190) (word chk 0x184) (word chk 0x180) (word chk 0x18c) 1 in
  if negb (udc_en inputs =? 0) || (consys_size inputs =? 0) then - EPROTONOSUPPORT
  else
  let '(ret, plan) := tetris_modem_plan_smem_b41 (Some inputs) (Some zero_plan) in
  if negb (ret =? 0) then ret
  else
  let smem := default zero_plan plan in
  if (wcapacity (bank_nc banks) <? nc_capacity smem) || (wcapacity (bank_cache banks) <? cache_capacity smem)
     || negb (at_ lengths 12 =? u32 (nc_rows smem * 40)) || negb (at_ lengths 14 =? u32 (cache_rows smem * 40))
  then - ERANGE
  else
  let ret := tetris_metadata_smem snap (at_ offsets 12) (at_ lengths 12) (nc smem) (bank_nc banks) 0 in
  let ret := if ret =? 0
             then tetris_metadata_smem snap (at_ offsets 14) (at_ lengths 14) (cache smem) (bank_cache banks) 0x8000000
             else ret in
  if negb (ret =? 0) then ret
  else if negb (mirrors_ok snap offsets banks smem) then - EBADMSG
  else if negb (table_ok (cache_row_ok snap (bank_cache banks)) (at_ offsets 16) 24 (cache smem)) then - EBADMSG
  else if negb (table_ok (nc_row_ok snap) (at_ offsets 18) 16 (nc smem)) then - EBADMSG
  else 0
  end.

(** ** Import *)

Definition chars (s : string) : list Z := (fun a => Z.of_N (N_of_ascii a)) <$> list_ascii_of_string s.
Record tag_profile : Type := Tag { tag_name : list Z; tag_bytes : Z; tag_stride : Z; tag_maximum : Z }.
Definition tag (name : string) (bytes stride maximum : Z) : tag_profile := Tag (chars name) bytes stride maximum.
Definition profile : list tag_profile :=
  [tag "hdr_count" 4 0 0; tag "hdr_tbl_inf" 24 0 0; tag "smem_layout" 40 0 0; tag "ccb_info" 16 0 0; tag "udc_layout" 8 0 0;
   tag "md1_sib_info" 16 0 0; tag "md1_phy_cap" 4 0 0; tag "md1_chk" 512 0 0; tag "md1img" 4 0 0; tag "md_bank0_base" 8 0 0;
   tag "md_mem_layout" 0 24 32; tag "nc_smem_layout_num" 4 0 0; tag "nc_smem_layout" 0 40 36; tag "c_smem_layout_num" 4 0 0;
   tag "c_smem_layout" 0 40 10; tag "md1_bank4_cache_info" 24 0 0; tag "md1_bank4_cache_layout" 120 0 0;
   tag "nc_smem_info_ext_num" 4 0 0; tag "nc_smem_info_ext" 288 0 0; tag "md1_smem_cahce_offset" 4 0 0; tag "free_in_kernel" 4 0 0].

(** One published argument: its name, and its value as a span of the snapshot. *)
Record args_key_val : Type := Arg { key : list Z; val_size : Z; pdata : Z }.
(** The importer's globals with the used part of the argument table. *)
Record tags_state : Type := Tags {
  attempted : bool;
  tags_error : Z;
  owned_tags : option (list Z);
  s_args_tbl : list args_key_val
}.

Section Importer.
(** Argument table code of the vendor driver: the lookup of a name, whether it
    was initialised, its capacity; and whether the allocation succeeds. *)
Context (is_key_exist : list args_key_val -> list Z -> Z) (s_init_done : bool) (max_keys : Z) (allocated : bool).

(** The framing of one tag; [cursor] is where its value must start. *)
Definition tag_framing_ok (snap : list Z) (size i cursor : Z) (t : tag_profile) : bool :=
  let header := i * 76 in
  let bytes := le32 snap (header + 68) in
  let name_size := len (tag_name t) + 1 in
  bool_decide (slice snap header name_size = tag_name t ++ [0])
  && negb (memchr_inv0 snap (header + name_size) (64 - name_size))
  && (le32 snap (header + 64) =? cursor)
  && (le32 snap (header + 72) =? (if i + 1 <? 21 then (i + 1) * 76 else 0))
  && (bytes <=? u32 (size - cursor))
  && ((tag_bytes t =? 0) || (bytes =? tag_bytes t))
  && ((tag_stride t =? 0)
      || (negb (bytes =? 0) && (bytes mod tag_stride t =? 0) && (bytes / tag_stride t <=? tag_maximum t))).

(** The framing loop: offsets, lengths and the final cursor, or an error. *)
Fixpoint framing_loop (tbl : list args_key_val) (snap : list Z) (size i cursor : Z) (ts : list tag_profile)
    : Z + (list Z * list Z * Z) :=
  match ts with
  | [] => inr ([], [], cursor)
  | t :: ts =>
    let bytes := le32 snap (i * 76 + 68) in
    if negb (tag_framing_ok snap size i cursor t) then inl (- EBADMSG)
    else if 0 <=? is_key_exist tbl (tag_name t) then inl (- EEXIST)
    else match framing_loop tbl snap size (i + 1) (u32 (cursor + bytes)) ts with
         | inl e => inl e
         | inr (os, ls, c) => inr (cursor :: os, bytes :: ls, c)
         end
  end.

Definition counts_ok (snap offsets lengths : list Z) : bool :=
  (le32 snap (at_ offsets 0) =? 1) && (le32 snap (at_ offsets 11) =? at_ lengths 12 / 40)
  && (le32 snap (at_ offsets 13) =? at_ lengths 14 / 40) && (le32 snap (at_ offsets 17) =? 18)
  && (le32 snap (at_ offsets 19) =? 0x8000000) && (le32 snap (at_ offsets 20) =? 0).

Definition header_ok (snap offsets lengths : list Z) : bool :=
  let chk := at_ offsets 7 in
  let hdr := at_ offsets 1 in
  bool_decide (slice snap chk 12 = chars "CHECK_HEADER") && (le32 snap (chk + 12) =? 6) && (le32 snap (chk + 16) =? 2)
  && (le32 snap (chk + 20) =? 14) && (byte_at snap (chk + 168) =? 1) && (le32 snap (chk + 508) =? 512)
  && (le32 snap (hdr + 8) =? le32 snap (chk + 172)) && (byte_at snap (hdr + 12) =? 0) && (byte_at snap (hdr + 13) =? 0)
  && (byte_at snap (hdr + 14) =? 14) && (le64 snap hdr =? le64 snap (at_ offsets 9))
  && negb (memchr_inv0 snap (at_ offsets 4) (at_ lengths 4)) && negb (memchr_inv0 snap (at_ offsets 5) (at_ lengths 5))
  && (le32 snap (at_ offsets 6) =? 0) && (le32 snap (chk + 0x184) =? 0).

(** Everything after the copy: the offsets and lengths, or an error. *)
Definition validate_snapshot (tbl : list args_key_val) (snap : list Z) (size : Z) (banks : option tetris_metadata_banks)
    : Z + (list Z * list Z) :=
  match framing_loop tbl snap size 0 (21 * 76) profile with
  | inl e => inl e
  | inr (offsets, lengths, cursor) =>
    if negb (cursor =? size) || negb (counts_ok snap offsets lengths) then inl (- EBADMSG)
    else if negb (header_ok snap offsets lengths) then inl (- EBADMSG)
    else
    let ret := tetris_metadata_semantics snap offsets lengths banks in
    if negb (ret =? 0) then inl ret else inr (offsets, lengths)
  end.

(** The arguments of the profile, as spans of the snapshot. *)
Fixpoint publish (ts : list tag_profile) (offsets lengths : list Z) : list args_key_val :=
  match ts, offsets, lengths with
  | t :: ts, o :: offsets, l :: lengths => Arg (tag_name t ++ [0]) l o :: publish ts offsets lengths
  | _, _, _ => []
  end.

Definition mtk_ccci_import_owned_tags (s : tags_state) (mapped : option (list Z)) (size version count : Z)
    (banks : option tetris_metadata_banks) : Z * tags_state :=
  let fault ret := (ret, Tags true ret (owned_tags s) (s_args_tbl s)) in
  if attempted s then (if negb (tags_error s =? 0) then tags_error s else - EALREADY, s)
  else
  match mapped with
  | None => fault (- EINVAL)
  | Some mapped =>
    if negb s_init_done || negb (version =? 2) || negb (count =? 21) || (size <? 21 * 76) || (65536 <? size)
       || (max_keys - 21 <? len (s_args_tbl s))
    then fault (- EINVAL)
    else
    let ret := tetris_metadata_windows banks in
    if negb (ret =? 0) then fault ret
    else if negb allocated then fault (- ENOMEM)
    else
    let snapshot := firstn (Z.to_nat size) mapped in
    match validate_snapshot (s_args_tbl s) snapshot size banks with
    | inl ret => fault ret
    | inr (offsets, lengths) =>
      (0, Tags true (tags_error s) (Some snapshot) (s_args_tbl s ++ publish profile offsets lengths))
    end
  end.
End Importer.

(** ** Words and slices *)

Lemma slice_cut l i k n m : k = n + m -> 0 <= i -> 0 <= n -> 0 <= m -> i + k <= len l ->
  slice l i k = slice l i n ++ slice l (i + n) m.
Proof. intros -> ? ? ? ?. apply slice_split; lia. Qed.

Section Words.
Context (l : list Z) (Hl : bytes_ok l).

Lemma slice_4 i : 0 <= i -> i + 4 <= len l -> slice l i 4 = [byte_at l i; byte_at l (i + 1); byte_at l (i + 2); byte_at l (i + 3)].
Proof.
  intros Hi Hn. rewrite (slice_cut l i 4 2 2) by lia. rewrite slice_2, slice_2 by lia. rewrite <- Z.add_assoc. reflexivity.
Qed.
Lemma word_slice i v : 0 <= i -> i + 4 <= len l -> is_u32 v -> word l i = v <-> slice l i 4 = put32 v.
Proof.
  intros Hi Hn Hv. rewrite slice_4 by assumption. change (word l i) with (le32 l i). split.
  - intros <-. now rewrite put32_le32.
  - intros E. rewrite le32_le_of, E, put32_le_to, le_of_le_to by assumption. apply Z.mod_small. exact Hv.
Qed.
Lemma le64_slice i v : 0 <= i -> i + 8 <= len l -> is_u64 v -> le64 l i = v <-> slice l i 8 = put64 v.
Proof.
  intros Hi Hn Hv. unfold le64. pose proof (le32_range l i Hl) as H1. pose proof (le32_range l (i + 4) Hl) as H2. unfold is_u32, is_u64 in *.
  rewrite lor_shiftl_add by lia. change (2 ^ 32) with 4294967296. rewrite (slice_cut l i 8 4 4) by lia. unfold put64.
  rewrite Z.shiftr_div_pow2 by lia. change (2 ^ 32) with 4294967296.
  pose proof (word_slice i (u32 v) Hi ltac:(lia) (u32_range v)) as W1.
  pose proof (word_slice (i + 4) (u32 (v / 4294967296)) ltac:(lia) ltac:(lia) (u32_range _)) as W2.
  change (word l i) with (le32 l i) in W1. change (word l (i + 4)) with (le32 l (i + 4)) in W2. unfold u32 in *. split.
  - intros Hv'. f_equal; [apply W1|apply W2]; rewrite <- Hv'; dlia.
  - intros E. apply app_inj_1 in E as [E1 E2]; [|rewrite slice_4 by lia; reflexivity]. apply W1 in E1. apply W2 in E2. rewrite E1, E2. dlia.
Qed.
End Words.

(** ** Shared-memory rows *)

Definition row (base id off sz flags md_offset : Z) : list Z :=
  put64 (u64 (base + off)) ++ put64 0 ++ put32 id ++ put32 off ++ put32 sz ++ put32 0 ++ put32 flags ++ put32 (u32 (md_offset + off)).
(** The table a producer writes: one row per entry, preceded by a padding row
    (with the next entry's identifier and flag 4) where there is a gap. *)
Fixpoint reference_rows (base md_offset cursor : Z) (entries : list tetris_modem_smem_entry) : list Z :=
  match entries with
  | [] => []
  | e :: entries =>
    (if cursor <? e_offset e then row base (e_id e) cursor (e_offset e - cursor) 4 md_offset else [])
    ++ row base (e_id e) (e_offset e) (e_size e) (e_flags e) md_offset
    ++ reference_rows base md_offset (e_offset e + e_size e) entries
  end.
(** The entries are ordered, inside the bank and addressable by the modem. *)
Fixpoint geometry_ok (cap md_offset cursor : Z) (entries : list tetris_modem_smem_entry) : Prop :=
  match entries with
  | [] => True
  | e :: entries => cursor <= e_offset e /\ e_offset e + e_size e <= cap /\ md_offset + e_offset e + e_size e <= UINT32_MAX /\
      geometry_ok cap md_offset (e_offset e + e_size e) entries
  end.
Definition entry_u32 (e : tetris_modem_smem_entry) : Prop :=
  is_u32 (e_id e) /\ is_u32 (e_offset e) /\ is_u32 (e_size e) /\ is_u32 (e_flags e).

Lemma len_row base id off sz flags md : len (row base id off sz flags md) = 40.
Proof. reflexivity. Qed.

Section Rows.
Context (snap : list Z) (Hsnap : bytes_ok snap).

Lemma smem_row_exact at_ base id off sz flags md : 0 <= at_ -> at_ + 40 <= len snap ->
  is_u32 id -> is_u32 off -> is_u32 sz -> is_u32 flags ->
  let r := tetris_metadata_smem_row snap at_ base id off sz flags md in
  (r = 0 \/ r = - EBADMSG) /\ (r = 0 <-> slice snap at_ 40 = row base id off sz flags md).
Proof.
  intros Ha Hn H1 H2 H3 H4 r.
  pose proof (le64_slice snap Hsnap at_ (u64 (base + off)) Ha ltac:(lia) (u64_range _)) as E1.
  pose proof (le64_slice snap Hsnap (at_ + 8) 0 ltac:(lia) ltac:(lia) ltac:(unfold is_u64; lia)) as E2.
  pose proof (word_slice snap Hsnap (at_ + 16) id ltac:(lia) ltac:(lia) H1) as E3.
  pose proof (word_slice snap Hsnap (at_ + 20) off ltac:(lia) ltac:(lia) H2) as E4.
  pose proof (word_slice snap Hsnap (at_ + 24) sz ltac:(lia) ltac:(lia) H3) as E5.
  pose proof (word_slice snap Hsnap (at_ + 28) 0 ltac:(lia) ltac:(lia) ltac:(unfold is_u32; lia)) as E6.
  pose proof (word_slice snap Hsnap (at_ + 32) flags ltac:(lia) ltac:(lia) H4) as E7.
  pose proof (word_slice snap Hsnap (at_ + 36) (u32 (md + off)) ltac:(lia) ltac:(lia) (u32_range _)) as E8.
  assert (Hs : slice snap at_ 40 = slice snap at_ 8 ++ slice snap (at_ + 8) 8 ++ slice snap (at_ + 16) 4 ++ slice snap (at_ + 20) 4
    ++ slice snap (at_ + 24) 4 ++ slice snap (at_ + 28) 4 ++ slice snap (at_ + 32) 4 ++ slice snap (at_ + 36) 4).
  { rewrite (slice_cut snap at_ 40 8 32), (slice_cut snap (at_ + 8) 32 8 24), (slice_cut snap (at_ + 8 + 8) 24 4 20),
      (slice_cut snap (at_ + 8 + 8 + 4) 20 4 16), (slice_cut snap (at_ + 8 + 8 + 4 + 4) 16 4 12),
      (slice_cut snap (at_ + 8 + 8 + 4 + 4 + 4) 12 4 8), (slice_cut snap (at_ + 8 + 8 + 4 + 4 + 4 + 4) 8 4 4) by lia.
    rewrite <- !Z.add_assoc. reflexivity. }
  assert (Hlen : forall i n, 0 <= i -> 0 <= n -> at_ + i + n <= len snap -> length (slice snap (at_ + i) n) = Z.to_nat n)
    by (intros i n Hi Hn0 Hb; pose proof (len_slice snap (at_ + i) n ltac:(lia) Hn0 Hb); unfold len in *; lia).
  assert (Hlen0 : length (slice snap at_ 8) = 8%nat)
    by (pose proof (len_slice snap at_ 8 ltac:(lia) ltac:(lia) ltac:(lia)); unfold len in *; lia).
  split; [unfold r, tetris_metadata_smem_row; destruct (_ || _ || _ || _ || _ || _ || _ || _); auto|].
  assert (Hr : r = 0 <-> le64 snap at_ = u64 (base + off) /\ le64 snap (at_ + 8) = 0 /\ word snap (at_ + 16) = id /\
    word snap (at_ + 20) = off /\ word snap (at_ + 24) = sz /\ word snap (at_ + 28) = 0 /\ word snap (at_ + 32) = flags /\
    word snap (at_ + 36) = u32 (md + off)).
  { unfold r, tetris_metadata_smem_row. destruct (_ || _ || _ || _ || _ || _ || _ || _) eqn:G; [|lia]. split; [intros [=]|lia]. }
  rewrite Hr, E1, E2, E3, E4, E5, E6, E7, E8, Hs. unfold row. clear - Hlen Hlen0 Hn. split.
  - intros (-> & -> & -> & -> & -> & -> & -> & ->). reflexivity.
  - intros E. do 7 (apply app_inj_1 in E as [? E]; [|first [exact Hlen0|rewrite Hlen by lia]; reflexivity]). auto 10.
Qed.

Context (raw bytes : Z) (Hraw : 0 <= raw) (Hbytes : is_u32 bytes) (Hfit : raw + bytes <= len snap).
Context (bank : tetris_metadata_window) (md : Z) (Hcap : is_u64 (wcapacity bank)) (Hmd : is_u32 md).

(** Consuming one row. *)
Lemma row_step used base id off sz flags (k : Z) (P : Prop) rest : 0 <= used <= bytes ->
  is_u32 id -> is_u32 off -> is_u32 sz -> is_u32 flags ->
  (40 <= bytes - used -> k = 0 <-> P /\ slice snap (raw + used + 40) (bytes - used - 40) = rest) ->
  (if u32 (bytes - used) <? 40 then - EBADMSG
   else let ret := tetris_metadata_smem_row snap (raw + used) base id off sz flags md in if negb (ret =? 0) then ret else k) = 0 <->
  P /\ slice snap (raw + used) (bytes - used) = row base id off sz flags md ++ rest.
Proof.
  intros Hu H1 H2 H3 H4 Hk. unfold is_u32 in Hbytes. rewrite u32_id by (unfold is_u32; lia).
  destruct (Z.ltb_spec (bytes - used) 40) as [Hlt|Hge].
  - split; [intros [=]|]. intros [_ E]. apply (f_equal len) in E. rewrite len_app, len_row, len_slice in E by lia.
    pose proof (len_nonneg rest). lia.
  - cbv zeta. destruct (smem_row_exact (raw + used) base id off sz flags md ltac:(lia) ltac:(lia) H1 H2 H3 H4) as [_ Hrow].
    set (ret := tetris_metadata_smem_row _ _ _ _ _ _ _ _) in *.
    replace (bytes - used) with (40 + (bytes - used - 40)) by lia. rewrite slice_split by lia.
    destruct (Z.eqb_spec ret 0) as [Er|Er]; cbn [negb].
    + rewrite (Hk Hge). apply Hrow in Er. rewrite Er.
      split; intros [HP E]; (split; [exact HP|]); [now rewrite E|now apply app_inv_head in E].
    + split; [contradiction|]. intros [_ E]. exfalso. apply Er, Hrow.
      apply app_inj_1 in E as [E _]; [exact E|]. pose proof (len_slice snap (raw + used) 40 ltac:(lia) ltac:(lia) ltac:(lia)) as Hl.
      unfold len in Hl. change (length (row base id off sz flags md)) with 40%nat. lia.
Qed.

Lemma smem_loop_exact entries : forall cursor used, Forall entry_u32 entries -> 0 <= used <= bytes -> is_u32 cursor ->
  smem_loop snap raw bytes entries bank md cursor used = 0 <->
  geometry_ok (wcapacity bank) md cursor entries /\
  slice snap (raw + used) (bytes - used) = reference_rows (wbase bank) md cursor entries.
Proof.
  induction entries as [|e entries IH]; intros cursor used He Hu Hc; cbn [smem_loop geometry_ok reference_rows].
  - destruct (Z.eqb_spec used bytes) as [->|Hne].
    + rewrite Z.sub_diag, slice_0. tauto.
    + split; [intros [=]|]. intros [_ E]. apply (f_equal len) in E. rewrite len_slice, len_nil in E by lia. lia.
  - inversion He as [|? ? (H1 & H2 & H3 & H4) Hes]; subst. pose proof H2 as H2'. pose proof H3 as H3'. unfold is_u32, is_u64 in *.
    destruct ((e_offset e <? cursor) || _ || _ || _ || _) eqn:G.
    { split; [intros [=]|]. intros [(G1 & G2 & G3 & _) _]. rewrite !u32_id, u64_id in G by (unfold is_u64, is_u32; rewrite ?u32_id by (unfold is_u32; lia); lia).
      lia. }
    assert (Hgeo : cursor <= e_offset e /\ e_offset e + e_size e <= wcapacity bank /\ md + e_offset e + e_size e <= 4294967295).
    { rewrite (u32_id (4294967295 - md)) in G by (unfold is_u32; lia).
      rewrite (u64_id (wcapacity bank - e_offset e)), (u32_id (4294967295 - md - e_offset e)) in G by (unfold is_u64, is_u32; lia). lia. }
    clear G. destruct Hgeo as (G1 & G2 & G3).
    set (rest := reference_rows (wbase bank) md (e_offset e + e_size e) entries).
    set (P := geometry_ok (wcapacity bank) md (e_offset e + e_size e) entries).
    assert (Hentry : forall u, 0 <= u <= bytes ->
      (if u32 (bytes - u) <? 40 then - EBADMSG
       else let ret := tetris_metadata_smem_row snap (raw + u) (wbase bank) (e_id e) (e_offset e) (e_size e) (e_flags e) md in
            if negb (ret =? 0) then ret
            else smem_loop snap raw bytes entries bank md (u32 (e_offset e + e_size e)) (u32 (u + 40))) = 0 <->
      P /\ slice snap (raw + u) (bytes - u) = row (wbase bank) (e_id e) (e_offset e) (e_size e) (e_flags e) md ++ rest).
    { intros u Hu'. apply row_step; try assumption. intros Hge. rewrite !u32_id by (unfold is_u32; lia).
      rewrite (IH (e_offset e + e_size e) (u + 40)) by (assumption || unfold is_u32; lia).
      replace (raw + (u + 40)) with (raw + u + 40) by lia. replace (bytes - (u + 40)) with (bytes - u - 40) by lia. reflexivity. }
    assert (Hgoal : forall X, (cursor <= e_offset e /\ e_offset e + e_size e <= wcapacity bank /\
      md + e_offset e + e_size e <= 4294967295 /\ P) /\ X <-> P /\ X) by tauto. rewrite Hgoal. cbv zeta.
    destruct (Z.ltb_spec cursor (e_offset e)) as [Hgap|Hgap]; [|exact (Hentry used Hu)].
    rewrite (u32_id (e_offset e - cursor)) by (unfold is_u32; lia).
    apply (row_step used (wbase bank) (e_id e) cursor (e_offset e - cursor) 4); try assumption; try (unfold is_u32; lia).
    intros Hge. rewrite (u32_id (used + 40)) by (unfold is_u32; lia).
    replace (raw + used + 40) with (raw + (used + 40)) by lia. replace (bytes - used - 40) with (bytes - (used + 40)) by lia.
    apply Hentry. lia.
Qed.
End Rows.

Lemma metadata_smem_cases snap raw bytes entries bank md :
  bytes_ok snap -> 0 <= raw -> is_u32 bytes -> raw + bytes <= len snap -> is_u64 (wcapacity bank) -> is_u32 md ->
  Forall entry_u32 entries ->
  tetris_metadata_smem snap raw bytes entries bank md = 0 <->
  geometry_ok (wcapacity bank) md 0 entries /\ slice snap raw bytes = reference_rows (wbase bank) md 0 entries.
Proof.
  intros Hs Hr Hb Hf Hc Hm He. unfold tetris_metadata_smem.
  rewrite (smem_loop_exact snap Hs raw bytes Hr Hb Hf bank md Hc Hm entries 0 0 He); [|unfold is_u32 in *; lia..].
  now rewrite Z.add_0_r, Z.sub_0_r.
Qed.

(** A shared-memory table is accepted exactly when the entries are in
    order, inside their bank and addressable, and the table's bytes are the
    reference table: one 40-byte row per entry, with a padding row carrying
    the next entry's identifier and flag 4 wherever there is a gap, and
    nothing after the last row. *)
Theorem metadata_smem_exact snap raw bytes entries bank md :
  bytes_ok snap -> 0 <= raw -> is_u32 bytes -> raw + bytes <= len snap -> is_u64 (wcapacity bank) -> is_u32 md ->
  Forall entry_u32 entries ->
  tetris_metadata_smem snap raw bytes entries bank md = 0 <->
  geometry_ok (wcapacity bank) md 0 entries /\ slice snap raw bytes = reference_rows (wbase bank) md 0 entries.
Proof. exact (metadata_smem_cases snap raw bytes entries bank md). Qed.
Definition witness_entries : list tetris_modem_smem_entry := [SmemEntry 22 0 0x1800 0x4a; SmemEntry 32 0x2000 0x100 2].
Lemma metadata_smem_exact_witness :
  tetris_metadata_smem ([1; 2] ++ reference_rows 0x40000000 0x8000000 0 witness_entries) 2 120 witness_entries
    (Window 0x40000000 0x8000000) 0x8000000 = 0.
Proof.
  apply (metadata_smem_exact ([1; 2] ++ reference_rows 0x40000000 0x8000000 0 witness_entries)).
  - concrete_bytes.
  - lia.
  - unfold is_u32; lia.
  - vm_compute. congruence.
  - unfold is_u64; cbn; lia.
  - unfold is_u32; lia.
  - repeat constructor; cbn; lia.
  - split; [cbn; lia|vm_compute; reflexivity].
Defined.

(** ** What an accepted block says *)

Definition window_u64 (w : tetris_metadata_window) : Prop := is_u64 (wbase w) /\ is_u64 (wcapacity w).
Definition banks_u64 (b : tetris_metadata_banks) : Prop := Forall window_u64 [firmware b; bank_nc b; bank_cache b; tags b].
Definition window_in (alignment bound : Z) (w : tetris_metadata_window) : Prop :=
  0 < wbase w /\ (alignment | wbase w) /\ wbase w + wcapacity w <= bound.
Definition windows_apart (a b : tetris_metadata_window) : Prop :=
  wbase a + wcapacity a <= wbase b \/ wbase b + wcapacity b <= wbase a.
(** The four windows have the profile's sizes, are aligned, reachable and disjoint. *)
Definition banks_ok (b : tetris_metadata_banks) : Prop :=
  wcapacity (firmware b) = 0x20000000 /\ wcapacity (bank_nc b) = 0x8000000 /\ wcapacity (bank_cache b) = 0x8000000 /\
  wcapacity (tags b) = 65536 /\
  Forall (window_in 0x2000000 (2 ^ 35)) [firmware b; bank_nc b; bank_cache b] /\ window_in 4096 UINT64_MAX (tags b) /\
  ForallOrdPairs windows_apart [firmware b; bank_nc b; bank_cache b; tags b].

Lemma aligned_divide x k : 0 <= k -> Z.land x (2 ^ k - 1) = 0 -> (2 ^ k | x).
Proof.
  intros Hk H. replace (2 ^ k - 1) with (Z.ones k) in H by (rewrite Z.ones_equiv; lia). rewrite Z.land_ones in H by assumption.
  apply Z.mod_divide; [apply Z.pow_nonzero; lia|exact H].
Qed.
Lemma meet_apart a b : window_u64 a -> window_u64 b ->
  wbase a + wcapacity a <= UINT64_MAX -> wbase b + wcapacity b <= UINT64_MAX -> windows_meet a b = false -> windows_apart b a.
Proof.
  intros [A1 A2] [B1 B2] Ha Hb H. unfold windows_meet in H. unfold is_u64 in *. rewrite !u64_id in H by (unfold is_u64; lia).
  unfold windows_apart. lia.
Qed.
(** One window of the loop. *)
Lemma windows_loop_step i seen a rest : 0 <= i < 4 -> window_u64 a ->
  windows_loop i seen (a :: rest) = 0 ->
  window_in (if i =? 3 then 4096 else 0x2000000) (if i =? 3 then UINT64_MAX else 2 ^ 35) a /\
  wbase a + wcapacity a <= UINT64_MAX /\ existsb (windows_meet a) seen = false /\ windows_loop (i + 1) (seen ++ [a]) rest = 0.
Proof.
  intros Hi [Hb Hc] H. cbn [windows_loop] in H. cbv zeta in H. change (Z.shiftl 1 35) with (2 ^ 35) in H.
  destruct (_ || _ || _ || _) eqn:G in H; [discriminate|].
  destruct (existsb (windows_meet a) seen) eqn:E in H; [discriminate|]. unfold is_u64 in *.
  rewrite (u64_id (wbase a + wcapacity a)) in G by (unfold is_u64; lia).
  split; [|split; [lia|split; [exact E|exact H]]]. unfold window_in. split; [lia|].
  destruct (Z.eqb_spec i 3).
  - split; [|lia]. apply (aligned_divide _ 12); [lia|]. change (2 ^ 12) with 4096. lia.
  - split; [|lia]. apply (aligned_divide _ 25); [lia|]. change (2 ^ 25) with 0x2000000. lia.
Qed.
Lemma windows_sound banks : banks_u64 banks -> tetris_metadata_windows (Some banks) = 0 -> banks_ok banks.
Proof.
  intros Hu H. unfold banks_u64 in Hu. rewrite !Forall_cons in Hu. destruct Hu as (U1 & U2 & U3 & U4 & _).
  unfold tetris_metadata_windows in H. destruct (_ || _ || _ || _) eqn:G in H; [discriminate|].
  apply windows_loop_step in H as (A1 & B1 & _ & H); [|lia|assumption]. cbn [app] in H.
  apply windows_loop_step in H as (A2 & B2 & C2 & H); [|lia|assumption]. cbn [app] in H.
  apply windows_loop_step in H as (A3 & B3 & C3 & H); [|lia|assumption]. cbn [app] in H.
  apply windows_loop_step in H as (A4 & B4 & C4 & _); [|lia|assumption]. cbn [existsb] in C2, C3, C4.
  rewrite !orb_false_iff in *. change (0 + 1 =? 3) with false in A2. change (0 + 1 + 1 =? 3) with false in A3.
  change (0 + 1 + 1 + 1 =? 3) with true in A4. cbv iota in A1, A2, A3, A4. unfold banks_ok.
  split; [lia|]. split; [lia|]. split; [lia|]. split; [lia|]. split; [repeat apply List.Forall_cons; auto|]. split; [exact A4|].
  repeat first [apply FOP_cons|apply FOP_nil|apply List.Forall_cons|apply List.Forall_nil]; apply meet_apart; tauto.
Qed.

(** Tables as a producer writes them. *)
Definition block_row (b : tetris_modem_block) : list Z :=
  put32 (offset b) ++ put32 (size b) ++ put32 (info b) ++ put32 (attributes b) ++ put64 (physical b).
Definition cache_row (bank : tetris_metadata_window) (e : tetris_modem_smem_entry) : list Z :=
  put64 (u64 (wbase bank + e_offset e)) ++ put32 (e_offset e) ++ put32 (e_size e) ++ put32 (e_id e) ++ put32 0.
Definition nc_row (e : tetris_modem_smem_entry) : list Z :=
  put32 (e_offset e) ++ put32 (e_offset e) ++ put32 (e_size e) ++ put32 (e_id e).

Section Tables.
Context (snap : list Z) (Hsnap : bytes_ok snap).

Lemma put_word i : 0 <= i -> i + 4 <= len snap -> slice snap i 4 = put32 (word snap i).
Proof. intros. apply word_slice; auto. now apply word_u32. Qed.
Lemma put_le64 i : 0 <= i -> i + 8 <= len snap -> slice snap i 8 = put64 (le64 snap i).
Proof. intros. apply le64_slice; auto. now apply le64_range. Qed.

Lemma table_slice {A} (row_ok : Z -> A -> bool) (enc : A -> list Z) stride l : 0 < stride ->
  (forall raw x, 0 <= raw -> raw + stride <= len snap -> row_ok raw x = true -> slice snap raw stride = enc x) ->
  forall raw, 0 <= raw -> raw + stride * len l <= len snap -> table_ok row_ok raw stride l = true ->
  slice snap raw (stride * len l) = flat_map enc l.
Proof.
  intros Hst Hrow. induction l as [|x l IH]; intros raw Hr Hf H.
  - rewrite len_nil, Z.mul_0_r. apply slice_0.
  - cbn [table_ok flat_map] in *. apply andb_true_iff in H as [H1 H2]. rewrite len_cons in *. pose proof (len_nonneg l).
    rewrite (slice_cut snap raw (stride * (1 + len l)) stride (stride * len l)) by nia.
    f_equal; [apply Hrow; [lia|nia|assumption]|apply IH; [lia|nia|assumption]].
Qed.

Lemma block_row_slice raw b : 0 <= raw -> raw + 24 <= len snap -> block_row_ok snap raw b = true -> slice snap raw 24 = block_row b.
Proof.
  intros Hr Hf H. unfold block_row_ok in H. unfold block_row.
  rewrite (slice_cut snap raw 24 4 20), (slice_cut snap (raw + 4) 20 4 16), (slice_cut snap (raw + 4 + 4) 16 4 12),
    (slice_cut snap (raw + 4 + 4 + 4) 12 4 8) by lia. rewrite !put_word, put_le64 by lia. rewrite <- !Z.add_assoc.
  change (4 + (4 + (4 + 4))) with 16. change (4 + (4 + 4)) with 12. change (4 + 4) with 8. repeat f_equal; lia.
Qed.
Lemma cache_row_slice bank raw e : 0 <= raw -> raw + 24 <= len snap -> cache_row_ok snap bank raw e = true ->
  slice snap raw 24 = cache_row bank e.
Proof.
  intros Hr Hf H. unfold cache_row_ok in H. unfold cache_row.
  rewrite (slice_cut snap raw 24 8 16), (slice_cut snap (raw + 8) 16 4 12), (slice_cut snap (raw + 8 + 4) 12 4 8),
    (slice_cut snap (raw + 8 + 4 + 4) 8 4 4) by lia. rewrite !put_word, put_le64 by lia. rewrite <- !Z.add_assoc.
  change (8 + (4 + (4 + 4))) with 20. change (8 + (4 + 4)) with 16. change (8 + 4) with 12. repeat f_equal; lia.
Qed.
Lemma nc_row_slice raw e : 0 <= raw -> raw + 16 <= len snap -> nc_row_ok snap raw e = true -> slice snap raw 16 = nc_row e.
Proof.
  intros Hr Hf H. unfold nc_row_ok in H. unfold nc_row.
  rewrite (slice_cut snap raw 16 4 12), (slice_cut snap (raw + 4) 12 4 8), (slice_cut snap (raw + 4 + 4) 8 4 4) by lia.
  rewrite !put_word by lia. rewrite <- !Z.add_assoc. change (4 + (4 + 4)) with 12. change (4 + 4) with 8. repeat f_equal; lia.
Qed.
End Tables.

(** The entries of a plan fit their words. *)
Lemma placed_u32 entries : forall alignments cursor,
  Forall (fun e => is_u32 (e_id e) /\ is_u32 (e_size e) /\ is_u32 (e_flags e)) entries ->
  Forall (fun e => is_u32 (e_id e) /\ is_u32 (e_size e) /\ is_u32 (e_flags e)) (placed cursor entries alignments).
Proof.
  induction entries as [|e entries IH]; intros [|a alignments] cursor H; try constructor; inversion H; subst; auto.
Qed.
Lemma placement_u32 entries alignments :
  Forall (fun e => is_u32 (e_id e) /\ is_u32 (e_size e) /\ is_u32 (e_flags e)) entries ->
  placement_ok 0 (placed 0 entries alignments) alignments -> finish 0 (placed 0 entries alignments) <= 0xa000000 ->
  Forall entry_u32 (placed 0 entries alignments).
Proof.
  intros He (Hin & _) Hf. apply (placed_u32 _ alignments 0) in He. rewrite Forall_forall in He, Hin |- *. intros e Hel.
  destruct (He e Hel) as (H1 & H2 & H3). specialize (Hin e Hel). cbn in Hin. unfold entry_u32, is_u32 in *. lia.
Qed.
Lemma plan_entries_u32 inputs plan0 p : is_u32 (consys_size inputs) -> is_u32 (nv_cache_size inputs) -> 0 <= udc_en inputs ->
  tetris_modem_plan_smem_b41 (Some inputs) (Some plan0) = (0, Some p) ->
  Forall entry_u32 (nc p) /\ Forall entry_u32 (cache p) /\ 0 <= nc_rows p <= 36 /\ 0 <= cache_rows p <= 10 /\
  length (nc p) = 18%nat /\ length (cache p) = 5%nat.
Proof.
  intros H1 H2 H3 E. pose proof (plan_smem_cases inputs plan0 H1 H2 H3) as H. rewrite E in H. destruct H as (_ & Hiff & H).
  apply proj1 in Hiff. destruct (Hiff eq_refl) as (_ & _ & ccb' & Eccb' & Hfit).
  destruct (H eq_refl) as (ccb & p' & Eccb & [= <-] & Hnc & Hncok & _ & Hncr & Hc & Hcok & _ & Hcr).
  rewrite Eccb' in Eccb. injection Eccb as ->. pose proof (ccb_sizes_u32 _ _ Eccb') as Hu. clear Eccb' E H Hiff.
  pose proof (round64k_le (finish 0 (placed 0 (cache_entries inputs ccb) cache_align))).
  rewrite Hncr, Hcr, Hnc, Hc. rewrite Hnc in Hncok. rewrite Hc in Hcok. unfold is_u32 in *.
  assert (Hgaps : forall l c, 0 <= gaps c l <= len l).
  { induction l as [|e l IH]; intros c; cbn [gaps]; [unfold len; cbn; lia|]. rewrite len_cons.
    specialize (IH (e_offset e + e_size e)). destruct (e_offset e =? c); lia. }
  split; [|split; [|split; [|split; [|split; reflexivity]]]].
  - apply placement_u32; [|assumption|vm_compute; congruence].
    cbn. repeat apply List.Forall_cons; try apply List.Forall_nil; unfold is_u32; cbn; lia.
  - apply placement_u32; [|assumption|lia]. unfold cache_entries.
    repeat apply List.Forall_cons; try apply List.Forall_nil; unfold is_u32; cbn; try lia;
      [destruct (nv_cache_size inputs =? 0)|destruct (udc_en inputs =? 0)]; cbn; lia.
  - pose proof (Hgaps (placed 0 nc_entries nc_align) 0) as G. change (len (placed 0 nc_entries nc_align)) with 18 in G. lia.
  - pose proof (Hgaps (placed 0 (cache_entries inputs ccb) cache_align) 0) as G.
    change (len (placed 0 (cache_entries inputs ccb) cache_align)) with 5 in G. lia.
Qed.

(** [stage H G] passes one failing exit of [H]. *)
Ltac stage H G :=
  match type of H with (if ?b then _ else _) = 0 => destruct b eqn:G in H; [try discriminate H; lia|] end.

(** The spans the framing yields. *)
Definition spans_ok (snap offsets lengths : list Z) : Prop :=
  forall i, 0 <= at_ offsets i /\ is_u32 (at_ lengths i) /\ at_ offsets i + at_ lengths i <= len snap.

Section Accepted.
Context (snap offsets lengths : list Z) (banks : tetris_metadata_banks).
Context (Hsnap : bytes_ok snap) (Hspans : spans_ok snap offsets lengths) (Hbanks : banks_u64 banks).
Context (H16 : at_ lengths 16 = 120) (H18 : at_ lengths 18 = 288).

(** Every table of the block is the producer's encoding of the layout that the retained header implies. *)
Definition block_consistent : Prop :=
  let chk := skipn (Z.to_nat (at_ offsets 7)) snap in
  let value i := slice snap (at_ offsets i) (at_ lengths i) in
  exists memory smem,
    tetris_metadata_memory chk (word snap (at_ offsets 8)) (wbase (firmware banks)) (wcapacity (firmware banks)) (Some []) = (0, Some memory) /\
    value 10%nat = flat_map block_row (padding memory) /\
    tetris_modem_plan_smem_b41 (Some (SmemInputs (word chk 0x190) (word chk 0x184) (word chk 0x180) (word chk 0x18c) 1)) (Some zero_plan)
      = (0, Some smem) /\
    value 12%nat = reference_rows (wbase (bank_nc banks)) 0 0 (nc smem) /\
    value 14%nat = reference_rows (wbase (bank_cache banks)) 0x8000000 0 (cache smem) /\
    value 16%nat = flat_map (cache_row (bank_cache banks)) (cache smem) /\ value 18%nat = flat_map nc_row (nc smem).

Lemma semantics_sound : tetris_metadata_semantics snap offsets lengths (Some banks) = 0 -> banks_ok banks /\ block_consistent.
Proof.
  intros H. unfold tetris_metadata_semantics in H. cbv zeta in H.
  stage H Gw. assert (Hok : banks_ok banks) by (apply windows_sound; [assumption|lia]). split; [exact Hok|]. clear Gw.
  set (chk := skipn (Z.to_nat (at_ offsets 7)) snap) in *.
  assert (Hchk : bytes_ok chk) by now apply bytes_ok_skip. pose proof (fun i => word_u32 chk i Hchk) as Hw.
  stage H G1. clear G1. stage H G2. clear G2. stage H G3. clear G3.
  pose proof (metadata_memory_cases chk (word snap (at_ offsets 8)) (wbase (firmware banks)) (wcapacity (firmware banks)) [] Hchk) as Hm.
  destruct (tetris_metadata_memory chk (word snap (at_ offsets 8)) (wbase (firmware banks)) (wcapacity (firmware banks)) (Some []))
    as [ret memory] eqn:Em.
  destruct Hm as [_ Hm]; [destruct Hok as (_ & _ & _ & _ & Hb & _); apply Forall_inv in Hb; unfold window_in in Hb; lia|destruct Hok; lia|].
  stage H G4. assert (ret = 0) as -> by lia. destruct (Hm eq_refl) as (m & -> & [_ Hml] & _). clear Hm G4.
  change (default [] (Some m)) with m in H. stage H G5. stage H G6. stage H G7. clear G7.
  set (inputs := SmemInputs (word chk 0x190) (word chk 0x184) (word chk 0x180) (word chk 0x18c) 1) in *.
  pose proof (plan_entries_u32 inputs zero_plan) as Hp.
  pose proof (plan_smem_cases inputs zero_plan (Hw _) (Hw _) (proj1 (Hw 0x184))) as Hc.
  destruct (tetris_modem_plan_smem_b41 (Some inputs) (Some zero_plan)) as [ret2 plan] eqn:Ep. stage H G8.
  assert (ret2 = 0) as -> by lia. clear G8. destruct Hc as (_ & _ & Hc).
  destruct (Hc eq_refl) as (_ & smem & _ & -> & _). clear Hc. change (default zero_plan (Some smem)) with smem in H.
  destruct (Hp smem (Hw _) (Hw _) (proj1 (Hw 0x184)) eq_refl) as (U1 & U2 & R1 & R2 & L1 & L2). clear Hp. stage H G9. clear G9.
  destruct (tetris_metadata_smem snap (at_ offsets 12) _ _ _ _ =? 0) eqn:S1 in H;
    [|exfalso; stage H X; rewrite S1 in X; discriminate]. apply Z.eqb_eq in S1.
  stage H S2. apply negb_false_iff, Z.eqb_eq in S2. stage H G10. clear G10. stage H T1. stage H T2. clear H.
  apply negb_false_iff in T1, T2, G6. destruct Hok as (C1 & C2 & C3 & _).
  apply metadata_smem_cases in S1 as [_ S1]; [|assumption|apply Hspans|apply Hspans|apply Hspans|rewrite C2; unfold is_u64; lia|unfold is_u32; lia|exact U1].
  apply metadata_smem_cases in S2 as [_ S2]; [|assumption|apply Hspans|apply Hspans|apply Hspans|rewrite C3; unfold is_u64; lia|unfold is_u32; lia|exact U2].
  exists m, smem. rewrite (u32_id (len (padding m) * 24)) in G5 by (unfold len; rewrite length_padding; unfold len in Hml; unfold is_u32; lia).
  assert (Hn : len (nc smem) = 18 /\ len (cache smem) = 5) by (unfold len; rewrite L1, L2; lia). destruct Hn as [Hn1 Hn2].
  split; [exact Em|]. split; [|split; [exact Ep|split; [exact S1|split; [exact S2|split]]]].
  - replace (at_ lengths 10) with (24 * len (padding m)) by lia. destruct (Hspans 10%nat) as (O1 & _ & O2).
    apply (table_slice snap (block_row_ok snap)); try lia. intros; now apply block_row_slice.
  - rewrite H16. replace 120 with (24 * len (cache smem)) by lia. destruct (Hspans 16%nat) as (O1 & _ & O2). rewrite H16 in O2.
    apply (table_slice snap (cache_row_ok snap (bank_cache banks))); try lia. intros; now apply cache_row_slice.
  - rewrite H18. replace 288 with (16 * len (nc smem)) by lia. destruct (Hspans 18%nat) as (O1 & _ & O2). rewrite H18 in O2.
    apply (table_slice snap (nc_row_ok snap)); try lia. intros; now apply nc_row_slice.
Qed.
End Accepted.

(** ** The import *)

Section ImportSound.
Context (is_key_exist : list args_key_val -> list Z -> Z).

(** The values of the tags lie back to back from [cursor] to [stop]. *)
Fixpoint chained (cursor : Z) (os ls : list Z) (stop : Z) : Prop :=
  match os, ls with
  | o :: os, l :: ls => o = cursor /\ 0 <= l /\ chained (cursor + l) os ls stop
  | [], [] => cursor = stop
  | _, _ => False
  end.
Lemma chained_le os : forall cursor ls stop, chained cursor os ls stop -> cursor <= stop.
Proof.
  induction os as [|o os IH]; intros cursor [|l ls] stop H; cbn in H; try contradiction; [lia|].
  destruct H as (_ & Hl & H). apply IH in H. lia.
Qed.
Lemma chained_span os : forall cursor ls stop i, chained cursor os ls stop -> 0 <= cursor ->
  0 <= at_ os i /\ 0 <= at_ ls i /\ at_ os i + at_ ls i <= stop.
Proof.
  unfold at_. induction os as [|o os IH]; intros cursor [|l ls] stop i H Hc; cbn in H; try contradiction.
  - subst. destruct i; cbn; lia.
  - destruct H as (-> & Hl & H). pose proof (chained_le _ _ _ _ H). destruct i as [|i]; cbn; [lia|]. now apply (IH (cursor + l)); [|lia].
Qed.

Lemma framing_sound tbl snap size ts : bytes_ok snap -> forall i cursor os ls stop,
  0 <= cursor <= size -> size <= 65536 ->
  framing_loop is_key_exist tbl snap size i cursor ts = inr (os, ls, stop) ->
  chained cursor os ls stop /\ stop <= size /\ Forall2 (fun t l => tag_bytes t = 0 \/ l = tag_bytes t) ts ls /\
  length os = length ts.
Proof.
  intros Hs. induction ts as [|t ts IH]; intros i cursor os ls stop Hc Hsz H; cbn [framing_loop] in H.
  - injection H as <- <- <-. cbn. repeat split; [lia|constructor].
  - cbv zeta in H. destruct (tag_framing_ok snap size i cursor t) eqn:F; [|discriminate]. cbn [negb] in H.
    destruct (0 <=? is_key_exist tbl (tag_name t)); [discriminate|].
    pose proof (le32_range snap (i * 76 + 68) Hs) as Hb. set (bytes := le32 snap (i * 76 + 68)) in *. unfold is_u32 in Hb.
    unfold tag_framing_ok in F. cbv zeta in F. fold bytes in F. rewrite !andb_true_iff in F.
    destruct F as ((((((_ & _) & _) & _) & F1) & F2) & _). rewrite u32_id in F1 by (unfold is_u32; lia).
    rewrite (u32_id (cursor + bytes)) in H by (unfold is_u32; lia).
    destruct (framing_loop _ tbl snap size (i + 1) (cursor + bytes) ts) as [e|[[os' ls'] c]] eqn:E; [discriminate|].
    injection H as <- <- <-. apply IH in E as (H1 & H2 & H3 & H4); [|lia|assumption].
    split; [cbn; repeat split; [lia|exact H1]|]. split; [exact H2|]. split; [constructor; [lia|exact H3]|cbn; lia].
Qed.
Lemma framing_error tbl snap size ts : forall i cursor e, framing_loop is_key_exist tbl snap size i cursor ts = inl e -> e <> 0.
Proof.
  induction ts as [|t ts IH]; intros i cursor e H; cbn [framing_loop] in H; [discriminate|]. cbv zeta in H.
  repeat case_match; simplify_eq; try lia. eauto.
Qed.
Lemma validate_error tbl snap size banks e : validate_snapshot is_key_exist tbl snap size banks = inl e -> e <> 0.
Proof.
  unfold validate_snapshot. destruct (framing_loop _ _ _ _ _ _ _) as [e'|[[os ls] stop]] eqn:E.
  - intros [= <-]. now apply framing_error in E.
  - repeat match goal with |- context [if ?b then _ else _] => destruct b eqn:? end; intros [= <-]; lia.
Qed.

Lemma validate_sound tbl snap size banks os ls : bytes_ok snap -> len snap = size -> 21 * 76 <= size <= 65536 -> banks_u64 banks ->
  validate_snapshot is_key_exist tbl snap size (Some banks) = inr (os, ls) ->
  chained (21 * 76) os ls size /\ length os = 21%nat /\ banks_ok banks /\ block_consistent snap os ls banks.
Proof.
  intros Hs Hl Hsz Hb H. unfold validate_snapshot in H.
  destruct (framing_loop _ tbl snap size 0 (21 * 76) profile) as [e|[[os' ls'] stop]] eqn:E; [discriminate|].
  apply framing_sound in E as (H1 & H2 & H3 & H4); [|assumption|lia|lia].
  destruct (negb (stop =? size) || _) eqn:G in H; [discriminate|]. assert (stop = size) as -> by lia. clear G.
  destruct (negb (header_ok snap os' ls')) in H; [discriminate|]. cbv zeta in H.
  destruct (negb (tetris_metadata_semantics snap os' ls' (Some banks) =? 0)) eqn:G in H; [discriminate|]. injection H as <- <-.
  split; [exact H1|]. split; [exact H4|]. apply semantics_sound; try assumption.
  - intros i. destruct (chained_span _ _ _ _ i H1 ltac:(lia)) as (S1 & S2 & S3). unfold is_u32. lia.
  - destruct (Forall2_lookup_l _ _ _ 16%nat _ H3 eq_refl) as (l & Hk & Ht). unfold at_. erewrite nth_lookup_Some by exact Hk.
    destruct Ht as [Ht|Ht]; [discriminate|exact Ht].
  - destruct (Forall2_lookup_l _ _ _ 18%nat _ H3 eq_refl) as (l & Hk & Ht). unfold at_. erewrite nth_lookup_Some by exact Hk.
    destruct Ht as [Ht|Ht]; [discriminate|exact Ht].
  - lia.
Qed.
End ImportSound.

(** C23. The tag import is attempted once and publishes everything or nothing.
    A repeated call changes nothing and reports the stored error, or that the
    import was already done. A failing first call records its error and leaves
    the argument table and the owned snapshot alone. A successful one keeps a
    private copy of exactly the mapped bytes and appends the 21 arguments of
    the profile, in order, their values back to back in that copy from the end
    of the headers to its last byte; the four windows are then disjoint,
    aligned and of the profile's sizes, and every table in the copy is the
    producer's encoding of the layout the retained header implies. *)
Theorem import_all_or_nothing is_key_exist init_done max_keys allocated s mapped size version count banks :
  bytes_ok mapped -> size <= len mapped -> banks_u64 banks ->
  let '(ret, s') := mtk_ccci_import_owned_tags is_key_exist init_done max_keys allocated s (Some mapped) size version count (Some banks) in
  (attempted s = true -> s' = s /\ ret <> 0) /\
  (attempted s = false -> ret <> 0 -> s' = Tags true ret (owned_tags s) (s_args_tbl s)) /\
  (attempted s = false -> ret = 0 ->
     let snap := firstn (Z.to_nat size) mapped in
     exists os ls, s' = Tags true (tags_error s) (Some snap) (s_args_tbl s ++ publish profile os ls) /\
       length os = 21%nat /\ chained (21 * 76) os ls size /\ len (s_args_tbl s) + 21 <= max_keys /\
       banks_ok banks /\ block_consistent snap os ls banks).
Proof.
  intros Hm Hsz Hb. unfold mtk_ccci_import_owned_tags. cbv zeta. destruct (attempted s) eqn:Ea.
  { destruct (negb (tags_error s =? 0)) eqn:E; (split; [intros _; split; [reflexivity|lia]|split; discriminate]). }
  assert (Hfault : forall e, e <> 0 -> (false = true -> Tags true e (owned_tags s) (s_args_tbl s) = s /\ e <> 0) /\
    (false = false -> e <> 0 -> Tags true e (owned_tags s) (s_args_tbl s) = Tags true e (owned_tags s) (s_args_tbl s)) /\
    (false = false -> e = 0 -> exists os ls,
       Tags true e (owned_tags s) (s_args_tbl s) = Tags true (tags_error s) (Some (firstn (Z.to_nat size) mapped)) (s_args_tbl s ++ publish profile os ls) /\
       length os = 21%nat /\ chained (21 * 76) os ls size /\ len (s_args_tbl s) + 21 <= max_keys /\
       banks_ok banks /\ block_consistent (firstn (Z.to_nat size) mapped) os ls banks))
    by (intros e He; split; [discriminate|]; split; [reflexivity|intros _ E; contradiction]).
  destruct (negb init_done || _ || _ || _ || _ || _) eqn:G; [apply Hfault; lia|].
  destruct (negb (tetris_metadata_windows (Some banks) =? 0)) eqn:Gw; [apply Hfault; lia|].
  destruct allocated; cbn [negb]; [|apply Hfault; lia].
  destruct (validate_snapshot _ _ _ size (Some banks)) as [e|[os ls]] eqn:E; [apply Hfault; now apply validate_error in E|].
  split; [discriminate|]. split; [intros _ []; reflexivity|]. intros _ _. exists os, ls.
  apply validate_sound in E as (H1 & H2 & H3 & H4); [|now apply bytes_ok_take|rewrite len_take; lia|lia|assumption].
  split; [reflexivity|]. split; [exact H2|]. split; [exact H1|]. split; [lia|]. split; assumption.
Qed.

(** A complete tag block, written the way the boot loader does. *)
Definition stores (l : list Z) (ws : list (Z * list Z)) : list Z := fold_left (fun l w => write_at l w.1 w.2) ws l.
Definition example_chk : list Z :=
  stores (zeros 512)
    [(0, chars "CHECK_HEADER"); (12, put32 6); (16, put32 2); (20, put32 14); (168, [1]); (172, put32 0x100000); (176, put32 0x1000);
     (184, put32 0x80000); (188, put32 0x10000); (192, put32 1); (196, put32 0); (200, put32 0x70000);
     (0x11c, put32 0x60000); (0x120, put32 0x1000); (0x180, put32 0x200000); (0x190, put32 3); (508, put32 512)].
Definition example_banks : tetris_metadata_banks :=
  Banks (Window 0x80000000 0x20000000) (Window 0xa0000000 0x8000000) (Window 0xa8000000 0x8000000) (Window 0x60000000 65536).
Definition example_memory : memory_map :=
  padding (default [] (tetris_metadata_memory example_chk 0x1000 0x80000000 0x20000000 (Some [])).2).
Definition example_plan : tetris_modem_smem_plan :=
  default zero_plan (tetris_modem_plan_smem_b41 (Some (SmemInputs 3 0 0x200000 0 1)) (Some zero_plan)).2.
Definition example_values : list (list Z) :=
  let nc_table := reference_rows 0xa0000000 0 0 (nc example_plan) in
  let cache_table := reference_rows 0xa8000000 0x8000000 0 (cache example_plan) in
  let ccb := nth 2 (cache example_plan) (SmemEntry 0 0 0 0) in
  [put32 1; put64 0x80000000 ++ put32 0x100000 ++ [0; 0; 14] ++ zeros 9;
   put64 0xa0000000 ++ put32 0 ++ put32 (nc_capacity example_plan) ++ zeros 16 ++ put32 (nc_capacity example_plan) ++ put32 0;
   put64 (0xa8000000 + e_offset ccb) ++ put32 (e_size ccb) ++ put32 0; zeros 8; zeros 16; zeros 4; example_chk; put32 0x1000;
   put64 0x80000000; flat_map block_row example_memory; put32 (len nc_table / 40); nc_table; put32 (len cache_table / 40); cache_table;
   put64 0xa8000000 ++ put32 0x8000000 ++ put32 (cache_capacity example_plan) ++ put32 5 ++ put32 0;
   flat_map (cache_row (bank_cache example_banks)) (cache example_plan); put32 18; flat_map nc_row (nc example_plan);
   put32 0x8000000; put32 0].
Fixpoint example_headers (i cursor : Z) (ts : list tag_profile) (vs : list (list Z)) : list Z :=
  match ts, vs with
  | t :: ts, v :: vs =>
    tag_name t ++ zeros (64 - len (tag_name t)) ++ put32 cursor ++ put32 (len v) ++ put32 (if i + 1 <? 21 then (i + 1) * 76 else 0)
    ++ example_headers (i + 1) (cursor + len v) ts vs
  | _, _ => []
  end.
Definition example_block : list Z := Eval vm_compute in example_headers 0 (21 * 76) profile example_values ++ concat example_values.
Definition example_state : tags_state := Tags false 0 None [Arg (chars "other" ++ [0]) 4 0].

Lemma import_all_or_nothing_witness :
  (let '(ret, s') := mtk_ccci_import_owned_tags (fun _ _ => -1) true 73 true example_state (Some example_block) (len example_block) 2 21
                       (Some example_banks) in
   ret = 0 /\ banks_ok example_banks /\ len (s_args_tbl example_state) + 21 <= 73 /\ attempted s' = true).
Proof.
  pose proof (import_all_or_nothing (fun _ _ => -1) true 73 true example_state example_block (len example_block) 2 21 example_banks) as H.
  assert (E : (mtk_ccci_import_owned_tags (fun _ _ => -1) true 73 true example_state (Some example_block) (len example_block) 2 21
                 (Some example_banks)).1 = 0) by (vm_compute; reflexivity).
  destruct (mtk_ccci_import_owned_tags (fun _ _ => -1) true 73 true example_state (Some example_block) (len example_block) 2 21
                 (Some example_banks)) as [ret s'].
  destruct H as (_ & _ & H).
  - concrete_bytes.
  - apply Z.le_refl.
  - repeat constructor; unfold is_u64; cbn; lia.
  - destruct (H eq_refl E) as (os & ls & -> & _ & _ & H1 & H2 & _). split; [exact E|]. split; [exact H2|]. split; [exact H1|reflexivity].
Defined.
