(* ===== verification/BootEvidence.v ===== *)
(** * Boot evidence: [modem/drafts/smem-boot-evidence/boot_evidence.c]

    The decoder of the boot loader's shared-memory protection record against
    the reserved windows. *)

From S2P Require Import Prelude LayoutModel Semantic.

Definition TETRIS_SMEM_BOOT_BYTES : Z := 336.
Definition TETRIS_SMEM_BOOT_END_MARKER : Z := Z.shiftl 1 43.
(** [sizeof] of the two structures. *)
Definition sizeof_banks : Z := 64.
Definition sizeof_evidence : Z := 336.

Record tetris_smem_boot_record : Type := BootRecord {
  bank : Z;
  slot : Z;
  reservation_base : Z;
  reservation_capacity : Z;
  range_start : Z;
  range_size : Z;
  actual_start : Z;
  actual_end : Z;
  actual_enable : Z;
  policy : list Z
}.
Record tetris_smem_boot_evidence : Type := BootEvidence {
  version : Z;
  bytes : Z;
  scope : Z;
  count : Z;
  ap : Z;
  md : Z;
  loaded_stage : Z;
  boot_stage : Z;
  errors : list Z;
  reserved : Z;
  preloader_sha256 : list Z;
  record : list tetris_smem_boot_record
}.

Definition span {A} (p : ptr A) (n : Z) : bool := negb (null p) && negb (n =? 0) && (addr p <=? UINT64_MAX - n).
Definition overlaps (a an b bn : Z) : bool := (a <? u64 (b + bn)) && (b <? u64 (a + an)).
Definition window_valid (w : tetris_metadata_window) : bool :=
  negb (wbase w =? 0) && negb (wcapacity w =? 0) && (Z.land (Z.lor (wbase w) (wcapacity w)) 4095 =? 0)
  && (wbase w <=? UINT64_MAX - wcapacity w).

Definition expected_policy (b : Z) : list Z :=
  [0; if b =? 0 then 0xcff0f0c0 else 0xc00300c0; 0; 0; 0; 0; 0; 0xc00000000].
Definition digest : list Z :=
  [0x5d; 0x2b; 0xed; 0xd0; 0x00; 0x49; 0xfc; 0xed; 0x98; 0x3d; 0x3a; 0xe5; 0x39; 0x89; 0x61; 0x6c;
   0x5c; 0x9f; 0x46; 0xc4; 0xed; 0xdd; 0x32; 0xa0; 0x1a; 0x1a; 0xd4; 0x6f; 0xf8; 0xd2; 0xc5; 0x0f].
Definition origin : Z := 0x40000000.
Definition limit : Z := origin + Z.shiftl 1 35.

(** The words of the header part of the wire. *)
Definition decode_header (p : list Z) : tetris_smem_boot_evidence :=
  BootEvidence (le32 p 0) (le32 p 4) (le32 p 8) (le32 p 12) (le32 p 16) (le32 p 20) (le32 p 24) (le32 p 28)
    [le32 p 32; le32 p 36; le32 p 40] (le32 p 44) (slice p 48 32) [].
Definition header_accepted (e : tetris_smem_boot_evidence) : bool :=
  (version e =? 1) && (bytes e =? TETRIS_SMEM_BOOT_BYTES) && (scope e =? 1) && (count e =? 2) && (ap e =? 6878) && (md e =? 6299)
  && (loaded_stage e =? 11) && (boot_stage e =? 15) && forallb (fun x => x =? 0) (errors e) && (reserved e =? 0)
  && bool_decide (preloader_sha256 e = digest).

(** The policy loop from group [i] on. *)
Fixpoint decode_policy (p : list Z) (at_ : Z) (expected : list Z) : Z + list Z :=
  match expected with
  | [] => inr []
  | x :: expected =>
    if negb (le64 p at_ =? x) then inl (- EBADMSG)
    else match decode_policy p (at_ + 8) expected with inl e => inl e | inr l => inr (le64 p at_ :: l) end
  end.
(** One record at [at_], for bank [b] with window [w]. *)
Definition decode_record (p : list Z) (at_ b : Z) (w : tetris_metadata_window) : Z + tetris_smem_boot_record :=
  let rstart := le64 p (at_ + 24) in
  let rsize := le64 p (at_ + 32) in
  if negb (le32 p at_ =? b) || negb (le32 p (at_ + 4) =? 42 + b) || negb (le64 p (at_ + 8) =? wbase w)
     || negb (le64 p (at_ + 16) =? wcapacity w)
  then inl (- EBADMSG)
  else if negb (rstart =? wbase w) || (rsize =? 0) || negb (Z.land (Z.lor rstart rsize) 4095 =? 0)
          || (UINT64_MAX - rsize <? rstart) || (wcapacity w <? rsize) || (rstart <? origin) || (limit <=? rstart)
          || (u64 (limit - rstart) <=? rsize)
  then inl (- ERANGE)
  else if negb (le64 p (at_ + 40) =? rstart)
          || negb (Z.ldiff (le64 p (at_ + 48)) TETRIS_SMEM_BOOT_END_MARKER =? u64 (rstart + rsize))
          || negb (le64 p (at_ + 56) =? 1)
  then inl (- EBADMSG)
  else match decode_policy p (at_ + 64) (expected_policy b) with
       | inl e => inl e
       | inr pol =>
         inr (BootRecord (le32 p at_) (le32 p (at_ + 4)) (le64 p (at_ + 8)) (le64 p (at_ + 16)) rstart rsize (le64 p (at_ + 40))
                (le64 p (at_ + 48)) (le64 p (at_ + 56)) pol)
       end.

Definition tetris_smem_boot_decode (wire : ptr (list Z)) (wire_bytes : Z) (banks : ptr tetris_metadata_banks) (banks_bytes : Z)
    (output : ptr tetris_smem_boot_evidence) (output_bytes : Z) : Z * tetris_smem_boot_evidence :=
  let fail ret := (ret, pointee output) in
  if negb (span wire wire_bytes) || negb (span banks banks_bytes) || negb (span output output_bytes) then fail (- EINVAL)
  else if negb (wire_bytes =? TETRIS_SMEM_BOOT_BYTES) || negb (banks_bytes =? sizeof_banks) then fail (- EMSGSIZE)
  else if output_bytes <? sizeof_evidence then fail (- ENOSPC)
  else if overlaps (addr wire) wire_bytes (addr banks) banks_bytes || overlaps (addr wire) wire_bytes (addr output) output_bytes
          || overlaps (addr banks) banks_bytes (addr output) output_bytes
  then fail (- EINVAL)
  else
  let nc := bank_nc (pointee banks) in
  let cache := bank_cache (pointee banks) in
  if negb (window_valid nc) || negb (window_valid cache)
     || ((wbase nc <? u64 (wbase cache + wcapacity cache)) && (wbase cache <? u64 (wbase nc + wcapacity nc)))
  then fail (- ERANGE)
  else
  let p := pointee wire in
  let result := decode_header p in
  if negb (header_accepted result) then fail (- EBADMSG)
  else match decode_record p 80 0 nc with
       | inl e => fail e
       | inr r0 =>
         match decode_record p (80 + 128) 1 cache with
         | inl e => fail e
         | inr r1 =>
           (0, BootEvidence (version result) (bytes result) (scope result) (count result) (ap result) (md result)
                 (loaded_stage result) (boot_stage result) (errors result) (reserved result) (preloader_sha256 result) [r0; r1])
         end
       end.

(** ** The reference record *)

(** What a producer reports for one bank: the size of the protected range and
    whether the end register carries its marker bit. *)
Record report : Type := Report { protected : Z; marked : bool }.
Definition report_ok (w : tetris_metadata_window) (r : report) : Prop :=
  0 < protected r <= wcapacity w /\ (4096 | wbase w) /\ (4096 | protected r) /\
  origin <= wbase w /\ wbase w + protected r < limit.
Definition reported_end (w : tetris_metadata_window) (r : report) : Z :=
  wbase w + protected r + (if marked r then TETRIS_SMEM_BOOT_END_MARKER else 0).
Definition reported (b : Z) (w : tetris_metadata_window) (r : report) : tetris_smem_boot_record :=
  BootRecord b (42 + b) (wbase w) (wcapacity w) (wbase w) (protected r) (wbase w) (reported_end w r) 1 (expected_policy b).
Definition evidence (banks : tetris_metadata_banks) (r0 r1 : report) : tetris_smem_boot_evidence :=
  BootEvidence 1 336 1 2 6878 6299 11 15 [0; 0; 0] 0 digest [reported 0 (bank_nc banks) r0; reported 1 (bank_cache banks) r1].
Definition record_words (r : tetris_smem_boot_record) : list Z :=
  [reservation_base r; reservation_capacity r; range_start r; range_size r; actual_start r; actual_end r; actual_enable r] ++ policy r.
Definition encode_record (r : tetris_smem_boot_record) : list Z :=
  put32 (bank r) ++ put32 (slot r) ++ flat_map put64 (record_words r).
Definition encode (e : tetris_smem_boot_evidence) : list Z :=
  flat_map put32 ([version e; bytes e; scope e; count e; ap e; md e; loaded_stage e; boot_stage e] ++ errors e ++ [reserved e])
  ++ preloader_sha256 e ++ flat_map encode_record (record e).

(** ** Runs of words *)

Fixpoint le32s (p : list Z) (at_ : Z) (n : nat) : list Z :=
  match n with O => [] | S n => le32 p at_ :: le32s p (at_ + 4) n end.
Fixpoint le64s (p : list Z) (at_ : Z) (n : nat) : list Z :=
  match n with O => [] | S n => le64 p at_ :: le64s p (at_ + 8) n end.

Section Wire.
Context (p : list Z) (Hp : bytes_ok p).

Lemma le32s_slice vs : forall at_, Forall is_u32 vs -> 0 <= at_ -> at_ + 4 * len vs <= len p ->
  le32s p at_ (length vs) = vs <-> slice p at_ (4 * len vs) = flat_map put32 vs.
Proof.
  induction vs as [|v vs IH]; intros at_ Hv Ha Hn; cbn [length le32s flat_map].
  - change (4 * len (@nil Z)) with 0. rewrite slice_0. tauto.
  - inversion Hv; subst. rewrite len_cons in *. pose proof (len_nonneg vs).
    rewrite (slice_cut p at_ (4 * (1 + len vs)) 4 (4 * len vs)) by lia.
    pose proof (word_slice p Hp at_ v Ha ltac:(lia) ltac:(assumption)) as Hw. change (word p at_) with (le32 p at_) in Hw.
    specialize (IH (at_ + 4) ltac:(assumption) ltac:(lia) ltac:(lia)). split.
    + intros [= E1 E2]. f_equal; [now apply Hw|]. now apply IH.
    + intros E. apply app_inj_1 in E as [E1 E2]; [|rewrite slice_4 by lia; reflexivity]. apply Hw in E1. apply IH in E2. congruence.
Qed.
Lemma le64s_slice vs : forall at_, Forall is_u64 vs -> 0 <= at_ -> at_ + 8 * len vs <= len p ->
  le64s p at_ (length vs) = vs <-> slice p at_ (8 * len vs) = flat_map put64 vs.
Proof.
  induction vs as [|v vs IH]; intros at_ Hv Ha Hn; cbn [length le64s flat_map].
  - change (8 * len (@nil Z)) with 0. rewrite slice_0. tauto.
  - inversion Hv; subst. rewrite len_cons in *. pose proof (len_nonneg vs).
    rewrite (slice_cut p at_ (8 * (1 + len vs)) 8 (8 * len vs)) by lia.
    pose proof (le64_slice p Hp at_ v Ha ltac:(lia) ltac:(assumption)) as Hw.
    specialize (IH (at_ + 8) ltac:(assumption) ltac:(lia) ltac:(lia)). split.
    + intros [= E1 E2]. f_equal; [now apply Hw|]. now apply IH.
    + intros E. apply app_inj_1 in E as [E1 E2].
      * apply Hw in E1. apply IH in E2. congruence.
      * pose proof (len_slice p at_ 8 Ha ltac:(lia) ltac:(lia)). unfold len in *. change (length (put64 v)) with 8%nat. lia.
Qed.

Lemma decode_policy_exact exp : forall at_ pol,
  decode_policy p at_ exp = inr pol <-> le64s p at_ (length exp) = exp /\ pol = exp.
Proof.
  induction exp as [|x exp IH]; intros at_ pol; cbn [decode_policy length le64s].
  - split; [now intros [= <-]|now intros [_ ->]].
  - destruct (Z.eqb_spec (le64 p at_) x) as [E|E]; cbn [negb].
    + destruct (decode_policy p (at_ + 8) exp) as [e|l] eqn:D.
      * split; [discriminate|]. intros [[= _ H] ->].
        assert (X : decode_policy p (at_ + 8) exp = inr exp) by (apply IH; auto). congruence.
      * apply IH in D as [D1 ->]. rewrite E. split; [intros [= <-]; now rewrite D1|intros [_ ->]; reflexivity].
    + split; [discriminate|]. intros [[= H _] _]. contradiction.
Qed.
Lemma decode_policy_error exp : forall at_ e, decode_policy p at_ exp = inl e -> e = - EBADMSG.
Proof.
  induction exp as [|x exp IH]; intros at_ e; cbn [decode_policy]; [discriminate|].
  destruct (negb _); [now intros [= <-]|]. destruct (decode_policy p (at_ + 8) exp) eqn:D; [|discriminate]. intros [= <-]. eauto.
Qed.

(** Clearing the marker bit of an end register. *)
Lemma unmark x : x = Z.ldiff x TETRIS_SMEM_BOOT_END_MARKER + (if Z.testbit x 43 then TETRIS_SMEM_BOOT_END_MARKER else 0).
Proof.
  unfold TETRIS_SMEM_BOOT_END_MARKER. rewrite Z.shiftl_1_l. set (m := 2 ^ 43).
  assert (Hl : Z.land x m = if Z.testbit x 43 then m else 0).
  { apply Z.bits_inj'. intros k Hk. unfold m. rewrite Z.land_spec, Z.pow2_bits_eqb by lia.
    destruct (Z.eqb_spec 43 k) as [<-|Hne]; [rewrite andb_true_r|rewrite andb_false_r]; destruct (Z.testbit x 43);
      rewrite ?Z.pow2_bits_eqb, ?Z.bits_0 by lia; try reflexivity. symmetry. now apply Z.eqb_neq. }
  assert (Hd : Z.ldiff x m = x - Z.land x m).
  { rewrite Z.sub_nocarry_ldiff.
    - apply Z.bits_inj'. intros k Hk. rewrite !Z.ldiff_spec, Z.land_spec. destruct (Z.testbit x k), (Z.testbit m k); reflexivity.
    - apply Z.bits_inj'. intros k Hk. rewrite Z.ldiff_spec, Z.land_spec, Z.bits_0. destruct (Z.testbit x k), (Z.testbit m k); reflexivity. }
  lia.
Qed.
Lemma mark_clear e (m : bool) : 0 <= e < 2 ^ 43 ->
  Z.ldiff (e + (if m then TETRIS_SMEM_BOOT_END_MARKER else 0)) TETRIS_SMEM_BOOT_END_MARKER = e.
Proof.
  intros He. pose proof (unmark (e + (if m then TETRIS_SMEM_BOOT_END_MARKER else 0))) as H.
  assert (Hb : Z.testbit (e + (if m then TETRIS_SMEM_BOOT_END_MARKER else 0)) 43 = m).
  { unfold TETRIS_SMEM_BOOT_END_MARKER. rewrite Z.shiftl_1_l. apply Z.b2z_inj. rewrite Z.testbit_spec' by lia.
    destruct m; cbn [Z.b2z].
    - replace ((e + 2 ^ 43) / 2 ^ 43) with 1; [reflexivity|]. apply Z.div_unique with e; lia.
    - rewrite Z.add_0_r, Z.div_small by lia. reflexivity. }
  rewrite Hb in H. lia.
Qed.

Lemma aligned_or x y : Z.land (Z.lor x y) 4095 = 0 <-> (4096 | x) /\ (4096 | y).
Proof.
  rewrite Z.land_lor_distr_l, lor_0_inv. change 4095 with (Z.ones 12). rewrite !Z.land_ones by lia. change (2 ^ 12) with 4096.
  now rewrite !Z.mod_divide by lia.
Qed.

Context (at_ b : Z) (w : tetris_metadata_window).
Context (Hat : 0 <= at_) (Hfit : at_ + 128 <= len p) (Hb : b = 0 \/ b = 1) (Hw : window_u64 w) (Hv : window_valid w = true).

Lemma record_slice vs : Forall is_u64 vs -> len vs = 15 ->
  slice p at_ 128 = put32 b ++ put32 (42 + b) ++ flat_map put64 vs <->
  le32 p at_ = b /\ le32 p (at_ + 4) = 42 + b /\ le64s p (at_ + 8) 15 = vs.
Proof.
  intros Hvs Hl. assert (length vs = 15%nat) as Hl' by (unfold len in Hl; lia).
  pose proof (word_slice p Hp at_ b Hat ltac:(lia) ltac:(unfold is_u32; lia)) as W1.
  pose proof (word_slice p Hp (at_ + 4) (42 + b) ltac:(lia) ltac:(lia) ltac:(unfold is_u32; lia)) as W2.
  pose proof (le64s_slice vs (at_ + 8) Hvs ltac:(lia) ltac:(lia)) as W3. rewrite Hl', Hl in W3. change (8 * 15) with 120 in W3.
  change (word p at_) with (le32 p at_) in W1. change (word p (at_ + 4)) with (le32 p (at_ + 4)) in W2.
  rewrite (slice_cut p at_ 128 4 124), (slice_cut p (at_ + 4) 124 4 120) by lia. replace (at_ + 4 + 4) with (at_ + 8) by lia.
  rewrite W1, W2, W3. split.
  - intros E. do 2 (apply app_inj_1 in E as [? E]; [|rewrite slice_4 by lia; reflexivity]). auto.
  - now intros (-> & -> & ->).
Qed.

Lemma le64s_record : le64s p (at_ + 8) 15 =
  [le64 p (at_ + 8); le64 p (at_ + 16); le64 p (at_ + 24); le64 p (at_ + 32); le64 p (at_ + 40); le64 p (at_ + 48); le64 p (at_ + 56)]
  ++ le64s p (at_ + 64) 8.
Proof. cbn [le64s app]. rewrite <- !Z.add_assoc. reflexivity. Qed.

Lemma reported_u64 rep : report_ok w rep -> Forall is_u64 (record_words (reported b w rep)).
Proof.
  intros (H1 & _ & _ & H2 & H3). destruct Hw as [Hb1 Hb2]. unfold limit, origin, is_u64 in *. rewrite Z.shiftl_1_l in H3.
  change (2 ^ 35) with 34359738368 in H3. unfold record_words, reported, reported_end, expected_policy, TETRIS_SMEM_BOOT_END_MARKER.
  cbn -[Z.shiftl]. change (Z.shiftl 1 43) with 8796093022208.
  repeat apply List.Forall_cons; try apply List.Forall_nil; unfold is_u64; try lia.
  - destruct (marked rep); lia.
  - destruct (b =? 0); lia.
Qed.

(** A record is decoded exactly when it is the encoding of an admissible report. *)
Lemma decode_record_exact r : decode_record p at_ b w = inr r <->
  exists rep, report_ok w rep /\ r = reported b w rep /\ slice p at_ 128 = encode_record r.
Proof.
  unfold decode_record. cbv zeta. pose proof (le64_range p (at_ + 32) Hp) as Hsz. pose proof (le64_range p (at_ + 24) Hp) as Hst.
  pose proof Hv as V. unfold window_valid in V. rewrite !andb_true_iff in V. destruct V as [[[V1 V2] V3] V4].
  rewrite Z.eqb_eq, aligned_or in V3. destruct Hw as [Hb1 Hb2]. unfold is_u64 in *. split.
  - destruct (negb (le32 p at_ =? b) || _ || _ || _) eqn:G1; [discriminate|].
    destruct (negb (le64 p (at_ + 24) =? wbase w) || _ || _ || _ || _ || _ || _ || _) eqn:G2; [discriminate|].
    destruct (negb (le64 p (at_ + 40) =? le64 p (at_ + 24)) || _ || _) eqn:G3; [discriminate|].
    destruct (decode_policy p (at_ + 64) (expected_policy b)) as [e|pol] eqn:G4; [discriminate|]. intros [= <-].
    apply decode_policy_exact in G4 as [G4 ->]. change (length (expected_policy b)) with 8%nat in G4.
    set (rsize := le64 p (at_ + 32)) in *. set (rend := le64 p (at_ + 48)) in *.
    assert (E24 : le64 p (at_ + 24) = wbase w) by lia. rewrite E24 in *.
    assert (Ha : Z.land (Z.lor (wbase w) rsize) 4095 = 0) by lia. apply aligned_or in Ha.
    assert (Hlim : origin <= wbase w < limit) by lia.
    assert (Hl36 : limit = 35433480192) by reflexivity.
    rewrite (u64_id (limit - wbase w)) in G2 by (unfold is_u64; lia).
    rewrite (u64_id (wbase w + rsize)) in G3 by (unfold is_u64; lia).
    pose proof (unmark rend) as Hend.
    assert (Hrep : report_ok w (Report rsize (Z.testbit rend 43))) by (unfold report_ok; cbn; repeat split; try tauto; lia).
    assert (Er : BootRecord (le32 p at_) (le32 p (at_ + 4)) (le64 p (at_ + 8)) (le64 p (at_ + 16)) (wbase w) rsize (le64 p (at_ + 40)) rend
      (le64 p (at_ + 56)) (expected_policy b) = reported b w (Report rsize (Z.testbit rend 43))).
    { unfold reported, reported_end. cbn [protected marked]. f_equal; lia. }
    exists (Report rsize (Z.testbit rend 43)). split; [exact Hrep|]. split; [exact Er|]. rewrite Er.
    apply record_slice; [now apply reported_u64|reflexivity|]. rewrite le64s_record, G4, E24. fold rsize rend.
    split; [lia|]. split; [lia|]. unfold record_words, reported, reported_end. cbn [reservation_base reservation_capacity range_start range_size
      actual_start actual_end actual_enable policy protected marked]. f_equal. repeat f_equal; lia.
  - intros (rep & Hrep & -> & E). apply record_slice in E as (E1 & E2 & E3); [|now apply reported_u64|reflexivity].
    rewrite le64s_record in E3. unfold record_words, reported in E3. cbn [reservation_base reservation_capacity range_start range_size
      actual_start actual_end actual_enable policy app] in E3. injection E3 as F1 F2 F3 F4 F5 F6 F7 F8.
    destruct Hrep as (R1 & R2 & R3 & R4 & R5). assert (Hl36 : limit = 35433480192) by reflexivity. assert (Ho : origin = 1073741824) by reflexivity.
    rewrite E1, E2, F1, F2, F3, F4, F5, F6, F7.
    assert (Ha : Z.land (Z.lor (wbase w) (protected rep)) 4095 = 0) by (apply aligned_or; auto).
    replace (_ || _ || _ || _) with false by lia. rewrite (u64_id (limit - wbase w)), (u64_id (wbase w + protected rep)) by (unfold is_u64; lia).
    replace (_ || _ || _ || _ || _ || _ || _ || _) with false by lia. unfold reported_end. rewrite mark_clear by lia.
    replace (_ || _ || _) with false by lia.
    rewrite (proj2 (decode_policy_exact (expected_policy b) (at_ + 64) (expected_policy b))); [reflexivity|].
    split; [|reflexivity]. unfold expected_policy. cbn [length le64s]. congruence.
Qed.
End Wire.

Definition header_words : list Z := [1; 336; 1; 2; 6878; 6299; 11; 15; 0; 0; 0; 0].
Lemma header_exact p : bytes_ok p -> 80 <= len p ->
  header_accepted (decode_header p) = true <-> slice p 0 80 = flat_map put32 header_words ++ digest.
Proof.
  intros Hp Hl. rewrite (slice_cut p 0 80 48 32) by lia. change (0 + 48) with 48.
  assert (Hu : Forall is_u32 header_words) by (repeat apply List.Forall_cons; try apply List.Forall_nil; unfold is_u32; lia).
  pose proof (le32s_slice p Hp header_words 0 Hu ltac:(lia)) as W. change (4 * len header_words) with 48 in W.
  specialize (W ltac:(lia)). change (length header_words) with 12%nat in W.
  change (le32s p 0 12) with [le32 p 0; le32 p 4; le32 p 8; le32 p 12; le32 p 16; le32 p 20; le32 p 24; le32 p 28; le32 p 32; le32 p 36; le32 p 40; le32 p 44] in W.
  unfold header_accepted, decode_header, TETRIS_SMEM_BOOT_BYTES. cbn [version bytes scope count ap md loaded_stage boot_stage errors reserved preloader_sha256 forallb].
  split.
  - intros H. rewrite !andb_true_iff in H. destruct H as [H Hd]. apply bool_decide_eq_true in Hd. f_equal; [|exact Hd].
    apply W. unfold header_words. clear - H. repeat f_equal; lia.
  - intros E. apply app_inj_1 in E as [E1 E2].
    + apply W in E1. unfold header_words in E1. injection E1 as -> -> -> -> -> -> -> -> -> -> -> ->. rewrite E2. reflexivity.
    + pose proof (len_slice p 0 48 ltac:(lia) ltac:(lia) ltac:(lia)). unfold len in *. change (length (flat_map put32 header_words)) with 48%nat. lia.
Qed.

(** ** Exactness *)

Definition apart (a an b bn : Z) : Prop := a + an <= b \/ b + bn <= a.
Definition pointers_ok (wire wire_bytes banks banks_bytes output output_bytes : Z) : Prop :=
  0 < wire /\ wire + wire_bytes <= UINT64_MAX /\ 0 < banks /\ banks + banks_bytes <= UINT64_MAX /\
  0 < output /\ output + output_bytes <= UINT64_MAX /\
  wire_bytes = TETRIS_SMEM_BOOT_BYTES /\ banks_bytes = sizeof_banks /\ sizeof_evidence <= output_bytes /\
  apart wire wire_bytes banks banks_bytes /\ apart wire wire_bytes output output_bytes /\ apart banks banks_bytes output output_bytes.
Definition reservation_ok (b : tetris_metadata_banks) : Prop :=
  window_valid (bank_nc b) = true /\ window_valid (bank_cache b) = true /\ windows_apart (bank_nc b) (bank_cache b).

Section Decode.
Context (wire : ptr (list Z)) (banks : ptr tetris_metadata_banks) (output : ptr tetris_smem_boot_evidence).
Context (wire_bytes banks_bytes output_bytes : Z).
Context (Hwire : bytes_ok (pointee wire)) (Hlen : len (pointee wire) = wire_bytes) (Hbanks : banks_u64 (pointee banks)).
Context (Hptr : is_u64 (addr wire) /\ is_u64 (addr banks) /\ is_u64 (addr output) /\ is_u64 wire_bytes /\ is_u64 banks_bytes /\ is_u64 output_bytes).

(** The argument checks as one condition. *)
Definition arguments_ok : bool :=
  span wire wire_bytes && span banks banks_bytes && span output output_bytes
  && (wire_bytes =? TETRIS_SMEM_BOOT_BYTES) && (banks_bytes =? sizeof_banks) && (sizeof_evidence <=? output_bytes)
  && negb (overlaps (addr wire) wire_bytes (addr banks) banks_bytes) && negb (overlaps (addr wire) wire_bytes (addr output) output_bytes)
  && negb (overlaps (addr banks) banks_bytes (addr output) output_bytes)
  && window_valid (bank_nc (pointee banks)) && window_valid (bank_cache (pointee banks))
  && negb (windows_meet (bank_nc (pointee banks)) (bank_cache (pointee banks))).

Lemma arguments_exact : arguments_ok = true <->
  pointers_ok (addr wire) wire_bytes (addr banks) banks_bytes (addr output) output_bytes /\ reservation_ok (pointee banks).
Proof.
  unfold arguments_ok, pointers_ok, reservation_ok. destruct Hptr as (P1 & P2 & P3 & P4 & P5 & P6). unfold is_u64 in *.
  rewrite !andb_true_iff, !negb_true_iff. unfold span, null, TETRIS_SMEM_BOOT_BYTES, sizeof_banks, sizeof_evidence.
  assert (Hover : forall a an b bn, 0 <= an -> 0 <= bn -> 0 <= a -> 0 <= b -> a + an <= UINT64_MAX -> b + bn <= UINT64_MAX ->
    overlaps a an b bn = false <-> apart a an b bn).
  { intros. unfold overlaps, apart. rewrite !u64_id by (unfold is_u64; lia). lia. }
  assert (Hu1 : window_u64 (bank_nc (pointee banks))) by (unfold banks_u64 in Hbanks; rewrite !Forall_cons in Hbanks; tauto).
  assert (Hu2 : window_u64 (bank_cache (pointee banks))) by (unfold banks_u64 in Hbanks; rewrite !Forall_cons in Hbanks; tauto).
  assert (Hmeet : window_valid (bank_nc (pointee banks)) = true -> window_valid (bank_cache (pointee banks)) = true ->
    windows_meet (bank_nc (pointee banks)) (bank_cache (pointee banks)) = false <-> windows_apart (bank_nc (pointee banks)) (bank_cache (pointee banks))).
  { unfold window_valid, window_u64, windows_meet, windows_apart, is_u64 in *. intros V1 V2. rewrite !u64_id by (unfold is_u64; lia). lia. }
  split.
  - intros (((((((((((G1 & G2) & G3) & G4) & G5) & G6) & G7) & G8) & G9) & V1) & V2) & M).
    apply Hover in G7; [|lia..]. apply Hover in G8; [|lia..]. apply Hover in G9; [|lia..]. apply Hmeet in M; [|assumption..].
    split; [|auto]. repeat split; try assumption; lia.
  - intros [(G1 & G2 & G3 & G4 & G5 & G6 & G7 & G8 & G9 & G10 & G11 & G12) (V1 & V2 & M)].
    apply Hover in G10; [|lia..]. apply Hover in G11; [|lia..]. apply Hover in G12; [|lia..]. apply Hmeet in M; [|assumption..].
    repeat split; try assumption; lia.
Qed.

(** The decoder behind the argument checks. *)
Definition decode_body : Z * tetris_smem_boot_evidence :=
  let p := pointee wire in
  let result := decode_header p in
  if negb (header_accepted result) then (- EBADMSG, pointee output)
  else match decode_record p 80 0 (bank_nc (pointee banks)) with
       | inl e => (e, pointee output)
       | inr r0 =>
         match decode_record p 208 1 (bank_cache (pointee banks)) with
         | inl e => (e, pointee output)
         | inr r1 =>
           (0, BootEvidence (version result) (bytes result) (scope result) (count result) (ap result) (md result)
                 (loaded_stage result) (boot_stage result) (errors result) (reserved result) (preloader_sha256 result) [r0; r1])
         end
       end.

Lemma decode_dispatch :
  let r := tetris_smem_boot_decode wire wire_bytes banks banks_bytes output output_bytes in
  (arguments_ok = true -> r = decode_body) /\ (arguments_ok = false -> r.1 <> 0 /\ r.2 = pointee output).
Proof.
  unfold tetris_smem_boot_decode, arguments_ok. cbv zeta. fold (windows_meet (bank_nc (pointee banks)) (bank_cache (pointee banks))).
  destruct (span wire wire_bytes); cbn [negb orb andb]; [|split; [discriminate|intros _; split; [cbn; lia|reflexivity]]].
  destruct (span banks banks_bytes); cbn [negb orb andb]; [|split; [discriminate|intros _; split; [cbn; lia|reflexivity]]].
  destruct (span output output_bytes); cbn [negb orb andb]; [|split; [discriminate|intros _; split; [cbn; lia|reflexivity]]].
  destruct (wire_bytes =? TETRIS_SMEM_BOOT_BYTES); cbn [negb orb andb]; [|split; [discriminate|intros _; split; [cbn; lia|reflexivity]]].
  destruct (banks_bytes =? sizeof_banks); cbn [negb orb andb]; [|split; [discriminate|intros _; split; [cbn; lia|reflexivity]]].
  rewrite Z.leb_antisym.
  destruct (output_bytes <? sizeof_evidence); cbn [negb orb andb]; [split; [discriminate|intros _; split; [cbn; lia|reflexivity]]|].
  destruct (overlaps (addr wire) wire_bytes (addr banks) banks_bytes); cbn [negb orb andb];
    [split; [discriminate|intros _; split; [cbn; lia|reflexivity]]|].
  destruct (overlaps (addr wire) wire_bytes (addr output) output_bytes); cbn [negb orb andb];
    [split; [discriminate|intros _; split; [cbn; lia|reflexivity]]|].
  destruct (overlaps (addr banks) banks_bytes (addr output) output_bytes); cbn [negb orb andb];
    [split; [discriminate|intros _; split; [cbn; lia|reflexivity]]|].
  destruct (window_valid (bank_nc (pointee banks))); cbn [negb orb andb]; [|split; [discriminate|intros _; split; [cbn; lia|reflexivity]]].
  destruct (window_valid (bank_cache (pointee banks))); cbn [negb orb andb]; [|split; [discriminate|intros _; split; [cbn; lia|reflexivity]]].
  destruct (windows_meet (bank_nc (pointee banks)) (bank_cache (pointee banks))); cbn [negb orb andb];
    [split; [discriminate|intros _; split; [cbn; lia|reflexivity]]|]. split; [reflexivity|discriminate].
Qed.

Lemma decode_record_error p at_ b w e : decode_record p at_ b w = inl e -> e <> 0.
Proof.
  unfold decode_record. cbv zeta. repeat match goal with |- context [if ?b then _ else _] => destruct b end; try (intros [= <-]; lia).
  destruct (decode_policy p (at_ + 64) (expected_policy b)) eqn:E; [|discriminate]. intros [= <-]. apply decode_policy_error in E. lia.
Qed.
Lemma header_fields p : header_accepted (decode_header p) = true ->
  decode_header p = BootEvidence 1 336 1 2 6878 6299 11 15 [0; 0; 0] 0 digest [].
Proof.
  unfold header_accepted. intros H. rewrite !andb_true_iff in H. destruct H as [H Hd]. apply bool_decide_eq_true in Hd.
  unfold decode_header, TETRIS_SMEM_BOOT_BYTES in *.
  cbn [version bytes scope count ap md loaded_stage boot_stage errors reserved preloader_sha256 forallb] in *.
  f_equal; try lia; [|exact Hd]. repeat f_equal; lia.
Qed.
Lemma encode_evidence b r0 r1 : encode (evidence b r0 r1) =
  (flat_map put32 header_words ++ digest) ++ encode_record (reported 0 (bank_nc b) r0) ++ encode_record (reported 1 (bank_cache b) r1).
Proof.
  transitivity (flat_map put32 header_words ++ digest
    ++ (encode_record (reported 0 (bank_nc b) r0) ++ encode_record (reported 1 (bank_cache b) r1) ++ [])); [reflexivity|].
  now rewrite app_nil_r, app_assoc.
Qed.
(** The three pieces of an encoded evidence. *)
Lemma encode_pieces p b r0 r1 : p = slice p 0 80 ++ slice p 80 128 ++ slice p 208 128 -> 336 <= len p -> p = encode (evidence b r0 r1) ->
  slice p 0 80 = flat_map put32 header_words ++ digest /\ slice p 80 128 = encode_record (reported 0 (bank_nc b) r0) /\
  slice p 208 128 = encode_record (reported 1 (bank_cache b) r1).
Proof.
  intros Hs Hl E2. rewrite encode_evidence in E2. rewrite Hs in E2 at 1. pose proof (len_slice p 0 80 ltac:(lia) ltac:(lia) ltac:(lia)). pose proof (len_slice p 80 128 ltac:(lia) ltac:(lia) ltac:(lia)).
  unfold len in *. apply app_inj_1 in E2 as [E1 E2]; [|change (length (flat_map put32 header_words ++ digest)) with 80%nat; lia].
  apply app_inj_1 in E2 as [E2 E3]; [|change (length (encode_record (reported 0 (bank_nc b) r0))) with 128%nat; lia]. auto.
Qed.
Lemma decode_body_exact : arguments_ok = true ->
  (decode_body.1 <> 0 -> decode_body.2 = pointee output) /\
  forall o, decode_body = (0, o) <-> exists r0 r1, report_ok (bank_nc (pointee banks)) r0 /\ report_ok (bank_cache (pointee banks)) r1 /\
    o = evidence (pointee banks) r0 r1 /\ pointee wire = encode o.
Proof.
  intros Ha. apply arguments_exact in Ha as [(_ & _ & _ & _ & _ & _ & Hwb & _) (V1 & V2 & _)]. unfold TETRIS_SMEM_BOOT_BYTES in Hwb.
  set (p := pointee wire) in *. assert (Hl : len p = 336) by lia.
  assert (Hu1 : window_u64 (bank_nc (pointee banks))) by (unfold banks_u64 in Hbanks; rewrite !Forall_cons in Hbanks; tauto).
  assert (Hu2 : window_u64 (bank_cache (pointee banks))) by (unfold banks_u64 in Hbanks; rewrite !Forall_cons in Hbanks; tauto).
  pose proof (header_exact p Hwire ltac:(lia)) as Hh.
  pose proof (decode_record_exact p Hwire 80 0 (bank_nc (pointee banks)) ltac:(lia) ltac:(lia) ltac:(auto) Hu1 V1) as D0.
  pose proof (decode_record_exact p Hwire 208 1 (bank_cache (pointee banks)) ltac:(lia) ltac:(lia) ltac:(auto) Hu2 V2) as D1.
  assert (Hsplit : p = slice p 0 80 ++ slice p 80 128 ++ slice p 208 128).
  { rewrite <- (slice_all p) at 1. rewrite Hl, (slice_cut p 0 336 80 256), (slice_cut p (0 + 80) 256 128 128) by lia. reflexivity. }
  unfold decode_body. fold p. cbv zeta. split.
  - destruct (negb (header_accepted (decode_header p))); [reflexivity|].
    destruct (decode_record p 80 0 _) as [e|r0]; [reflexivity|]. destruct (decode_record p 208 1 _) as [e|r1]; [reflexivity|]. intros []; reflexivity.
  - intros o. destruct (header_accepted (decode_header p)) eqn:Eh; cbn [negb]; cycle 1.
    + split; [discriminate|]. intros (r0 & r1 & _ & _ & -> & E). apply encode_pieces in E as (E & _); [|exact Hsplit|lia].
      apply Hh in E. discriminate.
    + rewrite (header_fields p Eh). cbn [version bytes scope count ap md loaded_stage boot_stage errors reserved preloader_sha256].
      apply proj1 in Hh. specialize (Hh eq_refl). split.
      * destruct (decode_record p 80 0 _) as [e|q0] eqn:E0; [intros [= He _]; now apply decode_record_error in E0|].
        destruct (decode_record p 208 1 _) as [e|q1] eqn:E1; [intros [= He _]; now apply decode_record_error in E1|]. intros [= <-].
        destruct (proj1 (D0 q0) eq_refl) as (r0 & R0 & -> & S0). destruct (proj1 (D1 q1) eq_refl) as (r1 & R1 & -> & S1). exists r0, r1. split; [exact R0|]. split; [exact R1|].
        split; [reflexivity|]. change (p = encode (evidence (pointee banks) r0 r1)). rewrite encode_evidence, Hsplit, Hh, S0, S1. reflexivity.
      * intros (r0 & r1 & R0 & R1 & -> & E). apply encode_pieces in E as (_ & S0 & S1); [|exact Hsplit|lia].
        rewrite (proj2 (D0 (reported 0 (bank_nc (pointee banks)) r0))) by eauto.
        rewrite (proj2 (D1 (reported 1 (bank_cache (pointee banks)) r1))) by eauto. reflexivity.
Qed.
End Decode.

(** C24. The boot evidence decoder is exact. It succeeds exactly when its three
    arguments are valid disjoint spans of the right sizes, the two reserved
    windows are page aligned and disjoint, and the 336 bytes are the encoding
    of an admissible report for them: protection of a page-aligned, nonempty
    range that starts at each window's base, stays inside the window and below
    the top of memory, with the expected policy words, the end register with
    or without its marker bit. The output is then that evidence; on every
    error the output is unchanged. *)
Theorem boot_decode_exact wire wire_bytes banks banks_bytes output output_bytes :
  bytes_ok (pointee wire) -> len (pointee wire) = wire_bytes -> banks_u64 (pointee banks) ->
  is_u64 (addr wire) /\ is_u64 (addr banks) /\ is_u64 (addr output) /\ is_u64 wire_bytes /\ is_u64 banks_bytes /\ is_u64 output_bytes ->
  let r := tetris_smem_boot_decode wire wire_bytes banks banks_bytes output output_bytes in
  (r.1 <> 0 -> r.2 = pointee output) /\
  forall o, r = (0, o) <->
    pointers_ok (addr wire) wire_bytes (addr banks) banks_bytes (addr output) output_bytes /\ reservation_ok (pointee banks) /\
    exists r0 r1, report_ok (bank_nc (pointee banks)) r0 /\ report_ok (bank_cache (pointee banks)) r1 /\
      o = evidence (pointee banks) r0 r1 /\ pointee wire = encode o.
Proof.
  intros Hw Hl Hb Hp r.
  destruct (decode_dispatch wire banks output wire_bytes banks_bytes output_bytes) as [Hyes Hno]. fold r in Hyes, Hno.
  pose proof (arguments_exact wire banks output wire_bytes banks_bytes output_bytes Hb Hp) as Ha.
  destruct (arguments_ok wire banks output wire_bytes banks_bytes output_bytes) eqn:E.
  - rewrite (Hyes eq_refl). destruct (decode_body_exact wire banks output wire_bytes banks_bytes output_bytes Hw Hl Hb Hp E) as [H1 H2].
    split; [exact H1|]. intros o. rewrite (H2 o). apply proj1 in Ha. specialize (Ha eq_refl). tauto.
  - destruct (Hno eq_refl) as [H1 H2]. split; [auto|]. intros o. split; [intros Hr; rewrite Hr in H1; contradiction|].
    intros (P1 & P2 & _). exfalso. assert (false = true) as [=]. apply Ha. auto.
Qed.
Definition witness_banks : tetris_metadata_banks :=
  Banks (Window 0x80000000 0x20000000) (Window 0xa0000000 0x8000000) (Window 0xa8000000 0x8000000) (Window 0x60000000 65536).
Definition witness_evidence : tetris_smem_boot_evidence := evidence witness_banks (Report 0x120000 true) (Report 0x1a00000 false).
Definition witness_wire : list Z := Eval vm_compute in encode witness_evidence.
Lemma boot_decode_exact_witness :
  tetris_smem_boot_decode (Ptr 0x1000 witness_wire) 336 (Ptr 0x2000 witness_banks) 64
    (Ptr 0x3000 (BootEvidence 0 0 0 0 0 0 0 0 [] 0 [] [])) 336 = (0, witness_evidence).
Proof.
  apply (boot_decode_exact (Ptr 0x1000 witness_wire) 336 (Ptr 0x2000 witness_banks) 64
    (Ptr 0x3000 (BootEvidence 0 0 0 0 0 0 0 0 [] 0 [] [])) 336).
  - cbn [pointee]. concrete_bytes.
  - vm_compute. reflexivity.
  - repeat constructor; unfold is_u64; cbn; lia.
  - unfold is_u64. cbn. lia.
  - split; [unfold pointers_ok, apart, TETRIS_SMEM_BOOT_BYTES, sizeof_banks, sizeof_evidence; cbn; lia|].
    split; [split; [vm_compute; reflexivity|split; [vm_compute; reflexivity|unfold windows_apart; cbn; lia]]|].
    exists (Report 0x120000 true), (Report 0x1a00000 false).
    split; [|split; [|split; [reflexivity|vm_compute; reflexivity]]]; unfold report_ok, limit, origin; cbn;
      repeat split; try lia; try (eexists (_ / 4096); vm_compute; reflexivity); apply Z.mod_divide; vm_compute; congruence.
Defined.
