(* ===== verification/SmemOwner.v ===== *)
(** * The shared-memory owner: [modem/drafts/runtime-smem/smem.c], [private.h] and [arguments.c]

    The private owner of the modem's shared memory: admission of the boot
    loader's two row tables, the page spans to map and the consumer tables.
    The vendor's identifiers, flags and structure sizes and the kernel's page
    size are an interface ([Vendor]). Mapping and publication are in
    [SmemLife]. *)

From Stdlib Require Import Ascii String.
From S2P Require Import Prelude LayoutModel Semantic.
From stdpp Require Import gmap.
Open Scope Z_scope.

(** ** Vendor vocabulary *)

Inductive smem_user : Type :=
| SMEM_USER_RAW_DFD | SMEM_USER_RAW_UDC_DATA | SMEM_USER_MD_WIFI_PROXY | SMEM_USER_SECURITY_SMEM
| SMEM_USER_RAW_MDCCCI_DBG | SMEM_USER_RAW_MDSS_DBG | SMEM_USER_32K_LOW_POWER | SMEM_USER_RAW_RESERVED
| SMEM_USER_RAW_RUNTIME_DATA | SMEM_USER_RAW_FORCE_ASSERT | SMEM_USER_LOW_POWER | SMEM_USER_RAW_DBM
| SMEM_USER_CCISM_SCP | SMEM_USER_RAW_CCB_CTRL | SMEM_USER_RAW_NETD | SMEM_USER_RAW_USB | SMEM_USER_RAW_AUDIO
| SMEM_USER_CCISM_MCU | SMEM_USER_CCISM_MCU_EXP | SMEM_USER_RESERVED | SMEM_USER_MD_DRDI | SMEM_USER_RAW_LWA
| SMEM_USER_RAW_PHY_CAP | SMEM_USER_RAW_AMMS_POS | SMEM_USER_RAW_ALIGN_PADDING | SMEM_USER_MAX
| SMEM_USER_RAW_MD_CONSYS | SMEM_USER_MD_NVRAM_CACHE | SMEM_USER_CCB_DHL | SMEM_USER_CCB_MD_MONITOR
| SMEM_USER_CCB_META | SMEM_USER_RAW_DHL | SMEM_USER_RAW_MDM | SMEM_USER_MD_POST_DUMP
| SMEM_USER_RAW_UDC_DESCTAB | SMEM_USER_RAW_USIP.

(** The identifiers of the vendor's enumeration, its flags, the sizes of its
    structures and the page size. *)
Class Vendor := {
  user_id : smem_user -> Z;
  SMF_NCLR_FIRST : Z;
  SMF_NO_REMAP : Z;
  sizeof_region : Z;
  sizeof_layout : Z;
  sizeof_owner : Z;
  offsetof_nc : Z;
  offsetof_cache : Z;
  PAGE_SHIFT : Z
}.
Definition PAGE_BYTES `{Vendor} : Z := 2 ^ PAGE_SHIFT.

(** ** Data *)

Record ccci_smem_region : Type := Region {
  g_id : Z; g_offset : Z; g_size : Z; g_flag : Z; base_ap_view_phy : Z; base_md_view_phy : Z; base_ap_view_vir : Z
}.
Record ccci_mem_region : Type := MemRegion { mr_ap : Z; mr_md : Z; mr_size : Z; mr_vir : Z }.
Record ccci_mem_layout : Type := MemLayout {
  md_bank0 : ccci_mem_region;
  md_bank4_noncacheable_total : ccci_mem_region;
  md_bank4_cacheable_total : ccci_mem_region;
  md_bank4_noncacheable : Z;
  md_bank4_cacheable : Z
}.

Inductive tetris_smem_state : Type :=
| TETRIS_SMEM_VALIDATED
| TETRIS_SMEM_MAPPED
| TETRIS_SMEM_PUBLISHED
| TETRIS_SMEM_FAILED.
#[export] Instance smem_state_eq : EqDecision tetris_smem_state.
Proof. solve_decision. Defined.
Record tetris_smem_row : Type := SmemRow {
  r_id : Z; r_offset : Z; r_size : Z; r_flags : Z; r_md_offset : Z; r_bank : Z; r_virtual : Z
}.
Record tetris_smem_span : Type := SmemSpan { sbank : Z; soffset : Z; ssize : Z; svirtual : Z }.
(** [spans] are the first [span_count] slots of the array. *)
Record tetris_smem_owner : Type := Owner {
  state : tetris_smem_state;
  owner_error : Z;
  owner_banks : tetris_metadata_banks;
  logical : Z;
  nc_size : Z;
  cache_size : Z;
  span_count : Z;
  rows : list tetris_smem_row;
  spans : list tetris_smem_span;
  owner_nc : list ccci_smem_region;
  owner_cache : list ccci_smem_region;
  owner_layout : ccci_mem_layout
}.
Record tetris_smem_input : Type := SmemInput {
  in_chk : option (list Z); chk_bytes : Z; in_nc : option (list Z); nc_bytes : Z;
  in_cache : option (list Z); cache_bytes : Z; in_banks : tetris_metadata_banks
}.

Definition zero_row : tetris_smem_row := SmemRow 0 0 0 0 0 0 0.
Definition zero_region : ccci_smem_region := Region 0 0 0 0 0 0 0.
Definition zero_mem : ccci_mem_region := MemRegion 0 0 0 0.
Definition zero_layout : ccci_mem_layout := MemLayout zero_mem zero_mem zero_mem 0 0.
(** A zeroed allocation; the enumeration's zero is no named state and is overwritten before use. *)
Definition zero_owner (banks : tetris_metadata_banks) : tetris_smem_owner :=
  Owner TETRIS_SMEM_VALIDATED 0 banks 0 0 0 0 (replicate 23 zero_row) [] (replicate 26 zero_region) (replicate 11 zero_region) zero_layout.

Definition with_state (s : tetris_smem_state) (o : tetris_smem_owner) : tetris_smem_owner :=
  Owner s (owner_error o) (owner_banks o) (logical o) (nc_size o) (cache_size o) (span_count o) (rows o) (spans o)
    (owner_nc o) (owner_cache o) (owner_layout o).
Definition with_error (e : Z) (o : tetris_smem_owner) : tetris_smem_owner :=
  Owner (state o) e (owner_banks o) (logical o) (nc_size o) (cache_size o) (span_count o) (rows o) (spans o)
    (owner_nc o) (owner_cache o) (owner_layout o).
Definition with_rows (l : list tetris_smem_row) (o : tetris_smem_owner) : tetris_smem_owner :=
  Owner (state o) (owner_error o) (owner_banks o) (logical o) (nc_size o) (cache_size o) (span_count o) l (spans o)
    (owner_nc o) (owner_cache o) (owner_layout o).
Definition with_spans (l : list tetris_smem_span) (o : tetris_smem_owner) : tetris_smem_owner :=
  Owner (state o) (owner_error o) (owner_banks o) (logical o) (nc_size o) (cache_size o) (len l) (rows o) l
    (owner_nc o) (owner_cache o) (owner_layout o).
Definition with_tables (n c : list ccci_smem_region) (l : ccci_mem_layout) (o : tetris_smem_owner) : tetris_smem_owner :=
  Owner (state o) (owner_error o) (owner_banks o) (logical o) (nc_size o) (cache_size o) (span_count o) (rows o) (spans o) n c l.

Definition window_of (banks : tetris_metadata_banks) (bank : Z) : tetris_metadata_window :=
  if negb (bank =? 0) then bank_cache banks else bank_nc banks.
Definition bank_window (o : tetris_smem_owner) (bank : Z) : tetris_metadata_window := window_of (owner_banks o) bank.

(** ** Admission of a row table *)

(** The comparison of one wire row; [true] refuses it. *)
Definition row_refused (raw : list Z) (used : Z) (window : tetris_metadata_window) (md_base id off sz flags : Z) : bool :=
  negb (le64 raw used =? u64 (wbase window + off)) || negb (le64 raw (used + 8) =? 0) || negb (word raw (used + 16) =? id)
  || negb (word raw (used + 20) =? off) || negb (word raw (used + 24) =? sz) || negb (word raw (used + 28) =? 0)
  || negb (word raw (used + 32) =? flags) || negb (word raw (used + 36) =? u32 (md_base + off)).
Definition decoded_row (bank md_base : Z) (e : tetris_modem_smem_entry) : tetris_smem_row :=
  SmemRow (e_id e) (e_offset e) (e_size e) (e_flags e) (u32 (md_base + e_offset e)) bank 0.
(** The loop from some entry on; [i] is the row slot written next. *)
Fixpoint validate_loop (raw : list Z) (bytes : Z) (window : tetris_metadata_window) (bank md_base : Z)
    (entries : list tetris_modem_smem_entry) (i : nat) (l : list tetris_smem_row) (cursor used : Z) : Z + list tetris_smem_row :=
  match entries with
  | [] => if used =? bytes then inr l else inl (- EBADMSG)
  | e :: entries =>
    if (e_offset e <? cursor) || (wcapacity window <? e_offset e) || (u64 (wcapacity window - e_offset e) <? e_size e)
    then inl (- ERANGE)
    else
    let entry used :=
      if u32 (bytes - used) <? 40 then inl (- EBADMSG)
      else if row_refused raw used window md_base (e_id e) (e_offset e) (e_size e) (e_flags e) then inl (- EBADMSG)
      else validate_loop raw bytes window bank md_base entries (S i) (<[i := decoded_row bank md_base e]> l)
             (u32 (e_offset e + e_size e)) (u32 (used + 40)) in
    if cursor <? e_offset e then
      if u32 (bytes - used) <? 40 then inl (- EBADMSG)
      else if row_refused raw used window md_base (e_id e) cursor (u32 (e_offset e - cursor)) 4 then inl (- EBADMSG)
      else entry (u32 (used + 40))
    else entry used
  end.
(** [count] is the length of [entries]. *)
Definition validate_rows (raw : option (list Z)) (bytes : Z) (entries : list tetris_modem_smem_entry)
    (o : tetris_smem_owner) (bank : Z) (first : nat) : Z + tetris_smem_owner :=
  let md_base := if negb (bank =? 0) then 0x8000000 else 0 in
  match raw with
  | None => inl (- EBADMSG)
  | Some raw =>
    if (bytes =? 0) || negb (bytes mod 40 =? 0) || (len entries * 2 * 40 <? bytes) then inl (- EBADMSG)
    else match validate_loop raw bytes (bank_window o bank) bank md_base entries first (rows o) 0 0 with
         | inl e => inl e
         | inr l => inr (with_rows l o)
         end
  end.

(** ** Page spans *)

Section Owner.
Context `{Vendor}.

Definition page_down (z : Z) : Z := Z.ldiff z (PAGE_BYTES - 1).
Definition no_map (r : tetris_smem_row) : bool := negb (Z.land (r_flags r) 8 =? 0).
(** The first loop from some row on; [last] is the index of the span being extended. *)
Fixpoint span_loop (banks : tetris_metadata_banks) (todo : list tetris_smem_row) (acc : list tetris_smem_span)
    (last : option nat) : Z + list tetris_smem_span :=
  match todo with
  | [] => inr acc
  | r :: todo =>
    let window := window_of banks (r_bank r) in
    if no_map r then span_loop banks todo acc None
    else if r_size r =? 0 then span_loop banks todo acc last
    else
    let start := page_down (r_offset r) in
    let stop := page_down (r_offset r + r_size r + PAGE_BYTES - 1) in
    if negb (Z.land (wbase window) (PAGE_BYTES - 1) =? 0) || (wcapacity window <? stop) || (stop <=? start) || (0xffffffff <? stop)
    then inl (- ERANGE)
    else
    let extended :=
      match last with
      | None => None
      | Some k => match acc !! k with
                  | Some s => if sbank s =? r_bank r then Some (k, s) else None
                  | None => None
                  end
      end in
    match extended with
    | Some (k, s) =>
      span_loop banks todo (<[k := SmemSpan (sbank s) (soffset s) (u32 (stop - soffset s)) (svirtual s)]> acc) last
    | None =>
      if len acc =? 23 then inl (- E2BIG)
      else span_loop banks todo (acc ++ [SmemSpan (r_bank r) (u32 start) (u32 (stop - start)) 0]) (Some (length acc))
    end
  end.
(** A mapped page range would alias a range that must not be mapped. *)
Definition span_aliases (l : list tetris_smem_row) (s : tetris_smem_span) : bool :=
  existsb (fun r => (r_bank r =? sbank s) && negb (r_size r =? 0) && no_map r
    && (soffset s <? u32 (r_offset r + r_size r)) && (r_offset r <? u32 (soffset s + ssize s))) l.
Definition build_spans (o : tetris_smem_owner) : Z + tetris_smem_owner :=
  match span_loop (owner_banks o) (rows o) (spans o) None with
  | inl e => inl e
  | inr l =>
    if existsb (span_aliases (rows o)) l then inl (- EADDRNOTAVAIL)
    else if len l =? 0 then inl (- ENODATA)
    else inr (with_spans l o)
  end.

(** ** Consumer tables *)

Definition template (l : list (smem_user * Z)) : list ccci_smem_region :=
  (fun '(u, flag) => Region (user_id u) 0 0 flag 0 0 0) <$> l.
Definition nc_users : list (smem_user * Z) :=
  [(SMEM_USER_RAW_DFD, 0); (SMEM_USER_RAW_UDC_DATA, 0); (SMEM_USER_MD_WIFI_PROXY, 0); (SMEM_USER_SECURITY_SMEM, SMF_NCLR_FIRST);
   (SMEM_USER_RAW_MDCCCI_DBG, 0); (SMEM_USER_RAW_MDSS_DBG, 0); (SMEM_USER_32K_LOW_POWER, 0); (SMEM_USER_RAW_RESERVED, 0);
   (SMEM_USER_RAW_RUNTIME_DATA, 0); (SMEM_USER_RAW_FORCE_ASSERT, 0); (SMEM_USER_LOW_POWER, 0); (SMEM_USER_RAW_DBM, 0);
   (SMEM_USER_CCISM_SCP, 0); (SMEM_USER_RAW_CCB_CTRL, 0); (SMEM_USER_RAW_NETD, 0); (SMEM_USER_RAW_USB, 0); (SMEM_USER_RAW_AUDIO, 0);
   (SMEM_USER_CCISM_MCU, SMF_NCLR_FIRST); (SMEM_USER_CCISM_MCU_EXP, SMF_NCLR_FIRST); (SMEM_USER_RESERVED, 0);
   (SMEM_USER_MD_DRDI, SMF_NCLR_FIRST); (SMEM_USER_RAW_LWA, 0); (SMEM_USER_RAW_PHY_CAP, SMF_NCLR_FIRST);
   (SMEM_USER_RAW_AMMS_POS, SMF_NCLR_FIRST); (SMEM_USER_RAW_ALIGN_PADDING, 0); (SMEM_USER_MAX, 0)].
Definition cache_users : list (smem_user * Z) :=
  [(SMEM_USER_RAW_MD_CONSYS, Z.lor SMF_NCLR_FIRST SMF_NO_REMAP); (SMEM_USER_MD_NVRAM_CACHE, 0); (SMEM_USER_CCB_DHL, 0);
   (SMEM_USER_CCB_MD_MONITOR, 0); (SMEM_USER_CCB_META, 0); (SMEM_USER_RAW_DHL, 0); (SMEM_USER_RAW_MDM, 0);
   (SMEM_USER_MD_POST_DUMP, 0); (SMEM_USER_RAW_UDC_DESCTAB, 0); (SMEM_USER_RAW_USIP, SMF_NCLR_FIRST); (SMEM_USER_MAX, 0)].
Definition tetris_nc_template : list ccci_smem_region := template nc_users.
Definition tetris_cache_template : list ccci_smem_region := template cache_users.

(** The index of the first region with the identifier. *)
Fixpoint table_region (table : list ccci_smem_region) (id : Z) : option nat :=
  match table with
  | [] => None
  | g :: table => if g_id g =? id then Some O else S <$> table_region table id
  end.
(** [fill] stores a decoded row into its region. *)
Definition stored (window : tetris_metadata_window) (r : tetris_smem_row) (g : ccci_smem_region) : ccci_smem_region :=
  Region (g_id g) (r_offset r) (r_size r) (g_flag g) (u64 (wbase window + r_offset r)) (u64 (0x40000000 + r_md_offset r)) (r_virtual r).
Definition fill (window : tetris_metadata_window) (r : tetris_smem_row) (table : list ccci_smem_region) : list ccci_smem_region :=
  match table_region table (r_id r) with
  | None => table
  | Some k => alter (stored window r) k table
  end.
Fixpoint fill_tables (banks : tetris_metadata_banks) (l : list tetris_smem_row) (tables : list ccci_smem_region * list ccci_smem_region)
    : list ccci_smem_region * list ccci_smem_region :=
  match l with
  | [] => tables
  | r :: l =>
    let window := window_of banks (r_bank r) in
    fill_tables banks l (if negb (r_bank r =? 0) then (tables.1, fill window r tables.2) else (fill window r tables.1, tables.2))
  end.

Definition resized (n : Z) (g : ccci_smem_region) : ccci_smem_region :=
  Region (g_id g) (g_offset g) n (g_flag g) (base_ap_view_phy g) (base_md_view_phy g) (base_ap_view_vir g).
Definition renamed (j : Z) (g : ccci_smem_region) : ccci_smem_region :=
  Region j (g_offset g) (g_size g) (g_flag g) (base_ap_view_phy g) (base_md_view_phy g) (base_ap_view_vir g).
(** [alias_loop f ids ccb table]: every identifier of [ids] becomes a copy of
    the region at [ccb], changed by [f]; [None] is the use of a missing region. *)
Fixpoint alias_loop (f : ccci_smem_region -> ccci_smem_region) (ids : list Z) (ccb : nat) (table : list ccci_smem_region)
    : option (list ccci_smem_region) :=
  match ids with
  | [] => Some table
  | j :: ids =>
    match table_region table j, table !! ccb with
    | Some k, Some g =>
      alias_loop f ids ccb (<[k := f (renamed j g)]> table)
    | _, _ => None
    end
  end.
(** The part of the buffer after the first section. *)
Definition second_section (section_a section_b : Z) (g : ccci_smem_region) : ccci_smem_region :=
  if section_b =? 0 then resized section_b g
  else Region (g_id g) (g_offset g + section_a) section_b (g_flag g) (base_ap_view_phy g + section_a)
         (base_md_view_phy g + section_a) (if base_ap_view_vir g =? 0 then 0 else u64 (base_ap_view_vir g + section_a)).
Definition between (a b : smem_user) : list Z := seqZ (user_id a) (user_id b - user_id a + 1).

(** [self] is the owner's address; [None] is the use of a region the tables do not have. *)
Definition populate_tables (self : Z) (o : tetris_smem_owner) : option tetris_smem_owner :=
  let '(n, c) := fill_tables (owner_banks o) (rows o) (tetris_nc_template, tetris_cache_template) in
  match table_region c (user_id SMEM_USER_CCB_DHL) with
  | None => None
  | Some ccb =>
    let total := default 0 (g_size <$> c !! ccb) in
    let section_a := if 0x200000 <? total then 0x200000 else 0 in
    let section_b := if negb (section_a =? 0) then total - section_a else 0 in
    let c := alter (resized section_a) ccb c in
    match alias_loop id (between SMEM_USER_CCB_MD_MONITOR SMEM_USER_CCB_META) ccb c with
    | None => None
    | Some c =>
      match alias_loop (second_section section_a section_b) (between SMEM_USER_RAW_DHL SMEM_USER_RAW_MDM) ccb c with
      | None => None
      | Some c =>
        Some (with_tables n c
          (MemLayout (MemRegion (wbase (firmware (owner_banks o))) 0 (logical o) 0)
             (MemRegion (wbase (bank_nc (owner_banks o))) 0x40000000 (nc_size o) (default 0 (r_virtual <$> rows o !! 0%nat)))
             (MemRegion (wbase (bank_cache (owner_banks o))) 0x48000000 (cache_size o) 0)
             (self + offsetof_nc) (self + offsetof_cache)) o)
      end
    end
  end.

(** ** Creation *)

(** [allocated] says whether the kernel has memory for an owner, [self] is its
    address. The result is the code and the owner stored through [output]. *)
Definition tetris_smem_create (allocated : bool) (self : Z) (input : option tetris_smem_input) (output : option (option tetris_smem_owner))
    : option (Z * option (option tetris_smem_owner)) :=
  let fail ret := Some (ret, output) in
  match input, output with
  | Some input, Some _ =>
    match in_chk input with
    | None => fail (- EINVAL)
    | Some chk =>
      if negb (chk_bytes input =? 512) then fail (- EINVAL)
      else
      let ret := tetris_metadata_windows (Some (in_banks input)) in
      if negb (ret =? 0) then fail ret
      else if negb (bool_decide (slice chk 0 12 = chars "CHECK_HEADER")) || negb (word chk 12 =? 6) || negb (word chk 16 =? 2)
              || negb (word chk 20 =? 14) || negb (byte_at chk 168 =? 1) || negb (word chk 508 =? 512) || (word chk 172 =? 0)
              || (wcapacity (firmware (in_banks input)) <? word chk 172)
      then fail (- EBADMSG)
      else
      let policy := SmemInputs (word chk 0x190) (word chk 0x184) (word chk 0x180) (word chk 0x18c) 1 in
      if negb (udc_en policy =? 0) || (consys_size policy =? 0) then fail (- EPROTONOSUPPORT)
      else
      match tetris_modem_plan_smem_b41 (Some policy) (Some zero_plan) with
      | (ret, oplan) =>
        if negb (ret =? 0) then fail ret
        else
        let plan := default zero_plan oplan in
        if (wcapacity (bank_nc (in_banks input)) <? nc_capacity plan) || (wcapacity (bank_cache (in_banks input)) <? cache_capacity plan)
           || negb (nc_bytes input =? u32 (nc_rows plan * 40)) || negb (cache_bytes input =? u32 (cache_rows plan * 40))
        then fail (- ERANGE)
        else if negb allocated then fail (- ENOMEM)
        else
        let last l i := nth i l (SmemEntry 0 0 0 0) in
        let o := Owner TETRIS_SMEM_VALIDATED 0 (in_banks input) (word chk 172)
          (u32 (e_offset (last (nc plan) 17%nat) + e_size (last (nc plan) 17%nat)))
          (u32 (e_offset (last (cache plan) 4%nat) + e_size (last (cache plan) 4%nat))) 0
          (rows (zero_owner (in_banks input))) [] (owner_nc (zero_owner (in_banks input))) (owner_cache (zero_owner (in_banks input))) zero_layout in
        match (match validate_rows (in_nc input) (nc_bytes input) (nc plan) o 0 0 with
               | inl e => inl e
               | inr o => match validate_rows (in_cache input) (cache_bytes input) (cache plan) o 1 18 with
                          | inl e => inl e
                          | inr o => build_spans o
                          end
               end) with
        | inl e => fail e
        | inr o =>
          match populate_tables self o with
          | None => None
          | Some o => Some (0, Some (Some (with_state TETRIS_SMEM_VALIDATED o)))
          end
        end
      end
    end
  | _, _ => fail (- EINVAL)
  end.

(** ** Creation from the imported arguments *)

(** [find name bytes] is the vendor's argument lookup: its code and the bytes it stored. *)
Definition read_argument (find : string -> Z -> Z * list Z) (name : string) (bytes : Z) : Z + list Z :=
  let '(ret, data) := find name bytes in
  if ret <? 0 then inl ret else if u32 ret =? bytes then inr data else inl (- EMSGSIZE).
(** [staged] says whether the kernel has memory for the staging buffer. *)
Definition tetris_smem_from_arguments (find : string -> Z -> Z * list Z) (staged allocated : bool) (self : Z)
    (banks : option tetris_metadata_banks) (output : option (option tetris_smem_owner)) : option (Z * option (option tetris_smem_owner)) :=
  let fail ret := Some (ret, output) in
  match banks, output with
  | Some banks, Some _ =>
    match read_argument find "nc_smem_layout_num" 4 with
    | inl e => fail e
    | inr count =>
      let nc_count := le32 count 0 in
      match read_argument find "c_smem_layout_num" 4 with
      | inl e => fail e
      | inr count =>
        let cache_count := le32 count 0 in
        if (nc_count <? 18) || (36 <? nc_count) || (cache_count <? 5) || (10 <? cache_count) then fail (- ERANGE)
        else if negb staged then fail (- ENOMEM)
        else
        match read_argument find "md1_chk" 512 with
        | inl e => fail e
        | inr chk =>
          match read_argument find "nc_smem_layout" (nc_count * 40) with
          | inl e => fail e
          | inr n =>
            match read_argument find "c_smem_layout" (cache_count * 40) with
            | inl e => fail e
            | inr c => tetris_smem_create allocated self
                (Some (SmemInput (Some chk) 512 (Some n) (nc_count * 40) (Some c) (cache_count * 40) banks)) output
            end
          end
        end
      end
    end
  | _, _ => fail (- EINVAL)
  end.
End Owner.

(** ** The two row validators agree *)

Lemma smem_row_refused raw used window md id off sz flags :
  tetris_metadata_smem_row raw used (wbase window) id off sz flags md =
  if row_refused raw used window md id off sz flags then - EBADMSG else 0.
Proof. reflexivity. Qed.
(** On a bank the modem can address, the validator of the owner and the one of
    the importer are the same function; the owner also records the rows. *)
Lemma validate_loop_smem raw bytes window bank md entries : 0 <= md -> is_u64 (wcapacity window) -> md + wcapacity window <= UINT32_MAX ->
  Forall entry_u32 entries -> forall i pre old post cursor used,
  length pre = i -> length old = length entries ->
  validate_loop raw bytes window bank md entries i (pre ++ old ++ post) cursor used =
  let r := smem_loop raw 0 bytes entries window md cursor used in
  if r =? 0 then inr (pre ++ (decoded_row bank md <$> entries) ++ post) else inl r.
Proof.
  intros Hmd Hcap Hfit. induction 1 as [|e entries (_ & He & He' & _) _ IH]; intros i pre old post cursor used Hi Hold.
  - destruct old; [|discriminate]. cbn. destruct (used =? bytes); reflexivity.
  - destruct old as [|x old]; [discriminate|]. cbn [validate_loop smem_loop fmap list_fmap]. cbv zeta. unfold is_u32, is_u64 in *.
    assert (Hentry : forall u,
      (if u32 (bytes - u) <? 40 then inl (- EBADMSG)
       else if row_refused raw u window md (e_id e) (e_offset e) (e_size e) (e_flags e) then inl (- EBADMSG)
       else validate_loop raw bytes window bank md entries (S i) (<[i := decoded_row bank md e]> (pre ++ (x :: old) ++ post))
              (u32 (e_offset e + e_size e)) (u32 (u + 40))) =
      (let r := if u32 (bytes - u) <? 40 then - EBADMSG
         else let ret := tetris_metadata_smem_row raw (0 + u) (wbase window) (e_id e) (e_offset e) (e_size e) (e_flags e) md in
           if negb (ret =? 0) then ret
           else smem_loop raw 0 bytes entries window md (u32 (e_offset e + e_size e)) (u32 (u + 40)) in
       if r =? 0 then inr (pre ++ (decoded_row bank md <$> e :: entries) ++ post) else inl r)).
    { intros u. destruct (u32 (bytes - u) <? 40); [reflexivity|]. rewrite Z.add_0_l, smem_row_refused.
      destruct (row_refused _ _ _ _ _ _ _ _); [reflexivity|]. cbn [Z.eqb negb].
      replace (<[i := decoded_row bank md e]> (pre ++ (x :: old) ++ post)) with ((pre ++ [decoded_row bank md e]) ++ old ++ post).
      - rewrite (IH (S i)); [|rewrite length_app; cbn; lia|now injection Hold]. cbv zeta. rewrite <- !app_assoc. reflexivity.
      - rewrite insert_app_r_alt, Hi, Nat.sub_diag by lia. cbn. now rewrite <- app_assoc. }
    destruct ((e_offset e <? cursor) || _ || _) eqn:G; [reflexivity|].
    assert (Hin : e_offset e + e_size e <= wcapacity window).
    { apply orb_false_iff in G as [G G2]. apply orb_false_iff in G as [_ G1].
      rewrite u64_id in G2 by (unfold is_u64; lia). lia. }
    rewrite (u32_id (4294967295 - md)) by (unfold is_u32; lia).
    rewrite (u32_id (4294967295 - md - e_offset e)) by (unfold is_u32; lia).
    replace (4294967295 - md <? e_offset e) with false by lia.
    replace (4294967295 - md - e_offset e <? e_size e) with false by lia. cbn [orb].
    destruct (cursor <? e_offset e); [|apply Hentry].
    destruct (u32 (bytes - used) <? 40); [reflexivity|].
    rewrite (Z.add_0_l used), (smem_row_refused raw used).
    destruct (row_refused _ _ _ _ _ _ _ _); [reflexivity|]. cbn [Z.eqb negb]. apply Hentry.
Qed.
Lemma validate_rows_ok raw bytes entries o bank first o' pre old post :
  bank = 0 \/ bank = 1 -> wcapacity (bank_window o bank) = 0x8000000 -> bytes_ok raw -> len raw = bytes -> is_u32 bytes ->
  Forall entry_u32 entries -> rows o = pre ++ old ++ post -> length pre = first -> length old = length entries ->
  validate_rows (Some raw) bytes entries o bank first = inr o' ->
  geometry_ok 0x8000000 (0x8000000 * bank) 0 entries /\ raw = reference_rows (wbase (bank_window o bank)) (0x8000000 * bank) 0 entries /\
  o' = with_rows (pre ++ (decoded_row bank (0x8000000 * bank) <$> entries) ++ post) o.
Proof.
  intros Hbank Hcap Hraw Hlen Hbytes He Hrows Hfirst Hold. unfold validate_rows. cbv zeta.
  replace (if negb (bank =? 0) then 134217728 else 0) with (0x8000000 * bank) by (destruct Hbank as [-> | ->]; reflexivity).
  destruct (_ || _ || _); [discriminate|]. assert (Hmd : 0 <= 0x8000000 * bank <= 0x8000000) by lia.
  rewrite Hrows, (validate_loop_smem raw bytes _ bank (0x8000000 * bank) entries); try assumption; try lia; [|rewrite Hcap; unfold is_u64; lia].
  cbv zeta. destruct (Z.eqb_spec (smem_loop raw 0 bytes entries (bank_window o bank) (0x8000000 * bank) 0 0) 0) as [E|]; [|discriminate].
  intros [= <-]. apply metadata_smem_cases in E; try assumption; try lia; [|rewrite Hcap; unfold is_u64; lia|unfold is_u32; lia].
  rewrite Hcap in E. destruct E as [E1 E2]. split; [exact E1|]. split; [|reflexivity]. rewrite <- E2, <- Hlen. symmetry. apply slice_all.
Qed.

(** ** What the spans cover *)

(** What the code relies on about the vendor's header and the page size. *)
Class VendorLaws `{Vendor} : Prop := {
  page_shift : 12 <= PAGE_SHIFT <= 16;
  ccb_ids : user_id SMEM_USER_CCB_META = user_id SMEM_USER_CCB_MD_MONITOR + 1;
  raw_ids : user_id SMEM_USER_RAW_MDM = user_id SMEM_USER_RAW_DHL + 1;
  nc_ids_distinct : NoDup (user_id <$> (fst <$> nc_users));
  cache_ids_distinct : NoDup (user_id <$> (fst <$> cache_users))
}.

Section Spans.
Context `{VendorLaws}.

Lemma page_pos : 4096 <= PAGE_BYTES <= 65536.
Proof.
  destruct page_shift as [H1 H2]. unfold PAGE_BYTES. split.
  - change 4096 with (2 ^ 12). apply Z.pow_le_mono_r; lia.
  - change 65536 with (2 ^ 16). apply Z.pow_le_mono_r; lia.
Qed.
Lemma page_down_spec z : 0 <= z -> page_down z = PAGE_BYTES * (z / PAGE_BYTES).
Proof.
  intros Hz. destruct page_shift as [H1 H2]. unfold page_down, PAGE_BYTES.
  replace (2 ^ PAGE_SHIFT - 1) with (Z.ones PAGE_SHIFT) by (rewrite Z.ones_equiv; lia).
  rewrite Z.ldiff_ones_r, Z.shiftl_mul_pow2, Z.shiftr_div_pow2 by lia. lia.
Qed.
Lemma page_down_range z : 0 <= z -> page_down z <= z < page_down z + PAGE_BYTES /\ 0 <= page_down z.
Proof. intros Hz. rewrite page_down_spec by exact Hz. pose proof page_pos. split; [dlia|]. apply Z.mul_nonneg_nonneg; [lia|]. apply Z.div_pos; lia. Qed.
Lemma page_down_aligned z : 0 <= z -> (PAGE_BYTES | page_down z).
Proof. intros Hz. rewrite page_down_spec by exact Hz. apply Z.divide_factor_l. Qed.
(** Rounding up to a page. *)
Definition page_up (z : Z) : Z := page_down (z + PAGE_BYTES - 1).
Lemma page_up_range z : 0 <= z -> z <= page_up z < z + PAGE_BYTES.
Proof. intros Hz. pose proof page_pos. unfold page_up. pose proof (page_down_range (z + PAGE_BYTES - 1)). lia. Qed.
Lemma page_up_mono a b : 0 <= a <= b -> page_up a <= page_up b.
Proof.
  intros Hab. pose proof page_pos. unfold page_up. rewrite !page_down_spec by lia. apply Z.mul_le_mono_nonneg_l; [lia|].
  apply Z.div_le_mono; lia.
Qed.

(** A page range inside its bank, not mapped yet. *)
Definition span_ok (banks : tetris_metadata_banks) (s : tetris_smem_span) : Prop :=
  (sbank s = 0 \/ sbank s = 1) /\ 0 <= soffset s /\ 0 < ssize s /\ (PAGE_BYTES | soffset s) /\ (PAGE_BYTES | ssize s) /\
  (PAGE_BYTES | wbase (window_of banks (sbank s))) /\ soffset s + ssize s <= wcapacity (window_of banks (sbank s)) /\
  soffset s + ssize s <= UINT32_MAX /\ svirtual s = 0.
(** A row whose memory the consumers use. *)
Definition in_use (r : tetris_smem_row) : Prop := 0 < r_size r /\ no_map r = false.
Definition inside (r : tetris_smem_row) (s : tetris_smem_span) : Prop :=
  sbank s = r_bank r /\ soffset s <= r_offset r /\ r_offset r + r_size r <= soffset s + ssize s.
Definition covered (l : list tetris_smem_span) (r : tetris_smem_row) : Prop := in_use r -> Exists (inside r) l.
Definition row_u32 (r : tetris_smem_row) : Prop :=
  (r_bank r = 0 \/ r_bank r = 1) /\ 0 <= r_offset r /\ 0 <= r_size r /\ r_offset r + r_size r <= 0x8000000.
(** Rows of one bank are in order. *)
Definition before (a b : tetris_smem_row) : Prop := r_bank a = r_bank b -> r_offset a + r_size a <= r_offset b.

(** The span being extended ends at the last row it took, and later rows start after that. *)
Definition extending (acc : list tetris_smem_span) (last : option nat) (todo : list tetris_smem_row) : Prop :=
  forall k, last = Some k -> exists s stop, acc !! k = Some s /\ 0 <= stop /\ soffset s + ssize s = page_up stop /\
    soffset s <= stop /\ Forall (fun r => r_bank r = sbank s -> stop <= r_offset r) todo.

Lemma aligned_page x : Z.land x (PAGE_BYTES - 1) = 0 -> (PAGE_BYTES | x).
Proof. unfold PAGE_BYTES. apply aligned_divide. pose proof page_shift. lia. Qed.
Lemma covered_replace acc k s s' r : acc !! k = Some s -> (inside r s -> inside r s') ->
  covered acc r -> covered (<[k := s']> acc) r.
Proof.
  intros Hk Hin Hc Hu. apply Hc in Hu. apply Exists_exists in Hu as (x & Hx & Hi). apply list_elem_of_lookup in Hx as [j Hj].
  apply Exists_exists. destruct (decide (j = k)) as [->|Hne].
  - exists s'. split; [|apply Hin; congruence]. apply list_elem_of_lookup. exists k. apply list_lookup_insert_eq. now apply lookup_lt_Some in Hk.
  - exists x. split; [|exact Hi]. apply list_elem_of_lookup. exists j. now rewrite list_lookup_insert_ne by congruence.
Qed.
Lemma covered_app acc l r : covered acc r -> covered (acc ++ l) r.
Proof. intros Hc Hu. apply Exists_app. left. now apply Hc. Qed.

(** Taking one used row into the span at its page range. *)
Lemma extending_row acc k s r todo : acc !! k = Some s -> soffset s + ssize s = page_up (r_offset r + r_size r) ->
  soffset s <= r_offset r -> row_u32 r -> sbank s = r_bank r -> Forall (before r) todo -> extending acc (Some k) todo.
Proof.
  intros Hk Hend Hs (_ & H1 & H2 & _) Hb Hf k' [= <-]. exists s, (r_offset r + r_size r). split_and!; try assumption; try lia.
  rewrite Forall_forall in *. intros x Hx Hbx. apply Hf; [assumption|congruence].
Qed.
Lemma extending_skip acc last r todo : extending acc last (r :: todo) -> extending acc last todo.
Proof. intros He k Hk. destruct (He k Hk) as (s & stop & A & B & C & D & E). exists s, stop. inversion E; subst. auto. Qed.

Lemma span_loop_ok banks todo : forall acc last l done,
  Forall row_u32 todo -> ForallOrdPairs before todo ->
  Forall (span_ok banks) acc -> Forall (covered acc) done -> extending acc last todo ->
  span_loop banks todo acc last = inr l -> Forall (span_ok banks) l /\ Forall (covered l) (done ++ todo).
Proof.
  induction todo as [|r todo IH]; intros acc last l done Hu Hb Ha Hd He E; cbn [span_loop] in E.
  { injection E as <-. now rewrite app_nil_r. }
  replace (done ++ r :: todo) with ((done ++ [r]) ++ todo) by now rewrite <- app_assoc.
  inversion Hu as [|? ? Hr Hut]; subst. inversion Hb as [|? ? Hbr Hbt]; subst. cbv zeta in E. pose proof Hr as (Hbank & H1 & H2 & H3).
  destruct (no_map r) eqn:Enm.
  { apply (IH acc None l); try assumption; [|discriminate]. apply Forall_app. split; [exact Hd|]. apply Forall_singleton.
    intros [_ X]. congruence. }
  destruct (Z.eqb_spec (r_size r) 0) as [E0|E0].
  { apply (IH acc last l); try assumption; [|eapply extending_skip; exact He]. apply Forall_app. split; [exact Hd|].
    apply Forall_singleton. intros [X _]. lia. }
  fold (page_up (r_offset r + r_size r)) in E.
  set (start := page_down (r_offset r)) in *. set (stop := page_up (r_offset r + r_size r)) in *.
  destruct (_ || _ || _ || _) eqn:G in E; [discriminate|]. change (PAGE_BYTES - 1) with (PAGE_BYTES - 1) in G.
  assert (Hwin : (PAGE_BYTES | wbase (window_of banks (r_bank r)))) by (apply aligned_page; lia).
  pose proof (page_down_range (r_offset r) H1) as [Hs1 Hs2]. fold start in Hs1, Hs2.
  pose proof (page_up_range (r_offset r + r_size r) ltac:(lia)) as He1. fold stop in He1.
  pose proof (page_down_aligned (r_offset r) H1) as Hal1. fold start in Hal1.
  pose proof (page_down_aligned (r_offset r + r_size r + PAGE_BYTES - 1) ltac:(pose proof page_pos; lia)) as Hal2.
  fold (page_up (r_offset r + r_size r)) in Hal2. fold stop in Hal2.
  assert (Hstop : start < stop <= wcapacity (window_of banks (r_bank r)) /\ stop <= UINT32_MAX) by lia. clear G.
  destruct (match last with None => None | Some k => match acc !! k with Some s => if sbank s =? r_bank r then Some (k, s) else None | None => None end end)
    as [[k s]|] eqn:Eext.
  - destruct last as [k'|]; [|discriminate]. destruct (acc !! k') as [s'|] eqn:Ek; [|discriminate].
    destruct (Z.eqb_spec (sbank s') (r_bank r)) as [Hsb|]; [|discriminate]. injection Eext as -> ->.
    destruct (He k eq_refl) as (s' & e & Ek' & He0 & Hend & Hse & Hlater). rewrite Ek in Ek'. injection Ek' as <-.
    inversion Hlater as [|? ? Hre _]; subst. specialize (Hre (eq_sym Hsb)). cbn in Hre.
    assert (Hgrow : page_up e <= stop) by (apply page_up_mono; lia).
    pose proof (proj1 (Forall_lookup _ _) Ha k s Ek) as (S1 & S2 & S3 & S4 & S5 & S6 & S7 & S8 & S9).
    rewrite (u32_id (stop - soffset s)) in E by (unfold is_u32; lia). set (s1 := SmemSpan _ _ _ _) in E.
    assert (Hs1ok : span_ok banks s1).
    { unfold span_ok, s1. cbn. split_and!; try assumption; try lia; [|rewrite Hsb; lia]. apply Z.divide_sub_r; assumption. }
    assert (Hlen : (k < length acc)%nat) by now apply lookup_lt_Some in Ek.
    apply (IH (<[k := s1]> acc) (Some k) l); try assumption.
    + now apply Forall_insert.
    + apply Forall_app. split.
      * eapply Forall_impl; [exact Hd|]. intros x Hx. eapply covered_replace; [exact Ek| |exact Hx]. unfold inside, s1. cbn. lia.
      * apply Forall_singleton. intros _. apply Exists_exists. exists s1. split.
        { apply list_elem_of_lookup. exists k. now apply list_lookup_insert_eq. }
        unfold inside, s1. cbn. lia.
    + apply (extending_row _ k s1 r); try assumption; [now apply list_lookup_insert_eq|unfold s1; cbn; fold stop; lia|unfold s1; cbn; lia].
  - clear Eext. destruct (len acc =? 23); [discriminate|]. rewrite !u32_id in E by (unfold is_u32; lia).
    set (s1 := SmemSpan _ _ _ _) in E.
    assert (Hs1ok : span_ok banks s1).
    { unfold span_ok, s1. cbn. split_and!; try assumption; try lia. apply Z.divide_sub_r; assumption. }
    assert (Hlook : (acc ++ [s1]) !! length acc = Some s1) by now rewrite lookup_app_r, Nat.sub_diag by lia.
    apply (IH (acc ++ [s1]) (Some (length acc)) l); try assumption.
    + apply Forall_app. split; [assumption|]. now apply Forall_singleton.
    + apply Forall_app. split; [eapply Forall_impl; [exact Hd|]; intros x; apply covered_app|].
      apply Forall_singleton. intros _. apply Exists_exists. exists s1. split; [apply list_elem_of_lookup; eauto|]. unfold inside, s1. cbn. lia.
    + apply (extending_row _ (length acc) s1 r); try assumption; unfold s1; cbn; fold stop; try lia; reflexivity.
Qed.

(** No mapped page touches memory that must stay unmapped. *)
Definition clear_of (r : tetris_smem_row) (s : tetris_smem_span) : Prop :=
  r_bank r = sbank s -> 0 < r_size r -> no_map r = true -> r_offset r + r_size r <= soffset s \/ soffset s + ssize s <= r_offset r.
Lemma span_clear banks l s : Forall row_u32 l -> span_ok banks s -> span_aliases l s = false -> Forall (fun r => clear_of r s) l.
Proof.
  intros Hu (_ & S2 & S3 & _ & _ & _ & _ & S8 & _) Ha. rewrite Forall_forall in *. intros r Hr Hb Hs Hn.
  destruct (Hu r Hr) as (_ & R1 & R2 & R3). unfold span_aliases in Ha.
  assert (Hx : (r_bank r =? sbank s) && negb (r_size r =? 0) && no_map r && (soffset s <? u32 (r_offset r + r_size r))
    && (r_offset r <? u32 (soffset s + ssize s)) = false).
  { destruct (_ && _) eqn:E; [|reflexivity]. rewrite <- Ha. symmetry. apply existsb_exists. exists r. split; [now apply list_elem_of_In|exact E]. }
  rewrite Hn, !u32_id in Hx by (unfold is_u32; lia). lia.
Qed.

Definition spans_valid (banks : tetris_metadata_banks) (l : list tetris_smem_row) (ss : list tetris_smem_span) : Prop :=
  ss <> [] /\ Forall (span_ok banks) ss /\ Forall (covered ss) l /\ Forall (fun s => Forall (fun r => clear_of r s) l) ss.
Lemma build_spans_ok o o' : Forall row_u32 (rows o) -> ForallOrdPairs before (rows o) -> spans o = [] -> build_spans o = inr o' ->
  exists l, o' = with_spans l o /\ spans_valid (owner_banks o) (rows o) l.
Proof.
  intros Hu Hb Hs. unfold build_spans. rewrite Hs. destruct (span_loop _ _ [] None) as [e|l] eqn:E; [discriminate|].
  apply (span_loop_ok _ _ [] None l []) in E as [E1 E2]; try assumption; try constructor; [|discriminate].
  destruct (existsb (span_aliases (rows o)) l) eqn:Ea; [discriminate|]. destruct (Z.eqb_spec (len l) 0) as [El|El]; [discriminate|].
  intros [= <-]. exists l. split; [reflexivity|]. split; [intros ->; now apply El|]. split; [exact E1|]. split; [exact E2|].
  apply Forall_forall. intros s Hin. eapply span_clear; [exact Hu|rewrite Forall_forall in E1; now apply E1|].
  destruct (span_aliases (rows o) s) eqn:X; [|reflexivity]. rewrite <- Ea. symmetry. apply existsb_exists. exists s. split; [now apply list_elem_of_In|exact X].
Qed.
End Spans.

(** ** The consumer tables *)

Section Tables.
Context `{VendorLaws}.

Lemma table_region_nodup t : forall k g, NoDup (g_id <$> t) -> t !! k = Some g -> table_region t (g_id g) = Some k.
Proof.
  induction t as [|x t IH]; intros [|k] g Hn Hk; try discriminate; cbn [table_region].
  - injection Hk as ->. now rewrite Z.eqb_refl.
  - cbn in Hn. apply NoDup_cons in Hn as [Hx Hn]. destruct (Z.eqb_spec (g_id x) (g_id g)) as [E|E].
    + exfalso. apply Hx. rewrite E. apply list_elem_of_fmap_2. exact (list_elem_of_lookup_2 t k g Hk).
    + cbn in Hk. now rewrite (IH k g Hn Hk).
Qed.
(** With distinct identifiers, storing a row changes exactly its region. *)
Definition settle (window : tetris_metadata_window) (r : tetris_smem_row) (g : ccci_smem_region) : ccci_smem_region :=
  if g_id g =? r_id r then stored window r g else g.
Lemma settle_id window r g : g_id (settle window r g) = g_id g.
Proof. unfold settle. now destruct (g_id g =? r_id r). Qed.
Lemma fmap_settle_ids window r (t : list ccci_smem_region) : g_id <$> (settle window r <$> t) = g_id <$> t.
Proof. rewrite <- list_fmap_compose. apply list_fmap_ext. intros _ g _. apply settle_id. Qed.
Lemma fill_settle window r t : NoDup (g_id <$> t) -> fill window r t = settle window r <$> t.
Proof.
  unfold fill. induction t as [|x t IH]; intros Hn; [reflexivity|]. cbn [table_region fmap list_fmap] in *. apply NoDup_cons in Hn as [Hx Hn].
  unfold settle at 1. destruct (Z.eqb_spec (g_id x) (r_id r)) as [E|E].
  - cbn. f_equal. clear IH Hn. induction t as [|y t IH]; [reflexivity|]. cbn [fmap list_fmap] in *. rewrite not_elem_of_cons in Hx.
    rewrite <- IH by tauto. unfold settle. destruct (Z.eqb_spec (g_id y) (r_id r)) as [E'|]; [|reflexivity]. exfalso. destruct Hx. congruence.
  - specialize (IH Hn). destruct (table_region t (r_id r)) as [k|]; cbn; [|now rewrite <- IH]. f_equal. exact IH.
Qed.

(** The region of one user once all rows are stored. *)
Definition settled (banks : tetris_metadata_banks) (cached : bool) (l : list tetris_smem_row) (g : ccci_smem_region) : ccci_smem_region :=
  fold_left (fun g r => if Bool.eqb (negb (r_bank r =? 0)) cached then settle (window_of banks (r_bank r)) r g else g) l g.
Lemma settled_id banks cached l : forall g, g_id (settled banks cached l g) = g_id g.
Proof.
  induction l as [|r l IH]; intros g; [reflexivity|]. unfold settled in *. cbn [fold_left]. rewrite IH.
  destruct (Bool.eqb _ cached); [apply settle_id|reflexivity].
Qed.
Lemma fill_tables_settled banks l : forall (n c : list ccci_smem_region), NoDup (g_id <$> n) -> NoDup (g_id <$> c) ->
  fill_tables banks l (n, c) = (settled banks false l <$> n, settled banks true l <$> c).
Proof.
  induction l as [|r l IH]; intros n c Hn Hc; cbn [fill_tables fst snd].
  - unfold settled. cbn. f_equal; symmetry; apply list_fmap_id.
  - destruct (negb (r_bank r =? 0)) eqn:Eb; cbn [fst snd].
    + rewrite IH; [|assumption|rewrite fill_settle, fmap_settle_ids by assumption; assumption].
      f_equal; [|rewrite fill_settle, <- list_fmap_compose by assumption]; apply list_fmap_ext; intros _ g _; unfold settled; cbn [fold_left compose]; now rewrite Eb.
    + rewrite IH; [|rewrite fill_settle, fmap_settle_ids by assumption; assumption|assumption].
      f_equal; [rewrite fill_settle, <- list_fmap_compose by assumption|]; apply list_fmap_ext; intros _ g _; unfold settled; cbn [fold_left compose]; now rewrite Eb.
Qed.
Lemma template_ids l : g_id <$> template l = user_id <$> (fst <$> l).
Proof. unfold template. rewrite <- !list_fmap_compose. apply list_fmap_ext. now intros _ [u f] _. Qed.

(** The consumer's view: the cyclic buffer is split into a first section of
    2 MiB shared by its three users and the rest shared by the two raw users;
    a buffer of at most 2 MiB is not used at all. *)
Definition user_region (banks : tetris_metadata_banks) (l : list tetris_smem_row) (u : smem_user) (flag : Z) : ccci_smem_region :=
  settled banks true l (Region (user_id u) 0 0 flag 0 0 0).
Definition first_bytes (total : Z) : Z := if 0x200000 <? total then 0x200000 else 0.
Definition rest_bytes (total : Z) : Z := if 0x200000 <? total then total - 0x200000 else 0.
Definition first_region (banks : tetris_metadata_banks) (l : list tetris_smem_row) (u : smem_user) : ccci_smem_region :=
  let ccb := user_region banks l SMEM_USER_CCB_DHL 0 in renamed (user_id u) (resized (first_bytes (g_size ccb)) ccb).
Definition rest_region (banks : tetris_metadata_banks) (l : list tetris_smem_row) (u : smem_user) : ccci_smem_region :=
  let total := g_size (user_region banks l SMEM_USER_CCB_DHL 0) in
  second_section (first_bytes total) (rest_bytes total) (first_region banks l u).
Definition cache_table (banks : tetris_metadata_banks) (l : list tetris_smem_row) : list ccci_smem_region :=
  let use := user_region banks l in
  [use SMEM_USER_RAW_MD_CONSYS (Z.lor SMF_NCLR_FIRST SMF_NO_REMAP); use SMEM_USER_MD_NVRAM_CACHE 0;
   first_region banks l SMEM_USER_CCB_DHL; first_region banks l SMEM_USER_CCB_MD_MONITOR; first_region banks l SMEM_USER_CCB_META;
   rest_region banks l SMEM_USER_RAW_DHL; rest_region banks l SMEM_USER_RAW_MDM; use SMEM_USER_MD_POST_DUMP 0;
   use SMEM_USER_RAW_UDC_DESCTAB 0; use SMEM_USER_RAW_USIP SMF_NCLR_FIRST; use SMEM_USER_MAX 0].
Definition layout_of (self : Z) (o : tetris_smem_owner) : ccci_mem_layout :=
  MemLayout (MemRegion (wbase (firmware (owner_banks o))) 0 (logical o) 0)
    (MemRegion (wbase (bank_nc (owner_banks o))) 0x40000000 (nc_size o) (default 0 (r_virtual <$> rows o !! 0%nat)))
    (MemRegion (wbase (bank_cache (owner_banks o))) 0x48000000 (cache_size o) 0) (self + offsetof_nc) (self + offsetof_cache).
Definition populated (self : Z) (o : tetris_smem_owner) : tetris_smem_owner :=
  with_tables (settled (owner_banks o) false (rows o) <$> tetris_nc_template) (cache_table (owner_banks o) (rows o)) (layout_of self o) o.

Lemma seqZ_two a b : b = a + 1 -> seqZ a (b - a + 1) = [a; b].
Proof. intros ->. replace (a + 1 - a + 1) with 2 by lia. unfold seqZ. change (Z.to_nat 2) with 2%nat. cbn [seq fmap list_fmap].
  replace (Z.of_nat 0 + a) with a by lia. replace (Z.of_nat 1 + a) with (a + 1) by lia. reflexivity. Qed.
(** One region of a table with distinct identifiers becomes a copy of another. *)
Lemma alias_cons f j ids ccb t g k x : NoDup (g_id <$> t) -> t !! k = Some x -> g_id x = j -> t !! ccb = Some g ->
  alias_loop f (j :: ids) ccb t = alias_loop f ids ccb (<[k := f (renamed j g)]> t).
Proof. intros Hn Hk <- Hg. cbn [alias_loop]. now rewrite (table_region_nodup t k x Hn Hk), Hg. Qed.
Lemma alias_nil f ccb t : alias_loop f [] ccb t = Some t.
Proof. reflexivity. Qed.
Lemma second_section_id a b g : g_id (second_section a b g) = g_id g.
Proof. unfold second_section. now destruct (b =? 0). Qed.

Lemma populate_exact self o : populate_tables self o = Some (populated self o).
Proof.
  pose proof nc_ids_distinct as Hn. pose proof cache_ids_distinct as Hc. rewrite <- template_ids in Hn, Hc.
  unfold populate_tables. fold tetris_nc_template tetris_cache_template in *.
  rewrite (fill_tables_settled (owner_banks o) (rows o) tetris_nc_template tetris_cache_template Hn Hc).
  change (settled (owner_banks o) true (rows o) <$> tetris_cache_template) with
    [user_region (owner_banks o) (rows o) SMEM_USER_RAW_MD_CONSYS (Z.lor SMF_NCLR_FIRST SMF_NO_REMAP);
     user_region (owner_banks o) (rows o) SMEM_USER_MD_NVRAM_CACHE 0; user_region (owner_banks o) (rows o) SMEM_USER_CCB_DHL 0;
     user_region (owner_banks o) (rows o) SMEM_USER_CCB_MD_MONITOR 0; user_region (owner_banks o) (rows o) SMEM_USER_CCB_META 0;
     user_region (owner_banks o) (rows o) SMEM_USER_RAW_DHL 0; user_region (owner_banks o) (rows o) SMEM_USER_RAW_MDM 0;
     user_region (owner_banks o) (rows o) SMEM_USER_MD_POST_DUMP 0; user_region (owner_banks o) (rows o) SMEM_USER_RAW_UDC_DESCTAB 0;
     user_region (owner_banks o) (rows o) SMEM_USER_RAW_USIP SMF_NCLR_FIRST; user_region (owner_banks o) (rows o) SMEM_USER_MAX 0].
  unfold populated, cache_table, rest_region, first_region. cbv zeta.
  assert (Hid : forall u flag, g_id (user_region (owner_banks o) (rows o) u flag) = user_id u) by (intros; apply settled_id).
  generalize dependent (user_region (owner_banks o) (rows o)). intros use Hid.
  unfold tetris_cache_template in Hc. rewrite template_ids in Hc.
  set (t0 := [use SMEM_USER_RAW_MD_CONSYS _; _; _; _; _; _; _; _; _; _; _]).
  assert (Ht0 : NoDup (g_id <$> t0)) by (unfold t0; cbn [fmap list_fmap]; rewrite !Hid; exact Hc).
  rewrite <- (Hid SMEM_USER_CCB_DHL 0), (table_region_nodup t0 2 (use SMEM_USER_CCB_DHL 0) Ht0 eq_refl).
  cbn [t0 lookup list_lookup fmap option_fmap option_map default from_option id].
  set (total := g_size (use SMEM_USER_CCB_DHL 0)). fold (first_bytes total).
  replace (if negb (first_bytes total =? 0) then total - first_bytes total else 0) with (rest_bytes total)
    by (unfold first_bytes, rest_bytes; destruct (0x200000 <? total); reflexivity).
  unfold between. rewrite (seqZ_two _ _ ccb_ids), (seqZ_two _ _ raw_ids).
  unfold t0. cbn [alter list_alter]. set (ccb := resized (first_bytes total) (use SMEM_USER_CCB_DHL 0)).
  assert (Hccb : g_id ccb = user_id SMEM_USER_CCB_DHL) by (unfold ccb; cbn; apply Hid).
  rewrite (alias_cons _ _ _ _ _ ccb 3 (use SMEM_USER_CCB_MD_MONITOR 0)); [|cbn [fmap list_fmap]; rewrite ?Hid, Hccb; exact Hc|reflexivity|apply Hid|reflexivity].
  cbn [insert list_insert].
  rewrite (alias_cons _ _ _ _ _ ccb 4 (use SMEM_USER_CCB_META 0)); [|cbn [fmap list_fmap]; rewrite ?Hid, Hccb; exact Hc|reflexivity|apply Hid|reflexivity].
  rewrite alias_nil. cbn [insert list_insert]. unfold id.
  rewrite (alias_cons _ _ _ _ _ ccb 5 (use SMEM_USER_RAW_DHL 0)); [|cbn [fmap list_fmap]; rewrite ?Hid, Hccb; exact Hc|reflexivity|apply Hid|reflexivity].
  cbn [insert list_insert].
  rewrite (alias_cons _ _ _ _ _ ccb 6 (use SMEM_USER_RAW_MDM 0));
    [|cbn [fmap list_fmap]; rewrite second_section_id, ?Hid, Hccb; exact Hc|reflexivity|apply Hid|reflexivity].
  rewrite alias_nil. cbn [insert list_insert]. unfold layout_of. do 3 f_equal.
Qed.
End Tables.

(** ** Admission *)

Section Admission.
Context `{VendorLaws}.

Lemma geometry_rows cap md bank entries : cap = 0x8000000 -> (bank = 0 \/ bank = 1) -> Forall entry_u32 entries -> forall cursor, geometry_ok cap md cursor entries ->
  Forall row_u32 (decoded_row bank md <$> entries) /\ ForallOrdPairs before (decoded_row bank md <$> entries) /\
  Forall (fun r => cursor <= r_offset r) (decoded_row bank md <$> entries).
Proof.
  intros -> Hb. induction 1 as [|e entries (_ & E1 & E2 & _) _ IH]; intros cursor Hg; cbn in *; [repeat constructor|].
  destruct Hg as (G1 & G2 & G3 & G4). destruct (IH _ G4) as (I1 & I2 & I3). unfold is_u32 in *. split_and!; constructor; try assumption.
  - unfold row_u32. cbn. lia.
  - eapply Forall_impl; [exact I3|]. cbn. intros r Hr _. exact Hr.
  - eapply Forall_impl; [exact I3|]. cbn. intros r Hr. lia.
Qed.
Lemma ordpairs_app {A} (R : A -> A -> Prop) a b : ForallOrdPairs R a -> ForallOrdPairs R b -> Forall (fun x => Forall (R x) b) a ->
  ForallOrdPairs R (a ++ b).
Proof.
  induction 1 as [|x a Hx Ha IH]; intros Hb Hab; [exact Hb|]. inversion Hab; subst. cbn. constructor; [apply Forall_app; auto|auto].
Qed.

Lemma validate_loop_error raw bytes window bank md entries e : forall i l cursor used,
  validate_loop raw bytes window bank md entries i l cursor used = inl e -> e <> 0.
Proof.
  induction entries as [|en entries IH]; intros i l cursor used; cbn [validate_loop].
  - destruct (used =? bytes); [discriminate|intros [= <-]; lia].
  - destruct (_ || _ || _); [intros [= <-]; lia|]. cbv zeta. destruct (cursor <? e_offset en).
    + destruct (_ <? 40); [intros [= <-]; lia|]. destruct (row_refused _ _ _ _ _ _ _ _); [intros [= <-]; lia|].
      destruct (_ <? 40); [intros [= <-]; lia|]. destruct (row_refused _ _ _ _ _ _ _ _); [intros [= <-]; lia|]. apply IH.
    + destruct (_ <? 40); [intros [= <-]; lia|]. destruct (row_refused _ _ _ _ _ _ _ _); [intros [= <-]; lia|]. apply IH.
Qed.
Lemma validate_rows_error raw bytes entries o bank first e : validate_rows raw bytes entries o bank first = inl e -> e <> 0.
Proof.
  unfold validate_rows. destruct raw as [raw|]; [|intros [= <-]; lia]. cbv zeta. destruct (_ || _ || _); [intros [= <-]; lia|].
  destruct (validate_loop _ _ _ _ _ _ _ _ _ _) as [x|] eqn:E; [|discriminate]. intros [= <-]. exact (validate_loop_error _ _ _ _ _ _ _ _ _ _ _ E).
Qed.
Lemma build_spans_error o e : build_spans o = inl e -> e <> 0.
Proof.
  unfold build_spans. destruct (span_loop _ _ _ _) as [x|l] eqn:E; cycle 1.
  { destruct (existsb _ l); [intros [= <-]; lia|]. destruct (len l =? 0); [intros [= <-]; lia|discriminate]. }
  intros [= <-]. revert E. generalize (spans o). generalize (@None nat). induction (rows o) as [|r l IH]; intros last acc; cbn [span_loop]; [discriminate|].
  destruct (no_map r); [apply IH|]. destruct (r_size r =? 0); [apply IH|]. cbv zeta. destruct (_ || _ || _ || _); [intros [= <-]; lia|].
  destruct (match last with None => None | Some k => _ end) as [[k s]|]; [apply IH|]. destruct (len acc =? 23); [intros [= <-]; lia|apply IH].
Qed.

(** A valid owner: its rows are in order inside their banks, its spans cover
    exactly what may be mapped, nothing is mapped and nothing failed yet, and
    its tables show the rows. *)
Record owner_valid (self : Z) (o : tetris_smem_owner) : Prop := {
  valid_state : state o = TETRIS_SMEM_VALIDATED;
  valid_error : owner_error o = 0;
  valid_banks : banks_ok (owner_banks o);
  valid_rows : Forall row_u32 (rows o);
  valid_order : ForallOrdPairs before (rows o);
  valid_virtual : Forall (fun r => r_virtual r = 0) (rows o);
  valid_spans : spans_valid (owner_banks o) (rows o) (spans o);
  valid_count : span_count o = len (spans o);
  valid_tables : populated self o = o
}.
(** The owner carries the plan of the retained header, and the boot loader's
    tables are the reference tables of that plan. *)
Definition carries (input : tetris_smem_input) (o : tetris_smem_owner) : Prop :=
  exists chk plan, in_chk input = Some chk /\
    tetris_modem_plan_smem_b41 (Some (SmemInputs (word chk 0x190) 0 (word chk 0x180) (word chk 0x18c) 1)) (Some zero_plan) = (0, Some plan) /\
    in_nc input = Some (reference_rows (wbase (bank_nc (in_banks input))) 0 0 (nc plan)) /\
    in_cache input = Some (reference_rows (wbase (bank_cache (in_banks input))) 0x8000000 0 (cache plan)) /\
    rows o = (decoded_row 0 0 <$> nc plan) ++ (decoded_row 1 0x8000000 <$> cache plan) /\
    owner_banks o = in_banks input /\ logical o = word chk 172 /\ 0 < logical o <= 0x20000000.
Definition buffer (b : option (list Z)) (bytes : Z) : Prop := forall l, b = Some l -> bytes_ok l /\ len l = bytes.
Definition input_ok (i : tetris_smem_input) : Prop :=
  buffer (in_chk i) (chk_bytes i) /\ buffer (in_nc i) (nc_bytes i) /\ buffer (in_cache i) (cache_bytes i) /\
  is_u32 (nc_bytes i) /\ is_u32 (cache_bytes i) /\ banks_u64 (in_banks i).

Lemma create_cases allocated self input output : input_ok input ->
  exists ret out, tetris_smem_create allocated self (Some input) (Some output) = Some (ret, Some out) /\
    (ret <> 0 -> out = output) /\
    (ret = 0 -> exists o, out = Some o /\ owner_valid self o /\ carries input o).
Proof.
  intros (Hchk & Hnc & Hcache & Hnb & Hcb & Hbanks). unfold tetris_smem_create. cbv zeta.
  assert (Hfail : forall x P, x <> 0 -> exists ret out, Some (x, Some output) = Some (ret, Some out) /\ (ret <> 0 -> out = output) /\ (ret = 0 -> P out))
    by (intros x P Hx; exists x, output; split; [reflexivity|]; split; [reflexivity|contradiction]).
  destruct (in_chk input) as [chk|] eqn:Echk; [|now apply Hfail]. destruct (Hchk chk eq_refl) as [Hcok Hclen].
  destruct (Z.eqb_spec (chk_bytes input) 512) as [H512|]; cbn [negb]; [|now apply Hfail].
  destruct (Z.eqb_spec (tetris_metadata_windows (Some (in_banks input))) 0) as [Hw|Hw]; cbn [negb]; [|now apply Hfail].
  apply windows_sound in Hw; [|exact Hbanks]. destruct (_ || _ || _ || _ || _ || _ || _ || _) eqn:G1; [now apply Hfail|].
  assert (Hlog : 0 < word chk 172 <= wcapacity (firmware (in_banks input))).
  { pose proof (word_u32 chk 172 Hcok) as Hu. unfold is_u32 in Hu. apply orb_false_iff in G1 as [G1 G2]. apply orb_false_iff in G1 as [_ G1]. lia. }
  clear G1. cbn [udc_en consys_size]. destruct (Z.eqb_spec (word chk 0x184) 0) as [Hudc|]; cbn [negb orb]; [|now apply Hfail].
  destruct (Z.eqb_spec (word chk 0x180) 0) as [|Hcons]; [now apply Hfail|]. rewrite Hudc.
  destruct (tetris_modem_plan_smem_b41 _ _) as [ret oplan] eqn:Eplan.
  destruct (Z.eqb_spec ret 0) as [->|]; cbn [negb]; [|now apply Hfail].
  assert (exists plan, oplan = Some plan) as [plan ->].
  { pose proof (plan_smem_cases (SmemInputs (word chk 0x190) 0 (word chk 0x180) (word chk 0x18c) 1) zero_plan) as P. rewrite Eplan in P.
    destruct P as (_ & _ & P); [apply word_u32, Hcok|apply word_u32, Hcok|cbn; lia|]. destruct (P eq_refl) as (_ & p & _ & -> & _). eauto. }
  cbn [default from_option id].
  destruct (plan_entries_u32 (SmemInputs (word chk 0x190) 0 (word chk 0x180) (word chk 0x18c) 1) _ _
    (word_u32 chk _ Hcok) (word_u32 chk _ Hcok) (Z.le_refl 0) Eplan) as (U1 & U2 & R1 & R2 & L1 & L2).
  lazymatch goal with |- context [if ?b then Some (- ERANGE, _) else _] => destruct b; [apply Hfail; intros [=]|] end.
  destruct allocated; cbn [negb]; [|apply Hfail; intros [=]].
  lazymatch goal with |- context [validate_rows _ _ _ ?o 0 0] => set (o0 := o) end. pose proof Hw as (W1 & W2 & W3 & W4 & _).
  destruct (validate_rows (in_nc input) _ _ o0 0 0) as [e|o1] eqn:E1; [apply Hfail; now apply validate_rows_error in E1|].
  destruct (in_nc input) as [rnc|] eqn:Enc; [|discriminate]. destruct (Hnc rnc eq_refl) as [B1 B2].
  apply (validate_rows_ok _ _ _ _ _ _ _ [] (replicate 18 zero_row) (replicate 5 zero_row)) in E1 as (V1 & V2 & ->);
    try assumption; try reflexivity; try lia; [|now rewrite L1]. cbn [app] in *. rewrite Z.mul_0_r in *.
  destruct (validate_rows (in_cache input) _ _ _ 1 18) as [e|o2] eqn:E2; [apply Hfail; now apply validate_rows_error in E2|].
  destruct (in_cache input) as [rc|] eqn:Ec; [|discriminate]. destruct (Hcache rc eq_refl) as [B3 B4].
  apply (validate_rows_ok _ _ _ _ _ _ _ (decoded_row 0 0 <$> nc plan) (replicate 5 zero_row) []) in E2 as (V3 & V4 & ->);
    try assumption; try reflexivity; try lia; [|now rewrite length_fmap, L1|now rewrite L2]. rewrite app_nil_r, Z.mul_1_r in *.
  set (o1 := with_rows _ (with_rows _ o0)). destruct (build_spans o1) as [e|o3] eqn:E3; [apply Hfail; now apply build_spans_error in E3|].
  destruct (geometry_rows _ _ 0 _ eq_refl (or_introl eq_refl) U1 _ V1) as (P1 & P2 & _).
  destruct (geometry_rows _ _ 1 _ eq_refl (or_intror eq_refl) U2 _ V3) as (Q1 & Q2 & _).
  assert (Hrows : Forall row_u32 (rows o1)) by (apply Forall_app; auto).
  assert (Hord : ForallOrdPairs before (rows o1)).
  { apply ordpairs_app; try assumption. apply Forall_forall. intros a Ha. apply Forall_forall. intros b Hb.
    apply list_elem_of_fmap in Ha as (? & -> & _). apply list_elem_of_fmap in Hb as (? & -> & _). intros [=]. }
  apply build_spans_ok in E3 as (l & -> & Hsp); [|assumption..|reflexivity]. rewrite populate_exact.
  eexists 0, (Some _). split; [reflexivity|]. split; [contradiction|]. intros _. eexists. split; [reflexivity|]. split.
  - split; try reflexivity; try assumption. change (Forall (fun r => r_virtual r = 0) ((decoded_row 0 0 <$> nc plan) ++ (decoded_row 1 0x8000000 <$> cache plan))).
    apply Forall_app. split; apply Forall_fmap, Forall_true; reflexivity.
  - exists chk, plan. split; [exact Echk|]. split; [exact Eplan|]. split; [rewrite Enc, V2; reflexivity|]. split; [rewrite Ec, V4; reflexivity|].
    split; [reflexivity|]. split; [reflexivity|]. split; [reflexivity|]. rewrite W1 in Hlog. exact Hlog.
Qed.
End Admission.

Section Arguments.
Context `{VendorLaws} (find : string -> Z -> Z * list Z).
(** A successful lookup stores the value and returns its length. *)
Context (find_stores : forall name n ret data, find name n = (ret, data) -> 0 <= ret -> is_u32 ret /\ bytes_ok data /\ len data = ret).

Lemma read_argument_ok name n data : read_argument find name n = inr data -> find name n = (n, data) /\ bytes_ok data /\ len data = n.
Proof.
  unfold read_argument. destruct (find name n) as [ret d] eqn:E. destruct (Z.ltb_spec ret 0); [discriminate|].
  destruct (find_stores _ _ _ _ E) as (F1 & F2 & F3); [assumption|]. rewrite u32_id by exact F1.
  destruct (Z.eqb_spec ret n) as [->|]; [|discriminate]. intros [= <-]. auto.
Qed.
Lemma read_argument_error name n e : read_argument find name n = inl e -> e <> 0.
Proof.
  unfold read_argument. destruct (find name n) as [ret d]. destruct (Z.ltb_spec ret 0); [intros [= <-]; lia|].
  destruct (u32 ret =? n); [discriminate|intros [= <-]; lia].
Qed.

(** The owner created from the imported arguments. The call never uses a
    table entry that is not there. On any error the caller's pointer is
    unchanged. On success both boot loader tables are, byte for byte, the
    reference tables of the plan the retained header implies; the owner holds
    the plan's 23 rows, in order and inside their reserved banks; its page
    spans cover every row in use, stay inside the banks, and touch no byte of a
    row that must not be mapped; nothing is mapped yet. *)
Theorem from_arguments_sound staged allocated self banks output : banks_u64 banks ->
  exists ret out, tetris_smem_from_arguments find staged allocated self (Some banks) (Some output) = Some (ret, Some out) /\
    (ret <> 0 -> out = output) /\
    (ret = 0 -> exists chk n c nrows crows o, out = Some o /\ owner_valid self o /\
       carries (SmemInput (Some chk) 512 (Some n) (nrows * 40) (Some c) (crows * 40) banks) o /\
       find "md1_chk"%string 512 = (512, chk) /\ find "nc_smem_layout"%string (nrows * 40) = (nrows * 40, n) /\
       find "c_smem_layout"%string (crows * 40) = (crows * 40, c)).
Proof.
  intros Hbanks. unfold tetris_smem_from_arguments. cbv zeta.
  assert (Hfail : forall x P, x <> 0 -> exists ret out, Some (x, Some output) = Some (ret, Some out) /\ (ret <> 0 -> out = output) /\ (ret = 0 -> P out))
    by (intros x P Hx; exists x, output; split; [reflexivity|]; split; [reflexivity|contradiction]).
  destruct (read_argument find "nc_smem_layout_num" 4) as [e|k1] eqn:E1; [apply Hfail; eapply read_argument_error; exact E1|].
  destruct (read_argument find "c_smem_layout_num" 4) as [e|k2] eqn:E2; [apply Hfail; eapply read_argument_error; exact E2|].
  destruct (_ || _ || _ || _) eqn:G; [apply Hfail; lia|]. destruct staged; cbn [negb]; [|apply Hfail; lia].
  destruct (read_argument find "md1_chk" 512) as [e|chk] eqn:E3; [apply Hfail; eapply read_argument_error; exact E3|].
  destruct (read_argument find "nc_smem_layout" _) as [e|n] eqn:E4; [apply Hfail; eapply read_argument_error; exact E4|].
  destruct (read_argument find "c_smem_layout" _) as [e|c] eqn:E5; [apply Hfail; eapply read_argument_error; exact E5|].
  apply read_argument_ok in E3 as (F3 & C1 & C2), E4 as (F4 & N1 & N2), E5 as (F5 & D1 & D2).
  destruct (create_cases allocated self (SmemInput (Some chk) 512 (Some n) (le32 k1 0 * 40) (Some c) (le32 k2 0 * 40) banks) output) as (ret & out & E & X1 & X2).
  - unfold input_ok, buffer, is_u32. cbn. split_and!; try assumption; try lia; now intros l [= <-].
  - exists ret, out. split; [exact E|]. split; [exact X1|]. intros H0'. destruct (X2 H0') as (o & -> & V & K).
    exists chk, n, c, (le32 k1 0), (le32 k2 0), o. auto 10.
Qed.
End Arguments.

(** A numbering of the users as an enumeration with the two runs in place. *)
Definition example_ids : list smem_user :=
  [SMEM_USER_RAW_CCB_CTRL; SMEM_USER_CCB_DHL; SMEM_USER_CCB_MD_MONITOR; SMEM_USER_CCB_META; SMEM_USER_RAW_DHL; SMEM_USER_RAW_MDM;
   SMEM_USER_RAW_DFD; SMEM_USER_RAW_UDC_DATA; SMEM_USER_MD_WIFI_PROXY; SMEM_USER_SECURITY_SMEM; SMEM_USER_RAW_MDCCCI_DBG;
   SMEM_USER_RAW_MDSS_DBG; SMEM_USER_32K_LOW_POWER; SMEM_USER_RAW_RESERVED; SMEM_USER_RAW_RUNTIME_DATA; SMEM_USER_RAW_FORCE_ASSERT;
   SMEM_USER_LOW_POWER; SMEM_USER_RAW_DBM; SMEM_USER_CCISM_SCP; SMEM_USER_RAW_NETD; SMEM_USER_RAW_USB; SMEM_USER_RAW_AUDIO;
   SMEM_USER_CCISM_MCU; SMEM_USER_CCISM_MCU_EXP; SMEM_USER_RESERVED; SMEM_USER_MD_DRDI; SMEM_USER_RAW_LWA; SMEM_USER_RAW_PHY_CAP;
   SMEM_USER_RAW_AMMS_POS; SMEM_USER_RAW_ALIGN_PADDING; SMEM_USER_MAX; SMEM_USER_RAW_MD_CONSYS; SMEM_USER_MD_NVRAM_CACHE;
   SMEM_USER_MD_POST_DUMP; SMEM_USER_RAW_UDC_DESCTAB; SMEM_USER_RAW_USIP].
#[export] Instance smem_user_eq : EqDecision smem_user.
Proof. solve_decision. Defined.
Fixpoint index_of (u : smem_user) (l : list smem_user) : Z :=
  match l with [] => 0 | x :: l => if bool_decide (u = x) then 0 else 1 + index_of u l end.
#[export] Instance example_vendor : Vendor := {|
  user_id u := index_of u example_ids; SMF_NCLR_FIRST := 1; SMF_NO_REMAP := 8; sizeof_region := 56; sizeof_layout := 112;
  sizeof_owner := 4096; offsetof_nc := 1800; offsetof_cache := 3256; PAGE_SHIFT := 12 |}.
#[export] Instance example_vendor_laws : VendorLaws.
Proof.
  split; [cbn; lia|reflexivity|reflexivity| |]; apply (bool_decide_unpack _); vm_compute; exact I.
Qed.
Definition example_nc_table : list Z := Eval vm_compute in reference_rows 0xa0000000 0 0 (nc example_plan).
Definition example_cache_table : list Z := Eval vm_compute in reference_rows 0xa8000000 0x8000000 0 (cache example_plan).
Definition example_find (name : string) (n : Z) : Z * list Z :=
  let data :=
    if String.eqb name "nc_smem_layout_num" then put32 (len example_nc_table / 40)
    else if String.eqb name "c_smem_layout_num" then put32 (len example_cache_table / 40)
    else if String.eqb name "md1_chk" then example_chk
    else if String.eqb name "nc_smem_layout" then example_nc_table
    else if String.eqb name "c_smem_layout" then example_cache_table
    else [] in
  (len data, data).
Definition example_owner : option tetris_smem_owner :=
  Eval vm_compute in
  match tetris_smem_from_arguments example_find true true 0x10000 (Some example_banks) (Some None) with
  | Some (0, Some o) => o
  | _ => None
  end.
Lemma from_arguments_sound_witness : exists o, example_owner = Some o /\ owner_valid 0x10000 o /\ len (spans o) = 2.
Proof.
  destruct (from_arguments_sound example_find) with (staged := true) (allocated := true) (self := 0x10000) (banks := example_banks)
    (output := @None tetris_smem_owner) as (ret & out & E & _ & K).
  - intros name n ret data E Hr. unfold example_find in E. cbv zeta in E. apply pair_equal_spec in E as [<- <-].
    destruct (String.eqb name "nc_smem_layout_num"); [split_and!; [vm_compute; split; congruence|concrete_bytes|reflexivity]|].
    destruct (String.eqb name "c_smem_layout_num"); [split_and!; [vm_compute; split; congruence|concrete_bytes|reflexivity]|].
    destruct (String.eqb name "md1_chk"); [split_and!; [vm_compute; split; congruence|concrete_bytes|reflexivity]|].
    destruct (String.eqb name "nc_smem_layout"); [split_and!; [vm_compute; split; congruence|concrete_bytes|reflexivity]|].
    destruct (String.eqb name "c_smem_layout"); [split_and!; [vm_compute; split; congruence|concrete_bytes|reflexivity]|].
    split_and!; [vm_compute; split; congruence|constructor|reflexivity].
  - repeat constructor; unfold is_u64; cbn; lia.
  - assert (Er : tetris_smem_from_arguments example_find true true 0x10000 (Some example_banks) (Some None) = Some (0, Some example_owner))
      by (vm_compute; reflexivity).
    rewrite Er in E. injection E as <- <-. destruct (K eq_refl) as (chk & n & c & nr & cr & o & Eo & V & _). exists o.
    split; [exact Eo|]. split; [exact V|]. injection Eo as <-. reflexivity.
Defined.
Definition example_input : tetris_smem_input :=
  SmemInput (Some example_chk) 512 (Some example_nc_table) (len example_nc_table) (Some example_cache_table) (len example_cache_table) example_banks.
Lemma example_owner_valid : exists o, example_owner = Some o /\ owner_valid 0x10000 o.
Proof.
  destruct (create_cases true 0x10000 example_input None) as (ret & out & E & _ & K).
  - unfold input_ok, buffer. cbn [in_chk in_nc in_cache chk_bytes nc_bytes cache_bytes in_banks example_input].
    split_and!; try (intros l [= <-]; split; [concrete_bytes|reflexivity]); try (split; vm_compute; congruence).
    repeat constructor; unfold is_u64; cbn; lia.
  - assert (Er : tetris_smem_create true 0x10000 (Some example_input) (Some None) = Some (0, Some example_owner)) by (vm_compute; reflexivity).
    rewrite Er in E. injection E as <- <-. destruct (K eq_refl) as (o & Eo & V & _). eauto.
Qed.
