(* ===== verification/SmemLife.v ===== *)
(** * The life of the shared-memory owner: [modem/drafts/runtime-smem/smem.c]

    Mapping, publication, copies for the consumer, failure and destruction of
    the owner that [SmemOwner] validates. The kernel's mapping service is an
    interface ([Ioremap]). Every operation runs under the owner's lock, so a
    history is a sequence of calls. *)

From S2P Require Import Prelude LayoutModel Semantic SmemOwner.
From stdpp Require Import gmap.
Open Scope Z_scope.

(** ** The kernel's mapping service *)

(** [live m] are the mappings in place: the physical range at each virtual
    address. A successful request yields a fresh non-null address. *)
Class Ioremap (M : Type) := {
  live : M -> gmap Z (Z * Z);
  ioremap_wc : M -> Z -> Z -> M * Z;
  iounmap : M -> Z -> M;
  ioremap_live : forall m base size m' v, ioremap_wc m base size = (m', v) ->
    (v = 0 -> live m' = live m) /\ (v <> 0 -> live m !! v = None /\ live m' = <[v := (base, size)]> (live m));
  iounmap_live : forall m v, live (iounmap m v) = delete v (live m)
}.

Section Life.
Context `{Vendor} `{Ioremap M}.

(** Unmapping runs from the last span to the first. *)
Fixpoint unmap_private (l : list tetris_smem_span) (m : M) : list tetris_smem_span * M :=
  match l with
  | [] => ([], m)
  | s :: l =>
    let '(l, m) := unmap_private l m in
    if negb (svirtual s =? 0) then (SmemSpan (sbank s) (soffset s) (ssize s) 0 :: l, iounmap m (svirtual s)) else (s :: l, m)
  end.
Definition clear_row (r : tetris_smem_row) : tetris_smem_row :=
  SmemRow (r_id r) (r_offset r) (r_size r) (r_flags r) (r_md_offset r) (r_bank r) 0.
Definition fail_private (self : Z) (o : tetris_smem_owner) (error : Z) (m : M) : option (Z * tetris_smem_owner * M) :=
  let o := if owner_error o =? 0 then with_error error o else o in
  let '(l, m) := unmap_private (spans o) m in
  match populate_tables self (with_rows (clear_row <$> rows o) (with_spans l o)) with
  | None => None
  | Some o => Some (owner_error o, with_state TETRIS_SMEM_FAILED o, m)
  end.

(** The mapping loop from some span on; [false] when a request failed, with
    the failed span's address stored as the service returned it. *)
Fixpoint map_loop (banks : tetris_metadata_banks) (todo : list tetris_smem_span) (m : M) : list tetris_smem_span * M * bool :=
  match todo with
  | [] => ([], m, true)
  | s :: todo =>
    let '(m, v) := ioremap_wc m (u64 (wbase (window_of banks (sbank s)) + soffset s)) (ssize s) in
    let s' := SmemSpan (sbank s) (soffset s) (ssize s) v in
    if v =? 0 then (s' :: todo, m, false)
    else let '(l, m, ok) := map_loop banks todo m in (s' :: l, m, ok)
  end.
(** The address of a row inside the first span that holds it. *)
Fixpoint row_address (r : tetris_smem_row) (l : list tetris_smem_span) : Z :=
  match l with
  | [] => r_virtual r
  | s :: l =>
    if (r_bank r =? sbank s) && (soffset s <=? r_offset r) && (u32 (r_offset r + r_size r) <=? u32 (soffset s + ssize s))
    then u64 (svirtual s + (r_offset r - soffset s))
    else row_address r l
  end.
Definition locate_row (l : list tetris_smem_span) (r : tetris_smem_row) : tetris_smem_row :=
  if (r_size r =? 0) || no_map r then r
  else SmemRow (r_id r) (r_offset r) (r_size r) (r_flags r) (r_md_offset r) (r_bank r) (row_address r l).
Definition tetris_smem_map_private (self : Z) (owner : option tetris_smem_owner) (m : M) : option (Z * option tetris_smem_owner * M) :=
  match owner with
  | None => Some (- EINVAL, None, m)
  | Some o =>
    if negb (bool_decide (state o = TETRIS_SMEM_VALIDATED))
    then Some (if negb (owner_error o =? 0) then owner_error o else - EALREADY, Some o, m)
    else
    let '(l, m, ok) := map_loop (owner_banks o) (spans o) m in
    let o := with_spans l o in
    if negb ok then (fun '(ret, o, m) => (ret, Some o, m)) <$> fail_private self o (- ENOMEM) m
    else match populate_tables self (with_rows (locate_row l <$> rows o) o) with
         | None => None
         | Some o => Some (0, Some (with_state TETRIS_SMEM_MAPPED o), m)
         end
  end.

(** A slot is the address of the published owner, 0 when there is none. *)
Definition tetris_smem_slot_init : Z := 0.
Definition tetris_smem_publish_private (slot : option Z) (self : Z) (owner : option tetris_smem_owner) (m : M)
    : option (Z * option Z * option tetris_smem_owner * M) :=
  match slot, owner with
  | Some holder, Some o =>
    let failed error := (fun '(ret, o, m) => (ret, slot, Some o, m)) <$> fail_private self o error m in
    if bool_decide (state o = TETRIS_SMEM_PUBLISHED) then Some (- EALREADY, slot, owner, m)
    else if negb (owner_error o =? 0) then Some (owner_error o, slot, owner, m)
    else if negb (holder =? 0) then failed (- EEXIST)
    else if negb (bool_decide (state o = TETRIS_SMEM_MAPPED)) then failed (- ENODATA)
    else Some (0, Some self, Some (with_state TETRIS_SMEM_PUBLISHED o), m)
  | _, _ => Some (- EINVAL, slot, owner, m)
  end.

(** A freed owner is [None] in the result. *)
Definition tetris_smem_destroy (owner : option tetris_smem_owner) (m : M) : Z * option tetris_smem_owner * M :=
  match owner with
  | None => (- EINVAL, None, m)
  | Some o =>
    if bool_decide (state o = TETRIS_SMEM_PUBLISHED) then (- EBUSY, Some o, m)
    else let '(_, m) := unmap_private (spans o) m in (0, None, m)
  end.
End Life.

(** ** Copies for the consumer *)

Section Copies.
Context `{Vendor}.

Definition output_overlap (a a_size b b_size : Z) : bool :=
  if (UINT64_MAX - a_size <? a) || (UINT64_MAX - b_size <? b) then true
  else (a <? u64 (b + b_size)) && (b <? u64 (a + a_size)).
(** The consumer's layout and its two tables. *)
Abbreviation consumer := (ccci_mem_layout * list ccci_smem_region * list ccci_smem_region)%type (only parsing).
Definition copy_layout (self : Z) (o : tetris_smem_owner) (layout : ptr ccci_mem_layout) (n : ptr (list ccci_smem_region)) (nc_count : Z)
    (c : ptr (list ccci_smem_region)) (cache_count : Z) : Z * consumer :=
  let nbytes := 26 * sizeof_region in
  let cbytes := 11 * sizeof_region in
  if null layout || null n || null c || (nc_count <? 26) || (cache_count <? 11)
     || output_overlap (addr layout) sizeof_layout (addr n) nbytes || output_overlap (addr layout) sizeof_layout (addr c) cbytes
     || output_overlap (addr n) nbytes (addr c) cbytes || output_overlap self sizeof_owner (addr layout) sizeof_layout
     || output_overlap self sizeof_owner (addr n) nbytes || output_overlap self sizeof_owner (addr c) cbytes
  then (- EINVAL, (pointee layout, pointee n, pointee c))
  else
  let l := owner_layout o in
  (0, (MemLayout (md_bank0 l) (md_bank4_noncacheable_total l) (md_bank4_cacheable_total l) (addr n) (addr c),
       owner_nc o ++ drop 26 (pointee n), owner_cache o ++ drop 11 (pointee c))).
(** The copy in the one state [expected] of the owner. *)
Definition copy_in_state (expected : tetris_smem_state) (self : Z) (owner : option tetris_smem_owner) (layout : ptr ccci_mem_layout)
    (n : ptr (list ccci_smem_region)) (nc_count : Z) (c : ptr (list ccci_smem_region)) (cache_count : Z) : Z * consumer :=
  let fail ret := (ret, (pointee layout, pointee n, pointee c)) in
  match owner with
  | None => fail (- EINVAL)
  | Some o =>
    if negb (bool_decide (state o = expected)) then fail (if negb (owner_error o =? 0) then owner_error o else - EALREADY)
    else copy_layout self o layout n nc_count c cache_count
  end.
Definition tetris_smem_preview := copy_in_state TETRIS_SMEM_VALIDATED.
Definition tetris_smem_export_mapped_private := copy_in_state TETRIS_SMEM_MAPPED.
(** [slot] is [None] for a null slot, [Some None] before a publication. *)
Definition tetris_smem_export_private (slot : option (option (Z * tetris_smem_owner))) (layout : ptr ccci_mem_layout)
    (n : ptr (list ccci_smem_region)) (nc_count : Z) (c : ptr (list ccci_smem_region)) (cache_count : Z) : Z * consumer :=
  let fail ret := (ret, (pointee layout, pointee n, pointee c)) in
  match slot with
  | None => fail (- EINVAL)
  | Some None => fail (- ENODATA)
  | Some (Some (self, o)) => copy_layout self o layout n nc_count c cache_count
  end.
End Copies.

(** ** The life of an owner *)

Section Life.
Context `{VendorLaws} `{Ioremap M}.

Definition physical (banks : tetris_metadata_banks) (s : tetris_smem_span) : Z * Z :=
  (u64 (wbase (window_of banks (sbank s)) + soffset s), ssize s).
Definition unmapped (s : tetris_smem_span) : tetris_smem_span := SmemSpan (sbank s) (soffset s) (ssize s) 0.
(** [holds banks F l g]: the mappings [g] are [F] and one fresh mapping for every mapped span of [l]. *)
Fixpoint holds (banks : tetris_metadata_banks) (F : gmap Z (Z * Z)) (l : list tetris_smem_span) (g : gmap Z (Z * Z)) : Prop :=
  match l with
  | [] => g = F
  | s :: l =>
    if svirtual s =? 0 then holds banks F l g
    else F !! svirtual s = None /\ holds banks (<[svirtual s := physical banks s]> F) l g
  end.

Lemma holds_unmapped banks F l g : Forall (fun s => svirtual s = 0) l -> holds banks F l g <-> g = F.
Proof. induction 1 as [|s l Hs _ IH]; [reflexivity|]. cbn. now rewrite Hs. Qed.
Lemma unmapped_id (l : list tetris_smem_span) : Forall (fun s => svirtual s = 0) l -> unmapped <$> l = l.
Proof. induction 1 as [|[b o n v] l Hs _ IH]; [reflexivity|]. cbn in *. now rewrite Hs, IH. Qed.
Lemma unmapped_twice (l : list tetris_smem_span) : unmapped <$> (unmapped <$> l) = unmapped <$> l.
Proof. apply unmapped_id, Forall_fmap, Forall_true. reflexivity. Qed.

Lemma unmap_holds banks l : forall F m, holds banks F l (live m) -> exists m', unmap_private l m = (unmapped <$> l, m') /\ live m' = F.
Proof.
  induction l as [|[b o n v] l IH]; intros F m Hh; cbn [unmap_private holds fmap list_fmap] in *; [eauto|]. cbn [svirtual] in *.
  destruct (Z.eqb_spec v 0) as [->|Hv]; cbn [negb].
  - destruct (IH _ _ Hh) as (m' & -> & Hm). exists m'. split; [reflexivity|exact Hm].
  - destruct Hh as [Hf Hh]. destruct (IH _ _ Hh) as (m' & -> & Hm). eexists. split; [reflexivity|].
    rewrite iounmap_live, Hm. now apply delete_insert_id.
Qed.
Lemma map_loop_holds banks l : Forall (fun s => svirtual s = 0) l -> forall m,
  exists l' m' ok, map_loop banks l m = (l', m', ok) /\ holds banks (live m) l' (live m') /\ unmapped <$> l' = l /\
    (ok = true -> Forall (fun s => svirtual s <> 0) l').
Proof.
  induction 1 as [|[b o n v] l Hs Hl IH]; intros m; cbn [map_loop]; [exists [], m, true; repeat split; constructor|].
  cbn [sbank soffset ssize svirtual] in *. subst v. destruct (ioremap_wc m _ n) as [m1 v] eqn:E.
  apply ioremap_live in E as [E0 E1]. destruct (Z.eqb_spec v 0) as [->|Hv].
  - eexists _, _, _. split; [reflexivity|]. cbn. rewrite holds_unmapped, unmapped_id by assumption. split; [auto|]. split; [reflexivity|discriminate].
  - destruct (E1 Hv) as [Hf Hm]. destruct (IH m1) as (l' & m' & ok & -> & Hh & Hu & Hok). eexists _, _, _. split; [reflexivity|].
    cbn [holds svirtual fmap list_fmap]. replace (v =? 0) with false by lia. rewrite Hm in Hh. split; [split; [exact Hf|exact Hh]|].
    split; [cbn; now rewrite Hu|]. intros Hk. constructor; [exact Hv|now apply Hok].
Qed.
(** A mapping in place stays in place while others are added. *)
Lemma holds_keeps banks l : forall F g v x, holds banks F l g -> F !! v = Some x -> g !! v = Some x.
Proof.
  induction l as [|s l IH]; intros F g v x Hh Hv; cbn in Hh; [now subst|]. destruct (svirtual s =? 0); [eauto|].
  destruct Hh as [Hf Hh]. apply (IH _ _ _ _ Hh). rewrite lookup_insert_ne; [exact Hv|congruence].
Qed.
Lemma holds_lookup banks l : forall F g s, holds banks F l g -> s ∈ l -> svirtual s <> 0 -> g !! svirtual s = Some (physical banks s).
Proof.
  induction l as [|x l IH]; intros F g s Hh Hs Hv; [now apply not_elem_of_nil in Hs|]. cbn in Hh. apply elem_of_cons in Hs as [->|Hs].
  - replace (svirtual x =? 0) with false in Hh by lia. destruct Hh as [_ Hh]. apply (holds_keeps _ _ _ _ _ _ Hh), lookup_insert_eq.
  - destruct (svirtual x =? 0); [eauto|]. destruct Hh as [_ Hh]. eauto.
Qed.

(** A row in use lies in a span and has the address of its offset there; other rows have none. *)
Definition located (l : list tetris_smem_span) (r : tetris_smem_row) : Prop :=
  if (r_size r =? 0) || no_map r then r_virtual r = 0
  else exists s, s ∈ l /\ inside r s /\ r_virtual r = u64 (svirtual s + (r_offset r - soffset s)).
Lemma inside_unmapped r s : inside r (unmapped s) <-> inside r s.
Proof. reflexivity. Qed.
Lemma row_address_ok banks r l : row_u32 r -> Forall (fun s => span_ok banks (unmapped s)) l -> Exists (inside r) (unmapped <$> l) ->
  exists s, s ∈ l /\ inside r s /\ row_address r l = u64 (svirtual s + (r_offset r - soffset s)).
Proof.
  intros (_ & R1 & R2 & R3) Hl. induction Hl as [|s l (_ & S2 & S3 & _ & _ & _ & _ & S8 & _) Hl IH]; intros He; [inversion He|].
  cbn [unmapped soffset ssize svirtual sbank] in *. cbn [row_address]. rewrite !u32_id by (unfold is_u32; lia).
  destruct (_ && _ && _) eqn:G.
  - exists s. split; [constructor|]. split; [unfold inside; lia|reflexivity].
  - cbn [fmap list_fmap] in He. apply Exists_cons in He as [He|He].
    + exfalso. unfold inside in He. cbn in He. lia.
    + destruct (IH He) as (x & Hx & Hi & ->). exists x. split; [now constructor|auto].
Qed.
Lemma locate_row_ok banks l r : row_u32 r -> r_virtual r = 0 -> Forall (fun s => span_ok banks (unmapped s)) l -> covered (unmapped <$> l) r ->
  located l (locate_row l r) /\ clear_row (locate_row l r) = r.
Proof.
  intros Hr Hv Hl Hc. unfold locate_row, located. destruct ((r_size r =? 0) || no_map r) eqn:G.
  - rewrite G. split; [exact Hv|]. destruct r. cbn in *. now subst.
  - cbn [r_size r_virtual r_offset r_bank]. change (no_map (SmemRow _ _ _ _ _ _ _)) with (no_map r). rewrite G.
    apply orb_false_iff in G as [G1 G2]. destruct Hr as (Hb & R1 & R2 & R3). split.
    + destruct (row_address_ok banks r l) as (s & A & B & C); [unfold row_u32; auto|exact Hl|apply Hc; split; [lia|exact G2]|].
      exists s. split; [exact A|]. split; [exact B|exact C].
    + destruct r. cbn in *. now subst.
Qed.

(** *** Histories *)

(** One owner at [self], the slot it may be published in, and the mapping service. *)
Record world : Type := World { w_slot : Z; w_owner : option tetris_smem_owner; w_maps : M }.
(** [Foreign p]: another owner is published first. *)
Inductive call : Type := Map | Publish | Destroy | Foreign (p : Z).
Definition life_step (self : Z) (c : call) (w : world) : option world :=
  match c with
  | Map => (fun '(_, o, m) => World (w_slot w) o m) <$> tetris_smem_map_private self (w_owner w) (w_maps w)
  | Publish =>
    (fun '(_, slot, o, m) => World (default 0 slot) o m) <$> tetris_smem_publish_private (Some (w_slot w)) self (w_owner w) (w_maps w)
  | Destroy => let '(_, o, m) := tetris_smem_destroy (w_owner w) (w_maps w) in Some (World (w_slot w) o m)
  | Foreign p => Some (if (w_slot w =? 0) && negb (p =? self) then World p (w_owner w) (w_maps w) else w)
  end.
Fixpoint life_run (self : Z) (cs : list call) (w : world) : option world :=
  match cs with
  | [] => Some w
  | c :: cs => match life_step self c w with None => None | Some w => life_run self cs w end
  end.

(** [o] is a later state of the valid owner [o0]; [F] are the mappings of others. *)
Record owner_inv (self : Z) (o0 : tetris_smem_owner) (F : gmap Z (Z * Z)) (slot : Z) (o : tetris_smem_owner) (g : gmap Z (Z * Z)) : Prop := {
  inv_banks : owner_banks o = owner_banks o0;
  inv_rows : clear_row <$> rows o = rows o0;
  inv_spans : unmapped <$> spans o = spans o0;
  inv_maps : holds (owner_banks o0) F (spans o) g;
  inv_tables : populated self o = o;
  inv_failed : state o = TETRIS_SMEM_FAILED <-> owner_error o <> 0;
  inv_slot : state o = TETRIS_SMEM_PUBLISHED <-> slot = self;
  inv_bare : state o = TETRIS_SMEM_VALIDATED \/ state o = TETRIS_SMEM_FAILED ->
    Forall (fun s => svirtual s = 0) (spans o) /\ Forall (fun r => r_virtual r = 0) (rows o);
  inv_mapped : state o = TETRIS_SMEM_MAPPED \/ state o = TETRIS_SMEM_PUBLISHED ->
    Forall (fun s => svirtual s <> 0) (spans o) /\ Forall (located (spans o)) (rows o)
}.
Definition world_inv (self : Z) (o0 : tetris_smem_owner) (F : gmap Z (Z * Z)) (w : world) : Prop :=
  match w_owner w with
  | None => live (w_maps w) = F /\ w_slot w <> self
  | Some o => owner_inv self o0 F (w_slot w) o (live (w_maps w))
  end.

Lemma clear_row_id l : Forall (fun r => r_virtual r = 0) l -> clear_row <$> l = l.
Proof. induction 1 as [|[] l Hs _ IH]; [reflexivity|]. cbn in *. now rewrite Hs, IH. Qed.
Lemma clear_row_twice (l : list tetris_smem_row) : clear_row <$> (clear_row <$> l) = clear_row <$> l.
Proof. apply clear_row_id, Forall_fmap, Forall_true. reflexivity. Qed.

(** The owner after a failure. *)
Definition reset (self e : Z) (o : tetris_smem_owner) : tetris_smem_owner :=
  with_state TETRIS_SMEM_FAILED (populated self (with_rows (clear_row <$> rows o) (with_spans (unmapped <$> spans o) (with_error e o)))).
Lemma fail_private_ok self o e (m : M) F : holds (owner_banks o) F (spans o) (live m) -> owner_error o = 0 ->
  exists m', fail_private self o e m = Some (e, reset self e o, m') /\ live m' = F.
Proof.
  intros Hh He. unfold fail_private. rewrite He. cbn [Z.eqb]. destruct (unmap_holds _ _ _ _ Hh) as (m' & E & Hm).
  change (spans (with_error e o)) with (spans o). rewrite E, populate_exact. exists m'. split; [reflexivity|exact Hm].
Qed.
Lemma reset_inv self o0 F slot o e : owner_banks o = owner_banks o0 -> clear_row <$> rows o = rows o0 -> unmapped <$> spans o = spans o0 ->
  e <> 0 -> slot <> self -> owner_inv self o0 F slot (reset self e o) F.
Proof.
  intros Hb Hr Hs He Hslot.
  assert (Hv : Forall (fun s => svirtual s = 0) (unmapped <$> spans o)) by (apply Forall_fmap, Forall_true; reflexivity).
  split; cbn; try assumption; try reflexivity.
  - now rewrite clear_row_twice.
  - now rewrite unmapped_twice.
  - now apply holds_unmapped.
  - tauto.
  - split; [discriminate|contradiction].
  - intros _. split; [exact Hv|]. apply Forall_fmap, Forall_true. reflexivity.
  - intros [|]; discriminate.
Qed.

Section Run.
Context (self : Z) (Hself : self <> 0) (o0 : tetris_smem_owner) (Hvalid : owner_valid self o0) (F : gmap Z (Z * Z)).

Lemma map_private_inv slot o (m : M) : owner_inv self o0 F slot o (live m) ->
  exists ret o' m', tetris_smem_map_private self (Some o) m = Some (ret, Some o', m') /\ owner_inv self o0 F slot o' (live m') /\
    (state o = TETRIS_SMEM_PUBLISHED -> o' = o /\ m' = m).
Proof.
  intros I. unfold tetris_smem_map_private. destruct (bool_decide_reflect (state o = TETRIS_SMEM_VALIDATED)) as [Hst|Hst]; cbn [negb]; cycle 1.
  { eexists _, _, _. split; [reflexivity|]. auto. }
  destruct (inv_bare _ _ _ _ _ _ I (or_introl Hst)) as [Hv Hrv].
  assert (HF : live m = F) by (eapply holds_unmapped; [exact Hv|exact (inv_maps _ _ _ _ _ _ I)]).
  assert (He : owner_error o = 0) by (destruct (decide (owner_error o = 0)) as [|Hne]; [assumption|]; apply (inv_failed _ _ _ _ _ _ I) in Hne; congruence).
  assert (Hslot : slot <> self) by (intros Hs; apply (inv_slot _ _ _ _ _ _ I) in Hs; congruence).
  pose proof (inv_banks _ _ _ _ _ _ I) as Ib. pose proof (inv_rows _ _ _ _ _ _ I) as Ir. pose proof (inv_spans _ _ _ _ _ _ I) as Is.
  destruct (map_loop_holds (owner_banks o) (spans o) Hv m) as (l & m' & ok & -> & Hh & Hu & Hok). rewrite HF in Hh.
  destruct ok; cbn [negb].
  - rewrite populate_exact. eexists _, _, _. split; [reflexivity|]. split; [|congruence].
    rewrite unmapped_id in Is by exact Hv. rewrite clear_row_id in Ir by exact Hrv. rewrite Is in Hu. specialize (Hok eq_refl).
    destruct (valid_spans _ _ Hvalid) as (_ & Hsp & Hcov & _).
    assert (Hspan : Forall (fun s => span_ok (owner_banks o0) (unmapped s)) l) by (rewrite <- Hu, Forall_fmap in Hsp; exact Hsp).
    assert (Hloc : Forall (fun r => located l (locate_row l r) /\ clear_row (locate_row l r) = r) (rows o)).
    { rewrite Ir. apply Forall_forall. intros r Hr. apply (locate_row_ok (owner_banks o0)); [|rewrite <- Ir in Hr; rewrite Forall_forall in Hrv; now apply Hrv|exact Hspan|].
      - pose proof (valid_rows _ _ Hvalid) as V. rewrite Forall_forall in V. auto.
      - rewrite Hu. rewrite Forall_forall in Hcov. auto. }
    split; cbn; try assumption; try reflexivity.
    + rewrite <- Ir. clear - Hloc. induction Hloc as [|r rs [_ E] _ IH]; [reflexivity|]. cbn. now rewrite E, IH.
    + now rewrite <- Ib.
    + rewrite He. split; [discriminate|contradiction].
    + split; [discriminate|contradiction].
    + intros [|]; discriminate.
    + intros _. split; [exact Hok|]. apply Forall_fmap. eapply Forall_impl; [exact Hloc|]. now intros r [X _].
  - destruct (fail_private_ok self (with_spans l o) (- ENOMEM) m' F) as (m2 & -> & Hm2); [exact Hh|exact He|]. cbn.
    eexists _, _, _. split; [reflexivity|]. rewrite Hm2. split; [|congruence].
    apply reset_inv; try assumption; [|lia]. cbn. rewrite Hu. now rewrite unmapped_id in Is by exact Hv.
Qed.

Lemma publish_private_inv slot o (m : M) : owner_inv self o0 F slot o (live m) ->
  exists ret slot' o' m', tetris_smem_publish_private (Some slot) self (Some o) m = Some (ret, Some slot', Some o', m') /\
    owner_inv self o0 F slot' o' (live m') /\ (state o = TETRIS_SMEM_PUBLISHED -> slot' = slot /\ o' = o /\ m' = m).
Proof.
  intros I. unfold tetris_smem_publish_private. cbv zeta.
  destruct (bool_decide_reflect (state o = TETRIS_SMEM_PUBLISHED)) as [Hst|Hst]; [eexists _, _, _, _; split; [reflexivity|]; auto|].
  destruct (Z.eqb_spec (owner_error o) 0) as [He|He]; cbn [negb]; [|eexists _, _, _, _; split; [reflexivity|]; auto].
  assert (Hslot : slot <> self) by (intros Hs; apply (inv_slot _ _ _ _ _ _ I) in Hs; congruence).
  pose proof (inv_banks _ _ _ _ _ _ I) as Ib. pose proof (inv_maps _ _ _ _ _ _ I) as Im. rewrite <- Ib in Im.
  assert (Hfail : forall e, e <> 0 -> exists ret slot' o' m',
    (fun '(ret, o, m) => (ret, Some slot, Some o, m)) <$> fail_private self o e m = Some (ret, Some slot', Some o', m') /\
    owner_inv self o0 F slot' o' (live m') /\ (state o = TETRIS_SMEM_PUBLISHED -> slot' = slot /\ o' = o /\ m' = m)).
  { intros e Hne. destruct (fail_private_ok self o e m F Im He) as (m' & -> & Hm). eexists _, _, _, _. split; [reflexivity|].
    split; [|congruence]. rewrite Hm. apply reset_inv; try assumption; [apply (inv_rows _ _ _ _ _ _ I)|apply (inv_spans _ _ _ _ _ _ I)]. }
  destruct (Z.eqb_spec slot 0) as [->|]; cbn [negb]; [|apply Hfail; lia].
  destruct (bool_decide_reflect (state o = TETRIS_SMEM_MAPPED)) as [Hm|]; cbn [negb]; [|apply Hfail; lia].
  eexists _, _, _, _. split; [reflexivity|]. split; [|congruence]. destruct I as [I1 I2 I3 I4 I5 I6 I7 I8 I9].
  split; cbn; try assumption; try tauto.
  - now rewrite <- I5 at 2.
  - rewrite He. split; [discriminate|contradiction].
  - intros [|]; discriminate.
Qed.

Definition published (w : world) : Prop := exists o, w_owner w = Some o /\ state o = TETRIS_SMEM_PUBLISHED.
Lemma life_step_inv c w : world_inv self o0 F w ->
  exists w', life_step self c w = Some w' /\ world_inv self o0 F w' /\ (published w -> w' = w).
Proof.
  destruct w as [slot [o|] m]; intros I; unfold world_inv in I; cbn [w_owner w_slot w_maps] in I.
  - assert (Hpub : published (World slot (Some o) m) -> state o = TETRIS_SMEM_PUBLISHED) by (intros (x & [= <-] & Hx); exact Hx).
    destruct c as [| | |p]; cbn [life_step w_owner w_slot w_maps].
    + destruct (map_private_inv slot o m I) as (ret & o' & m' & -> & I' & P). eexists. split; [reflexivity|]. split; [exact I'|].
      intros Hw. destruct (P (Hpub Hw)) as [-> ->]. reflexivity.
    + destruct (publish_private_inv slot o m I) as (ret & slot' & o' & m' & -> & I' & P). eexists. split; [reflexivity|]. split; [exact I'|].
      intros Hw. destruct (P (Hpub Hw)) as (-> & -> & ->). reflexivity.
    + unfold tetris_smem_destroy. destruct (bool_decide_reflect (state o = TETRIS_SMEM_PUBLISHED)) as [Hst|Hst]; [eauto|].
      pose proof (inv_maps _ _ _ _ _ _ I) as Im. destruct (unmap_holds _ _ _ _ Im) as (m' & -> & Hm). eexists. split; [reflexivity|].
      split; [|intros Hw; now apply Hpub in Hw]. split; [exact Hm|]. intros Hs. now apply (inv_slot _ _ _ _ _ _ I) in Hs.
    + eexists. split; [reflexivity|]. destruct (_ && _) eqn:G; [|auto].
      assert (Hst : state o <> TETRIS_SMEM_PUBLISHED) by (intros Hst; apply (inv_slot _ _ _ _ _ _ I) in Hst; cbn in Hst; lia).
      split; [|intros Hw; now apply Hpub in Hw]. destruct I as [I1 I2 I3 I4 I5 I6 I7 I8 I9]. split; cbn; try assumption. split; [contradiction|lia].
  - assert (Hpub : ~ published (World slot None m)) by (intros (x & [=] & _)).
    destruct c as [| | |p]; cbn; eexists; (split; [reflexivity|]); (split; [|tauto]); try exact I.
    destruct ((slot =? 0) && negb (p =? self)) eqn:G; [|exact I]. split; [exact (proj1 I)|]. cbn. lia.
Qed.
Lemma life_run_inv cs : forall w, world_inv self o0 F w ->
  exists w', life_run self cs w = Some w' /\ world_inv self o0 F w' /\ (published w -> w' = w).
Proof.
  induction cs as [|c cs IH]; intros w I; cbn [life_run]; [eauto|]. destruct (life_step_inv c w I) as (w1 & -> & I1 & P1).
  destruct (IH w1 I1) as (w2 & E2 & I2 & P2). exists w2. split; [exact E2|]. split; [exact I2|].
  intros Hw. specialize (P1 Hw). subst w1. auto.
Qed.
End Run.

(** C31. The life of an owner. Whatever calls are made on it, in whatever order
    and whether or not mapping requests fail or another owner is published
    first, no missing table entry is used and the kernel's mappings are the
    mappings of others plus one for every span the owner has mapped, at the
    span's physical range. A validated or failed owner has nothing mapped; a
    mapped or published one has all its spans mapped, gives each row in use the
    address of its offset in such a span, and gives the others none. Its tables
    always show its rows. Only the owner in the slot is published, and from
    then on no call changes it or its mappings; destroying any other owner
    removes exactly its own mappings. *)
Theorem smem_lifecycle self o0 m cs : self <> 0 -> owner_valid self o0 ->
  exists w, life_run self cs (World 0 (Some o0) m) = Some w /\ world_inv self o0 (live m) w /\
    (published w -> forall more, life_run self more w = Some w) /\
    (forall o s, w_owner w = Some o -> s ∈ spans o -> svirtual s <> 0 ->
       live (w_maps w) !! svirtual s = Some (physical (owner_banks o0) s)).
Proof.
  intros Hself V. assert (I0 : world_inv self o0 (live m) (World 0 (Some o0) m)).
  { pose proof V as [V1 V2 V3 V4 V5 V6 (_ & V7 & _) V8 V9].
    assert (Hv : Forall (fun s => svirtual s = 0) (spans o0)) by (eapply Forall_impl; [exact V7|]; intros s Hs; apply Hs).
    split; cbn; try assumption; try reflexivity.
    - now apply clear_row_id.
    - now apply unmapped_id.
    - now apply holds_unmapped.
    - rewrite V1, V2. split; [discriminate|contradiction].
    - rewrite V1. split; [discriminate|]. intros E. now symmetry in E.
    - auto.
    - rewrite V1. intros [|]; discriminate. }
  destruct (life_run_inv self Hself o0 V (live m) cs _ I0) as (w & E & I & _). exists w. split; [exact E|]. split; [exact I|]. split.
  - intros Hp more. destruct (life_run_inv self Hself o0 V (live m) more _ I) as (w' & E' & _ & P). now rewrite E', (P Hp).
  - intros o s Ho Hs Hv. unfold world_inv in I. rewrite Ho in I. exact (holds_lookup _ _ _ _ _ (inv_maps _ _ _ _ _ _ I) Hs Hv).
Qed.
End Life.

(** A mapping service that hands out one address per mapping in place. *)
Definition paged_ioremap (m : gmap Z (Z * Z)) (base size : Z) : gmap Z (Z * Z) * Z :=
  let v := 0x10000000 * (1 + Z.of_nat (map_size m)) in
  match m !! v with Some _ => (m, 0) | None => (<[v := (base, size)]> m, v) end.
#[export] Program Instance paged_maps : Ioremap (gmap Z (Z * Z)) := {
  live m := m; ioremap_wc := paged_ioremap; iounmap m v := delete v m
}.
Next Obligation.
  intros m base size m' v. unfold paged_ioremap. cbv zeta. destruct (m !! _) eqn:E; intros [= <- <-].
  - split; [reflexivity|contradiction].
  - split; [lia|auto].
Qed.
Next Obligation. reflexivity. Qed.

Lemma smem_lifecycle_witness : exists o w, example_owner = Some o /\
  life_run 0x10000 [Map; Publish; Destroy] (World 0 (Some o) (∅ : gmap Z (Z * Z))) = Some w /\ published w /\
  life_run 0x10000 [Destroy; Map; Publish] w = Some w.
Proof.
  destruct example_owner as [o|] eqn:Eo; [|discriminate].
  assert (V : owner_valid 0x10000 o) by (destruct example_owner_valid as (o' & E & V); congruence).
  destruct (smem_lifecycle 0x10000 o (∅ : gmap Z (Z * Z)) [Map; Publish; Destroy]) as (w & E & _ & P & _); [lia|exact V|].
  assert (Hp : published w).
  { unfold example_owner in Eo. injection Eo as <-. vm_compute in E. injection E as <-. eexists. split; reflexivity. }
  exists o, w. auto.
Defined.

(** ** What the consumer receives *)

Section Consumer.
Context `{VendorLaws} (self : Z) (o : tetris_smem_owner) (layout : ptr ccci_mem_layout) (n c : ptr (list ccci_smem_region)).
Context (nc_count cache_count : Z).
Context (Htables : populated self o = o).
Context (Hsizes : 0 <= sizeof_layout /\ 0 <= sizeof_region /\ 0 <= sizeof_owner).
Context (Haddr : is_u64 self /\ is_u64 (addr layout) /\ is_u64 (addr n) /\ is_u64 (addr c)).

Definition ranges_apart (a an b bn : Z) : Prop := a + an <= b \/ b + bn <= a.
(** The caller's three objects and the owner are separate, and large enough. *)
Definition copy_ready : Prop :=
  null layout = false /\ null n = false /\ null c = false /\ 26 <= nc_count /\ 11 <= cache_count /\
  ranges_apart (addr layout) sizeof_layout (addr n) (26 * sizeof_region) /\
  ranges_apart (addr layout) sizeof_layout (addr c) (11 * sizeof_region) /\
  ranges_apart (addr n) (26 * sizeof_region) (addr c) (11 * sizeof_region) /\
  ranges_apart self sizeof_owner (addr layout) sizeof_layout /\ ranges_apart self sizeof_owner (addr n) (26 * sizeof_region) /\
  ranges_apart self sizeof_owner (addr c) (11 * sizeof_region).
(** The consumer's objects after a copy. *)
Definition delivered : ccci_mem_layout * list ccci_smem_region * list ccci_smem_region :=
  let l := layout_of self o in
  (MemLayout (md_bank0 l) (md_bank4_noncacheable_total l) (md_bank4_cacheable_total l) (addr n) (addr c),
   (settled (owner_banks o) false (rows o) <$> tetris_nc_template) ++ drop 26 (pointee n),
   cache_table (owner_banks o) (rows o) ++ drop 11 (pointee c)).
(** All or nothing. *)
Definition copies (r : Z * (ccci_mem_layout * list ccci_smem_region * list ccci_smem_region)) : Prop :=
  (r.1 <> 0 -> r.2 = (pointee layout, pointee n, pointee c)) /\ (r.1 = 0 -> copy_ready /\ r.2 = delivered).

Lemma overlap_apart a an b bn : is_u64 a -> is_u64 b -> 0 <= an -> 0 <= bn -> output_overlap a an b bn = false -> ranges_apart a an b bn.
Proof.
  unfold is_u64, output_overlap, ranges_apart. intros Ha Hb Han Hbn. destruct (_ || _) eqn:G; [discriminate|].
  rewrite !u64_id by (unfold is_u64; lia). lia.
Qed.
Lemma copy_layout_copies : copies (copy_layout self o layout n nc_count c cache_count).
Proof.
  destruct Haddr as (A1 & A2 & A3 & A4), Hsizes as (S1 & S2 & S3). unfold copy_layout. cbv zeta.
  lazymatch goal with |- context [if ?b then _ else _] => destruct b eqn:G end; split; cbn [fst snd]; try reflexivity; try contradiction; try discriminate.
  intros _. repeat (apply orb_false_iff in G as [G ?]). split.
  - unfold copy_ready. split_and!; try assumption; try (now apply Z.ltb_ge); (apply overlap_apart; [assumption..| | |assumption]; clear - S1 S2 S3; lia).
  - unfold delivered. rewrite <- Htables at 1 2 3 4 5. reflexivity.
Qed.
Lemma copy_in_state_copies expected : copies (copy_in_state expected self (Some o) layout n nc_count c cache_count) /\
  ((copy_in_state expected self (Some o) layout n nc_count c cache_count).1 = 0 -> state o = expected).
Proof.
  unfold copy_in_state. cbv zeta. destruct (bool_decide_reflect (state o = expected)) as [E|E]; cbn [negb].
  - split; [exact copy_layout_copies|auto].
  - assert (Hne : (if negb (owner_error o =? 0) then owner_error o else - EALREADY) <> 0) by (destruct (Z.eqb_spec (owner_error o) 0); cbn; lia).
    split; [split; cbn [fst snd]; [reflexivity|intros X; now apply Hne in X]|]. intros X. now apply Hne in X.
Qed.
(** Copies for the consumer, before mapping, before publication and from
    the slot, are all or nothing: an error leaves the caller's layout and
    tables untouched; success means the caller's objects are large enough and
    separate from each other and from the owner, and hold the table of every
    user: its row's range and addresses, the cyclic buffer split into its first
    2 MiB and the rest, with the layout pointing at the caller's own tables.
    The first copy needs a validated owner, the second a mapped one. *)
Theorem consumer_copies :
  let preview := tetris_smem_preview self (Some o) layout n nc_count c cache_count in
  let mapped := tetris_smem_export_mapped_private self (Some o) layout n nc_count c cache_count in
  copies preview /\ (preview.1 = 0 -> state o = TETRIS_SMEM_VALIDATED) /\
  copies mapped /\ (mapped.1 = 0 -> state o = TETRIS_SMEM_MAPPED) /\
  copies (tetris_smem_export_private (Some (Some (self, o))) layout n nc_count c cache_count).
Proof.
  cbv zeta. destruct (copy_in_state_copies TETRIS_SMEM_VALIDATED) as [P1 P2], (copy_in_state_copies TETRIS_SMEM_MAPPED) as [Q1 Q2].
  split; [exact P1|]. split; [exact P2|]. split; [exact Q1|]. split; [exact Q2|]. exact copy_layout_copies.
Qed.
End Consumer.

Lemma consumer_copies_witness : exists o, example_owner = Some o /\
  let r := tetris_smem_preview 0x10000 (Some o) (Ptr 0x40000 zero_layout) (Ptr 0x50000 (replicate 26 zero_region)) 26 (Ptr 0x60000 (replicate 11 zero_region)) 11 in
  r.1 = 0 /\ r.2 = delivered 0x10000 o (Ptr 0x50000 (replicate 26 zero_region)) (Ptr 0x60000 (replicate 11 zero_region)).
Proof.
  destruct example_owner_valid as (o & Eo & V). exists o. split; [exact Eo|]. cbv zeta.
  destruct (consumer_copies 0x10000 o (Ptr 0x40000 zero_layout) (Ptr 0x50000 (replicate 26 zero_region)) (Ptr 0x60000 (replicate 11 zero_region)) 26 11)
    as ((_ & C) & _).
  - exact (valid_tables _ _ V).
  - cbn. lia.
  - unfold is_u64. cbn. lia.
  - assert (E : (tetris_smem_preview 0x10000 (Some o) (Ptr 0x40000 zero_layout) (Ptr 0x50000 (replicate 26 zero_region)) 26 (Ptr 0x60000 (replicate 11 zero_region)) 11).1 = 0)
      by (unfold example_owner in Eo; injection Eo as <-; vm_compute; reflexivity).
    split; [exact E|]. exact (proj2 (C E)).
Defined.
