(* ===== verification/SmemReservation.v ===== *)
(** * Reserved shared-memory spans: [modem/drafts/runtime-metadata/smem_extent_preview.c]
    and [smem_reservation.c]

    The copy of the mapping geometry out of its owner, and the reservation of
    the planned spans in the kernel's I/O memory registry. The registry is an
    interface: requesting may fail, and releasing the latest request undoes
    it. *)

From S2P Require Import Prelude Semantic BootEvidence SmemOwner.
Open Scope Z_scope.

Definition TETRIS_SMEM_SPANS_MAX : Z := 23.
Abbreviation PAGE_SIZE := 4096 (only parsing).

Record tetris_smem_extent : Type := Extent { ebase : Z; ebytes : Z; ebank : Z }.
(** The first [pcount] slots of the plan. *)
Record tetris_smem_extent_plan : Type := ExtentPlan { pcount : Z; pspan : list tetris_smem_extent }.
Definition zero_extents : tetris_smem_extent_plan := ExtentPlan 0 [].

(** ** Preview *)

(** One span of the plan. *)
Definition preview_span (banks : tetris_metadata_banks) (s : tetris_smem_span) : Z + tetris_smem_extent :=
  let bank := window_of banks (sbank s) in
  if (1 <? sbank s) || (ssize s =? 0) || negb (svirtual s =? 0) || (wcapacity bank <=? soffset s)
     || (u64 (wcapacity bank - soffset s) <? ssize s) || (UINT64_MAX - wcapacity bank <? wbase bank)
  then inl (- ERANGE)
  else inr (Extent (u64 (wbase bank + soffset s)) (ssize s) (sbank s)).
Fixpoint preview_loop (banks : tetris_metadata_banks) (l : list tetris_smem_span) : Z + list tetris_smem_extent :=
  match l with
  | [] => inr []
  | s :: l =>
    match preview_span banks s with
    | inl e => inl e
    | inr x => match preview_loop banks l with inl e => inl e | inr xs => inr (x :: xs) end
    end
  end.

Definition sizeof_plan : Z := 376.
(** [sizeof_owner] is the size of the owner object. *)
Definition tetris_smem_extent_preview (sizeof_owner : Z) (owner : ptr tetris_smem_owner) (output : ptr tetris_smem_extent_plan)
    : Z * tetris_smem_extent_plan :=
  let out := addr output in
  let source := addr owner in
  let fail ret := (ret, pointee output) in
  if null owner || null output || (UINT64_MAX - sizeof_plan <? out) || (UINT64_MAX - sizeof_owner <? source)
     || ((out <? u64 (source + sizeof_owner)) && (source <? u64 (out + sizeof_plan)))
  then fail (- EINVAL)
  else
  let o := pointee owner in
  if negb (bool_decide (state o = TETRIS_SMEM_VALIDATED)) then fail (if negb (owner_error o =? 0) then owner_error o else - EALREADY)
  else if (span_count o =? 0) || (TETRIS_SMEM_SPANS_MAX <? span_count o) then fail (- ERANGE)
  else match preview_loop (owner_banks o) (spans o) with
       | inl e => fail e
       | inr xs => (0, ExtentPlan (span_count o) xs)
       end.

(** ** Reservation *)

Class Iomem (R : Type) := {
  request_mem_region : R -> Z -> Z -> option R;
  release_mem_region : R -> Z -> Z -> R;
  release_request : forall r r' start size, request_mem_region r start size = Some r' -> release_mem_region r' start size = r
}.

(** [held] has 23 slots; a held resource is its start and size. *)
Record tetris_smem_reservation : Type := Reservation { held : list (option (Z * Z)); rcount : Z }.

Section Reserve.
Context `{Iomem R}.

(** The release loop with [n] resources left; [None] stands for using a null resource. *)
Fixpoint release_loop (n : nat) (h : list (option (Z * Z))) (r : R) : option (list (option (Z * Z)) * R) :=
  match n with
  | O => Some (h, r)
  | S n =>
    match h !! n with
    | Some (Some (start, size)) => release_loop n (<[n := None]> h) (release_mem_region r start size)
    | _ => None
    end
  end.
Definition tetris_smem_release_extents (res : tetris_smem_reservation) (r : R) : option (tetris_smem_reservation * R) :=
  match release_loop (Z.to_nat (rcount res)) (held res) r with
  | None => None
  | Some (h, r) => Some (Reservation h 0, r)
  end.

(** The checks of one planned span; [done] are the spans before it. *)
Definition extent_check (evidence : tetris_smem_boot_evidence) (done : list tetris_smem_extent) (s : tetris_smem_extent) : Z :=
  if (1 <? ebank s) || (ebytes s =? 0) || (ebase s =? 0) || negb (Z.land (Z.lor (ebase s) (ebytes s)) (PAGE_SIZE - 1) =? 0)
     || (UINT64_MAX - ebytes s <? ebase s)
  then - ERANGE
  else
  match record evidence !! Z.to_nat (ebank s) with
  | None => - ERANGE
  | Some rec =>
    if negb (bank rec =? ebank s) || negb (slot rec =? 42 + ebank s) || (ebase s <? range_start rec)
       || (range_size rec <=? u64 (ebase s - range_start rec))
       || (u64 (range_size rec - u64 (ebase s - range_start rec)) <? ebytes s)
    then - ERANGE
    else if existsb (fun p => (ebase s <? u64 (ebase p + ebytes p)) && (ebase p <? u64 (ebase s + ebytes s))) done
    then - EADDRINUSE
    else 0
  end.
Fixpoint check_loop (evidence : tetris_smem_boot_evidence) (done todo : list tetris_smem_extent) : Z :=
  match todo with
  | [] => 0
  | s :: todo =>
    let ret := extent_check evidence done s in
    if negb (ret =? 0) then ret else check_loop evidence (done ++ [s]) todo
  end.

(** The claiming loop from span [i] on. *)
Fixpoint claim_loop (i : nat) (todo : list tetris_smem_extent) (res : tetris_smem_reservation) (r : R)
    : option (Z * tetris_smem_reservation * R) :=
  match todo with
  | [] => Some (0, res, r)
  | s :: todo =>
    match request_mem_region r (ebase s) (ebytes s) with
    | None =>
      match tetris_smem_release_extents (Reservation (<[i := None]> (held res)) (rcount res)) r with
      | None => None
      | Some (res, r) => Some (- EBUSY, res, r)
      end
    | Some r => claim_loop (S i) todo (Reservation (<[i := Some (ebase s, ebytes s)]> (held res)) (rcount res + 1)) r
    end
  end.

Definition tetris_smem_reserve_extents (plan : option tetris_smem_extent_plan) (evidence : option tetris_smem_boot_evidence)
    (reservation : option tetris_smem_reservation) (r : R) : option (Z * option tetris_smem_reservation * R) :=
  match plan, evidence, reservation with
  | Some plan, Some evidence, Some res =>
    let fail ret := Some (ret, Some res, r) in
    if (pcount plan =? 0) || (TETRIS_SMEM_SPANS_MAX <? pcount plan) then fail (- EINVAL)
    else if negb (rcount res =? 0) then fail (- EALREADY)
    else if negb (version evidence =? 1) || negb (scope evidence =? 1) || negb (count evidence =? 2) then fail (- EBADMSG)
    else if existsb (fun h => match h with Some _ => true | None => false end) (held res) then fail (- EINVAL)
    else
    let ret := check_loop evidence [] (pspan plan) in
    if negb (ret =? 0) then fail ret
    else match claim_loop 0 (pspan plan) res r with
         | None => None
         | Some (ret, res, r) => Some (ret, Some res, r)
         end
  | _, _, res => Some (- EINVAL, res, r)
  end.

(** ** Claims and their release *)

(** [claims r0 l r]: requesting the regions of [l] in order takes [r0] to [r]. *)
Inductive claims (r0 : R) : list (Z * Z) -> R -> Prop :=
| claims_nil : claims r0 [] r0
| claims_snoc l r start size r' :
    claims r0 l r -> request_mem_region r start size = Some r' -> claims r0 (l ++ [(start, size)]) r'.

Lemma release_claims r0 l r : claims r0 l r -> forall tail,
  release_loop (length l) ((Some <$> l) ++ tail) r = Some (replicate (length l) None ++ tail, r0).
Proof.
  induction 1 as [|l r start size r' Hl IH Hreq]; intros tail; [reflexivity|].
  rewrite length_app, Nat.add_1_r. cbn [release_loop]. rewrite fmap_app, <- app_assoc. cbn [fmap list_fmap app].
  rewrite lookup_app_r, length_fmap, Nat.sub_diag by (rewrite length_fmap; lia). cbn [lookup list_lookup].
  rewrite (release_request _ _ _ _ Hreq). replace (<[length l := None]> _) with ((Some <$> l) ++ None :: tail).
  - rewrite IH. rewrite replicate_S_end, <- app_assoc. reflexivity.
  - rewrite insert_app_r_alt, length_fmap, Nat.sub_diag by (rewrite length_fmap; lia). reflexivity.
Qed.
Definition region (s : tetris_smem_extent) : Z * Z := (ebase s, ebytes s).
(** The reservation that holds the regions [l]. *)
Definition holding (l : list (Z * Z)) (free : nat) : tetris_smem_reservation :=
  Reservation ((Some <$> l) ++ replicate free None) (len l).

Lemma release_holding r0 l r free : claims r0 l r ->
  tetris_smem_release_extents (holding l free) r = Some (holding [] (length l + free), r0).
Proof.
  intros Hc. unfold tetris_smem_release_extents, holding. cbn [rcount held]. unfold len. rewrite Nat2Z.id.
  rewrite (release_claims _ _ _ Hc). cbn. now rewrite replicate_add.
Qed.
Lemma claim_loop_exact r0 todo : forall l r free, claims r0 l r -> (length todo <= free)%nat ->
  exists ret res' r', claim_loop (length l) todo (holding l free) r = Some (ret, res', r') /\
    (ret = 0 -> claims r0 (l ++ (region <$> todo)) r' /\ res' = holding (l ++ (region <$> todo)) (free - length todo)) /\
    (ret <> 0 -> ret = - EBUSY /\ r' = r0 /\ res' = holding [] (length l + free)).
Proof.
  induction todo as [|s todo IH]; intros l r free Hc Hf; cbn [claim_loop].
  - exists 0, (holding l free), r. split; [reflexivity|]. cbn. rewrite app_nil_r, Nat.sub_0_r. split; [auto|contradiction].
  - cbn [length] in Hf. assert (Hins : forall v, <[length l := v]> (held (holding l free)) = (Some <$> l) ++ v :: replicate (free - 1) None).
    { intros v. unfold holding. cbn [held]. rewrite insert_app_r_alt, length_fmap, Nat.sub_diag by (rewrite length_fmap; lia).
      destruct free as [|free]; [lia|]. cbn. now rewrite Nat.sub_0_r. }
    destruct (request_mem_region r (ebase s) (ebytes s)) as [r1|] eqn:E.
    + destruct (IH (l ++ [region s]) r1 (free - 1)%nat) as (ret & res' & r' & E1 & H1 & H2).
      { econstructor; [exact Hc|exact E]. } { lia. }
      exists ret, res', r'. rewrite Hins. cbn [rcount holding]. split.
      { rewrite <- E1. rewrite length_app, Nat.add_1_r. unfold holding. rewrite fmap_app, <- app_assoc, len_app.
        change (len [region s]) with 1. reflexivity. }
      split.
      * intros Hr. destruct (H1 Hr) as [C ->]. rewrite <- app_assoc in *. cbn [app fmap list_fmap] in *. split; [exact C|].
        f_equal. cbn [length]. lia.
      * intros Hr. destruct (H2 Hr) as (-> & -> & ->). rewrite length_app. cbn [length]. repeat split. f_equal. lia.
    + rewrite Hins. replace ((Some <$> l) ++ None :: replicate (free - 1) None) with (held (holding l free)).
      * change (Reservation (held (holding l free)) (rcount (holding l free))) with (holding l free).
        rewrite (release_holding r0 l r free Hc). eexists _, _, _. split; [reflexivity|]. split; [intros [=]|auto].
      * unfold holding. cbn [held]. f_equal. destruct free as [|free]; [lia|]. cbn. now rewrite Nat.sub_0_r.
Qed.
End Reserve.

(** ** The plan *)

(** A span is page aligned and inside the protected range of its bank. *)
Definition extent_ok (e : tetris_smem_boot_evidence) (s : tetris_smem_extent) : Prop :=
  0 < ebytes s /\ 0 < ebase s /\ (4096 | ebase s) /\ (4096 | ebytes s) /\
  exists rec, record e !! Z.to_nat (ebank s) = Some rec /\ bank rec = ebank s /\ slot rec = 42 + ebank s /\
    range_start rec <= ebase s /\ ebase s + ebytes s <= range_start rec + range_size rec.
Definition extents_apart (a b : tetris_smem_extent) : Prop := ebase a + ebytes a <= ebase b \/ ebase b + ebytes b <= ebase a.
Definition extent_u (s : tetris_smem_extent) : Prop := is_u64 (ebase s) /\ is_u32 (ebytes s) /\ is_u32 (ebank s).
Definition record_u64 (r : tetris_smem_boot_record) : Prop := is_u64 (range_start r) /\ is_u64 (range_size r).

Lemma extent_check_sound e done s : Forall record_u64 (record e) -> extent_u s -> Forall extent_u done ->
  Forall (fun p => ebase p + ebytes p <= UINT64_MAX) done ->
  extent_check e done s = 0 -> extent_ok e s /\ ebase s + ebytes s <= UINT64_MAX /\ Forall (fun p => extents_apart p s) done.
Proof.
  intros Hr (U1 & U2 & U3) Hd Hb H. unfold extent_check in H. unfold is_u64, is_u32 in *.
  destruct (_ || _ || _ || _ || _) eqn:G1 in H; [discriminate|].
  destruct (record e !! Z.to_nat (ebank s)) as [rec|] eqn:Er; [|discriminate].
  assert (R : record_u64 rec) by (rewrite Forall_lookup in Hr; eauto). destruct R as [R1 R2]. unfold is_u64 in *.
  destruct (_ || _ || _ || _ || _) eqn:G2 in H; [discriminate|]. assert (range_start rec <= ebase s) by lia.
  rewrite (u64_id (ebase s - range_start rec)) in G2 by (unfold is_u64; lia).
  rewrite (u64_id (range_size rec - (ebase s - range_start rec))) in G2 by (unfold is_u64; lia).
  destruct (existsb _ done) eqn:G3 in H; [discriminate|].
  assert (Ha : Z.land (Z.lor (ebase s) (ebytes s)) 4095 = 0) by (change (PAGE_SIZE - 1) with 4095 in G1; lia). apply aligned_or in Ha as [A1 A2].
  split; [|split; [lia|]].
  - unfold extent_ok. split; [lia|]. split; [lia|]. split; [exact A1|]. split; [exact A2|]. exists rec. repeat split; try assumption; lia.
  - rewrite Forall_forall in *. intros p Hp. destruct (Hd p Hp) as (P1 & P2 & _). specialize (Hb p Hp). cbn in Hb. unfold is_u64, is_u32 in *.
    assert (Hx : (ebase s <? u64 (ebase p + ebytes p)) && (ebase p <? u64 (ebase s + ebytes s)) = false).
    { destruct (_ && _) eqn:E; [|reflexivity]. rewrite <- G3. symmetry. apply existsb_exists. exists p. split; [now apply list_elem_of_In|exact E]. }
    rewrite !u64_id in Hx by (unfold is_u64; lia). unfold extents_apart. lia.
Qed.
Lemma check_loop_sound e todo : forall done, Forall record_u64 (record e) -> Forall extent_u (done ++ todo) ->
  Forall (fun p => ebase p + ebytes p <= UINT64_MAX) done -> ForallOrdPairs extents_apart done -> Forall (extent_ok e) done ->
  check_loop e done todo = 0 -> Forall (extent_ok e) (done ++ todo) /\ ForallOrdPairs extents_apart (done ++ todo).
Proof.
  induction todo as [|s todo IH]; intros done Hr Hu Hb Hp Ho H; cbn [check_loop] in H; [now rewrite app_nil_r|].
  cbv zeta in H. destruct (Z.eqb_spec (extent_check e done s) 0) as [E|E]; [|cbn [negb] in H; contradiction]. cbn [negb] in H.
  rewrite Forall_app, Forall_cons in Hu. destruct Hu as (Hu1 & Hu2 & Hu3).
  apply extent_check_sound in E as (X1 & X2 & X3); [|assumption..]. replace (done ++ s :: todo) with ((done ++ [s]) ++ todo) by now rewrite <- app_assoc.
  apply IH; try assumption.
  - rewrite <- app_assoc. apply Forall_app. split; [assumption|]. now constructor.
  - apply Forall_app. split; [assumption|now apply Forall_singleton].
  - now apply ordpairs_snoc.
  - apply Forall_app. split; [assumption|now apply Forall_singleton].
Qed.

(** Reserving the planned spans is all or nothing. The call never touches
    a null resource. Any failure, a refused region included, leaves the
    registry and the reservation as they were. On success every span is page
    aligned, inside the range the boot evidence reports as protected for its
    bank, and disjoint from the others; the reservation holds exactly the
    planned regions in order, and releasing it restores the registry. *)
Theorem reserve_all_or_nothing {R} `{Iomem R} plan e res (r : R) :
  pcount plan = len (pspan plan) -> length (held res) = 23%nat ->
  Forall record_u64 (record e) -> Forall extent_u (pspan plan) ->
  exists ret res' r', tetris_smem_reserve_extents (Some plan) (Some e) (Some res) r = Some (ret, Some res', r') /\
    (ret <> 0 -> res' = res /\ r' = r) /\
    (ret = 0 -> Forall (extent_ok e) (pspan plan) /\ ForallOrdPairs extents_apart (pspan plan) /\
       res' = holding (region <$> pspan plan) (23 - length (pspan plan)) /\
       tetris_smem_release_extents res' r' = Some (holding [] 23, r)).
Proof.
  intros Hp Hh Hr Hu. unfold tetris_smem_reserve_extents. cbv zeta.
  set (good := fun res' r' => Forall (extent_ok e) (pspan plan) /\ ForallOrdPairs extents_apart (pspan plan) /\
       res' = holding (region <$> pspan plan) (23 - length (pspan plan)) /\
       tetris_smem_release_extents res' r' = Some (holding [] 23, r)).
  assert (Hfail : forall x, x <> 0 -> exists ret res' r', Some (x, Some res, r) = Some (ret, Some res', r') /\
    (ret <> 0 -> res' = res /\ r' = r) /\ (ret = 0 -> good res' r'))
    by (intros x Hx; exists x, res, r; split; [reflexivity|]; split; [auto|contradiction]).
  destruct ((pcount plan =? 0) || (TETRIS_SMEM_SPANS_MAX <? pcount plan)) eqn:G1; [apply Hfail; lia|].
  destruct (Z.eqb_spec (rcount res) 0) as [Hc|]; cbn [negb]; [|apply Hfail; lia].
  destruct (_ || _ || _) eqn:G2; [apply Hfail; lia|]. clear G2.
  destruct (existsb _ (held res)) eqn:G3; [apply Hfail; lia|].
  destruct (Z.eqb_spec (check_loop e [] (pspan plan)) 0) as [Hk|Hk]; cbn [negb]; [|apply Hfail; exact Hk].
  apply check_loop_sound in Hk as [K1 K2]; [|assumption|exact Hu|constructor..]. unfold TETRIS_SMEM_SPANS_MAX in G1.
  assert (Hres : res = holding [] 23).
  { destruct res as [h c]. cbn [held rcount] in *. subst c. change (holding [] 23) with (Reservation (replicate 23 None) 0).
    f_equal. rewrite <- Hh. clear - G3. induction h as [|[x|] h IH]; cbn in *; [reflexivity|discriminate|].
    f_equal. auto. }
  subst res. assert (Hfit : (length (pspan plan) <= 23)%nat) by (unfold len in Hp; lia).
  destruct (claim_loop_exact r (pspan plan) [] r 23 (claims_nil r) Hfit) as (ret & res' & r' & E & H1 & H2).
  cbn [length] in E. rewrite E. exists ret, res', r'. split; [reflexivity|]. split; [intros Hne; destruct (H2 Hne) as (_ & -> & ->); auto|].
  intros H0. destruct (H1 H0) as [C ->]. cbn [app] in C. unfold good. cbn [app]. split; [exact K1|]. split; [exact K2|]. split; [reflexivity|].
  rewrite (release_holding r _ _ _ C), length_fmap. repeat f_equal. lia.
Qed.

(** A registry of busy ranges. *)
#[export] Program Instance busy_ranges : Iomem (list (Z * Z)) := {
  request_mem_region busy start size :=
    if existsb (fun p => (start <? p.1 + p.2) && (p.1 <? start + size)) busy then None else Some ((start, size) :: busy);
  release_mem_region busy start size := match busy with p :: busy => if bool_decide (p = (start, size)) then busy else p :: busy | [] => [] end
}.
Next Obligation. intros r r' start size. cbn. destruct (existsb _ r); intros [= <-]. now rewrite bool_decide_true. Qed.

Definition witness_plan : tetris_smem_extent_plan := ExtentPlan 2 [Extent 0xa0000000 0x10000 0; Extent 0xa8000000 0x200000 1].
Lemma reserve_all_or_nothing_witness :
  exists res' r', tetris_smem_reserve_extents (Some witness_plan) (Some witness_evidence) (Some (holding [] 23)) [(0x1000, 0x1000)]
    = Some (0, Some res', r') /\ tetris_smem_release_extents res' r' = Some (holding [] 23, [(0x1000, 0x1000)]).
Proof.
  destruct (reserve_all_or_nothing witness_plan witness_evidence (holding [] 23) [(0x1000, 0x1000)]) as (ret & res' & r' & E & _ & H).
  - reflexivity.
  - reflexivity.
  - repeat constructor; cbn; lia.
  - repeat constructor; cbn; lia.
  - assert (ret = 0) as -> by (vm_compute in E; congruence). exists res', r'. split; [exact E|]. apply (H eq_refl).
Defined.

(** ** The preview *)

(** The physical span of a mapping that was not made yet. *)
Definition planned (banks : tetris_metadata_banks) (s : tetris_smem_span) (x : tetris_smem_extent) : Prop :=
  let bank := if ebank x =? 0 then bank_nc banks else bank_cache banks in
  svirtual s = 0 /\ 0 < ebytes x /\ ebytes x = ssize s /\ ebank x = sbank s /\ 0 <= ebank x <= 1 /\
  ebase x = wbase bank + soffset s /\ ebase x + ebytes x <= wbase bank + wcapacity bank /\ wbase bank + wcapacity bank <= UINT64_MAX.
Definition span_u32 (s : tetris_smem_span) : Prop := is_u32 (sbank s) /\ is_u32 (soffset s) /\ is_u32 (ssize s).

Lemma preview_span_exact banks s x : banks_u64 banks -> span_u32 s -> preview_span banks s = inr x <-> planned banks s x.
Proof.
  intros Hb (U1 & U2 & U3). unfold banks_u64 in Hb. rewrite !Forall_cons in Hb. destruct Hb as (_ & [N1 N2] & [C1 C2] & _).
  unfold preview_span, window_of, planned. cbv zeta. unfold is_u32, is_u64 in *. destruct x as [xb xn xk]. cbn [ebase ebytes ebank].
  assert (Hcase : forall w, 0 <= wbase w < 18446744073709551616 -> 0 <= wcapacity w < 18446744073709551616 ->
    (if (1 <? sbank s) || (ssize s =? 0) || negb (svirtual s =? 0) || (wcapacity w <=? soffset s)
        || (u64 (wcapacity w - soffset s) <? ssize s) || (UINT64_MAX - wcapacity w <? wbase w)
     then inl (- ERANGE) else inr (Extent (u64 (wbase w + soffset s)) (ssize s) (sbank s))) = inr (Extent xb xn xk) <->
    svirtual s = 0 /\ 0 < xn /\ xn = ssize s /\ xk = sbank s /\ 0 <= xk <= 1 /\ xb = wbase w + soffset s /\
    xb + xn <= wbase w + wcapacity w /\ wbase w + wcapacity w <= UINT64_MAX).
  { intros w W1 W2. destruct (Z.le_gt_cases (wcapacity w) (soffset s)) as [Hle|Hgt].
    - replace (_ || _ || _ || _ || _ || _) with true by lia. split; [discriminate|lia].
    - rewrite (u64_id (wcapacity w - soffset s)) by (unfold is_u64; lia).
      destruct (_ || _ || _ || _ || _ || _) eqn:G; [split; [discriminate|lia]|].
      rewrite u64_id by (unfold is_u64; lia). split; [intros [= <- <- <-]; lia|].
      intros (_ & _ & -> & -> & _ & -> & _). reflexivity. }
  destruct (Z.eqb_spec (sbank s) 0) as [E|E]; cbn [negb].
  - rewrite (Hcase _ N1 N2). destruct (Z.eqb_spec xk 0); [reflexivity|]. split; lia.
  - rewrite (Hcase _ C1 C2). destruct (Z.eqb_spec xk 0); [split; lia|reflexivity].
Qed.
Lemma preview_loop_exact banks l : banks_u64 banks -> Forall span_u32 l ->
  forall xs, preview_loop banks l = inr xs <-> Forall2 (planned banks) l xs.
Proof.
  intros Hb. induction 1 as [|s l Hs Hl IH]; intros xs; cbn [preview_loop].
  - split; [intros [= <-]; constructor|]. now inversion 1.
  - pose proof (fun x => preview_span_exact banks s x Hb Hs) as P. destruct (preview_span banks s) as [e|x].
    + split; [discriminate|]. inversion 1 as [|? x' ? ? Hx]; subst. apply P in Hx. discriminate.
    + assert (Hx : planned banks s x) by now apply P. destruct (preview_loop banks l) as [e|ys].
      * split; [discriminate|]. inversion 1 as [|? ? ? ? ? Hr]; subst. apply IH in Hr. discriminate.
      * split; [intros [= <-]; constructor; [exact Hx|now apply IH]|].
        inversion 1 as [|? x' ? ys' Hx' Hr]; subst. apply P in Hx'. apply IH in Hr. congruence.
Qed.
Lemma preview_loop_error banks l e : preview_loop banks l = inl e -> e = - ERANGE.
Proof.
  revert e. induction l as [|s l IH]; intros e; cbn [preview_loop]; [discriminate|]. unfold preview_span. cbv zeta.
  destruct (_ || _ || _ || _ || _ || _); [now intros [= <-]|]. destruct (preview_loop banks l); [|discriminate]. intros [= <-]. auto.
Qed.

(** The preview copies exactly the planned mappings. From a validated
    owner with one to 23 spans, none of them mapped yet, it reports for each
    span the physical range at its offset in its bank, which lies inside the
    bank and does not wrap, and it succeeds exactly when every span has such a
    range. On any error the caller's plan is unchanged. *)
Theorem extent_preview_exact sizeof_owner owner output :
  0 <= sizeof_owner <= UINT64_MAX -> is_u64 (addr owner) -> is_u64 (addr output) ->
  banks_u64 (owner_banks (pointee owner)) -> Forall span_u32 (spans (pointee owner)) ->
  is_u32 (span_count (pointee owner)) ->
  let r := tetris_smem_extent_preview sizeof_owner owner output in
  (r.1 <> 0 -> r.2 = pointee output) /\
  forall plan, r = (0, plan) <->
    null owner = false /\ null output = false /\ addr output + sizeof_plan <= UINT64_MAX /\ addr owner + sizeof_owner <= UINT64_MAX /\
    (addr output + sizeof_plan <= addr owner \/ addr owner + sizeof_owner <= addr output) /\
    state (pointee owner) = TETRIS_SMEM_VALIDATED /\ 1 <= span_count (pointee owner) <= 23 /\
    pcount plan = span_count (pointee owner) /\ Forall2 (planned (owner_banks (pointee owner))) (spans (pointee owner)) (pspan plan).
Proof.
  intros Hso Ho Hout Hb Hs Hc r. unfold r, tetris_smem_extent_preview. cbv zeta. unfold is_u64, is_u32 in Ho, Hout, Hc.
  set (o := pointee owner) in *. pose proof (preview_loop_exact (owner_banks o) (spans o) Hb Hs) as Hloop.
  assert (Hfail : forall x (P : tetris_smem_extent_plan -> Prop), x <> 0 -> (forall plan, ~ P plan) ->
    ((x, pointee output).1 <> 0 -> (x, pointee output).2 = pointee output) /\ forall plan, (x, pointee output) = (0, plan) <-> P plan)
    by (intros x P Hx HP; split; [reflexivity|]; intros plan; split; [intros [= -> _]; contradiction|intros HPp; now apply HP in HPp]).
  unfold sizeof_plan, TETRIS_SMEM_SPANS_MAX in *.
  destruct (null owner) eqn:N1; cbn [orb]; [apply Hfail; [lia|intros plan (X & _); discriminate]|].
  destruct (null output) eqn:N2; cbn [orb]; [apply Hfail; [lia|intros plan (_ & X & _); discriminate]|].
  destruct (Z.ltb_spec (UINT64_MAX - 376) (addr output)); cbn [orb]; [apply Hfail; [lia|intros plan X; lia]|].
  destruct (Z.ltb_spec (UINT64_MAX - sizeof_owner) (addr owner)); cbn [orb]; [apply Hfail; [lia|intros plan X; lia]|].
  rewrite !u64_id by (unfold is_u64; lia).
  destruct ((addr output <? addr owner + sizeof_owner) && (addr owner <? addr output + 376)) eqn:G; [apply Hfail; [lia|intros plan X; lia]|].
  destruct (bool_decide_reflect (state o = TETRIS_SMEM_VALIDATED)) as [Est|Est]; cbn [negb];
    [|apply Hfail; [destruct (Z.eqb_spec (owner_error o) 0); cbn; lia|intros plan X; tauto]].
  destruct ((span_count o =? 0) || (23 <? span_count o)) eqn:G2; [apply Hfail; [lia|intros plan X; lia]|].
  destruct (preview_loop (owner_banks o) (spans o)) as [e|xs] eqn:E.
  - apply Hfail; [apply preview_loop_error in E; lia|]. intros plan (_ & _ & _ & _ & _ & _ & _ & _ & X). apply Hloop in X. discriminate.
  - split; [intros []; reflexivity|]. intros plan. split.
    + intros [= <-]. cbn [pcount pspan]. repeat split; try assumption; try lia. now apply Hloop.
    + intros (_ & _ & _ & _ & _ & _ & _ & P1 & P2). apply Hloop in P2. injection P2 as ->. rewrite <- P1. now destruct plan.
Qed.
Lemma extent_preview_exact_witness :
  tetris_smem_extent_preview 0x800 (Ptr 0x1000 (with_spans [SmemSpan 1 0x2000 0x1000 0] (zero_owner witness_banks)))
    (Ptr 0x9000 zero_extents) = (0, ExtentPlan 1 [Extent 0xa8002000 0x1000 1]).
Proof.
  apply (extent_preview_exact 0x800 (Ptr 0x1000 (with_spans [SmemSpan 1 0x2000 0x1000 0] (zero_owner witness_banks)))
    (Ptr 0x9000 zero_extents)); try (unfold is_u64, is_u32; cbn; lia).
  - repeat constructor; cbn; lia.
  - repeat constructor; cbn; lia.
  - split; [discriminate|reflexivity].
  - change (span_count _) with 1. unfold sizeof_plan. cbn. split_and!; try reflexivity; try lia. constructor; [|constructor]. unfold planned. cbn. lia.
Defined.
