(* ===== verification/CcdCq.v ===== *)
(** * Camera command queue: [camera-ccd-cq/mt6878-camera-ccd-cq.h]

    The builder of the capture hardware's command queue: 12-byte descriptors
    grow from the start of the buffer, the register values they refer to from
    its end. The hardware's reading of a finished queue ([execute]) follows the
    documented format, and the theorem is that it performs exactly the register
    writes that were requested. *)

From S2P Require Import Prelude.

Abbreviation MT6878_CQ_REG_BASE := 0x1a000000 (only parsing).
Abbreviation MT6878_CQ_REG_SIZE := 0x200000 (only parsing).
Abbreviation MT6878_CQ_DESC_BYTES := 12 (only parsing).
Abbreviation MT6878_CQ_MAX_WORDS := 511 (only parsing).
Abbreviation MT6878_CQ_END := 0x06000000 (only parsing).

Record mt6878_ccd_cq : Type := Cq {
  buffer : ptr (list Z);
  iova : Z;
  capacity : Z;
  head : Z;
  tail : Z;
  reg_base : Z;
  reg_size : Z;
  finished : Z;
  first_error : Z
}.

Definition mt6878_cq_put32 (buf : list Z) (p v : Z) : list Z := write_at buf p (put32 v).
Definition mt6878_cq_put64 (buf : list Z) (p v : Z) : list Z :=
  mt6878_cq_put32 (mt6878_cq_put32 buf p (u32 v)) (p + 4) (u32 (Z.shiftr v 32)).
Definition mt6878_cq_fail (cq : mt6878_ccd_cq) (error : Z) : Z * mt6878_ccd_cq :=
  let e := if first_error cq =? 0 then error else first_error cq in
  (e, Cq (buffer cq) (iova cq) (capacity cq) (head cq) (tail cq) (reg_base cq) (reg_size cq) (finished cq) e).

Definition mt6878_ccd_cq_init (cq : option mt6878_ccd_cq) (buffer : ptr (list Z)) (capacity iova reg_base reg_size : Z)
    : Z * option mt6878_ccd_cq :=
  match cq with
  | None => (- EINVAL, None)
  | Some cq0 =>
    if null buffer || (capacity <? 28) || negb (Z.land capacity 3 =? 0) || negb (Z.land iova 15 =? 0) || (Z.shiftl 1 34 <=? iova)
       || (u64 (Z.shiftl 1 34 - iova) <? capacity) || (reg_base <? MT6878_CQ_REG_BASE) || negb (Z.land reg_base 3 =? 0)
       || (reg_size =? 0) || negb (Z.land reg_size 3 =? 0) || (MT6878_CQ_REG_SIZE <? reg_size)
       || (u32 (MT6878_CQ_REG_SIZE - reg_size) <? u32 (reg_base - MT6878_CQ_REG_BASE))
    then (- EINVAL, Some cq0)
    else (0, Some (Cq buffer iova capacity 0 capacity reg_base reg_size 0 0))
  end.

(** The copy loop of the values. *)
Fixpoint put_words (buf : list Z) (offset : Z) (values : list Z) : list Z :=
  match values with
  | [] => buf
  | v :: values => put_words (mt6878_cq_put32 buf offset v) (offset + 4) values
  end.

Definition command_word (reg n : Z) : Z :=
  Z.lor (Z.lor (Z.land reg 0xffff) (u32 (Z.shiftl (Z.land (Z.shiftr reg 16) 31) 27))) (u32 (Z.shiftl (u32 (n - 1)) 16)).
(** The descriptor loop: buffer and head afterwards; [None] when it does not end within [fuel]. *)
Fixpoint desc_loop (fuel : nat) (buf : list Z) (head reg value_iova left : Z) : option (list Z * Z) :=
  if left =? 0 then Some (buf, head)
  else
  match fuel with
  | O => None
  | S fuel =>
    let n := if MT6878_CQ_MAX_WORDS <? left then MT6878_CQ_MAX_WORDS else left in
    let buf := mt6878_cq_put32 buf head (command_word reg n) in
    let buf := mt6878_cq_put64 buf (head + 4) value_iova in
    desc_loop fuel buf (u32 (head + MT6878_CQ_DESC_BYTES)) (u32 (reg + u32 (n * 4))) (u64 (value_iova + u32 (n * 4))) (u32 (left - n))
  end.

Definition mt6878_ccd_cq_values (ocq : option mt6878_ccd_cq) (reg : Z) (values : ptr (list Z)) (count : Z)
    : option (Z * option mt6878_ccd_cq) :=
  match ocq with
  | None => Some (- EINVAL, None)
  | Some cq =>
    let fail e := let r := mt6878_cq_fail cq e in Some (r.1, Some r.2) in
    if null (buffer cq) then Some (- EINVAL, Some cq)
    else if negb (first_error cq =? 0) then Some (first_error cq, Some cq)
    else if negb (finished cq =? 0) then Some (- EALREADY, Some cq)
    else if null values || (count =? 0) || negb (Z.land reg 3 =? 0) || (reg <? reg_base cq) || (reg_size cq <=? u32 (reg - reg_base cq))
            || (u32 (reg_size cq - u32 (reg - reg_base cq)) / 4 <? count)
    then fail (- ERANGE)
    else
    let bytes := u32 (count * 4) in
    let descriptors := u32 (count + MT6878_CQ_MAX_WORDS - 1) / MT6878_CQ_MAX_WORDS in
    if (tail cq <? head cq) || (u32 (tail cq - head cq) <? bytes)
       || (u32 (u32 (tail cq - head cq) - bytes) <? u32 (descriptors * MT6878_CQ_DESC_BYTES + MT6878_CQ_DESC_BYTES))
       || (65535 <? u32 (head cq + descriptors * MT6878_CQ_DESC_BYTES + MT6878_CQ_DESC_BYTES))
    then fail (- ENOSPC)
    else
    let src := addr values in
    let dst := addr (buffer cq) in
    if ((dst <=? src) && (src - dst <? capacity cq)) || ((src <? dst) && (dst - src <? bytes)) then fail (- EINVAL)
    else
    let offset := u32 (tail cq - bytes) in
    let buf := put_words (pointee (buffer cq)) offset (firstn (Z.to_nat count) (pointee values)) in
    match desc_loop (Z.to_nat count) buf (head cq) reg (u64 (iova cq + offset)) count with
    | None => None
    | Some (buf, head') =>
      Some (0, Some (Cq (Ptr (addr (buffer cq)) buf) (iova cq) (capacity cq) head' offset (reg_base cq) (reg_size cq) (finished cq)
                       (first_error cq)))
    end
  end.

(** The tag loop of the frame cookie; [cookie] is the local variable's address and value. *)
Fixpoint cookie_loop (tags : list Z) (cq : mt6878_ccd_cq) (reg : Z) (cookie : ptr (list Z)) : option (Z * option mt6878_ccd_cq) :=
  match tags with
  | [] => Some (0, Some cq)
  | tag :: tags =>
    match mt6878_ccd_cq_values (Some cq) (u32 (reg + tag * 0x40)) cookie 1 with
    | None => None
    | Some (ret, ocq) =>
      match ocq with
      | None => Some (ret, None)
      | Some cq => if negb (ret =? 0) then Some (ret, Some cq) else cookie_loop tags cq reg cookie
      end
    end
  end.
Definition mt6878_ccd_cq_frame_cookie (ocq : option mt6878_ccd_cq) (central_base session cookie cookie_addr : Z)
    : option (Z * option mt6878_ccd_cq) :=
  match ocq with
  | None => Some (- EINVAL, None)
  | Some cq =>
    let fail e := let r := mt6878_cq_fail cq e in Some (r.1, Some r.2) in
    if null (buffer cq) then Some (- EINVAL, Some cq)
    else if negb (first_error cq =? 0) then Some (first_error cq, Some cq)
    else if negb (finished cq =? 0) then Some (- EALREADY, Some cq)
    else if (3 <? session) || negb (Z.shiftr cookie 24 =? session) || (central_base <? reg_base cq) || negb (Z.land central_base 3 =? 0)
            || (reg_size cq <=? u32 (central_base - reg_base cq)) || (u32 (reg_size cq - u32 (central_base - reg_base cq)) <? 0x740)
    then fail (- ERANGE)
    else
    let reg := u32 (central_base + 0x57c) in
    let last := u32 (reg + 7 * 0x40) in
    if (last <? reg) || (tail cq <? head cq)
       || (u32 (tail cq - head cq) <? 8 * (MT6878_CQ_DESC_BYTES + 4) + MT6878_CQ_DESC_BYTES)
       || (65535 <? u32 (head cq + 9 * MT6878_CQ_DESC_BYTES))
    then fail (- ENOSPC)
    else cookie_loop [0; 1; 2; 3; 4; 5; 6; 7] cq reg (Ptr cookie_addr [cookie])
  end.

(** Status, queue, [*descriptor_bytes] and [*values_start]. *)
Definition mt6878_ccd_cq_finish (ocq : option mt6878_ccd_cq) (descriptor_bytes values_start : option Z)
    : Z * option mt6878_ccd_cq * option Z * option Z :=
  match ocq, descriptor_bytes, values_start with
  | Some cq, Some d, Some v =>
    if null (buffer cq) then (- EINVAL, Some cq, Some d, Some v)
    else if negb (first_error cq =? 0) then (first_error cq, Some cq, Some d, Some v)
    else if negb (finished cq =? 0) then (- EALREADY, Some cq, Some d, Some v)
    else if (head cq =? 0) || (tail cq <? head cq) || (u32 (tail cq - head cq) <? MT6878_CQ_DESC_BYTES)
    then let r := mt6878_cq_fail cq (- ENOSPC) in (r.1, Some r.2, Some d, Some v)
    else
    let buf := mt6878_cq_put64 (mt6878_cq_put32 (pointee (buffer cq)) (head cq) MT6878_CQ_END) (head cq + 4) 0 in
    let head' := u32 (head cq + MT6878_CQ_DESC_BYTES) in
    (0, Some (Cq (Ptr (addr (buffer cq)) buf) (iova cq) (capacity cq) head' (tail cq) (reg_base cq) (reg_size cq) 1 (first_error cq)),
     Some head', Some (tail cq))
  | ocq, d, v => (- EINVAL, ocq, d, v)
  end.

(** ** The hardware's reading of a queue *)

(** The register write of one value. *)
Abbreviation write := (Z * Z)%type (only parsing).
Definition desc_reg (cmd : Z) : Z := Z.lor MT6878_CQ_REG_BASE (Z.lor (Z.shiftl (Z.shiftr cmd 27) 16) (Z.land cmd 0xffff)).
Definition desc_words (cmd : Z) : Z := Z.land (Z.shiftr cmd 16) 511 + 1.
(** [n] consecutive registers from [reg], values at [off]. *)
Fixpoint burst (buf : list Z) (reg off : Z) (n : nat) : list write :=
  match n with O => [] | S n => (reg, le32 buf off) :: burst buf (reg + 4) (off + 4) n end.
(** The writes of one descriptor, whose values must lie in [lo, len buf). *)
Definition run_desc (buf : list Z) (base lo d : Z) : option (list write) :=
  let cmd := le32 buf d in
  let off := le64 buf (d + 4) - base in
  if negb (cmd =? MT6878_CQ_END) && (lo <=? off) && (off + 4 * desc_words cmd <=? len buf)
  then Some (burst buf (desc_reg cmd) off (Z.to_nat (desc_words cmd))) else None.
(** The writes of [n] descriptors from [d]. *)
Fixpoint segment (n : nat) (buf : list Z) (base lo d : Z) : option (list write) :=
  match n with
  | O => Some []
  | S n =>
    match run_desc buf base lo d with
    | None => None
    | Some ws => match segment n buf base lo (d + 12) with None => None | Some rest => Some (ws ++ rest) end
    end
  end.
(** A queue of [bytes] descriptor bytes ends with END and executes the descriptors before it. *)
Definition execute (buf : list Z) (base bytes lo : Z) : option (list write) :=
  if (bytes mod 12 =? 0) && (12 <=? bytes) && (le32 buf (bytes - 12) =? MT6878_CQ_END)
  then segment (Z.to_nat (bytes / 12 - 1)) buf base lo 0 else None.
(** The writes a caller asks for. *)
Fixpoint requested (reg : Z) (values : list Z) : list write :=
  match values with [] => [] | v :: values => (reg, v) :: requested (reg + 4) values end.

(** ** Reading back *)

Definition agree (a b : list Z) (lo hi : Z) : Prop := forall i, lo <= i < hi -> byte_at a i = byte_at b i.
Lemma le32_agree a b i : agree a b i (i + 4) -> le32 a i = le32 b i.
Proof. intros H. unfold le32. rewrite !H by lia. reflexivity. Qed.
Lemma le64_agree a b i : agree a b i (i + 8) -> le64 a i = le64 b i.
Proof. intros H. unfold le64. rewrite (le32_agree a b i), (le32_agree a b (i + 4)); [reflexivity|intros j Hj; apply H; lia..]. Qed.
Lemma le32_put32 v : le32 (put32 v) 0 = u32 v.
Proof. rewrite le32_le_of by apply bytes_ok_put32. change [_; _; _; _] with (put32 v). rewrite put32_le_to, le_of_le_to. reflexivity. Qed.
Lemma le32_written buf p v : 0 <= p -> p + 4 <= len buf -> le32 (mt6878_cq_put32 buf p v) p = u32 v.
Proof.
  intros Hp Hl. rewrite <- le32_put32. unfold le32, mt6878_cq_put32.
  rewrite !byte_at_write_in by (rewrite ?len_put32; lia). repeat (f_equal; try lia).
Qed.
Lemma put32_other buf p v lo hi : 0 <= p -> p + 4 <= len buf -> 0 <= lo -> hi <= p \/ p + 4 <= lo -> agree (mt6878_cq_put32 buf p v) buf lo hi.
Proof. intros Hp Hl H0 Ho i Hi. apply byte_at_write_out; rewrite ?len_put32; lia. Qed.
Lemma len_put buf p v : 0 <= p -> p + 4 <= len buf -> len (mt6878_cq_put32 buf p v) = len buf.
Proof. intros. apply len_write_at; rewrite ?len_put32; lia. Qed.

Section Builder.
Context (base : Z).

Lemma burst_agree a b reg off n : agree a b off (off + 4 * Z.of_nat n) -> burst a reg off n = burst b reg off n.
Proof.
  revert reg off. induction n as [|n IH]; intros reg off H; [reflexivity|]. cbn [burst].
  rewrite (le32_agree a b off) by (intros i Hi; apply H; lia). f_equal. apply IH. intros i Hi. apply H. lia.
Qed.
Lemma run_desc_agree a b lo d : len a = len b -> agree a b d (d + 12) -> agree a b lo (len b) ->
  run_desc a base lo d = run_desc b base lo d.
Proof.
  intros Hl Hd Hv. unfold run_desc. rewrite (le32_agree a b d), (le64_agree a b (d + 4)), Hl by (intros i Hi; apply Hd; lia).
  destruct (_ && _ && _) eqn:G; [|reflexivity]. f_equal. apply burst_agree. intros i Hi. apply Hv.
  assert (0 <= desc_words (le32 b d)) by (unfold desc_words; pose proof (Z.land_nonneg (Z.shiftr (le32 b d) 16) 511); lia). lia.
Qed.
(** Only the descriptors and the values they may refer to matter. *)
Lemma segment_agree a b lo n : len a = len b -> agree a b lo (len b) ->
  forall d, agree a b d (d + 12 * Z.of_nat n) -> segment n a base lo d = segment n b base lo d.
Proof.
  intros Hl Hv. induction n as [|n IH]; intros d Hd; [reflexivity|]. cbn [segment].
  rewrite (run_desc_agree a b lo d Hl) by (assumption || (intros i Hi; apply Hd; lia)).
  rewrite IH by (intros i Hi; apply Hd; lia). reflexivity.
Qed.
Lemma run_desc_lower buf lo lo' d ws : lo' <= lo -> run_desc buf base lo d = Some ws -> run_desc buf base lo' d = Some ws.
Proof.
  intros Hlo. unfold run_desc. destruct (_ && _ && _) eqn:G; [|discriminate]. intros [= <-].
  replace (_ && _ && _) with true; [reflexivity|]. symmetry. rewrite !andb_true_iff in *. repeat split; try tauto. lia.
Qed.
Lemma segment_lower buf lo lo' n : lo' <= lo -> forall d ws, segment n buf base lo d = Some ws -> segment n buf base lo' d = Some ws.
Proof.
  intros Hlo. induction n as [|n IH]; intros d ws; cbn [segment]; [auto|].
  destruct (run_desc buf base lo d) as [w|] eqn:E; [|discriminate]. rewrite (run_desc_lower _ _ _ _ _ Hlo E).
  destruct (segment n buf base lo (d + 12)) as [r|] eqn:E2; [|discriminate]. now rewrite (IH _ _ E2).
Qed.
Lemma segment_app buf lo n m : forall d ws ws', segment n buf base lo d = Some ws ->
  segment m buf base lo (d + 12 * Z.of_nat n) = Some ws' -> segment (n + m) buf base lo d = Some (ws ++ ws').
Proof.
  induction n as [|n IH]; intros d ws ws' H1 H2; cbn [segment Nat.add] in *.
  - injection H1 as <-. now replace (d + 12 * Z.of_nat 0) with d in H2 by lia.
  - destruct (run_desc buf base lo d) as [w|]; [|discriminate]. destruct (segment n buf base lo (d + 12)) as [r|] eqn:E; [|discriminate].
    injection H1 as <-. rewrite (IH _ _ ws' E); [now rewrite app_assoc|]. rewrite <- H2. f_equal. lia.
Qed.

(** ** Commands *)

Lemma command_decode reg n : MT6878_CQ_REG_BASE <= reg < MT6878_CQ_REG_BASE + MT6878_CQ_REG_SIZE -> 1 <= n <= 511 ->
  let cmd := command_word reg n in
  is_u32 cmd /\ cmd <> MT6878_CQ_END /\ desc_reg cmd = reg /\ desc_words cmd = n.
Proof.
  intros Hr Hn cmd. set (x := reg - MT6878_CQ_REG_BASE). assert (Hx : 0 <= x < 2 ^ 21) by (change (2 ^ 21) with 0x200000; lia).
  assert (Hreg : reg = x + MT6878_CQ_REG_BASE) by lia.
  set (a := x mod 65536). set (b := x / 65536).
  assert (Hab : x = a + b * 65536 /\ 0 <= a < 65536 /\ 0 <= b < 32) by (unfold a, b; change (2 ^ 21) with 0x200000 in Hx; dlia).
  destruct Hab as (Hxab & Ha & Hb).
  assert (Hlow : Z.land reg 0xffff = a).
  { change 0xffff with (Z.ones 16). rewrite Z.land_ones by lia. change (2 ^ 16) with 65536. rewrite Hreg.
    replace (x + MT6878_CQ_REG_BASE) with (a + (b + 0x1a00) * 65536) by lia. rewrite Z.mod_add by lia. apply Z.mod_small. lia. }
  assert (Hhigh : Z.land (Z.shiftr reg 16) 31 = b).
  { change 31 with (Z.ones 5). rewrite Z.shiftr_div_pow2, Z.land_ones by lia. change (2 ^ 16) with 65536. change (2 ^ 5) with 32. rewrite Hreg.
    replace (x + MT6878_CQ_REG_BASE) with (a + (b + 208 * 32) * 65536) by lia. rewrite Z.div_add, (Z.div_small a) by lia.
    rewrite Z.add_0_l, Z.mod_add by lia. apply Z.mod_small. lia. }
  assert (Hcmd : cmd = a + (n - 1) * 65536 + b * 134217728).
  { unfold cmd, command_word. rewrite Hlow, Hhigh, (u32_id (n - 1)) by (unfold is_u32; lia). rewrite !Z.shiftl_mul_pow2 by lia.
    change (2 ^ 27) with 134217728. change (2 ^ 16) with 65536. rewrite !u32_id by (unfold is_u32; lia).
    rewrite <- Z.lor_assoc, (Z.lor_comm (b * 134217728)), Z.lor_assoc. change 65536 with (2 ^ 16) at 1. change 134217728 with (2 ^ 27) at 1.
    rewrite <- !Z.shiftl_mul_pow2 by lia. rewrite (lor_shiftl_add a (n - 1) 16), (lor_shiftl_add _ b 27) by lia. reflexivity. }
  clearbody cmd. subst cmd. split; [unfold is_u32; lia|].
  assert (H27 : Z.shiftr (a + (n - 1) * 65536 + b * 134217728) 27 = b)
    by (rewrite Z.shiftr_div_pow2 by lia; change (2 ^ 27) with 134217728; symmetry; apply Z.div_unique with (a + (n - 1) * 65536); lia).
  assert (H16 : Z.land (a + (n - 1) * 65536 + b * 134217728) 0xffff = a)
    by (change 0xffff with (Z.ones 16); rewrite Z.land_ones by lia; change (2 ^ 16) with 65536; symmetry; apply Z.mod_unique with (n - 1 + b * 2048); lia).
  assert (Hw : Z.land (Z.shiftr (a + (n - 1) * 65536 + b * 134217728) 16) 511 = n - 1).
  { rewrite Z.shiftr_div_pow2 by lia. change (2 ^ 16) with 65536.
    replace ((a + (n - 1) * 65536 + b * 134217728) / 65536) with (n - 1 + b * 2048) by (apply Z.div_unique with a; lia).
    change 511 with (Z.ones 9). rewrite Z.land_ones by lia. change (2 ^ 9) with 512. symmetry. apply Z.mod_unique with (b * 4); lia. }
  split; [intros E; clear - E Ha Hb Hn; lia|]. split; [|unfold desc_words; lia].
  unfold desc_reg. rewrite H27, H16, Hreg, Hxab. rewrite (Z.lor_comm (Z.shiftl b 16)), (lor_shiftl_add a b 16) by lia. change (2 ^ 16) with 65536.
  rewrite Z.lor_comm. change MT6878_CQ_REG_BASE with (Z.shiftl 13 25) at 1. rewrite lor_shiftl_add by (change (2 ^ 25) with 33554432; lia). reflexivity.
Qed.

(** ** The loops *)

Lemma burst_split buf n m : forall reg off,
  burst buf reg off (n + m) = burst buf reg off n ++ burst buf (reg + 4 * Z.of_nat n) (off + 4 * Z.of_nat n) m.
Proof.
  induction n as [|n IH]; intros reg off; cbn [burst Nat.add app].
  - now replace (reg + 4 * Z.of_nat 0) with reg by lia; replace (off + 4 * Z.of_nat 0) with off by lia.
  - f_equal. rewrite IH. f_equal. f_equal; lia.
Qed.

Lemma put_words_ok vs : forall buf off, 0 <= off -> off + 4 * len vs <= len buf ->
  let buf' := put_words buf off vs in
  len buf' = len buf /\ (forall lo hi, 0 <= lo -> hi <= off \/ off + 4 * len vs <= lo -> agree buf' buf lo hi) /\
  (Forall is_u32 vs -> forall reg, burst buf' reg off (length vs) = requested reg vs).
Proof.
  induction vs as [|v vs IH]; intros buf off Ho Hl; cbn [put_words].
  - repeat split; intros ? ?; reflexivity.
  - rewrite len_cons in *. pose proof (len_nonneg vs). pose proof (len_put buf off v Ho ltac:(lia)) as Hlp.
    destruct (IH (mt6878_cq_put32 buf off v) (off + 4) ltac:(lia) ltac:(lia)) as (H1 & H2 & H3). cbv zeta.
    split; [lia|]. split.
    + intros lo hi Hlo Hd i Hi. rewrite (H2 lo hi Hlo ltac:(lia) i Hi). apply (put32_other buf off v lo hi); lia.
    + intros Hu reg. inversion Hu; subst. cbn [burst requested length]. rewrite H3 by assumption. do 2 f_equal.
      rewrite (le32_agree _ (mt6878_cq_put32 buf off v)) by (apply H2; lia). rewrite le32_written by lia. now apply u32_id.
Qed.

(** The bytes of one descriptor. *)
Lemma put_desc buf p cmd v : 0 <= p -> p + 12 <= len buf -> is_u32 cmd -> is_u64 v ->
  let buf' := mt6878_cq_put64 (mt6878_cq_put32 buf p cmd) (p + 4) v in
  len buf' = len buf /\ le32 buf' p = cmd /\ le64 buf' (p + 4) = v /\
  (forall lo hi, 0 <= lo -> hi <= p \/ p + 12 <= lo -> agree buf' buf lo hi).
Proof.
  intros Hp Hl Hc Hv buf'. unfold buf', mt6878_cq_put64. set (b1 := mt6878_cq_put32 buf p cmd).
  set (b2 := mt6878_cq_put32 b1 (p + 4) (u32 v)). set (b3 := mt6878_cq_put32 b2 (p + 4 + 4) (u32 (Z.shiftr v 32))).
  assert (L1 : len b1 = len buf) by (apply len_put; lia). assert (L2 : len b2 = len buf) by (unfold b2; rewrite len_put; lia).
  assert (L3 : len b3 = len buf) by (unfold b3; rewrite len_put; lia).
  assert (A3 : forall lo hi, 0 <= lo -> hi <= p + 8 \/ p + 12 <= lo -> agree b3 b2 lo hi) by (intros; apply put32_other; lia).
  assert (A2 : forall lo hi, 0 <= lo -> hi <= p + 4 \/ p + 8 <= lo -> agree b2 b1 lo hi) by (intros; apply put32_other; lia).
  assert (A1 : forall lo hi, 0 <= lo -> hi <= p \/ p + 4 <= lo -> agree b1 buf lo hi) by (intros; apply put32_other; lia).
  split; [exact L3|]. split; [|split].
  - rewrite (le32_agree b3 b2), (le32_agree b2 b1) by (apply A3 || apply A2; lia). unfold b1. rewrite le32_written by lia. now apply u32_id.
  - unfold le64. rewrite (le32_agree b3 b2 (p + 4)) by (apply A3; lia). unfold b2 at 1. rewrite le32_written by lia.
    unfold b3. rewrite le32_written by lia. rewrite !(u32_id (u32 _)) by apply u32_range. unfold is_u64 in Hv.
    rewrite Z.shiftr_div_pow2 by lia. rewrite (u32_id (v / 2 ^ 32)) by (unfold is_u32; change (2 ^ 32) with 4294967296; dlia).
    rewrite lor_shiftl_add by (pose proof (u32_range v); unfold is_u32 in *; lia). unfold u32. change (2 ^ 32) with 4294967296. dlia.
  - intros lo hi Hlo Hd i Hi. rewrite (A3 lo hi Hlo ltac:(lia) i Hi), (A2 lo hi Hlo ltac:(lia) i Hi). apply (A1 lo hi); lia.
Qed.

Definition ndesc (left : Z) : Z := (left + 510) / 511.
Lemma ndesc_step left : 0 < left -> ndesc left = 1 + ndesc (left - (if 511 <? left then 511 else left)).
Proof. intros H. unfold ndesc. destruct (Z.ltb_spec 511 left); [dlia|]. replace (left - left) with 0 by lia. dlia. Qed.

Context (lo : Z) (Hbase : 0 <= base).

Lemma desc_loop_ok fuel : forall buf head reg voff left,
  0 <= head -> 0 <= left -> (Z.to_nat left <= fuel)%nat -> head + 12 * ndesc left <= lo -> lo <= voff -> voff + 4 * left <= len buf ->
  len buf <= UINT32_MAX -> base + len buf <= 2 ^ 34 ->
  MT6878_CQ_REG_BASE <= reg -> reg + 4 * left <= MT6878_CQ_REG_BASE + MT6878_CQ_REG_SIZE ->
  exists buf', desc_loop fuel buf head reg (base + voff) left = Some (buf', head + 12 * ndesc left) /\ len buf' = len buf /\
    agree buf' buf 0 head /\ agree buf' buf (head + 12 * ndesc left) (len buf) /\
    segment (Z.to_nat (ndesc left)) buf' base lo head = Some (burst buf reg voff (Z.to_nat left)).
Proof.
  induction fuel as [|fuel IH]; intros buf head reg voff left Hh Hl Hf Hroom Hlo Hv Hcap Hio Hr1 Hr2.
  - assert (left = 0) as -> by lia. exists buf. change (ndesc 0) with 0. rewrite Z.mul_0_r, Z.add_0_r. repeat split; intros ? ?; reflexivity.
  - cbn [desc_loop]. destruct (Z.eqb_spec left 0) as [->|Hne].
    { exists buf. change (ndesc 0) with 0. rewrite Z.mul_0_r, Z.add_0_r. repeat split; intros ? ?; reflexivity. }
    pose proof (ndesc_step left ltac:(lia)) as Hnd. cbv zeta. set (n := if 511 <? left then 511 else left) in *.
    assert (Hn : 1 <= n <= 511 /\ n <= left) by (unfold n; destruct (Z.ltb_spec 511 left); lia). clearbody n.
    assert (Hnr : 0 <= ndesc (left - n)) by (unfold ndesc; apply Z.div_pos; lia). change (2 ^ 34) with 17179869184 in Hio.
    destruct (command_decode reg n ltac:(lia) ltac:(lia)) as (C1 & C2 & C3 & C4).
    destruct (put_desc buf head (command_word reg n) (base + voff) Hh ltac:(lia) C1 ltac:(unfold is_u64; lia)) as (L1 & D1 & D2 & D3).
    set (buf1 := mt6878_cq_put64 (mt6878_cq_put32 buf head (command_word reg n)) (head + 4) (base + voff)) in *.
    rewrite (u32_id (n * 4)), (u32_id (head + 12)), (u32_id (reg + n * 4)), (u32_id (left - n)), (u64_id (base + voff + n * 4))
      by (unfold is_u32, is_u64; lia).
    destruct (IH buf1 (head + 12) (reg + n * 4) (voff + n * 4) (left - n)) as (buf' & E & L' & A1 & A2 & S'); try lia.
    exists buf'. replace (base + voff + n * 4) with (base + (voff + n * 4)) by lia. rewrite E, Hnd.
    split; [do 2 f_equal; lia|]. split; [lia|]. rewrite L1 in A2, L'.
    assert (Hvals : agree buf' buf lo (len buf)).
    { intros i Hi. rewrite (A2 i ltac:(lia)). apply (D3 lo (len buf)); lia. }
    split; [intros i Hi; rewrite (A1 i ltac:(lia)); apply (D3 0 head); lia|].
    split; [intros i Hi; rewrite (A2 i ltac:(lia)); apply (D3 (head + 12) (len buf)); lia|].
    replace (Z.to_nat (1 + ndesc (left - n))) with (S (Z.to_nat (ndesc (left - n)))) by lia. cbn [segment].
    unfold run_desc. rewrite (le32_agree buf' buf1), (le64_agree buf' buf1), D1, D2 by (intros i Hi; apply A1; lia).
    rewrite C3, C4, L'. replace (negb _ && _ && _) with true by lia. rewrite S'.
    rewrite (burst_agree buf' buf reg) by (intros i Hi; apply Hvals; lia).
    replace (base + voff - base) with voff by lia. f_equal.
    replace (Z.to_nat left) with (Z.to_nat n + Z.to_nat (left - n))%nat by lia. rewrite burst_split. f_equal.
    rewrite Z2Nat.id by lia. rewrite (burst_agree buf1 buf) by (intros i Hi; apply (D3 lo (len buf)); lia). f_equal; lia.
Qed.
End Builder.

(** ** Sequences of calls *)

Inductive cq_call : Type :=
| CallValues (reg : Z) (values : ptr (list Z)) (count : Z)
| CallCookie (central_base session cookie cookie_addr : Z).
Definition cq_step (cq : mt6878_ccd_cq) (c : cq_call) : option (Z * option mt6878_ccd_cq) :=
  match c with
  | CallValues reg values count => mt6878_ccd_cq_values (Some cq) reg values count
  | CallCookie central session cookie a => mt6878_ccd_cq_frame_cookie (Some cq) central session cookie a
  end.
(** The queue after the calls, whatever they return. *)
Fixpoint cq_run (cq : mt6878_ccd_cq) (cs : list cq_call) : option mt6878_ccd_cq :=
  match cs with
  | [] => Some cq
  | c :: cs => match cq_step cq c with Some (_, Some cq) => cq_run cq cs | _ => None end
  end.
(** The register writes a call asks for. *)
Definition call_writes (c : cq_call) : list write :=
  match c with
  | CallValues reg values count => requested reg (firstn (Z.to_nat count) (pointee values))
  | CallCookie central _ cookie _ => (fun tag => (central + 0x57c + tag * 0x40, cookie)) <$> [0; 1; 2; 3; 4; 5; 6; 7]
  end.
Definition call_ok (c : cq_call) : Prop :=
  match c with
  | CallValues reg values count => is_u32 reg /\ is_u32 count /\ count <= len (pointee values) /\ Forall is_u32 (pointee values)
  | CallCookie central session cookie a => is_u32 central /\ is_u32 session /\ is_u32 cookie
  end.

(** A queue without an error holds the writes [ws]. *)
Definition cq_ok (cq : mt6878_ccd_cq) (ws : list write) : Prop :=
  (null (buffer cq) = false /\ finished cq = 0 /\ first_error cq = 0) /\
  (len (pointee (buffer cq)) = capacity cq /\ capacity cq <= UINT32_MAX /\ 0 <= iova cq /\ iova cq + capacity cq <= 2 ^ 34) /\
  (MT6878_CQ_REG_BASE <= reg_base cq /\ 0 <= reg_size cq /\ reg_base cq + reg_size cq <= MT6878_CQ_REG_BASE + MT6878_CQ_REG_SIZE) /\
  (exists k, 0 <= k /\ head cq = 12 * k /\ head cq + 12 <= 65535 /\ head cq + 12 <= tail cq /\ tail cq <= capacity cq /\
     segment (Z.to_nat k) (pointee (buffer cq)) (iova cq) (tail cq) 0 = Some ws) /\
  Forall (fun w => reg_base cq <= w.1 < reg_base cq + reg_size cq) ws.

Lemma cq_fail_error cq e : first_error cq = 0 -> null (buffer cq) = false -> e <> 0 ->
  first_error (mt6878_cq_fail cq e).2 <> 0 /\ null (buffer (mt6878_cq_fail cq e).2) = false.
Proof. intros H Hn He. unfold mt6878_cq_fail. cbn. rewrite H. auto. Qed.
Lemma requested_in reg values lo hi : lo <= reg -> reg + 4 * len values <= hi -> Forall (fun w => lo <= w.1 < hi) (requested reg values).
Proof.
  revert reg. induction values as [|v values IH]; intros reg H1 H2; [constructor|]. rewrite len_cons in H2. pose proof (len_nonneg values).
  cbn [requested]. constructor; [cbn; lia|]. apply IH; lia.
Qed.

(** Appending values either fails and latches an error, or appends exactly the requested writes. *)
Lemma values_ok cq ws reg values count : cq_ok cq ws -> call_ok (CallValues reg values count) ->
  exists ret cq', mt6878_ccd_cq_values (Some cq) reg values count = Some (ret, Some cq') /\
    (ret <> 0 -> first_error cq' <> 0 /\ null (buffer cq') = false) /\
    (ret = 0 -> cq_ok cq' (ws ++ call_writes (CallValues reg values count)) /\
       reg_base cq' = reg_base cq /\ reg_size cq' = reg_size cq /\ iova cq' = iova cq).
Proof.
  intros (Hst & (Hlen & Hcap & Hio & Hio2) & (Hb & Hrs & Hbs) & (k & Hk & Hhead & Hmax & Hroom & Htail & Hseg) & Hin) (Ur & Uc & Hvl & Hvu).
  destruct Hst as (Hnull & Hfin & Herr). unfold is_u32 in Ur, Uc. unfold mt6878_ccd_cq_values. cbv zeta. rewrite Hnull, Hfin, Herr. cbn [Z.eqb negb].
  assert (Hfail : forall e, e <> 0 -> exists ret cq', Some ((mt6878_cq_fail cq e).1, Some (mt6878_cq_fail cq e).2) = Some (ret, Some cq') /\
    (ret <> 0 -> first_error cq' <> 0 /\ null (buffer cq') = false) /\ (ret = 0 -> cq_ok cq' (ws ++ call_writes (CallValues reg values count)) /\
       reg_base cq' = reg_base cq /\ reg_size cq' = reg_size cq /\ iova cq' = iova cq)).
  { intros e He. eexists _, _. split; [reflexivity|]. split; [intros _; now apply cq_fail_error|].
    unfold mt6878_cq_fail. cbn. rewrite Herr. cbn. contradiction. }
  destruct (_ || _ || _ || _ || _ || _) eqn:G1; [apply Hfail; lia|].
  assert (Hge : reg_base cq <= reg) by lia. rewrite (u32_id (reg - reg_base cq)) in G1 by (unfold is_u32; lia).
  rewrite (u32_id (reg_size cq - (reg - reg_base cq))) in G1 by (unfold is_u32; lia).
  assert (Hcount : 0 < count /\ reg + 4 * count <= reg_base cq + reg_size cq) by (clear - G1 Uc; dlia). clear G1.
  rewrite (u32_id (count * 4)), (u32_id (count + 511 - 1)) by (unfold is_u32; lia).
  replace ((count + 511 - 1) / 511) with (ndesc count) by (unfold ndesc; f_equal; lia).
  assert (Hnd : 1 <= ndesc count <= count) by (unfold ndesc; clear - Hcount; dlia).
  rewrite (u32_id (tail cq - head cq)) by (unfold is_u32; lia). rewrite (u32_id (ndesc count * 12 + 12)), (u32_id (head cq + ndesc count * 12 + 12))
    by (unfold is_u32; lia).
  destruct (_ || _ || _ || _) eqn:G2; [apply Hfail; lia|].
  destruct (Z.le_gt_cases (count * 4) (tail cq - head cq)) as [Hfit|]; [|lia].
  rewrite (u32_id (tail cq - head cq - count * 4)) in G2 by (unfold is_u32; lia).
  destruct ((_ && _) || (_ && _)) eqn:G3; [apply Hfail; lia|]. clear G3 Hfail.
  rewrite (u32_id (tail cq - count * 4)) by (unfold is_u32; lia). set (off := tail cq - count * 4).
  rewrite (u64_id (iova cq + off)) by (unfold is_u64, off; change (2 ^ 34) with 17179869184 in Hio2; lia).
  set (vs := firstn (Z.to_nat count) (pointee values)). assert (Lvs : len vs = count) by (unfold vs; apply len_take; lia).
  set (buf0 := pointee (buffer cq)) in *.
  destruct (put_words_ok vs buf0 off ltac:(unfold off; lia) ltac:(unfold off; lia)) as (P1 & P2 & P3).
  set (buf1 := put_words buf0 off vs) in *.
  destruct (desc_loop_ok (iova cq) off Hio (Z.to_nat count) buf1 (head cq) reg off count) as (buf' & E & L' & A1 & A2 & S');
    try (rewrite ?P1; unfold off; lia).
  rewrite E. eexists _, _. split; [reflexivity|]. split; [intros []; reflexivity|]. intros _.
  cbn [buffer iova capacity head tail reg_base reg_size finished first_error pointee addr].
  split; [|auto]. assert (Hfirst : agree buf' buf0 0 (head cq)).
  { intros i Hi. rewrite (A1 i Hi). apply (P2 0 (head cq)); unfold off; lia. }
  assert (Hlast : agree buf' buf0 (tail cq) (len buf0)).
  { intros i Hi. rewrite (A2 i) by (unfold off in *; lia). apply (P2 (tail cq) (len buf0)); unfold off; lia. }
  unfold cq_ok. cbn [buffer iova capacity head tail reg_base reg_size finished first_error pointee addr].
  split; [split; [exact Hnull|auto]|]. split; [repeat split; try assumption; lia|]. split; [auto|]. split.
  - exists (k + ndesc count). split; [lia|]. split; [lia|]. split; [unfold off; lia|]. split; [unfold off; lia|]. split; [unfold off; lia|].
    replace (Z.to_nat (k + ndesc count)) with (Z.to_nat k + Z.to_nat (ndesc count))%nat by lia. apply segment_app.
    + apply (segment_lower (iova cq) buf' (tail cq)); [unfold off; lia|]. rewrite <- Hseg. apply segment_agree; [lia|exact Hlast|].
      rewrite Z2Nat.id by lia. intros i Hi. apply Hfirst. lia.
    + rewrite Z2Nat.id by lia. replace (0 + 12 * k) with (head cq) by lia. rewrite S'. f_equal. cbn [call_writes]. fold vs.
      rewrite <- (P3 ltac:(unfold vs; now apply Forall_take)). f_equal. unfold len in Lvs. lia.
  - apply Forall_app. split; [exact Hin|]. cbn [call_writes]. apply requested_in; fold vs; lia.
Qed.

Lemma cookie_loop_ok tags : forall cq ws reg cookie a, cq_ok cq ws -> is_u32 cookie -> 0 <= reg -> Forall (fun t => 0 <= t) tags ->
  Forall (fun t => reg + t * 0x40 <= UINT32_MAX) tags ->
  exists ret cq', cookie_loop tags cq reg (Ptr a [cookie]) = Some (ret, Some cq') /\
    (ret <> 0 -> first_error cq' <> 0 /\ null (buffer cq') = false) /\ (ret = 0 -> cq_ok cq' (ws ++ ((fun t => (reg + t * 0x40, cookie)) <$> tags))).
Proof.
  induction tags as [|t tags IH]; intros cq ws reg cookie a Hcq Hu Hr Hp Hm; cbn [cookie_loop].
  - exists 0, cq. split; [reflexivity|]. split; [intros []; reflexivity|]. intros _. cbn. now rewrite app_nil_r.
  - inversion Hp; subst. inversion Hm; subst. rewrite (u32_id (reg + t * 0x40)) by (unfold is_u32; lia).
    destruct (values_ok cq ws (reg + t * 0x40) (Ptr a [cookie]) 1 Hcq) as (ret & cq' & E & Hne & Hok).
    { cbn. split; [unfold is_u32; lia|]. split; [unfold is_u32; lia|]. split; [unfold len; cbn; lia|now apply Forall_singleton]. }
    rewrite E. destruct (Z.eqb_spec ret 0) as [->|Hr0]; cbn [negb]; [|exists ret, cq'; split; [reflexivity|]; split; [auto|contradiction]].
    destruct (Hok eq_refl) as (Hcq' & _). cbn [call_writes pointee Z.to_nat Pos.to_nat Pos.iter_op firstn requested] in Hcq'.
    destruct (IH cq' _ reg cookie a Hcq' Hu Hr ltac:(assumption) ltac:(assumption)) as (ret2 & cq2 & E2 & Hne2 & Hok2).
    exists ret2, cq2. split; [exact E2|]. split; [exact Hne2|]. intros H0. specialize (Hok2 H0). rewrite <- app_assoc in Hok2. exact Hok2.
Qed.
Lemma cookie_ok cq ws central session cookie a : cq_ok cq ws -> call_ok (CallCookie central session cookie a) ->
  exists ret cq', mt6878_ccd_cq_frame_cookie (Some cq) central session cookie a = Some (ret, Some cq') /\
    (ret <> 0 -> first_error cq' <> 0 /\ null (buffer cq') = false) /\ (ret = 0 -> cq_ok cq' (ws ++ call_writes (CallCookie central session cookie a))).
Proof.
  intros Hcq (Uc & Us & Uk). pose proof Hcq as (Hst & _ & (Hb & Hrs & Hbs) & _). destruct Hst as (Hnull & Hfin & Herr).
  unfold is_u32 in Uc. unfold mt6878_ccd_cq_frame_cookie. cbv zeta. rewrite Hnull, Hfin, Herr. cbn [Z.eqb negb].
  assert (Hfail : forall e, e <> 0 -> exists ret cq', Some ((mt6878_cq_fail cq e).1, Some (mt6878_cq_fail cq e).2) = Some (ret, Some cq') /\
    (ret <> 0 -> first_error cq' <> 0 /\ null (buffer cq') = false) /\ (ret = 0 -> cq_ok cq' (ws ++ call_writes (CallCookie central session cookie a)))).
  { intros e He. eexists _, _. split; [reflexivity|]. split; [intros _; now apply cq_fail_error|].
    unfold mt6878_cq_fail. cbn. rewrite Herr. cbn. contradiction. }
  destruct (_ || _ || _ || _ || _ || _) eqn:G1; [apply Hfail; lia|].
  assert (Hge : reg_base cq <= central) by lia. rewrite (u32_id (central - reg_base cq)) in G1 by (unfold is_u32; lia).
  rewrite (u32_id (reg_size cq - (central - reg_base cq))) in G1 by (unfold is_u32; lia).
  assert (Hc : central + 0x740 <= reg_base cq + reg_size cq) by lia. clear G1.
  rewrite (u32_id (central + 0x57c)) by (unfold is_u32; lia). destruct (_ || _ || _ || _) eqn:G2; [apply Hfail; lia|].
  apply (cookie_loop_ok [0; 1; 2; 3; 4; 5; 6; 7] cq ws (central + 0x57c) cookie a Hcq Uk ltac:(lia));
    repeat (apply List.Forall_cons; [lia|]); apply List.Forall_nil.
Qed.

(** A queue with a latched error refuses every call. *)
Lemma error_stays cq c : first_error cq <> 0 -> null (buffer cq) = false -> cq_step cq c = Some (first_error cq, Some cq).
Proof.
  intros He Hn. destruct c; cbn [cq_step]; unfold mt6878_ccd_cq_values, mt6878_ccd_cq_frame_cookie; cbv zeta; rewrite Hn;
    now replace (negb (first_error cq =? 0)) with true by lia.
Qed.
(** What a run of calls leaves: a latched error, or a queue of exactly the requested writes. *)
Lemma run_ok cs : forall cq ws, Forall call_ok cs -> first_error cq <> 0 /\ null (buffer cq) = false \/ cq_ok cq ws ->
  exists cq', cq_run cq cs = Some cq' /\
    (first_error cq' <> 0 /\ null (buffer cq') = false \/ cq_ok cq' (ws ++ flat_map call_writes cs)).
Proof.
  induction cs as [|c cs IH]; intros cq ws Hcs Hcq; cbn [cq_run flat_map].
  - exists cq. rewrite app_nil_r. auto.
  - inversion Hcs as [|? ? Hc Hcs']; subst. destruct Hcq as [[He Hn]|Hcq].
    + rewrite (error_stays cq c He Hn). destruct (IH cq ws Hcs' (or_introl (conj He Hn))) as (cq' & E & _). exists cq'. split; [exact E|left].
      clear - E He Hn. revert E. induction cs as [|d cs IH]; cbn [cq_run]; [now intros [= <-]|]. now rewrite (error_stays cq d He Hn).
    + assert (Hstep : exists ret cq', cq_step cq c = Some (ret, Some cq') /\
        (ret <> 0 -> first_error cq' <> 0 /\ null (buffer cq') = false) /\ (ret = 0 -> cq_ok cq' (ws ++ call_writes c))).
      { destruct c as [reg values count|central session cookie a]; [|exact (cookie_ok cq ws central session cookie a Hcq Hc)].
        destruct (values_ok cq ws reg values count Hcq Hc) as (ret & cq' & E & H1 & H2). exists ret, cq'. split; [exact E|]. split; [exact H1|].
        intros H0. now destruct (H2 H0). }
      destruct Hstep as (ret & cq' & -> & Hne & Hok). rewrite app_assoc.
      apply IH; [assumption|]. destruct (Z.eq_dec ret 0) as [->|Hr]; [right; auto|left; auto].
Qed.

Lemma init_ok cq0 buf cap io rb rs cq : mt6878_ccd_cq_init (Some cq0) buf cap io rb rs = (0, Some cq) ->
  len (pointee buf) = cap -> is_u32 cap -> is_u64 io -> is_u32 rb -> is_u32 rs -> cq_ok cq [].
Proof.
  intros E Hl Uc Ui Ub Us. unfold mt6878_ccd_cq_init in E. rewrite Z.shiftl_1_l in E. unfold is_u32, is_u64 in *.
  destruct (_ || _) eqn:G in E; [discriminate|]. injection E as <-. change (2 ^ 34) with 17179869184 in G.
  rewrite (u64_id (17179869184 - io)) in G by (unfold is_u64; lia).
  rewrite (u32_id (0x200000 - rs)), (u32_id (rb - 0x1a000000)) in G by (unfold is_u32; lia).
  unfold cq_ok. cbn [buffer iova capacity head tail reg_base reg_size finished first_error].
  destruct (null buf) eqn:N; [discriminate|]. change (2 ^ 34) with 17179869184.
  split; [auto|]. split; [lia|]. split; [lia|]. split; [|constructor]. exists 0. repeat split; lia.
Qed.

(** Finishing a queue that holds [ws]. *)
Lemma cq_finish_ok cq ws d v : cq_ok cq ws ->
  (head cq = 0 /\ mt6878_ccd_cq_finish (Some cq) (Some d) (Some v) = ((mt6878_cq_fail cq (- ENOSPC)).1, Some (mt6878_cq_fail cq (- ENOSPC)).2, Some d, Some v)) \/
  (head cq <> 0 /\ exists cq2, mt6878_ccd_cq_finish (Some cq) (Some d) (Some v) = (0, Some cq2, Some (head cq + 12), Some (tail cq)) /\
     reg_base cq2 = reg_base cq /\ reg_size cq2 = reg_size cq /\ iova cq2 = iova cq /\ len (pointee (buffer cq2)) = capacity cq /\
     head cq + 12 <= 65535 /\ head cq + 12 <= tail cq /\ tail cq <= capacity cq /\
     execute (pointee (buffer cq2)) (iova cq) (head cq + 12) (tail cq) = Some ws).
Proof.
  intros ((Hn & Hf & He) & (Hlen & Hcap & Hio & Hio2) & _ & (k & Hk & Hh & Hm & Hr & Ht & Hs) & Hin). cbn [mt6878_ccd_cq_finish]. rewrite Hn, He, Hf. cbn [Z.eqb negb].
  rewrite (u32_id (tail cq - head cq)) by (unfold is_u32; lia).
  destruct (Z.eqb_spec (head cq) 0) as [E|E]; cbn [orb]; [left; auto|]. right. split; [exact E|].
  replace ((tail cq <? head cq) || (tail cq - head cq <? 12)) with false by lia. set (buf1 := pointee (buffer cq)) in *. rewrite (u32_id (head cq + 12)) by (unfold is_u32; lia).
  destruct (put_desc buf1 (head cq) 0x06000000 0 ltac:(lia) ltac:(lia) ltac:(unfold is_u32; lia) ltac:(unfold is_u64; lia)) as (L & D1 & _ & A).
  set (buf2 := mt6878_cq_put64 _ _ _) in *. eexists. split; [reflexivity|].
  cbn [buffer pointee iova reg_base reg_size]. split; [reflexivity|]. split; [reflexivity|]. split; [reflexivity|]. split; [lia|]. split; [lia|]. split; [lia|]. split; [lia|].
  unfold execute. replace (head cq + 12 - 12) with (head cq) by lia. rewrite D1.
  replace ((head cq + 12) mod 12) with 0 by (rewrite Hh; replace (12 * k + 12) with ((k + 1) * 12) by lia; now rewrite Z.mod_mul by lia).
  replace ((head cq + 12) / 12 - 1) with k by (rewrite Hh; replace (12 * k + 12) with ((k + 1) * 12) by lia; rewrite Z.div_mul by lia; lia).
  replace ((0 =? 0) && (12 <=? head cq + 12) && (0x06000000 =? 0x06000000)) with true by lia. rewrite <- Hs.
  apply segment_agree; [lia|apply A; lia|apply A; lia].
Qed.

(** C25. The command queue performs exactly what was asked of it. Initialise a
    queue over a buffer, then make any sequence of append and frame-cookie
    calls: every call returns. If finishing then succeeds, no call was refused,
    the finished descriptor list (at most 65535 bytes, below the value area,
    which is inside the buffer) executed by the documented hardware format
    performs exactly the requested register writes of all calls, in order, and
    every register is inside the owned window. If finishing fails, the caller's
    lengths are unchanged. *)
Theorem cq_executes_requests cq0 buf cap io rb rs cq cs d v :
  mt6878_ccd_cq_init (Some cq0) buf cap io rb rs = (0, Some cq) ->
  len (pointee buf) = cap -> is_u32 cap -> is_u64 io -> is_u32 rb -> is_u32 rs -> Forall call_ok cs ->
  exists cq1, cq_run cq cs = Some cq1 /\
  let '(ret, ocq, db, vs) := mt6878_ccd_cq_finish (Some cq1) (Some d) (Some v) in
  (ret <> 0 -> db = Some d /\ vs = Some v) /\
  (ret = 0 -> exists cq2 bytes start, ocq = Some cq2 /\ db = Some bytes /\ vs = Some start /\
     bytes <= 65535 /\ bytes <= start /\ start <= len (pointee (buffer cq2)) /\
     execute (pointee (buffer cq2)) (iova cq2) bytes start = Some (flat_map call_writes cs) /\
     Forall (fun w => reg_base cq2 <= w.1 < reg_base cq2 + reg_size cq2) (flat_map call_writes cs)).
Proof.
  intros E Hl Uc Ui Ub Us Hcs. pose proof (init_ok _ _ _ _ _ _ _ E Hl Uc Ui Ub Us) as Hinit.
  destruct (run_ok cs cq [] Hcs (or_intror Hinit)) as (cq1 & Erun & Hcq1). exists cq1. split; [exact Erun|]. cbn [app] in Hcq1.
  destruct Hcq1 as [[He Hn]|Hok].
  { cbn [mt6878_ccd_cq_finish]. rewrite Hn. replace (negb (first_error cq1 =? 0)) with true by lia. split; [auto|contradiction]. }
  assert (He : first_error cq1 = 0) by apply Hok. assert (Hin := proj2 (proj2 (proj2 (proj2 Hok)))).
  destruct (cq_finish_ok cq1 _ d v Hok) as [[_ ->]|(_ & cq2 & -> & R1 & R2 & R3 & R4 & R5 & R6 & R7 & R8)].
  - split; [auto|]. unfold mt6878_cq_fail. cbn. rewrite He. discriminate.
  - split; [intros []; reflexivity|]. intros _. exists cq2, (head cq1 + 12), (tail cq1). rewrite R1, R2, R3, R4. auto 9.
Qed.
Lemma cq_executes_requests_witness : exists cq1 cq2,
  cq_run (Cq (Ptr 0x1000 (zeros 1024)) 0x100000000 1024 0 1024 0x1a100000 0x1000 0 0)
    [CallValues 0x1a100040 (Ptr 0x9000 [1; 2; 3]) 3; CallCookie 0x1a100000 1 0x01000007 0xa000] = Some cq1 /\
  mt6878_ccd_cq_finish (Some cq1) (Some 0) (Some 0) = (0, Some cq2, Some 120, Some 980) /\
  execute (pointee (buffer cq2)) (iova cq2) 120 980 =
    Some ([(0x1a100040, 1); (0x1a100044, 2); (0x1a100048, 3)] ++
          ((fun tag => (0x1a100000 + 0x57c + tag * 0x40, 0x01000007)) <$> [0; 1; 2; 3; 4; 5; 6; 7])).
Proof.
  set (cs := [CallValues 0x1a100040 (Ptr 0x9000 [1; 2; 3]) 3; CallCookie 0x1a100000 1 0x01000007 0xa000]).
  destruct (cq_executes_requests (Cq (Ptr 0 []) 0 0 0 0 0 0 0 0) (Ptr 0x1000 (zeros 1024)) 1024 0x100000000 0x1a100000 0x1000
    (Cq (Ptr 0x1000 (zeros 1024)) 0x100000000 1024 0 1024 0x1a100000 0x1000 0 0) cs 0 0) as (cq1 & E & H).
  - vm_compute. reflexivity.
  - vm_compute. reflexivity.
  - unfold is_u32; lia.
  - unfold is_u64; lia.
  - unfold is_u32; lia.
  - unfold is_u32; lia.
  - apply List.Forall_cons; [|apply List.Forall_cons; [|apply List.Forall_nil]]; cbn; unfold is_u32, len; cbn; repeat split; try lia.
    repeat (apply List.Forall_cons; [unfold is_u32; lia|]); apply List.Forall_nil.
  - assert (Hfin : exists cq2, mt6878_ccd_cq_finish (Some cq1) (Some 0) (Some 0) = (0, Some cq2, Some 120, Some 980)).
    { vm_compute in E. injection E as <-. eexists. vm_compute. reflexivity. }
    destruct Hfin as [cq2 Hfin]. rewrite Hfin in H. destruct H as [_ H].
    destruct (H eq_refl) as (cq2' & bytes & start & [= <-] & [= <-] & [= <-] & _ & _ & _ & Hx & _).
    exists cq1, cq2. split; [exact E|]. split; [exact Hfin|]. exact Hx.
Defined.
