(* ===== verification/CcdSession.v ===== *)
(** * Camera composer session: [camera-composer/mt6878-camera-ccd-session.h] and the
    reply header of [mt6878-camera-composer.h]

    The one-shot command session with the capture composer. A message is its
    bytes; a null message tells that the endpoint is gone. *)

From S2P Require Import Prelude.

Abbreviation CAM_CMD_FRAME := 2 (only parsing).
Abbreviation CAM_CMD_DESTROY_SESSION := 3 (only parsing).
Abbreviation CAM_CMD_ACK := 4 (only parsing).
Abbreviation CAM_CMD_FLUSH := 5 (only parsing).

Record mt6878_camera_ccd_session : Type := CcdSession {
  session : Z;
  pending : Z;
  closed : Z;
  command : Z;
  cookie : Z;
  frame_started : Z;
  flush_started : Z;
  flushed : Z;
  destroy_started : Z;
  destroyed : Z;
  result : Z;
  reply : list Z
}.

Definition mt6878_camera_cookie_valid (session cookie : Z) : bool := (session <=? 3) && (Z.shiftr cookie 24 =? session).
Definition mt6878_camera_le32 (p : list Z) (i : Z) : Z :=
  Z.lor (Z.lor (Z.lor (byte_at p i) (Z.shiftl (byte_at p (i + 1)) 8)) (Z.shiftl (byte_at p (i + 2)) 16))
        (Z.shiftl (byte_at p (i + 3)) 24).
Definition mt6878_camera_reply_header (message : option (list Z)) (length session cookie command : Z) : Z :=
  match message with
  | None => - ENOTCONN
  | Some p =>
    if length <? 75 then - EMSGSIZE
    else if negb (byte_at p 0 =? session) || negb (mt6878_camera_le32 p 1 =? cookie) then - ESTALE
    else if negb (byte_at p 5 =? CAM_CMD_ACK) then - EPROTO
    else if negb (byte_at p 6 =? command) then - ESTALE
    else
    let ret := s32 (mt6878_camera_le32 p 7) in
    if 0 <? ret then - EPROTO else ret
  end.

Definition mt6878_camera_ccd_begin (os : option mt6878_camera_ccd_session) (cmd ck : Z) : Z * option mt6878_camera_ccd_session :=
  match os with
  | None => (- EINVAL, None)
  | Some s =>
    let start frame flush destroy :=
      (0, Some (CcdSession (session s) 1 (closed s) cmd ck frame flush (flushed s) destroy (destroyed s) 0 (reply s))) in
    if 3 <? session s then (- EINVAL, os)
    else if negb (closed s =? 0) then (- ENOTCONN, os)
    else if negb (pending s =? 0) then (- EBUSY, os)
    else if cmd =? CAM_CMD_FRAME then
      if negb (mt6878_camera_cookie_valid (session s) ck) then (- EINVAL, os)
      else if negb (frame_started s =? 0) || negb (flush_started s =? 0) then (- EALREADY, os)
      else start 1 (flush_started s) (destroy_started s)
    else if cmd =? CAM_CMD_FLUSH then
      if negb (ck =? 0) || negb (flush_started s =? 0) then (- EALREADY, os)
      else start (frame_started s) 1 (destroy_started s)
    else if cmd =? CAM_CMD_DESTROY_SESSION then
      if negb (ck =? 0) || (flushed s =? 0) || negb (destroy_started s =? 0) then (- EINVAL, os)
      else start (frame_started s) (flush_started s) 1
    else (- EOPNOTSUPP, os)
  end.

Definition mt6878_camera_ccd_receive (os : option mt6878_camera_ccd_session) (message : option (list Z)) (length : Z)
    : Z * option mt6878_camera_ccd_session :=
  match os with
  | None => (- EINVAL, None)
  | Some s =>
    match message with
    | None =>
      (- ENOTCONN, Some (CcdSession (session s) 0 1 (command s) (cookie s) (frame_started s) (flush_started s) (flushed s)
                           (destroy_started s) (destroyed s) (- ENOTCONN) (reply s)))
    | Some p =>
      if negb (closed s =? 0) then (- ENOTCONN, os)
      else if pending s =? 0 then (- ESTALE, os)
      else if length <? 5 then (- EMSGSIZE, os)
      else if negb (byte_at p 0 =? session s) || negb (mt6878_camera_le32 p 1 =? cookie s) then (- ESTALE, os)
      else
      let ret := mt6878_camera_reply_header message length (session s) (cookie s) (command s) in
      if ret =? - ESTALE then (ret, os)
      else
      let flush := (ret =? 0) && (command s =? CAM_CMD_FLUSH) in
      let destroy := (ret =? 0) && (command s =? CAM_CMD_DESTROY_SESSION) in
      (if negb (ret =? 0) then ret else 1,
       Some (CcdSession (session s) 0 (if destroy then 1 else closed s) (command s) (cookie s) (frame_started s) (flush_started s)
               (if flush then 1 else flushed s) (destroy_started s) (if destroy then 1 else destroyed s) ret
               (if 75 <=? length then firstn 75 p else reply s)))
    end
  end.

Definition mt6878_camera_ccd_finish (s : mt6878_camera_ccd_session) (send_or_wait_error : Z) : Z * mt6878_camera_ccd_session :=
  let r := if negb (send_or_wait_error =? 0) then send_or_wait_error else result s in
  (r, CcdSession (session s) 0 (closed s) (command s) (cookie s) (frame_started s) (flush_started s) (flushed s) (destroy_started s)
        (destroyed s) r (reply s)).

(** ** Runs of the session *)

Inductive ccd_event : Type :=
| Begin (cmd ck : Z)
| Receive (message : option (list Z)) (length : Z)
| Finish (error : Z).
(** The state after an event and the command it started, if any. *)
Definition ccd_step (s : mt6878_camera_ccd_session) (e : ccd_event) : mt6878_camera_ccd_session * list Z :=
  match e with
  | Begin cmd ck => let r := mt6878_camera_ccd_begin (Some s) cmd ck in (default s r.2, if r.1 =? 0 then [cmd] else [])
  | Receive m n => (default s (mt6878_camera_ccd_receive (Some s) m n).2, [])
  | Finish e => ((mt6878_camera_ccd_finish s e).2, [])
  end.
Fixpoint ccd_run (s : mt6878_camera_ccd_session) (es : list ccd_event) : mt6878_camera_ccd_session * list Z :=
  match es with
  | [] => (s, [])
  | e :: es => let '(s1, c1) := ccd_step s e in let '(s2, c2) := ccd_run s1 es in (s2, c1 ++ c2)
  end.
Definition new_session (n : Z) : mt6878_camera_ccd_session := CcdSession n 0 0 0 0 0 0 0 0 0 0 (zeros 75).

(** The commands that a state may still start, in order. *)
Definition remaining (s : mt6878_camera_ccd_session) : list Z :=
  (if (frame_started s =? 0) && (flush_started s =? 0) then [CAM_CMD_FRAME] else [])
  ++ (if flush_started s =? 0 then [CAM_CMD_FLUSH] else [])
  ++ (if destroy_started s =? 0 then [CAM_CMD_DESTROY_SESSION] else []).
Definition flag (z : Z) : Prop := z = 0 \/ z = 1.
Definition ccd_inv (s : mt6878_camera_ccd_session) : Prop :=
  (flag (frame_started s) /\ flag (flush_started s) /\ flag (flushed s) /\ flag (destroy_started s) /\ flag (destroyed s) /\ flag (closed s)) /\
  (flushed s = 1 -> flush_started s = 1) /\ (destroy_started s = 1 -> flushed s = 1) /\
  (destroyed s = 1 -> destroy_started s = 1 /\ closed s = 1) /\
  (pending s <> 0 -> command s = CAM_CMD_FLUSH -> flush_started s = 1) /\
  (pending s <> 0 -> command s = CAM_CMD_DESTROY_SESSION -> destroy_started s = 1).

(** One event starts at most one command, one of those remaining, and none of those it skips remains. *)
Lemma ccd_begin_ok s cmd ck : ccd_inv s -> let '(s', c) := ccd_step s (Begin cmd ck) in
  ccd_inv s' /\ session s' = session s /\ (closed s = 1 -> closed s' = 1 /\ c = []) /\ sublist (c ++ remaining s') (remaining s).
Proof.
  intros Hi. cbn [ccd_step]. unfold mt6878_camera_ccd_begin.
  assert (Hsame : forall x, x <> 0 -> ccd_inv s /\ session s = session s /\
    (closed s = 1 -> closed s = 1 /\ (if x =? 0 then [cmd] else []) = []) /\ sublist ((if x =? 0 then [cmd] else []) ++ remaining s) (remaining s)).
  { intros x Hx. replace (x =? 0) with false by lia. split; [exact Hi|]. split; [reflexivity|]. split; [auto|reflexivity]. }
  destruct (3 <? session s); [apply Hsame; cbn; lia|]. destruct (Z.eqb_spec (closed s) 0) as [Hc|]; cbn [negb]; [|apply Hsame; cbn; lia].
  destruct (Z.eqb_spec (pending s) 0) as [Hp|]; cbn [negb]; [|apply Hsame; cbn; lia].
  destruct s as [ss pe cl co ck0 fs fl fd ds de rs rp]. cbn [session pending closed frame_started flush_started flushed destroy_started destroyed result reply] in *.
  unfold ccd_inv, flag, remaining in *.
  cbn [session pending closed command frame_started flush_started flushed destroy_started destroyed result reply default from_option id fst snd] in *.
  destruct (Z.eqb_spec cmd CAM_CMD_FRAME) as [->|].
  { destruct (negb (mt6878_camera_cookie_valid ss ck)); [apply Hsame; cbn; lia|]. destruct (_ || _) eqn:G; [apply Hsame; cbn; lia|].
    cbn [session pending closed command frame_started flush_started flushed destroy_started destroyed default from_option id fst snd Z.eqb]. assert (fs = 0 /\ fl = 0) as [-> ->] by lia.
    split; [lia|]. split; [reflexivity|]. split; [lia|]. cbn. reflexivity. }
  destruct (Z.eqb_spec cmd CAM_CMD_FLUSH) as [->|].
  { destruct (_ || _) eqn:G; [apply Hsame; cbn; lia|].
    cbn [session pending closed command frame_started flush_started flushed destroy_started destroyed default from_option id fst snd Z.eqb]. assert (fl = 0) as -> by lia.
    split; [lia|]. split; [reflexivity|]. split; [lia|]. cbn. rewrite andb_true_r, andb_false_r.
    destruct (fs =? 0); cbn; [apply sublist_cons|]; reflexivity. }
  destruct (Z.eqb_spec cmd CAM_CMD_DESTROY_SESSION) as [->|]; [|apply Hsame; cbn; lia].
  destruct (_ || _ || _) eqn:G; [apply Hsame; cbn; lia|].
  cbn [session pending closed command frame_started flush_started flushed destroy_started destroyed default from_option id fst snd Z.eqb]. assert (ds = 0 /\ fd = 1 /\ fl = 1) as (-> & -> & ->) by lia.
  split; [lia|]. split; [reflexivity|]. split; [lia|]. cbn. rewrite andb_false_r. reflexivity.
Qed.
Lemma ccd_step_ok s e : ccd_inv s -> let '(s', c) := ccd_step s e in
  ccd_inv s' /\ session s' = session s /\ (closed s = 1 -> closed s' = 1 /\ c = []) /\ sublist (c ++ remaining s') (remaining s).
Proof.
  intros Hi. destruct e as [cmd ck|m n|err]; [now apply ccd_begin_ok| |].
  - cbn [ccd_step]. unfold mt6878_camera_ccd_receive.
    assert (Hsame : forall x : Z, ccd_inv (default s (x, Some s).2) /\ session (default s (x, Some s).2) = session s /\
      (closed s = 1 -> closed (default s (x, Some s).2) = 1 /\ @nil Z = []) /\ sublist ([] ++ remaining (default s (x, Some s).2)) (remaining s))
      by (intros x; cbn [default from_option id snd app]; split; [exact Hi|split; [reflexivity|split; [auto|reflexivity]]]).
    destruct m as [p|]; cycle 1.
    { unfold ccd_inv, flag, remaining in *. cbn [session pending closed command cookie frame_started flush_started flushed destroy_started destroyed result reply default from_option id snd app].
      split; [lia|]. split; [reflexivity|]. split; [auto|reflexivity]. }
    destruct (Z.eqb_spec (closed s) 0) as [Hc|]; cbn [negb]; [|apply Hsame]. destruct (Z.eqb_spec (pending s) 0); [apply Hsame|].
    destruct (n <? 5); [apply Hsame|]. destruct (negb _ || negb _); [apply Hsame|]. cbv zeta.
    destruct (_ =? - ESTALE); [apply Hsame|]. set (ret := mt6878_camera_reply_header _ _ _ _ _). clearbody ret.
    unfold ccd_inv, flag, remaining in *. cbn [session pending closed command cookie frame_started flush_started flushed destroy_started destroyed result reply default from_option id snd app].
    split; [|split; [reflexivity|split; [lia|reflexivity]]].
    clear Hsame. destruct Hi as ((F1 & F2 & F3 & F4 & F5 & F6) & I1 & I2 & I3 & I4 & I5).
    assert (Hfl : (ret =? 0) && (command s =? 5) = true -> flush_started s = 1) by (intros G; apply I4; lia).
    assert (Hde : (ret =? 0) && (command s =? 3) = true -> destroy_started s = 1) by (intros G; apply I5; lia).
    destruct ((ret =? 0) && (command s =? 5)), ((ret =? 0) && (command s =? 3));
      (split; [auto 10|]); repeat split; intros; try lia; auto; try (now apply I3); try (now apply I2, I3).
  - cbn [ccd_step mt6878_camera_ccd_finish snd app]. unfold ccd_inv, flag, remaining in *. cbn [session pending closed command cookie frame_started flush_started flushed destroy_started destroyed result reply].
    split; [lia|]. split; [reflexivity|]. split; [auto|reflexivity].
Qed.

Lemma ccd_run_ok es : forall s, ccd_inv s -> let '(s', c) := ccd_run s es in
  ccd_inv s' /\ session s' = session s /\ (closed s = 1 -> closed s' = 1 /\ c = []) /\ sublist (c ++ remaining s') (remaining s).
Proof.
  induction es as [|e es IH]; intros s Hi; cbn [ccd_run]; [split; [exact Hi|split; [reflexivity|split; [auto|reflexivity]]]|].
  pose proof (ccd_step_ok s e Hi) as H1. destruct (ccd_step s e) as [s1 c1]. destruct H1 as (I1 & S1 & C1 & R1).
  specialize (IH s1 I1). destruct (ccd_run s1 es) as [s2 c2]. destruct IH as (I2 & S2 & C2 & R2).
  split; [exact I2|]. split; [congruence|]. split.
  - intros Hc. destruct (C1 Hc) as [Hc1 ->]. destruct (C2 Hc1) as [Hc2 ->]. auto.
  - rewrite <- app_assoc. etransitivity; [|exact R1]. now apply sublist_app.
Qed.

(** The session is one-shot. Whatever the sequence of starts, messages and
    timeouts on a fresh session, the commands it lets start are, in order, a
    selection of FRAME, FLUSH, DESTROY: none is ever started twice, no frame
    starts after a flush, and destruction starts only after a flush was
    acknowledged. A session marked destroyed is closed, and a closed session
    starts nothing more. *)
Theorem ccd_one_shot n es es' : 0 <= n <= 3 ->
  let '(s, started) := ccd_run (new_session n) es in
  sublist started [CAM_CMD_FRAME; CAM_CMD_FLUSH; CAM_CMD_DESTROY_SESSION] /\
  (CAM_CMD_DESTROY_SESSION ∈ started -> flushed s = 1) /\
  (destroyed s = 1 -> destroy_started s = 1 /\ closed s = 1) /\
  (closed s = 1 -> (ccd_run s es').2 = []).
Proof.
  intros Hn. assert (Hi : ccd_inv (new_session n)) by (unfold ccd_inv, flag, new_session; cbn; lia).
  pose proof (ccd_run_ok es _ Hi) as H. destruct (ccd_run (new_session n) es) as [s c]. destruct H as (Is & _ & _ & Hsub).
  assert (Hrem : remaining (new_session n) = [CAM_CMD_FRAME; CAM_CMD_FLUSH; CAM_CMD_DESTROY_SESSION]) by reflexivity. rewrite Hrem in Hsub.
  split; [etransitivity; [apply sublist_inserts_r; reflexivity|exact Hsub]|]. split; [|split].
  - intros Hd. unfold ccd_inv in Is. destruct Is as ((_ & _ & _ & Hds & _) & _ & Hfl & _). apply Hfl. destruct Hds as [E|E]; [|exact E].
    exfalso. assert (Hnd : NoDup (c ++ remaining s)) by (eapply sublist_NoDup; [|exact Hsub]; apply (bool_decide_unpack _); exact I).
    apply NoDup_app in Hnd as (_ & Hx & _). apply (Hx 3 Hd). unfold remaining. rewrite E. rewrite !elem_of_app. right. right. now left.
  - apply Is.
  - intros Hc. pose proof (ccd_run_ok es' s Is) as H. destruct (ccd_run s es') as [s2 c2]. destruct H as (_ & _ & H & _). now destruct (H Hc).
Qed.
Definition ack (n ck cmd : Z) : list Z := [n] ++ put32 ck ++ [CAM_CMD_ACK; cmd] ++ zeros 68.
Definition witness_events : list ccd_event :=
  [Begin CAM_CMD_FRAME 0x01000005; Receive (Some (ack 1 0x01000005 CAM_CMD_FRAME)) 75; Finish 0;
   Begin CAM_CMD_FLUSH 0; Begin CAM_CMD_FRAME 0x01000006; Receive (Some (ack 1 0 CAM_CMD_FLUSH)) 75; Finish 0;
   Begin CAM_CMD_DESTROY_SESSION 0; Receive (Some (ack 1 0 CAM_CMD_DESTROY_SESSION)) 75].
Lemma ccd_one_shot_witness :
  (ccd_run (new_session 1) witness_events).2 = [CAM_CMD_FRAME; CAM_CMD_FLUSH; CAM_CMD_DESTROY_SESSION] /\
  closed (ccd_run (new_session 1) witness_events).1 = 1.
Proof.
  pose proof (ccd_one_shot 1 witness_events []) as H.
  assert (E : (ccd_run (new_session 1) witness_events).2 = [CAM_CMD_FRAME; CAM_CMD_FLUSH; CAM_CMD_DESTROY_SESSION] /\
    destroyed (ccd_run (new_session 1) witness_events).1 = 1) by (vm_compute; split; reflexivity).
  destruct (ccd_run (new_session 1) witness_events) as [s c]. destruct E as [E1 E2].
  destruct H as (_ & _ & H & _); [lia|]. split; [exact E1|]. now apply H.
Defined.

(** ** Replies *)

Lemma s32_zero z : is_u32 z -> s32 z = 0 <-> z = 0.
Proof. intros H. unfold s32. rewrite u32_id by exact H. unfold is_u32 in H. cbv zeta. destruct (_ <? _) eqn:E; lia. Qed.

(** A message that acknowledges the outstanding command with success. *)
Definition acknowledges (s : mt6878_camera_ccd_session) (p : list Z) (length : Z) : Prop :=
  closed s = 0 /\ pending s <> 0 /\ 75 <= length /\ byte_at p 0 = session s /\ mt6878_camera_le32 p 1 = cookie s /\
  byte_at p 5 = CAM_CMD_ACK /\ byte_at p 6 = command s /\ mt6878_camera_le32 p 7 = 0.

(** A reply completes a command exactly when it is its successful
    acknowledgement: the call returns 1 exactly for an open session with an
    outstanding command and an acknowledgement of at least 75 bytes for this
    session, cookie and command with result zero; the session then has no
    outstanding command, a zero result and the reply's prefix. A message that
    arrives with nothing outstanding, or for another session or cookie, changes
    nothing. *)
Theorem ccd_receive_exact s p length :
  bytes_ok p ->
  let '(ret, os) := mt6878_camera_ccd_receive (Some s) (Some p) length in
  (ret = 1 <-> acknowledges s p length) /\
  (ret = 1 -> exists s', os = Some s' /\ pending s' = 0 /\ result s' = 0 /\ reply s' = firstn 75 p /\
     flushed s' = (if command s =? CAM_CMD_FLUSH then 1 else flushed s) /\
     destroyed s' = (if command s =? CAM_CMD_DESTROY_SESSION then 1 else destroyed s)) /\
  (closed s <> 0 \/ pending s = 0 \/ byte_at p 0 <> session s \/ mt6878_camera_le32 p 1 <> cookie s -> ret < 0 /\ os = Some s).
Proof.
  intros Hp. unfold mt6878_camera_ccd_receive, acknowledges.
  assert (Hneg : forall x, x < 0 -> forall A B, ~ A -> (x = 1 <-> A) /\ (x = 1 -> B) /\
    (closed s <> 0 \/ pending s = 0 \/ byte_at p 0 <> session s \/ mt6878_camera_le32 p 1 <> cookie s -> x < 0 /\ Some s = Some s))
    by (intros x Hx A B HA; split; [split; [lia|contradiction]|split; [lia|auto]]).
  destruct (Z.eqb_spec (closed s) 0) as [Hc|Hc]; cbn [negb]; [|apply Hneg; [lia|tauto]].
  destruct (Z.eqb_spec (pending s) 0) as [Hpe|Hpe]; [apply Hneg; [lia|tauto]|].
  destruct (Z.ltb_spec length 5); [apply Hneg; [lia|lia]|].
  destruct (negb (byte_at p 0 =? session s) || negb (mt6878_camera_le32 p 1 =? cookie s)) eqn:G; [apply Hneg; [lia|lia]|].
  cbv zeta. unfold mt6878_camera_reply_header. rewrite G. pose proof (le32_range p 7 Hp) as H7. change (le32 p 7) with (mt6878_camera_le32 p 7) in H7.
  pose proof (s32_zero _ H7) as Hz.
  assert (Hother : forall x (os : option mt6878_camera_ccd_session) A B, x < 0 -> ~ A -> (x = 1 <-> A) /\ (x = 1 -> B) /\
    (closed s <> 0 \/ pending s = 0 \/ byte_at p 0 <> session s \/ mt6878_camera_le32 p 1 <> cookie s -> x < 0 /\ os = Some s))
    by (intros x os A B Hx HA; split; [split; [lia|contradiction]|split; lia]).
  destruct (Z.ltb_spec length 75); [cbn [Z.opp Z.eqb Pos.eqb negb andb]; apply Hother; [reflexivity || lia|intros (? & ? & ? & ? & ? & ? & ? & ?); lia]|].
  destruct (Z.eqb_spec (byte_at p 5) CAM_CMD_ACK); cbn [negb]; [|cbn [Z.opp Z.eqb Pos.eqb negb andb]; apply Hother; [reflexivity || lia|intros (? & ? & ? & ? & ? & ? & ? & ?); lia]].
  destruct (Z.eqb_spec (byte_at p 6) (command s)); cbn [negb]; [|cbn [Z.opp Z.eqb Pos.eqb negb andb]; apply Hother; [reflexivity || lia|intros (? & ? & ? & ? & ? & ? & ? & ?); lia]].
  set (ret := s32 (mt6878_camera_le32 p 7)) in *. clearbody ret.
  destruct (Z.ltb_spec 0 ret); [cbn [Z.opp Z.eqb Pos.eqb negb andb]; apply Hother; [reflexivity || lia|intros (? & ? & ? & ? & ? & ? & ? & ?); lia]|].
  destruct (Z.eqb_spec ret (- ESTALE)); [apply Hother; [lia|intros (? & ? & ? & ? & ? & ? & ? & ?); lia]|].
  destruct (Z.eqb_spec ret 0) as [E|E]; cbn [negb andb]; [|apply Hother; [lia|intros (? & ? & ? & ? & ? & ? & ? & ?); lia]].
  split; [split; [intros _; repeat split; lia|reflexivity]|]. split; [|lia]. intros _. eexists. split; [reflexivity|]. cbn.
  replace (75 <=? length) with true by lia. repeat split; lia.
Qed.
Lemma ccd_receive_exact_witness :
  (mt6878_camera_ccd_receive (Some (CcdSession 1 1 0 CAM_CMD_FLUSH 0 1 1 0 0 0 0 [])) (Some (ack 1 0 CAM_CMD_FLUSH)) 75).1 = 1.
Proof.
  pose proof (ccd_receive_exact (CcdSession 1 1 0 CAM_CMD_FLUSH 0 1 1 0 0 0 0 []) (ack 1 0 CAM_CMD_FLUSH) 75) as H.
  destruct (mt6878_camera_ccd_receive _ _ _) as [ret os].
  destruct H as (H & _); [unfold ack; concrete_bytes|]. apply H. unfold acknowledges. vm_compute. repeat split; congruence.
Defined.

(** A composer that reports -ESTALE as its own result is indistinguishable from
    a stale message: its acknowledgement of the outstanding command is dropped. *)
Lemma estale_result_dropped :
  let s := CcdSession 1 1 0 CAM_CMD_FLUSH 0 1 1 0 0 0 0 [] in
  mt6878_camera_ccd_receive (Some s) (Some ([1] ++ put32 0 ++ [CAM_CMD_ACK; CAM_CMD_FLUSH] ++ put32 (2 ^ 32 - ESTALE) ++ zeros 64)) 75
    = (- ESTALE, Some s).
Proof. vm_compute. reflexivity. Qed.
