(* ===== verification/Regulator.v ===== *)
(** * Modem supply rails: [modem/md-pmic-supplier/mt6363-modem-regulator.h]

    The regulator operations of the three modem rails of the PMIC. The register
    map and the regulator core's two register helpers are requests to an
    environment ([Trace]); every operation runs under the rails' common lock.
    The registration walk over the device tree sees each node through what the
    kernel reports of it. *)

From Stdlib Require Import Ascii String.
From S2P Require Import Prelude Trace.
Open Scope Z_scope.

(** Linux regulator modes. *)
Abbreviation REGULATOR_MODE_INVALID := 0 (only parsing).
Abbreviation REGULATOR_MODE_FAST := 1 (only parsing).
Abbreviation REGULATOR_MODE_NORMAL := 2 (only parsing).
Abbreviation REGULATOR_MODE_IDLE := 4 (only parsing).

(** ** Data *)

Record linear_range : Type := LinearRange { min_uV : Z; min_sel : Z; max_sel : Z; step_uV : Z }.
Record regulator_desc : Type := Desc {
  name : string; id : Z; ranges : list linear_range; n_voltages : Z;
  enable_reg : Z; enable_mask : Z; vsel_reg : Z; vsel_mask : Z; enable_time : Z
}.
Record mt6363_md_info : Type := Info {
  desc : regulator_desc;
  op_en : Z; sshub_en : Z; fccm : Z; hw_lp : Z; lp : Z;
  fccm_mask : Z; hw_lp_mask : Z; lp_mask : Z
}.
Record mt6363_md_state : Type := RailState {
  info : mt6363_md_info;
  first_write_error : Z;
  registering : bool;
  owns_enable : bool
}.
Definition set_error (s : mt6363_md_state) (e : Z) : mt6363_md_state := RailState (info s) e (registering s) (owns_enable s).
Definition set_owns (s : mt6363_md_state) (b : bool) : mt6363_md_state := RailState (info s) (first_write_error s) (registering s) b.
Definition set_registering (s : mt6363_md_state) (b : bool) : mt6363_md_state := RailState (info s) (first_write_error s) b (owns_enable s).

Definition mt6363_md_buck_ranges : list linear_range := [LinearRange 0 0 191 6250].
Definition mt6363_md_sram_ranges : list linear_range := [LinearRange 400000 0 127 6250].
Definition MT6363_MD_DESC (n : string) (i : Z) (rs : list linear_range) (count en bit sel mask : Z) : regulator_desc :=
  Desc n i rs count en (Z.shiftl 1 bit) sel mask 180.
Definition mt6363_md_rails : list mt6363_md_info :=
  [Info (MT6363_MD_DESC "vbuck1" 1 mt6363_md_buck_ranges 192 0x240 1 0x24d 0xff) 0x150d 0x151a 0x1a32 0x1518 0x246 (Z.shiftl 1 0) 0xc (Z.shiftl 1 1);
   Info (MT6363_MD_DESC "vbuck2" 2 mt6363_md_buck_ranges 192 0x240 2 0x24e 0xff) 0x158d 0x159a 0x1a32 0x1598 0x246 (Z.shiftl 1 1) 0xc (Z.shiftl 1 2);
   Info (MT6363_MD_DESC "vsram-modem" 15 mt6363_md_sram_ranges 128 0x243 6 0x25a 0x7f) 0x1daf 0 0 0x1da6 0x249 0 0x4 (Z.shiftl 1 6)].

(** ** Requests *)

(** The register map, the regulator core's enable state and selector helpers, and the delay. *)
Inductive request : Type :=
| Read (reg : Z)
| Write (reg value : Z)
| Update_bits (reg mask value : Z)
| Is_enabled (rail : Z)
| Set_selector (rail selector : Z)
| Udelay (us : Z).
(** The status and, for a read, the value. *)
Abbreviation answer := (Z * Z)%type (only parsing).
Abbreviation pio := (io request (Z * Z)) (only parsing).
Open Scope io_scope.

Fixpoint control_loop (i : mt6363_md_info) (js : list Z) (k : pio Z) : pio Z :=
  match js with
  | [] => k
  | j :: js =>
    let! a := ask (Read (op_en i + j)) in
    if negb (a.1 =? 0) then ret a.1
    else if negb (a.2 =? (if j =? 2 then 0x80 else 0)) then ret (- EBUSY)
    else control_loop i js k
  end.
Definition mt6363_md_control (i : mt6363_md_info) : pio Z :=
  control_loop i [0; 1; 2]
    (let! a := ask (Read (op_en i + 5)) in
     if negb (a.1 =? 0) then ret a.1
     else if negb (a.2 =? 0x10) then ret (- EBUSY)
     else if negb (sshub_en i =? 0) then
       let! a := ask (Read (sshub_en i)) in
       if negb (a.1 =? 0) then ret a.1
       else if negb (Z.land a.2 1 =? 0) then ret (- EBUSY)
       else ret 0
     else ret 0).

Definition mt6363_md_selector (i : mt6363_md_info) : pio Z :=
  let! r := mt6363_md_control i in
  if negb (r =? 0) then ret r
  else
  let! a := ask (Read (vsel_reg (desc i))) in
  if negb (a.1 =? 0) then ret a.1
  else
  let value := Z.land a.2 (vsel_mask (desc i)) in
  if n_voltages (desc i) <=? value then ret (- ERANGE)
  else
  let! r := mt6363_md_control i in
  if negb (r =? 0) then ret r else ret value.
Definition mt6363_md_get_voltage_sel (s : mt6363_md_state) : pio Z := mt6363_md_selector (info s).

Definition mt6363_md_is_enabled (s : mt6363_md_state) : pio Z :=
  let! r := mt6363_md_control (info s) in
  if negb (r =? 0) then ret r
  else
  let! a := ask (Is_enabled (id (desc (info s)))) in
  let enabled := a.1 in
  if enabled <? 0 then ret enabled
  else
  let! r := mt6363_md_control (info s) in
  if r =? 0 then ret enabled else ret r.

Definition mt6363_md_write_admit (s : mt6363_md_state) : pio Z :=
  if negb (first_write_error s =? 0) then ret (first_write_error s)
  else if registering s then ret (- EOPNOTSUPP)
  else mt6363_md_control (info s).
Definition mt6363_md_write_fault (s : mt6363_md_state) (error : Z) : Z * mt6363_md_state :=
  let s := if first_write_error s =? 0 then set_error s (if error <? 0 then error else - EPROTO) else s in
  (first_write_error s, s).

Definition mt6363_md_set_voltage_sel (s : mt6363_md_state) (selector : Z) : pio (Z * mt6363_md_state) :=
  let! r := mt6363_md_write_admit s in
  if negb (r =? 0) then ret (r, s)
  else if n_voltages (desc (info s)) <=? selector then ret (- EINVAL, s)
  else
  let! a := ask (Set_selector (id (desc (info s))) selector) in
  if negb (a.1 =? 0) then ret (mt6363_md_write_fault s a.1)
  else
  let! r := mt6363_md_selector (info s) in
  if r <? 0 then ret (mt6363_md_write_fault s r)
  else if negb (u32 r =? selector) then ret (mt6363_md_write_fault s (- EIO))
  else ret (0, s).

Definition bool_int (b : bool) : Z := if b then 1 else 0.
Definition mt6363_md_enable_request (s : mt6363_md_state) (enable : bool) : pio (Z * mt6363_md_state) :=
  let! r := mt6363_md_write_admit s in
  if negb (r =? 0) then ret (r, s)
  else
  let! a := ask (Is_enabled (id (desc (info s)))) in
  let enabled := a.1 in
  if enabled <? 0 then ret (enabled, s)
  else if enabled =? bool_int enable then ret (0, if enabled =? 0 then set_owns s false else s)
  else if negb enable && negb (owns_enable s) then ret (- EBUSY, s)
  else
  let! a := ask (Write (enable_reg (desc (info s)) + (if enable then 1 else 2)) (enable_mask (desc (info s)))) in
  if negb (a.1 =? 0) then ret (mt6363_md_write_fault s a.1)
  else
  let! r := mt6363_md_control (info s) in
  if negb (r =? 0) then ret (mt6363_md_write_fault s r)
  else
  let! a := ask (Is_enabled (id (desc (info s)))) in
  if a.1 <? 0 then ret (mt6363_md_write_fault s a.1)
  else if negb (a.1 =? bool_int enable) then ret (mt6363_md_write_fault s (- EIO))
  else ret (0, set_owns s enable).
Definition mt6363_md_enable (s : mt6363_md_state) : pio (Z * mt6363_md_state) := mt6363_md_enable_request s true.
Definition mt6363_md_disable (s : mt6363_md_state) : pio (Z * mt6363_md_state) := mt6363_md_enable_request s false.

(** The status and the mode. *)
Definition mt6363_md_read_mode (i : mt6363_md_info) : pio (Z * Z) :=
  let lp_part : pio (Z * Z) :=
    let! a := ask (Read (hw_lp i)) in
    if negb (a.1 =? 0) then ret (a.1, 0)
    else ret (0, if negb (Z.land a.2 (hw_lp_mask i) =? 0) then REGULATOR_MODE_IDLE else REGULATOR_MODE_NORMAL) in
  if negb (fccm i =? 0) then
    let! a := ask (Read (fccm i)) in
    if negb (a.1 =? 0) then ret (a.1, 0)
    else if negb (Z.land a.2 (fccm_mask i) =? 0) then ret (0, REGULATOR_MODE_FAST)
    else lp_part
  else lp_part.
Definition mt6363_md_get_mode (s : mt6363_md_state) : pio Z :=
  let! r := mt6363_md_read_mode (info s) in
  if negb (r.1 =? 0) then ret (u32 r.1) else ret r.2.
Definition mt6363_md_map_mode (mode : Z) : Z :=
  if mode =? 0 then REGULATOR_MODE_NORMAL else if mode =? 2 then REGULATOR_MODE_IDLE else REGULATOR_MODE_INVALID.

Definition mt6363_md_set_mode (s : mt6363_md_state) (mode : Z) : pio (Z * mt6363_md_state) :=
  let i := info s in
  let! r := mt6363_md_write_admit s in
  if negb (r =? 0) then ret (r, s)
  else if negb (mode =? REGULATOR_MODE_NORMAL) && negb (mode =? REGULATOR_MODE_IDLE) then ret (- EOPNOTSUPP, s)
  else
  let! m := mt6363_md_read_mode i in
  if negb (m.1 =? 0) then ret (m.1, s)
  else if m.2 =? REGULATOR_MODE_FAST then ret (- EOPNOTSUPP, s)
  else
  let! a := ask (Read (lp i)) in
  if negb (a.1 =? 0) then ret (a.1, s)
  else if negb (Bool.eqb (negb (Z.land a.2 (lp_mask i) =? 0)) (m.2 =? REGULATOR_MODE_IDLE)) then ret (- EBUSY, s)
  else
  let! u := ask (Update_bits (lp i) (lp_mask i) (if mode =? REGULATOR_MODE_IDLE then lp_mask i else 0)) in
  if negb (u.1 =? 0) then ret (mt6363_md_write_fault s u.1)
  else
  let rest : pio (Z * mt6363_md_state) :=
    let! r := mt6363_md_control i in
    if negb (r =? 0) then ret (mt6363_md_write_fault s r)
    else
    let! a := ask (Read (lp i)) in
    if negb (a.1 =? 0) then ret (mt6363_md_write_fault s a.1)
    else if negb (Bool.eqb (negb (Z.land a.2 (lp_mask i) =? 0)) (mode =? REGULATOR_MODE_IDLE)) then ret (mt6363_md_write_fault s (- EIO))
    else ret (0, s) in
  if (m.2 =? REGULATOR_MODE_IDLE) && (mode =? REGULATOR_MODE_NORMAL)
  then let! _ := ask (Udelay 100) in rest
  else rest.
Definition mt6363_md_set_load (s : mt6363_md_state) (load_uA : Z) : Z := - EOPNOTSUPP.

(** ** What the rails do to the PMIC *)

(** The observed control profile: the rail answers to the application processor alone. *)
Definition control_seen (i : mt6363_md_info) (s : trace request (Z * Z)) : Prop :=
  exists v, Z.land v 1 = 0 /\
    s = [(Read (op_en i + 0), (0, 0)); (Read (op_en i + 1), (0, 0)); (Read (op_en i + 2), (0, 0x80)); (Read (op_en i + 5), (0, 0x10))]
        ++ (if sshub_en i =? 0 then [] else [(Read (sshub_en i), (0, v))]).
Definition is_read (e : request * (Z * Z)) : Prop := match e.1 with Read _ => True | _ => False end.

(** [trace_close] ends a symbolic run whose claim is about the reads it made. *)
Ltac trace_close := cbn [app fst snd] in *; repeat (apply Forall_cons; split; [exact Logic.I|]); try apply Forall_nil; try constructor.

Lemma control_reads i : performs (mt6363_md_control i) (fun r s => Forall is_read s /\ (r = 0 -> control_seen i s)).
Proof.
  unfold mt6363_md_control. cbn [control_loop]. repeat trace_step;
    repeat match goal with p : (Z * Z)%type |- _ => destruct p as [? ?] end; cbn [fst snd Z.eqb Pos.eqb] in *;
    (split; [trace_close; trivial|]); intros Hr; try (exfalso; lia).
  - eexists z0. split; [lia|]. replace (sshub_en i =? 0) with false by lia. cbn. repeat f_equal; lia.
  - exists 0. split; [reflexivity|]. replace (sshub_en i =? 0) with true by lia. cbn. repeat f_equal; lia.
Qed.

Definition is_write (q : request) : bool :=
  match q with Write _ _ | Update_bits _ _ _ | Set_selector _ _ => true | _ => false end.
(** The requests of a trace that change the PMIC. *)
Definition writes (s : trace request (Z * Z)) : list request := List.filter is_write (map fst s).
Lemma writes_app a b : writes (a ++ b) = writes a ++ writes b.
Proof. unfold writes. now rewrite map_app, List.filter_app. Qed.
Lemma writes_reads s : Forall is_read s -> writes s = [].
Proof. induction 1 as [|[[] a] s Hq _ IH]; try destruct Hq; [reflexivity|exact IH]. Qed.
Lemma writes_cons q a s : writes ((q, a) :: s) = (if is_write q then [q] else []) ++ writes s.
Proof. unfold writes. cbn. now destruct (is_write q). Qed.

(** A change the rail may make: its own selector in range, its own enable bit
    through the set and clear aliases, its own low-power bit. *)
Definition legal (i : mt6363_md_info) (w : request) : Prop :=
  match w with
  | Set_selector rail sel => rail = id (desc i) /\ sel < n_voltages (desc i)
  | Write reg v => (reg = enable_reg (desc i) + 1 \/ reg = enable_reg (desc i) + 2) /\ v = enable_mask (desc i)
  | Update_bits reg mask v => reg = lp i /\ mask = lp_mask i /\ (v = 0 \/ v = lp_mask i)
  | _ => False
  end.
(** [disciplined i own ws]: the enable bit is cleared only directly after it
    was set here; [own] tells whether the last enable write was a set. *)
Fixpoint disciplined (i : mt6363_md_info) (own : bool) (ws : list request) : Prop :=
  match ws with
  | [] => True
  | Write reg _ :: ws => (reg = enable_reg (desc i) + 2 -> own = true) /\ disciplined i (reg =? enable_reg (desc i) + 1) ws
  | _ :: ws => disciplined i own ws
  end.
Fixpoint last_set (i : mt6363_md_info) (own : bool) (ws : list request) : bool :=
  match ws with
  | [] => own
  | Write reg _ :: ws => last_set i (reg =? enable_reg (desc i) + 1) ws
  | _ :: ws => last_set i own ws
  end.
Lemma disciplined_app i a b : forall own, disciplined i own a -> disciplined i (last_set i own a) b -> disciplined i own (a ++ b).
Proof. induction a as [|[] a IH]; intros own Ha Hb; cbn in *; auto. destruct Ha. auto. Qed.
Lemma last_set_app i a b : forall own, last_set i own (a ++ b) = last_set i (last_set i own a) b.
Proof. induction a as [|[] a IH]; intros own; cbn; auto. Qed.

(** The code that a failed write leaves. *)
Definition error_code (status : Z) : Z := if status <? 0 then status else - EPROTO.
(** The rail's selector was read between two sightings of the control profile. *)
Definition selector_seen (i : mt6363_md_info) (sel : Z) (tr : trace request (Z * Z)) : Prop :=
  exists c v c', control_seen i c /\ control_seen i c' /\ tr = c ++ (Read (vsel_reg (desc i)), (0, v)) :: c' /\
    sel = Z.land v (vsel_mask (desc i)) /\ sel < n_voltages (desc i).
(** Register accesses report zero or a negative code. *)
Definition statuses_ok (tr : trace request (Z * Z)) : Prop :=
  Forall (fun e => match e.1 with Is_enabled _ => True | _ => e.2.1 <= 0 end) tr.
(** What follows a change shows that it took effect: the selector, the enable
    state or the low-power bit is read back as written, with the control
    profile seen before it. *)
Definition confirmed (i : mt6363_md_info) (w : request) (after : trace request (Z * Z)) : Prop :=
  match w with
  | Set_selector _ sel => exists b rest r, after = b ++ rest /\ selector_seen i r b /\ u32 r = sel
  | Write reg _ => exists c x rest, after = c ++ (Is_enabled (id (desc i)), (bool_int (reg =? enable_reg (desc i) + 1), x)) :: rest /\ control_seen i c
  | Update_bits _ _ v => exists d c x rest, after = d ++ c ++ (Read (lp i), (0, x)) :: rest /\ (d = [] \/ exists y, d = [(Udelay 100, y)]) /\ control_seen i c /\
      (Z.land x (lp_mask i) <> 0 /\ v = lp_mask i \/ Z.land x (lp_mask i) = 0 /\ v = 0)
  | _ => True
  end.
(** A change that failed on the bus leaves its code and is the last one; one
    that another change follows, or after which no error is kept, succeeded
    and was read back. *)
Definition accounted (i : mt6363_md_info) (s' : mt6363_md_state) (tr : trace request (Z * Z)) : Prop :=
  forall t1 w a t2, tr = t1 ++ (w, a) :: t2 -> is_write w = true ->
    (a.1 <> 0 -> writes t2 = [] /\ first_write_error s' = error_code a.1) /\
    (writes t2 <> [] \/ first_write_error s' = 0 -> a.1 = 0 /\ (statuses_ok t2 -> confirmed i w t2)).

(** One operation makes at most one change, and only while no write failed. *)
Definition conduct (s : mt6363_md_state) (p : Z * mt6363_md_state) (tr : trace request (Z * Z)) : Prop :=
  let s' := p.2 in
  info s' = info s /\ registering s' = registering s /\ (first_write_error s <> 0 -> s' = s) /\
  (writes tr = [] /\ first_write_error s' = first_write_error s /\ (owns_enable s' = true -> owns_enable s = true) \/
   exists pre w a post, tr = pre ++ (w, a) :: post /\ writes pre = [] /\ writes post = [] /\ is_write w = true /\ legal (info s) w /\ first_write_error s = 0 /\ registering s = false /\
     disciplined (info s) (owns_enable s) [w] /\
     (owns_enable s' = true -> first_write_error s' = 0 -> last_set (info s) (owns_enable s) [w] = true) /\
     (a.1 <> 0 -> first_write_error s' = error_code a.1) /\ (first_write_error s' = 0 -> a.1 = 0 /\ (statuses_ok post -> confirmed (info s) w post))).

Lemma admit_conduct s : performs (mt6363_md_write_admit s)
  (fun r tr => Forall is_read tr /\ (r = 0 -> first_write_error s = 0 /\ registering s = false /\ control_seen (info s) tr)
     /\ (first_write_error s <> 0 -> r = first_write_error s)).
Proof.
  unfold mt6363_md_write_admit. trace_step; [trace_step; split_and!; [constructor|intros; exfalso; lia|lia]|].
  trace_step; [trace_step; split_and!; [constructor|intros; exfalso; lia|lia]|].
  eapply performs_impl; [apply control_reads|]. cbn. intros r tr [H1 H2]. split; [exact H1|]. split; [|intros; exfalso; lia].
  intros Hr. split; [lia|auto].
Qed.
Lemma write_fault_error s e : first_write_error s = 0 -> error_code e < 0 /\ mt6363_md_write_fault s e = (error_code e, set_error s (error_code e)).
Proof. intros H. unfold mt6363_md_write_fault, error_code. rewrite H. cbn. split; [|reflexivity]. destruct (Z.ltb_spec e 0); lia. Qed.

Lemma control_status i : performs (mt6363_md_control i) (fun r tr => statuses_ok tr -> r <= 0).
Proof.
  unfold mt6363_md_control. cbn [control_loop]. unfold statuses_ok. repeat trace_step; cbn; rewrite ?Forall_cons; cbn; lia.
Qed.
Lemma selector_reads i : performs (mt6363_md_selector i) (fun r tr => Forall is_read tr /\
  (statuses_ok tr -> 0 <= r -> selector_seen i r tr)).
Proof.
  unfold mt6363_md_selector. eapply performs_bind; [apply performs_and; [apply control_reads|apply control_status]|].
  intros r c ([H1 H2] & H3). unfold statuses_ok in *. trace_step; [trace_step; rewrite app_nil_r; split; [exact H1|]; intros Ho; specialize (H3 Ho); lia|].
  assert (r = 0) as -> by lia. specialize (H2 eq_refl). trace_step. cbv zeta. trace_step.
  { trace_step. split; [apply Forall_app; split; [exact H1|repeat constructor]|]. rewrite Forall_app, Forall_singleton. cbn. lia. }
  trace_step.
  { trace_step. split; [apply Forall_app; split; [exact H1|repeat constructor]|]. lia. }
  eapply performs_bind; [apply performs_and; [apply control_reads|apply control_status]|].
  intros r c' ([H4 H5] & H6). trace_step.
  - trace_step. split; [apply Forall_app; split; [exact H1|]; constructor; [exact Logic.I|rewrite app_nil_r; exact H4]|].
    rewrite app_nil_r, Forall_app, Forall_cons. intros (_ & _ & Ho). specialize (H6 Ho). lia.
  - trace_step. rewrite app_nil_r. split; [apply Forall_app; split; [exact H1|]; constructor; [exact Logic.I|exact H4]|].
    intros _ _. destruct p as [st v]. cbn [fst snd] in *. assert (st = 0) as -> by lia. exists c, v, c'.
    split; [exact H2|]. split; [apply H5; lia|]. split; [reflexivity|]. split; [reflexivity|lia].
Qed.

Lemma conduct_none s r tr : writes tr = [] -> conduct s (r, s) tr.
Proof. intros Hw. unfold conduct. split_and!; auto. Qed.
Lemma conduct_fault s e w a pre post : writes pre = [] -> writes post = [] -> is_write w = true -> legal (info s) w -> disciplined (info s) (owns_enable s) [w] ->
  first_write_error s = 0 -> registering s = false -> (a.1 <> 0 -> e = a.1) -> conduct s (mt6363_md_write_fault s e) (pre ++ (w, a) :: post).
Proof.
  intros H1 H2 Hw Hl Hd He Hr Ha. destruct (write_fault_error s e He) as (Hn & ->). unfold conduct. cbn. split_and!; try reflexivity; [contradiction|].
  right. exists pre, w, a, post. split_and!; try assumption; [reflexivity|lia|intros N; now rewrite (Ha N)|lia].
Qed.
Lemma conduct_done s w a pre post : writes pre = [] -> writes post = [] -> is_write w = true -> legal (info s) w -> disciplined (info s) (owns_enable s) [w] ->
  first_write_error s = 0 -> registering s = false -> last_set (info s) (owns_enable s) [w] = owns_enable s -> a.1 = 0 -> (statuses_ok post -> confirmed (info s) w post) ->
  conduct s (0, s) (pre ++ (w, a) :: post).
Proof. intros H1 H2 Hw Hl Hd He Hr Hs Ha Hc. unfold conduct. cbn [snd]. split_and!; auto. right. exists pre, w, a, post. split_and!; auto; [congruence|contradiction]. Qed.

(** [known_writes] computes the changes of a trace whose parts are reads. *)
Ltac known_writes :=
  repeat first [rewrite app_nil_r | rewrite writes_app | rewrite writes_cons | rewrite writes_reads by assumption]; reflexivity.

Lemma set_voltage_conduct s sel : performs (mt6363_md_set_voltage_sel s sel) (conduct s).
Proof.
  unfold mt6363_md_set_voltage_sel. eapply performs_bind; [apply admit_conduct|]. intros r c (H1 & H2 & H3).
  trace_step; [trace_step; apply conduct_none; known_writes|].
  destruct (H2 ltac:(lia)) as (He & Hr & _).
  trace_step; [trace_step; apply conduct_none; known_writes|]. trace_step. set (w := Set_selector _ _).
  assert (Hl : legal (info s) w) by (unfold w; cbn; split; [reflexivity|lia]).
  trace_step; [trace_step; apply (conduct_fault _ _ w); [known_writes|known_writes|reflexivity|assumption|exact Logic.I|assumption..|auto]|].
  eapply performs_bind; [apply selector_reads|]. intros r' c' [H4 H5].
  trace_step; [trace_step; apply (conduct_fault _ _ w); [known_writes|known_writes|reflexivity|assumption|exact Logic.I|assumption..|lia]|].
  trace_step; [trace_step; apply (conduct_fault _ _ w); [known_writes|known_writes|reflexivity|assumption|exact Logic.I|assumption..|lia]|].
  trace_step. apply (conduct_done _ w); [known_writes|known_writes|reflexivity|assumption|exact Logic.I|assumption..|reflexivity|lia|].
  intros Ho. rewrite app_nil_r in *. exists c', [], r'. rewrite app_nil_r. split; [reflexivity|]. split; [apply H5; [exact Ho|lia]|lia].
Qed.

Lemma enable_conduct s enable : performs (mt6363_md_enable_request s enable) (conduct s).
Proof.
  unfold mt6363_md_enable_request. eapply performs_bind; [apply admit_conduct|]. intros r c (H1 & H2 & H3).
  trace_step; [trace_step; apply conduct_none; known_writes|].
  destruct (H2 ltac:(lia)) as (He & Hr & _). trace_step. cbv zeta.
  trace_step; [trace_step; apply conduct_none; known_writes|].
  trace_step.
  { trace_step. assert (Hw : writes (c ++ [(Is_enabled (id (desc (info s))), p)]) = []) by known_writes.
    destruct (p.1 =? 0); [|now apply conduct_none]. unfold conduct. cbn. split_and!; auto; [contradiction|]. left. split_and!; auto. discriminate. }
  trace_step; [trace_step; apply conduct_none; known_writes|]. trace_step. set (w := Write _ _). set (e1 := (Is_enabled _, p)).
  assert (Hl : legal (info s) w) by (unfold w; cbn; destruct enable; auto).
  assert (Hd : disciplined (info s) (owns_enable s) [w]).
  { unfold w. cbn. split; [|exact Logic.I]. destruct enable; [lia|]. intros _. destruct (owns_enable s); [reflexivity|discriminate]. }
  assert (Hc1 : writes (c ++ [e1]) = []) by (unfold e1; known_writes).
  assert (F : forall e post, writes post = [] -> (p0.1 <> 0 -> e = p0.1) -> conduct s (mt6363_md_write_fault s e) (c ++ e1 :: (w, p0) :: post)).
  { intros e post Hp Ha. change (e1 :: (w, p0) :: post) with ([e1] ++ (w, p0) :: post). rewrite app_assoc. now apply conduct_fault. }
  trace_step; [trace_step; apply F; [reflexivity|auto]|].
  eapply performs_bind; [apply control_reads|]. intros r' c' [H4 H5].
  trace_step; [trace_step; apply F; [known_writes|lia]|]. trace_step.
  trace_step; [trace_step; apply F; [known_writes|lia]|].
  trace_step; [trace_step; apply F; [known_writes|lia]|].
  trace_step. unfold conduct. cbn. split_and!; auto; [contradiction|]. right. exists (c ++ [e1]), w, p0, (c' ++ [(Is_enabled (id (desc (info s))), p1)]).
  split_and!; try assumption; [now rewrite <- app_assoc|known_writes|reflexivity|intros -> _; unfold w; cbn; lia|lia|].
  intros _. split; [lia|]. intros _. unfold w. cbn. destruct p1 as [st x]. cbn [fst] in *. exists c', x, []. split; [|apply H5; lia].
  replace (_ + (if enable then 1 else 2) =? _) with enable by (destruct enable; lia). now replace st with (bool_int enable) by lia.
Qed.

Lemma read_mode_reads i : performs (mt6363_md_read_mode i) (fun r tr => Forall is_read tr).
Proof. unfold mt6363_md_read_mode. cbv zeta. repeat trace_step; repeat constructor. Qed.
(** The end of a change of mode, after the write and a wait [d]. *)
Lemma mode_tail s mode c1 a d : let i := info s in let w := Update_bits (lp i) (lp_mask i) (if mode =? REGULATOR_MODE_IDLE then lp_mask i else 0) in
  writes c1 = [] -> first_write_error s = 0 -> registering s = false -> a.1 = 0 -> (d = [] \/ exists y, d = [(Udelay 100, y)]) ->
  performs (let! r := mt6363_md_control i in
    if negb (r =? 0) then ret (mt6363_md_write_fault s r)
    else
    let! b := ask (Read (lp i)) in
    if negb (b.1 =? 0) then ret (mt6363_md_write_fault s b.1)
    else if negb (Bool.eqb (negb (Z.land b.2 (lp_mask i) =? 0)) (mode =? REGULATOR_MODE_IDLE)) then ret (mt6363_md_write_fault s (- EIO))
    else ret (0, s)) (fun p tr => conduct s p (c1 ++ (w, a) :: d ++ tr)).
Proof.
  intros i w H1 He Hr Ha Hd. assert (Hl : legal i w) by (unfold w; cbn; split; [reflexivity|]; split; [reflexivity|]; destruct (mode =? 4); auto).
  assert (Wd : writes d = []) by (destruct Hd as [->|[y ->]]; reflexivity).
  assert (F : forall e post, writes post = [] -> conduct s (mt6363_md_write_fault s e) (c1 ++ (w, a) :: d ++ post)).
  { intros e post Hp. apply (conduct_fault s e w a c1 (d ++ post)); try assumption; [now rewrite writes_app, Wd, Hp|reflexivity|exact Logic.I|lia]. }
  eapply performs_bind; [apply control_reads|]. intros r c2 [H5 H6]. trace_step; [trace_step; apply F; known_writes|]. trace_step.
  trace_step; [trace_step; apply F; known_writes|]. trace_step; [trace_step; apply F; known_writes|]. trace_step.
  apply (conduct_done s w a c1); try assumption; [rewrite writes_app, Wd; known_writes|reflexivity|exact Logic.I|reflexivity|]. intros _. destruct p as [st x]. cbn [fst snd] in *. exists d, c2, x, [].
  assert (st = 0) as -> by lia. split; [reflexivity|]. split; [exact Hd|]. split; [apply H6; lia|]. fold i. destruct (mode =? 4); [left|right]; (split; [lia|reflexivity]).
Qed.
Lemma set_mode_conduct s mode : performs (mt6363_md_set_mode s mode) (conduct s).
Proof.
  unfold mt6363_md_set_mode. cbv zeta. eapply performs_bind; [apply admit_conduct|]. intros r c (H1 & H2 & H3).
  trace_step; [trace_step; apply conduct_none; known_writes|].
  destruct (H2 ltac:(lia)) as (He & Hr & _).
  trace_step; [trace_step; apply conduct_none; known_writes|].
  eapply performs_bind; [apply read_mode_reads|]. intros m c1 H4.
  trace_step; [trace_step; apply conduct_none; known_writes|].
  trace_step; [trace_step; apply conduct_none; known_writes|]. trace_step.
  trace_step; [trace_step; apply conduct_none; known_writes|].
  trace_step; [trace_step; apply conduct_none; known_writes|]. trace_step. set (w := Update_bits _ _ _). set (e1 := (Read (lp (info s)), p)).
  assert (Wc : writes (c ++ c1 ++ [e1]) = []) by (unfold e1; known_writes).
  assert (A : forall post, c ++ c1 ++ e1 :: (w, p0) :: post = (c ++ c1 ++ [e1]) ++ (w, p0) :: post) by (intros post; now rewrite <- !app_assoc).
  trace_step.
  { trace_step. rewrite A. assert (Hl : legal (info s) w) by (unfold w; cbn; split; [reflexivity|]; split; [reflexivity|]; destruct (mode =? 4); auto). now apply conduct_fault. }
  trace_step; [trace_step|]; (eapply performs_impl; [apply (mode_tail s mode (c ++ c1 ++ [e1]) p0); [assumption..|lia|]|]).
  - right. now exists p1.
  - intros q tr H. cbv beta in H. rewrite A. exact H.
  - now left.
  - intros q tr H. cbv beta in H. rewrite A. exact H.
Qed.

(** *** Histories of one rail *)

Inductive rail_call : Type :=
| Get_voltage_sel | Set_voltage_sel (sel : Z) | Enable | Disable | Is_on | Get_mode | Set_mode (mode : Z) | Set_load (load_uA : Z).
Definition rail_step (c : rail_call) (s : mt6363_md_state) : pio (Z * mt6363_md_state) :=
  match c with
  | Get_voltage_sel => let! r := mt6363_md_get_voltage_sel s in ret (r, s)
  | Set_voltage_sel sel => mt6363_md_set_voltage_sel s sel
  | Enable => mt6363_md_enable s
  | Disable => mt6363_md_disable s
  | Is_on => let! r := mt6363_md_is_enabled s in ret (r, s)
  | Get_mode => let! r := mt6363_md_get_mode s in ret (r, s)
  | Set_mode mode => mt6363_md_set_mode s mode
  | Set_load load_uA => ret (mt6363_md_set_load s load_uA, s)
  end.
Fixpoint rail_run (s : mt6363_md_state) (cs : list rail_call) : pio mt6363_md_state :=
  match cs with
  | [] => ret s
  | c :: cs => let! p := rail_step c s in rail_run p.2 cs
  end.

Lemma rail_step_conduct c s : performs (rail_step c s) (conduct s).
Proof.
  destruct c; cbn [rail_step].
  - eapply performs_bind; [apply selector_reads|]. intros r tr [Hr _]. trace_step. apply conduct_none. known_writes.
  - apply set_voltage_conduct.
  - apply enable_conduct.
  - apply enable_conduct.
  - eapply performs_bind; [|intros r tr Hw; trace_step; apply conduct_none; rewrite app_nil_r; exact Hw].
    unfold mt6363_md_is_enabled. eapply performs_bind; [apply control_reads|]. intros r c [H1 _].
    trace_step; [trace_step; known_writes|]. trace_step. cbv zeta. trace_step; [trace_step; known_writes|].
    eapply performs_bind; [apply control_reads|]. intros r' c' [H2 _]. trace_step; trace_step; known_writes.
  - eapply performs_bind; [|intros r tr Hw; trace_step; apply conduct_none; rewrite app_nil_r; exact Hw].
    unfold mt6363_md_get_mode. eapply performs_bind; [apply read_mode_reads|]. intros r c H1. trace_step; trace_step; known_writes.
  - apply set_mode_conduct.
  - trace_step. now apply conduct_none.
Qed.

(** The only change of a trace. *)
Lemma writes_split pre w a post t1 w' a' t2 : writes pre = [] -> writes post = [] -> is_write w' = true ->
  pre ++ (w, a) :: post = t1 ++ (w', a') :: t2 -> t1 = pre /\ w' = w /\ a' = a /\ t2 = post.
Proof.
  revert t1. induction pre as [|[q b] pre IH]; intros [|e t1] H1 H2 Hw E; cbn [Datatypes.app] in E.
  - now injection E as -> -> ->.
  - injection E as _ ->. rewrite writes_app, writes_cons, Hw in H2. destruct (writes t1); discriminate H2.
  - injection E as -> -> _. rewrite writes_cons, Hw in H1. discriminate H1.
  - injection E as <- E. rewrite writes_cons in H1. apply app_eq_nil in H1 as [_ H1]. destruct (IH t1 H1 H2 Hw E) as (-> & R). now split.
Qed.
Lemma confirmed_app i w t t' : confirmed i w t -> confirmed i w (t ++ t').
Proof.
  destruct w; cbn; [trivial| | |trivial| |trivial].
  - intros (c & x & rest & -> & H). exists c, x, (rest ++ t'). split; [now rewrite <- app_assoc|exact H].
  - intros (d & c & x & rest & -> & H). exists d, c, x, (rest ++ t'). split; [now rewrite <- !app_assoc|exact H].
  - intros (b & rest & r & -> & H). exists b, (rest ++ t'), r. split; [now rewrite <- app_assoc|exact H].
Qed.
Lemma accounted_quiet i s tr : writes tr = [] -> accounted i s tr.
Proof. intros H t1 w a t2 -> Hw. rewrite writes_app, writes_cons, Hw in H. destruct (writes t1); discriminate H. Qed.
(** One call and then the others. *)
Lemma accounted_app s p tr1 s2 tr2 : conduct s p tr1 -> accounted (info s) s2 tr2 -> (first_write_error p.2 <> 0 -> s2 = p.2 /\ writes tr2 = []) -> accounted (info s) s2 (tr1 ++ tr2).
Proof.
  intros (_ & _ & _ & H) H2 Hf t1 w a t2 E Hw. apply app_eq_inv in E as [(t & E1 & E2)|(t & E1 & E2)].
  - destruct t as [|e t]; [cbn in E2; symmetry in E2; exact (H2 [] w a t2 E2 Hw)|]. injection E2 as <- ->. subst tr1. rewrite writes_app.
    destruct H as [(Hn & _)|(pre & w1 & a1 & post & E & P1 & P2 & _ & _ & _ & _ & _ & _ & Ha & Hc)]; [rewrite writes_app, writes_cons, Hw in Hn; destruct (writes t1); discriminate Hn|].
    destruct (writes_split pre w1 a1 post t1 w a t P1 P2 Hw (eq_sym E)) as (-> & -> & -> & ->). rewrite P2. cbn [Datatypes.app]. split.
    + intros N. assert (Hp : first_write_error p.2 <> 0) by (rewrite (Ha N); unfold error_code; destruct (Z.ltb_spec a1.1 0); lia). destruct (Hf Hp) as [-> ->]. split; [reflexivity|auto].
    + intros Hs. assert (Hp : first_write_error p.2 = 0). { destruct (Z.eq_dec (first_write_error p.2) 0) as [|N]; [assumption|]. destruct (Hf N) as [-> Hn]. destruct Hs; [contradiction|assumption]. }
      destruct (Hc Hp) as [Ha0 Hc0]. split; [exact Ha0|]. intros [Ho _]%Forall_app. now apply confirmed_app, Hc0.
  - now apply (H2 t w a t2).
Qed.

(** C32. What the rails can do to the PMIC, in any history of regulator calls
    and whatever the PMIC and the bus answer: every change is a selector in the
    rail's range, its own enable bit through the set or clear alias, or its own
    low-power bit; there is at most one change per call; the enable bit is
    cleared only when the last enable write was this rail's own set. A change
    that fails on the bus is the last one ever, and its code is kept; a change
    that is followed by another, or after which no error is kept, succeeded
    and was read back as written behind the control profile. A rail that is
    being registered, or has an error, makes no change and keeps its error. *)
Theorem rail_discipline s cs :
  performs (rail_run s cs) (fun s' tr =>
    info s' = info s /\ Forall (legal (info s)) (writes tr) /\ (length (writes tr) <= length cs)%nat /\
    disciplined (info s) (owns_enable s) (writes tr) /\ accounted (info s) s' tr /\
    (first_write_error s <> 0 -> s' = s /\ writes tr = []) /\
    (registering s = true -> registering s' = true /\ writes tr = [])).
Proof.
  cut (forall own, (owns_enable s = true -> first_write_error s = 0 -> own = true) ->
    performs (rail_run s cs) (fun s' tr =>
      info s' = info s /\ Forall (legal (info s)) (writes tr) /\ (length (writes tr) <= length cs)%nat /\
      disciplined (info s) own (writes tr) /\ accounted (info s) s' tr /\ (first_write_error s <> 0 -> s' = s /\ writes tr = []) /\
      (registering s = true -> registering s' = true /\ writes tr = []))).
  { intros H. apply H. auto. }
  revert s. induction cs as [|c cs IH]; intros s own Hown; cbn [rail_run].
  { trace_step. split; [reflexivity|]. split; [constructor|]. split; [cbn; lia|]. split; [exact Logic.I|]. split; [now apply accounted_quiet|]. auto. }
  eapply performs_bind; [apply rail_step_conduct|]. intros [r s1] tr1 Hcon. pose proof Hcon as (I1 & I2 & I3 & I4). cbn [snd] in *.
  set (own' := last_set (info s) own (writes tr1)).
  assert (Hstep : (length (writes tr1) <= 1)%nat /\ Forall (legal (info s)) (writes tr1) /\ disciplined (info s) own (writes tr1) /\
    (owns_enable s1 = true -> first_write_error s1 = 0 -> own' = true) /\
    (first_write_error s <> 0 \/ registering s = true -> writes tr1 = [])).
  { unfold own'. destruct I4 as [(Hw & He & Ho)|(pre & w & a & post & -> & P1 & P2 & Hw & Hl & He & Hr & Hd & Ho & _)].
    - rewrite Hw. cbn [length]. split_and!; try constructor; try lia. cbn. intros A B. rewrite He in B. auto.
    - rewrite writes_app, writes_cons, Hw, P1, P2. cbn [length Datatypes.app]. split; [lia|]. split; [now apply Forall_singleton|]. split; [|split].
      + destruct w; cbn in Hd |- *; try exact Logic.I. split; [|exact Logic.I]. intros E. apply Hown; [now apply Hd|exact He].
      + destruct w; cbn in Ho |- *; try (now auto).
        all: intros A B; destruct (owns_enable s) eqn:Eo; [now apply Hown|now apply Ho].
      + intros [|]; [contradiction|congruence]. }
  destruct Hstep as (S1 & S2 & S3 & S4 & S5).
  eapply performs_impl; [apply (IH s1 own' S4)|]. intros s2 tr2 (R1 & R2 & R3 & R4 & R7 & R5 & R6). rewrite I1 in *.
  assert (Hacc : accounted (info s) s2 (tr1 ++ tr2)) by (eapply accounted_app; [exact Hcon|exact R7|exact R5]).
  rewrite writes_app. split; [congruence|]. split; [now apply Forall_app|]. split; [rewrite length_app; cbn; lia|].
  split; [now apply disciplined_app|]. split; [exact Hacc|]. split.
  - intros Hf. specialize (I3 Hf). subst s1. destruct (R5 Hf) as [-> ->]. rewrite S5 by auto. auto.
  - intros Hf. destruct R6 as [R6 ->]; [congruence|]. rewrite S5 by auto. auto.
Qed.

(** ** What success means *)

Lemma rails_bounds i : i ∈ mt6363_md_rails -> 0 < n_voltages (desc i) <= 192.
Proof. unfold mt6363_md_rails. rewrite !elem_of_cons. intros [->|[->|[->|Hn]]]; [cbn; lia..|]. now apply not_elem_of_nil in Hn. Qed.

Lemma fault_nonzero s e : first_write_error s = 0 -> (mt6363_md_write_fault s e).1 <> 0.
Proof. intros He. destruct (write_fault_error s e He) as (Hn & ->). cbn. lia. Qed.
(** [faulted He] closes a branch that reports a failed write as success. *)
Ltac faulted He := intros; exfalso; match goal with Hz : _ = 0 |- _ => exact (fault_nonzero _ _ He Hz) end.

Lemma set_voltage_verified s sel : info s ∈ mt6363_md_rails ->
  performs (mt6363_md_set_voltage_sel s sel) (fun p tr => statuses_ok tr -> p.1 = 0 -> p.2 = s /\
    exists c x b, control_seen (info s) c /\ tr = c ++ (Set_selector (id (desc (info s))) sel, (0, x)) :: b /\ selector_seen (info s) sel b).
Proof.
  intros Hrail. apply rails_bounds in Hrail. unfold mt6363_md_set_voltage_sel.
  eapply performs_bind; [apply admit_conduct|]. intros r c (H1 & H2 & H3). trace_step; [trace_step; cbn; lia|].
  destruct (H2 ltac:(lia)) as (He & Hr & Hc). trace_step; [trace_step; cbn; lia|]. trace_step.
  trace_step; [trace_step; faulted He|].
  eapply performs_bind; [apply selector_reads|]. intros r' b [H4 H5].
  trace_step; [trace_step; faulted He|].
  trace_step; [trace_step; faulted He|].
  trace_step. rewrite app_nil_r. cbn [fst snd]. intros Ho _. split; [reflexivity|].
  assert (Hb : statuses_ok b) by (unfold statuses_ok in *; rewrite Forall_app, Forall_cons in Ho; apply Ho).
  specialize (H5 Hb ltac:(lia)). destruct p as [st x]. cbn [fst] in *. assert (st = 0) as -> by lia.
  assert (Hu : u32 r' = r'). { apply u32_id. destruct H5 as (? & ? & ? & _ & _ & _ & _ & Hlt). unfold is_u32. lia. }
  rewrite Hu in *. assert (r' = sel) as -> by lia. exists c, x, b. auto.
Qed.
Lemma enable_verified s enable :
  performs (mt6363_md_enable_request s enable) (fun p tr => p.1 = 0 ->
    (exists a b, tr = a ++ [(Is_enabled (id (desc (info s))), (bool_int enable, b))]) /\ info p.2 = info s /\
    (writes tr <> [] -> owns_enable p.2 = enable) /\ (enable = false -> owns_enable p.2 = false)).
Proof.
  unfold mt6363_md_enable_request. eapply performs_bind; [apply admit_conduct|]. intros r c (H1 & H2 & H3). trace_step; [trace_step; cbn; lia|].
  destruct (H2 ltac:(lia)) as (He & Hr & Hc). trace_step. cbv zeta. trace_step; [trace_step; cbn; lia|]. destruct p as [en b]. cbn [fst] in *.
  trace_step.
  { trace_step. assert (en = bool_int enable) as -> by lia. cbn [fst snd]. intros _.
    assert (Hw : writes (c ++ [(Is_enabled (id (desc (info s))), (bool_int enable, b))]) = []) by known_writes. rewrite Hw.
    destruct enable; cbn; (split; [eauto|]); (split; [reflexivity|]); (split; [contradiction|]); [discriminate|reflexivity]. }
  trace_step; [trace_step; cbn; lia|]. trace_step.
  trace_step; [trace_step; faulted He|].
  eapply performs_bind; [apply control_reads|]. intros r' c' [H4 _].
  trace_step; [trace_step; faulted He|]. trace_step.
  trace_step; [trace_step; faulted He|].
  trace_step; [trace_step; faulted He|].
  trace_step. destruct p0 as [st b']. cbn [fst snd] in *. assert (st = bool_int enable) as -> by lia. intros _. split; [|split; [reflexivity|cbn; auto]].
  eexists (c ++ [_; _] ++ c'), b'. rewrite <- !app_assoc. reflexivity.
Qed.
Lemma set_mode_verified s mode :
  performs (mt6363_md_set_mode s mode) (fun p tr => p.1 = 0 ->
    (mode = REGULATOR_MODE_NORMAL \/ mode = REGULATOR_MODE_IDLE) /\ p.2 = s /\
    exists a v, tr = a ++ [(Read (lp (info s)), (0, v))] /\ (Z.land v (lp_mask (info s)) <> 0 <-> mode = REGULATOR_MODE_IDLE)).
Proof.
  unfold mt6363_md_set_mode. cbv zeta. eapply performs_bind; [apply admit_conduct|]. intros r c (H1 & H2 & H3). trace_step; [trace_step; cbn; lia|].
  destruct (H2 ltac:(lia)) as (He & Hr & Hc). trace_step; [trace_step; cbn; lia|].
  eapply performs_bind; [apply read_mode_reads|]. intros m c1 H4. trace_step; [trace_step; cbn; lia|].
  trace_step; [trace_step; cbn; lia|]. trace_step. trace_step; [trace_step; cbn; lia|]. trace_step; [trace_step; cbn; lia|]. trace_step.
  trace_step; [trace_step; faulted He|].
  trace_step; [trace_step|]; (eapply performs_bind; [apply control_reads|]); intros r' c2 [H5 _];
    (trace_step; [trace_step; faulted He|]); trace_step;
    (trace_step; [trace_step; faulted He|]);
    (trace_step; [trace_step; faulted He|]);
    trace_step; intros _; (split; [lia|]); (split; [reflexivity|]);
    lazymatch goal with |- context [(Read (lp _), ?q) :: []] => destruct q as [st v] end; cbn [fst snd] in *; (assert (st = 0) as -> by lia);
    [eexists (c ++ c1 ++ [_; _; _] ++ c2), v|eexists (c ++ c1 ++ [_; _] ++ c2), v]; (split; [rewrite <- !app_assoc; reflexivity|]); lia.
Qed.

(** A reported success is an observed one. Setting a selector of a modem
    rail reports success only after the rail answered to the application
    processor alone, the selector was written, and it was read back between
    two more sightings of that control profile. Enabling or disabling reports
    success only when the last thing seen was the requested enable state, and
    leaves the disable permission exactly with a rail this driver enabled.
    Setting a mode reports success only for the two supported modes, with the
    low-power bit read back as requested. *)
Theorem rail_success_verified s : info s ∈ mt6363_md_rails ->
  (forall sel, performs (mt6363_md_set_voltage_sel s sel) (fun p tr => statuses_ok tr -> p.1 = 0 -> p.2 = s /\
     exists c x b, control_seen (info s) c /\ tr = c ++ (Set_selector (id (desc (info s))) sel, (0, x)) :: b /\ selector_seen (info s) sel b)) /\
  (forall enable, performs (mt6363_md_enable_request s enable) (fun p tr => p.1 = 0 ->
     (exists a b, tr = a ++ [(Is_enabled (id (desc (info s))), (bool_int enable, b))]) /\ info p.2 = info s /\
     (writes tr <> [] -> owns_enable p.2 = enable) /\ (enable = false -> owns_enable p.2 = false))) /\
  (forall mode, performs (mt6363_md_set_mode s mode) (fun p tr => p.1 = 0 ->
     (mode = REGULATOR_MODE_NORMAL \/ mode = REGULATOR_MODE_IDLE) /\ p.2 = s /\
     exists a v, tr = a ++ [(Read (lp (info s)), (0, v))] /\ (Z.land v (lp_mask (info s)) <> 0 <-> mode = REGULATOR_MODE_IDLE))).
Proof. intros Hrail. auto using set_voltage_verified, enable_verified, set_mode_verified. Qed.

(** A PMIC whose control profile is normal, with rail 1 selecting 100. *)
Definition example_pmic : environment request (Z * Z) := fun _ q =>
  match q with
  | Read reg => (0, if reg =? 0x150f then 0x80 else if reg =? 0x1512 then 0x10 else if reg =? 0x24d then 100 else 0)
  | Is_enabled _ => (0, 0)
  | _ => (0, 0)
  end.
Definition vbuck1 : mt6363_md_state := RailState (nth 0 mt6363_md_rails (Info (Desc "none" 0 [] 0 0 0 0 0 0) 0 0 0 0 0 0 0 0)) 0 false false.
Lemma rail_success_verified_witness :
  (mt6363_md_set_voltage_sel vbuck1 100 example_pmic []).1 = (0, vbuck1) /\
  exists c x b, control_seen (info vbuck1) c /\
    (mt6363_md_set_voltage_sel vbuck1 100 example_pmic []).2 = c ++ (Set_selector 1 100, (0, x)) :: b /\ selector_seen (info vbuck1) 100 b.
Proof.
  destruct (rail_success_verified vbuck1) as (V & _); [cbn; set_solver|].
  destruct (V 100 example_pmic []) as (p & tr & E & K). split; [reflexivity|]. rewrite E. cbn [snd app]. apply K.
  - assert (tr = (mt6363_md_set_voltage_sel vbuck1 100 example_pmic []).2) as -> by now rewrite E. vm_compute. repeat constructor; discriminate.
  - assert (p = (mt6363_md_set_voltage_sel vbuck1 100 example_pmic []).1) as -> by now rewrite E. reflexivity.
Defined.

(** ** Registration from the device tree *)

(** What the kernel reports of a device tree node. *)
Record device_node : Type := Node {
  node_name : string;
  child_count : Z;
  property_names : list string;
  property_present : string -> bool;
  count_u32_elems : string -> Z;
  read_u32 : string -> Z * Z;
  read_u32_index : string -> Z -> Z * Z;
  read_string : string -> Z * string
}.
Open Scope string_scope.
Definition allowed_properties : list string :=
  ["status"; "regulator-name"; "regulator-compatible"; "phandle"; "linux,phandle"; "regulator-min-microvolt"; "regulator-max-microvolt";
   "regulator-enable-ramp-delay"; "regulator-allowed-modes"].
(** The loop over the listed modes from index [i] on, [n] of them left. *)
Fixpoint modes_loop (node : device_node) (n : nat) (i : Z) : Z :=
  match n with
  | O => 0
  | S n =>
    let '(r, mode) := read_u32_index node "regulator-allowed-modes" i in
    if negb (r =? 0)%Z then r
    else if (mt6363_md_map_mode mode =? REGULATOR_MODE_INVALID)%Z then (- EOPNOTSUPP)%Z
    else modes_loop node n (i + 1)
  end.
Definition dt_modes (node : device_node) : Z :=
  (if property_present node "regulator-allowed-modes" then
     let count := count_u32_elems node "regulator-allowed-modes" in
     if (count <? 1) || (2 <? count) then - EINVAL else modes_loop node (Z.to_nat count) 0
   else 0)%Z.
Definition dt_delay (node : device_node) : Z :=
  (if property_present node "regulator-enable-ramp-delay" then
     if negb (count_u32_elems node "regulator-enable-ramp-delay" =? 1) then - EINVAL
     else let '(r, delay) := read_u32 node "regulator-enable-ramp-delay" in
          if negb (r =? 0) then r else if negb (delay =? 180) then - EOPNOTSUPP else dt_modes node
   else dt_modes node)%Z.
Definition dt_bounds (node : device_node) : Z :=
  (if negb (count_u32_elems node "regulator-min-microvolt" =? 1) then - EINVAL
   else if negb (count_u32_elems node "regulator-max-microvolt" =? 1) then - EINVAL
   else dt_delay node)%Z.
Definition mt6363_md_dt (node : device_node) (n : string) : Z :=
  (if negb (child_count node =? 0) then - EOPNOTSUPP
   else if existsb (fun p => negb (existsb (String.eqb p) allowed_properties)) (property_names node) then - EOPNOTSUPP
   else if property_present node "regulator-compatible" then
     let '(r, match_) := read_string node "regulator-compatible" in
     if negb (r =? 0) then r else if negb (String.eqb match_ n) then - EINVAL else dt_bounds node
   else dt_bounds node)%Z.
Close Scope string_scope.

(** The rails of one child, in the order of the table; [nodes] are the nodes found so far. *)
Fixpoint child_loop (child : device_node) (rails : list mt6363_md_info) (i : nat) (nodes : list (option device_node)) : Z + list (option device_node) :=
  match rails with
  | [] => inr nodes
  | r :: rails =>
    if negb (String.eqb (node_name child) (name (desc r))) then child_loop child rails (S i) nodes
    else match nodes !! i with
         | Some (Some _) => inl (- EEXIST)
         | _ =>
           let e := mt6363_md_dt child (name (desc r)) in
           if negb (e =? 0) then inl e else child_loop child rails (S i) (<[i := Some child]> nodes)
         end
  end.
Fixpoint walk (children : list device_node) (nodes : list (option device_node)) : Z + list (option device_node) :=
  match children with
  | [] => inr nodes
  | c :: children => match child_loop c mt6363_md_rails 0 nodes with inl e => inl e | inr nodes => walk children nodes end
  end.
(** Registering the rails found; [init_data] tells whether the core parsed the
    node, [register] is the core's answer for the rail. *)
Fixpoint register_loop (init_data : device_node -> bool) (register : mt6363_md_info -> Z) (rails : list mt6363_md_info)
    (nodes : list (option device_node)) : Z * list (option mt6363_md_state) :=
  match rails, nodes with
  | i :: rails, Some node :: nodes =>
    let s := RailState i 0 true false in
    if negb (init_data node) then (- EINVAL, [Some s])
    else
    let r := register i in
    if negb (r =? 0) then (r, [Some s])
    else let '(ret, states) := register_loop init_data register rails nodes in (ret, Some (set_registering s false) :: states)
  | _ :: rails, None :: nodes => let '(ret, states) := register_loop init_data register rails nodes in (ret, None :: states)
  | _, _ => (0, [])
  end.
(** [allocated] says whether the states and the lock were allocated. *)
Definition mt6363_md_register (init_data : device_node -> bool) (register : mt6363_md_info -> Z) (allocated : bool)
    (children : list device_node) : Z * list (option mt6363_md_state) :=
  match walk children [None; None; None] with
  | inl e => (e, [])
  | inr nodes =>
    if forallb (fun n => match n with None => true | Some _ => false end) nodes then (0, [])
    else if negb allocated then (- ENOMEM, [])
    else register_loop init_data register mt6363_md_rails nodes
  end.

(** The nodes found are children with the rail's name whose properties are admissible. *)
Definition found (children : list device_node) (rail : mt6363_md_info) (n : option device_node) : Prop :=
  match n with
  | None => True
  | Some node => node ∈ children /\ node_name node = name (desc rail) /\ mt6363_md_dt node (name (desc rail)) = 0
  end.
Lemma child_loop_found children child : child ∈ children -> forall rails i nodes nodes',
  (forall j r n, mt6363_md_rails !! j = Some r -> nodes !! j = Some n -> found children r n) ->
  (forall k r, rails !! k = Some r -> mt6363_md_rails !! (i + k)%nat = Some r) ->
  child_loop child rails i nodes = inr nodes' ->
  length nodes' = length nodes /\ forall j r n, mt6363_md_rails !! j = Some r -> nodes' !! j = Some n -> found children r n.
Proof.
  intros Hc. induction rails as [|r rails IH]; intros i nodes nodes' Hf Hr E; cbn [child_loop] in E; [injection E as <-; auto|].
  assert (Hrest : forall k r', rails !! k = Some r' -> mt6363_md_rails !! (S i + k)%nat = Some r')
    by (intros k r' Hk; replace (S i + k)%nat with (i + S k)%nat by lia; now apply Hr).
  destruct (String.eqb_spec (node_name child) (name (desc r))) as [En|En]; cbn [negb] in E; [|eapply IH; eauto].
  assert (E2 : mt6363_md_dt child (name (desc r)) = 0 /\ child_loop child rails (S i) (<[i := Some child]> nodes) = inr nodes').
  { destruct (nodes !! i) as [[x|]|]; [discriminate| |]; cbv zeta in E;
      (destruct (Z.eqb_spec (mt6363_md_dt child (name (desc r))) 0) as [H0|]; cbn [negb] in E; [auto|discriminate]). }
  destruct E2 as [Hdt E2]. apply IH in E2; [rewrite length_insert in E2; exact E2| |exact Hrest].
  intros j r' n Hj Hn. destruct (decide (j = i)) as [->|Hne].
  - apply list_lookup_insert_Some in Hn as [(_ & <- & _)|[]]; [|congruence]. specialize (Hr 0%nat r eq_refl). rewrite Nat.add_0_r in Hr.
    rewrite Hr in Hj. injection Hj as <-. cbn. auto.
  - rewrite list_lookup_insert_ne in Hn by congruence. eauto.
Qed.
Lemma walk_found all : forall children nodes nodes', (forall c, c ∈ children -> c ∈ all) -> length nodes = 3%nat ->
  (forall j r n, mt6363_md_rails !! j = Some r -> nodes !! j = Some n -> found all r n) -> walk children nodes = inr nodes' ->
  length nodes' = 3%nat /\ forall j r n, mt6363_md_rails !! j = Some r -> nodes' !! j = Some n -> found all r n.
Proof.
  induction children as [|c children IH]; intros nodes nodes' Hin Hl Hf E; cbn [walk] in E; [injection E as <-; auto|].
  destruct (child_loop c mt6363_md_rails 0 nodes) as [e|nodes1] eqn:E1; [discriminate|].
  apply (child_loop_found all c) in E1 as [L1 F1]; [|apply Hin; constructor|exact Hf|now intros k r Hk].
  eapply IH; [|now rewrite L1|exact F1|exact E]. intros x Hx. apply Hin. now constructor.
Qed.

(** A node the driver takes: a leaf with listed properties only, one value for
    each voltage bound, the source's ramp delay if any, and only the normal and
    idle modes if any. *)
Definition admissible (node : device_node) (n : string) : Prop :=
  child_count node = 0 /\ Forall (fun p => p ∈ allowed_properties) (property_names node) /\
  (property_present node "regulator-compatible" = true -> read_string node "regulator-compatible" = (0, n)) /\
  count_u32_elems node "regulator-min-microvolt" = 1 /\ count_u32_elems node "regulator-max-microvolt" = 1 /\
  (property_present node "regulator-enable-ramp-delay" = true ->
     count_u32_elems node "regulator-enable-ramp-delay" = 1 /\ read_u32 node "regulator-enable-ramp-delay" = (0, 180)) /\
  (property_present node "regulator-allowed-modes" = true ->
     1 <= count_u32_elems node "regulator-allowed-modes" <= 2 /\
     forall i, 0 <= i < count_u32_elems node "regulator-allowed-modes" ->
       exists m, read_u32_index node "regulator-allowed-modes" i = (0, m) /\ (m = 0 \/ m = 2)).

Lemma modes_loop_ok node n : forall i, modes_loop node n i = 0 ->
  forall k, i <= k < i + Z.of_nat n -> exists m, read_u32_index node "regulator-allowed-modes" k = (0, m) /\ (m = 0 \/ m = 2).
Proof.
  induction n as [|n IH]; intros i E k Hk; [lia|]. cbn [modes_loop] in E. destruct (read_u32_index _ _ i) as [r m] eqn:Er.
  destruct (Z.eqb_spec r 0) as [->|]; cbn [negb] in E; [|contradiction].
  destruct (Z.eqb_spec (mt6363_md_map_mode m) REGULATOR_MODE_INVALID) as [|Hm]; [discriminate|].
  destruct (decide (k = i)) as [->|Hne]; [|apply (IH (i + 1) E); lia]. exists m. split; [exact Er|].
  unfold mt6363_md_map_mode in Hm. destruct (Z.eqb_spec m 0); [auto|]. destruct (Z.eqb_spec m 2); [auto|contradiction].
Qed.
Lemma dt_modes_ok node : dt_modes node = 0 -> property_present node "regulator-allowed-modes" = true ->
  1 <= count_u32_elems node "regulator-allowed-modes" <= 2 /\
  forall i, 0 <= i < count_u32_elems node "regulator-allowed-modes" ->
    exists m, read_u32_index node "regulator-allowed-modes" i = (0, m) /\ (m = 0 \/ m = 2).
Proof.
  intros E Hp. unfold dt_modes in E. rewrite Hp in E. cbv zeta in E. destruct (_ || _) eqn:G in E; [discriminate|]. split; [lia|].
  intros i Hi. eapply modes_loop_ok; [exact E|]. lia.
Qed.
Lemma dt_sound node n : mt6363_md_dt node n = 0 -> admissible node n.
Proof.
  unfold mt6363_md_dt. destruct (Z.eqb_spec (child_count node) 0) as [H0|]; cbn [negb]; [|discriminate].
  destruct (existsb _ (property_names node)) eqn:G1; [discriminate|]. intros E.
  assert (Hprops : Forall (fun p => p ∈ allowed_properties) (property_names node)).
  { apply Forall_forall. intros p Hp. destruct (existsb (String.eqb p) allowed_properties) eqn:Ep.
    - apply existsb_exists in Ep as (q & Hq & Eq). apply String.eqb_eq in Eq as ->. now apply list_elem_of_In.
    - exfalso. assert (X : existsb (fun p => negb (existsb (String.eqb p) allowed_properties)) (property_names node) = true)
        by (apply existsb_exists; exists p; split; [now apply list_elem_of_In|now rewrite Ep]). congruence. }
  assert (E1 : (property_present node "regulator-compatible" = true -> read_string node "regulator-compatible" = (0, n)) /\ dt_bounds node = 0).
  { destruct (property_present node "regulator-compatible"); [|split; [discriminate|exact E]]. destruct (read_string _ _) as [r m].
    destruct (Z.eqb_spec r 0) as [->|]; cbn [negb] in E; [|contradiction]. destruct (String.eqb m n) eqn:Em; cbn [negb] in E; [|discriminate]. apply String.eqb_eq in Em. rewrite Em. auto. }
  destruct E1 as [Hcomp E1]. clear E. unfold dt_bounds in E1.
  destruct (Z.eqb_spec (count_u32_elems node "regulator-min-microvolt") 1) as [Hmin|]; cbn [negb] in E1; [|discriminate].
  destruct (Z.eqb_spec (count_u32_elems node "regulator-max-microvolt") 1) as [Hmax|]; cbn [negb] in E1; [|discriminate]. unfold dt_delay in E1.
  assert (E2 : (property_present node "regulator-enable-ramp-delay" = true ->
    count_u32_elems node "regulator-enable-ramp-delay" = 1 /\ read_u32 node "regulator-enable-ramp-delay" = (0, 180)) /\ dt_modes node = 0).
  { destruct (property_present node "regulator-enable-ramp-delay"); [|split; [discriminate|exact E1]].
    destruct (Z.eqb_spec (count_u32_elems node "regulator-enable-ramp-delay") 1) as [Hd|]; cbn [negb] in E1; [|discriminate].
    destruct (read_u32 node _) as [r d]. destruct (Z.eqb_spec r 0) as [->|]; cbn [negb] in E1; [|contradiction].
    destruct (Z.eqb_spec d 180) as [Ed|]; cbn [negb] in E1; [rewrite Ed; auto|discriminate]. }
  destruct E2 as [Hdelay E2]. unfold admissible. split_and!; auto using dt_modes_ok.
Qed.

Lemma register_loop_states init_data register rails : forall nodes,
  let '(ret, states) := register_loop init_data register rails nodes in
  forall j s, states !! j = Some (Some s) ->
    rails !! j = Some (info s) /\ first_write_error s = 0 /\ owns_enable s = false /\ (registering s = true -> ret <> 0) /\
    exists node, nodes !! j = Some (Some node).
Proof.
  induction rails as [|i rails IH]; intros nodes; cbn [register_loop]; [now destruct nodes as [|[]]; intros [|]|].
  destruct nodes as [|[node|] nodes]; [now intros [|]| |].
  - cbv zeta. destruct (init_data node); cbn [negb]; [|intros [|[|]] s [= <-]; cbn; split_and!; eauto; lia].
    destruct (Z.eqb_spec (register i) 0) as [|Hr]; cbn [negb]; [|intros [|[|]] s [= <-]; cbn; split_and!; eauto].
    specialize (IH nodes). destruct (register_loop init_data register rails nodes) as [ret states].
    intros [|j] s; cbn; [intros [= <-]; cbn; split_and!; eauto; discriminate|apply IH].
  - specialize (IH nodes). destruct (register_loop init_data register rails nodes) as [ret states].
    intros [|j] s; cbn; [discriminate|apply IH].
Qed.

(** Registration. Every rail that gets a state is a row of the table found
    under its name in an available child that satisfies the admission rules;
    it starts without a failed write and without the right to disable. When
    registration succeeds every such rail accepts writes; a rail whose
    registration failed keeps refusing them, and the failure is reported. *)
Theorem registration_safe init_data register allocated children :
  let '(ret, states) := mt6363_md_register init_data register allocated children in
  forall j s, states !! j = Some (Some s) ->
    mt6363_md_rails !! j = Some (info s) /\ first_write_error s = 0 /\ owns_enable s = false /\ (registering s = true -> ret <> 0) /\
    exists node, node ∈ children /\ node_name node = name (desc (info s)) /\ admissible node (name (desc (info s))).
Proof.
  unfold mt6363_md_register. destruct (walk children [None; None; None]) as [e|nodes] eqn:Ew; [now intros [|]|].
  destruct (forallb _ nodes); [now intros [|]|]. destruct allocated; cbn [negb]; [|now intros [|]].
  pose proof (register_loop_states init_data register mt6363_md_rails nodes) as R.
  destruct (register_loop init_data register mt6363_md_rails nodes) as [ret states]. intros j s Hs.
  destruct (R j s Hs) as (R1 & R2 & R3 & R4 & node & Hn). split_and!; try assumption. exists node.
  apply (walk_found children children) in Ew as [_ F]; [|auto|reflexivity|intros [|[|[|j']]] r n _ Hx; cbn in Hx; first [discriminate|injection Hx as <-; exact Logic.I]].
  destruct (F j _ _ R1 Hn) as (F1 & F2 & F3). split_and!; auto using dt_sound.
Qed.
