(* ===== verification/Camsv.v ===== *)
(** * Camera capture transactions: [camera-camsv/mt6878-camsv-capture.h] and [mt6878-camsv-vb2.c]

    The restricted CAMSV receiver: validation of a capture job, its submission
    to the hardware, completion by done groups, the stop and reset sequence,
    and the bridge that owns the two video buffers. The verifier, registers,
    barriers, delays, the shared memory-interface clamp and the return of a
    buffer to its queue are requests to an environment ([Trace]). *)

From S2P Require Import Prelude Trace.
Open Scope Z_scope.

Abbreviation SV_DMA_FMT_BAYER8 := 0 (only parsing).
Abbreviation SV_DMA_FMT_BAYER10 := 1 (only parsing).
Abbreviation SV_DMA_FMT_BAYER10_MIPI := 80 (only parsing).
Abbreviation SV_CQ_SIZE := 0x0158 (only parsing).
Abbreviation SV_CQ_MSB := 0x0150 (only parsing).
Abbreviation SV_CQ_LSB := 0x014c (only parsing).
Abbreviation SV_CQ_START := 0x0014 (only parsing).
Abbreviation SV_CQ_EN := 0x0100 (only parsing).
Abbreviation SV_CQ_SUB_EN := 0x0130 (only parsing).
Abbreviation SV_DMA_RESET := 0x0020 (only parsing).
Abbreviation SV_CQ_RESET := 0x0010 (only parsing).
Abbreviation SV_DCM_DIS := 0x007c (only parsing).
Abbreviation SV_SW_CTL := 0x01d0 (only parsing).
Abbreviation SV_CAMMUX_OPT := 0x0004 (only parsing).
Abbreviation SV_VC_MASK := 0x1f (only parsing).
Abbreviation SV_DT_MASK := 0x3f00 (only parsing).
Abbreviation SV_DT_SHIFT := 8 (only parsing).
Abbreviation SV_VC_EN_MASK := 0x80 (only parsing).
Abbreviation SV_DT_EN_MASK := 0x8000 (only parsing).

Inductive mt6878_camsv_region : Type := MT6878_SV_CENTRAL | MT6878_SV_DMA | MT6878_SV_CQ | MT6878_SV_SENINF.
Inductive mt6878_camsv_owner : Type :=
| MT6878_SV_RESOURCES | MT6878_SV_IOMMU | MT6878_SV_ROUTE | MT6878_SV_IRQ | MT6878_SV_COMPOSER | MT6878_SV_STOPPED.
#[export] Instance camsv_region_eq : EqDecision mt6878_camsv_region.
Proof. solve_decision. Defined.

Record mt6878_camsv_buffer : Type := Buffer { dma : Z; bsize : Z; mapped : Z }.
Record mt6878_camsv_dma_layout : Type := Layout {
  format : Z; width : Z; height : Z; bytesperline : Z; sizeimage : Z; pixel_mode_shift : Z
}.
Record mt6878_camsv_job : Type := Job {
  sv_id : Z; jwidth : Z; jheight : Z; sequence : Z; raw_tag : Z; pdaf_tag : Z;
  group_tags : list Z; raw : mt6878_camsv_buffer; pdaf : mt6878_camsv_buffer; cq : mt6878_camsv_buffer;
  raw_layout : mt6878_camsv_dma_layout; pdaf_layout : mt6878_camsv_dma_layout
}.
(** [operations] tells whether every callback is present. *)
Record mt6878_camsv_backend : Type := Backend { operations : bool; sizes : list Z }.
Record mt6878_camsv_transaction : Type := Tx {
  job : mt6878_camsv_job;
  attempted : Z; submitted : Z; complete_tags : Z; off_attempted : Z; quiesced : Z; hw_attempted : Z;
  first_error : Z
}.
Definition zero_buffer : mt6878_camsv_buffer := Buffer 0 0 0.
Definition zero_dma_layout : mt6878_camsv_dma_layout := Layout 0 0 0 0 0 0.
Definition zero_job : mt6878_camsv_job :=
  Job 0 0 0 0 0 0 [0; 0; 0; 0] zero_buffer zero_buffer zero_buffer zero_dma_layout zero_dma_layout.
Definition zero_tx : mt6878_camsv_transaction := Tx zero_job 0 0 0 0 0 0 0.

(** ** Job validation *)

Definition mt6878_camsv_layout_validate (l : option mt6878_camsv_dma_layout) (capacity : Z) : Z :=
  match l with
  | None => - EINVAL
  | Some l =>
    if (width l =? 0) || (height l =? 0) || (65535 <? width l) || (65535 <? height l) || (4 <? pixel_mode_shift l) then - EINVAL
    else
    let check bits :=
      let bus := u32 (Z.shiftl 16 (pixel_mode_shift l)) / 8 in
      let row := u32 (u32 (width l * bits) + 7) / 8 in
      let row := u32 (u32 (u32 (row + bus) - 1) / bus * bus) in
      if (bytesperline l <? row) || (65535 <? bytesperline l) || negb (bytesperline l mod bus =? 0)
         || negb (sizeimage l =? u32 (bytesperline l * height l)) || (capacity <? sizeimage l)
      then - ERANGE else 0 in
    if format l =? SV_DMA_FMT_BAYER8 then check 8
    else if (format l =? SV_DMA_FMT_BAYER10) || (format l =? SV_DMA_FMT_BAYER10_MIPI) then check 10
    else - EOPNOTSUPP
  end.
Definition mt6878_camsv_range (b : mt6878_camsv_buffer) (required : Z) : Z :=
  if negb (mapped b =? 1) || (bsize b <? required) || (required =? 0) || (Z.shiftl 1 34 <=? dma b)
     || (Z.shiftl 1 34 - dma b <? bsize b)
  then - EINVAL else 0.
Definition mt6878_camsv_overlap (a b : mt6878_camsv_buffer) : bool :=
  (dma a <? u64 (dma b + bsize b)) && (dma b <? u64 (dma a + bsize a)).

(** The loop over the groups; [seen] are the tags of the groups before. *)
Fixpoint groups_loop (tags seen : Z) (groups : list Z) : Z :=
  match groups with
  | [] => if seen =? tags then 0 else - EINVAL
  | g :: groups =>
    if negb (Z.ldiff g tags =? 0) || negb (Z.land g seen =? 0) then - EINVAL else groups_loop tags (Z.lor seen g) groups
  end.
Definition job_tags (j : mt6878_camsv_job) : Z := Z.lor (Z.shiftl 1 (raw_tag j)) (Z.shiftl 1 (pdaf_tag j)).
Definition mt6878_camsv_validate (io : option mt6878_camsv_backend) (job : option mt6878_camsv_job) : Z :=
  match io, job with
  | Some io, Some j =>
    if negb (operations io) || negb (bool_decide (sizes io = [0x1000; 0x1000; 0x1000; 0x18000])) || (1 <? sv_id j) || (7 <? raw_tag j)
       || (7 <? pdaf_tag j) || (raw_tag j =? pdaf_tag j)
       || negb (((jwidth j =? 4000) && (jheight j =? 3000)) || ((jwidth j =? 4096) && (jheight j =? 2304)))
    then - EINVAL
    else if negb (width (raw_layout j) =? jwidth j) || negb (height (raw_layout j) =? jheight j)
       || (negb (format (raw_layout j) =? SV_DMA_FMT_BAYER10) && negb (format (raw_layout j) =? SV_DMA_FMT_BAYER10_MIPI))
       || negb (mt6878_camsv_layout_validate (Some (raw_layout j)) (bsize (raw j)) =? 0)
       || negb (mt6878_camsv_layout_validate (Some (pdaf_layout j)) (bsize (pdaf j)) =? 0)
       || negb (mt6878_camsv_range (raw j) (sizeimage (raw_layout j)) =? 0)
       || negb (mt6878_camsv_range (pdaf j) (sizeimage (pdaf_layout j)) =? 0)
       || negb (mt6878_camsv_range (cq j) (bsize (cq j)) =? 0) || (0xffff <? bsize (cq j))
       || mt6878_camsv_overlap (raw j) (pdaf j) || mt6878_camsv_overlap (raw j) (cq j) || mt6878_camsv_overlap (pdaf j) (cq j)
    then - EINVAL
    else groups_loop (job_tags j) 0 (group_tags j)
  | _, _ => - EINVAL
  end.

(** ** Transactions *)

(** Which of the two video buffers. *)
Inductive plane : Type := Raw | Pdaf.
Inductive vb2_state : Type := VB2_BUF_STATE_DONE | VB2_BUF_STATE_ERROR.
Inductive request : Type :=
| Verify (o : mt6878_camsv_owner) (j : mt6878_camsv_job)
| Read (r : mt6878_camsv_region) (offset : Z)
| Write (r : mt6878_camsv_region) (offset value : Z)
| Barrier
| Delay (us : Z)
| Clamp (common enable : Z)
| Set_stamp (p : plane) (sequence timestamp : Z)
| Set_payload (p : plane) (bytes : Z)
| Buffer_done (p : plane) (s : vb2_state).
(** The status and, for a read, the value. *)
Abbreviation cio := (io request (Z * Z)) (only parsing).
Abbreviation txn := mt6878_camsv_transaction (only parsing).
Open Scope io_scope.

Definition set_first_error (e : Z) (t : txn) : txn :=
  Tx (job t) (attempted t) (submitted t) (complete_tags t) (off_attempted t) (quiesced t) (hw_attempted t) e.
Definition mt6878_camsv_error (t : txn) (r : Z) : Z * txn :=
  let t := if negb (r =? 0) && (first_error t =? 0) then set_first_error r t else t in (first_error t, t).

Definition region_index (r : mt6878_camsv_region) : nat :=
  match r with MT6878_SV_CENTRAL => 0 | MT6878_SV_DMA => 1 | MT6878_SV_CQ => 2 | MT6878_SV_SENINF => 3 end%nat.
Definition size_of (io : mt6878_camsv_backend) (r : mt6878_camsv_region) : Z := nth (region_index r) (sizes io) 0.
Definition out_of_region (io : mt6878_camsv_backend) (r : mt6878_camsv_region) (offset : Z) : bool :=
  (size_of io r <? 4) || negb (Z.land offset 3 =? 0) || (size_of io r - 4 <? offset).
Definition mt6878_camsv_write (io : mt6878_camsv_backend) (r : mt6878_camsv_region) (offset value : Z) (t : txn) : cio (Z * txn) :=
  if out_of_region io r offset then ret (mt6878_camsv_error t (- EINVAL))
  else
  let! a := ask (Write r offset value) in
  if negb (a.1 =? 0) then ret (mt6878_camsv_error t a.1) else ret (0, t).
Definition mt6878_camsv_update (io : mt6878_camsv_backend) (r : mt6878_camsv_region) (offset mask value : Z) (t : txn) : cio (Z * txn) :=
  if out_of_region io r offset || negb (Z.ldiff value mask =? 0) then ret (mt6878_camsv_error t (- EINVAL))
  else
  let! a := ask (Read r offset) in
  if negb (a.1 =? 0) then ret (mt6878_camsv_error t a.1)
  else mt6878_camsv_write io r offset (Z.lor (Z.ldiff a.2 mask) value) t.
Definition barrier (t : txn) : cio (Z * txn) := let! a := ask Barrier in ret (a.1, t).
Definition smi_clamp (common enable : Z) (t : txn) : cio (Z * txn) := let! a := ask (Clamp common enable) in ret (a.1, t).
Definition verify (o : mt6878_camsv_owner) (t : txn) : cio (Z * txn) := let! a := ask (Verify o (job t)) in ret (a.1, t).

(** A chain [if (!ret) ret = ...]: the steps run until one reports an error. *)
Fixpoint chain (steps : list (txn -> cio (Z * txn))) (t : txn) : cio (Z * txn) :=
  match steps with
  | [] => ret (0, t)
  | f :: steps => let! p := f t in if negb (p.1 =? 0) then ret p else chain steps p.2
  end.

Definition admission_owners : list mt6878_camsv_owner :=
  [MT6878_SV_RESOURCES; MT6878_SV_IOMMU; MT6878_SV_ROUTE; MT6878_SV_IRQ; MT6878_SV_COMPOSER].
(** The virtual-channel fields of one output. *)
Definition cammux_steps (io : mt6878_camsv_backend) (j : mt6878_camsv_job) (tag dt : Z) : list (txn -> cio (Z * txn)) :=
  let offset := u32 (0x17000 + 0x40 * (sv_id j * 8 + tag) + SV_CAMMUX_OPT) in
  [mt6878_camsv_update io MT6878_SV_SENINF offset SV_VC_MASK 0;
   mt6878_camsv_update io MT6878_SV_SENINF offset SV_DT_MASK (Z.shiftl dt SV_DT_SHIFT);
   mt6878_camsv_update io MT6878_SV_SENINF offset SV_VC_EN_MASK SV_VC_EN_MASK;
   mt6878_camsv_update io MT6878_SV_SENINF offset SV_DT_EN_MASK SV_DT_EN_MASK].
Definition cq_steps (io : mt6878_camsv_backend) (j : mt6878_camsv_job) : list (txn -> cio (Z * txn)) :=
  [mt6878_camsv_write io MT6878_SV_CQ SV_CQ_SIZE (bsize (cq j));
   mt6878_camsv_write io MT6878_SV_CQ SV_CQ_MSB (u32 (Z.shiftr (dma (cq j)) 32));
   mt6878_camsv_write io MT6878_SV_CQ SV_CQ_LSB (u32 (dma (cq j)));
   mt6878_camsv_write io MT6878_SV_CQ SV_CQ_START 1;
   barrier;
   mt6878_camsv_update io MT6878_SV_CQ SV_CQ_EN (Z.shiftl 1 12) (Z.shiftl 1 12)].
Definition start_tx (j : mt6878_camsv_job) (t : txn) : txn :=
  Tx j 1 (submitted t) (complete_tags t) (off_attempted t) (quiesced t) (hw_attempted t) (first_error t).
Definition set_hw (t : txn) : txn := Tx (job t) (attempted t) (submitted t) (complete_tags t) (off_attempted t) (quiesced t) 1 (first_error t).
Definition set_submitted (t : txn) : txn := Tx (job t) (attempted t) 1 (complete_tags t) (off_attempted t) (quiesced t) (hw_attempted t) (first_error t).

Definition mt6878_camsv_submit (io : option mt6878_camsv_backend) (tx : option txn) (job_ : option mt6878_camsv_job) : cio (Z * option txn) :=
  match tx with
  | None => ret (- EINVAL, None)
  | Some t =>
    let out (p : Z * txn) : cio (Z * option txn) := ret (p.1, Some p.2) in
    if negb (first_error t =? 0) then ret (first_error t, Some t)
    else if negb (attempted t =? 0) || negb (off_attempted t =? 0) then ret (- EALREADY, Some t)
    else
    let r := mt6878_camsv_validate io job_ in
    if negb (r =? 0) then out (mt6878_camsv_error t r)
    else
    match io, job_ with
    | Some io, Some j =>
      let! p := chain (verify <$> admission_owners) (start_tx j t) in
      if negb (p.1 =? 0) then out (mt6878_camsv_error p.2 p.1)
      else
      let! p := chain (cammux_steps io j (raw_tag j) 0x2b ++ cammux_steps io j (pdaf_tag j) 0x30) (set_hw p.2) in
      if negb (p.1 =? 0) then out p
      else
      let! p := chain (cq_steps io j) p.2 in
      if negb (p.1 =? 0) then out (mt6878_camsv_error p.2 p.1) else out (0, set_submitted p.2)
    | _, _ => ret (- EINVAL, Some t)
    end
  end.

(** The tags of the groups whose done bit is set. *)
Fixpoint done_tags (status group : Z) (groups : list Z) : Z :=
  match groups with
  | [] => 0
  | g :: groups => Z.lor (if Z.testbit status (16 + group) then g else 0) (done_tags status (group + 1) groups)
  end.
Definition mt6878_camsv_done (tx : option txn) (done_status inner_sequence : Z) : Z * option txn :=
  match tx with
  | None => (- EINVAL, None)
  | Some t =>
    if (submitted t =? 0) || negb (off_attempted t =? 0) || negb (first_error t =? 0) then (- EINVAL, tx)
    else if negb (inner_sequence =? sequence (job t)) then (- ESTALE, tx)
    else
    let tags := done_tags done_status 0 (group_tags (job t)) in
    if tags =? 0 then (0, tx)
    else if Z.land (complete_tags t) tags =? tags then (- EALREADY, tx)
    else
    let t := Tx (job t) (attempted t) (submitted t) (Z.lor (complete_tags t) tags) (off_attempted t) (quiesced t) (hw_attempted t) (first_error t) in
    (if complete_tags t =? job_tags (job t) then 1 else 0, Some t)
  end.

(** [count] polls left. *)
Fixpoint poll_loop (count : nat) (r : mt6878_camsv_region) (offset : Z) (t : txn) : cio (Z * txn) :=
  match count with
  | O => ret (mt6878_camsv_error t (- ETIMEDOUT))
  | S count =>
    let! a := ask (Read r offset) in
    if negb (a.1 =? 0) then ret (mt6878_camsv_error t a.1)
    else if negb (Z.land a.2 2 =? 0) then ret (0, t)
    else
    let! d := ask (Delay 1) in
    if negb (d.1 =? 0) then ret (mt6878_camsv_error t d.1) else poll_loop count r offset t
  end.
Definition mt6878_camsv_poll_idle (r : mt6878_camsv_region) (offset : Z) (t : txn) : cio (Z * txn) := poll_loop (Z.to_nat 100000) r offset t.

Definition reset_steps (io : mt6878_camsv_backend) : list (txn -> cio (Z * txn)) :=
  [mt6878_camsv_write io MT6878_SV_DMA SV_DMA_RESET 0;
   mt6878_camsv_write io MT6878_SV_DMA SV_DMA_RESET 1;
   barrier;
   mt6878_camsv_poll_idle MT6878_SV_DMA SV_DMA_RESET;
   mt6878_camsv_write io MT6878_SV_CENTRAL SV_DCM_DIS 0;
   mt6878_camsv_write io MT6878_SV_CENTRAL SV_SW_CTL 0;
   mt6878_camsv_write io MT6878_SV_CENTRAL SV_SW_CTL 1;
   mt6878_camsv_write io MT6878_SV_DMA SV_DMA_RESET 0;
   mt6878_camsv_write io MT6878_SV_CENTRAL SV_SW_CTL 0;
   barrier;
   mt6878_camsv_write io MT6878_SV_CQ SV_CQ_RESET 0;
   mt6878_camsv_write io MT6878_SV_CQ SV_CQ_RESET 1;
   barrier;
   mt6878_camsv_poll_idle MT6878_SV_CQ SV_CQ_RESET;
   mt6878_camsv_write io MT6878_SV_CQ SV_CQ_RESET 0;
   barrier;
   mt6878_camsv_update io MT6878_SV_CQ SV_CQ_EN (Z.shiftl 1 16) (Z.shiftl 1 16);
   mt6878_camsv_update io MT6878_SV_CQ SV_CQ_SUB_EN (Z.shiftl 1 16) (Z.shiftl 1 16);
   mt6878_camsv_update io MT6878_SV_CQ SV_CQ_SUB_EN (Z.shiftl 1 16) 0;
   mt6878_camsv_update io MT6878_SV_CQ SV_CQ_EN (Z.shiftl 1 16) 0;
   barrier;
   smi_clamp 31 0].
Definition set_off (t : txn) : txn := Tx (job t) (attempted t) (submitted t) (complete_tags t) 1 (quiesced t) (hw_attempted t) (first_error t).
Definition set_quiesced (t : txn) : txn := Tx (job t) (attempted t) 0 (complete_tags t) (off_attempted t) 1 (hw_attempted t) (first_error t).
Definition mt6878_camsv_stop (io : option mt6878_camsv_backend) (tx : option txn) : cio (Z * option txn) :=
  match tx, io with
  | Some t, Some b =>
    if (attempted t =? 0) || negb (mt6878_camsv_validate io (Some (job t)) =? 0) then ret (- EINVAL, tx)
    else if negb (off_attempted t =? 0) then ret (if negb (first_error t =? 0) then first_error t else - EALREADY, tx)
    else
    let out (p : Z * txn) : cio (Z * option txn) := ret (p.1, Some p.2) in
    let! p := chain [verify MT6878_SV_STOPPED; smi_clamp 31 1] (set_off t) in
    if negb (p.1 =? 0) then out (mt6878_camsv_error p.2 p.1)
    else
    let! p := chain (reset_steps b) p.2 in
    if negb (p.1 =? 0) then out (mt6878_camsv_error p.2 p.1)
    else out (first_error p.2, set_quiesced p.2)
  | _, _ => ret (- EINVAL, tx)
  end.

(** ** The video buffers *)

(** What the video queue reports of a buffer; queue and device are addresses. *)
Record vb2_v4l2_buffer : Type := Vb2 {
  vb2_queue : Z; queue_dev : Z; queue_type : Z; num_planes : Z; dma_contig : bool; active : bool;
  data_offset : Z; plane_size : Z; plane_cookie : Z; plane_dma : Z
}.
Abbreviation V4L2_BUF_TYPE_VIDEO_CAPTURE := 1 (only parsing).
Abbreviation V4L2_BUF_TYPE_META_CAPTURE := 13 (only parsing).
Record mt6878_camsv_vb2_pair : Type := Pair {
  pair_raw : option (ptr vb2_v4l2_buffer); pair_pdaf : option (ptr vb2_v4l2_buffer); tx : mt6878_camsv_transaction; completed : Z
}.
Definition empty_pair : mt6878_camsv_vb2_pair := Pair None None zero_tx 0.

Definition mt6878_camsv_vb2_map (buffer : ptr vb2_v4l2_buffer) (owner : Z) : Z + mt6878_camsv_buffer :=
  let vb := pointee buffer in
  if null buffer || (owner =? 0) then inl (- EINVAL)
  else if (vb2_queue vb =? 0) || negb (queue_dev vb =? owner) || negb (num_planes vb =? 1) || negb (dma_contig vb) || negb (active vb)
          || negb (data_offset vb =? 0)
  then inl (- EINVAL)
  else if (plane_size vb =? 0) || (0xffffffff <? plane_size vb) || (plane_cookie vb =? 0) then inl (- EINVAL)
  else inr (Buffer (plane_dma vb) (plane_size vb) 1).
Definition with_buffers (j : mt6878_camsv_job) (a b : mt6878_camsv_buffer) : mt6878_camsv_job :=
  Job (sv_id j) (jwidth j) (jheight j) (sequence j) (raw_tag j) (pdaf_tag j) (group_tags j) a b (cq j) (raw_layout j) (pdaf_layout j).

(** [domain_of] is the kernel's translation domain of a device. *)
Definition mt6878_camsv_vb2_submit (domain_of : Z -> Z) (io : option mt6878_camsv_backend) (pair : option mt6878_camsv_vb2_pair)
    (raw_ pdaf_ : ptr vb2_v4l2_buffer) (dma_owner verified_domain : Z) (job_ : option mt6878_camsv_job) : cio (Z * option mt6878_camsv_vb2_pair) :=
  let fail r : cio (Z * option mt6878_camsv_vb2_pair) := ret (r, pair) in
  match pair, job_ with
  | Some p, Some j =>
    let held (b : option (ptr vb2_v4l2_buffer)) := match b with Some _ => true | None => false end in
    if null raw_ || null pdaf_ || (addr raw_ =? addr pdaf_) || held (pair_raw p) || held (pair_pdaf p) || negb (attempted (tx p) =? 0)
       || negb (completed p =? 0) || (dma_owner =? 0) || (verified_domain =? 0) || negb (domain_of dma_owner =? verified_domain)
    then fail (- EINVAL)
    else if (vb2_queue (pointee raw_) =? vb2_queue (pointee pdaf_)) || (vb2_queue (pointee raw_) =? 0) || (vb2_queue (pointee pdaf_) =? 0)
       || negb (queue_type (pointee raw_) =? V4L2_BUF_TYPE_VIDEO_CAPTURE) || negb (queue_type (pointee pdaf_) =? V4L2_BUF_TYPE_META_CAPTURE)
    then fail (- EINVAL)
    else
    match mt6878_camsv_vb2_map raw_ dma_owner with
    | inl e => fail e
    | inr a =>
      match mt6878_camsv_vb2_map pdaf_ dma_owner with
      | inl e => fail e
      | inr b =>
        let mapped_ := with_buffers j a b in
        let r := mt6878_camsv_validate io (Some mapped_) in
        if negb (r =? 0) then fail r
        else
        let! q := mt6878_camsv_submit io (Some (tx p)) (Some mapped_) in
        let t := default (tx p) q.2 in
        if negb (q.1 =? 0) && (hw_attempted t =? 0)
        then ret (q.1, Some (Pair None None t (completed p)))
        else ret (q.1, Some (Pair (Some raw_) (Some pdaf_) t (completed p)))
      end
    end
  | _, _ => fail (- EINVAL)
  end.

Definition tell (q : request) (k : cio (Z * option mt6878_camsv_vb2_pair)) : cio (Z * option mt6878_camsv_vb2_pair) := let! _ := ask q in k.
Definition mt6878_camsv_vb2_done (pair : option mt6878_camsv_vb2_pair) (status inner_sequence timestamp_ns : Z)
    : cio (Z * option mt6878_camsv_vb2_pair) :=
  let fail r : cio (Z * option mt6878_camsv_vb2_pair) := ret (r, pair) in
  match pair with
  | None => fail (- EINVAL)
  | Some p =>
    match pair_raw p, pair_pdaf p with
    | Some a, Some b =>
      if negb (completed p =? 0) then fail (- EINVAL)
      else if negb (mt6878_camsv_layout_validate (Some (raw_layout (job (tx p)))) (u32 (plane_size (pointee a))) =? 0)
           || negb (mt6878_camsv_layout_validate (Some (pdaf_layout (job (tx p)))) (u32 (plane_size (pointee b))) =? 0)
      then fail (- ERANGE)
      else
      let '(r, t) := mt6878_camsv_done (Some (tx p)) status inner_sequence in
      let t := default (tx p) t in
      if negb (r =? 1) then ret (r, Some (Pair (pair_raw p) (pair_pdaf p) t (completed p)))
      else
      tell (Set_stamp Raw inner_sequence timestamp_ns)
        (tell (Set_stamp Pdaf inner_sequence timestamp_ns)
           (tell (Set_payload Raw (sizeimage (raw_layout (job t))))
              (tell (Set_payload Pdaf (sizeimage (pdaf_layout (job t))))
                 (tell (Buffer_done Raw VB2_BUF_STATE_DONE)
                    (tell (Buffer_done Pdaf VB2_BUF_STATE_DONE)
                       (ret (1, Some (Pair (pair_raw p) (pair_pdaf p) t 1))))))))
    | _, _ => fail (- EINVAL)
    end
  end.

Definition mt6878_camsv_vb2_stop (io : option mt6878_camsv_backend) (pair : option mt6878_camsv_vb2_pair) : cio (Z * option mt6878_camsv_vb2_pair) :=
  let fail r : cio (Z * option mt6878_camsv_vb2_pair) := ret (r, pair) in
  match pair with
  | None => fail (- EINVAL)
  | Some p =>
    match pair_raw p, pair_pdaf p with
    | Some _, Some _ =>
      let! q := mt6878_camsv_stop io (Some (tx p)) in
      let t := default (tx p) q.2 in
      if quiesced t =? 0 then ret (q.1, Some (Pair (pair_raw p) (pair_pdaf p) t (completed p)))
      else if completed p =? 0 then
        tell (Set_payload Raw 0)
          (tell (Set_payload Pdaf 0)
             (tell (Buffer_done Raw VB2_BUF_STATE_ERROR)
                (tell (Buffer_done Pdaf VB2_BUF_STATE_ERROR) (ret (q.1, Some (Pair (pair_raw p) (pair_pdaf p) t 1))))))
      else ret (q.1, Some (Pair (pair_raw p) (pair_pdaf p) t (completed p)))
    | _, _ => fail (- EINVAL)
    end
  end.

(** ** Layouts *)

Definition bits_of (f : Z) : option Z :=
  if f =? SV_DMA_FMT_BAYER8 then Some 8
  else if (f =? SV_DMA_FMT_BAYER10) || (f =? SV_DMA_FMT_BAYER10_MIPI) then Some 10 else None.
(** A line holds its pixels and is a whole number of bus words; the image is
    its lines and fits. *)
Definition layout_ok (l : mt6878_camsv_dma_layout) (capacity : Z) : Prop :=
  exists bits, bits_of (format l) = Some bits /\ 1 <= width l <= 65535 /\ 1 <= height l <= 65535 /\ pixel_mode_shift l <= 4 /\
    (2 * 2 ^ pixel_mode_shift l | bytesperline l) /\ width l * bits <= 8 * bytesperline l /\ bytesperline l <= 65535 /\
    sizeimage l = bytesperline l * height l /\ sizeimage l <= capacity.
Definition layout_u32 (l : mt6878_camsv_dma_layout) : Prop :=
  is_u32 (width l) /\ is_u32 (height l) /\ is_u32 (bytesperline l) /\ is_u32 (sizeimage l) /\ is_u32 (pixel_mode_shift l).

Lemma bus_width s : 0 <= s <= 4 -> u32 (Z.shiftl 16 s) / 8 = 2 * 2 ^ s /\ 2 <= 2 * 2 ^ s <= 32.
Proof.
  intros Hs. assert (H : s = 0 \/ s = 1 \/ s = 2 \/ s = 3 \/ s = 4) by lia.
  destruct H as [->|[->|[->|[->| ->]]]]; (split; [reflexivity|split; discriminate]).
Qed.
(** Rounding a line up to whole bus words fits exactly when the line does and is whole words. *)
Lemma line_fits w bits bus bpl : 1 <= w <= 65535 -> 8 <= bits <= 10 -> 2 <= bus <= 32 -> 0 <= bpl <= 65535 -> (bus | bpl) ->
  u32 (u32 (u32 (u32 (u32 (w * bits) + 7) / 8 + bus) - 1) / bus * bus) <= bpl <-> w * bits <= 8 * bpl.
Proof.
  intros Hw Hb Hbus Hbpl [k ->]. assert (Hp : 0 < w * bits <= 655350) by nia.
  rewrite (u32_id (w * bits)), (u32_id (w * bits + 7)) by (unfold is_u32; lia). set (row := (w * bits + 7) / 8).
  assert (Hrow : 8 * row - 7 <= w * bits <= 8 * row) by (unfold row; dlia).
  assert (Hr : 1 <= row <= 81920) by lia. clearbody row.
  rewrite (u32_id (row + bus)), (u32_id (row + bus - 1)) by (unfold is_u32; lia). set (q := (row + bus - 1) / bus).
  assert (Hq : row <= q * bus <= row + bus - 1) by (unfold q; dlia). rewrite u32_id by (unfold is_u32; lia).
  assert (Hk : q * bus <= k * bus <-> row <= k * bus).
  { split; [lia|]. intros Hle. apply Z.mul_le_mono_nonneg_r; [lia|]. apply Z.le_ngt. intros Hlt. assert (k * bus <= (q - 1) * bus) by nia. lia. }
  rewrite Hk. lia.
Qed.
Lemma layout_cases l capacity : layout_u32 l -> mt6878_camsv_layout_validate (Some l) capacity = 0 <-> layout_ok l capacity.
Proof.
  intros (U1 & U2 & U3 & U4 & U5). unfold is_u32 in *. unfold mt6878_camsv_layout_validate, layout_ok, bits_of. cbv zeta.
  destruct (_ || _ || _ || _ || _) eqn:G; [split; [discriminate|]; intros (b & _ & H1 & H2 & H3 & _); lia|].
  assert (Hs : 0 <= pixel_mode_shift l <= 4) by lia. destruct (bus_width _ Hs) as [Eb Hb]. rewrite Eb.
  set (bus := 2 * 2 ^ pixel_mode_shift l) in *. clearbody bus.
  assert (Hcheck : forall bits, 8 <= bits <= 10 ->
    (if (bytesperline l <? u32 (u32 (u32 (u32 (u32 (width l * bits) + 7) / 8 + bus) - 1) / bus * bus)) || (65535 <? bytesperline l)
        || negb (bytesperline l mod bus =? 0) || negb (sizeimage l =? u32 (bytesperline l * height l)) || (capacity <? sizeimage l)
     then - ERANGE else 0) = 0 <->
    exists b, Some bits = Some b /\ 1 <= width l <= 65535 /\ 1 <= height l <= 65535 /\ pixel_mode_shift l <= 4 /\
      (bus | bytesperline l) /\ width l * b <= 8 * bytesperline l /\ bytesperline l <= 65535 /\
      sizeimage l = bytesperline l * height l /\ sizeimage l <= capacity).
  { intros bits Hbits. destruct (Z.le_gt_cases (bytesperline l) 65535) as [Hle|Hgt].
    2:{ replace (65535 <? bytesperline l) with true by lia. rewrite orb_true_r. split; [discriminate|]. intros (b & _ & X); lia. }
    destruct (Z.eqb_spec (bytesperline l mod bus) 0) as [Hm|Hm]; cycle 1.
    { replace (_ || _ || _ || _ || _) with true by (cbn [negb]; rewrite ?orb_true_r; reflexivity). split; [discriminate|].
      intros (b & _ & _ & _ & _ & Hd & _). exfalso. apply Hm, Z.mod_divide; [lia|exact Hd]. }
    apply Z.mod_divide in Hm; [|lia]. pose proof (line_fits (width l) bits bus (bytesperline l) ltac:(lia) Hbits Hb ltac:(lia) Hm) as Hfit.
    rewrite (u32_id (bytesperline l * height l)) by (unfold is_u32; nia). split.
    - intros E. exists bits. destruct (_ || _ || _ || _ || _) eqn:G' in E; [discriminate|]. split; [reflexivity|]. split_and!; try assumption; lia.
    - intros (b & [= <-] & _ & _ & _ & _ & H1 & H2 & H3 & H4). apply Hfit in H1.
      replace (_ || _ || _ || _ || _) with false by (cbn [negb]; lia). reflexivity. }
  destruct (Z.eqb_spec (format l) 0) as [E|E]; [exact (Hcheck 8 ltac:(lia))|].
  destruct ((format l =? 1) || (format l =? 80)); [exact (Hcheck 10 ltac:(lia))|]. split; [discriminate|]. intros (b & [=] & _).
Qed.

(** ** Jobs *)

Definition buffer_u (b : mt6878_camsv_buffer) : Prop := is_u64 (dma b) /\ is_u32 (bsize b) /\ is_u32 (mapped b).
(** A mapping inside the 34-bit aperture. *)
Definition buffer_ok (b : mt6878_camsv_buffer) (required : Z) : Prop :=
  mapped b = 1 /\ 0 < required <= bsize b /\ dma b + bsize b <= 2 ^ 34.
Definition buffers_apart (a b : mt6878_camsv_buffer) : Prop := dma a + bsize a <= dma b \/ dma b + bsize b <= dma a.
Lemma range_exact b required : buffer_u b -> 0 <= required -> mt6878_camsv_range b required = 0 <-> buffer_ok b required.
Proof.
  intros (U1 & U2 & U3) Hr. unfold is_u64, is_u32 in *. unfold mt6878_camsv_range, buffer_ok. change (Z.shiftl 1 34) with (2 ^ 34).
  destruct (_ || _ || _ || _ || _) eqn:G; [split; [discriminate|lia]|split; [|reflexivity]]. intros _. lia.
Qed.
Lemma buffers_overlap_apart a b : buffer_u a -> buffer_u b -> dma a + bsize a <= 2 ^ 34 -> dma b + bsize b <= 2 ^ 34 ->
  mt6878_camsv_overlap a b = false <-> buffers_apart a b.
Proof.
  intros (A1 & A2 & _) (B1 & B2 & _) Ha Hb. unfold is_u64, is_u32 in *. unfold mt6878_camsv_overlap, buffers_apart.
  rewrite !u64_id by (unfold is_u64; lia). lia.
Qed.
(** The groups partition the tags. *)
Definition tag_union (groups : list Z) : Z := foldr Z.lor 0 groups.
Definition groups_ok (tags : Z) (groups : list Z) : Prop :=
  ForallOrdPairs (fun a b => Z.land a b = 0) groups /\ tag_union groups = tags.
Lemma ldiff_lor_0 a b : Z.ldiff a (Z.lor a b) = 0.
Proof.
  apply Z.bits_inj_iff'. intros n Hn. rewrite Z.ldiff_spec, Z.lor_spec, Z.bits_0. destruct (Z.testbit a n), (Z.testbit b n); reflexivity.
Qed.
Lemma groups_loop_exact tags groups : forall seen, groups_loop tags seen groups = 0 <->
  ForallOrdPairs (fun a b => Z.land a b = 0) groups /\ Forall (fun g => Z.land g seen = 0) groups /\ Z.lor seen (tag_union groups) = tags.
Proof.
  induction groups as [|g groups IH]; intros seen; cbn [groups_loop tag_union foldr].
  - rewrite Z.lor_0_r. destruct (Z.eqb_spec seen tags); split; try discriminate; try (intros (_ & _ & X); contradiction); [|reflexivity].
    intros _. repeat constructor; assumption.
  - fold (tag_union groups). rewrite Z.lor_assoc.
    destruct (Z.eqb_spec (Z.land g seen) 0) as [Hg|Hg]; cbn [negb]; cycle 1.
    { rewrite orb_true_r. split; [discriminate|]. intros (_ & X & _). inversion X; contradiction. }
    destruct (Z.eqb_spec (Z.ldiff g tags) 0) as [Hd|Hd]; cbn [negb orb]; cycle 1.
    { split; [discriminate|]. intros (_ & _ & X). exfalso. apply Hd. rewrite <- X, (Z.lor_comm seen g), <- Z.lor_assoc. apply ldiff_lor_0. }
    rewrite IH, Forall_cons. assert (Hiff : Forall (fun x => Z.land x (Z.lor seen g) = 0) groups <->
      Forall (fun x => Z.land g x = 0) groups /\ Forall (fun x => Z.land x seen = 0) groups).
    { rewrite <- Forall_and. apply Forall_iff. intros x. rewrite Z.land_lor_distr_r, lor_0_inv, (Z.land_comm x g). tauto. }
    rewrite Hiff. split.
    + intros (P & (Q & S) & T). split_and!; try assumption. now constructor.
    + intros (P & (_ & S) & T). inversion P; subst. auto.
Qed.

Definition job_u (j : mt6878_camsv_job) : Prop :=
  is_u32 (sv_id j) /\ is_u32 (raw_tag j) /\ is_u32 (pdaf_tag j) /\ buffer_u (raw j) /\ buffer_u (pdaf j) /\ buffer_u (cq j) /\
  layout_u32 (raw_layout j) /\ layout_u32 (pdaf_layout j).
(** A job the receiver takes. *)
Definition job_ok (j : mt6878_camsv_job) : Prop :=
  sv_id j <= 1 /\ raw_tag j <= 7 /\ pdaf_tag j <= 7 /\ raw_tag j <> pdaf_tag j /\
  (jwidth j = 4000 /\ jheight j = 3000 \/ jwidth j = 4096 /\ jheight j = 2304) /\
  width (raw_layout j) = jwidth j /\ height (raw_layout j) = jheight j /\ bits_of (format (raw_layout j)) = Some 10 /\
  layout_ok (raw_layout j) (bsize (raw j)) /\ layout_ok (pdaf_layout j) (bsize (pdaf j)) /\
  buffer_ok (raw j) (sizeimage (raw_layout j)) /\ buffer_ok (pdaf j) (sizeimage (pdaf_layout j)) /\ buffer_ok (cq j) (bsize (cq j)) /\
  bsize (cq j) <= 65535 /\ buffers_apart (raw j) (pdaf j) /\ buffers_apart (raw j) (cq j) /\ buffers_apart (pdaf j) (cq j) /\
  groups_ok (job_tags j) (group_tags j).
Definition backend_ok (io : mt6878_camsv_backend) : Prop := operations io = true /\ sizes io = [0x1000; 0x1000; 0x1000; 0x18000].

Lemma validate_cases io j : job_u j -> mt6878_camsv_validate (Some io) (Some j) = 0 <-> backend_ok io /\ job_ok j.
Proof.
  intros (U1 & U2 & U3 & U4 & U5 & U6 & U7 & U8). unfold mt6878_camsv_validate, backend_ok, job_ok.
  pose proof (layout_cases (raw_layout j) (bsize (raw j)) U7) as L1. pose proof (layout_cases (pdaf_layout j) (bsize (pdaf j)) U8) as L2.
  pose proof (range_exact (raw j) (sizeimage (raw_layout j)) U4 ltac:(apply U7)) as R1.
  pose proof (range_exact (pdaf j) (sizeimage (pdaf_layout j)) U5 ltac:(apply U8)) as R2.
  pose proof (range_exact (cq j) (bsize (cq j)) U6 ltac:(apply U6)) as R3.
  destruct (operations io); cbn [negb orb]; [|split; [discriminate|intros ((X & _) & _); discriminate]].
  destruct (bool_decide_reflect (sizes io = [4096; 4096; 4096; 98304])) as [Hs|Hs]; cbn [negb orb]; [|split; [discriminate|tauto]].
  destruct (_ || _ || _ || _ || _) eqn:G1; [split; [discriminate|lia]|].
  assert (Hb : (negb (format (raw_layout j) =? 1) && negb (format (raw_layout j) =? 80)) = false <-> bits_of (format (raw_layout j)) = Some 10).
  { unfold bits_of. destruct (Z.eqb_spec (format (raw_layout j)) 0) as [->|]; [cbn; split; discriminate|].
    destruct (format (raw_layout j) =? 1), (format (raw_layout j) =? 80); cbn; split; congruence. }
  match goal with |- context [if ?b then - EINVAL else groups_loop _ _ _] => set (guard := b) end.
  assert (Hguard : guard = false <->
    width (raw_layout j) = jwidth j /\ height (raw_layout j) = jheight j /\ bits_of (format (raw_layout j)) = Some 10 /\
    layout_ok (raw_layout j) (bsize (raw j)) /\ layout_ok (pdaf_layout j) (bsize (pdaf j)) /\
    buffer_ok (raw j) (sizeimage (raw_layout j)) /\ buffer_ok (pdaf j) (sizeimage (pdaf_layout j)) /\ buffer_ok (cq j) (bsize (cq j)) /\
    bsize (cq j) <= 65535 /\ buffers_apart (raw j) (pdaf j) /\ buffers_apart (raw j) (cq j) /\ buffers_apart (pdaf j) (cq j)).
  { unfold guard. rewrite !orb_false_iff, !negb_false_iff, !Z.eqb_eq, Hb, L1, L2, R1, R2, R3, Z.ltb_ge. clear G1 guard L1 L2 R1 R2 R3 Hb.
    split; intros X; [destruct X as (((((((((((X1 & X2) & X3) & X4) & X5) & X6) & X7) & X8) & X9) & X10) & X11) & X12)|
                      destruct X as (X1 & X2 & X3 & X4 & X5 & X6 & X7 & X8 & X9 & X10 & X11 & X12)];
      rewrite buffers_overlap_apart in X10 || rewrite <- buffers_overlap_apart in X10; try assumption; try apply X6; try apply X7; try apply X8;
      rewrite buffers_overlap_apart in X11 || rewrite <- buffers_overlap_apart in X11; try assumption; try apply X6; try apply X7; try apply X8;
      rewrite buffers_overlap_apart in X12 || rewrite <- buffers_overlap_apart in X12; try assumption; try apply X6; try apply X7; try apply X8; auto 20. }
  unfold groups_ok. destruct guard.
  - split; [discriminate|]. intros (_ & _ & _ & _ & _ & _ & X). assert (true = false) by (apply Hguard; tauto). discriminate.
  - destruct Hguard as [Hg _]. specialize (Hg eq_refl). rewrite groups_loop_exact, Z.lor_0_l.
    assert (Hz : Forall (fun g => Z.land g 0 = 0) (group_tags j)) by (apply Forall_true; intros; apply Z.land_0_r).
    split; [intros (X & _ & Y)|intros (_ & X)]; split_and!; try tauto; lia.
Qed.

(** ** Hardware sequences *)

(** One step of a sequence, and its traces: [ran] when it succeeds, [broke]
    when it fails. *)
Inductive op : Type :=
| OVerify (o : mt6878_camsv_owner)
| OWrite (r : mt6878_camsv_region) (offset value : Z)
| OUpdate (r : mt6878_camsv_region) (offset mask value : Z)
| OBarrier
| OClamp (common enable : Z)
| OPoll (r : mt6878_camsv_region) (offset : Z).
Definition exec (io : mt6878_camsv_backend) (o : op) : txn -> cio (Z * txn) :=
  match o with
  | OVerify w => verify w
  | OWrite r offset value => mt6878_camsv_write io r offset value
  | OUpdate r offset mask value => mt6878_camsv_update io r offset mask value
  | OBarrier => barrier
  | OClamp c e => smi_clamp c e
  | OPoll r offset => mt6878_camsv_poll_idle r offset
  end.
Abbreviation ctrace := (trace request (Z * Z)) (only parsing).
(** [polling r offset n s]: [n] readings without the idle bit, with the delay after each. *)
Inductive polling (r : mt6878_camsv_region) (offset : Z) : nat -> ctrace -> Prop :=
| polling_none : polling r offset 0 []
| polling_more n v a s : Z.land v 2 = 0 -> polling r offset n s ->
    polling r offset (S n) ((Read r offset, (0, v)) :: (Delay 1, (0, a)) :: s).
Definition polls_max : nat := Z.to_nat 100000.
Definition ran (j : mt6878_camsv_job) (o : op) (s : ctrace) : Prop :=
  match o with
  | OVerify w => exists a, s = [(Verify w j, (0, a))]
  | OWrite r offset value => exists a, s = [(Write r offset value, (0, a))]
  | OUpdate r offset mask value => exists v a, s = [(Read r offset, (0, v)); (Write r offset (Z.lor (Z.ldiff v mask) value), (0, a))]
  | OBarrier => exists a, s = [(Barrier, (0, a))]
  | OClamp c e => exists a, s = [(Clamp c e, (0, a))]
  | OPoll r offset => exists n s0 v, (n < polls_max)%nat /\ polling r offset n s0 /\ Z.land v 2 <> 0 /\ s = s0 ++ [(Read r offset, (0, v))]
  end.
Definition failed (q : request) (s : ctrace) : Prop := exists e a, e <> 0 /\ s = [(q, (e, a))].
Definition broke (j : mt6878_camsv_job) (o : op) (s : ctrace) : Prop :=
  match o with
  | OVerify w => failed (Verify w j) s
  | OWrite r offset value => failed (Write r offset value) s
  | OUpdate r offset mask value =>
    failed (Read r offset) s \/ exists v s', s = (Read r offset, (0, v)) :: s' /\ failed (Write r offset (Z.lor (Z.ldiff v mask) value)) s'
  | OBarrier => failed Barrier s
  | OClamp c e => failed (Clamp c e) s
  | OPoll r offset => exists n s0 s1, polling r offset n s0 /\ s = s0 ++ s1 /\
      (n = polls_max /\ s1 = [] \/
       (n < polls_max)%nat /\ (failed (Read r offset) s1 \/ exists v s2, Z.land v 2 = 0 /\ s1 = (Read r offset, (0, v)) :: s2 /\ failed (Delay 1) s2))
  end.
(** The whole sequence succeeded; or it stopped at its first failing step. *)
Fixpoint all_ran (j : mt6878_camsv_job) (os : list op) (s : ctrace) : Prop :=
  match os with
  | [] => s = []
  | o :: os => exists s1 s2, s = s1 ++ s2 /\ ran j o s1 /\ all_ran j os s2
  end.
Definition stopped_in (j : mt6878_camsv_job) (os : list op) (s : ctrace) : Prop :=
  exists before o after s1 s2, os = before ++ o :: after /\ s = s1 ++ s2 /\ all_ran j before s1 /\ broke j o s2.
Definition in_bounds (io : mt6878_camsv_backend) (o : op) : Prop :=
  match o with
  | OWrite r offset _ => out_of_region io r offset = false
  | OUpdate r offset mask value => out_of_region io r offset = false /\ Z.ldiff value mask = 0
  | _ => True
  end.

(** A transaction that may have latched an error. *)
Definition latched (t t' : txn) : Prop := t' = t \/ exists e, e <> 0 /\ t' = set_first_error e t.
Definition outcome (t : txn) (good bad : ctrace -> Prop) (p : Z * txn) (s : ctrace) : Prop :=
  (p.1 = 0 -> p.2 = t /\ good s) /\ (p.1 <> 0 -> latched t p.2 /\ bad s).
Lemma outcome_good t (good bad : ctrace -> Prop) s : good s -> outcome t good bad (0, t) s.
Proof. intros H. split; [auto|]. now intros []. Qed.
Lemma outcome_bad t (good bad : ctrace -> Prop) e s : e <> 0 -> bad s -> outcome t good bad (e, t) s.
Proof. intros He H. split; cbn; [contradiction|]. intros _. split; [now left|exact H]. Qed.
Lemma outcome_error t (good bad : ctrace -> Prop) e s : e <> 0 -> bad s -> outcome t good bad (mt6878_camsv_error t e) s.
Proof.
  intros He H. unfold mt6878_camsv_error. replace (e =? 0) with false by lia. cbn [negb andb]. destruct (Z.eqb_spec (first_error t) 0) as [E|E].
  - split; cbn; [contradiction|]. intros _. split; [right; eauto|exact H].
  - now apply outcome_bad.
Qed.

Lemma failed_status q p : negb (p.1 =? 0) = true -> failed q [(q, p)].
Proof. destruct p as [e a]. cbn. intros H. exists e, a. split; [lia|reflexivity]. Qed.
Lemma answer_zero {A} (p : Z * A) : negb (p.1 =? 0) = false -> p = (0, p.2).
Proof. destruct p as [e a]. cbn. intros H. f_equal. lia. Qed.

Lemma poll_outcome j r offset t : forall count before s0, (before + count = polls_max)%nat -> polling r offset before s0 ->
  performs (poll_loop count r offset t) (fun p s => outcome t (ran j (OPoll r offset)) (broke j (OPoll r offset)) p (s0 ++ s)).
Proof.
  assert (Happ : forall n s0 v a, polling r offset n s0 -> Z.land v 2 = 0 -> polling r offset (S n) (s0 ++ [(Read r offset, (0, v)); (Delay 1, (0, a))])).
  { intros n s0 v a Hp Hv. induction Hp as [|m w b s Hw Hp IH]; cbn; constructor; try assumption. constructor. }
  induction count as [|count IH]; intros before s0 Hn Hp; cbn [poll_loop].
  { trace_step. rewrite app_nil_r. apply outcome_error; [lia|]. cbn. exists before, s0, []. rewrite app_nil_r. split_and!; auto. left. split; [lia|reflexivity]. }
  trace_step. trace_step.
  { trace_step. apply outcome_error; [lia|]. cbn. exists before, s0, [(Read r offset, p)]. split_and!; auto. right. split; [lia|]. left. now apply failed_status. }
  apply answer_zero in G. rewrite G. cbn [fst snd]. generalize (p.2). intros v. trace_step.
  { trace_step. apply outcome_good. cbn. exists before, s0, v. split_and!; auto; lia. }
  trace_step. trace_step.
  { trace_step. apply outcome_error; [lia|]. cbn. exists before, s0, [(Read r offset, (0, v)); (Delay 1, p0)]. split_and!; auto. right. split; [lia|].
    right. exists v, [(Delay 1, p0)]. split; [lia|]. split; [reflexivity|now apply failed_status]. }
  apply answer_zero in G1. rewrite G1. generalize (p0.2). intros a.
  eapply performs_impl; [apply (IH (S before) (s0 ++ [(Read r offset, (0, v)); (Delay 1, (0, a))])); [lia|apply Happ; [exact Hp|lia]]|].
  cbn. intros b s Hs. rewrite <- app_assoc in Hs. exact Hs.
Qed.
Lemma write_outcome io j r offset value t : out_of_region io r offset = false ->
  performs (mt6878_camsv_write io r offset value t) (outcome t (ran j (OWrite r offset value)) (broke j (OWrite r offset value))).
Proof.
  intros Hb. unfold mt6878_camsv_write. rewrite Hb. trace_step. trace_step; trace_step.
  - apply outcome_error; [lia|]. now apply failed_status.
  - apply outcome_good. apply answer_zero in G. rewrite G. cbn. eauto.
Qed.
Lemma exec_outcome io o t : in_bounds io o -> performs (exec io o t) (outcome t (ran (job t) o) (broke (job t) o)).
Proof.
  assert (Hask : forall q (good bad : ctrace -> Prop), (forall p, negb (p.1 =? 0) = true -> bad [(q, p)]) -> (forall a, good [(q, (0, a))]) ->
    performs (let! a := ask q in ret (a.1, t)) (outcome t good bad)).
  { intros q good bad Hb Hg. trace_step. trace_step. destruct (negb (p.1 =? 0)) eqn:G.
    - apply outcome_bad; [lia|auto].
    - apply answer_zero in G. rewrite G. apply outcome_good. apply Hg. }
  destruct o as [w|r offset value|r offset mask value| |c e|r offset]; cbn [exec in_bounds]; intros Hb.
  - apply Hask; cbn; [intros; now apply failed_status|eauto].
  - now apply write_outcome.
  - destruct Hb as [Hb Hm]. unfold mt6878_camsv_update. rewrite Hb, Hm. cbn [orb negb Z.eqb]. trace_step. trace_step.
    + trace_step. apply outcome_error; [lia|]. left. now apply failed_status.
    + apply answer_zero in G. rewrite G. cbn [fst snd]. eapply performs_impl; [apply (write_outcome io (job t)); exact Hb|].
      intros p' s [H1 H2]. split; intros Hp.
      * destruct (H1 Hp) as [E (a & ->)]. split; [exact E|]. cbn. eauto.
      * destruct (H2 Hp) as [E Hf]. split; [exact E|]. right. eauto.
  - apply Hask; cbn; [intros; now apply failed_status|eauto].
  - apply Hask; cbn; [intros; now apply failed_status|eauto].
  - apply (poll_outcome (job t) r offset t polls_max 0 []); [lia|constructor].
Qed.
Lemma chain_outcome io os t : Forall (in_bounds io) os -> performs (chain (exec io <$> os) t) (outcome t (all_ran (job t) os) (stopped_in (job t) os)).
Proof.
  induction 1 as [|o os Ho Hos IH]; cbn [chain fmap list_fmap].
  - trace_step. now apply outcome_good.
  - eapply performs_bind; [apply exec_outcome, Ho|]. intros p s [H1 H2]. trace_step.
    + trace_step. rewrite app_nil_r. split; [lia|]. intros Hp. destruct (H2 Hp) as [L B]. split; [exact L|].
      exists [], o, os, [], s. split_and!; auto. reflexivity.
    + assert (Hp : p.1 = 0) by lia. destruct (H1 Hp) as [E R]. rewrite E. eapply performs_impl; [exact IH|]. intros p' s' [H3 H4]. split; intros Hp'.
      * destruct (H3 Hp') as [E' A]. split; [exact E'|]. cbn. eauto.
      * destruct (H4 Hp') as [L (b & x & a & s1 & s2 & -> & -> & A & B)]. split; [exact L|].
        exists (o :: b), x, a, (s ++ s1), s2. split_and!; auto; [now rewrite app_assoc|]. cbn. eauto.
Qed.

Lemma all_ran_app j a b s1 s2 : all_ran j a s1 -> all_ran j b s2 -> all_ran j (a ++ b) (s1 ++ s2).
Proof.
  revert s1. induction a as [|o a IH]; intros s1 Ha Hb; cbn in *; [now subst|]. destruct Ha as (x & y & -> & Hx & Hy).
  exists x, (y ++ s2). rewrite app_assoc. auto.
Qed.
Lemma stopped_in_l j a b s : stopped_in j a s -> stopped_in j (a ++ b) s.
Proof. intros (u & o & v & s1 & s2 & -> & -> & H). exists u, o, (v ++ b), s1, s2. rewrite <- app_assoc. auto. Qed.
Lemma stopped_in_r j a b s1 s2 : all_ran j a s1 -> stopped_in j b s2 -> stopped_in j (a ++ b) (s1 ++ s2).
Proof.
  intros Ha (u & o & v & x & y & -> & -> & Hu & Ho). exists (a ++ u), o, v, (s1 ++ x), y. rewrite <- !app_assoc. split_and!; auto.
  now apply all_ran_app.
Qed.

(** The submission: admission, the two virtual channels, the command queue. *)
Definition cammux_ops (j : mt6878_camsv_job) (tag dt : Z) : list op :=
  let offset := u32 (0x17000 + 0x40 * (sv_id j * 8 + tag) + SV_CAMMUX_OPT) in
  [OUpdate MT6878_SV_SENINF offset SV_VC_MASK 0; OUpdate MT6878_SV_SENINF offset SV_DT_MASK (Z.shiftl dt SV_DT_SHIFT);
   OUpdate MT6878_SV_SENINF offset SV_VC_EN_MASK SV_VC_EN_MASK; OUpdate MT6878_SV_SENINF offset SV_DT_EN_MASK SV_DT_EN_MASK].
Definition cq_ops (j : mt6878_camsv_job) : list op :=
  [OWrite MT6878_SV_CQ SV_CQ_SIZE (bsize (cq j)); OWrite MT6878_SV_CQ SV_CQ_MSB (u32 (Z.shiftr (dma (cq j)) 32));
   OWrite MT6878_SV_CQ SV_CQ_LSB (u32 (dma (cq j))); OWrite MT6878_SV_CQ SV_CQ_START 1; OBarrier;
   OUpdate MT6878_SV_CQ SV_CQ_EN (2 ^ 12) (2 ^ 12)].
Definition admission_ops : list op := OVerify <$> admission_owners.
Definition hardware_ops (j : mt6878_camsv_job) : list op :=
  (cammux_ops j (raw_tag j) 0x2b ++ cammux_ops j (pdaf_tag j) 0x30) ++ cq_ops j.
(** The stop: proof of silence, the clamp, the resets, and the clamp's release. *)
Definition silence_ops : list op := [OVerify MT6878_SV_STOPPED; OClamp 31 1].
Definition reset_ops : list op :=
  [OWrite MT6878_SV_DMA SV_DMA_RESET 0; OWrite MT6878_SV_DMA SV_DMA_RESET 1; OBarrier; OPoll MT6878_SV_DMA SV_DMA_RESET;
   OWrite MT6878_SV_CENTRAL SV_DCM_DIS 0; OWrite MT6878_SV_CENTRAL SV_SW_CTL 0; OWrite MT6878_SV_CENTRAL SV_SW_CTL 1;
   OWrite MT6878_SV_DMA SV_DMA_RESET 0; OWrite MT6878_SV_CENTRAL SV_SW_CTL 0; OBarrier;
   OWrite MT6878_SV_CQ SV_CQ_RESET 0; OWrite MT6878_SV_CQ SV_CQ_RESET 1; OBarrier; OPoll MT6878_SV_CQ SV_CQ_RESET;
   OWrite MT6878_SV_CQ SV_CQ_RESET 0; OBarrier;
   OUpdate MT6878_SV_CQ SV_CQ_EN (2 ^ 16) (2 ^ 16); OUpdate MT6878_SV_CQ SV_CQ_SUB_EN (2 ^ 16) (2 ^ 16);
   OUpdate MT6878_SV_CQ SV_CQ_SUB_EN (2 ^ 16) 0; OUpdate MT6878_SV_CQ SV_CQ_EN (2 ^ 16) 0; OBarrier; OClamp 31 0].

Section Sequences.
Context (io : mt6878_camsv_backend) (Hio : backend_ok io).

Lemma cammux_bounds j tag dt : 0 <= sv_id j <= 1 -> 0 <= tag <= 7 -> Z.ldiff (Z.shiftl dt SV_DT_SHIFT) SV_DT_MASK = 0 ->
  Forall (in_bounds io) (cammux_ops j tag dt).
Proof.
  intros Hs Ht Hd. destruct Hio as [_ Hz]. unfold cammux_ops. cbv zeta. set (o := u32 _).
  assert (Ho : out_of_region io MT6878_SV_SENINF o = false).
  { unfold o. rewrite u32_id by (unfold is_u32; lia). unfold out_of_region, size_of. rewrite Hz. cbn [region_index nth].
    replace (0x17000 + 0x40 * (sv_id j * 8 + tag) + 4) with (Z.shiftl (0x5c01 + 0x10 * (sv_id j * 8 + tag)) 2) by (rewrite Z.shiftl_mul_pow2; lia).
    change 3 with (Z.ones 2). rewrite land_ones_mod by lia. rewrite Z.shiftl_mul_pow2, Z_mod_mult by lia. cbn [negb Z.eqb orb]. lia. }
  repeat (apply List.Forall_cons; [split; [exact Ho|first [exact Hd|reflexivity]]|]). apply List.Forall_nil.
Qed.
Lemma fixed_bounds os : Forall (fun o => match o with
    | OWrite r offset _ => r <> MT6878_SV_SENINF /\ Z.land offset 3 = 0 /\ offset <= 0xffc
    | OUpdate r offset mask value => r <> MT6878_SV_SENINF /\ Z.land offset 3 = 0 /\ offset <= 0xffc /\ Z.ldiff value mask = 0
    | _ => True end) os -> Forall (in_bounds io) os.
Proof.
  intros H. eapply Forall_impl; [exact H|]. destruct Hio as [_ Hz].
  assert (Ho : forall r offset, r <> MT6878_SV_SENINF -> Z.land offset 3 = 0 -> offset <= 0xffc -> out_of_region io r offset = false).
  { intros r offset Hr Ha Hb. unfold out_of_region, size_of. rewrite Hz, Ha. destruct r; cbn [region_index nth negb Z.eqb orb]; first [contradiction|lia]. }
  intros [] Hx; cbn in *; try exact Logic.I; [apply Ho|split; [apply Ho|]]; tauto.
Qed.
Ltac fixed := apply fixed_bounds; repeat (apply List.Forall_cons; [cbn; try (split_and!; [discriminate|reflexivity|discriminate|reflexivity]);
  try (split_and!; [discriminate|reflexivity|discriminate]); try exact Logic.I|]); apply List.Forall_nil.
Lemma hardware_bounds j : 0 <= sv_id j <= 1 -> 0 <= raw_tag j <= 7 -> 0 <= pdaf_tag j <= 7 ->
  Forall (in_bounds io) (cammux_ops j (raw_tag j) 0x2b ++ cammux_ops j (pdaf_tag j) 0x30) /\ Forall (in_bounds io) (cq_ops j).
Proof.
  intros Hs Hr Hp. split; [apply Forall_app; split; apply cammux_bounds; (assumption || reflexivity)|]. unfold cq_ops. fixed.
Qed.
Lemma reset_bounds : Forall (in_bounds io) reset_ops.
Proof. unfold reset_ops. fixed. Qed.
End Sequences.

(** ** Outcomes of a submission and of a stop *)

Definition fresh (t : txn) : Prop := first_error t = 0 /\ attempted t = 0 /\ off_attempted t = 0.
Inductive submit_result (io : mt6878_camsv_backend) (t : txn) (j : mt6878_camsv_job) : Z -> txn -> ctrace -> Prop :=
| submit_refused r t' : r <> 0 -> latched t t' -> submit_result io t j r t' []
| submit_not_admitted r t' s : r <> 0 -> fresh t -> backend_ok io -> job_ok j -> stopped_in j admission_ops s ->
    latched (start_tx j t) t' -> first_error t' <> 0 -> submit_result io t j r t' s
| submit_failed r t' s1 s2 : r <> 0 -> fresh t -> backend_ok io -> job_ok j -> all_ran j admission_ops s1 -> stopped_in j (hardware_ops j) s2 ->
    latched (set_hw (start_tx j t)) t' -> first_error t' <> 0 -> submit_result io t j r t' (s1 ++ s2)
| submit_done s1 s2 : fresh t -> backend_ok io -> job_ok j -> all_ran j admission_ops s1 -> all_ran j (hardware_ops j) s2 ->
    submit_result io t j 0 (set_submitted (set_hw (start_tx j t))) (s1 ++ s2).
Inductive stop_result (io : mt6878_camsv_backend) (t : txn) : Z -> txn -> ctrace -> Prop :=
| stop_refused r : r <> 0 -> stop_result io t r t []
| stop_not_silent r t' s : r <> 0 -> attempted t <> 0 -> off_attempted t = 0 -> stopped_in (job t) silence_ops s ->
    latched (set_off t) t' -> first_error t' <> 0 -> stop_result io t r t' s
| stop_not_reset r t' s1 s2 : r <> 0 -> attempted t <> 0 -> off_attempted t = 0 -> all_ran (job t) silence_ops s1 ->
    stopped_in (job t) reset_ops s2 -> latched (set_off t) t' -> first_error t' <> 0 -> stop_result io t r t' (s1 ++ s2)
| stop_done s1 s2 : attempted t <> 0 -> off_attempted t = 0 -> all_ran (job t) silence_ops s1 -> all_ran (job t) reset_ops s2 ->
    stop_result io t (first_error t) (set_quiesced (set_off t)) (s1 ++ s2).

Lemma error_latched t t' r : r <> 0 -> latched t t' ->
  (mt6878_camsv_error t' r).1 <> 0 /\ latched t (mt6878_camsv_error t' r).2 /\ first_error (mt6878_camsv_error t' r).2 <> 0.
Proof.
  intros Hr Hl. unfold mt6878_camsv_error. replace (r =? 0) with false by lia. cbn [negb andb].
  destruct (Z.eqb_spec (first_error t') 0) as [E|E]; cbn; [|auto]. split; [exact Hr|]. split; [|exact Hr].
  right. exists r. split; [exact Hr|]. destruct Hl as [->|(e & _ & ->)]; reflexivity.
Qed.
Lemma validate_some io job_ : mt6878_camsv_validate io job_ = 0 -> exists b j, io = Some b /\ job_ = Some j.
Proof. destruct io as [b|], job_ as [j|]; try discriminate. eauto. Qed.
(** A failed chain has latched its error, or reports one the caller latches. *)
Lemma chain_latches t t' : latched t t' -> first_error t = 0 -> t' = t \/ first_error t' <> 0.
Proof. intros [->|(e & He & ->)] _; [now left|right; exact He]. Qed.

Lemma update_latches io r offset mask value t : in_bounds io (OUpdate r offset mask value) ->
  performs (mt6878_camsv_update io r offset mask value t) (fun p _ => p.1 <> 0 -> first_error p.2 <> 0).
Proof.
  intros [Hb Hm]. unfold mt6878_camsv_update, mt6878_camsv_write. rewrite Hb, Hm. cbn [orb negb Z.eqb].
  assert (He : forall e, e <> 0 -> first_error (mt6878_camsv_error t e).2 <> 0).
  { intros e He. unfold mt6878_camsv_error. replace (e =? 0) with false by lia. cbn. destruct (Z.eqb_spec (first_error t) 0); cbn; lia. }
  repeat trace_step; cbn [fst snd]; intros Hp; try (apply He; lia). now destruct Hp.
Qed.
Lemma chain_update_latches io os t : Forall (in_bounds io) os -> Forall (fun o => match o with OUpdate _ _ _ _ => True | _ => False end) os ->
  performs (chain (exec io <$> os) t) (fun p _ => p.1 <> 0 -> first_error p.2 <> 0).
Proof.
  intros Hb. revert t. induction Hb as [|o os Ho Hos IH]; intros t Hu; cbn [chain fmap list_fmap]; [trace_step; now intros []|].
  inversion Hu as [|? ? Hx Hus]; subst. destruct o as [| |r off m v| | |]; try contradiction.
  eapply performs_bind; [apply (update_latches io r off m v t Ho)|]. intros p s Hp. trace_step; [trace_step; exact Hp|]. now apply IH.
Qed.

Lemma submit_cases io t j : job_u j -> performs (mt6878_camsv_submit (Some io) (Some t) (Some j))
  (fun p s => exists t', p.2 = Some t' /\ submit_result io t j p.1 t' s).
Proof.
  intros Hu. unfold mt6878_camsv_submit. cbv zeta.
  destruct (Z.eqb_spec (first_error t) 0) as [H1|H1]; cbn [negb]; [|trace_step; eexists; split; [reflexivity|]; cbn; apply submit_refused; [exact H1|now left]].
  destruct (_ || _) eqn:G; [trace_step; eexists; split; [reflexivity|]; cbn; apply submit_refused; [lia|now left]|].
  assert (Hf : fresh t) by (unfold fresh; lia). clear G.
  destruct (Z.eqb_spec (mt6878_camsv_validate (Some io) (Some j)) 0) as [Hv|Hv]; cbn [negb].
  2:{ trace_step. destruct (error_latched t t _ Hv (or_introl eq_refl)) as (E1 & E2 & _). eexists. split; [reflexivity|]. cbn. apply submit_refused; assumption. }
  apply (validate_cases io j Hu) in Hv as [Hio Hj]. set (t0 := start_tx j t). destruct Hu as (U1 & U2 & U3 & _). unfold is_u32 in *.
  destruct (hardware_bounds io Hio j) as [B1 B2]; [destruct Hj as (? & ? & ? & _); lia..|].
  eapply performs_bind. { apply (chain_outcome io admission_ops t0). repeat constructor. }
  intros p1 s1 [P1 P2]. trace_step.
  { trace_step. rewrite app_nil_r. destruct (P2 ltac:(lia)) as [L S]. destruct (error_latched t0 p1.2 p1.1 ltac:(lia) L) as (E1 & E2 & E3).
    eexists. split; [reflexivity|]. cbn. now apply submit_not_admitted. }
  destruct (P1 ltac:(lia)) as [-> A1].
  eapply performs_bind.
  { apply performs_and; [apply (chain_outcome io _ (set_hw t0) B1)|apply (chain_update_latches io _ (set_hw t0) B1)]. repeat constructor. }
  intros p2 s2 [[P3 P4] P5]. trace_step.
  { trace_step. rewrite app_nil_r. destruct (P4 ltac:(lia)) as [L S]. eexists. split; [reflexivity|]. cbn.
    apply submit_failed; auto; [lia|now apply stopped_in_l|apply P5; lia]. }
  destruct (P3 ltac:(lia)) as [-> A2]. eapply performs_bind; [apply (chain_outcome io (cq_ops j) (set_hw t0) B2)|].
  intros p3 s3 [P6 P7]. trace_step.
  { trace_step. rewrite app_nil_r. destruct (P7 ltac:(lia)) as [L S]. destruct (error_latched (set_hw t0) p3.2 p3.1 ltac:(lia) L) as (E1 & E2 & E3).
    eexists. split; [reflexivity|]. cbn. apply submit_failed; auto. now apply stopped_in_r. }
  trace_step. destruct (P6 ltac:(lia)) as [-> A3]. rewrite app_nil_r. eexists. split; [reflexivity|]. apply submit_done; auto. now apply all_ran_app.
Qed.

Lemma stop_cases io t : performs (mt6878_camsv_stop (Some io) (Some t)) (fun p s => exists t', p.2 = Some t' /\ stop_result io t p.1 t' s).
Proof.
  unfold mt6878_camsv_stop. cbv zeta.
  destruct (_ || _) eqn:G; [trace_step; eexists; split; [reflexivity|]; cbn; apply stop_refused; lia|].
  apply orb_false_iff in G as [G1 G2]. assert (Ha : attempted t <> 0) by lia.
  destruct (Z.eqb_spec (off_attempted t) 0) as [Ho|Ho]; cbn [negb].
  2:{ trace_step. eexists. split; [reflexivity|]. cbn. apply stop_refused. destruct (Z.eqb_spec (first_error t) 0); cbn; lia. }
  assert (Hio : backend_ok io).
  { apply negb_false_iff, Z.eqb_eq in G2. unfold mt6878_camsv_validate in G2. destruct (operations io) eqn:E1; [|discriminate].
    destruct (bool_decide_reflect (sizes io = [4096; 4096; 4096; 98304])) as [E2|E2]; [split; assumption|discriminate]. }
  eapply performs_bind. { apply (chain_outcome io silence_ops (set_off t)). repeat constructor. }
  intros p1 s1 [P1 P2]. trace_step.
  { trace_step. rewrite app_nil_r. destruct (P2 ltac:(lia)) as [L S]. destruct (error_latched (set_off t) p1.2 p1.1 ltac:(lia) L) as (E1 & E2 & E3).
    eexists. split; [reflexivity|]. cbn. now apply stop_not_silent. }
  destruct (P1 ltac:(lia)) as [-> A1]. eapply performs_bind; [apply (chain_outcome io reset_ops (set_off t) (reset_bounds io Hio))|].
  intros p2 s2 [P3 P4]. trace_step.
  { trace_step. rewrite app_nil_r. destruct (P4 ltac:(lia)) as [L S]. destruct (error_latched (set_off t) p2.2 p2.1 ltac:(lia) L) as (E1 & E2 & E3).
    eexists. split; [reflexivity|]. cbn. now apply stop_not_reset. }
  trace_step. destruct (P3 ltac:(lia)) as [-> A2]. rewrite app_nil_r. eexists. split; [reflexivity|]. now apply stop_done.
Qed.

(** ** Histories of a buffer pair *)

(** What a request of a step can be. *)
Definition asks_for (o : op) (q : request) : bool :=
  match q, o with
  | Verify _ _, OVerify _ => true
  | Read _ _, (OUpdate _ _ _ _ | OPoll _ _) => true
  | Write _ _ _, (OWrite _ _ _ | OUpdate _ _ _ _) => true
  | Barrier, OBarrier => true
  | Delay _, OPoll _ _ => true
  | Clamp _ _, OClamp _ _ => true
  | _, _ => false
  end.
Definition within (o : op) (s : ctrace) : Prop := Forall (fun e => asks_for o e.1 = true) s.
Lemma polling_within r offset n s : polling r offset n s -> within (OPoll r offset) s.
Proof. induction 1; repeat (apply List.Forall_cons; [reflexivity|]); [apply List.Forall_nil|assumption]. Qed.
Lemma failed_within o q s : asks_for o q = true -> failed q s -> within o s.
Proof. intros H (e & a & _ & ->). now apply Forall_singleton. Qed.
Lemma ran_within j o s : ran j o s -> within o s.
Proof.
  destruct o; cbn [ran]; intros H; repeat destruct H as (? & H); subst; try (repeat (apply List.Forall_cons; [reflexivity|]); apply List.Forall_nil).
  apply Forall_app. split; [eapply polling_within; eassumption|]. now apply Forall_singleton.
Qed.
Lemma broke_within j o s : broke j o s -> within o s.
Proof.
  destruct o; cbn [broke]; intros H; try (eapply failed_within, H; reflexivity).
  - destruct H as [H|(v & s' & -> & H)]; [eapply failed_within, H; reflexivity|].
    apply List.Forall_cons; [reflexivity|]. eapply failed_within, H; reflexivity.
  - destruct H as (n & s0 & s1 & Hp & -> & H). apply Forall_app. split; [eapply polling_within; eassumption|].
    destruct H as [[_ ->]|[_ [H|(v & s2 & _ & -> & H)]]]; [apply List.Forall_nil|eapply failed_within, H; reflexivity|].
    apply List.Forall_cons; [reflexivity|]. eapply failed_within, H; reflexivity.
Qed.
Definition only (P : request -> bool) (s : ctrace) : Prop := Forall (fun e => P e.1 = true) s.
Lemma within_only (P : request -> bool) o s : (forall q, asks_for o q = true -> P q = true) -> within o s -> only P s.
Proof. intros H W. eapply Forall_impl; [exact W|]. intros e. apply H. Qed.
Lemma all_ran_only (P : request -> bool) j os s : (forall o q, o ∈ os -> asks_for o q = true -> P q = true) -> all_ran j os s -> only P s.
Proof.
  revert s. induction os as [|o os IH]; intros s HP; cbn [all_ran]; [intros ->; apply List.Forall_nil|].
  intros (s1 & s2 & -> & H1 & H2). apply Forall_app. split.
  - eapply within_only; [|eapply ran_within, H1]. intros q. apply HP. now left.
  - apply IH; [|exact H2]. intros o' q Ho. apply HP. now right.
Qed.
Lemma stopped_in_only (P : request -> bool) j os s : (forall o q, o ∈ os -> asks_for o q = true -> P q = true) -> stopped_in j os s -> only P s.
Proof.
  intros HP (b & o & a & s1 & s2 & -> & -> & H1 & H2). apply Forall_app. split.
  - eapply all_ran_only; [|exact H1]. intros o' q Ho. apply HP. apply elem_of_app. now left.
  - eapply within_only; [|eapply broke_within, H2]. intros q. apply HP. apply elem_of_app. right. now left.
Qed.

(** The buffers a trace returns to their queues. *)
Definition returned (s : ctrace) : list (plane * vb2_state) :=
  omap (fun e : request * (Z * Z) => match e.1 with Buffer_done p st => Some (p, st) | _ => None end) s.
Definition returns_none (q : request) : bool := match q with Buffer_done _ _ => false | _ => true end.
Definition verifies (q : request) : bool := match q with Verify _ _ => true | _ => false end.
Lemma returned_app s1 s2 : returned (s1 ++ s2) = returned s1 ++ returned s2.
Proof. unfold returned. now rewrite omap_app. Qed.
Lemma only_returned s : only returns_none s -> returned s = [].
Proof. induction 1 as [|[[] p] s H _ IH]; cbn in *; try exact IH; [reflexivity|discriminate]. Qed.
Lemma asks_returns_none o q : asks_for o q = true -> returns_none q = true.
Proof. now destruct q. Qed.
Lemma all_ran_returned j os s : all_ran j os s -> returned s = [].
Proof. intros H. eapply only_returned, all_ran_only; [|exact H]. intros o q _. apply asks_returns_none. Qed.
Lemma stopped_in_returned j os s : stopped_in j os s -> returned s = [].
Proof. intros H. eapply only_returned, stopped_in_only; [|exact H]. intros o q _. apply asks_returns_none. Qed.
Lemma admission_verifies j s : stopped_in j admission_ops s -> only verifies s.
Proof.
  intros H. eapply stopped_in_only; [|exact H]. intros o q Ho. unfold admission_ops in Ho. apply list_elem_of_fmap in Ho as (w & -> & _). now destruct q.
Qed.
Lemma only_app P s1 s2 : only P s1 -> only P s2 -> only P (s1 ++ s2).
Proof. intros. apply Forall_app. auto. Qed.

(** One call of the driver, and a history of calls. *)
Inductive vb2_call : Type :=
| Submit (raw_ pdaf_ : ptr vb2_v4l2_buffer) (dma_owner verified_domain : Z) (job_ : mt6878_camsv_job)
| Done (status inner_sequence timestamp_ns : Z)
| Stop.
Definition call_ok (c : vb2_call) : Prop :=
  match c with
  | Submit a b _ _ j => job_u j /\ is_u64 (plane_dma (pointee a)) /\ is_u64 (plane_dma (pointee b)) /\
      is_u64 (plane_size (pointee a)) /\ is_u64 (plane_size (pointee b))
  | _ => True
  end.
Definition vb2_step (domain_of : Z -> Z) (io : mt6878_camsv_backend) (c : vb2_call) (p : mt6878_camsv_vb2_pair)
    : cio (Z * option mt6878_camsv_vb2_pair) :=
  match c with
  | Submit a b d v j => mt6878_camsv_vb2_submit domain_of (Some io) (Some p) a b d v (Some j)
  | Done st seq ts => mt6878_camsv_vb2_done (Some p) st seq ts
  | Stop => mt6878_camsv_vb2_stop (Some io) (Some p)
  end.
Fixpoint vb2_run (domain_of : Z -> Z) (io : mt6878_camsv_backend) (calls : list vb2_call) (p : mt6878_camsv_vb2_pair) : cio mt6878_camsv_vb2_pair :=
  match calls with
  | [] => ret p
  | c :: calls => let! r := vb2_step domain_of io c p in vb2_run domain_of io calls (default p r.2)
  end.

(** The whole stop sequence is in the trace, and no buffer was returned before its end. *)
Definition reset_before_return (j : mt6878_camsv_job) (s : ctrace) : Prop :=
  exists s1 s2 s3, s = s1 ++ s2 ++ s3 /\ returned s1 = [] /\ all_ran j (silence_ops ++ reset_ops) s2.
(** Who owns the buffers after the trace [s]. *)
Inductive custody (p : mt6878_camsv_vb2_pair) (s : ctrace) : Prop :=
| never_taken : pair_raw p = None -> pair_pdaf p = None -> completed p = 0 -> quiesced (tx p) = 0 -> hw_attempted (tx p) = 0 -> 
    only verifies s -> custody p s
| retained a b : pair_raw p = Some a -> pair_pdaf p = Some b -> completed p = 0 -> quiesced (tx p) = 0 -> returned s = [] -> custody p s
| captured a b : pair_raw p = Some a -> pair_pdaf p = Some b -> completed p = 1 ->
    complete_tags (tx p) = job_tags (job (tx p)) -> returned s = [(Raw, VB2_BUF_STATE_DONE); (Pdaf, VB2_BUF_STATE_DONE)] -> custody p s
| discarded a b : pair_raw p = Some a -> pair_pdaf p = Some b -> completed p = 1 -> quiesced (tx p) = 1 ->
    reset_before_return (job (tx p)) s -> returned s = [(Raw, VB2_BUF_STATE_ERROR); (Pdaf, VB2_BUF_STATE_ERROR)] -> custody p s.

Lemma map_buffer b owner m : is_u64 (plane_dma (pointee b)) -> is_u64 (plane_size (pointee b)) -> mt6878_camsv_vb2_map b owner = inr m -> buffer_u m.
Proof.
  intros U1 U2. unfold mt6878_camsv_vb2_map. destruct (_ || _); [discriminate|]. destruct (_ || _); [discriminate|].
  destruct (_ || _) eqn:G; [discriminate|]. intros [= <-]. unfold is_u64 in U2. split_and!; cbn; [exact U1|unfold is_u32; lia|unfold is_u32; lia].
Qed.
Lemma map_error b owner e : mt6878_camsv_vb2_map b owner = inl e -> e <> 0.
Proof. unfold mt6878_camsv_vb2_map. cbv zeta. destruct (_ || _); [intros [= <-]; lia|]. destruct (_ || _); [intros [= <-]; lia|]. destruct (_ || _); [intros [= <-]; lia|discriminate]. Qed.
Lemma vb2_submit_cases domain_of io p a b d v j : call_ok (Submit a b d v j) ->
  performs (mt6878_camsv_vb2_submit domain_of (Some io) (Some p) a b d v (Some j)) (fun r s =>
    (r.1 <> 0 /\ r.2 = Some p /\ s = []) \/
    exists p' j', cq j' = cq j /\ r.2 = Some p' /\ pair_raw p = None /\ pair_pdaf p = None /\ completed p = 0 /\ completed p' = 0 /\
      submit_result io (tx p) j' r.1 (tx p') s /\
      (pair_raw p' = None /\ pair_pdaf p' = None /\ r.1 <> 0 /\ hw_attempted (tx p') = 0 \/
       pair_raw p' = Some a /\ pair_pdaf p' = Some b /\ (r.1 = 0 \/ hw_attempted (tx p') <> 0))).
Proof.
  intros (Uj & Ua & Ub & Sa & Sb). unfold mt6878_camsv_vb2_submit. cbv zeta.
  destruct (pair_raw p) as [x|] eqn:E1; [trace_step; [trace_step; left; split; [cbn [fst]; lia|auto]|]; exfalso; rewrite !orb_true_r in G; discriminate|].
  destruct (pair_pdaf p) as [x|] eqn:E2; [trace_step; [trace_step; left; split; [cbn [fst]; lia|auto]|]; exfalso; rewrite !orb_true_r in G; discriminate|].
  trace_step; [trace_step; left; split; [cbn [fst]; lia|auto]|]. assert (Hc : completed p = 0) by lia. clear G. trace_step; [trace_step; left; split; [cbn [fst]; lia|auto]|]. clear G.
  destruct (mt6878_camsv_vb2_map a d) as [e|ma] eqn:Ma; [trace_step; left; split; [now apply map_error in Ma|auto]|].
  destruct (mt6878_camsv_vb2_map b d) as [e|mb] eqn:Mb; [trace_step; left; split; [now apply map_error in Mb|auto]|].
  trace_step; [trace_step; left; split; [cbn [fst]; lia|auto]|]. clear G.
  apply map_buffer in Ma, Mb; try assumption.
  assert (Um : job_u (with_buffers j ma mb)) by (destruct Uj as (U1 & U2 & U3 & U4 & U5 & U6 & U7 & U8); split_and!; assumption || apply Ma || apply Mb).
  eapply performs_bind; [apply (submit_cases io (tx p) (with_buffers j ma mb) Um)|]. intros q s (t' & E & R). rewrite E. cbn [default from_option id].
  trace_step; trace_step; rewrite app_nil_r; right; eexists _, (with_buffers j ma mb); (split; [reflexivity|]); (split; [reflexivity|]); cbn [tx pair_raw pair_pdaf completed fst]; split_and!; auto.
  - left. split_and!; auto; lia.
  - right. split_and!; auto; lia.
Qed.
Lemma custody_submit domain_of io p s c a b d v j : c = Submit a b d v j -> call_ok c -> custody p s ->
  performs (vb2_step domain_of io c p) (fun r s' => exists p', r.2 = Some p' /\ custody p' (s ++ s')).
Proof.
  intros -> Hok Hc. eapply performs_impl; [apply vb2_submit_cases, Hok|]. intros r s' [(_ & E & ->)|(p' & j' & _ & E & N1 & N2 & C0 & C1 & R & Hh)].
  { exists p. now rewrite app_nil_r. }
  exists p'. split; [exact E|]. destruct p' as [x y t1 k], r as [r1 o1]. cbn [tx pair_raw pair_pdaf completed fst] in *.
  destruct Hc as [_ _ _ Q W V|? ? X|? ? X|? ? X]; try (rewrite N1 in X; discriminate).
  assert (Hv : returned s = []) by (apply only_returned; eapply Forall_impl; [exact V|]; intros [[] ?]; cbn; congruence).
  assert (Hl : forall t t', latched t t' -> quiesced t' = quiesced t /\ hw_attempted t' = hw_attempted t) by (intros t t' [->|(e & _ & ->)]; auto).
  destruct R as [r0 t' Hr L|r0 t' s1 Hr F B J A L Fe|r0 t' s1 s2 Hr F B J A H L Fe|s1 s2 F B J A H].
  - apply Hl in L as [L1 L2]. destruct Hh as [(H1 & H2 & _)|(H1 & H2 & [?|?])]; [|lia|lia]. rewrite app_nil_r. apply never_taken; cbn; auto; congruence.
  - apply Hl in L as [L1 L2]. cbn in L1, L2. destruct Hh as [(H1 & H2 & _)|(H1 & H2 & [?|?])]; [|lia|lia].
    apply never_taken; cbn; auto; [congruence..|]. apply only_app; [exact V|]. eapply admission_verifies, A.
  - apply Hl in L as [L1 L2]. cbn in L1, L2. destruct Hh as [(_ & _ & _ & H1)|(H1 & H2 & _)]; [lia|].
    apply (retained _ _ a b); cbn; auto; [congruence|]. rewrite !returned_app, Hv, (all_ran_returned _ _ _ A), (stopped_in_returned _ _ _ H). reflexivity.
  - destruct Hh as [(_ & _ & H1 & _)|(H1 & H2 & _)]; [lia|].
    apply (retained _ _ a b); cbn; auto. rewrite !returned_app, Hv, (all_ran_returned _ _ _ A), (all_ran_returned _ _ _ H). reflexivity.
Qed.

Lemma done_one t status seq r t' : mt6878_camsv_done (Some t) status seq = (r, Some t') ->
  quiesced t' = quiesced t /\ job t' = job t /\ (r = 1 -> complete_tags t' = job_tags (job t')).
Proof.
  unfold mt6878_camsv_done. cbv zeta. destruct (_ || _); [intros [= <- <-]; split_and!; auto; discriminate|].
  destruct (negb _); [intros [= <- <-]; split_and!; auto; discriminate|]. destruct (_ =? 0); [intros [= <- <-]; split_and!; auto; discriminate|].
  destruct (_ =? _); [intros [= <- <-]; split_and!; auto; discriminate|]. intros [= <- <-]. split_and!; auto. cbn.
  destruct (Z.eqb_spec (Z.lor (complete_tags t) (done_tags status 0 (group_tags (job t)))) (job_tags (job t))); [auto|discriminate].
Qed.
Lemma done_some t status seq : exists r t', mt6878_camsv_done (Some t) status seq = (r, Some t').
Proof. unfold mt6878_camsv_done. repeat case_match; eauto. Qed.
Lemma custody_done domain_of io p s st seq ts : custody p s ->
  performs (vb2_step domain_of io (Done st seq ts) p) (fun r s' => exists p', r.2 = Some p' /\ custody p' (s ++ s')).
Proof.
  intros Hc. assert (Hk : exists p', Some p = Some p' /\ custody p' (s ++ [])) by (exists p; now rewrite app_nil_r).
  cbn [vb2_step]. unfold mt6878_camsv_vb2_done. cbv zeta. destruct (pair_raw p) as [a|] eqn:E1; [|trace_step; exact Hk].
  destruct (pair_pdaf p) as [b|] eqn:E2; [|trace_step; exact Hk]. trace_step; [trace_step; exact Hk|]. assert (C0 : completed p = 0) by lia.
  trace_step; [trace_step; exact Hk|]. clear G G0. destruct (done_some (tx p) st seq) as (r & t' & Ed). rewrite Ed. cbn [default from_option id].
  apply done_one in Ed as (Q & J & T).
  destruct Hc as [X _ _ _ _ _|? ? _ _ _ Qz Hr|? ? _ _ X _ _|? ? _ _ X _ _ _]; [congruence| |lia|lia]. trace_step.
  - trace_step. eexists. split; [reflexivity|]. rewrite app_nil_r. apply (retained _ _ a b); cbn; auto. congruence.
  - unfold tell. repeat trace_step. eexists. split; [reflexivity|]. apply (captured _ _ a b); cbn [pair_raw pair_pdaf completed tx]; auto.
    + apply T. lia.
    + rewrite returned_app, Hr. reflexivity.
Qed.
Lemma custody_stop domain_of io p s : custody p s ->
  performs (vb2_step domain_of io Stop p) (fun r s' => exists p', r.2 = Some p' /\ custody p' (s ++ s')).
Proof.
  intros Hc. assert (Hk : exists p', Some p = Some p' /\ custody p' (s ++ [])) by (exists p; now rewrite app_nil_r).
  cbn [vb2_step]. unfold mt6878_camsv_vb2_stop. cbv zeta. destruct (pair_raw p) as [a|] eqn:E1; [|trace_step; exact Hk].
  destruct (pair_pdaf p) as [b|] eqn:E2; [|trace_step; exact Hk]. clear Hk.
  eapply performs_bind; [apply (stop_cases io (tx p))|]. intros q s' (t' & E & R). rewrite E. cbn [default from_option id].
  assert (Hs : returned s' = [] /\ job t' = job (tx p) /\ complete_tags t' = complete_tags (tx p) /\
    (quiesced t' = quiesced (tx p) \/ quiesced t' = 1 /\ all_ran (job (tx p)) (silence_ops ++ reset_ops) s')).
  { assert (Hl : forall t t', latched (set_off t) t' -> quiesced t' = quiesced t /\ job t' = job t /\ complete_tags t' = complete_tags t)
      by (intros t t1 [->|(e & _ & ->)]; auto).
    destruct R as [r Hr|r t1 s1 Hr Ha Ho A L Fe|r t1 s1 s2 Hr Ha Ho A H L Fe|s1 s2 Ha Ho A H].
    - auto.
    - apply Hl in L as (L1 & L2 & L3). rewrite (stopped_in_returned _ _ _ A). auto.
    - apply Hl in L as (L1 & L2 & L3). rewrite returned_app, (all_ran_returned _ _ _ A), (stopped_in_returned _ _ _ H). auto.
    - rewrite returned_app, (all_ran_returned _ _ _ A), (all_ran_returned _ _ _ H). split_and!; auto. right. split; [reflexivity|]. now apply all_ran_app. }
  clear R. destruct Hs as (Hs & Hj & Ht & Hq). trace_step; [|trace_step].
  - trace_step. eexists. split; [reflexivity|]. rewrite app_nil_r.
    destruct Hc as [X _ _ _ _ _|? ? _ _ C Qz Hr|? ? _ _ C T Hr|? ? _ _ C Qz Z Hr]; [congruence| | |].
    + apply (retained _ _ a b); cbn; auto; [lia|]. now rewrite returned_app, Hr, Hs.
    + apply (captured _ _ a b); cbn; auto; [congruence|]. now rewrite returned_app, Hr, Hs.
    + exfalso. destruct Hq as [Hq|[Hq _]]; lia.
  - unfold tell. repeat trace_step. eexists. split; [reflexivity|].
    destruct Hc as [X _ _ _ _ _|? ? _ _ C Qz Hr|? ? _ _ C T Hr|? ? _ _ C Qz Z Hr]; [congruence| |lia|lia].
    destruct Hq as [Hq|[Hq Ha]]; [lia|]. apply (discarded _ _ a b); cbn [pair_raw pair_pdaf completed tx]; auto.
    + exists s, s'. rewrite Hj. eexists. split; [reflexivity|]. auto.
    + rewrite !returned_app, Hr, Hs. reflexivity.
  - trace_step. eexists. split; [reflexivity|]. rewrite app_nil_r.
    destruct Hc as [X _ _ _ _ _|? ? _ _ C Qz Hr|? ? _ _ C T Hr|? ? _ _ C Qz Z Hr]; [congruence|lia| |].
    + apply (captured _ _ a b); cbn; auto; [congruence|]. now rewrite returned_app, Hr, Hs.
    + apply (discarded _ _ a b); cbn; auto.
      * destruct Hq as [Hq|[Hq _]]; congruence.
      * destruct Z as (x & y & z & -> & Z1 & Z2). exists x, y, (z ++ s'). rewrite Hj, <- !app_assoc. auto.
      * now rewrite returned_app, Hr, Hs.
Qed.
Lemma custody_step domain_of io p s c : call_ok c -> custody p s ->
  performs (vb2_step domain_of io c p) (fun r s' => exists p', r.2 = Some p' /\ custody p' (s ++ s')).
Proof. intros Hok Hc. destruct c; [eapply custody_submit; eauto|now apply custody_done|now apply custody_stop]. Qed.
Lemma custody_run domain_of io calls : forall p s, Forall call_ok calls -> custody p s ->
  performs (vb2_run domain_of io calls p) (fun p' s' => custody p' (s ++ s')).
Proof.
  induction calls as [|c calls IH]; intros p s Hok Hc; cbn [vb2_run]; [trace_step; now rewrite app_nil_r|].
  apply Forall_cons in Hok as [Hok1 Hok]. eapply performs_bind; [apply custody_step; eassumption|]. intros r s1 (p' & -> & Hc'). cbn [default from_option id].
  eapply performs_impl; [apply (IH p' (s ++ s1)); assumption|]. cbn. intros p2 s2. now rewrite app_assoc.
Qed.

(** ** The claims *)

Definition example_job : mt6878_camsv_job :=
  Job 1 4000 3000 7 2 3 [0xc; 0; 0; 0] zero_buffer zero_buffer (Buffer 0x4000000 0x1000 1)
    (Layout SV_DMA_FMT_BAYER10 4000 3000 5000 15000000 0) (Layout SV_DMA_FMT_BAYER8 496 1500 496 744000 0).
Definition example_backend : mt6878_camsv_backend := Backend true [0x1000; 0x1000; 0x1000; 0x18000].
Definition mapped_job : mt6878_camsv_job := with_buffers example_job (Buffer 0x1000000 15000000 1) (Buffer 0x2000000 744000 1).
Definition raw_buffer : ptr vb2_v4l2_buffer := Ptr 1 (Vb2 11 5 V4L2_BUF_TYPE_VIDEO_CAPTURE 1 true true 0 15000000 21 0x1000000).
Definition pdaf_buffer : ptr vb2_v4l2_buffer := Ptr 2 (Vb2 12 5 V4L2_BUF_TYPE_META_CAPTURE 1 true true 0 744000 22 0x2000000).
(** A device that answers every request and is idle at once. *)
Definition willing : environment request (Z * Z) := fun _ _ => (0, 2).
Lemma example_job_u : job_u example_job.
Proof. unfold job_u, buffer_u, layout_u32, is_u32, is_u64. cbn. lia. Qed.
Lemma mapped_job_u : job_u mapped_job.
Proof. unfold job_u, buffer_u, layout_u32, is_u32, is_u64. cbn. lia. Qed.

(** Submission. A job is valid exactly when its two outputs have lines of
    whole bus words that hold their pixels, images that fit their buffers,
    buffers inside the 34-bit aperture that do not overlap each other or the
    command queue, and groups that partition the two tags. In every
    environment a submission ends in one of four ways: refused without a
    request; stopped in the five admissions, with no register touched; stopped
    at the first failing hardware step, with the hardware marked attempted and
    the error latched; or the admissions, both virtual channels and the
    command queue all ran in order and the job is submitted. *)
Theorem camsv_submission io t j : job_u j ->
  (mt6878_camsv_validate (Some io) (Some j) = 0 <-> backend_ok io /\ job_ok j) /\
  performs (mt6878_camsv_submit (Some io) (Some t) (Some j)) (fun p s => exists t', p.2 = Some t' /\ submit_result io t j p.1 t' s).
Proof. intros Hu. split; [now apply validate_cases|now apply submit_cases]. Qed.
(** A submission that succeeds, and its transaction. *)
Lemma camsv_submission_witness :
  (mt6878_camsv_submit (Some example_backend) (Some zero_tx) (Some mapped_job) willing []).1 =
    (0, Some (Tx mapped_job 1 1 0 0 0 1 0)) /\
  job_ok mapped_job /\
  performs (mt6878_camsv_submit (Some example_backend) (Some zero_tx) (Some mapped_job))
    (fun p s => exists t', p.2 = Some t' /\ submit_result example_backend zero_tx mapped_job p.1 t' s).
Proof.
  split; [vm_compute; reflexivity|]. pose proof (camsv_submission example_backend zero_tx mapped_job mapped_job_u) as [H1 H2].
  split; [apply H1; vm_compute; reflexivity|exact H2].
Defined.

(** C34. Stopping. In every environment a stop ends, in one of four ways: it
    is refused without a request (never submitted, or stopped before); it fails
    to prove the pipeline silent or to clamp the memory port; a reset step
    fails, the error is latched and the transaction is not quiesced; or the
    proof of silence, the clamp, both resets, each polled at most 100000 times
    until idle, and the release of the clamp all ran in order, and only then
    is the transaction quiesced. A stop is attempted once. *)
Theorem camsv_stopping io t :
  performs (mt6878_camsv_stop (Some io) (Some t)) (fun p s => exists t', p.2 = Some t' /\ stop_result io t p.1 t' s).
Proof. exact (stop_cases io t). Qed.

(** C33. Custody of the buffers over any history of submissions, completions
    and stops, in any environment: a pair the driver does not
    hold had no register touched for it, and one it holds is held for good; it
    returns each buffer at most once, both together; as captured only when every tag
    of the job has completed, and as discarded only after a trace that holds
    the whole stop sequence. *)
Theorem camsv_buffers_once domain_of io calls : Forall call_ok calls ->
  performs (vb2_run domain_of io calls empty_pair) custody.
Proof.
  intros Hok. apply (custody_run domain_of io calls empty_pair [] Hok). apply never_taken; try reflexivity. apply List.Forall_nil.
Qed.
(** A capture whose group 0 covers both outputs, then a stop; and a stop alone. *)
Lemma camsv_buffers_once_witness :
  let history := [Submit raw_buffer pdaf_buffer 5 6 example_job; Done 0x10000 7 99; Stop] in
  returned (vb2_run (fun _ => 6) example_backend history empty_pair willing []).2 = [(Raw, VB2_BUF_STATE_DONE); (Pdaf, VB2_BUF_STATE_DONE)] /\
  returned (vb2_run (fun _ => 6) example_backend [Submit raw_buffer pdaf_buffer 5 6 example_job; Stop; Done 0x10000 7 99] empty_pair willing []).2
    = [(Raw, VB2_BUF_STATE_ERROR); (Pdaf, VB2_BUF_STATE_ERROR)] /\
  performs (vb2_run (fun _ => 6) example_backend history empty_pair) custody.
Proof.
  intros history. split; [vm_compute; reflexivity|]. split; [vm_compute; reflexivity|]. apply (camsv_buffers_once (fun _ => 6) example_backend history).
  apply List.Forall_cons; [|repeat (apply List.Forall_cons; [exact Logic.I|]); apply List.Forall_nil].
  split; [exact example_job_u|]. unfold is_u64. cbn. lia.
Defined.
