(* ===== verification/Recipe.v ===== *)
(** * The capture recipe: [camera-ccd-cq/mt6878-camera-camsv-recipe.h]

    The command queue of the first frame: the inputs that are supported, the 59
    register writes in the order of the composer, and their queue ([CcdCq]). The
    job and its buffers are those of [Camsv]; the configuration is the part of
    the composer's interface that is looked at. *)

From S2P Require Import Prelude Trace Fields CcdCq Camsv.
Open Scope Z_scope.

Abbreviation MTKCAM_SUBDEV_CAMSV_START := 3 (only parsing).
Abbreviation MTKCAM_SUBDEV_CAMSV_END := 19 (only parsing).
Abbreviation MTKCAM_SUBDEV_MRAW_START := 19 (only parsing).
Abbreviation MTKCAM_SUBDEV_MRAW_END := 23 (only parsing).
Abbreviation MT6878_CAMSV_RECIPE_WRITES := 59 (only parsing).

(** ** The configuration *)

Record mtkcam_ipi_crop : Type := Crop { crop_x : Z; crop_y : Z; crop_w : Z; crop_h : Z }.
Record mtkcam_ipi_input_param : Type := Input {
  fmt : Z; raw_pixel_id : Z; data_pattern : Z; pixel_mode : Z; subsample : Z; in_crop : mtkcam_ipi_crop
}.
Record mtkcam_ipi_sv_input_param : Type := SvInput {
  pipe_id : Z; tag_id : Z; tag_order : Z; is_first_frame : Z; is_two_smi_out : Z; is_last_order_meta_off : Z; input : mtkcam_ipi_input_param
}.
(** Two slots of eight inputs, four MRAW pipes and six maps. *)
Record mtkcam_ipi_config_param : Type := Config {
  flags : Z; config_input : mtkcam_ipi_input_param; sv_input : list (list mtkcam_ipi_sv_input_param); mraw_pipes : list Z;
  n_maps : Z; map_pipes : list Z; sw_feature : Z; exp_order : Z; frame_order : Z; vsync_order : Z; cac_table_size : Z
}.
Record mt6878_camsv_recipe_resources : Type := Resources { central : Z; dma_base : Z; central_size : Z; dma_size : Z; res_sv_id : Z }.

(** ** Supported inputs *)

Definition bit (n : Z) : Z := u32 (Z.shiftl 1 n).
Definition recipe_mask (j : mt6878_camsv_job) : Z := Z.lor (bit (raw_tag j)) (bit (pdaf_tag j)).
Definition tag_layout (j : mt6878_camsv_job) (tag : Z) : mt6878_camsv_dma_layout := if tag =? raw_tag j then raw_layout j else pdaf_layout j.
Definition tag_buffer (j : mt6878_camsv_job) (tag : Z) : mt6878_camsv_buffer := if tag =? raw_tag j then raw j else pdaf j.
(** An input of the one active pipe that does not ask for its layout. *)
Definition input_refused (j : mt6878_camsv_job) (tag : Z) (i : mtkcam_ipi_sv_input_param) : bool :=
  let l := tag_layout j tag in
  let p := input i in
  negb (pipe_id i =? u32 (sv_id j + MTKCAM_SUBDEV_CAMSV_START)) || negb (tag_id i =? tag) || negb (tag_order i =? 3) || negb (is_first_frame i =? 1)
  || negb (is_two_smi_out i =? 0) || negb (is_last_order_meta_off i =? 0) || negb (subsample p =? 0) || negb (data_pattern p =? 0)
  || negb (raw_pixel_id p =? 0) || negb (fmt p =? format l) || negb (pixel_mode p =? pixel_mode_shift l)
  || negb (crop_x (in_crop p) =? 0) || negb (crop_y (in_crop p) =? 0) || negb (crop_w (in_crop p) =? width l) || negb (crop_h (in_crop p) =? height l).
Definition some_input : mtkcam_ipi_sv_input_param := SvInput 0 0 0 0 0 0 (Input 0 0 0 0 0 (Crop 0 0 0 0)).
Definition slot_input (c : mtkcam_ipi_config_param) (slot tag : Z) : mtkcam_ipi_sv_input_param :=
  nth (Z.to_nat tag) (nth (Z.to_nat slot) (sv_input c) []) some_input.
(** The body of the two loops over slots and tags. *)
Definition slot_refused (j : mt6878_camsv_job) (c : mtkcam_ipi_config_param) (slot tag : Z) : bool :=
  let i := slot_input c slot tag in
  if (slot =? 0) && negb (Z.land (recipe_mask j) (bit tag) =? 0) then input_refused j tag i
  else (MTKCAM_SUBDEV_CAMSV_START <=? pipe_id i) && (pipe_id i <? MTKCAM_SUBDEV_CAMSV_END).
Definition tags_loop (j : mt6878_camsv_job) (c : mtkcam_ipi_config_param) (slot : Z) : bool := existsb (slot_refused j c slot) [0; 1; 2; 3; 4; 5; 6; 7].
Definition size_refused (j : mt6878_camsv_job) : bool :=
  negb (((jwidth j =? 4000) && (jheight j =? 3000)) || ((jwidth j =? 4096) && (jheight j =? 2304)))
  || negb (width (raw_layout j) =? jwidth j) || negb (height (raw_layout j) =? jheight j)
  || (negb (format (raw_layout j) =? SV_DMA_FMT_BAYER10) && negb (format (raw_layout j) =? SV_DMA_FMT_BAYER10_MIPI)).
Definition mt6878_camsv_recipe_inputs (job : option mt6878_camsv_job) (config : option mtkcam_ipi_config_param) (resources : option mt6878_camsv_recipe_resources) : Z :=
  match job, config, resources with
  | Some j, Some c, Some r =>
    if (1 <? sv_id j) || (3 <? raw_tag j) || (3 <? pdaf_tag j) || (raw_tag j =? pdaf_tag j) then - EINVAL
    else if negb (res_sv_id r =? sv_id j) || negb (central_size r =? 0x1000) || negb (dma_size r =? 0x1000) || (central r <? MT6878_CQ_REG_BASE)
            || negb (Z.land (central r) 0xfff =? 0) || (MT6878_CQ_REG_BASE + MT6878_CQ_REG_SIZE - 0x11000 <? central r)
            || negb (dma_base r =? u32 (central r + 0x10000))
    then - ERANGE
    else if negb (flags c =? 0) || negb (subsample (config_input c) =? 0) || negb (sw_feature c =? 0) || negb (exp_order c =? 0) || negb (frame_order c =? 0)
            || negb (vsync_order c =? 0) || negb (cac_table_size c =? 0) || negb (pixel_mode_shift (raw_layout j) =? 0)
            || negb (pixel_mode_shift (pdaf_layout j) =? 0)
    then - EOPNOTSUPP
    else if 6 <? n_maps c then - EINVAL
    else if existsb (fun p => negb (p =? u32 (sv_id j + MTKCAM_SUBDEV_CAMSV_START))) (take (Z.to_nat (n_maps c)) (map_pipes c)) then - EOPNOTSUPP
    else if size_refused j || negb (mt6878_camsv_layout_validate (Some (raw_layout j)) (bsize (raw j)) =? 0)
            || negb (mt6878_camsv_layout_validate (Some (pdaf_layout j)) (bsize (pdaf j)) =? 0)
            || negb (mt6878_camsv_range (raw j) (sizeimage (raw_layout j)) =? 0) || negb (mt6878_camsv_range (pdaf j) (sizeimage (pdaf_layout j)) =? 0)
            || mt6878_camsv_overlap (raw j) (pdaf j)
    then - ERANGE
    else if negb (nth 0 (group_tags j) 0 =? recipe_mask j) || negb (nth 1 (group_tags j) 0 =? 0) || negb (nth 2 (group_tags j) 0 =? 0)
            || negb (nth 3 (group_tags j) 0 =? 0)
    then - EOPNOTSUPP
    else if existsb (tags_loop j c) [0; 1] then - EOPNOTSUPP
    else if existsb (fun p => (MTKCAM_SUBDEV_MRAW_START <=? p) && (p <? MTKCAM_SUBDEV_MRAW_END)) (mraw_pipes c) then - EOPNOTSUPP
    else 0
  | _, _, _ => - EINVAL
  end.

(** ** The writes *)

(** One entry of the array. *)
Definition mt6878_camsv_recipe_add (base offset value : Z) : write := (u32 (base + offset), value).
Definition recipe_format (l : mt6878_camsv_dma_layout) : Z := if format l =? SV_DMA_FMT_BAYER10_MIPI then 8 else format l.
(** The body of the loop for an active tag. *)
Definition tag_writes (j : mt6878_camsv_job) (central dma : Z) (tag : Z) : list write :=
  let add := mt6878_camsv_recipe_add in
  let l := tag_layout j tag in
  let b := tag_buffer j tag in
  let shift := tag * 0x40 in
  let stride := Z.lor (u32 (Z.shiftl (bytesperline l) 16)) 0x10 in
  [add central (0x548 + shift) (u32 (Z.shiftl (width l) 16)); add central (0x54c + shift) (u32 (Z.shiftl (height l) 16));
   add central (0x554 + shift) (recipe_format l); add central (0x55c + shift) 1; add central (0x540 + shift) 0x8000;
   add dma (0x210 + shift) stride; add dma (0xa10 + shift) 0x10; add central (0x554 + shift) (recipe_format l);
   add dma (0x210 + shift) stride; add dma (0x200 + shift) (u32 (Camsv.dma b)); add dma (0x204 + shift) (u32 (Z.shiftr (Camsv.dma b) 32));
   add dma (0x218 + shift) 0; add dma (0x21c + shift) 0; add dma (0x220 + shift) 0; add dma (0x224 + shift) 0;
   add central (0x540 + shift) 0x8080].
Definition active_tags (j : mt6878_camsv_job) : list Z := filter (fun tag => Z.land (recipe_mask j) (bit tag) <> 0) [0; 1; 2; 3; 4; 5; 6; 7].
Definition enable_writes (j : mt6878_camsv_job) (central dma : Z) : list write :=
  let add := mt6878_camsv_recipe_add in
  let mask := recipe_mask j in
  let img := fold_left (fun v tag => if tag <? 4 then Z.lor v (bit tag) else v) (active_tags j) 0 in
  let errors := fold_left (fun v tag => Z.lor v (u32 (Z.shiftl 0x700 (tag * 3)))) (active_tags j) 1 in
  let sof := fold_left (fun v tag => Z.lor v (u32 (Z.shiftl 4 (tag * 4)))) (active_tags j) 0 in
  let first := Z.land mask (u32 (u32 (Z.lnot mask) + 1)) in
  [add central 0x140 1; add central 0x18c 3; add central 0x170 0x20; add central 0x144 0; add central 0x40 mask; add central 0x44 img;
   add dma 0xf30 (Z.lor img (u32 (Z.shiftl img 8))); add central 0x344 0xf0000; add central 0x34c errors; add central 0x35c sof;
   add central 0x36c 0x11111111; add central 0x1d4 0; add central 0x1d8 0; add central 0x1b8 mask; add central 0x1bc 0; add central 0x1c0 0;
   add central 0x1c4 0; add central 0x1c8 first; add central 0x1cc first].
Definition sequence_writes (j : mt6878_camsv_job) (central : Z) : list write :=
  (fun tag => mt6878_camsv_recipe_add central (0x57c + tag * 0x40) (sequence j)) <$> [0; 1; 2; 3; 4; 5; 6; 7].
Definition recipe_writes (j : mt6878_camsv_job) (r : mt6878_camsv_recipe_resources) : list write :=
  flat_map (tag_writes j (central r) (dma_base r)) (active_tags j) ++ enable_writes j (central r) (dma_base r) ++ sequence_writes j (central r).

(** ** The queue *)

(** The loop over the entries; entry [i] of the local array is at [at_ + 8 i]. *)
Fixpoint values_loop (cq : mt6878_ccd_cq) (at_ : Z) (ws : list write) : option (Z * mt6878_ccd_cq) :=
  match ws with
  | [] => Some (0, cq)
  | (a, v) :: ws =>
    match mt6878_ccd_cq_values (Some cq) a (Ptr (at_ + 4) [v]) 1 with
    | Some (ret, Some cq) => if negb (ret =? 0) then Some (ret, cq) else values_loop cq (at_ + 8) ws
    | _ => None
    end
  end.
(** [at_] is the address of the local array. The status, the queue and the two
    lengths; [None] when a loop did not end. *)
Definition mt6878_camsv_recipe (ocq : option mt6878_ccd_cq) (job : option mt6878_camsv_job) (config : option mtkcam_ipi_config_param)
    (resources : option mt6878_camsv_recipe_resources) (session at_ : Z) (descriptor_bytes values_start : option Z)
    : option (Z * option mt6878_ccd_cq * option Z * option Z) :=
  match ocq, descriptor_bytes, values_start with
  | Some cq, Some d, Some v =>
    let keep ret cq := Some (ret, Some cq, descriptor_bytes, values_start) in
    let fail e := let r := mt6878_cq_fail cq e in keep r.1 r.2 in
    if null (buffer cq) then keep (- EINVAL) cq
    else if negb (CcdCq.first_error cq =? 0) then keep (CcdCq.first_error cq) cq
    else if negb (head cq =? 0) || negb (tail cq =? capacity cq) || negb (finished cq =? 0) then keep (- EALREADY) cq
    else
    let ret := mt6878_camsv_recipe_inputs job config resources in
    match ret, job, resources with
    | 0, Some j, Some r =>
      if (3 <? session) || negb (Z.shiftr (sequence j) 24 =? session) then fail (- ESTALE)
      else
      let work := Buffer (iova cq) (capacity cq) 1 in
      if mt6878_camsv_overlap work (raw j) || mt6878_camsv_overlap work (pdaf j) then fail (- ERANGE)
      else
      let writes := recipe_writes j r in
      if negb (len writes =? MT6878_CAMSV_RECIPE_WRITES) || (capacity cq <? len writes * 16 + 12) then fail (- ENOSPC)
      else if existsb (fun w => (w.1 <? reg_base cq) || (reg_size cq <=? u32 (w.1 - reg_base cq))) writes then fail (- ERANGE)
      else
      match values_loop cq at_ writes with
      | None => None
      | Some (ret, cq) => if negb (ret =? 0) then keep ret cq else Some (mt6878_ccd_cq_finish (Some cq) descriptor_bytes values_start)
      end
    | e, _, _ => fail e
    end
  | ocq, d, v => Some (- EINVAL, ocq, d, v)
  end.

(** ** Reference *)

Definition resources_u (r : mt6878_camsv_recipe_resources) : Prop := is_u32 (central r) /\ is_u32 (dma_base r).
(** The array is not in the queue's buffer. *)
Definition array_apart (cq : mt6878_ccd_cq) (at_ : Z) : Prop := at_ + 8 * 59 <= addr (buffer cq) \/ addr (buffer cq) + capacity cq <= at_.
(** The job is supported and the queue has room and owns every register. *)
Definition recipe_ready (cq : mt6878_ccd_cq) (j : mt6878_camsv_job) (c : mtkcam_ipi_config_param) (r : mt6878_camsv_recipe_resources) (session : Z) : Prop :=
  mt6878_camsv_recipe_inputs (Some j) (Some c) (Some r) = 0 /\ session <= 3 /\ Z.shiftr (sequence j) 24 = session /\
  buffers_apart (Buffer (iova cq) (capacity cq) 1) (raw j) /\ buffers_apart (Buffer (iova cq) (capacity cq) 1) (pdaf j) /\
  59 * 16 + 12 <= capacity cq /\ Forall (fun w => reg_base cq <= w.1 < reg_base cq + reg_size cq) (recipe_writes j r).

(** What accepted inputs tell. *)
Record inputs_ok (j : mt6878_camsv_job) (r : mt6878_camsv_recipe_resources) : Prop := InputsOk {
  io_tags : raw_tag j <= 3 /\ pdaf_tag j <= 3 /\ raw_tag j <> pdaf_tag j;
  io_central : MT6878_CQ_REG_BASE <= central r /\ central r <= MT6878_CQ_REG_BASE + MT6878_CQ_REG_SIZE - 0x11000 /\ central r mod 4 = 0;
  io_dma : dma_base r = central r + 0x10000;
  io_raw : buffer_ok (raw j) (sizeimage (raw_layout j));
  io_pdaf : buffer_ok (pdaf j) (sizeimage (pdaf_layout j));
  io_raw_layout : layout_ok (raw_layout j) (bsize (raw j));
  io_pdaf_layout : layout_ok (pdaf_layout j) (bsize (pdaf j))
}.
Lemma page_aligned x : 0 <= x -> Z.land x 0xfff = 0 -> x mod 4 = 0.
Proof.
  intros H0 H. change 0xfff with (Z.ones 12) in H. rewrite Z.land_ones in H by lia. change (2 ^ 12) with 4096 in H. pose proof (Z.div_mod x 4096). dlia.
Qed.
Ltac branch_on G := lazymatch goal with |- (if ?b then _ else _) <= 0 /\ _ => destruct b eqn:G end.
Lemma recipe_inputs_cases j c r : job_u j -> resources_u r ->
  mt6878_camsv_recipe_inputs (Some j) (Some c) (Some r) <= 0 /\ (mt6878_camsv_recipe_inputs (Some j) (Some c) (Some r) = 0 -> inputs_ok j r).
Proof.
  intros (_ & U2 & U3 & U4 & U5 & _ & U7 & U8) [R1 R2]. unfold is_u32 in *. unfold mt6878_camsv_recipe_inputs.
  branch_on G1; [split; [lia|discriminate]|]. branch_on G2; [split; [lia|discriminate]|]. do 3 (branch_on G3; [split; [lia|discriminate]|]; clear G3).
  branch_on G4; [split; [lia|discriminate]|]. do 3 (branch_on G5; [split; [lia|discriminate]|]; clear G5). split; [lia|]. intros _.
  pose proof (range_exact (raw j) (sizeimage (raw_layout j)) U4 ltac:(apply U7)) as X1. pose proof (range_exact (pdaf j) (sizeimage (pdaf_layout j)) U5 ltac:(apply U8)) as X2.
  assert (Hc : Z.land (central r) 4095 = 0) by lia. rewrite u32_id in G2 by (unfold is_u32; lia). 
  pose proof (layout_cases (raw_layout j) (bsize (raw j)) U7) as X3. pose proof (layout_cases (pdaf_layout j) (bsize (pdaf j)) U8) as X4.
  split; [lia| |lia|apply X1; lia|apply X2; lia|apply X3; lia|apply X4; lia].
  split; [lia|]. split; [lia|]. apply page_aligned; [lia|exact Hc].
Qed.

(** *** The writes *)

Lemma active_two j : 0 <= raw_tag j <= 3 -> 0 <= pdaf_tag j <= 3 -> raw_tag j <> pdaf_tag j ->
  active_tags j = if raw_tag j <? pdaf_tag j then [raw_tag j; pdaf_tag j] else [pdaf_tag j; raw_tag j].
Proof.
  intros H1 H2 H3. unfold active_tags, recipe_mask. assert (raw_tag j = 0 \/ raw_tag j = 1 \/ raw_tag j = 2 \/ raw_tag j = 3) as H4 by lia.
  assert (pdaf_tag j = 0 \/ pdaf_tag j = 1 \/ pdaf_tag j = 2 \/ pdaf_tag j = 3) as H5 by lia. clear H1 H2.
  destruct H4 as [E|[E|[E|E]]], H5 as [F|[F|[F|F]]]; rewrite E, F in *; try contradiction; reflexivity.
Qed.
Section Writes.
Context (j : mt6878_camsv_job) (r : mt6878_camsv_recipe_resources) (Hu : job_u j) (Hseq : is_u32 (sequence j)) (Hok : inputs_ok j r).
Lemma tag_bounds : 0 <= raw_tag j <= 3 /\ 0 <= pdaf_tag j <= 3 /\ raw_tag j <> pdaf_tag j.
Proof. destruct Hu as (_ & U2 & U3 & _), (io_tags _ _ Hok) as (H1 & H2 & H3). unfold is_u32 in *. lia. Qed.
Lemma active_bounds : Forall (fun tag => 0 <= tag <= 3 /\ (tag = raw_tag j \/ tag = pdaf_tag j)) (active_tags j).
Proof. destruct tag_bounds as (H1 & H2 & H3). rewrite active_two by assumption. destruct (_ <? _); repeat constructor; cbn; lia. Qed.
Lemma recipe_59 : len (recipe_writes j r) = 59.
Proof. destruct tag_bounds as (H1 & H2 & H3). unfold recipe_writes. rewrite active_two by assumption. destruct (_ <? _); reflexivity. Qed.
(** A property of every write from the three groups. *)
Lemma recipe_forall (P : write -> Prop) :
  (forall tag, 0 <= tag <= 3 -> tag = raw_tag j \/ tag = pdaf_tag j -> Forall P (tag_writes j (central r) (dma_base r) tag)) ->
  Forall P (enable_writes j (central r) (dma_base r)) -> Forall P (sequence_writes j (central r)) -> Forall P (recipe_writes j r).
Proof.
  intros H1 H2 H3. unfold recipe_writes. apply Forall_app. split; [|now apply Forall_app]. pose proof active_bounds as Hb.
  induction Hb as [|tag tags [Ht Hj] _ IH]; [constructor|]. cbn [flat_map]. apply Forall_app. split; [now apply H1|exact IH].
Qed.
Lemma central_bounds : 0x1a000000 <= central r <= 0x1a1ef000 /\ central r mod 4 = 0 /\ dma_base r = central r + 0x10000.
Proof. destruct (io_central _ _ Hok) as (H1 & H2 & H3). split; [lia|]. split; [exact H3|apply (io_dma _ _ Hok)]. Qed.
Lemma layout_values tag : is_u32 (recipe_format (tag_layout j tag)) /\ is_u32 (bytesperline (tag_layout j tag)).
Proof.
  assert (Hl : forall l n, layout_ok l n -> layout_u32 l -> is_u32 (recipe_format l) /\ is_u32 (bytesperline l)).
  { intros l n (b & Hb & _) (_ & _ & L & _). split; [|exact L]. unfold bits_of in Hb. unfold recipe_format, is_u32. destruct (Z.eqb_spec (format l) 80); [lia|].
    destruct (Z.eqb_spec (format l) 0); [lia|]. destruct (Z.eqb_spec (format l) 1); [lia|]. replace (format l =? 80) with false in Hb by lia. discriminate. }
  destruct Hu as (_ & _ & _ & _ & _ & _ & L1 & L2). unfold tag_layout. destruct (_ =? raw_tag j); [apply (Hl _ _ (io_raw_layout _ _ Hok) L1)|apply (Hl _ _ (io_pdaf_layout _ _ Hok) L2)].
Qed.
(** A register of the two blocks and a 32-bit value. *)
Definition write_ok (w : write) : Prop := central r <= w.1 < central r + 0x11000 /\ w.1 mod 4 = 0 /\ is_u32 w.2.
Lemma add_ok base offset v : base = central r \/ base = dma_base r -> 0 <= offset < 0x1000 -> offset mod 4 = 0 -> is_u32 v -> write_ok (mt6878_camsv_recipe_add base offset v).
Proof.
  destruct central_bounds as (H1 & H2 & H3). intros Hb Ho Ha Hv. unfold write_ok, mt6878_camsv_recipe_add. cbn [fst snd]. rewrite u32_id by (unfold is_u32; lia).
  split; [lia|]. split; [dlia|exact Hv].
Qed.
Lemma lor_u32 a b : is_u32 a -> is_u32 b -> is_u32 (Z.lor a b).
Proof.
  unfold is_u32. intros Ha Hb. split; [apply Z.lor_nonneg; lia|]. change UINT32_MAX with (2 ^ 32 - 1) in *. enough (Z.lor a b < 2 ^ 32) by lia.
  destruct (Z.eq_dec (Z.lor a b) 0) as [E|E]; [rewrite E; lia|]. apply Z.log2_lt_pow2; [pose proof (Z.lor_nonneg a b); lia|]. rewrite Z.log2_lor by lia.
  assert (Hl : forall x, 0 <= x <= 2 ^ 32 - 1 -> Z.log2 x < 32) by (intros x Hx; destruct (Z.eq_dec x 0) as [->|]; [cbn; lia|apply Z.log2_lt_pow2; lia]).
  apply Z.max_lub_lt; apply Hl; lia.
Qed.
Ltac add_each := repeat (apply Forall_cons; split; [apply add_ok; [auto|lia|dlia|]|]); try apply List.Forall_nil.
Lemma tag_writes_ok tag : 0 <= tag <= 3 -> Forall write_ok (tag_writes j (central r) (dma_base r) tag).
Proof.
  intros Ht. destruct (layout_values tag) as [H1 H2]. unfold tag_writes. cbv zeta.
  assert (Hs : is_u32 (Z.lor (u32 (Z.shiftl (bytesperline (tag_layout j tag)) 16)) 16)) by (apply lor_u32; [apply u32_range|unfold is_u32; lia]).
  add_each; try apply u32_range; try assumption; unfold is_u32; lia.
Qed.
Lemma fold_lor_u32 (f : Z -> Z) tags : (forall t, is_u32 (f t)) -> forall v, is_u32 v -> is_u32 (fold_left (fun v tag => Z.lor v (f tag)) tags v).
Proof. intros Hf. induction tags as [|t tags IH]; intros v Hv; cbn [fold_left]; [exact Hv|]. apply IH. now apply lor_u32. Qed.
Lemma mask_u32 : is_u32 (recipe_mask j).
Proof. apply lor_u32; apply u32_range. Qed.
Lemma land_u32 a b : is_u32 a -> is_u32 (Z.land a b).
Proof.
  unfold is_u32. intros Ha. replace (Z.land a b) with (Z.land (Z.land a b) (Z.ones 32)); [rewrite Z.land_ones by lia; pose proof (Z.mod_pos_bound (Z.land a b) (2 ^ 32)); lia|].
  rewrite <- Z.land_assoc, (Z.land_comm b), Z.land_assoc, Z.land_ones, Z.mod_small by lia. reflexivity.
Qed.
Lemma enable_writes_ok : Forall write_ok (enable_writes j (central r) (dma_base r)).
Proof.
  unfold enable_writes. cbv zeta. set (img := fold_left _ _ 0). set (errors := fold_left _ _ 1). set (sof := fold_left _ _ 0). set (first := Z.land _ _).
  assert (Hi : is_u32 img).
  { unfold img. assert (H : forall tags v, is_u32 v -> is_u32 (fold_left (fun v tag => if tag <? 4 then Z.lor v (bit tag) else v) tags v)); [|apply H; unfold is_u32; lia].
    induction tags as [|t tags IH]; intros v Hv; cbn [fold_left]; [exact Hv|]. apply IH. destruct (t <? 4); [apply lor_u32; [exact Hv|apply u32_range]|exact Hv]. }
  assert (He : is_u32 errors) by (apply (fold_lor_u32 (fun tag => u32 (Z.shiftl 0x700 (tag * 3)))); [intros; apply u32_range|unfold is_u32; lia]).
  assert (Hs : is_u32 sof) by (apply (fold_lor_u32 (fun tag => u32 (Z.shiftl 4 (tag * 4)))); [intros; apply u32_range|unfold is_u32; lia]).
  assert (Hm := mask_u32). assert (Hf : is_u32 first) by (apply land_u32, Hm).
  assert (Hii : is_u32 (Z.lor img (u32 (Z.shiftl img 8)))) by (apply lor_u32; [exact Hi|apply u32_range]).
  clearbody img errors sof first. add_each; try assumption; unfold is_u32; lia.
Qed.
Lemma sequence_writes_ok : Forall write_ok (sequence_writes j (central r)).
Proof. unfold sequence_writes. cbn [fmap list_fmap]. add_each; assumption. Qed.
Lemma recipe_writes_ok : Forall write_ok (recipe_writes j r).
Proof. apply recipe_forall; [intros; now apply tag_writes_ok|apply enable_writes_ok|apply sequence_writes_ok]. Qed.
(** The address registers of the two outputs are given their buffers, and no
    other address register is written. *)
Definition destination (w : write) : Prop := forall t, 0 <= t < 8 ->
  (w.1 = dma_base r + 0x200 + t * 0x40 -> (t = raw_tag j \/ t = pdaf_tag j) /\ w.2 = u32 (Camsv.dma (tag_buffer j t))) /\
  (w.1 = dma_base r + 0x204 + t * 0x40 -> (t = raw_tag j \/ t = pdaf_tag j) /\ w.2 = u32 (Z.shiftr (Camsv.dma (tag_buffer j t)) 32)).
Lemma add_elsewhere base offset v : (base = central r /\ 0 <= offset < 0x1000) \/ (base = dma_base r /\ 0 <= offset < 0x1000 /\ offset mod 0x40 <> 0 /\ offset mod 0x40 <> 4) \/
  (base = dma_base r /\ 0x400 <= offset < 0x1000) -> destination (mt6878_camsv_recipe_add base offset v).
Proof.
  destruct central_bounds as (H1 & H2 & H3). intros Hb t Ht. unfold mt6878_camsv_recipe_add. cbn [fst snd]. rewrite u32_id by (unfold is_u32; lia).
  split; intros E; exfalso; destruct Hb as [[-> Hb]|[[-> Hb]|[-> Hb]]]; lia || dlia.
Qed.
Lemma tag_writes_destination tag : 0 <= tag <= 3 -> tag = raw_tag j \/ tag = pdaf_tag j -> Forall destination (tag_writes j (central r) (dma_base r) tag).
Proof.
  destruct central_bounds as (C1 & C2 & C3). intros Ht Hj. unfold tag_writes. cbv zeta.
  assert (Hbase : forall o v, o = 0x200 /\ v = u32 (Camsv.dma (tag_buffer j tag)) \/ o = 0x204 /\ v = u32 (Z.shiftr (Camsv.dma (tag_buffer j tag)) 32) ->
    destination (mt6878_camsv_recipe_add (dma_base r) (o + tag * 0x40) v)).
  { intros o v Ho t Hr. unfold mt6878_camsv_recipe_add. cbn [fst snd]. rewrite u32_id by (unfold is_u32; lia).
    split; intros E; (assert (t = tag) as -> by lia); (split; [exact Hj|]); destruct Ho as [[-> ->]|[-> ->]]; reflexivity || lia. }
  repeat (apply Forall_cons; split; [first [apply Hbase; auto; fail|apply add_elsewhere; first [left; split; [reflexivity|lia]|right; left; split; [reflexivity|dlia]|right; right; split; [reflexivity|lia]]]|]).
  apply List.Forall_nil.
Qed.
Lemma recipe_destinations : Forall destination (recipe_writes j r).
Proof.
  apply recipe_forall; [intros; now apply tag_writes_destination|unfold enable_writes; cbv zeta|unfold sequence_writes; cbn [fmap list_fmap]];
    (repeat (apply Forall_cons; split; [apply add_elsewhere; first [left; split; [reflexivity|lia]|right; right; split; [reflexivity|lia]]|])); apply List.Forall_nil.
Qed.
End Writes.

(** *** The queue *)

(** One value is appended when its register is owned, there is room and the
    value is not in the buffer. *)
Lemma value_appended cq ws a v at_ : cq_ok cq ws -> is_u32 a -> is_u32 v -> at_ <> 0 ->
  reg_base cq <= a < reg_base cq + reg_size cq -> a mod 4 = 0 -> reg_base cq mod 4 = 0 -> reg_size cq mod 4 = 0 ->
  head cq + 28 <= tail cq -> head cq + 24 <= 65535 -> at_ + 4 <= addr (buffer cq) \/ addr (buffer cq) + capacity cq <= at_ ->
  exists cq', mt6878_ccd_cq_values (Some cq) a (Ptr at_ [v]) 1 = Some (0, Some cq') /\ cq_ok cq' (ws ++ [(a, v)]) /\
    head cq' = head cq + 12 /\ tail cq' = tail cq - 4 /\ addr (buffer cq') = addr (buffer cq) /\ capacity cq' = capacity cq /\
    iova cq' = iova cq /\ reg_base cq' = reg_base cq /\ reg_size cq' = reg_size cq.
Proof.
  intros Hok Ua Uv Hat Hr Ha Hb Hs Hroom Hmax Hap.
  destruct (values_ok cq ws a (Ptr at_ [v]) 1 Hok) as (ret & cq' & E & _ & Hz).
  { cbn. unfold is_u32 in *. repeat split; try lia; [unfold len; cbn; lia|]. repeat constructor; cbn; lia. }
  destruct Hok as ((N & F & R) & (L & C & I1 & I2) & (B1 & B2 & B3) & (k & K1 & K2 & K3 & K4 & K5 & _) & _).
  pose proof E as E'. unfold mt6878_ccd_cq_values in E'. cbv zeta in E'. rewrite N, R, F in E'. cbn [Z.eqb negb] in E'. unfold is_u32 in *.
  rewrite (u32_id (a - reg_base cq)), (u32_id (reg_size cq - (a - reg_base cq))) in E' by (unfold is_u32; lia).
  assert (Hal : Z.land a 3 = 0) by (change 3 with (Z.ones 2); rewrite Z.land_ones by lia; exact Ha). rewrite Hal in E'.
  assert (Hrest : 1 <= (reg_size cq - (a - reg_base cq)) / 4) by (clear - Hr Ha Hb Hs; dlia).
  replace (null (Ptr at_ [v])) with false in E' by (unfold null; cbn [addr]; lia).
  replace (false || false || negb (0 =? 0) || (a <? reg_base cq) || (reg_size cq <=? a - reg_base cq) || ((reg_size cq - (a - reg_base cq)) / 4 <? 1)) with false in E' by lia.
  change (u32 (1 * 4)) with 4 in E'. change (u32 (1 + 511 - 1) / 511) with 1 in E'. change (u32 (1 * 12 + 12)) with 24 in E'. change (1 * 12) with 12 in E'.
  rewrite (u32_id (tail cq - head cq)), (u32_id (tail cq - head cq - 4)), (u32_id (head cq + 12 + 12)) in E' by (unfold is_u32; lia).
  replace ((tail cq <? head cq) || (tail cq - head cq <? 4) || (tail cq - head cq - 4 <? 24) || (65535 <? head cq + 12 + 12)) with false in E' by lia.
  cbn [addr] in E'.
  replace (((addr (buffer cq) <=? at_) && (at_ - addr (buffer cq) <? capacity cq)) || ((at_ <? addr (buffer cq)) && (addr (buffer cq) - at_ <? 4))) with false in E' by lia.
  rewrite (u32_id (tail cq - 4)) in E' by (unfold is_u32; lia). change (Z.to_nat 1) with 1%nat in E'. cbn [desc_loop] in E'. change (1 =? 0) with false in E'.
  cbn [desc_loop] in E'. change (if 511 <? 1 then 511 else 1) with 1 in E'. change (u32 (1 - 1) =? 0) with true in E'. cbv iota in E'.
  rewrite (u32_id (head cq + 12)) in E' by (unfold is_u32; lia). injection E' as <- <-.
  eexists.
  split; [exact E|]. split; [apply Hz; reflexivity|]. repeat split.
Qed.
Definition same_window (cq cq' : mt6878_ccd_cq) : Prop :=
  addr (buffer cq') = addr (buffer cq) /\ capacity cq' = capacity cq /\ iova cq' = iova cq /\ reg_base cq' = reg_base cq /\ reg_size cq' = reg_size cq.
Lemma values_loop_ok ws : forall cq ws0 at_, cq_ok cq ws0 -> 0 < at_ -> reg_base cq mod 4 = 0 -> reg_size cq mod 4 = 0 ->
  Forall (fun w => is_u32 w.1 /\ is_u32 w.2 /\ w.1 mod 4 = 0 /\ reg_base cq <= w.1 < reg_base cq + reg_size cq) ws ->
  head cq + 16 * len ws + 12 <= tail cq -> head cq + 12 * len ws + 12 <= 65535 ->
  at_ + 8 * len ws <= addr (buffer cq) \/ addr (buffer cq) + capacity cq <= at_ ->
  exists cq', values_loop cq at_ ws = Some (0, cq') /\ cq_ok cq' (ws0 ++ ws) /\ head cq' = head cq + 12 * len ws /\ tail cq' = tail cq - 4 * len ws /\ same_window cq cq'.
Proof.
  induction ws as [|[a v] ws IH]; intros cq ws0 at_ Hok Hat Hb Hs Hws Hroom Hmax Hap; cbn [values_loop].
  - exists cq. rewrite app_nil_r. change (len (@nil write)) with 0. split; [reflexivity|]. split; [exact Hok|]. split; [lia|]. split; [lia|]. repeat split.
  - inversion Hws as [|? ? (W1 & W2 & W3 & W4) Hws']. subst. cbn [fst snd] in *. rewrite len_cons in *. pose proof (len_nonneg ws).
    destruct (value_appended cq ws0 a v (at_ + 4) Hok W1 W2) as (cq1 & -> & Hok1 & H1 & H2 & H3 & H4 & H5 & H6 & H7); try lia.
    cbn [Z.eqb negb]. destruct (IH cq1 (ws0 ++ [(a, v)]) (at_ + 8) Hok1) as (cq2 & -> & Hok2 & E1 & E2 & E3 & E4 & E5 & E6 & E7); try (rewrite ?H1, ?H2, ?H3, ?H4, ?H6, ?H7; lia).
    + rewrite H6, H7. exact Hws'.
    + exists cq2. rewrite <- app_assoc in Hok2. split; [reflexivity|]. split; [exact Hok2|]. split; [lia|]. split; [lia|]. unfold same_window. split_and!; congruence.
Qed.
(** An initialised queue. *)
Lemma init_queue cq0 buf cap io rb rs cq : mt6878_ccd_cq_init (Some cq0) buf cap io rb rs = (0, Some cq) -> len (pointee buf) = cap -> is_u32 cap -> is_u64 io -> is_u32 rb -> is_u32 rs ->
  cq = Cq buf io cap 0 cap rb rs 0 0 /\ cq_ok cq [] /\ rb mod 4 = 0 /\ rs mod 4 = 0.
Proof.
  intros E Hl U1 U2 U3 U4. split; [|split; [now apply (init_ok cq0 buf cap io rb rs)|]]; cbn in E; destruct (_ || _) eqn:G; try discriminate; injection E as <-; [reflexivity|].
  assert (H1 : Z.land rb 3 = 0) by lia. assert (H2 : Z.land rs 3 = 0) by lia. change 3 with (Z.ones 2) in H1, H2. rewrite Z.land_ones in H1, H2 by lia. split; assumption.
Qed.
Lemma window_check cq ws : is_u32 (reg_base cq) -> 0 <= reg_size cq -> Forall (fun w : write => is_u32 w.1) ws ->
  existsb (fun w => (w.1 <? reg_base cq) || (reg_size cq <=? u32 (w.1 - reg_base cq))) ws = false <-> Forall (fun w => reg_base cq <= w.1 < reg_base cq + reg_size cq) ws.
Proof.
  intros Hb Hs. unfold is_u32 in *. induction 1 as [|w ws Hw Hws IH]; cbn [existsb]; [split; [constructor|reflexivity]|]. rewrite orb_false_iff, IH, Forall_cons.
  assert (Hone : (w.1 <? reg_base cq) || (reg_size cq <=? u32 (w.1 - reg_base cq)) = false <-> reg_base cq <= w.1 < reg_base cq + reg_size cq).
  { destruct (Z.ltb_spec w.1 (reg_base cq)); [cbn; split; [discriminate|lia]|]. rewrite u32_id by (unfold is_u32; lia). cbn [orb]. lia. }
  tauto.
Qed.

(** A queue of one page for the example job; its configuration. *)
Module Frame.
Definition job : mt6878_camsv_job :=
  Job 1 4000 3000 0x01000007 2 3 [0xc; 0; 0; 0] (Buffer 0x1000000 15000000 1) (Buffer 0x2000000 744000 1) zero_buffer
    (Layout SV_DMA_FMT_BAYER10 4000 3000 5000 15000000 0) (Layout SV_DMA_FMT_BAYER8 496 1500 496 744000 0).
Definition one (tag : Z) : mtkcam_ipi_sv_input_param :=
  let l := tag_layout job tag in SvInput 4 tag 3 1 0 0 (Input (format l) 0 0 0 0 (Crop 0 0 (width l) (height l))).
Definition config : mtkcam_ipi_config_param :=
  Config 0 (Input 0 0 0 0 0 (Crop 0 0 0 0)) [[some_input; some_input; one 2; one 3; some_input; some_input; some_input; some_input]; repeat some_input 8]
    [0; 0; 0; 0] 1 [4; 0; 0; 0; 0; 0] 0 0 0 0 0.
Definition resources : mt6878_camsv_recipe_resources := Resources 0x1a100000 0x1a110000 0x1000 0x1000 1.
Definition queue : mt6878_ccd_cq := Cq (Ptr 0x1000 (zeros 1024)) 0x4000000 1024 0 1024 0x1a100000 0x100000 0 0.
End Frame.

(** C30. The capture recipe. For a queue that was just initialised the composer
    ends, and it succeeds exactly when the inputs are supported, the sequence
    belongs to the session, the two image buffers are apart from the queue, the
    queue has room and every register is owned. A refusal leaves the buffer and
    the caller's lengths alone. After a success the finished queue, read by the
    hardware's rules, performs the 59 writes of the recipe in order, and the
    only image addresses among them are those of the two buffers of the job. *)
Theorem recipe_executes cq0 buf cap io rb rs cq j c r session at_ d v :
  mt6878_ccd_cq_init (Some cq0) buf cap io rb rs = (0, Some cq) -> len (pointee buf) = cap -> is_u32 cap -> is_u64 io -> is_u32 rb -> is_u32 rs ->
  job_u j -> is_u32 (sequence j) -> resources_u r -> 0 < at_ -> array_apart cq at_ ->
  exists ret cq' db vs, mt6878_camsv_recipe (Some cq) (Some j) (Some c) (Some r) session at_ (Some d) (Some v) = Some (ret, Some cq', db, vs) /\
  (ret = 0 <-> recipe_ready cq j c r session) /\
  (ret <> 0 -> ret < 0 /\ db = Some d /\ vs = Some v /\ buffer cq' = buf) /\
  (ret = 0 -> db = Some 720 /\ vs = Some (cap - 236) /\ execute (pointee (buffer cq')) io 720 (cap - 236) = Some (recipe_writes j r) /\
     Forall (destination j r) (recipe_writes j r)).
Proof.
  intros E Hl U1 U2 U3 U4 Uj Us Ur Hat Hap. destruct (init_queue _ _ _ _ _ _ _ E Hl U1 U2 U3 U4) as (-> & Hok & A1 & A2). clear E.
  set (cq := Cq buf io cap 0 cap rb rs 0 0) in *. assert (Hn : null buf = false) by apply Hok.
  destruct Hok as (P1 & (P2 & P3 & P4 & P5) & (P6 & P7 & P8) & P9). assert (Hok : cq_ok cq []) by (split; [exact P1|split; [auto|split; [auto|exact P9]]]).
  unfold mt6878_camsv_recipe. cbv zeta. change (null (buffer cq)) with (null buf). rewrite Hn. change (CcdCq.first_error cq) with 0. change (head cq) with 0. change (finished cq) with 0.
  change (tail cq) with cap. change (capacity cq) with cap in *. rewrite (Z.eqb_refl cap). cbn [Z.eqb negb orb].
  assert (Hfail : forall e, e < 0 -> ~ recipe_ready cq j c r session -> exists ret cq' db vs,
    Some ((mt6878_cq_fail cq e).1, Some (mt6878_cq_fail cq e).2, Some d, Some v) = Some (ret, Some cq', db, vs) /\
    (ret = 0 <-> recipe_ready cq j c r session) /\ (ret <> 0 -> ret < 0 /\ db = Some d /\ vs = Some v /\ buffer cq' = buf) /\
    (ret = 0 -> db = Some 720 /\ vs = Some (cap - 236) /\ execute (pointee (buffer cq')) io 720 (cap - 236) = Some (recipe_writes j r) /\ Forall (destination j r) (recipe_writes j r))).
  { intros e He Hno. cbn. eexists _, _, _, _. split; [reflexivity|]. split; [split; [lia|tauto]|]. split; [auto|lia]. }
  destruct (recipe_inputs_cases j c r Uj Ur) as [I1 I2]. unfold recipe_ready in *. change (capacity cq) with cap in *. change (iova cq) with io in *. change (reg_base cq) with rb in *. change (reg_size cq) with rs in *.
  destruct (mt6878_camsv_recipe_inputs (Some j) (Some c) (Some r)) as [|e|e] eqn:Ei; [|lia|apply (Hfail (Z.neg e)); [lia|intros [X _]; discriminate]].
  specialize (I2 eq_refl). destruct I2 as [I2 I3 I4 I5 I6 I7 I8]. assert (Hin : inputs_ok j r) by (split; assumption).
  destruct ((3 <? session) || _) eqn:G1; [apply (Hfail (- ESTALE)); [lia|intros (_ & X1 & X2 & _); lia]|].
  assert (Ub : buffer_u (Buffer io cap 1)) by (split; [exact U2|split; [exact U1|unfold is_u32; cbn; lia]]). assert (P5' : io + cap <= 2 ^ 34) by exact P5.
  pose proof (buffers_overlap_apart (Buffer io cap 1) (raw j) Ub ltac:(apply Uj) P5' ltac:(apply I5)) as O1.
  pose proof (buffers_overlap_apart (Buffer io cap 1) (pdaf j) Ub ltac:(apply Uj) P5' ltac:(apply I6)) as O2.
  destruct (mt6878_camsv_overlap (Buffer io cap 1) (raw j)); cbn [orb]; [apply (Hfail (- ERANGE)); [lia|intros (_ & _ & _ & X & _); apply O1 in X; discriminate]|].
  destruct (mt6878_camsv_overlap (Buffer io cap 1) (pdaf j)); [apply (Hfail (- ERANGE)); [lia|intros (_ & _ & _ & _ & X & _); apply O2 in X; discriminate]|].
  assert (L59 := recipe_59 j r Uj Hin). rewrite L59. cbn [Z.eqb negb orb].
  destruct (Z.ltb_spec cap (59 * 16 + 12)); [apply (Hfail (- ENOSPC)); [lia|intros (_ & _ & _ & _ & _ & X & _); lia]|].
  pose proof (recipe_writes_ok j r Uj Us Hin) as Hw. destruct (central_bounds j r Hin) as (C1 & C2 & C3).
  assert (Hu : Forall (fun w : write => is_u32 w.1) (recipe_writes j r)) by (eapply Forall_impl; [exact Hw|]; intros w (X & _); unfold is_u32; lia).
  pose proof (window_check cq (recipe_writes j r) U3 P7 Hu) as Hwin. change (reg_base cq) with rb in Hwin. change (reg_size cq) with rs in Hwin.
  destruct (existsb _ _); [apply (Hfail (- ERANGE)); [lia|intros (_ & _ & _ & _ & _ & _ & X); apply Hwin in X; discriminate]|].
  destruct (values_loop_ok (recipe_writes j r) cq [] at_ Hok Hat A1 A2) as (cq1 & -> & Hok1 & V1 & V2 & V3 & V4 & V5 & V6 & V7).
  - pose proof (proj1 Hwin eq_refl) as Hwin'. rewrite Forall_forall in Hw, Hwin' |- *. intros w Hin'. destruct (Hw w Hin') as (X1 & X2 & X3). specialize (Hwin' w Hin'). cbn in Hwin'. unfold is_u32 in *.
    split; [lia|]. auto.
  - rewrite L59. change (head cq) with 0. change (tail cq) with cap. lia.
  - rewrite L59. change (head cq) with 0. lia.
  - rewrite L59. exact Hap.
  - cbn [Z.eqb negb]. rewrite L59 in V1, V2. change (head cq) with 0 in V1. change (tail cq) with cap in V2. change (0 + 12 * 59) with 708 in V1. change (4 * 59) with 236 in V2.
    destruct (cq_finish_ok cq1 (recipe_writes j r) d v Hok1) as [[X _]|(_ & cq2 & -> & R1 & R2 & R3 & R4 & R5 & R6 & R7 & R8)]; [lia|].
    exists 0, cq2, (Some (head cq1 + 12)), (Some (tail cq1)). split; [reflexivity|]. split; [split; [intros _|reflexivity]|].
    + split; [reflexivity|]. split; [lia|]. split; [lia|]. split; [now apply O1|]. split; [now apply O2|]. split; [lia|now apply Hwin].
    + split; [contradiction|]. intros _. rewrite V1, V2 in *. rewrite V5 in R8. split; [reflexivity|]. split; [reflexivity|]. split; [exact R8|]. now apply recipe_destinations.
Qed.
Lemma recipe_executes_witness : exists cq', mt6878_camsv_recipe (Some Frame.queue) (Some Frame.job) (Some Frame.config) (Some Frame.resources) 1 0x9000 (Some 0) (Some 0) =
    Some (0, Some cq', Some 720, Some 788) /\ execute (pointee (buffer cq')) 0x4000000 720 788 = Some (recipe_writes Frame.job Frame.resources).
Proof.
  assert (Uj : job_u Frame.job) by (unfold job_u, buffer_u, layout_u32, is_u32, is_u64; cbn; lia).
  destruct (recipe_executes (Cq (Ptr 0 []) 0 0 0 0 0 0 0 0) (Ptr 0x1000 (zeros 1024)) 1024 0x4000000 0x1a100000 0x100000 Frame.queue Frame.job Frame.config Frame.resources 1 0x9000 0 0)
    as (ret & cq' & db & vs & E & _ & _ & H).
  - reflexivity.
  - reflexivity.
  - unfold is_u32; lia.
  - unfold is_u64; lia.
  - unfold is_u32; lia.
  - unfold is_u32; lia.
  - exact Uj.
  - unfold is_u32; cbn; lia.
  - split; unfold is_u32; cbn; lia.
  - lia.
  - right. cbn. lia.
  - assert (Hr : ret = 0) by (vm_compute in E; congruence). subst ret. destruct (H eq_refl) as (-> & -> & Hx & _). exists cq'. split; [exact E|exact Hx].
Defined.
