(* ===== verification/CcdOwner.v ===== *)
(** * The composer transport: [camera-composer/mt6878-camera-ccd-owner.c]

    The owner of one endpoint of the camera's command daemon. It queues the
    creation and the configuration of a session, and exchanges the frame, the
    flush and the destruction for replies through the one-shot gate of
    [CcdSession]. Calls run under the owner's mutex; the endpoint's callback takes
    only the reply lock, so messages also arrive while a call sends or waits.
    The transport and the arriving messages are requests to an arbitrary
    environment ([Trace]). *)

From S2P Require Import Prelude Trace Fields CcdSession Camsv Recipe.
Open Scope Z_scope.
Open Scope io_scope.

Abbreviation CAM_CMD_CREATE_SESSION := 0 (only parsing).
Abbreviation CAM_CMD_CONFIG := 1 (only parsing).
Abbreviation CCD_IPI_ISP_MAIN := 1 (only parsing).
Abbreviation sizeof_frame_param := 92291 (only parsing).

(** ** Messages and endpoints *)

Record mtkcam_ipi_buffer : Type := IpiBuffer { ipi_iova : Z; ccd_fd : Z; ipi_size : Z }.
Record mtkcam_ipi_session_param : Type := SessionParam { workbuf : mtkcam_ipi_buffer; msg_buf : mtkcam_ipi_buffer }.
Inductive event_data : Type :=
| SessionData (p : mtkcam_ipi_session_param)
| ConfigData (c : mtkcam_ipi_config_param)
| FrameData (offset size : Z)
| NoData.
Record mtkcam_ipi_event : Type := Event { session_id : Z; frame_no : Z; cmd_id : Z; data : event_data }.
(** A call of the endpoint's callback. *)
Record arrival : Type := Arrival { from : Z; message : option (list Z); length : Z; src : Z }.
Inductive callback : Type := Ccd_rx | Pipeline_rx | Other_rx.
#[export] Instance callback_eq : EqDecision callback.
Proof. solve_decision. Defined.
(** An endpoint is named by [ept]; [rpdev] is zero when it has no device. *)
Record rpmsg_endpoint : Type := Endpoint { ept : Z; cb : callback; priv : Z; ept_addr : Z; rpdev : Z; rpdev_name : list Z }.
Inductive ccd_request : Type :=
| Trysend (ept : Z) (e : mtkcam_ipi_event)
| Callbacks.
(** The status of a transmission, or the calls that arrived. *)
Record ccd_answer : Type := Answer { status : Z; arrivals : list arrival }.
Abbreviation ccd := (io ccd_request ccd_answer).

Record mt6878_camera_ccd_owner : Type := Owner {
  completion : Z; endpoint : option Z; client : Z; o_session : Z; created : Z; configured : Z; frame_sent : Z; msg_size : Z; cq_size : Z;
  o_error : Z; gate : mt6878_camera_ccd_session
}.
Definition set_gate (o : mt6878_camera_ccd_owner) (c : Z) (g : mt6878_camera_ccd_session) : mt6878_camera_ccd_owner :=
  Owner c (endpoint o) (client o) (o_session o) (created o) (configured o) (frame_sent o) (msg_size o) (cq_size o) (o_error o) g.
Definition set_endpoint (o : mt6878_camera_ccd_owner) (e : option Z) (c : Z) : mt6878_camera_ccd_owner :=
  Owner (completion o) e c (o_session o) (created o) (configured o) (frame_sent o) (msg_size o) (cq_size o) (o_error o) (gate o).
Definition set_progress (o : mt6878_camera_ccd_owner) (cr co fr m q : Z) : mt6878_camera_ccd_owner :=
  Owner (completion o) (endpoint o) (client o) (o_session o) cr co fr m q (o_error o) (gate o).

Definition mt6878_camera_ccd_init (session : Z) : mt6878_camera_ccd_owner :=
  Owner 0 None 0 session 0 0 0 0 0 (if 4 - CCD_IPI_ISP_MAIN <? session then - EINVAL else 0) (new_session session).
(** The decimal digits of a number below 10 to the [fuel]. *)
Fixpoint digits (fuel : nat) (n : Z) : list Z :=
  match fuel with
  | O => []
  | S fuel => if n <? 10 then [48 + n] else digits fuel (n / 10) ++ [48 + n mod 10]
  end.
(** mtk-camsys and the session. *)
Definition camsys_name (session : Z) : list Z := [109; 116; 107; 45; 99; 97; 109; 115; 121; 115] ++ digits 10 session.
(** [at_] is the owner's address. *)
Definition mt6878_camera_ccd_bind (at_ : Z) (o : mt6878_camera_ccd_owner) (e : option rpmsg_endpoint) : Z * mt6878_camera_ccd_owner :=
  match e with
  | None => (- EINVAL, o)
  | Some e =>
    if rpdev e =? 0 then (- EINVAL, o)
    else if negb (bool_decide (cb e = Ccd_rx)) || negb (priv e =? at_) || negb (ept_addr e =? u32 (o_session o + CCD_IPI_ISP_MAIN))
            || negb (bool_decide (rpdev_name e = camsys_name (o_session o)))
    then (- EINVAL, o)
    else if negb (client o =? 0) || negb (created o =? 0) || negb (closed (gate o) =? 0) || negb (o_error o =? 0)
    then (if negb (o_error o =? 0) then o_error o else - EALREADY, o)
    else (0, set_endpoint o (Some (ept e)) (rpdev e))
  end.
(** The callback. *)
Definition mt6878_camera_ccd_rx (o : mt6878_camera_ccd_owner) (a : arrival) : Z * mt6878_camera_ccd_owner :=
  if (client o =? 0) || negb (from a =? client o) || (match message a with None => negb (length a =? 0) | Some _ => false end)
     || (match message a with Some _ => negb (src a =? u32 (o_session o + CCD_IPI_ISP_MAIN)) | None => negb (src a =? UINT32_MAX) end)
  then (- ESTALE, o)
  else
  let was_pending := pending (gate o) in
  let '(ret, g) := mt6878_camera_ccd_receive (Some (gate o)) (message a) (if length a <? 0 then 0 else length a) in
  let g := default (gate o) g in
  (if ret =? 1 then 0 else ret, set_gate o (if negb (was_pending =? 0) && (pending g =? 0) then completion o + 1 else completion o) g).
(** The messages that arrive at a point of a call. *)
Definition receive_all (o : mt6878_camera_ccd_owner) (l : list arrival) : mt6878_camera_ccd_owner := fold_left (fun o a => (mt6878_camera_ccd_rx o a).2) l o.
Definition callbacks (o : mt6878_camera_ccd_owner) : ccd mt6878_camera_ccd_owner := let! a := ask Callbacks in ret (receive_all o (arrivals a)).

(** ** Calls *)

Definition ccd_send (o : mt6878_camera_ccd_owner) (e : mtkcam_ipi_event) : ccd (Z * mt6878_camera_ccd_owner) :=
  let! o := callbacks o in
  let closed := closed (gate o) in
  let! o := callbacks o in
  match endpoint o with
  | Some ep =>
    if negb (closed =? 0) || (client o =? 0) then ret (- ENOTCONN, o)
    else
    let! a := ask (Trysend ep (Event (u8 (o_session o)) (frame_no e) (cmd_id e) (data e))) in
    let! o := callbacks o in ret (status a, o)
  | None => ret (- ENOTCONN, o)
  end.
Definition ccd_error (o : mt6878_camera_ccd_owner) (error : Z) : mt6878_camera_ccd_owner :=
  if negb (error =? 0) && (o_error o =? 0)
  then Owner (completion o) (endpoint o) (client o) (o_session o) (created o) (configured o) (frame_sent o) (msg_size o) (cq_size o) error (gate o) else o.
Definition create_refused (p : mtkcam_ipi_session_param) : bool :=
  (ipi_size (workbuf p) =? 0) || (ipi_size (msg_buf p) <? sizeof_frame_param) || (0x7fffffff <? ccd_fd (workbuf p)) || (0x7fffffff <? ccd_fd (msg_buf p)).
Definition mt6878_camera_ccd_create (o : mt6878_camera_ccd_owner) (params : option mtkcam_ipi_session_param) : ccd (Z * mt6878_camera_ccd_owner) :=
  match params with
  | None => ret (- EINVAL, o)
  | Some p =>
    if create_refused p then ret (- EINVAL, o)
    else
    let r := if negb (o_error o =? 0) then o_error o else if negb (created o =? 0) || negb (frame_sent o =? 0) then - EALREADY else 0 in
    if negb (r =? 0) then ret (r, ccd_error o r)
    else
    let! q := ccd_send o (Event 0 0 CAM_CMD_CREATE_SESSION (SessionData (SessionParam (workbuf p) (IpiBuffer 0 (ccd_fd (msg_buf p)) (ipi_size (msg_buf p)))))) in
    let o := if q.1 =? 0 then set_progress q.2 1 (configured q.2) (frame_sent q.2) (ipi_size (msg_buf p)) (ipi_size (workbuf p)) else q.2 in
    ret (q.1, ccd_error o q.1)
  end.
Definition mt6878_camera_ccd_config (o : mt6878_camera_ccd_owner) (config : option mtkcam_ipi_config_param) : ccd (Z * mt6878_camera_ccd_owner) :=
  match config with
  | None => ret (- EINVAL, o)
  | Some c =>
    let r := if negb (o_error o =? 0) then o_error o else if (created o =? 0) || negb (configured o =? 0) then - EINVAL else 0 in
    if negb (r =? 0) then ret (r, ccd_error o r)
    else
    let! q := ccd_send o (Event 0 0 CAM_CMD_CONFIG (ConfigData c)) in
    let o := if q.1 =? 0 then set_progress q.2 (created q.2) 1 (frame_sent q.2) (msg_size q.2) (cq_size q.2) else q.2 in
    ret (q.1, ccd_error o q.1)
  end.
Definition ccd_exchange (o : mt6878_camera_ccd_owner) (e : mtkcam_ipi_event) (timeout_ms : Z) : ccd (Z * mt6878_camera_ccd_owner) :=
  if (timeout_ms =? 0) || (5000 <? timeout_ms) then ret (- EINVAL, o)
  else
  let! o := callbacks (set_gate o 0 (gate o)) in
  let '(r, g) := mt6878_camera_ccd_begin (Some (gate o)) (cmd_id e) (frame_no e) in
  let o := set_gate o (completion o) (default (gate o) g) in
  if negb (r =? 0) then ret (r, o)
  else
  let! q := ccd_send o e in
  let finish r o := let '(r, g) := mt6878_camera_ccd_finish (gate o) r in ret (r, set_gate o (completion o) g) in
  if negb (q.1 =? 0) then let! o := callbacks q.2 in finish q.1 o
  else
  let! o := callbacks q.2 in
  let done := 0 <? completion o in
  let o := if done then set_gate o (completion o - 1) (gate o) else o in
  let! o := callbacks o in
  finish (if done then 0 else - ETIMEDOUT) o.
(** The status, the owner and [reply]. *)
Definition mt6878_camera_ccd_frame (o : mt6878_camera_ccd_owner) (cookie offset size timeout_ms : Z) (buf : option (list Z)) :
    ccd (Z * mt6878_camera_ccd_owner * option (list Z)) :=
  match buf with
  | None => ret (- EINVAL, o, buf)
  | Some _ =>
    if negb (mt6878_camera_cookie_valid (o_session o) cookie) then ret (- EINVAL, o, buf)
    else
    let r := if negb (o_error o =? 0) then o_error o
             else if (configured o =? 0) || negb (frame_sent o =? 0) || (size <? sizeof_frame_param) || (msg_size o <? offset) || (u32 (msg_size o - offset) <? size)
             then - EINVAL else 0 in
    if negb (r =? 0) then ret (r, ccd_error o r, buf)
    else
    let! q := ccd_exchange (set_progress o (created o) (configured o) 1 (msg_size o) (cq_size o)) (Event 0 cookie CAM_CMD_FRAME (FrameData offset size)) timeout_ms in
    ret (q.1, ccd_error q.2 q.1, if q.1 =? 0 then Some (reply (gate q.2)) else buf)
  end.
Definition drain_exchanges (o : mt6878_camera_ccd_owner) (timeout_ms : Z) : ccd (Z * mt6878_camera_ccd_owner) :=
  let! q := ccd_exchange o (Event 0 0 CAM_CMD_FLUSH NoData) timeout_ms in
  let! q := (if negb (q.1 =? 0) then ret q else ccd_exchange q.2 (Event 0 0 CAM_CMD_DESTROY_SESSION NoData) timeout_ms) in
  ret (q.1, if q.1 =? 0 then set_progress q.2 0 0 (frame_sent q.2) (msg_size q.2) (cq_size q.2) else q.2).
Definition mt6878_camera_ccd_drain (o : mt6878_camera_ccd_owner) (timeout_ms : Z) : ccd (Z * mt6878_camera_ccd_owner) :=
  let! q := (if negb (created o =? 0) then drain_exchanges o timeout_ms else ret (0, o)) in
  let o := ccd_error q.2 q.1 in ret (o_error o, o).

(** ** What arriving messages change *)

(** The part of the owner that belongs to the calls. *)
Definition book (o : mt6878_camera_ccd_owner) := (endpoint o, client o, o_session o, (created o, configured o, frame_sent o), (msg_size o, cq_size o, o_error o)).
(** Messages only move the gate forward. *)
Record calmer (o o' : mt6878_camera_ccd_owner) : Prop := Calmer {
  cm_book : book o' = book o;
  cm_inv : ccd_inv (gate o');
  cm_session : session (gate o') = session (gate o);
  cm_closed : closed (gate o) = 1 -> closed (gate o') = 1;
  cm_left : sublist (remaining (gate o')) (remaining (gate o))
}.
Lemma calmer_refl o : ccd_inv (gate o) -> calmer o o.
Proof. intros H. split; auto. Qed.
Lemma calmer_trans o o1 o2 : calmer o o1 -> calmer o1 o2 -> calmer o o2.
Proof. intros [A1 A2 A3 A4 A5] [B1 B2 B3 B4 B5]. split; [congruence|exact B2|congruence|auto|etransitivity; eassumption]. Qed.
Lemma rx_calmer o a : ccd_inv (gate o) -> calmer o (mt6878_camera_ccd_rx o a).2.
Proof.
  intros Hi. unfold mt6878_camera_ccd_rx. destruct (_ || _ || _ || _); [now apply calmer_refl|].
  pose proof (ccd_step_ok (gate o) (Receive (message a) (if length a <? 0 then 0 else length a)) Hi) as H. cbn [ccd_step] in H.
  destruct (mt6878_camera_ccd_receive (Some (gate o)) (message a) _) as [r g]. cbn [snd fst default from_option id app] in *. destruct H as (H1 & H2 & H3 & H4).
  split; [reflexivity|exact H1|exact H2|intros X; now apply H3|exact H4].
Qed.
Lemma receive_all_calmer l : forall o, ccd_inv (gate o) -> calmer o (receive_all o l).
Proof.
  induction l as [|a l IH]; intros o Hi; [now apply calmer_refl|]. cbn [receive_all fold_left]. pose proof (rx_calmer o a Hi) as H.
  eapply calmer_trans; [exact H|]. apply IH, H.
Qed.

(** Events the transport was given, and messages that arrived. *)
Definition sends (s : trace ccd_request ccd_answer) : list mtkcam_ipi_event := flat_map (fun e => match e.1 with Trysend _ v => [v] | Callbacks => [] end) s.
Definition received (s : trace ccd_request ccd_answer) : list arrival := flat_map (fun e => match e.1 with Callbacks => arrivals e.2 | Trysend _ _ => [] end) s.
Lemma sends_app s1 s2 : sends (s1 ++ s2) = sends s1 ++ sends s2.
Proof. apply flat_map_app. Qed.
Lemma received_app s1 s2 : received (s1 ++ s2) = received s1 ++ received s2.
Proof. apply flat_map_app. Qed.

(** *** A command in progress *)

(** A message that acknowledges a command with success. *)
Definition acknowledgement (o : mt6878_camera_ccd_owner) (cmd ck : Z) (a : arrival) : Prop :=
  from a = client o /\ src a = u32 (o_session o + CCD_IPI_ISP_MAIN) /\ 75 <= length a /\ exists p, message a = Some p /\ reply (gate o) = firstn 75 p /\
  byte_at p 0 = session (gate o) /\ mt6878_camera_le32 p 1 = ck /\ byte_at p 5 = CAM_CMD_ACK /\ byte_at p 6 = cmd /\ s32 (mt6878_camera_le32 p 7) = 0.
(** The command waits, or it was answered among the arrived messages [l]. *)
Definition waiting (o : mt6878_camera_ccd_owner) : Prop := pending (gate o) <> 0 /\ completion o = 0 /\ closed (gate o) = 0.
Definition answered (cmd ck : Z) (l : list arrival) (o : mt6878_camera_ccd_owner) : Prop :=
  pending (gate o) = 0 /\ (result (gate o) < 0 \/ (result (gate o) = 0 /\ (exists a, a ∈ l /\ acknowledgement o cmd ck a) /\
    (cmd = CAM_CMD_FLUSH -> flushed (gate o) = 1) /\ (cmd = CAM_CMD_DESTROY_SESSION -> closed (gate o) = 1 /\ destroyed (gate o) = 1))).
Definition in_progress (cmd ck : Z) (l : list arrival) (o : mt6878_camera_ccd_owner) : Prop :=
  command (gate o) = cmd /\ cookie (gate o) = ck /\ (waiting o \/ answered cmd ck l o).
Lemma answered_more cmd ck l l' o : answered cmd ck l o -> answered cmd ck (l ++ l') o.
Proof.
  intros (A & B). split; [exact A|]. destruct B as [B|(B & (a & Ha & C) & D)]; [now left|right]. split; [exact B|]. split; [|exact D]. exists a. split; [|exact C]. apply elem_of_app. now left.
Qed.
Lemma in_progress_more cmd ck l l' o : in_progress cmd ck l o -> in_progress cmd ck (l ++ l') o.
Proof. intros (A & B & [C|C]); (split; [exact A|]; split; [exact B|]); [now left|right; now apply answered_more]. Qed.
Lemma reply_header_status p n ss ck cmd : mt6878_camera_reply_header (Some p) n ss ck cmd <= 0.
Proof.
  cbn [mt6878_camera_reply_header]. destruct (n <? 75); [cbn; lia|]. destruct (_ || _); [cbn; lia|]. destruct (negb (byte_at p 5 =? 4)); [cbn; lia|].
  destruct (negb (byte_at p 6 =? cmd)); [cbn; lia|]. cbv zeta. destruct (0 <? s32 (mt6878_camera_le32 p 7)) eqn:G; lia.
Qed.
Lemma rx_in_progress cmd ck l o a : in_progress cmd ck l o -> in_progress cmd ck (l ++ [a]) (mt6878_camera_ccd_rx o a).2.
Proof.
  intros H. assert (Hsame := in_progress_more cmd ck l [a] o H). unfold mt6878_camera_ccd_rx. destruct (_ || _ || _ || _) eqn:G; [exact Hsame|].
  destruct H as (Hc & Hk & H). unfold mt6878_camera_ccd_receive. destruct (message a) as [p|] eqn:Em.
  - destruct H as [(H1 & H2 & H3)|Ha]; cycle 1.
    { destruct Ha as [Hp Hr]. rewrite Hp. destruct (negb (closed (gate o) =? 0)); cbn [default from_option id fst snd]; cbn [Z.eqb negb andb]; [|]; destruct o; exact Hsame. }
    rewrite H3. cbn [Z.eqb negb]. replace (pending (gate o) =? 0) with false by lia.
    assert (Hkeep : forall r, in_progress cmd ck (l ++ [a]) (let '(r, g) := (r, Some (gate o)) in let g := default (gate o) g in
      (if r =? 1 then 0 else r, set_gate o (if negb false && (pending g =? 0) then completion o + 1 else completion o) g)).2).
    { intros r. cbn [default from_option id snd]. replace (pending (gate o) =? 0) with false by lia. destruct o. exact Hsame. }
    cbv zeta in Hkeep. destruct (_ <? 5); [apply Hkeep|]. destruct (negb (byte_at p 0 =? session (gate o)) || _) eqn:G2; [apply Hkeep|].
    destruct (mt6878_camera_reply_header (Some p) _ _ _ _ =? - ESTALE); [apply Hkeep|]. clear Hkeep.
    pose proof (reply_header_status p (if length a <? 0 then 0 else length a) (session (gate o)) (cookie (gate o)) (command (gate o))) as Hst.
    set (r := mt6878_camera_reply_header _ _ _ _ _) in *.
    split; [exact Hc|]. split; [exact Hk|]. right. unfold answered. cbn [default from_option id snd set_gate gate pending result flushed closed destroyed]. split; [reflexivity|].
    destruct (Z.eq_dec r 0) as [Hr|Hr]; [right|left; lia]. split; [exact Hr|]. rewrite Hr. cbn [Z.eqb andb].
    unfold r in Hr. cbn [mt6878_camera_reply_header] in Hr. set (n := if length a <? 0 then 0 else length a) in *.
    destruct (Z.ltb_spec n 75); [discriminate|]. rewrite G2 in Hr. destruct (Z.eqb_spec (byte_at p 5) 4) as [H5|]; cbn [negb] in Hr; [|discriminate].
    destruct (Z.eqb_spec (byte_at p 6) (command (gate o))) as [H6|]; cbn [negb] in Hr; [|discriminate]. destruct (Z.ltb_spec 0 (s32 (mt6878_camera_le32 p 7))); [discriminate|].
    split; [|split; intros ->; rewrite Hc; cbn; auto]. exists a. split; [apply elem_of_app; right; now left|].
    unfold acknowledgement. cbn [set_gate client o_session gate reply session]. replace (75 <=? n) with true by lia.
    split; [lia|]. split; [lia|]. split; [subst n; destruct (length a <? 0); lia|]. exists p. split; [exact Em|]. split; [reflexivity|]. split; [lia|]. split; [lia|]. split; [exact H5|]. split; [congruence|exact Hr].
  - split; [exact Hc|]. split; [exact Hk|]. right. unfold answered. cbn [default from_option id snd set_gate gate pending result]. split; [reflexivity|]. left. lia.
Qed.
Lemma receive_all_in_progress cmd ck l' : forall l o, in_progress cmd ck l o -> in_progress cmd ck (l ++ l') (receive_all o l').
Proof.
  induction l' as [|a l' IH]; intros l o H; [now rewrite app_nil_r|]. cbn [receive_all fold_left]. replace (l ++ a :: l') with ((l ++ [a]) ++ l') by (now rewrite <- app_assoc).
  apply IH. now apply rx_in_progress.
Qed.
(** With nothing pending, messages complete nothing. *)
Lemma idle_stays l : forall o, pending (gate o) = 0 -> pending (gate (receive_all o l)) = 0 /\ completion (receive_all o l) = completion o.
Proof.
  induction l as [|a l IH]; intros o H; [auto|]. cbn [receive_all fold_left]. fold (receive_all (mt6878_camera_ccd_rx o a).2 l).
  assert (X : pending (gate (mt6878_camera_ccd_rx o a).2) = 0 /\ completion (mt6878_camera_ccd_rx o a).2 = completion o).
  { unfold mt6878_camera_ccd_rx. destruct (_ || _ || _ || _); [auto|]. unfold mt6878_camera_ccd_receive. rewrite H.
    destruct (message a); [destruct (negb (closed (gate o) =? 0)); auto|auto]. }
  destruct X as [X1 X2]. destruct (IH _ X1) as [Y1 Y2]. split; [exact Y1|congruence].
Qed.

(** ** What calls do *)

(** The event as it is sent. *)
Definition stamped (o : mt6878_camera_ccd_owner) (e : mtkcam_ipi_event) : mtkcam_ipi_event := Event (u8 (o_session o)) (frame_no e) (cmd_id e) (data e).
Lemma book_session o o' : book o' = book o -> o_session o' = o_session o.
Proof. unfold book. congruence. Qed.
Lemma callbacks_calmer o : ccd_inv (gate o) -> performs (callbacks o) (fun o' s => calmer o o' /\ sends s = [] /\ o' = receive_all o (received s)).
Proof. intros Hi. unfold callbacks. trace_step. trace_step. split; [now apply receive_all_calmer|]. split; [reflexivity|]. cbn. now rewrite app_nil_r. Qed.
Lemma receive_all_app o l1 l2 : receive_all o (l1 ++ l2) = receive_all (receive_all o l1) l2.
Proof. apply fold_left_app. Qed.
(** At most one transmission, and none through a closed gate. *)
Definition sent_once (o : mt6878_camera_ccd_owner) (e : mtkcam_ipi_event) (q : Z * mt6878_camera_ccd_owner) (s : trace ccd_request ccd_answer) : Prop :=
  calmer o q.2 /\ q.2 = receive_all o (received s) /\ ((q.1 <> 0 /\ sends s = []) \/ (closed (gate o) = 0 /\ sends s = [stamped o e])).
Lemma open_before o o' : ccd_inv (gate o) -> calmer o o' -> closed (gate o') = 0 -> closed (gate o) = 0.
Proof. intros ((_ & _ & _ & _ & _ & F) & _) C E. destruct F as [F|F]; [exact F|]. apply (cm_closed _ _ C) in F. lia. Qed.
Lemma send_once o e : ccd_inv (gate o) -> performs (ccd_send o e) (sent_once o e).
Proof.
  intros Hi. unfold ccd_send. eapply performs_bind; [now apply callbacks_calmer|]. intros o0 s0 (C0 & S0 & R0). cbn zeta.
  eapply performs_bind; [apply callbacks_calmer, C0|]. intros o1 s1 (C & S & R). pose proof (calmer_trans _ _ _ C0 C) as C1.
  assert (S1 : sends (s0 ++ s1) = []) by now rewrite sends_app, S0, S. assert (R1 : o1 = receive_all o (received (s0 ++ s1))) by now rewrite received_app, receive_all_app, <- R0.
  assert (Hno : forall r, r <> 0 -> sent_once o e (r, o1) (s0 ++ s1)) by (intros r Hr; split; [exact C1|]; split; [exact R1|]; left; split; [exact Hr|exact S1]).
  destruct (endpoint o1); [|trace_step; rewrite app_nil_r; apply Hno; lia]. trace_step; [trace_step; rewrite app_nil_r; apply Hno; lia|].
  trace_step. rename p into a. eapply performs_bind; [apply callbacks_calmer, C1|]. intros o2 s2 (C2 & S2 & R2). trace_step. rewrite app_nil_r, app_assoc.
  split; [eapply calmer_trans; eassumption|]. split; [cbn [snd]; rewrite R2, R1, (received_app (s0 ++ s1)); cbn; now rewrite receive_all_app|]. right. split; [apply (open_before o o0 Hi C0); lia|].
  rewrite (sends_app (s0 ++ s1)), S1. cbn. fold (sends s2). rewrite S2. unfold stamped. now rewrite (book_session _ _ (cm_book _ _ C1)).
Qed.
(** What an exchange of a command does. *)
Record exchanged (o : mt6878_camera_ccd_owner) (e : mtkcam_ipi_event) (q : Z * mt6878_camera_ccd_owner) (s : trace ccd_request ccd_answer) : Prop := Exchanged {
  ex_book : book q.2 = book o;
  ex_inv : ccd_inv (gate q.2);
  ex_idle : pending (gate q.2) = 0;
  ex_session : session (gate q.2) = session (gate o);
  ex_closed : closed (gate o) = 1 -> closed (gate q.2) = 1;
  ex_left : sublist ((cmd_id <$> sends s) ++ remaining (gate q.2)) (remaining (gate o));
  ex_sent : sends s = [] \/ sends s = [stamped o e];
  ex_done : q.1 = 0 -> answered (cmd_id e) (frame_no e) (received s) q.2 /\ result (gate q.2) = 0 /\ sends s = [stamped o e]
}.
Lemma gate_begin_cases o cmd ck : ccd_inv (gate o) -> let '(r, g) := mt6878_camera_ccd_begin (Some (gate o)) cmd ck in
  let g := default (gate o) g in
  ccd_inv g /\ session g = session (gate o) /\ (closed (gate o) = 1 -> closed g = 1) /\
  ((r <> 0 /\ remaining g = remaining (gate o) /\ pending g = pending (gate o)) \/
   (r = 0 /\ pending g <> 0 /\ closed g = 0 /\ command g = cmd /\ cookie g = ck /\ sublist (cmd :: remaining g) (remaining (gate o)))).
Proof.
  intros Hi. pose proof (ccd_begin_ok (gate o) cmd ck Hi) as H. cbn [ccd_step] in H.
  destruct (mt6878_camera_ccd_begin (Some (gate o)) cmd ck) as [r g] eqn:E. cbn [fst snd] in H. destruct H as (H1 & H2 & H3 & H4).
  split; [exact H1|]. split; [exact H2|]. split; [intros X; apply (H3 X)|].
  assert (Hr : (r <> 0 /\ g = Some (gate o)) \/ (r = 0 /\ exists f1 f2 f3, g = Some (CcdSession (session (gate o)) 1 (closed (gate o)) cmd ck f1 f2 (flushed (gate o)) f3 (destroyed (gate o)) 0 (reply (gate o))) /\ closed (gate o) = 0)).
  { unfold mt6878_camera_ccd_begin in E. destruct (3 <? session (gate o)); [left; injection E as <- <-; split; [cbn; lia|reflexivity]|].
    destruct (Z.eqb_spec (closed (gate o)) 0) as [Hc|]; cbn [negb] in E; [|left; injection E as <- <-; split; [cbn; lia|reflexivity]].
    destruct (negb (pending (gate o) =? 0)); [left; injection E as <- <-; split; [cbn; lia|reflexivity]|].
    destruct (cmd =? 2). { destruct (negb (mt6878_camera_cookie_valid _ _)); [left; injection E as <- <-; split; [cbn; lia|reflexivity]|].
      destruct (_ || _); [left; injection E as <- <-; split; [cbn; lia|reflexivity]|]. right. injection E as <- <-. eauto 9. }
    destruct (cmd =? 5). { destruct (_ || _); [left; injection E as <- <-; split; [cbn; lia|reflexivity]|]. right. injection E as <- <-. eauto 9. }
    destruct (cmd =? 3). { destruct (_ || _ || _); [left; injection E as <- <-; split; [cbn; lia|reflexivity]|]. right. injection E as <- <-. eauto 9. }
    left. injection E as <- <-. split; [cbn; lia|reflexivity]. }
  destruct Hr as [[Hr ->]|(-> & f1 & f2 & f3 & -> & Hc)]; [left; auto|]. right. cbn [default from_option id pending closed command cookie] in *. cbn [Z.eqb app] in H4.
  split; [reflexivity|]. split; [lia|]. auto.
Qed.
Lemma finish_calmer o r : ccd_inv (gate o) -> calmer o (set_gate o (completion o) (mt6878_camera_ccd_finish (gate o) r).2).
Proof.
  intros Hi. pose proof (ccd_step_ok (gate o) (Finish r) Hi) as H. cbn [ccd_step] in H. destruct H as (H1 & H2 & H3 & H4). split; [reflexivity|exact H1|exact H2|intros X; apply (H3 X)|exact H4].
Qed.
(** The end of an exchange that began: [z] is the status of the transmission. *)
Lemma exchange_end o o1 e z s0 s1 : book o1 = book o -> session (gate o1) = session (gate o) -> (closed (gate o) = 1 -> closed (gate o1) = 1) ->
  sublist (cmd_id e :: remaining (gate o1)) (remaining (gate o)) -> sends s0 = [] -> (z <> 0 /\ sends s1 = []) \/ sends s1 = [stamped o e] ->
  forall o2 s2 r, calmer o1 o2 -> sends s2 = [] -> in_progress (cmd_id e) (frame_no e) (received (s1 ++ s2)) o2 ->
    (r = 0 -> answered (cmd_id e) (frame_no e) (received (s1 ++ s2)) o2 /\ z = 0) ->
    exchanged o e ((mt6878_camera_ccd_finish (gate o2) r).1, set_gate o2 (completion o2) (mt6878_camera_ccd_finish (gate o2) r).2) (s0 ++ s1 ++ s2).
Proof.
  intros Hb0 Hs0 Hcl B8 S0 S1 o2 s2 r' C2 S2 P2 D2. pose proof (finish_calmer o2 r' (cm_inv _ _ C2)) as C3. pose proof (calmer_trans _ _ _ C2 C3) as C.
  assert (S1' : sends s1 = [] \/ sends s1 = [stamped o e]) by (destruct S1 as [[_ ->]| ->]; auto).
  assert (Hsends : sends (s0 ++ s1 ++ s2) = sends s1) by now rewrite !sends_app, S0, S2, app_nil_r. split; cbn [fst snd]; rewrite ?Hsends.
  - rewrite (cm_book _ _ C). exact Hb0.
  - apply C.
  - reflexivity.
  - rewrite (cm_session _ _ C). exact Hs0.
  - intros X. apply (cm_closed _ _ C), Hcl, X.
  - etransitivity; [|exact B8]. destruct S1' as [-> | ->]; cbn [fmap list_fmap app stamped cmd_id]; [apply sublist_cons|apply sublist_skip]; apply (cm_left _ _ C).
  - exact S1'.
  - intros Hz. unfold mt6878_camera_ccd_finish in Hz |- *. cbn [fst snd set_gate gate] in *. destruct (Z.eqb_spec r' 0) as [->|]; cbn [negb] in Hz; [|contradiction].
    destruct (D2 eq_refl) as [(A1 & A2) A3]. cbn [Z.eqb negb]. split; [|split; [exact Hz|destruct S1 as [[X _]|X]; [contradiction|exact X]]].
    split; [reflexivity|]. destruct A2 as [A2|(A2 & A4 & A5)]; [lia|]. right. cbn [gate result flushed closed destroyed]. split; [exact A2|]. split; [|exact A5].
    destruct A4 as (a & Ha & A4). exists a. split; [rewrite received_app; apply elem_of_app; now right|exact A4].
Qed.
Lemma exchange_once o e t : ccd_inv (gate o) -> pending (gate o) = 0 -> performs (ccd_exchange o e t) (exchanged o e).
Proof.
  intros Hi Hidle. unfold ccd_exchange. trace_step.
  { trace_step. split; cbn [fst snd sends received flat_map fmap list_fmap app]; auto; lia. }
  eapply performs_bind; [now apply callbacks_calmer|]. intros o0 s0 (C0 & S0 & R0).
  assert (Hi0 : pending (gate o0) = 0 /\ completion o0 = 0) by (rewrite R0; now apply (idle_stays (received s0) (set_gate o 0 (gate o)))). destruct Hi0 as [Hi0 Hc0].
  pose proof (gate_begin_cases o0 (cmd_id e) (frame_no e) (cm_inv _ _ C0)) as Hb. destruct (mt6878_camera_ccd_begin (Some (gate o0)) (cmd_id e) (frame_no e)) as [r g].
  set (g1 := default (gate o0) g) in *. destruct Hb as (B1 & B2 & B3 & B4). set (o1 := set_gate o0 (completion o0) g1). cbv zeta.
  assert (Hb0 : book o1 = book o) by (change (book o1) with (book o0); apply (cm_book _ _ C0)).
  assert (Hs0 : session g1 = session (gate o)) by (rewrite B2; apply (cm_session _ _ C0)).
  trace_step.
  { trace_step. rewrite app_nil_r. destruct B4 as [(_ & B4 & B4')|(-> & _)]; [|lia]. split; cbn [fst snd]; auto; [| | |lia].
    - cbn [o1 set_gate gate]. now rewrite B4'.
    - intros X. apply B3, (cm_closed _ _ C0), X.
    - rewrite S0. cbn [fmap list_fmap app o1 set_gate gate]. rewrite B4. apply (cm_left _ _ C0). }
  destruct B4 as [[X _]|(_ & B4 & B5 & B6 & B7 & B8)]; [lia|].
  assert (Hp : in_progress (cmd_id e) (frame_no e) [] o1) by (split; [exact B6|]; split; [exact B7|]; left; split; [exact B4|]; split; [exact Hc0|exact B5]).
  eapply performs_bind; [apply (send_once o1 e B1)|]. intros q s1 (C1 & R1 & S1).
  assert (Est : stamped o1 e = stamped o e) by (unfold stamped; now rewrite (book_session _ _ Hb0)). rewrite Est in S1.
  assert (S1' : (q.1 <> 0 /\ sends s1 = []) \/ sends s1 = [stamped o e]) by (destruct S1 as [H|[_ H]]; auto).
  pose proof (exchange_end o o1 e q.1 s0 s1 Hb0 Hs0 (fun X => B3 (cm_closed _ _ C0 X)) (transitivity B8 (cm_left _ _ C0)) S0 S1') as Hend.
  assert (P1 : in_progress (cmd_id e) (frame_no e) (received s1) q.2) by (rewrite R1; apply (receive_all_in_progress _ _ (received s1) [] o1 Hp)).
  trace_step.
  - eapply performs_bind; [apply callbacks_calmer, C1|]. intros o2 s2 (C2 & S2 & R2). destruct (mt6878_camera_ccd_finish (gate o2) q.1) as [r' g'] eqn:Ef. trace_step. rewrite app_nil_r.
    specialize (Hend o2 s2 q.1 (calmer_trans _ _ _ C1 C2) S2). rewrite Ef in Hend. apply Hend; [|lia]. rewrite received_app, R2. now apply receive_all_in_progress.
  - eapply performs_bind; [apply callbacks_calmer, C1|]. intros o2 s2 (C2 & S2 & R2).
    assert (P2 : in_progress (cmd_id e) (frame_no e) (received (s1 ++ s2)) o2) by (rewrite received_app, R2; now apply receive_all_in_progress).
    set (o2' := if 0 <? completion o2 then set_gate o2 (completion o2 - 1) (gate o2) else o2).
    assert (C2' : calmer o1 o2') by (eapply calmer_trans; [exact C1|]; eapply calmer_trans; [exact C2|]; unfold o2'; destruct (0 <? completion o2); (split; [reflexivity|apply C2|reflexivity|auto|reflexivity])).
    assert (P2' : in_progress (cmd_id e) (frame_no e) (received (s1 ++ s2)) o2' /\ (0 < completion o2 -> answered (cmd_id e) (frame_no e) (received (s1 ++ s2)) o2')).
    { unfold o2'. destruct P2 as (X1 & X2 & [(X3 & X4 & X5)|X3]); destruct (Z.ltb_spec 0 (completion o2)); try lia; (split; [split; [exact X1|split; [exact X2|]]|]); try lia.
      - left. split; [exact X3|]. auto.
      - right. exact X3.
      - intros _. exact X3.
      - right. exact X3. }
    eapply performs_bind; [apply callbacks_calmer, C2'|]. intros o3 s3 (C3 & S3 & R3). destruct (mt6878_camera_ccd_finish (gate o3) _) as [r' g'] eqn:Ef. trace_step. rewrite app_nil_r.
    specialize (Hend o3 (s2 ++ s3) (if 0 <? completion o2 then 0 else - ETIMEDOUT) (calmer_trans _ _ _ C2' C3)). rewrite Ef in Hend. apply Hend.
    + rewrite sends_app, S2, S3. reflexivity.
    + rewrite app_assoc, received_app, R3. now apply receive_all_in_progress.
    + intros Hz. destruct (Z.ltb_spec 0 (completion o2)) as [Hd|]; [|lia]. split; [|lia]. rewrite app_assoc, received_app, R3. destruct P2' as [P2' Ha]. specialize (Ha Hd).
      pose proof (receive_all_in_progress _ _ (received s3) _ _ P2') as (Y1 & Y2 & [(Y3 & _)|Y3]); [|exact Y3]. exfalso. apply Y3, (idle_stays _ _ (proj1 Ha)).
Qed.

(** *** The order of commands *)

(** The commands an owner between two calls may still send, in order. *)
Definition still (o : mt6878_camera_ccd_owner) : list Z :=
  (if (o_error o =? 0) && (created o =? 0) && (closed (gate o) =? 0) then [CAM_CMD_CREATE_SESSION] else []) ++
  (if (o_error o =? 0) && (configured o =? 0) && (closed (gate o) =? 0) then [CAM_CMD_CONFIG] else []) ++ remaining (gate o).
Record idle (o : mt6878_camera_ccd_owner) : Prop := Idle {
  id_inv : ccd_inv (gate o);
  id_pending : pending (gate o) = 0;
  id_session : session (gate o) = o_session o;
  id_configured : configured o <> 0 -> created o <> 0
}.
Lemma sublist_if {A} (b b' : bool) (l : list A) : (b' = true -> b = true) -> sublist (if b' then l else []) (if b then l else []).
Proof. destruct b, b'; intros H; try reflexivity; [apply sublist_nil_l|discriminate (H eq_refl)]. Qed.
(** The list shrinks with the flags and the gate. *)
Lemma left_shrinks o o' :
  (o_error o' = 0 -> o_error o = 0) -> (created o' = 0 -> closed (gate o') = 0 -> created o = 0) -> (configured o' = 0 -> closed (gate o') = 0 -> configured o = 0) ->
  ccd_inv (gate o) -> (closed (gate o) = 1 -> closed (gate o') = 1) -> sublist (remaining (gate o')) (remaining (gate o)) -> sublist (still o') (still o).
Proof.
  intros He Hc Hk ((_ & _ & _ & _ & _ & Hf) & _) Hd Hr. unfold still, flag in *. apply sublist_app; [|apply sublist_app; [|exact Hr]]; apply sublist_if; intros H; lia.
Qed.
Lemma calmer_left o o' : ccd_inv (gate o) -> calmer o o' -> sublist (still o') (still o).
Proof. intros Hi [A1 A2 A3 A4 A5]. unfold book in A1. apply left_shrinks; auto; intros; congruence. Qed.
Lemma calmer_idle o o' : idle o -> calmer o o' -> pending (gate o') = 0 -> idle o'.
Proof. intros [I1 I2 I3 I4] [A1 A2 A3 A4 A5] Hp. unfold book in A1. split; [exact A2|exact Hp|congruence|]. replace (configured o') with (configured o) by congruence. replace (created o') with (created o) by congruence. exact I4. Qed.
(** What a call may send: the commands in order, each stamped with the session. *)
Definition ordered (o o' : mt6878_camera_ccd_owner) (s : trace ccd_request ccd_answer) : Prop :=
  idle o' /\ o_session o' = o_session o /\ sublist ((cmd_id <$> sends s) ++ still o') (still o) /\ Forall (fun e => session_id e = u8 (o_session o)) (sends s).
Lemma error_left o r : r <> 0 -> still (ccd_error o r) = remaining (gate o).
Proof.
  intros Hr. unfold still, ccd_error. destruct (negb (r =? 0) && (o_error o =? 0)) eqn:G; cbn [o_error created configured gate].
  - replace (r =? 0) with false by lia. reflexivity.
  - replace (o_error o =? 0) with false by lia. reflexivity.
Qed.
Lemma error_idle o r : idle o -> idle (ccd_error o r).
Proof. intros [I1 I2 I3 I4]. unfold ccd_error. destruct (_ && _); split; auto. Qed.
Lemma error_none o : ccd_error o 0 = o.
Proof. reflexivity. Qed.
Lemma error_session o r : o_session (ccd_error o r) = o_session o.
Proof. unfold ccd_error. now destruct (_ && _). Qed.
Lemma error_shrinks o r : sublist (still (ccd_error o r)) (still o).
Proof. unfold ccd_error. destruct (_ && _) eqn:G; [|reflexivity]. unfold still. cbn [o_error created configured gate]. replace (r =? 0) with false by lia. cbn [andb app]. apply sublist_inserts_l, sublist_inserts_l. reflexivity. Qed.
Lemma ordered_refl o : idle o -> ordered o o [].
Proof. intros H. split; [exact H|]. split; [reflexivity|]. split; [reflexivity|constructor]. Qed.
Lemma ordered_trans o o1 o2 s1 s2 : ordered o o1 s1 -> ordered o1 o2 s2 -> ordered o o2 (s1 ++ s2).
Proof.
  intros (A1 & A2 & A3 & A4) (B1 & B2 & B3 & B4). split; [exact B1|]. split; [congruence|]. rewrite sends_app. split.
  - rewrite fmap_app, <- app_assoc. etransitivity; [|exact A3]. now apply sublist_app.
  - apply Forall_app. split; [exact A4|]. now rewrite <- A2.
Qed.
Lemma ordered_error o o' s r : ordered o o' s -> ordered o (ccd_error o' r) s.
Proof.
  intros (A1 & A2 & A3 & A4). split; [now apply error_idle|]. split; [now rewrite error_session|]. split; [|exact A4].
  etransitivity; [|exact A3]. apply sublist_app; [reflexivity|apply error_shrinks].
Qed.
Lemma sent_idle o e q s : idle o -> sent_once o e q s -> idle q.2.
Proof. intros Hi (C & R & _). apply (calmer_idle o); [exact Hi|exact C|]. rewrite R. apply idle_stays, Hi. Qed.
(** A command that is only queued. *)
Lemma queue_ordered o e q s (upd : mt6878_camera_ccd_owner -> mt6878_camera_ccd_owner) : idle o -> sent_once o e q s ->
  (closed (gate o) = 0 -> sublist (cmd_id e :: remaining (gate o)) (still o)) ->
  (idle q.2 -> idle (upd q.2) /\ o_session (upd q.2) = o_session q.2) -> (closed (gate o) = 0 -> calmer o q.2 -> sublist (cmd_id e :: still (upd q.2)) (still o)) ->
  ordered o (ccd_error (if q.1 =? 0 then upd q.2 else q.2) q.1) s.
Proof.
  intros Hi Hs Hfail Hupd Hok. pose proof (sent_idle _ _ _ _ Hi Hs) as Hq. destruct Hs as (C & _ & Hs). pose proof (book_session _ _ (cm_book _ _ C)) as Es.
  destruct (Hupd Hq) as [U1 U2]. destruct (Z.eqb_spec q.1 0) as [E|E].
  - rewrite E, error_none. unfold ordered. destruct Hs as [[X _]|[Hc ->]]; [contradiction|]. split; [exact U1|]. split; [congruence|]. split; [now apply Hok|]. constructor; [reflexivity|constructor].
  - split; [now apply error_idle|]. split; [now rewrite error_session|]. rewrite error_left by exact E. destruct Hs as [[_ ->]|[Hc ->]]; (split; [|repeat constructor]); cbn [fmap list_fmap app stamped cmd_id].
    + etransitivity; [apply (cm_left _ _ C)|]. apply sublist_inserts_l, sublist_inserts_l. reflexivity.
    + etransitivity; [|now apply Hfail]. apply sublist_skip, (cm_left _ _ C).
Qed.
Lemma create_ordered o p : idle o -> performs (mt6878_camera_ccd_create o p) (fun q s => ordered o q.2 s).
Proof.
  intros Hi. destruct p as [p|]; cbn [mt6878_camera_ccd_create]; [|trace_step; now apply ordered_refl]. trace_step; [trace_step; now apply ordered_refl|]. cbv zeta.
  trace_step; [trace_step; now apply ordered_error, ordered_refl|]. destruct (Z.eqb_spec (o_error o) 0) as [He|]; cbn [negb] in *; [|lia].
  destruct (negb (created o =? 0) || negb (frame_sent o =? 0)) eqn:Gc; [lia|]. assert (Hc : created o = 0) by lia.
  eapply performs_bind; [apply send_once, Hi|]. intros q s Hs. trace_step. rewrite app_nil_r. cbn [snd].
  apply (queue_ordered o _ q s (fun o => set_progress o 1 (configured o) (frame_sent o) (ipi_size (msg_buf p)) (ipi_size (workbuf p))) Hi Hs); cbn [cmd_id].
  - intros Hd. unfold still. rewrite He, Hc, Hd. cbn [Z.eqb andb app]. apply sublist_skip, sublist_inserts_l. reflexivity.
  - intros [I1 I2 I3 I4]. split; [split; auto; cbn; lia|reflexivity].
  - intros Hd C. pose proof (calmer_left _ _ (id_inv _ Hi) C) as Hl. unfold still in Hl |- *. rewrite He, Hc, Hd in *. cbn [set_progress o_error created configured gate] in *. rewrite andb_false_r. cbn [andb Z.eqb app] in *.
    apply sublist_skip. destruct C as [Cb _ _ _ Cl]. apply sublist_app; [|exact Cl]. apply sublist_if. unfold book in Cb. assert (configured q.2 = configured o) by congruence. lia.
Qed.
Lemma config_ordered o c : idle o -> performs (mt6878_camera_ccd_config o c) (fun q s => ordered o q.2 s).
Proof.
  intros Hi. destruct c as [c|]; cbn [mt6878_camera_ccd_config]; [|trace_step; now apply ordered_refl]. cbv zeta.
  trace_step; [trace_step; now apply ordered_error, ordered_refl|]. destruct (Z.eqb_spec (o_error o) 0) as [He|]; cbn [negb] in *; [|lia].
  destruct ((created o =? 0) || negb (configured o =? 0)) eqn:Gc; [lia|]. assert (Hc : configured o = 0) by lia. assert (Hk : created o <> 0) by lia.
  eapply performs_bind; [apply send_once, Hi|]. intros q s Hs. trace_step. rewrite app_nil_r. cbn [snd].
  apply (queue_ordered o _ q s (fun o => set_progress o (created o) 1 (frame_sent o) (msg_size o) (cq_size o)) Hi Hs); cbn [cmd_id].
  - intros Hd. unfold still. rewrite He, Hc, Hd. cbn [Z.eqb andb app]. apply sublist_inserts_l. reflexivity.
  - destruct Hs as (C & _). pose proof (cm_book _ _ C) as Cb. unfold book in Cb. intros [I1 I2 I3 I4]. split; [|reflexivity]. split; auto. intros _. cbn [set_progress created]. replace (created q.2) with (created o) by congruence. exact Hk.
  - intros Hd [Cb _ _ _ Cl]. unfold book in Cb. unfold still. cbn [set_progress o_error created configured gate]. replace (created q.2) with (created o) by congruence. rewrite He, Hc, Hd.
    replace (created o =? 0) with false by lia. rewrite !andb_false_r. cbn [andb Z.eqb app]. apply sublist_skip, Cl.
Qed.
Lemma exchanged_idle o e q s : idle o -> exchanged o e q s -> idle q.2 /\ o_session q.2 = o_session o.
Proof.
  intros [I1 I2 I3 I4] [X1 X2 X3 X4 X5 X6 X7 X8]. unfold book in X1. split; [|congruence]. split; [exact X2|exact X3|congruence|].
  replace (configured q.2) with (configured o) by congruence. replace (created q.2) with (created o) by congruence. exact I4.
Qed.
Lemma exchanged_stamps o e q s : exchanged o e q s -> Forall (fun e => session_id e = u8 (o_session o)) (sends s).
Proof. intros X. destruct (ex_sent _ _ _ _ X) as [-> | ->]; repeat constructor. Qed.
Lemma still_gate o : remaining (gate o) `sublist_of` still o.
Proof. unfold still. apply sublist_inserts_l, sublist_inserts_l. reflexivity. Qed.
Lemma frame_ordered o ck off n t b : idle o -> performs (mt6878_camera_ccd_frame o ck off n t b) (fun q s => ordered o q.1.2 s).
Proof.
  intros Hi. destruct b as [b|]; cbn [mt6878_camera_ccd_frame]; [|trace_step; now apply ordered_refl]. trace_step; [trace_step; now apply ordered_refl|]. cbv zeta.
  trace_step; [trace_step; now apply ordered_error, ordered_refl|]. destruct (Z.eqb_spec (o_error o) 0) as [He|]; cbn [negb] in *; [|lia].
  destruct (configured o =? 0) eqn:Gk; [cbn [orb] in *; lia|]. assert (Hk : created o <> 0) by (apply (id_configured _ Hi); lia).
  set (o1 := set_progress o _ _ _ _ _). assert (Hi1 : idle o1) by (destruct Hi; now split).
  eapply performs_bind; [apply (exchange_once o1); apply Hi1|]. intros q s X. trace_step. rewrite app_nil_r. cbn [fst snd]. apply ordered_error.
  destruct (exchanged_idle _ _ _ _ Hi1 X) as [Q1 Q2]. split; [exact Q1|]. split; [exact Q2|]. split; [|apply (exchanged_stamps _ _ _ _ X)].
  assert (Hq : still q.2 = remaining (gate q.2)).
  { pose proof (ex_book _ _ _ _ X) as B. unfold book in B. unfold still. replace (configured q.2) with (configured o) by (change (configured o) with (configured o1); congruence).
    replace (created q.2) with (created o) by (change (created o) with (created o1); congruence). rewrite Gk. replace (created o =? 0) with false by lia. now rewrite !andb_false_r. }
  rewrite Hq. etransitivity; [apply (ex_left _ _ _ _ X)|exact (still_gate o)].
Qed.

(** A drain that succeeded: both commands were sent and the destruction was acknowledged. *)
Definition drained (o : mt6878_camera_ccd_owner) (l : list arrival) (evs : list mtkcam_ipi_event) (o' : mt6878_camera_ccd_owner) : Prop :=
  evs = [Event (u8 (o_session o)) 0 CAM_CMD_FLUSH NoData; Event (u8 (o_session o)) 0 CAM_CMD_DESTROY_SESSION NoData] /\
  closed (gate o') = 1 /\ flushed (gate o') = 1 /\ destroyed (gate o') = 1 /\ created o' = 0 /\ configured o' = 0 /\
  exists a, a ∈ l /\ acknowledgement o' CAM_CMD_DESTROY_SESSION 0 a.
Lemma exchanged_done o e q s : exchanged o e q s -> q.1 = 0 -> sends s = [stamped o e] /\ (exists a, a ∈ received s /\ acknowledgement q.2 (cmd_id e) (frame_no e) a) /\
  (cmd_id e = CAM_CMD_DESTROY_SESSION -> closed (gate q.2) = 1 /\ destroyed (gate q.2) = 1).
Proof. intros X Hz. destruct (ex_done _ _ _ _ X Hz) as [(_ & [A|(_ & A & _ & B)]) [R S]]; [lia|]. auto. Qed.
Lemma drain_done o t : idle o -> performs (drain_exchanges o t) (fun q s =>
  (idle q.2 /\ o_session q.2 = o_session o) /\ sublist ((cmd_id <$> sends s) ++ remaining (gate q.2)) (remaining (gate o)) /\
  Forall (fun e => session_id e = u8 (o_session o)) (sends s) /\ (q.1 = 0 -> drained o (received s) (sends s) q.2)).
Proof.
  intros Hi. unfold drain_exchanges. eapply performs_bind; [apply (exchange_once o); apply Hi|]. intros q s X. destruct (exchanged_idle _ _ _ _ Hi X) as [Q1 Q2].
  eapply (performs_bind _ _ (fun q' s' => (q.1 <> 0 /\ q' = q /\ s' = []) \/ (q.1 = 0 /\ exchanged q.2 (Event 0 0 CAM_CMD_DESTROY_SESSION NoData) q' s'))).
  { trace_step; [trace_step; left; split; [lia|auto]|]. eapply performs_impl; [apply (exchange_once q.2); apply Q1|]. intros q' s' X'. right. split; [lia|exact X']. }
  intros q' s' [(Hz & -> & ->)|(Hz & X')]; trace_step; rewrite ?app_nil_r; cbn [fst snd].
  - replace (q.1 =? 0) with false by lia. split; [auto|]. split; [apply (ex_left _ _ _ _ X)|]. split; [apply (exchanged_stamps _ _ _ _ X)|lia].
  - destruct (exchanged_idle _ _ _ _ Q1 X') as [R1 R2].
    assert (Hsub : sublist ((cmd_id <$> sends (s ++ s')) ++ remaining (gate q'.2)) (remaining (gate o))).
    { rewrite sends_app, fmap_app, <- app_assoc. etransitivity; [|apply (ex_left _ _ _ _ X)]. apply sublist_app; [reflexivity|apply (ex_left _ _ _ _ X')]. }
    assert (Hst : Forall (fun e => session_id e = u8 (o_session o)) (sends (s ++ s'))).
    { rewrite sends_app. apply Forall_app. split; [apply (exchanged_stamps _ _ _ _ X)|]. rewrite <- Q2. apply (exchanged_stamps _ _ _ _ X'). }
    destruct (Z.eqb_spec q'.1 0) as [E|E]; cbn [set_progress gate o_session].
    + split; [split; [|congruence]; destruct R1; split; auto; cbn; lia|]. split; [exact Hsub|]. split; [exact Hst|]. intros _.
      destruct (exchanged_done _ _ _ _ X Hz) as (D1 & _ & _). destruct (exchanged_done _ _ _ _ X' E) as (D1' & (a & Da & D2) & D3). destruct (D3 eq_refl) as [D4 D5].
      split; [rewrite sends_app, D1, D1'; cbn; unfold stamped; cbn [frame_no cmd_id data]; now rewrite Q2|]. cbn [set_progress gate created configured]. split; [exact D4|].
      split; [pose proof (id_inv _ R1) as (_ & _ & K2 & K3 & _); apply K2; now apply K3|]. split; [exact D5|]. split; [reflexivity|]. split; [reflexivity|].
      exists a. split; [rewrite received_app; apply elem_of_app; now right|exact D2].
    + split; [split; [exact R1|congruence]|]. split; [exact Hsub|]. split; [exact Hst|contradiction].
Qed.
Lemma drain_ordered o t : idle o -> performs (mt6878_camera_ccd_drain o t) (fun q s => ordered o q.2 s /\ (created o <> 0 -> q.1 = 0 -> drained o (received s) (sends s) q.2)).
Proof.
  intros Hi. unfold mt6878_camera_ccd_drain. destruct (Z.eqb_spec (created o) 0) as [E|E]; cbn [negb].
  { eapply (performs_bind _ _ (fun q s => q = (0, o) /\ s = [])); [trace_step; auto|]. intros q s [-> ->]. trace_step. cbn [fst snd]. rewrite error_none. split; [now apply ordered_refl|contradiction]. }
  eapply performs_bind; [now apply drain_done|]. intros q s ((Q1 & Q2) & Q3 & Q4 & Q5). trace_step. rewrite app_nil_r. cbn [fst snd]. split.
  - split; [now apply error_idle|]. split; [now rewrite error_session|]. split; [|exact Q4]. etransitivity; [|apply still_gate]. etransitivity; [|exact Q3]. apply sublist_app; [reflexivity|].
    destruct (Z.eq_dec q.1 0) as [Hz|Hz]; [|rewrite error_left by exact Hz; reflexivity]. rewrite Hz, error_none. destruct (Q5 Hz) as (_ & Hc & _). unfold still. rewrite Hc. cbn [Z.eqb]. now rewrite !andb_false_r.
  - intros _ Hz. destruct (Z.eq_dec q.1 0) as [Hq|Hq]; [rewrite Hq, error_none in *; auto|]. exfalso. unfold ccd_error in Hz. destruct (negb (q.1 =? 0) && (o_error q.2 =? 0)) eqn:G; cbn [o_error] in Hz; lia.
Qed.

(** A queued command that returned 0 was handed to the transport. *)
Lemma create_zero o p : idle o -> performs (mt6878_camera_ccd_create o (Some p)) (fun q s => q.1 = 0 ->
  sends s = [Event (u8 (o_session o)) 0 CAM_CMD_CREATE_SESSION (SessionData (SessionParam (workbuf p) (IpiBuffer 0 (ccd_fd (msg_buf p)) (ipi_size (msg_buf p)))))]).
Proof.
  intros Hi. cbn [mt6878_camera_ccd_create]. trace_step; [trace_step; discriminate|]. cbv zeta. trace_step; [trace_step; cbn [fst]; lia|].
  eapply performs_bind; [apply send_once, Hi|]. intros q s (_ & _ & H). trace_step. rewrite app_nil_r. cbn [fst]. intros Hz. destruct H as [[X _]|[_ X]]; [contradiction|exact X].
Qed.
Lemma config_zero o c : idle o -> performs (mt6878_camera_ccd_config o (Some c)) (fun q s => q.1 = 0 -> sends s = [Event (u8 (o_session o)) 0 CAM_CMD_CONFIG (ConfigData c)]).
Proof.
  intros Hi. cbn [mt6878_camera_ccd_config]. cbv zeta. trace_step; [trace_step; cbn [fst]; lia|].
  eapply performs_bind; [apply send_once, Hi|]. intros q s (_ & _ & H). trace_step. rewrite app_nil_r. cbn [fst]. intros Hz. destruct H as [[X _]|[_ X]]; [contradiction|exact X].
Qed.

(** *** The frame's place in the message buffer *)

(** The owner's record of the message buffer, and the frames sent against it. *)
Definition frame_inside (o : mt6878_camera_ccd_owner) (e : mtkcam_ipi_event) : Prop :=
  cmd_id e = CAM_CMD_FRAME -> created o <> 0 /\ mt6878_camera_cookie_valid (o_session o) (frame_no e) = true /\
  exists off n, data e = FrameData off n /\ sizeof_frame_param <= n /\ off <= msg_size o /\ n <= u32 (msg_size o - off).
Definition recorded (o o' : mt6878_camera_ccd_owner) (s : trace ccd_request ccd_answer) : Prop :=
  (created o' <> 0 -> (created o <> 0 /\ msg_size o' = msg_size o) \/
     exists p, Event (u8 (o_session o)) 0 CAM_CMD_CREATE_SESSION (SessionData p) ∈ sends s /\ msg_size o' = ipi_size (msg_buf p)) /\
  Forall (frame_inside o) (sends s).
Lemma recorded_same o o' s : created o' = created o -> msg_size o' = msg_size o -> Forall (frame_inside o) (sends s) -> recorded o o' s.
Proof. intros A B H. split; [|exact H]. intros X. left. split; congruence. Qed.
Lemma error_record o r : created (ccd_error o r) = created o /\ msg_size (ccd_error o r) = msg_size o.
Proof. unfold ccd_error. now destruct (_ && _). Qed.
Lemma book_record o o' : book o' = book o -> created o' = created o /\ msg_size o' = msg_size o.
Proof. unfold book. intros H. split; congruence. Qed.
Lemma outside_frame o e : cmd_id e <> CAM_CMD_FRAME -> Forall (frame_inside o) [stamped o e].
Proof. intros H. constructor; [intros X; contradiction|constructor]. Qed.
Lemma create_recorded o p : idle o -> performs (mt6878_camera_ccd_create o p) (fun q s => recorded o q.2 s).
Proof.
  intros Hi. destruct p as [p|]; cbn [mt6878_camera_ccd_create]; [|trace_step; now apply recorded_same]. trace_step; [trace_step; now apply recorded_same|]. cbv zeta.
  trace_step; [trace_step; cbn [snd]; apply recorded_same; [apply error_record|apply error_record|constructor]|].
  eapply performs_bind; [apply send_once, Hi|]. intros q s (C & _ & Hs). trace_step. rewrite app_nil_r. cbn [snd]. destruct (book_record _ _ (cm_book _ _ C)) as [B1 B2].
  assert (Hf : Forall (frame_inside o) (sends s)) by (destruct Hs as [[_ ->]|[_ ->]]; [constructor|now apply outside_frame]).
  destruct (Z.eqb_spec q.1 0) as [E|E]; [rewrite E, error_none|apply recorded_same; [| |exact Hf]; destruct (error_record q.2 q.1); congruence].
  split; [|exact Hf]. intros _. right. destruct Hs as [[X _]|[_ ->]]; [contradiction|]. eexists. split; [now left|]. reflexivity.
Qed.
Lemma config_recorded o c : idle o -> performs (mt6878_camera_ccd_config o c) (fun q s => recorded o q.2 s).
Proof.
  intros Hi. destruct c as [c|]; cbn [mt6878_camera_ccd_config]; [|trace_step; now apply recorded_same]. cbv zeta.
  trace_step; [trace_step; cbn [snd]; apply recorded_same; [apply error_record|apply error_record|constructor]|].
  eapply performs_bind; [apply send_once, Hi|]. intros q s (C & _ & Hs). trace_step. rewrite app_nil_r. cbn [snd]. destruct (book_record _ _ (cm_book _ _ C)) as [B1 B2].
  set (o1 := if q.1 =? 0 then _ else q.2). assert (B3 : created o1 = created o /\ msg_size o1 = msg_size o) by (unfold o1; destruct (q.1 =? 0); auto). destruct (error_record o1 q.1) as [E1 E2].
  apply recorded_same; [rewrite E1; apply B3|rewrite E2; apply B3|]. destruct Hs as [[_ ->]|[_ ->]]; [constructor|now apply outside_frame].
Qed.
Lemma frame_recorded o ck off n t b : idle o -> performs (mt6878_camera_ccd_frame o ck off n t b) (fun q s => recorded o q.1.2 s).
Proof.
  intros Hi. destruct b as [b|]; cbn [mt6878_camera_ccd_frame]; [|trace_step; now apply recorded_same]. trace_step; [trace_step; now apply recorded_same|]. cbv zeta.
  trace_step; [trace_step; cbn [fst snd]; apply recorded_same; [apply error_record|apply error_record|constructor]|].
  destruct (Z.eqb_spec (o_error o) 0) as [He|]; cbn [negb] in *; [|lia]. destruct (_ || _ || _ || _ || _) eqn:Gk; [lia|].
  set (o1 := set_progress o _ _ _ _ _). assert (Hi1 : idle o1) by (destruct Hi; now split).
  eapply performs_bind; [apply (exchange_once o1); apply Hi1|]. intros q s X. trace_step. rewrite app_nil_r. cbn [fst snd]. destruct (book_record _ _ (ex_book _ _ _ _ X)) as [B1 B2]. destruct (error_record q.2 q.1) as [E1 E2].
  apply recorded_same; [now rewrite E1|now rewrite E2|]. destruct (ex_sent _ _ _ _ X) as [-> | ->]; [constructor|]. constructor; [|constructor]. intros _. cbn [stamped frame_no data].
  split; [apply (id_configured _ Hi); lia|]. split; [now destruct (mt6878_camera_cookie_valid (o_session o) ck)|]. exists off, n. split; [reflexivity|lia].
Qed.
Lemma drain_recorded o t : idle o -> performs (mt6878_camera_ccd_drain o t) (fun q s => recorded o q.2 s).
Proof.
  intros Hi. unfold mt6878_camera_ccd_drain. eapply (performs_bind _ _ (fun q s => (created q.2 = 0 \/ (created q.2 = created o /\ msg_size q.2 = msg_size o)) /\ Forall (frame_inside o) (sends s))).
  - trace_step; [|trace_step; cbn [snd]; split; [auto|constructor]]. unfold drain_exchanges. eapply performs_bind; [apply (exchange_once o); apply Hi|]. intros q s X.
    destruct (exchanged_idle _ _ _ _ Hi X) as [Q1 Q2]. destruct (book_record _ _ (ex_book _ _ _ _ X)) as [B1 B2].
    assert (F1 : Forall (frame_inside o) (sends s)) by (destruct (ex_sent _ _ _ _ X) as [-> | ->]; [constructor|now apply outside_frame]).
    eapply (performs_bind _ _ (fun q' s' => (created q'.2 = created o /\ msg_size q'.2 = msg_size o) /\ Forall (frame_inside o) (sends s'))).
    + trace_step; [trace_step; split; [auto|constructor]|]. eapply performs_impl; [apply (exchange_once q.2); apply Q1|]. intros q' s' X'. destruct (book_record _ _ (ex_book _ _ _ _ X')) as [B1' B2'].
      split; [split; congruence|]. destruct (ex_sent _ _ _ _ X') as [-> | ->]; [constructor|]. constructor; [discriminate|constructor].
    + intros q' s' (B3 & F2). trace_step. rewrite app_nil_r, sends_app. cbn [snd]. split; [destruct (q'.1 =? 0); [now left|now right]|apply Forall_app; auto].
  - intros q s (B & F). trace_step. rewrite app_nil_r. cbn [snd]. destruct (error_record q.2 q.1) as [E1 E2]. split; [|exact F]. rewrite E1, E2. intros X. destruct B as [B|[B1 B2]]; [contradiction|]. left. split; congruence.
Qed.

(** ** Histories *)

Inductive call : Type :=
| CallBind (e : option rpmsg_endpoint)
| CallRx (a : arrival)
| CallCreate (p : option mtkcam_ipi_session_param)
| CallConfig (c : option mtkcam_ipi_config_param)
| CallFrame (cookie offset size timeout_ms : Z) (buf : option (list Z))
| CallDrain (timeout_ms : Z).
Definition perform (at_ : Z) (o : mt6878_camera_ccd_owner) (c : call) : ccd (Z * mt6878_camera_ccd_owner) :=
  match c with
  | CallBind e => ret (mt6878_camera_ccd_bind at_ o e)
  | CallRx a => ret (mt6878_camera_ccd_rx o a)
  | CallCreate p => mt6878_camera_ccd_create o p
  | CallConfig c => mt6878_camera_ccd_config o c
  | CallFrame ck off n t buf => let! q := mt6878_camera_ccd_frame o ck off n t buf in ret q.1
  | CallDrain t => mt6878_camera_ccd_drain o t
  end.
Fixpoint history (at_ : Z) (o : mt6878_camera_ccd_owner) (cs : list call) : ccd (list Z * mt6878_camera_ccd_owner) :=
  match cs with
  | [] => ret ([], o)
  | c :: cs => let! q := perform at_ o c in let! h := history at_ q.2 cs in ret (q.1 :: h.1, h.2)
  end.
Lemma bind_keeps at_ o e : let o' := (mt6878_camera_ccd_bind at_ o e).2 in gate o' = gate o /\ o_session o' = o_session o /\ created o' = created o /\
  configured o' = configured o /\ o_error o' = o_error o /\ msg_size o' = msg_size o.
Proof. cbv zeta. unfold mt6878_camera_ccd_bind. destruct e as [e|]; [|auto 8]. repeat match goal with |- context [if ?b then _ else _] => destruct b end; cbn; auto 8. Qed.
Lemma perform_ok at_ o c : idle o -> performs (perform at_ o c) (fun q s => ordered o q.2 s /\ recorded o q.2 s).
Proof.
  intros Hi. destruct c as [e|a|p|c|ck off n t buf|t]; cbn [perform].
  - trace_step. destruct (bind_keeps at_ o e) as (B1 & B2 & B3 & B4 & B5 & B6). set (o' := (mt6878_camera_ccd_bind at_ o e).2) in *.
    split; [|apply recorded_same; [exact B3|exact B6|constructor]]. split; [destruct Hi as [I1 I2 I3 I4]; split; rewrite ?B1, ?B2, ?B3, ?B4; auto|]. split; [exact B2|]. split; [|constructor].
    unfold still. rewrite B1, B3, B4, B5. reflexivity.
  - trace_step. pose proof (rx_calmer o a (id_inv _ Hi)) as C. destruct (book_record _ _ (cm_book _ _ C)) as [B1 B2]. split; [|apply recorded_same; [exact B1|exact B2|constructor]].
    split; [apply (calmer_idle o); [exact Hi|exact C|]; apply (idle_stays [a] o (id_pending _ Hi))|]. split; [apply (book_session _ _ (cm_book _ _ C))|]. split; [|constructor]. apply calmer_left; [apply Hi|exact C].
  - apply performs_and; [now apply create_ordered|now apply create_recorded].
  - apply performs_and; [now apply config_ordered|now apply config_recorded].
  - eapply performs_bind; [apply performs_and; [now apply frame_ordered|now apply frame_recorded]|]. intros q s H. trace_step. rewrite app_nil_r. exact H.
  - apply performs_and; [eapply performs_impl; [now apply drain_ordered|]; now intros q s [H _]|now apply drain_recorded].
Qed.
(** A frame lies inside the message buffer that an earlier creation announced. *)
Definition announced (n : Z) (past : list mtkcam_ipi_event) (e : mtkcam_ipi_event) : Prop :=
  cmd_id e = CAM_CMD_FRAME -> mt6878_camera_cookie_valid n (frame_no e) = true /\
  exists p off size, Event (u8 n) 0 CAM_CMD_CREATE_SESSION (SessionData p) ∈ past /\ data e = FrameData off size /\
    sizeof_frame_param <= size /\ (0 <= off -> is_u32 (ipi_size (msg_buf p)) -> off + size <= ipi_size (msg_buf p)).
Lemma announced_more n l l' e : announced n l e -> announced n (l ++ l') e.
Proof. intros H He. destruct (H He) as (A & p & off & k & B & C). split; [exact A|]. exists p, off, k. split; [apply elem_of_app; now left|exact C]. Qed.
Lemma history_ok at_ cs : forall past o, idle o -> (created o <> 0 -> exists p, Event (u8 (o_session o)) 0 CAM_CMD_CREATE_SESSION (SessionData p) ∈ past /\ msg_size o = ipi_size (msg_buf p)) ->
  performs (history at_ o cs) (fun h s => ordered o h.2 s /\ Forall (announced (o_session o) (past ++ sends s)) (sends s)).
Proof.
  induction cs as [|c cs IH]; intros past o Hi Hp; cbn [history]; [trace_step; split; [now apply ordered_refl|constructor]|].
  eapply performs_bind; [now apply perform_ok|]. intros q s (O1 & R1 & F1). pose proof O1 as (I1 & S1 & _).
  assert (Hp1 : created q.2 <> 0 -> exists p, Event (u8 (o_session q.2)) 0 CAM_CMD_CREATE_SESSION (SessionData p) ∈ past ++ sends s /\ msg_size q.2 = ipi_size (msg_buf p)).
  { rewrite S1. intros Hc. destruct (R1 Hc) as [[Hc' ->]|(p & A & B)].
    - destruct (Hp Hc') as (p & A & B). exists p. split; [apply elem_of_app; now left|exact B].
    - exists p. split; [apply elem_of_app; now right|exact B]. }
  eapply performs_bind; [apply (IH _ _ I1 Hp1)|]. intros h s' (O2 & A2). trace_step. rewrite app_nil_r. cbn [snd]. split; [eapply ordered_trans; eassumption|].
  rewrite sends_app. apply Forall_app. split.
  - eapply Forall_impl; [exact F1|]. intros e Hf. rewrite S1 in *. intros He. destruct (Hf He) as (X1 & X2 & off & k & X3 & X4 & X5 & X6). destruct (Hp X1) as (p & A & B).
    split; [exact X2|]. exists p, off, k. rewrite <- B. split; [apply elem_of_app; now left|]. split; [exact X3|]. split; [exact X4|].
    intros Ho Hu. unfold is_u32 in Hu. rewrite u32_id in X6 by (unfold is_u32; lia). lia.
  - rewrite app_assoc, <- S1. exact A2.
Qed.

Lemma init_idle n : 0 <= n <= 3 -> idle (mt6878_camera_ccd_init n).
Proof. intros Hn. split; [|reflexivity|reflexivity|intros X; contradiction]. unfold ccd_inv, flag, new_session; cbn; lia. Qed.

(** C28. The order of the session's commands. Whatever calls are made on an
    initialised owner, whatever the transport answers and whatever messages
    arrive before, during and between the calls, the events handed to the
    transport are a selection, in order, of CREATE, CONFIG, FRAME, FLUSH and
    DESTROY: none is sent twice or out of order. All carry the owner's session,
    and a frame's range lies inside the message buffer that the creation
    announced. *)
Theorem ccd_owner_protocol at_ n cs : 0 <= n <= 3 ->
  performs (history at_ (mt6878_camera_ccd_init n) cs) (fun h s =>
    sublist (cmd_id <$> sends s) [CAM_CMD_CREATE_SESSION; CAM_CMD_CONFIG; CAM_CMD_FRAME; CAM_CMD_FLUSH; CAM_CMD_DESTROY_SESSION] /\
    Forall (fun e => session_id e = n) (sends s) /\ Forall (announced n (sends s)) (sends s)).
Proof.
  intros Hn. eapply performs_impl; [apply (history_ok at_ cs []); [now apply init_idle|intros X; contradiction]|]. intros h s ((_ & _ & O3 & O4) & F). cbn [mt6878_camera_ccd_init o_session] in *.
  split; [|split; [|exact F]].
  - assert (E : still (mt6878_camera_ccd_init n) = [0; 1; 2; 5; 3]) by (unfold still, mt6878_camera_ccd_init; replace (4 - 1 <? n) with false by lia; reflexivity). rewrite E in O3.
    etransitivity; [apply sublist_inserts_r; reflexivity|exact O3].
  - eapply Forall_impl; [exact O4|]. cbn. intros e ->. unfold u8. apply Z.mod_small. lia.
Qed.

(** A frame call that returns 0 has its acknowledgement; one that fails leaves the buffer. *)
Definition frame_outcome (o : mt6878_camera_ccd_owner) (ck off n : Z) (b : list Z) (q : Z * mt6878_camera_ccd_owner * option (list Z)) (s : trace ccd_request ccd_answer) : Prop :=
  (q.1.1 = 0 -> sends s = [Event (u8 (o_session o)) ck CAM_CMD_FRAME (FrameData off n)] /\
     exists a, a ∈ received s /\ acknowledgement q.1.2 CAM_CMD_FRAME ck a /\ q.2 = firstn 75 <$> message a) /\
  (q.1.1 <> 0 -> q.2 = Some b) /\ (client q.1.2 = client o /\ o_session q.1.2 = o_session o).
Lemma frame_acknowledged o ck off n t b : idle o -> performs (mt6878_camera_ccd_frame o ck off n t (Some b)) (frame_outcome o ck off n b).
Proof.
  intros Hi. cbn [mt6878_camera_ccd_frame].
  trace_step; [trace_step; split; [discriminate|auto]|]. cbv zeta.
  trace_step; [trace_step; split; [cbn [fst]; lia|]; split; [reflexivity|]; cbn [fst snd]; unfold ccd_error; destruct (_ && _); auto|].
  set (o1 := set_progress o _ _ _ _ _). eapply performs_bind; [apply (exchange_once o1); apply Hi|]. intros q s X. trace_step. rewrite app_nil_r. unfold frame_outcome. cbn [fst snd].
  assert (Hb : client (ccd_error q.2 q.1) = client o /\ o_session (ccd_error q.2 q.1) = o_session o).
  { pose proof (ex_book _ _ _ _ X) as B. unfold book in B. change (client o) with (client o1). change (o_session o) with (o_session o1). unfold ccd_error. destruct (_ && _); cbn [client o_session]; split; congruence. }
  split; [|split; [intros Hz; now replace (q.1 =? 0) with false by lia|exact Hb]]. intros Hz.
  destruct (exchanged_done _ _ _ _ X Hz) as (D1 & (a & Da & D2) & _). split; [exact D1|]. exists a. split; [exact Da|].
  rewrite Hz, error_none. split; [exact D2|]. destruct D2 as (_ & _ & _ & p & -> & -> & _). reflexivity.
Qed.

(** A zero status stands for an acknowledgement. A frame call that returns 0
    sent the frame and copied out the first 75 bytes of a message that the bound
    client delivered during the call and that acknowledges this session, this
    cookie and this command with result zero; a call that fails leaves the
    caller's buffer alone. A drain of a created session that returns 0 sent the
    flush and then the destruction, and the destruction was acknowledged: the
    gate is closed and the session is no longer created. *)
Theorem ccd_zero_acknowledged o ck off n t b : idle o ->
  performs (mt6878_camera_ccd_frame o ck off n t (Some b)) (fun q s =>
    (q.1.1 = 0 -> sends s = [Event (u8 (o_session o)) ck CAM_CMD_FRAME (FrameData off n)] /\
       exists a, a ∈ received s /\ acknowledgement q.1.2 CAM_CMD_FRAME ck a /\ q.2 = firstn 75 <$> message a) /\
    (q.1.1 <> 0 -> q.2 = Some b)) /\
  performs (mt6878_camera_ccd_drain o t) (fun q s => created o <> 0 -> q.1 = 0 -> drained o (received s) (sends s) q.2).
Proof.
  intros Hi. split; [eapply performs_impl; [now apply frame_acknowledged|]; intros q s (A & B & _); auto|].
  eapply performs_impl; [now apply drain_ordered|]. now intros q s [_ H].
Qed.

(** ** A session *)

Module Run.
(** The client answers the last command that expects a reply. *)
Definition client_env : environment ccd_request ccd_answer := fun t q =>
  match q, last t with
  | Callbacks, Some (Trysend _ e, _) =>
    Answer 0 (if (cmd_id e =? CAM_CMD_CREATE_SESSION) || (cmd_id e =? CAM_CMD_CONFIG) then [] else [Arrival 7 (Some (ack 1 (frame_no e) (cmd_id e))) 75 2])
  | _, _ => Answer 0 []
  end.
Definition camsys_endpoint : rpmsg_endpoint := Endpoint 9 Ccd_rx 5 2 7 (camsys_name 1).
Definition params : mtkcam_ipi_session_param := SessionParam (IpiBuffer 0 3 4096) (IpiBuffer 77 4 100000).
Definition config : mtkcam_ipi_config_param := Config 0 (Input 0 0 0 0 0 (Crop 0 0 0 0)) [] [] 0 [] 0 0 0 0 0.
Definition calls : list call :=
  [CallBind (Some camsys_endpoint); CallCreate (Some params); CallConfig (Some config); CallFrame 0x01000005 4096 92291 100 (Some []); CallDrain 100; CallCreate (Some params)].
(** A whole session ends with a closed gate; a second one is refused. *)
Example whole_session :
  let '(h, t) := history 5 (mt6878_camera_ccd_init 1) calls client_env [] in
  h.1 = [0; 0; 0; 0; 0; - EALREADY] /\ cmd_id <$> sends t = [0; 1; 2; 5; 3] /\ closed (gate h.2) = 1.
Proof. vm_compute. auto. Qed.
Definition owner : mt6878_camera_ccd_owner := Owner 0 (Some 9) 7 1 1 1 0 100000 4096 0 (new_session 1).
End Run.
Lemma ccd_owner_protocol_witness : performs (history 5 (mt6878_camera_ccd_init 1) Run.calls) (fun h s => Forall (fun e => session_id e = 1) (sends s)).
Proof. eapply performs_impl; [apply (ccd_owner_protocol 5 1 Run.calls); lia|]. now intros h s (_ & H & _). Defined.
Lemma ccd_zero_acknowledged_witness : exists q s, mt6878_camera_ccd_frame Run.owner 0x01000005 4096 92291 100 (Some []) Run.client_env [] = (q, s) /\ q.1.1 = 0 /\
  exists a, a ∈ received s /\ acknowledgement q.1.2 CAM_CMD_FRAME 0x01000005 a /\ q.2 = firstn 75 <$> message a.
Proof.
  assert (Hi : idle Run.owner) by (split; [unfold ccd_inv, flag; cbn; lia|reflexivity|reflexivity|cbn; lia]).
  destruct (proj1 (ccd_zero_acknowledged Run.owner 0x01000005 4096 92291 100 [] Hi) Run.client_env []) as (q & s & E & H & _). exists q, s. split; [exact E|].
  assert (Hz : q.1.1 = 0) by (apply (f_equal (fun x => x.1.1.1)) in E; vm_compute in E; symmetry; exact E). split; [exact Hz|]. apply (H Hz).
Defined.
