(* ===== verification/Capture.v ===== *)
(** * The capture owner: [camera-composer/mt6878-camera-composer.h] and
    [mt6878-camera-capture-owner.c], and [mt6878_camera_ccd_capture]

    What the composer's acknowledgement of a frame says, the frame message it
    acknowledges, and the way from an acknowledged frame to the hardware: the
    reply is read once, its command queue is cut out of the work buffer, and the
    buffers are submitted ([Camsv]). The transport ([CcdOwner]), the capture
    backend and the interrupt registers are one environment. Owners are passed
    by value and exist; other pointers may be null. *)

From S2P Require Import Prelude Trace Fields BootEvidence CcdSession Camsv Recipe CcdOwner.
Open Scope Z_scope.
Open Scope io_scope.

Abbreviation CAM_MAX_PLANENUM := 4%nat (only parsing).
Abbreviation CAM_MAX_SUBSAMPLE := 32%nat (only parsing).
Abbreviation MTKCAM_IPI_CAMSV_MAIN_OUT := 25 (only parsing).
Abbreviation sizeof_img_output := 2074 (only parsing).

(** ** Acknowledgements *)

Record mt6878_camera_reply : Type := CameraReply { r_session : Z; r_cookie : Z; accepted : Z; r_error : Z }.
Definition reply_fails (st : mt6878_camera_reply) (r : Z) : mt6878_camera_reply := CameraReply (r_session st) (r_cookie st) (accepted st) r.
(** A result of an engine other than the first CAMSV slot. *)
Definition other_result (p : list Z) (i : Z) : bool :=
  negb (i =? 6) && (negb (mt6878_camera_le32 p (11 + i * 8) =? 0) || negb (mt6878_camera_le32 p (15 + i * 8) =? 0)).
(** The status, the state and [cq]. *)
Definition mt6878_camera_ack (state : option mt6878_camera_reply) (message : option (list Z)) (length : Z) (workbuf : option mt6878_camsv_buffer)
    (cq : option mt6878_camsv_buffer) : Z * option mt6878_camera_reply * option mt6878_camsv_buffer :=
  match state, message, workbuf, cq with
  | Some st, Some p, Some work, Some _ =>
    let fail r := (r, Some (reply_fails st r), cq) in
    if negb (r_error st =? 0) then (r_error st, state, cq)
    else if negb (accepted st =? 0) then (- EALREADY, state, cq)
    else if (length <? 75) || (255 <? r_session st) then fail (- EMSGSIZE)
    else if negb (byte_at p 0 =? r_session st) || negb (mt6878_camera_le32 p 1 =? r_cookie st) then (- ESTALE, state, cq)
    else if negb (byte_at p 5 =? CAM_CMD_ACK) || negb (byte_at p 6 =? CAM_CMD_FRAME) then fail (- EPROTO)
    else
    let ret := s32 (mt6878_camera_le32 p 7) in
    if negb (ret =? 0) then fail (if 0 <? ret then - EPROTO else ret)
    else if existsb (other_result p) [0; 1; 2; 3; 4; 5; 6; 7] then fail (- EOPNOTSUPP)
    else
    let offset := mt6878_camera_le32 p 59 in
    let size := mt6878_camera_le32 p 63 in
    if negb (mt6878_camsv_range work (bsize work) =? 0) || (size =? 0) || (0xffff <? size) || (bsize work <? offset) || (u32 (bsize work - offset) <? size)
    then fail (- ERANGE)
    else (0, Some (CameraReply (r_session st) (r_cookie st) 1 (r_error st)), Some (Buffer (u64 (dma work + offset)) size 1))
  | _, _, _, _ => (- EINVAL, state, cq)
  end.

(** The 75 bytes of a frame's acknowledgement that carries one command queue. *)
Definition frame_words (offset size : Z) : list Z := [0] ++ repeat 0 12 ++ [offset; size; 0; 0].
Definition frame_reply (session cookie offset size : Z) : list Z :=
  [session] ++ put32 cookie ++ [CAM_CMD_ACK; CAM_CMD_FRAME] ++ flat_map put32 (frame_words offset size).
Definition queue_inside (work : mt6878_camsv_buffer) (offset size : Z) : Prop := 0 <= offset /\ 0 < size <= 0xffff /\ offset + size <= bsize work.
Lemma frame_words_read p : bytes_ok p -> 75 <= len p -> le32s p 7 17 = frame_words (le32 p 59) (le32 p 63) <->
  le32 p 7 = 0 /\ existsb (other_result p) [0; 1; 2; 3; 4; 5; 6; 7] = false.
Proof.
  intros Hp Hn. cbn [le32s frame_words repeat app existsb]. unfold other_result. cbn [Z.eqb Pos.eqb negb andb orb]. cbv [Z.mul Z.add Pos.mul Pos.add Pos.succ Pos.add_carry].
  change (mt6878_camera_le32 p) with (le32 p). split.
  - intros E. injection E. clear E. intros. split; [assumption|]. repeat match goal with H : le32 p _ = 0 |- _ => rewrite H; clear H end. reflexivity.
  - intros [-> H]. rewrite !orb_false_iff, !negb_false_iff, !Z.eqb_eq in H. destruct H as (H0 & H1 & H2 & H3 & H4 & H5 & H7 & _).
    destruct H0 as [-> ->], H1 as [-> ->], H2 as [-> ->], H3 as [-> ->], H4 as [-> ->], H5 as [-> ->], H7 as [-> ->]. reflexivity.
Qed.
Lemma frame_reply_read p n ck offset size : bytes_ok p -> 75 <= len p -> is_u8 n -> is_u32 ck -> is_u32 offset -> is_u32 size ->
  slice p 0 75 = frame_reply n ck offset size <->
  byte_at p 0 = n /\ le32 p 1 = ck /\ byte_at p 5 = CAM_CMD_ACK /\ byte_at p 6 = CAM_CMD_FRAME /\ le32s p 7 17 = frame_words offset size.
Proof.
  intros Hp Hn Un Uk Uo Us. assert (Hw : Forall is_u32 (frame_words offset size)) by (unfold frame_words; cbn; repeat (constructor; [assumption || (unfold is_u32; lia)|]); constructor).
  pose proof (le32s_slice p Hp _ 7 Hw ltac:(lia) ltac:(change (len (frame_words offset size)) with 17; lia)) as H17. change (Datatypes.length (frame_words offset size)) with 17%nat in H17. change (4 * len (frame_words offset size)) with 68 in H17. rewrite H17. clear H17.
  pose proof (le32s_slice p Hp [ck] 1 ltac:(repeat constructor; apply Uk) ltac:(lia) ltac:(change (len [ck]) with 1; lia)) as H1. cbn [Datatypes.length le32s flat_map app] in H1. change (4 * len [ck]) with 4 in H1. rewrite app_nil_r in H1.
  assert (E : slice p 0 75 = [byte_at p 0] ++ slice p 1 4 ++ [byte_at p 5; byte_at p 6] ++ slice p 7 68).
  { change 75 with (1 + (4 + (2 + 68))). rewrite !slice_split by lia. rewrite slice_1 by lia. rewrite slice_2 by lia. reflexivity. }
  rewrite E. unfold frame_reply. clear E. assert (L4 : Datatypes.length (slice p 1 4) = Datatypes.length (put32 ck)) by (unfold slice; rewrite firstn_length_le; [reflexivity|rewrite length_skipn; unfold len in Hn; lia]).
  generalize (flat_map put32 (frame_words offset size)) as W. revert H1 L4. generalize (put32 ck) as K. intros K H1 L4 W. split.
  - intros H. cbn [app] in H. injection H as -> H. apply app_inj_1 in H as [H H']; [|exact L4]. apply H1 in H. injection H as H. injection H' as -> -> H'. auto 6.
  - intros (-> & H & -> & -> & ->). assert (X : slice p 1 4 = K) by (apply H1; now rewrite H). now rewrite X.
Qed.

(** A reply that was not used yet. *)
Definition unused (st : mt6878_camera_reply) : Prop := r_error st = 0 /\ accepted st = 0 /\ is_u8 (r_session st) /\ is_u32 (r_cookie st).
Definition taken (st : mt6878_camera_reply) : mt6878_camera_reply := CameraReply (r_session st) (r_cookie st) 1 0.
(** The command queue that an acknowledgement names. *)
Definition queue_of (work : mt6878_camsv_buffer) (offset size : Z) : mt6878_camsv_buffer := Buffer (dma work + offset) size 1.
Lemma ack_cases st p work cq : unused st -> bytes_ok p -> buffer_u work ->
  let '(r, st', cq') := mt6878_camera_ack (Some st) (Some p) (len p) (Some work) (Some cq) in
  (exists offset size, r = 0 /\ 75 <= len p /\ slice p 0 75 = frame_reply (r_session st) (r_cookie st) offset size /\ queue_inside work offset size /\ buffer_ok work (bsize work) /\
     st' = Some (taken st) /\ cq' = Some (queue_of work offset size)) \/
  (r <> 0 /\ cq' = Some cq /\ (st' = Some (reply_fails st r) \/ (st' = Some st /\ r = - ESTALE /\ (byte_at p 0 <> r_session st \/ le32 p 1 <> r_cookie st))) /\
     ~ exists offset size, 75 <= len p /\ slice p 0 75 = frame_reply (r_session st) (r_cookie st) offset size /\ queue_inside work offset size /\ buffer_ok work (bsize work)).
Proof.
  intros (E1 & E2 & U1 & U2) Hp Hw. unfold mt6878_camera_ack. rewrite E1, E2. cbn [Z.eqb negb]. change (mt6878_camera_le32 p) with (le32 p).
  assert (Hread : forall offset size, 75 <= len p -> queue_inside work offset size -> slice p 0 75 = frame_reply (r_session st) (r_cookie st) offset size ->
    byte_at p 0 = r_session st /\ le32 p 1 = r_cookie st /\ byte_at p 5 = 4 /\ byte_at p 6 = 2 /\ le32 p 7 = 0 /\ existsb (other_result p) [0; 1; 2; 3; 4; 5; 6; 7] = false /\ offset = le32 p 59 /\ size = le32 p 63).
  { intros offset size Hn (Q1 & Q2 & Q3) E. destruct Hw as (_ & Hw & _). unfold is_u32 in Hw. apply frame_reply_read in E; try assumption; [|unfold is_u32; lia|unfold is_u32; lia].
    destruct E as (A & B & C & D & E). assert (X : offset = le32 p 59 /\ size = le32 p 63) by (cbn [le32s frame_words repeat app] in E; injection E; intros; split; symmetry; assumption).
    destruct X as [-> ->]. apply frame_words_read in E; [|exact Hp|exact Hn]. destruct E. auto 9. }
  assert (Hfail : forall r, r <> 0 -> (forall offset size, 75 <= len p -> slice p 0 75 = frame_reply (r_session st) (r_cookie st) offset size -> queue_inside work offset size -> buffer_ok work (bsize work) -> False) ->
    r <> 0 /\ Some cq = Some cq /\ (Some (reply_fails st r) = Some (reply_fails st r) \/ (Some (reply_fails st r) = Some st /\ r = - ESTALE /\ (byte_at p 0 <> r_session st \/ le32 p 1 <> r_cookie st))) /\
     ~ exists offset size, 75 <= len p /\ slice p 0 75 = frame_reply (r_session st) (r_cookie st) offset size /\ queue_inside work offset size /\ buffer_ok work (bsize work)).
  { intros r Hr H. split; [exact Hr|]. split; [reflexivity|]. split; [now left|]. intros (o & z & A & B & C & D). eapply H; eassumption. }
  unfold is_u8 in U1. destruct (Z.ltb_spec (len p) 75) as [Hn|Hn]; cbn [orb]; [right; apply Hfail; [lia|intros; lia]|]. replace (255 <? r_session st) with false by lia.
  destruct (negb (byte_at p 0 =? r_session st) || negb (le32 p 1 =? r_cookie st)) eqn:G1.
  { right. split; [lia|]. split; [reflexivity|]. split; [right; split; [reflexivity|]; split; [reflexivity|]; lia|]. intros (o & z & A & B & C & D). destruct (Hread o z A C B) as (X1 & X2 & _). lia. }
  destruct (negb (byte_at p 5 =? 4) || negb (byte_at p 6 =? 2)) eqn:G2. { right. apply Hfail; [lia|]. intros o z A B C D. destruct (Hread o z A C B) as (_ & _ & X1 & X2 & _). lia. }
  cbv zeta. pose proof (s32_zero (le32 p 7) (le32_range p 7 Hp)) as Hz. destruct (Z.eqb_spec (s32 (le32 p 7)) 0) as [E7|E7]; cbn [negb]; cycle 1.
  { right. apply Hfail; [destruct (0 <? s32 (le32 p 7)); lia|]. intros o z A B C D. destruct (Hread o z A C B) as (_ & _ & _ & _ & X & _). apply E7. now apply Hz. }
  apply Hz in E7. destruct (existsb _ _) eqn:G3. { right. apply Hfail; [lia|]. intros o z A B C D. destruct (Hread o z A C B) as (_ & _ & _ & _ & _ & X & _). discriminate X. }
  pose proof (le32_range p 59 Hp) as U59. pose proof (le32_range p 63 Hp) as U63. assert (Hb := range_exact work (bsize work) Hw ltac:(destruct Hw as (_ & Hw & _); apply Hw)).
  destruct Hw as (W1 & W2 & W3). unfold is_u64, is_u32 in *.
  destruct (negb (mt6878_camsv_range work (bsize work) =? 0) || _ || _ || _ || _) eqn:G4.
  - right. apply Hfail; [lia|]. intros o z A B C D. destruct (Hread o z A C B) as (_ & _ & _ & _ & _ & _ & -> & ->). apply Hb in D. destruct C as (C1 & C2 & C3).
    rewrite D, u32_id in G4 by (unfold is_u32; lia). lia.
  - left. exists (le32 p 59), (le32 p 63). assert (D : buffer_ok work (bsize work)) by (apply Hb; lia). pose proof D as (_ & _ & D3).
    assert (C : queue_inside work (le32 p 59) (le32 p 63)) by (rewrite u32_id in G4 by (unfold is_u32; lia); unfold queue_inside; lia).
    split; [reflexivity|]. split; [exact Hn|]. split; [|split; [exact C|]; split; [exact D|]; split; [reflexivity|]; unfold queue_of; rewrite u64_id by (unfold is_u64; destruct C; lia); reflexivity].
    apply frame_reply_read; try assumption. split; [lia|]. split; [lia|]. split; [lia|]. split; [lia|]. apply frame_words_read; auto.
Qed.

(** ** The frame message *)

Record mtkcam_ipi_uid : Type := Uid { uid_pipe : Z; uid_id : Z }.
Record mtkcam_ipi_pix_fmt : Type := PixFmt { pf_format : Z; pf_w : Z; pf_h : Z; stride : list Z }.
(** [buf] has 32 rows of four planes. *)
Record mtkcam_ipi_img_output : Type := ImgOutput { uid : mtkcam_ipi_uid; out_fmt : mtkcam_ipi_pix_fmt; buf : list (list mtkcam_ipi_buffer); out_crop : mtkcam_ipi_crop }.
Record mtkcam_ipi_camsv_frame_param : Type := CamsvFrame { sv_pipe : Z; sv_tag : Z; hardware_scenario : Z; camsv_img_output : mtkcam_ipi_img_output }.
(** [camsv_param] has two rows of eight tags; [others] are the bytes of the other members. *)
Record mtkcam_ipi_frame_param : Type := FrameParam {
  cur_workbuf_offset : Z; cur_workbuf_size : Z; camsv_param : list (list mtkcam_ipi_camsv_frame_param); others : list Z
}.
Definition zero_ipi : mtkcam_ipi_buffer := IpiBuffer 0 0 0.
Definition zero_output : mtkcam_ipi_img_output := ImgOutput (Uid 0 0) (PixFmt 0 0 0 (repeat 0 CAM_MAX_PLANENUM)) (repeat (repeat zero_ipi CAM_MAX_PLANENUM) CAM_MAX_SUBSAMPLE) (Crop 0 0 0 0).
Definition zero_frame : mtkcam_ipi_frame_param := FrameParam 0 0 (repeat (repeat (CamsvFrame 0 0 0 zero_output) 8) 2) (zeros 58955).
Definition set_ipi (b : mtkcam_ipi_buffer) : bool := negb (ipi_iova b =? 0) || negb (ccd_fd b =? 0) || negb (ipi_size b =? 0).
Definition first_plane (o : mtkcam_ipi_img_output) : mtkcam_ipi_buffer := nth 0 (nth 0 (buf o) []) zero_ipi.
(** The checks of one output: every plane but the first is empty. *)
Definition output_check (pipe : Z) (l : mt6878_camsv_dma_layout) (b : mt6878_camsv_buffer) (out : mtkcam_ipi_img_output) : Z :=
  if negb (mt6878_camsv_layout_validate (Some l) (bsize b) =? 0) || negb (pf_format (out_fmt out) =? format l)
     || negb (pf_w (out_fmt out) =? width l) || negb (pf_h (out_fmt out) =? height l) || negb (nth 0 (stride (out_fmt out)) 0 =? bytesperline l)
     || negb (uid_pipe (uid out) =? pipe) || negb (uid_id (uid out) =? MTKCAM_IPI_CAMSV_MAIN_OUT)
     || negb (ipi_iova (first_plane out) =? dma b) || negb (ipi_size (first_plane out) =? bsize b) || negb (mt6878_camsv_range b (bsize b) =? 0)
     || (pf_w (out_fmt out) =? 0) || (pf_h (out_fmt out) =? 0) || (nth 0 (stride (out_fmt out)) 0 =? 0)
  then - EINVAL
  else if existsb (fun s => negb (s =? 0)) (tail (stride (out_fmt out))) then - EOPNOTSUPP
  else if existsb set_ipi (tail (concat (buf out))) then - EOPNOTSUPP
  else 0.
Definition aliases_frame (frame : ptr mtkcam_ipi_frame_param) (out : ptr mtkcam_ipi_img_output) : bool :=
  (addr out <? u64 (addr frame + sizeof_frame_param)) && (addr frame <? u64 (addr out + sizeof_img_output)).
Definition set_tag (f : mtkcam_ipi_frame_param) (pipe tag : Z) (out : mtkcam_ipi_img_output) : mtkcam_ipi_frame_param :=
  FrameParam (cur_workbuf_offset f) (cur_workbuf_size f)
    (<[0%nat := <[Z.to_nat tag := CamsvFrame pipe (u8 tag) 0 out]> (nth 0 (camsv_param f) [])]> (camsv_param f)) (others f).
Definition mt6878_camera_frame (frame : ptr mtkcam_ipi_frame_param) (job_ : option mt6878_camsv_job) (work_offset work_size shared_size : Z)
    (raw_ pdaf_ : ptr mtkcam_ipi_img_output) : Z * mtkcam_ipi_frame_param :=
  let f := pointee frame in
  match job_ with
  | None => (- EINVAL, f)
  | Some j =>
    if null frame || null raw_ || null pdaf_ || (1 <? sv_id j) || (7 <? raw_tag j) || (7 <? pdaf_tag j) || (raw_tag j =? pdaf_tag j)
       || (work_size =? 0) || (shared_size <? work_offset) || (u32 (shared_size - work_offset) <? work_size)
    then (- EINVAL, f)
    else if negb ((jwidth j =? 4000) && (jheight j =? 3000) || (jwidth j =? 4096) && (jheight j =? 2304))
            || negb (width (raw_layout j) =? jwidth j) || negb (height (raw_layout j) =? jheight j)
            || negb (format (raw_layout j) =? SV_DMA_FMT_BAYER10) && negb (format (raw_layout j) =? SV_DMA_FMT_BAYER10_MIPI)
    then (- EOPNOTSUPP, f)
    else
    let pipe := u32 (sv_id j + MTKCAM_SUBDEV_CAMSV_START) in
    let r := output_check pipe (raw_layout j) (raw j) (pointee raw_) in
    let r := if negb (r =? 0) then r else output_check pipe (pdaf_layout j) (pdaf j) (pointee pdaf_) in
    if negb (r =? 0) then (r, f)
    else if aliases_frame frame raw_ || aliases_frame frame pdaf_ then (- EINVAL, f)
    else
    let z := FrameParam work_offset work_size (camsv_param zero_frame) (others zero_frame) in
    (0, set_tag (set_tag z pipe (raw_tag j) (pointee raw_)) pipe (pdaf_tag j) (pointee pdaf_))
  end.

(** ** The capture owner *)

Record mt6878_camsv_resources : Type := CamsvResources { banks : list Z; r_domain : Z; r_sv_id : Z }.
(** [verify_irq_read] tells whether the callback is present. *)
Record mt6878_camera_capture_owner : Type := CaptureOwner {
  c_reply : mt6878_camera_reply; c_job : mt6878_camsv_job; c_workbuf : mt6878_camsv_buffer; c_pair : option mt6878_camsv_vb2_pair;
  c_backend : option mt6878_camsv_backend; c_resources : option mt6878_camsv_resources; c_allocator : Z; verify_irq_read : bool
}.
Record mt6878_camera_done_snapshot : Type := Snapshot { outer_sequence : Z; inner_sequence : Z; done_status : Z; timestamp_ns : Z }.
Definition set_reply (o : mt6878_camera_capture_owner) (r : mt6878_camera_reply) (p : option mt6878_camsv_vb2_pair) : mt6878_camera_capture_owner :=
  CaptureOwner r (c_job o) (c_workbuf o) p (c_backend o) (c_resources o) (c_allocator o) (verify_irq_read o).
Inductive capture_request : Type :=
| Ccd (q : ccd_request)
| Engine (q : request)
| Verify_irq_read
| Readl (bank offset : Z)
| Boottime.
Inductive capture_answer : Type :=
| Ccd_answer (a : ccd_answer)
| Engine_answer (a : Z * Z)
| Value (v : Z).
Abbreviation cap := (io capture_request capture_answer).
Definition ccd_part {A} (m : ccd A) : cap A := via Ccd Ccd_answer (fun a => match a with Ccd_answer a => a | _ => Answer 0 [] end) m.
Definition engine_part {A} (m : io request (Z * Z) A) : cap A := via Engine Engine_answer (fun a => match a with Engine_answer a => a | _ => (0, 0) end) m.
Definition value (q : capture_request) : cap Z := let! a := ask q in ret (match a with Value v => v | _ => 0 end).
Definition with_cq (j : mt6878_camsv_job) (b : mt6878_camsv_buffer) : mt6878_camsv_job :=
  Job (sv_id j) (jwidth j) (jheight j) (sequence j) (raw_tag j) (pdaf_tag j) (group_tags j) (raw j) (pdaf j) b (raw_layout j) (pdaf_layout j).
Definition plane_refused (b : ptr vb2_v4l2_buffer) (r : mt6878_camsv_buffer) : bool :=
  (vb2_queue (pointee b) =? 0) || negb (dma_contig (pointee b)) || negb (num_planes (pointee b) =? 1) || (plane_cookie (pointee b) =? 0) || negb (plane_dma (pointee b) =? dma r).
Definition mt6878_camera_capture_ack (domain_of : Z -> Z) (o : mt6878_camera_capture_owner) (message : option (list Z)) (length : Z)
    (raw_ pdaf_ : ptr vb2_v4l2_buffer) : io request (Z * Z) (Z * mt6878_camera_capture_owner) :=
  match c_pair o, c_backend o, c_resources o with
  | Some p, Some _, Some res =>
    let j := c_job o in
    if (c_allocator o =? 0) || null raw_ || null pdaf_ || negb (sv_id j =? r_sv_id res) then ret (- EINVAL, o)
    else if plane_refused raw_ (raw j) || plane_refused pdaf_ (pdaf j) then ret (- EINVAL, o)
    else if negb (mt6878_camsv_layout_validate (Some (raw_layout j)) (bsize (raw j)) =? 0) || negb (mt6878_camsv_layout_validate (Some (pdaf_layout j)) (bsize (pdaf j)) =? 0)
            || (plane_size (pointee raw_) <? sizeimage (raw_layout j)) || (plane_size (pointee pdaf_) <? sizeimage (pdaf_layout j))
    then ret (- ERANGE, o)
    else
    let '(r, st, q) := mt6878_camera_ack (Some (c_reply o)) message length (Some (c_workbuf o)) (Some (cq j)) in
    let st := default (c_reply o) st in
    if negb (r =? 0) then ret (r, set_reply o st (c_pair o))
    else
    let! s := mt6878_camsv_vb2_submit domain_of (c_backend o) (Some p) raw_ pdaf_ (c_allocator o) (r_domain res) (Some (with_cq j (default (cq j) q))) in
    ret (s.1, set_reply o (if negb (s.1 =? 0) then reply_fails st s.1 else st) s.2)
  | _, _, _ => ret (- EINVAL, o)
  end.
(** The first tag's register, or the base when none of the eight is set. *)
Definition spare_offset (tags : Z) : Z :=
  match List.find (fun i => negb (Z.land tags (bit i) =? 0)) [0; 1; 2; 3; 4; 5; 6; 7] with Some i => 0x57c + 0x40 * i | None => 0x57c end.
(** The status and [*snapshot]. *)
Definition mt6878_camera_done_snapshot_read (o : mt6878_camera_capture_owner) (snapshot : option mt6878_camera_done_snapshot) : cap (Z * option mt6878_camera_done_snapshot) :=
  match snapshot, c_resources o with
  | Some _, Some res =>
    if negb (verify_irq_read o) then ret (- EINVAL, snapshot)
    else if (nth 0 (banks res) 0 =? 0) || (nth 3 (banks res) 0 =? 0) then ret (- EINVAL, snapshot)
    else
    let! r := value Verify_irq_read in
    if negb (r =? 0) then ret (r, snapshot)
    else
    let! tags := value (Readl 3 0x1cc) in
    let! outer := value (Readl 0 (spare_offset tags)) in
    let! inner := value (Readl 3 (spare_offset tags)) in
    let! st := value (Readl 0 0x348) in
    let! ts := value Boottime in
    ret (0, Some (Snapshot outer inner st ts))
  | _, _ => ret (- EINVAL, snapshot)
  end.
Definition mt6878_camera_done_dispatch (o : mt6878_camera_capture_owner) (snapshot : option mt6878_camera_done_snapshot) : cap (Z * mt6878_camera_capture_owner) :=
  match c_pair o, snapshot with
  | Some p, Some s =>
    let! q := engine_part (mt6878_camsv_vb2_done (Some p) (done_status s) (inner_sequence s) (timestamp_ns s)) in ret (q.1, set_reply o (c_reply o) q.2)
  | _, _ => ret (- EINVAL, o)
  end.

(** ** From a frame to the hardware *)

Definition mt6878_camera_ccd_capture (domain_of : Z -> Z) (o : mt6878_camera_ccd_owner) (c : mt6878_camera_capture_owner) (msg_offset msg_size timeout_ms : Z)
    (raw_ pdaf_ : ptr vb2_v4l2_buffer) : cap (Z * mt6878_camera_ccd_owner * mt6878_camera_capture_owner) :=
  if null raw_ || null pdaf_ || negb (r_session (c_reply c) =? o_session o) || negb (sequence (c_job c) =? r_cookie (c_reply c)) || negb (bsize (c_workbuf c) =? cq_size o)
  then ret (- EINVAL, o, c)
  else
  let! q := ccd_part (mt6878_camera_ccd_frame o (r_cookie (c_reply c)) msg_offset msg_size timeout_ms (Some (zeros 75))) in
  let! a := (if q.1.1 =? 0 then engine_part (mt6878_camera_capture_ack domain_of c q.2 75 raw_ pdaf_) else ret (q.1.1, c)) in
  let st := c_reply a.2 in
  ret (a.1, q.1.2, if negb (a.1 =? 0) && (r_error st =? 0) then set_reply a.2 (reply_fails st a.1) (c_pair a.2) else a.2).

(** The engine's requests are admissions and steps for a job with this command queue. *)
Definition driven (j : mt6878_camsv_job) (s : ctrace) : Prop :=
  stopped_in j admission_ops s \/ (exists s1 s2, s = s1 ++ s2 /\ all_ran j admission_ops s1 /\ (stopped_in j (hardware_ops j) s2 \/ all_ran j (hardware_ops j) s2)).
Lemma submit_driven io t j r t' s : submit_result io t j r t' s -> s = [] \/ driven j s.
Proof. intros [r' ? ? ?|r' ? s' ? ? ? ? H ? ?|r' ? s1 s2 ? ? ? ? H1 H2 ? ?|s1 s2 ? ? ? H1 H2]; [now left|right; now left| |]; right; right; exists s1, s2; auto. Qed.
Definition arrival_ok (a : arrival) : Prop := match message a with Some p => bytes_ok p /\ len p = length a | None => True end.
(** The caller's objects are of the widths of their types. *)
Definition capture_u (c : mt6878_camera_capture_owner) (raw_ pdaf_ : ptr vb2_v4l2_buffer) : Prop :=
  is_u8 (r_session (c_reply c)) /\ is_u32 (r_cookie (c_reply c)) /\ buffer_u (c_workbuf c) /\ job_u (c_job c) /\
  is_u64 (plane_dma (pointee raw_)) /\ is_u64 (plane_dma (pointee pdaf_)) /\ is_u64 (plane_size (pointee raw_)) /\ is_u64 (plane_size (pointee pdaf_)).
(** What an acknowledged reply [p] lets through. *)
Definition let_through (c : mt6878_camera_capture_owner) (p : list Z) (j : mt6878_camsv_job) : Prop :=
  r_error (c_reply c) = 0 /\ accepted (c_reply c) = 0 /\ exists offset size, slice p 0 75 = frame_reply (r_session (c_reply c)) (r_cookie (c_reply c)) offset size /\
  queue_inside (c_workbuf c) offset size /\ cq j = queue_of (c_workbuf c) offset size.
Lemma capture_ack_ok domain_of c p raw_ pdaf_ : capture_u c raw_ pdaf_ -> bytes_ok p -> len p = 75 ->
  performs (mt6878_camera_capture_ack domain_of c (Some p) 75 raw_ pdaf_) (fun q s =>
    (s = [] \/ exists j, let_through c p j /\ driven j s) /\
    (q.1 = 0 -> exists j p', let_through c p j /\ c_pair q.2 = Some p' /\ pair_raw p' = Some raw_ /\ pair_pdaf p' = Some pdaf_ /\ c_reply q.2 = taken (c_reply c))).
Proof.
  intros (U1 & U2 & U3 & U4 & U5 & U6 & U7 & U8) Hp Hn. unfold mt6878_camera_capture_ack.
  assert (Hno : forall r o, r <> 0 -> performs (ret (r, o)) (fun (q : Z * mt6878_camera_capture_owner) (s : ctrace) =>
    (s = [] \/ exists j, let_through c p j /\ driven j s) /\
    (q.1 = 0 -> exists j p', let_through c p j /\ c_pair q.2 = Some p' /\ pair_raw p' = Some raw_ /\ pair_pdaf p' = Some pdaf_ /\ c_reply q.2 = taken (c_reply c))))
    by (intros r o Hr; trace_step; split; [now left|contradiction]).
  destruct (c_pair c) as [pr|] eqn:Ep; [|apply Hno; lia]. destruct (c_backend c) as [io|]; [|apply Hno; lia]. destruct (c_resources c) as [res|]; [|apply Hno; lia].
  cbv zeta. trace_step; [apply Hno; lia|]. trace_step; [apply Hno; lia|]. trace_step; [apply Hno; lia|]. clear G G0 G1.
  destruct (Z.eq_dec (r_error (c_reply c)) 0) as [E1|E1]; cycle 1.
  { unfold mt6878_camera_ack. replace (r_error (c_reply c) =? 0) with false by lia. cbn [negb]. replace (r_error (c_reply c) =? 0) with false by lia. now apply Hno. }
  destruct (Z.eq_dec (accepted (c_reply c)) 0) as [E2|E2]; cycle 1.
  { unfold mt6878_camera_ack. rewrite E1. replace (accepted (c_reply c) =? 0) with false by lia. cbn [negb Z.eqb]. now apply Hno. }
  pose proof (ack_cases (c_reply c) p (c_workbuf c) (cq (c_job c)) (conj E1 (conj E2 (conj U1 U2))) Hp U3) as Ha. rewrite Hn in Ha.
  destruct (mt6878_camera_ack _ _ _ _ _) as [[r st] q]. destruct Ha as [(off & n & -> & _ & A1 & A2 & A3 & -> & ->)|(Hr & _)]; cycle 1.
  { replace (r =? 0) with false by lia. now apply Hno. }
  cbn [Z.eqb negb default from_option id]. set (j := with_cq (c_job c) (queue_of (c_workbuf c) off n)).
  assert (Hj : call_ok (Submit raw_ pdaf_ (c_allocator c) (r_domain res) j)).
  { split; [|auto]. destruct U4 as (V1 & V2 & V3 & V4 & V5 & V6 & V7 & V8). destruct A2 as (A2 & A2' & A2''), A3 as (_ & _ & A3). destruct U3 as (W1 & W2 & _). unfold is_u64, is_u32 in *.
    unfold job_u, j, with_cq, queue_of. cbn [raw_tag pdaf_tag raw pdaf cq raw_layout pdaf_layout sv_id].
    assert (Hb : buffer_u (Buffer (dma (c_workbuf c) + off) n 1)) by (unfold buffer_u, is_u64, is_u32; cbn [dma bsize mapped]; lia).
    auto 9. }
  assert (Hlet : forall j', cq j' = cq j -> let_through c p j') by (intros j' Hq; split; [exact E1|]; split; [exact E2|]; exists off, n; auto).
  eapply performs_bind; [apply (vb2_submit_cases domain_of io pr raw_ pdaf_ _ _ j Hj)|]. intros q s H. trace_step. rewrite app_nil_r. cbn [fst snd set_reply c_pair c_reply].
  destruct H as [(Hr & E & ->)|(p' & j' & Hq & E & _ & _ & _ & _ & R & Hh)].
  - split; [now left|contradiction].
  - split; [apply submit_driven in R as [->|R]; [now left|right; exists j'; split; [now apply Hlet|exact R]]|]. intros Hz. rewrite Hz. cbn [Z.eqb negb].
    destruct Hh as [(_ & _ & X & _)|(X1 & X2 & _)]; [contradiction|]. exists j', p'. split; [now apply Hlet|]. auto.
Qed.

(** Every call of the engine ends, whatever its arguments. *)
Abbreviation ends m := (performs m (fun _ _ => True)).
Lemma ends_bind {Q P A B} (m : io Q P A) (k : A -> io Q P B) : ends m -> (forall a, ends (k a)) -> ends (bind m k).
Proof. intros Hm Hk. eapply performs_bind; [exact Hm|]. intros a s _. apply Hk. Qed.
Lemma ends_chain steps : Forall (fun f : txn -> io request (Z * Z) (Z * txn) => forall t, ends (f t)) steps -> forall t, ends (chain steps t).
Proof.
  induction 1 as [|f steps Hf _ IH]; intros t; cbn [chain]; [now trace_step|]. apply ends_bind; [apply Hf|]. intros p. trace_step; [now trace_step|apply IH].
Qed.
Lemma ends_write io r x v t : ends (mt6878_camsv_write io r x v t).
Proof. unfold mt6878_camsv_write. trace_step; [now trace_step|]. trace_step. trace_step; now trace_step. Qed.
Lemma ends_update io r x m v t : ends (mt6878_camsv_update io r x m v t).
Proof. unfold mt6878_camsv_update. trace_step; [now trace_step|]. trace_step. trace_step; [now trace_step|]. eapply performs_impl; [apply ends_write|auto]. Qed.
Lemma ends_submit io t j : ends (mt6878_camsv_submit (Some io) (Some t) (Some j)).
Proof.
  cbn [mt6878_camsv_submit]. trace_step; [now trace_step|]. trace_step; [now trace_step|]. cbv zeta. trace_step; [now trace_step|].
  apply ends_bind; [apply ends_chain, Forall_forall; intros f Hf; apply list_elem_of_fmap in Hf as (o & -> & _); intros t'; unfold verify; now repeat trace_step|]. intros p. trace_step; [now trace_step|].
  apply ends_bind; [apply ends_chain; cbn [cammux_steps app]; repeat (constructor; [intros t'; apply ends_update|]); constructor|]. intros p'. trace_step; [now trace_step|].
  apply ends_bind; [apply ends_chain; cbn [cq_steps]; repeat (constructor; [intros t'; first [apply ends_write|apply ends_update|unfold barrier; now repeat trace_step]|]); constructor|].
  intros p''. trace_step; now trace_step.
Qed.
Lemma ends_capture_ack domain_of c m n raw_ pdaf_ : ends (mt6878_camera_capture_ack domain_of c m n raw_ pdaf_).
Proof.
  unfold mt6878_camera_capture_ack. destruct (c_pair c); [|now trace_step]. destruct (c_backend c) as [io|]; [|now trace_step]. destruct (c_resources c); [|now trace_step].
  cbv zeta. do 3 (trace_step; [now trace_step|]). destruct (mt6878_camera_ack _ _ _ _ _) as [[r st] q]. trace_step; [now trace_step|]. apply ends_bind; [|intros x; now trace_step].
  unfold mt6878_camsv_vb2_submit. cbv zeta. do 2 (trace_step; [now trace_step|]). destruct (mt6878_camsv_vb2_map _ _); [now trace_step|]. destruct (mt6878_camsv_vb2_map _ _); [now trace_step|].
  trace_step; [now trace_step|]. apply ends_bind; [apply ends_submit|]. intros x. trace_step; now trace_step.
Qed.

(** The composer's acknowledgement is read exactly. With an unused reply
    state, a message is accepted exactly when its first 75 bytes are the
    acknowledgement of this session and cookie with result zero and one CAMSV
    command queue of 1 to 65535 bytes inside the mapped work buffer; the queue is
    then that part of the work buffer and the state is used up. Otherwise the
    queue is untouched, and the error stays in the state, unless the message was
    for another session or cookie, which changes nothing. *)
Theorem camera_ack_exact st p work cq : unused st -> bytes_ok p -> buffer_u work ->
  let '(r, st', cq') := mt6878_camera_ack (Some st) (Some p) (len p) (Some work) (Some cq) in
  (r = 0 <-> exists offset size, 75 <= len p /\ slice p 0 75 = frame_reply (r_session st) (r_cookie st) offset size /\ queue_inside work offset size /\ buffer_ok work (bsize work) /\
     st' = Some (taken st) /\ cq' = Some (queue_of work offset size)) /\
  (r <> 0 -> cq' = Some cq /\ (st' = Some (reply_fails st r) \/ (st' = Some st /\ r = - ESTALE /\ (byte_at p 0 <> r_session st \/ le32 p 1 <> r_cookie st)))).
Proof.
  intros Hu Hp Hw. pose proof (ack_cases st p work cq Hu Hp Hw) as H. destruct (mt6878_camera_ack _ _ _ _ _) as [[r st'] cq'].
  destruct H as [(off & n & -> & H)|(Hr & H1 & H2 & H3)].
  - split; [split; [intros _; eauto|reflexivity]|contradiction].
  - split; [split; [contradiction|]|auto]. intros (off & n & A & B & C & D & _). exfalso. apply H3. eauto 6.
Qed.
Lemma camera_ack_exact_witness : (mt6878_camera_ack (Some (CameraReply 1 0x01000005 0 0)) (Some (frame_reply 1 0x01000005 64 720)) 75 (Some (Buffer 0x1000000 4096 1)) (Some zero_buffer)).1.1 = 0.
Proof.
  pose proof (camera_ack_exact (CameraReply 1 0x01000005 0 0) (frame_reply 1 0x01000005 64 720) (Buffer 0x1000000 4096 1) zero_buffer) as H.
  change (len (frame_reply 1 0x01000005 64 720)) with 75 in H. destruct (mt6878_camera_ack _ _ _ _ _) as [[r st'] cq'] eqn:E. cbn [fst].
  destruct H as [H _]; [unfold unused, is_u8, is_u32; cbn; lia|unfold frame_reply; concrete_bytes|unfold buffer_u, is_u64, is_u32; cbn; lia|].
  apply H. exists 64, 720. split; [lia|]. split; [vm_compute; reflexivity|]. split; [unfold queue_inside; cbn; lia|]. split; [unfold buffer_ok; cbn; lia|]. vm_compute in E. injection E as _ <- <-. split; reflexivity.
Defined.

(** C26. The hardware runs only what an acknowledged reply describes. In every
    environment a capture first exchanges the frame with the composer and then
    drives the capture engine. If the engine was asked for anything, or the call
    returned 0, then the frame was sent once and the composer's client delivered
    during the call an acknowledgement of it that names a command queue inside the
    work buffer, and every engine request is an admission or a step of a job with
    that queue. A call that returned 0 took the reply and both buffers. *)
Theorem capture_chain domain_of o c off n t raw_ pdaf_ : idle o -> capture_u c raw_ pdaf_ ->
  performs (mt6878_camera_ccd_capture domain_of o c off n t raw_ pdaf_) (fun q s => exists s1 s2,
    s = lift_trace Ccd Ccd_answer s1 ++ lift_trace Engine Engine_answer s2 /\
    (Forall arrival_ok (received s1) -> s2 <> [] \/ q.1.1 = 0 ->
       sends s1 = [Event (u8 (o_session o)) (r_cookie (c_reply c)) CAM_CMD_FRAME (FrameData off n)] /\
       exists a p j, a ∈ received s1 /\ from a = client o /\ message a = Some p /\ let_through c p j /\ (s2 = [] \/ driven j s2)) /\
    (Forall arrival_ok (received s1) -> q.1.1 = 0 ->
       c_reply q.2 = taken (c_reply c) /\ exists p', c_pair q.2 = Some p' /\ pair_raw p' = Some raw_ /\ pair_pdaf p' = Some pdaf_)).
Proof.
  intros Hi Hu. unfold mt6878_camera_ccd_capture. trace_step. { trace_step. exists [], []. split; [reflexivity|]. cbn [fst]. split; [intros _ [X|X]; [contradiction|lia]|intros _ X; lia]. }
  eapply performs_bind; [apply performs_via, (frame_acknowledged o (r_cookie (c_reply c)) off n t (zeros 75) Hi)|]. intros q s (s1 & -> & F1 & _ & F3 & _).
  destruct (Z.eqb_spec q.1.1 0) as [Hz|Hz]; cycle 1.
  { eapply (performs_bind _ _ (fun a s => a = (q.1.1, c) /\ s = [])); [trace_step; auto|]. intros a s [-> ->]. trace_step. cbn [fst snd]. exists s1, []. split; [now rewrite !app_nil_r|]. split; [intros _ [X|X]; contradiction|contradiction]. }
  destruct (F1 Hz) as (S1 & a & Ha & Hk & Hq). destruct Hk as (K1 & _ & K3 & p & K4 & _). rewrite K4 in Hq. cbn [fmap option_fmap option_map] in Hq. rewrite Hq.
  assert (Hgo : Forall arrival_ok (received s1) -> bytes_ok p /\ len p = length a) by (intros H; rewrite Forall_forall in H; specialize (H a Ha); unfold arrival_ok in H; now rewrite K4 in H).
  destruct (decide (bytes_ok p /\ len p = length a)) as [[Hp Hn]|Hbad]; cycle 1.
  { eapply performs_bind; [apply performs_via, ends_capture_ack|]. intros r s (s2 & -> & _). trace_step. exists s1, s2. rewrite app_nil_r. split; [reflexivity|]. split; intros H; destruct (Hbad (Hgo H)). }
  assert (Hf : bytes_ok (firstn 75 p) /\ len (firstn 75 p) = 75) by (split; [now apply bytes_ok_take|unfold len in *; rewrite length_firstn; lia]). destruct Hf as [Hf Hl].
  eapply performs_bind; [apply performs_via, (capture_ack_ok domain_of c _ raw_ pdaf_ Hu Hf Hl)|]. intros r s (s2 & -> & R1 & R2). trace_step. rewrite app_nil_r. exists s1, s2. split; [reflexivity|]. cbn [fst snd].
  assert (Hlet : forall j, let_through c (firstn 75 p) j -> let_through c p j).
  { intros j (E1 & E2 & x & y & E & E3). split; [exact E1|]. split; [exact E2|]. exists x, y. split; [|exact E3]. rewrite <- E. unfold slice. change (Z.to_nat 0) with 0%nat. change (Z.to_nat 75) with 75%nat. rewrite !skipn_O. now rewrite firstn_firstn. }
  split; [|intros _ Hr; destruct (R2 Hr) as (j & p' & _ & X1 & X2 & X3 & X4); rewrite Hr; cbn [Z.eqb negb andb]; eauto 6].
  intros _ Hs. split; [exact S1|]. destruct R1 as [->|(j & Hj & D)].
  - destruct Hs as [X|Hr]; [contradiction|]. destruct (R2 Hr) as (j & p' & Hj & _). exists a, p, j. split; [exact Ha|]. split; [congruence|]. auto.
  - exists a, p, j. split; [exact Ha|]. split; [congruence|]. auto.
Qed.

(** ** A capture *)

Module Capture_run.
Definition job : mt6878_camsv_job :=
  Job 1 4000 3000 0x01000005 2 3 [0xc; 0; 0; 0] (Buffer 0x1000000 15000000 1) (Buffer 0x2000000 744000 1) zero_buffer
    (Layout SV_DMA_FMT_BAYER10 4000 3000 5000 15000000 0) (Layout SV_DMA_FMT_BAYER8 496 1500 496 744000 0).
Definition owner : mt6878_camera_capture_owner :=
  CaptureOwner (CameraReply 1 0x01000005 0 0) job (Buffer 0x4000000 4096 1) (Some empty_pair) (Some example_backend) (Some (CamsvResources [1; 1; 1; 1; 1; 1] 8 1)) 5 true.
(** The client acknowledges the frame with a queue at the start of the work buffer; the engine is idle at once. *)
Definition env : environment capture_request capture_answer := fun t q =>
  match q with
  | Ccd Callbacks => Ccd_answer (Answer 0 (match last t with Some (Ccd (Trysend _ _), _) => [Arrival 7 (Some (frame_reply 1 0x01000005 0 720)) 75 2] | _ => [] end))
  | Ccd (Trysend _ _) => Ccd_answer (Answer 0 [])
  | Engine _ => Engine_answer (0, 2)
  | _ => Value 0
  end.
Definition run := mt6878_camera_ccd_capture (fun _ => 8) CcdOwner.Run.owner owner 0 92291 100 raw_buffer pdaf_buffer env [].
Example run_captures : run.1.1.1 = 0 /\ cq <$> ((fun p => Camsv.job (tx p)) <$> c_pair run.1.2) = Some (Buffer 0x4000000 720 1).
Proof. vm_compute. auto. Qed.
End Capture_run.
Lemma capture_chain_witness : c_reply Capture_run.run.1.2 = CameraReply 1 0x01000005 1 0 /\ exists p', c_pair Capture_run.run.1.2 = Some p' /\ pair_raw p' = Some raw_buffer.
Proof.
  assert (Hi : idle CcdOwner.Run.owner) by (split; [unfold ccd_inv, flag; cbn; lia|reflexivity|reflexivity|cbn; lia]).
  assert (Hu : capture_u Capture_run.owner raw_buffer pdaf_buffer) by (unfold capture_u, job_u, buffer_u, layout_u32, is_u64, is_u32, is_u8; cbn; lia).
  destruct (capture_chain (fun _ => 8) CcdOwner.Run.owner Capture_run.owner 0 92291 100 raw_buffer pdaf_buffer Hi Hu Capture_run.env []) as (q & s & E & s1 & s2 & Es & _ & H).
  fold Capture_run.run in E. assert (Eq : Capture_run.run.1 = q) by now rewrite E. assert (Ez : q.1.1 = 0) by (rewrite <- Eq; vm_compute; reflexivity).
  assert (Ha : Forall arrival_ok (received s1)); [|rewrite Eq; destruct (H Ha Ez) as (A & p' & B & C & _); split; [exact A|eauto]].
  assert (Et : Capture_run.run.2 = s) by now rewrite E. rewrite Es in Et.
  assert (X : received s1 = flat_map (fun e => match e with (Ccd Callbacks, Ccd_answer a) => arrivals a | _ => [] end) Capture_run.run.2).
  { rewrite Et. rewrite flat_map_app. unfold lift_trace. clear. assert (N : flat_map (fun e => match e with (Ccd Callbacks, Ccd_answer a) => arrivals a | _ => [] end) ((fun e : request * (Z * Z) => (Engine e.1, Engine_answer e.2)) <$> s2) = []) by (induction s2 as [|? s2 IH]; [reflexivity|exact IH]).
    rewrite N, app_nil_r. induction s1 as [|[[] ?] s1 IH]; [reflexivity|exact IH|]. cbn. f_equal. exact IH. }
  assert (Y : received s1 = [Arrival 7 (Some (frame_reply 1 0x01000005 0 720)) 75 2]) by (rewrite X; vm_compute; reflexivity). rewrite Y.
  constructor; [|constructor]. split; [unfold frame_reply; concrete_bytes|reflexivity].
Defined.
