(* ===== verification/Pipeline.v ===== *)
(** * The pipeline owner: [camera-pipeline-owner/mt6878-camera-pipeline-owner.c]

    The owner of the two shared buffers of a composer session, of its endpoint and
    of the sensor's format. It maps the work and the message buffer for the
    capture device, writes the frame message ([Capture]), publishes both to the
    composer through the transport owner ([CcdOwner]) and never unmaps them
    again. Kernel services, other objects and arriving messages are one
    environment. Calls that hold the owner's mutex follow one another; the
    endpoint's callback is cut into its three steps so that several callbacks
    interleave with each other and with the calls. During a call the messages
    that arrive are those that the callback gate let in. *)

From S2P Require Import Prelude Trace Fields BootEvidence CcdCq CcdSession Camsv Recipe CcdOwner Capture.
Open Scope Z_scope.
Open Scope io_scope.

(** ** State and environment *)

(** Kernel objects are addresses, zero is null; [va] is the kernel mapping with
    the frame message at its start. *)
Record mt6878_pipeline_mapping : Type := Mapping {
  m_buffer : Z; attachment : Z; sgt : Z; va : ptr mtkcam_ipi_frame_param; range : mt6878_camsv_buffer; cpu_active : bool; vmap_acquired : bool
}.
Definition zero_mapping : mt6878_pipeline_mapping := Mapping 0 0 0 (Ptr 0 zero_frame) zero_buffer false false.
(** [p_capture] is the address of the capture owner. *)
Record mt6878_pipeline_owner : Type := PipelineOwner {
  consumer : Z; dma_owner : Z; domain : Z; work : mt6878_pipeline_mapping; message_map : mt6878_pipeline_mapping;
  p_ccd : mt6878_camera_ccd_owner; p_capture : Z; sensor : Z; receiver : Z; sensor_pad : Z; p_width : Z; p_height : Z;
  p_job : mt6878_camsv_job; p_endpoint : Z; callback_users : Z; callback_closed : bool; published : bool; callbacks_detached : bool; p_error : Z
}.
(** What a media subdevice reports, and the answers about its format. *)
Record v4l2_subdev : Type := Subdev { num_pads : Z; link_validate : bool }.
Record mbus_format : Type := MbusFormat { code : Z; field : Z; f_width : Z; f_height : Z }.
Record frame_desc_entry : Type := DescEntry { len_max : bool; stream : Z; vc : Z; dt : Z; entry_length : Z }.
Record frame_desc : Type := FrameDesc { desc_type : Z; entries : list frame_desc_entry }.
Record mbus_config : Type := MbusConfig { bus_type : Z; data_lanes : list Z }.
Record rpmsg_device : Type := RpmsgDevice { client_ept : Z; client_name : list Z }.
Record sg_table : Type := SgTable { sgt_at : Z; nents : Z; sgl : Z; sg_dma_len : Z; sg_dma_address : Z }.

Inductive pipeline_request : Type :=
| Get_dma_buf (b : Z)
| Dma_buf_get (fd : Z)
| Dma_buf_put (b : Z)
| Dma_buf_fd (b : Z)
| Attach (b dev : Z)
| Detach (b att : Z)
| Map_attachment (att : Z)
| Unmap_attachment (att s : Z)
| Vmap (b : Z)
| Vunmap (b : Z)
| Begin_cpu_access (b : Z)
| End_cpu_access (b : Z)
| Kcalloc
| Kfree (p : Z)
| Current
| Domain_of (dev : Z)
| Get_task (t : Z)
| Put_task (t : Z)
| Get_device (d : Z)
| Put_device (d : Z)
| Create_ept (client src : Z)
| Set_client_ept (client e : Z)
| Endpoint_is_ours (e : Z)
| Trylock_owner
| Trylock_ccd
| Find_link (sensor pad receiver : Z)
| Link_validate (link : Z)
| Get_fmt (sensor pad : Z)
| Get_frame_desc (sensor pad : Z)
| Get_mbus_config (sensor pad : Z)
| Transport (q : ccd_request).
Inductive pipeline_answer : Type :=
| Status (z : Z)
| Mapped (s : sg_table)
| Vmapped (status : Z) (is_null is_iomem : bool) (v : ptr mtkcam_ipi_frame_param)
| Task (t : positive) (mm : bool)
| Link (l : Z) (enabled : bool)
| Format (status : Z) (f : mbus_format)
| Desc (status : Z) (d : frame_desc)
| Bus (status : Z) (b : mbus_config)
| Delivered (a : ccd_answer).
Abbreviation pio := (io pipeline_request pipeline_answer).
Definition transport {A} (m : ccd A) : pio A := via Transport Delivered (fun a => match a with Delivered a => a | _ => Answer 0 [] end) m.
(** Answers of another kind read as zero. *)
Definition num (a : pipeline_answer) : Z := match a with Status z => z | _ => 0 end.
Definition sg_of (a : pipeline_answer) : sg_table := match a with Mapped s => s | _ => SgTable 0 0 0 0 0 end.
Definition IS_ERR (z : Z) : bool := (- 4095 <=? z) && (z <? 0).
Definition call_ (q : pipeline_request) : pio Z := let! a := ask q in ret (num a).
Definition do_ (q : pipeline_request) : pio unit := let! _ := ask q in ret tt.
Definition when (b : bool) (m : pio unit) : pio unit := if b then m else ret tt.

(** ** Mappings *)

Definition mt6878_pipeline_unmap (m : mt6878_pipeline_mapping) : pio mt6878_pipeline_mapping :=
  if cpu_active m then ret m
  else
  let! _ := when (vmap_acquired m) (do_ (Vunmap (m_buffer m))) in
  let! _ := when (negb (sgt m =? 0)) (do_ (Unmap_attachment (attachment m) (sgt m))) in
  let! _ := when (negb (attachment m =? 0)) (do_ (Detach (m_buffer m) (attachment m))) in
  let! _ := when (negb (m_buffer m =? 0)) (do_ (Dma_buf_put (m_buffer m))) in
  ret zero_mapping.

(** ** Updates *)

Definition set_maps (o : mt6878_pipeline_owner) (w m : mt6878_pipeline_mapping) : mt6878_pipeline_owner :=
  PipelineOwner (consumer o) (dma_owner o) (domain o) w m (p_ccd o) (p_capture o) (sensor o) (receiver o) (sensor_pad o) (p_width o) (p_height o)
    (p_job o) (p_endpoint o) (callback_users o) (callback_closed o) (published o) (callbacks_detached o) (p_error o).
Definition set_ccd (o : mt6878_pipeline_owner) (c : mt6878_camera_ccd_owner) : mt6878_pipeline_owner :=
  PipelineOwner (consumer o) (dma_owner o) (domain o) (work o) (message_map o) c (p_capture o) (sensor o) (receiver o) (sensor_pad o) (p_width o) (p_height o)
    (p_job o) (p_endpoint o) (callback_users o) (callback_closed o) (published o) (callbacks_detached o) (p_error o).
Definition pipeline_error (o : mt6878_pipeline_owner) (r : Z) : mt6878_pipeline_owner :=
  PipelineOwner (consumer o) (dma_owner o) (domain o) (work o) (message_map o) (p_ccd o) (p_capture o) (sensor o) (receiver o) (sensor_pad o) (p_width o) (p_height o)
    (p_job o) (p_endpoint o) (callback_users o) (callback_closed o) (published o) (callbacks_detached o) (if p_error o =? 0 then r else p_error o).
Definition set_published (o : mt6878_pipeline_owner) (j : mt6878_camsv_job) : mt6878_pipeline_owner :=
  PipelineOwner (consumer o) (dma_owner o) (domain o) (work o) (message_map o) (p_ccd o) (p_capture o) (sensor o) (receiver o) (sensor_pad o) (p_width o) (p_height o)
    j (p_endpoint o) (callback_users o) (callback_closed o) true (callbacks_detached o) (p_error o).
Definition set_callback (o : mt6878_pipeline_owner) (users : Z) (closed_ detached : bool) : mt6878_pipeline_owner :=
  PipelineOwner (consumer o) (dma_owner o) (domain o) (work o) (message_map o) (p_ccd o) (p_capture o) (sensor o) (receiver o) (sensor_pad o) (p_width o) (p_height o)
    (p_job o) (p_endpoint o) users closed_ (published o) detached (p_error o).
Definition set_sensor (o : mt6878_pipeline_owner) (cap_ s r pad w h : Z) : mt6878_pipeline_owner :=
  PipelineOwner (consumer o) (dma_owner o) (domain o) (work o) (message_map o) (p_ccd o) cap_ s r pad w h
    (p_job o) (p_endpoint o) (callback_users o) (callback_closed o) (published o) (callbacks_detached o) (p_error o).
Definition set_ept (o : mt6878_pipeline_owner) (e client : Z) : mt6878_pipeline_owner :=
  PipelineOwner (consumer o) (dma_owner o) (domain o) (work o) (message_map o) (if e =? 0 then p_ccd o else set_endpoint (p_ccd o) (Some e) client) (p_capture o)
    (sensor o) (receiver o) (sensor_pad o) (p_width o) (p_height o)
    (p_job o) e (callback_users o) (callback_closed o) (published o) (callbacks_detached o) (p_error o).
Definition set_owner (o : mt6878_pipeline_owner) (task dev : Z) : mt6878_pipeline_owner :=
  PipelineOwner task dev (domain o) (work o) (message_map o) (p_ccd o) (p_capture o) (sensor o) (receiver o) (sensor_pad o) (p_width o) (p_height o)
    (p_job o) (p_endpoint o) (callback_users o) (callback_closed o) (published o) (callbacks_detached o) (p_error o).

Section Pipeline.
(** The size of a shared buffer, and the kernel's names of a format, a field order, a descriptor type and a bus. *)
Context (buf_size : Z -> Z) (MEDIA_BUS_FMT_SRGGB10_1X10 V4L2_FIELD_NONE V4L2_MBUS_FRAME_DESC_TYPE_CSI2 V4L2_MBUS_CSI2_CPHY : Z).

Definition sg_refused (s : sg_table) (buffer : Z) : bool := (sgt_at s =? 0) || negb (nents s =? 1) || (sgl s =? 0) || (sg_dma_len s <? buf_size buffer).
Definition mt6878_pipeline_map (m : mt6878_pipeline_mapping) (buffer device minimum : Z) : pio (Z * mt6878_pipeline_mapping) :=
  let fail v r : pio (Z * mt6878_pipeline_mapping) := let! _ := mt6878_pipeline_unmap v in ret (r, m) in
  if (buffer =? 0) || (device =? 0) || (minimum =? 0) || negb (m_buffer m =? 0) || (buf_size buffer <? minimum) || (UINT32_MAX <? buf_size buffer)
  then ret (- EINVAL, m)
  else
  let! _ := do_ (Get_dma_buf buffer) in
  let! att := call_ (Attach buffer device) in
  if IS_ERR att then fail (Mapping buffer 0 0 (Ptr 0 zero_frame) zero_buffer false false) att
  else
  let! a := ask (Map_attachment att) in
  let s := sg_of a in
  if IS_ERR (sgt_at s) then fail (Mapping buffer att 0 (Ptr 0 zero_frame) zero_buffer false false) (sgt_at s)
  else if sg_refused s buffer then fail (Mapping buffer att (sgt_at s) (Ptr 0 zero_frame) zero_buffer false false) (- ERANGE)
  else
  let r := Buffer (sg_dma_address s) (u32 (buf_size buffer)) 1 in
  let st := mt6878_camsv_range r (bsize r) in
  if negb (st =? 0) then fail (Mapping buffer att (sgt_at s) (Ptr 0 zero_frame) r false false) st
  else
  let! a := ask (Vmap buffer) in
  match a with
  | Vmapped st is_null is_iomem v =>
    if negb (st =? 0) then fail (Mapping buffer att (sgt_at s) v r false false) st
    else if is_null || is_iomem then fail (Mapping buffer att (sgt_at s) v r false true) (- EOPNOTSUPP)
    else ret (0, Mapping buffer att (sgt_at s) v r false true)
  | _ => fail (Mapping buffer att (sgt_at s) (Ptr 0 zero_frame) r false false) (- ENOMEM)
  end.
(** ** Setting up *)

(** The task and whether it has an address space. *)
Definition current : pio (Z * bool) := let! a := ask Current in ret (match a with Task t mm => (Zpos t, mm) | _ => (1, false) end).
Definition mt6878_pipeline_init (o : mt6878_pipeline_owner) (device dom session_ : Z) : pio (Z * mt6878_pipeline_owner) :=
  let! t := current in
  if (device =? 0) || (dom =? 0) || negb t.2 || (3 <? session_) then ret (- EINVAL, o)
  else
  let! d := call_ (Domain_of device) in
  if negb (d =? dom) then ret (- EINVAL, o)
  else
  let! _ := do_ (Get_task t.1) in
  let! _ := do_ (Get_device device) in
  ret (0, PipelineOwner t.1 device dom zero_mapping zero_mapping (mt6878_camera_ccd_init session_) 0 0 0 0 0 0 zero_job 0 0 false false false 0).
Definition owner_task (o : mt6878_pipeline_owner) : pio Z :=
  let! t := current in
  if negb (consumer o =? t.1) || negb t.2 then ret (- EPERM)
  else
  let! d := call_ (Domain_of (dma_owner o)) in
  ret (if negb (d =? domain o) then - EXDEV else 0).
Definition unmap_both (o : mt6878_pipeline_owner) : pio mt6878_pipeline_owner :=
  let! m := mt6878_pipeline_unmap (message_map o) in
  let! w := mt6878_pipeline_unmap (work o) in
  ret (set_maps o w m).
Definition import_both (o : mt6878_pipeline_owner) (work_ message_ : Z) : pio (Z * mt6878_pipeline_owner) :=
  if work_ =? message_ then ret (- EINVAL, o)
  else
  let! q := mt6878_pipeline_map (work o) work_ (dma_owner o) (MT6878_CAMSV_RECIPE_WRITES * 16 + 12) in
  let o := set_maps o q.2 (message_map o) in
  let! q := (if q.1 =? 0 then let! q := mt6878_pipeline_map (message_map o) message_ (dma_owner o) sizeof_frame_param in ret (q.1, set_maps o (work o) q.2) else ret (q.1, o)) in
  let o := q.2 in
  let r := if (q.1 =? 0) && (negb (Z.land (dma (range (work o))) 15 =? 0) || negb (Z.land (bsize (range (work o))) 3 =? 0) || mt6878_camsv_overlap (range (work o)) (range (message_map o)))
           then - ERANGE else q.1 in
  if negb (r =? 0) then let! o := unmap_both o in ret (r, o) else ret (r, o).
Definition mt6878_pipeline_import (o : mt6878_pipeline_owner) (work_fd message_fd : Z) : pio (Z * mt6878_pipeline_owner) :=
  let! r := owner_task o in
  if negb (r =? 0) then ret (r, o)
  else if negb (m_buffer (work o) =? 0) || negb (m_buffer (message_map o) =? 0) || published o then ret (- EALREADY, o)
  else
  let! w := call_ (Dma_buf_get work_fd) in
  if IS_ERR w then ret (w, o)
  else
  let! m := call_ (Dma_buf_get message_fd) in
  let! q := (if IS_ERR m then ret (m, o) else let! q := import_both o w m in let! _ := do_ (Dma_buf_put m) in ret q) in
  let! _ := do_ (Dma_buf_put w) in ret q.
Definition mt6878_pipeline_export (o : mt6878_pipeline_owner) (message_ : bool) : pio Z :=
  let! r := owner_task o in
  if negb (r =? 0) then ret r
  else
  let b := m_buffer (if message_ then message_map o else work o) in
  if (b =? 0) || published o then ret (- EINVAL)
  else
  let! _ := do_ (Get_dma_buf b) in
  let! r := call_ (Dma_buf_fd b) in
  let! _ := when (r <? 0) (do_ (Dma_buf_put b)) in ret r.
Definition mt6878_pipeline_endpoint (o : mt6878_pipeline_owner) (client_ : ptr rpmsg_device) : pio (Z * mt6878_pipeline_owner) :=
  let! r := owner_task o in
  if negb (r =? 0) || null client_ then ret (if negb (r =? 0) then r else - EINVAL, o)
  else if negb (p_endpoint o =? 0) || negb (client_ept (pointee client_) =? 0) || negb (bool_decide (client_name (pointee client_) = camsys_name (o_session (p_ccd o))))
  then ret (- EINVAL, o)
  else
  let! e := call_ (Create_ept (addr client_) (u32 (o_session (p_ccd o) + 1))) in
  let o := set_ept o e (addr client_) in
  if e =? 0 then ret (- ENOMEM, o)
  else
  let! _ := do_ (Set_client_ept (addr client_) e) in ret (0, o).

Record mt6878_seninf_packet : Type := Packet { packet_vc : Z; packet_dt : Z; packet_length : Z }.
(** The loop over the packets; [raw_] and [pdaf_] count those seen. *)
Fixpoint packets_loop (raw_length pdaf_length raw_ pdaf_ : Z) (ps : list mt6878_seninf_packet) : Z :=
  match ps with
  | [] => if (raw_ =? 1) && (pdaf_ =? 1) then 0 else - EINVAL
  | p :: ps =>
    if negb (packet_vc p =? 0) then - EINVAL
    else if (packet_dt p =? 0x2b) && (packet_length p =? raw_length) then packets_loop raw_length pdaf_length (raw_ + 1) pdaf_ ps
    else if (packet_dt p =? 0x30) && (packet_length p =? pdaf_length) then packets_loop raw_length pdaf_length raw_ (pdaf_ + 1) ps
    else - EINVAL
  end.
Definition mt6878_seninf_check_packets (w h count : Z) (ps : list mt6878_seninf_packet) : Z :=
  if negb ((w =? 4000) && (h =? 3000) || (w =? 4096) && (h =? 2304)) || negb (count =? 2) then - EINVAL
  else packets_loop (u32 (w * h * 10) / 8) (u32 (w * (h / 4) * 10) / 8) 0 0 (firstn (Z.to_nat count) ps).
Definition packet_of (e : frame_desc_entry) : mt6878_seninf_packet := Packet (vc e) (dt e) (entry_length e).
Definition desc_refused (f : mbus_format) (d : frame_desc) : bool :=
  negb (code f =? MEDIA_BUS_FMT_SRGGB10_1X10) || negb (field f =? V4L2_FIELD_NONE) || negb (desc_type d =? V4L2_MBUS_FRAME_DESC_TYPE_CSI2) || negb (len (entries d) =? 2).
Definition bus_refused (b : mbus_config) : bool := negb (bus_type b =? V4L2_MBUS_CSI2_CPHY) || negb (bool_decide (data_lanes b = [0; 1; 2])).
(** The format the sensor reports, when it is one that is supported. *)
Definition sensor_format (s pad : Z) : pio (Z + mbus_format) :=
  let! a := ask (Get_fmt s pad) in
  match a with
  | Format st f =>
    if negb (st =? 0) then ret (inl st)
    else
    let! a := ask (Get_frame_desc s pad) in
    match a with
    | Desc st d =>
      if negb (st =? 0) then ret (inl st)
      else if desc_refused f d then ret (inl (- EINVAL))
      else
      let! a := ask (Get_mbus_config s pad) in
      match a with
      | Bus st b =>
        if negb (st =? 0) then ret (inl st)
        else if bus_refused b || existsb (fun e => negb (len_max e) || negb (stream e =? 0)) (entries d) then ret (inl (- EINVAL))
        else
        let r := mt6878_seninf_check_packets (f_width f) (f_height f) 2 (packet_of <$> entries d) in
        ret (if negb (r =? 0) then inl r else inr f)
      | _ => ret (inl (- EINVAL))
      end
    | _ => ret (inl (- EINVAL))
    end
  | _ => ret (inl (- EINVAL))
  end.
Definition mt6878_pipeline_bind (o : mt6878_pipeline_owner) (sensor_ : ptr v4l2_subdev) (pad : Z) (receiver_ : ptr v4l2_subdev)
    (capture : ptr mt6878_camera_capture_owner) : pio (Z * mt6878_pipeline_owner) :=
  let! r := owner_task o in
  if negb (r =? 0) then ret (r, o)
  else if null sensor_ || null receiver_ || null capture then ret (- EINVAL, o)
  else
  match c_resources (pointee capture) with
  | None => ret (- EINVAL, o)
  | Some res =>
    if (num_pads (pointee sensor_) <=? pad) || (num_pads (pointee receiver_) =? 0) then ret (- EINVAL, o)
    else
    let! a := ask (Find_link (addr sensor_) pad (addr receiver_)) in
    match a with
    | Link l enabled =>
      if (l =? 0) || negb enabled || negb (c_allocator (pointee capture) =? dma_owner o) || negb (r_domain res =? domain o) then ret (- EXDEV, o)
      else if negb (link_validate (pointee receiver_)) then ret (- EOPNOTSUPP, o)
      else
      let! r := call_ (Link_validate l) in
      if negb (r =? 0) then ret (r, o)
      else
      let! q := sensor_format (addr sensor_) pad in
      match q with
      | inl r => ret (r, o)
      | inr f =>
        if negb (sensor o =? 0) || published o then ret (- EALREADY, o)
        else ret (0, set_sensor o (addr capture) (addr sensor_) (addr receiver_) pad (f_width f) (f_height f))
      end
    | _ => ret (- EXDEV, o)
    end
  end.

(** ** Publication *)

Definition plane_matches (o : mt6878_pipeline_owner) (b : ptr vb2_v4l2_buffer) (r : mt6878_camsv_buffer) : Z :=
  let v := pointee b in
  if null b || (vb2_queue v =? 0) || negb (num_planes v =? 1) || negb (active v) || negb (queue_dev v =? dma_owner o) || negb (dma_contig v) || (plane_cookie v =? 0)
     || negb (plane_size v =? bsize r) || negb (plane_dma v =? dma r)
  then - EXDEV else 0.
(** The output of one tag as the message describes it. *)
Definition output_of (j : mt6878_camsv_job) (l : mt6878_camsv_dma_layout) (b : mt6878_camsv_buffer) : mtkcam_ipi_img_output :=
  ImgOutput (Uid (u8 (sv_id j + MTKCAM_SUBDEV_CAMSV_START)) MTKCAM_IPI_CAMSV_MAIN_OUT)
    (PixFmt (format l) (u16 (width l)) (u16 (height l)) (u16 (bytesperline l) :: repeat 0 3))
    ((IpiBuffer (dma b) 0 (bsize b) :: repeat zero_ipi 3) :: repeat (repeat zero_ipi CAM_MAX_PLANENUM) 31) (Crop 0 0 0 0).
Definition set_cpu (m : mt6878_pipeline_mapping) (f : mtkcam_ipi_frame_param) (a : bool) : mt6878_pipeline_mapping :=
  Mapping (m_buffer m) (attachment m) (sgt m) (Ptr (addr (va m)) f) (range m) a (vmap_acquired m).
Definition fill_message (o : mt6878_pipeline_owner) (j : mt6878_camsv_job) : pio (Z * mt6878_pipeline_owner) :=
  let! h := call_ Kcalloc in
  if h =? 0 then ret (- ENOMEM, o)
  else
  let m := message_map o in
  let! r := call_ (Begin_cpu_access (m_buffer m)) in
  if negb (r =? 0) then let! _ := do_ (Kfree h) in ret (r, o)
  else
  let '(r, f) := mt6878_camera_frame (va m) (Some j) 0 (bsize (range (work o))) (bsize (range (work o)))
    (Ptr h (output_of j (raw_layout j) (raw j))) (Ptr (u64 (h + sizeof_img_output)) (output_of j (pdaf_layout j) (pdaf j))) in
  let! c := call_ (End_cpu_access (m_buffer m)) in
  let! _ := do_ (Kfree h) in
  ret (if r =? 0 then c else r, set_maps o (work o) (set_cpu m f (negb (c =? 0)))).
(** [captured] is the capture owner at an address. *)
Definition job_refused (captured : Z -> option mt6878_camera_capture_owner) (o : mt6878_pipeline_owner) (j : mt6878_camsv_job) (w m : Z) (raw_ pdaf_ : ptr vb2_v4l2_buffer) : bool :=
  negb (w =? m_buffer (work o)) || negb (m =? m_buffer (message_map o)) || negb (jwidth j =? p_width o) || negb (jheight j =? p_height o)
  || negb (plane_matches o raw_ (raw j) =? 0) || negb (plane_matches o pdaf_ (pdaf j) =? 0)
  || negb (match captured (p_capture o) ≫= c_resources with Some res => sv_id j =? r_sv_id res | None => false end)
  || negb (Z.shiftr (sequence j) 24 =? o_session (p_ccd o))
  || mt6878_camsv_overlap (range (work o)) (raw j) || mt6878_camsv_overlap (range (work o)) (pdaf j)
  || mt6878_camsv_overlap (range (message_map o)) (raw j) || mt6878_camsv_overlap (range (message_map o)) (pdaf j).
Definition announce (o : mt6878_pipeline_owner) (config : option mtkcam_ipi_config_param) (j : mt6878_camsv_job) (work_fd message_fd : Z) : pio (Z * mt6878_pipeline_owner) :=
  let! q := fill_message o j in
  if negb (q.1 =? 0) then ret (q.1, pipeline_error q.2 q.1)
  else
  let o := set_published q.2 j in
  let params := SessionParam (IpiBuffer (dma (range (work o))) (u32 work_fd) (bsize (range (work o)))) (IpiBuffer 0 (u32 message_fd) (bsize (range (message_map o)))) in
  let! q := transport (mt6878_camera_ccd_create (p_ccd o) (Some params)) in
  let! q := (if q.1 =? 0 then transport (mt6878_camera_ccd_config q.2 config) else ret q) in
  let o := set_ccd o q.2 in
  ret (q.1, if negb (q.1 =? 0) then pipeline_error o q.1 else o).
Definition mt6878_pipeline_publish (captured : Z -> option mt6878_camera_capture_owner) (o : mt6878_pipeline_owner) (config : option mtkcam_ipi_config_param)
    (job_ : option mt6878_camsv_job) (resources : option mt6878_camsv_recipe_resources) (work_fd message_fd : Z) (raw_ pdaf_ : ptr vb2_v4l2_buffer) : pio (Z * mt6878_pipeline_owner) :=
  let! r := owner_task o in
  if negb (r =? 0) then ret (r, o)
  else if (sensor o =? 0) || (p_endpoint o =? 0) || callbacks_detached o || callback_closed o || published o || negb (p_error o =? 0)
          || (m_buffer (work o) =? 0) || (m_buffer (message_map o) =? 0)
  then ret (- EINVAL, o)
  else
  let r := mt6878_camsv_recipe_inputs job_ config resources in
  if negb (r =? 0) then ret (r, o)
  else
  match job_ with
  | None => ret (r, o)
  | Some j =>
    let! w := call_ (Dma_buf_get work_fd) in
    if IS_ERR w then ret (w, o)
    else
    let! m := call_ (Dma_buf_get message_fd) in
    let! q := (if IS_ERR m then ret (m, o)
               else
               let! q := (if job_refused captured o j w m raw_ pdaf_ then ret (- EXDEV, o) else announce o config j work_fd message_fd) in
               let! _ := do_ (Dma_buf_put m) in ret q) in
    let! _ := do_ (Dma_buf_put w) in ret q
  end.
(** The status, the owner and [*cq]. *)
Definition mt6878_pipeline_compose (o : mt6878_pipeline_owner) (timeout_ms : Z) (cq_ : option mt6878_camsv_buffer) : pio (Z * mt6878_pipeline_owner * option mt6878_camsv_buffer) :=
  let! r := owner_task o in
  match cq_ with
  | None => ret (if negb (r =? 0) then r else - EINVAL, o, cq_)
  | Some _ =>
    if negb (r =? 0) then ret (r, o, cq_)
    else if negb (published o) || callbacks_detached o || callback_closed o || negb (p_error o =? 0)
    then ret (if negb (p_error o =? 0) then p_error o else - ENOTCONN, o, cq_)
    else
    let! q := transport (mt6878_camera_ccd_frame (p_ccd o) (sequence (p_job o)) 0 sizeof_frame_param timeout_ms (Some (zeros 75))) in
    let o := set_ccd o q.1.2 in
    if negb (q.1.1 =? 0) then ret (q.1.1, pipeline_error o q.1.1, cq_)
    else
    let '(r, _, result_) := mt6878_camera_ack (Some (CameraReply (o_session (p_ccd o)) (sequence (p_job o)) 0 0)) q.2 75 (Some (range (work o))) (Some zero_buffer) in
    let b := default zero_buffer result_ in
    let r := if negb (r =? 0) then r
             else if negb (dma b =? dma (range (work o))) || negb (bsize b =? MT6878_CAMSV_RECIPE_WRITES * 12 + 12) then - EPROTO else 0 in
    if negb (r =? 0) then ret (r, pipeline_error o r, cq_) else ret (0, o, Some b)
  end.

(** ** Callbacks *)

(** The callback's first and last section; between them it calls [mt6878_camera_ccd_rx]. *)
Definition rx_enter (o : mt6878_pipeline_owner) : option mt6878_pipeline_owner :=
  if callback_closed o || (callback_users o =? UINT32_MAX) then None else Some (set_callback o (u32 (callback_users o + 1)) (callback_closed o) (callbacks_detached o)).
Definition rx_leave (o : mt6878_pipeline_owner) : mt6878_pipeline_owner := set_callback o (u32 (callback_users o - 1)) (callback_closed o) (callbacks_detached o).
Definition rx_call (o : mt6878_pipeline_owner) (a : arrival) : mt6878_pipeline_owner := set_ccd o (mt6878_camera_ccd_rx (p_ccd o) a).2.
Definition mt6878_pipeline_close_callback_gate (o : mt6878_pipeline_owner) : Z * mt6878_pipeline_owner :=
  (if negb (callback_users o =? 0) then - EBUSY else 0, set_callback o (callback_users o) true (callbacks_detached o)).
Definition close_session (g : mt6878_camera_ccd_session) : mt6878_camera_ccd_session :=
  CcdSession (session g) (pending g) 1 (command g) (cookie g) (frame_started g) (flush_started g) (flushed g) (destroy_started g) (destroyed g) (result g) (reply g).
Definition detach_transport (c : mt6878_camera_ccd_owner) : mt6878_camera_ccd_owner := set_endpoint (set_gate c (completion c) (close_session (gate c))) None (client c).
Definition mt6878_pipeline_detach_callbacks (o : mt6878_pipeline_owner) : pio (Z * mt6878_pipeline_owner) :=
  let! r := owner_task o in
  if negb (r =? 0) then ret (r, o)
  else
  let! l := call_ Trylock_owner in
  if l =? 0 then ret (- EBUSY, o)
  else if (p_endpoint o =? 0) || callbacks_detached o then ret (- EINVAL, o)
  else
  let! l := call_ Trylock_ccd in
  if l =? 0 then ret (- EBUSY, o)
  else
  let! ours := call_ (Endpoint_is_ours (p_endpoint o)) in
  let '(r, o) := if ours =? 0 then (- ESTALE, o) else mt6878_pipeline_close_callback_gate o in
  if negb (r =? 0) then ret (r, o)
  else ret (0, set_callback (set_ccd o (detach_transport (p_ccd o))) (callback_users o) (callback_closed o) true).
Definition hardware_attempted (c : option mt6878_camera_capture_owner) : bool :=
  match c ≫= c_pair with Some p => negb (hw_attempted (tx p) =? 0) | None => false end.
Definition mt6878_pipeline_release (captured : Z -> option mt6878_camera_capture_owner) (o : mt6878_pipeline_owner) : pio (Z * mt6878_pipeline_owner) :=
  let! r := owner_task o in
  if negb (r =? 0) then ret (r, o)
  else if negb (p_endpoint o =? 0) || published o || cpu_active (work o) || cpu_active (message_map o) || hardware_attempted (if p_capture o =? 0 then None else captured (p_capture o))
  then ret (- EBUSY, o)
  else
  let! o := unmap_both o in
  let! _ := do_ (Put_device (dma_owner o)) in
  let! _ := do_ (Put_task (consumer o)) in
  ret (0, set_owner o 0 0).
Definition mt6878_pipeline_start (o : option mt6878_pipeline_owner) : Z := match o with Some _ => - EOPNOTSUPP | None => - EINVAL end.

(** ** Resources *)

Inductive resource : Type :=
| RRef (b : Z) | RAtt (b a : Z) | RMap (a s : Z) | RVmap (b : Z) | RHeap (p : Z) | RTask (t : Z) | RDev (d : Z) | REpt (e : Z).
Definition acquired (e : pipeline_request * pipeline_answer) : list resource :=
  match e.1 with
  | Get_dma_buf b => [RRef b]
  | Dma_buf_get _ => if IS_ERR (num e.2) then [] else [RRef (num e.2)]
  | Attach b _ => if IS_ERR (num e.2) || (num e.2 =? 0) then [] else [RAtt b (num e.2)]
  | Map_attachment a => if IS_ERR (sgt_at (sg_of e.2)) || (sgt_at (sg_of e.2) =? 0) then [] else [RMap a (sgt_at (sg_of e.2))]
  | Vmap b => match e.2 with Vmapped st _ _ _ => if st =? 0 then [RVmap b] else [] | _ => [] end
  | Kcalloc => if num e.2 =? 0 then [] else [RHeap (num e.2)]
  | Get_task t => [RTask t]
  | Get_device d => [RDev d]
  | Create_ept _ _ => if num e.2 =? 0 then [] else [REpt (num e.2)]
  | _ => []
  end.
(** A descriptor that is installed takes the reference over. *)
Definition released (e : pipeline_request * pipeline_answer) : list resource :=
  match e.1 with
  | Dma_buf_put b => [RRef b]
  | Dma_buf_fd b => if num e.2 <? 0 then [] else [RRef b]
  | Detach b a => [RAtt b a]
  | Unmap_attachment a s => [RMap a s]
  | Vunmap b => [RVmap b]
  | Kfree p => [RHeap p]
  | Put_task t => [RTask t]
  | Put_device d => [RDev d]
  | _ => []
  end.
Abbreviation accounts := (moves acquired released).

(** A program that starts with [h] and leaves what [post] says. *)
Definition spends {A} (h : list resource) (m : pio A) (post : A -> list resource -> Prop) : Prop := performs m (fun a s => exists h', accounts h s h' /\ post a h').
Lemma spends_ret {A} (a : A) h (post : A -> list resource -> Prop) : post a h -> spends h (ret a) post.
Proof. intros H. unfold spends. trace_step. exists h. split; [now apply moves_nil|exact H]. Qed.
Lemma spends_bind {A B} h (m : pio A) (k : A -> pio B) R post : spends h m R -> (forall a h1, R a h1 -> spends h1 (k a) post) -> spends h (bind m k) post.
Proof.
  intros Hm Hk. eapply performs_bind; [exact Hm|]. intros a s (h1 & M1 & Ha). eapply performs_impl; [apply (Hk a h1 Ha)|]. intros b s' (h2 & M2 & Hb). exists h2. split; [eapply moves_app; eassumption|exact Hb].
Qed.
Lemma spends_ask q h (post : pipeline_answer -> list resource -> Prop) :
  (forall a, exists h1, h ≡ₚ released (q, a) ++ h1 /\ post a (acquired (q, a) ++ h1)) -> spends h (ask q) post.
Proof. intros H. unfold spends. trace_step. destruct (H p) as (h1 & E & Hp). exists (acquired (q, p) ++ h1). split; [|exact Hp]. eapply (moves_cons _ _ _ h1); [exact E|now apply moves_nil]. Qed.
Lemma spends_perm {A} h1 h2 (m : pio A) post : h1 ≡ₚ h2 -> spends h2 m post -> spends h1 m post.
Proof. intros E H. eapply performs_impl; [exact H|]. intros a s (h' & M & P). exists h'. split; [eapply moves_perm; eassumption|exact P]. Qed.
Lemma spends_post {A} h (m : pio A) (R post : A -> list resource -> Prop) : spends h m R -> (forall a h', R a h' -> post a h') -> spends h m post.
Proof. intros H HR. eapply performs_impl; [exact H|]. intros a s (h' & M & P). eauto. Qed.
Lemma spends_frame {A} h k (m : pio A) R : spends h m R -> spends (h ++ k) m (fun a h' => exists h0, h' = h0 ++ k /\ R a h0).
Proof. intros H. eapply performs_impl; [exact H|]. intros a s (h' & M & P). exists (h' ++ k). split; [now apply moves_frame|eauto]. Qed.
Lemma spends_if {A} (b : bool) h (m m' : pio A) post : (b = true -> spends h m post) -> (b = false -> spends h m' post) -> spends h (if b then m else m') post.
Proof. destruct b; auto. Qed.
(** Requests that take and give nothing. *)
Definition quiet (q : pipeline_request) : Prop := forall a, acquired (q, a) = [] /\ released (q, a) = [].
Lemma spends_quiet q h (post : pipeline_answer -> list resource -> Prop) : quiet q -> (forall a, post a h) -> spends h (ask q) post.
Proof. intros Hq H. apply spends_ask. intros a. destruct (Hq a) as [-> ->]. exists h. auto. Qed.
Lemma spends_call q h (post : Z -> list resource -> Prop) : quiet q -> (forall z, post z h) -> spends h (call_ q) post.
Proof. intros Hq H. unfold call_. eapply spends_bind; [apply (spends_quiet _ _ (fun _ h' => h' = h) Hq); reflexivity|]. intros a h1 ->. now apply spends_ret. Qed.
Lemma spends_do q h (post : unit -> list resource -> Prop) :
  (forall a, exists h1, h ≡ₚ released (q, a) ++ h1 /\ post tt (acquired (q, a) ++ h1)) -> spends h (do_ q) post.
Proof. intros H. unfold do_. eapply spends_bind; [apply (spends_ask _ _ (fun _ h' => post tt h')), H|]. intros a h1 Ha. now apply spends_ret. Qed.
Lemma spends_transport {A} (m : ccd A) (R : A -> trace ccd_request ccd_answer -> Prop) h : performs m R -> spends h (transport m) (fun a h' => h' = h /\ exists s, R a s).
Proof.
  intros H. eapply performs_impl; [apply performs_via, H|]. intros a s (s0 & -> & Ha). exists h. split; [|eauto].
  apply moves_quiet_all. apply Forall_forall. intros e He. apply list_elem_of_fmap in He as (x & -> & _). split; reflexivity.
Qed.

Definition holdings (m : mt6878_pipeline_mapping) : list resource :=
  (if vmap_acquired m then [RVmap (m_buffer m)] else []) ++ (if negb (sgt m =? 0) then [RMap (attachment m) (sgt m)] else []) ++
  (if negb (attachment m =? 0) then [RAtt (m_buffer m) (attachment m)] else []) ++ (if negb (m_buffer m =? 0) then [RRef (m_buffer m)] else []).
Lemma spends_when {A} (b : bool) q r h (k : unit -> pio A) post : (forall a, released (q, a) = [r] /\ acquired (q, a) = []) -> spends h (k tt) post ->
  spends ((if b then [r] else []) ++ h) (bind (when b (do_ q)) k) post.
Proof.
  intros Hq H. eapply (spends_bind _ _ _ (fun _ h' => h' = h)); [|intros [] h1 ->; exact H].
  unfold when. destruct b; [apply spends_do; intros a; destruct (Hq a) as [-> ->]; exists h; auto|now apply spends_ret].
Qed.
Lemma unmap_spends m : cpu_active m = false -> spends (holdings m) (mt6878_pipeline_unmap m) (fun m' h => m' = zero_mapping /\ h = []).
Proof.
  intros Hc. unfold mt6878_pipeline_unmap. rewrite Hc. unfold holdings. do 3 (apply spends_when; [now split|]).
  rewrite <- (app_nil_r (if negb (m_buffer m =? 0) then _ else _)). apply spends_when; [now split|]. now apply spends_ret.
Qed.
(** A mapping that was made holds everything; one that failed holds nothing. *)
Definition complete (m : mt6878_pipeline_mapping) : Prop := m_buffer m <> 0 /\ cpu_active m = false.
Lemma map_spends m b d min : spends [] (mt6878_pipeline_map m b d min) (fun q h => (q.1 <> 0 /\ q.2 = m /\ h = []) \/ (q.1 = 0 /\ m_buffer m = 0 /\ complete q.2 /\ h ≡ₚ holdings q.2)).
Proof.
  unfold mt6878_pipeline_map. cbv zeta.
  assert (Hfail : forall h v r, cpu_active v = false -> h ≡ₚ holdings v -> r <> 0 ->
    spends h (let! _ := mt6878_pipeline_unmap v in ret (r, m)) (fun q h => (q.1 <> 0 /\ q.2 = m /\ h = []) \/ (q.1 = 0 /\ m_buffer m = 0 /\ complete q.2 /\ h ≡ₚ holdings q.2))).
  { intros h v r Hc Hh Hr. eapply spends_perm; [exact Hh|]. eapply spends_bind; [now apply unmap_spends|]. intros m' h' [_ ->]. apply spends_ret. left. auto. }
  assert (Herr : forall z, IS_ERR z = true -> z <> 0) by (unfold IS_ERR; lia).
  apply spends_if; intros G; [apply spends_ret; left; cbn [fst]; split; [lia|auto]|]. assert (Hm : m_buffer m = 0) by lia. assert (Hb : (b =? 0) = false) by lia. clear G.
  eapply (spends_bind _ _ _ (fun _ h => h = [RRef b])); [apply spends_do; intros a; exists []; auto|]. intros _ h ->.
  eapply (spends_bind _ _ _ (fun z h => h = (if IS_ERR z || (z =? 0) then [] else [RAtt b z]) ++ [RRef b])).
  { unfold call_. eapply (spends_bind _ _ _ (fun a h => h = acquired (Attach b d, a) ++ [RRef b])); [apply spends_ask; intros a; exists [RRef b]; auto|]. intros a h ->. now apply spends_ret. }
  intros att h ->. apply spends_if; intros Ga. { rewrite Ga. apply Hfail; [reflexivity|unfold holdings; cbn; now rewrite Hb|now apply Herr]. }
  rewrite Ga. cbn [orb]. set (hatt := (if att =? 0 then [] else [RAtt b att]) ++ [RRef b]).
  eapply (spends_bind _ _ _ (fun a h => h = acquired (Map_attachment att, a) ++ hatt)); [apply spends_ask; intros a; exists hatt; auto|]. intros a h ->. cbn [acquired fst snd]. set (z := sgt_at (sg_of a)).
  assert (Hatt : hatt = (if negb (att =? 0) then [RAtt b att] else []) ++ (if negb (b =? 0) then [RRef b] else [])) by (unfold hatt; rewrite Hb; now destruct (att =? 0)).
  apply spends_if; intros Gs. { rewrite Gs. apply Hfail; [reflexivity|unfold holdings; cbn [vmap_acquired sgt attachment m_buffer Z.eqb negb orb app]; now rewrite Hatt|now apply Herr]. }
  rewrite Gs. cbn [orb]. set (hsgt := (if z =? 0 then [] else [RMap att z]) ++ hatt).
  assert (Hsgt : hsgt = (if negb (z =? 0) then [RMap att z] else []) ++ (if negb (att =? 0) then [RAtt b att] else []) ++ (if negb (b =? 0) then [RRef b] else [])) by (unfold hsgt; rewrite Hatt; now destruct (z =? 0)).
  apply spends_if; intros Gr; [apply Hfail; [reflexivity|unfold holdings; cbn [vmap_acquired sgt attachment m_buffer app]; now rewrite Hsgt|lia]|].
  apply spends_if; intros Gt; [apply Hfail; [reflexivity|unfold holdings; cbn [vmap_acquired sgt attachment m_buffer app]; now rewrite Hsgt|lia]|].
  eapply (spends_bind _ _ _ (fun a h => h = acquired (Vmap b, a) ++ hsgt)); [apply spends_ask; intros a'; exists hsgt; auto|]. intros a' h ->. cbn [acquired fst snd].
  destruct a' as [|? |st n io v| | | | | |]; try (apply Hfail; [reflexivity|unfold holdings; cbn [vmap_acquired sgt attachment m_buffer app]; now rewrite Hsgt|lia]).
  destruct (Z.eqb_spec st 0) as [->|Hst]; cbn [negb]; [|apply Hfail; [reflexivity|unfold holdings; cbn [vmap_acquired sgt attachment m_buffer app]; now rewrite Hsgt|exact Hst]].
  apply spends_if; intros Gn; [apply Hfail; [reflexivity|unfold holdings; cbn [vmap_acquired sgt attachment m_buffer]; now rewrite Hsgt|lia]|].
  apply spends_ret. right. split; [reflexivity|]. split; [exact Hm|]. split; [split; [cbn; lia|reflexivity]|]. unfold holdings. cbn [snd vmap_acquired sgt attachment m_buffer]. now rewrite Hsgt.
Qed.

Definition held_if (z : Z) (r : resource) : list resource := if negb (z =? 0) then [r] else [].
Definition owned (o : mt6878_pipeline_owner) : list resource :=
  (holdings (work o) ++ holdings (message_map o)) ++ held_if (consumer o) (RTask (consumer o)) ++ held_if (dma_owner o) (RDev (dma_owner o)) ++ held_if (p_endpoint o) (REpt (p_endpoint o)).
(** An absent mapping holds nothing, an owner with a task has its device, and no command waits between calls. *)
Definition tidy (m : mt6878_pipeline_mapping) : Prop := m_buffer m = 0 -> holdings m = [] /\ cpu_active m = false.
Definition wf (o : mt6878_pipeline_owner) : Prop := tidy (work o) /\ tidy (message_map o) /\ (consumer o <> 0 -> dma_owner o <> 0) /\ idle (p_ccd o).
(** A call that keeps the books. *)
Definition kept (o : mt6878_pipeline_owner) (h : list resource) : Prop := wf o /\ h ≡ₚ owned o.
Lemma tidy_zero : tidy zero_mapping.
Proof. intros _. split; reflexivity. Qed.
Lemma unmap_both_spends o : cpu_active (work o) = false -> cpu_active (message_map o) = false ->
  spends (holdings (work o) ++ holdings (message_map o)) (unmap_both o) (fun o' h => o' = set_maps o zero_mapping zero_mapping /\ h = []).
Proof.
  intros Hw Hm. unfold unmap_both. eapply spends_perm; [apply Permutation_app_comm|].
  eapply spends_bind; [apply spends_frame, unmap_spends, Hm|]. intros m h (h0 & -> & -> & ->). cbn [app].
  eapply spends_bind; [apply unmap_spends, Hw|]. intros w h (-> & ->). now apply spends_ret.
Qed.
Lemma import_both_spends o w m : tidy (work o) -> tidy (message_map o) -> m_buffer (work o) = 0 -> m_buffer (message_map o) = 0 ->
  spends [] (import_both o w m) (fun q h => q.2 = set_maps o (work q.2) (message_map q.2) /\ tidy (work q.2) /\ tidy (message_map q.2) /\ h ≡ₚ holdings (work q.2) ++ holdings (message_map q.2)).
Proof.
  intros Tw Tm Bw Bm. destruct (Tw Bw) as [Hw Cw], (Tm Bm) as [Hm Cm]. unfold import_both.
  apply spends_if; intros G; [apply spends_ret; cbn [snd]; rewrite Hw, Hm; destruct o; auto|].
  eapply spends_bind; [apply map_spends|]. intros q h Hq. set (o1 := set_maps o q.2 (message_map o)).
  assert (H1 : h ≡ₚ holdings (work o1) ++ holdings (message_map o1) /\ tidy (work o1) /\ cpu_active (work o1) = false).
  { cbn [o1 set_maps work message_map]. rewrite Hm, app_nil_r. destruct Hq as [(_ & -> & ->)|(_ & _ & [B C] & ->)]; [rewrite Hw; auto|]. split; [reflexivity|]. split; [intros X; contradiction|exact C]. }
  destruct H1 as (P1 & T1 & C1).
  eapply (spends_bind _ _ _ (fun q h => q.2 = set_maps o (work q.2) (message_map q.2) /\ (tidy (work q.2) /\ cpu_active (work q.2) = false) /\ (tidy (message_map q.2) /\ cpu_active (message_map q.2) = false) /\
    h ≡ₚ holdings (work q.2) ++ holdings (message_map q.2))).
  { apply spends_if; intros Gz; [|apply spends_ret; cbn [snd]; auto]. eapply spends_perm; [exact P1|]. cbn [o1 set_maps work message_map]. rewrite Hm, app_nil_r. change (holdings q.2) with ([] ++ holdings q.2).
    eapply spends_bind; [apply spends_frame, map_spends|]. intros q2 h2 (h0 & -> & H2). apply spends_ret. cbn [snd set_maps work message_map]. split; [reflexivity|]. split; [auto|].
    destruct H2 as [(_ & -> & ->)|(_ & _ & [B C] & ->)]; [rewrite Hm; split; [auto|now rewrite app_nil_r]|]. split; [split; [intros X; contradiction|exact C]|apply Permutation_app_comm]. }
  intros q2 h2 (E2 & (T2 & C2) & (T3 & C3) & P2). cbv zeta. apply spends_if; intros Gr; [|apply spends_ret; cbn [snd]; auto].
  eapply spends_perm; [exact P2|]. eapply spends_bind; [now apply unmap_both_spends|]. intros o' h' (-> & ->). apply spends_ret. cbn [snd set_maps work message_map].
  split; [rewrite E2; reflexivity|]. split; [apply tidy_zero|]. split; [apply tidy_zero|reflexivity].
Qed.
Lemma owner_task_spends o h : spends h (owner_task o) (fun r h' => h' = h /\ (r = 0 -> consumer o <> 0)).
Proof.
  unfold owner_task, current. eapply (spends_bind _ _ _ (fun t h' => h' = h /\ t.1 <> 0)).
  { eapply (spends_bind _ _ _ (fun _ h' => h' = h)); [apply spends_quiet; [now split|reflexivity]|]. intros a h1 ->. apply spends_ret. split; [reflexivity|]. destruct a; cbn; lia. }
  intros t h1 [-> Ht]. apply spends_if; intros G; [apply spends_ret; split; [reflexivity|lia]|]. eapply (spends_bind _ _ _ (fun _ h' => h' = h)); [apply spends_call; [now split|reflexivity]|].
  intros d h1 ->. apply spends_ret. split; [reflexivity|]. lia.
Qed.
(** Getting a descriptor's buffer, and putting it back. *)
Lemma get_spends fd h : spends h (call_ (Dma_buf_get fd)) (fun z h' => h' = (if IS_ERR z then [] else [RRef z]) ++ h).
Proof.
  unfold call_. eapply (spends_bind _ _ _ (fun a h' => h' = acquired (Dma_buf_get fd, a) ++ h)); [apply spends_ask; intros a; exists h; auto|]. intros a h1 ->. now apply spends_ret.
Qed.
Lemma put_spends {A} b h (k : unit -> pio A) post : spends h (k tt) post -> spends (RRef b :: h) (bind (do_ (Dma_buf_put b)) k) post.
Proof. intros H. eapply (spends_bind _ _ _ (fun _ h' => h' = h)); [apply spends_do; intros a; exists h; auto|]. intros [] h1 ->. exact H. Qed.
Lemma import_spends o wfd mfd : wf o -> spends (owned o) (mt6878_pipeline_import o wfd mfd) (fun q h => kept q.2 h).
Proof.
  intros (Tw & Tm & Hd & Hi). assert (Hsame : forall r, spends (owned o) (ret (r, o)) (fun (q : Z * mt6878_pipeline_owner) h => kept q.2 h)) by (intros r; apply spends_ret; split; [now split|reflexivity]).
  unfold mt6878_pipeline_import. eapply spends_bind; [apply owner_task_spends|]. intros r h [-> _]. apply spends_if; intros G; [apply Hsame|]. apply spends_if; intros G2; [apply Hsame|].
  assert (Bw : m_buffer (work o) = 0) by lia. assert (Bm : m_buffer (message_map o) = 0) by lia. destruct (Tw Bw) as [Hw _], (Tm Bm) as [Hm _].
  eapply spends_bind; [apply get_spends|]. intros w h ->. apply spends_if; intros Gw; rewrite Gw; [apply Hsame|].
  eapply spends_bind; [apply get_spends|]. intros m h ->. cbn [app].
  eapply (spends_bind _ _ _ (fun q h => exists h0, h = RRef w :: h0 /\ kept q.2 h0)).
  { apply spends_if; intros Gm; rewrite Gm; cbn [app].
    - apply spends_ret. exists (owned o). split; [reflexivity|]. split; [now split|reflexivity].
    - eapply (spends_perm _ ([] ++ RRef m :: RRef w :: owned o)); [reflexivity|]. eapply spends_bind; [apply spends_frame, (import_both_spends o w m Tw Tm Bw Bm)|].
      intros q h (h0 & -> & E & T1 & T2 & P). eapply (spends_perm _ (RRef m :: RRef w :: (holdings (work q.2) ++ holdings (message_map q.2)) ++ owned o)); [now rewrite P, <- !Permutation_middle|].
      apply put_spends, spends_ret. eexists. split; [reflexivity|]. split; [rewrite E; split; [exact T1|]; split; [exact T2|]; split; [exact Hd|exact Hi]|]. unfold owned at 1. rewrite Hw, Hm. now rewrite E. }
  intros q h (h0 & -> & K). apply put_spends, spends_ret, K.
Qed.

(** A program that takes and gives nothing. *)
Definition hushed {A} (m : pio A) : Prop := forall h, spends h m (fun _ h' => h' = h).
Lemma hushed_ret {A} (a : A) : hushed (ret a).
Proof. intros h. now apply spends_ret. Qed.
Lemma hushed_ask {A} q (k : pipeline_answer -> pio A) : quiet q -> (forall a, hushed (k a)) -> hushed (bind (ask q) k).
Proof. intros Hq Hk h. eapply (spends_bind _ _ _ (fun _ h' => h' = h)); [apply spends_quiet; auto|]. intros a h1 ->. apply Hk. Qed.
Lemma hushed_call {A} q (k : Z -> pio A) : quiet q -> (forall a, hushed (k a)) -> hushed (bind (call_ q) k).
Proof. intros Hq Hk h. eapply (spends_bind _ _ _ (fun _ h' => h' = h)); [apply spends_call; auto|]. intros a h1 ->. apply Hk. Qed.
Lemma hushed_if {A} (b : bool) (m m' : pio A) : hushed m -> hushed m' -> hushed (if b then m else m').
Proof. now destruct b. Qed.
Lemma sensor_format_hushed x pad : hushed (sensor_format x pad).
Proof.
  unfold sensor_format. apply hushed_ask; [now split|]. intros [| | | | |st f| | |]; try apply hushed_ret. apply hushed_if; [apply hushed_ret|].
  apply hushed_ask; [now split|]. intros [| | | | | |st' d| |]; try apply hushed_ret. apply hushed_if; [apply hushed_ret|]. apply hushed_if; [apply hushed_ret|].
  apply hushed_ask; [now split|]. intros [| | | | | | |st'' b|]; try apply hushed_ret. apply hushed_if; [apply hushed_ret|]. apply hushed_if; apply hushed_ret.
Qed.
(** An owner that holds the same. *)
Definition same_holdings (o o' : mt6878_pipeline_owner) : Prop :=
  (holdings (work o') = holdings (work o) /\ holdings (message_map o') = holdings (message_map o)) /\ consumer o' = consumer o /\ dma_owner o' = dma_owner o /\ p_endpoint o' = p_endpoint o.
Lemma kept_same o o' : same_holdings o o' -> tidy (work o') -> tidy (message_map o') -> wf o -> idle (p_ccd o') -> kept o' (owned o).
Proof.
  intros ((A1 & A2) & A3 & A4 & A5) Tw Tm (_ & _ & Hd & _) Hi. split; [split; [exact Tw|]; split; [exact Tm|]; split; [now rewrite A3, A4|exact Hi]|]. unfold owned. now rewrite A1, A2, A3, A4, A5.
Qed.
Lemma kept_refl o : wf o -> kept o (owned o).
Proof. intros H. split; [exact H|reflexivity]. Qed.
Lemma export_spends o b : wf o -> spends (owned o) (mt6878_pipeline_export o b) (fun _ h => kept o h).
Proof.
  intros Hw. unfold mt6878_pipeline_export. eapply spends_bind; [apply owner_task_spends|]. intros r h [-> _]. apply spends_if; intros G; [now apply spends_ret, kept_refl|]. cbv zeta.
  apply spends_if; intros G2; [now apply spends_ret, kept_refl|]. set (x := m_buffer _). eapply (spends_bind _ _ _ (fun _ h => h = RRef x :: owned o)); [apply spends_do; intros a; exists (owned o); auto|].
  intros _ h ->. eapply (spends_bind _ _ _ (fun z h => h = (if z <? 0 then [RRef x] else []) ++ owned o)).
  { unfold call_. eapply (spends_bind _ _ _ (fun a h => h = (if num a <? 0 then [RRef x] else []) ++ owned o)).
    - apply spends_ask. intros a. cbn [released acquired fst snd app]. destruct (num a <? 0); [exists (RRef x :: owned o)|exists (owned o)]; auto.
    - intros a h ->. now apply spends_ret. }
  intros z h ->. apply spends_when; [now split|]. now apply spends_ret, kept_refl.
Qed.
Lemma endpoint_spends o c : wf o -> spends (owned o) (mt6878_pipeline_endpoint o c) (fun q h => kept q.2 h).
Proof.
  intros Hw. unfold mt6878_pipeline_endpoint. eapply spends_bind; [apply owner_task_spends|]. intros r h [-> _]. apply spends_if; intros G; [now apply spends_ret, kept_refl|].
  apply spends_if; intros G2; [now apply spends_ret, kept_refl|]. assert (He : p_endpoint o = 0) by lia.
  eapply (spends_bind _ _ _ (fun e h => h = held_if e (REpt e) ++ owned o)).
  { unfold call_. eapply (spends_bind _ _ _ (fun a h => h = acquired (Create_ept (addr c) (u32 (o_session (p_ccd o) + 1)), a) ++ owned o)); [apply spends_ask; intros a; exists (owned o); auto|].
    intros a h ->. apply spends_ret. cbn [acquired fst snd]. unfold held_if. now destruct (num a =? 0). }
  intros e h ->. destruct Hw as (T1 & T2 & Hd & Hi). assert (K : kept (set_ept o e (addr c)) (held_if e (REpt e) ++ owned o)).
  { split; [split; [exact T1|]; split; [exact T2|]; split; [exact Hd|]; cbn [set_ept p_ccd]; destruct (e =? 0); [exact Hi|destruct Hi; now split]|].
    unfold owned. cbn [set_ept work message_map consumer dma_owner p_endpoint]. rewrite He. unfold held_if at 4. cbn [Z.eqb negb]. rewrite app_nil_r. rewrite Permutation_app_comm. now rewrite <- !app_assoc. }
  cbv zeta. apply spends_if; intros Ge; [now apply spends_ret|]. eapply (spends_bind _ _ _ (fun _ h => h = held_if e (REpt e) ++ owned o)); [apply spends_do; intros a; exists (held_if e (REpt e) ++ owned o); auto|]. intros _ h ->. now apply spends_ret.
Qed.
Lemma bind_spends o x pad y c : wf o -> spends (owned o) (mt6878_pipeline_bind o x pad y c) (fun q h => kept q.2 h).
Proof.
  intros Hw. unfold mt6878_pipeline_bind. eapply spends_bind; [apply owner_task_spends|]. intros r h [-> _]. assert (K := kept_refl o Hw).
  apply spends_if; intros G; [now apply spends_ret|]. apply spends_if; intros G2; [now apply spends_ret|]. destruct (c_resources (pointee c)) as [res|]; [|now apply spends_ret].
  apply spends_if; intros G3; [now apply spends_ret|]. eapply (spends_bind _ _ _ (fun _ h => h = owned o)); [apply spends_quiet; [now split|reflexivity]|]. intros a h ->.
  destruct a as [| | | |l en| | | |]; try now apply spends_ret. apply spends_if; intros G4; [now apply spends_ret|]. apply spends_if; intros G5; [now apply spends_ret|].
  eapply (spends_bind _ _ _ (fun _ h => h = owned o)); [apply spends_call; [now split|reflexivity]|]. intros z h ->. apply spends_if; intros G6; [now apply spends_ret|].
  eapply spends_bind; [apply sensor_format_hushed|]. intros [z'|f] h ->; [now apply spends_ret|]. apply spends_if; intros G7; apply spends_ret; exact K.
Qed.

(** Filling the message changes only its contents and its access mark. *)
Definition refilled (o o' : mt6878_pipeline_owner) : Prop := o' = o \/ exists f a, o' = set_maps o (work o) (set_cpu (message_map o) f a).
Lemma refilled_same o o' : refilled o o' -> same_holdings o o' /\ p_ccd o' = p_ccd o /\ work o' = work o /\ range (message_map o') = range (message_map o) /\ m_buffer (message_map o') = m_buffer (message_map o).
Proof. intros [->|(f & a & ->)]; unfold same_holdings; auto 10. Qed.
Lemma fill_spends o j h : spends h (fill_message o j) (fun q h' => h' = h /\ refilled o q.2).
Proof.
  unfold fill_message. eapply (spends_bind _ _ _ (fun z h' => h' = held_if z (RHeap z) ++ h)).
  { unfold call_. eapply (spends_bind _ _ _ (fun a h' => h' = acquired (Kcalloc, a) ++ h)); [apply spends_ask; intros a; exists h; auto|].
    intros a h1 ->. apply spends_ret. cbn [acquired fst snd]. unfold held_if. now destruct (num a =? 0). }
  intros z h1 ->. unfold held_if. apply spends_if; intros G; rewrite G; cbn [negb app]; [apply spends_ret; cbn; split; [reflexivity|now left]|]. cbv zeta.
  assert (Hfree : forall A (k : unit -> pio A) post, spends h (k tt) post -> spends (RHeap z :: h) (bind (do_ (Kfree z)) k) post).
  { intros A k post H. eapply (spends_bind _ _ _ (fun _ h' => h' = h)); [apply spends_do; intros a; exists h; auto|]. intros [] h1 ->. exact H. }
  eapply (spends_bind _ _ _ (fun _ h' => h' = RHeap z :: h)); [apply spends_call; [now split|reflexivity]|]. intros r h1 ->.
  apply spends_if; intros Gb; [apply Hfree, spends_ret; cbn; split; [reflexivity|now left]|]. destruct (mt6878_camera_frame _ _ _ _ _ _ _) as [r' f].
  eapply (spends_bind _ _ _ (fun _ h' => h' = RHeap z :: h)); [apply spends_call; [now split|reflexivity]|]. intros c h1 ->. apply Hfree, spends_ret. split; [reflexivity|]. right. eauto.
Qed.
(** What a publication leaves of the owner. *)
Definition advanced (o o' : mt6878_pipeline_owner) : Prop :=
  same_holdings o o' /\ tidy (work o') /\ tidy (message_map o') /\ idle (p_ccd o').
Lemma announce_spends o config j wfd mfd : wf o -> m_buffer (message_map o) <> 0 -> spends (owned o) (announce o config j wfd mfd) (fun q h => h = owned o /\ advanced o q.2).
Proof.
  intros (T1 & T2 & Hd & Hi) Hb. unfold announce. eapply spends_bind; [apply fill_spends|]. intros q h (-> & R). apply refilled_same in R. destruct R as (R1 & R2 & R3 & R4 & R5).
  assert (Hadv : forall o', same_holdings q.2 o' -> work o' = work q.2 -> message_map o' = message_map q.2 -> idle (p_ccd o') -> advanced o o').
  { intros o' ((S1 & S2) & S3 & S4 & S5) W M I. destruct R1 as ((Q1 & Q2) & Q3 & Q4 & Q5). split; [unfold same_holdings; repeat split; congruence|]. rewrite W, M. split; [now rewrite R3|]. split; [intros X; congruence|exact I]. }
  assert (Hs : forall o' : mt6878_pipeline_owner, work o' = work q.2 -> message_map o' = message_map q.2 -> consumer o' = consumer q.2 -> dma_owner o' = dma_owner q.2 -> p_endpoint o' = p_endpoint q.2 -> idle (p_ccd o') -> advanced o o')
    by (intros o' A B C D E I; apply Hadv; [unfold same_holdings; rewrite A, B; auto|exact A|exact B|exact I]).
  apply spends_if; intros G; [apply spends_ret; split; [reflexivity|]; apply Hs; try reflexivity; cbn; now rewrite R2|]. cbv zeta.
  assert (Hi' : idle (p_ccd (set_published q.2 j))) by (cbn [set_published p_ccd]; now rewrite R2).
  eapply spends_bind; [apply (spends_transport _ _ _ (create_ordered _ _ Hi'))|]. intros q1 h (-> & s1 & O1).
  eapply (spends_bind _ _ _ (fun q2 h => h = owned o /\ idle q2.2)).
  { apply spends_if; intros Gc; [|apply spends_ret; split; [reflexivity|apply O1]]. eapply spends_post; [apply (spends_transport _ _ _ (config_ordered _ _ (proj1 O1)))|]. intros q2 h (-> & s2 & O2). split; [reflexivity|apply O2]. }
  intros q2 h (-> & I2). apply spends_ret. split; [reflexivity|]. cbn [snd]. destruct (negb (q2.1 =? 0)); apply Hs; try reflexivity; exact I2.
Qed.
Lemma publish_spends captured o config j res wfd mfd x y : wf o -> spends (owned o) (mt6878_pipeline_publish captured o config j res wfd mfd x y) (fun q h => kept q.2 h).
Proof.
  intros Hw. assert (K := kept_refl o Hw). unfold mt6878_pipeline_publish. eapply spends_bind; [apply owner_task_spends|]. intros r h [-> _].
  apply spends_if; intros G; [now apply spends_ret|]. apply spends_if; intros G2; [now apply spends_ret|]. cbv zeta. apply spends_if; intros G3; [now apply spends_ret|]. destruct j as [j|]; [|now apply spends_ret].
  eapply spends_bind; [apply get_spends|]. intros w h ->. apply spends_if; intros Gw; rewrite Gw; [now apply spends_ret|].
  eapply spends_bind; [apply get_spends|]. intros m h ->. cbn [app]. eapply (spends_bind _ _ _ (fun q h => exists h0, h = RRef w :: h0 /\ kept q.2 h0)).
  { apply spends_if; intros Gm; rewrite Gm; cbn [app]; [apply spends_ret; eexists; split; [reflexivity|exact K]|].
    eapply (spends_bind _ _ _ (fun q h => exists h0, h = h0 ++ [RRef m; RRef w] /\ kept q.2 h0)).
    - eapply spends_perm; [|apply (spends_frame (owned o) [RRef m; RRef w] _ (fun q h => kept q.2 h))]; [|apply spends_if; intros Gj].
      + change (RRef m :: RRef w :: owned o) with ([RRef m; RRef w] ++ owned o). apply Permutation_app_comm.
      + now apply spends_ret.
      + eapply spends_post; [apply announce_spends; [exact Hw|lia]|]. intros q h (-> & A1 & A2 & A3 & A4). now apply kept_same.
    - intros q h (h0 & -> & Kq). eapply spends_perm; [apply Permutation_app_comm|]. cbn [app]. apply put_spends, spends_ret. eexists. split; [reflexivity|exact Kq]. }
  intros q h (h0 & -> & Kq). apply put_spends, spends_ret, Kq.
Qed.
Lemma compose_spends o t c : wf o -> spends (owned o) (mt6878_pipeline_compose o t c) (fun q h => kept q.1.2 h).
Proof.
  intros Hw. assert (K := kept_refl o Hw). unfold mt6878_pipeline_compose. eapply spends_bind; [apply owner_task_spends|]. intros r h [-> _]. destruct c as [c|]; [|now apply spends_ret].
  apply spends_if; intros G; [now apply spends_ret|]. apply spends_if; intros G2; [now apply spends_ret|]. pose proof Hw as (T1 & T2 & Hd & Hi).
  eapply spends_bind; [apply (spends_transport _ _ _ (frame_ordered _ (sequence (p_job o)) 0 92291 t (Some (zeros 75)) Hi))|]. intros q h (-> & s & O). cbv zeta.
  assert (Hk : forall o', work o' = work o -> message_map o' = message_map o -> consumer o' = consumer o -> dma_owner o' = dma_owner o -> p_endpoint o' = p_endpoint o -> p_ccd o' = q.1.2 -> kept o' (owned o)).
  { intros o' A B C D E F. apply kept_same; [unfold same_holdings; rewrite A, B; auto|now rewrite A|now rewrite B|exact Hw|rewrite F; apply O]. }
  apply spends_if; intros Gq; [apply spends_ret; now apply Hk|]. destruct (mt6878_camera_ack _ _ _ _ _) as [[r' st] b]. apply spends_if; intros Gr; apply spends_ret; now apply Hk.
Qed.
Lemma close_idle c : idle c -> idle (detach_transport c).
Proof.
  intros [((F1 & F2 & F3 & F4 & F5 & F6) & I1 & I2 & I3 & I4 & I5) Hp Hs Hc]. split; [|exact Hp|exact Hs|exact Hc]. cbn [detach_transport set_endpoint set_gate gate].
  unfold ccd_inv, close_session, flag. cbn [frame_started flush_started flushed destroy_started destroyed closed pending command]. unfold flag in *. repeat split; auto; intros; try (now apply I3); tauto.
Qed.
Lemma detach_spends o : wf o -> spends (owned o) (mt6878_pipeline_detach_callbacks o) (fun q h => kept q.2 h).
Proof.
  intros Hw. assert (K := kept_refl o Hw). pose proof Hw as (T1 & T2 & Hd & Hi). unfold mt6878_pipeline_detach_callbacks. eapply spends_bind; [apply owner_task_spends|]. intros r h [-> _].
  apply spends_if; intros G; [now apply spends_ret|]. eapply (spends_bind _ _ _ (fun _ h => h = owned o)); [apply spends_call; [now split|reflexivity]|]. intros l h ->.
  apply spends_if; intros G2; [now apply spends_ret|]. apply spends_if; intros G3; [now apply spends_ret|].
  eapply (spends_bind _ _ _ (fun _ h => h = owned o)); [apply spends_call; [now split|reflexivity]|]. intros l2 h ->. apply spends_if; intros G4; [now apply spends_ret|].
  eapply (spends_bind _ _ _ (fun _ h => h = owned o)); [apply spends_call; [now split|reflexivity]|]. intros ours h ->. pose proof (close_idle _ Hi) as Hc.
  destruct (ours =? 0); cbv beta iota zeta; [apply spends_if; intros G5; apply spends_ret; [exact K|discriminate G5]|]. unfold mt6878_pipeline_close_callback_gate.
  apply spends_if; intros G5; apply spends_ret; (split; [split; [exact T1|]; split; [exact T2|]; split; [exact Hd|]; [exact Hi || exact Hc]|reflexivity]).
Qed.
Lemma release_spends captured o : wf o -> spends (owned o) (mt6878_pipeline_release captured o) (fun q h => kept q.2 h).
Proof.
  intros Hw. assert (K := kept_refl o Hw). pose proof Hw as (T1 & T2 & Hd & Hi). unfold mt6878_pipeline_release. eapply spends_bind; [apply owner_task_spends|]. intros r h [-> Hc].
  apply spends_if; intros G; [now apply spends_ret|]. apply spends_if; intros G2; [now apply spends_ret|]. assert (Hc0 : consumer o <> 0) by (apply Hc; lia). specialize (Hd Hc0).
  assert (E : p_endpoint o = 0) by lia. assert (C1 : cpu_active (work o) = false) by (destruct (cpu_active (work o)); [lia|reflexivity]). assert (C2 : cpu_active (message_map o) = false) by (destruct (cpu_active (message_map o)); [lia|reflexivity]).
  unfold owned. eapply spends_bind; [apply spends_frame, (unmap_both_spends o C1 C2)|]. intros o' h (h0 & -> & -> & ->). cbn [app set_maps dma_owner consumer]. unfold held_if. rewrite E. replace (consumer o =? 0) with false by lia. replace (dma_owner o =? 0) with false by lia. cbn [Z.eqb negb app].
  eapply (spends_bind _ _ _ (fun _ h => h = [RTask (consumer o)])); [apply spends_do; intros a; exists [RTask (consumer o)]; split; [apply perm_swap|reflexivity]|]. intros _ h ->.
  eapply (spends_bind _ _ _ (fun _ h => h = [])); [apply spends_do; intros a; exists []; auto|]. intros _ h ->. apply spends_ret. cbn [snd].
  split; [split; [apply tidy_zero|]; split; [apply tidy_zero|]; split; [cbn; lia|exact Hi]|]. unfold owned. cbn [set_owner set_maps work message_map consumer dma_owner p_endpoint]. now rewrite E.
Qed.

(** ** Transitions *)

Definition says (q : pipeline_request) : bool := match q with Transport _ => true | _ => false end.
Definition silent (s : trace pipeline_request pipeline_answer) : Prop := Forall (fun e => says e.1 = false) s.
Definition silently {A} (m : pio A) (R : A -> Prop) : Prop := performs m (fun a s => silent s /\ R a).
Lemma silently_ret {A} (a : A) (R : A -> Prop) : R a -> silently (ret a) R.
Proof. intros H. unfold silently. trace_step. split; [constructor|exact H]. Qed.
Lemma silently_bind {A B} (m : pio A) (k : A -> pio B) R1 R : silently m R1 -> (forall a, R1 a -> silently (k a) R) -> silently (bind m k) R.
Proof.
  intros Hm Hk. eapply performs_bind; [exact Hm|]. intros a s [S1 Ha]. eapply performs_impl; [apply (Hk a Ha)|]. intros b s' [S2 Hb]. split; [apply Forall_app; now split|exact Hb].
Qed.
Lemma silently_ask q (R : pipeline_answer -> Prop) : says q = false -> (forall a, R a) -> silently (ask q) R.
Proof. intros Hq H. unfold silently. trace_step. split; [constructor; [exact Hq|constructor]|apply H]. Qed.
Lemma silently_call q : says q = false -> silently (call_ q) (fun _ => True).
Proof. intros Hq. unfold call_. eapply silently_bind; [now apply (silently_ask _ (fun _ => True))|]. intros a _. now apply silently_ret. Qed.
Lemma silently_do q : says q = false -> silently (do_ q) (fun _ => True).
Proof. intros Hq. unfold do_. eapply silently_bind; [now apply (silently_ask _ (fun _ => True))|]. intros a _. now apply silently_ret. Qed.
Lemma silently_if {A} (b : bool) (m m' : pio A) R : (b = true -> silently m R) -> (b = false -> silently m' R) -> silently (if b then m else m') R.
Proof. destruct b; auto. Qed.
Lemma silently_when b q : says q = false -> silently (when b (do_ q)) (fun _ => True).
Proof. intros Hq. destruct b; [now apply silently_do|now apply silently_ret]. Qed.
(** [hush] runs a program with no request to the transport up to its next test or result. *)
Ltac hush :=
  repeat match goal with
  | |- silently (bind (call_ _) _) _ => eapply silently_bind; [now apply silently_call|]; let z := fresh "z" in intros z _
  | |- silently (bind (do_ _) _) _ => eapply silently_bind; [now apply silently_do|]; intros _ _
  | |- silently (bind (when _ _) _) _ => eapply silently_bind; [now apply silently_when|]; intros _ _
  | |- silently (if _ then _ else _) _ => apply silently_if; let G := fresh "G" in intros G
  | |- silently (ret _) _ => apply silently_ret
  end.
Lemma unmap_silently m : silently (mt6878_pipeline_unmap m) (fun _ => True).
Proof. unfold mt6878_pipeline_unmap. hush; exact I. Qed.
Lemma map_silently m b d min : silently (mt6878_pipeline_map m b d min) (fun _ => True).
Proof.
  assert (Hf : forall v (r : Z), silently (let! _ := mt6878_pipeline_unmap v in ret (r, m)) (fun _ => True)) by (intros v r; eapply silently_bind; [apply unmap_silently|]; intros; now apply silently_ret).
  unfold mt6878_pipeline_map. cbv zeta. hush; try exact I; try apply Hf. eapply silently_bind; [now apply (silently_ask _ (fun _ => True))|]. intros a _. hush; try apply Hf.
  eapply silently_bind; [now apply (silently_ask _ (fun _ => True))|]. intros a' _. destruct a'; try apply Hf. hush; try apply Hf. exact I.
Qed.
Lemma unmap_both_silently o : silently (unmap_both o) (fun o' => exists w m, o' = set_maps o w m).
Proof. unfold unmap_both. eapply silently_bind; [apply unmap_silently|]. intros m _. eapply silently_bind; [apply unmap_silently|]. intros w _. apply silently_ret. eauto. Qed.
Lemma owner_task_silently o : silently (owner_task o) (fun _ => True).
Proof.
  unfold owner_task, current. eapply (silently_bind _ _ (fun _ => True)); [eapply silently_bind; [now apply (silently_ask _ (fun _ => True))|]; intros a _; now apply silently_ret|]. intros t _. hush; exact I.
Qed.
Definition outcome_error (o : mt6878_pipeline_owner) (r : Z) : mt6878_pipeline_owner := if negb (r =? 0) then pipeline_error o r else o.
(** The transitions of the owner. *)
Inductive evolves (o : mt6878_pipeline_owner) : mt6878_pipeline_owner -> trace pipeline_request pipeline_answer -> Prop :=
| ev_same s : silent s -> evolves o o s
| ev_maps w m s : silent s -> published o = false -> evolves o (set_maps o w m) s
| ev_ept e c s : silent s -> p_endpoint o = 0 -> evolves o (set_ept o e c) s
| ev_sensor c x y pad w h s : silent s -> evolves o (set_sensor o c x y pad w h) s
| ev_unfilled o1 r s : silent s -> published o = false -> refilled o o1 -> evolves o (pipeline_error o1 r) s
| ev_publish o1 j c r s : published o = false -> callbacks_detached o = false -> refilled o o1 -> evolves o (outcome_error (set_ccd (set_published o1 j) c) r) s
| ev_compose c r s : published o = true -> callbacks_detached o = false -> evolves o (outcome_error (set_ccd o c) r) s
| ev_gate s : silent s -> evolves o (set_callback o (callback_users o) true (callbacks_detached o)) s
| ev_detach s : silent s -> callback_users o = 0 -> p_endpoint o <> 0 -> evolves o (set_callback (set_ccd o (detach_transport (p_ccd o))) (callback_users o) true true) s
| ev_release w m s : silent s -> published o = false -> p_endpoint o = 0 -> evolves o (set_owner (set_maps o w m) 0 0) s.
(** A silent program whose results are transitions. *)
Lemma silently_evolves {A} (m : pio A) (f : A -> mt6878_pipeline_owner) o : silently m (fun a => forall s, silent s -> evolves o (f a) s) -> performs m (fun a s => evolves o (f a) s).
Proof. intros H. eapply performs_impl; [exact H|]. intros a s [S1 H1]. now apply H1. Qed.
Lemma import_evolves o wfd mfd : performs (mt6878_pipeline_import o wfd mfd) (fun q s => evolves o q.2 s).
Proof.
  apply silently_evolves. unfold mt6878_pipeline_import. eapply silently_bind; [apply owner_task_silently|]. intros r _. hush; try (intros s; now constructor).
  assert (Hp : published o = false) by (destruct (published o); [lia|reflexivity]).
  eapply (silently_bind _ _ (fun q => q.2 = o \/ exists w m, q.2 = set_maps o w m)); [|intros q Hq; hush; intros s; destruct Hq as [->|(w & m & ->)]; now constructor].
  hush; [now left|]. eapply (silently_bind _ _ (fun q => q.2 = o \/ exists w m, q.2 = set_maps o w m)); [|intros q Hq; hush; exact Hq]. unfold import_both. hush; [now left|].
  eapply silently_bind; [apply map_silently|]. intros q _. cbv zeta. eapply (silently_bind _ _ (fun q => exists w m, q.2 = set_maps o w m)).
  { hush; [|eauto]. eapply silently_bind; [apply map_silently|]. intros q' _. apply silently_ret. cbn. eauto. }
  intros q' (w & m & E). hush; [|right; eauto]. eapply silently_bind; [apply unmap_both_silently|]. intros o' (w' & m' & ->). apply silently_ret. right. cbn [snd]. rewrite E. eauto.
Qed.
Lemma export_evolves o b : performs (mt6878_pipeline_export o b) (fun _ s => evolves o o s).
Proof. apply (silently_evolves _ (fun _ => o)). unfold mt6878_pipeline_export. eapply silently_bind; [apply owner_task_silently|]. intros r _. cbv zeta. hush; intros s; now constructor. Qed.
Lemma endpoint_evolves o c : performs (mt6878_pipeline_endpoint o c) (fun q s => evolves o q.2 s).
Proof.
  apply silently_evolves. unfold mt6878_pipeline_endpoint. eapply silently_bind; [apply owner_task_silently|]. intros r _. cbv zeta. hush; intros s Hs; cbn [snd]; (apply ev_same || apply ev_ept); auto; lia.
Qed.
Lemma sensor_format_silently x pad : silently (sensor_format x pad) (fun _ => True).
Proof.
  unfold sensor_format. eapply silently_bind; [now apply (silently_ask _ (fun _ => True))|]. intros [| | | | |st f| | |] _; hush; try exact I. eapply silently_bind; [now apply (silently_ask _ (fun _ => True))|].
  intros [| | | | | |st' d| |] _; hush; try exact I. eapply silently_bind; [now apply (silently_ask _ (fun _ => True))|]. intros [| | | | | | |st'' b|] _; hush; exact I.
Qed.
Lemma bind_evolves o x pad y c : performs (mt6878_pipeline_bind o x pad y c) (fun q s => evolves o q.2 s).
Proof.
  apply silently_evolves. unfold mt6878_pipeline_bind. eapply silently_bind; [apply owner_task_silently|]. intros r _. hush; try (intros ?; now constructor). destruct (c_resources (pointee c)); hush; try (intros ?; now constructor).
  eapply silently_bind; [now apply (silently_ask _ (fun _ => True))|]. intros [| | | |l en| | | |] _; hush; try (intros ?; now constructor). eapply silently_bind; [apply sensor_format_silently|]. intros [e|f] _; hush; intros ?; now constructor.
Qed.

Lemma silent_app s1 s2 : silent s1 -> silent s2 -> silent (s1 ++ s2).
Proof. intros. apply Forall_app. now split. Qed.
Lemma evolves_more o o' s1 s s2 : silent s1 -> evolves o o' s -> silent s2 -> evolves o o' (s1 ++ s ++ s2).
Proof.
  intros H1 H H2. assert (Hs : silent s -> silent (s1 ++ s ++ s2)) by (intros; now repeat apply silent_app). destruct H; try (constructor; auto; fail).
Qed.
(** A silent step before a transition, and after it. *)
Lemma evolves_after {A B} (m : pio A) (k : A -> pio B) R (f : B -> mt6878_pipeline_owner) o : silently m R -> (forall a, R a -> performs (k a) (fun b s => evolves o (f b) s)) -> performs (bind m k) (fun b s => evolves o (f b) s).
Proof.
  intros Hm Hk. eapply performs_bind; [exact Hm|]. intros a s [S1 Ha]. eapply performs_impl; [apply (Hk a Ha)|]. intros b s' E. pose proof (evolves_more _ _ s s' [] S1 E (List.Forall_nil _)) as X. now rewrite app_nil_r in X.
Qed.
Lemma evolves_then {A B} (m : pio A) (k : A -> pio B) (f : A -> mt6878_pipeline_owner) (g : B -> mt6878_pipeline_owner) o : performs m (fun a s => evolves o (f a) s) -> (forall a, silently (k a) (fun b => g b = f a)) ->
  performs (bind m k) (fun b s => evolves o (g b) s).
Proof.
  intros Hm Hk. eapply performs_bind; [exact Hm|]. intros a s E. eapply performs_impl; [apply Hk|]. intros b s' [S2 ->]. apply (evolves_more _ _ [] s s' (List.Forall_nil _) E S2).
Qed.
Lemma fill_silently o j : silently (fill_message o j) (fun q => refilled o q.2).
Proof.
  unfold fill_message. cbv zeta. hush; try now left. destruct (mt6878_camera_frame _ _ _ _ _ _ _) as [r f]. hush. right. cbn [snd]. eauto.
Qed.
Lemma announce_evolves o config j wfd mfd : idle (p_ccd o) -> published o = false -> callbacks_detached o = false -> performs (announce o config j wfd mfd) (fun q s => evolves o q.2 s).
Proof.
  intros Hi Hp Hd. unfold announce. eapply performs_bind; [apply fill_silently|]. intros q s [S1 R]. pose proof (refilled_same _ _ R) as (_ & Ec & _).
  trace_step; [trace_step; rewrite app_nil_r; now apply ev_unfilled|]. cbv zeta. assert (Hi' : idle (p_ccd (set_published q.2 j))) by (cbn [set_published p_ccd]; now rewrite Ec).
  eapply performs_bind; [apply performs_via, (create_ordered _ _ Hi')|]. intros q1 s1 (t1 & -> & O1).
  eapply (performs_bind _ _ (fun _ _ => True)). { trace_step; [eapply performs_impl; [apply performs_via, (config_ordered _ _ (proj1 O1))|auto]|now trace_step]. }
  intros q2 s2 _. trace_step. rewrite app_nil_r. cbn [snd]. fold (outcome_error (set_ccd (set_published q.2 j) q2.2) q2.1). now apply ev_publish.
Qed.
Lemma publish_evolves captured o config j res wfd mfd x y : idle (p_ccd o) -> performs (mt6878_pipeline_publish captured o config j res wfd mfd x y) (fun q s => evolves o q.2 s).
Proof.
  intros Hi. unfold mt6878_pipeline_publish. eapply evolves_after; [apply owner_task_silently|]. intros r _. assert (Hs : forall z, performs (ret (z, o)) (fun (q : Z * mt6878_pipeline_owner) s => evolves o q.2 s)) by (intros z; trace_step; constructor; constructor).
  trace_step; [apply Hs|]. trace_step; [apply Hs|]. assert (Hp : published o = false) by (destruct (published o); [lia|reflexivity]). assert (Hd : callbacks_detached o = false) by (destruct (callbacks_detached o); [lia|reflexivity]). clear G0.
  cbv zeta. trace_step; [apply Hs|]. destruct j as [j|]; [|apply Hs]. eapply evolves_after; [now apply silently_call|]. intros w _. trace_step; [apply Hs|]. eapply evolves_after; [now apply silently_call|]. intros m _.
  eapply (evolves_then _ _ (fun q : Z * mt6878_pipeline_owner => q.2)); [|intros q; hush; reflexivity]. trace_step; [apply Hs|].
  eapply (evolves_then _ _ (fun q : Z * mt6878_pipeline_owner => q.2)); [|intros q; hush; reflexivity]. trace_step; [apply Hs|now apply announce_evolves].
Qed.
Lemma compose_evolves o t c : idle (p_ccd o) -> performs (mt6878_pipeline_compose o t c) (fun q s => evolves o q.1.2 s).
Proof.
  intros Hi. unfold mt6878_pipeline_compose. eapply (evolves_after _ _ _ (fun q => q.1.2)); [apply owner_task_silently|]. intros r _.
  assert (Hs : forall z c, performs (ret (z, o, c)) (fun (q : Z * mt6878_pipeline_owner * option mt6878_camsv_buffer) s => evolves o q.1.2 s)) by (intros z x; trace_step; constructor; constructor).
  destruct c as [c|]; [|apply Hs]. trace_step; [apply Hs|]. trace_step; [apply Hs|]. assert (Hp : published o = true) by (destruct (published o); [reflexivity|cbn [negb orb] in G0; lia]).
  assert (Hd : callbacks_detached o = false) by (destruct (callbacks_detached o); [lia|reflexivity]). clear G0.
  eapply performs_bind; [apply performs_via, (frame_ordered _ (sequence (p_job o)) 0 92291 t (Some (zeros 75)) Hi)|]. intros q s (s1 & -> & _). cbv zeta.
  assert (Hc : forall r z c', performs (ret (z, outcome_error (set_ccd o q.1.2) r, c')) (fun (b : Z * mt6878_pipeline_owner * option mt6878_camsv_buffer) s' => evolves o b.1.2 (lift_trace Transport Delivered s1 ++ s')))
    by (intros z r' c'; trace_step; now apply ev_compose).
  trace_step; [specialize (Hc q.1.1 q.1.1 (Some c)); unfold outcome_error in Hc; rewrite G0 in Hc; exact Hc|]. destruct (mt6878_camera_ack _ _ _ _ _) as [[r' st] b].
  set (r2 := if negb (r' =? 0) then _ else _). trace_step; [specialize (Hc r2 r2 (Some c)); unfold outcome_error in Hc; rewrite G1 in Hc; exact Hc|apply (Hc 0)].
Qed.
Lemma detach_evolves o : performs (mt6878_pipeline_detach_callbacks o) (fun q s => evolves o q.2 s).
Proof.
  apply silently_evolves. unfold mt6878_pipeline_detach_callbacks. eapply silently_bind; [apply owner_task_silently|]. intros r _. hush; try (intros ?; now constructor).
  destruct (z1 =? 0); cbv beta iota zeta; [hush; [intros ?; now constructor|discriminate]|]. unfold mt6878_pipeline_close_callback_gate. hush; intros s Hs; cbn [snd].
  - now apply ev_gate.
  - apply (ev_detach o s Hs); [destruct (Z.eqb_spec (callback_users o) 0); [assumption|discriminate]|lia].
Qed.
Lemma release_evolves captured o : performs (mt6878_pipeline_release captured o) (fun q s => evolves o q.2 s).
Proof.
  apply silently_evolves. unfold mt6878_pipeline_release. eapply silently_bind; [apply owner_task_silently|]. intros r _. hush; try (intros ?; now constructor).
  assert (Hp : published o = false) by (destruct (published o); [lia|reflexivity]). assert (He : p_endpoint o = 0) by lia.
  eapply silently_bind; [apply unmap_both_silently|]. intros o' (w & m & ->). hush. intros s Hs. now apply ev_release.
Qed.

(** ** Histories *)

(** The owner, and the callbacks that entered: with their message until they called the transport owner. *)
Record scene : Type := Scene { s_owner : mt6878_pipeline_owner; flights : list (option arrival) }.
Inductive pipeline_call : Type :=
| PImport (work_fd message_fd : Z)
| PExport (message_ : bool)
| PEndpoint (client_ : ptr rpmsg_device)
| PBind (sensor_ : ptr v4l2_subdev) (pad : Z) (receiver_ : ptr v4l2_subdev) (capture : ptr mt6878_camera_capture_owner)
| PPublish (captured : Z -> option mt6878_camera_capture_owner) (config : option mtkcam_ipi_config_param) (job_ : option mt6878_camsv_job)
    (resources : option mt6878_camsv_recipe_resources) (work_fd message_fd : Z) (raw_ pdaf_ : ptr vb2_v4l2_buffer)
| PCompose (timeout_ms : Z) (cq_ : option mt6878_camsv_buffer)
| PEnter (a : arrival)
| PRun (i : nat)
| PLeave (i : nat)
| PGate
| PDetach
| PRelease (captured : Z -> option mt6878_camera_capture_owner).
Definition pipeline_step (sc : scene) (c : pipeline_call) : pio (Z * scene) :=
  let o := s_owner sc in
  let call (m : pio (Z * mt6878_pipeline_owner)) : pio (Z * scene) := let! q := m in ret (q.1, Scene q.2 (flights sc)) in
  match c with
  | PImport w m => call (mt6878_pipeline_import o w m)
  | PExport m => let! r := mt6878_pipeline_export o m in ret (r, sc)
  | PEndpoint c => call (mt6878_pipeline_endpoint o c)
  | PBind x pad y c => call (mt6878_pipeline_bind o x pad y c)
  | PPublish at_ config j res w m x y => call (mt6878_pipeline_publish at_ o config j res w m x y)
  | PCompose t c => let! q := mt6878_pipeline_compose o t c in ret (q.1.1, Scene q.1.2 (flights sc))
  | PEnter a => ret (match rx_enter o with Some o => (0, Scene o (flights sc ++ [Some a])) | None => (- ESHUTDOWN, sc) end)
  | PRun i => ret (0, match flights sc !! i with Some (Some a) => Scene (rx_call o a) (<[i := None]> (flights sc)) | _ => sc end)
  | PLeave i => ret (0, match flights sc !! i with Some None => Scene (rx_leave o) (delete i (flights sc)) | _ => sc end)
  | PGate => let '(r, o) := mt6878_pipeline_close_callback_gate o in ret (r, Scene o (flights sc))
  | PDetach => call (mt6878_pipeline_detach_callbacks o)
  | PRelease at_ => call (mt6878_pipeline_release at_ o)
  end.
Fixpoint pipeline_history (sc : scene) (cs : list pipeline_call) : pio scene :=
  match cs with
  | [] => ret sc
  | c :: cs => let! q := pipeline_step sc c in pipeline_history q.2 cs
  end.
(** A blank owner is initialised and used. *)
Definition blank : mt6878_pipeline_owner :=
  PipelineOwner 0 0 0 zero_mapping zero_mapping (mt6878_camera_ccd_init 0) 0 0 0 0 0 0 zero_job 0 0 false false false 0.
Definition pipeline_life (device dom session_ : Z) (cs : list pipeline_call) : pio scene :=
  let! q := mt6878_pipeline_init blank device dom session_ in pipeline_history (Scene q.2 []) cs.

Record scene_ok (sc : scene) : Prop := SceneOk {
  sc_wf : wf (s_owner sc);
  sc_users : callback_users (s_owner sc) = Z.of_nat (Datatypes.length (flights sc));
  sc_bound : callback_users (s_owner sc) <= UINT32_MAX;
  sc_detached : callbacks_detached (s_owner sc) = true -> callback_closed (s_owner sc) = true /\ flights sc = [] /\ p_endpoint (s_owner sc) <> 0 /\
    CcdOwner.endpoint (p_ccd (s_owner sc)) = None /\ closed (gate (p_ccd (s_owner sc))) = 1
}.
(** What a step does to a scene. *)
Record stepped (sc sc' : scene) (s : trace pipeline_request pipeline_answer) : Prop := Stepped {
  st_ok : scene_ok sc';
  st_books : accounts (owned (s_owner sc)) s (owned (s_owner sc'));
  st_pins : published (s_owner sc) = true -> published (s_owner sc') = true /\ work (s_owner sc') = work (s_owner sc) /\ message_map (s_owner sc') = message_map (s_owner sc);
  st_says : ~ silent s -> published (s_owner sc') = true /\ callbacks_detached (s_owner sc) = false;
  st_detached : callbacks_detached (s_owner sc) = true -> callbacks_detached (s_owner sc') = true /\ p_ccd (s_owner sc') = p_ccd (s_owner sc)
}.

(** [facts] reads the fields of a transition's result. *)
Ltac facts :=
  cbn [set_maps set_ept set_sensor pipeline_error set_ccd set_published set_callback set_owner callback_users published work message_map callbacks_detached p_endpoint callback_closed p_ccd]; repeat split; intros; try reflexivity; try assumption; try congruence; try (left; congruence); try tauto.
Lemma evolves_facts o o' s : evolves o o' s ->
  callback_users o' = callback_users o /\
  (published o = true -> published o' = true /\ work o' = work o /\ message_map o' = message_map o) /\
  (~ silent s -> published o' = true /\ callbacks_detached o = false) /\
  (callbacks_detached o = true -> p_endpoint o <> 0 -> callbacks_detached o' = true /\ (p_ccd o' = p_ccd o \/ callback_users o = 0 /\ p_ccd o' = detach_transport (p_ccd o)) /\ p_endpoint o' <> 0 /\ (callback_closed o = true -> callback_closed o' = true)) /\
  (callbacks_detached o = false -> callbacks_detached o' = true -> callback_users o = 0 /\ callback_closed o' = true /\ p_endpoint o' <> 0 /\ p_ccd o' = detach_transport (p_ccd o)).
Proof.
  intros E. assert (R : forall o1, refilled o o1 -> callback_users o1 = callback_users o /\ callbacks_detached o1 = callbacks_detached o /\ callback_closed o1 = callback_closed o /\ p_endpoint o1 = p_endpoint o /\ p_ccd o1 = p_ccd o)
    by (intros o1 [->|(f & a & ->)]; auto).
  assert (OE : forall x r, callback_users (outcome_error x r) = callback_users x /\ callbacks_detached (outcome_error x r) = callbacks_detached x /\ published (outcome_error x r) = published x /\
    work (outcome_error x r) = work x /\ message_map (outcome_error x r) = message_map x) by (intros x r; unfold outcome_error; destruct (negb (r =? 0)); auto).
  destruct E as [s0 S|w m s0 S P|e c s0 S P|c x y pad w h s0 S|o1 r s0 S P F|o1 jj c r s0 P D F|c r s0 P D|s0 S|s0 S U P|w m s0 S P Q].
  - facts.
  - facts.
  - facts.
  - facts.
  - destruct (R _ F) as (R1 & R2 & R3 & R4 & R5). facts.
  - destruct (R _ F) as (R1 & R2 & R3 & R4 & R5), (OE (set_ccd (set_published o1 jj) c) r) as (O1 & O2 & O3 & O4 & O5). rewrite O1, O2, O3, O4, O5. facts.
  - destruct (OE (set_ccd o c) r) as (O1 & O2 & O3 & O4 & O5). rewrite O1, O2, O3, O4, O5. facts.
  - facts.
  - facts.
  - facts.
Qed.

Lemma evolved_stepped o o' fl s h : evolves o o' s -> scene_ok (Scene o fl) -> accounts (owned o) s h -> kept o' h -> stepped (Scene o fl) (Scene o' fl) s.
Proof.
  intros E [W U B D] A [K1 K2]. cbn [s_owner flights] in *. destruct (evolves_facts _ _ _ E) as (F1 & F2 & F3 & F4 & F5).
  assert (F6 : callbacks_detached o = true -> callbacks_detached o' = true /\ p_ccd o' = p_ccd o).
  { intros X. destruct (D X) as (D1 & D2 & D3 & D4 & D5). destruct (F4 X D3) as (G1 & G2 & _). split; [exact G1|]. destruct G2 as [G2|[_ G2]]; [exact G2|]. rewrite G2.
    unfold detach_transport, close_session, set_endpoint, set_gate. cbn. rewrite <- D4. destruct (p_ccd o) as [? ? ? ? ? ? ? ? ? ? g]. cbn in D5 |- *. destruct g. cbn in D5. now subst. }
  split; cbn [s_owner flights]; [|eapply moves_perm_r; eassumption|exact F2|exact F3|exact F6].
  split; cbn [s_owner flights]; [exact K1|now rewrite F1|now rewrite F1|]. intros X. destruct (callbacks_detached o) eqn:Ed.
  - destruct (D eq_refl) as (D1 & D2 & D3 & D4 & D5). destruct (F4 eq_refl D3) as (_ & _ & G3 & G4), (F6 eq_refl) as [_ G5]. rewrite G5. auto.
  - destruct (F5 eq_refl X) as (G1 & G2 & G3 & G4). rewrite G4. split; [exact G2|]. split; [apply length_zero_iff_nil; lia|]. auto.
Qed.
(** A call by its two descriptions. *)
Lemma call_stepped {A} (m : pio A) (f : A -> mt6878_pipeline_owner) (g : A -> Z) sc : scene_ok sc ->
  spends (owned (s_owner sc)) m (fun a h => kept (f a) h) -> performs m (fun a s => evolves (s_owner sc) (f a) s) ->
  performs (let! a := m in ret (g a, Scene (f a) (flights sc))) (fun q s => stepped sc q.2 s).
Proof.
  intros Hsc H1 H2. eapply performs_bind; [apply performs_and; [exact H1|exact H2]|]. intros a s [(h & M & K) E]. trace_step. rewrite app_nil_r. destruct sc as [o fl]. now apply (evolved_stepped _ _ _ _ h).
Qed.
Lemma stepped_same sc : scene_ok sc -> stepped sc sc [].
Proof. intros H. split; [exact H|now apply moves_nil|auto|intros X; destruct X; constructor|auto]. Qed.
(** A step that changes the transport owner and the callbacks only. *)
Lemma stepped_rx sc o' fl' : scene_ok sc -> same_holdings (s_owner sc) o' -> work o' = work (s_owner sc) -> message_map o' = message_map (s_owner sc) ->
  published o' = published (s_owner sc) -> callbacks_detached o' = callbacks_detached (s_owner sc) -> (callbacks_detached (s_owner sc) = true -> p_ccd o' = p_ccd (s_owner sc)) -> scene_ok (Scene o' fl') -> stepped sc (Scene o' fl') [].
Proof.
  intros H ((A1 & A2) & A3 & A4 & A5) B C D E F H'. split; cbn [s_owner].
  - exact H'.
  - apply moves_nil. unfold owned. now rewrite A1, A2, A3, A4, A5.
  - intros X. split; [congruence|]. auto.
  - intros X. destruct X. constructor.
  - intros X. split; [congruence|auto].
Qed.
Lemma step_stepped sc c : scene_ok sc -> performs (pipeline_step sc c) (fun q s => stepped sc q.2 s).
Proof.
  intros Hsc. pose proof (sc_wf _ Hsc) as Hw. pose proof Hw as (T1 & T2 & Hd & Hi). destruct c as [w m|m|cl|x pad y c|at_ config jj res w m x y|t c|a|i|i| | |at_]; cbn [pipeline_step].
  - apply (call_stepped _ snd fst); [exact Hsc|now apply import_spends|apply import_evolves].
  - eapply performs_bind; [apply performs_and; [now apply export_spends|apply export_evolves]|]. intros r s [(h & M & K) E]. trace_step. rewrite app_nil_r. destruct sc as [o fl]. now apply (evolved_stepped _ _ _ _ h).
  - apply (call_stepped _ snd fst); [exact Hsc|now apply endpoint_spends|apply endpoint_evolves].
  - apply (call_stepped _ snd fst); [exact Hsc|now apply bind_spends|apply bind_evolves].
  - apply (call_stepped _ snd fst); [exact Hsc|now apply publish_spends|now apply publish_evolves].
  - apply (call_stepped _ (fun q => q.1.2) (fun q => q.1.1)); [exact Hsc|now apply compose_spends|now apply compose_evolves].
  - trace_step. unfold rx_enter. destruct (callback_closed (s_owner sc) || (callback_users (s_owner sc) =? 4294967295)) eqn:G; [now apply stepped_same|]. destruct Hsc as [W U B D].
    assert (X : callback_closed (s_owner sc) = false) by (destruct (callback_closed (s_owner sc)); [lia|reflexivity]). assert (Eu : u32 (callback_users (s_owner sc) + 1) = callback_users (s_owner sc) + 1) by (apply u32_id; unfold is_u32; lia).
    cbn [snd]. apply stepped_rx; auto; [now split|unfold same_holdings; auto|]. split; cbn [s_owner flights set_callback callback_users callbacks_detached].
    + exact W.
    + rewrite Eu, U, length_app. cbn. lia.
    + lia.
    + intros Y. destruct (D Y). congruence.
  - trace_step. cbn [snd]. destruct (flights sc !! i) as [[a|]|] eqn:Ef; [|now apply stepped_same|now apply stepped_same].
    assert (X : callbacks_detached (s_owner sc) = true -> False) by (intros X; destruct (sc_detached _ Hsc X) as (_ & Y & _); rewrite Y in Ef; discriminate). destruct Hsc as [W U B D].
    apply stepped_rx; auto; [now split|unfold same_holdings; auto|intros Y; destruct (X Y)|]. split; cbn [s_owner flights rx_call set_ccd callback_users callbacks_detached].
    + split; [exact T1|]. split; [exact T2|]. split; [exact Hd|]. apply (calmer_idle (p_ccd (s_owner sc))); [exact Hi|apply rx_calmer, Hi|]. apply (idle_stays [a] _ (id_pending _ Hi)).
    + now rewrite length_insert.
    + exact B.
    + intros Y. destruct (X Y).
  - trace_step. cbn [snd]. destruct (flights sc !! i) as [[a|]|] eqn:Ef; [now apply stepped_same| |now apply stepped_same].
    assert (X : callbacks_detached (s_owner sc) = true -> False) by (intros X; destruct (sc_detached _ Hsc X) as (_ & Y & _); rewrite Y in Ef; discriminate). destruct Hsc as [W U B D].
    pose proof (lookup_lt_Some _ _ _ Ef) as Hl. assert (Eu : u32 (callback_users (s_owner sc) - 1) = callback_users (s_owner sc) - 1) by (apply u32_id; unfold is_u32; lia).
    apply stepped_rx; auto; [now split|unfold same_holdings; auto|]. split; cbn [s_owner flights rx_leave set_callback callback_users callbacks_detached].
    + exact W.
    + rewrite Eu, length_delete by (exists None; exact Ef). lia.
    + lia.
    + intros Y. destruct (X Y).
  - unfold mt6878_pipeline_close_callback_gate. trace_step. destruct Hsc as [W U B D]. cbn [snd]. apply stepped_rx; auto; [now split|unfold same_holdings; auto|].
    split; cbn [s_owner flights set_callback callback_users callbacks_detached]; [exact W|exact U|exact B|]. intros Y. destruct (D Y) as (_ & Z). auto.
  - apply (call_stepped _ snd fst); [exact Hsc|now apply detach_spends|apply detach_evolves].
  - apply (call_stepped _ snd fst); [exact Hsc|now apply release_spends|apply release_evolves].
Qed.

#[local] Instance silent_dec s : Decision (silent s).
Proof. unfold silent. apply _. Defined.
Lemma stepped_trans sc sc1 sc2 s1 s2 : stepped sc sc1 s1 -> stepped sc1 sc2 s2 -> stepped sc sc2 (s1 ++ s2).
Proof.
  intros [A1 A2 A3 A4 A5] [B1 B2 B3 B4 B5]. split; [exact B1|eapply moves_app; eassumption| | |].
  - intros X. destruct (A3 X) as (Y1 & Y2 & Y3), (B3 Y1) as (Z1 & Z2 & Z3). split; [exact Z1|]. split; congruence.
  - intros X. destruct (decide (silent s1)) as [H1|H1]; [|destruct (A4 H1) as [Y1 Y2]; split; [now apply B3|exact Y2]].
    destruct (decide (silent s2)) as [H2|H2]; [destruct (X (silent_app _ _ H1 H2))|]. destruct (B4 H2) as [Z1 Z2]. split; [exact Z1|].
    destruct (callbacks_detached (s_owner sc)) eqn:E; [|reflexivity]. destruct (A5 eq_refl). congruence.
  - intros X. destruct (A5 X) as [Y1 Y2], (B5 Y1) as [Z1 Z2]. split; [exact Z1|congruence].
Qed.
Lemma history_stepped cs : forall sc, scene_ok sc -> performs (pipeline_history sc cs) (fun sc' s => stepped sc sc' s).
Proof.
  induction cs as [|c cs IH]; intros sc H; cbn [pipeline_history]; [trace_step; now apply stepped_same|]. eapply performs_bind; [now apply step_stepped|]. intros q s S1.
  eapply performs_impl; [apply IH, (st_ok _ _ _ S1)|]. intros sc' s' S2. exact (stepped_trans _ _ _ _ _ S1 S2).
Qed.
Lemma pipeline_init_ok device dom ses : 0 <= ses -> performs (mt6878_pipeline_init blank device dom ses) (fun q s => silent s /\ accounts [] s (owned q.2) /\ scene_ok (Scene q.2 [])).
Proof.
  intros Hs. assert (Hok : forall o, owned o ≡ₚ owned o -> wf o -> callback_users o = 0 -> callbacks_detached o = false -> scene_ok (Scene o [])) by (intros o _ W U D; split; cbn [s_owner flights]; [exact W|exact U|lia|congruence]).
  assert (Wb : wf blank) by (split; [apply tidy_zero|]; split; [apply tidy_zero|]; split; [cbn; lia|apply init_idle; lia]).
  assert (Hq : silently (mt6878_pipeline_init blank device dom ses) (fun _ => True)).
  { unfold mt6878_pipeline_init, current. eapply (silently_bind _ _ (fun _ => True)).
    - eapply silently_bind; [now apply (silently_ask _ (fun _ => True))|]. intros a _. now apply silently_ret.
    - intros t _. hush; exact I. }
  assert (Hh : spends [] (mt6878_pipeline_init blank device dom ses) (fun q h => h ≡ₚ owned q.2 /\ scene_ok (Scene q.2 []))).
  { unfold mt6878_pipeline_init, current.
    eapply (spends_bind _ _ _ (fun t h => h = [] /\ t.1 <> 0)).
    { eapply (spends_bind _ _ _ (fun _ h => h = [])); [apply spends_quiet; [now split|reflexivity]|]. intros a h ->. apply spends_ret. split; [reflexivity|]. destruct a; cbn; lia. }
    intros t h [-> Ht]. apply spends_if; intros G; [apply spends_ret; split; [reflexivity|now apply Hok]|]. eapply (spends_bind _ _ _ (fun _ h => h = [])); [apply spends_call; [now split|reflexivity]|]. intros d h ->.
    apply spends_if; intros G2; [apply spends_ret; split; [reflexivity|now apply Hok]|]. eapply (spends_bind _ _ _ (fun _ h => h = [RTask t.1])); [apply spends_do; intros a; exists []; auto|]. intros _ h ->.
    eapply (spends_bind _ _ _ (fun _ h => h = [RDev device; RTask t.1])); [apply spends_do; intros a; exists [RTask t.1]; auto|]. intros _ h ->. apply spends_ret. cbn [snd]. split.
    + unfold owned, held_if. cbn [work message_map consumer dma_owner p_endpoint]. replace (t.1 =? 0) with false by lia. replace (device =? 0) with false by lia. cbn. apply perm_swap.
    + apply Hok; auto. split; [apply tidy_zero|]. split; [apply tidy_zero|]. split; [cbn; lia|cbn; apply init_idle; lia]. }
  eapply performs_impl; [apply (performs_and _ _ _ Hq Hh)|]. intros q s [[X _] (h & M & P & K)]. split; [exact X|]. split; [eapply moves_perm_r; eassumption|exact K].
Qed.
Lemma life_ok device dom ses cs : 0 <= ses -> performs (pipeline_life device dom ses cs) (fun sc s => scene_ok sc /\ accounts [] s (owned (s_owner sc)) /\ (~ silent s -> published (s_owner sc) = true)).
Proof.
  intros Hs. unfold pipeline_life. eapply performs_bind; [now apply pipeline_init_ok|]. intros q s (S1 & M1 & K1). eapply performs_impl; [apply (history_stepped cs _ K1)|]. intros sc s' St.
  split; [apply St|]. split; [eapply moves_app; [exact M1|apply St]|]. intros X. apply (st_says _ _ _ St). intros Y. apply X. now apply silent_app.
Qed.
(** The scenes of some life. *)
Definition reaches (device dom ses : Z) (sc : scene) : Prop := exists cs env s, pipeline_life device dom ses cs env [] = (sc, s).
Lemma reaches_ok device dom ses sc : 0 <= ses -> reaches device dom ses sc -> scene_ok sc.
Proof. intros Hs (cs & env & s & E). destruct (life_ok device dom ses cs Hs env []) as (sc' & s' & E' & K & _). rewrite E in E'. injection E' as -> _. exact K. Qed.

(** C27. Resources. Over every life of an owner and in every environment, each
    release gives back something that is held at that moment, and after every
    sequence of calls what is held is exactly what the owner records: the
    references, attachments, mappings and kernel mappings of its two buffers, its
    task, its device and its endpoint. Once anything was said to the composer the
    owner is published, and no call after that unmaps, replaces or changes either
    mapping. *)
Theorem pipeline_resources device dom ses cs : 0 <= ses ->
  performs (pipeline_life device dom ses cs) (fun sc s => accounts [] s (owned (s_owner sc)) /\ (~ silent s -> published (s_owner sc) = true)) /\
  forall sc cs', reaches device dom ses sc -> published (s_owner sc) = true ->
    performs (pipeline_history sc cs') (fun sc' _ => published (s_owner sc') = true /\ work (s_owner sc') = work (s_owner sc) /\ message_map (s_owner sc') = message_map (s_owner sc)).
Proof.
  intros Hs. split; [eapply performs_impl; [now apply life_ok|]; now intros sc s (_ & A & B)|].
  intros sc cs' Hr Hp. eapply performs_impl; [apply history_stepped; now apply (reaches_ok device dom ses)|]. intros sc' s St. now apply (st_pins _ _ _ St).
Qed.

(** C29. Callbacks. In every reachable scene the count of users is the number of
    callbacks between their two sections. When callbacks are detached no callback
    is inside, and no later call, callback or interleaving of them lets one in,
    changes the transport owner or says anything to the composer. *)
Theorem pipeline_callbacks device dom ses sc : 0 <= ses -> reaches device dom ses sc ->
  callback_users (s_owner sc) = Z.of_nat (Datatypes.length (flights sc)) /\
  (callbacks_detached (s_owner sc) = true -> flights sc = [] /\ forall cs, performs (pipeline_history sc cs) (fun sc' s =>
     flights sc' = [] /\ p_ccd (s_owner sc') = p_ccd (s_owner sc) /\ callbacks_detached (s_owner sc') = true /\ silent s)).
Proof.
  intros Hs Hr. pose proof (reaches_ok _ _ _ _ Hs Hr) as K. split; [apply K|]. intros Hd. split; [apply (sc_detached _ K Hd)|]. intros cs. eapply performs_impl; [now apply history_stepped|]. intros sc' s St.
  destruct (st_detached _ _ _ St Hd) as [D1 D2]. split; [apply (sc_detached _ (st_ok _ _ _ St) D1)|]. split; [exact D2|]. split; [exact D1|].
  destruct (decide (silent s)) as [X|X]; [exact X|]. destruct (st_says _ _ _ St X). congruence.
Qed.

(** ** The session *)

Definition sv_pipe_of (j : mt6878_camsv_job) : Z := u32 (sv_id j + MTKCAM_SUBDEV_CAMSV_START).
(** The message that describes a job. *)
Definition frame_of (j : mt6878_camsv_job) (n : Z) : mtkcam_ipi_frame_param :=
  set_tag (set_tag (FrameParam 0 n (camsv_param zero_frame) (others zero_frame)) (sv_pipe_of j) (raw_tag j) (output_of j (raw_layout j) (raw j)))
    (sv_pipe_of j) (pdaf_tag j) (output_of j (pdaf_layout j) (pdaf j)).
Lemma frame_zero fp j n h1 h2 f : mt6878_camera_frame fp (Some j) 0 n n (Ptr h1 (output_of j (raw_layout j) (raw j))) (Ptr h2 (output_of j (pdaf_layout j) (pdaf j))) = (0, f) -> f = frame_of j n.
Proof.
  unfold mt6878_camera_frame. cbv zeta. destruct (_ || _); [discriminate|]. destruct (_ || _); [discriminate|]. lazymatch goal with |- (if negb (?r =? 0) then _ else _) = _ -> _ => destruct (Z.eqb_spec r 0) end; cbn [negb]; [|congruence].
  destruct (_ || _); [discriminate|]. intros E. injection E as <-. reflexivity.
Qed.
Lemma fill_zero o j : silently (fill_message o j) (fun q => q.1 = 0 -> pointee (va (message_map q.2)) = frame_of j (bsize (range (work o))) /\ refilled o q.2).
Proof.
  unfold fill_message. cbv zeta. hush; cbn [fst]; try lia. destruct (mt6878_camera_frame _ _ _ _ _ _ _) as [r f] eqn:E. hush. cbn [fst snd]. intros Hz. destruct (Z.eqb_spec r 0) as [->|]; [|contradiction]. apply frame_zero in E.
  split; [exact E|]. right. eauto.
Qed.
(** An output described for a valid job passes its own check. *)
Lemma output_accepted j l b r : layout_u32 l -> buffer_u b -> is_u32 (sv_id j) -> sv_id j <= 1 -> layout_ok l (bsize b) -> buffer_ok b (sizeimage l) -> r = sv_pipe_of j -> output_check r l b (output_of j l b) = 0.
Proof.
  intros Hl Hb Hs1 Hs2 Hlo Hbo ->. pose proof (proj2 (layout_cases l (bsize b) Hl) Hlo) as V. assert (R : mt6878_camsv_range b (bsize b) = 0).
  { apply range_exact; [exact Hb|apply Hb|]. destruct Hbo as (B1 & B2 & B3). unfold buffer_ok. lia. }
  destruct Hlo as (bits & Hbits & Hw & Hh & _ & _ & Hrow & Hline & _). destruct Hl as (L1 & L2 & L3 & _). unfold is_u32 in *.
  assert (Hbp : 1 <= bytesperline l) by (unfold bits_of in Hbits; destruct (format l =? 0); [injection Hbits as <-; lia|]; destruct (_ || _); [injection Hbits as <-; lia|discriminate]).
  unfold output_check, output_of. cbn [out_fmt uid pf_format pf_w pf_h stride uid_pipe uid_id first_plane buf nth ipi_iova ipi_size].
  assert (Eu : u8 (sv_id j + 3) = sv_pipe_of j) by (unfold sv_pipe_of, u8, u32; rewrite !Z.mod_small by lia; reflexivity). assert (E16 : forall z, 0 <= z <= 65535 -> u16 z = z) by (intros; unfold u16; apply Z.mod_small; lia).
  rewrite V, R, Eu, !E16 by lia. rewrite !Z.eqb_refl. replace (width l =? 0) with false by lia. replace (height l =? 0) with false by lia. replace (bytesperline l =? 0) with false by lia. reflexivity.
Qed.
Lemma frame_accepts fp j c r n h1 h2 : job_u j -> resources_u r -> mt6878_camsv_recipe_inputs (Some j) (Some c) (Some r) = 0 -> 0 < n -> is_u32 n ->
  null fp = false -> h1 <> 0 -> h2 <> 0 -> aliases_frame fp (Ptr h1 zero_output) = false -> aliases_frame fp (Ptr h2 zero_output) = false ->
  mt6878_camera_frame fp (Some j) 0 n n (Ptr h1 (output_of j (raw_layout j) (raw j))) (Ptr h2 (output_of j (pdaf_layout j) (pdaf j))) = (0, frame_of j n).
Proof.
  intros Hj Hr Hin Hn Un Hf H1 H2 A1 A2. pose proof (proj2 (recipe_inputs_cases j c r Hj Hr) Hin) as [T _ _ B1 B2 L1 L2]. destruct Hj as (U1 & U2 & U3 & U4 & U5 & _ & U7 & U8).
  assert (S : (1 <? sv_id j) = false /\ size_refused j = false).
  { unfold mt6878_camsv_recipe_inputs in Hin. destruct ((1 <? sv_id j) || _ || _ || _) eqn:G; [discriminate|]. split; [lia|].
    do 4 (lazymatch type of Hin with (if ?b then _ else _) = _ => destruct b; [discriminate Hin|] end). destruct (size_refused j); [discriminate Hin|reflexivity]. }
  destruct S as [S1 S2]. unfold mt6878_camera_frame. cbv zeta. unfold aliases_frame in *. cbn [addr pointee] in *. rewrite Hf, A1, A2. unfold null. cbn [addr]. fold (sv_pipe_of j). rewrite S1, !output_accepted by (assumption || reflexivity || lia).
  unfold is_u32 in Un. rewrite Z.sub_0_r, u32_id by (unfold is_u32; lia). replace (n <? n) with false by lia. replace (n <? 0) with false by lia. replace (n =? 0) with false by lia. replace (h1 =? 0) with false by lia. replace (h2 =? 0) with false by lia.
  replace (7 <? raw_tag j) with false by lia. replace (7 <? pdaf_tag j) with false by lia. replace (raw_tag j =? pdaf_tag j) with false by lia. cbn [orb]. unfold size_refused in S2. rewrite S2. reflexivity.
Qed.

(** The frame message. For every job that the recipe supports, a work buffer
    of at least one byte and outputs that lie apart from the frame, the message
    is written: it names the whole work buffer, its two tags carry the job's
    pipe, layouts and buffers, and every other tag and byte is zero. *)
Theorem frame_message_exact fp j c r n h1 h2 : job_u j -> resources_u r -> mt6878_camsv_recipe_inputs (Some j) (Some c) (Some r) = 0 -> 0 < n -> is_u32 n ->
  null fp = false -> h1 <> 0 -> h2 <> 0 -> aliases_frame fp (Ptr h1 zero_output) = false -> aliases_frame fp (Ptr h2 zero_output) = false ->
  let '(ret, f) := mt6878_camera_frame fp (Some j) 0 n n (Ptr h1 (output_of j (raw_layout j) (raw j))) (Ptr h2 (output_of j (pdaf_layout j) (pdaf j))) in
  ret = 0 /\ cur_workbuf_offset f = 0 /\ cur_workbuf_size f = n /\ others f = zeros 58955 /\
  forall slot tag, (slot < 2)%nat -> (tag < 8)%nat -> camsv_param f !! slot ≫= (fun row => row !! tag) = Some
    (if (slot =? 0)%nat && (Z.of_nat tag =? raw_tag j) then CamsvFrame (sv_id j + 3) (raw_tag j) 0 (output_of j (raw_layout j) (raw j))
     else if (slot =? 0)%nat && (Z.of_nat tag =? pdaf_tag j) then CamsvFrame (sv_id j + 3) (pdaf_tag j) 0 (output_of j (pdaf_layout j) (pdaf j))
     else CamsvFrame 0 0 0 zero_output).
Proof.
  intros Hj Hr Hin Hn Un Hf H1 H2 A1 A2. pose proof (proj2 (recipe_inputs_cases j c r Hj Hr) Hin) as [(T1 & T2 & T3) _ _ _ _ _ _]. pose proof Hj as (U1 & U2 & U3 & _).
  assert (S1 : sv_id j <= 1) by (unfold mt6878_camsv_recipe_inputs in Hin; destruct ((1 <? sv_id j) || _ || _ || _) eqn:G; [discriminate|lia]).
  rewrite (frame_accepts fp j c r n h1 h2) by assumption. split; [reflexivity|]. split; [reflexivity|]. split; [reflexivity|]. split; [reflexivity|]. intros slot tag Hs Ht. unfold is_u32 in *.
  assert (Ep : sv_pipe_of j = sv_id j + 3) by (unfold sv_pipe_of; apply u32_id; unfold is_u32; lia). assert (Et : forall z, 0 <= z <= 3 -> u8 z = z) by (intros; unfold u8; apply Z.mod_small; lia).
  unfold frame_of. rewrite Ep. generalize (output_of j (raw_layout j) (raw j)) as o1, (output_of j (pdaf_layout j) (pdaf j)) as o2. intros o1 o2. unfold set_tag. cbn [camsv_param]. rewrite !Et by lia.
  assert (Er : raw_tag j = 0 \/ raw_tag j = 1 \/ raw_tag j = 2 \/ raw_tag j = 3) by lia. assert (Eq : pdaf_tag j = 0 \/ pdaf_tag j = 1 \/ pdaf_tag j = 2 \/ pdaf_tag j = 3) by lia.
  destruct slot as [|[|slot]]; [| |lia]; do 8 (destruct tag as [|tag]; [destruct Er as [E|[E|[E|E]]], Eq as [F|[F|[F|F]]]; rewrite E, F in T3 |- *; try contradiction; reflexivity|]); lia.
Qed.

(** The events given to the transport and the messages that arrived. *)
Definition said (s : trace pipeline_request pipeline_answer) : list mtkcam_ipi_event := flat_map (fun e => match e.1 with Transport (Trysend _ v) => [v] | _ => [] end) s.
Definition heard (s : trace pipeline_request pipeline_answer) : list arrival :=
  flat_map (fun e => match e with (Transport Callbacks, Delivered a) => arrivals a | _ => [] end) s.
Lemma said_app s1 s2 : said (s1 ++ s2) = said s1 ++ said s2.
Proof. apply flat_map_app. Qed.
Lemma heard_app s1 s2 : heard (s1 ++ s2) = heard s1 ++ heard s2.
Proof. apply flat_map_app. Qed.
Lemma silent_said s : silent s -> said s = [] /\ heard s = [].
Proof. induction 1 as [|[q a] s H _ [IH1 IH2]]; [auto|]. cbn in H. destruct q; cbn; auto. discriminate. Qed.
Lemma lift_said s : said (lift_trace Transport Delivered s) = sends s /\ heard (lift_trace Transport Delivered s) = received s.
Proof. induction s as [|[[ep v|] a] s [IH1 IH2]]; [auto| |]; cbn; (split; [|]); f_equal; assumption. Qed.
Definition published_events (o : mt6878_pipeline_owner) (c : mtkcam_ipi_config_param) (work_fd message_fd : Z) : list mtkcam_ipi_event :=
  [Event (u8 (o_session (p_ccd o))) 0 CAM_CMD_CREATE_SESSION
     (SessionData (SessionParam (IpiBuffer (dma (range (work o))) (u32 work_fd) (bsize (range (work o)))) (IpiBuffer 0 (u32 message_fd) (bsize (range (message_map o))))));
   Event (u8 (o_session (p_ccd o))) 0 CAM_CMD_CONFIG (ConfigData c)].
Lemma announce_zero o c j wfd mfd : idle (p_ccd o) -> performs (announce o (Some c) j wfd mfd) (fun q s => q.1 = 0 ->
  said s = published_events o c wfd mfd /\ published q.2 = true /\ p_job q.2 = j /\ pointee (va (message_map q.2)) = frame_of j (bsize (range (work o)))).
Proof.
  intros Hi. unfold announce. eapply performs_bind; [apply fill_zero|]. intros q s [S1 R]. trace_step; [trace_step; cbn [fst]; lia|]. cbv zeta. destruct (R ltac:(lia)) as [Rf Rr].
  pose proof (refilled_same _ _ Rr) as (_ & Ec & Ew & Em & _). assert (Hi' : idle (p_ccd (set_published q.2 j))) by (cbn [set_published p_ccd]; now rewrite Ec).
  eapply performs_bind; [apply performs_via, (performs_and _ _ _ (create_ordered _ _ Hi') (create_zero _ _ Hi'))|]. intros q1 s1 (t1 & -> & O1 & Z1).
  eapply (performs_bind _ _ (fun q2 s2 => q2.1 = 0 -> q1.1 = 0 /\ said s2 = [Event (u8 (o_session q1.2)) 0 CAM_CMD_CONFIG (ConfigData c)])).
  { trace_step; [|trace_step; lia]. eapply performs_impl; [apply performs_via, (config_zero q1.2 c (proj1 O1))|]. intros q2 s2 (t2 & -> & Z2) Hz. split; [lia|]. rewrite (proj1 (lift_said t2)). now apply Z2. }
  intros q2 s2 H2. trace_step. rewrite app_nil_r. cbn [fst snd]. intros Hz. destruct (H2 Hz) as [Hz1 Hs2]. rewrite Hz. cbn [Z.eqb negb]. split; [|auto].
  rewrite !said_app, (proj1 (silent_said _ S1)), (proj1 (lift_said t1)), (Z1 Hz1), Hs2. cbn [app]. destruct O1 as (_ & Es & _). rewrite Es. cbn [set_published p_ccd work message_map workbuf msg_buf ccd_fd ipi_size]. unfold published_events. now rewrite Ec, Ew, Em.
Qed.
Lemma said_after {A B} (m : pio A) (k : A -> pio B) R1 (R : B -> list mtkcam_ipi_event -> Prop) : silently m R1 -> (forall a, R1 a -> performs (k a) (fun b s => R b (said s))) -> performs (bind m k) (fun b s => R b (said s)).
Proof. intros Hm Hk. eapply performs_bind; [exact Hm|]. intros a s [S1 Ha]. eapply performs_impl; [apply (Hk a Ha)|]. intros b s' H. rewrite said_app, (proj1 (silent_said _ S1)). exact H. Qed.
Lemma said_then {A} (m : pio A) b (R : A -> list mtkcam_ipi_event -> Prop) : performs m (fun a s => R a (said s)) -> performs (let! q := m in let! _ := do_ (Dma_buf_put b) in ret q) (fun a s => R a (said s)).
Proof.
  intros Hm. eapply performs_bind; [exact Hm|]. intros a s H. eapply performs_impl; [apply (silently_bind _ _ (fun _ => True) (fun x => x = a)); [now apply silently_do|intros; now apply silently_ret]|].
  intros x s' [S2 ->]. rewrite said_app, (proj1 (silent_said _ S2)), app_nil_r. exact H.
Qed.

(** What a publication that returned 0 did, by what it said. *)
Definition publish_outcome (o : mt6878_pipeline_owner) (config : option mtkcam_ipi_config_param) (job_ : option mt6878_camsv_job) (wfd mfd : Z) (q : Z * mt6878_pipeline_owner)
    (l : list mtkcam_ipi_event) : Prop :=
  q.1 = 0 -> exists j c, job_ = Some j /\ config = Some c /\ l = published_events o c wfd mfd /\ published q.2 = true /\ p_job q.2 = j /\
    pointee (va (message_map q.2)) = frame_of j (bsize (range (work o))).
Lemma publish_ok captured o config job_ res wfd mfd x y : idle (p_ccd o) ->
  performs (mt6878_pipeline_publish captured o config job_ res wfd mfd x y) (fun q s => publish_outcome o config job_ wfd mfd q (said s)).
Proof.
  intros Hi. set (R := publish_outcome o config job_ wfd mfd). assert (Hno : forall z, z <> 0 -> performs (ret (z, o)) (fun q s => R q (said s))) by (intros z Hz; trace_step; intros X; contradiction).
  assert (Hget : forall z, IS_ERR z = true -> z <> 0) by (unfold IS_ERR; lia).
  unfold mt6878_pipeline_publish. apply (said_after _ _ (fun _ => True) R); [apply owner_task_silently|]. intros r _. trace_step; [apply Hno; lia|]. trace_step; [apply Hno; lia|]. cbv zeta. trace_step; [apply Hno; lia|].
  destruct job_ as [j|]; [|discriminate G1]. destruct config as [c|]; [|discriminate G1].
  apply (said_after _ _ (fun _ => True) R); [now apply silently_call|]. intros w _. trace_step; [now apply Hno, Hget|]. apply (said_after _ _ (fun _ => True) R); [now apply silently_call|]. intros m _.
  apply said_then. trace_step; [now apply Hno, Hget|]. apply said_then. trace_step; [apply Hno; lia|].
  eapply performs_impl; [apply (announce_zero o c j wfd mfd Hi)|]. intros q s H Hz. destruct (H Hz) as (H1 & H2 & H3 & H4). exists j, c. auto 6.
Qed.
(** The queue of a composition that returned 0. *)
Definition composed (o : mt6878_pipeline_owner) (c0 : mt6878_camsv_buffer) (q : Z * mt6878_pipeline_owner * option mt6878_camsv_buffer) (s : trace pipeline_request pipeline_answer) : Prop :=
  (q.1.1 <> 0 -> q.2 = Some c0) /\
  (Forall arrival_ok (heard s) -> buffer_u (range (work o)) -> is_u32 (sequence (p_job o)) -> q.1.1 = 0 ->
     said s = [Event (u8 (o_session (p_ccd o))) (sequence (p_job o)) CAM_CMD_FRAME (FrameData 0 sizeof_frame_param)] /\ q.2 = Some (Buffer (dma (range (work o))) 720 1) /\
     exists a p, a ∈ heard s /\ from a = client (p_ccd o) /\ message a = Some p /\ slice p 0 75 = frame_reply (o_session (p_ccd o)) (sequence (p_job o)) 0 720).
Lemma compose_ok o t c0 : idle (p_ccd o) -> performs (mt6878_pipeline_compose o t (Some c0)) (composed o c0).
Proof.
  intros Hi. assert (Hno : forall z o' s, z <> 0 -> composed o c0 (z, o', Some c0) s) by (intros z o' s Hz; split; [auto|cbn [fst]; intros; contradiction]).
  unfold mt6878_pipeline_compose. eapply performs_bind; [apply owner_task_silently|]. intros r s [S1 _]. trace_step; [trace_step; apply Hno; lia|]. trace_step; [trace_step; apply Hno; destruct (negb (p_error o =? 0)) eqn:X; lia|].
  eapply performs_bind; [apply performs_via, (performs_and _ _ _ (frame_acknowledged (p_ccd o) (sequence (p_job o)) 0 92291 t (zeros 75) Hi) (frame_recorded (p_ccd o) (sequence (p_job o)) 0 92291 t (Some (zeros 75)) Hi))|].
  intros q s1 (t1 & -> & (F1 & _ & F3 & F4) & Rc). cbv zeta. trace_step; [trace_step; apply Hno; lia|].
  destruct (F1 ltac:(lia)) as (S2 & a & Ha & (K1 & K2 & K3 & p & K4 & _) & Hq). rewrite K4 in Hq. cbn [fmap option_fmap option_map] in Hq. rewrite Hq. cbn [set_ccd p_ccd work p_job]. rewrite F4.
  destruct (mt6878_camera_ack _ _ _ _ _) as [[r' st] b] eqn:E. set (r2 := if negb (r' =? 0) then _ else _). trace_step; [trace_step; apply Hno; lia|]. trace_step. split; [contradiction|]. rewrite app_nil_r. cbn [fst snd].
  rewrite said_app, heard_app, (proj1 (silent_said _ S1)), (proj2 (silent_said _ S1)), (proj1 (lift_said t1)), (proj2 (lift_said t1)). cbn [app]. intros Hok Hw Hk _. split; [exact S2|].
  assert (Hp : bytes_ok p /\ len p = length a) by (rewrite Forall_forall in Hok; specialize (Hok a Ha); unfold arrival_ok in Hok; now rewrite K4 in Hok). destruct Hp as [Hp Hl].
  assert (Hv : is_u8 (o_session (p_ccd o))).
  { destruct Rc as [_ Rc]. rewrite S2 in Rc. apply Forall_cons in Rc as [Rc _]. destruct (Rc eq_refl) as (_ & V & _). unfold mt6878_camera_cookie_valid in V. cbn [frame_no] in V. unfold is_u32 in Hk. unfold is_u8.
    assert (0 <= Z.shiftr (sequence (p_job o)) 24) by (apply Z.shiftr_nonneg; lia). lia. }
  assert (Hf : bytes_ok (firstn 75 p) /\ len (firstn 75 p) = 75) by (split; [now apply bytes_ok_take|unfold len in *; rewrite length_firstn; lia]). destruct Hf as [Hf Hl'].
  pose proof (ack_cases (CameraReply (o_session (p_ccd o)) (sequence (p_job o)) 0 0) (firstn 75 p) (range (work o)) zero_buffer ltac:(split; [reflexivity|split; [reflexivity|split; assumption]]) Hf Hw) as H.
  rewrite Hl', E in H. unfold r2 in G2. clear r2. destruct H as [(off & n & -> & _ & A1 & A2 & _ & _ & ->)|(Hr & _)]; [|replace (r' =? 0) with false in G2 by lia; cbn [negb] in G2; lia].
  cbn [Z.eqb negb default from_option id queue_of dma bsize] in G2 |- *. assert (Ho : off = 0 /\ n = 720) by (destruct (negb (dma (range (work o)) + off =? dma (range (work o))) || negb (n =? 59 * 12 + 12)) eqn:X; [discriminate G2|lia]). destruct Ho as [-> ->].
  split; [unfold queue_of; now rewrite Z.add_0_r|]. exists a, p. split; [exact Ha|]. split; [congruence|]. split; [exact K4|]. cbn [r_session r_cookie] in A1. rewrite <- A1. unfold slice. change (Z.to_nat 0) with 0%nat. change (Z.to_nat 75) with 75%nat. rewrite !skipn_O. now rewrite firstn_firstn.
Qed.

(** A published session. A publication that returns 0 announced exactly two
    events in order, the creation with the owner's two mapped buffers and the
    configuration, after the message buffer held the frame of the job, and the
    job is the owner's. A composition that returns 0 sent exactly that job's
    frame, and the client delivered an acknowledgement of it whose command queue
    is the first 720 bytes of the work buffer, which is what the caller gets; on
    any other status the caller's queue is untouched. *)
Theorem pipeline_session captured o config job_ res wfd mfd x y t c0 : idle (p_ccd o) ->
  performs (mt6878_pipeline_publish captured o config job_ res wfd mfd x y) (fun q s => publish_outcome o config job_ wfd mfd q (said s)) /\
  performs (mt6878_pipeline_compose o t (Some c0)) (composed o c0).
Proof. intros Hi. split; [now apply publish_ok|now apply compose_ok]. Qed.

End Pipeline.

(** ** A life *)

Module Pipeline_run.
Definition capture : mt6878_camera_capture_owner :=
  CaptureOwner (CameraReply 1 0x01000007 0 0) Frame.job zero_buffer (Some empty_pair) (Some example_backend) (Some (CamsvResources [1; 1; 1; 1; 1; 1] 8 1)) 5 true.
Definition captured_at (a : Z) : option mt6878_camera_capture_owner := if a =? 77 then Some capture else None.
Definition size_of_buffer (b : Z) : Z := if b =? 101 then 4096 else 102400.
(** A kernel that grants everything and a client that acknowledges the frame. *)
Definition env : environment pipeline_request pipeline_answer := fun t q =>
  match q with
  | Current => Task 3 true
  | Domain_of _ => Status 8
  | Dma_buf_get fd => Status (100 + fd)
  | Attach b _ => Status (2 * b)
  | Map_attachment a => Mapped (if a =? 202 then SgTable 300 1 1 4096 0x4000000 else SgTable 301 1 1 102400 0x5000000)
  | Vmap b => Vmapped 0 false false (Ptr 0x9000000 zero_frame)
  | Create_ept _ _ => Status 9
  | Kcalloc => Status 0xa000000
  | Endpoint_is_ours _ | Trylock_owner | Trylock_ccd => Status 1
  | Find_link _ _ _ => Link 1 true
  | Get_fmt _ _ => Format 0 (MbusFormat 1 2 4000 3000)
  | Get_frame_desc _ _ => Desc 0 (FrameDesc 3 [DescEntry true 0 0 0x2b 15000000; DescEntry true 0 0 0x30 3750000])
  | Get_mbus_config _ _ => Bus 0 (MbusConfig 4 [0; 1; 2])
  | Transport Callbacks =>
    Delivered (Answer 0 (match last t with
      | Some (Transport (Trysend _ e), _) => if cmd_id e =? CAM_CMD_FRAME then [Arrival 7 (Some (frame_reply 1 0x01000007 0 720)) 75 2] else []
      | _ => []
      end))
  | Transport (Trysend _ _) => Delivered (Answer 0 [])
  | _ => Status 0
  end.
Definition setup : list pipeline_call :=
  [PImport 1 2; PEndpoint (Ptr 7 (RpmsgDevice 0 (camsys_name 1))); PBind (Ptr 20 (Subdev 1 true)) 0 (Ptr 21 (Subdev 1 true)) (Ptr 77 capture);
   PPublish captured_at (Some Frame.config) (Some Frame.job) (Some Frame.resources) 1 2 raw_buffer pdaf_buffer].
Definition life (cs : list pipeline_call) := pipeline_life size_of_buffer 1 2 3 4 5 8 1 cs env [].
(** Two callbacks enter, one runs, a detach is refused until both left. *)
Definition interleaved : list pipeline_call :=
  [PEnter (Arrival 7 None 0 UINT32_MAX); PEnter (Arrival 8 None 0 0); PDetach; PRun 1; PLeave 1; PEnter (Arrival 7 None 0 UINT32_MAX); PRun 0; PLeave 0; PDetach; PRelease captured_at].
Example composes : let '(sc, s) := life (setup ++ [PCompose 100 (Some zero_buffer)]) in
  published (s_owner sc) = true /\ p_error (s_owner sc) = 0 /\ cmd_id <$> said s = [0; 1; 2] /\ m_buffer (work (s_owner sc)) = 101.
Proof. vm_compute. auto. Qed.
Definition detached : scene := (life (setup ++ interleaved)).1.
Example detaches : callbacks_detached (s_owner detached) = true /\ published (s_owner detached) = true /\ closed (gate (p_ccd (s_owner detached))) = 1 /\ consumer (s_owner detached) = 3.
Proof. vm_compute. auto. Qed.
(** Without a publication everything is given back. *)
Example released_all : let '(sc, s) := life [PImport 1 2; PRelease captured_at] in owned (s_owner sc) = [] /\ consumer (s_owner sc) = 0.
Proof. vm_compute. auto. Qed.
End Pipeline_run.
Lemma pipeline_resources_witness : moves acquired released [] (Pipeline_run.life Pipeline_run.setup).2 (owned (s_owner (Pipeline_run.life Pipeline_run.setup).1)) /\ published (s_owner (Pipeline_run.life Pipeline_run.setup).1) = true.
Proof.
  destruct (proj1 (pipeline_resources Pipeline_run.size_of_buffer 1 2 3 4 5 8 1 Pipeline_run.setup ltac:(lia)) Pipeline_run.env []) as (sc & s & E & A & _). unfold Pipeline_run.life. rewrite E. split; [exact A|].
  apply (f_equal (fun x => published (s_owner x.1))) in E. cbn [fst snd] in *. rewrite <- E. vm_compute. reflexivity.
Defined.
Lemma pipeline_callbacks_witness : flights Pipeline_run.detached = [] /\ forall cs, performs (pipeline_history Pipeline_run.size_of_buffer 1 2 3 4 Pipeline_run.detached cs) (fun sc' s =>
  flights sc' = [] /\ p_ccd (s_owner sc') = p_ccd (s_owner Pipeline_run.detached) /\ callbacks_detached (s_owner sc') = true /\ silent s).
Proof.
  apply (pipeline_callbacks Pipeline_run.size_of_buffer 1 2 3 4 5 8 1 Pipeline_run.detached).
  - lia.
  - exists (Pipeline_run.setup ++ Pipeline_run.interleaved), Pipeline_run.env, (Pipeline_run.life (Pipeline_run.setup ++ Pipeline_run.interleaved)).2. unfold Pipeline_run.detached, Pipeline_run.life. now destruct (pipeline_life _ _ _ _ _ _ _ _ _ _ _).
  - vm_compute. reflexivity.
Defined.
Lemma frame_message_exact_witness : (mt6878_camera_frame (Ptr 0x9000000 zero_frame) (Some Frame.job) 0 4096 4096 (Ptr 0xa000000 (output_of Frame.job (raw_layout Frame.job) (raw Frame.job)))
  (Ptr 0xa00081a (output_of Frame.job (pdaf_layout Frame.job) (pdaf Frame.job)))).1 = 0.
Proof.
  assert (Uj : job_u Frame.job) by (unfold job_u, buffer_u, layout_u32, is_u32, is_u64; cbn; lia).
  pose proof (frame_message_exact (Ptr 0x9000000 zero_frame) Frame.job Frame.config Frame.resources 4096 0xa000000 0xa00081a Uj) as H.
  destruct (mt6878_camera_frame _ _ _ _ _ _ _) as [r f]. destruct H as [H _]; [split; unfold is_u32; cbn; lia|vm_compute; reflexivity|lia|unfold is_u32; lia|reflexivity|lia|lia|reflexivity|reflexivity|exact H].
Defined.
Lemma pipeline_session_witness : let o := s_owner (Pipeline_run.life Pipeline_run.setup).1 in
  exists q s, mt6878_pipeline_compose o 100 (Some zero_buffer) Pipeline_run.env [] = (q, s) /\ q.1.1 = 0 /\ composed o zero_buffer q s.
Proof.
  intros o. assert (Hi : idle (p_ccd o)).
  { assert (E : p_ccd o = Owner 0 (Some 9) 7 1 1 1 0 102400 4096 0 (new_session 1)) by (vm_compute; reflexivity). rewrite E. split; [unfold ccd_inv, flag; cbn; lia|reflexivity|reflexivity|cbn; lia]. }
  destruct (proj2 (pipeline_session Pipeline_run.captured_at o None None None 1 2 raw_buffer pdaf_buffer 100 zero_buffer Hi) Pipeline_run.env []) as (q & s & E & H). exists q, s. split; [exact E|].
  split; [|exact H]. apply (f_equal (fun x => x.1.1.1)) in E. cbn [fst] in E. rewrite <- E. vm_compute. reflexivity.
Defined.
