(* ===== verification/Pss.v ===== *)
(** * RSA-PSS signatures: [modem/mt6878_md_pss32.c]

    The fixed profile RSA-2048, SHA-256, MGF1-SHA-256, salt of 32 bytes. The
    kernel's allocators, raw RSA and hash driver are requests to an arbitrary
    environment ([Trace]); the padding check, the bounds and the release of
    resources are the code's. The reference is the encoding of RFC 8017,
    section 9.1.1, written as a constructor of encoded messages. *)

From S2P Require Import Prelude Trace.
Open Scope Z_scope.

Abbreviation MD_RSA_BYTES := 256 (only parsing).
Abbreviation MD_HASH_BYTES := 32 (only parsing).
Abbreviation MD_DB_BYTES := 223 (only parsing).
Abbreviation MD_PAD_BYTES := 190 (only parsing).

(** The objects a context holds; the tables, owner, private copy and firmware
    file of its users ([Cert], [FwMeta]); and what the kernel is asked for. An
    acquired firmware file is the output of the answer. *)
Inductive resource : Type := Ctx | Rsa | Sha | Desc | Req | Work | Owner | Snapshot | Blob.
#[export] Instance resource_eq : EqDecision resource.
Proof. solve_decision. Defined.
Inductive request : Type :=
| Acquire (r : resource)
| Release (r : resource)
| Set_pub_key (key : list Z)
| Maxsize
| Digestsize
| Digest (bytes : list Z)
| Encrypt (key signature : list Z).
(** A status, the bytes stored and their reported length. A negative status of
    an allocation is a null or error pointer. *)
Record answer : Type := Answer { status : Z; output : list Z; out_len : Z }.
Abbreviation pio := (io request answer) (only parsing).
Abbreviation ptrace := (trace request answer) (only parsing).
Open Scope io_scope.

(** [rsa] is the transform with the key it was given. *)
Record mt6878_md_pss32 : Type := Pss {
  rsa : option (list Z); sha : bool; desc : bool; req : bool; signature : list Z; em : list Z
}.

Definition md_crypto_error (error : Z) : Z := if 0 <? error then - EPROTO else error.

Definition free_if (b : bool) (r : resource) : pio unit :=
  if b then let! _ := ask (Release r) in ret tt else ret tt.
Definition held {A} (o : option A) : bool := match o with Some _ => true | None => false end.
Definition mt6878_md_pss32_destroy (ctx : option mt6878_md_pss32) : pio unit :=
  match ctx with
  | None => ret tt
  | Some c =>
    let! _ := free_if (req c) Req in
    let! _ := free_if (desc c) Desc in
    let! _ := free_if (sha c) Sha in
    let! _ := free_if (held (rsa c)) Rsa in
    let! _ := ask (Release Ctx) in ret tt
  end.

Definition key_prefix : list Z := [0x30; 0x82; 1; 0x0a; 2; 0x82; 1; 1; 0].
Definition key_exponent : list Z := [2; 3; 1; 0; 1].
Definition bytes_eqb (a b : list Z) : bool := bool_decide (a = b).
Definition mt6878_md_pss32_create (key : option (list Z)) : pio (Z + mt6878_md_pss32) :=
  match key with
  | None => ret (inl (- EINVAL))
  | Some k =>
    if negb (len k =? 270) || negb (bytes_eqb (slice k 0 9) key_prefix) || (Z.land (byte_at k 9) 0x80 =? 0)
       || (Z.land (byte_at k 264) 1 =? 0) || negb (bytes_eqb (slice k 265 5) key_exponent)
    then ret (inl (- EINVAL))
    else
    let fail c r : pio (Z + mt6878_md_pss32) := let! _ := mt6878_md_pss32_destroy (Some c) in ret (inl r) in
    let! a := ask (Acquire Ctx) in
    if status a <? 0 then ret (inl (- ENOMEM))
    else
    let c := Pss None false false false (zeros MD_RSA_BYTES) (zeros MD_RSA_BYTES) in
    let! a := ask (Acquire Rsa) in
    if status a <? 0 then fail c (status a)
    else
    let c := Pss (Some []) false false false (signature c) (em c) in
    let! a := ask (Set_pub_key k) in
    if negb (md_crypto_error (status a) =? 0) then fail c (md_crypto_error (status a))
    else
    let c := Pss (Some k) false false false (signature c) (em c) in
    let! a := ask Maxsize in
    if negb (status a =? MD_RSA_BYTES) then fail c (- EPROTO)
    else
    let! a := ask (Acquire Sha) in
    if status a <? 0 then fail c (status a)
    else
    let c := Pss (rsa c) true false false (signature c) (em c) in
    let! a := ask Digestsize in
    if negb (status a =? MD_HASH_BYTES) then fail c (- EPROTO)
    else
    let! a := ask (Acquire Desc) in
    if status a <? 0 then fail c (- ENOMEM)
    else
    let c := Pss (rsa c) true true false (signature c) (em c) in
    let! a := ask (Acquire Req) in
    if status a <? 0 then fail c (- ENOMEM)
    else ret (inr (Pss (rsa c) true true true (signature c) (em c)))
  end.

(** The status and the digest buffer. *)
Definition mt6878_md_pss32_sha256 (ctx : option mt6878_md_pss32) (bytes digest : option (list Z)) : pio (Z * option (list Z)) :=
  match ctx, bytes, digest with
  | Some _, Some b, Some _ =>
    if (len b =? 0) || (64 * 1024 * 1024 <? len b) then ret (- EINVAL, digest)
    else
    let! a := ask (Digest b) in
    let r := md_crypto_error (status a) in
    if negb (r =? 0) then ret (r, Some (zeros MD_HASH_BYTES)) else ret (0, Some (output a))
  | _, _, _ => ret (- EINVAL, digest)
  end.

Definition seed_of (h : list Z) (count : Z) : list Z :=
  h ++ [u8 (Z.shiftr count 24); u8 (Z.shiftr count 16); u8 (Z.shiftr count 8); u8 count].
(** The mask loop; [db] are the bytes stored so far. *)
Fixpoint mask_loop (fuel : nat) (c : mt6878_md_pss32) (h : list Z) (offset count : Z) (db : list Z) : pio (Z * list Z) :=
  match fuel with
  | O => ret (0, db)
  | S fuel =>
    if MD_DB_BYTES <=? offset then ret (0, db)
    else
    let! p := mt6878_md_pss32_sha256 (Some c) (Some (seed_of h count)) (Some (zeros MD_HASH_BYTES)) in
    if negb (p.1 =? 0) then ret (p.1, db)
    else
    let mask := default [] p.2 in
    mask_loop fuel c h (offset + MD_HASH_BYTES) (count + 1)
      (db ++ zip_with Z.lxor (slice (em c) offset (Z.min MD_HASH_BYTES (MD_DB_BYTES - offset))) mask)
  end.
Definition clear_top (db : list Z) : list Z := match db with [] => [] | b :: db => Z.land b 0x7f :: db end.
Definition md_pss32_encoded (c : mt6878_md_pss32) (hash : list Z) : pio Z :=
  if negb (byte_at (em c) (MD_RSA_BYTES - 1) =? 0xbc) || negb (Z.land (byte_at (em c) 0) 0x80 =? 0) then ret (- EKEYREJECTED)
  else
  let h := slice (em c) MD_DB_BYTES MD_HASH_BYTES in
  let! p := mask_loop 8 c h 0 0 [] in
  if negb (p.1 =? 0) then ret p.1
  else
  let db := clear_top p.2 in
  if negb (forallb (Z.eqb 0) (slice db 0 MD_PAD_BYTES)) then ret (- EKEYREJECTED)
  else if negb (byte_at db MD_PAD_BYTES =? 1) then ret (- EKEYREJECTED)
  else
  let prime_input := zeros 8 ++ hash ++ slice db (MD_PAD_BYTES + 1) MD_HASH_BYTES in
  let! p := mt6878_md_pss32_sha256 (Some c) (Some prime_input) (Some (zeros MD_HASH_BYTES)) in
  if (p.1 =? 0) && negb (bytes_eqb h (default [] p.2)) then ret (- EKEYREJECTED) else ret p.1.

Definition with_buffers (c : mt6878_md_pss32) (s e : list Z) : mt6878_md_pss32 := Pss (rsa c) (sha c) (desc c) (req c) s e.
Definition mt6878_md_pss32_verify (ctx : option mt6878_md_pss32) (tbs sig : option (list Z)) : pio (Z * option mt6878_md_pss32) :=
  match ctx, tbs, sig with
  | Some c, Some t, Some s =>
    if (len t =? 0) || (16384 <? len t) || negb (len s =? MD_RSA_BYTES) then ret (- EINVAL, ctx)
    else
    let! p := mt6878_md_pss32_sha256 ctx tbs (Some (zeros MD_HASH_BYTES)) in
    if negb (p.1 =? 0) then ret (p.1, ctx)
    else
    let hash := default [] p.2 in
    let c := with_buffers c s (zeros MD_RSA_BYTES) in
    let! a := ask (Encrypt (default [] (rsa c)) (signature c)) in
    let c := with_buffers c s (output a) in
    let r := md_crypto_error (status a) in
    let r := if (r =? 0) && negb (out_len a =? MD_RSA_BYTES) then - EPROTO else r in
    let! r := if r =? 0 then md_pss32_encoded c hash else ret r in
    ret (r, Some (with_buffers c (zeros MD_RSA_BYTES) (zeros MD_RSA_BYTES)))
  | _, _, _ => ret (- EINVAL, ctx)
  end.

(** ** Encoded messages (RFC 8017, sections 9.1.1 and B.2.1) *)

Definition mgf1 (H : list Z -> list Z) (seed : list Z) (n : Z) : list Z :=
  firstn (Z.to_nat n) (concat ((fun i => H (seed ++ rev (le_to 4 i))) <$> seqZ 0 ((n + 31) / 32))).
(** emBits 2047, a salt of 32 bytes. *)
Definition emsa_pss (H : list Z -> list Z) (mhash salt : list Z) : list Z :=
  let h := H (zeros 8 ++ mhash ++ salt) in
  let db := zeros 190 ++ [1] ++ salt in
  clear_top (zip_with Z.lxor db (mgf1 H h 223)) ++ h ++ [0xbc].
Definition pss_encodes (H : list Z -> list Z) (mhash e : list Z) : Prop :=
  exists salt, len salt = 32 /\ e = emsa_pss H mhash salt.

(** An environment that hashes with [H] and exponentiates with [R]. *)
Class Crypto (H : list Z -> list Z) (R : list Z -> list Z -> list Z) : Prop := {
  hash_bytes b : len (H b) = 32 /\ bytes_ok (H b);
  rsa_bytes k s : len (R k s) = 256 /\ bytes_ok (R k s)
}.
Definition honest (H : list Z -> list Z) (R : list Z -> list Z -> list Z) (e : request * answer) : Prop :=
  match e.1 with
  | Digest b => status e.2 = 0 /\ output e.2 = H b
  | Encrypt k s => status e.2 = 0 /\ output e.2 = R k s /\ out_len e.2 = 256
  | _ => True
  end.
Definition succeeded (e : request * answer) : Prop := status e.2 = 0.

Lemma seed_counter h i : seed_of h i = h ++ rev (le_to 4 i).
Proof.
  unfold seed_of. cbn [le_to rev app]. rewrite !Z.shiftr_div_pow2, !Z.div_div by lia. reflexivity.
Qed.
Lemma land_127 b : is_u8 b -> Z.land b 0x80 = 0 -> b < 128.
Proof.
  intros [Hb1 Hb2] Hb. destruct (Z.lt_ge_cases b 128) as [|Hge]; [assumption|]. exfalso.
  assert (E : Z.testbit (Z.land b 0x80) 7 = true).
  { rewrite Z.land_spec. change (Z.testbit 0x80 7) with true. rewrite andb_true_r. apply Z.testbit_true; [lia|]. dlia. }
  rewrite Hb in E. discriminate.
Qed.
Lemma bits_below b n : 0 <= b < 128 -> 7 <= n -> Z.testbit b n = false.
Proof.
  intros Hb Hn. destruct (Z.eq_dec b 0) as [->|]; [apply Z.bits_0|]. apply Z.bits_above_log2; [lia|].
  apply Z.lt_le_trans with 7; [|lia]. apply Z.log2_lt_pow2; lia.
Qed.
Lemma unmask_top b c : 0 <= b < 128 -> Z.land (Z.lxor (Z.land (Z.lxor b c) 0x7f) c) 0x7f = b.
Proof.
  intros Hb. apply Z.bits_inj'. intros n Hn. rewrite !Z.land_spec, !Z.lxor_spec, !Z.land_spec, !Z.lxor_spec.
  change 0x7f with (Z.ones 7). rewrite Z.testbit_ones_nonneg by lia. destruct (Z.ltb_spec n 7) as [Hlt|Hge].
  - destruct (Z.testbit b n), (Z.testbit c n); reflexivity.
  - rewrite (bits_below b n) by lia. now rewrite !andb_false_r.
Qed.
Lemma unmask l : forall m, length m = length l -> zip_with Z.lxor (zip_with Z.lxor l m) m = l.
Proof.
  induction l as [|b l IH]; intros [|c m] E; cbn in *; try lia; [reflexivity|]. rewrite IH by lia. f_equal.
  now rewrite Z.lxor_assoc, Z.lxor_nilpotent, Z.lxor_0_r.
Qed.
(** Masking twice gives the block back when its top bit is clear. *)
Lemma unmask_clear l m : length m = length l -> 0 <= byte_at l 0 < 128 ->
  clear_top (zip_with Z.lxor (clear_top (zip_with Z.lxor l m)) m) = l.
Proof.
  destruct l as [|b l], m as [|c m]; cbn; try lia; [reflexivity|]. intros E Hb. rewrite unmask by lia. f_equal. now apply unmask_top.
Qed.

(** Whatever the environment does, a success has no failed request behind it. *)
Lemma sha256_succeeded ctx b d : performs (mt6878_md_pss32_sha256 ctx b d) (fun p s => p.1 = 0 -> Forall succeeded s).
Proof.
  unfold mt6878_md_pss32_sha256. destruct ctx, b, d; repeat trace_step; cbn; try discriminate; unfold md_crypto_error in *; intros E.
  - lia.
  - apply Forall_singleton. unfold succeeded. cbn. destruct (0 <? status p) eqn:?; lia.
Qed.
Lemma mask_loop_succeeded fuel c h : forall offset count db, performs (mask_loop fuel c h offset count db) (fun p s => p.1 = 0 -> Forall succeeded s).
Proof.
  induction fuel as [|fuel IH]; intros offset count db; cbn [mask_loop]; [trace_step; intros _; apply List.Forall_nil|].
  trace_step; [trace_step; intros _; apply List.Forall_nil|]. eapply performs_bind; [apply sha256_succeeded|]. intros p s P. trace_step.
  - trace_step. cbn. lia.
  - eapply performs_impl; [apply IH|]. cbn. intros q s' Q E. apply Forall_app. split; [apply P; lia|auto].
Qed.
Lemma encoded_succeeded c hash : performs (md_pss32_encoded c hash) (fun r s => r = 0 -> Forall succeeded s).
Proof.
  unfold md_pss32_encoded. cbv zeta. trace_step; [trace_step; discriminate|]. eapply performs_bind; [apply mask_loop_succeeded|]. intros p s P.
  trace_step; [trace_step; lia|]. trace_step; [trace_step; discriminate|]. trace_step; [trace_step; discriminate|].
  eapply performs_bind; [apply sha256_succeeded|]. intros q s' Q. trace_step; trace_step; [discriminate|]. intros E. rewrite app_nil_r.
  apply Forall_app. split; [apply P; lia|auto].
Qed.

Section Exact.
Context (H : list Z -> list Z) (R : list Z -> list Z -> list Z) `{!Crypto H R}.
Local Notation hon := (honest H R).

Lemma sha256_outcome c b d : 1 <= len b <= 64 * 1024 * 1024 ->
  performs (mt6878_md_pss32_sha256 (Some c) (Some b) (Some d)) (fun p s =>
    (p.1 = 0 -> Forall succeeded s) /\ (Forall hon s -> p = (0, Some (H b)))).
Proof.
  intros Hb. unfold mt6878_md_pss32_sha256. trace_step; [exfalso; lia|]. trace_step. unfold md_crypto_error. trace_step; trace_step; cbn.
  - split; [lia|]. intros F. apply Forall_singleton in F as [F1 F2]. cbn in *. rewrite F1 in G0. discriminate.
  - assert (E : status p = 0) by (destruct (0 <? status p) eqn:?; lia). split.
    + intros _. now apply Forall_singleton.
    + intros F. apply Forall_singleton in F as [_ F2]. cbn in F2. now rewrite F2.
Qed.
Definition masks (h : list Z) (first count : Z) : list Z := concat ((fun i => H (h ++ rev (le_to 4 i))) <$> seqZ first count).
Lemma mask_loop_outcome c h : len h = 32 -> len (em c) = 256 -> forall fuel count db, 0 <= count <= 7 -> 8 - count <= Z.of_nat fuel ->
  performs (mask_loop fuel c h (32 * count) count db) (fun p s => (p.1 = 0 -> Forall succeeded s) /\
    (Forall hon s -> p = (0, db ++ zip_with Z.lxor (slice (em c) (32 * count) (223 - 32 * count)) (masks h count (7 - count))))).
Proof.
  intros Hh He. induction fuel as [|fuel IH]; intros count db Hc Hf; [lia|]. cbn [mask_loop]. trace_step.
  { trace_step. split; [intros _; apply List.Forall_nil|]. intros _. replace (Z.to_nat (223 - 32 * count)) with 0%nat by lia.
    unfold slice. replace (Z.to_nat (223 - 32 * count)) with 0%nat by lia. cbn. now rewrite app_nil_r. }
  eapply performs_bind.
  { apply (sha256_outcome c (seed_of h count)). unfold seed_of. rewrite len_app, Hh. unfold len. cbn [length]. lia. }
  intros p s [P1 P2]. trace_step.
  { trace_step. rewrite app_nil_r. split; [cbn; intros; exfalso; lia|]. intros F. specialize (P2 F). rewrite P2 in G0. discriminate. }
  replace (32 * count + 32) with (32 * (count + 1)) by lia. eapply performs_impl; [apply IH; lia|].
  cbn. intros p' s' [Q1 Q2]. split.
  { intros E. apply Forall_app. split; [apply P1; lia|now apply Q1]. }
  intros F. apply Forall_app in F as [F1 F2]. rewrite (Q2 F2), (P2 F1). cbn [fst snd default from_option id].
  rewrite <- app_assoc. do 2 f_equal. unfold masks. replace (7 - count) with (1 + (7 - (count + 1))) by lia.
  rewrite seqZ_app by lia. rewrite fmap_app, concat_app. rewrite seed_counter.
  assert (E1 : concat ((fun i => H (h ++ rev (le_to 4 i))) <$> seqZ count 1) = H (h ++ rev (le_to 4 count))).
  { change (seqZ count 1) with (seqZ count (Z.succ 0)). rewrite seqZ_cons by lia. cbn. apply app_nil_r. }
  rewrite E1. destruct (hash_bytes (h ++ rev (le_to 4 count))) as [L _]. destruct (Z.lt_ge_cases count 6) as [Hlt|Hge].
  - replace (Z.min 32 (223 - 32 * count)) with 32 by lia. replace (223 - 32 * count) with (32 + (223 - 32 * (count + 1))) by lia.
    rewrite slice_split by lia. rewrite zip_with_app; [do 3 f_equal; lia|]. pose proof (len_slice (em c) (32 * count) 32 ltac:(lia) ltac:(lia) ltac:(lia)).
    unfold len in *. lia.
  - assert (count = 6) as -> by lia. change (seqZ (6 + 1) (7 - (6 + 1))) with (@nil Z).
    change (slice (em c) (32 * (6 + 1)) (223 - 32 * (6 + 1))) with (@nil Z). cbn [fmap list_fmap concat zip_with]. rewrite !app_nil_r. reflexivity.
Qed.

Lemma masks_mgf1 h (l : list Z) : len l = 223 -> zip_with Z.lxor l (masks h 0 7) = zip_with Z.lxor l (mgf1 H h 223).
Proof. intros Hl. unfold mgf1, masks. replace (Z.to_nat 223) with (length l) by (unfold len in Hl; lia). symmetry. apply zip_with_take_r. Qed.
Lemma length_mgf1 h : length (mgf1 H h 223) = 223%nat.
Proof.
  unfold mgf1. rewrite length_take.
  assert (L : forall ks, length (concat ((fun i => H (h ++ rev (le_to 4 i))) <$> ks)) = (32 * length ks)%nat).
  { induction ks as [|k ks IH]; [reflexivity|]. cbn [fmap list_fmap concat length]. rewrite length_app.
    fold (list_fmap _ _ (fun i => H (h ++ rev (le_to 4 i))) ks) in *. change (list_fmap _ _ (fun i => H (h ++ rev (le_to 4 i))) ks) with ((fun i => H (h ++ rev (le_to 4 i))) <$> ks).
    rewrite IH. destruct (hash_bytes (h ++ rev (le_to 4 k))) as [E _]. unfold len in E. lia. }
  rewrite L, length_seqZ. reflexivity.
Qed.

(** The block the code recovers, and when it takes it. *)
Definition accepts (mhash e : list Z) : Prop :=
  let h := slice e 223 32 in
  let db := clear_top (zip_with Z.lxor (slice e 0 223) (mgf1 H h 223)) in
  byte_at e 255 = 0xbc /\ Z.land (byte_at e 0) 0x80 = 0 /\ slice db 0 190 = zeros 190 /\ byte_at db 190 = 1 /\
  h = H (zeros 8 ++ mhash ++ slice db 191 32).
Lemma split_em e : len e = 256 -> e = slice e 0 223 ++ slice e 223 32 ++ [byte_at e 255].
Proof.
  intros He. rewrite <- (slice_all e) at 1. rewrite He. change 256 with (223 + (32 + 1)). rewrite !slice_split, slice_1 by lia. reflexivity.
Qed.
Lemma len_clear_top l : len (clear_top l) = len l.
Proof. now destruct l. Qed.
Lemma clear_top_bit l : Z.land (byte_at (clear_top l) 0) 0x80 = 0.
Proof. destruct l as [|b l]; [reflexivity|]. cbn [clear_top]. rewrite byte_at_cons_0, <- Z.land_assoc. apply Z.land_0_r. Qed.
Lemma len_zip (a b : list Z) : length b = length a -> len (zip_with Z.lxor a b) = len a.
Proof. intros E. unfold len. rewrite length_zip_with. lia. Qed.
Lemma accepts_encodes mhash e : len e = 256 -> bytes_ok e -> accepts mhash e <-> pss_encodes H mhash e.
Proof.
  intros He Hb. unfold accepts, pss_encodes, emsa_pss. cbv zeta. split.
  - set (h := slice e 223 32). set (db := clear_top _). intros (H1 & H2 & H3 & H4 & H5).
    assert (Hx : len (slice e 0 223) = 223) by (apply len_slice; lia).
    assert (Hd : len db = 223) by (unfold db; rewrite len_clear_top, len_zip; [exact Hx|rewrite length_mgf1; unfold len in Hx; lia]).
    exists (slice db 191 32). split; [apply len_slice; lia|]. rewrite <- H5.
    assert (Ed : zeros 190 ++ [1] ++ slice db 191 32 = db).
    { rewrite <- H3, <- H4, <- slice_1 by lia. rewrite <- !slice_split by lia. change (190 + (1 + 32)) with 223. rewrite <- Hd. apply slice_all. }
    rewrite Ed. unfold db. rewrite unmask_clear; [rewrite <- H1; apply split_em, He|rewrite length_mgf1; unfold len in Hx; lia|].
    rewrite byte_at_slice by lia. cbn [Z.add]. pose proof (byte_at_u8 e 0 Hb) as U. split; [apply U|now apply land_127].
  - intros (salt & Hs & ->). set (h := H (zeros 8 ++ mhash ++ salt)). set (db := zeros 190 ++ [1] ++ salt).
    destruct (hash_bytes (zeros 8 ++ mhash ++ salt)) as [Lh _]. fold h in Lh.
    assert (Ld : len db = 223) by (unfold db; rewrite !len_app, len_zeros by lia; rewrite Hs; reflexivity).
    set (x := clear_top (zip_with Z.lxor db (mgf1 H h 223))).
    assert (Lx : len x = 223) by (unfold x; rewrite len_clear_top, len_zip; [exact Ld|rewrite length_mgf1; unfold len in Ld; lia]).
    assert (E1 : slice (x ++ h ++ [188]) 0 223 = x) by (apply (slice_app_mid [] x); lia).
    assert (E2 : slice (x ++ h ++ [188]) 223 32 = h) by (rewrite <- Lx at 1; apply slice_app_mid; lia).
    rewrite E1, E2. assert (E3 : clear_top (zip_with Z.lxor x (mgf1 H h 223)) = db).
    { unfold x. apply unmask_clear; [rewrite length_mgf1; unfold len in Ld; lia|]. unfold db. rewrite byte_at_app_l by (rewrite len_zeros; lia). rewrite byte_at_zeros. lia. }
    rewrite E3. split_and!.
    + rewrite byte_at_app_r, byte_at_app_r by lia. rewrite Lx, Lh. reflexivity.
    + rewrite byte_at_app_l by lia. apply clear_top_bit.
    + unfold db. apply (slice_app_mid [] (zeros 190)). now rewrite len_zeros.
    + unfold db. rewrite byte_at_app_r; rewrite len_zeros; [reflexivity|lia..].
    + unfold h at 1. do 3 f_equal. unfold db. rewrite app_assoc. rewrite <- (app_nil_r salt) at 2.
      symmetry. apply (slice_app_mid (zeros 190 ++ [1]) salt []). lia.
Qed.

Lemma forallb_zeros l : forallb (Z.eqb 0) l = true <-> l = zeros (len l).
Proof.
  unfold zeros, len. rewrite Nat2Z.id. induction l as [|b l IH]; cbn [forallb repeat length]; [cbn; tauto|].
  rewrite andb_true_iff, IH, Z.eqb_eq. split.
  - intros [<- E]. now rewrite <- E.
  - intros [= -> E]. auto.
Qed.
Lemma encoded_outcome c hash : len (em c) = 256 -> bytes_ok (em c) -> len hash = 32 ->
  performs (md_pss32_encoded c hash) (fun r s => (r = 0 -> Forall succeeded s) /\ (Forall hon s -> (r = 0 <-> pss_encodes H hash (em c)))).
Proof.
  intros He Hb Hh. enough (Hq : performs (md_pss32_encoded c hash) (fun r s => (r = 0 -> Forall succeeded s) /\ (Forall hon s -> (r = 0 <-> accepts hash (em c))))).
  { eapply performs_impl; [exact Hq|]. cbn. intros r s. now rewrite accepts_encodes. }
  unfold md_pss32_encoded, accepts. cbv zeta.
  assert (Ls : len (slice (em c) 223 32) = 32) by (apply len_slice; lia). assert (Lx : len (slice (em c) 0 223) = 223) by (apply len_slice; lia).
  trace_step; [trace_step; split; [discriminate|]; intros _; split; [discriminate|]; intros (A & B & _); cbn in A; change (256 - 1) with 255 in G; lia|].
  change (256 - 1) with 255 in G.
  eapply performs_bind; [apply (mask_loop_outcome c (slice (em c) 223 32) Ls He 8 0 []); lia|]. intros p s [P1 P2]. trace_step.
  { trace_step. rewrite app_nil_r. split; [lia|]. intros F. rewrite (P2 F) in G0. discriminate. }
  assert (Hp : Forall hon s -> p.2 = zip_with Z.lxor (slice (em c) 0 223) (mgf1 H (slice (em c) 223 32) 223)).
  { intros F. rewrite (P2 F). cbn [snd app]. change (32 * 0) with 0. change (223 - 0) with 223. change (7 - 0) with 7. now apply masks_mgf1. }
  clear P2. set (h := slice (em c) 223 32) in *. set (db := clear_top p.2).
  assert (Ld : Forall hon s -> len db = 223).
  { intros F. unfold db. rewrite (Hp F), len_clear_top, len_zip; [exact Lx|]. rewrite length_mgf1. unfold len in Lx. lia. }
  trace_step.
  { trace_step. rewrite app_nil_r. split; [discriminate|]. intros F. split; [discriminate|]. intros (_ & _ & B & _). rewrite <- (Hp F) in B.
    apply negb_true_iff in G1. assert (X : forallb (Z.eqb 0) (slice db 0 190) = true); [|congruence].
    apply forallb_zeros. specialize (Ld F). rewrite len_slice by lia. exact B. }
  trace_step.
  { trace_step. rewrite app_nil_r. split; [discriminate|]. intros F. split; [discriminate|]. intros (_ & _ & _ & B & _). rewrite <- (Hp F) in B.
    fold db in B. lia. }
  eapply performs_bind.
  { apply (sha256_outcome c (zeros 8 ++ hash ++ slice db (190 + 1) 32)). rewrite !len_app, Hh, len_zeros by lia.
    pose proof (len_nonneg (slice db (190 + 1) 32)). assert (len (slice db (190 + 1) 32) <= 32) by (unfold len, slice; rewrite length_take; lia). lia. }
  intros q s' [Q1 Q2]. apply negb_false_iff in G1, G2. trace_step; trace_step; rewrite app_nil_r.
  - split; [discriminate|]. intros F. apply Forall_app in F as [F1 F2]. split; [discriminate|]. intros (_ & _ & _ & _ & B).
    rewrite <- (Hp F1) in B. rewrite (Q2 F2) in G3. cbn [fst snd default from_option id] in G3. exfalso.
    apply andb_true_iff in G3 as [_ G3]. apply negb_true_iff, bool_decide_eq_false in G3. apply G3. exact B.
  - split; [intros E; apply Forall_app; split; [apply P1; lia|now apply Q1]|]. intros F. apply Forall_app in F as [F1 F2]. rewrite (Q2 F2) in *.
    cbn [fst snd default from_option id] in *. split; [intros _|reflexivity]. rewrite <- (Hp F1). fold db. split_and!.
    + lia.
    + lia.
    + apply forallb_zeros in G1. specialize (Ld F1). rewrite len_slice in G1 by lia. exact G1.
    + lia.
    + cbn in G3. apply negb_false_iff, bool_decide_eq_true in G3. exact G3.
Qed.

(** No signature or recovered message stays in a context. *)
Definition erased (c : mt6878_md_pss32) : Prop := signature c = zeros 256 /\ em c = zeros 256.
Lemma verify_outcome c key tbs sig : rsa c = Some key -> erased c -> 1 <= len tbs <= 16384 -> len sig = 256 ->
  performs (mt6878_md_pss32_verify (Some c) (Some tbs) (Some sig)) (fun p s =>
    p.2 = Some c /\ (p.1 = 0 -> Forall succeeded s) /\
    (Forall hon s -> (p.1 = 0 <-> pss_encodes H (H tbs) (R key sig)))).
Proof.
  intros Hk [E1 E2] Ht Hs. assert (Hc : with_buffers c (zeros 256) (zeros 256) = c) by (destruct c; unfold with_buffers; cbn [signature em rsa sha desc req] in *; now subst).
  unfold mt6878_md_pss32_verify. trace_step; [lia|].
  eapply performs_bind; [apply (sha256_outcome c tbs); lia|]. intros p s [P1 P2]. trace_step.
  { trace_step. rewrite app_nil_r. split; [reflexivity|]. split; [cbn; lia|]. intros F. rewrite (P2 F) in G0. discriminate. }
  cbv zeta. trace_step. cbn [rsa signature with_buffers]. rewrite Hk. cbn [default from_option id].
  set (r := if _ && _ then _ else _). assert (Hr : r = 0 <-> status p0 = 0 /\ out_len p0 = 256).
  { subst r. unfold md_crypto_error. clear. destruct (0 <? status p0) eqn:X; match goal with |- context [if ?b then _ else _] => destruct b eqn:Y end; lia. }
  clearbody r. eapply (performs_bind _ _ (fun r' s' => (r' = 0 -> r = 0 /\ Forall succeeded s') /\
    (hon (Encrypt key sig, p0) -> p = (0, Some (H tbs)) -> Forall hon s' -> (r' = 0 <-> pss_encodes H (H tbs) (R key sig))))).
  - destruct (Z.eqb_spec r 0) as [Er|Er]; [|trace_step; split; [intros X; lia|]; intros (A & _ & B) _ _; exfalso; apply Er, Hr; auto].
    set (c' := with_buffers _ _ _).
    assert (Hh : performs (md_pss32_encoded c' (default [] p.2)) (fun a u => output p0 = R key sig -> p = (0, Some (H tbs)) -> Forall hon u ->
      (a = 0 <-> pss_encodes H (H tbs) (R key sig)))).
    { destruct (decide (output p0 = R key sig /\ p = (0, Some (H tbs)))) as [[Eo ->]|Hn].
      - destruct (rsa_bytes key sig) as [L B]. eapply performs_impl; [apply (encoded_outcome c' (H tbs)); cbn; rewrite ?Eo; auto; apply hash_bytes|].
        intros a u [_ X] _ _. cbn in X. now rewrite <- Eo.
      - eapply performs_impl; [apply (encoded_succeeded c')|]. intros a u _ X Y. tauto. }
    eapply performs_impl; [apply performs_and; [apply (encoded_succeeded c')|exact Hh]|].
    cbn. intros a u [X Y]. split; [auto|]. intros (_ & B & _). now apply Y.
  - intros r' s' [Q1 Q2]. trace_step. rewrite app_nil_r. cbn [fst snd]. split; [exact (f_equal Some Hc)|]. split.
    + intros E. destruct (Q1 E) as [A B]. apply Forall_app. split; [apply P1; lia|]. apply List.Forall_cons; [apply Hr, A|exact B].
    + intros F. apply Forall_app in F as [F1 F2]. apply Forall_cons in F2 as [F2 F3]. apply Q2; auto.
Qed.
End Exact.

(** ** Resources *)

(** The stack of objects held; [None] once an object is released out of order
    or not held. *)
Definition account (h : option (list resource)) (e : request * answer) : option (list resource) :=
  match h, e.1 with
  | Some l, Acquire r => if status e.2 <? 0 then Some l else Some (r :: l)
  | Some (r' :: l), Release r => if decide (r = r') then Some l else None
  | Some [], Release _ => None
  | _, _ => h
  end.
Definition accounts (s : ptrace) (h : list resource) : option (list resource) := fold_left account s (Some h).
Definition holds (c : mt6878_md_pss32) : list resource :=
  (if req c then [Req] else []) ++ (if desc c then [Desc] else []) ++ (if sha c then [Sha] else []) ++ (if held (rsa c) then [Rsa] else []) ++ [Ctx].
Lemma accounts_app s1 s2 h h' : accounts s1 h = Some h' -> accounts (s1 ++ s2) h = accounts s2 h'.
Proof. unfold accounts. intros E. now rewrite fold_left_app, E. Qed.
Lemma free_if_releases (b : bool) r h : performs (free_if b r) (fun _ s => accounts s ((if b then [r] else []) ++ h) = Some h).
Proof. unfold free_if. destruct b; repeat trace_step; unfold accounts; cbn; [|reflexivity]. now rewrite decide_True. Qed.
Lemma destroy_releases c : performs (mt6878_md_pss32_destroy (Some c)) (fun _ s => accounts s (holds c) = Some []).
Proof.
  unfold mt6878_md_pss32_destroy, holds. do 4 (eapply performs_bind; [apply free_if_releases|]; intros ? ? ?; cbn beta). trace_step. trace_step.
  rewrite (accounts_app _ _ _ _ H), (accounts_app _ _ _ _ H0), (accounts_app _ _ _ _ H1), (accounts_app _ _ _ _ H2). reflexivity.
Qed.
(** The keys the context takes: canonical DER of a 2048-bit odd modulus and 65537. *)
Definition key_ok (k : list Z) : Prop :=
  len k = 270 /\ slice k 0 9 = key_prefix /\ Z.land (byte_at k 9) 0x80 <> 0 /\ Z.land (byte_at k 264) 1 <> 0 /\ slice k 265 5 = key_exponent.
Definition ready (k : list Z) (c : mt6878_md_pss32) : Prop :=
  rsa c = Some k /\ sha c = true /\ desc c = true /\ req c = true /\ erased c.
Definition created (key : option (list Z)) (r : Z + mt6878_md_pss32) (s : ptrace) : Prop :=
  match r with
  | inl e => e < 0 /\ accounts s [] = Some []
  | inr c => exists k, key = Some k /\ key_ok k /\ ready k c /\ accounts s [] = Some (holds c)
  end.
(** One request of the constructor, after a trace that left [h] held. *)
Lemma ask_after key q (k : answer -> pio (Z + mt6878_md_pss32)) pre h : accounts pre [] = Some h ->
  (forall a pre', accounts pre' [] = account (Some h) (q, a) -> performs (k a) (fun r s => created key r (pre' ++ s))) ->
  performs (bind (ask q) k) (fun r s => created key r (pre ++ s)).
Proof.
  intros Hp Hk. trace_step. eapply performs_impl; [apply (Hk p (pre ++ [(q, p)])); now rewrite (accounts_app _ _ _ _ Hp)|].
  cbn. intros r s. now rewrite <- app_assoc.
Qed.
Lemma fail_after key c r pre : r < 0 -> accounts pre [] = Some (holds c) ->
  performs (let! _ := mt6878_md_pss32_destroy (Some c) in ret (inl r)) (fun r s => created key r (pre ++ s)).
Proof.
  intros Hr Hp. eapply performs_bind; [apply destroy_releases|]. intros [] s Hs. trace_step. split; [exact Hr|].
  rewrite app_nil_r. now rewrite (accounts_app _ _ _ _ Hp).
Qed.
Lemma crypto_error_neg e : negb (md_crypto_error e =? 0) = true -> md_crypto_error e < 0.
Proof. unfold md_crypto_error. destruct (0 <? e) eqn:?; lia. Qed.
Lemma create_outcome key : performs (mt6878_md_pss32_create key) (created key).
Proof.
  destruct key as [k|]; cbn [mt6878_md_pss32_create]; [|trace_step; split; [lia|reflexivity]]. trace_step; [trace_step; split; [lia|reflexivity]|].
  assert (Hk : key_ok k).
  { unfold bytes_eqb in G. repeat (apply orb_false_iff in G as [G ?]). repeat match goal with E : negb _ = false |- _ => apply negb_false_iff in E end.
    repeat match goal with E : bool_decide _ = true |- _ => apply bool_decide_eq_true in E end. split_and!; (assumption || lia). }
  clear G. cbv zeta. change (created (Some k)) with (fun r s => created (Some k) r ([] ++ s)).
  apply (ask_after _ _ _ [] [] eq_refl). intros a0 p0 A0. cbn in A0. trace_step; rewrite G in A0; [trace_step; split; [lia|now rewrite app_nil_r]|].
  apply (ask_after _ _ _ _ _ A0). intros a1 p1 A1. cbn in A1. trace_step; rewrite G0 in A1; [apply fail_after; [lia|exact A1]|].
  apply (ask_after _ _ _ _ _ A1). intros a2 p2 A2. trace_step; [apply fail_after; [now apply crypto_error_neg|exact A2]|].
  apply (ask_after _ _ _ _ _ A2). intros a3 p3 A3. trace_step; [apply fail_after; [lia|exact A3]|].
  apply (ask_after _ _ _ _ _ A3). intros a4 p4 A4. cbn in A4. trace_step; rewrite G3 in A4; [apply fail_after; [lia|exact A4]|].
  apply (ask_after _ _ _ _ _ A4). intros a5 p5 A5. trace_step; [apply fail_after; [lia|exact A5]|].
  apply (ask_after _ _ _ _ _ A5). intros a6 p6 A6. cbn in A6. trace_step; rewrite G5 in A6; [apply fail_after; [lia|exact A6]|].
  apply (ask_after _ _ _ _ _ A6). intros a7 p7 A7. cbn in A7. trace_step; rewrite G6 in A7; [apply fail_after; [lia|exact A7]|].
  trace_step. rewrite app_nil_r. exists k. split; [reflexivity|]. split; [exact Hk|]. split; [repeat split|exact A7].
Qed.

(** A kernel that has the resources and the algorithms. *)
Definition cooperative (H : list Z -> list Z) (R : list Z -> list Z -> list Z) (e : request * answer) : Prop :=
  honest H R e /\
  match e.1 with
  | Acquire _ => 0 <= status e.2
  | Set_pub_key _ => status e.2 = 0
  | Maxsize => status e.2 = 256
  | Digestsize => status e.2 = 32
  | _ => True
  end.
(** A request of the creation that fails is no cooperation. *)
Ltac uncooperative := match goal with |- performs (bind (mt6878_md_pss32_destroy (Some ?c)) _) _ =>
      eapply performs_bind; [apply (destroy_releases c)|]; intros ? ? _; trace_step; intros F
    | |- performs (ret (inl _)) _ => trace_step; intros F end;
    repeat match goal with F : Forall _ (_ :: _) |- _ => let E := fresh "E" in apply Forall_cons in F as [[_ E] F]; cbn in E end;
    exfalso; unfold md_crypto_error in *; repeat match goal with X : context [if ?b then _ else _] |- _ => destruct b eqn:? end; lia.
Lemma create_cooperative H R k : key_ok k -> performs (mt6878_md_pss32_create (Some k)) (fun r s => Forall (cooperative H R) s -> exists c, r = inr c).
Proof.
  intros (H1 & H2 & H3 & H4 & H5). cbn [mt6878_md_pss32_create]. unfold bytes_eqb. rewrite H2, H5, !bool_decide_true by reflexivity.
  trace_step; [exfalso; lia|]. clear G. cbv zeta.
  do 8 (trace_step; trace_step; [uncooperative|]). trace_step. intros _. eauto.
Qed.

Definition neutral (e : request * answer) : Prop := match e.1 with Acquire _ | Release _ => False | _ => True end.
Lemma neutral_accounts s : Forall neutral s -> forall h, accounts s h = Some h.
Proof.
  induction 1 as [|[q a] s Hq Hs IH]; intros h; [reflexivity|]. change ((q, a) :: s) with ([(q, a)] ++ s). rewrite (accounts_app _ _ h h); [apply IH|].
  destruct q; cbn in Hq; try contradiction; destruct h; reflexivity.
Qed.
Lemma sha256_neutral ctx b d : performs (mt6878_md_pss32_sha256 ctx b d) (fun _ s => Forall neutral s).
Proof. unfold mt6878_md_pss32_sha256. destruct ctx, b, d; repeat trace_step; repeat constructor. Qed.
Lemma mask_loop_neutral fuel c h : forall offset count db, performs (mask_loop fuel c h offset count db) (fun _ s => Forall neutral s).
Proof.
  induction fuel as [|fuel IH]; intros offset count db; cbn [mask_loop]; [trace_step; apply List.Forall_nil|]. trace_step; [trace_step; apply List.Forall_nil|].
  eapply performs_bind; [apply sha256_neutral|]. intros p s Hs. trace_step; [trace_step; now rewrite app_nil_r|].
  eapply performs_impl; [apply IH|]. cbn. intros _ s' Hs'. now apply Forall_app.
Qed.
Lemma encoded_neutral c hash : performs (md_pss32_encoded c hash) (fun _ s => Forall neutral s).
Proof.
  unfold md_pss32_encoded. cbv zeta. trace_step; [trace_step; apply List.Forall_nil|]. eapply performs_bind; [apply mask_loop_neutral|]. intros p s Hs.
  do 3 (trace_step; [trace_step; now rewrite app_nil_r|]). eapply performs_bind; [apply sha256_neutral|]. intros q s' Hs'.
  trace_step; trace_step; rewrite app_nil_r; now apply Forall_app.
Qed.
Lemma verify_neutral c t g : erased c -> performs (mt6878_md_pss32_verify (Some c) t g) (fun p s => p.2 = Some c /\ Forall neutral s).
Proof.
  intros [E1 E2]. assert (Hc : with_buffers c (zeros 256) (zeros 256) = c) by (destruct c; unfold with_buffers; cbn [signature em rsa sha desc req] in *; now subst).
  unfold mt6878_md_pss32_verify. destruct t as [t|], g as [g|]; try (trace_step; split; [reflexivity|apply List.Forall_nil]).
  trace_step; [trace_step; split; [reflexivity|apply List.Forall_nil]|]. eapply performs_bind; [apply sha256_neutral|]. intros p s Hs.
  trace_step; [trace_step; rewrite app_nil_r; auto|]. cbv zeta. trace_step. eapply (performs_bind _ _ (fun _ u => Forall neutral u)).
  - match goal with |- performs (if ?b then _ else _) _ => destruct b end; [apply encoded_neutral|trace_step; apply List.Forall_nil].
  - intros r u Hu. trace_step. rewrite app_nil_r. cbn [fst snd]. split; [exact (f_equal Some Hc)|]. apply Forall_app. split; [exact Hs|].
    apply List.Forall_cons; [exact I|exact Hu].
Qed.

(** A context made, used for any signatures, and destroyed. *)
Fixpoint verify_all (ctx : option mt6878_md_pss32) (l : list (option (list Z) * option (list Z))) : pio (option mt6878_md_pss32) :=
  match l with
  | [] => ret ctx
  | (t, g) :: l => let! p := mt6878_md_pss32_verify ctx t g in verify_all p.2 l
  end.
Definition session (key : option (list Z)) (l : list (option (list Z) * option (list Z))) : pio unit :=
  let! r := mt6878_md_pss32_create key in
  match r with
  | inl _ => ret tt
  | inr c => let! ctx := verify_all (Some c) l in mt6878_md_pss32_destroy ctx
  end.
Lemma verify_all_neutral c l : erased c -> performs (verify_all (Some c) l) (fun ctx s => ctx = Some c /\ Forall neutral s).
Proof.
  intros Hc. induction l as [|[t g] l IH]; cbn [verify_all]; [trace_step; split; [reflexivity|apply List.Forall_nil]|].
  eapply performs_bind; [apply verify_neutral, Hc|]. intros p s [-> Hs]. eapply performs_impl; [exact IH|]. cbn. intros ctx s' [E Hs']. split; [exact E|now apply Forall_app].
Qed.

(** ** The claims *)

(** C37. Signature verification is RSA-PSS verification. For a ready context
    and arguments of admissible size, in every environment: the context is
    returned as it was, with no trace of the signature in it; a success has no
    failed kernel request behind it; and when the kernel's hash is [H] and its
    raw RSA is [R], verification succeeds exactly when the exponentiated
    signature is the RFC 8017 encoding, for some salt of 32 bytes, of the hash
    of the message. *)
Theorem pss_verify_exact H R (Hc : Crypto H R) k c tbs sig : ready k c -> 1 <= len tbs <= 16384 -> len sig = 256 ->
  performs (mt6878_md_pss32_verify (Some c) (Some tbs) (Some sig)) (fun p s =>
    p.2 = Some c /\ (p.1 = 0 -> Forall succeeded s) /\
    (Forall (honest H R) s -> (p.1 = 0 <-> pss_encodes H (H tbs) (R k sig)))).
Proof. intros (Hk & _ & _ & _ & He). now apply verify_outcome. Qed.
(** A hash and an exponentiation that the laws allow, and the signature they verify. *)
Definition toy_hash (b : list Z) : list Z := repeat (u8 (bytesum b)) 32.
Definition toy_rsa (k s : list Z) : list Z := firstn 256 ((u8 <$> s) ++ zeros 256).
#[export] Instance toy_crypto : Crypto toy_hash toy_rsa.
Proof.
  split.
  - intros b. split; [reflexivity|]. apply Forall_forall. intros x Hx. apply list_elem_of_In, repeat_spec in Hx as ->. apply u8_range.
  - intros k s. unfold toy_rsa, len. rewrite length_take, length_app. unfold zeros at 1. rewrite repeat_length. split; [lia|]. apply bytes_ok_take, bytes_ok_app. split; [|apply bytes_ok_zeros].
    apply Forall_fmap, Forall_true. intros x. apply u8_range.
Qed.
Definition toy_kernel : environment request answer := fun _ q =>
  match q with
  | Digest b => Answer 0 (toy_hash b) 32
  | Encrypt k s => Answer 0 (toy_rsa k s) 256
  | Maxsize => Answer 256 [] 0
  | Digestsize => Answer 32 [] 0
  | _ => Answer 0 [] 0
  end.
Definition toy_key : list Z := key_prefix ++ [0x80] ++ zeros 254 ++ [1] ++ key_exponent.
Definition toy_context : mt6878_md_pss32 := Pss (Some toy_key) true true true (zeros 256) (zeros 256).
Definition toy_signature : list Z := emsa_pss toy_hash (toy_hash [1; 2; 3]) (repeat 7 32).
Lemma pss_verify_exact_witness :
  (mt6878_md_pss32_verify (Some toy_context) (Some [1; 2; 3]) (Some toy_signature) toy_kernel []).1.1 = 0 /\
  (mt6878_md_pss32_verify (Some toy_context) (Some [1; 2; 4]) (Some toy_signature) toy_kernel []).1.1 = - EKEYREJECTED /\
  performs (mt6878_md_pss32_verify (Some toy_context) (Some [1; 2; 3]) (Some toy_signature)) (fun p s =>
    p.2 = Some toy_context /\ (p.1 = 0 -> Forall succeeded s) /\
    (Forall (honest toy_hash toy_rsa) s -> (p.1 = 0 <-> pss_encodes toy_hash (toy_hash [1; 2; 3]) (toy_rsa toy_key toy_signature)))).
Proof.
  split; [vm_compute; reflexivity|]. split; [vm_compute; reflexivity|].
  apply (pss_verify_exact toy_hash toy_rsa toy_crypto toy_key toy_context [1; 2; 3] toy_signature); [repeat split|split; discriminate|vm_compute; reflexivity].
Defined.

(** Resources. Whatever the kernel answers, a context that is created,
    used for any list of signatures and destroyed releases every object it
    acquired, each once, in the reverse of the order of acquisition; a failed
    construction has released what it had acquired; and a context exists only
    for a canonical 2048-bit key with exponent 65537. *)
Theorem pss_resources_balanced key l :
  performs (mt6878_md_pss32_create key) (created key) /\ performs (session key l) (fun _ s => accounts s [] = Some []).
Proof.
  split; [apply create_outcome|]. unfold session. eapply performs_bind; [apply create_outcome|]. intros [e|c] s; cbn [created].
  - intros [_ Hs]. trace_step. now rewrite app_nil_r.
  - intros (k & _ & _ & (_ & _ & _ & _ & He) & Hs). eapply performs_bind; [apply verify_all_neutral, He|]. intros ctx s' [-> Hs'].
    eapply performs_impl; [apply destroy_releases|]. cbn. intros _ s'' Hd.
    rewrite (accounts_app _ _ _ _ Hs), (accounts_app _ _ _ _ (neutral_accounts _ Hs' _)). exact Hd.
Qed.
