(* ===== verification/Cert.v ===== *)
(** * Manufacturer certificates: [modem/mt6878_md_mtk_cert.c]

    The bounded DER profile of the two certificates of a modem firmware part,
    and the chain from the compiled root pin to the hashes of the part. The
    kernel's ASN.1 engine and the decoder generated from
    [mt6878_md_mtk_fields.asn1] are a parameter with their documented
    behaviour as laws ([Asn1]); hashing, RSA and allocations are requests
    ([Pss]). *)

From S2P Require Import Prelude Trace Pss.
Open Scope Z_scope.
Open Scope io_scope.

Abbreviation MD_CERT_MAX := 16384 (only parsing).
Abbreviation MD_FIELDS_MAX := 48 (only parsing).

(** A field is its bytes, the length of its header and its tag. *)
Record md_der_field : Type := Field { data : list Z; header : Z; tag : Z }.
Definition size (f : md_der_field) : Z := len (data f).
Record md_der_cert : Type := Cert {
  tbs : md_der_field; spki : md_der_field; raw_key : list Z; cert_signature : md_der_field; body : list md_der_field
}.
Record mt6878_md_signed_hashes : Type := SignedHashes { header_sha256 : list Z; payload_sha256 : list Z }.

Definition md_mtk_root_pin : list Z :=
  [0xe1; 0xb5; 0x23; 0x5d; 0x94; 0x11; 0x47; 0x3a; 0x35; 0x8c; 0x75; 0x4f; 0x84; 0x84; 0x38; 0x01;
   0xb9; 0x1f; 0x05; 0xb8; 0xfb; 0x9d; 0xc4; 0x86; 0x33; 0x93; 0xe3; 0x78; 0xe4; 0x1a; 0x11; 0x5e].

(** The bytes of the length, most significant first. *)
Fixpoint length_loop (p : list Z) (i : Z) (count : nat) (length : Z) : Z :=
  match count with O => length | S count => length_loop p (i + 1) count (Z.lor (Z.shiftl length 8) (byte_at p (2 + i))) end.
Definition md_der_header (p : list Z) : Z + Z :=
  let size := len p in
  if (size <? 2) || (Z.land (byte_at p 0) 31 =? 31) then inl (- EINVAL)
  else if byte_at p 1 <? 128 then (if byte_at p 1 =? size - 2 then inr 2 else inl (- EINVAL))
  else
  let count := Z.land (byte_at p 1) 127 in
  if (count =? 0) || (2 <? count) || (size <? count + 2) || (byte_at p 2 =? 0) then inl (- EINVAL)
  else
  let length := length_loop p 0 (Z.to_nat count) 0 in
  if (length <? 128) || ((count =? 2) && (length <? 256)) || negb (length =? size - (count + 2)) then inl (- EINVAL)
  else inr (count + 2).

(** A call of the field callback by the decoder: the value is at [start] in
    the decoded bytes. *)
Record element : Type := Element { hdrlen : Z; etag : Z; start : Z; vlen : Z }.
Definition mt6878_md_mtk_note_field (out : list md_der_field) (whole : list Z) (e : element) : Z + list md_der_field :=
  let bytes := slice whole (start e - hdrlen e) (hdrlen e + vlen e) in
  if (len out =? MD_FIELDS_MAX) || (MD_CERT_MAX <? hdrlen e) || (MD_CERT_MAX - hdrlen e <? vlen e) then inl (- EINVAL)
  else
  match md_der_header bytes with
  | inl _ => inl (- EINVAL)
  | inr h => if negb (h =? hdrlen e) then inl (- EINVAL) else inr (out ++ [Field bytes h (etag e)])
  end.

(** The kernel's decoder: the callbacks it makes in order, and its status when
    none of them fails. *)
Class Decoder : Type := ber_decoder : list Z -> list element * Z.
Fixpoint note_fields (whole : list Z) (es : list element) (out : list md_der_field) : Z + list md_der_field :=
  match es with
  | [] => inr out
  | e :: es => match mt6878_md_mtk_note_field out whole e with inl r => inl r | inr out => note_fields whole es out end
  end.

Section Parser.
Context `{Decoder}.

Definition md_der_sequence (bytes : list Z) : Z + list md_der_field :=
  if MD_CERT_MAX <? len bytes then inl (- EINVAL)
  else
  match md_der_header bytes with
  | inl _ => inl (- EINVAL)
  | inr _ =>
    if negb (byte_at bytes 0 =? 0x30) then inl (- EINVAL)
    else
    match note_fields bytes (ber_decoder bytes).1 [] with
    | inl r => inl r
    | inr out => let r := (ber_decoder bytes).2 in if 0 <? r then inl (- EPROTO) else if negb (r =? 0) then inl r else inr out
    end
  end.

Definition md_field_bytes (f : md_der_field) (bytes : list Z) : bool := bytes_eqb (data f) bytes.
Definition md_field_equal (a b : md_der_field) : bool := md_field_bytes a (data b).
Definition md_bits (f : md_der_field) (n : Z) : Z + list Z :=
  if negb (tag f =? 3) || negb (u64 (size f - header f) =? n + 1) || negb (byte_at (data f) (header f) =? 0) then inl (- EINVAL)
  else inr (slice (data f) (header f + 1) n).

Definition pss_default : list Z :=
  [0x30; 0x41; 0x06; 0x09; 0x2a; 0x86; 0x48; 0x86; 0xf7; 0x0d; 0x01; 0x01; 0x0a; 0x30; 0x34; 0xa0; 0x0f; 0x30; 0x0d;
   0x06; 0x09; 0x60; 0x86; 0x48; 0x01; 0x65; 0x03; 0x04; 0x02; 0x01; 0x05; 0x00; 0xa1; 0x1c; 0x30; 0x1a; 0x06; 0x09;
   0x2a; 0x86; 0x48; 0x86; 0xf7; 0x0d; 0x01; 0x01; 0x08; 0x30; 0x0d; 0x06; 0x09; 0x60; 0x86; 0x48; 0x01; 0x65;
   0x03; 0x04; 0x02; 0x01; 0x05; 0x00; 0xa2; 0x03; 0x02; 0x01; 0x20].
Definition trailer : list Z := [0xa3; 3; 2; 1; 1].
Definition explicit_pss : list Z :=
  let e := write_at pss_default 1 [u8 (byte_at pss_default 1 + len trailer)] in
  write_at e 14 [u8 (byte_at e 14 + len trailer)] ++ trailer.
Definition md_pss_profile (f : md_der_field) : Z :=
  if md_field_bytes f pss_default then 0 else if md_field_bytes f explicit_pss then 0 else - EINVAL.

Definition rsa_algorithm : list Z := [0x30; 0x0d; 6; 9; 0x2a; 0x86; 0x48; 0x86; 0xf7; 0x0d; 1; 1; 1; 5; 0].
Definition legacy_algorithm : list Z := [0x30; 0x0d; 6; 9; 0x2a; 0x86; 0x48; 0x86; 0xf7; 0x0d; 1; 1; 0x0b; 5; 0].
(** The public key of a key field, or the error. *)
Definition md_spki (key_info : md_der_field) : Z + list Z :=
  match md_der_sequence (data key_info) with
  | inr [algorithm; bits] =>
    if negb (md_field_bytes algorithm rsa_algorithm) then inl (- EINVAL)
    else
    let n := u64 (size bits - header bits) in
    if n =? 0 then inl (- EINVAL)
    else
    match md_bits bits (n - 1) with
    | inl _ => inl (- EINVAL)
    | inr raw =>
      match md_der_sequence raw with
      | inr [modulus; exponent] =>
        if negb (tag modulus =? 2) || negb (u64 (size modulus - header modulus) =? 257)
           || negb (byte_at (data modulus) (header modulus) =? 0) || (Z.land (byte_at (data modulus) (header modulus + 1)) 0x80 =? 0)
           || (Z.land (byte_at (data modulus) (size modulus - 1)) 1 =? 0) || negb (md_field_bytes exponent key_exponent)
        then inl (- EINVAL) else inr raw
      | _ => inl (- EINVAL)
      end
    end
  | _ => inl (- EINVAL)
  end.

(** The object identifiers of the metadata pairs, [seen] those before. *)
Fixpoint oid_loop (seen rest : list md_der_field) : Z :=
  match rest with
  | oid :: _ :: rest =>
    if negb (tag oid =? 6) then - EINVAL
    else if existsb (md_field_equal oid) seen then - EINVAL
    else oid_loop (seen ++ [oid]) rest
  | _ => 0
  end.
Definition md_parse_cert (bytes : list Z) : Z + md_der_cert :=
  match md_der_sequence bytes with
  | inl r => inl r
  | inr [t; algorithm; sig] =>
    if negb (md_pss_profile algorithm =? 0) then inl (- EINVAL)
    else
    match md_bits sig 256 with
    | inl _ => inl (- EINVAL)
    | inr _ =>
      match md_der_sequence (data t) with
      | inl r => inl r
      | inr fields =>
        match fields with
        | _ :: _ :: label :: _ :: _ :: _ :: key_info :: pairs =>
          if negb (len pairs mod 2 =? 0) then inl (- EINVAL)
          else if negb (md_field_equal label algorithm) && negb (md_field_bytes label legacy_algorithm) then inl (- EINVAL)
          else
          match md_spki key_info with
          | inl r => inl r
          | inr raw => let r := oid_loop [] pairs in if negb (r =? 0) then inl r else inr (Cert t key_info raw sig fields)
          end
        | _ => inl (- EINVAL)
        end
      end
    end
  | inr _ => inl (- EINVAL)
  end.

Fixpoint find_pair (oid : list Z) (rest : list md_der_field) : option md_der_field :=
  match rest with
  | o :: v :: rest => if md_field_bytes o oid then Some v else find_pair oid rest
  | _ => None
  end.
Definition md_metadata (c : md_der_cert) (group item : Z) : option md_der_field :=
  find_pair [6; 7; 0x60; 0x86; 0x76; 0x93; 0x16; group; item] (skipn 7 (body c)).

(** ** The chain *)

Definition zero_bits : list Z := [3; 2; 0; 0].
Definition items : list (Z * Z) := [(2, 6); (2, 8); (4, 2)].
Definition transform_free (leaf : md_der_cert) : bool :=
  forallb (fun i => match md_metadata leaf i.1 i.2 with Some f => md_field_bytes f zero_bits | None => false end) items.
Definition signature_of (c : md_der_cert) : list Z := slice (data (cert_signature c)) (header (cert_signature c) + 1) 256.
(** The cleanup: both contexts, then the tables. *)
Definition finish {A} (root leaf : option mt6878_md_pss32) (r : Z) (out : A) : io request answer (Z * A) :=
  let! _ := mt6878_md_pss32_destroy leaf in
  let! _ := mt6878_md_pss32_destroy root in
  let! _ := ask (Release Work) in ret (r, out).

(** The hashes of the part, once both signatures are verified. *)
Definition leaf_hashes (lc : md_der_cert) (head : list Z) (out : option mt6878_md_signed_hashes) (root leaf : option mt6878_md_pss32)
    : io request answer (Z * option mt6878_md_signed_hashes) :=
  if negb (transform_free lc) then finish root leaf (- EPROTONOSUPPORT) out
  else
  match md_metadata lc 2 4 with
  | None => finish root leaf (- EINVAL) out
  | Some f =>
    match md_bits f 32 with
    | inl _ => finish root leaf (- EINVAL) out
    | inr expected =>
      let! p := mt6878_md_pss32_sha256 leaf (Some head) (Some (zeros 32)) in
      if negb (p.1 =? 0) then finish root leaf p.1 out
      else if negb (bytes_eqb (default [] p.2) expected) then finish root leaf (- EKEYREJECTED) out
      else
      match md_metadata lc 2 1 with
      | None => finish root leaf (- EINVAL) out
      | Some f =>
        match md_bits f 32 with
        | inl _ => finish root leaf (- EINVAL) out
        | inr payload => finish root leaf 0 (Some (SignedHashes expected payload))
        end
      end
    end
  end.
(** The leaf's own signature. *)
Definition leaf_chain (lc : md_der_cert) (head : list Z) (out : option mt6878_md_signed_hashes) (root : option mt6878_md_pss32)
    : io request answer (Z * option mt6878_md_signed_hashes) :=
  let! leaf := mt6878_md_pss32_create (Some (raw_key lc)) in
  match leaf with
  | inl r => finish root None r out
  | inr leaf =>
    let! p := mt6878_md_pss32_verify (Some leaf) (Some (data (tbs lc))) (Some (signature_of lc)) in
    if negb (p.1 =? 0) then finish root p.2 p.1 out else leaf_hashes lc head out root p.2
  end.
Definition md_mtk_verify_pin (cert1 cert2 head : option (list Z)) (out : option mt6878_md_signed_hashes) (pin : list Z)
    : io request answer (Z * option mt6878_md_signed_hashes) :=
  match cert1, cert2, head, out with
  | Some c1, Some c2, Some h, Some _ =>
    if (len c1 =? 0) || (len c2 =? 0) || (MD_CERT_MAX <? len c1) || (MD_CERT_MAX <? len c2) || negb (len h =? 512) then ret (- EINVAL, out)
    else
    let! a := ask (Acquire Work) in
    if status a <? 0 then ret (- ENOMEM, out)
    else
    match md_parse_cert c1 with
    | inl r => finish None None r out
    | inr rc =>
    match md_parse_cert c2 with
    | inl r => finish None None r out
    | inr lc =>
    let! root := mt6878_md_pss32_create (Some (raw_key rc)) in
    match root with
    | inl r => finish None None r out
    | inr root =>
    let! p := mt6878_md_pss32_sha256 (Some root) (Some (data (spki rc))) (Some (zeros 32)) in
    if negb (p.1 =? 0) then finish (Some root) None p.1 out
    else if negb (bytes_eqb (default [] p.2) pin) then finish (Some root) None (- EKEYREJECTED) out
    else if negb match md_metadata rc 1 2 with Some f => md_field_equal f (spki lc) | None => false end
    then finish (Some root) None (- EKEYREJECTED) out
    else
    let! p := mt6878_md_pss32_verify (Some root) (Some (data (tbs rc))) (Some (signature_of rc)) in
    if negb (p.1 =? 0) then finish p.2 None p.1 out
    else
    leaf_chain lc h out p.2
    end end end
  | _, _, _, _ => ret (- EINVAL, out)
  end.
Definition mt6878_md_mtk_verify_header (cert1 cert2 head : option (list Z)) (out : option mt6878_md_signed_hashes) :=
  md_mtk_verify_pin cert1 cert2 head out md_mtk_root_pin.
End Parser.

(** ** Canonical DER *)

Definition der_length (n : Z) : list Z := if n <? 128 then [n] else if n <? 256 then [0x81; n] else [0x82; n / 256; n mod 256].
Definition der (t : Z) (content : list Z) : list Z := t :: der_length (len content) ++ content.
Definition low_tag (t : Z) : Prop := is_u8 t /\ Z.land t 31 <> 31.
Definition header_length (n : Z) : Z := if n <? 128 then 2 else if n <? 256 then 3 else 4.
(** A field holds one canonical encoding. *)
Definition field_of (t : Z) (content : list Z) (f : md_der_field) : Prop :=
  data f = der t content /\ header f = header_length (len content) /\ tag f = t /\ low_tag t /\ len content < 65536.
Definition field_ok (f : md_der_field) : Prop := exists content, field_of (tag f) content f.

Lemma low_tag_48 : low_tag 0x30.
Proof. split; [unfold is_u8; lia|discriminate]. Qed.
Lemma len_der t c : len (der t c) = header_length (len c) + len c.
Proof. unfold der, der_length, header_length. destruct (len c <? 128); [|destruct (len c <? 256)]; rewrite len_cons, len_app; cbn [len length]; unfold len; cbn [length]; lia. Qed.
Lemma header_length_range n : 2 <= header_length n <= 4.
Proof. unfold header_length. destruct (n <? 128), (n <? 256); lia. Qed.
Lemma der_content t c : der t c = t :: der_length (len c) ++ c.
Proof. reflexivity. Qed.
Lemma der_skip t c : skipn (Z.to_nat (header_length (len c))) (der t c) = c.
Proof. unfold der, der_length, header_length. destruct (len c <? 128); [|destruct (len c <? 256)]; reflexivity. Qed.
Lemma byte_at_der_tag t c : byte_at (der t c) 0 = t.
Proof. reflexivity. Qed.
Lemma length_loop_1 p : bytes_ok p -> length_loop p 0 1 0 = byte_at p 2.
Proof. intros _. cbn [length_loop]. rewrite Z.shiftl_0_l, Z.lor_0_l. reflexivity. Qed.
Lemma length_loop_2 p : bytes_ok p -> length_loop p 0 2 0 = 256 * byte_at p 2 + byte_at p 3.
Proof.
  intros Hp. cbn [length_loop]. rewrite Z.shiftl_0_l, Z.lor_0_l. change (2 + (0 + 1)) with 3. change (2 + 0) with 2.
  rewrite Z.lor_comm, lor_shiftl_add by (pose proof (byte_at_u8 p 3 Hp); unfold is_u8 in *; lia). lia.
Qed.
Lemma land_127_mod b : Z.land b 127 = b mod 128.
Proof. exact (land_ones_mod b 7 ltac:(lia)). Qed.
Lemma der_header_exact p h : bytes_ok p -> md_der_header p = inr h <->
  exists t c, p = der t c /\ low_tag t /\ len c < 65536 /\ h = header_length (len c).
Proof.
  intros Hp. unfold md_der_header. cbv zeta. destruct p as [|a [|b r]].
  1,2: split; [discriminate|]; intros (t & c & E & _); unfold der, der_length in E; destruct (_ <? _); [|destruct (_ <? _)]; discriminate.
  assert (U : is_u8 a /\ is_u8 b /\ bytes_ok r) by (inversion Hp as [|? ? ? X]; inversion X; auto). destruct U as (Ua & Ub & Ur). unfold is_u8 in Ub.
  assert (L : len (a :: b :: r) = 2 + len r) by (unfold len; cbn [length]; lia). pose proof (len_nonneg r) as Lr.
  change (byte_at (a :: b :: r) 0) with a. change (byte_at (a :: b :: r) 1) with b. change (byte_at (a :: b :: r) 2) with (byte_at r 0). rewrite L.
  replace (2 + len r <? 2) with false by lia. cbn [orb]. split.
  - destruct (Z.eqb_spec (Z.land a 31) 31) as [|Ht]; [discriminate|]. destruct (Z.ltb_spec b 128) as [Hb|Hb].
    { destruct (Z.eqb_spec b (2 + len r - 2)) as [E|]; [|discriminate]. intros [= <-]. exists a, r. unfold der, der_length, header_length, low_tag.
      replace (len r <? 128) with true by lia. split_and!; auto; try lia. cbn. do 2 f_equal. lia. }
    rewrite land_127_mod. destruct (_ || _) eqn:G; [discriminate|].
    assert (Hc : b = 0x81 \/ b = 0x82) by (clear -Ub Hb G; dlia).
    destruct (_ || negb _) eqn:G'; [discriminate|]. intros [= <-]. exists a. destruct Hc as [-> | ->].
    + change (129 mod 128) with 1 in *. change (Z.to_nat 1) with 1%nat in *. rewrite length_loop_1 in G' by assumption.
      change (byte_at (a :: 129 :: r) 2) with (byte_at r 0) in G'. destruct r as [|n c]; [discriminate|]. change (byte_at (n :: c) 0) with n in *.
      exists c. rewrite len_cons in *. unfold der, der_length, header_length, low_tag. replace (len c <? 128) with false by lia. replace (len c <? 256) with true by (inversion Ur; unfold is_u8 in *; lia).
      split_and!; auto; try (inversion Ur; unfold is_u8 in *; lia). cbn. do 3 f_equal. lia.
    + change (130 mod 128) with 2 in *. change (Z.to_nat 2) with 2%nat in *. rewrite length_loop_2 in G' by assumption.
      change (byte_at (a :: 130 :: r) 2) with (byte_at r 0) in G'. change (byte_at (a :: 130 :: r) 3) with (byte_at r 1) in G'.
      destruct r as [|n [|m c]]; [discriminate|unfold len in G; cbn in G; discriminate|]. change (byte_at (n :: m :: c) 0) with n in *. change (byte_at (n :: m :: c) 1) with m in *.
      exists c. rewrite !len_cons in *. assert (Un : is_u8 n /\ is_u8 m) by (inversion Ur as [|? ? ? X]; inversion X; auto). unfold is_u8 in Un.
      assert (Ec : len c = 256 * n + m) by lia. unfold der, der_length, header_length, low_tag.
      replace (len c <? 128) with false by lia. replace (len c <? 256) with false by lia. split_and!; auto; try lia. cbn [app]. do 3 f_equal; [|f_equal]; dlia.
  - intros (t & c & E & [Ht1 Ht2] & Hc & ->). pose proof (len_nonneg c) as Lc. unfold der, der_length, header_length in *.
    destruct (Z.ltb_spec (len c) 128) as [H1|H1]; [|destruct (Z.ltb_spec (len c) 256) as [H2|H2]]; injection E as -> -> ->.
    + replace (Z.land t 31 =? 31) with false by lia. replace (len c <? 128) with true by lia. replace (len c =? 2 + len c - 2) with true by lia. reflexivity.
    + replace (Z.land t 31 =? 31) with false by lia. change (129 <? 128) with false. change (Z.land 129 127) with 1. cbn match. change (byte_at (len c :: c) 0) with (len c).
      rewrite len_cons. change (Z.to_nat 1) with 1%nat. rewrite length_loop_1 by assumption. change (byte_at (t :: 129 :: len c :: c) 2) with (len c).
      replace ((1 =? 0) || (2 <? 1) || (2 + (1 + len c) <? 1 + 2) || (len c =? 0)) with false by lia.
      replace ((len c <? 128) || ((1 =? 2) && (len c <? 256)) || negb (len c =? 2 + (1 + len c) - (1 + 2))) with false by lia. reflexivity.
    + replace (Z.land t 31 =? 31) with false by lia. change (130 <? 128) with false. change (Z.land 130 127) with 2. cbn match.
      change (byte_at (len c / 256 :: len c mod 256 :: c) 0) with (len c / 256). rewrite !len_cons. change (Z.to_nat 2) with 2%nat. rewrite length_loop_2 by assumption.
      change (byte_at (t :: 130 :: len c / 256 :: len c mod 256 :: c) 2) with (len c / 256). change (byte_at (t :: 130 :: len c / 256 :: len c mod 256 :: c) 3) with (len c mod 256).
      rewrite <- (Z.div_mod (len c) 256) by lia. assert (1 <= len c / 256) by dlia.
      replace ((2 =? 0) || (2 <? 2) || (2 + (1 + (1 + len c)) <? 2 + 2) || (len c / 256 =? 0)) with false by lia.
      replace ((len c <? 128) || ((2 =? 2) && (len c <? 256)) || negb (len c =? 2 + (1 + (1 + len c)) - (2 + 2))) with false by lia. reflexivity.
Qed.

(** ** The decoder's contract *)

Definition element_bytes (whole : list Z) (e : element) : list Z := slice whole (start e - hdrlen e) (hdrlen e + vlen e).
(** The callback of [e] reports the encoding [b]. *)
Definition reports (whole : list Z) (e : element) (b : list Z) : Prop :=
  element_bytes whole e = b /\ md_der_header b = inr (hdrlen e) /\ etag e = byte_at b 0 /\ 0 <= vlen e /\ hdrlen e + vlen e = len b.
(** What the source relies on: the generated decoder of SEQUENCE OF ANY calls
    back once per element, in order, with its tag; on canonical encodings it
    succeeds, and a success whose elements are all canonical has visited the
    whole content. *)
Class Asn1 `{Decoder} : Prop := {
  decoder_complete content elements : bytes_ok content -> len content < 65536 -> content = concat elements ->
    Forall (fun b => exists h, md_der_header b = inr h) elements ->
    exists es, ber_decoder (der 0x30 content) = (es, 0) /\ Forall2 (reports (der 0x30 content)) es elements;
  decoder_sound content es : bytes_ok content -> len content < 65536 -> ber_decoder (der 0x30 content) = (es, 0) ->
    Forall (fun e => md_der_header (element_bytes (der 0x30 content) e) = inr (hdrlen e)) es ->
    content = concat (element_bytes (der 0x30 content) <$> es) /\
    Forall (fun e => etag e = byte_at (element_bytes (der 0x30 content) e) 0) es
}.

Definition noted (whole : list Z) (e : element) : md_der_field := Field (element_bytes whole e) (hdrlen e) (etag e).
Definition acceptable (whole : list Z) (e : element) : Prop :=
  hdrlen e <= 16384 /\ vlen e <= 16384 - hdrlen e /\ md_der_header (element_bytes whole e) = inr (hdrlen e).
Lemma note_fields_exact whole es : forall out fs, len out <= 48 ->
  note_fields whole es out = inr fs <-> fs = out ++ (noted whole <$> es) /\ Forall (acceptable whole) es /\ len fs <= 48.
Proof.
  induction es as [|e es IH]; intros out fs Ho; cbn [note_fields fmap list_fmap].
  { rewrite app_nil_r. split; [intros [= <-]|intros (-> & _)]; auto. }
  unfold mt6878_md_mtk_note_field. fold (element_bytes whole e). split.
  - destruct (_ || _) eqn:G; [discriminate|]. destruct (md_der_header (element_bytes whole e)) as [|h] eqn:E; [discriminate|].
    destruct (Z.eqb_spec h (hdrlen e)) as [->|]; [|discriminate]. cbn [negb]. intros X. apply IH in X as (-> & A & B); [|rewrite len_app; unfold len in *; cbn [length]; lia].
    rewrite <- app_assoc in *. split; [reflexivity|]. split; [|exact B]. constructor; [|exact A]. split_and!; [lia..|exact E].
  - intros (-> & A & B). apply Forall_cons in A as [(A1 & A2 & A3) A]. rewrite A3, Z.eqb_refl. cbn [negb].
    assert (len out < 48). { rewrite len_app, len_cons in B. pose proof (len_nonneg (noted whole <$> es)). unfold fmap in *. lia. }
    replace ((len out =? 48) || (16384 <? hdrlen e) || (16384 - hdrlen e <? vlen e)) with false by lia.
    apply IH; [rewrite len_app; unfold len in *; cbn [length]; lia|]. rewrite <- app_assoc. auto.
Qed.
Lemma header_field b h t : bytes_ok b -> md_der_header b = inr h -> t = byte_at b 0 -> field_ok (Field b h t).
Proof. intros Hb Hh ->. apply der_header_exact in Hh as (t & c & -> & Ht & Hc & ->); [|exact Hb]. exists c. split_and!; auto. Qed.
Lemma field_header f : field_ok f -> bytes_ok (data f) -> md_der_header (data f) = inr (header f) /\ tag f = byte_at (data f) 0.
Proof.
  intros (c & E & Eh & _ & Ht & Hc) Hb. split; [apply der_header_exact; [exact Hb|]; exists (tag f), c; auto|]. rewrite E. symmetry. apply byte_at_der_tag.
Qed.
Lemma bytes_ok_concat ls : bytes_ok (concat ls) <-> Forall bytes_ok ls.
Proof.
  induction ls as [|l ls IH]; cbn; [split; intros; apply List.Forall_nil|]. rewrite bytes_ok_app, IH. split.
  - intros [A B]. now constructor.
  - intros A. inversion A; auto.
Qed.
Lemma len_concat_in (ls : list (list Z)) l : l ∈ ls -> len l <= len (concat ls).
Proof.
  induction 1 as [l ls|l l' ls _ IH]; cbn; rewrite len_app; [pose proof (len_nonneg (concat ls))|pose proof (len_nonneg l')]; lia.
Qed.

(** ** Sequences *)

Section Sequences.
Context {walker : Decoder} {walker_ok : Asn1}.

(** A sequence is parsed exactly into the encodings it is made of. *)
Lemma sequence_exact bytes fs : bytes_ok bytes -> md_der_sequence bytes = inr fs <->
  bytes = der 0x30 (concat (data <$> fs)) /\ Forall field_ok fs /\ len fs <= 48 /\ len bytes <= 16384.
Proof.
  intros Hb. unfold md_der_sequence. destruct (Z.ltb_spec 16384 (len bytes)) as [Hl|Hl]; [split; [discriminate|lia]|]. split.
  - destruct (md_der_header bytes) as [|h] eqn:Eh; [discriminate|]. apply der_header_exact in Eh as (t & c & -> & Ht & Hc & _); [|exact Hb].
    change (byte_at (der t c) 0) with t. destruct (Z.eqb_spec t 0x30) as [->|]; [|discriminate]. cbn [negb].
    destruct (ber_decoder (der 48 c)) as [es st] eqn:Ed. cbn [fst snd]. destruct (note_fields (der 48 c) es []) as [|out] eqn:En; [discriminate|].
    destruct (0 <? st) eqn:G1; [discriminate|]. destruct (Z.eqb_spec st 0) as [->|]; [|discriminate]. cbn [negb]. intros [= <-].
    apply note_fields_exact in En as (-> & A & B); [|unfold len; cbn; lia]. cbn [app] in *.
    assert (Hbc : bytes_ok c) by (rewrite <- (der_skip 48 c); apply bytes_ok_skip, Hb).
    destruct (decoder_sound c es Hbc Hc Ed) as [E T]; [eapply Forall_impl; [exact A|]; intros e (_ & _ & X); exact X|].
    split_and!; auto.
    + unfold noted. rewrite E at 1. do 2 f_equal. clear. induction es as [|e es IH]; cbn; [reflexivity|]. f_equal. exact IH.
    + apply Forall_fmap. eapply Forall_impl; [apply Forall_and; split; [exact A|exact T]|]. intros e [(_ & _ & X) Y]. cbn in *.
      apply header_field; [apply bytes_ok_slice, Hb|exact X|exact Y].
  - intros (-> & F & L & _). set (c := concat (data <$> fs)) in *.
    assert (Hbc : bytes_ok c) by (rewrite <- (der_skip 48 c); apply bytes_ok_skip, Hb).
    pose proof (header_length_range (len c)) as Hh. rewrite len_der in Hl.
    assert (Hbf : Forall bytes_ok (data <$> fs)) by now apply bytes_ok_concat.
    assert (Hhd : Forall (fun f => md_der_header (data f) = inr (header f) /\ tag f = byte_at (data f) 0) fs).
    { rewrite Forall_fmap in Hbf. eapply Forall_impl; [apply Forall_and; split; [exact F|exact Hbf]|]. intros f [X Y]. now apply field_header. }
    destruct (decoder_complete c (data <$> fs) Hbc ltac:(lia) eq_refl) as (es & Ed & R).
    { apply Forall_fmap. eapply Forall_impl; [exact Hhd|]. intros f [X _]. eauto. }
    assert (Eh : md_der_header (der 48 c) = inr (header_length (len c))) by (apply der_header_exact; [exact Hb|]; exists 48, c; split_and!; auto using low_tag_48; lia).
    rewrite Eh, Ed. change (byte_at (der 48 c) 0) with 48. cbn [Z.eqb Pos.eqb negb fst snd].
    assert (En : note_fields (der 48 c) es [] = inr fs).
    { apply note_fields_exact; [unfold len; cbn; lia|]. rewrite Forall2_fmap_r in R.
      assert (Hsz : Forall (fun f => len (data f) <= 16384) fs).
      { apply Forall_forall. intros f Hf. apply (list_elem_of_fmap_2 data) in Hf. apply len_concat_in in Hf. fold c in Hf. lia. }
      clearbody c. clear -R Hhd Hsz L. assert (X : fs = noted (der 48 c) <$> es /\ Forall (acceptable (der 48 c)) es).
      { clear L. induction R as [|e f es' fs' (R1 & R2 & R3 & R4 & R5) R IH]; [split; [reflexivity|apply List.Forall_nil]|].
        apply Forall_cons in Hhd as [[X1 X2] Hhd]. apply Forall_cons in Hsz as [X3 Hsz]. destruct (IH Hhd Hsz) as [-> Y]. split.
        - cbn. f_equal. unfold noted. rewrite R1. rewrite R2 in X1. injection X1 as X1. rewrite X1, R3, <- X2. now destruct f.
        - constructor; [|exact Y]. rewrite R2 in X1. injection X1 as X1. split_and!; [lia..|]. rewrite R1. exact R2. }
      destruct X as [X Y]. cbn [app]. auto. }
    rewrite En. reflexivity.
Qed.

(** ** Fields *)

Lemma field_content_at t c f i : field_of t c f -> 0 <= i -> byte_at (data f) (header f + i) = byte_at c i.
Proof.
  intros (E & Eh & _) Hi. rewrite E, Eh. pose proof (header_length_range (len c)). rewrite <- byte_at_skip by lia. now rewrite der_skip.
Qed.
Lemma field_size t c f : field_of t c f -> size f - header f = len c.
Proof. intros (E & Eh & _). unfold size. rewrite E, Eh, len_der. lia. Qed.
Lemma field_content t c f n i : field_of t c f -> 0 <= i -> slice (data f) (header f + i) n = slice c i n.
Proof.
  intros (E & Eh & _) Hi. rewrite E, Eh. pose proof (header_length_range (len c)). unfold slice. f_equal.
  transitivity (skipn (Z.to_nat i) (skipn (Z.to_nat (header_length (len c))) (der t c))); [rewrite skipn_skipn; f_equal; lia|now rewrite der_skip].
Qed.
Definition make_field (t : Z) (c : list Z) : md_der_field := Field (der t c) (header_length (len c)) t.
Lemma field_of_make t c f : field_of t c f <-> f = make_field t c /\ low_tag t /\ len c < 65536.
Proof. unfold field_of, make_field. destruct f as [d h g]. cbn. split; [intros (-> & -> & -> & X)|intros ([= -> -> ->] & X)]; tauto. Qed.
Lemma make_field_ok t c : low_tag t -> len c < 65536 -> field_ok (make_field t c).
Proof. intros. exists c. apply field_of_make. auto. Qed.
Lemma der_length_bytes t c : byte_at (der t c) 1 = (if len c <? 128 then len c else if len c <? 256 then 0x81 else 0x82) /\
  (if len c <? 128 then True else if len c <? 256 then byte_at (der t c) 2 = len c
   else byte_at (der t c) 2 = len c / 256 /\ byte_at (der t c) 3 = len c mod 256).
Proof. unfold der, der_length. destruct (len c <? 128); [|destruct (len c <? 256)]; repeat split. Qed.
Lemma der_inj t c t' c' : len c < 65536 -> len c' < 65536 -> der t c = der t' c' -> t = t' /\ c = c'.
Proof.
  intros Hc Hc' E. assert (Et : t = t') by exact (f_equal (fun l => byte_at l 0) E). split; [exact Et|]. subst t'.
  assert (El : len c = len c').
  { pose proof (f_equal (fun l => byte_at l 1) E) as E1. pose proof (f_equal (fun l => byte_at l 2) E) as E2. pose proof (f_equal (fun l => byte_at l 3) E) as E3.
    cbn beta in *. destruct (der_length_bytes t c) as [A1 A2], (der_length_bytes t c') as [B1 B2]. rewrite A1, B1 in E1. pose proof (len_nonneg c). pose proof (len_nonneg c').
    destruct (Z.ltb_spec (len c) 128), (Z.ltb_spec (len c') 128); try destruct (Z.ltb_spec (len c) 256); try destruct (Z.ltb_spec (len c') 256); try lia.
    destruct A2 as [A2 A3], B2 as [B2 B3]. rewrite (Z.div_mod (len c) 256), (Z.div_mod (len c') 256) by lia. congruence. }
  rewrite <- (der_skip t c), <- (der_skip t c'), E, El. reflexivity.
Qed.
Lemma field_ok_data f t c : field_ok f -> len c < 65536 -> data f = der t c -> f = make_field t c /\ low_tag t.
Proof.
  intros (c' & Ed & Eh & _ & Ht & Hc') Hc E. pose proof E as E'. rewrite Ed in E'. apply der_inj in E' as [Et ->]; [|assumption..].
  rewrite Et in Ht. split; [|exact Ht]. destruct f as [d h g]. cbn in *. unfold make_field. congruence.
Qed.

(** A bit string without unused bits. *)
Lemma bits_exact f n b : field_ok f -> 0 <= n < 65535 -> md_bits f n = inr b <-> f = make_field 3 (0 :: b) /\ len b = n.
Proof.
  intros (c & Hf) Hn. pose proof (field_size _ _ _ Hf) as Hs. pose proof (field_content_at _ _ _ 0 Hf ltac:(lia)) as Hb. rewrite Z.add_0_r in Hb.
  pose proof (field_content _ _ _ n 1 Hf ltac:(lia)) as Hc. pose proof (len_nonneg c) as Lc. pose proof Hf as (_ & _ & _ & _ & Hc2).
  unfold md_bits. rewrite Hs, u64_id by (unfold is_u64; lia). split.
  - destruct (_ || _) eqn:G; [discriminate|]. intros [= <-]. rewrite Hc. apply field_of_make in Hf as (E & _ & _). destruct c as [|z c]; [unfold len in G; cbn in G; lia|].
    change (byte_at (z :: c) 0) with z in Hb. rewrite len_cons in G. assert (Hl : n = len c) by lia.
    assert (Es : slice (z :: c) 1 n = c) by (rewrite Hl; exact (slice_all c)). rewrite Es. split; [|lia]. rewrite E. f_equal; [lia|f_equal; lia].
  - intros [-> Hl]. destruct Hf as (E1 & _). cbn [data tag make_field] in E1. subst n. cbn [tag make_field].
    apply der_inj in E1 as [_ <-]; [|rewrite len_cons; lia|exact Hc2]. rewrite Hb. change (byte_at (0 :: b) 0) with 0. rewrite len_cons in *.
    replace (negb (3 =? 3) || negb (1 + len b =? len b + 1) || negb (0 =? 0)) with false by lia. rewrite Hc. f_equal. exact (slice_all b).
Qed.

(** ** Keys and certificates *)

(** The public key [raw] and the key field that carries it. *)
Definition public_key (raw : list Z) : Prop := exists modulus, len modulus = 256 /\ Z.land (byte_at modulus 0) 0x80 <> 0 /\
  Z.land (byte_at modulus 255) 1 <> 0 /\ raw = der 0x30 (der 2 (0 :: modulus) ++ key_exponent).
Definition key_field (raw : list Z) : list Z := der 0x30 (rsa_algorithm ++ der 3 (0 :: raw)).
Lemma len_public_key raw : public_key raw -> len raw = 270.
Proof. intros (m & Hm & _ & _ & ->). rewrite len_der, len_app, len_der, len_cons, Hm. reflexivity. Qed.

Lemma sequence_2 bytes a b : bytes_ok bytes -> md_der_sequence bytes = inr [a; b] <->
  bytes = der 0x30 (data a ++ data b) /\ field_ok a /\ field_ok b /\ len bytes <= 16384.
Proof.
  intros Hb. rewrite sequence_exact by exact Hb. cbn [fmap list_fmap concat]. rewrite app_nil_r. rewrite !List.Forall_cons_iff.
  assert (len [a; b] <= 48) by (unfold len; cbn; lia). split; [intros (? & (? & ? & _) & _ & ?)|intros (? & ? & ? & ?)]; split_and!; auto.
Qed.
Lemma make_field_at t c i : low_tag t -> len c < 65536 -> 0 <= i -> byte_at (data (make_field t c)) (header (make_field t c) + i) = byte_at c i.
Proof. intros. apply field_content_at with t; [apply field_of_make; auto|assumption]. Qed.
Lemma make_field_size t c : size (make_field t c) = header (make_field t c) + len c.
Proof. unfold size. cbn. rewrite len_der. reflexivity. Qed.
Lemma low_tag_2 : low_tag 2.
Proof. split; [unfold is_u8; lia|discriminate]. Qed.
Lemma low_tag_3 : low_tag 3.
Proof. split; [unfold is_u8; lia|discriminate]. Qed.
Lemma bytes_ok_der t c : bytes_ok (der t c) -> bytes_ok c.
Proof. intros Hb. rewrite <- (der_skip t c). now apply bytes_ok_skip. Qed.

(** The two integers of a public key. *)
Lemma integers_exact raw modulus exponent : bytes_ok raw ->
  (md_der_sequence raw = inr [modulus; exponent] /\ tag modulus = 2 /\ u64 (size modulus - header modulus) = 257 /\
   byte_at (data modulus) (header modulus) = 0 /\ Z.land (byte_at (data modulus) (header modulus + 1)) 0x80 <> 0 /\
   Z.land (byte_at (data modulus) (size modulus - 1)) 1 <> 0 /\ data exponent = key_exponent) <->
  exists m, len m = 256 /\ Z.land (byte_at m 0) 0x80 <> 0 /\ Z.land (byte_at m 255) 1 <> 0 /\
    modulus = make_field 2 (0 :: m) /\ exponent = make_field 2 [1; 0; 1] /\ raw = der 0x30 (der 2 (0 :: m) ++ key_exponent).
Proof.
  intros Hb. rewrite sequence_2 by exact Hb. split.
  - intros ((E & (c & Hm) & Fe & _) & Ht & Hl & H0 & H1 & H2 & He). pose proof (field_size _ _ _ Hm) as Hs. pose proof Hm as (_ & _ & _ & Lt & Hc).
    pose proof (len_nonneg c). rewrite Hs, u64_id in Hl by (unfold is_u64; lia). rewrite Ht in *. destruct c as [|z m]; [discriminate|]. rewrite len_cons in *.
    pose proof (field_content_at _ _ _ 0 Hm ltac:(lia)) as A0. pose proof (field_content_at _ _ _ 1 Hm ltac:(lia)) as A1. pose proof (field_content_at _ _ _ 256 Hm ltac:(lia)) as A2.
    rewrite Z.add_0_r in A0. rewrite H0 in A0. change (byte_at (z :: m) 0) with z in A0. subst z. rewrite A1 in H1. replace (size modulus - 1) with (header modulus + 256) in H2 by lia. rewrite A2 in H2.
    exists m. apply field_of_make in Hm as (-> & _). assert (Ee : exponent = make_field 2 [1; 0; 1]) by (apply (field_ok_data exponent 2 [1; 0; 1]); [exact Fe|unfold len; cbn; lia|exact He]).
    split_and!; auto; [lia|]. rewrite E, He. reflexivity.
  - intros (m & Hm & H1 & H2 & -> & -> & E). assert (L : len (0 :: m) < 65536) by (rewrite len_cons; lia). pose proof low_tag_2 as L2.
    rewrite make_field_size. pose proof (make_field_at 2 (0 :: m) 0 L2 L ltac:(lia)) as A0. rewrite Z.add_0_r in A0.
    split_and!; auto.
    + apply make_field_ok; auto.
    + apply make_field_ok; [exact L2|unfold len; cbn; lia].
    + rewrite E, len_der, len_app, len_der, len_cons, Hm. vm_compute. discriminate.
    + rewrite len_cons, Hm. replace (_ + _ - _) with 257 by lia. reflexivity.
    + rewrite make_field_at by (auto; lia). exact H1.
    + rewrite len_cons, Hm. replace (header _ + (1 + 256) - 1) with (header (make_field 2 (0 :: m)) + 256) by lia. rewrite make_field_at by (auto; lia). exact H2.
Qed.

Lemma spki_exact f raw : field_ok f -> bytes_ok (data f) -> md_spki f = inr raw <-> public_key raw /\ data f = key_field raw.
Proof.
  intros Hf Hb. unfold md_spki. split.
  - destruct (md_der_sequence (data f)) as [|[|a [|b [|]]]] eqn:E; try discriminate. apply sequence_2 in E as (E & Fa & Fb & _); [|exact Hb].
    unfold md_field_bytes, bytes_eqb at 1. destruct (bool_decide_reflect (data a = rsa_algorithm)) as [Ea|]; [|discriminate]. cbn [negb]. cbv zeta.
    pose proof Fb as (c & Hc). pose proof (field_size _ _ _ Hc) as Hs. pose proof Hc as (_ & _ & _ & _ & Lc). pose proof (len_nonneg c). rewrite Hs, u64_id by (unfold is_u64; lia).
    destruct (Z.eqb_spec (len c) 0) as [|H0]; [discriminate|]. destruct (md_bits b (len c - 1)) as [|raw'] eqn:Eb; [discriminate|].
    apply bits_exact in Eb as [-> Lr]; [|exact Fb|lia].
    assert (Hbr : bytes_ok raw').
    { rewrite E in Hb. apply bytes_ok_der, bytes_ok_app in Hb as [_ Hb]. cbn [data make_field] in Hb. apply bytes_ok_der in Hb. now inversion Hb. }
    destruct (md_der_sequence raw') as [|[|m [|e [|]]]] eqn:Er; try discriminate. destruct (_ || _) eqn:G; [discriminate|]. intros [= <-].
    repeat (apply orb_false_iff in G as [G ?]). repeat match goal with X : negb _ = false |- _ => apply negb_false_iff in X end.
    match goal with X : bytes_eqb _ _ = true |- _ => apply bool_decide_eq_true in X end.
    destruct (proj1 (integers_exact raw' m e Hbr)) as (md & Hm & H1' & H2' & _ & _ & Er'); [split_and!; auto; lia|].
    split; [exists md; auto|]. rewrite E, Ea. reflexivity.
  - intros [Hk Ef]. pose proof (len_public_key raw Hk) as Lr. destruct Hk as (m & Hm & H1 & H2 & Er). unfold key_field in Ef.
    assert (Hbr : bytes_ok raw).
    { rewrite Ef in Hb. apply bytes_ok_der, bytes_ok_app in Hb as [_ Hb]. apply bytes_ok_der in Hb. now inversion Hb. }
    assert (E : md_der_sequence (data f) = inr [make_field 0x30 (skipn 2 rsa_algorithm); make_field 3 (0 :: raw)]).
    { apply sequence_2; [exact Hb|]. split; [exact Ef|]. split; [apply make_field_ok; [apply low_tag_48|unfold len; cbn; lia]|].
      split; [apply make_field_ok; [apply low_tag_3|rewrite len_cons; lia]|]. rewrite Ef, len_der, len_app, len_der, len_cons, Lr. vm_compute. discriminate. }
    rewrite E. change (md_field_bytes (make_field 48 (drop 2 rsa_algorithm)) rsa_algorithm) with true. cbn [negb]. cbv zeta. rewrite make_field_size, len_cons, Lr.
    replace (u64 _) with 271 by (replace (_ + _ - _) with 271 by lia; reflexivity). cbn [Z.eqb Pos.eqb].
    assert (Eb : md_bits (make_field 3 (0 :: raw)) (271 - 1) = inr raw).
    { apply bits_exact; [apply make_field_ok; [apply low_tag_3|rewrite len_cons; lia]|lia|]. split; [reflexivity|lia]. }
    rewrite Eb. destruct (proj2 (integers_exact raw (make_field 2 (0 :: m)) (make_field 2 [1; 0; 1]) Hbr)) as (X0 & X1 & X2 & X3 & X4 & X5 & X6); [exists m; split_and!; auto|].
    rewrite X0. unfold md_field_bytes, bytes_eqb. rewrite X6, bool_decide_true by reflexivity. match goal with |- context [if ?g then _ else _] => replace g with false by lia end. reflexivity.
Qed.

Fixpoint oids (pairs : list md_der_field) : list md_der_field := match pairs with o :: _ :: pairs => o :: oids pairs | _ => [] end.
Lemma pairs_ind (P : list md_der_field -> Prop) : P [] -> (forall a, P [a]) -> (forall a b l, P l -> P (a :: b :: l)) -> forall l, P l.
Proof.
  intros P0 P1 P2 l. enough (P l /\ forall a, P (a :: l)) by tauto. induction l as [|b l [IH1 IH2]]; [auto|]. split; [apply IH2|]. intros a. now apply P2.
Qed.
Lemma oid_loop_exact rest : forall seen, oid_loop seen rest = 0 <->
  Forall (fun o => tag o = 6) (oids rest) /\ NoDup (data <$> oids rest) /\ Forall (fun o => data o ∉ (data <$> seen)) (oids rest).
Proof.
  induction rest as [|a|a b rest IH] using pairs_ind; intros seen; cbn [oid_loop oids].
  1,2: split; [intros _; split_and!; constructor|reflexivity].
  cbn [fmap list_fmap]. rewrite NoDup_cons. destruct (Z.eqb_spec (tag a) 6) as [Ht|Ht]; cbn [negb]; [|split; [discriminate|]; intros (X & _); inversion X; contradiction].
  assert (He : existsb (md_field_equal a) seen = true <-> data a ∈ (data <$> seen)).
  { rewrite existsb_exists, list_elem_of_fmap. split; intros (x & A & B); exists x.
    - apply bool_decide_eq_true in B. split; [exact B|now apply list_elem_of_In].
    - split; [now apply list_elem_of_In|now apply bool_decide_eq_true]. }
  destruct (existsb (md_field_equal a) seen).
  { split; [discriminate|]. intros (_ & _ & X). inversion X as [|? ? Y]; subst. exfalso. apply Y, He. reflexivity. }
  rewrite IH, fmap_app. assert (Hs : Forall (fun o => data o ∉ (data <$> seen) ++ (data <$> [a])) (oids rest) <->
    Forall (fun o => data o ∉ (data <$> seen)) (oids rest) /\ data a ∉ (data <$> oids rest)).
  { rewrite list_elem_of_fmap. split.
    - intros X. split; [eapply Forall_impl; [exact X|]; intros o Ho X'; apply Ho, elem_of_app; now left|]. intros (o & E & Ho).
      rewrite Forall_forall in X. apply (X o Ho). apply elem_of_app. right. rewrite <- E. now left.
    - intros [X Y]. apply Forall_forall. intros o Ho Z1. apply elem_of_app in Z1 as [Z1|Z1].
      + rewrite Forall_forall in X. now apply (X o Ho).
      + cbn in Z1. apply list_elem_of_singleton in Z1. apply Y. eauto. }
  rewrite Hs. split.
  - intros (A & B & C & E). split_and!; auto. constructor; [|exact C]. intros X. apply He in X. discriminate.
  - intros (A & [B1 B2] & C). inversion A; inversion C; subst. auto.
Qed.

(** The structure of a certificate the code takes. *)
Definition cert_shape (bytes : list Z) (c : md_der_cert) : Prop := exists algorithm sig p0 p1 label p3 p4 p5 pairs,
  bytes = der 0x30 (data (tbs c) ++ algorithm ++ der 3 (0 :: sig)) /\ len bytes <= 16384 /\ (algorithm = pss_default \/ algorithm = explicit_pss) /\
  len sig = 256 /\ cert_signature c = make_field 3 (0 :: sig) /\
  field_ok (tbs c) /\ data (tbs c) = der 0x30 (concat (data <$> body c)) /\ len (body c) <= 48 /\ Forall field_ok (body c) /\
  body c = p0 :: p1 :: label :: p3 :: p4 :: p5 :: spki c :: pairs /\ len pairs mod 2 = 0 /\
  (data label = algorithm \/ data label = legacy_algorithm) /\ public_key (raw_key c) /\ data (spki c) = key_field (raw_key c) /\
  Forall (fun o => tag o = 6) (oids pairs) /\ NoDup (data <$> oids pairs).
Lemma sequence_3 bytes a b c : bytes_ok bytes -> md_der_sequence bytes = inr [a; b; c] <->
  bytes = der 0x30 (data a ++ data b ++ data c) /\ field_ok a /\ field_ok b /\ field_ok c /\ len bytes <= 16384.
Proof.
  intros Hb. rewrite sequence_exact by exact Hb. cbn [fmap list_fmap concat]. rewrite app_nil_r. rewrite !List.Forall_cons_iff.
  assert (len [a; b; c] <= 48) by (unfold len; cbn; lia). split; [intros (? & (? & ? & ? & _) & _ & ?)|intros (? & ? & ? & ? & ?)]; split_and!; auto.
Qed.
Lemma pss_profile_exact f : md_pss_profile f = 0 <-> data f = pss_default \/ data f = explicit_pss.
Proof.
  unfold md_pss_profile, md_field_bytes, bytes_eqb. destruct (bool_decide_reflect (data f = pss_default)) as [E|E]; [tauto|].
  destruct (bool_decide_reflect (data f = explicit_pss)) as [E'|E']; [tauto|]. split; [discriminate|tauto].
Qed.
Lemma pss_field algorithm : algorithm = pss_default \/ algorithm = explicit_pss -> exists f, field_ok f /\ data f = algorithm.
Proof.
  intros [-> | ->]; [exists (make_field 0x30 (skipn 2 pss_default))|exists (make_field 0x30 (skipn 2 explicit_pss))];
    (split; [apply make_field_ok; [apply low_tag_48|vm_compute; reflexivity]|vm_compute; reflexivity]).
Qed.
Lemma list_7 {A} (l : list A) : (7 <= length l)%nat -> exists a b c d e f g r, l = a :: b :: c :: d :: e :: f :: g :: r.
Proof. destruct l as [|a [|b [|c [|d [|e [|f [|g r]]]]]]]; cbn; try lia. intros _. eauto 10. Qed.
Lemma parse_cert_exact bytes c : bytes_ok bytes -> md_parse_cert bytes = inr c <-> cert_shape bytes c.
Proof.
  intros Hb. unfold md_parse_cert, cert_shape. split.
  - destruct (md_der_sequence bytes) as [|[|t [|a [|g [|]]]]] eqn:E; try discriminate. apply sequence_3 in E as (E & Ft & Fa & Fg & L); [|exact Hb].
    destruct (Z.eqb_spec (md_pss_profile a) 0) as [Ep|]; [|discriminate]. cbn [negb]. apply pss_profile_exact in Ep.
    destruct (md_bits g 256) as [|sig] eqn:Es; [discriminate|]. apply bits_exact in Es as [-> Ls]; [|exact Fg|lia].
    assert (Hbt : bytes_ok (data t)) by (rewrite E in Hb; now apply bytes_ok_der, bytes_ok_app in Hb as [Hb _]).
    destruct (md_der_sequence (data t)) as [|fs] eqn:Et; [discriminate|]. apply sequence_exact in Et as (Et & Ff & Lf & _); [|exact Hbt].
    destruct fs as [|p0 [|p1 [|label [|p3 [|p4 [|p5 [|k pairs]]]]]]]; try discriminate.
    destruct (Z.eqb_spec (len pairs mod 2) 0) as [Hm|]; [|discriminate]. cbn [negb]. unfold md_field_equal, md_field_bytes, bytes_eqb.
    destruct (_ && _) eqn:Gl; [discriminate|]. assert (Hl : data label = data a \/ data label = legacy_algorithm).
    { destruct (bool_decide_reflect (data label = data a)); [auto|]. destruct (bool_decide_reflect (data label = legacy_algorithm)); [auto|discriminate]. }
    assert (Fk : field_ok k /\ bytes_ok (data k)).
    { rewrite !List.Forall_cons_iff in Ff. rewrite Et in Hbt. apply bytes_ok_der, bytes_ok_concat in Hbt. cbn [fmap list_fmap] in Hbt. rewrite !List.Forall_cons_iff in Hbt. tauto. }
    destruct (md_spki k) as [|raw] eqn:Ek; [discriminate|]. apply spki_exact in Ek as [Hk1 Hk2]; [|apply Fk..].
    destruct (Z.eqb_spec (oid_loop [] pairs) 0) as [Ho|]; [|discriminate]. cbn [negb]. intros [= <-]. apply oid_loop_exact in Ho as (O1 & O2 & _).
    exists (data a), sig, p0, p1, label, p3, p4, p5, pairs. cbn [tbs spki raw_key cert_signature body]. split_and!; auto.
  - intros (al & sig & p0 & p1 & label & p3 & p4 & p5 & pairs & E & L & Ha & Ls & Eg & Ft & Et & Lf & Ff & Eb & Hm & Hl & Hk & Ek & O1 & O2).
    destruct (pss_field al Ha) as (a & Fa & Ea). pose proof low_tag_3 as L3.
    assert (Es : md_der_sequence bytes = inr [tbs c; a; make_field 3 (0 :: sig)]).
    { apply sequence_3; [exact Hb|]. rewrite Ea. split_and!; auto. apply make_field_ok; [exact L3|rewrite len_cons; lia]. }
    assert (Hbt : bytes_ok (data (tbs c))) by (rewrite E in Hb; now apply bytes_ok_der, bytes_ok_app in Hb as [Hb _]).
    rewrite Es. replace (md_pss_profile a =? 0) with true by (symmetry; apply Z.eqb_eq, pss_profile_exact; now rewrite Ea). cbn [negb].
    assert (Eg' : md_bits (make_field 3 (0 :: sig)) 256 = inr sig) by (apply bits_exact; [apply make_field_ok; [exact L3|rewrite len_cons; lia]|lia|auto]).
    assert (Lt : len (data (tbs c)) <= 16384).
    { rewrite E, len_der in L. pose proof (header_length_range (len (data (tbs c) ++ al ++ der 3 (0 :: sig)))) as Hr.
      pose proof (len_nonneg (al ++ der 3 (0 :: sig))) as Hn. pose proof (len_app (data (tbs c)) (al ++ der 3 (0 :: sig))) as Ha'. lia. }
    rewrite Eg'. assert (Et' : md_der_sequence (data (tbs c)) = inr (body c)) by (apply sequence_exact; [exact Hbt|]; auto). rewrite Et'.
    assert (Fk : field_ok (spki c) /\ bytes_ok (data (spki c))).
    { rewrite Eb in *. rewrite !List.Forall_cons_iff in Ff. rewrite Et in Hbt. apply bytes_ok_der, bytes_ok_concat in Hbt. cbn [fmap list_fmap] in Hbt. rewrite !List.Forall_cons_iff in Hbt. tauto. }
    assert (Ek' : md_spki (spki c) = inr (raw_key c)) by (apply spki_exact; [apply Fk..|]; auto).
    destruct c as [ct ck cr cg cb]. cbn [tbs spki raw_key cert_signature body] in *. subst cb cg. rewrite Hm. cbn [Z.eqb negb].
    replace (negb (md_field_equal label a) && negb (md_field_bytes label legacy_algorithm)) with false.
    2:{ unfold md_field_equal, md_field_bytes, bytes_eqb. rewrite Ea. destruct Hl as [-> | ->]; [rewrite bool_decide_true by reflexivity; reflexivity|].
        rewrite (bool_decide_true (legacy_algorithm = legacy_algorithm)) by reflexivity. now rewrite andb_false_r. }
    rewrite Ek'. assert (Eo : oid_loop [] pairs = 0) by (apply oid_loop_exact; split_and!; auto; apply Forall_true; intros o Ho; inversion Ho).
    rewrite Eo. reflexivity.
Qed.

(** ** Errors, keys and signatures of parsed certificates *)

Lemma note_fields_error whole es : forall out r, note_fields whole es out = inl r -> r <> 0.
Proof.
  induction es as [|e es IH]; intros out r; cbn [note_fields]; [discriminate|]. destruct (mt6878_md_mtk_note_field out whole e) as [r'|] eqn:E; [|apply IH].
  intros [= <-]. unfold mt6878_md_mtk_note_field in E. repeat case_match; congruence || (injection E as <-; discriminate).
Qed.
Lemma sequence_error bytes r : md_der_sequence bytes = inl r -> r <> 0.
Proof.
  unfold md_der_sequence. destruct (_ <? _); [intros [= <-]; discriminate|]. destruct (md_der_header bytes); [intros [= <-]; discriminate|].
  destruct (negb _); [intros [= <-]; discriminate|]. destruct (note_fields _ _ _) as [e|] eqn:E; [intros [= <-]; eapply note_fields_error, E|].
  destruct (0 <? _); [intros [= <-]; discriminate|]. destruct (Z.eqb_spec (ber_decoder bytes).2 0); [discriminate|]. intros [= <-]. assumption.
Qed.
Lemma oid_loop_error rest : forall seen, oid_loop seen rest = 0 \/ oid_loop seen rest = - EINVAL.
Proof. induction rest as [| |a b rest IH] using pairs_ind; intros seen; cbn [oid_loop]; auto. destruct (negb _); [auto|]. destruct (existsb _ _); auto. Qed.
Lemma spki_error f r : md_spki f = inl r -> r <> 0.
Proof. unfold md_spki. intros E. repeat (case_match; try (injection E as <-; discriminate); try discriminate). Qed.
Lemma parse_cert_error bytes r : md_parse_cert bytes = inl r -> r <> 0.
Proof.
  unfold md_parse_cert. destruct (md_der_sequence bytes) as [e|fs] eqn:E1; [intros [= <-]; eapply sequence_error, E1|].
  destruct fs as [|t [|a [|g [|]]]]; try (intros [= <-]; discriminate). destruct (negb _); [intros [= <-]; discriminate|].
  destruct (md_bits g 256); [intros [= <-]; discriminate|]. destruct (md_der_sequence (data t)) as [e|fs] eqn:E2; [intros [= <-]; eapply sequence_error, E2|].
  destruct fs as [|? [|? [|? [|? [|? [|? [|k pairs]]]]]]]; try (intros [= <-]; discriminate). destruct (negb _); [intros [= <-]; discriminate|].
  destruct (_ && _); [intros [= <-]; discriminate|]. destruct (md_spki k) as [e|] eqn:E3; [intros [= <-]; eapply spki_error, E3|].
  destruct (oid_loop_error pairs []) as [-> | ->]; cbn; [discriminate|]. intros [= <-]. discriminate.
Qed.
Lemma public_key_bytes m : len m = 256 -> der 0x30 (der 2 (0 :: m) ++ key_exponent) = key_prefix ++ m ++ key_exponent.
Proof.
  intros Hm. assert (L1 : len (0 :: m) = 257) by (rewrite len_cons; lia).
  assert (E1 : der 2 (0 :: m) = [2; 0x82; 1; 1; 0] ++ m) by (unfold der; rewrite L1; reflexivity).
  rewrite E1. assert (L2 : len (([2; 130; 1; 1; 0] ++ m) ++ key_exponent) = 266) by (rewrite !len_app, Hm; reflexivity).
  unfold der. rewrite L2, <- app_assoc. reflexivity.
Qed.
Lemma public_key_ok raw : public_key raw -> key_ok raw.
Proof.
  intros Hk. pose proof (len_public_key raw Hk) as L. destruct Hk as (m & Hm & H1 & H2 & ->). rewrite public_key_bytes in * by assumption.
  split_and!; [exact L|reflexivity|..].
  - rewrite byte_at_app_r, byte_at_app_l by (unfold len in *; cbn; lia). exact H1.
  - rewrite byte_at_app_r, byte_at_app_l by (unfold len in *; cbn; lia). exact H2.
  - rewrite app_assoc. rewrite <- (app_nil_r key_exponent) at 1. replace 265 with (len (key_prefix ++ m)) by (rewrite len_app, Hm; reflexivity).
    now apply slice_app_mid.
Qed.
(** What verification needs of a parsed certificate. *)
Lemma cert_shape_sizes bytes c : cert_shape bytes c ->
  public_key (raw_key c) /\ 1 <= len (data (tbs c)) <= 16384 /\ len (signature_of c) = 256 /\ len (data (spki c)) = 294.
Proof.
  intros (al & sig & p0 & p1 & label & p3 & p4 & p5 & pairs & E & L & _ & Ls & Eg & _ & Et & _ & _ & _ & _ & _ & Hk & Ek & _).
  split_and!; auto.
  - rewrite Et, len_der. pose proof (header_length_range (len (concat (data <$> body c)))). pose proof (len_nonneg (concat (data <$> body c))). lia.
  - rewrite E, len_der in L. pose proof (header_length_range (len (data (tbs c) ++ al ++ der 3 (0 :: sig)))) as Hr.
    pose proof (len_nonneg (al ++ der 3 (0 :: sig))) as Hn. pose proof (len_app (data (tbs c)) (al ++ der 3 (0 :: sig))) as Ha'. lia.
  - unfold signature_of. rewrite Eg. rewrite (field_content 3 (0 :: sig)); [|apply field_of_make; split; [reflexivity|]; split; [apply low_tag_3|rewrite len_cons; lia]|lia].
    apply len_slice; rewrite ?len_cons; lia.
  - pose proof (len_public_key _ Hk) as Lr. rewrite Ek. unfold key_field. rewrite len_der, len_app, len_der, len_cons, Lr. reflexivity.
Qed.

(** ** The chain of trust *)

(** The pin names the root key; the root delegates to the leaf key; each
    certificate is signed with its own key; the leaf asks for no transform and
    carries the hash of the header, and the hash of the payload. *)
Definition chain_of (H : list Z -> list Z) (R : list Z -> list Z -> list Z) (pin head : list Z) (root leaf : md_der_cert) (h : mt6878_md_signed_hashes) : Prop :=
  H (data (spki root)) = pin /\
  (exists f, md_metadata root 1 2 = Some f /\ data f = data (spki leaf)) /\
  pss_encodes H (H (data (tbs root))) (R (raw_key root) (signature_of root)) /\
  pss_encodes H (H (data (tbs leaf))) (R (raw_key leaf) (signature_of leaf)) /\
  transform_free leaf = true /\
  md_metadata leaf 2 4 = Some (make_field 3 (0 :: header_sha256 h)) /\ header_sha256 h = H head /\
  md_metadata leaf 2 1 = Some (make_field 3 (0 :: payload_sha256 h)) /\ len (payload_sha256 h) = 32.
Definition trusted (H : list Z -> list Z) (R : list Z -> list Z -> list Z) (pin cert1 cert2 head : list Z) (h : mt6878_md_signed_hashes) : Prop :=
  exists root leaf, cert_shape cert1 root /\ cert_shape cert2 leaf /\ chain_of H R pin head root leaf h.

Definition holds_opt (c : option mt6878_md_pss32) : list resource := match c with Some c => holds c | None => [] end.
Lemma accounts_frame s : forall h h' rest, accounts s h = Some h' -> accounts s (h ++ rest) = Some (h' ++ rest).
Proof.
  assert (Hnone : forall s, fold_left account s None = None) by (induction s0; auto).
  induction s as [|[q a] s IH]; intros h h' rest; unfold accounts; cbn [fold_left]; [intros [= <-]; reflexivity|].
  destruct (account (Some h) (q, a)) as [h1|] eqn:E; [|rewrite Hnone; discriminate]. intros X.
  assert (E' : account (Some (h ++ rest)) (q, a) = Some (h1 ++ rest)).
  { unfold account in *. cbn [fst snd] in *. destruct q as [r|r| | | | |]; try (destruct h; injection E as <-; [destruct rest|]; reflexivity).
    - destruct h; destruct (status a <? 0); injection E as <-; try reflexivity; destruct rest; reflexivity.
    - destruct h as [|r' h]; [discriminate|]. cbn [app]. destruct (decide (r = r')); [injection E as <-; reflexivity|discriminate]. }
  rewrite E'. apply IH. exact X.
Qed.
Lemma destroy_opt c rest : performs (mt6878_md_pss32_destroy c) (fun _ s => accounts s (holds_opt c ++ rest) = Some rest).
Proof.
  destruct c as [c|]; cbn [holds_opt]; [|cbn [mt6878_md_pss32_destroy]; trace_step; reflexivity]. eapply performs_impl; [apply destroy_releases|]. cbn. intros _ s Hs.
  now apply accounts_frame with (rest := rest) in Hs.
Qed.
Lemma finish_outcome {A} root leaf r (out : A) : performs (finish root leaf r out) (fun p s =>
  p = (r, out) /\ accounts s (holds_opt leaf ++ holds_opt root ++ [Work]) = Some []).
Proof.
  unfold finish. eapply performs_bind; [apply destroy_opt|]. intros ? s1 H1. cbn beta in H1. eapply performs_bind; [apply destroy_opt|]. intros ? s2 H2. cbn beta in H2.
  trace_step. trace_step. split; [reflexivity|]. rewrite (accounts_app _ _ _ _ H1), (accounts_app _ _ _ _ H2). reflexivity.
Qed.

Lemma honest_of H R s : Forall (cooperative H R) s -> Forall (honest H R) s.
Proof. intros F. eapply Forall_impl; [exact F|]. intros e X. apply X. Qed.

Section Chain.
Context (H : list Z -> list Z) (R : list Z -> list Z -> list Z) {crypto : Crypto H R} (out : mt6878_md_signed_hashes) (T : mt6878_md_signed_hashes -> Prop).
(** What a verification leaves, when [pre] was done before it. *)
Definition settles (pre : trace request answer) (p : Z * option mt6878_md_signed_hashes) (s : trace request answer) : Prop :=
  accounts (pre ++ s) [] = Some [] /\ (p.1 <> 0 -> p.2 = Some out) /\
  (Forall (honest H R) (pre ++ s) -> forall h, p = (0, Some h) -> T h) /\
  (Forall (cooperative H R) (pre ++ s) -> forall h, T h -> p = (0, Some h)) /\ p.2 <> None.
Lemma settle_bind {A} (m : io request answer A) (k : A -> io request answer (Z * option mt6878_md_signed_hashes)) Q pre :
  performs m Q -> (forall a s, Q a s -> performs (k a) (settles (pre ++ s))) -> performs (bind m k) (settles pre).
Proof.
  intros Hm Hk. eapply performs_bind; [exact Hm|]. intros a s Hs. eapply performs_impl; [apply (Hk a s Hs)|]. unfold settles. cbn. intros p s'. now rewrite <- app_assoc.
Qed.
Lemma settle_error pre root leaf r : r <> 0 -> accounts pre [] = Some (holds_opt leaf ++ holds_opt root ++ [Work]) ->
  (Forall (cooperative H R) pre -> forall h, ~ T h) -> performs (finish root leaf r (Some out)) (settles pre).
Proof.
  intros Hr Hp Hn. eapply performs_impl; [apply finish_outcome|]. cbn. intros p s [-> Hs]. split; [now rewrite (accounts_app _ _ _ _ Hp)|]. split; [reflexivity|].
  split; [intros _ h [= E]; contradiction|]. split; [|discriminate]. intros F h X. apply Forall_app in F as [F _]. now apply Hn in X.
Qed.
Lemma settle_success pre root leaf h : accounts pre [] = Some (holds_opt leaf ++ holds_opt root ++ [Work]) ->
  (Forall (honest H R) pre -> forall h', T h' <-> h' = h) -> performs (finish root leaf 0 (Some h)) (settles pre).
Proof.
  intros Hp Hn. eapply performs_impl; [apply finish_outcome|]. cbn. intros p s [-> Hs]. split; [now rewrite (accounts_app _ _ _ _ Hp)|]. split; [now intros []|].
  split; [|split; [|discriminate]]; intros F h'.
  - apply Forall_app in F as [F _]. rewrite (Hn F). now intros [= ->].
  - apply Forall_app in F as [F _]. rewrite (Hn (honest_of H R _ F)). now intros ->.
Qed.
End Chain.

(** The steps the chain makes, with what each leaves held. *)
Lemma create_step H R {crypto : Crypto H R} k : public_key k -> performs (mt6878_md_pss32_create (Some k)) (fun r s =>
  match r with
  | inl e => e <> 0 /\ accounts s [] = Some [] /\ ~ Forall (cooperative H R) s
  | inr c => ready k c /\ accounts s [] = Some (holds c)
  end).
Proof.
  intros Hk. eapply performs_impl; [apply performs_and; [apply create_outcome|apply (create_cooperative H R k), public_key_ok, Hk]|].
  cbn. intros [e|c] s [A B]; cbn [created] in A.
  - destruct A as [A1 A2]. split; [lia|]. split; [exact A2|]. intros F. destruct (B F). discriminate.
  - destruct A as (k' & [= <-] & _ & A1 & A2). auto.
Qed.
Lemma sha256_step H R {crypto : Crypto H R} c b : 1 <= len b <= 64 * 1024 * 1024 ->
  performs (mt6878_md_pss32_sha256 (Some c) (Some b) (Some (zeros 32))) (fun p s => Forall neutral s /\ (Forall (honest H R) s -> p = (0, Some (H b)))).
Proof.
  intros Hb. eapply performs_impl; [apply performs_and; [apply sha256_neutral|apply (sha256_outcome H R c b); exact Hb]|].
  cbn. intros p s [A [_ B]]. split; [exact A|exact B].
Qed.
Lemma verify_step H R {crypto : Crypto H R} k c t g : ready k c -> 1 <= len t <= 16384 -> len g = 256 ->
  performs (mt6878_md_pss32_verify (Some c) (Some t) (Some g)) (fun p s =>
    Forall neutral s /\ p.2 = Some c /\ (Forall (honest H R) s -> (p.1 = 0 <-> pss_encodes H (H t) (R k g)))).
Proof.
  intros (Hk & _ & _ & _ & He) Ht Hg. eapply performs_impl; [apply performs_and; [apply (verify_neutral c _ _ He)|apply (verify_outcome H R c k t g); assumption]|].
  cbn. intros p s [[A1 A2] (_ & _ & B)]. auto.
Qed.

Lemma after_neutral pre s h : accounts pre [] = Some h -> Forall neutral s -> accounts (pre ++ s) [] = Some h.
Proof. intros Hp Hs. rewrite (accounts_app _ _ _ _ Hp). now apply neutral_accounts. Qed.
Lemma after_create pre s h c : accounts pre [] = Some h -> accounts s [] = Some (holds c) -> accounts (pre ++ s) [] = Some (holds c ++ h).
Proof. intros Hp Hs. rewrite (accounts_app _ _ _ _ Hp). apply (accounts_frame _ [] _ h Hs). Qed.
Lemma after_balanced pre s h : accounts pre [] = Some h -> accounts s [] = Some [] -> accounts (pre ++ s) [] = Some h.
Proof. intros Hp Hs. rewrite (accounts_app _ _ _ _ Hp). apply (accounts_frame _ [] _ h Hs). Qed.
Lemma metadata_bits c group item f : Forall field_ok (body c) -> md_metadata c group item = Some f -> field_ok f.
Proof.
  unfold md_metadata. intros Hb. apply (Forall_drop _ 7) in Hb. revert Hb. generalize (drop 7 (body c)). clear. intros l.
  induction l as [| |a b l IH] using pairs_ind; cbn [find_pair]; try discriminate. rewrite !List.Forall_cons_iff. intros (_ & Fb & Fl).
  destruct (md_field_bytes a _); [intros [= <-]; exact Fb|auto].
Qed.

Lemma make_field_inj t a b : len a < 65535 -> len b < 65535 -> Some (make_field t (0 :: a)) = Some (make_field t (0 :: b)) -> a = b.
Proof.
  intros Ha Hb E. apply (f_equal (fun o => match o with Some f => data f | None => [] end)) in E. cbn [data make_field] in E.
  apply der_inj in E as [_ [= E]]; [exact E|rewrite len_cons; lia..].
Qed.

Section Leaf.
Context (H : list Z -> list Z) (R : list Z -> list Z -> list Z) {crypto : Crypto H R} (out : mt6878_md_signed_hashes).
Context (pin head : list Z) (rc lc : md_der_cert) (Hhead : len head = 512) (Fl : Forall field_ok (body lc)).
Let T (h : mt6878_md_signed_hashes) : Prop := chain_of H R pin head rc lc h.
Lemma leaf_settles pre root leaf : accounts pre [] = Some (holds leaf ++ holds_opt root ++ [Work]) ->
  (Forall (honest H R) pre -> H (data (spki rc)) = pin /\ (exists f, md_metadata rc 1 2 = Some f /\ data f = data (spki lc)) /\
    pss_encodes H (H (data (tbs rc))) (R (raw_key rc) (signature_of rc)) /\ pss_encodes H (H (data (tbs lc))) (R (raw_key lc) (signature_of lc))) ->
  performs (leaf_hashes lc head (Some out) root (Some leaf)) (settles H R out T pre).
Proof.
  intros Hp Hpre. unfold leaf_hashes.
  destruct (transform_free lc) eqn:Ef; cbn [negb]; [|apply settle_error; [lia|exact Hp|]; intros _ h (_ & _ & _ & _ & X & _); congruence].
  destruct (md_metadata lc 2 4) as [f|] eqn:E4; [|apply settle_error; [lia|exact Hp|]; intros _ h (_ & _ & _ & _ & _ & X & _); congruence].
  pose proof (metadata_bits _ _ _ _ Fl E4) as Ff.
  destruct (md_bits f 32) as [|expected] eqn:Eb.
  { apply settle_error; [lia|exact Hp|]. intros _ h (_ & _ & _ & _ & _ & X & Y & _). rewrite E4 in X. injection X as ->.
    assert (E : md_bits (make_field 3 (0 :: header_sha256 h)) 32 = inr (header_sha256 h)); [|congruence].
    apply bits_exact; [exact Ff|lia|]. split; [reflexivity|]. rewrite Y. apply hash_bytes. }
  apply bits_exact in Eb as [-> Le]; [|exact Ff|lia].
  eapply settle_bind; [apply (sha256_step H R leaf head); lia|]. intros p s [Hs Hq]. pose proof (after_neutral _ _ _ Hp Hs) as Hp'.
  destruct (Z.eqb_spec p.1 0) as [E0|E0]; cbn [negb].
  2:{ apply settle_error; [exact E0|exact Hp'|]. intros F. apply honest_of, Forall_app in F as [_ F]. rewrite (Hq F) in E0. contradiction. }
  destruct (bytes_eqb (default [] p.2) expected) eqn:Ex; cbn [negb].
  2:{ apply settle_error; [lia|exact Hp'|]. intros F h. apply honest_of, Forall_app in F as [_ F]. rewrite (Hq F) in Ex. apply bool_decide_eq_false in Ex. cbn in Ex.
      intros (_ & _ & _ & _ & _ & X & Y & _). rewrite E4 in X. apply Ex. rewrite <- Y.
      apply make_field_inj in X; [congruence|lia|]. rewrite Y. destruct (hash_bytes head). lia. }
  apply bool_decide_eq_true in Ex.
  destruct (md_metadata lc 2 1) as [f|] eqn:E1; [|apply settle_error; [lia|exact Hp'|]; intros _ h (_ & _ & _ & _ & _ & _ & _ & X & _); congruence].
  pose proof (metadata_bits _ _ _ _ Fl E1) as Ff1.
  destruct (md_bits f 32) as [|payload] eqn:Eb1.
  { apply settle_error; [lia|exact Hp'|]. intros _ h (_ & _ & _ & _ & _ & _ & _ & X & Y). rewrite E1 in X. injection X as ->.
    assert (E : md_bits (make_field 3 (0 :: payload_sha256 h)) 32 = inr (payload_sha256 h)) by (apply bits_exact; [exact Ff1|lia|auto]). congruence. }
  apply bits_exact in Eb1 as [-> Lp]; [|exact Ff1|lia].
  apply settle_success; [exact Hp'|]. intros F h'. apply Forall_app in F as [F F']. rewrite (Hq F') in Ex. cbn in Ex. destruct (Hpre F) as (K1 & K2 & K3 & K4).
  unfold T, chain_of. rewrite E4, E1. split.
  - intros (_ & _ & _ & _ & _ & X & Y & X' & Y'). destruct h' as [hh hp]. cbn [header_sha256 payload_sha256] in *.
    apply make_field_inj in X as <-; [|lia|rewrite Y; destruct (hash_bytes head); lia]. apply make_field_inj in X' as <-; [reflexivity|lia..].
  - intros ->. cbn [header_sha256 payload_sha256]. split_and!; auto.
Qed.
Lemma leaf_chain_settles pre root : public_key (raw_key lc) -> 1 <= len (data (tbs lc)) <= 16384 -> len (signature_of lc) = 256 ->
  accounts pre [] = Some (holds_opt root ++ [Work]) ->
  (Forall (honest H R) pre -> H (data (spki rc)) = pin /\ (exists f, md_metadata rc 1 2 = Some f /\ data f = data (spki lc)) /\
    pss_encodes H (H (data (tbs rc))) (R (raw_key rc) (signature_of rc))) ->
  performs (leaf_chain lc head (Some out) root) (settles H R out T pre).
Proof.
  intros K2 T2 S2 A3 Q2. unfold leaf_chain. eapply settle_bind; [apply (create_step H R (raw_key lc) K2)|]. intros [e|leaf] s0.
  { intros (He & Hs & Hn). apply settle_error; [exact He|now apply (after_balanced _ _ _ A3)|]. intros F. apply Forall_app in F as [_ F]. contradiction. }
  intros [R1 H1]. pose proof (after_create _ _ _ _ A3 H1) as A4. eapply settle_bind; [apply (verify_step H R (raw_key lc) leaf (data (tbs lc)) (signature_of lc) R1 T2 S2)|].
  intros p s1 (Hs & Ep & Hq). pose proof (after_neutral _ _ _ A4 Hs) as A5. rewrite Ep. destruct (Z.eqb_spec p.1 0) as [E0|E0]; cbn [negb].
  2:{ apply settle_error; [exact E0|exact A5|]. intros F h (_ & _ & _ & X & _). apply honest_of, Forall_app in F as [_ F]. apply E0, (Hq F), X. }
  apply leaf_settles; [exact A5|]. intros F. apply Forall_app in F as [F F']. apply Forall_app in F as [F _]. destruct (Q2 F) as (X1 & X2 & X3). split_and!; auto. now apply (Hq F').
Qed.
End Leaf.

Lemma settles_iff H R out (T T' : mt6878_md_signed_hashes -> Prop) pre m : (forall h, T h <-> T' h) ->
  performs m (settles H R out T' pre) -> performs m (settles H R out T pre).
Proof.
  intros HT Hm. eapply performs_impl; [exact Hm|]. unfold settles. intros p s (A & B & C & D & E). split_and!; auto; intros F h; rewrite HT; [now apply C|now apply D].
Qed.
Lemma verify_pin_settles H R {crypto : Crypto H R} out pin c1 c2 head : bytes_ok c1 -> bytes_ok c2 -> len head = 512 ->
  performs (md_mtk_verify_pin (Some c1) (Some c2) (Some head) (Some out) pin) (settles H R out (trusted H R pin c1 c2 head) []).
Proof.
  intros Hb1 Hb2 Hh. unfold md_mtk_verify_pin.
  assert (Hsz : forall bytes c, cert_shape bytes c -> 1 <= len bytes <= 16384).
  { intros bytes c (al & sig & p0 & p1 & label & p3 & p4 & p5 & pairs & E & L & _). rewrite E, len_der in *. pose proof (len_nonneg (data (tbs c) ++ al ++ der 3 (0 :: sig))).
    pose proof (header_length_range (len (data (tbs c) ++ al ++ der 3 (0 :: sig)))). lia. }
  trace_step.
  { trace_step. split; [reflexivity|]. split; [reflexivity|]. split; [discriminate|]. split; [|discriminate]. intros _ h (rc & lc & S1 & S2 & _).
    apply Hsz in S1, S2. exfalso. lia. }
  clear G. eapply settle_bind; [apply (performs_ask _ (fun a s => s = [(Acquire Work, a)])); reflexivity|]. intros a s ->. cbn [app].
  destruct (status a <? 0) eqn:Ga.
  { trace_step. split; [unfold accounts; cbn; now rewrite Ga|]. split; [reflexivity|]. split; [discriminate|]. split; [|discriminate]. intros F. apply Forall_cons in F as [[_ F] _]. cbn in F. lia. }
  assert (A0 : accounts [(Acquire Work, a)] [] = Some [Work]) by (unfold accounts; cbn; now rewrite Ga). revert A0. generalize [(Acquire Work, a)]. clear a Ga. intros pre A0.
  destruct (md_parse_cert c1) as [e|rc] eqn:P1.
  { apply settle_error; [eapply parse_cert_error, P1|exact A0|]. intros _ h (rc & lc & S1 & _). apply parse_cert_exact in S1; [congruence|exact Hb1]. }
  destruct (md_parse_cert c2) as [e|lc] eqn:P2.
  { apply settle_error; [eapply parse_cert_error, P2|exact A0|]. intros _ h (rc' & lc & _ & S2 & _). apply parse_cert_exact in S2; [congruence|exact Hb2]. }
  apply (settles_iff _ _ _ _ (chain_of H R pin head rc lc)).
  { intros h. split.
    - intros (rc' & lc' & S1 & S2 & X). apply parse_cert_exact in S1, S2; try assumption. congruence.
    - intros X. exists rc, lc. split_and!; auto; now apply parse_cert_exact. }
  apply parse_cert_exact in P1, P2; try assumption. destruct (cert_shape_sizes _ _ P1) as (K1 & T1 & S1 & B1), (cert_shape_sizes _ _ P2) as (K2 & T2 & S2 & _).
  assert (Fl : Forall field_ok (body lc)) by (destruct P2 as (al & sig & p0 & p1 & label & p3 & p4 & p5 & pairs & _ & _ & _ & _ & _ & _ & _ & _ & X & _); exact X).
  clear P1 P2 Hb1 Hb2 Hsz. eapply settle_bind; [apply (create_step H R (raw_key rc) K1)|]. intros [e|root] s0.
  { intros (He & Hs & Hn). apply settle_error; [exact He|now apply (after_balanced _ _ _ A0)|]. intros F. apply Forall_app in F as [_ F]. contradiction. }
  intros [R0 H0]. pose proof (after_create _ _ _ _ A0 H0) as A1. clear H0. cbv zeta. revert A1. generalize (pre ++ s0). clear pre s0 A0. intros pre A1.
  eapply settle_bind; [apply (sha256_step H R root (data (spki rc))); lia|]. intros p s0 [Hs Hq]. pose proof (after_neutral _ _ _ A1 Hs) as A2. clear Hs A1.
  destruct (Z.eqb_spec p.1 0) as [E0|E0]; cbn [negb].
  2:{ apply settle_error; [exact E0|exact A2|]. intros F. apply honest_of, Forall_app in F as [_ F]. rewrite (Hq F) in E0. contradiction. }
  assert (Q1 : Forall (honest H R) (pre ++ s0) -> default [] p.2 = H (data (spki rc))) by (intros F; apply Forall_app in F as [_ F]; now rewrite (Hq F)).
  clear Hq E0. revert A2 Q1. generalize (pre ++ s0) (default [] p.2). clear pre s0 p. intros pre digest A2 Q1.
  destruct (bytes_eqb digest pin) eqn:Gp; cbn [negb].
  2:{ apply settle_error; [lia|exact A2|]. intros F h (X & _). apply bool_decide_eq_false in Gp. apply Gp. rewrite (Q1 (honest_of H R _ F)). exact X. }
  apply bool_decide_eq_true in Gp. subst digest.
  assert (Hd : match md_metadata rc 1 2 with Some f => md_field_equal f (spki lc) | None => false end = true <-> exists f, md_metadata rc 1 2 = Some f /\ data f = data (spki lc)).
  { destruct (md_metadata rc 1 2) as [f|]; [|split; [discriminate|intros (f & [=] & _)]]. split; [intros X; apply bool_decide_eq_true in X; eauto|].
    intros (f' & [= <-] & X). now apply bool_decide_eq_true. }
  destruct (match md_metadata rc 1 2 with Some f => md_field_equal f (spki lc) | None => false end); cbn [negb].
  2:{ apply settle_error; [lia|exact A2|]. intros _ h (_ & X & _). apply Hd in X. discriminate. }
  apply proj1 in Hd. specialize (Hd eq_refl).
  eapply settle_bind; [apply (verify_step H R (raw_key rc) root (data (tbs rc)) (signature_of rc) R0 T1 S1)|]. intros p s0 (Hs & Ep & Hq).
  pose proof (after_neutral _ _ _ A2 Hs) as A3. clear Hs A2. rewrite Ep. destruct (Z.eqb_spec p.1 0) as [E0|E0]; cbn [negb].
  2:{ apply settle_error; [exact E0|exact A3|]. intros F h (_ & _ & X & _). apply honest_of, Forall_app in F as [_ F]. apply E0, (Hq F), X. }
  assert (Q2 : Forall (honest H R) (pre ++ s0) -> H (data (spki rc)) = pin /\ pss_encodes H (H (data (tbs rc))) (R (raw_key rc) (signature_of rc))).
  { intros F. apply Forall_app in F as [F F']. split; [symmetry; now apply Q1|now apply (Hq F')]. }
  apply leaf_chain_settles; auto. intros F. destruct (Q2 F). auto.
Qed.
End Sequences.

(** ** A decoder with the contract *)

Lemma bytes_ok_make t c : is_u8 t -> len c < 65536 -> bytes_ok c -> bytes_ok (der t c).
Proof.
  intros Ht Hl Hb. unfold der, der_length. pose proof (len_nonneg c). constructor; [exact Ht|].
  destruct (Z.ltb_spec (len c) 128); [|destruct (Z.ltb_spec (len c) 256)]; repeat (apply List.Forall_cons; [unfold is_u8; dlia|]); exact Hb.
Qed.

Module Walker.
(** The header and value lengths of the encoding at [pos]. *)
Definition tlv_at (whole : list Z) (pos : Z) : option (Z * Z) :=
  let b := byte_at whole (pos + 1) in
  if b <? 128 then Some (2, b)
  else if b =? 0x81 then Some (3, byte_at whole (pos + 2))
  else if b =? 0x82 then Some (4, 256 * byte_at whole (pos + 2) + byte_at whole (pos + 3))
  else None.
Fixpoint walk (fuel : nat) (whole : list Z) (pos : Z) : list element * Z :=
  match fuel with
  | O => ([], - EBADMSG)
  | S fuel =>
    if pos =? len whole then ([], 0)
    else
    match tlv_at whole pos with
    | None => ([], - EBADMSG)
    | Some (h, v) =>
      if len whole <? pos + h + v then ([], - EBADMSG)
      else let '(es, st) := walk fuel whole (pos + h + v) in (Element h (byte_at whole pos) (pos + h) v :: es, st)
    end
  end.
Definition decode : Decoder := fun whole =>
  match md_der_header whole with inl _ => ([], - EBADMSG) | inr h => walk (S (length whole)) whole h end.

Lemma tlv_at_range whole pos h v : bytes_ok whole -> tlv_at whole pos = Some (h, v) -> 2 <= h <= 4 /\ 0 <= v.
Proof.
  intros Hb. unfold tlv_at. cbv zeta. pose proof (byte_at_u8 whole (pos + 1) Hb). pose proof (byte_at_u8 whole (pos + 2) Hb). pose proof (byte_at_u8 whole (pos + 3) Hb).
  unfold is_u8 in *. repeat case_match; intros [= <- <-]; lia.
Qed.
Lemma skip_slice (l : list Z) i n : 0 <= i -> 0 <= n -> i + n <= len l -> skipn (Z.to_nat i) l = slice l i n ++ skipn (Z.to_nat (i + n)) l.
Proof. intros. unfold slice. rewrite <- (take_drop (Z.to_nat n) (drop (Z.to_nat i) l)) at 1. f_equal. rewrite drop_drop. f_equal. lia. Qed.
Lemma walk_sound whole : bytes_ok whole -> forall fuel pos es, 0 <= pos <= len whole -> walk fuel whole pos = (es, 0) ->
  skipn (Z.to_nat pos) whole = concat (element_bytes whole <$> es) /\ Forall (fun e => etag e = byte_at (element_bytes whole e) 0) es.
Proof.
  intros Hb. induction fuel as [|fuel IH]; intros pos es Hp; cbn [walk]; [discriminate|]. destruct (Z.eqb_spec pos (len whole)) as [->|Hne].
  { intros [= <-]. split; [|apply List.Forall_nil]. cbn. apply drop_ge. unfold len. lia. }
  destruct (tlv_at whole pos) as [[h v]|] eqn:Et; [|discriminate]. apply tlv_at_range in Et as [Hh Hv]; [|exact Hb].
  destruct (Z.ltb_spec (len whole) (pos + h + v)) as [|Hl]; [discriminate|]. destruct (walk fuel whole (pos + h + v)) as [es' st] eqn:Ew. intros [= <- ->].
  destruct (IH (pos + h + v) es' ltac:(lia) Ew) as [A B]. set (e := Element h (byte_at whole pos) (pos + h) v).
  assert (Eb : element_bytes whole e = slice whole pos (h + v)) by (unfold element_bytes; cbn; f_equal; lia).
  split.
  - cbn [fmap list_fmap concat]. rewrite Eb, (skip_slice whole pos (h + v)) by lia. f_equal. replace (pos + (h + v)) with (pos + h + v) by lia. exact A.
  - constructor; [|exact B]. rewrite Eb, byte_at_slice by lia. cbn. f_equal. lia.
Qed.
Lemma tlv_at_der whole pos t c rest : 0 <= pos -> len c < 65536 -> skipn (Z.to_nat pos) whole = der t c ++ rest ->
  tlv_at whole pos = Some (header_length (len c), len c) /\ byte_at whole pos = t.
Proof.
  intros Hp Hc E. pose proof (len_nonneg c). assert (Hat : forall i, 0 <= i -> byte_at whole (pos + i) = byte_at (der t c ++ rest) i) by (intros; now rewrite <- E, byte_at_skip by lia).
  pose proof (len_der t c) as Ld. pose proof (Hat 0 ltac:(lia)) as A0. rewrite Z.add_0_r in A0. split; [|exact A0]. unfold tlv_at. cbv zeta. rewrite !Hat by lia.
  destruct (der_length_bytes t c) as [B1 B2]. unfold header_length in *. destruct (Z.ltb_spec (len c) 128); [|destruct (Z.ltb_spec (len c) 256)].
  - rewrite byte_at_app_l by lia. rewrite B1. replace (len c <? 128) with true by lia. reflexivity.
  - rewrite !byte_at_app_l by lia. rewrite B1, B2. reflexivity.
  - destruct B2 as [B2 B3]. rewrite !byte_at_app_l by lia. rewrite B1, B2, B3. cbn [Z.ltb Z.compare Pos.compare Pos.compare_cont Z.eqb Pos.eqb]. do 2 f_equal. symmetry. apply Z.div_mod. lia.
Qed.
Lemma walk_complete whole : bytes_ok whole -> forall elements fuel pos, 0 <= pos -> (length (skipn (Z.to_nat pos) whole) < fuel)%nat ->
  skipn (Z.to_nat pos) whole = concat elements -> pos + len (concat elements) = len whole -> Forall (fun b => exists h, md_der_header b = inr h) elements ->
  exists es, walk fuel whole pos = (es, 0) /\ Forall2 (reports whole) es elements.
Proof.
  intros Hb. induction elements as [|b elements IH]; intros fuel pos Hp Hf E El F; (destruct fuel as [|fuel]; [lia|]); cbn [walk concat] in *.
  { exists []. replace (pos =? len whole) with true by (rewrite len_nil in El; lia). auto. }
  apply Forall_cons in F as [(h & Eh) F]. rewrite len_app in El. pose proof (len_nonneg (concat elements)).
  assert (Hbb : bytes_ok (b ++ concat elements)) by (rewrite <- E; now apply bytes_ok_skip). apply bytes_ok_app in Hbb as [Hbb _].
  pose proof Eh as Eh'. apply der_header_exact in Eh' as (t & c & -> & Ht & Hc & ->); [|exact Hbb]. pose proof (len_nonneg c). pose proof (header_length_range (len c)).
  destruct (tlv_at_der whole pos t c (concat elements) Hp Hc E) as [Et Etag]. rewrite len_der in El. replace (pos =? len whole) with false by lia. rewrite Et.
  replace (len whole <? pos + header_length (len c) + len c) with false by lia. rewrite Etag.
  assert (Esk : skipn (Z.to_nat (pos + header_length (len c) + len c)) whole = concat elements).
  { replace (Z.to_nat (pos + header_length (len c) + len c)) with (Z.to_nat pos + length (der t c))%nat by (pose proof (len_der t c); unfold len in *; lia).
    rewrite <- drop_drop, E. apply drop_app_length. }
  destruct (IH fuel (pos + header_length (len c) + len c)) as (es & Ew & R); auto; try lia.
  { rewrite Esk. rewrite E, length_app in Hf. pose proof (len_der t c) as Ld. unfold len at 1 in Ld. lia. }
  rewrite Ew. eexists. split; [reflexivity|]. constructor; [|exact R]. unfold reports, element_bytes. cbn [start hdrlen vlen etag].
  split; [|split; [exact Eh|split; [reflexivity|split; [lia|rewrite len_der; lia]]]]. unfold slice. replace (pos + header_length (len c) - header_length (len c)) with pos by lia. rewrite E.
  replace (Z.to_nat (header_length (len c) + len c)) with (length (der t c)) by (pose proof (len_der t c); unfold len in *; lia). apply take_app_length.
Qed.
#[export] Instance decode_asn1 : @Asn1 decode.
Proof.
  split.
  - intros content elements Hb Hl E F. pose proof (bytes_ok_make 0x30 content ltac:(unfold is_u8; lia) Hl Hb) as Hbd.
    unfold ber_decoder, decode. rewrite (proj2 (der_header_exact _ (header_length (len content)) Hbd)) by (exists 0x30, content; split_and!; auto using low_tag_48).
    apply walk_complete; auto; rewrite ?der_skip, ?len_der; auto; [pose proof (header_length_range (len content)); lia|unfold der; cbn; rewrite length_app; lia|now rewrite <- E].
  - intros content es Hb Hl E F. pose proof (bytes_ok_make 0x30 content ltac:(unfold is_u8; lia) Hl Hb) as Hbd.
    unfold ber_decoder, decode in E. rewrite (proj2 (der_header_exact _ (header_length (len content)) Hbd)) in E by (exists 0x30, content; split_and!; auto using low_tag_48).
    apply walk_sound in E; [|exact Hbd|]; [rewrite der_skip in E; exact E|]. pose proof (header_length_range (len content)). rewrite len_der. pose proof (len_nonneg content). lia.
Qed.
End Walker.

(** ** The claims *)

(** A two-certificate chain for the example hash and exponentiation of [Pss]. *)
Module Sample.
Definition meta_oid (group item : Z) : list Z := der 6 [0x60; 0x86; 0x76; 0x93; 0x16; group; item].
Definition leaf_key : list Z := key_prefix ++ [0x81] ++ zeros 254 ++ [3] ++ key_exponent.
Definition signed (key : list Z) (pairs : list Z) : list Z :=
  let t := der 0x30 (der 0xa0 [2; 1; 2] ++ der 2 [1] ++ legacy_algorithm ++ der 0x30 [] ++ der 0x30 [] ++ der 0x30 [] ++ key_field key ++ pairs) in
  der 0x30 (t ++ pss_default ++ der 3 (0 :: emsa_pss toy_hash (toy_hash t) (repeat 9 32))).
Definition head : list Z := repeat 5 512.
Definition cert1 : list Z := signed toy_key (meta_oid 1 2 ++ key_field leaf_key).
Definition cert2 : list Z := signed leaf_key
  (meta_oid 2 6 ++ zero_bits ++ meta_oid 2 8 ++ zero_bits ++ meta_oid 4 2 ++ zero_bits ++
   meta_oid 2 4 ++ der 3 (0 :: toy_hash head) ++ meta_oid 2 1 ++ der 3 (0 :: toy_hash [1; 2; 3])).
Definition hashes : mt6878_md_signed_hashes := SignedHashes (toy_hash head) (toy_hash [1; 2; 3]).
Definition pin : list Z := toy_hash (key_field toy_key).
Definition no_hashes : mt6878_md_signed_hashes := SignedHashes [] [].
Lemma cert1_bytes : bytes_ok cert1.
Proof. concrete_bytes. Qed.
Lemma cert2_bytes : bytes_ok cert2.
Proof. concrete_bytes. Qed.
End Sample.

(** C35. Certificates. With any decoder that meets the contract, the parser
    accepts exactly the canonical DER certificates of the profile, and returns
    their parts: an envelope of body, RSA-PSS algorithm and 256-byte
    signature; a body of seven fixed fields and pairs of distinct object
    identifiers and values; a 2048-bit odd modulus with exponent 65537; at
    most 48 fields and 16384 bytes. *)
Theorem cert_parse_exact (walker : Decoder) (contract : @Asn1 walker) bytes c : bytes_ok bytes -> md_parse_cert bytes = inr c <-> cert_shape bytes c.
Proof. exact (parse_cert_exact bytes c). Qed.
Lemma cert_parse_exact_witness :
  exists c, @md_parse_cert Walker.decode Sample.cert1 = inr c /\ cert_shape Sample.cert1 c /\ raw_key c = toy_key.
Proof.
  destruct (@md_parse_cert Walker.decode Sample.cert1) as [e|c] eqn:E; [exfalso; vm_compute in E; discriminate|].
  exists c. split; [reflexivity|]. split; [apply (cert_parse_exact Walker.decode Walker.decode_asn1 Sample.cert1 c Sample.cert1_bytes), E|].
  apply (f_equal (fun r : Z + md_der_cert => match r with inr c => raw_key c | inl _ => [] end)) in E. vm_compute in E. symmetry. vm_compute. exact E.
Defined.

(** C36. The chain of trust. Whatever the kernel answers, verification ends,
    has released all it acquired, and on an error leaves the caller's hashes as
    they were. When the kernel hashes with [H] and exponentiates with [R],
    success with hashes [h] means that [h] is trusted, and when it does not
    fail a trusted [h] is the result. Trusted means: the pin is the hash of the root key, the root
    names the leaf key, both certificates carry the RSA-PSS signature of their
    body under their own key, no transform is asked for, [h] is the hash of the
    header the leaf carries, and the hash of the payload it carries. *)
Theorem chain_of_trust (walker : Decoder) (contract : @Asn1 walker) H R (crypto : Crypto H R) out pin cert1 cert2 head :
  bytes_ok cert1 -> bytes_ok cert2 -> len head = 512 ->
  performs (md_mtk_verify_pin (Some cert1) (Some cert2) (Some head) (Some out) pin) (fun p s =>
    accounts s [] = Some [] /\ (p.1 <> 0 -> p.2 = Some out) /\
    (Forall (honest H R) s -> forall h, p = (0, Some h) -> trusted H R pin cert1 cert2 head h) /\
    (Forall (cooperative H R) s -> forall h, trusted H R pin cert1 cert2 head h -> p = (0, Some h))).
Proof.
  intros H1 H2 H3. eapply performs_impl; [exact (verify_pin_settles H R out pin cert1 cert2 head H1 H2 H3)|]. intros p s (A & B & C & D & _). auto.
Qed.
Lemma chain_of_trust_witness :
  (@md_mtk_verify_pin Walker.decode (Some Sample.cert1) (Some Sample.cert2) (Some Sample.head) (Some Sample.no_hashes) Sample.pin toy_kernel []).1
    = (0, Some Sample.hashes) /\
  (@md_mtk_verify_pin Walker.decode (Some Sample.cert2) (Some Sample.cert2) (Some Sample.head) (Some Sample.no_hashes) Sample.pin toy_kernel []).1
    = (- EKEYREJECTED, Some Sample.no_hashes) /\
  performs (@md_mtk_verify_pin Walker.decode (Some Sample.cert1) (Some Sample.cert2) (Some Sample.head) (Some Sample.no_hashes) Sample.pin) (fun p s =>
    accounts s [] = Some [] /\ (p.1 <> 0 -> p.2 = Some Sample.no_hashes) /\
    (Forall (honest toy_hash toy_rsa) s -> forall h, p = (0, Some h) -> trusted toy_hash toy_rsa Sample.pin Sample.cert1 Sample.cert2 Sample.head h) /\
    (Forall (cooperative toy_hash toy_rsa) s -> forall h, trusted toy_hash toy_rsa Sample.pin Sample.cert1 Sample.cert2 Sample.head h -> p = (0, Some h))).
Proof.
  split; [vm_compute; reflexivity|]. split; [vm_compute; reflexivity|].
  exact (chain_of_trust Walker.decode Walker.decode_asn1 toy_hash toy_rsa toy_crypto Sample.no_hashes Sample.pin Sample.cert1 Sample.cert2 Sample.head
    Sample.cert1_bytes Sample.cert2_bytes eq_refl).
Defined.
