(* ===== verification/FwMeta.v ===== *)
(** * Signed modem firmware: [modem/drafts/signed-input/mt6878_md_fw_metadata.c]

    The bundle scanner that authenticates the three members of a modem image
    (ROM, DRDI, DSP), the owner that keeps the verified bytes, and the copies
    it hands out. Certificates are verified by [Cert]; the shared-memory plan
    is [LayoutModel]'s; the boot loader's layout planner, which is not in the
    sources, is a parameter ([Planner]). Hashes, allocations and the firmware
    file are requests ([Pss]). *)

From S2P Require Import Prelude Trace LayoutModel Pss Cert.
Open Scope Z_scope.
Open Scope io_scope.

Abbreviation MD_SOURCE_MAX := (256 * 1024 * 1024) (only parsing).
Abbreviation MD_PAYLOAD_MAX := (64 * 1024 * 1024) (only parsing).
Abbreviation MT6878_MD_FW_MEMBERS := 3 (only parsing).

Record md_fw_part : Type := Part { p_header : Z; p_payload : Z; p_size : Z; p_name : list Z }.
Record mt6878_md_fw_member_identity : Type := Member {
  stored_size : Z; header_offset : Z; payload_offset : Z;
  m_header_sha256 : list Z; m_payload_sha256 : list Z; cert1_sha256 : list Z; cert2_sha256 : list Z
}.
Definition zero_member : mt6878_md_fw_member_identity := Member 0 0 0 (zeros 32) (zeros 32) (zeros 32) (zeros 32).
Record mt6878_md_fw_identity : Type := Identity {
  member : list mt6878_md_fw_member_identity;
  source_size : Z; consumed_size : Z; reservation_capacity : Z;
  i_memory_size : Z; i_logical_image_size : Z; i_dsp_offset : Z; i_dsp_capacity : Z; i_region_count : Z;
  region_offset : list Z; region_size : list Z;
  i_consys_size : Z; i_udc_en : Z; i_nv_cache_size : Z; i_drdi_version : Z
}.
(** The boot loader's layout, the fields the source uses. *)
Record tetris_modem_layout : Type := Layout {
  memory_size : Z; logical_image_size : Z; dsp_offset : Z; dsp_capacity : Z; region_count : Z; rom_size : Z; dsp_size : Z
}.
Record tetris_modem_boot_plan : Type := BootPlan {
  bp_layout : tetris_modem_layout; smem_inputs : tetris_modem_smem_inputs; smem : tetris_modem_smem_plan
}.
Record mt6878_md_fw_metadata : Type := FwOwner {
  refs : Z; identity : mt6878_md_fw_identity; layout : tetris_modem_layout; verified_source : ptr (list Z); firmware : bool
}.

Definition md_fw_word (p : list Z) (i : Z) : Z := le32 p i.

(** ** The bundle *)

(** The name from byte [i] on; [None] for a byte over 127 or a name that does
    not end before byte 40. *)
Fixpoint name_loop (fuel : nat) (head : list Z) (i : Z) : option (list Z) :=
  match fuel with
  | O => None
  | S fuel =>
    if byte_at head i =? 0 then Some []
    else if 127 <? byte_at head i then None
    else match name_loop fuel head (i + 1) with Some n => Some (byte_at head i :: n) | None => None end
  end.
Definition md_fw_next (bytes : list Z) (cursor : Z) : Z + (md_fw_part * Z) :=
  if (len bytes <? cursor) || (len bytes - cursor <? 512) then inl (- EMSGSIZE)
  else
  let head := slice bytes cursor 512 in
  if negb (md_fw_word head 0 =? 0x58881688) || negb (md_fw_word head 48 =? 0x58891689) || negb (md_fw_word head 52 =? 512)
     || negb (md_fw_word head 68 =? 16)
  then inl (- EPROTONOSUPPORT)
  else
  match name_loop 32 head 8 with
  | None => inl (- EBADMSG)
  | Some name =>
    let part := Part cursor (cursor + 512) (md_fw_word head 4) name in
    if (p_size part =? 0) || (len bytes - p_payload part <? p_size part) then inl (- EMSGSIZE)
    else
    let cursor := Z.ldiff (p_payload part + p_size part + 15) 15 in
    if cursor <=? len bytes then inr (part, cursor) else inl (- EMSGSIZE)
  end.

Definition md1rom : list Z := [0x6d; 0x64; 0x31; 0x72; 0x6f; 0x6d].
Definition md1drdi : list Z := [0x6d; 0x64; 0x31; 0x64; 0x72; 0x64; 0x69].
Definition md1dsp : list Z := [0x6d; 0x64; 0x31; 0x64; 0x73; 0x70].
Definition cert1md : list Z := [0x63; 0x65; 0x72; 0x74; 0x31; 0x6d; 0x64].
Definition cert1_name : list Z := [0x63; 0x65; 0x72; 0x74; 0x31].
Definition cert2_name : list Z := [0x63; 0x65; 0x72; 0x74; 0x32].
Definition names : list (list Z) := [md1rom; md1drdi; md1dsp].
Fixpoint name_index (name : list Z) (ns : list (list Z)) (i : Z) : option Z :=
  match ns with [] => None | n :: ns => if bytes_eqb name n then Some i else name_index name ns (i + 1) end.

Definition md_fw_hash (bytes : list Z) : io request answer (Z * list Z) :=
  let! a := ask (Digest bytes) in ret (if 0 <? status a then - EPROTO else status a, output a).

(** The variables of the scan. *)
Record scan : Type := Scan {
  cursor : Z; found : Z; stage : Z; active : Z; fw_part : md_fw_part; cert1_part : md_fw_part;
  members : list mt6878_md_fw_member_identity; rom_offset : Z
}.
Definition zero_part : md_fw_part := Part 0 0 0 [].
Definition part_bytes (snapshot : list Z) (p : md_fw_part) : list Z := slice snapshot (p_payload p) (p_size p).

Section Scan.
Context `{Decoder}.

(** A part outside a triple: skipped, refused, or the start of a triple. *)
Definition scan_member (st : scan) (part : md_fw_part) : Z + scan :=
  match name_index (p_name part) names 0 with
  | None => inr st
  | Some index =>
    if Z.testbit (found st) index then inl (- EEXIST)
    else if (MD_PAYLOAD_MAX <? p_size part) || negb (p_size part mod 16 =? 0) then inl (- ERANGE)
    else inr (Scan (cursor st) (found st) 1 index part (cert1_part st) (members st) (rom_offset st))
  end.
(** The second certificate: the member is authenticated and recorded. *)
Definition scan_verify (snapshot : list Z) (st : scan) (part : md_fw_part) : io request answer (Z * scan) :=
  let fw := fw_part st in
  let! p := mt6878_md_mtk_verify_header (Some (part_bytes snapshot (cert1_part st))) (Some (part_bytes snapshot part))
              (Some (slice snapshot (p_header fw) 512)) (Some (SignedHashes (zeros 32) (zeros 32))) in
  if negb (p.1 =? 0) then ret (p.1, st)
  else
  let signed := default (SignedHashes [] []) p.2 in
  let! q := md_fw_hash (part_bytes snapshot fw) in
  if negb (q.1 =? 0) then ret (q.1, st)
  else if negb (bytes_eqb q.2 (payload_sha256 signed)) then ret (- EKEYREJECTED, st)
  else
  let! c1 := md_fw_hash (part_bytes snapshot (cert1_part st)) in
  if negb (c1.1 =? 0) then ret (c1.1, st)
  else
  let! c2 := md_fw_hash (part_bytes snapshot part) in
  if negb (c2.1 =? 0) then ret (c2.1, st)
  else
  let m := Member (p_size fw) (p_header fw) (p_payload fw) (header_sha256 signed) (payload_sha256 signed) c1.2 c2.2 in
  ret (0, Scan (cursor st) (Z.lor (found st) (Z.shiftl 1 (active st))) 0 (active st) fw (cert1_part st)
            (<[Z.to_nat (active st) := m]> (members st)) (if active st =? 0 then p_payload fw else rom_offset st)).
(** The loop over the parts, [fuel] iterations left. *)
Fixpoint scan_loop (fuel : nat) (snapshot : list Z) (st : scan) : io request answer (Z * scan) :=
  match fuel with
  | O => ret (0, st)
  | S fuel =>
    if found st =? 7 then ret (0, st)
    else
    match md_fw_next snapshot (cursor st) with
    | inl r => ret (r, st)
    | inr (part, cur) =>
      let st := Scan cur (found st) (stage st) (active st) (fw_part st) (cert1_part st) (members st) (rom_offset st) in
      if stage st =? 0 then
        match scan_member st part with
        | inl r => ret (r, st)
        | inr st => scan_loop fuel snapshot st
        end
      else if (16384 <? p_size part)
        || negb (bytes_eqb (p_name part) (if stage st =? 1 then (if active st =? 0 then cert1md else cert1_name) else cert2_name))
      then ret (- EBADMSG, st)
      else if stage st =? 1 then
        scan_loop fuel snapshot (Scan cur (found st) 2 (active st) (fw_part st) part (members st) (rom_offset st))
      else
        let! p := scan_verify snapshot st part in
        if negb (p.1 =? 0) then ret p else scan_loop fuel snapshot p.2
    end
  end.
Definition start_scan : scan := Scan 0 0 0 0 zero_part zero_part [zero_member; zero_member; zero_member] 0.

(** ** The owner *)

(** The boot loader's planner: ROM bytes, size of the DSP, capacity; its status
    and the layout it stores. *)
Class Planner : Type := tetris_modem_plan_layout : list Z -> Z -> Z -> Z * tetris_modem_layout.
Context `{Planner}.

Definition nth_member (ms : list mt6878_md_fw_member_identity) (i : Z) : mt6878_md_fw_member_identity := nth (Z.to_nat i) ms zero_member.
(** The signed service fields of the ROM's check header. *)
Definition md_fw_layout (rom : list Z) (ms : list mt6878_md_fw_member_identity) (source consumed capacity : Z)
    : Z + (mt6878_md_fw_identity * tetris_modem_layout) :=
  let '(r, l) := tetris_modem_plan_layout rom (stored_size (nth_member ms 2)) capacity in
  if negb (r =? 0) then inl r
  else
    let head := slice rom (len rom - 512) 512 in
    let regions := seqZ 0 (region_count l) in
    let id := Identity ms source consumed capacity (memory_size l) (logical_image_size l) (dsp_offset l) (dsp_capacity l) (region_count l)
      ((fun i => md_fw_word head (196 + 8 * i)) <$> regions) ((fun i => md_fw_word head (200 + 8 * i)) <$> regions)
      (md_fw_word head 0x180) (md_fw_word head 0x184) (md_fw_word head 0x18c) (md_fw_word head 0x190) in
    if i_udc_en id <=? 1 then inr (id, l) else inl (- EPROTONOSUPPORT).

(** The cleanup of a preparation; [d], [s], [o] tell which objects are held. *)
Definition release_all (d s o : bool) {A} (a : A) : io request answer A :=
  let! _ := free_if d Desc in let! _ := free_if s Sha in let! _ := free_if o Owner in ret a.
(** The owner, once the scan has ended. *)
Definition prepare_owner (snapshot : ptr (list Z)) (capacity : Z) (p : Z * scan) : io request answer (Z * option mt6878_md_fw_metadata) :=
  let bytes := pointee snapshot in
  if negb (p.1 =? 0) then release_all true true true (p.1, None)
  else if negb (found p.2 =? 7) then release_all true true true (- E2BIG, None)
  else
  let st := p.2 in
  match md_fw_layout (slice bytes (rom_offset st) (stored_size (nth_member (members st) 0))) (members st) (len bytes) (cursor st) capacity with
  | inl r => release_all true true true (r, None)
  | inr (id, l) => release_all true true false (0, Some (FwOwner 1 id l snapshot false))
  end.
(** The out pointer of the preparations is given; an owner is its new value. *)
Definition md_fw_prepare_snapshot (snapshot : ptr (list Z)) (capacity : Z) : io request answer (Z * option mt6878_md_fw_metadata) :=
  let bytes := pointee snapshot in
  if null snapshot || (len bytes =? 0) || (MD_SOURCE_MAX <? len bytes) || (capacity =? 0) then ret (- EINVAL, None)
  else
  let! a := ask (Acquire Owner) in
  if status a <? 0 then ret (- ENOMEM, None)
  else
  let! a := ask (Acquire Sha) in
  if status a <? 0 then release_all false false true (status a, None)
  else
  let! a := ask Digestsize in
  if negb (status a =? 32) then release_all false true true (- EPROTO, None)
  else
  let! a := ask (Acquire Desc) in
  if status a <? 0 then release_all false true true (- ENOMEM, None)
  else
  let! p := scan_loop 128 bytes start_scan in prepare_owner snapshot capacity p.

(** [copy] is the address of the private copy. *)
Definition mt6878_md_fw_prepare (copy : Z) (source : ptr (list Z)) (capacity : Z) : io request answer (Z * option mt6878_md_fw_metadata) :=
  let bytes := pointee source in
  if null source || (len bytes =? 0) || (MD_SOURCE_MAX <? len bytes) || (capacity =? 0) then ret (- EINVAL, None)
  else
  let! a := ask (Acquire Snapshot) in
  if status a <? 0 then ret (- ENOMEM, None)
  else
  let! p := md_fw_prepare_snapshot (Ptr copy bytes) capacity in
  if negb (p.1 =? 0) then let! _ := ask (Release Snapshot) in ret p else ret p.
Definition set_firmware (o : mt6878_md_fw_metadata) : mt6878_md_fw_metadata := FwOwner (refs o) (identity o) (layout o) (verified_source o) true.
(** [named] tells that device and name are given; [file] is what the firmware
    service provides when it succeeds. *)
Definition mt6878_md_fw_request (named : bool) (file : ptr (list Z)) (capacity : Z) : io request answer (Z * option mt6878_md_fw_metadata) :=
  if negb named || (capacity =? 0) then ret (- EINVAL, None)
  else
  let! a := ask (Acquire Blob) in
  if negb (status a =? 0) then ret (status a, None)
  else
  let! p := md_fw_prepare_snapshot file capacity in
  if negb (p.1 =? 0) then let! _ := ask (Release Blob) in ret (p.1, None)
  else ret (0, set_firmware <$> p.2).

Definition set_refs (o : mt6878_md_fw_metadata) (n : Z) : mt6878_md_fw_metadata := FwOwner n (identity o) (layout o) (verified_source o) (firmware o).
(** The reference count is below saturation. *)
Definition mt6878_md_fw_get (owner : option mt6878_md_fw_metadata) : option mt6878_md_fw_metadata :=
  match owner with Some o => if refs o =? 0 then None else Some (set_refs o (refs o + 1)) | None => None end.
(** The owner after the call; with no reference left it is freed. *)
Definition mt6878_md_fw_put (owner : option mt6878_md_fw_metadata) : io request answer (option mt6878_md_fw_metadata) :=
  match owner with
  | None => ret None
  | Some o =>
    let o := set_refs o (refs o - 1) in
    if refs o =? 0 then
      let! _ := ask (Release (if firmware o then Blob else Snapshot)) in
      let! _ := ask (Release Owner) in ret None
    else ret (Some o)
  end.
Definition mt6878_md_fw_snapshot (o : option mt6878_md_fw_metadata) (out : option mt6878_md_fw_identity) : Z * option mt6878_md_fw_identity :=
  match o, out with Some o, Some _ => (0, Some (identity o)) | _, _ => (- EINVAL, out) end.

Definition md_fw_separate (a an b bn : Z) : bool :=
  negb (a =? 0) && negb (b =? 0) && negb (an =? 0) && negb (bn =? 0) && (an <=? UINT64_MAX - a) && (bn <=? UINT64_MAX - b)
  && ((u64 (a + an) <=? b) || (u64 (b + bn) <=? a)).

(** Sizes of the two structures. *)
Context (sizeof_owner sizeof_plan : Z).
Definition mt6878_md_fw_copy_payload (owner : ptr mt6878_md_fw_metadata) (member_id offset : Z) (destination : ptr (list Z)) (n : Z) : Z * list Z :=
  let dest := pointee destination in
  if null owner || (MT6878_MD_FW_MEMBERS <=? member_id) || null destination || (n =? 0) then (- EINVAL, dest)
  else
  let o := pointee owner in
  let m := nth_member (member (identity o)) member_id in
  if (stored_size m <? offset) || (stored_size m - offset <? n) then (- ERANGE, dest)
  else if negb (md_fw_separate (addr destination) n (addr owner) sizeof_owner)
       || negb (md_fw_separate (addr destination) n (addr (verified_source o)) (source_size (identity o)))
  then (- EINVAL, dest)
  else (0, write_at dest 0 (slice (pointee (verified_source o)) (payload_offset m + offset) n)).

Definition mt6878_md_fw_place_b41 (owner : ptr mt6878_md_fw_metadata) (destination : ptr (list Z)) (capacity gear : Z)
    (plan : ptr tetris_modem_boot_plan) : Z * list Z * tetris_modem_boot_plan :=
  let dest := pointee destination in
  let o := pointee owner in
  let src := verified_source o in
  let n := source_size (identity o) in
  if null owner || negb (md_fw_separate (addr destination) capacity (addr plan) sizeof_plan)
     || negb (md_fw_separate (addr destination) capacity (addr owner) sizeof_owner)
     || negb (md_fw_separate (addr plan) sizeof_plan (addr owner) sizeof_owner)
     || negb (md_fw_separate (addr destination) capacity (addr src) n) || negb (md_fw_separate (addr plan) sizeof_plan (addr src) n)
  then (- EINVAL, dest, pointee plan)
  else if capacity <? memory_size (layout o) then (- ERANGE, dest, pointee plan)
  else
  let inputs := SmemInputs (i_drdi_version (identity o)) (i_udc_en (identity o)) (i_consys_size (identity o)) (i_nv_cache_size (identity o)) gear in
  match tetris_modem_plan_smem_b41 (Some inputs) (Some (SmemPlan [] [] 0 0 0 0)) with
  | (0, Some p) =>
    let rom := skipn (Z.to_nat (payload_offset (nth_member (member (identity o)) 0))) (pointee src) in
    let dsp := skipn (Z.to_nat (payload_offset (nth_member (member (identity o)) 2))) (pointee src) in
    let dest := write_at dest 0 (firstn (Z.to_nat (rom_size (layout o))) rom) in
    let dest := write_at dest (dsp_offset (layout o)) (firstn (Z.to_nat (dsp_size (layout o))) dsp) in
    (0, dest, BootPlan (layout o) inputs p)
  | (r, _) => (r, dest, pointee plan)
  end.
End Scan.

(** ** Parts of a bundle *)

Definition part_end (p : md_fw_part) : Z := p_payload p + p_size p.
(** [p] is the part whose header is at its place in the bytes. *)
Definition part_ok (bytes : list Z) (p : md_fw_part) : Prop := 0 <= p_header p /\ exists c, md_fw_next bytes (p_header p) = inr (p, c).
Lemma next_spec bytes cur p c : bytes_ok bytes -> 0 <= cur -> md_fw_next bytes cur = inr (p, c) ->
  part_ok bytes p /\ p_header p = cur /\ p_payload p = cur + 512 /\ 0 < p_size p /\ part_end p <= c <= len bytes.
Proof.
  intros Hb Hc E. unfold part_ok. pose proof E as E0. unfold md_fw_next in E. cbv zeta in E. destruct (_ || _) eqn:G1 in E; [discriminate|].
  destruct (_ || _) eqn:G2 in E; [discriminate|]. destruct (name_loop _ _ _) as [name|]; [|discriminate]. cbn [p_payload p_size] in E.
  destruct (_ || _) eqn:G3 in E; [discriminate|]. destruct (_ <=? _) eqn:G4 in E; [|discriminate]. injection E as <- <-.
  assert (U : is_u32 (md_fw_word (slice bytes cur 512) 4)) by (apply le32_range, bytes_ok_slice, Hb). unfold is_u32 in U. unfold part_end. cbn [p_header p_payload p_size].
  rewrite E0. split; [eauto|]. split_and!; auto; [lia| |lia].
  set (n := cur + 512 + md_fw_word (slice bytes cur 512) 4) in *. assert (Hd : Z.ldiff (n + 15) 15 = (n + 15) / 16 * 16).
  { change 15 with (Z.ones 4) at 2. rewrite Z.ldiff_ones_r, Z.shiftl_mul_pow2, Z.shiftr_div_pow2 by lia. reflexivity. }
  rewrite Hd. clear. dlia.
Qed.
Lemma part_geometry bytes p : bytes_ok bytes -> part_ok bytes p -> p_payload p = p_header p + 512 /\ 0 <= p_header p /\ 0 < p_size p /\ part_end p <= len bytes.
Proof. intros Hb (H0 & c & E). destruct (next_spec _ _ _ _ Hb H0 E) as (_ & _ & A & B & C). unfold part_end in *. lia. Qed.

(** ** Authentic members *)

Section Authentic.
Context {walker : Decoder} {contract : Asn1} (H : list Z -> list Z) (R : list Z -> list Z -> list Z) {crypto : Crypto H R}.
Context (bytes : list Z) (Hb : bytes_ok bytes).

Definition member_end (m : mt6878_md_fw_member_identity) : Z := payload_offset m + stored_size m.
Definition member_name (i : Z) : list Z := nth (Z.to_nat i) names [].
(** Member [i] is a part of the bundle with its name, followed by its two
    certificates; they are trusted from the compiled pin, for the part's own
    header, and the payload has the signed hash. *)
Definition authentic_member (i : Z) (m : mt6878_md_fw_member_identity) : Prop := exists c1 c2,
  part_ok bytes (Part (header_offset m) (payload_offset m) (stored_size m) (member_name i)) /\
  part_ok bytes c1 /\ part_ok bytes c2 /\ p_size c1 <= 16384 /\ p_size c2 <= 16384 /\ member_end m <= p_header c1 /\ part_end c1 <= p_header c2 /\
  p_name c1 = (if i =? 0 then cert1md else cert1_name) /\ p_name c2 = cert2_name /\
  stored_size m <= 64 * 1024 * 1024 /\ stored_size m mod 16 = 0 /\
  trusted H R md_mtk_root_pin (part_bytes bytes c1) (part_bytes bytes c2) (slice bytes (header_offset m) 512)
    (SignedHashes (m_header_sha256 m) (m_payload_sha256 m)) /\
  H (slice bytes (payload_offset m) (stored_size m)) = m_payload_sha256 m /\
  cert1_sha256 m = H (part_bytes bytes c1) /\ cert2_sha256 m = H (part_bytes bytes c2).
Definition members_apart (a b : mt6878_md_fw_member_identity) : Prop := member_end a <= header_offset b \/ member_end b <= header_offset a.

(** What the scan knows at each point. *)
Definition scan_ok (st : scan) : Prop :=
  0 <= cursor st <= len bytes /\ length (members st) = 3%nat /\ 0 <= found st < 8 /\
  (forall i, 0 <= i < 3 -> Z.testbit (found st) i = true -> authentic_member i (nth_member (members st) i) /\ member_end (nth_member (members st) i) <= cursor st) /\
  (forall i j, 0 <= i < 3 -> 0 <= j < 3 -> i <> j -> Z.testbit (found st) i = true -> Z.testbit (found st) j = true ->
    members_apart (nth_member (members st) i) (nth_member (members st) j)) /\
  (Z.testbit (found st) 0 = true -> rom_offset st = payload_offset (nth_member (members st) 0)).
Definition firmware_ok (st : scan) (limit : Z) : Prop :=
  0 <= active st < 3 /\ Z.testbit (found st) (active st) = false /\ part_ok bytes (fw_part st) /\ p_name (fw_part st) = member_name (active st) /\
  p_size (fw_part st) <= 64 * 1024 * 1024 /\ p_size (fw_part st) mod 16 = 0 /\ part_end (fw_part st) <= limit /\
  (forall i, 0 <= i < 3 -> Z.testbit (found st) i = true -> member_end (nth_member (members st) i) <= p_header (fw_part st)).
Definition cert1_ok (st : scan) (limit : Z) : Prop :=
  part_ok bytes (cert1_part st) /\ p_name (cert1_part st) = (if active st =? 0 then cert1md else cert1_name) /\ p_size (cert1_part st) <= 16384 /\
  part_end (fw_part st) <= p_header (cert1_part st) /\ part_end (cert1_part st) <= limit.
Definition staged (st : scan) : Prop :=
  stage st = 0 \/ stage st = 1 /\ firmware_ok st (cursor st) \/ stage st = 2 /\ firmware_ok st (cursor st) /\ cert1_ok st (cursor st).
Definition at_cursor (st : scan) (c : Z) : scan :=
  Scan c (found st) (stage st) (active st) (fw_part st) (cert1_part st) (members st) (rom_offset st).

Ltac fields := cbn [cursor found stage active fw_part cert1_part members rom_offset] in *.
Lemma scan_ok_cursor st c : scan_ok st -> cursor st <= c <= len bytes -> scan_ok (at_cursor st c).
Proof.
  intros (A & B & C & D & E & F) Hc. unfold scan_ok, at_cursor. fields. split_and!; auto; try lia. intros i Hi Ht. destruct (D i Hi Ht). split; [assumption|lia].
Qed.
Lemma name_index_spec name ns : forall i j, name_index name ns i = Some j -> i <= j < i + len ns /\ name = nth (Z.to_nat (j - i)) ns [].
Proof.
  induction ns as [|n ns IH]; intros i j; cbn [name_index]; [discriminate|]. destruct (bytes_eqb name n) eqn:E.
  - intros [= <-]. apply bool_decide_eq_true in E. rewrite len_cons, Z.sub_diag. pose proof (len_nonneg ns). split; [lia|exact E].
  - intros X. apply IH in X as [X Y]. rewrite len_cons. split; [lia|]. replace (Z.to_nat (j - i)) with (S (Z.to_nat (j - (i + 1)))) by lia. exact Y.
Qed.
Lemma scan_member_ok st part c st' : scan_ok st -> stage st = 0 -> part_ok bytes part -> p_header part = cursor st -> part_end part <= c <= len bytes ->
  scan_member (at_cursor st c) part = inr st' -> scan_ok st' /\ staged st'.
Proof.
  intros Hs H0 Hp Eh Hc. destruct (part_geometry _ _ Hb Hp) as (G1 & G2 & G3 & G4). unfold part_end in *.
  assert (Hs' : scan_ok (at_cursor st c)) by (apply scan_ok_cursor; [exact Hs|lia]). unfold scan_member.
  destruct (name_index (p_name part) names 0) as [i|] eqn:En; [|intros [= <-]; split; [exact Hs'|now left]].
  apply name_index_spec in En as [Hi Ename]. rewrite Z.sub_0_r in Ename. change (len names) with 3 in Hi. destruct (Z.testbit _ i) eqn:Et; [discriminate|].
  destruct (_ || _) eqn:G; [discriminate|]. intros [= <-]. split; [exact Hs'|]. right. left. split; [reflexivity|]. unfold firmware_ok, part_end, at_cursor in *. fields.
  split_and!; auto; try lia. intros j Hj Ht. destruct Hs as (_ & _ & _ & D & _). destruct (D j Hj Ht). lia.
Qed.
Lemma scan_cert_ok st part c : scan_ok st -> stage st = 1 -> staged st -> part_ok bytes part -> p_header part = cursor st -> part_end part <= c <= len bytes ->
  p_size part <= 16384 -> p_name part = (if active st =? 0 then cert1md else cert1_name) ->
  let st' := Scan c (found st) 2 (active st) (fw_part st) part (members st) (rom_offset st) in scan_ok st' /\ staged st'.
Proof.
  intros Hs H0 [X|[[_ X]|[X _]]] Hp Eh Hc Hn En st'; try lia. destruct (part_geometry _ _ Hb Hp) as (G1 & G2 & G3 & G4). unfold part_end in *.
  split; [apply (scan_ok_cursor st c); [exact Hs|lia]|]. right. right. split; [reflexivity|]. destruct X as (X1 & X2 & X3 & X4 & X5 & X6 & X7 & X8).
  unfold firmware_ok, cert1_ok, part_end, st' in *. fields. split_and!; auto; lia.
Qed.

(** ** The scan *)

Definition balanced (s : trace request answer) : Prop := forall h, accounts s h = Some h.
Lemma balanced_app s1 s2 : balanced s1 -> balanced s2 -> balanced (s1 ++ s2).
Proof. intros H1 H2 h. rewrite (accounts_app _ _ _ _ (H1 h)). apply H2. Qed.
Lemma verify_header_outcome c1 c2 head out : bytes_ok c1 -> bytes_ok c2 ->
  performs (mt6878_md_mtk_verify_header (Some c1) (Some c2) (Some head) (Some out)) (fun p s =>
    balanced s /\ p.2 <> None /\ (Forall (honest H R) s -> forall h, p = (0, Some h) -> len head = 512 -> trusted H R md_mtk_root_pin c1 c2 head h)).
Proof.
  intros B1 B2. unfold mt6878_md_mtk_verify_header. destruct (decide (len head = 512)) as [Hl|Hl].
  - eapply performs_impl; [apply (verify_pin_settles H R out md_mtk_root_pin c1 c2 head B1 B2 Hl)|]. intros p s (A & _ & C & _ & E). cbn [app] in *.
    split; [intros h; exact (accounts_frame _ [] [] h A)|]. split; [exact E|]. intros F h X _. now apply C.
  - unfold md_mtk_verify_pin. destruct (_ || _) eqn:G; [|exfalso; lia]. trace_step. split; [intros h; reflexivity|]. split; [discriminate|]. intros _ h [=].
Qed.
Lemma hash_outcome b : performs (md_fw_hash b) (fun p s => balanced s /\ (Forall (honest H R) s -> p = (0, H b))).
Proof.
  unfold md_fw_hash. trace_step. trace_step. split; [intros []; reflexivity|]. intros F. apply Forall_singleton in F as [F1 F2]. cbn in *. rewrite F1, F2. reflexivity.
Qed.
(** What a verified triple records. *)
Lemma record_ok st part m : scan_ok st -> firmware_ok st (cursor st) -> authentic_member (active st) m ->
  header_offset m = p_header (fw_part st) -> payload_offset m = p_payload (fw_part st) -> stored_size m = p_size (fw_part st) ->
  scan_ok (Scan (cursor st) (Z.lor (found st) (Z.shiftl 1 (active st))) 0 (active st) (fw_part st) part
    (<[Z.to_nat (active st) := m]> (members st)) (if active st =? 0 then p_payload (fw_part st) else rom_offset st)).
Proof.
  intros (A & B & C & D & E & F) (F1 & F2 & F3 & F4 & F5 & F6 & F7 & F8) Hm Eh Ep Es. unfold scan_ok. fields. unfold part_end in *.
  assert (Hbit : forall i, 0 <= i < 3 -> Z.testbit (Z.lor (found st) (Z.shiftl 1 (active st))) i = true <-> Z.testbit (found st) i = true \/ i = active st).
  { intros i Hi. rewrite Z.lor_spec, Z.shiftl_spec, orb_true_iff by lia. rewrite (Z.testbit_odd 1). destruct (Z.eq_dec i (active st)) as [->|Hne].
    - rewrite Z.sub_diag. cbn. tauto.
    - split; [intros [X|X]; [auto|]|tauto]. exfalso. assert (Hor : i - active st = -2 \/ i - active st = -1 \/ i - active st = 1 \/ i - active st = 2) by lia.
      destruct Hor as [Z1|[Z1|[Z1|Z1]]]; rewrite Z1 in X; discriminate. }
  assert (Hnth : forall i, 0 <= i < 3 -> nth_member (<[Z.to_nat (active st) := m]> (members st)) i = if decide (i = active st) then m else nth_member (members st) i).
  { intros i Hi. unfold nth_member. destruct (decide (i = active st)) as [->|Hne].
    - apply nth_lookup_Some, list_lookup_insert_eq. lia.
    - rewrite !nth_lookup, list_lookup_insert_ne by lia. reflexivity. }
  assert (Hsh : Z.shiftl 1 (active st) = 1 \/ Z.shiftl 1 (active st) = 2 \/ Z.shiftl 1 (active st) = 4).
  { assert (Hor : active st = 0 \/ active st = 1 \/ active st = 2) by lia. destruct Hor as [E1|[E1|E1]]; rewrite E1; [left|right; left|right; right]; reflexivity. }
  split_and!; auto; try lia.
  - rewrite length_insert. exact B.
  - apply Z.lor_nonneg. lia.
  - change 8 with (2 ^ 3). destruct (Z.eq_dec (Z.lor (found st) (Z.shiftl 1 (active st))) 0) as [-> |Hz]; [lia|].
    assert (0 <= Z.lor (found st) (Z.shiftl 1 (active st))) by (apply Z.lor_nonneg; lia).
    apply Z.log2_lt_pow2; [lia|]. rewrite Z.log2_lor by lia. apply Z.max_lub_lt; [destruct (Z.eq_dec (found st) 0) as [-> |]; [reflexivity|apply Z.log2_lt_pow2; lia]|].
    apply Z.log2_lt_pow2; lia.
  - intros i Hi Ht. rewrite Hnth by lia. apply Hbit in Ht; [|exact Hi]. destruct (decide (i = active st)) as [->|Hne].
    + split; [exact Hm|]. unfold member_end. lia.
    + destruct Ht as [Ht|Ht]; [|contradiction]. now apply D.
  - intros i j Hi Hj Hij Hti Htj. rewrite !Hnth by lia. apply Hbit in Hti, Htj; try assumption. unfold members_apart.
    destruct (decide (i = active st)) as [->|Hni], (decide (j = active st)) as [->|Hnj]; try contradiction.
    + destruct Htj as [Htj|]; [|contradiction]. specialize (F8 j Hj Htj). lia.
    + destruct Hti as [Hti|]; [|contradiction]. specialize (F8 i Hi Hti). lia.
    + destruct Hti as [Hti|], Htj as [Htj|]; try contradiction. now apply E.
  - intros Ht. rewrite Hnth by lia. apply Hbit in Ht; [|lia]. destruct (decide (0 = active st)) as [<-|Hne]; [cbn; congruence|].
    destruct Ht as [Ht|]; [|contradiction]. replace (active st =? 0) with false by lia. auto.
Qed.

Lemma firmware_ok_mono st a b : firmware_ok st a -> a <= b -> firmware_ok st b.
Proof. unfold firmware_ok. intros (A & B & C & D & E & F & G & I) Hab. split_and!; auto; lia. Qed.
Lemma part_bytes_ok p : bytes_ok (part_bytes bytes p).
Proof. apply bytes_ok_slice, Hb. Qed.
(** The member a verified triple yields is authentic. *)
Lemma triple_authentic st part h : firmware_ok st (p_header part) -> cert1_ok st (p_header part) -> part_ok bytes part -> p_size part <= 16384 -> p_name part = cert2_name ->
  trusted H R md_mtk_root_pin (part_bytes bytes (cert1_part st)) (part_bytes bytes part) (slice bytes (p_header (fw_part st)) 512) h ->
  H (part_bytes bytes (fw_part st)) = payload_sha256 h ->
  authentic_member (active st) (Member (p_size (fw_part st)) (p_header (fw_part st)) (p_payload (fw_part st)) (header_sha256 h) (payload_sha256 h)
    (H (part_bytes bytes (cert1_part st))) (H (part_bytes bytes part))).
Proof.
  intros (F1 & F2 & F3 & F4 & F5 & F6 & F7 & F8) (C1 & C2 & C3 & C4 & C5) Hp Hn Ename Ht Hh. exists (cert1_part st), part. unfold member_end, part_end in *.
  cbn [header_offset payload_offset stored_size m_header_sha256 m_payload_sha256 cert1_sha256 cert2_sha256].
  destruct (part_geometry _ _ Hb F3) as (G1 & _). split_and!; auto; try lia.
  - replace (Part _ _ _ _) with (fw_part st); [exact F3|]. destruct (fw_part st) as [a b c d]. cbn in *. congruence.
Qed.
Lemma scan_verify_outcome st part : performs (scan_verify bytes st part) (fun p s => balanced s /\
  (scan_ok st -> firmware_ok st (p_header part) -> cert1_ok st (p_header part) -> part_ok bytes part -> part_end part <= cursor st -> p_size part <= 16384 ->
   p_name part = cert2_name -> Forall (honest H R) s -> p.1 = 0 -> scan_ok p.2 /\ stage p.2 = 0)).
Proof.
  unfold scan_verify. cbv zeta.
  eapply performs_bind; [apply (verify_header_outcome (part_bytes bytes (cert1_part st)) (part_bytes bytes part)); apply part_bytes_ok|]. intros p1 s1 (B1 & N1 & T1).
  trace_step; [trace_step; rewrite app_nil_r; split; [exact B1|intros; exfalso; cbn in *; lia]|].
  eapply performs_bind; [apply hash_outcome|]. intros p2 s2 (B2 & T2). pose proof (balanced_app _ _ B1 B2) as B12.
  trace_step; [trace_step; rewrite app_nil_r; split; [exact B12|intros; exfalso; cbn in *; lia]|].
  trace_step; [trace_step; rewrite app_nil_r; split; [exact B12|intros; exfalso; cbn in *; lia]|].
  eapply performs_bind; [apply hash_outcome|]. intros p3 s3 (B3 & T3). pose proof (balanced_app _ _ B2 B3) as B23.
  trace_step; [trace_step; rewrite app_nil_r; split; [now apply balanced_app|intros; exfalso; cbn in *; lia]|].
  eapply performs_bind; [apply hash_outcome|]. intros p4 s4 (B4 & T4).
  assert (Ball : balanced (s1 ++ s2 ++ s3 ++ s4)) by (repeat apply balanced_app; assumption).
  trace_step; [trace_step; rewrite app_nil_r; split; [exact Ball|intros; exfalso; cbn in *; lia]|].
  trace_step. rewrite app_nil_r. split; [exact Ball|]. cbn [fst snd stage]. intros Hs Hf Hc Hp He Hn Ename F _. split; [|reflexivity].
  rewrite !Forall_app in F. destruct F as (F1 & F2 & F3 & F4). rewrite (T2 F2), (T3 F3), (T4 F4) in *. cbn [fst snd] in *.
  destruct p1 as [r1 [h|]]; [|contradiction]. cbn [fst snd default from_option id] in *. assert (r1 = 0) as -> by lia.
  apply negb_false_iff, bool_decide_eq_true in G1. destruct (part_geometry _ _ Hb Hp) as (P1 & P2 & P3 & P4).
  assert (L : len (slice bytes (p_header (fw_part st)) 512) = 512).
  { destruct Hf as (_ & _ & X & _). destruct (part_geometry _ _ Hb X) as (Y1 & Y2 & Y3 & Y4). unfold part_end in *. apply len_slice; lia. }
  apply record_ok; [exact Hs|apply (firmware_ok_mono _ _ _ Hf); unfold part_end in *; lia| |reflexivity..]. apply triple_authentic; auto.
Qed.
Lemma scan_loop_outcome : forall fuel st, performs (scan_loop fuel bytes st) (fun p s => balanced s /\
  (scan_ok st -> staged st -> Forall (honest H R) s -> p.1 = 0 -> scan_ok p.2)).
Proof.
  assert (Hnil : balanced []) by (intros h; reflexivity).
  induction fuel as [|fuel IH]; intros st; cbn [scan_loop]; [trace_step; split; [exact Hnil|auto]|]. trace_step; [trace_step; split; [exact Hnil|auto]|].
  destruct (md_fw_next bytes (cursor st)) as [r|[part c]] eqn:En.
  { trace_step. split; [exact Hnil|]. cbn. intros Hs _ _ E. subst r. exfalso. unfold md_fw_next in En. cbv zeta in En. repeat (case_match; try discriminate). }
  assert (Hnext : scan_ok st -> part_ok bytes part /\ p_header part = cursor st /\ part_end part <= c <= len bytes /\ cursor st <= c).
  { intros (X & _). destruct (next_spec _ _ _ _ Hb (proj1 X) En) as (A & B & C & D & E). unfold part_end in *. split_and!; auto; lia. }
  cbv zeta. fields. destruct (Z.eqb_spec (stage st) 0) as [E0|E0].
  { destruct (scan_member _ part) as [r|st'] eqn:Em.
    - trace_step. split; [exact Hnil|]. cbn. intros _ _ _ E. exfalso. subst r. unfold scan_member in Em. repeat (case_match; try discriminate).
    - eapply performs_impl; [apply IH|]. intros p s [A B]. split; [exact A|]. intros Hs Hst F E. destruct (Hnext Hs) as (N1 & N2 & N3 & N4).
      destruct (scan_member_ok st part c st' Hs E0 N1 N2 N3 Em) as [X Y]. now apply B. }
  trace_step; [trace_step; split; [exact Hnil|]; cbn; intros; exfalso; lia|]. apply orb_false_iff in G0 as [Gn Ge]. apply negb_false_iff, bool_decide_eq_true in Ge.
  destruct (Z.eqb_spec (stage st) 1) as [E1|E1].
  { eapply performs_impl; [apply IH|]. intros p s [A B]. split; [exact A|]. intros Hs Hst F E. destruct (Hnext Hs) as (N1 & N2 & N3 & N4).
    destruct (scan_cert_ok st part c Hs E1 Hst N1 N2 N3 ltac:(lia) Ge) as [X Y]. now apply B. }
  eapply performs_bind; [apply (scan_verify_outcome (at_cursor st c) part)|]. intros p s [A B].
  assert (B' : scan_ok st -> staged st -> Forall (honest H R) s -> p.1 = 0 -> scan_ok p.2 /\ stage p.2 = 0).
  { intros Hs [X|[[X _]|(X & Xf & Xc)]] F E; try lia. destruct (Hnext Hs) as (N1 & N2 & N3 & N4). rewrite <- N2 in Xf, Xc.
    apply B; auto; try lia; [apply scan_ok_cursor; [exact Hs|lia]|unfold at_cursor; fields; lia]. }
  trace_step; [trace_step; rewrite app_nil_r; split; [exact A|]; intros Hs Hst F E; exfalso; lia|].
  eapply performs_impl; [apply IH|]. intros p' s' [A' C]. split; [now apply balanced_app|]. intros Hs Hst F E. apply Forall_app in F as [F F'].
  destruct (B' Hs Hst F ltac:(lia)) as [X Y]. apply C; auto. now left.
Qed.
Lemma start_scan_ok : scan_ok start_scan /\ staged start_scan.
Proof.
  split; [|now left]. unfold scan_ok, start_scan. fields. pose proof (len_nonneg bytes). split_and!; auto; try lia; try discriminate; intros i; intros; rewrite Z.testbit_0_l in *; discriminate.
Qed.
End Authentic.

(** ** Preparation *)

Section Prepare.
Context {walker : Decoder} {contract : Asn1} (H : list Z -> list Z) (R : list Z -> list Z -> list Z) {crypto : Crypto H R} {planner : Planner}.

(** An owner whose three members are authentic and apart in the bytes it
    keeps, and whose layout and service fields come from the signed ROM. *)
Definition authentic_owner (o : mt6878_md_fw_metadata) : Prop :=
  let bytes := pointee (verified_source o) in
  let id := identity o in
  let ms := member id in
  let rom := slice bytes (payload_offset (nth_member ms 0)) (stored_size (nth_member ms 0)) in
  let head := slice rom (len rom - 512) 512 in
  source_size id = len bytes /\
  (forall i, 0 <= i < 3 -> authentic_member H R bytes i (nth_member ms i)) /\
  (forall i j, 0 <= i < 3 -> 0 <= j < 3 -> i <> j -> members_apart (nth_member ms i) (nth_member ms j)) /\
  tetris_modem_plan_layout rom (stored_size (nth_member ms 2)) (reservation_capacity id) = (0, layout o) /\
  i_consys_size id = le32 head 0x180 /\ i_udc_en id = le32 head 0x184 /\ i_nv_cache_size id = le32 head 0x18c /\ i_drdi_version id = le32 head 0x190 /\
  i_udc_en id <= 1.

Lemma release_all_outcome (d s o : bool) {A} (a : A) rest : performs (release_all d s o a) (fun b t =>
  b = a /\ accounts t ((if d then [Desc] else []) ++ (if s then [Sha] else []) ++ (if o then [Owner] else []) ++ rest) = Some rest).
Proof.
  unfold release_all. eapply performs_bind; [apply free_if_releases|]. intros ? s1 H1. cbn beta in H1. eapply performs_bind; [apply free_if_releases|]. intros ? s2 H2. cbn beta in H2.
  eapply performs_bind; [apply free_if_releases|]. intros ? s3 H3. cbn beta in H3. trace_step. split; [reflexivity|].
  rewrite app_nil_r, (accounts_app _ _ _ _ H1), (accounts_app _ _ _ _ H2). exact H3.
Qed.
(** What a preparation over [snap] leaves. *)
Definition prepared (snap : ptr (list Z)) (p : Z * option mt6878_md_fw_metadata) (s : trace request answer) : Prop :=
  match p.2 with
  | None => p.1 <> 0 /\ accounts s [] = Some []
  | Some o => p.1 = 0 /\ accounts s [] = Some [Owner] /\ verified_source o = snap /\ refs o = 1 /\ firmware o = false /\
      (Forall (honest H R) s -> authentic_owner o)
  end.
Lemma failed_release pre (d s o : bool) r snap : r <> 0 ->
  accounts pre [] = Some ((if d then [Desc] else []) ++ (if s then [Sha] else []) ++ (if o then [Owner] else []) ++ []) ->
  performs (release_all d s o (r, None)) (fun p t => prepared snap p (pre ++ t)).
Proof.
  intros Hr Hp. eapply performs_impl; [apply (release_all_outcome d s o _ [])|]. cbn. intros p t [-> Ht]. split; [exact Hr|]. now rewrite (accounts_app _ _ _ _ Hp).
Qed.
Lemma fw_layout_error rom ms a b c r : md_fw_layout rom ms a b c = inl r -> r <> 0.
Proof.
  unfold md_fw_layout. destruct (tetris_modem_plan_layout rom (stored_size (nth_member ms 2)) c) as [e l]. destruct (Z.eqb_spec e 0); cbn [negb]; [|now intros [= <-]].
  cbv zeta. destruct (_ <=? 1); [discriminate|]. intros [= <-]. discriminate.
Qed.
Lemma fw_layout_ok rom ms a b c id l : md_fw_layout rom ms a b c = inr (id, l) ->
  tetris_modem_plan_layout rom (stored_size (nth_member ms 2)) c = (0, l) /\ member id = ms /\ source_size id = a /\ reservation_capacity id = c /\
  (let head := slice rom (len rom - 512) 512 in i_consys_size id = le32 head 0x180 /\ i_udc_en id = le32 head 0x184 /\ i_nv_cache_size id = le32 head 0x18c /\
    i_drdi_version id = le32 head 0x190) /\ i_udc_en id <= 1.
Proof.
  unfold md_fw_layout. destruct (tetris_modem_plan_layout rom (stored_size (nth_member ms 2)) c) as [e l']. destruct (Z.eqb_spec e 0) as [->|]; cbn [negb]; [|discriminate].
  cbv zeta. destruct (_ <=? 1) eqn:G; [|discriminate]. intros [= <- <-]. split_and!; try reflexivity. apply Z.leb_le. exact G.
Qed.
Lemma prepare_owner_outcome snap capacity pre s q : accounts (pre ++ s) [] = Some [Desc; Sha; Owner] ->
  (Forall (honest H R) s -> q.1 = 0 -> scan_ok H R (pointee snap) q.2) ->
  performs (prepare_owner snap capacity q) (fun p t => prepared snap p ((pre ++ s) ++ t)).
Proof.
  intros Hs S. unfold prepare_owner. cbv zeta.
  destruct (Z.eqb_spec q.1 0) as [E0|E0]; cbn [negb]; [|now apply failed_release]. destruct (Z.eqb_spec (found q.2) 7) as [E7|E7]; cbn [negb]; [|now apply failed_release].
  destruct (md_fw_layout _ _ _ _ _) as [r|[id l]] eqn:El; [apply failed_release; [eapply fw_layout_error, El|exact Hs]|].
  eapply performs_impl; [apply (release_all_outcome true true false _ [Owner])|]. cbn beta. intros a t [-> Ht]. split; [reflexivity|].
  split; [now rewrite (accounts_app _ _ _ _ Hs)|]. split_and!; try reflexivity. intros F. apply Forall_app in F as [F _]. apply Forall_app in F as [_ F].
  destruct (S F E0) as (_ & _ & _ & D & A & Ro). rewrite E7 in *.
  assert (Hbit : forall i, 0 <= i < 3 -> Z.testbit 7 i = true) by (intros i Hi; assert (Hor : i = 0 \/ i = 1 \/ i = 2) by lia; destruct Hor as [->|[->| ->]]; reflexivity).
  apply fw_layout_ok in El as (L1 & L2 & L3 & L4 & L5 & L6). rewrite (Ro eq_refl) in *. unfold authentic_owner. cbn [verified_source identity layout]. cbv zeta. rewrite L2, L3, L4.
  split_and!; auto; try apply L5.
  - intros i Hi. now apply D, Hbit.
Qed.
(** The objects a concrete trace has acquired. *)
Ltac count_up := unfold accounts; repeat (cbn [fold_left account fst snd app]; match goal with G : (status _ <? 0) = _ |- context [status _ <? 0] => rewrite G end); reflexivity.
Lemma prepare_snapshot_outcome snap capacity : bytes_ok (pointee snap) -> performs (md_fw_prepare_snapshot snap capacity) (prepared snap).
Proof.
  intros Hb. unfold md_fw_prepare_snapshot. cbv zeta. trace_step; [trace_step; split; [discriminate|reflexivity]|]. clear G.
  trace_step. trace_step; [trace_step; split; [discriminate|]; count_up|]. trace_step.
  trace_step; [apply (failed_release [(Acquire Owner, p); (Acquire Sha, p0)]); [lia|count_up]|]. trace_step.
  trace_step; [apply (failed_release [(Acquire Owner, p); (Acquire Sha, p0); (Digestsize, p1)]); [lia|count_up]|]. trace_step.
  set (pre := [(Acquire Owner, p); (Acquire Sha, p0); (Digestsize, p1); (Acquire Desc, p2)]).
  trace_step; [apply (failed_release pre); [lia|subst pre; count_up]|].
  assert (Hpre : accounts pre [] = Some [Desc; Sha; Owner]) by (subst pre; count_up).
  eapply performs_bind; [apply (scan_loop_outcome H R (pointee snap) Hb)|]. intros q s [B S]. cbn beta.
  destruct (start_scan_ok H R (pointee snap)) as [S1 S2].
  eapply performs_impl; [apply (prepare_owner_outcome snap capacity pre s q); [rewrite (accounts_app _ _ _ _ Hpre); apply B|auto]|].
  cbn beta. intros a t X. rewrite <- app_assoc in X. exact X.
Qed.

(** What a public preparation leaves: nothing, or the owner with [keep]. *)
Definition owns (keep : resource) (content : list Z) (p : Z * option mt6878_md_fw_metadata) (s : trace request answer) : Prop :=
  match p.2 with
  | None => p.1 <> 0
  | Some o => p.1 = 0 /\ accounts s [] = Some [Owner; keep] /\ pointee (verified_source o) = content /\ refs o = 1 /\ firmware o = bool_decide (keep = Blob) /\
      (Forall (honest H R) s -> authentic_owner o)
  end.
Lemma prepare_outcome copy source capacity : bytes_ok (pointee source) ->
  performs (mt6878_md_fw_prepare copy source capacity) (fun p s => owns Snapshot (pointee source) p s /\ (p.2 = None -> accounts s [] = Some [])).
Proof.
  intros Hb. unfold mt6878_md_fw_prepare. cbv zeta. trace_step; [trace_step; split; [discriminate|reflexivity]|]. clear G. trace_step.
  trace_step; [trace_step; split; [discriminate|intros _; count_up]|].
  assert (Hp : accounts [(Acquire Snapshot, p)] [] = Some [Snapshot]) by count_up.
  eapply performs_bind; [apply (prepare_snapshot_outcome (Ptr copy (pointee source)) capacity Hb)|]. intros q s Hq. unfold prepared in Hq.
  assert (Hs : forall t h, accounts s [] = Some h -> accounts ((Acquire Snapshot, p) :: s ++ t) [] = accounts t (h ++ [Snapshot])).
  { intros t h X. change ((Acquire Snapshot, p) :: s ++ t) with ([(Acquire Snapshot, p)] ++ s ++ t). rewrite (accounts_app _ _ _ _ Hp).
    now rewrite (accounts_app _ _ _ _ (accounts_frame _ [] _ [Snapshot] X)). }
  unfold owns. destruct (Z.eqb_spec q.1 0) as [E|E]; cbn [negb].
  - trace_step. destruct q as [r [o|]]; cbn [fst snd] in *; [|destruct Hq; contradiction]. destruct Hq as (_ & A & V & Rf & Fm & Au).
    split; [|discriminate]. split; [exact E|]. split; [now rewrite (Hs [] _ A)|]. rewrite V. split_and!; auto. intros F. apply Forall_cons in F as [_ F].
    rewrite app_nil_r in F. now apply Au.
  - trace_step. trace_step. destruct q as [r [o|]]; cbn [fst snd] in *; [destruct Hq as [X _]; contradiction|]. destruct Hq as [_ A].
    split; [exact E|]. intros _. now rewrite (Hs _ _ A).
Qed.
Lemma request_outcome named file capacity : bytes_ok (pointee file) ->
  performs (mt6878_md_fw_request named file capacity) (fun p s => owns Blob (pointee file) p s /\
    (p.2 = None -> Forall (fun e => match e.1 with Acquire Blob => status e.2 <= 0 | _ => True end) s -> accounts s [] = Some [])).
Proof.
  intros Hb. unfold mt6878_md_fw_request. trace_step; [trace_step; split; [discriminate|reflexivity]|]. clear G. trace_step.
  trace_step.
  { trace_step. split; [cbn; lia|]. intros _ F. apply Forall_cons in F as [F _]. cbn in F. unfold accounts. cbn. replace (status p <? 0) with true by lia. reflexivity. }
  assert (Hp : accounts [(Acquire Blob, p)] [] = Some [Blob]) by (unfold accounts; cbn; replace (status p <? 0) with false by lia; reflexivity).
  eapply performs_bind; [apply (prepare_snapshot_outcome file capacity Hb)|]. intros q s Hq. unfold prepared in Hq.
  assert (Hs : forall t h, accounts s [] = Some h -> accounts ((Acquire Blob, p) :: s ++ t) [] = accounts t (h ++ [Blob])).
  { intros t h X. change ((Acquire Blob, p) :: s ++ t) with ([(Acquire Blob, p)] ++ s ++ t). rewrite (accounts_app _ _ _ _ Hp).
    now rewrite (accounts_app _ _ _ _ (accounts_frame _ [] _ [Blob] X)). }
  unfold owns. destruct (Z.eqb_spec q.1 0) as [E|E]; cbn [negb].
  - trace_step. destruct q as [r [o|]]; cbn [fst snd fmap option_fmap option_map] in *; [|destruct Hq; contradiction]. destruct Hq as (_ & A & V & Rf & Fm & Au).
    split; [|discriminate]. split; [reflexivity|]. split; [now rewrite (Hs [] _ A)|]. cbn [set_firmware verified_source refs firmware]. split; [now rewrite V|]. split_and!; auto.
    intros F. apply Forall_cons in F as [_ F]. rewrite app_nil_r in F. exact (Au F).
  - trace_step. trace_step. destruct q as [r [o|]]; cbn [fst snd] in *; [destruct Hq as [X _]; contradiction|]. destruct Hq as [_ A].
    split; [exact E|]. intros _ _. now rewrite (Hs _ _ A).
Qed.
End Prepare.

(** ** Copies *)

(** What the owner relies on of the boot loader's planner: an accepted layout
    keeps the two payloads' sizes, and both payloads fit it, apart. *)
Class PlannerLaws (planner : Planner) : Prop := planned rom dsp capacity l :
  tetris_modem_plan_layout rom dsp capacity = (0, l) ->
  rom_size l = len rom /\ dsp_size l = dsp /\ len rom <= dsp_offset l /\ dsp_offset l + dsp <= memory_size l.

Section Copies.
Context (H : list Z -> list Z) (R : list Z -> list Z -> list Z) {planner : Planner} {laws : PlannerLaws planner}.
Context (sizeof_owner sizeof_plan : Z).

(** The bytes of member [i] that were authenticated. *)
Definition payload_of (o : mt6878_md_fw_metadata) (i : Z) : list Z :=
  let m := nth_member (member (identity o)) i in slice (pointee (verified_source o)) (payload_offset m) (stored_size m).
Definition ranges_apart (a an b bn : Z) : Prop := a + an <= b \/ b + bn <= a.

Lemma separate_spec a an b bn : 0 <= a -> 0 <= an -> 0 <= b -> 0 <= bn -> md_fw_separate a an b bn = true -> ranges_apart a an b bn.
Proof.
  unfold md_fw_separate, ranges_apart. intros Ha Han Hbz Hbn E. apply andb_true_iff in E as [E X]. apply andb_true_iff in E as [E E6].
  apply andb_true_iff in E as [E E5]. rewrite !u64_id in X by (unfold is_u64; lia). lia.
Qed.
Lemma payload_len o i : bytes_ok (pointee (verified_source o)) -> authentic_owner H R o -> 0 <= i < 3 ->
  len (payload_of o i) = stored_size (nth_member (member (identity o)) i) /\ H (payload_of o i) = m_payload_sha256 (nth_member (member (identity o)) i) /\
  0 <= payload_offset (nth_member (member (identity o)) i) /\ 0 < stored_size (nth_member (member (identity o)) i) /\
  member_end (nth_member (member (identity o)) i) <= len (pointee (verified_source o)).
Proof.
  intros Hb (_ & A & _) Hi. destruct (A i Hi) as (c1 & c2 & P & _ & _ & _ & _ & _ & _ & _ & _ & _ & _ & _ & Hh & _).
  destruct (part_geometry _ _ Hb P) as (G1 & G2 & G3 & G4). unfold part_end, member_end in *. cbn [p_header p_payload p_size] in *.
  split_and!; auto; try lia. unfold payload_of. apply len_slice; lia.
Qed.
(** The next test of the goal. *)
Ltac test_of G := match goal with |- context [if ?b then _ else _] => destruct b eqn:G end.
Lemma copy_payload_cases owner i off dest n : bytes_ok (pointee (verified_source (pointee owner))) -> authentic_owner H R (pointee owner) ->
  0 <= i -> 0 <= off -> 0 <= n <= len (pointee dest) ->
  let '(r, d) := mt6878_md_fw_copy_payload sizeof_owner owner i off dest n in
  (r <> 0 -> d = pointee dest) /\
  (r = 0 -> i < 3 /\ off + n <= len (payload_of (pointee owner) i) /\ d = write_at (pointee dest) 0 (slice (payload_of (pointee owner) i) off n)).
Proof.
  intros Hb Ho Hi Hoff Hn. unfold mt6878_md_fw_copy_payload. cbv zeta. test_of G1; [now split|].
  test_of G2; [now split|]. test_of G3; [now split|]. split; [congruence|]. intros _.
  destruct (payload_len _ i Hb Ho ltac:(lia)) as (L & _ & A & B & C). split; [lia|]. split; [lia|]. unfold payload_of. rewrite slice_slice by lia. reflexivity.
Qed.
Lemma two_writes (l a b : list Z) i : len a <= i -> i + len b <= len l ->
  let d := write_at (write_at l 0 a) i b in
  len d = len l /\ slice d 0 (len a) = a /\ slice d i (len b) = b /\
  (forall j, len a <= j < len l -> j < i \/ i + len b <= j -> byte_at d j = byte_at l j).
Proof.
  intros Ha Hi. cbv zeta. pose proof (len_nonneg a). pose proof (len_nonneg b).
  assert (L1 : len (write_at l 0 a) = len l) by (apply len_write_at; lia).
  assert (L2 : len (write_at (write_at l 0 a) i b) = len l) by (rewrite len_write_at; lia). split; [exact L2|]. split_and!.
  - apply bytes_ext; [rewrite len_slice; lia|]. intros j Hj. rewrite len_slice in Hj by lia.
    rewrite byte_at_slice, byte_at_write_out, byte_at_write_in by lia. f_equal; lia.
  - apply bytes_ext; [rewrite len_slice; lia|]. intros j Hj. rewrite len_slice in Hj by lia. rewrite byte_at_slice, byte_at_write_in by lia. f_equal; lia.
  - intros j Hj Ho. now rewrite !byte_at_write_out by lia.
Qed.
(** Where the boot image ends up: ROM at the start, DSP at its offset, the
    rest of the destination as it was. *)
Definition placed_image (o : mt6878_md_fw_metadata) (old d : list Z) : Prop :=
  let l := layout o in
  len d = len old /\ slice d 0 (rom_size l) = payload_of o 0 /\ slice d (dsp_offset l) (dsp_size l) = payload_of o 2 /\
  (forall j, rom_size l <= j < len old -> j < dsp_offset l \/ dsp_offset l + dsp_size l <= j -> byte_at d j = byte_at old j).
Definition signed_inputs (o : mt6878_md_fw_metadata) (gear : Z) : tetris_modem_smem_inputs :=
  let head := slice (payload_of o 0) (len (payload_of o 0) - 512) 512 in SmemInputs (le32 head 0x190) (le32 head 0x184) (le32 head 0x180) (le32 head 0x18c) gear.
Lemma plan_smem_keeps inputs plan r : tetris_modem_plan_smem_b41 (Some inputs) (Some plan) <> (r, None).
Proof.
  unfold tetris_modem_plan_smem_b41. destruct (_ || _); [discriminate|]. destruct (ccb_sizes _); [|discriminate].
  destruct (smem_place nc_entries _ _ _) as [[[r1 ?] ?] ?]. destruct (negb (r1 =? 0)); [discriminate|].
  destruct (smem_place (cache_entries _ _) _ _ _) as [[[r2 ?] ?] ?]. destruct (negb (r2 =? 0)); discriminate.
Qed.
Lemma place_b41_cases owner dest capacity gear plan : bytes_ok (pointee (verified_source (pointee owner))) -> authentic_owner H R (pointee owner) ->
  0 <= capacity <= len (pointee dest) ->
  let o := pointee owner in
  let '(r, d, p) := mt6878_md_fw_place_b41 sizeof_owner sizeof_plan owner dest capacity gear plan in
  (r <> 0 -> d = pointee dest /\ p = pointee plan) /\
  (r = 0 -> placed_image o (pointee dest) d /\ bp_layout p = layout o /\ smem_inputs p = signed_inputs o gear /\
     tetris_modem_plan_smem_b41 (Some (signed_inputs o gear)) (Some (SmemPlan [] [] 0 0 0 0)) = (0, Some (smem p))).
Proof.
  intros Hb Ho Hc. cbv zeta. destruct (payload_len _ 0 Hb Ho ltac:(lia)) as (L0 & _ & A0 & B0 & C0). destruct (payload_len _ 2 Hb Ho ltac:(lia)) as (L2 & _ & A2 & B2 & C2).
  destruct Ho as (_ & _ & _ & Pl & E1 & E2 & E3 & E4 & _). cbv zeta in *. destruct (planned _ _ _ _ Pl) as (R0 & R2 & R3 & R4).
  unfold mt6878_md_fw_place_b41. cbv zeta. test_of G1; [now split|]. test_of G2; [now split|].
  replace (SmemInputs _ _ _ _ gear) with (signed_inputs (pointee owner) gear) by (unfold signed_inputs; now rewrite E1, E2, E3, E4).
  pose proof (plan_smem_keeps (signed_inputs (pointee owner) gear) (SmemPlan [] [] 0 0 0 0)) as Keep.
  destruct (tetris_modem_plan_smem_b41 _ _) as [r [sm|]]; cycle 1.
  { destruct (Z.eqb_spec r 0) as [->|Hr].
    - now destruct (Keep 0).
    - clear - Hr. destruct r; [contradiction|split; [now split|discriminate]..]. }
  destruct r as [|r|r]; [|split; [now split|discriminate]..]. split; [congruence|]. intros _. split; [|auto].
  fold (payload_of (pointee owner) 0) in R0, R3. rewrite L0 in R0, R3. unfold placed_image. cbv zeta. rewrite R0, R2.
  fold (slice (pointee (verified_source (pointee owner))) (payload_offset (nth_member (member (identity (pointee owner))) 0))
          (stored_size (nth_member (member (identity (pointee owner))) 0))).
  fold (slice (pointee (verified_source (pointee owner))) (payload_offset (nth_member (member (identity (pointee owner))) 2))
          (stored_size (nth_member (member (identity (pointee owner))) 2))).
  fold (payload_of (pointee owner) 0) (payload_of (pointee owner) 2). rewrite <- L0, <- L2. apply two_writes; lia.
Qed.
End Copies.

(** ** References *)

(** The last reference, and no other, frees the owner and the bytes it keeps. *)
Lemma put_outcome o : 1 <= refs o -> performs (mt6878_md_fw_put (Some o)) (fun o' s =>
  if refs o =? 1 then o' = None /\ fst <$> s = [Release (if firmware o then Blob else Snapshot); Release Owner]
  else o' = Some (set_refs o (refs o - 1)) /\ s = []).
Proof.
  intros Hr. unfold mt6878_md_fw_put. cbv zeta. cbn [set_refs refs firmware]. trace_step.
  - trace_step. trace_step. trace_step. now replace (refs o =? 1) with true by lia.
  - trace_step. now replace (refs o =? 1) with false by lia.
Qed.

(** ** A sample bundle *)

Module Bundle.
Definition head_of (name : list Z) (size : Z) : list Z :=
  le_to 4 0x58881688 ++ le_to 4 size ++ name ++ zeros (40 - len name) ++ le_to 4 0x58891689 ++ le_to 4 512 ++ zeros 12 ++ le_to 4 16 ++ zeros 440.
Definition part_of (name content : list Z) : list Z := head_of name (len content) ++ content ++ zeros ((- len content) mod 16).
Definition hash (b : list Z) : list Z := if bytes_eqb b (key_field toy_key) then md_mtk_root_pin else toy_hash b.
#[export] Instance hash_crypto : Crypto hash toy_rsa.
Proof.
  split; [|apply toy_crypto]. intros b. unfold hash. destruct (bytes_eqb _ _); [|apply toy_crypto]. split; [reflexivity|]. unfold md_mtk_root_pin. concrete_bytes.
Qed.
Definition leaf (head content : list Z) : list Z := Sample.signed Sample.leaf_key
  (Sample.meta_oid 2 6 ++ zero_bits ++ Sample.meta_oid 2 8 ++ zero_bits ++ Sample.meta_oid 4 2 ++ zero_bits ++
   Sample.meta_oid 2 4 ++ der 3 (0 :: hash head) ++ Sample.meta_oid 2 1 ++ der 3 (0 :: hash content)).
Definition triple (name cert1 content : list Z) : list Z :=
  part_of name content ++ part_of cert1 Sample.cert1 ++ part_of cert2_name (leaf (head_of name (len content)) content).
Definition rom : list Z := repeat 7 64 ++ zeros 400 ++ [3] ++ zeros 111.
Definition bundle : list Z := triple md1rom cert1md rom ++ triple md1drdi cert1_name (repeat 8 16) ++ triple md1dsp cert1_name (repeat 9 32).
#[export] Instance planner : Planner := fun rom dsp capacity =>
  if len rom + dsp <=? capacity then (0, Layout (len rom + dsp) (len rom + dsp) (len rom) dsp 1 (len rom) dsp) else (- ERANGE, Layout 0 0 0 0 0 0 0).
#[export] Instance planner_laws : PlannerLaws planner.
Proof.
  intros r d c l. unfold tetris_modem_plan_layout, planner. destruct (_ <=? c); [|discriminate]. intros [= <-]. cbn. lia.
Qed.
Definition kernel : environment request answer := fun _ q =>
  match q with
  | Digest b => Answer 0 (hash b) 32
  | Encrypt k s => Answer 0 (toy_rsa k s) 256
  | _ => toy_kernel [] q
  end.
Definition run : (Z * option mt6878_md_fw_metadata) * trace request answer :=
  @mt6878_md_fw_prepare Walker.decode planner 0x1000 (Ptr 0x100000 bundle) 4096 kernel [].
Definition owner : mt6878_md_fw_metadata := default (FwOwner 0 (Identity [] 0 0 0 0 0 0 0 0 [] [] 0 0 0 0) (Layout 0 0 0 0 0 0 0) (Ptr 0 []) false) run.1.2.
Definition honestb (e : request * answer) : bool :=
  match e.1 with
  | Digest b => (status e.2 =? 0) && bytes_eqb (output e.2) (hash b)
  | Encrypt k s => (status e.2 =? 0) && bytes_eqb (output e.2) (toy_rsa k s) && (out_len e.2 =? 256)
  | _ => true
  end.
Lemma honestb_ok s : forallb honestb s = true -> Forall (honest hash toy_rsa) s.
Proof.
  intros F. apply Forall_forall. intros e He. rewrite forallb_forall in F. specialize (F e (proj1 (list_elem_of_In _ _) He)). unfold honestb, honest in *.
  destruct e.1; try exact I; repeat (apply andb_true_iff in F as [F ?]); repeat match goal with B : bytes_eqb _ _ = true |- _ => apply bool_decide_eq_true in B end; split_and?; auto; lia.
Qed.
Lemma bundle_bytes : bytes_ok bundle.
Proof. concrete_bytes. Qed.
Lemma run_accepted : @mt6878_md_fw_prepare Walker.decode planner 0x1000 (Ptr 0x100000 bundle) 4096 kernel [] = (0, Some owner, run.2).
Proof. vm_compute. reflexivity. Qed.
Lemma run_honest : Forall (honest hash toy_rsa) run.2.
Proof. apply honestb_ok. vm_compute. reflexivity. Qed.
Lemma owner_source : pointee (verified_source owner) = bundle.
Proof. vm_compute. reflexivity. Qed.
Lemma owner_authentic : @authentic_owner hash toy_rsa planner owner.
Proof.
  destruct (performs_run _ _ kernel _ _ (@prepare_outcome Walker.decode Walker.decode_asn1 hash toy_rsa hash_crypto planner 0x1000 (Ptr 0x100000 bundle) 4096 bundle_bytes) run_accepted)
    as [(_ & _ & _ & _ & _ & O) _]. exact (O run_honest).
Qed.
End Bundle.

(** Authentic firmware. Preparing from a buffer or a requested file always
    ends. On an error nothing stays acquired and there is no owner. On success
    the owner holds itself and the private copy (or the file), has one
    reference and keeps exactly the given bytes; and when the kernel hashes
    with [H] and exponentiates with [R], each of the three members is a part
    of the bundle with its name, followed by its two certificates, which are
    trusted from the compiled pin for that part's header, its payload has the
    signed hash, members do not overlap, and the layout and service fields
    come from the signed ROM. *)
Theorem fw_prepare_authentic (walker : Decoder) (contract : @Asn1 walker) H R (crypto : Crypto H R) (planner : Planner) copy source named file capacity :
  bytes_ok (pointee source) -> bytes_ok (pointee file) ->
  performs (mt6878_md_fw_prepare copy source capacity) (fun p s => owns H R Snapshot (pointee source) p s /\ (p.2 = None -> accounts s [] = Some [])) /\
  performs (mt6878_md_fw_request named file capacity) (fun p s => owns H R Blob (pointee file) p s /\
    (p.2 = None -> Forall (fun e => match e.1 with Acquire Blob => status e.2 <= 0 | _ => True end) s -> accounts s [] = Some [])).
Proof. intros Hs Hf. split; [now apply prepare_outcome|now apply request_outcome]. Qed.
Lemma fw_prepare_authentic_witness :
  Bundle.run.1.1 = 0 /\ refs Bundle.owner = 1 /\
  performs (@mt6878_md_fw_prepare Walker.decode Bundle.planner 0x1000 (Ptr 0x100000 Bundle.bundle) 4096) (fun p s =>
    @owns Bundle.hash toy_rsa Bundle.planner Snapshot Bundle.bundle p s /\ (p.2 = None -> accounts s [] = Some [])).
Proof.
  split; [vm_compute; reflexivity|]. split; [vm_compute; reflexivity|].
  exact (proj1 (fw_prepare_authentic Walker.decode Walker.decode_asn1 Bundle.hash toy_rsa Bundle.hash_crypto Bundle.planner 0x1000 (Ptr 0x100000 Bundle.bundle)
    true (Ptr 0x100000 Bundle.bundle) 4096 Bundle.bundle_bytes Bundle.bundle_bytes)).
Defined.

(** Authentic copies. From an authentic owner and with a planner that keeps
    its laws: copying out of a member succeeds only inside the member and then
    stores exactly that range of the payload, whose hash is the signed one;
    placing the boot image stores the whole ROM payload at the start and the
    whole DSP payload at its offset, leaves every other byte, and returns the
    planned layout with the shared-memory plan for the signed service fields. A
    failing call changes neither the destination nor the plan. *)
Theorem fw_copies_authentic H R (planner : Planner) (laws : PlannerLaws planner) sizeof_owner sizeof_plan owner dest plan i off n capacity gear :
  bytes_ok (pointee (verified_source (pointee owner))) -> authentic_owner H R (pointee owner) ->
  0 <= i -> 0 <= off -> 0 <= n <= len (pointee dest) -> 0 <= capacity <= len (pointee dest) ->
  let o := pointee owner in
  (let '(r, d) := mt6878_md_fw_copy_payload sizeof_owner owner i off dest n in
   (r <> 0 -> d = pointee dest) /\
   (r = 0 -> H (payload_of o i) = m_payload_sha256 (nth_member (member (identity o)) i) /\ off + n <= len (payload_of o i) /\
      d = write_at (pointee dest) 0 (slice (payload_of o i) off n))) /\
  (let '(r, d, p) := mt6878_md_fw_place_b41 sizeof_owner sizeof_plan owner dest capacity gear plan in
   (r <> 0 -> d = pointee dest /\ p = pointee plan) /\
   (r = 0 -> placed_image o (pointee dest) d /\ bp_layout p = layout o /\ smem_inputs p = signed_inputs o gear /\
      tetris_modem_plan_smem_b41 (Some (signed_inputs o gear)) (Some (SmemPlan [] [] 0 0 0 0)) = (0, Some (smem p)))).
Proof.
  intros Hb Ho Hi Hoff Hn Hc. split; [|exact (place_b41_cases H R sizeof_owner sizeof_plan owner dest capacity gear plan Hb Ho Hc)].
  pose proof (copy_payload_cases H R sizeof_owner owner i off dest n Hb Ho Hi Hoff Hn) as C.
  destruct (mt6878_md_fw_copy_payload _ _ _ _ _ _) as [r d]. destruct C as [C1 C2]. split; [exact C1|]. intros E. destruct (C2 E) as (X & Y & Z).
  now destruct (payload_len H R _ i Hb Ho ltac:(lia)) as (_ & P & _).
Qed.
Lemma fw_copies_authentic_witness :
  let owner := Ptr 0x20000 Bundle.owner in
  let dest := Ptr 0x200000 (zeros 700) in
  let plan := Ptr 0x30000 (BootPlan (Layout 0 0 0 0 0 0 0) (SmemInputs 0 0 0 0 0) (SmemPlan [] [] 0 0 0 0)) in
  (mt6878_md_fw_copy_payload 0x400 owner 2 4 dest 3) = (0, [9; 9; 9] ++ zeros 697) /\
  (mt6878_md_fw_place_b41 0x400 0x400 owner dest 700 1 plan).1 = (0, Bundle.rom ++ repeat 9 32 ++ zeros 92) /\
  placed_image (pointee owner) (pointee dest) (Bundle.rom ++ repeat 9 32 ++ zeros 92).
Proof.
  cbv zeta. split; [vm_compute; reflexivity|].
  assert (E : (mt6878_md_fw_place_b41 0x400 0x400 (Ptr 0x20000 Bundle.owner) (Ptr 0x200000 (zeros 700)) 700 1
    (Ptr 0x30000 (BootPlan (Layout 0 0 0 0 0 0 0) (SmemInputs 0 0 0 0 0) (SmemPlan [] [] 0 0 0 0)))).1 = (0, Bundle.rom ++ repeat 9 32 ++ zeros 92)) by (vm_compute; reflexivity).
  split; [exact E|].
  assert (Hb : bytes_ok (pointee (verified_source Bundle.owner))) by (rewrite Bundle.owner_source; apply Bundle.bundle_bytes).
  pose proof (fw_copies_authentic Bundle.hash toy_rsa Bundle.planner Bundle.planner_laws 0x400 0x400 (Ptr 0x20000 Bundle.owner) (Ptr 0x200000 (zeros 700))
    (Ptr 0x30000 (BootPlan (Layout 0 0 0 0 0 0 0) (SmemInputs 0 0 0 0 0) (SmemPlan [] [] 0 0 0 0))) 2 4 3 700 1
    Hb Bundle.owner_authentic ltac:(lia) ltac:(lia) ltac:(split; [lia|vm_compute; discriminate]) ltac:(split; [lia|vm_compute; discriminate])) as [_ T].
  destruct (mt6878_md_fw_place_b41 _ _ _ _ _ _ _) as [[r d] p]. cbn [fst] in E. injection E as -> ->. destruct T as [_ T]. exact (proj1 (T eq_refl)).
Defined.
