(* ===== verification/EmiRows.v ===== *)
(** * Protected memory rows of the modem

    [emi-rows/tetris_modem_emi_rows_program.c] and the row policies of
    [emi-rows/tetris_modem_emi_rows.c]: the boot loader checks twelve rows and
    programs them through the secure monitor. The encoders and the helpers that
    talk to one slot belong to the boot loader's tree; they are a parameter
    [Emi], and the helpers reach the monitor only through the transport that
    is passed to them. *)

From S2P Require Import Prelude Trace.
Open Scope Z_scope.
Open Scope io_scope.

(** ** The monitor and the registers *)

(** [Smc] passes the function and the arguments; the answer holds x0 to x3.
    The requests of the stages around are here too. *)
Inductive call :=
| Smc (function : Z) (arguments : list Z) | Readl (address : Z) | Writel (address value : Z) | Udelay (us : Z) | Mdelay (ms : Z) | Atf_profile
| Reserve_window | Reserve_bank (bank capacity : Z) | Map_sysmem (base capacity : Z) | Unmap_sysmem (mapping : Z)
| Load_rows (slot mapping capacity ccb_gear : Z) (phy_gear : option (list Z)) (digest windows : list Z) | Initialize_smem (firmware nc cached : Z * Z).
Record answer := Answer { result : Z; regs : list Z }.
Abbreviation boot_io := (io call answer).
Abbreviation boot_trace := (trace call answer).
Definition reg (a : answer) (i : nat) : Z := u64 (nth i (regs a) 0).

(** A monitor's status word, 32 or 64 bits wide. *)
Definition smc_status (raw : Z) : Z :=
  if raw =? 0 then 0 else
  if (0xfffff001 <=? raw) && (raw <=? 0xffffffff) then - (0x100000000 - raw) else
  if UINT64_MAX - 4094 <=? raw then - (UINT64_MAX - raw + 1) else - EPROTO.

(** ** Rows *)

Definition TETRIS_MODEM_EMI_POLICY_WORDS : Z := 8.
Record tetris_modem_emi_window := Emi_window { w_base : Z; w_capacity : Z }.
Definition TETRIS_MD_EMI_ABSENT : Z := 0.
Definition TETRIS_MD_EMI_RANGE : Z := 1.
Definition TETRIS_MD_EMI_PRESET_RANGE : Z := 2.
Record tetris_modem_emi_row := Emi_row {
  row_kind : Z; row_role : Z; row_slot : Z; row_start : Z; row_size : Z; reservation : tetris_modem_emi_window; row_policy : list Z }.
(** [ops]: a call on a context, function, operation and three arguments; its
    status, what it stored at [reply], and the context after it. *)
Definition transport (C : Type) : Type := C -> Z -> Z -> Z -> Z -> Z -> boot_io (Z * option Z * C).
Definition remap_transport (C : Type) : Type := C -> Z -> Z -> Z -> Z -> boot_io (Z * list Z * C).
(** The boot loader's encoders and slot helpers. Of [plan_emi] and
    [plan_remap] the sources use the status; a read slot is eleven words. *)
Class Emi := {
  plan_emi : Z -> Z -> Z -> Z;
  plan_emi_policy : list Z -> Z -> Z * list Z;
  plan_remap : Z -> Z -> Z -> Z -> Z;
  read_emi_slot : forall {C}, transport C -> C -> Z -> boot_io (Z * list Z * C);
  program_emi_range : forall {C}, transport C -> C -> tetris_modem_emi_row -> boot_io (Z * C);
  program_remap : forall {C}, remap_transport C -> C -> Z -> Z -> Z -> Z -> boot_io (Z * C) }.
(** They ask for nothing but through the transport. *)
Class EmiLaws (E : Emi) := {
  read_through : forall C P (f : transport C) c slot, (forall c a b d e g, performs (f c a b d e g) (fun _ s => Forall P s)) -> performs (read_emi_slot f c slot) (fun _ s => Forall P s);
  range_through : forall C P (f : transport C) c r, (forall c a b d e g, performs (f c a b d e g) (fun _ s => Forall P s)) -> performs (program_emi_range f c r) (fun _ s => Forall P s);
  remap_through : forall C P (f : remap_transport C) c a b d e, (forall c a b d e, performs (f c a b d e) (fun _ s => Forall P s)) -> performs (program_remap f c a b d e) (fun _ s => Forall P s) }.

Definition EMI_SMC : Z := 0xc2000415.
Definition row_pin : list Z :=
  [0x5d; 0x2b; 0xed; 0xd0; 0x00; 0x49; 0xfc; 0xed; 0x98; 0x3d; 0x3a; 0xe5; 0x39; 0x89; 0x61; 0x6c;
   0x5c; 0x9f; 0x46; 0xc4; 0xed; 0xdd; 0x32; 0xa0; 0x1a; 0x1a; 0xd4; 0x6f; 0xf8; 0xd2; 0xc5; 0x0f].
(** The permission of one master in the two bits of its place. *)
Definition permit (policy : list Z) (aid permission : Z) : list Z :=
  alter (fun w => Z.lor w (Z.shiftl permission (2 * (aid mod 32)))) (Z.to_nat (aid / 32)) policy.
Definition preset_permission (role : Z) : list Z :=
  if role =? 0 then [2; 2; 0] else if role =? 1 then [3; 3; 3] else if role =? 2 then [3; 2; 2] else [2; 3; 3].

Section Emi.
Context {E : Emi}.
Definition tetris_modem_emi_row_policy_b41 (slot role : Z) : Z * list Z :=
  if (slot <? 32) || (43 <? slot) then (- EINVAL, []) else
  let zero := repeat 0 8 in
  if slot =? 39 then (0, permit (permit (permit zero 47 3) 240 2) 241 2) else
  if slot =? 40 then
    if 3 <? role then (- EINVAL, zero) else
    (0, foldl (fun p a => permit p a.1 a.2) zero (zip [35; 47; 93] (preset_permission role)))
  else plan_emi_policy row_pin slot.

(** ** The transport of the boot stage *)

Definition hw_admitted (function operation a b c : Z) : bool :=
  (function =? EMI_SMC) &&
  (((operation =? 0) && (32 <=? c) && (c <=? 43)) || ((operation =? 6) && (a =? 40) && (b <=? 3) && (c =? 0))
   || ((operation =? 2) && (32 <=? b) && (b <=? 43) && (((a <=? 1) && (c =? 0)) || ((a =? 3) && (c =? 0)) || ((a =? 4) && (c <? 8))))).
Definition hw_call : transport unit := fun _ function operation a b c =>
  if negb (hw_admitted function operation a b c) then ret (- EINVAL, None, tt) else
  let! r := ask (Smc function [operation; a; b; c]) in
  ret (if negb (operation =? 2) || ((a =? 3) && (1 <? reg r 0)) then smc_status (reg r 0) else 0, Some (reg r 0), tt).

(** ** The program of twelve rows *)

Record tetris_modem_emi_rows_transaction := Rows_transaction { tx_attempted : Z; tx_slot : Z; tx_operation : Z; tx_reply : Z; tx_error : Z; tx_padding : list Z }.
Definition set_slot (tx : tetris_modem_emi_rows_transaction) (slot : Z) := Rows_transaction (tx_attempted tx) slot (tx_operation tx) (tx_reply tx) (tx_error tx) (tx_padding tx).
Definition set_operation (tx : tetris_modem_emi_rows_transaction) (op reply : Z) := Rows_transaction (tx_attempted tx) (tx_slot tx) op reply (tx_error tx) (tx_padding tx).
Definition set_padding (tx : tetris_modem_emi_rows_transaction) (words : list Z) := Rows_transaction (tx_attempted tx) (tx_slot tx) (tx_operation tx) (tx_reply tx) (tx_error tx) words.
Definition fail (tx : tetris_modem_emi_rows_transaction) (error : Z) : Z * tetris_modem_emi_rows_transaction :=
  let e := if tx_error tx =? 0 then (if error <? 0 then error else - EPROTO) else tx_error tx in
  (e, Rows_transaction (tx_attempted tx) (tx_slot tx) (tx_operation tx) (tx_reply tx) e (tx_padding tx)).
Definition row_roles : list Z := [0; 4; 5; 6; 1; 2; 3; 7; 0; 8; 10; 9].
Definition row_shape (i : Z) (r : tetris_modem_emi_row) : bool :=
  let w := reservation r in
  (row_slot r =? i + 32)
  && (if i =? 8 then (row_kind r =? TETRIS_MD_EMI_PRESET_RANGE) && (row_role r <=? 3) else (row_kind r =? TETRIS_MD_EMI_RANGE) && (row_role r =? nth (Z.to_nat i) row_roles 0))
  && negb (w_base w =? 0) && negb (w_capacity w =? 0) && (w_base w <=? UINT64_MAX - w_capacity w) && (w_base w <=? row_start r)
  && (row_start r - w_base w <? w_capacity w) && (row_size r <=? w_capacity w - (row_start r - w_base w)).
(** 0, or why the row is refused. *)
Definition row_refused (i : Z) (r : tetris_modem_emi_row) : Z :=
  if row_kind r =? TETRIS_MD_EMI_ABSENT then (if negb (row_start r =? 0) || negb (row_size r =? 0) then - EINVAL else 0) else
  if negb (row_shape i r) then - EINVAL else
  if negb (plan_emi (row_start r) (row_size r) (row_slot r) =? 0) then plan_emi (row_start r) (row_size r) (row_slot r) else
  let '(st, policy) := tetris_modem_emi_row_policy_b41 (row_slot r) (row_role r) in
  if negb (st =? 0) then st else if bool_decide (policy = row_policy r) then 0 else - EKEYREJECTED.
Fixpoint check_rows (i : Z) (rows : list tetris_modem_emi_row) (tx : tetris_modem_emi_rows_transaction) : Z * tetris_modem_emi_rows_transaction :=
  match rows with
  | [] => (0, tx)
  | r :: rows =>
    let tx := set_slot tx (i + 32) in
    if negb (row_refused i r =? 0) then fail tx (row_refused i r) else check_rows (i + 1) rows tx
  end.
(** The preset row is empty and grants nothing beyond its policy, then the preset is chosen. *)
Definition program_preset (ops : transport unit) (r : tetris_modem_emi_row) (tx : tetris_modem_emi_rows_transaction) : boot_io (Z * tetris_modem_emi_rows_transaction) :=
  let tx := set_operation tx 2 (tx_reply tx) in
  let! p := read_emi_slot ops tt 40 in
  let '(st, words, _) := p in
  let tx := set_padding tx words in
  if negb (st =? 0) then ret (fail tx st) else
  if negb (nth 0 words 0 =? 0) then ret (fail tx (- EBUSY)) else
  if existsb (fun j => negb (Z.ldiff (nth (j + 3) words 0) (nth j (row_policy r) 0) =? 0)) (seq 0 8) then ret (fail tx (- EKEYREJECTED)) else
  let! s := ops tt EMI_SMC 6 40 (row_role r) 0 in
  let '(st, stored, _) := s in
  let tx := set_operation tx 6 (default UINT64_MAX stored) in
  let st := if st =? 0 then smc_status (tx_reply tx) else st in
  if negb (st =? 0) then ret (fail tx st) else ret (0, tx).
Definition program_row (ops : transport unit) (r : tetris_modem_emi_row) (tx : tetris_modem_emi_rows_transaction) : boot_io (Z * tetris_modem_emi_rows_transaction) :=
  let tx := set_slot tx (row_slot r) in
  let! p := if row_kind r =? TETRIS_MD_EMI_PRESET_RANGE then program_preset ops r tx else ret (0, tx) in
  let tx := p.2 in
  if negb (p.1 =? 0) then ret p else
  let tx := set_operation tx 0 (tx_reply tx) in
  let! x := program_emi_range ops tt r in
  if negb (x.1 =? 0) then ret (fail tx x.1) else ret (0, tx).
Fixpoint program_rows (ops : transport unit) (rows : list tetris_modem_emi_row) (tx : tetris_modem_emi_rows_transaction) : boot_io (Z * tetris_modem_emi_rows_transaction) :=
  match rows with
  | [] => ret (0, tx)
  | r :: rows =>
    if row_kind r =? TETRIS_MD_EMI_ABSENT then program_rows ops rows tx else
    let! p := program_row ops r tx in
    if negb (p.1 =? 0) then ret p else program_rows ops rows p.2
  end.
Definition tetris_modem_emi_rows_program (ops : transport unit) (rows : list tetris_modem_emi_row) (tx : tetris_modem_emi_rows_transaction) : boot_io (Z * tetris_modem_emi_rows_transaction) :=
  if negb (tx_attempted tx =? 0) then ret (if tx_error tx =? 0 then - EALREADY else tx_error tx, tx) else
  let tx := Rows_transaction 1 (tx_slot tx) (tx_operation tx) (tx_reply tx) (tx_error tx) (tx_padding tx) in
  let '(st, tx) := check_rows 0 rows tx in
  if negb (st =? 0) then ret (st, tx) else
  match rows with
  | r :: _ => if negb (row_kind r =? TETRIS_MD_EMI_RANGE) then ret (fail tx (- EINVAL)) else program_rows ops rows tx
  | [] => ret (fail tx (- EINVAL))
  end.
End Emi.
