(* ===== verification/ModemBoot.v ===== *)
(** * The start of the modem by the boot loader

    [bootstrap-integration/tetris_modem_bootstrap.c]: one attempt that admits a
    plan, checks that the modem is off, programs protection and remapping
    through the secure monitor, raises clock, isolation, power and buses in
    order, releases the core and waits for its boot ROM; after a write of its own
    a failure takes everything down again. [tetris_modem_boot_secure.c]: the
    session of the secure calls. *)

From S2P Require Import Prelude Trace EmiRows.
Open Scope Z_scope.
Open Scope io_scope.

(** ** Registers *)

Definition MD_TOP : Z := 0x10000000.
Definition MD_POWER : Z := 0x1c001e00.
Definition MD_EXTISO : Z := 0x1c001f24.
Definition MD_IFR9_CLR : Z := 0x10001c58.
Definition MD_IFR9_SET : Z := 0x10001c54.
Definition MD_IFR9_STA : Z := 0x10001c5c.
Definition MD_IFR11_CLR : Z := 0x10001c48.
Definition MD_IFR11_SET : Z := 0x10001c44.
Definition MD_IFR11_STA : Z := 0x10001c4c.
Definition MD_NEMI_CLR : Z := 0x10270088.
Definition MD_NEMI_SET : Z := 0x10270084.
Definition MD_NEMI_STA : Z := 0x1027008c.
Definition MD_ON : Z := 4.
Definition MD_ACK : Z := 0xc0000000.
Definition MD_CLOCK : Z := 0x300.
Definition MD_POLL_US : Z := 10.
Definition MD_POLL_COUNT : Z := 10000.
Definition MD_BROM_COUNT : Z := 100.
Definition CCCI_SMC : Z := 0xc200040b.

(** ** State *)

Inductive tetris_modem_bootstrap_stage :=
| TETRIS_MD_BOOT_INPUT | TETRIS_MD_BOOT_PROFILE | TETRIS_MD_BOOT_COLD_OFF | TETRIS_MD_BOOT_EMI | TETRIS_MD_BOOT_REMAP | TETRIS_MD_BOOT_SMEM_REMAP
| TETRIS_MD_BOOT_REMAP_LOCK | TETRIS_MD_BOOT_CLOCK | TETRIS_MD_BOOT_ISOLATION | TETRIS_MD_BOOT_POWER | TETRIS_MD_BOOT_BUS_NEMI | TETRIS_MD_BOOT_BUS_IFR11
| TETRIS_MD_BOOT_BUS_IFR9 | TETRIS_MD_BOOT_RELEASE | TETRIS_MD_BOOT_BROM | TETRIS_MD_BOOT_COMPLETE.
Inductive tetris_modem_bootstrap_cleanup_stage :=
| TETRIS_MD_CLEANUP_NONE | TETRIS_MD_CLEANUP_IFR9 | TETRIS_MD_CLEANUP_IFR11 | TETRIS_MD_CLEANUP_NEMI | TETRIS_MD_CLEANUP_POWER | TETRIS_MD_CLEANUP_ISOLATION
| TETRIS_MD_CLEANUP_CLOCK | TETRIS_MD_CLEANUP_COMPLETE.
Record tetris_modem_bootstrap_cleanup := Cleanup { cl_stage : tetris_modem_bootstrap_cleanup_stage; cl_polls : Z; cl_value : Z; cl_address : Z; cl_error : Z }.
Record tetris_modem_bootstrap_report := Report {
  stage : tetris_modem_bootstrap_stage; slot : Z; polls : Z; address : Z; value : Z; reply : list Z; error : Z; cleanup : tetris_modem_bootstrap_cleanup;
  emi : tetris_modem_emi_rows_transaction; bank_index : Z; bank_call : Z; bank_reply : list (list Z) }.
(** The plan, and whether the attempt, a first write and the cleanup happened. *)
Record tetris_modem_emi_resources := Resources { firmware : tetris_modem_emi_window; nc : tetris_modem_emi_window; cache : tetris_modem_emi_window; sib : tetris_modem_emi_window; dram_base : Z; dram_size : Z }.
Record tetris_modem_bootstrap_plan := Plan { resources : tetris_modem_emi_resources; rows : list tetris_modem_emi_row; nc_capacity : Z; cache_capacity : Z; preloader_sha256 : list Z }.
Inductive tetris_modem_boot_secure_stage := TETRIS_MD_SECURE_PROFILE | TETRIS_MD_SECURE_OBSERVE | TETRIS_MD_SECURE_EMI | TETRIS_MD_SECURE_REMAP.
Record tetris_modem_boot_secure_report := Secure_report { sr_stage : tetris_modem_boot_secure_stage; sr_operation : Z; sr_slot : Z; sr_error : Z; sr_reply : list Z }.
Record tetris_modem_boot_secure := Secure { secure_report : tetris_modem_boot_secure_report; secure_attempted : Z; opened : Z }.
Record boot_state := Boot { report : tetris_modem_bootstrap_report; attempted : Z; mutated : Z; cleanup_attempted : Z; boot_session : tetris_modem_boot_secure }.

Definition with_report (b : boot_state) (r : tetris_modem_bootstrap_report) := Boot r (attempted b) (mutated b) (cleanup_attempted b) (boot_session b).
Definition at_stage (b : boot_state) (s : tetris_modem_bootstrap_stage) :=
  let r := report b in with_report b (Report s (slot r) (polls r) (address r) (value r) (reply r) (error r) (cleanup r) (emi r) (bank_index r) (bank_call r) (bank_reply r)).
Definition with_poll (b : boot_state) (n a v : Z) :=
  let r := report b in with_report b (Report (stage r) (slot r) n a v (reply r) (error r) (cleanup r) (emi r) (bank_index r) (bank_call r) (bank_reply r)).
Definition with_reply (b : boot_state) (words : list Z) :=
  let r := report b in with_report b (Report (stage r) (slot r) (polls r) (address r) (value r) words (error r) (cleanup r) (emi r) (bank_index r) (bank_call r) (bank_reply r)).
Definition with_error (b : boot_state) (e : Z) :=
  let r := report b in with_report b (Report (stage r) (slot r) (polls r) (address r) (value r) (reply r) e (cleanup r) (emi r) (bank_index r) (bank_call r) (bank_reply r)).
Definition with_cleanup (b : boot_state) (c : tetris_modem_bootstrap_cleanup) :=
  let r := report b in with_report b (Report (stage r) (slot r) (polls r) (address r) (value r) (reply r) (error r) c (emi r) (bank_index r) (bank_call r) (bank_reply r)).
Definition with_emi (b : boot_state) (s : Z) (tx : tetris_modem_emi_rows_transaction) :=
  let r := report b in with_report b (Report (stage r) s (polls r) (address r) (value r) (reply r) (error r) (cleanup r) tx (bank_index r) (bank_call r) (bank_reply r)).
Definition with_bank (b : boot_state) (index call : Z) (words : list Z) :=
  let r := report b in
  with_report b (Report (stage r) (slot r) (polls r) (address r) (value r) words (error r) (cleanup r) (emi r) index call (<[Z.to_nat call := words]> (bank_reply r))).
Definition with_session (b : boot_state) (s : tetris_modem_boot_secure) := Boot (report b) (attempted b) (mutated b) (cleanup_attempted b) s.

(** ** Taking down *)

Definition readl (a : Z) : boot_io Z := let! v := ask (Readl a) in ret (u32 (result v)).
Definition writel (v a : Z) : boot_io unit := let! _ := ask (Writel a (u32 v)) in ret tt.
Definition not32 (v : Z) : Z := Z.lxor v 0xffffffff.
(** The loop of both waits: whether the value came, the polls made and the last value. *)
Fixpoint poll (n : nat) (i : Z) (address mask expected : Z) : boot_io (bool * Z * Z) :=
  match n with
  | O => ret (false, i, 0)
  | S n =>
    let! v := readl address in
    if Z.land v mask =? expected then ret (true, i + 1, v) else
    if i + 1 <? MD_POLL_COUNT then let! _ := ask (Udelay MD_POLL_US) in poll n (i + 1) address mask expected else ret (false, i + 1, v)
  end.
Definition polling (address mask expected : Z) : boot_io (bool * Z * Z) := poll (Z.to_nat MD_POLL_COUNT) 0 address mask expected.
Definition cleanup_stage (b : boot_state) (s : tetris_modem_bootstrap_cleanup_stage) : boot_state :=
  let c := cleanup (report b) in with_cleanup b (Cleanup s (cl_polls c) (cl_value c) (cl_address c) (cl_error c)).
Definition md_cleanup_read (b : boot_state) (a : Z) : boot_io (Z * boot_state) :=
  let! v := readl a in
  let c := cleanup (report b) in ret (v, with_cleanup b (Cleanup (cl_stage c) (cl_polls c) v a (cl_error c))).
Definition md_cleanup_wait (b : boot_state) (a mask expected : Z) : boot_io (Z * boot_state) :=
  let! w := polling a mask expected in
  let '(ok, n, v) := w in
  let c := cleanup (report b) in
  let st := if ok then 0 else - ETIMEDOUT in
  ret (st, with_cleanup b (Cleanup (cl_stage c) n v a (if ok then cl_error c else - ETIMEDOUT))).
(** One step: its stage, the write (from the register itself or a constant), and the wait. *)
Definition cleanup_write (b : boot_state) (s : tetris_modem_bootstrap_cleanup_stage) (target v : Z) (status mask expected : Z) (next : boot_state -> boot_io boot_state) : boot_io boot_state :=
  let b := cleanup_stage b s in
  let! _ := writel v target in
  let! w := md_cleanup_wait b status mask expected in
  if negb (w.1 =? 0) then ret w.2 else next w.2.
Definition cleanup_modify (b : boot_state) (s : tetris_modem_bootstrap_cleanup_stage) (target : Z) (f : Z -> Z) (mask expected : Z) (next : boot_state -> boot_io boot_state) : boot_io boot_state :=
  let b := cleanup_stage b s in
  let! r := md_cleanup_read b target in
  let! _ := writel (f r.1) target in
  let! w := md_cleanup_wait r.2 target mask expected in
  if negb (w.1 =? 0) then ret w.2 else next w.2.
Definition md_boot_cleanup (b : boot_state) : boot_io boot_state :=
  let b := Boot (report b) (attempted b) (mutated b) 1 (boot_session b) in
  cleanup_write b TETRIS_MD_CLEANUP_IFR9 MD_IFR9_SET 0x200 MD_IFR9_STA 0x200 0x200 (fun b =>
  cleanup_write b TETRIS_MD_CLEANUP_IFR11 MD_IFR11_SET 0x800 MD_IFR11_STA 0x800 0x800 (fun b =>
  cleanup_write b TETRIS_MD_CLEANUP_NEMI MD_NEMI_SET 0xc0 MD_NEMI_STA 0xc0 0xc0 (fun b =>
  cleanup_modify b TETRIS_MD_CLEANUP_POWER MD_POWER (fun v => Z.land v (not32 MD_ON)) (Z.lor MD_ON MD_ACK) 0 (fun b =>
  cleanup_modify b TETRIS_MD_CLEANUP_ISOLATION MD_EXTISO (fun v => Z.lor v 3) 3 3 (fun b =>
  cleanup_modify b TETRIS_MD_CLEANUP_CLOCK MD_TOP (fun v => Z.lor v MD_CLOCK) MD_CLOCK MD_CLOCK (fun b =>
  ret (cleanup_stage b TETRIS_MD_CLEANUP_COMPLETE))))))).
Definition md_boot_fail (b : boot_state) (e : Z) : boot_io (Z * boot_state) :=
  let b := if error (report b) =? 0 then with_error b (if e <? 0 then e else - EPROTO) else b in
  let! b := if negb (mutated b =? 0) && (cleanup_attempted b =? 0) then md_boot_cleanup b else ret b in
  ret (error (report b), b).

(** ** Bringing up *)

Definition md_boot_read (b : boot_state) (a : Z) : boot_io (Z * boot_state) :=
  let! v := readl a in ret (v, with_poll b (polls (report b)) a v).
Definition md_boot_wait (b : boot_state) (a mask expected : Z) : boot_io (Z * boot_state) :=
  let! w := polling a mask expected in
  let '(ok, n, v) := w in
  let b := with_poll b n a v in
  if ok : bool then ret (0, b) else md_boot_fail b (- ETIMEDOUT).
Definition cold_off_rows : list (Z * Z * Z) :=
  [(MD_POWER, Z.lor MD_ON MD_ACK, 0); (MD_EXTISO, 3, 3); (MD_IFR9_STA, 0x200, 0x200); (MD_IFR11_STA, 0x800, 0x800); (MD_NEMI_STA, 0xc0, 0xc0)].
Fixpoint cold_off_loop (l : list (Z * Z * Z)) (b : boot_state) : boot_io (Z * boot_state) :=
  match l with
  | [] => ret (0, b)
  | (a, mask, expected) :: l =>
    let! r := md_boot_read b a in
    if negb (Z.land r.1 mask =? expected) then md_boot_fail r.2 (- EBUSY) else cold_off_loop l r.2
  end.
Definition md_boot_cold_off (b : boot_state) : boot_io (Z * boot_state) := cold_off_loop cold_off_rows b.

Section Boot.
Context {E : Emi}.
(** The window that row [i] has to be bound to. *)
Definition row_window (r : tetris_modem_emi_resources) (i : nat) : tetris_modem_emi_window :=
  if (i <? 7)%nat || (i =? 8)%nat then firmware r else if (i =? 7)%nat then sib r else if (i =? 10)%nat then nc r else cache r.
Definition row_bound (r : tetris_modem_emi_resources) (i : nat) (x : tetris_modem_emi_row) : bool :=
  (row_kind x =? 0) || ((w_base (reservation x) =? w_base (row_window r i)) && (w_capacity (reservation x) =? w_capacity (row_window r i))).
(** 0, or why the plan is refused. *)
Definition plan_refused (p : tetris_modem_bootstrap_plan) : Z :=
  let r := resources p in
  let st := (plan_emi_policy (preloader_sha256 p) 32).1 in
  let st := if st =? 0 then plan_remap (w_base (firmware r)) (w_capacity (firmware r)) (dram_base r) (dram_size r) else st in
  if negb (st =? 0) then st else
  if negb (forallb (fun x => row_bound r x.1 x.2) (imap pair (rows p))) then - ERANGE else
  if (w_capacity (nc r) <? 0x8000000) || (w_capacity (cache r) <? 0x8000000) || (0x8000000 <? nc_capacity p) || (0x8000000 <? cache_capacity p)
     || (0x800000000 - 0x10000000 <? w_base (nc r)) || (0x800000000 - 0x8000000 <? w_base (cache r)) then - ERANGE else 0.
Definition md_boot_plan (b : boot_state) (p : tetris_modem_bootstrap_plan) : boot_io (Z * boot_state) :=
  if negb (plan_refused p =? 0) then md_boot_fail b (plan_refused p) else ret (0, b).

(** The final view of bank 4: eight pages of the non-cached window, of which the cached one then takes the last four. *)
Definition bank_shift (index : Z) : Z := nth (Z.to_nat index) [20; 0; 10; 20; 0; 10; 20; 0] 0.
Definition bank_reg (index : Z) : nat := nth (Z.to_nat index) [0; 1; 1; 1; 2; 2; 2; 3]%nat 0%nat.
Definition bank_page (r : tetris_modem_emi_resources) (call : Z) : Z :=
  u64 ((if call <? 8 then w_base (nc r) else w_base (cache r)) + (if call <? 8 then call else call - 8) * 0x2000000).
Definition bank_of (call : Z) : Z := if call <? 8 then call else call - 4.
Definition bank_mask (index : Z) : Z := Z.shiftl 0x3ff (bank_shift index).
Definition bank_value (r : tetris_modem_emi_resources) (call : Z) : Z := Z.shiftl (Z.land (Z.shiftr (bank_page r call) 25) 0x3ff) (bank_shift (bank_of call)).
Definition replies (a : answer) : list Z := [reg a 0; reg a 1; reg a 2; reg a 3].
(** [known]: for each of the four registers, the bits that were written and their values. *)
Fixpoint smem_remap_loop (r : tetris_modem_emi_resources) (calls : list Z) (known : list (Z * Z)) (b : boot_state) : boot_io (Z * boot_state) :=
  match calls with
  | [] => ret (0, b)
  | call :: calls =>
    let index := bank_of call in
    let page := bank_page r call in
    let! a := ask (Smc CCCI_SMC [3; u32 page; u32 (Z.shiftr page 32); index]) in
    let b := with_bank b index call (replies a) in
    if negb (reg a 0 =? 0) then md_boot_fail b (smc_status (reg a 0)) else
    let old := nth (bank_reg index) known (0, 0) in
    let mask := bank_mask index in
    let now := (Z.lor old.1 mask, Z.lor (Z.ldiff old.2 mask) (bank_value r call)) in
    if (UINT32_MAX <? reg a 1) || negb (Z.land (reg a 1) now.1 =? now.2) then md_boot_fail b (- EIO) else
    smem_remap_loop r calls (<[bank_reg index := now]> known) b
  end.
Definition md_boot_smem_remap (r : tetris_modem_emi_resources) (b : boot_state) : boot_io (Z * boot_state) :=
  smem_remap_loop r (Z.of_nat <$> seq 0 12) (repeat (0, 0) 4) b.
Definition md_boot_ccci (b : boot_state) (request command : Z) : boot_io (Z * boot_state) :=
  let! a := ask (Smc CCCI_SMC [request; command]) in
  let b := with_reply b (replies a) in
  if reg a 0 =? 0 then ret (0, b) else md_boot_fail b (smc_status (reg a 0)).

(** ** The secure session *)

Definition set_secure (s : tetris_modem_boot_secure) (r : tetris_modem_boot_secure_report) := Secure r (secure_attempted s) (opened s).
Definition md_secure_latch (s : tetris_modem_boot_secure) (e : Z) : Z * tetris_modem_boot_secure :=
  let r := secure_report s in
  let e := if negb (e =? 0) && (sr_error r =? 0) then (if e <? 0 then e else - EPROTO) else sr_error r in
  (e, set_secure s (Secure_report (sr_stage r) (sr_operation r) (sr_slot r) e (sr_reply r))).
Definition tetris_modem_boot_secure_open (s : tetris_modem_boot_secure) : boot_io (Z * tetris_modem_boot_secure) :=
  let r := secure_report s in
  if negb (secure_attempted s =? 0) then ret (if sr_error r =? 0 then - EALREADY else sr_error r, s) else
  let s := Secure (Secure_report TETRIS_MD_SECURE_PROFILE (sr_operation r) (sr_slot r) (sr_error r) (sr_reply r)) 1 (opened s) in
  let! a := ask Atf_profile in
  if negb (result a =? 0) then ret (md_secure_latch s (result a)) else ret (0, Secure (secure_report s) 1 1).
Definition md_secure_capture (s : tetris_modem_boot_secure) (operation : Z) (a : answer) : tetris_modem_boot_secure :=
  let r := secure_report s in set_secure s (Secure_report (sr_stage r) operation (sr_slot r) (sr_error r) (replies a)).
Definition emi_admitted (function operation a b c : Z) : bool :=
  (function =? EMI_SMC) &&
  (((operation =? 0) && (32 <=? c) && (c <=? 43))
   || ((operation =? 2) && (32 <=? b) && (b <=? 43) && (((a <=? 1) && (c =? 0)) || ((a =? 3) && (c =? 0)) || ((a =? 4) && (c <? 8))))).
Definition md_secure_emi_call : transport tetris_modem_boot_secure := fun s function operation a b c =>
  if negb (emi_admitted function operation a b c) then ret (- EINVAL, None, s) else
  let! x := ask (Smc function [operation; a; b; c]) in
  let s := md_secure_capture s operation x in
  ret (if operation =? 0 then smc_status (reg x 0) else if (a =? 3) && (1 <? reg x 0) then smc_status (reg x 0) else 0, Some (reg x 0), s).
Definition remap_admitted (function operation : Z) : bool := (function =? CCCI_SMC) && ((operation =? 1) || (operation =? 2)).
Definition md_secure_remap_call : remap_transport tetris_modem_boot_secure := fun s function operation low high =>
  if negb (remap_admitted function operation) then ret (- EINVAL, [], s) else
  let! x := ask (Smc function [operation; low; high]) in
  ret (if operation =? 1 then smc_status (reg x 0) else 0, replies x, md_secure_capture s operation x).
(** The session argument is the one session. *)
Definition md_secure_session (s : tetris_modem_boot_secure) : Z := if opened s =? 0 then - EINVAL else sr_error (secure_report s).
Definition secure_at (s : tetris_modem_boot_secure) (st : tetris_modem_boot_secure_stage) (slot : Z) : tetris_modem_boot_secure :=
  let r := secure_report s in set_secure s (Secure_report st (sr_operation r) slot (sr_error r) (sr_reply r)).
Definition tetris_modem_boot_secure_observe (s : tetris_modem_boot_secure) (slot : Z) : boot_io (Z * option (list Z) * tetris_modem_boot_secure) :=
  let latched s e := let '(e, s) := md_secure_latch s e in (e, None, s) in
  if negb (md_secure_session s =? 0) then ret (md_secure_session s, None, s) else
  if (slot <? 32) || (43 <? slot) then ret (latched s (- EINVAL)) else
  let! x := read_emi_slot md_secure_emi_call (secure_at s TETRIS_MD_SECURE_OBSERVE slot) slot in
  let '(st, words, s) := x in
  ret (if negb (st =? 0) then latched s st else (0, Some words, s)).
Definition tetris_modem_boot_secure_range (s : tetris_modem_boot_secure) (r : tetris_modem_emi_row) : boot_io (Z * tetris_modem_boot_secure) :=
  if negb (md_secure_session s =? 0) then ret (md_secure_session s, s) else
  if (row_slot r <? 32) || (43 <? row_slot r) then ret (md_secure_latch s (- EINVAL)) else
  let! x := program_emi_range md_secure_emi_call (secure_at s TETRIS_MD_SECURE_EMI (row_slot r)) r in
  ret (if negb (x.1 =? 0) then md_secure_latch x.2 x.1 else (0, x.2)).
Definition tetris_modem_boot_secure_remap (s : tetris_modem_boot_secure) (base capacity dbase dsize : Z) : boot_io (Z * tetris_modem_boot_secure) :=
  if negb (md_secure_session s =? 0) then ret (md_secure_session s, s) else
  let! x := program_remap md_secure_remap_call (secure_at s TETRIS_MD_SECURE_REMAP 0) base capacity dbase dsize in
  ret (if negb (x.1 =? 0) then md_secure_latch x.2 x.1 else (0, x.2)).

(** ** The attempt *)

(** One step of the way up: its stage, the write and the wait. *)
Definition boot_modify (b : boot_state) (s : tetris_modem_bootstrap_stage) (target : Z) (f : Z -> Z) (mask expected : Z) (next : boot_state -> boot_io (Z * boot_state)) : boot_io (Z * boot_state) :=
  let b := at_stage b s in
  let! r := md_boot_read b target in
  let b := Boot (report r.2) (attempted r.2) 1 (cleanup_attempted r.2) (boot_session r.2) in
  let! _ := writel (f r.1) target in
  let! w := md_boot_wait b target mask expected in
  if negb (w.1 =? 0) then ret w else next w.2.
Definition boot_write (b : boot_state) (s : tetris_modem_bootstrap_stage) (target v status mask : Z) (next : boot_state -> boot_io (Z * boot_state)) : boot_io (Z * boot_state) :=
  let b := at_stage b s in
  let! _ := writel v target in
  let! w := md_boot_wait b status mask 0 in
  if negb (w.1 =? 0) then ret w else next w.2.
Definition ALL_ONE : Z := 0x100000001.
Fixpoint brom_loop (n : nat) (i : Z) (b : boot_state) : boot_io (Z * boot_state) :=
  match n with
  | O => md_boot_fail b (- ETIMEDOUT)
  | S n =>
    let b := with_poll b (i + 1) (address (report b)) (value (report b)) in
    let! c := md_boot_ccci b 6 7 in
    if negb (c.1 =? 0) then ret c else
    let b := c.2 in
    if (nth 2 (reply (report b)) 0 =? ALL_ONE) && (nth 3 (reply (report b)) 0 =? ALL_ONE) then ret (0, at_stage b TETRIS_MD_BOOT_COMPLETE) else
    if i + 1 <? MD_BROM_COUNT then let! _ := ask (Mdelay 20) in brom_loop n (i + 1) b else md_boot_fail b (- ETIMEDOUT)
  end.
(** The release of the core and the wait for its boot ROM. *)
Definition boot_release (b : boot_state) : boot_io (Z * boot_state) :=
  let! c := md_boot_ccci (at_stage b TETRIS_MD_BOOT_RELEASE) 6 1 in
  if negb (c.1 =? 0) then ret c else
  if negb (nth 3 (reply (report c.2)) 0 =? 1) then md_boot_fail c.2 (- EIO) else
  brom_loop (Z.to_nat MD_BROM_COUNT) 0 (at_stage c.2 TETRIS_MD_BOOT_BROM).
Definition boot_power (b : boot_state) : boot_io (Z * boot_state) :=
  boot_modify b TETRIS_MD_BOOT_CLOCK MD_TOP (fun v => Z.land v (not32 MD_CLOCK)) MD_CLOCK 0 (fun b =>
  boot_modify b TETRIS_MD_BOOT_ISOLATION MD_EXTISO (fun v => Z.land v (not32 3)) 3 0 (fun b =>
  boot_modify b TETRIS_MD_BOOT_POWER MD_POWER (fun v => Z.lor v MD_ON) (Z.lor MD_ON MD_ACK) (Z.lor MD_ON MD_ACK) (fun b =>
  boot_write b TETRIS_MD_BOOT_BUS_NEMI MD_NEMI_CLR 0xc0 MD_NEMI_STA 0xc0 (fun b =>
  boot_write b TETRIS_MD_BOOT_BUS_IFR11 MD_IFR11_CLR 0x800 MD_IFR11_STA 0x800 (fun b =>
  boot_write b TETRIS_MD_BOOT_BUS_IFR9 MD_IFR9_CLR 0x200 MD_IFR9_STA 0x200 boot_release))))).
(** Protection and remapping, before any register of the modem is written. *)
Definition boot_secure_part (b : boot_state) (p : tetris_modem_bootstrap_plan) : boot_io (Z * boot_state) :=
  let r := resources p in
  let! e := tetris_modem_emi_rows_program hw_call (rows p) (emi (report b)) in
  let b := with_emi b (tx_slot e.2) e.2 in
  if negb (e.1 =? 0) then md_boot_fail b e.1 else
  let b := with_emi (at_stage b TETRIS_MD_BOOT_REMAP) 0 e.2 in
  let! m := tetris_modem_boot_secure_remap (boot_session b) (w_base (firmware r)) (w_capacity (firmware r)) (dram_base r) (dram_size r) in
  let b := with_session b m.2 in
  if negb (m.1 =? 0) then md_boot_fail (with_reply b (sr_reply (secure_report m.2))) m.1 else
  let! s := md_boot_smem_remap r (at_stage b TETRIS_MD_BOOT_SMEM_REMAP) in
  if negb (s.1 =? 0) then ret s else md_boot_ccci (at_stage s.2 TETRIS_MD_BOOT_REMAP_LOCK) 8 0.
(** [el] is the exception level; [dev] and [plan] as the caller gave them. *)
Definition tetris_modem_bootstrap_once (b : boot_state) (el : Z) (dev : bool) (plan : option tetris_modem_bootstrap_plan) : boot_io (Z * boot_state) :=
  if negb (attempted b =? 0) then ret (if error (report b) =? 0 then - EALREADY else error (report b), b) else
  let b := at_stage (Boot (report b) 1 (mutated b) (cleanup_attempted b) (boot_session b)) TETRIS_MD_BOOT_INPUT in
  match plan with
  | None => md_boot_fail b (- EINVAL)
  | Some p =>
    if negb dev then md_boot_fail b (- EINVAL) else
    if negb (el =? 1) && negb (el =? 2) then md_boot_fail b (- EPERM) else
    let! x := md_boot_plan b p in
    if negb (x.1 =? 0) then ret x else
    let b := at_stage x.2 TETRIS_MD_BOOT_PROFILE in
    let! o := tetris_modem_boot_secure_open (boot_session b) in
    let b := with_session b o.2 in
    if negb (o.1 =? 0) then md_boot_fail b o.1 else
    let! c := md_boot_cold_off (at_stage b TETRIS_MD_BOOT_COLD_OFF) in
    if negb (c.1 =? 0) then ret c else
    let! s := boot_secure_part (at_stage c.2 TETRIS_MD_BOOT_EMI) p in
    if negb (s.1 =? 0) then ret s else boot_power s.2
  end.
Definition bootstrap_report (b : boot_state) : option tetris_modem_bootstrap_report :=
  if attempted b =? 0 then None else Some (report b).
End Boot.

(** ** The order of the writes *)

(** A step writes a constant, or the register with some bits changed, and then
    waits until masked bits of a status register have a value. *)
Inductive write_value := Constant (v : Z) | Modified (f : Z -> Z).
Record power_step := Step { target : Z; written : write_value; status_at : Z; status_mask : Z; status_value : Z }.
Definition up_script : list power_step :=
  [Step MD_TOP (Modified (fun v => Z.land v (not32 MD_CLOCK))) MD_TOP MD_CLOCK 0;
   Step MD_EXTISO (Modified (fun v => Z.land v (not32 3))) MD_EXTISO 3 0;
   Step MD_POWER (Modified (fun v => Z.lor v MD_ON)) MD_POWER (Z.lor MD_ON MD_ACK) (Z.lor MD_ON MD_ACK);
   Step MD_NEMI_CLR (Constant 0xc0) MD_NEMI_STA 0xc0 0;
   Step MD_IFR11_CLR (Constant 0x800) MD_IFR11_STA 0x800 0;
   Step MD_IFR9_CLR (Constant 0x200) MD_IFR9_STA 0x200 0].
Definition down_script : list power_step :=
  [Step MD_IFR9_SET (Constant 0x200) MD_IFR9_STA 0x200 0x200;
   Step MD_IFR11_SET (Constant 0x800) MD_IFR11_STA 0x800 0x800;
   Step MD_NEMI_SET (Constant 0xc0) MD_NEMI_STA 0xc0 0xc0;
   Step MD_POWER (Modified (fun v => Z.land v (not32 MD_ON))) MD_POWER (Z.lor MD_ON MD_ACK) 0;
   Step MD_EXTISO (Modified (fun v => Z.lor v 3)) MD_EXTISO 3 3;
   Step MD_TOP (Modified (fun v => Z.lor v MD_CLOCK)) MD_TOP MD_CLOCK MD_CLOCK].
(** Reads of one register until the value comes, at most 10000 of them. *)
Inductive polled (a mask expected : Z) : nat -> boot_trace -> bool -> Prop :=
| polled_hit v : Z.land (u32 (result v)) mask = expected -> polled a mask expected 1 [(Readl a, v)] true
| polled_last v : Z.land (u32 (result v)) mask <> expected -> polled a mask expected 1 [(Readl a, v)] false
| polled_miss v d n s ok : Z.land (u32 (result v)) mask <> expected -> polled a mask expected n s ok -> polled a mask expected (S n) ((Readl a, v) :: (Udelay MD_POLL_US, d) :: s) ok.
Definition awaited (st : power_step) (s : boot_trace) (ok : bool) : Prop :=
  exists n, polled (status_at st) (status_mask st) (status_value st) n s ok /\ Z.of_nat n <= MD_POLL_COUNT /\ (ok = false -> Z.of_nat n = MD_POLL_COUNT).
Inductive stepped (st : power_step) : boot_trace -> bool -> Prop :=
| stepped_constant v w s ok : written st = Constant v -> awaited st s ok -> stepped st ((Writel (target st) (u32 v), w) :: s) ok
| stepped_modified f r w s ok : written st = Modified f -> awaited st s ok ->
    stepped st ((Readl (target st), r) :: (Writel (target st) (u32 (f (u32 (result r)))), w) :: s) ok.
(** The steps of a script in order, up to its end or to the first whose wait runs out. *)
Inductive follows : list power_step -> boot_trace -> bool -> Prop :=
| follows_end : follows [] [] true
| follows_step st l s1 s2 ok : stepped st s1 true -> follows l s2 ok -> follows (st :: l) (s1 ++ s2) ok
| follows_stuck st l s : stepped st s false -> follows (st :: l) s false.

Lemma performs_readl {B} a (k : Z -> boot_io B) R : (forall v, performs (k (u32 (result v))) (fun b s => R b ((Readl a, v) :: s))) -> performs (let! v := readl a in k v) R.
Proof. intros H env t. unfold readl, bind, ask, ret. destruct (H (env t (Readl a)) env (t ++ [(Readl a, env t (Readl a))])) as (b & s & E & Hb). exists b, ((Readl a, env t (Readl a)) :: s). rewrite E, <- app_assoc. now split. Qed.
Lemma performs_writel {B} a v (k : boot_io B) R : (forall w, performs k (fun b s => R b ((Writel a (u32 v), w) :: s))) -> performs (let! _ := writel v a in k) R.
Proof.
  intros H env t. unfold writel, bind, ask, ret. set (q := Writel a (u32 v)). destruct (H (env t q) env (t ++ [(q, env t q)])) as (b & s & E & Hb). exists b, ((q, env t q) :: s). rewrite E, <- app_assoc. now split.
Qed.
(** A read whose value is kept. *)
Lemma performs_read_kept {A B} a (h : Z -> A) (k : A -> boot_io B) R :
  (forall v, performs (k (h (u32 (result v)))) (fun b s => R b ((Readl a, v) :: s))) -> performs (let! r := (let! v := readl a in ret (h v)) in k r) R.
Proof.
  intros H. eapply (performs_bind _ _ (fun r s => exists v, s = [(Readl a, v)] /\ r = h (u32 (result v)))); [apply performs_readl; intros v; trace_step; now exists v|].
  intros r s (v & -> & ->). apply H.
Qed.
Lemma poll_polled n : forall i a mask expected, i + Z.of_nat (S n) = MD_POLL_COUNT ->
  performs (poll (S n) i a mask expected) (fun r s => exists k, polled a mask expected k s r.1.1 /\ (k <= S n)%nat /\ (r.1.1 = false -> k = S n)).
Proof.
  induction n as [|n IH]; intros i a mask expected Hn; cbn [poll]; apply performs_readl; intros v; destruct (Z.eqb_spec (Z.land (u32 (result v)) mask) expected) as [Hv|Hv];
    try (trace_step; exists 1%nat; split; [now apply polled_hit|split; [lia|discriminate]]).
  - rewrite (proj2 (Z.ltb_ge _ _)) by lia. trace_step. exists 1%nat. split; [now apply polled_last|]. now split.
  - rewrite (proj2 (Z.ltb_lt _ _)) by lia. trace_step. eapply performs_impl; [apply IH; lia|]. intros r s (k & Hk & L & F). exists (S k). split; [now apply polled_miss|]. split; [lia|]. intros H. now rewrite (F H).
Qed.
Lemma performs_polling st : performs (polling (status_at st) (status_mask st) (status_value st)) (fun r s => awaited st s r.1.1).
Proof. unfold polling. replace (Z.to_nat MD_POLL_COUNT) with (S (Z.to_nat (MD_POLL_COUNT - 1))) by reflexivity. eapply performs_impl; [apply poll_polled; reflexivity|]. intros r s (k & H & L & F). exists k. unfold MD_POLL_COUNT in *. split; [exact H|]. split; [lia|]. intros O. specialize (F O). lia. Qed.

(** ** Taking down *)

Definition off_when (ok : bool) (b : boot_state) : Prop := cl_stage (cleanup (report b)) = TETRIS_MD_CLEANUP_COMPLETE <-> ok = true.
(** What a failure after a first write leaves: the script down, as far as it went. *)
Definition downed (r : Z * boot_state) (s : boot_trace) : Prop := r.1 <> 0 /\ exists ok, follows down_script s ok /\ off_when ok r.2.
Definition kept (b b' : boot_state) : Prop := error (report b') = error (report b) /\ mutated b' = mutated b /\ cleanup_attempted b' = cleanup_attempted b.
Definition falls (l : list power_step) (b b' : boot_state) (s : boot_trace) : Prop := kept b b' /\ exists ok, follows l s ok /\ off_when ok b'.
Lemma performs_cleanup_wait b st : performs (md_cleanup_wait b (status_at st) (status_mask st) (status_value st)) (fun r s =>
  awaited st s (r.1 =? 0) /\ kept b r.2 /\ cl_stage (cleanup (report r.2)) = cl_stage (cleanup (report b))).
Proof.
  unfold md_cleanup_wait. eapply performs_bind; [apply performs_polling|]. intros [[ok n] v] s Hs. cbn [fst] in Hs. trace_step. rewrite app_nil_r. cbn [fst snd].
  destruct ok; (split; [exact Hs|now split]).
Qed.
(** After the wait: the next steps, or the end of the script here. *)
Lemma cleanup_after b b1 st l s0 (next : boot_state -> boot_io boot_state) : kept b b1 -> cl_stage (cleanup (report b1)) <> TETRIS_MD_CLEANUP_COMPLETE ->
  (forall ok s, awaited st s ok -> stepped st (s0 ++ s) ok) -> (forall b, performs (next b) (falls l b)) ->
  performs (let! w := md_cleanup_wait b1 (status_at st) (status_mask st) (status_value st) in if negb (w.1 =? 0) then ret w.2 else next w.2) (fun b' s => falls (st :: l) b b' (s0 ++ s)).
Proof.
  intros (K1 & K2 & K3) Hc Hst Hn. eapply performs_bind; [apply performs_cleanup_wait|]. intros w s (Ha & (W1 & W2 & W3) & Hcs). specialize (Hst _ _ Ha). destruct (w.1 =? 0); cbn [negb].
  - eapply performs_impl; [apply Hn|]. intros b' s' ((N1 & N2 & N3) & ok & F & O). split; [repeat split; congruence|]. exists ok. split; [rewrite app_assoc; now apply follows_step|exact O].
  - trace_step. rewrite app_nil_r. split; [repeat split; congruence|]. exists false. split; [now apply follows_stuck|]. split; [congruence|discriminate].
Qed.
Lemma cleanup_write_falls b s tg v sa mask expected next l : s <> TETRIS_MD_CLEANUP_COMPLETE -> (forall b, performs (next b) (falls l b)) ->
  performs (cleanup_write b s tg v sa mask expected next) (falls (Step tg (Constant v) sa mask expected :: l) b).
Proof.
  intros Hs Hn. unfold cleanup_write. cbn zeta. apply performs_writel. intros w.
  apply (cleanup_after b (cleanup_stage b s) (Step tg (Constant v) sa mask expected) l [_] next); [now repeat split|exact Hs| |exact Hn]. intros ok s' Ha. now apply stepped_constant.
Qed.
Lemma cleanup_modify_falls b s tg f mask expected next l : s <> TETRIS_MD_CLEANUP_COMPLETE -> (forall b, performs (next b) (falls l b)) ->
  performs (cleanup_modify b s tg f mask expected next) (falls (Step tg (Modified f) tg mask expected :: l) b).
Proof.
  intros Hs Hn. unfold cleanup_modify, md_cleanup_read. cbn zeta. apply performs_read_kept. intros v. cbn [fst snd]. apply performs_writel. intros w.
  eapply (cleanup_after b _ (Step tg (Modified f) tg mask expected) l [_; _] next); [now repeat split|exact Hs| |exact Hn]. intros ok s' Ha. now apply stepped_modified.
Qed.
Lemma performs_cleanup b : performs (md_boot_cleanup b) (fun b' s => error (report b') = error (report b) /\ exists ok, follows down_script s ok /\ off_when ok b').
Proof.
  unfold md_boot_cleanup. eapply (performs_impl _ (falls down_script (Boot (report b) (attempted b) (mutated b) 1 (boot_session b)))); [|intros b' s [(K & _) H]; split; [exact K|exact H]].
  unfold down_script. repeat (first [apply cleanup_write_falls | apply cleanup_modify_falls]; [discriminate|]; intros ?). trace_step. split; [now repeat split|]. exists true. now split; [constructor|].
Qed.
Lemma performs_fail_mutated b e : mutated b <> 0 -> cleanup_attempted b = 0 -> performs (md_boot_fail b e) downed.
Proof.
  intros Hm Hc. unfold md_boot_fail. cbn zeta. set (b1 := if error (report b) =? 0 then _ else b).
  assert (H1 : error (report b1) <> 0 /\ mutated b1 = mutated b /\ cleanup_attempted b1 = cleanup_attempted b).
  { unfold b1. destruct (Z.eqb_spec (error (report b)) 0); [|now repeat split]. split; [|now split]. cbn. destruct (Z.ltb_spec e 0); [lia|discriminate]. }
  destruct H1 as (E1 & -> & ->). rewrite Hc, (proj2 (Z.eqb_neq _ _) Hm). cbn [negb andb Z.eqb]. change (0 =? 0) with true. cbn iota.
  eapply performs_bind; [apply performs_cleanup|]. intros b' s [K H]. trace_step. rewrite app_nil_r. split; [cbn; congruence|exact H].
Qed.
Lemma performs_fail_clean b e : mutated b = 0 -> performs (md_boot_fail b e) (fun r s => s = [] /\ r.1 <> 0).
Proof.
  intros Hm. unfold md_boot_fail. cbn zeta. set (b1 := if error (report b) =? 0 then _ else b). assert (H1 : error (report b1) <> 0 /\ mutated b1 = 0).
  { unfold b1. destruct (Z.eqb_spec (error (report b)) 0); [|now split]. split; [|exact Hm]. cbn. destruct (Z.ltb_spec e 0); [lia|discriminate]. }
  destruct H1 as [E1 ->]. cbn [negb andb Z.eqb]. change (negb (0 =? 0)) with false. cbn [andb]. intros env t. exists (error (report b1), b1), []. rewrite app_nil_r. now split.
Qed.

(** ** Bringing up *)

Definition writes (e : call * answer) : bool := match e.1 with Writel _ _ => true | _ => false end.
Definition silent (s : boot_trace) : Prop := Forall (fun e => writes e = false) s.
Definition good (b : boot_state) : Prop := mutated b <> 0 /\ cleanup_attempted b = 0.
(** The replies that the core was released and that all four flags of its boot ROM are one. *)
Definition release_seen (s : boot_trace) : Prop :=
  (exists a, In (Smc CCCI_SMC [6; 1], a) s /\ reg a 0 = 0 /\ reg a 3 = 1) /\ (exists a, In (Smc CCCI_SMC [6; 7], a) s /\ reg a 0 = 0 /\ reg a 2 = ALL_ONE /\ reg a 3 = ALL_ONE).
Definition released (r : Z * boot_state) (s : boot_trace) : Prop := exists mid down, s = mid ++ down /\ silent mid /\
  (r.1 = 0 /\ down = [] /\ stage (report r.2) = TETRIS_MD_BOOT_COMPLETE /\ release_seen mid \/ downed r down).
(** The script up to its end and then the release, or up to a wait that ran out and then the script down. *)
Definition rises (l : list power_step) (r : Z * boot_state) (s : boot_trace) : Prop :=
  (exists up tail, s = up ++ tail /\ follows l up true /\ released r tail) \/ (exists up down, s = up ++ down /\ follows l up false /\ downed r down).
Lemma performs_boot_wait b st : good b -> performs (md_boot_wait b (status_at st) (status_mask st) (status_value st)) (fun r s =>
  r.1 = 0 /\ good r.2 /\ awaited st s true \/ exists s1 s2, s = s1 ++ s2 /\ awaited st s1 false /\ downed r s2).
Proof.
  intros [G1 G2]. unfold md_boot_wait. eapply performs_bind; [apply performs_polling|]. intros [[ok n] v] s Hs. cbn [fst] in Hs. destruct ok.
  - trace_step. rewrite app_nil_r. left. now repeat split.
  - eapply performs_impl; [now apply performs_fail_mutated|]. intros r s' H. right. now exists s, s'.
Qed.
Lemma boot_after b st l s0 (next : boot_state -> boot_io (Z * boot_state)) : good b -> (forall ok s, awaited st s ok -> stepped st (s0 ++ s) ok) -> (forall b, good b -> performs (next b) (rises l)) ->
  performs (let! w := md_boot_wait b (status_at st) (status_mask st) (status_value st) in if negb (w.1 =? 0) then ret w else next w.2) (fun r s => rises (st :: l) r (s0 ++ s)).
Proof.
  intros Hb Hst Hn. eapply performs_bind; [now apply performs_boot_wait|]. intros w s [(E & G & Ha)|(s1 & s2 & -> & Ha & D)].
  - rewrite E. cbn [negb Z.eqb]. change (0 =? 0) with true. cbn [negb]. eapply performs_impl; [now apply Hn|]. intros r s' [(up & tail & -> & F & T)|(up & down & -> & F & D)].
    + left. exists ((s0 ++ s) ++ up), tail. split; [now rewrite <- !app_assoc|]. split; [apply follows_step; [now apply Hst|exact F]|exact T].
    + right. exists ((s0 ++ s) ++ up), down. split; [now rewrite <- !app_assoc|]. split; [apply follows_step; [now apply Hst|exact F]|exact D].
  - pose proof D as [N _]. rewrite (proj2 (Z.eqb_neq _ _) N). cbn [negb]. trace_step. rewrite app_nil_r. right. exists (s0 ++ s1), s2. split; [now rewrite app_assoc|]. split; [apply follows_stuck; now apply Hst|exact D].
Qed.
Lemma boot_modify_rises b s tg f mask expected next l : cleanup_attempted b = 0 -> (forall b, good b -> performs (next b) (rises l)) ->
  performs (boot_modify b s tg f mask expected next) (rises (Step tg (Modified f) tg mask expected :: l)).
Proof.
  intros Hc Hn. unfold boot_modify, md_boot_read. cbn zeta. apply performs_read_kept. intros v. cbn [fst snd]. apply performs_writel. intros w.
  eapply (boot_after _ (Step tg (Modified f) tg mask expected) l [_; _] next); [split; [discriminate|exact Hc]| |exact Hn]. intros ok s' Ha. now apply stepped_modified.
Qed.
Lemma boot_write_rises b s tg v sa mask next l : good b -> (forall b, good b -> performs (next b) (rises l)) ->
  performs (boot_write b s tg v sa mask next) (rises (Step tg (Constant v) sa mask 0 :: l)).
Proof.
  intros Hb Hn. unfold boot_write. cbn zeta. apply performs_writel. intros w.
  eapply (boot_after (at_stage b s) (Step tg (Constant v) sa mask 0) l [_] next); [exact Hb| |exact Hn]. intros ok s' Ha. now apply stepped_constant.
Qed.

Lemma performs_ccci b request command : good b -> performs (md_boot_ccci b request command) (fun r s => exists a down, s = (Smc CCCI_SMC [request; command], a) :: down /\
  (r.1 = 0 /\ down = [] /\ good r.2 /\ reg a 0 = 0 /\ reply (report r.2) = replies a \/ downed r down)).
Proof.
  intros [G1 G2]. unfold md_boot_ccci. trace_step. cbn zeta. destruct (Z.eqb_spec (reg p 0) 0) as [H|H].
  - trace_step. exists p, []. split; [reflexivity|]. left. now repeat split.
  - eapply performs_impl; [now apply performs_fail_mutated|]. intros r s D. exists p, s. split; [reflexivity|now right].
Qed.
(** What the boot ROM loop ends with. *)
Definition rom_seen (s : boot_trace) : Prop := exists a, In (Smc CCCI_SMC [6; 7], a) s /\ reg a 0 = 0 /\ reg a 2 = ALL_ONE /\ reg a 3 = ALL_ONE.
Definition rom_ends (r : Z * boot_state) (s : boot_trace) : Prop := exists mid down, s = mid ++ down /\ silent mid /\
  (r.1 = 0 /\ down = [] /\ stage (report r.2) = TETRIS_MD_BOOT_COMPLETE /\ rom_seen mid \/ downed r down).
Lemma rom_ends_cons e r s : writes e = false -> rom_ends r s -> rom_ends r (e :: s).
Proof.
  intros He (mid & down & -> & Hm & H). exists (e :: mid), down. split; [reflexivity|]. split; [now constructor|]. destruct H as [(H1 & H2 & H3 & a & H4 & H5)|H]; [left|now right].
  do 3 (split; [assumption|]). exists a. split; [now right|exact H5].
Qed.
Lemma rom_ends_down r s : downed r s -> rom_ends r s.
Proof. intros D. exists [], s. split; [reflexivity|]. split; [constructor|now right]. Qed.
Lemma performs_brom n : forall i b, good b -> performs (brom_loop n i b) rom_ends.
Proof.
  induction n as [|n IH]; intros i b [G1 G2]; cbn [brom_loop]; [eapply performs_impl; [now apply performs_fail_mutated|]; intros; now apply rom_ends_down|]. cbn zeta.
  eapply performs_bind; [now apply performs_ccci|]. intros c s (a & down & -> & [(E & -> & [C1 C2] & Z & R)|D]).
  - rewrite E. change (negb (0 =? 0)) with false. cbn iota. rewrite R. change (nth 2 (replies a) 0) with (reg a 2). change (nth 3 (replies a) 0) with (reg a 3). destruct (_ && _) eqn:O.
    + trace_step. exists [(Smc CCCI_SMC [6; 7], a)], []. split; [reflexivity|]. split; [repeat constructor|]. left. split; [reflexivity|]. split; [reflexivity|]. split; [reflexivity|]. exists a. split; [now left|]. split; [exact Z|lia].
    + destruct (i + 1 <? MD_BROM_COUNT).
      * trace_step. eapply performs_impl; [now apply IH|]. intros r s H. now do 2 (apply rom_ends_cons; [reflexivity|]).
      * eapply performs_impl; [now apply performs_fail_mutated|]. intros r s H. apply rom_ends_cons; [reflexivity|now apply rom_ends_down].
  - pose proof D as [N _]. rewrite (proj2 (Z.eqb_neq _ _) N). cbn [negb]. trace_step. rewrite app_nil_r. apply rom_ends_cons; [reflexivity|now apply rom_ends_down].
Qed.
Lemma performs_boot_release b : good b -> performs (boot_release b) (rises []).
Proof.
  intros Hb. assert (L : forall r s, released r s -> rises [] r s) by (intros r s H; left; exists [], s; split; [reflexivity|split; [constructor|exact H]]).
  assert (Ld : forall r e s, writes e = false -> downed r s -> released r (e :: s)) by (intros r e s He D; exists [e], s; split; [reflexivity|split; [now repeat constructor|now right]]).
  unfold boot_release. eapply performs_bind; [now apply (performs_ccci (at_stage b TETRIS_MD_BOOT_RELEASE))|]. intros c s (a & down & -> & [(E & -> & [C1 C2] & Z & R)|D]).
  - rewrite E. change (negb (0 =? 0)) with false. cbn iota. rewrite R. change (nth 3 (replies a) 0) with (reg a 3). destruct (Z.eqb_spec (reg a 3) 1) as [H3|H3]; cbn [negb].
    + eapply performs_impl; [now apply performs_brom|]. intros r s (mid & down & -> & Hm & H). apply L. exists ((Smc CCCI_SMC [6; 1], a) :: mid), down. split; [reflexivity|]. split; [now constructor|].
      destruct H as [(H1 & H2 & H4 & x & H5 & H6)|H]; [left|now right]. do 3 (split; [assumption|]). split; [exists a; split; [now left|now split]|exists x; split; [now right|exact H6]].
    + eapply performs_impl; [now apply performs_fail_mutated|]. intros r s D. apply L. now apply Ld.
  - pose proof D as [N _]. rewrite (proj2 (Z.eqb_neq _ _) N). cbn [negb]. trace_step. rewrite app_nil_r. apply L. now apply Ld.
Qed.
Lemma performs_power b : cleanup_attempted b = 0 -> performs (boot_power b) (rises up_script).
Proof.
  intros Hc. unfold boot_power, up_script. apply boot_modify_rises; [exact Hc|]. intros b1 [_ H1]. apply boot_modify_rises; [exact H1|]. intros b2 [_ H2]. apply boot_modify_rises; [exact H2|].
  intros b3 H3. apply boot_write_rises; [exact H3|]. intros b4 H4. apply boot_write_rises; [exact H4|]. intros b5 H5. apply boot_write_rises; [exact H5|]. exact performs_boot_release.
Qed.

(** ** Before the first write *)

Definition untouched (b b' : boot_state) : Prop := mutated b' = mutated b /\ cleanup_attempted b' = cleanup_attempted b.
(** A part that writes nothing: it fails, or it keeps the two marks and leaves [K] in the trace. *)
Definition quietly (K : boot_trace -> Prop) (b : boot_state) (r : Z * boot_state) (s : boot_trace) : Prop := silent s /\ (r.1 = 0 -> untouched b r.2 /\ K s).
Lemma quietly_fail K b b0 e : mutated b = 0 -> performs (md_boot_fail b e) (quietly K b0).
Proof. intros H. eapply performs_impl; [now apply performs_fail_clean|]. intros r s [-> N]. split; [constructor|contradiction]. Qed.
Definition off_seen (l : list (Z * Z * Z)) (s : boot_trace) : Prop := Forall (fun x => exists v, In (Readl x.1.1, v) s /\ Z.land (u32 (result v)) x.1.2 = x.2) l.
Lemma off_seen_cons e l s : off_seen l s -> off_seen l (e :: s).
Proof. intros H. eapply Forall_impl; [exact H|]. intros x (v & Hv & E). exists v. split; [now right|exact E]. Qed.
Lemma off_seen_app l s1 s2 : off_seen l s1 \/ off_seen l s2 -> off_seen l (s1 ++ s2).
Proof. intros [H|H]; (eapply Forall_impl; [exact H|]; intros x (v & Hv & E); exists v; split; [apply in_or_app; auto|exact E]). Qed.
Lemma quietly_cold_off l : forall b, mutated b = 0 -> performs (cold_off_loop l b) (quietly (off_seen l) b).
Proof.
  induction l as [|[[a mask] expected] l IH]; intros b Hb; cbn [cold_off_loop]; [trace_step; split; [constructor|]; intros _; split; [now split|constructor]|].
  unfold md_boot_read. apply performs_read_kept. intros v. cbn [fst snd]. destruct (Z.eqb_spec (Z.land (u32 (result v)) mask) expected) as [E|E]; cbn [negb].
  - eapply performs_impl; [now apply IH|]. intros r s [S H]. split; [now constructor|]. intros O. destruct (H O) as [U F]. split; [exact U|]. constructor; [exists v; split; [now left|exact E]|now apply off_seen_cons].
  - eapply performs_impl; [now apply (quietly_fail (off_seen ((a, mask, expected) :: l)) _ b)|]. intros r s [S H]. split; [now constructor|]. intros O. destruct (H O) as [U F]. split; [exact U|now apply off_seen_cons].
Qed.
Lemma quietly_smem_remap r calls : forall known b, mutated b = 0 -> performs (smem_remap_loop r calls known b) (quietly (fun _ => True) b).
Proof.
  induction calls as [|call calls IH]; intros known b Hb; cbn [smem_remap_loop]; [trace_step; split; [constructor|now repeat split]|]. cbn zeta. trace_step.
  assert (C : forall (m : boot_io (Z * boot_state)) b1, untouched b b1 -> performs m (quietly (fun _ => True) b1) -> performs m (fun x s => quietly (fun _ => True) b x ((Smc CCCI_SMC [3; u32 (bank_page r call); u32 (Z.shiftr (bank_page r call) 32); bank_of call], p) :: s))).
  { intros m b1 [U1 U2] H. eapply performs_impl; [exact H|]. intros x s [S K]. split; [now constructor|]. intros O. destruct (K O) as [[V1 V2] _]. repeat split; congruence. }
  set (b1 := with_bank b (bank_of call) call (replies p)). destruct (negb (reg p 0 =? 0)); [apply (C _ b1); [now split|now apply quietly_fail]|].
  destruct (_ || _); [apply (C _ b1); [now split|now apply quietly_fail]|]. apply (C _ b1); [now split|now apply IH].
Qed.

Section Before.
Context {E : Emi} {L : EmiLaws E}.
Lemma silent_hw c a b d e g : performs (hw_call c a b d e g) (fun _ s => silent s).
Proof. unfold hw_call. trace_step; [trace_step; constructor|]. trace_step. trace_step. now repeat constructor. Qed.
Lemma silent_remap_call c a b d e : performs (md_secure_remap_call c a b d e) (fun _ s => silent s).
Proof. unfold md_secure_remap_call. trace_step; [trace_step; constructor|]. trace_step. trace_step. now repeat constructor. Qed.
Lemma silent_program_preset r tx : performs (program_preset hw_call r tx) (fun _ s => silent s).
Proof.
  unfold program_preset. cbn zeta. eapply performs_bind; [apply read_through, silent_hw|]. intros [[st words] u] s Hs. cbv beta in Hs.
  repeat (trace_step; [trace_step; now rewrite app_nil_r|]). eapply performs_bind; [apply silent_hw|]. intros [[st2 stored] u2] s2 Hs2. cbv beta in Hs2. trace_step; trace_step; rewrite app_nil_r; now apply Forall_app.
Qed.
Lemma silent_program_row r tx : performs (program_row hw_call r tx) (fun _ s => silent s).
Proof.
  unfold program_row. cbn zeta. eapply (performs_bind _ _ (fun _ s => silent s)); [trace_step; [apply silent_program_preset|trace_step; constructor]|]. intros x s Hs. cbv beta in Hs. trace_step; [trace_step; now rewrite app_nil_r|].
  eapply performs_bind; [apply range_through, silent_hw|]. intros y s2 Hs2. cbv beta in Hs2. trace_step; trace_step; rewrite app_nil_r; now apply Forall_app.
Qed.
Lemma silent_program_rows l : forall tx, performs (program_rows hw_call l tx) (fun _ s => silent s).
Proof.
  induction l as [|r l IH]; intros tx; cbn [program_rows]; [trace_step; constructor|]. trace_step; [apply IH|]. eapply performs_bind; [apply silent_program_row|]. intros x s Hs. cbv beta in Hs.
  trace_step; [trace_step; now rewrite app_nil_r|]. eapply performs_impl; [apply IH|]. intros y s' Hs'. now apply Forall_app.
Qed.
(** Rows are checked from the first to the last, and none is programmed before. *)
Lemma check_rows_ok l : forall i tx tx', check_rows i l tx = (0, tx') -> forall k r, l !! k = Some r -> row_refused (i + Z.of_nat k) r = 0.
Proof.
  induction l as [|x l IH]; intros i tx tx' H k r Hk; [discriminate|]. cbn [check_rows] in H. destruct (Z.eqb_spec (row_refused i x) 0) as [R|R]; cbn [negb] in H.
  - destruct k as [|k]; [injection Hk as <-; now rewrite Z.add_0_r|]. cbn in Hk. specialize (IH _ _ _ H k r Hk). now replace (i + Z.of_nat (S k)) with (i + 1 + Z.of_nat k) by lia.
  - unfold fail in H. cbn in H. injection H as H _. destruct (tx_error tx =? 0) eqn:T; [|lia]. destruct (row_refused i x <? 0) eqn:N; lia.
Qed.
Definition rows_admitted (l : list tetris_modem_emi_row) : Prop := forall k r, l !! k = Some r -> row_refused (Z.of_nat k) r = 0.
Lemma performs_rows_program l tx : performs (tetris_modem_emi_rows_program hw_call l tx) (fun r s => silent s /\ (r.1 = 0 \/ s <> [] -> rows_admitted l)).
Proof.
  unfold tetris_modem_emi_rows_program. destruct (Z.eqb_spec (tx_attempted tx) 0); cbn [negb].
  2:{ trace_step. split; [constructor|]. cbn. destruct (Z.eqb_spec (tx_error tx) 0); intros [H|H]; try discriminate; congruence. }
  destruct (check_rows 0 l _) as [st tx'] eqn:C. destruct (Z.eqb_spec st 0) as [-> |N]; cbn [negb]; [|trace_step; split; [constructor|]; intros [H|H]; [contradiction|congruence]].
  assert (A : rows_admitted l) by exact (check_rows_ok l 0 _ _ C). destruct l as [|r l]; [trace_step; split; [constructor|auto]|]. trace_step; [trace_step; split; [constructor|auto]|].
  eapply performs_impl; [apply silent_program_rows|]. intros x s Hs. split; [exact Hs|auto].
Qed.
Lemma silent_secure_remap s a b c d : performs (tetris_modem_boot_secure_remap s a b c d) (fun _ s => silent s).
Proof.
  unfold tetris_modem_boot_secure_remap. trace_step; [trace_step; constructor|]. eapply performs_bind; [apply remap_through, silent_remap_call|]. intros x s1 Hs. cbv beta in Hs. trace_step. now rewrite app_nil_r.
Qed.
(** The last secure call closes the remapping. *)
Definition lock_seen (s : boot_trace) : Prop := exists a, In (Smc CCCI_SMC [8; 0], a) s /\ reg a 0 = 0.
Lemma quietly_secure_part b p : mutated b = 0 -> performs (boot_secure_part b p) (quietly (fun s => rows_admitted (rows p) /\ lock_seen s) b).
Proof.
  intros Hb. unfold boot_secure_part. cbn zeta.
  assert (F : forall b1 e s, mutated b1 = 0 -> silent s -> performs (md_boot_fail b1 e) (fun r s' => quietly (fun s => rows_admitted (rows p) /\ lock_seen s) b r (s ++ s'))).
  { intros b1 e s H S. eapply performs_impl; [now apply performs_fail_clean|]. intros r s' [-> N]. rewrite app_nil_r. split; [exact S|contradiction]. }
  eapply performs_bind; [apply performs_rows_program|]. intros e s [Se Ae]. destruct (Z.eqb_spec e.1 0) as [E0|E0]; cbn [negb]; [|now apply F]. specialize (Ae (or_introl E0)).
  eapply performs_bind; [apply silent_secure_remap|]. intros m s1 S1. cbv beta in S1. destruct (Z.eqb_spec m.1 0) as [M0|M0]; cbn [negb].
  2:{ eapply performs_impl; [apply (F _ _ (s ++ s1)); [exact Hb|now apply Forall_app]|]. intros r s' H. now rewrite app_assoc. }
  eapply performs_bind; [apply (quietly_smem_remap (resources p)); exact Hb|]. intros x s2 [S2 K2]. destruct (Z.eqb_spec x.1 0) as [X0|X0]; cbn [negb].
  2:{ trace_step. rewrite app_nil_r. split; [now repeat (apply Forall_app; split)|contradiction]. }
  destruct (K2 X0) as [[U1 U2] _]. unfold md_boot_ccci. trace_step. cbn zeta. assert (Ss : silent (s ++ s1 ++ s2 ++ [(Smc CCCI_SMC [8; 0], p0)])) by (repeat (apply Forall_app; split); auto; now repeat constructor).
  destruct (Z.eqb_spec (reg p0 0) 0) as [R0|R0].
  - trace_step. split; [exact Ss|]. intros _. split; [split; [exact U1|exact U2]|]. split; [exact Ae|]. exists p0. split; [|exact R0]. do 3 (apply in_or_app; right). now left.
  - eapply performs_impl; [apply (F _ _ (s ++ s1 ++ s2 ++ [(Smc CCCI_SMC [8; 0], p0)])); [cbn; rewrite U1; exact Hb|exact Ss]|]. intros r s' H. cbv beta in H. rewrite <- !app_assoc in H. exact H.
Qed.

(** Every write of an attempt belongs to the way up or to the way down.
    Before the first one the plan was admitted, all protected rows were
    checked, five registers said that the modem is off, and the remapping was
    closed. Each step of the way up waits for its own acknowledgement before the
    next write. Success means that all of them came and that the core and its
    boot ROM answered. After any failure the way down is taken once, from its
    first step, again acknowledgement by acknowledgement: isolation only once
    power is off. An attempt that failed earlier writes nothing. *)
Definition boot_ordered (b : boot_state) (plan : option tetris_modem_bootstrap_plan) (r : Z * boot_state) (s : boot_trace) : Prop :=
  silent s /\ r.1 <> 0 \/
  exists p pre rest, s = pre ++ rest /\ attempted b = 0 /\ plan = Some p /\ plan_refused p = 0 /\ rows_admitted (rows p) /\ silent pre /\ off_seen cold_off_rows pre /\ lock_seen pre /\ rises up_script r rest.
Theorem modem_power_order b el dev plan : mutated b = 0 -> cleanup_attempted b = 0 -> performs (tetris_modem_bootstrap_once b el dev plan) (boot_ordered b plan).
Proof.
  intros Hm Hc. unfold tetris_modem_bootstrap_once. destruct (Z.eqb_spec (attempted b) 0) as [A0|A0]; cbn [negb].
  2:{ trace_step. left. split; [constructor|]. cbn. destruct (Z.eqb_spec (error (report b)) 0); [discriminate|assumption]. }
  assert (F : forall b1 e s, mutated b1 = 0 -> silent s -> performs (md_boot_fail b1 e) (fun r s' => silent (s ++ s') /\ r.1 <> 0)).
  { intros b1 e s H S. eapply performs_impl; [now apply performs_fail_clean|]. intros r s' [-> N]. rewrite app_nil_r. now split. }
  assert (F0 : forall b1 e, mutated b1 = 0 -> performs (md_boot_fail b1 e) (fun r s' => silent s' /\ r.1 <> 0)) by (intros b1 e H; apply (F b1 e []); [exact H|constructor]).
  cbn zeta. destruct plan as [p|]; [|eapply performs_impl; [now apply F0|]; intros; now left]. do 2 (trace_step; [eapply performs_impl; [now apply F0|]; intros; now left|]).
  unfold md_boot_plan. destruct (Z.eqb_spec (plan_refused p) 0) as [P0|P0]; cbn [negb].
  2:{ eapply performs_bind; [now apply F0|]. intros x s [S N]. rewrite (proj2 (Z.eqb_neq _ _) N). cbn [negb]. trace_step. rewrite app_nil_r. left. now split. }
  eapply (performs_bind _ _ (fun x s => s = [] /\ x.1 = 0 /\ untouched b x.2)); [trace_step; now repeat split|]. intros x s (-> & -> & U1 & U2). change (negb (0 =? 0)) with false. cbn iota. cbn [Datatypes.app].
  eapply (performs_bind _ _ (fun o s => silent s)); [unfold tetris_modem_boot_secure_open; trace_step; [trace_step; constructor|]; trace_step; trace_step; trace_step; now repeat constructor|]. intros o s So. cbv beta in So.
  trace_step; [eapply performs_impl; [apply F; [cbn; congruence|exact So]|]; intros; now left|].
  eapply performs_bind; [apply (quietly_cold_off cold_off_rows); cbn; congruence|]. intros c s1 [S1 K1]. destruct (Z.eqb_spec c.1 0) as [C0|C0]; cbn [negb].
  2:{ trace_step. rewrite app_nil_r. left. split; [now apply Forall_app|exact C0]. }
  destruct (K1 C0) as [[V1 V2] O1]. cbn in V1, V2. eapply performs_bind; [apply (quietly_secure_part _ p); cbn; congruence|]. intros x' s2 [S2 K2]. destruct (Z.eqb_spec x'.1 0) as [X0|X0]; cbn [negb].
  2:{ trace_step. rewrite app_nil_r. left. split; [now repeat (apply Forall_app; split)|exact X0]. }
  destruct (K2 X0) as [[W1 W2] [Ra Lk]]. cbn in W1, W2. eapply performs_impl; [apply performs_power; congruence|]. intros r s3 R. right. exists p, (s ++ s1 ++ s2), s3.
  split; [now rewrite <- !app_assoc|]. do 4 (split; [assumption || reflexivity|]). split; [now repeat (apply Forall_app; split)|]. split; [apply off_seen_app; right; apply off_seen_app; now left|]. split; [|exact R].
  destruct Lk as (a & Ha & Za). exists a. split; [|exact Za]. apply in_or_app. right. apply in_or_app. now right.
Qed.
End Before.

(** ** An instance *)

(** Helpers that make one call each. *)
#[export] Instance sample_emi : Emi := {
  plan_emi _ _ _ := 0;
  plan_emi_policy _ _ := (0, repeat 0 8);
  plan_remap _ _ _ _ := 0;
  read_emi_slot C f c slot := let! x := f c EMI_SMC 2 0 slot 0 in ret (x.1.1, repeat 0 11, x.2);
  program_emi_range C f c r := let! x := f c EMI_SMC 0 (row_start r) (row_size r) (row_slot r) in ret (x.1.1, x.2);
  program_remap C f c base capacity _ _ := let! x := f c CCCI_SMC 1 (u32 base) (u32 capacity) in ret (x.1.1, x.2) }.
#[export] Instance sample_emi_laws : EmiLaws sample_emi.
Proof. split; intros; (eapply performs_bind; [eauto|]; intros x s Hs; trace_step; now rewrite app_nil_r). Qed.
Definition sample_window : tetris_modem_emi_window := Emi_window 0x40000000 0x8000000.
Definition no_row : tetris_modem_emi_row := Emi_row 0 0 0 0 0 (Emi_window 0 0) [].
Definition sample_plan : tetris_modem_bootstrap_plan :=
  Plan (Resources sample_window (Emi_window 0x50000000 0x10000000) (Emi_window 0x60000000 0x8000000) (Emi_window 0 0) 0x40000000 0x80000000)
    (Emi_row TETRIS_MD_EMI_RANGE 0 32 0x40000000 0x1000 sample_window (repeat 0 8) :: repeat no_row 11) 0x1000 0x1000 row_pin.
Definition no_transaction : tetris_modem_emi_rows_transaction := Rows_transaction 0 0 0 0 0 [].
Definition fresh_boot : boot_state :=
  Boot (Report TETRIS_MD_BOOT_INPUT 0 0 0 0 (repeat 0 4) 0 (Cleanup TETRIS_MD_CLEANUP_NONE 0 0 0 0) no_transaction 0 0 (repeat (repeat 0 4) 12)) 0 0 0
    (Secure (Secure_report TETRIS_MD_SECURE_PROFILE 0 0 0 (repeat 0 4)) 0 0).
(** The last value written to an address, and the bank registers after the remap calls. *)
Definition last_written (t : boot_trace) (a : Z) : option Z := foldl (fun r e => match e.1 with Writel x v => if x =? a then Some v else r | _ => r end) None t.
Definition bank_register (t : boot_trace) (word : nat) : Z :=
  foldl (fun r q => match q with
    | Smc f [3; lo; hi; index] => if (bank_reg index =? word)%nat then Z.lor (Z.ldiff r (bank_mask index)) (Z.shiftl (Z.land (Z.shiftr (Z.lor lo (Z.shiftl hi 32)) 25) 0x3ff) (bank_shift index)) else r
    | _ => r end) 0 (t.*1).
(** A modem that follows; [rom]: what its boot ROM reports. *)
Definition sample_modem (rom : Z) : environment call answer := fun t q =>
  let cleared a v := match last_written t a with Some _ => 0 | None => v end in
  match q with
  | Readl a => Answer (if a =? MD_POWER then match last_written t a with Some v => if Z.land v MD_ON =? 0 then 0 else Z.lor v MD_ACK | None => 0 end
                       else if a =? MD_EXTISO then default 3 (last_written t a) else if a =? MD_TOP then default MD_CLOCK (last_written t a)
                       else if a =? MD_IFR9_STA then (if bool_decide (is_Some (last_written t MD_IFR9_SET)) then 0x200 else cleared MD_IFR9_CLR 0x200)
                       else if a =? MD_IFR11_STA then (if bool_decide (is_Some (last_written t MD_IFR11_SET)) then 0x800 else cleared MD_IFR11_CLR 0x800)
                       else (if bool_decide (is_Some (last_written t MD_NEMI_SET)) then 0xc0 else cleared MD_NEMI_CLR 0xc0)) []
  | Smc f [3; lo; hi; index] => Answer 0 [0; bank_register (t ++ [(q, Answer 0 [])]) (bank_reg index); 0; 0]
  | Smc f [6; 1] => Answer 0 [0; 0; 0; if rom =? 0 then 0 else 1]
  | Smc f [6; 7] => Answer 0 [0; 0; rom; rom]
  | _ => Answer 0 []
  end.
Definition write_targets (s : boot_trace) : list Z := omap (fun e => match e.1 with Writel a _ => Some a | _ => None end) s.
(** A boot that succeeds, and one whose core is not released. *)
Lemma modem_power_order_witness : mutated fresh_boot = 0 /\ cleanup_attempted fresh_boot = 0 /\
  (exists r s p pre rest, tetris_modem_bootstrap_once fresh_boot 1 true (Some sample_plan) (sample_modem ALL_ONE) [] = (r, s) /\ r.1 = 0 /\ s = pre ++ rest /\ Some sample_plan = Some p /\ rises up_script r rest /\
    write_targets s = target <$> up_script) /\
  (let '(r, s) := tetris_modem_bootstrap_once fresh_boot 1 true (Some sample_plan) (sample_modem 0) [] in
   r.1 = - EIO /\ write_targets s = target <$> up_script ++ down_script /\ cl_stage (cleanup (report r.2)) = TETRIS_MD_CLEANUP_COMPLETE).
Proof.
  split; [reflexivity|]. split; [reflexivity|]. split; [|vm_compute; now repeat split].
  destruct (modem_power_order fresh_boot 1 true (Some sample_plan) eq_refl eq_refl (sample_modem ALL_ONE) []) as (r & s & R & H). cbn [Datatypes.app] in R.
  assert (V : (r, s).1.1 = 0 /\ write_targets (r, s).2 = target <$> up_script) by (rewrite <- R; vm_compute; now repeat split). destruct V as [V1 V2].
  destruct H as [[_ N]|(p & pre & rest & Es & _ & Ep & _ & _ & _ & _ & _ & Hr)]; [destruct (N V1)|]. exists r, s, p, pre, rest. repeat (split; [assumption|]). exact V2.
Defined.

(** ** The calls of the secure monitor *)

(** What may be asked of the monitor: the protection of slots 32 to 43, and of
    the modem's service only remapping, its lock, the release and the question for the boot ROM. *)
Definition monitor_call (q : call) : bool :=
  match q with
  | Smc f [operation; a; b; c] => hw_admitted f operation a b c || ((f =? CCCI_SMC) && (operation =? 3) && bool_decide (c ∈ [0; 1; 2; 3; 4; 5; 6; 7]))
  | Smc f [operation; _; _] => remap_admitted f operation
  | Smc f [request; command] => (f =? CCCI_SMC) && bool_decide ((request, command) ∈ [(8, 0); (6, 1); (6, 7)])
  | Readl _ | Writel _ _ | Udelay _ | Mdelay _ | Atf_profile => true
  | _ => false
  end.
Abbreviation monitored m := (performs m (fun _ (s : boot_trace) => Forall (fun e => monitor_call e.1 = true) s)).
Lemma monitored_bind {A B} (m : boot_io A) (k : A -> boot_io B) : monitored m -> (forall a, monitored (k a)) -> monitored (bind m k).
Proof. intros Hm Hk. eapply performs_bind; [exact Hm|]. intros a s Hs. eapply performs_impl; [apply Hk|]. intros b s' Hs'. apply Forall_app. now split. Qed.
Lemma monitored_ask q : monitor_call q = true -> monitored (ask q).
Proof. intros H. trace_step. now repeat constructor. Qed.
Lemma monitored_ret {A} (a : A) : monitored (ret a).
Proof. trace_step. constructor. Qed.
Create HintDb monitor.
#[local] Hint Resolve monitored_ret : monitor.
#[local] Hint Extern 1 (performs (ask _) _) => apply monitored_ask; reflexivity : monitor.
Ltac monitor_step :=
  lazymatch goal with
  | |- performs (bind _ _) _ => apply monitored_bind; [|let a := fresh "a" in intros a]
  | |- performs (if ?b then _ else _) _ => destruct b
  | |- performs (let '(_, _) := ?p in _) _ => destruct p
  | |- performs (match ?x with _ => _ end) _ => destruct x
  end.
Ltac monitor_steps := repeat (first [solve [auto with monitor] | monitor_step]; cbn zeta).
Lemma monitored_poll n : forall i a mask expected, monitored (poll n i a mask expected).
Proof. induction n as [|n IH]; intros; cbn [poll]; unfold readl; monitor_steps. Qed.
#[local] Hint Resolve monitored_poll : monitor.
Lemma monitored_cleanup b : monitored (md_boot_cleanup b).
Proof. unfold md_boot_cleanup, cleanup_write, cleanup_modify, md_cleanup_wait, md_cleanup_read, polling, readl, writel. monitor_steps. Qed.
#[local] Hint Resolve monitored_cleanup : monitor.
Lemma monitored_fail b e : monitored (md_boot_fail b e).
Proof. unfold md_boot_fail. monitor_steps. Qed.
#[local] Hint Resolve monitored_fail : monitor.
Lemma monitored_ccci b request command : monitor_call (Smc CCCI_SMC [request; command]) = true -> monitored (md_boot_ccci b request command).
Proof. intros H. unfold md_boot_ccci. apply monitored_bind; [now apply monitored_ask|]. intros a. monitor_steps. Qed.
#[local] Hint Extern 1 (performs (md_boot_ccci _ _ _) _) => apply monitored_ccci; reflexivity : monitor.
Lemma monitored_brom n : forall i b, monitored (brom_loop n i b).
Proof. induction n as [|n IH]; intros; cbn [brom_loop]; monitor_steps. Qed.
#[local] Hint Resolve monitored_brom : monitor.
Lemma monitored_power b : monitored (boot_power b).
Proof. unfold boot_power, boot_modify, boot_write, boot_release, md_boot_wait, md_boot_read, polling, readl, writel. monitor_steps. Qed.
Lemma monitored_cold_off l : forall b, monitored (cold_off_loop l b).
Proof. induction l as [|[[a m] x] l IH]; intros b; cbn [cold_off_loop]; unfold md_boot_read, readl; monitor_steps. Qed.
Lemma monitored_remap_loop r calls : Forall (fun c => 0 <= c < 12) calls -> forall known b, monitored (smem_remap_loop r calls known b).
Proof.
  induction 1 as [|c calls Hc _ IH]; intros known b; cbn [smem_remap_loop]; [apply monitored_ret|]. cbn zeta. apply monitored_bind; [apply monitored_ask|intros a; monitor_steps].
  cbn [monitor_call]. apply orb_true_iff. right. apply andb_true_iff. split; [reflexivity|]. apply bool_decide_eq_true, list_elem_of_In. unfold bank_of. cbn [In]. destruct (Z.ltb_spec c 8); lia.
Qed.
Section Monitor.
Context {E : Emi} {L : EmiLaws E}.
Lemma monitored_hw u f operation a b c : monitored (hw_call u f operation a b c).
Proof.
  unfold hw_call. destruct (hw_admitted f operation a b c) eqn:H; cbn [negb]; [|apply monitored_ret]. apply monitored_bind; [apply monitored_ask; cbn [monitor_call]; now rewrite H|]. intros x. apply monitored_ret.
Qed.
Lemma monitored_remap_call s f operation low high : monitored (md_secure_remap_call s f operation low high).
Proof.
  unfold md_secure_remap_call. destruct (remap_admitted f operation) eqn:H; cbn [negb]; [|apply monitored_ret]. apply monitored_bind; [now apply monitored_ask|]. intros x. apply monitored_ret.
Qed.
#[local] Hint Resolve monitored_hw monitored_remap_call read_through range_through remap_through monitored_power monitored_cold_off : monitor.
Lemma monitored_rows l : forall tx, monitored (program_rows hw_call l tx).
Proof. induction l as [|r l IH]; intros tx; cbn [program_rows]; unfold program_row, program_preset; monitor_steps. Qed.
#[local] Hint Resolve monitored_rows : monitor.
Lemma monitored_secure_part b p : monitored (boot_secure_part b p).
Proof.
  unfold boot_secure_part, tetris_modem_emi_rows_program, tetris_modem_boot_secure_remap, md_boot_smem_remap. pose proof (monitored_remap_loop (resources p) (Z.of_nat <$> seq 0 12)) as R.
  assert (F : Forall (fun c => 0 <= c < 12) (Z.of_nat <$> seq 0 12)) by (apply Forall_forall; intros x (y & -> & Hy)%list_elem_of_fmap; apply elem_of_seq in Hy; lia). specialize (R F). monitor_steps.
Qed.
#[local] Hint Resolve monitored_secure_part : monitor.
(** Whatever the plan and the answers, the monitor is asked only for these, and
    no memory is reserved, mapped or loaded. *)
Theorem modem_monitor_calls b el dev plan : performs (tetris_modem_bootstrap_once b el dev plan) (fun _ s => Forall (fun e => monitor_call e.1 = true) s).
Proof. unfold tetris_modem_bootstrap_once, md_boot_plan, tetris_modem_boot_secure_open, md_boot_cold_off. monitor_steps. Qed.
End Monitor.

(** ** The report *)

Definition marked (b : boot_state) : Prop := attempted b <> 0.
Abbreviation marks m := (performs m (fun (r : Z * boot_state) (_ : boot_trace) => marked r.2)).
Abbreviation ends m := (performs m (fun _ (_ : boot_trace) => True)).
Lemma ends_of {A} (m : boot_io A) (R : A -> boot_trace -> Prop) : performs m R -> ends m.
Proof. intros H. now eapply performs_impl. Qed.
Create HintDb mark.
#[local] Hint Extern 1 (marked _) => (unfold marked in *; cbn; congruence) : mark.
Lemma ends_ask q : ends (ask q).
Proof. now trace_step. Qed.
Lemma ends_poll a mask expected : ends (polling a mask expected).
Proof. unfold polling. eapply ends_of, monitored_poll. Qed.
Lemma ends_readl a : ends (readl a).
Proof. unfold readl. trace_step. now trace_step. Qed.
Lemma ends_writel v a : ends (writel v a).
Proof. unfold writel. trace_step. now trace_step. Qed.
#[local] Hint Resolve ends_ask ends_poll ends_readl ends_writel : mark.
Ltac mark_step :=
  lazymatch goal with
  | |- performs (bind _ _) _ => eapply performs_bind; [now eauto with mark|intros ? ? ?; cbv beta in *]
  | |- performs (ret _) _ => apply performs_ret; now auto with mark
  | |- performs (if ?b then _ else _) _ => destruct b
  | |- performs (let '(_, _) := ?p in _) _ => destruct p
  | |- performs (match ?x with _ => _ end) _ => destruct x
  end.
Ltac mark_steps := cbn zeta; repeat (first [solve [eauto with mark] | mark_step]; cbn zeta).
Lemma cleanup_write_marks b s target v sa mask expected next : marked b -> (forall b', marked b' -> performs (next b') (fun b' _ => marked b')) ->
  performs (cleanup_write b s target v sa mask expected next) (fun b' _ => marked b').
Proof. intros. unfold cleanup_write, md_cleanup_wait. cbn zeta. mark_step. eapply (performs_bind _ _ (fun w _ => marked w.2)); [mark_steps|intros w ? Hw; cbv beta in Hw]. destruct (negb _); mark_steps. Qed.
Lemma cleanup_modify_marks b s target f mask expected next : marked b -> (forall b', marked b' -> performs (next b') (fun b' _ => marked b')) ->
  performs (cleanup_modify b s target f mask expected next) (fun b' _ => marked b').
Proof.
  intros. unfold cleanup_modify, md_cleanup_wait, md_cleanup_read. cbn zeta. eapply (performs_bind _ _ (fun w _ => marked w.2)); [mark_steps|intros r ? Hr; cbv beta in Hr]. mark_step.
  eapply (performs_bind _ _ (fun w _ => marked w.2)); [mark_steps|intros w ? Hw; cbv beta in Hw]. destruct (negb _); mark_steps.
Qed.
Lemma cleanup_marks b : marked b -> performs (md_boot_cleanup b) (fun b' _ => marked b').
Proof. intros H. unfold md_boot_cleanup. cbn zeta. repeat (first [apply cleanup_write_marks | apply cleanup_modify_marks]; [assumption|clear b H; intros b H]). mark_steps. Qed.
Lemma fail_marks b e : marked b -> marks (md_boot_fail b e).
Proof.
  intros H. unfold md_boot_fail. cbn zeta. eapply (performs_bind _ _ (fun b' _ => marked b')); [|intros b' ? Hb; cbv beta in Hb; mark_steps]. set (b1 := if error (report b) =? 0 then _ else b). assert (marked b1) by (subst b1; destruct (_ =? _); exact H).
  destruct (_ && _); [now apply cleanup_marks|mark_steps].
Qed.
#[local] Hint Resolve fail_marks : mark.
Lemma wait_marks b a mask expected : marked b -> marks (md_boot_wait b a mask expected).
Proof. intros. unfold md_boot_wait. mark_steps. Qed.
Lemma ccci_marks b request command : marked b -> marks (md_boot_ccci b request command).
Proof. intros. unfold md_boot_ccci. mark_steps. Qed.
Lemma read_marks b a : marked b -> marks (md_boot_read b a).
Proof. intros. unfold md_boot_read. mark_steps. Qed.
#[local] Hint Resolve wait_marks ccci_marks read_marks : mark.
Lemma brom_marks n : forall i b, marked b -> marks (brom_loop n i b).
Proof. induction n as [|n IH]; intros i b H; cbn [brom_loop]; mark_steps. Qed.
#[local] Hint Resolve brom_marks : mark.
Lemma power_marks b : marked b -> marks (boot_power b).
Proof. intros H. unfold boot_power, boot_modify, boot_write, boot_release. mark_steps. Qed.
Lemma cold_off_marks l : forall b, marked b -> marks (cold_off_loop l b).
Proof. induction l as [|[[a m] x] l IH]; intros b H; cbn [cold_off_loop]; mark_steps. Qed.
Lemma remap_loop_marks r calls : forall known b, marked b -> marks (smem_remap_loop r calls known b).
Proof. induction calls as [|c calls IH]; intros known b H; cbn [smem_remap_loop]; mark_steps. Qed.
#[local] Hint Resolve power_marks cold_off_marks remap_loop_marks : mark.
Section Reported.
Context {E : Emi} {L : EmiLaws E}.
Lemma ends_rows l tx : ends (tetris_modem_emi_rows_program hw_call l tx).
Proof.
  eapply (ends_of _ (fun _ s => Forall (fun e => monitor_call e.1 = true) s)). pose proof (monitored_rows (E := E)) as H. unfold tetris_modem_emi_rows_program. monitor_steps; apply H.
Qed.
Lemma ends_remap s a b c d : ends (tetris_modem_boot_secure_remap s a b c d).
Proof.
  eapply (ends_of _ (fun _ s => Forall (fun e => monitor_call e.1 = true) s)). unfold tetris_modem_boot_secure_remap. monitor_steps. apply remap_through. intros. apply monitored_remap_call.
Qed.
Lemma ends_open s : ends (tetris_modem_boot_secure_open s).
Proof. unfold tetris_modem_boot_secure_open. mark_steps. Qed.
#[local] Hint Resolve ends_rows ends_remap ends_open : mark.
Lemma secure_part_marks b p : marked b -> marks (boot_secure_part b p).
Proof. intros H. unfold boot_secure_part, md_boot_smem_remap. mark_steps. Qed.
#[local] Hint Resolve secure_part_marks : mark.
Lemma plan_marks b p : marked b -> marks (md_boot_plan b p).
Proof. intros H. unfold md_boot_plan. mark_steps. Qed.
#[local] Hint Resolve plan_marks : mark.
(** After an attempt there is a report. *)
Lemma bootstrap_reports b el dev plan : performs (tetris_modem_bootstrap_once b el dev plan) (fun r _ => bootstrap_report r.2 = Some (report r.2)).
Proof.
  eapply (performs_impl _ (fun r _ => marked r.2)); [|intros r s Hr; unfold bootstrap_report; now rewrite (proj2 (Z.eqb_neq _ _) Hr)].
  unfold tetris_modem_bootstrap_once, md_boot_cold_off. destruct (Z.eqb_spec (attempted b) 0); cbn [negb]; mark_steps.
Qed.
End Reported.
