(* ===== verification/ModemLoad.v ===== *)
(** * Loading and starting the modem

    [bootstrap-integration/tetris_modem_loaded_boot.c]: one attempt that reserves
    memory, has the authenticated images and the service memory placed in it,
    and starts the modem ([ModemBoot]). The reservations, the loader of the
    images and the initialization of the services are other parts of the boot
    loader: requests with arbitrary answers. *)

From S2P Require Import Prelude Trace EmiRows ModemBoot.
Open Scope Z_scope.
Open Scope io_scope.

Inductive tetris_modem_loaded_stage :=
| TETRIS_MD_LOAD_INPUT | TETRIS_MD_LOAD_PROFILE | TETRIS_MD_LOAD_OFF | TETRIS_MD_LOAD_FIRMWARE_RESERVE | TETRIS_MD_LOAD_NC_RESERVE | TETRIS_MD_LOAD_CACHE_RESERVE
| TETRIS_MD_LOAD_SIB_RESERVE | TETRIS_MD_LOAD_MAP | TETRIS_MD_LOAD_AUTH_COPY | TETRIS_MD_LOAD_SERVICES | TETRIS_MD_LOAD_BOOTSTRAP | TETRIS_MD_LOAD_COMPLETE.
Record tetris_modem_loaded_report := Loaded_report {
  l_stage : tetris_modem_loaded_stage; l_value : Z; l_address : Z; l_error : Z; l_bootstrap : tetris_modem_bootstrap_plan; hardware : option tetris_modem_bootstrap_report }.
(** The static owner and that of the bootstrap. *)
Record load_state := Load { l_attempted : Z; loaded : tetris_modem_loaded_report; boot : boot_state }.
Definition with_loaded (o : load_state) (r : tetris_modem_loaded_report) := Load (l_attempted o) r (boot o).
Definition in_stage (o : load_state) (s : tetris_modem_loaded_stage) :=
  let r := loaded o in with_loaded o (Loaded_report s (l_value r) (l_address r) (l_error r) (l_bootstrap r) (hardware r)).
Definition with_plan (o : load_state) (p : tetris_modem_bootstrap_plan) :=
  let r := loaded o in with_loaded o (Loaded_report (l_stage r) (l_value r) (l_address r) (l_error r) p (hardware r)).
Definition fail (o : load_state) (e : Z) : Z * load_state :=
  let r := loaded o in
  let e := if l_error r =? 0 then (if e <? 0 then e else - EPROTO) else l_error r in
  (e, with_loaded o (Loaded_report (l_stage r) (l_value r) (l_address r) e (l_bootstrap r) (hardware r))).

(** The gear of the physical layer in megabytes: decimal text of at most nine digits; an error, or the capacity in bytes. *)
Fixpoint phy_loop (steps : nat) (n : Z) (text : list Z) : Z + Z :=
  match steps with
  | O => inl (- EINVAL)
  | S steps =>
    match text with
    | [] => if 4095 <? n then inl (- ERANGE) else inr (if 1536 <? n then 0x60000000 else Z.shiftl n 20)
    | c :: text => if (c <? 48) || (57 <? c) || ((UINT32_MAX - (c - 48)) / 10 <? n) then inl (- EINVAL) else phy_loop steps (u32 (n * 10 + (c - 48))) text
    end
  end.
(** [text] is the string before its terminator. *)
Definition phy_capacity (text : option (list Z)) : Z + Z :=
  match text with None | Some [] => inr 0 | Some t => phy_loop 10 0 t end.
(** ** The modem is off, and its memory *)

Definition with_read (o : load_state) (a v : Z) :=
  let r := loaded o in with_loaded o (Loaded_report (l_stage r) v a (l_error r) (l_bootstrap r) (hardware r)).
Fixpoint cold_off (l : list (Z * Z * Z)) (o : load_state) : boot_io (Z * load_state) :=
  match l with
  | [] => ret (0, o)
  | (a, mask, expected) :: l =>
    let! v := readl a in
    let o := with_read o a v in
    if negb (Z.land v mask =? expected) then ret (- EBUSY, o) else cold_off l o
  end.
Definition held_by (start size : Z) (w : tetris_modem_emi_window) : bool :=
  (w_capacity w =? 0) || ((start <=? w_base w) && (w_base w - start <? size) && (w_capacity w <=? size - (w_base w - start))).
(** The first bank of memory that holds every window. *)
Fixpoint find_dram (banks : list (Z * Z)) (r : tetris_modem_emi_resources) : option (Z * Z) :=
  match banks with
  | [] => None
  | (start, size) :: banks =>
    if negb (size =? 0) && (start <=? UINT64_MAX - size) && forallb (held_by start size) [firmware r; nc r; cache r; sib r] then Some (start, size) else find_dram banks r
  end.
Definition BANK_CAPACITY : Z := 0x8000000.
Definition window_words (r : tetris_modem_emi_resources) : list Z :=
  concat ((fun w => [w_base w; w_capacity w]) <$> [firmware r; nc r; cache r; sib r]) ++ [dram_base r; dram_size r].
Inductive window := Firmware | Nc | Cache | Sib.
Definition window_of (r : tetris_modem_emi_resources) (w : window) : tetris_modem_emi_window :=
  match w with Firmware => firmware r | Nc => nc r | Cache => cache r | Sib => sib r end.
Definition set_window (r : tetris_modem_emi_resources) (w : window) (x : tetris_modem_emi_window) : tetris_modem_emi_resources :=
  match w with
  | Firmware => Resources x (nc r) (cache r) (sib r) (dram_base r) (dram_size r)
  | Nc => Resources (firmware r) x (cache r) (sib r) (dram_base r) (dram_size r)
  | Cache => Resources (firmware r) (nc r) x (sib r) (dram_base r) (dram_size r)
  | Sib => Resources (firmware r) (nc r) (cache r) x (dram_base r) (dram_size r)
  end.
Definition resources_of (o : load_state) : tetris_modem_emi_resources := resources (l_bootstrap (loaded o)).
Definition with_resources (o : load_state) (r : tetris_modem_emi_resources) : load_state :=
  let p := l_bootstrap (loaded o) in with_plan o (Plan r (rows p) (nc_capacity p) (cache_capacity p) (preloader_sha256 p)).
Definition with_window (o : load_state) (w : window) (x : tetris_modem_emi_window) : load_state := with_resources o (set_window (resources_of o) w x).
(** One window: its stage, its capacity, and the base that the request stores. *)
Definition reserve (o : load_state) (s : tetris_modem_loaded_stage) (w : window) (capacity : Z) (q : call) (next : load_state -> boot_io (Z * load_state)) : boot_io (Z * load_state) :=
  let o := with_window (in_stage o s) w (Emi_window (w_base (window_of (resources_of o) w)) capacity) in
  let! a := ask q in
  let o := with_window o w (Emi_window (reg a 0) capacity) in
  if negb (result a =? 0) then ret (fail o (result a)) else next o.
Definition map_sysmem (w : tetris_modem_emi_window) : boot_io Z := let! a := ask (Map_sysmem (w_base w) (w_capacity w)) in ret (u64 (result a)).
Definition unmap (m : Z) : boot_io unit := if m =? 0 then ret tt else let! _ := ask (Unmap_sysmem m) in ret tt.

Section Load.
Context {E : Emi}.
(** The capacity of the firmware window; the banks of memory, when the board
    data is there; and the rows and the two service capacities that an answer of
    the loader stands for. *)
Variables (TETRIS_MODEM_WINDOW : Z) (dram : option (list (Z * Z))) (rows_of : answer -> list tetris_modem_emi_row * Z * Z).
Definition set_rows (p : tetris_modem_bootstrap_plan) (a : answer) : tetris_modem_bootstrap_plan :=
  let '(l, n, c) := rows_of a in Plan (resources p) l n c (preloader_sha256 p).
(** What the loader is asked with. *)
Record load_arguments := Arguments_of { a_slot : Z; a_ccb_gear : Z; a_phy_gear : option (list Z) }.
(** The start, and its report. *)
Definition load_start (o : load_state) (el : Z) : boot_io (Z * load_state) :=
  let o := in_stage o TETRIS_MD_LOAD_BOOTSTRAP in
  let! x := tetris_modem_bootstrap_once (boot o) el true (Some (l_bootstrap (loaded o))) in
  let h := bootstrap_report x.2 in
  let r := loaded o in
  let o := Load (l_attempted o) (Loaded_report (l_stage r) (l_value r) (l_address r) (l_error r) (l_bootstrap r) (match h with Some _ => h | None => hardware r end)) x.2 in
  let st := match h with None => if x.1 =? 0 then - EPROTO else x.1 | Some _ => x.1 end in
  ret (st, if st =? 0 then in_stage o TETRIS_MD_LOAD_COMPLETE else o).
(** With the addresses of the three windows. *)
Definition load_mapped (o : load_state) (el : Z) (g : load_arguments) (f n c : Z) : boot_io (Z * load_state) :=
  if (f =? 0) || (n =? 0) || (c =? 0) then ret (- ENOMEM, o) else
  let o := in_stage o TETRIS_MD_LOAD_AUTH_COPY in
  let r := resources_of o in
  let! a := ask (Load_rows (a_slot g) f (w_capacity (firmware r)) (a_ccb_gear g) (a_phy_gear g) (preloader_sha256 (l_bootstrap (loaded o))) (window_words r)) in
  let o := with_plan o (set_rows (l_bootstrap (loaded o)) a) in
  if negb (result a =? 0) then ret (result a, o) else
  let o := in_stage o TETRIS_MD_LOAD_SERVICES in
  let! i := ask (Initialize_smem (f, w_capacity (firmware r)) (n, w_capacity (nc r)) (c, w_capacity (cache r))) in
  if negb (result i =? 0) then ret (result i, o) else load_start o el.
Definition load_map (o : load_state) (el : Z) (g : load_arguments) : boot_io (Z * load_state) :=
  let o := in_stage o TETRIS_MD_LOAD_MAP in
  match dram with
  | None => ret (fail o (- EINVAL))
  | Some banks =>
    match find_dram banks (resources_of o) with
    | None => ret (fail o (- ERANGE))
    | Some (start, size) =>
      let r := resources_of o in
      let o := with_resources o (Resources (firmware r) (nc r) (cache r) (sib r) start size) in
      let! f := map_sysmem (firmware r) in
      let! n := map_sysmem (nc r) in
      let! c := map_sysmem (cache r) in
      let! x := load_mapped o el g f n c in
      let! _ := unmap c in
      let! _ := unmap n in
      let! _ := unmap f in
      ret (if x.1 =? 0 then (0, x.2) else fail x.2 x.1)
    end
  end.
Definition load_reserve (o : load_state) (el : Z) (g : load_arguments) : boot_io (Z * load_state) :=
  reserve o TETRIS_MD_LOAD_FIRMWARE_RESERVE Firmware TETRIS_MODEM_WINDOW Reserve_window (fun o =>
  reserve o TETRIS_MD_LOAD_NC_RESERVE Nc BANK_CAPACITY (Reserve_bank 0 BANK_CAPACITY) (fun o =>
  reserve o TETRIS_MD_LOAD_CACHE_RESERVE Cache BANK_CAPACITY (Reserve_bank 1 BANK_CAPACITY) (fun o =>
  let capacity := w_capacity (sib (resources_of o)) in
  if capacity =? 0 then load_map o el g else reserve o TETRIS_MD_LOAD_SIB_RESERVE Sib capacity (Reserve_bank 2 capacity) (fun o => load_map o el g)))).
(** [slot] is a character; [given]: neither [fdt], [dev] nor the digest is null. *)
Definition tetris_modem_loaded_boot_once (o : load_state) (el : Z) (given : bool) (g : load_arguments) (digest : list Z) : boot_io (Z * load_state) :=
  if negb (l_attempted o =? 0) then ret (if l_error (loaded o) =? 0 then - EALREADY else l_error (loaded o), o) else
  let o := in_stage (Load 1 (loaded o) (boot o)) TETRIS_MD_LOAD_INPUT in
  if negb given || (negb (a_slot g =? 97) && negb (a_slot g =? 98)) || (negb (el =? 1) && negb (el =? 2)) then ret (fail o (- EINVAL)) else
  let p := l_bootstrap (loaded o) in
  let o := with_plan o (Plan (resources p) (rows p) (nc_capacity p) (cache_capacity p) (firstn 32 digest)) in
  let st := (plan_emi_policy (firstn 32 digest) 32).1 in
  if negb (st =? 0) then ret (fail o st) else
  let sized c := with_window o Sib (Emi_window (w_base (sib (resources_of o))) c) in
  match phy_capacity (a_phy_gear g) with
  | inl e => ret (fail (sized 0) e)
  | inr capacity =>
    let o := in_stage (sized capacity) TETRIS_MD_LOAD_PROFILE in
    let! a := ask Atf_profile in
    if negb (result a =? 0) then ret (fail o (result a)) else
    let! c := cold_off cold_off_rows (in_stage o TETRIS_MD_LOAD_OFF) in
    if negb (c.1 =? 0) then ret (fail c.2 c.1) else load_reserve c.2 el g
  end.
Definition tetris_modem_loaded_boot_report (o : load_state) (out : bool) : Z + tetris_modem_loaded_report :=
  if negb out || (l_attempted o =? 0) then inl (- EINVAL) else inr (loaded o).
End Load.

(** ** The order of an attempt *)

Definition handles (s : boot_trace) : list Z :=
  omap (fun e => match e.1 with Map_sysmem _ _ => if u64 (result e.2) =? 0 then None else Some (u64 (result e.2)) | _ => None end) s.
Definition unmapped (s : boot_trace) : list Z := omap (fun e => match e.1 with Unmap_sysmem m => Some m | _ => None end) s.
(** Neither writes nor mappings. *)
Definition calm (s : boot_trace) : Prop := silent s /\ handles s = [] /\ unmapped s = [].
Lemma handles_app s s' : handles (s ++ s') = handles s ++ handles s'.
Proof. apply omap_app. Qed.
Lemma unmapped_app s s' : unmapped (s ++ s') = unmapped s ++ unmapped s'.
Proof. apply omap_app. Qed.
Lemma quiet_app s s' : silent s -> silent s' -> silent (s ++ s').
Proof. intros. now apply Forall_app. Qed.
Lemma load_calm_app s s' : calm s -> calm s' -> calm (s ++ s').
Proof. intros (A & B & C) (A' & B' & C'). split; [now apply quiet_app|]. now rewrite handles_app, unmapped_app, B, B', C, C'. Qed.
Lemma monitored_unmapped (s : boot_trace) : Forall (fun e => monitor_call e.1 = true) s -> handles s = [] /\ unmapped s = [].
Proof. induction 1 as [|[q a] s H _ [I1 I2]]; [now split|]. destruct q; try discriminate H; now split. Qed.
Lemma find_dram_holds banks r start size : find_dram banks r = Some (start, size) ->
  In (start, size) banks /\ start + size <= UINT64_MAX /\ Forall (fun w => held_by start size w = true) [firmware r; nc r; cache r; sib r].
Proof.
  induction banks as [|[a n] banks IH]; cbn [find_dram]; [discriminate|]. destruct (_ && _) eqn:H.
  - intros [= -> ->]. apply andb_true_iff in H as [[_ B]%andb_true_iff F]. split; [now left|]. split; [apply Z.leb_le in B; lia|]. cbn [forallb] in F.
    repeat (apply andb_true_iff in F as [? F]). now repeat constructor.
  - intros I. destruct (IH I) as (X & Y & W). split; [now right|]. now split.
Qed.

Section Order.
Context {E : Emi} {L : EmiLaws E}.
Variables (TETRIS_MODEM_WINDOW : Z) (dram : option (list (Z * Z))) (rows_of : answer -> list tetris_modem_emi_row * Z * Z).
(** Three windows are mapped, inside one bank of memory together with the
    fourth; the images were placed in the first and their rows taken over, and
    the services were initialized: the last two requests. *)
Definition placed (p : tetris_modem_bootstrap_plan) (s : boot_trace) : Prop :=
  let r := resources p in
  exists t a i slot gear phy f n c, s = t ++ [(Load_rows slot f (w_capacity (firmware r)) gear phy (preloader_sha256 p) (window_words r), a);
      (Initialize_smem (f, w_capacity (firmware r)) (n, w_capacity (nc r)) (c, w_capacity (cache r)), i)] /\
    handles t = [f; n; c] /\ result a = 0 /\ result i = 0 /\ rows_of a = (rows p, nc_capacity p, cache_capacity p) /\
    (exists banks, dram = Some banks /\ In (dram_base r, dram_size r) banks) /\ Forall (fun w => held_by (dram_base r) (dram_size r) w = true) [firmware r; nc r; cache r; sib r].
(** The windows are given back in the opposite order, whatever happened; and
    the modem was left alone, or started with the plan that was placed. *)
Definition loads (K : boot_trace -> Prop) (b : boot_state) (r : Z * load_state) (s : boot_trace) : Prop :=
  unmapped s = reverse (handles s) /\ (r.1 = 0 -> l_stage (loaded r.2) = TETRIS_MD_LOAD_COMPLETE) /\
  (silent s /\ r.1 <> 0 \/
   exists p x pre mid post, s = pre ++ mid ++ post /\ silent pre /\ silent post /\ K pre /\ placed p pre /\ boot_ordered b (Some p) x mid /\ boot r.2 = x.2 /\ (r.1 = 0 <-> x.1 = 0)).
Definition unconditional (s : boot_trace) : Prop := True.
Lemma placed_after p s s' : calm s -> placed p s' -> placed p (s ++ s').
Proof.
  intros (_ & Hh & _) (t & a & i & sl & ge & ph & f & n & c & -> & T & P). exists (s ++ t), a, i, sl, ge, ph, f, n, c. split; [now rewrite <- app_assoc|]. split; [now rewrite handles_app, Hh|exact P].
Qed.
Lemma loads_after (K : boot_trace -> Prop) b r s s' : calm s -> (forall t, K (s ++ t)) -> loads unconditional b r s' -> loads K b r (s ++ s').
Proof.
  intros Cs HK (U & C & O). destruct Cs as (S & Hh & Hu) eqn:Ec. clear Ec. split; [now rewrite unmapped_app, handles_app, Hh, Hu|]. split; [exact C|].
  destruct O as [[Q N]|(p & x & pre & mid & post & -> & Q1 & Q2 & _ & P & O)]; [left; split; [now apply quiet_app|exact N]|]. right.
  exists p, x, (s ++ pre), mid, post. split; [now rewrite <- !app_assoc|]. split; [now apply quiet_app|]. split; [exact Q2|]. split; [apply HK|]. split; [now apply placed_after|exact O].
Qed.
Lemma fail_nonzero o e : (fail o e).1 <> 0.
Proof. unfold fail. cbn [fst]. destruct (Z.eqb_spec (l_error (loaded o)) 0); [|assumption]. destruct (Z.ltb_spec e 0); [lia|discriminate]. Qed.
Lemma loads_fail b o e : loads unconditional b (fail o e) [].
Proof. split; [reflexivity|]. split; [intros H; now destruct (fail_nonzero o e)|]. left. split; [constructor|apply fail_nonzero]. Qed.
Lemma reserve_loads o s w capacity q next : (forall a, calm [(q, a)]) -> (forall o', boot o' = boot o -> performs (next o') (loads unconditional (boot o))) ->
  performs (reserve o s w capacity q next) (loads unconditional (boot o)).
Proof.
  intros Q H. unfold reserve. cbn zeta. apply performs_ask_bind. intros a.
  specialize (Q a).
  destruct (result a =? 0); cbn [negb].
  - eapply performs_impl; [now apply H|]. intros r s' R. now apply (loads_after _ _ _ [(q, a)]).
  - trace_step. now apply (loads_after _ _ _ [(q, a)] []), loads_fail.
Qed.
(** The start: what [ModemBoot] shows, and no mappings. *)
Lemma start_ordered o el : mutated (boot o) = 0 -> cleanup_attempted (boot o) = 0 ->
  performs (load_start o el) (fun r s => handles s = [] /\ unmapped s = [] /\ boot_ordered (boot o) (Some (l_bootstrap (loaded o))) (r.1, boot r.2) s /\ (r.1 = 0 -> l_stage (loaded r.2) = TETRIS_MD_LOAD_COMPLETE)).
Proof.
  intros Hm Hc. unfold load_start. cbn zeta. eapply performs_bind; [apply performs_and; [now apply modem_power_order|apply performs_and; [apply modem_monitor_calls|apply bootstrap_reports]]|].
  intros x s (O & M & At). cbv beta in At. apply monitored_unmapped in M as [M1 M2]. trace_step. rewrite app_nil_r. split; [exact M1|]. split; [exact M2|]. rewrite At.
  cbn [fst snd]. destruct x as [v b]. cbn [fst snd] in *. split; [destruct (v =? 0); exact O|]. intros ->. reflexivity.
Qed.
Definition windows_held (p : tetris_modem_bootstrap_plan) : Prop :=
  let r := resources p in (exists banks, dram = Some banks /\ In (dram_base r, dram_size r) banks) /\ Forall (fun w => held_by (dram_base r) (dram_size r) w = true) [firmware r; nc r; cache r; sib r].
(** After the mappings: nothing was started, or it was after both requests. *)
Definition mapped_part (b : boot_state) (f n c : Z) (r : Z * load_state) (s : boot_trace) : Prop :=
  handles s = [] /\ unmapped s = [] /\ (r.1 = 0 -> l_stage (loaded r.2) = TETRIS_MD_LOAD_COMPLETE) /\
  (silent s /\ r.1 <> 0 \/ (f <> 0 /\ n <> 0 /\ c <> 0) /\ exists p pre mid, s = pre ++ mid /\ silent pre /\ boot_ordered b (Some p) (r.1, boot r.2) mid /\ (forall t, handles t = [f; n; c] -> placed p (t ++ pre))).
Lemma load_mapped_part o el g f n c : mutated (boot o) = 0 -> cleanup_attempted (boot o) = 0 -> windows_held (l_bootstrap (loaded o)) ->
  performs (load_mapped rows_of o el g f n c) (mapped_part (boot o) f n c).
Proof.
  intros Hm Hc W. unfold load_mapped. cbn zeta.
  assert (S : forall v o' s, v <> 0 -> calm s -> mapped_part (boot o) f n c (v, o') s) by (intros v o' s Hv (C1 & C2 & C3); split; [exact C2|]; split; [exact C3|]; split; [contradiction|now left]).
  destruct ((f =? 0) || (n =? 0) || (c =? 0)) eqn:Z0; [trace_step; apply S; [discriminate|now repeat constructor]|].
  trace_step. destruct (Z.eqb_spec (result p) 0) as [R|R]; cbn [negb]; [|trace_step; apply S; [exact R|]; now repeat constructor].
  trace_step. destruct (Z.eqb_spec (result p0) 0) as [R0|R0]; cbn [negb]; [|trace_step; apply S; [exact R0|]; now repeat constructor].
  eapply performs_impl; [now apply start_ordered|]. intros r s (H1 & H2 & H3 & H4). split; [exact H1|]. split; [exact H2|]. split; [exact H4|]. right.
  split; [apply orb_false_iff in Z0 as [[Zf Zn]%orb_false_iff Zc]; now rewrite <- !Z.eqb_neq|]. eexists _, [_; _], s. split; [reflexivity|]. split; [now repeat constructor|]. split; [exact H3|]. intros t Ht. exists t, p, p0, (a_slot g), (a_ccb_gear g), (a_phy_gear g), f, n, c.
  cbn. unfold set_rows. destruct (rows_of p) as [[l x] y] eqn:Er. cbn. split; [reflexivity|]. split; [exact Ht|]. repeat (split; [assumption || reflexivity|]). exact W.
Qed.
Definition handle (m : Z) : list Z := if m =? 0 then [] else [m].
Lemma performs_map w : performs (map_sysmem w) (fun m s => silent s /\ handles s = handle m /\ unmapped s = []).
Proof.
  unfold map_sysmem. trace_step. trace_step. split; [now repeat constructor|]. split; [|reflexivity]. cbn. unfold handle. now destruct (u64 (result p) =? 0).
Qed.
Lemma performs_unmap m : performs (unmap m) (fun _ s => silent s /\ handles s = [] /\ unmapped s = handle m).
Proof.
  unfold unmap, handle. destruct (m =? 0); [trace_step; now repeat constructor|]. trace_step. trace_step. now repeat constructor.
Qed.
Lemma performs_unmaps {A} c n f (x : A) (R : A -> boot_trace -> Prop) : (forall s, silent s -> handles s = [] -> unmapped s = handle c ++ handle n ++ handle f -> R x s) ->
  performs (let! _ := unmap c in let! _ := unmap n in let! _ := unmap f in ret x) R.
Proof.
  intros H. eapply performs_bind; [apply performs_unmap|]. intros _ s1 (A1 & B1 & C1). eapply performs_bind; [apply performs_unmap|]. intros _ s2 (A2 & B2 & C2).
  eapply performs_bind; [apply performs_unmap|]. intros _ s3 (A3 & B3 & C3). trace_step. rewrite app_nil_r. apply H; rewrite ?handles_app, ?unmapped_app, ?B1, ?B2, ?B3, ?C1, ?C2, ?C3; try reflexivity. now repeat apply quiet_app.
Qed.
Lemma performs_maps {A} wf wn wc (k : Z -> Z -> Z -> boot_io A) (R : A -> boot_trace -> Prop) :
  (forall f n c s, silent s -> handles s = handle f ++ handle n ++ handle c -> unmapped s = [] -> performs (k f n c) (fun x s' => R x (s ++ s'))) ->
  performs (let! f := map_sysmem wf in let! n := map_sysmem wn in let! c := map_sysmem wc in k f n c) R.
Proof.
  intros H. eapply performs_bind; [apply performs_map|]. intros f s1 (A1 & B1 & C1). eapply performs_bind; [apply performs_map|]. intros n s2 (A2 & B2 & C2).
  eapply performs_bind; [apply performs_map|]. intros c s3 (A3 & B3 & C3). eapply performs_impl; [apply (H f n c (s1 ++ s2 ++ s3))|]; [now repeat apply quiet_app|now rewrite !handles_app, B1, B2, B3|now rewrite !unmapped_app, C1, C2, C3|].
  intros x s Hx. cbv beta in Hx. now rewrite <- !app_assoc in Hx.
Qed.
Lemma handle_reverse m : reverse (handle m) = handle m.
Proof. unfold handle. now destruct (m =? 0). Qed.
(** The three mappings, what follows, and the same mappings undone. *)
Lemma mapped_loads b f n c x s0 s s' : silent s0 -> handles s0 = handle f ++ handle n ++ handle c -> unmapped s0 = [] -> mapped_part b f n c x s ->
  silent s' -> handles s' = [] -> unmapped s' = handle c ++ handle n ++ handle f ->
  loads unconditional b (if x.1 =? 0 then (0, x.2) else fail x.2 x.1) (s0 ++ s ++ s').
Proof.
  intros A0 B0 C0 (B1 & C1 & St & H) A2 B2 C2. split.
  { rewrite !unmapped_app, !handles_app, B0, B1, B2, C0, C1, C2. cbn [Datatypes.app]. now rewrite app_nil_r, !reverse_app, !handle_reverse, app_assoc. }
  split; [destruct (Z.eqb_spec x.1 0); [intros _; now apply St|intros Hf; now destruct (fail_nonzero _ _ Hf)]|].
  assert (Fx : (if x.1 =? 0 then (0, x.2) else fail x.2 x.1).1 = 0 <-> x.1 = 0) by (destruct (Z.eqb_spec x.1 0); [now split|split; [intros Hf; now destruct (fail_nonzero _ _ Hf)|contradiction]]).
  destruct H as [[Q X]|((Nf & Nn & Nc) & p & pre & mid & -> & Q & O & P)]; [left; split; [now repeat apply quiet_app|now rewrite Fx]|].
  right.
  exists p, (x.1, boot x.2), (s0 ++ pre), mid, s'. split; [now rewrite <- !app_assoc|]. split; [now apply quiet_app|]. do 2 (split; [done|]). split; [apply P; rewrite B0; unfold handle; now rewrite !(proj2 (Z.eqb_neq _ _))|].
  split; [exact O|]. split; [now destruct (x.1 =? 0)|exact Fx].
Qed.
Lemma load_map_loads o el g : mutated (boot o) = 0 -> cleanup_attempted (boot o) = 0 -> performs (load_map dram rows_of o el g) (loads unconditional (boot o)).
Proof.
  intros Hm Hc. unfold load_map. cbn zeta. destruct dram as [banks|] eqn:D; [|trace_step; apply loads_fail]. destruct (find_dram banks _) as [[start size]|] eqn:F; [|trace_step; apply loads_fail].
  apply find_dram_holds in F as (I & _ & W). apply performs_maps. intros f n c s0 A0 B0 C0. eapply performs_bind; [apply load_mapped_part; [exact Hm|exact Hc|split; [now exists banks|exact W]]|].
  intros x s M. apply performs_unmaps. intros s' A2 B2 C2. now apply (mapped_loads _ f n c).
Qed.
Lemma load_reserve_loads o el g : mutated (boot o) = 0 -> cleanup_attempted (boot o) = 0 -> performs (load_reserve TETRIS_MODEM_WINDOW dram rows_of o el g) (loads unconditional (boot o)).
Proof.
  intros Hm Hc. unfold load_reserve. assert (M : forall o', boot o' = boot o -> performs (load_map dram rows_of o' el g) (loads unconditional (boot o))) by (intros o' Eo; rewrite <- Eo; apply load_map_loads; congruence).
  assert (C : forall a, calm [(Reserve_window, a)]) by (intros; now repeat constructor). assert (C' : forall i n a, calm [(Reserve_bank i n, a)]) by (intros; now repeat constructor).
  apply reserve_loads; [exact C|]. intros o1 E1. rewrite <- E1. apply reserve_loads; [apply C'|]. intros o2 E2. rewrite <- E2. apply reserve_loads; [apply C'|]. intros o3 E3. rewrite <- E3.
  cbn zeta. destruct (_ =? 0); [rewrite E3, E2, E1; apply M; congruence|]. apply reserve_loads; [apply C'|]. intros o4 E4. rewrite E3, E2, E1. apply M. congruence.
Qed.
Lemma cold_off_calm l : forall o, performs (cold_off l o) (fun r s => calm s /\ boot r.2 = boot o /\ (r.1 = 0 -> off_seen l s)).
Proof.
  induction l as [|[[a m] x] l IH]; intros o; cbn [cold_off]; [trace_step; now repeat constructor|]. apply performs_readl. intros v. cbn zeta. destruct (Z.eqb_spec (Z.land (u32 (result v)) m) x) as [V|V]; cbn [negb].
  - eapply performs_impl; [apply IH|]. intros r s (C & B & O). split; [apply (load_calm_app [_]); [now repeat constructor|exact C]|]. split; [exact B|]. intros R. constructor; [exists v; split; [now left|exact V]|].
    apply (off_seen_app l [_] s). right. now apply O.
  - trace_step. split; [now repeat constructor|]. now split.
Qed.
Lemma loads_weaken K b r s : calm s -> r.1 <> 0 -> loads K b r s.
Proof. intros (S & Hh & Hu) N. split; [now rewrite Hh, Hu|]. split; [contradiction|now left]. Qed.
(** C22. Whatever the boot loader answers, an attempt to load and start the
    modem gives back each of the windows that it mapped, once and in the
    opposite order. It writes no register of the modem and fails, or it starts
    the modem ([boot_ordered]: power and buses up in order, down again after a
    failure) after five registers said that it is off, with a plan whose windows
    lie in one bank of memory and whose images and services were placed there
    by the two requests just before. The attempt succeeds exactly when that
    start does, and is then complete. *)
Theorem loaded_boot_order o el given g digest : mutated (boot o) = 0 -> cleanup_attempted (boot o) = 0 ->
  performs (tetris_modem_loaded_boot_once TETRIS_MODEM_WINDOW dram rows_of o el given g digest) (fun r s =>
    unmapped s = reverse (handles s) /\ (r.1 = 0 -> l_stage (loaded r.2) = TETRIS_MD_LOAD_COMPLETE) /\
    (silent s /\ r.1 <> 0 \/
     exists p x pre mid post, s = pre ++ mid ++ post /\ silent pre /\ silent post /\ off_seen cold_off_rows pre /\ placed p pre /\
       boot_ordered (boot o) (Some p) x mid /\ boot r.2 = x.2 /\ (r.1 = 0 <-> x.1 = 0))).
Proof.
  intros Hm Hc. change (performs (tetris_modem_loaded_boot_once TETRIS_MODEM_WINDOW dram rows_of o el given g digest) (loads (off_seen cold_off_rows) (boot o))).
  unfold tetris_modem_loaded_boot_once. destruct (Z.eqb_spec (l_attempted o) 0) as [A|A]; cbn [negb].
  2:{ trace_step. apply loads_weaken; [now repeat constructor|]. cbn. destruct (Z.eqb_spec (l_error (loaded o)) 0); [discriminate|assumption]. }
  assert (F : forall o' e, loads (off_seen cold_off_rows) (boot o) (fail o' e) []) by (intros; apply loads_weaken; [now repeat constructor|apply fail_nonzero]).
  cbn zeta. destruct (_ || _); [trace_step; apply F|]. destruct (negb _); [trace_step; apply F|]. destruct (phy_capacity _) as [e|capacity]; [trace_step; apply F|].
  trace_step. destruct (negb _); [trace_step; apply loads_weaken; [now repeat constructor|apply fail_nonzero]|].
  eapply performs_bind; [apply cold_off_calm|]. intros c s (C & B & O). cbn in B. assert (C1 : calm ((Atf_profile, p) :: s)) by (apply (load_calm_app [_]); [now repeat constructor|exact C]).
  destruct (Z.eqb_spec c.1 0) as [Z|Z]; cbn [negb]; [|trace_step; rewrite app_nil_r; apply loads_weaken; [exact C1|apply fail_nonzero]].
  rewrite <- B. eapply performs_impl; [apply load_reserve_loads; congruence|]. intros r s' R. apply (loads_after _ _ _ (_ :: s)); [exact C1| |exact R].
  intros t. apply (off_seen_app _ (_ :: s) t). left. apply (off_seen_app _ [_] s). right. now apply O.
Qed.
End Order.

(** ** An instance *)

Definition fresh_load : load_state :=
  Load 0 (Loaded_report TETRIS_MD_LOAD_INPUT 0 0 0 (Plan (Resources (Emi_window 0 0) (Emi_window 0 0) (Emi_window 0 0) (Emi_window 0 0) 0 0) [] 0 0 (repeat 0 32)) None) fresh_boot.
(** The boot loader around [sample_modem]; [services]: the answer of the initialization. *)
Definition sample_loader (services : Z) : environment call answer := fun t q =>
  match q with
  | Reserve_window => Answer 0 [0x40000000]
  | Reserve_bank bank _ => Answer 0 [0x50000000 + bank * 0x10000000]
  | Map_sysmem base _ => Answer base []
  | Initialize_smem _ _ _ => Answer services []
  | _ => sample_modem ALL_ONE t q
  end.
Definition sample_dram : option (list (Z * Z)) := Some [(0, 0x1000); (0x40000000, 0x80000000)].
Definition sample_rows (_ : answer) : list tetris_modem_emi_row * Z * Z := (rows sample_plan, 0x1000, 0x1000).
Definition sample_load : boot_io (Z * load_state) :=
  tetris_modem_loaded_boot_once 0x8000000 sample_dram sample_rows fresh_load 1 true (Arguments_of 97 0 (Some [49; 54])) row_pin.
(** An attempt that starts the modem, and one whose services are refused. *)
Lemma loaded_boot_order_witness : mutated (boot fresh_load) = 0 /\ cleanup_attempted (boot fresh_load) = 0 /\
  (exists r s p x pre mid post, sample_load (sample_loader 0) [] = (r, s) /\ r.1 = 0 /\ s = pre ++ mid ++ post /\ placed sample_dram sample_rows p pre /\ boot_ordered fresh_boot (Some p) x mid /\
    write_targets s = target <$> up_script /\ unmapped s = [0x60000000; 0x50000000; 0x40000000]) /\
  (let '(r, s) := sample_load (sample_loader (- EIO)) [] in
   r.1 = - EIO /\ write_targets s = [] /\ l_stage (loaded r.2) = TETRIS_MD_LOAD_SERVICES /\ unmapped s = [0x60000000; 0x50000000; 0x40000000]).
Proof.
  split; [reflexivity|]. split; [reflexivity|]. split; [|vm_compute; now repeat split].
  destruct (loaded_boot_order 0x8000000 sample_dram sample_rows fresh_load 1 true (Arguments_of 97 0 (Some [49; 54])) row_pin eq_refl eq_refl (sample_loader 0) []) as (r & s & R & H). cbn [Datatypes.app] in R.
  assert (V : (r, s).1.1 = 0 /\ write_targets (r, s).2 = target <$> up_script /\ unmapped (r, s).2 = [0x60000000; 0x50000000; 0x40000000]) by (rewrite <- R; vm_compute; now repeat split). destruct V as (V1 & V2 & V3).
  destruct H as (_ & _ & [[_ N]|(p & x & pre & mid & post & Es & _ & _ & _ & Hp & Hb & _)]); [destruct (N V1)|]. exists r, s, p, x, pre, mid, post. do 6 (split; [assumption|]). exact V3.
Defined.
